(* ===== verification/_CoqProject ===== *)
-Q . S2P
Prelude.v
Json.v
JsonParse.v
Encoding.v
Tokens.v
NatsJwt.v
EnvironmentCrypto.v
Sse.v
PayloadSanitizer.v
Sql.v
Schema.v
EventLog.v
EventStream.v
SseServer.v
TurnQueue.v
Goals.v
ParentWake.v
Activity.v
Access.v
AccessRoutes.v
Connections.v
RateLimit.v
Enrollments.v
EnrollmentSafety.v
Billing.v
Stripe.v
Limits.v
Rigs.v
RigFlow.v
GoalActivities.v
SessionActivities.v
SessionWorkflow.v
SandboxLease.v
Metering.v
HistorySanitizer.v
RequestRewrites.v
Coalesce.v
TimelineItems.v
Timeline.v
TimelineGroups.v
Compaction.v
CodexRotation.v
CodexLease.v
CodexSettle.v
CapacityWait.v
ControlRpc.v
NetworkGuard.v
ConnectionBroker.v
OAuthClient.v
OpStream.v
Fleet.v
FaultRendering.v
Routing.v
