(* ===== verification/Prelude.v ===== *)
(** * OpenGeni: verification development

    OpenGeni runs coding agents as durable sessions.  A user (or a parent
    session) enqueues turns; a Temporal workflow per session claims them one at
    a time and runs each as an activity that talks to a model and to a shared
    sandbox; everything that happens is appended to the session's event log,
    which browsers and SDK clients follow over server-sent events.  PostgreSQL
    holds all state, and every repository function is one transaction on rows it
    locks.  This library models that core from the TypeScript sources (paths are
    relative to the repository) and proves what makes it correct.

    ** How the program is modelled

    - A transaction is a function from the database to a result and the next
      database; [Sql] reads [where], [update], [order by .. limit] as list
      operations, [Schema] has the rows.  When a transaction throws, the database
      is the one it started from.  Row locks make transactions atomic, so
      concurrent workers are sequences of transactions in any order.
    - An activity or a request handler is a program over transactions
      ([Activity]): other actors may commit between two of its [await]s, a
      transaction may fail, a worker may die.  A pool is any number of programs in
      flight over one database; an invariant every transaction keeps holds in
      every state a pool reaches ([Activity.pool_invariant]).
    - The workflow, the SSE endpoint and the client stream are machines whose
      control points are the [await]s of the source; the straight-line code
      between two of them is one step.  What the outside world answers (a
      transport, an activity, the clock) is an argument or a universally
      quantified script.
    - Wire data is [Json.json]: objects are association lists in insertion order,
      strings are lists of UTF-16 code units ([jstr]), a possibly [undefined]
      value is an [option]; [JSON.stringify], [JSON.parse], UTF-8 and base64url
      are definitions ([Json], [JsonParse], [Encoding]).  Numbers the code inspects
      are integers ([Z]): a literal with a fraction or an exponent is outside the
      model, its parser reads it as an error.  32-bit arithmetic (the session hash
      of [CodexRotation]) is wrapped explicitly.
      Identifiers and members of closed enumerations are [string]s.  Times are
      milliseconds.

    ** The files

    - [Prelude]: notations (scope [opengeni_scope]), record update, [result],
      sorting and list lemmas.  [Json]: values, reads and printing; [JsonParse]:
      the parser; [Encoding]: UTF-8 and base64url.  [Sql], [Schema]: tables and
      rows.
    - [Sse]: packages/sdk/src/sse.ts ([parseSseStream]) and the printer
      [formatSse] of packages/events/src/index.ts.
    - [EventStream]: packages/sdk/src/stream.ts ([streamSessionEvents]: connect,
      consume, backfill gaps, reconnect with backoff).
    - [SseServer]: apps/api/src/http/sse.ts ([sseSessionStream]: replay, flush of
      the buffer, live forwarding) as two interleaved tasks.
    - [PayloadSanitizer]: packages/db/src/event-payload-sanitizer.ts.
    - [EventLog]: the append and read paths of session_events in
      packages/db/src/index.ts, and the interface [DurableLog] both stream
      components are proved against.
    - [TurnQueue], [Goals], [ParentWake]: session_turns, session_goals and the
      wake of a parent session in packages/db/src/index.ts.
    - [Activity], [GoalActivities], [SessionActivities]: the activities of
      apps/worker/src/activities/goals.ts, session-state.ts and parent-wake.ts.
    - [SessionWorkflow]: apps/worker/src/workflows/session.ts.
    - [SandboxLease]: sandbox_leases and sandbox_lease_holders in
      packages/db/src/index.ts (acquire, commit, release, reap, drain, snapshot).
    - [HistorySanitizer], [RequestRewrites]: packages/runtime/src/history-sanitizer.ts
      (the filter of replayed histories; the rewrites of items, run states and
      request bodies).  [Compaction]: packages/runtime/src/context-compaction.ts.
      [Coalesce]: packages/events/src/coalesce.ts.
    - [CodexRotation]: apps/worker/src/activities/codex-rotation.ts (which
      subscription account serves a turn).  [CodexLease], [CodexSettle]: the lease
      of an account by a turn, and the settlement of a turn that lost it, in
      packages/db/src/index.ts.
    - [Billing], [Stripe]: the credit ledger, usage events, billing customers and
      webhook records of packages/db/src/index.ts, and the webhook handlers of
      apps/api/src/routes/billing.ts.  [Limits]: packages/core/src/billing/limits.ts,
      the pricing of packages/config/src/index.ts and the admission and usage
      recording of agent-turn.ts.  [Metering]: the warm-time meter and the force
      drain of packages/db/src/index.ts, driven by activities/sandbox-lease.ts.
    - [CapacityWait]: codex_capacity_waiters in packages/db/src/index.ts (a goal
      that waits until an account can serve it).
    - [ControlRpc]: packages/runtime/src/sandbox/selfhosted/control-rpc.ts and
      retry-policy.ts (the calls to a connected machine).  [OpStream]:
      op-correlation.ts and selfhosted/op-stream.ts (durable operation ids, and
      the streamed exec with its acks, attaches and byte-exact check).
    - [Rigs], [RigFlow]: rigs, rig_versions and rig_changes in
      packages/db/src/index.ts; the handlers of packages/core/src/rigs/index.ts and
      apps/api/src/routes/rigs.ts and the activities of
      apps/worker/src/activities/rig-verification.ts.
    - [Tokens]: the signed tokens of packages/contracts/src/index.ts.  [Access]:
      packages/core/src/access/index.ts over the account, workspace, membership
      and key tables of packages/db/src/index.ts.  [AccessRoutes]: the routes of
      apps/api/src/routes/workspaces.ts and api-keys.ts that write them.
    - [EnvironmentCrypto]: packages/db/src/environment-crypto.ts.  [Connections]: the
      connections of packages/db/src/index.ts and the routes of
      apps/api/src/routes/connections.ts.  [ConnectionBroker]:
      packages/db/src/connection-token-resolver.ts (headers from a connection, its
      tokens refreshed by any number of processes); [NetworkGuard]: the private
      networks of the same file.  [OAuthClient]:
      apps/api/src/integrations/oauth-client.ts and the signed state of
      packages/github/src/index.ts (a connection made through an authorization
      server).
    - [NatsJwt]: packages/events/src/nats-jwt.ts (the JWTs of the message bus).
      [RateLimit]: the token bucket of apps/api/src/routes/enrollments.ts.
      [Enrollments]: the enrollment of machines: enrollments, device_enrollment_requests
      and sandboxes in packages/db/src/index.ts, apps/api/src/sandbox/enrollment.ts
      with its routes, and the responder auth-callout.ts that admits machines to the
      bus.  [EnrollmentSafety]: the same under interleaving, through the interface
      [Keeps] of what a task of the component keeps.
    - [Fleet]: the fleet of a session and its epoch-fenced active pointer
      (packages/core/src/sandbox/fleet.ts, selfhosted/capabilities.ts,
      packages/db/src/index.ts).  [Routing]: routing/routing-session.ts and
      backend-resolver.ts of packages/runtime/src/sandbox (the proxy that resolves the
      pointer per operation).  [FaultRendering]: selfhosted/fault-rendering.ts (what a
      fault tells the model).
    - [TimelineItems], [Timeline], [TimelineGroups]: timeline/projection.ts,
      timeline/types.ts and lib/format.ts of packages/react/src (the rendered
      timeline as a fold of the event log, and its groups).

    ** What the theorems show

    - Streaming.  The server's sequence of events has no gap under every
      interleaving ([sse_no_gap]) and is complete ([sse_complete]); the client
      yields consecutive sequences whatever the transport does, as
      long as its frames carry whole ones ([stream_contiguous]), exactly the log over an honest one
      ([stream_refines_log]) and all of it when asked to ([stream_delivers_all]);
      the incremental parser equals the line-by-line reference however the bytes
      are cut, and reads back what is printed.
    - The log.  Appends keep sequences consecutive and unique
      ([append_preserves_log]) and pages refine an append-only list
      ([append_refines_log]); stored payloads are storable and free of the
      redacted values.
    - Turns, goals and sessions.  The queue order under enqueue, claim, requeue
      and reorder; a dead attempt cannot touch its successor ([zombie_fenced]) and
      worker deaths redispatch a bounded number of times ([redispatch_bounded]),
      both as long as nobody replaces the metadata of that turn; from the moment
      an interrupt is pending nothing is dispatched before it is carried out
      ([interrupts_first]);
      an idle exit strands no signalled turn; a goal loop without progress ends;
      a child's completion leaves its parent a queued turn that tells of it, once
      ([wake_exactly_once]), and wakes fold into one digest.
    - The sandbox lease.  One spawner at a time, the ten operations that write
      under an epoch are fenced by it ([superseded_fenced]; an acquire is not), the
      liveness machine has only its documented transitions.
    - Model requests.  A sanitized history pairs every call with its result and
      leaves a valid history alone; run states that change account carry nothing
      account-bound; compaction keeps every user message and fits its budget;
      coalescing loses and reorders no text.
    - Credentials.  A turn only gets an account it may use, the best one - a usable one,
      or the active one while rotation is off ([selection_sound]); idles
      end exactly when capacity returns; a burst of turns spreads evenly over the
      pool; a replaced activity can no longer touch a lease; a failover happens
      completely or not at all, and a bounded number of times.
    - Access.  A signed token reads back as signed and, but for one pair of
      kinds, as nothing else ([token_reads_as_signed]); a grant carries what a
      token, a live key or a membership backs ([grant_backed]) and the
      outcome of every request is the one its credentials and the tables give
      ([access_outcomes]); a key stays in its workspace, within its
      permissions, and dead once revoked ([key_confined]), and is no stronger than
      its maker ([key_not_stronger]).
    - Connections.  A stored credential is read back with its key
      ([decrypts_what_it_encrypted]); of the refreshes of one version one is stored,
      for the credential it was exchanged for, and a new login is asked for only
      after that credential was rejected ([refreshes_are_fenced]); who gets headers
      gets those of an active credential with the scopes asked for
      ([resolutions_are_honest]); private addresses are refused in every spelling
      ([guard_exact], [guard_fails_closed], [fetch_stays_allowed]); a signed state
      reads back for ten minutes ([state_reads_back]), passes once before it expires
      ([states_are_single_use]), and reconnects only what did not change since
      ([reconnect_is_guarded]).
    - Credits.  Interleaved debits never take more than an account was granted
      ([debits_never_overdraw]); a paid checkout credits exactly what it promised,
      once ([checkout_credited]); a dispute never pays out however its events
      arrive ([dispute_never_pays]); a model response takes at most its cost
      however often its turn runs ([response_charged_once]), and a price is the
      exact one rounded up ([model_cost_bounds]); the worker starts what the API
      admitted ([admitted_run_starts]).
    - Warm time.  The usage events of the ticks hold no more than the elapsed time
      and lose less than a second each ([warm_meter_bounds]); a workspace over its limit loses exactly
      the boxes no turn holds ([force_drain_spares_turns]).
    - Rigs.  Definitions are versioned and immutable with one version active, and
      merges are final ([rig_history_immutable]); a merged change became what it
      proposed ([merged_as_proposed]), by the verdict of its verification
      ([verification_verdict]), on what was verified ([promoted_is_candidate]).
    - Rendering.  The timeline shows every event once, but the messages whose
      turns were withdrawn, with queued messages before the start of their turn, as
      the log has it ([order_exact]); merged deltas render as the deltas themselves
      when none is empty ([coalesced_renders_same]); the items of an ended turn are at rest
      ([settled_turn_quiet]); grouping loses and reorders nothing
      ([group_lossless]).
    - Capacity waits.  Arming a wait is atomic and repeatable ([arm_atomic]), a
      wake is listed until it is evaluated ([wake_kept]), a wait ends once
      ([resume_once]), and what a resume queues is claimed next and validates
      itself ([resume_runs]).
    - Connected machines.  A mutation is issued again only if it provably was not
      sent ([retry_at_most_once]); a streamed exec runs at most once, its
      runner starting one command per op id and its refusals being true
      ([exec_at_most_once]), yields exactly the bytes of its frames
      ([op_output_exact]) and completes from a replay after any loss of its link
      ([op_replay_completes]); grants keep credit ahead ([credit_headroom]); a fault
      is told to the model as it is counted ([rendered_as_counted]).
    - Enrollment.  Credentials come from approved requests only, for the key that
      asked ([credentials_need_approval]); the bus admits a machine while its
      enrollment is active, to its own workspace's subjects ([callout_scoped],
      [credentials_follow_enrollment]), and a revoked one stays out under every
      interleaving until its key enrolls anew ([revoked_stays_out]); the routes admit
      at most the burst and the refill of a client ([rate_bounded]); the hash of a JWT
      is written in plain base32 ([base32_reference]).
    - Fleet and routing.  A session's pointer is null or names a machine a turn can
      address ([pointer_establishable]) and therefore resolves ([admitted_resolves]);
      of the swaps at one epoch one commits ([one_swap_per_epoch], and alone it does
      what it says, [swap_alone]); an operation runs on what its session's pointer stood
      for in a state it read while it ran ([routed_to_current]), and is retried only
      on what reads as a fence, a bounded number of times ([dispatch_retries]).

    Lemmas that exhibit behaviour the comments of the code do not admit are kept
    next to the component: [PayloadSanitizer.redaction_bypassed_by_nul],
    [SseServer.send_race], [Goals.reorder_hides_reengagement],
    [SessionWorkflow.stop_strands_signalled_turn] and [second_interrupt_lost],
    [SandboxLease.warming_death_loses_archive], [TurnQueue.edit_unfences_zombie],
    [ParentWake.fold_replaces_notice], [HistorySanitizer.duplicate_call_survives],
    [CodexRotation.sharded_disabled_idles], [CapacityWait.reorder_hides_newer_turn],
    [ControlRpc.digits_taken_for_unsent], [OpCorrelation.op_ids_collide],
    [OpStream.overflow_masked], [OpStream.collection_failure_ignored],
    [OpStream.fallback_reruns], [Timeline.timeline_of_log],
    [Timeline.goal_splits_stream], [Timeline.split_message_repeated],
    [Timeline.silent_head_renames], [ConnectionBroker.rejection_overtakes_refresh],
    [Billing.replay_reports_again], [Stripe.late_hold_stranded],
    [Stripe.annotated_refund_ignored], [Limits.cached_spellings_added],
    [Metering.cold_time_billed], [Metering.remainders_dropped],
    [RigFlow.verification_stuck], [RigFlow.rejected_reopened],
    [RigFlow.promoted_while_verifying], [Tokens.bearer_passes_as_relay],
    [Tokens.bad_json_throws], [AccessRoutes.self_promotion],
    [AccessRoutes.last_administrator_demoted], [AccessRoutes.owner_returns],
    [RateLimit.clock_back], [RateLimit.buckets_grow], [Fleet.working_dir_dropped],
    [Routing.ordinary_error_retried], [Routing.editor_not_swapped].

    ** Fuel and bounds

    - [Sse.drain] takes as fuel the length of the buffer: every round removes a
      line ([drain_spec]).  [EventStream.backfillEvents] takes the number of
      missing events: every round that goes on delivers one ([backfill_triple]).
      [EventStream.loop] is the unbounded reconnect loop observed for any number
      of iterations; theorems quantify over it.
    - [TimelineItems.extractSessionRef] takes the depth its source bounds (six
      nested calls).
    - [Routing.dispatchFrom] takes the number of retries the proxy allows;
      [Enrollments.startAttempts] and [Fleet.swapAttempts] the attempts of their loops.
    - [ControlRpc.callLoop] takes the number of attempts, one plus the retry
      budgets ([callLoop_spec]).  [OpStream.startLoop] takes the number of starts
      its wall allows ([startOp_spec]); [OpStream.drainStash] takes the size of
      the stash, which every round shrinks ([stash_drained]).
    - All other recursion is structural.

    ** Not modelled

    - Row-level security, HTTP routing and request validation (apps/api), most
      zod schemas (packages/contracts), environment parsing (packages/config):
      glue around the modelled operations, or data.  Of access control: the
      sessions of Better Auth and the user directory (arguments), SHA-256 and
      HMAC (parameters).
    - The model SDK, MCP servers, sandbox providers, object storage, GitHub and
      the message bus: services behind the interfaces above; where the models
      need them they are arguments.
    - The agent turn itself (apps/worker/src/activities/agent-turn.ts): it runs
      the agents SDK; the parts that decide something are modelled where they
      live.
    - The model policy: its answers are arguments of the activities.
    - React views (apps/web and the rest of packages/react), the Rust agent, generated protocol
      code and deployment files.
    - Of billing: the checkout page, the entitlements port of a host and the
      counts of workspaces, keys and schedules (arguments of the checks).
    - Of the rendered timeline: the React components that draw it.
    - Of enrollment: the JSON bodies of the routes with their 400s, verification
      URIs, exposure (one value), updated_at, metrics and logs; the SECURITY DEFINER
      resolvers are read as the queries of their migrations; nkeys and digests are
      parameters.  The clock of a rate limit is in milliseconds, its refill in half
      tokens a second, as its limiters have it.
    - Of routing: lazy wiring and the choice of desktop methods by presence; two
      operations on one proxy interleave at the steps of the model.
    - Of connections: AES-GCM, SHA-256, the URL parser, the name service and the
      servers are parameters (the laws of the cipher are those of its class); the
      verification of a server's tools is an argument, its logs are left out, and so
      is replaceIntegrationOAuthClient, which only tests call.  Lower-casing is
      that of ASCII.
    - Of a connected machine: the file, desktop and port operations; the digest of a streamed exec is a parameter, the jitter of a
      backoff an argument.
    - Of the credential tables: the encryption and refresh of tokens and the
      settings toggles; the availability policy of a capacity wait is an argument.
    - Floating point: percentages and token counts are integers; the compaction
      threshold is an argument. *)
From stdpp Require Export base list list_numbers option strings gmap sorting.
From Stdlib Require Export ZArith Lia Ascii String.
(* [String.length] and friends must not shadow the list functions. *)
From Stdlib Require Export List.
From stdpp Require Export prelude.

#[global] Open Scope Z_scope.

(** ** Record update: [r <| field := v |>]

    [etaOf r] rebuilds [r] from its projections; abstracting one projection in
    that eta-expansion gives the setter of the field. *)

Class Settable (R : Type) := etaOf : R -> R.

Class Setter {R T : Type} (proj : R -> T) := setWith : (T -> T) -> R -> R.

Ltac derive_setter proj :=
  match type of proj with
  | ?R -> _ =>
      let inst := constr:(_ : Settable R) in
      let inst' := eval hnf in inst in
      let abstracted := (eval pattern proj in inst') in
      match abstracted with
      | ?body _ => let s := constr:(fun f => body (fun r => f (proj r))) in
                   let s' := eval cbv beta in s in exact s'
      end
  end.

#[global] Hint Extern 1 (Setter ?proj) => derive_setter proj : typeclass_instances.

Declare Scope opengeni_scope.
Delimit Scope opengeni_scope with og.
Notation "r <| f := v |>" := (setWith (proj := f) (fun _ => v) r)
  (at level 1, left associativity, v at level 99) : opengeni_scope.
Notation "r <| f ::= g |>" := (setWith (proj := f) g r)
  (at level 1, left associativity, g at level 99) : opengeni_scope.
#[global] Open Scope opengeni_scope.
Arguments setWith {R T} proj {Setter} f r /.

(** ** Results of fallible code: a value or the thrown error. *)

Inductive result (E A : Type) : Type :=
| Ok (a : A)
| Err (e : E).
Arguments Ok {E A} a.
Arguments Err {E A} e.

(** ** JavaScript strings

    A JavaScript string is its sequence of UTF-16 code units.  [js "lit"] is an
    ASCII literal of the source. *)
Abbreviation jstr := (list Z).
Definition js (s : string) : jstr :=
  List.map (fun a => Z.of_N (N_of_ascii a)) (list_ascii_of_string s).

Lemma js_inj s t : js s = js t -> s = t.
Proof.
  unfold js. revert t. induction s as [|a s IH]; intros [|c t] H; cbn in H; try done. injection H as Ha Hs.
  f_equal; [|by apply IH]. apply N2Z.inj in Ha. by rewrite <- (ascii_N_embedding a), Ha, ascii_N_embedding.
Qed.

(** A string in a condition: the empty one is false. *)
Definition truthyId (t : option string) : option string := match t with Some EmptyString => None | _ => t end.

(** [String.prototype.trim]: white space and line terminators. *)
Definition isWhite (c : Z) : bool :=
  (9 <=? c) && (c <=? 13) || (c =? 32) || (c =? 160) || (c =? 5760) || (8192 <=? c) && (c <=? 8202)
  || (c =? 8232) || (c =? 8233) || (c =? 8239) || (c =? 8287) || (c =? 12288) || (c =? 65279).
Fixpoint trimStart (s : jstr) : jstr := match s with c :: s' => if isWhite c then trimStart s' else s | [] => [] end.
Definition trim (s : jstr) : jstr := rev (trimStart (rev (trimStart s))).

(** ** Tactics *)

(** Case analysis on every [match]/[if] scrutinee of the goal or of a
    hypothesis, keeping the equations. *)
Ltac break_match_goal :=
  match goal with
  | |- context [match ?x with _ => _ end] =>
      lazymatch x with context [match _ with _ => _ end] => fail | _ => destruct x eqn:? end
  end.
Ltac break_match_hyp :=
  match goal with
  | H : context [match ?x with _ => _ end] |- _ =>
      lazymatch x with context [match _ with _ => _ end] => fail | _ => destruct x eqn:? end
  end.
Ltac break_match := first [break_match_hyp | break_match_goal].

(** Boolean comparisons to propositions. *)
Ltac breflect :=
  repeat match goal with
  | H : _ && _ = true |- _ => apply andb_true_iff in H as [? ?]
  | H : _ || _ = false |- _ => apply orb_false_iff in H as [? ?]
  | H : negb _ = true |- _ => apply negb_true_iff in H
  | H : negb _ = false |- _ => apply negb_false_iff in H
  | H : (_ <? _)%Z = true |- _ => apply Z.ltb_lt in H
  | H : (_ <? _)%Z = false |- _ => apply Z.ltb_ge in H
  | H : (_ <=? _)%Z = true |- _ => apply Z.leb_le in H
  | H : (_ <=? _)%Z = false |- _ => apply Z.leb_gt in H
  | H : (_ =? _)%Z = true |- _ => apply Z.eqb_eq in H
  | H : (_ =? _)%Z = false |- _ => apply Z.eqb_neq in H
  | H : String.eqb _ _ = true |- _ => apply String.eqb_eq in H
  | H : String.eqb _ _ = false |- _ => apply String.eqb_neq in H
  | H : bool_decide _ = true |- _ => apply bool_decide_eq_true in H
  | H : bool_decide _ = false |- _ => apply bool_decide_eq_false in H
  end.

(** The same with comparisons of generated ids. *)
Ltac nreflect :=
  repeat (breflect; match goal with
  | H : Nat.eqb _ _ = true |- _ => apply Nat.eqb_eq in H
  | H : Nat.eqb _ _ = false |- _ => apply Nat.eqb_neq in H
  end); breflect.

(** The common end game of a case analysis over the code's branches. *)
Ltac crush := repeat (simplify_eq/=; try break_match); breflect; simplify_eq/=; try done; try lia; eauto.

(** ** Sequences without gaps *)

Section contiguous.
Implicit Types (l : list Z) (c : Z).

(** [contiguous c l]: [l] is [c+1, c+2, ...]. *)
Definition contiguous c l : Prop := l = seqZ (c + 1) (Z.of_nat (length l)).

Lemma contiguous_nil c : contiguous c [].
Proof. done. Qed.

Lemma contiguous_snoc c l :
  contiguous c l -> contiguous c (l ++ [c + Z.of_nat (length l) + 1]).
Proof.
  unfold contiguous. intros H. rewrite length_app; cbn [length].
  rewrite (Nat2Z.inj_add (length l) 1), seqZ_app by lia. rewrite <- H. f_equal.
  rewrite seqZ_cons by done. cbn. f_equal. lia.
Qed.

Lemma contiguous_cons_inv c x l : contiguous c (x :: l) -> x = c + 1 /\ contiguous (c + 1) l.
Proof.
  unfold contiguous. cbn [length]. rewrite Nat2Z.inj_succ, seqZ_cons by lia.
  intros [= Hx Hl]. split; [done|]. rewrite Hl at 1. f_equal; lia.
Qed.

Lemma contiguous_lookup c l i x :
  contiguous c l -> l !! i = Some x -> x = c + 1 + Z.of_nat i.
Proof.
  unfold contiguous. intros -> Hi. apply lookup_seqZ in Hi. lia.
Qed.
End contiguous.
#[export] Hint Resolve contiguous_nil : core.

(** ** [Array.prototype.sort] with a numeric key: a stable sort *)

Section sort_by.
Context {A : Type} (key : A -> Z).

Fixpoint insert_by (x : A) (l : list A) : list A :=
  match l with
  | [] => [x]
  | y :: l' => if key x <=? key y then x :: l else y :: insert_by x l'
  end.

Fixpoint sort_by (l : list A) : list A :=
  match l with
  | [] => []
  | x :: l' => insert_by x (sort_by l')
  end.

Definition key_le (x y : A) : Prop := key x <= key y.

Lemma insert_by_perm x l : insert_by x l ≡ₚ x :: l.
Proof.
  induction l as [|y l IH]; cbn; [done|].
  destruct (key x <=? key y); [done|]. rewrite IH. apply perm_swap.
Qed.

Lemma sort_by_perm l : sort_by l ≡ₚ l.
Proof. induction l as [|x l IH]; cbn; [done|]. by rewrite insert_by_perm, IH. Qed.

Lemma elem_of_sort_by x l : x ∈ sort_by l <-> x ∈ l.
Proof. by rewrite sort_by_perm. Qed.

Lemma insert_by_sorted x l :
  StronglySorted key_le l -> StronglySorted key_le (insert_by x l).
Proof.
  induction 1 as [|y l Hs IH Hy]; cbn; [repeat constructor|].
  destruct (key x <=? key y) eqn:E; breflect.
  - constructor; [by constructor|]. constructor; [done|].
    eapply Forall_impl; [exact Hy|]. unfold key_le. intros; cbn in *; lia.
  - constructor; [done|]. rewrite insert_by_perm. constructor; [unfold key_le; lia|done].
Qed.

Lemma sort_by_sorted l : StronglySorted key_le (sort_by l).
Proof. induction l; cbn; [constructor|]. by apply insert_by_sorted. Qed.

(** A list that is already in key order is left alone. *)
Lemma sort_by_id l : StronglySorted key_le l -> sort_by l = l.
Proof.
  induction 1 as [|x l Hs IH Hx]; cbn; [done|]. rewrite IH.
  destruct l as [|y l]; cbn; [done|].
  apply Forall_cons in Hx as [Hxy _]. unfold key_le in Hxy.
  destruct (key x <=? key y) eqn:E; [done|]. breflect. lia.
Qed.
End sort_by.

(** Contiguous keys are sorted. *)
Lemma contiguous_sorted {A} (key : A -> Z) c (l : list A) :
  contiguous c (List.map key l) -> StronglySorted (key_le key) l.
Proof.
  revert c; induction l as [|r l IH]; intros c Hc; [constructor|].
  cbn [List.map] in Hc. apply contiguous_cons_inv in Hc as [Hr Hl].
  constructor; [by eapply IH|]. apply Forall_forall. intros x [i Hi]%list_elem_of_lookup.
  assert (key x = c + 1 + 1 + Z.of_nat i); [|unfold key_le; lia].
  eapply contiguous_lookup; [exact Hl|]. by rewrite list_lookup_fmap, Hi.
Qed.

(** ** Filters that keep everything, or nothing *)

Lemma filter_all {A} (p : A -> bool) l : Forall (fun x => p x = true) l -> List.filter p l = l.
Proof. induction 1 as [|x l H _ IH]; cbn; [done|]. by rewrite H, IH. Qed.

Lemma filter_none {A} (p : A -> bool) l : Forall (fun x => p x = false) l -> List.filter p l = [].
Proof. induction 1 as [|x l H _ IH]; cbn; [done|]. by rewrite H, IH. Qed.

#[export] Instance filter_Permutation {A} (p : A -> bool) : Proper ((≡ₚ) ==> (≡ₚ)) (List.filter p).
Proof.
  intros l k H. induction H as [|x l k H IH|x y l|l k m _ IH1 _ IH2]; cbn.
  - done.
  - destruct (p x); by rewrite IH.
  - destruct (p x), (p y); try done. apply perm_swap.
  - by rewrite IH1.
Qed.

Lemma elem_filter {A} (p : A -> bool) x l : x ∈ List.filter p l <-> x ∈ l /\ p x = true.
Proof. rewrite !list_elem_of_In. apply filter_In. Qed.

Lemma NoDup_map_filter {A B} (g : A -> B) (p : A -> bool) l : NoDup (List.map g l) -> NoDup (List.map g (List.filter p l)).
Proof.
  induction l as [|x l IH]; cbn; [done|]. intros [Hx Hl]%NoDup_cons. destruct (p x); cbn; [|by apply IH].
  apply NoDup_cons. split; [|by apply IH]. intros (y & E & [Hy _]%elem_filter)%list_elem_of_fmap.
  apply Hx. rewrite E. by apply list_elem_of_fmap_2.
Qed.

Lemma filter_filter {A} (p q : A -> bool) l : (forall x, p x = true -> q x = true) -> List.filter p (List.filter q l) = List.filter p l.
Proof.
  intros H. induction l as [|x l IH]; [done|]. cbn. destruct (q x) eqn:Eq; cbn; [by rewrite IH|].
  destruct (p x) eqn:Ep; [by rewrite H in Eq|done].
Qed.

Lemma find_filter {A} (p : A -> bool) l : List.find p l = head (List.filter p l).
Proof. induction l as [|x l IH]; [done|]. cbn. by destruct (p x). Qed.

Lemma find_appended {A} (p : A -> bool) l1 l2 : List.find p (l1 ++ l2) = match List.find p l1 with Some x => Some x | None => List.find p l2 end.
Proof. induction l1 as [|x l1 IH]; [done|]. cbn. by destruct (p x). Qed.

Lemma find_all_false {A} (p : A -> bool) l : (forall x, x ∈ l -> p x = false) -> List.find p l = None.
Proof.
  intros H. rewrite find_filter, filter_none; [done|]. apply Forall_forall. exact H.
Qed.

Lemma head_elem {A} (l : list A) x : head l = Some x -> x ∈ l.
Proof. destruct l; intros [= ->]. left. Qed.

(** A list splits at the first occurrence of an element in one way. *)
Lemma split_unique {A} (x : A) l1 l2 m1 m2 : x ∉ l1 -> x ∉ m1 -> l1 ++ x :: l2 = m1 ++ x :: m2 -> l1 = m1 /\ l2 = m2.
Proof.
  revert m1; induction l1 as [|y l1 IH]; intros [|z m1] Hl Hm H; cbn in H; simplify_eq; [done|set_solver..|].
  apply not_elem_of_cons in Hl as [_ Hl], Hm as [_ Hm]. by destruct (IH m1 Hl Hm) as [-> ->].
Qed.

Lemma sorted_drop {A} (R : A -> A -> Prop) n l : StronglySorted R l -> StronglySorted R (drop n l).
Proof.
  revert n; induction l as [|x l IH]; intros [|n] H; try done. cbn. apply IH. by inversion H.
Qed.

(** ** Insertion sort by a total preorder ([order by] several columns) *)

Section sort_leb.
Context {A : Type} (leb : A -> A -> bool).

Fixpoint insert_leb (x : A) (l : list A) : list A :=
  match l with
  | [] => [x]
  | y :: l' => if leb x y then x :: l else y :: insert_leb x l'
  end.

Fixpoint sort_leb (l : list A) : list A :=
  match l with
  | [] => []
  | x :: l' => insert_leb x (sort_leb l')
  end.

Lemma insert_leb_perm x l : insert_leb x l ≡ₚ x :: l.
Proof.
  induction l as [|y l IH]; cbn; [done|].
  destruct (leb x y); [done|]. rewrite IH. apply perm_swap.
Qed.

Lemma sort_leb_perm l : sort_leb l ≡ₚ l.
Proof. induction l as [|x l IH]; cbn; [done|]. by rewrite insert_leb_perm, IH. Qed.

Context (Htotal : forall x y, leb x y = true \/ leb y x = true)
  (Htrans : forall x y z, leb x y = true -> leb y z = true -> leb x z = true).

Lemma insert_leb_sorted x l :
  StronglySorted (fun a b => leb a b = true) l -> StronglySorted (fun a b => leb a b = true) (insert_leb x l).
Proof.
  induction 1 as [|y l Hs IH Hy]; cbn; [repeat constructor|].
  destruct (leb x y) eqn:E.
  - constructor; [by constructor|]. constructor; [done|].
    eapply Forall_impl; [exact Hy|]. intros z Hz. by eapply Htrans.
  - constructor; [done|]. rewrite insert_leb_perm. constructor; [|done].
    destruct (Htotal x y); congruence.
Qed.

Lemma sort_leb_sorted l : StronglySorted (fun a b => leb a b = true) (sort_leb l).
Proof. induction l; cbn; [constructor|]. by apply insert_leb_sorted. Qed.

(** The head of the sorted list is below everything. *)
Lemma sort_leb_head l x l' y : sort_leb l = x :: l' -> y ∈ l -> x = y \/ leb x y = true.
Proof.
  intros Hl Hy. pose proof (sort_leb_sorted l) as Hs. rewrite Hl in Hs.
  rewrite <- (sort_leb_perm l), Hl in Hy. apply elem_of_cons in Hy as [->|Hy]; [by left|right].
  apply StronglySorted_inv in Hs as [_ Hs]. by eapply Forall_forall in Hs.
Qed.
End sort_leb.

(** ** Strings in byte order *)

Fixpoint string_leb (a b : string) : bool :=
  match a, b with
  | EmptyString, _ => true
  | String _ _, EmptyString => false
  | String x a, String y b =>
      N.ltb (N_of_ascii x) (N_of_ascii y) || (N.eqb (N_of_ascii x) (N_of_ascii y) && string_leb a b)
  end.

Lemma string_leb_total a b : string_leb a b = true \/ string_leb b a = true.
Proof.
  revert b; induction a as [|x a IH]; intros [|y b]; cbn; auto.
  destruct (N.lt_trichotomy (N_of_ascii x) (N_of_ascii y)) as [H|[H|H]].
  - left. by rewrite (proj2 (N.ltb_lt _ _) H).
  - rewrite H, N.ltb_irrefl, N.eqb_refl. cbn. apply IH.
  - right. by rewrite (proj2 (N.ltb_lt _ _) H).
Qed.

Lemma string_leb_trans a b c : string_leb a b = true -> string_leb b c = true -> string_leb a c = true.
Proof.
  revert b c; induction a as [|x a IH]; intros [|y b] [|z c]; cbn; try done.
  rewrite !orb_true_iff, !andb_true_iff, !N.ltb_lt, !N.eqb_eq.
  intros [H|[H Ha]] [G|[G Hb]]; [left; lia..|right]. split; [lia|eauto].
Qed.

Lemma string_leb_antisym a b : string_leb a b = true -> string_leb b a = true -> a = b.
Proof.
  revert b; induction a as [|x a IH]; intros [|y b]; cbn; try done.
  rewrite !orb_true_iff, !andb_true_iff, !N.ltb_lt, !N.eqb_eq.
  intros [H|[H Ha]] [G|[G Hb]]; try lia. f_equal; [|auto].
  rewrite <- (ascii_N_embedding x), <- (ascii_N_embedding y). by rewrite H.
Qed.

(** ** 32-bit integers

    [x >>> 0] and [x | 0]. *)
Definition uint32 (x : Z) : Z := (x mod 2 ^ 32)%Z.
Definition int32 (x : Z) : Z := (if uint32 x <? 2 ^ 31 then uint32 x else uint32 x - 2 ^ 32)%Z.

Lemma uint32_int32 x : uint32 (int32 x) = uint32 x.
Proof.
  unfold int32. destruct (_ <? _)%Z; unfold uint32; [by rewrite Z.mod_mod|].
  rewrite <- (Z_mod_plus_full (x mod 2 ^ 32 - 2 ^ 32) 1 (2 ^ 32)). rewrite Z.mul_1_l, Z.sub_add. by rewrite Z.mod_mod.
Qed.
