(* ===== verification/Json.v ===== *)
(** * JSON values and the JavaScript reads the program makes on them

    The program handles wire data as [unknown] and inspects it with [typeof],
    [Array.isArray] and property reads.  A value that may be [undefined] is an
    [option json] ([None] is [undefined]).  Objects are association lists in
    insertion order (the order [JSON.stringify] prints); a read takes the first
    binding of a key.  Numbers the program inspects are integers (sequence
    numbers, counters), so a number is a [Z]. *)
From S2P Require Import Prelude.
From stdpp Require Import pretty.
#[local] Open Scope Z_scope.
#[local] Open Scope opengeni_scope.
Set Warnings "-register-all".


Inductive json : Type :=
| JNull
| JBool (b : bool)
| JNum (n : Z)
| JStr (s : jstr)
| JArr (l : list json)
| JObj (fields : list (jstr * json)).

Section json_ind.
Variable P : json -> Prop.
Hypotheses (Hnull : P JNull) (Hbool : forall b, P (JBool b)) (Hnum : forall n, P (JNum n))
  (Hstr : forall s, P (JStr s))
  (Harr : forall l, Forall P l -> P (JArr l))
  (Hobj : forall fs, Forall (fun kv => P kv.2) fs -> P (JObj fs)).

Fixpoint json_ind' (j : json) : P j :=
  match j with
  | JNull => Hnull
  | JBool b => Hbool b
  | JNum n => Hnum n
  | JStr s => Hstr s
  | JArr l => Harr l ((fix go l := match l return Forall P l with
                                   | [] => Forall_nil_2 _
                                   | x :: l => Forall_cons_2 _ _ _ (json_ind' x) (go l)
                                   end) l)
  | JObj fs => Hobj fs ((fix go l := match l return Forall (fun kv => P kv.2) l with
                                     | [] => Forall_nil_2 _
                                     | x :: l => Forall_cons_2 _ _ _ (json_ind' x.2) (go l)
                                     end) fs)
  end.
End json_ind.

(** The same with the fields of an array's object items at hand, for walks that
    look two levels down. *)
Lemma json_ind_items (P : json -> Prop) :
  P JNull -> (forall b, P (JBool b)) -> (forall n, P (JNum n)) -> (forall s, P (JStr s)) ->
  (forall l, Forall (fun x => P x /\ forall fs, x = JObj fs -> Forall (fun kv => P kv.2) fs) l -> P (JArr l)) ->
  (forall fs, Forall (fun kv => P kv.2) fs -> P (JObj fs)) ->
  forall j, P j.
Proof.
  intros Hn Hb Hi Hs Ha Ho j.
  enough (P j /\ forall fs, j = JObj fs -> Forall (fun kv => P kv.2) fs) by tauto.
  induction j as [| | | |l IH|fs IH] using json_ind'; split; try done; auto.
  - apply Ho. eapply Forall_impl; [exact IH|]. naive_solver.
  - intros ? [= <-]. eapply Forall_impl; [exact IH|]. naive_solver.
Qed.

(** Decidable equality, by a boolean test. *)
Fixpoint json_eqb (a b : json) {struct a} : bool :=
  match a, b with
  | JNull, JNull => true
  | JBool x, JBool y => Bool.eqb x y
  | JNum x, JNum y => x =? y
  | JStr x, JStr y => bool_decide (x = y)
  | JArr l, JArr k =>
      (fix go l k := match l, k with
                     | [], [] => true
                     | x :: l, y :: k => json_eqb x y && go l k
                     | _, _ => false
                     end) l k
  | JObj l, JObj k =>
      (fix go l k := match l, k with
                     | [], [] => true
                     | (i, x) :: l, (j, y) :: k => bool_decide (i = j) && json_eqb x y && go l k
                     | _, _ => false
                     end) l k
  | _, _ => false
  end.

Lemma json_eqb_eq a b : json_eqb a b = true <-> a = b.
Proof.
  revert b. induction a as [| | | |l IH|fs IH] using json_ind'; intros []; cbn; try done;
    rewrite ?Bool.eqb_true_iff, ?Z.eqb_eq, ?bool_decide_eq_true; try naive_solver.
  - rename l0 into k. transitivity (l = k); [|naive_solver].
    revert k; induction IH as [|x l Hx _ IHl]; intros [|y k]; try done.
    rewrite andb_true_iff, Hx, IHl. naive_solver.
  - rename fields into k. transitivity (fs = k); [|naive_solver].
    revert k; induction IH as [|[i x] l Hx _ IHl]; intros [|[j y] k]; try done.
    rewrite !andb_true_iff, (Hx y), IHl, bool_decide_eq_true. cbn. naive_solver.
Qed.

#[export] Instance json_eq_dec : EqDecision json.
Proof.
  intros a b. destruct (json_eqb a b) eqn:E; [left; by apply json_eqb_eq|right].
  intros ->. by rewrite (proj2 (json_eqb_eq b b) eq_refl) in E.
Defined.

(** ** Property reads *)

Fixpoint assoc {V} (k : jstr) (fs : list (jstr * V)) : option V :=
  match fs with
  | [] => None
  | (k', v) :: fs => if bool_decide (k = k') then Some v else assoc k fs
  end.

(** [value.k] on a value already known to be an object. *)
Definition prop (k : jstr) (j : json) : option json :=
  match j with JObj fs => assoc k fs | _ => None end.

(** [value && typeof value === "object"]: objects and arrays, not [null]. *)
Definition isObject (v : option json) : bool :=
  match v with Some (JObj _) | Some (JArr _) => true | _ => false end.

(** [typeof v === "string" ? v : undefined] *)
Definition asString (v : option json) : option jstr :=
  match v with Some (JStr s) => Some s | _ => None end.

Definition asNumber (v : option json) : option Z :=
  match v with Some (JNum n) => Some n | _ => None end.

(** [Array.isArray(v) ? v : undefined] *)
Definition asArray (v : option json) : option (list json) :=
  match v with Some (JArr l) => Some l | _ => None end.

(** [obj.key = v]: in place when the key exists, appended otherwise. *)
Fixpoint set_field (k : jstr) (v : json) (fs : list (jstr * json)) : list (jstr * json) :=
  match fs with
  | [] => [(k, v)]
  | (k', v') :: fs => if bool_decide (k = k') then (k, v) :: fs else (k', v') :: set_field k v fs
  end.

Lemma assoc_set_field k k' v fs :
  assoc k (set_field k' v fs) = if bool_decide (k = k') then Some v else assoc k fs.
Proof.
  induction fs as [|[j x] fs IH]; cbn; [by repeat case_bool_decide|].
  repeat (case_bool_decide; cbn; simplify_eq; try done).
Qed.

Lemma elem_keys_set_field k v x fs : x ∈ List.map fst (set_field k v fs) -> x = k \/ x ∈ List.map fst fs.
Proof.
  induction fs as [|[k' v'] fs IH]; cbn; intros Hx; [apply list_elem_of_singleton in Hx; by left|].
  case_bool_decide; cbn in Hx; apply elem_of_cons in Hx as [->|Hx]; [by left|right; by right|right; by left|].
  destruct (IH Hx); [by left|right; by right].
Qed.
Lemma keys_set_field k v fs : NoDup (List.map fst fs) -> NoDup (List.map fst (set_field k v fs)).
Proof.
  induction fs as [|[k' v'] fs IH]; cbn; [intros; apply NoDup_singleton|]. intros [Hn Hnd]%NoDup_cons.
  case_bool_decide as E; cbn; apply NoDup_cons; [by subst|]. split; [|by apply IH]. by intros [->|H]%elem_keys_set_field.
Qed.

(** [{ ...base, ...fields }] *)
Definition overlay (fields base : list (jstr * json)) : list (jstr * json) := fold_left (fun acc kv => set_field kv.1 kv.2 acc) fields base.

Lemma assoc_overlay k fields base : NoDup (List.map fst fields) ->
  assoc k (overlay fields base) = match assoc k fields with Some v => Some v | None => assoc k base end.
Proof.
  unfold overlay. revert base. induction fields as [|[k' v] fields IH]; intros base; cbn; [done|]. intros [Hn Hnd]%NoDup_cons.
  rewrite IH by done. rewrite assoc_set_field. case_bool_decide as E; [subst k'|done].
  destruct (assoc k fields) eqn:Ea; [|done]. exfalso. apply Hn. clear -Ea. induction fields as [|[k' v'] fields IH]; cbn in *; [done|].
  case_bool_decide; [subst; left|right; auto].
Qed.

(** ** [JSON.stringify] *)

Definition hexDigit (n : Z) : Z := if n <? 10 then 48 + n else 87 + n.
Definition unicodeEscape (c : Z) : jstr :=
  js "\u" ++ [hexDigit (c / 4096 mod 16); hexDigit (c / 256 mod 16); hexDigit (c / 16 mod 16); hexDigit (c mod 16)].
Definition isHighSurrogate (c : Z) : bool := (0xD800 <=? c) && (c <=? 0xDBFF).
Definition isLowSurrogate (c : Z) : bool := (0xDC00 <=? c) && (c <=? 0xDFFF).

(** One code unit outside a surrogate pair. *)
Definition quoteUnit (c : Z) : jstr :=
  if (c =? 34) || (c =? 92) then [92; c]
  else if c =? 8 then js "\b" else if c =? 9 then js "\t" else if c =? 10 then js "\n"
  else if c =? 12 then js "\f" else if c =? 13 then js "\r"
  else if (c <? 32) || isHighSurrogate c || isLowSurrogate c then unicodeEscape c else [c].

Fixpoint quoteUnits (s : jstr) : jstr :=
  match s with
  | [] => []
  | c :: rest =>
      match rest with
      | d :: rest' => if isHighSurrogate c && isLowSurrogate d then c :: d :: quoteUnits rest' else quoteUnit c ++ quoteUnits rest
      | [] => quoteUnit c
      end
  end.
Definition quote (s : jstr) : jstr := [34] ++ quoteUnits s ++ [34].

Fixpoint stringify (j : json) : jstr :=
  match j with
  | JNull => js "null"
  | JBool b => if b then js "true" else js "false"
  | JNum n => js (pretty n)
  | JStr s => quote s
  | JArr l => js "[" ++ (fix go (first : bool) (l : list json) : jstr :=
                match l with [] => [] | x :: l => (if first then [] else js ",") ++ stringify x ++ go false l end) true l ++ js "]"
  | JObj fs => js "{" ++ (fix go (first : bool) (l : list (jstr * json)) : jstr :=
                match l with [] => [] | (k, x) :: l => (if first then [] else js ",") ++ quote k ++ js ":" ++ stringify x ++ go false l end)
                true fs ++ js "}"
  end.

Example stringify_object :
  stringify (JObj [(js "a", JArr [JNum (-3); JNull]); (js "b", JStr [34; 10; 0xD800])]) =
  js "{" ++ [34] ++ js "a" ++ [34] ++ js ":[-3,null]," ++ [34] ++ js "b" ++ [34] ++ js ":" ++ [34; 92; 34] ++ js "\n\ud800" ++ [34] ++ js "}".
Proof. vm_compute. reflexivity. Qed.
