(* ===== verification/JsonParse.v ===== *)
(** * [JSON.parse]

    The parser of the ECMAScript grammar over UTF-16 code units, and the round
    trip with [JSON.stringify] of Json.v.  It is the recursive descent of the
    grammar with a fuel that every input affords ([fuelFor], [parse_fuel]): a
    [None] is a [SyntaxError], never an exhausted fuel.  A repeated member name
    replaces the earlier value, as in a JavaScript object.  Numbers are
    integers, as in Json.v: a literal with a fraction or an exponent is outside
    the model and is read as an error. *)
From S2P Require Import Prelude Json.
From stdpp Require Import pretty.
#[local] Open Scope Z_scope.

(** ** The lexemes *)

Definition isSpace (c : Z) : bool := (c =? 32) || (c =? 9) || (c =? 10) || (c =? 13).
Fixpoint skipSpace (s : jstr) : jstr :=
  match s with c :: r => if isSpace c then skipSpace r else s | [] => [] end.

Definition isDigit (c : Z) : bool := (48 <=? c) && (c <=? 57).
Definition hexValue (c : Z) : option Z :=
  if isDigit c then Some (c - 48)
  else if (97 <=? c) && (c <=? 102) then Some (c - 87)
  else if (65 <=? c) && (c <=? 70) then Some (c - 55) else None.

(** The single-character escapes. *)
Definition unescape (c : Z) : option Z :=
  if (c =? 34) || (c =? 92) || (c =? 47) then Some c
  else if c =? 98 then Some 8 else if c =? 102 then Some 12 else if c =? 110 then Some 10
  else if c =? 114 then Some 13 else if c =? 116 then Some 9 else None.

(** The rest of a string literal, after its opening quote. *)
Fixpoint stringBody (s : jstr) : option (jstr * jstr) :=
  match s with
  | [] => None
  | c :: r =>
      if c =? 34 then Some ([], r)
      else if c =? 92 then
        match r with
        | [] => None
        | e :: r1 =>
            if e =? 117 then
              match r1 with
              | a :: b :: d :: f :: r2 =>
                  match hexValue a, hexValue b, hexValue d, hexValue f with
                  | Some va, Some vb, Some vd, Some vf => prod_map (cons (((va * 16 + vb) * 16 + vd) * 16 + vf)) id <$> stringBody r2
                  | _, _, _, _ => None
                  end
              | _ => None
              end
            else match unescape e with Some u => prod_map (cons u) id <$> stringBody r1 | None => None end
        end
      else if c <? 32 then None
      else prod_map (cons c) id <$> stringBody r
  end.

Fixpoint digits (acc : Z) (s : jstr) : Z * jstr :=
  match s with c :: r => if isDigit c then digits (acc * 10 + (c - 48)) r else (acc, s) | [] => (acc, []) end.

(** A fraction or an exponent would follow. *)
Definition continuesNumber (s : jstr) : bool := match s with c :: _ => (c =? 46) || (c =? 101) || (c =? 69) | [] => false end.
Definition unsignedNumber (s : jstr) : option (Z * jstr) :=
  match s with
  | c :: r =>
      if isDigit c then
        let '(n, r') := if c =? 48 then (0, r) else digits 0 s in
        if continuesNumber r' then None else Some (n, r')
      else None
  | [] => None
  end.

(** The literal names. *)
Fixpoint stripPrefix (p s : jstr) : option jstr :=
  match p, s with
  | [], _ => Some s
  | x :: p', c :: s' => if x =? c then stripPrefix p' s' else None
  | _ :: _, [] => None
  end.

(** ** Values *)

Fixpoint value (fuel : nat) (s : jstr) {struct fuel} : option (json * jstr) :=
  match fuel, skipSpace s with
  | S n, c :: r =>
      if c =? 34 then '(t, r') ← stringBody r; Some (JStr t, r')
      else if c =? 91 then
        match skipSpace r with
        | d :: r' => if d =? 93 then Some (JArr [], r') else '(l, r') ← elements n r; Some (JArr l, r')
        | [] => None
        end
      else if c =? 123 then
        match skipSpace r with
        | d :: r' => if d =? 125 then Some (JObj [], r') else '(fs, r') ← members n [] r; Some (JObj fs, r')
        | [] => None
        end
      else if c =? 110 then r' ← stripPrefix (js "null") (c :: r); Some (JNull, r')
      else if c =? 116 then r' ← stripPrefix (js "true") (c :: r); Some (JBool true, r')
      else if c =? 102 then r' ← stripPrefix (js "false") (c :: r); Some (JBool false, r')
      else if c =? 45 then '(m, r') ← unsignedNumber r; Some (JNum (- m), r')
      else '(m, r') ← unsignedNumber (c :: r); Some (JNum m, r')
  | _, _ => None
  end
with elements (fuel : nat) (s : jstr) {struct fuel} : option (list json * jstr) :=
  match fuel with
  | S n =>
      '(x, r) ← value n s;
      match skipSpace r with
      | c :: r' =>
          if c =? 44 then '(l, r'') ← elements n r'; Some (x :: l, r'')
          else if c =? 93 then Some ([x], r') else None
      | [] => None
      end
  | O => None
  end
with members (fuel : nat) (acc : list (jstr * json)) (s : jstr) {struct fuel} : option (list (jstr * json) * jstr) :=
  match fuel, skipSpace s with
  | S n, q :: r =>
      if q =? 34 then
        '(k, r1) ← stringBody r;
        match skipSpace r1 with
        | c :: r2 =>
            if c =? 58 then
              '(x, r3) ← value n r2;
              match skipSpace r3 with
              | d :: r4 =>
                  if d =? 44 then members n (set_field k x acc) r4
                  else if d =? 125 then Some (set_field k x acc, r4) else None
              | [] => None
              end
            else None
        | [] => None
        end
      else None
  | _, _ => None
  end.

Definition fuelFor (s : jstr) : nat := S (2 * length s).
Definition JSON_parse (s : jstr) : option json :=
  '(j, r) ← value (fuelFor s) s;
  match skipSpace r with [] => Some j | _ :: _ => None end.

Example parse_spaced : JSON_parse (js " [ 1 , -20,true ,{}, [ ] ] ") = Some (JArr [JNum 1; JNum (-20); JBool true; JObj []; JArr []]).
Proof. vm_compute. reflexivity. Qed.
Example parse_repeated_key : let q := [34] in
  JSON_parse (js "{" ++ q ++ js "a" ++ q ++ js ":1," ++ q ++ js "b" ++ q ++ js ":2," ++ q ++ js "a" ++ q ++ js ":null}") =
  Some (JObj [(js "a", JNull); (js "b", JNum 2)]).
Proof. vm_compute. reflexivity. Qed.
Example parse_rejects : List.map JSON_parse [js ""; js "01"; js "[1,]"; js "{,}"; js "nul"; js "1 2"; [34; 10; 34]; [34; 92; 120; 34]] = repeat None 8.
Proof. vm_compute. reflexivity. Qed.

(** ** Every input affords its fuel *)

Lemma skipSpace_length s : (length (skipSpace s) <= length s)%nat.
Proof. induction s as [|c s IH]; cbn; [lia|]. destruct (isSpace c); cbn; lia. Qed.

Lemma digits_length acc s : (length (digits acc s).2 <= length s)%nat.
Proof. revert acc. induction s as [|c s IH]; intros acc; cbn; [lia|]. destruct (isDigit c); cbn; [specialize (IH (acc * 10 + (c - 48)))|]; lia. Qed.

Lemma unsignedNumber_length s n r : unsignedNumber s = Some (n, r) -> (length r < length s)%nat.
Proof.
  unfold unsignedNumber. destruct s as [|c s]; [done|]. destruct (isDigit c) eqn:E; [|done].
  destruct (c =? 48); [|cbn [digits]; rewrite E; pose proof (digits_length (0 * 10 + (c - 48)) s); destruct (digits _ s)];
    destruct (continuesNumber _); intros [= <- <-]; cbn in *; lia.
Qed.

Lemma stripPrefix_length p s r : stripPrefix p s = Some r -> length s = (length p + length r)%nat.
Proof. revert s. induction p as [|x p IH]; intros s; [by intros [= <-]|]. destruct s as [|c s]; cbn; [done|]. destruct (x =? c); [intros ->%IH; lia|done]. Qed.

Lemma stringBody_length s t r : stringBody s = Some (t, r) -> (length r < length s)%nat.
Proof.
  revert t r. remember (length s) as m eqn:Em. revert s Em. induction (lt_wf m) as [m _ IH]. intros s -> t r.
  assert (Hrec : forall s' f, (length s' < length s)%nat -> prod_map f id <$> stringBody s' = Some (t, r) -> (length r < length s)%nat).
  { intros s' f Hs' H. destruct (stringBody s') as [[t' r']|] eqn:E; [|done]. cbn in H. simplify_eq/=. cut (length r < length s')%nat; [lia|].
    by eapply (IH (length s')); [lia| |exact E]. }
  destruct s as [|c s]; [done|]. cbn [stringBody length] in *.
  destruct (c =? 34); [intros [= <- <-]; lia|]. destruct (c =? 92); [|destruct (c <? 32); [done|]; apply Hrec; lia].
  destruct s as [|e s]; [done|]. destruct (e =? 117); [|destruct (unescape e); [apply Hrec; cbn; lia|done]].
  destruct s as [|a [|b [|d [|f s]]]]; try done. repeat (destruct (hexValue _); [|done]). apply Hrec. cbn. lia.
Qed.

(** What a parser leaves is shorter than what it was given. *)
Definition consumes {A} (p : jstr -> option (A * jstr)) : Prop := forall s x r, p s = Some (x, r) -> (length r < length s)%nat.


(** The branch of a parser that produced a result. *)
Ltac parsed :=
  repeat match goal with
  | H : _ ≫= _ = Some _ |- _ => apply bind_Some in H as ([? ?] & ? & H)
  | H : (if ?b then _ else _) = Some _ |- _ => destruct b eqn:?
  | H : match ?l with [] => _ | _ :: _ => _ end = Some _ |- _ => destruct l eqn:?; [discriminate H|]
  | H : Some _ = Some _ |- _ => injection H as; subst
  | H : None = Some _ |- _ => discriminate H
  end.

Ltac lengths :=
  repeat match goal with
  | H : consumes ?p, E : ?p _ = Some _ |- _ => apply H in E
  | H : forall acc, consumes (?p acc), E : ?p _ _ = Some _ |- _ => apply H in E
  | E : skipSpace ?u = _ |- _ => pose proof (skipSpace_length u); rewrite E in *; clear E
  | E : stringBody _ = Some _ |- _ => apply stringBody_length in E
  | E : unsignedNumber _ = Some _ |- _ => apply unsignedNumber_length in E
  | E : stripPrefix _ _ = Some _ |- _ => apply stripPrefix_length in E
  end; cbn in *; try lia.

Lemma value_consumes n : consumes (value n) /\ consumes (elements n) /\ (forall acc, consumes (members n acc)).
Proof.
  induction n as [|n (Hv & He & Hm)]; [done|]. split_and!; [|intros s x r Hp; cbn [elements] in Hp|intros acc s x r Hp; cbn [members] in Hp].
  - intros s x r Hp. cbn [value] in Hp. destruct (skipSpace s) as [|c s'] eqn:Es; [done|].
    repeat (destruct (c =? _); [parsed; try (apply bind_Some in Hp as (? & ? & Hp); parsed); lengths|]). parsed. lengths.
  - parsed; lengths.
  - destruct (skipSpace s) as [|c s'] eqn:Es; [done|]. parsed; lengths.
Qed.

(** More fuel than the input affords changes nothing. *)
Lemma fuel_enough n : forall m,
  (forall s, (1 + 2 * length s <= n)%nat -> (1 + 2 * length s <= m)%nat -> value n s = value m s) /\
  (forall s, (2 + 2 * length s <= n)%nat -> (2 + 2 * length s <= m)%nat -> elements n s = elements m s) /\
  (forall acc s, (2 + 2 * length s <= n)%nat -> (2 + 2 * length s <= m)%nat -> members n acc s = members m acc s).
Proof.
  induction n as [|n IH]; intros m; [split_and!; intros; lia|]. destruct m as [|m]; [split_and!; intros; lia|].
  destruct (IH m) as (Hv & He & Hm). clear IH. destruct (value_consumes m) as (Cv & _).
  split_and!; [intros s Hn Hm'; cbn [value]|intros s Hn Hm'; cbn [elements]|intros acc s Hn Hm'; cbn [members]].
  - pose proof (skipSpace_length s). destruct (skipSpace s) as [|c s'] eqn:Es; [done|]. cbn in H.
    rewrite He, Hm by lia. done.
  - rewrite Hv by lia. destruct (value m s) as [[x r]|] eqn:E; [|done]. cbn. apply Cv in E. pose proof (skipSpace_length r).
    destruct (skipSpace r) as [|c r']; [done|]. cbn in *. by rewrite He by lia.
  - pose proof (skipSpace_length s). destruct (skipSpace s) as [|q s'] eqn:Es; [done|]. cbn in H. destruct (q =? 34); [|done].
    destruct (stringBody s') as [[k r1]|] eqn:E1; [|done]. cbn. apply stringBody_length in E1. pose proof (skipSpace_length r1).
    destruct (skipSpace r1) as [|c r2]; [done|]. cbn in *. destruct (c =? 58); [|done]. rewrite Hv by lia.
    destruct (value m r2) as [[x r3]|] eqn:E; [|done]. cbn. apply Cv in E. pose proof (skipSpace_length r3).
    destruct (skipSpace r3) as [|d r4]; [done|]. cbn in *. by rewrite Hm by lia.
Qed.

Lemma parse_fuel n s : (fuelFor s <= n)%nat -> value n s = value (fuelFor s) s.
Proof. unfold fuelFor. intros H. apply (fuel_enough n (S (2 * length s))); lia. Qed.

(** ** The round trip *)

(** The values a JavaScript program can hold: code units of sixteen bits and
    distinct member names. *)
Fixpoint wellFormed (j : json) : Prop :=
  match j with
  | JStr s => Forall (fun c => 0 <= c < 65536) s
  | JArr l => (fix go l := match l with [] => True | x :: l => wellFormed x /\ go l end) l
  | JObj fs => NoDup (List.map fst fs) /\ Forall (fun k => Forall (fun c => 0 <= c < 65536) k) (List.map fst fs) /\
      (fix go fs := match fs with [] => True | kv :: fs => wellFormed kv.2 /\ go fs end) fs
  | JNull | JBool _ | JNum _ => True
  end.

Lemma hexValue_digit n : 0 <= n < 16 -> hexValue (hexDigit n) = Some n.
Proof.
  intros H. assert (n ∈ seqZ 0 16) as Hn by (apply elem_of_seqZ; lia). clear H. revert n Hn. apply Forall_forall.
  apply (bool_decide_unpack _). vm_compute. done.
Qed.

Lemma stringBody_escape c s : 0 <= c < 65536 -> stringBody (unicodeEscape c ++ s) = prod_map (cons c) id <$> stringBody s.
Proof.
  intros H. unfold unicodeEscape. cbn -[hexDigit hexValue Z.div Z.modulo stringBody]. cbn [stringBody].
  change (92 =? 34) with false. change (92 =? 92) with true. change (117 =? 117) with true. cbv iota.
  rewrite !hexValue_digit by (apply Z.mod_pos_bound; lia). f_equal. f_equal. f_equal.
  pose proof (Z.div_mod c 16). pose proof (Z.div_mod (c / 16) 16). pose proof (Z.div_mod (c / 16 / 16) 16).
  rewrite (Z.mod_small (c / 4096)) by (split; [apply Z.div_pos; lia|apply Z.div_lt_upper_bound; lia]).
  change 4096 with (16 * 16 * 16). change 256 with (16 * 16). rewrite <- !Z.div_div by lia. lia.
Qed.

Lemma stringBody_quoteUnit c s : 0 <= c < 65536 -> stringBody (quoteUnit c ++ s) = prod_map (cons c) id <$> stringBody s.
Proof.
  intros H. unfold quoteUnit. destruct ((c =? 34) || (c =? 92)) eqn:E1.
  - apply orb_true_iff in E1 as [->%Z.eqb_eq| ->%Z.eqb_eq]; done.
  - repeat (match goal with |- context [if c =? ?n then _ else _] => destruct (Z.eqb_spec c n) as [->|]; [done|] end).
    destruct ((c <? 32) || isHighSurrogate c || isLowSurrogate c) eqn:E2; [by apply stringBody_escape|]. cbn. breflect.
    rewrite (proj2 (Z.eqb_neq c 34)), (proj2 (Z.eqb_neq c 92)), (proj2 (Z.ltb_ge c 32)) by lia. done.
Qed.

Lemma stringBody_surrogate c s : isHighSurrogate c || isLowSurrogate c = true -> stringBody (c :: s) = prod_map (cons c) id <$> stringBody s.
Proof.
  unfold isHighSurrogate, isLowSurrogate. intros H. cbn.
  rewrite (proj2 (Z.eqb_neq c 34)), (proj2 (Z.eqb_neq c 92)), (proj2 (Z.ltb_ge c 32)) by lia. done.
Qed.

Lemma stringBody_quote s rest : Forall (fun c => 0 <= c < 65536) s -> stringBody (quoteUnits s ++ 34 :: rest) = Some (s, rest).
Proof.
  remember (length s) as m eqn:Em. revert s Em. induction (lt_wf m) as [m _ IH]. intros s -> Hs.
  destruct s as [|c s]; [done|]. apply Forall_cons in Hs as [Hc Hs]. cbn [quoteUnits].
  destruct s as [|d s].
  { rewrite stringBody_quoteUnit by done. done. }
  destruct (isHighSurrogate c && isLowSurrogate d) eqn:E.
  - apply andb_true_iff in E as [E1 E2]. apply Forall_cons in Hs as [Hd Hs]. cbn [app].
    rewrite !stringBody_surrogate by (by rewrite ?E1, ?E2, ?orb_true_r). rewrite (IH (length s)); cbn; auto with lia.
  - rewrite <- app_assoc, stringBody_quoteUnit by done. rewrite (IH (length (d :: s))); cbn [length]; auto with lia.
Qed.

(** Decimal numerals. *)
Lemma digit_char x : (x < 10)%N -> exists c, js (String (pretty_N_char x) "") = [c] /\ isDigit c = true /\ c - 48 = Z.of_N x.
Proof.
  intros H. assert (x = 0 \/ x = 1 \/ x = 2 \/ x = 3 \/ x = 4 \/ x = 5 \/ x = 6 \/ x = 7 \/ x = 8 \/ x = 9)%N as Hx by lia.
  destruct_or! Hx; subst; eexists; split_and!; reflexivity.
Qed.

Lemma js_app s t : js (s +:+ t) = js s ++ js t.
Proof. induction s as [|a s IH]; [done|]. cbn. unfold js in *. by rewrite <- IH. Qed.


Definition decimal (acc : Z) (ds : jstr) : Z := fold_left (fun a d => a * 10 + (d - 48)) ds acc.

Lemma digits_decimal ds acc rest : Forall (fun c => isDigit c = true) ds -> digits acc (ds ++ rest) = digits (decimal acc ds) rest.
Proof. intros H. revert acc. induction H as [|d ds Hd _ IH]; intros acc; [done|]. cbn. by rewrite Hd, IH. Qed.

(** The numeral of a positive number: its value, and a first digit that is not zero. *)
Lemma numeral x : (0 < x)%N -> forall s, exists c ds, js (pretty_N_go x s) = c :: ds ++ js s /\ c <> 48 /\
  Forall (fun d => isDigit d = true) (c :: ds) /\ decimal 0 (c :: ds) = Z.of_N x.
Proof.
  induction (N.lt_wf_0 x) as [x _ IH]. intros Hx s. rewrite pretty_N_go_step by done.
  destruct (digit_char (x mod 10)) as (d & Hd & Hdig & Hval); [by apply N.mod_lt|].
  assert (js (String (pretty_N_char (x mod 10)) s) = d :: js s) as Hs.
  { change (String (pretty_N_char (x mod 10)) s) with (String (pretty_N_char (x mod 10)) "" +:+ s). by rewrite js_app, Hd. }
  destruct (decide (x < 10)%N) as [H10|H10].
  - exists d, []. rewrite N.div_small, pretty_N_go_0, Hs by done. rewrite N.mod_small in Hval by done. split_and!; [done| |by repeat constructor|cbn; lia].
    intros ->. lia.
  - destruct (IH (x / 10)%N) with (s := String (pretty_N_char (x mod 10)) s) as (c & ds & E & Hc & Hall & Hv);
      [apply N.div_lt; lia|apply N.div_str_pos; lia|].
    exists c, (ds ++ [d]). rewrite E, Hs, <- app_assoc. split_and!; [done|done|rewrite app_comm_cons; apply Forall_app; split; [done|by constructor]|].
    unfold decimal in *. rewrite app_comm_cons, fold_left_app, Hv. cbn. pose proof (N.div_mod x 10). lia.
Qed.

(** What may follow a number: nothing that continues it. *)
Definition endsNumber (s : jstr) : Prop := match s with c :: _ => isDigit c = false /\ continuesNumber s = false | [] => True end.

Lemma digits_end acc s : endsNumber s -> digits acc s = (acc, s).
Proof. destruct s as [|c s]; [done|]. cbn. intros [-> _]. done. Qed.

Lemma unsignedNumber_pretty x rest : endsNumber rest -> exists c r,
  js (pretty x) = c :: r /\ isDigit c = true /\ unsignedNumber (js (pretty x) ++ rest) = Some (Z.of_N x, rest).
Proof.
  intros Hr. assert (continuesNumber rest = false) as Hc by (destruct rest; [done|by destruct Hr]).
  unfold pretty, pretty_N. case_decide as Hx; [subst; exists 48, []; split_and!; [done..|]; change (js (@pretty N pretty_N 0%N)) with [48] || change (js "0") with [48]; cbn [app unsignedNumber]; change (isDigit 48) with true; change (48 =? 48) with true; cbv iota beta; by rewrite Hc|].
  destruct (numeral x) with (s := "") as (c & ds & E & Hc48 & Hall & Hv); [lia|]. exists c, ds. rewrite E, app_nil_r. inversion Hall as [|? ? Hd _]; subst.
  split_and!; [done..|]. cbn [app unsignedNumber]. rewrite Hd, (proj2 (Z.eqb_neq c 48) Hc48).
  rewrite app_comm_cons, digits_decimal, digits_end, Hc, Hv by done. done.
Qed.

(** The bodies of arrays and objects. *)
Fixpoint itemsText (first : bool) (l : list json) : jstr :=
  match l with [] => [] | x :: l => (if first then [] else js ",") ++ stringify x ++ itemsText false l end.
Fixpoint membersText (first : bool) (fs : list (jstr * json)) : jstr :=
  match fs with
  | [] => []
  | (k, x) :: fs => (if first then [] else js ",") ++ quote k ++ js ":" ++ stringify x ++ membersText false fs
  end.
Lemma stringify_arr l : stringify (JArr l) = 91 :: itemsText true l ++ [93].
Proof. reflexivity. Qed.
Lemma stringify_obj fs : stringify (JObj fs) = 123 :: membersText true fs ++ [125].
Proof. reflexivity. Qed.

Definition units (s : jstr) : Prop := Forall (fun c => 0 <= c < 65536) s.
Lemma wellFormed_arr l : wellFormed (JArr l) <-> Forall wellFormed l.
Proof. cbn. induction l as [|x l IH]; cbn; [done|]. by rewrite IH, Forall_cons. Qed.
Lemma wellFormed_obj fs : wellFormed (JObj fs) <->
  NoDup (List.map fst fs) /\ Forall units (List.map fst fs) /\ Forall (fun kv => wellFormed kv.2) fs.
Proof.
  cbn. do 2 apply and_iff_compat_l. induction fs as [|x l IH]; cbn; [done|]. by rewrite IH, Forall_cons.
Qed.

Lemma wellFormed_nil : wellFormed (JObj []).
Proof. apply wellFormed_obj. split_and!; constructor. Qed.

(** No text of a value starts with white space. *)
Lemma skipSpace_stringify j rest : exists c r, stringify j ++ rest = c :: r /\ isSpace c = false /\ c <> 93 /\ c <> 125.
Proof.
  destruct j as [|b|n|s|l|fs]; [|destruct b| | | |]; try (eexists _, _; split_and!; [reflexivity|done..]).
  destruct n as [|p|p]; [by eexists _, _| |by eexists _, _].
  destruct (unsignedNumber_pretty (N.pos p) []) as (c & r & E & Hc & _); [done|]. cbn [stringify].
  change (pretty (Z.pos p)) with (pretty (N.pos p)). rewrite E. eexists _, _. split; [reflexivity|].
  unfold isDigit in Hc. unfold isSpace. lia.
Qed.

Lemma skipSpace_cons c r : isSpace c = false -> skipSpace (c :: r) = c :: r.
Proof. cbn. by intros ->. Qed.

Lemma itemsText_false l : l <> [] -> itemsText false l = 44 :: itemsText true l.
Proof. by destruct l. Qed.
Lemma membersText_false fs : fs <> [] -> membersText false fs = 44 :: membersText true fs.
Proof. by destruct fs as [|[k x] fs]. Qed.

Lemma set_field_fresh k x fs : k ∉ List.map fst fs -> set_field k x fs = fs ++ [(k, x)].
Proof.
  induction fs as [|[k' y] fs IH]; [done|]. cbn. intros [Hk H]%not_elem_of_cons. rewrite bool_decide_eq_false_2 by done. by rewrite IH.
Qed.

(** The parser reads back the text of [j], whatever follows it. *)
Definition reads (j : json) : Prop := forall n rest, (1 + 2 * length (stringify j) <= n)%nat -> endsNumber rest ->
  value n (stringify j ++ rest) = Some (j, rest).

Lemma elements_items l rest : Forall reads l -> l <> [] -> forall n, (2 + 2 * length (itemsText true l) <= n)%nat ->
  elements n (itemsText true l ++ 93 :: rest) = Some (l, rest).
Proof.
  intros Hl. induction Hl as [|x l Hx Hl IH]; intros Hne n Hn; [done|]. destruct n as [|n]; [lia|]. cbn [itemsText app elements] in *.
  rewrite length_app in Hn. rewrite <- app_assoc. destruct (decide (l = [])) as [->|Hl'].
  - rewrite (Hx n) by (done || lia). done.
  - rewrite itemsText_false in * by done. rewrite (Hx n) by (done || cbn in *; lia). cbn -[isSpace itemsText]. cbn in Hn.
    change (isSpace 44) with false. cbn -[itemsText]. rewrite IH by (done || lia). done.
Qed.

Lemma members_fields fs rest : Forall (fun kv => reads kv.2) fs -> fs <> [] ->
  forall n acc, NoDup (List.map fst (acc ++ fs)) -> Forall units (List.map fst fs) -> (2 + 2 * length (membersText true fs) <= n)%nat ->
  members n acc (membersText true fs ++ 125 :: rest) = Some (acc ++ fs, rest).
Proof.
  intros Hl. induction Hl as [|[k x] fs Hx Hl IH]; intros Hne n acc Hnd Hu Hn; [done|]. destruct n as [|n]; [lia|].
  cbn [snd] in Hx. apply Forall_cons in Hu as [Hk Hu]. cbn [membersText] in *. unfold quote in *. rewrite !length_app in Hn. cbn in Hn.
  rewrite <- !app_assoc. cbn [app members]. rewrite skipSpace_cons by done. change (34 =? 34) with true. cbv iota.
  rewrite stringBody_quote by done. cbn [mbind option_bind]. change (js ":") with [58]. cbn [app]. rewrite skipSpace_cons by done.
  change (58 =? 58) with true. cbv iota.
  assert (k ∉ List.map fst acc) as Hfresh.
  { rewrite List.map_app in Hnd. apply NoDup_app in Hnd as (_ & Hd & _). intros Hin. by eapply Hd; [exact Hin|left]. }
  destruct (decide (fs = [])) as [->|Hfs].
  - rewrite (Hx n) by (done || lia). cbn -[set_field]. by rewrite set_field_fresh.
  - rewrite membersText_false in * by done. cbn [length] in Hn. rewrite (Hx n) by (done || cbn in *; lia). cbn [mbind option_bind app]. rewrite skipSpace_cons by done.
    change (44 =? 44) with true. cbv iota. rewrite set_field_fresh, IH; [by rewrite <- app_assoc|done|by rewrite <- app_assoc|done|lia|done].
Qed.

Lemma value_stringify j : wellFormed j -> reads j.
Proof.
  induction j as [|b|z|s|l IH|fs IH] using json_ind'; intros Hwf n rest Hn Hr; (destruct n as [|n]; [lia|]).
  - reflexivity.
  - by destruct b.
  - destruct (unsignedNumber_pretty (Z.abs_N z) rest Hr) as (c & r & E & Hc & Hp). destruct z as [|p|p]; cbn [Z.abs_N] in *.
    1, 2: cbn [stringify]; first [progress change (pretty 0%Z) with (pretty 0%N)|change (pretty (Z.pos p)) with (pretty (N.pos p))];
      rewrite E in *; cbn [app value]; rewrite skipSpace_cons by (unfold isDigit, isSpace in *; lia);
      unfold isDigit in Hc; rewrite !(proj2 (Z.eqb_neq c _)) by lia; cbn [app] in Hp; by rewrite Hp.
    cbn [stringify]. change (js (pretty (Z.neg p))) with (45 :: js (pretty (N.pos p))). cbn [app value]. rewrite skipSpace_cons by done. by rewrite Hp.
  - cbn [stringify]. unfold quote. rewrite <- !app_assoc. cbn [app value]. rewrite skipSpace_cons by done. change (34 =? 34) with true. cbv iota.
    by rewrite stringBody_quote.
  - apply wellFormed_arr in Hwf. rewrite stringify_arr in *. cbn [length] in Hn. rewrite length_app in Hn. cbn in Hn.
    destruct (decide (l = [])) as [->|Hne]; [done|]. cbn [app]. rewrite <- app_assoc. cbn [app].
    cbn [value]. rewrite skipSpace_cons by done. change (91 =? 34) with false. change (91 =? 91) with true. cbv iota.
    rewrite elements_items; [|rewrite Forall_forall in *; auto|done|lia].
    destruct l as [|x l]; [done|]. cbn [itemsText]. destruct (skipSpace_stringify x (itemsText false l ++ 93 :: rest)) as (c & r & E & Hc & Hc1 & _).
    cbn [app]. rewrite <- app_assoc, E, skipSpace_cons by done. by rewrite (proj2 (Z.eqb_neq c 93) Hc1).
  - apply wellFormed_obj in Hwf as (Hnd & Hu & Hwf). rewrite stringify_obj in *. cbn [length] in Hn. rewrite length_app in Hn. cbn in Hn.
    destruct (decide (fs = [])) as [->|Hne]; [done|]. cbn [app]. rewrite <- app_assoc. cbn [app].
    cbn [value]. rewrite skipSpace_cons by done. change (123 =? 34) with false. change (123 =? 91) with false. change (123 =? 123) with true. cbv iota.
    rewrite members_fields; [|rewrite Forall_forall in *; auto|done..|lia]. by destruct fs as [|[k x] fs].
Qed.

(** [JSON.parse(JSON.stringify(j))] is [j]. *)
Lemma parse_stringify j : wellFormed j -> JSON_parse (stringify j) = Some j.
Proof.
  intros Hj. unfold JSON_parse, fuelFor. rewrite <- (app_nil_r (stringify j)) at 2. rewrite (value_stringify j Hj); [done|lia|done].
Qed.

(** ** What the parser returns is well formed *)

Lemma units_skipSpace s : units s -> units (skipSpace s).
Proof. induction 1 as [|c s Hc Hs IH]; cbn; [constructor|]. destruct (isSpace c); [exact IH|]. by constructor. Qed.

Lemma hexValue_range c v : hexValue c = Some v -> 0 <= v < 16.
Proof. unfold hexValue, isDigit. repeat case_match; intros [= <-]; breflect; lia. Qed.

Lemma units_stringBody s t r : units s -> stringBody s = Some (t, r) -> units t /\ units r.
Proof.
  revert t r. remember (length s) as m eqn:Em. revert s Em. induction (lt_wf m) as [m _ IH]. intros s -> t r Hs.
  assert (Hrec : forall s' x, (length s' < length s)%nat -> units s' -> 0 <= x < 65536 ->
    prod_map (cons x) id <$> stringBody s' = Some (t, r) -> units t /\ units r).
  { intros s' x Hl Hs' Hx H. destruct (stringBody s') as [[t' r']|] eqn:E; [|done]. cbn in H. simplify_eq/=.
    destruct (IH (length s') Hl s' eq_refl t' r) as [? ?]; [done|done|]. split; [by constructor|done]. }
  destruct Hs as [|c s Hc Hs]; [done|]. cbn [stringBody length] in *.
  destruct (c =? 34); [intros [= <- <-]; split; [constructor|done]|].
  destruct (c =? 92); [|destruct (c <? 32); [done|]; apply Hrec; auto with lia].
  destruct Hs as [|e s He Hs]; [done|]. destruct (e =? 117).
  2: { destruct (unescape e) eqn:Eu; [|done]. apply Hrec; [cbn; lia|done|]. unfold unescape in Eu. repeat case_match; simplify_eq; lia. }
  do 4 (destruct Hs as [|? ? ? Hs]; [done|]).
  repeat match goal with |- context [hexValue ?x] => destruct (hexValue x) eqn:?; [|done] end.
  repeat match goal with H : hexValue _ = Some _ |- _ => apply hexValue_range in H end. apply Hrec; [cbn; lia|done|lia].
Qed.

Lemma units_digits acc s : units s -> units (digits acc s).2.
Proof. intros H. revert acc. induction H as [|c s Hc Hs IH]; intros acc; cbn; [constructor|]. destruct (isDigit c); [apply IH|]. by constructor. Qed.

Lemma units_unsignedNumber s n r : units s -> unsignedNumber s = Some (n, r) -> units r.
Proof.
  unfold unsignedNumber. intros [|c s' Hc Hs]; [done|]. destruct (isDigit c) eqn:E; [|done].
  destruct (c =? 48); [|pose proof (units_digits 0 (c :: s') ltac:(by constructor)); destruct (digits 0 _)];
    destruct (continuesNumber _); intros [= <- <-]; done.
Qed.

Lemma units_stripPrefix p s r : units s -> stripPrefix p s = Some r -> units r.
Proof.
  intros Hs. revert s Hs. induction p as [|x p IH]; intros s Hs; [by intros [= <-]|]. destruct Hs as [|c s Hc Hs]; cbn; [done|].
  destruct (x =? c); [by apply IH|done].
Qed.

Lemma elem_set_field k x fs kv : kv ∈ set_field k x fs -> kv = (k, x) \/ kv ∈ fs.
Proof.
  induction fs as [|[k' y] fs IH]; cbn; [intros H%list_elem_of_singleton; by left|]. case_bool_decide.
  - intros [->|H']%elem_of_cons; [by left|]. right. by right.
  - intros [->|H']%elem_of_cons; [right; by left|]. destruct (IH H') as [->|]; [by left|]. right. by right.
Qed.

Lemma wellFormed_set_field k x fs : units k -> wellFormed x -> wellFormed (JObj fs) -> wellFormed (JObj (set_field k x fs)).
Proof.
  rewrite !wellFormed_obj. intros Hk Hx (Hnd & Hu & Hw). split_and!; [by apply keys_set_field| |].
  - rewrite Forall_forall in Hu. apply Forall_forall. intros k' [->|H]%elem_keys_set_field; [done|]. by apply Hu.
  - rewrite Forall_forall in Hw. apply Forall_forall. intros kv [->|H]%elem_set_field; [done|]. by apply Hw.
Qed.

Ltac wf :=
  repeat match goal with
  | H : units (_ :: _) |- _ => apply Forall_cons in H as [? H]
  | H : Forall (fun c => 0 <= c < 65536) ?s |- _ => change (units s) in H
  | E : skipSpace ?u = _ :: _, H : units ?u |- _ => let X := fresh in pose proof (units_skipSpace u H) as X; rewrite E in X; clear E
  | E : stringBody ?u = Some _, H : units ?u |- _ => apply (units_stringBody _ _ _ H) in E as [? ?]
  | E : unsignedNumber ?u = Some _ |- _ => apply units_unsignedNumber in E; [|done || by constructor]
  | E : stripPrefix _ ?u = Some _ |- _ => apply units_stripPrefix in E; [|done || by constructor]
  | IH : forall s j r, units s -> ?p s = Some (j, r) -> _, E : ?p ?u = Some _, H : units ?u |- _ => apply (IH _ _ _ H) in E as [? ?]
  | IH : forall acc s fs r, units s -> wellFormed (JObj acc) -> ?p acc s = Some (fs, r) -> _, E : ?p _ ?u = Some _, H : units ?u |- _ =>
      apply (IH _ _ _ _ H) in E as [? ?]; [|by repeat constructor || by apply wellFormed_set_field]
  end;
  try (split; [first [exact I|assumption|by apply wellFormed_arr; auto|by apply wellFormed_set_field|by cbn; repeat constructor]|done]).

Lemma value_units n :
  (forall s j r, units s -> value n s = Some (j, r) -> wellFormed j /\ units r) /\
  (forall s l r, units s -> elements n s = Some (l, r) -> Forall wellFormed l /\ units r) /\
  (forall acc s fs r, units s -> wellFormed (JObj acc) -> members n acc s = Some (fs, r) -> wellFormed (JObj fs) /\ units r).
Proof.
  induction n as [|n (Hv & He & Hm)]; [done|].
  split_and!; [intros s j r Hs Hp; cbn [value] in Hp|intros s l r Hs Hp; cbn [elements] in Hp|intros acc s fs r Hs Hacc Hp; cbn [members] in Hp].
  - apply units_skipSpace in Hs. destruct (skipSpace s) as [|c s']; [done|].
    repeat (destruct (c =? _); [parsed; try (apply bind_Some in Hp as (? & ? & Hp); parsed); wf|]). parsed. wf.
  - parsed; wf.
  - apply units_skipSpace in Hs. destruct (skipSpace s) as [|c s']; [done|]. parsed; wf.
Qed.

(** A text of code units parses to a value a program can hold. *)
Lemma parse_wellFormed s j : units s -> JSON_parse s = Some j -> wellFormed j.
Proof.
  intros Hs (x & Hx & H)%bind_Some. destruct x as [j' r]. apply value_units in Hx as [Hx _]; [|done].
  destruct (skipSpace r); by simplify_eq.
Qed.

Lemma wellFormed_prop k j v : wellFormed j -> prop k j = Some v -> wellFormed v.
Proof.
  destruct j as [| | | | |fs]; try done. intros (_ & _ & Hw)%wellFormed_obj. cbn. induction Hw as [|[k' x] fs Hx _ IH]; cbn; [done|].
  case_bool_decide; [by intros [= <-]|done].
Qed.

(** ** The text is one line *)

Abbreviation printable := (Forall (fun c => 32 <= c)).

Lemma printable_quoteUnit c : printable (quoteUnit c).
Proof.
  assert (Hh : forall n, 32 <= hexDigit (n mod 16)).
  { intros n. pose proof (Z.mod_pos_bound n 16). unfold hexDigit. destruct (_ <? 10); lia. }
  unfold quoteUnit. repeat case_match; try (by repeat constructor); breflect; try (repeat constructor; lia).
Qed.

Lemma printable_quoteUnits s : printable (quoteUnits s).
Proof.
  remember (length s) as m eqn:Em. revert s Em. induction (lt_wf m) as [m _ IH]. intros s ->.
  destruct s as [|c [|d s]]; cbn [quoteUnits]; [done|apply printable_quoteUnit|].
  assert (Hs : printable (quoteUnits s)) by (eapply IH; [|done]; cbn; lia).
  assert (Hds : printable (quoteUnits (d :: s))) by (eapply IH; [|done]; cbn; lia).
  destruct (_ && _) eqn:E; [|apply Forall_app; split; [apply printable_quoteUnit|done]].
  unfold isHighSurrogate, isLowSurrogate in E. repeat constructor; lia || done.
Qed.

Lemma printable_pretty (n : Z) : printable (js (pretty n)).
Proof.
  assert (Hp : forall x, (0 < x)%N -> printable (js (pretty_N_go x ""))).
  { intros x Hx. destruct (numeral x Hx "") as (c & ds & -> & _ & Hd & _). rewrite app_nil_r.
    eapply Forall_impl; [exact Hd|]. unfold isDigit. intros d Hd'. cbn in Hd'. lia. }
  destruct n as [|p|p]; [by repeat constructor|by apply (Hp (N.pos p))|].
  change (js (pretty (Z.neg p))) with (45 :: js (pretty_N_go (N.pos p) "")). constructor; [lia|]. by apply Hp.
Qed.

(** A text is a single line. *)
Lemma printable_stringify j : printable (stringify j).
Proof.
  induction j as [|b|z|s|l IH|fs IH] using json_ind'; [by repeat constructor|destruct b; by repeat constructor|apply printable_pretty| | |].
  - constructor; [lia|]. apply Forall_app. split; [apply printable_quoteUnits|by repeat constructor].
  - rewrite stringify_arr. constructor; [lia|]. apply Forall_app. split; [|by repeat constructor].
    generalize true. induction IH as [|x l Hx _ IH]; intros b; cbn; [done|]. apply Forall_app. split; [destruct b; by repeat constructor|].
    by apply Forall_app.
  - rewrite stringify_obj. constructor; [lia|]. apply Forall_app. split; [|by repeat constructor].
    generalize true. induction IH as [|[k x] l Hx _ IH]; intros b; cbn [membersText]; [done|].
    repeat (apply Forall_app; split); [destruct b; by repeat constructor|by repeat constructor|apply printable_quoteUnits|by repeat constructor|by repeat constructor|done|apply IH].
Qed.

Lemma printable_not_elem c s : c < 32 -> printable s -> c ∉ s.
Proof. intros Hc Hs Hin. rewrite Forall_forall in Hs. apply Hs in Hin. lia. Qed.

(** Literals of the source are texts of code units. *)
Lemma units_js s : units (js s).
Proof.
  unfold units, js. apply Forall_fmap, Forall_forall. intros a _. cbn. pose proof (N_ascii_bounded a). lia.
Qed.

(** [JSON.stringify] under the program's name for it. *)
Abbreviation JSON_stringify := stringify.
