(* ===== verification/Encoding.v ===== *)
(** * UTF-8 and base64url

    [TextEncoder.encode], [Buffer.from(s, "utf8")], [Buffer.toString("utf8")]
    and the [base64url] conversions of [Buffer], over UTF-16 code units and
    bytes, with their round trips.  The UTF-8 decoder is the one of the WHATWG
    Encoding standard: an ill-formed sequence becomes one replacement character
    per maximal subpart.  The base64 decoder skips characters outside both
    alphabets, as [Buffer] does. *)
From S2P Require Import Prelude Json JsonParse.
#[local] Open Scope Z_scope.

Definition byte (b : Z) : Prop := 0 <= b < 256.

(** ** UTF-8 *)

Definition utf8Char (c : Z) : list Z :=
  if c <? 0x80 then [c]
  else if c <? 0x800 then [0xC0 + c / 64; 0x80 + c mod 64]
  else if c <? 0x10000 then [0xE0 + c / 4096; 0x80 + c / 64 mod 64; 0x80 + c mod 64]
  else [0xF0 + c / 262144; 0x80 + c / 4096 mod 64; 0x80 + c / 64 mod 64; 0x80 + c mod 64].
Definition REPLACEMENT : Z := 0xFFFD.

(** The scalar values of a JavaScript string; a lone surrogate is replaced. *)
Fixpoint utf8Encode (s : jstr) : list Z :=
  match s with
  | [] => []
  | c :: rest =>
      if isHighSurrogate c then
        match rest with
        | d :: rest' => if isLowSurrogate d then utf8Char (0x10000 + (c - 0xD800) * 1024 + (d - 0xDC00)) ++ utf8Encode rest'
                        else utf8Char REPLACEMENT ++ utf8Encode rest
        | [] => utf8Char REPLACEMENT
        end
      else utf8Char (if isLowSurrogate c then REPLACEMENT else c) ++ utf8Encode rest
  end.

(** A scalar value as code units. *)
Definition utf16 (c : Z) : jstr :=
  if c <? 0x10000 then [c] else [0xD800 + (c - 0x10000) / 1024; 0xDC00 + (c - 0x10000) mod 1024].

(** The decoder's state: the bytes still needed, the value so far and the range
    of the next continuation byte. *)
Record Utf8State := { needed : nat; point : Z; lower : Z; upper : Z }.
Definition utf8Idle : Utf8State := {| needed := 0; point := 0; lower := 0x80; upper := 0xBF |}.
Definition utf8Start (b : Z) : jstr * Utf8State :=
  if b <? 0x80 then ([b], utf8Idle)
  else if (0xC2 <=? b) && (b <=? 0xDF) then ([], {| needed := 1; point := b - 0xC0; lower := 0x80; upper := 0xBF |})
  else if (0xE0 <=? b) && (b <=? 0xEF) then
    ([], {| needed := 2; point := b - 0xE0; lower := if b =? 0xE0 then 0xA0 else 0x80; upper := if b =? 0xED then 0x9F else 0xBF |})
  else if (0xF0 <=? b) && (b <=? 0xF4) then
    ([], {| needed := 3; point := b - 0xF0; lower := if b =? 0xF0 then 0x90 else 0x80; upper := if b =? 0xF4 then 0x8F else 0xBF |})
  else ([REPLACEMENT], utf8Idle).
Definition utf8Step (st : Utf8State) (b : Z) : jstr * Utf8State :=
  match needed st with
  | O => utf8Start b
  | S n =>
      if (lower st <=? b) && (b <=? upper st) then
        let c := point st * 64 + (b - 0x80) in
        match n with
        | O => (utf16 c, utf8Idle)
        | S _ => ([], {| needed := n; point := c; lower := 0x80; upper := 0xBF |})
        end
      else prod_map (cons REPLACEMENT) id (utf8Start b)
  end.
Fixpoint utf8Run (st : Utf8State) (bytes : list Z) : jstr :=
  match bytes with
  | [] => match needed st with O => [] | S _ => [REPLACEMENT] end
  | b :: rest => let (out, st') := utf8Step st b in out ++ utf8Run st' rest
  end.
Definition utf8Decode (bytes : list Z) : jstr := utf8Run utf8Idle bytes.

Example utf8_euro : utf8Encode [0x20AC; 0xD83D; 0xDE00; 0xD800; 65] = [0xE2; 0x82; 0xAC; 0xF0; 0x9F; 0x98; 0x80; 0xEF; 0xBF; 0xBD; 65].
Proof. reflexivity. Qed.
Example utf8_illformed : utf8Decode [0xE2; 0x82; 65; 0xC0; 0xF0; 0x9F; 0x98] = [REPLACEMENT; 65; REPLACEMENT; REPLACEMENT].
Proof. reflexivity. Qed.

(** A string without lone surrogates. *)
Fixpoint paired (s : jstr) : Prop :=
  match s with
  | [] => True
  | c :: rest =>
      0 <= c < 0x10000 /\
      if isHighSurrogate c then match rest with d :: rest' => isLowSurrogate d = true /\ paired rest' | [] => False end
      else isLowSurrogate c = false /\ paired rest
  end.

(** ** base64url *)

Definition base64Char (n : Z) : Z :=
  if n <? 26 then 65 + n else if n <? 52 then 71 + n else if n <? 62 then n - 4 else if n =? 62 then 45 else 95.
Definition base64Value (c : Z) : option Z :=
  if (65 <=? c) && (c <=? 90) then Some (c - 65)
  else if (97 <=? c) && (c <=? 122) then Some (c - 71)
  else if (48 <=? c) && (c <=? 57) then Some (c + 4)
  else if (c =? 45) || (c =? 43) then Some 62
  else if (c =? 95) || (c =? 47) then Some 63
  else None.

Fixpoint toSextets (bytes : list Z) : list Z :=
  match bytes with
  | [] => []
  | [a] => [a / 4; a mod 4 * 16]
  | [a; b] => [a / 4; a mod 4 * 16 + b / 16; b mod 16 * 4]
  | a :: b :: c :: rest => a / 4 :: a mod 4 * 16 + b / 16 :: b mod 16 * 4 + c / 64 :: c mod 64 :: toSextets rest
  end.
Fixpoint ofSextets (l : list Z) : list Z :=
  match l with
  | p :: q :: r :: t :: rest => p * 4 + q / 16 :: q mod 16 * 16 + r / 4 :: r mod 4 * 64 + t :: ofSextets rest
  | [p; q; r] => [p * 4 + q / 16; q mod 16 * 16 + r / 4]
  | [p; q] => [p * 4 + q / 16]
  | _ => []
  end.
Definition bytesToBase64Url (bytes : list Z) : jstr := List.map base64Char (toSextets bytes).
Definition bytesOfBase64 (s : jstr) : list Z := ofSextets (omap base64Value s).

(** [base64UrlEncode] and [base64UrlDecode]. *)
Definition base64UrlEncode (value : jstr) : jstr := bytesToBase64Url (utf8Encode value).
Definition base64UrlDecode (value : jstr) : jstr := utf8Decode (bytesOfBase64 value).

Example base64_hello : base64UrlEncode (js "hello?>") = js "aGVsbG8_Pg" /\ base64UrlDecode (js "aGVs bG8_Pg==") = js "hello?>".
Proof. split; vm_compute; reflexivity. Qed.

(** ** The round trips *)

Ltac decide_ifs := repeat (case_match; breflect; try lia; try discriminate).

Lemma utf8Run_2 a b bytes : 2 <= a < 32 -> 0 <= b < 64 ->
  utf8Run utf8Idle (0xC0 + a :: 0x80 + b :: bytes) = utf16 (a * 64 + b) ++ utf8Run utf8Idle bytes.
Proof.
  intros Ha Hb. cbn [utf8Run]. assert (utf8Step utf8Idle (0xC0 + a) = ([], {| needed := 1; point := a; lower := 0x80; upper := 0xBF |})) as ->.
  { unfold utf8Step, utf8Start. cbn [needed utf8Idle]. decide_ifs. do 2 f_equal. lia. }
  unfold utf8Step. cbn [needed lower upper point app]. rewrite (proj2 (andb_true_iff _ _)) by lia. do 2 f_equal. lia.
Qed.

Lemma utf8Run_3 a b c bytes : 0 <= a < 16 -> 0 <= b < 64 -> 0 <= c < 64 -> (a = 0 -> 32 <= b) -> (a = 13 -> b < 32) ->
  utf8Run utf8Idle (0xE0 + a :: 0x80 + b :: 0x80 + c :: bytes) = utf16 (a * 4096 + b * 64 + c) ++ utf8Run utf8Idle bytes.
Proof.
  intros Ha Hb Hc H0 H13. cbn [utf8Run].
  assert (exists l u, utf8Step utf8Idle (0xE0 + a) = ([], {| needed := 2; point := a; lower := l; upper := u |}) /\ l <= 0x80 + b <= u) as (l & u & -> & Hl).
  { unfold utf8Step, utf8Start. cbn [needed utf8Idle]. decide_ifs; eexists _, _; (split; [do 2 f_equal; lia|lia]). }
  unfold utf8Step at 1. cbn [needed lower upper point app]. rewrite (proj2 (andb_true_iff _ _)) by lia. cbn [app].
  unfold utf8Step. cbn [needed lower upper point app]. rewrite (proj2 (andb_true_iff _ _)) by lia. do 2 f_equal. lia.
Qed.

Lemma utf8Run_4 a b c d bytes : 0 <= a < 5 -> 0 <= b < 64 -> 0 <= c < 64 -> 0 <= d < 64 -> (a = 0 -> 16 <= b) -> (a = 4 -> b < 16) ->
  utf8Run utf8Idle (0xF0 + a :: 0x80 + b :: 0x80 + c :: 0x80 + d :: bytes) = utf16 (a * 262144 + b * 4096 + c * 64 + d) ++ utf8Run utf8Idle bytes.
Proof.
  intros Ha Hb Hc Hd H0 H4. cbn [utf8Run].
  assert (exists l u, utf8Step utf8Idle (0xF0 + a) = ([], {| needed := 3; point := a; lower := l; upper := u |}) /\ l <= 0x80 + b <= u) as (l & u & -> & Hl).
  { unfold utf8Step, utf8Start. cbn [needed utf8Idle]. decide_ifs; eexists _, _; (split; [do 2 f_equal; lia|lia]). }
  unfold utf8Step at 1. cbn [needed lower upper point app]. rewrite (proj2 (andb_true_iff _ _)) by lia. cbn [app].
  unfold utf8Step at 1. cbn [needed lower upper point app]. rewrite (proj2 (andb_true_iff _ _)) by lia. cbn [app].
  unfold utf8Step. cbn [needed lower upper point app]. rewrite (proj2 (andb_true_iff _ _)) by lia. do 2 f_equal. lia.
Qed.

(** The base-64 digits of a number. *)
Lemma base64_digits c : 0 <= c -> c = c / 4096 * 4096 + c / 64 mod 64 * 64 + c mod 64 /\ c / 4096 = c / 262144 * 64 + c / 4096 mod 64 /\
  c = c / 64 * 64 + c mod 64 /\ 0 <= c mod 64 < 64 /\ 0 <= c / 64 mod 64 < 64 /\ 0 <= c / 4096 mod 64 < 64.
Proof.
  intros H. pose proof (Z.div_mod c 64). pose proof (Z.div_mod (c / 64) 64). pose proof (Z.div_mod (c / 4096) 64).
  rewrite Z.div_div in * by lia. change (64 * 64) with 4096 in *. change (4096 * 64) with 262144 in *.
  pose proof (Z.mod_pos_bound c 64). pose proof (Z.mod_pos_bound (c / 64) 64). pose proof (Z.mod_pos_bound (c / 4096) 64). lia.
Qed.

Lemma utf8Run_char c bytes : 0 <= c < 0x110000 -> isHighSurrogate c || isLowSurrogate c = false ->
  utf8Run utf8Idle (utf8Char c ++ bytes) = utf16 c ++ utf8Run utf8Idle bytes.
Proof.
  intros Hc Hs. unfold isHighSurrogate, isLowSurrogate in Hs. destruct (base64_digits c) as (E1 & E2 & E3 & H0 & H1 & H2); [lia|].
  unfold utf8Char. destruct (c <? 0x80) eqn:L1; [|destruct (c <? 0x800) eqn:L2; [|destruct (c <? 0x10000) eqn:L3]]; breflect; cbn [app].
  - cbn [utf8Run]. unfold utf8Step, utf8Start, utf16. cbn [needed utf8Idle]. rewrite (proj2 (Z.ltb_lt c 128)), (proj2 (Z.ltb_lt c 65536)) by lia. done.
  - rewrite utf8Run_2 by lia. do 2 f_equal. lia.
  - rewrite utf8Run_3; [do 2 f_equal; lia|lia..].
  - rewrite utf8Run_4; [do 2 f_equal; lia|lia..].
Qed.

Lemma utf8_roundtrip s : paired s -> utf8Decode (utf8Encode s) = s.
Proof.
  unfold utf8Decode. remember (length s) as m eqn:Em. revert s Em. induction (lt_wf m) as [m _ IH]. intros s -> Hs.
  destruct s as [|c s]; [done|]. cbn [utf8Encode paired] in *. destruct Hs as [Hc Hs]. destruct (isHighSurrogate c) eqn:Eh.
  - destruct s as [|d s]; [done|]. destruct Hs as [Hd Hs]. rewrite Hd. unfold isHighSurrogate, isLowSurrogate in *. breflect.
    rewrite utf8Run_char; [|lia|unfold isHighSurrogate, isLowSurrogate; lia]. rewrite (IH (length s)); [|cbn; lia|done|done].
    unfold utf16. rewrite (proj2 (Z.ltb_ge _ _)) by lia.
    replace (65536 + (c - 55296) * 1024 + (d - 56320) - 65536) with (d - 56320 + (c - 55296) * 1024) by lia.
    rewrite Z.div_add, Z.mod_add, Z.div_small, Z.mod_small by lia. cbn. f_equal; [lia|]. f_equal. lia.
  - destruct Hs as [Hl Hs]. rewrite Hl. rewrite utf8Run_char by (rewrite ?Eh, ?Hl; done || lia).
    rewrite (IH (length s)); [|cbn; lia|done|done]. unfold utf16. by rewrite (proj2 (Z.ltb_lt _ _)) by lia.
Qed.

Lemma bytes_utf8Char c : 0 <= c < 0x110000 -> Forall byte (utf8Char c).
Proof.
  intros Hc. destruct (base64_digits c) as (E1 & E2 & E3 & H0 & H1 & H2); [lia|]. unfold utf8Char, byte.
  decide_ifs; repeat constructor; lia.
Qed.

Lemma bytes_utf8Encode s : paired s -> Forall byte (utf8Encode s).
Proof.
  remember (length s) as m eqn:Em. revert s Em. induction (lt_wf m) as [m _ IH]. intros s -> Hs.
  destruct s as [|c s]; [constructor|]. cbn [utf8Encode paired] in *. destruct Hs as [Hc Hs]. destruct (isHighSurrogate c) eqn:Eh.
  - destruct s as [|d s]; [done|]. destruct Hs as [Hd Hs]. rewrite Hd. apply Forall_app. split; [|eapply IH; [|done..]; cbn; lia].
    unfold isHighSurrogate, isLowSurrogate in *. breflect. apply bytes_utf8Char. lia.
  - destruct Hs as [Hl Hs]. rewrite Hl. apply Forall_app. split; [apply bytes_utf8Char; lia|eapply IH; [|done..]; cbn; lia].
Qed.

Lemma base64Value_char n : 0 <= n < 64 -> base64Value (base64Char n) = Some n.
Proof.
  intros H. assert (n ∈ seqZ 0 64) as Hn by (apply elem_of_seqZ; lia). clear H. revert n Hn. apply Forall_forall.
  apply (bool_decide_unpack _). vm_compute. done.
Qed.

(** Induction three bytes at a time. *)
Lemma byte_groups (P : list Z -> Prop) : P [] -> (forall a, P [a]) -> (forall a b, P [a; b]) ->
  (forall a b c l, P l -> P (a :: b :: c :: l)) -> forall l, P l.
Proof.
  intros H0 H1 H2 H3 l. cut (P l /\ (forall a, P (a :: l)) /\ (forall a b, P (a :: b :: l))); [tauto|].
  induction l as [|x l (IH0 & IH1 & IH2)]; [auto|]. split_and!; auto.
Qed.

Ltac euclid := Z.to_euclidean_division_equations; lia.

Lemma sextets_range bytes : Forall byte bytes -> Forall (fun n => 0 <= n < 64) (toSextets bytes).
Proof.
  induction bytes as [|a|a b|a b c l IH] using byte_groups; cbn [toSextets].
  - constructor.
  - intros [Ha _]%Forall_cons. unfold byte in *. repeat constructor; euclid.
  - intros [Ha [Hb _]%Forall_cons]%Forall_cons. unfold byte in *. repeat constructor; euclid.
  - intros [Ha [Hb [Hc Hl]%Forall_cons]%Forall_cons]%Forall_cons. unfold byte in *. repeat (constructor; [split; euclid|]). auto.
Qed.

(** A base64url text has no dot. *)
Lemma dot_not_base64 bytes : Forall byte bytes -> 46 ∉ bytesToBase64Url bytes.
Proof.
  unfold bytesToBase64Url. intros Hb (n & E & Hn)%list_elem_of_fmap. pose proof (sextets_range _ Hb) as Hr. rewrite Forall_forall in Hr.
  apply Hr, base64Value_char in Hn. by rewrite <- E in Hn.
Qed.

Lemma ofSextets_toSextets bytes : Forall byte bytes -> ofSextets (toSextets bytes) = bytes.
Proof.
  induction bytes as [|a|a b|a b c l IH] using byte_groups; cbn [toSextets ofSextets].
  - done.
  - intros [Ha _]%Forall_cons. unfold byte in *. f_equal. euclid.
  - intros [Ha [Hb _]%Forall_cons]%Forall_cons. unfold byte in *. f_equal; [|f_equal]; euclid.
  - intros [Ha [Hb [Hc Hl]%Forall_cons]%Forall_cons]%Forall_cons. unfold byte in *. rewrite (IH Hl). f_equal; [|f_equal; [|f_equal]]; euclid.
Qed.

Lemma base64_bytes bytes : Forall byte bytes -> bytesOfBase64 (bytesToBase64Url bytes) = bytes.
Proof.
  intros H. unfold bytesOfBase64, bytesToBase64Url. rewrite <- (ofSextets_toSextets bytes H) at 2. f_equal.
  induction (sextets_range bytes H) as [|n l Hn _ IH]; cbn; [done|]. by rewrite base64Value_char, IH.
Qed.

Lemma base64Url_roundtrip s : paired s -> base64UrlDecode (base64UrlEncode s) = s.
Proof. intros H. unfold base64UrlDecode, base64UrlEncode. rewrite base64_bytes by by apply bytes_utf8Encode. by apply utf8_roundtrip. Qed.

(** ** JSON texts have no lone surrogates *)

Definition basic (c : Z) : Prop := 0 <= c < 0xD800.
Lemma paired_basic c s : basic c -> paired s -> paired (c :: s).
Proof. unfold basic. cbn. unfold isHighSurrogate, isLowSurrogate. intros Hc Hs. decide_ifs. split; [lia|]. split; [lia|done]. Qed.

Lemma paired_app s t : paired s -> paired t -> paired (s ++ t).
Proof.
  intros Hs Ht. revert Hs. remember (length s) as m eqn:Em. revert s Em. induction (lt_wf m) as [m _ IH]. intros s ->.
  destruct s as [|c s]; [done|]. cbn [app paired]. intros [Hc Hs]. split; [done|]. destruct (isHighSurrogate c).
  - destruct s as [|d s]; [done|]. destruct Hs as [Hd Hs]. split; [done|]. eapply IH; [|done|exact Hs]. cbn; lia.
  - destruct Hs as [Hl Hs]. split; [done|]. eapply IH; [|done|exact Hs]. cbn; lia.
Qed.

Lemma paired_basics s : Forall basic s -> paired s.
Proof. induction 1; [done|]. by apply paired_basic. Qed.

Lemma paired_js s : paired (js s).
Proof.
  apply paired_basics. unfold js. apply Forall_fmap, Forall_forall. intros a _. cbn. pose proof (N_ascii_bounded a). unfold basic. lia.
Qed.

Lemma paired_quoteUnit c : 0 <= c < 65536 -> paired (quoteUnit c).
Proof.
  intros Hc. assert (Hh : forall n, basic (hexDigit (n mod 16))).
  { intros n. pose proof (Z.mod_pos_bound n 16). unfold hexDigit, basic. destruct (_ <? 10) eqn:E; breflect; lia. }
  unfold quoteUnit. repeat case_match; try apply paired_js.
  - apply orb_true_iff in H as [->%Z.eqb_eq| ->%Z.eqb_eq]; apply paired_basics; repeat constructor; done.
  - unfold unicodeEscape. apply paired_app; [apply paired_js|]. apply paired_basics. repeat constructor; apply Hh.
  - breflect. cbn. rewrite H6, H7. done.
Qed.

Lemma paired_quoteUnits s : units s -> paired (quoteUnits s).
Proof.
  remember (length s) as m eqn:Em. revert s Em. induction (lt_wf m) as [m _ IH]. intros s -> Hs.
  destruct Hs as [|c s Hc Hs]; [done|]. cbn [quoteUnits]. destruct s as [|d s]; [by apply paired_quoteUnit|].
  destruct (_ && _) eqn:E.
  - apply andb_true_iff in E as [E1 E2]. apply Forall_cons in Hs as [Hd Hs]. cbn [paired]. rewrite E1, E2. split_and!; [lia|lia|done|].
    eapply IH; [|done|exact Hs]. cbn; lia.
  - apply paired_app; [by apply paired_quoteUnit|]. eapply IH; [|done|exact Hs]. cbn; lia.
Qed.

Lemma paired_quote s : units s -> paired (quote s).
Proof.
  intros Hs. assert (Hq : paired [34]) by by apply paired_basics; repeat constructor.
  unfold quote. apply paired_app; [done|]. apply paired_app; [by apply paired_quoteUnits|done].
Qed.

Lemma paired_stringify j : wellFormed j -> paired (stringify j).
Proof.
  induction j as [|b|z|s|l IH|fs IH] using json_ind'; intros Hwf; cbn [stringify]; try apply paired_js; [by destruct b; apply paired_js|by apply paired_quote| |].
  - apply wellFormed_arr in Hwf. change (paired (stringify (JArr l))). rewrite stringify_arr. change (91 :: ?x) with (js "[" ++ x).
    apply paired_app; [apply paired_js|]. apply paired_app; [|by apply (paired_js "]")].
    generalize true. induction Hwf as [|x l Hx Hl IHl]; intros b; cbn; [done|]. apply Forall_cons in IH as [IHx IH].
    apply paired_app; [by destruct b; [|apply (paired_js ",")]|]. apply paired_app; auto.
  - apply wellFormed_obj in Hwf as (_ & Hu & Hw). change (paired (stringify (JObj fs))). rewrite stringify_obj. change (123 :: ?x) with (js "{" ++ x).
    apply paired_app; [apply paired_js|]. apply paired_app; [|by apply (paired_js "}")].
    generalize true. induction Hw as [|[k x] l Hx Hl IHl]; intros b; cbn [membersText]; [done|]. apply Forall_cons in IH as [IHx IH]. apply Forall_cons in Hu as [Hk Hu].
    apply paired_app; [by destruct b; [|apply (paired_js ",")]|]. apply paired_app; [by apply paired_quote|].
    apply paired_app; [apply paired_js|]. apply paired_app; auto.
Qed.

(** ** Decoded text is text *)

(** The values a decoder can reach. *)
Definition decoding (st : Utf8State) : Prop :=
  0x80 <= lower st /\ upper st <= 0xBF /\ 0 <= point st /\
  match needed st with
  | O => True
  | 1%nat => point st <= 0x43FF
  | 2%nat => point st <= 0x10E /\ True \/ point st = 0x10F
  | 3%nat => point st < 4 \/ point st = 4 /\ upper st = 0x8F
  | _ => False
  end.

Lemma utf8Start_units b : 0 <= b < 256 -> units (utf8Start b).1 /\ decoding (utf8Start b).2.
Proof.
  intros Hb. unfold utf8Start. repeat (case_match; breflect); cbn [fst snd]; split;
    try (apply Forall_singleton; unfold REPLACEMENT; lia); try constructor; unfold decoding; cbn; repeat case_match; breflect; lia.
Qed.

Lemma utf16_units c : 0 <= c <= 0x10FFFF -> units (utf16 c).
Proof.
  intros Hc. unfold utf16. destruct (c <? 0x10000) eqn:E; breflect; unfold units; repeat (apply Forall_cons; split; [Z.to_euclidean_division_equations; lia|]); constructor.
Qed.

Lemma utf8Step_units st b : decoding st -> 0 <= b < 256 -> units (utf8Step st b).1 /\ decoding (utf8Step st b).2.
Proof.
  intros (Hl & Hu & Hp & Hn) Hb. unfold utf8Step. destruct (needed st) as [|n]; [by apply utf8Start_units|].
  destruct ((lower st <=? b) && (b <=? upper st)) eqn:E.
  - breflect. destruct n as [|[|[|n]]]; cbn [fst snd].
    + split; [apply utf16_units; lia|]. unfold decoding, utf8Idle; cbn; lia.
    + split; [constructor|]. unfold decoding; cbn; lia.
    + split; [constructor|]. unfold decoding; cbn; lia.
    + done.
  - destruct (utf8Start_units b Hb) as [H1 H2]. destruct (utf8Start b) as [out st']. cbn in *. split; [|done]. constructor; [unfold REPLACEMENT; lia|done].
Qed.

Lemma units_utf8Decode bytes : Forall byte bytes -> units (utf8Decode bytes).
Proof.
  intros Hb. unfold utf8Decode. assert (decoding utf8Idle) as Hd by (unfold decoding; cbn; lia). revert Hd. generalize utf8Idle.
  induction Hb as [|b bytes Hb _ IH]; intros st Hd; cbn [utf8Run].
  - destruct (needed st); constructor; [unfold REPLACEMENT; lia|constructor].
  - destruct (utf8Step_units st b Hd Hb) as [H1 H2]. destruct (utf8Step st b) as [out st']. apply Forall_app. split; [done|by apply IH].
Qed.

Lemma bytes_ofSextets l : Forall (fun n => 0 <= n < 64) l -> Forall byte (ofSextets l).
Proof.
  intros Hl. remember (length l) as n eqn:En. revert l En Hl. induction (lt_wf n) as [n _ IH]. intros l -> Hl.
  destruct l as [|p [|q [|r [|t l]]]]; cbn [ofSextets]; [constructor..| | |]; repeat (apply Forall_cons in Hl as [? Hl]);
    repeat (apply Forall_cons; split; [unfold byte; Z.to_euclidean_division_equations; lia|]); try by constructor.
  eapply IH; [|reflexivity|done]. cbn. lia.
Qed.
Lemma units_base64UrlDecode s : units (base64UrlDecode s).
Proof.
  apply units_utf8Decode, bytes_ofSextets, Forall_forall. intros n (c & _ & Hc)%list_elem_of_omap.
  unfold base64Value in Hc. repeat (case_match; breflect); simplify_eq; lia.
Qed.
