(* ===== verification/Tokens.v ===== *)
(** * Signed tokens ([packages/contracts/src/index.ts])

    Five kinds of bearer tokens share one envelope, a JSON payload in base64url
    and its HMAC: the delegated access token ([ogd_]), the enrollment bearer
    ([oge_]), the enroll token ([oget_]), the stream token ([ogs_]) and the
    relay producer token ([ogr_]).  The signature covers the payload text and
    not the prefix, and a deployment may sign every kind with its one delegation
    secret, so what keeps the kinds apart is the payload schemas. *)
From S2P Require Import Prelude Json JsonParse Encoding.
#[local] Open Scope Z_scope.

(** The platform's HMAC-SHA-256 and zod's [uuid()] test. *)
Class TokenPlatform := {
  hmacSha256 : jstr -> jstr -> list Z;
  hmac_bytes : forall secret value, Forall byte (hmacSha256 secret value);
  isUuid : jstr -> bool
}.

Module Tokens.

(** ** The envelope *)

Section envelope.
Context `{TokenPlatform}.

Definition hmacSha256Base64Url (secret value : jstr) : jstr := bytesToBase64Url (hmacSha256 secret value).

(** The accumulated difference of two byte sequences of one length. *)
Definition constantTimeEqual (actual expected : jstr) : bool :=
  let actualBytes := utf8Encode actual in
  let expectedBytes := utf8Encode expected in
  if negb (Nat.eqb (length actualBytes) (length expectedBytes)) then false
  else fold_left (fun diff p => Z.lor diff (Z.lxor p.1 p.2)) (combine actualBytes expectedBytes) 0 =? 0.

(** [s.startsWith(prefix)] and [s.lastIndexOf(c)]. *)
Definition startsWith (prefix s : jstr) : bool := bool_decide (take (length prefix) s = prefix).
Fixpoint lastIndexOf (c : Z) (s : jstr) : Z :=
  match s with
  | [] => -1
  | x :: r => let i := lastIndexOf c r in if 0 <=? i then i + 1 else if x =? c then 0 else -1
  end.

(** The text of a token of a prefix: payload and signature, or nothing. *)
Definition openEnvelope (prefix secret token : jstr) : option jstr :=
  if negb (startsWith prefix token) then None
  else
    let withoutPrefix := drop (length prefix) token in
    let dot := lastIndexOf 46 withoutPrefix in
    if dot <=? 0 then None
    else
      let encodedPayload := take (Z.to_nat dot) withoutPrefix in
      let signature := drop (Z.to_nat (dot + 1)) withoutPrefix in
      let expected := hmacSha256Base64Url secret encodedPayload in
      if negb (constantTimeEqual signature expected) then None else Some encodedPayload.
Definition sealEnvelope (prefix secret : jstr) (payload : json) : jstr :=
  let encodedPayload := base64UrlEncode (JSON_stringify payload) in
  let signature := hmacSha256Base64Url secret encodedPayload in
  prefix ++ encodedPayload ++ js "." ++ signature.
End envelope.

(** ** Payload schemas *)

Record DelegatedAccessTokenPayload := {
  dat_accountId : jstr; dat_workspaceId : jstr; dat_subjectId : jstr; dat_subjectLabel : option jstr;
  dat_permissions : list jstr; dat_sessionId : option jstr; dat_turnId : option jstr; dat_exp : Z }.
Record EnrollmentBearerPayload := {
  eb_workspaceId : jstr; eb_agentId : jstr; eb_enrollmentId : jstr; eb_subjectPrefix : jstr; eb_exp : Z }.
Record EnrollTokenPayload := {
  et_workspaceId : jstr; et_accountId : jstr; et_allowScreenControl : bool; et_iat : Z; et_exp : Z }.
Inductive StreamMode := View | Control.
Record StreamTokenPayload := {
  st_workspaceId : jstr; st_sessionId : jstr; st_viewerId : jstr; st_leaseEpoch : Z; st_mode : StreamMode; st_port : Z; st_exp : Z }.
Record RelayTokenPayload := { rt_workspaceId : jstr; rt_agentId : jstr; rt_exp : Z }.

Definition Permission : list jstr := List.map js [
  "account:read"; "account:admin"; "members:manage"; "workspace:create"; "billing:read"; "billing:manage";
  "workspace:read"; "workspace:admin"; "sessions:create"; "sessions:read"; "sessions:control"; "stream:view";
  "stream:control"; "stream:acknowledge"; "files:upload"; "files:read"; "files:write"; "terminal:attach";
  "documents:manage"; "documents:search"; "scheduled_tasks:manage"; "scheduled_tasks:run"; "github:manage";
  "github:use"; "api_keys:manage"; "connections:read"; "connections:write"; "environments:manage";
  "environments:use"; "variable-sets:manage"; "variable-sets:use"; "mcp_servers:attach"; "toolspace:call";
  "goals:manage"; "enrollments:read"; "enrollments:manage"; "rigs:use"; "rigs:manage"]%string.

Section zod.
Context `{TokenPlatform}.

Definition zUuid (v : option json) : option jstr := match v with Some (JStr s) => if isUuid s then Some s else None | _ => None end.
(** [z.string()], [z.string().min(1)]. *)
Definition zString (v : option json) : option jstr := match v with Some (JStr s) => Some s | _ => None end.
Definition zString1 (v : option json) : option jstr := match v with Some (JStr (c :: s)) => Some (c :: s) | _ => None end.
Definition zOneOf (l : list jstr) (v : option json) : option jstr :=
  match v with Some (JStr s) => if bool_decide (s ∈ l) then Some s else None | _ => None end.
Definition zBoolean (v : option json) : option bool := match v with Some (JBool b) => Some b | _ => None end.
(** [z.number().int()] takes safe integers; [lo] is 0 for [nonnegative()], 1 for [positive()]. *)
Definition zInt (lo : Z) (v : option json) : option Z :=
  match v with Some (JNum n) => if (lo <=? n) && (n <=? 9007199254740991) then Some n else None | _ => None end.
Definition zOptional {A} (f : option json -> option A) (v : option json) : option (option A) :=
  match v with None => Some None | Some _ => Some <$> f v end.
Definition zArray1 {A} (f : option json -> option A) (v : option json) : option (list A) :=
  match v with Some (JArr (x :: l)) => mapM (fun x => f (Some x)) (x :: l) | _ => None end.

(** The object a record prints as: absent optional fields are omitted. *)
Definition object (fields : list (string * option json)) : json :=
  JObj (omap (fun kv => pair (js kv.1) <$> kv.2) fields).
Definition textOf (s : jstr) : option json := Some (JStr s).
Definition intOf (n : Z) : option json := Some (JNum n).
Definition maybe (s : option jstr) : option json := JStr <$> s.

Definition delegatedJson (p : DelegatedAccessTokenPayload) : json := object [
  ("accountId", textOf (dat_accountId p)); ("workspaceId", textOf (dat_workspaceId p)); ("subjectId", textOf (dat_subjectId p));
  ("subjectLabel", maybe (dat_subjectLabel p)); ("permissions", Some (JArr (List.map JStr (dat_permissions p))));
  ("sessionId", maybe (dat_sessionId p)); ("turnId", maybe (dat_turnId p)); ("exp", intOf (dat_exp p))]%string.
Definition parseDelegated (j : json) : option DelegatedAccessTokenPayload :=
  let get k := prop (js k) j in
  accountId ← zUuid (get "accountId"%string); workspaceId ← zUuid (get "workspaceId"%string); subjectId ← zString1 (get "subjectId"%string);
  subjectLabel ← zOptional zString (get "subjectLabel"%string); permissions ← zArray1 (zOneOf Permission) (get "permissions"%string);
  sessionId ← zOptional zUuid (get "sessionId"%string); turnId ← zOptional zUuid (get "turnId"%string); exp ← zInt 1 (get "exp"%string);
  Some {| dat_accountId := accountId; dat_workspaceId := workspaceId; dat_subjectId := subjectId; dat_subjectLabel := subjectLabel;
          dat_permissions := permissions; dat_sessionId := sessionId; dat_turnId := turnId; dat_exp := exp |}.

Definition bearerJson (p : EnrollmentBearerPayload) : json := object [
  ("workspaceId", textOf (eb_workspaceId p)); ("agentId", textOf (eb_agentId p)); ("enrollmentId", textOf (eb_enrollmentId p));
  ("subjectPrefix", textOf (eb_subjectPrefix p)); ("exp", intOf (eb_exp p))]%string.
Definition parseBearer (j : json) : option EnrollmentBearerPayload :=
  let get k := prop (js k) j in
  workspaceId ← zUuid (get "workspaceId"%string); agentId ← zUuid (get "agentId"%string); enrollmentId ← zUuid (get "enrollmentId"%string);
  subjectPrefix ← zString1 (get "subjectPrefix"%string); exp ← zInt 1 (get "exp"%string);
  Some {| eb_workspaceId := workspaceId; eb_agentId := agentId; eb_enrollmentId := enrollmentId; eb_subjectPrefix := subjectPrefix; eb_exp := exp |}.

Definition enrollJson (p : EnrollTokenPayload) : json := object [
  ("typ", textOf (js "enroll")); ("workspaceId", textOf (et_workspaceId p)); ("accountId", textOf (et_accountId p));
  ("allowScreenControl", Some (JBool (et_allowScreenControl p))); ("iat", intOf (et_iat p)); ("exp", intOf (et_exp p))]%string.
Definition parseEnroll (j : json) : option EnrollTokenPayload :=
  let get k := prop (js k) j in
  _ ← zOneOf [js "enroll"] (get "typ"%string); workspaceId ← zUuid (get "workspaceId"%string); accountId ← zUuid (get "accountId"%string);
  allowScreenControl ← zBoolean (get "allowScreenControl"%string); iat ← zInt 0 (get "iat"%string); exp ← zInt 1 (get "exp"%string);
  Some {| et_workspaceId := workspaceId; et_accountId := accountId; et_allowScreenControl := allowScreenControl; et_iat := iat; et_exp := exp |}.

Definition modeText (m : StreamMode) : jstr := match m with View => js "view" | Control => js "control" end.
Definition zMode (v : option json) : option StreamMode :=
  s ← zOneOf [js "view"; js "control"] v; Some (if bool_decide (s = js "view") then View else Control).
Definition streamJson (p : StreamTokenPayload) : json := object [
  ("workspaceId", textOf (st_workspaceId p)); ("sessionId", textOf (st_sessionId p)); ("viewerId", textOf (st_viewerId p));
  ("leaseEpoch", intOf (st_leaseEpoch p)); ("mode", textOf (modeText (st_mode p))); ("port", intOf (st_port p)); ("exp", intOf (st_exp p))]%string.
Definition parseStream (j : json) : option StreamTokenPayload :=
  let get k := prop (js k) j in
  workspaceId ← zUuid (get "workspaceId"%string); sessionId ← zUuid (get "sessionId"%string); viewerId ← zUuid (get "viewerId"%string);
  leaseEpoch ← zInt 0 (get "leaseEpoch"%string); mode ← zMode (get "mode"%string); port ← zInt 1 (get "port"%string); exp ← zInt 1 (get "exp"%string);
  Some {| st_workspaceId := workspaceId; st_sessionId := sessionId; st_viewerId := viewerId; st_leaseEpoch := leaseEpoch;
          st_mode := mode; st_port := port; st_exp := exp |}.

Definition relayJson (p : RelayTokenPayload) : json := object [
  ("workspaceId", textOf (rt_workspaceId p)); ("agentId", textOf (rt_agentId p)); ("exp", intOf (rt_exp p))]%string.
Definition parseRelay (j : json) : option RelayTokenPayload :=
  let get k := prop (js k) j in
  workspaceId ← zUuid (get "workspaceId"%string); agentId ← zUuid (get "agentId"%string); exp ← zInt 1 (get "exp"%string);
  Some {| rt_workspaceId := workspaceId; rt_agentId := agentId; rt_exp := exp |}.
End zod.

(** ** Signing and verifying *)

Inductive Kind := Delegated | EnrollmentBearer | EnrollToken | StreamToken | RelayToken.
#[export] Instance Kind_eq_dec : EqDecision Kind.
Proof. solve_decision. Defined.

Definition Payload (k : Kind) : Type :=
  match k with
  | Delegated => DelegatedAccessTokenPayload | EnrollmentBearer => EnrollmentBearerPayload | EnrollToken => EnrollTokenPayload
  | StreamToken => StreamTokenPayload | RelayToken => RelayTokenPayload
  end.
Definition prefixOf (k : Kind) : jstr :=
  js match k with Delegated => "ogd_" | EnrollmentBearer => "oge_" | EnrollToken => "oget_" | StreamToken => "ogs_" | RelayToken => "ogr_" end.
Definition expOf (k : Kind) : Payload k -> Z :=
  match k with Delegated => dat_exp | EnrollmentBearer => eb_exp | EnrollToken => et_exp | StreamToken => st_exp | RelayToken => rt_exp end.

Section tokens.
Context `{TokenPlatform}.

Definition payloadJson (k : Kind) : Payload k -> json :=
  match k with
  | Delegated => delegatedJson | EnrollmentBearer => bearerJson | EnrollToken => enrollJson | StreamToken => streamJson | RelayToken => relayJson
  end.
Definition safeParse (k : Kind) : json -> option (Payload k) :=
  match k with
  | Delegated => parseDelegated | EnrollmentBearer => parseBearer | EnrollToken => parseEnroll | StreamToken => parseStream | RelayToken => parseRelay
  end.

(** A [ZodError] when the payload is not valid. *)
Definition signToken (k : Kind) (secret : jstr) (payload : Payload k) : result unit jstr :=
  match safeParse k (payloadJson k payload) with
  | None => Err tt
  | Some parsed => Ok (sealEnvelope (prefixOf k) secret (payloadJson k parsed))
  end.

(** The kinds whose verification throws on a payload text that is not JSON; the
    others answer null. *)
Definition throwsOnBadJson (k : Kind) : bool := match k with Delegated | EnrollmentBearer => true | _ => false end.
Definition verifyToken (k : Kind) (secret token : jstr) (nowSeconds : Z) : result unit (option (Payload k)) :=
  match openEnvelope (prefixOf k) secret token with
  | None => Ok None
  | Some encodedPayload =>
      match JSON_parse (base64UrlDecode encodedPayload) with
      | None => if throwsOnBadJson k then Err tt else Ok None
      | Some decoded =>
          match safeParse k decoded with
          | None => Ok None
          | Some payload => if expOf k payload <? nowSeconds then Ok None else Ok (Some payload)
          end
      end
  end.

Definition signDelegatedAccessToken := signToken Delegated.
Definition verifyDelegatedAccessToken := verifyToken Delegated.
Definition signEnrollmentBearer := signToken EnrollmentBearer.
Definition verifyEnrollmentBearer := verifyToken EnrollmentBearer.
Definition signEnrollToken := signToken EnrollToken.
Definition verifyEnrollToken := verifyToken EnrollToken.
Definition signStreamToken := signToken StreamToken.
Definition verifyStreamToken := verifyToken StreamToken.
Definition signRelayToken := signToken RelayToken.
Definition verifyRelayToken := verifyToken RelayToken.
End tokens.

(** ** The envelope opens what it sealed *)

Lemma lastIndexOf_none c s : c ∉ s -> lastIndexOf c s = -1.
Proof.
  induction s as [|x s IH]; [done|]. intros [Hx Hs]%not_elem_of_cons. cbn. rewrite IH by done. cbn.
  by rewrite (proj2 (Z.eqb_neq x c)).
Qed.

Lemma lastIndexOf_app c a b : c ∉ b -> lastIndexOf c (a ++ c :: b) = Z.of_nat (length a).
Proof.
  intros Hb. induction a as [|x a IH]; cbn [app lastIndexOf length].
  - rewrite lastIndexOf_none by done. cbn. by rewrite Z.eqb_refl.
  - rewrite IH, (proj2 (Z.leb_le _ _)) by lia. lia.
Qed.

Lemma lastIndexOf_split c s : 0 <= lastIndexOf c s ->
  s = take (Z.to_nat (lastIndexOf c s)) s ++ c :: drop (Z.to_nat (lastIndexOf c s + 1)) s.
Proof.
  induction s as [|x s IH]; [done|]. cbn [lastIndexOf]. destruct (0 <=? lastIndexOf c s) eqn:E; breflect.
  - intros _. rewrite !Z2Nat.inj_add by lia. rewrite !Nat.add_1_r. cbn [take drop app]. f_equal.
    replace (S (Z.to_nat (lastIndexOf c s))) with (Z.to_nat (lastIndexOf c s + 1)) by lia. by apply IH.
  - destruct (Z.eqb_spec x c) as [->|]; [done|lia].
Qed.

Lemma constantTimeEqual_refl s : constantTimeEqual s s = true.
Proof.
  unfold constantTimeEqual. rewrite Nat.eqb_refl. cbn [negb]. apply Z.eqb_eq. generalize (utf8Encode s). clear s.
  intros l. induction l as [|x l IH]; [done|]. cbn. by rewrite Z.lxor_nilpotent.
Qed.

(** The comparison is equality of the encoded texts. *)
Lemma diff_zero l : forall m d, length l = length m ->
  (fold_left (fun diff p => Z.lor diff (Z.lxor p.1 p.2)) (combine l m) d = 0 <-> d = 0 /\ l = m).
Proof.
  induction l as [|x l IH]; intros [|y m] d Hlen; try done; cbn; [tauto|]. rewrite IH by (cbn in Hlen; lia).
  rewrite Z.lor_eq_0_iff, Z.lxor_eq_0_iff. naive_solver.
Qed.

Lemma constantTimeEqual_spec a b : constantTimeEqual a b = true <-> utf8Encode a = utf8Encode b.
Proof.
  unfold constantTimeEqual. destruct (Nat.eqb_spec (length (utf8Encode a)) (length (utf8Encode b))) as [E|E]; cbn [negb].
  - rewrite Z.eqb_eq, diff_zero by done. tauto.
  - split; [done|]. intros H. by rewrite H in E.
Qed.

Section facts.
Context `{platform : TokenPlatform}.

Lemma base64_nonempty j : base64UrlEncode (JSON_stringify j) <> [].
Proof.
  assert (Hs : JSON_stringify j <> []) by (destruct (skipSpace_stringify j []) as (c & r & E & _); rewrite app_nil_r in E; by rewrite E).
  unfold base64UrlEncode, bytesToBase64Url. intros E%map_eq_nil.
  assert (Hc : forall c, utf8Char c <> []) by (intros c; unfold utf8Char; repeat case_match; done).
  assert (Hb : forall b l, toSextets (b :: l) <> []) by (intros b [|? [|? ?]]; done).
  destruct (JSON_stringify j) as [|c s]; [done|]. cbn [utf8Encode] in E.
  assert (Hx : forall c l, toSextets (utf8Char c ++ l) <> []).
  { intros x l. specialize (Hc x). destruct (utf8Char x) as [|b r]; [done|]. apply Hb. }
  revert E. repeat case_match; try apply Hx. rewrite <- (app_nil_r (utf8Char _)). apply Hx.
Qed.

Lemma open_seal prefix secret j : openEnvelope prefix secret (sealEnvelope prefix secret j) = Some (base64UrlEncode (JSON_stringify j)).
Proof.
  unfold openEnvelope, sealEnvelope, startsWith. rewrite take_app_length, bool_decide_eq_true_2 by done. cbn [negb].
  rewrite drop_app_length. change (js ".") with [46]. cbn [app].
  set (E := base64UrlEncode (JSON_stringify j)). pose proof (base64_nonempty j) as HE. fold E in HE.
  rewrite lastIndexOf_app by (apply dot_not_base64, hmac_bytes).
  assert (0 < Z.of_nat (length E)) as Hlen by (destruct E; [done|cbn; lia]). rewrite (proj2 (Z.leb_gt _ _)) by lia.
  rewrite Nat2Z.id, take_app_length. replace (Z.to_nat (Z.of_nat (length E) + 1)) with (length E + 1)%nat by lia.
  rewrite drop_app_add. cbn [drop]. by rewrite constantTimeEqual_refl.
Qed.

(** What an opened token consists of: a signature of its payload text under the secret. *)
Lemma open_signed prefix secret token body : openEnvelope prefix secret token = Some body ->
  exists signature, token = prefix ++ body ++ 46 :: signature /\ utf8Encode signature = utf8Encode (hmacSha256Base64Url secret body).
Proof.
  unfold openEnvelope, startsWith. case_bool_decide as Hp; cbn [negb]; [|done]. pose proof (take_drop (length prefix) token) as Ht. rewrite Hp in Ht.
  set (rest := drop (length prefix) token) in *. destruct (lastIndexOf 46 rest <=? 0) eqn:Ed; [done|]. breflect.
  destruct (constantTimeEqual _ _) eqn:Ec; cbn [negb]; [|done]. intros [= <-]. apply constantTimeEqual_spec in Ec.
  eexists. split; [|exact Ec]. rewrite <- Ht at 1. f_equal. apply lastIndexOf_split. lia.
Qed.

Lemma verify_sealed k secret j now : wellFormed j ->
  verifyToken k secret (sealEnvelope (prefixOf k) secret j) now =
  Ok (payload ← safeParse k j; if expOf k payload <? now then None else Some payload).
Proof.
  intros Hj. unfold verifyToken. rewrite open_seal, base64Url_roundtrip, parse_stringify by (done || by apply paired_stringify).
  destruct (safeParse k j) as [p|]; [|done]. cbn. by destruct (expOf k p <? now).
Qed.

(** ** Schemas read back what they print *)

Fixpoint fieldOf (k : string) (fields : list (string * option json)) : option json :=
  match fields with
  | [] => None
  | (k', v) :: fields => if String.eqb k k' then match v with Some _ => v | None => fieldOf k fields end else fieldOf k fields
  end.

Lemma prop_object k fields : prop (js k) (object fields) = fieldOf k fields.
Proof.
  unfold object. cbn [prop]. induction fields as [|[k' v] fields IH]; [done|]. cbn [fieldOf omap list_omap fst snd].
  destruct v as [v|]; cbn [fmap option_fmap option_map assoc].
  - destruct (String.eqb_spec k k') as [->|E]; [by rewrite bool_decide_eq_true_2|].
    rewrite bool_decide_eq_false_2; [done|]. by intros ?%js_inj.
  - rewrite IH. by destruct (String.eqb k k').
Qed.

Lemma mapM_texts f l out : (forall v s, f (Some v) = Some s -> v = JStr s) -> mapM (fun x => f (Some x)) (List.map JStr l) = Some out -> out = l.
Proof.
  intros Hf. revert out. induction l as [|s l IH]; intros out; cbn; [by intros [= <-]|].
  intros (x & Hx & (r & Hr & [= <-])%bind_Some)%bind_Some. apply Hf in Hx. apply IH in Hr. by simplify_eq.
Qed.

(** A validator accepts only a value of its type. *)
Lemma zUuid_inv v s : zUuid v = Some s -> v = Some (JStr s).
Proof. unfold zUuid. by repeat case_match; intros [= <-]. Qed.
Lemma zString_inv v s : zString v = Some s -> v = Some (JStr s).
Proof. unfold zString. by repeat case_match; intros [= <-]. Qed.
Lemma zString1_inv v s : zString1 v = Some s -> v = Some (JStr s).
Proof. unfold zString1. by repeat case_match; intros [= <-]. Qed.
Lemma zOneOf_inv l v s : zOneOf l v = Some s -> v = Some (JStr s).
Proof. unfold zOneOf. by repeat case_match; intros [= <-]. Qed.
Lemma zBoolean_inv v b : zBoolean v = Some b -> v = Some (JBool b).
Proof. unfold zBoolean. by repeat case_match; intros [= <-]. Qed.
Lemma zInt_inv lo v n : zInt lo v = Some n -> v = Some (JNum n).
Proof. unfold zInt. by repeat case_match; intros [= <-]. Qed.
Lemma zMode_inv v m : zMode v = Some m -> v = Some (JStr (modeText m)).
Proof.
  unfold zMode. intros (s & Hs & [= <-])%bind_Some. apply zOneOf_inv in Hs as Hv. subst v. unfold zOneOf in Hs.
  case_bool_decide as Hin; [|done]. rewrite !elem_of_cons, elem_of_nil in Hin. by destruct Hin as [->|[->|[]]].
Qed.
Lemma zOptional_inv (f : option json -> option jstr) o s : (forall v s, f v = Some s -> v = Some (JStr s)) ->
  zOptional f (maybe o) = Some s -> s = o.
Proof. intros Hf. destruct o as [x|]; cbn; [|by intros [= <-]]. intros (y & Hy & ->)%fmap_Some. apply Hf in Hy. by simplify_eq. Qed.
Lemma zPermissions_inv l s : zArray1 (zOneOf Permission) (Some (JArr (List.map JStr l))) = Some s -> s = l.
Proof.
  destruct l as [|x l]; [done|]. cbn [zArray1 List.map]. apply (mapM_texts (zOneOf Permission) (x :: l)).
  intros v s' Hv%zOneOf_inv. by simplify_eq.
Qed.

Lemma last_field (v : option json) : match v with Some _ => v | None => None end = v.
Proof. by destruct v. Qed.

(** The fields of a payload that validates, from first to last. *)
Ltac validate H :=
  rewrite ?prop_object in H; cbn [fieldOf String.eqb Ascii.eqb Bool.eqb textOf intOf] in H;
  repeat match type of H with _ ≫= _ = Some _ => let E := fresh "E" in apply bind_Some in H as (? & E & H); rewrite ?last_field in E end;
  repeat match goal with
  | E : zUuid _ = Some _ |- _ => apply zUuid_inv in E
  | E : zString1 _ = Some _ |- _ => apply zString1_inv in E
  | E : zOneOf _ _ = Some _ |- _ => apply zOneOf_inv in E
  | E : zBoolean _ = Some _ |- _ => apply zBoolean_inv in E
  | E : zInt _ _ = Some _ |- _ => apply zInt_inv in E
  | E : zMode _ = Some _ |- _ => apply zMode_inv in E
  | E : zArray1 _ _ = Some _ |- _ => apply zPermissions_inv in E
  | E : zOptional zUuid _ = Some _ |- _ => apply (zOptional_inv zUuid _ _ zUuid_inv) in E
  | E : zOptional zString _ = Some _ |- _ => apply (zOptional_inv zString _ _ zString_inv) in E
  end.

Lemma parse_print k p q : safeParse k (payloadJson k p) = Some q -> q = p.
Proof.
  destruct k; cbn [safeParse payloadJson Payload] in *; intros H.
  - unfold parseDelegated, delegatedJson in H.
    validate H. unfold textOf, intOf in *. destruct p; by simplify_eq/=.
  - unfold parseBearer, bearerJson in H. validate H. unfold textOf, intOf in *. destruct p; by simplify_eq/=.
  - unfold parseEnroll, enrollJson in H. validate H. unfold textOf, intOf in *. destruct p; by simplify_eq/=.
  - unfold parseStream, streamJson in H. validate H. unfold textOf, intOf in *. destruct p as [? ? ? ? m ? ?]; destruct m; destruct x3; by simplify_eq/=.
  - unfold parseRelay, relayJson in H. validate H. unfold textOf, intOf in *. destruct p; by simplify_eq/=.
Qed.
(** ** The kinds *)

(** A token with the prefix of kind [a] replaced by that of [b]. *)
Definition retag (a b : Kind) (token : jstr) : jstr := prefixOf b ++ drop (length (prefixOf a)) token.

(** What a payload of one kind validates as under the schema of another. *)
Definition readsAs (a b : Kind) : Payload a -> Payload b -> Prop :=
  match a as a, b as b return Payload a -> Payload b -> Prop with
  | Delegated, Delegated | EnrollmentBearer, EnrollmentBearer | EnrollToken, EnrollToken
  | StreamToken, StreamToken | RelayToken, RelayToken => fun p q => q = p
  | EnrollmentBearer, RelayToken => fun p q =>
      q = {| rt_workspaceId := eb_workspaceId p; rt_agentId := eb_agentId p; rt_exp := eb_exp p |}
  | _, _ => fun _ _ => False
  end.

Lemma sign_seal k secret p token : signToken k secret p = Ok token ->
  safeParse k (payloadJson k p) = Some p /\ token = sealEnvelope (prefixOf k) secret (payloadJson k p).
Proof.
  unfold signToken. destruct (safeParse k (payloadJson k p)) as [q|] eqn:E; [|done]. apply parse_print in E as Hq. subst q.
  by intros [= <-].
Qed.

Lemma retag_seal a b secret j : retag a b (sealEnvelope (prefixOf a) secret j) = sealEnvelope (prefixOf b) secret j.
Proof. unfold retag, sealEnvelope. by rewrite drop_app_length. Qed.

Lemma bearer_as_relay p : safeParse EnrollmentBearer (bearerJson p) = Some p ->
  safeParse RelayToken (bearerJson p) = Some {| rt_workspaceId := eb_workspaceId p; rt_agentId := eb_agentId p; rt_exp := eb_exp p |}.
Proof.
  cbn [safeParse]. unfold parseBearer, parseRelay, bearerJson. rewrite !prop_object. cbn [fieldOf String.eqb Ascii.eqb Bool.eqb textOf intOf].
  intros (w & Ew & (a & Ea & (n & En & (s & Es & (e & Ee & _)%bind_Some)%bind_Some)%bind_Some)%bind_Some)%bind_Some.
  rewrite Ew, Ea. cbn [mbind option_bind]. rewrite Ee. cbn [mbind option_bind].
  apply zUuid_inv in Ew, Ea. apply zInt_inv in Ee. unfold textOf, intOf in *. by simplify_eq.
Qed.

Lemma parse_across a b p q : safeParse a (payloadJson a p) = Some p -> safeParse b (payloadJson a p) = Some q <-> readsAs a b p q.
Proof.
  intros Hp. split.
  - clear Hp. intros H. destruct a, b; cbn [safeParse payloadJson Payload readsAs] in *;
      first [by eapply (parse_print Delegated)|by eapply (parse_print EnrollmentBearer)|by eapply (parse_print EnrollToken)
            |by eapply (parse_print StreamToken)|by eapply (parse_print RelayToken)|idtac].
    all: unfold parseDelegated, parseBearer, parseEnroll, parseStream, parseRelay, delegatedJson, bearerJson, enrollJson, streamJson, relayJson in H.
    all: validate H; discriminate.
  - destruct a, b; cbn [readsAs]; try done; intros ->; first [exact Hp|by apply bearer_as_relay].
Qed.

(** (C37) A signed token is accepted until it expires, with the payload it was signed
    with; whatever prefix a holder writes in front of the signed text, no other
    kind accepts it, except that an enrollment bearer reads as the relay token
    of its own workspace and agent; and verification never throws on it. *)
Theorem token_reads_as_signed a b secret p token now :
  signToken a secret p = Ok token -> wellFormed (payloadJson a p) ->
  exists answer, verifyToken b secret (retag a b token) now = Ok answer /\
    forall q, answer = Some q <-> readsAs a b p q /\ now <= expOf b q.
Proof.
  intros [Hp ->]%sign_seal Hwf. rewrite retag_seal, verify_sealed by done. eexists. split; [reflexivity|]. intros q.
  rewrite bind_Some, <- (parse_across a b p q Hp). split.
  - intros (q' & Hq & H). destruct (expOf b q' <? now) eqn:E; [done|]. injection H as ->. breflect. auto.
  - intros [Hq Hexp]. exists q. split; [done|]. by rewrite (proj2 (Z.ltb_ge _ _)).
Qed.

(** An accepted token is its payload text under the HMAC of that text. *)
Theorem accepted_token_signed k secret token now q : verifyToken k secret token now = Ok (Some q) ->
  exists body signature j, token = prefixOf k ++ body ++ 46 :: signature /\
    utf8Encode signature = utf8Encode (hmacSha256Base64Url secret body) /\
    JSON_parse (base64UrlDecode body) = Some j /\ safeParse k j = Some q /\ now <= expOf k q.
Proof.
  unfold verifyToken. destruct (openEnvelope _ _ _) as [body|] eqn:E; [|done]. apply open_signed in E as (signature & -> & Hs).
  destruct (JSON_parse _) as [j|] eqn:Ej; [|by destruct (throwsOnBadJson k)]. destruct (safeParse k j) as [q'|] eqn:Eq; [|done].
  destruct (expOf k q' <? now) eqn:Ex; [done|]. intros [= <-]. breflect. naive_solver.
Qed.
End facts.

(** ** Examples *)

(** A stand-in HMAC: the lengths and the sum of secret and value. *)
Definition toyPlatform : TokenPlatform.
Proof.
  refine {|
    hmacSha256 := fun secret value => [Z.of_nat (length secret) mod 256; Z.of_nat (length value) mod 256; fold_right Z.add 0 (secret ++ value) mod 256];
    hmac_bytes := _;
    isUuid := fun s => Nat.eqb (length s) 36
  |}.
  intros secret value. repeat (constructor; [by apply Z.mod_pos_bound|]). constructor.
Defined.
#[local] Existing Instance toyPlatform.

Definition exampleUuid (c : Z) : jstr := repeat c 36.
Definition exampleBearer : EnrollmentBearerPayload := {|
  eb_workspaceId := exampleUuid 97; eb_agentId := exampleUuid 98; eb_enrollmentId := exampleUuid 99;
  eb_subjectPrefix := js "agent."; eb_exp := 2000 |}.
Definition exampleSecret : jstr := js "secret".
Definition exampleToken : jstr := sealEnvelope (prefixOf EnrollmentBearer) exampleSecret (bearerJson exampleBearer).

(** A machine's bearer with its prefix rewritten is a relay token; a token of
    another secret is not. *)
Example bearer_passes_as_relay :
  signEnrollmentBearer exampleSecret exampleBearer = Ok exampleToken /\
  verifyRelayToken exampleSecret (retag EnrollmentBearer RelayToken exampleToken) 2000 =
    Ok (Some {| rt_workspaceId := exampleUuid 97; rt_agentId := exampleUuid 98; rt_exp := 2000 |}) /\
  verifyEnrollmentBearer exampleSecret exampleToken 2001 = Ok None /\
  verifyEnrollmentBearer (js "other") exampleToken 2000 = Ok None /\
  verifyDelegatedAccessToken exampleSecret (retag EnrollmentBearer Delegated exampleToken) 2000 = Ok None.
Proof. vm_compute. split_and!; reflexivity. Qed.

(** A signed text that is not JSON makes the two oldest verifiers throw where
    the others answer null. *)
Example bad_json_throws :
  let body := base64UrlEncode (js "{") in
  let text := body ++ js "." ++ hmacSha256Base64Url exampleSecret body in
  verifyDelegatedAccessToken exampleSecret (js "ogd_" ++ text) 0 = Err tt /\
  verifyEnrollmentBearer exampleSecret (js "oge_" ++ text) 0 = Err tt /\
  verifyStreamToken exampleSecret (js "ogs_" ++ text) 0 = Ok None.
Proof. vm_compute. split_and!; reflexivity. Qed.

Lemma token_reads_as_signed_witness :
  exists answer, verifyToken RelayToken exampleSecret (retag EnrollmentBearer RelayToken exampleToken) 1999 = Ok answer /\
    forall q, answer = Some q <-> readsAs EnrollmentBearer RelayToken exampleBearer q /\ 1999 <= expOf RelayToken q.
Proof.
  apply (token_reads_as_signed EnrollmentBearer RelayToken exampleSecret exampleBearer exampleToken 1999).
  - vm_compute. reflexivity.
  - apply wellFormed_obj. split_and!; [apply (bool_decide_unpack _); vm_compute; reflexivity|..];
      repeat (constructor; [first [exact I|apply (bool_decide_unpack _); vm_compute; reflexivity]|]); constructor.
Defined.

Lemma accepted_token_signed_witness :
  exists body signature j, exampleToken = prefixOf EnrollmentBearer ++ body ++ 46 :: signature /\
    utf8Encode signature = utf8Encode (hmacSha256Base64Url exampleSecret body) /\
    JSON_parse (base64UrlDecode body) = Some j /\ safeParse EnrollmentBearer j = Some exampleBearer /\ 1999 <= expOf EnrollmentBearer exampleBearer.
Proof. apply (accepted_token_signed EnrollmentBearer exampleSecret exampleToken 1999 exampleBearer). vm_compute. reflexivity. Defined.
End Tokens.
