(* ===== verification/NatsJwt.v ===== *)
(** * NATS credentials ([packages/events/src/nats-jwt.ts])

    The signed JWTs of the auth callout: the base32 digest of the claims, the
    three-part encoding, the user and response claims, and the reader of a
    request.  Key pairs and SHA-512/256 are the platform's. *)
From S2P Require Import Prelude Json JsonParse Encoding.
#[local] Open Scope Z_scope.

(** [nkeys.fromSeed] of a valid seed, and [createHash("sha512-256")]. *)
Class NkeyPlatform := {
  getPublicKey : jstr -> jstr;
  sign : jstr -> list Z -> list Z;
  sha512_256 : list Z -> list Z;
  publicKey_units : forall seed, units (getPublicKey seed);
  sign_bytes : forall seed input, Forall byte (sign seed input);
  sha512_256_bytes : forall input, Forall byte (sha512_256 input)
}.

Module NatsJwt.

(** ** base32 *)

Definition BASE32_ALPHABET : jstr := js "ABCDEFGHIJKLMNOPQRSTUVWXYZ234567".
Definition base32Char (n : Z) : Z := nth (Z.to_nat n) BASE32_ALPHABET 0.

(** The inner loop; [value] is a 32-bit integer and overflows. *)
Fixpoint emitGroups (rounds : nat) (bits value : Z) (out : jstr) : Z * jstr :=
  match rounds with
  | O => (bits, out)
  | S rounds =>
      if 5 <=? bits
      then let bits := bits - 5 in emitGroups rounds bits value (out ++ [base32Char (Z.land (Z.shiftr (uint32 value) bits) 31)])
      else (bits, out)
  end.
Definition base32Step (st : Z * Z * jstr) (b : Z) : Z * Z * jstr :=
  let '(bits, value, out) := st in
  let value := int32 (Z.lor (int32 (Z.shiftl value 8)) b) in
  let (bits, out) := emitGroups (Z.to_nat (bits + 8)) (bits + 8) value out in
  (bits, value, out).
Definition base32NoPadding (bytes : list Z) : jstr :=
  let '(bits, value, out) := fold_left base32Step bytes (0, 0, []) in
  if 0 <? bits then out ++ [base32Char (Z.land (int32 (Z.shiftl value (5 - bits))) 31)] else out.

Example base32_foobar : base32NoPadding (js "foobar") = js "MZXW6YTBOI" /\ base32NoPadding (js "fo") = js "MZXQ".
Proof. split; reflexivity. Qed.

(** ** Tokens *)

Record NatsPermissions := { pub_allow : list jstr; sub_allow : list jstr }.

Definition texts (l : list jstr) : json := JArr (List.map JStr l).
Definition permissionJson (allow : list jstr) : json := JObj [(js "allow", texts allow)].
Definition JWT_HEADER : json := JObj [(js "typ", JStr (js "JWT")); (js "alg", JStr (js "ed25519-nkey"))].

Section jwt.
Context `{NkeyPlatform}.

Definition computeJti (claimsWithBlankJti : json) : jstr :=
  base32NoPadding (sha512_256 (utf8Encode (JSON_stringify claimsWithBlankJti))).

Definition encodeJwt (claims : list (jstr * json)) (seed : jstr) : jstr :=
  let withBlankJti := set_field (js "jti") (JStr []) claims in
  let jti := computeJti (JObj withBlankJti) in
  let finalClaims := set_field (js "jti") (JStr jti) claims in
  let header := base64UrlEncode (JSON_stringify JWT_HEADER) in
  let payload := base64UrlEncode (JSON_stringify (JObj finalClaims)) in
  let signingInput := header ++ 46 :: payload in
  let signature := sign seed (utf8Encode signingInput) in
  signingInput ++ 46 :: bytesToBase64Url signature.

Record MintUserJwtInput := {
  mu_userPublicKey : jstr; mu_accountSeed : jstr; mu_name : jstr; mu_permissions : NatsPermissions; mu_audienceAccount : jstr;
  mu_expiresAtSeconds : option Z
}.
Definition userClaims (i : MintUserJwtInput) (nowSeconds : Z) : list (jstr * json) :=
  [(js "jti", JStr []); (js "iat", JNum nowSeconds); (js "iss", JStr (getPublicKey (mu_accountSeed i))); (js "name", JStr (mu_name i));
   (js "sub", JStr (mu_userPublicKey i)); (js "aud", JStr (mu_audienceAccount i));
   (js "nats", JObj [(js "type", JStr (js "user")); (js "version", JNum 2);
     (js "pub", permissionJson (pub_allow (mu_permissions i))); (js "sub", permissionJson (sub_allow (mu_permissions i)));
     (js "subs", JNum (-1)); (js "data", JNum (-1)); (js "payload", JNum (-1))])]
  ++ match mu_expiresAtSeconds i with Some t => [(js "exp", JNum t)] | None => [] end.
Definition mintUserJwt (i : MintUserJwtInput) (nowSeconds : Z) : jstr := encodeJwt (userClaims i nowSeconds) (mu_accountSeed i).

Record MintAuthResponseInput := {
  mr_userPublicKey : jstr; mr_serverId : jstr; mr_accountSeed : jstr; mr_userJwt : option jstr; mr_error : option jstr
}.
Definition optionalText (k : string) (v : option jstr) : list (jstr * json) :=
  match v with Some (c :: s) => [(js k, JStr (c :: s))] | _ => [] end.
Definition responseClaims (i : MintAuthResponseInput) (nowSeconds : Z) : list (jstr * json) :=
  [(js "jti", JStr []); (js "iat", JNum nowSeconds); (js "iss", JStr (getPublicKey (mr_accountSeed i))); (js "aud", JStr (mr_serverId i));
   (js "sub", JStr (mr_userPublicKey i));
   (js "nats", JObj ([(js "type", JStr (js "authorization_response")); (js "version", JNum 2)]
     ++ optionalText "jwt" (mr_userJwt i) ++ optionalText "error" (mr_error i)))].
Definition mintAuthResponse (i : MintAuthResponseInput) (nowSeconds : Z) : jstr := encodeJwt (responseClaims i nowSeconds) (mr_accountSeed i).
End jwt.

(** [s.split(c)] *)
Fixpoint splitOn (c : Z) (s : jstr) : list jstr :=
  match s with
  | [] => [[]]
  | x :: s =>
      if x =? c then [] :: splitOn c s
      else match splitOn c s with w :: r => (x :: w) :: r | [] => [[x]] end
  end.
(** The claims of a JWT: the middle part. *)
Definition jwtClaims (token : jstr) : option json :=
  match splitOn 46 token with
  | [_; payload; _] => JSON_parse (base64UrlDecode payload)
  | _ => None
  end.

Record DecodedAuthRequest := { da_userNkey : jstr; da_serverId : jstr; da_authToken : option jstr; da_user : option jstr }.
Definition propOf (k : string) (v : option json) : option json := v ≫= prop (js k).
Definition decodeAuthRequest (token : jstr) : option DecodedAuthRequest :=
  payload ← jwtClaims token;
  if negb (isObject (Some payload)) then None
  else
    let nats := prop (js "nats") payload in
    if negb (isObject nats) then None
    else
      match asString (propOf "user_nkey" nats) with
      | None | Some [] => None
      | Some userNkey =>
          Some {| da_userNkey := userNkey;
                  da_serverId := default [] (asString (propOf "id" (propOf "server_id" nats)));
                  da_authToken := asString (propOf "auth_token" (propOf "connect_opts" nats));
                  da_user := asString (propOf "user" (propOf "connect_opts" nats)) |}
      end.

Definition workspaceAgentPermissions (workspaceId : jstr) : NatsPermissions :=
  let agentScope := js "agent." ++ workspaceId ++ js ".>" in
  let inboxScope := js "_INBOX.>" in
  {| pub_allow := [agentScope; inboxScope]; sub_allow := [agentScope; inboxScope] |}.

(** ** The digest is base32 *)

(** The bits of a byte and the number of a bit string, most significant first. *)
Definition bitsOf (b : Z) : list bool := List.map (Z.testbit b) [7; 6; 5; 4; 3; 2; 1; 0].
Definition number (p : list bool) : Z := fold_left (fun n b => 2 * n + Z.b2z b) p 0.
(** Five bits a digit; the last digit is filled with zeros. *)
Fixpoint groups5 (l : list bool) : list Z :=
  match l with
  | [] => []
  | a :: b :: c :: d :: e :: l => number [a; b; c; d; e] :: groups5 l
  | l => [number (l ++ repeat false (5 - length l))]
  end.
Definition base32Reference (bytes : list Z) : jstr := List.map base32Char (groups5 (concat (List.map bitsOf bytes))).

Lemma number_from p : forall n, fold_left (fun n b => 2 * n + Z.b2z b) p n = n * 2 ^ Z.of_nat (length p) + number p.
Proof.
  induction p as [|b p IH]; intros n; unfold number; cbn [fold_left length]; [cbn; lia|].
  rewrite !IH, Nat2Z.inj_succ, Z.pow_succ_r by lia. lia.
Qed.
Lemma number_app p q : number (p ++ q) = number p * 2 ^ Z.of_nat (length q) + number q.
Proof. unfold number at 1. rewrite fold_left_app. apply number_from. Qed.
Lemma number_range p : 0 <= number p < 2 ^ Z.of_nat (length p).
Proof.
  induction p as [|b p IH] using rev_ind; [done|]. rewrite number_app, length_app, Nat2Z.inj_add, Z.pow_add_r by lia.
  cbn. destruct b; cbn; lia.
Qed.
Lemma number_bits b : byte b -> number (bitsOf b) = b.
Proof.
  intros Hb. assert (forallb (fun b => number (bitsOf b) =? b) (seqZ 0 256) = true) as H by (vm_compute; reflexivity).
  rewrite forallb_forall in H. apply Z.eqb_eq, H, list_elem_of_In, elem_of_seqZ. unfold byte in Hb. lia.
Qed.

(** The low bits of the accumulator are the bits not yet written; the overflow
    never reaches them. *)
Lemma low_bits x k : 0 <= k <= 32 -> uint32 x mod 2 ^ k = x mod 2 ^ k.
Proof.
  intros Hk. unfold uint32. replace (2 ^ 32) with (2 ^ k * 2 ^ (32 - k)) by (rewrite <- Z.pow_add_r by lia; f_equal; lia).
  rewrite Z.rem_mul_r by lia. rewrite Z.mul_comm, Z_mod_plus_full, Z.mod_mod; lia.
Qed.

Definition pending (bits value : Z) (p : list bool) : Prop := bits = Z.of_nat (length p) /\ uint32 value mod 2 ^ bits = number p.

Lemma emitGroups_writes rounds : forall bits value out p, pending bits value p -> (length p <= rounds)%nat -> (length p <= 32)%nat ->
  exists q, (length q < 5)%nat /\ pending (emitGroups rounds bits value out).1 value q /\
    forall rest, out ++ List.map base32Char (groups5 (p ++ rest)) = (emitGroups rounds bits value out).2 ++ List.map base32Char (groups5 (q ++ rest)).
Proof.
  induction rounds as [|rounds IH]; intros bits value out p [Hb Hv] Hr H32; cbn [emitGroups].
  - destruct p; [|cbn in Hr; lia]. exists []. split; [cbn; lia|]. by split.
  - destruct (5 <=? bits) eqn:E; breflect; [|exists p; split_and!; [lia|by split|done]].
    destruct p as [|a [|b [|c [|d [|e q]]]]]; cbn [length] in *; try lia.
    assert (Hq : bits - 5 = Z.of_nat (length q)) by lia.
    change (a :: b :: c :: d :: e :: q) with ([a; b; c; d; e] ++ q) in Hv. rewrite number_app, <- Hq in Hv.
    replace bits with ((bits - 5) + 5) in Hv at 1 by lia. rewrite Z.pow_add_r, Z.rem_mul_r in Hv by lia.
    pose proof (number_range q) as Rq. rewrite <- Hq in Rq. assert (0 < 2 ^ (bits - 5)) as Hw by (apply Z.pow_pos_nonneg; lia).
    pose proof (Z.mod_pos_bound (uint32 value) (2 ^ (bits - 5)) Hw) as Rm.
    assert (Hlow : uint32 value mod 2 ^ (bits - 5) = number q /\ (uint32 value / 2 ^ (bits - 5)) mod 2 ^ 5 = number [a; b; c; d; e]).
    { set (m := uint32 value mod 2 ^ (bits - 5)) in *. set (h := (uint32 value / 2 ^ (bits - 5)) mod 2 ^ 5) in *.
      set (w := 2 ^ (bits - 5)) in *. clearbody m h w. assert (h = number [a; b; c; d; e]) by nia. split; [nia|done]. }
    destruct Hlow as [Hlow Hgroup].
    destruct (IH (bits - 5) value (out ++ [base32Char (Z.land (Z.shiftr (uint32 value) (bits - 5)) 31)]) q) as (r & Hr5 & Hp & Hout); [by split|lia|lia|].
    exists r. split_and!; [done|exact Hp|]. intros rest. rewrite <- Hout, <- app_assoc. cbn [app groups5 List.map]. f_equal. f_equal. f_equal.
    rewrite Z.shiftr_div_pow2 by lia. change 31 with (Z.ones 5). rewrite Z.land_ones by lia. by rewrite Hgroup.
Qed.

Lemma int32_low x k : 0 <= k <= 32 -> int32 x mod 2 ^ k = x mod 2 ^ k.
Proof. intros Hk. rewrite <- low_bits by done. rewrite uint32_int32. by apply low_bits. Qed.

Lemma lor_byte w b : byte b -> Z.lor (w * 2 ^ 8) b = w * 2 ^ 8 + b.
Proof.
  intros Hb. assert (Z.land (w * 2 ^ 8) b = 0) as H0.
  { apply Z.bits_inj'. intros n Hn. rewrite Z.land_spec, Z.bits_0. destruct (Z.lt_ge_cases n 8) as [H|H].
    - by rewrite Z.mul_pow2_bits_low.
    - apply andb_false_iff. right. destruct (Z.eq_dec b 0) as [->|]; [apply Z.bits_0|]. apply Z.bits_above_log2; [unfold byte in Hb; lia|].
      assert (Z.log2 b < 8); [|lia]. apply Z.log2_lt_pow2; unfold byte in Hb; lia. }
  by rewrite Z.add_nocarry_lxor, Z.lxor_lor.
Qed.

Lemma pending_byte bits value p b : byte b -> (length p < 5)%nat -> pending bits value p ->
  pending (bits + 8) (int32 (Z.lor (int32 (Z.shiftl value 8)) b)) (p ++ bitsOf b).
Proof.
  intros Hb Hp [-> Hv]. assert (length (bitsOf b) = 8%nat) as H8 by done.
  split; [rewrite length_app; lia|]. rewrite number_app, H8, number_bits by done. rewrite <- Hv, low_bits, low_bits, int32_low by lia.
  rewrite Z.shiftl_mul_pow2 by lia.
  assert (exists w, int32 (value * 2 ^ 8) = w * 2 ^ 8) as [w Hw].
  { unfold int32, uint32. replace (2 ^ 32) with (2 ^ 24 * 2 ^ 8) by done. rewrite Zmult_mod_distr_r.
    destruct (_ <? _); [by eexists|]. exists (value mod 2 ^ 24 - 2 ^ 24). lia. }
  pose proof (int32_low (value * 2 ^ 8) (Z.of_nat (length p) + 8) ltac:(lia)) as Hm. rewrite Hw in *. rewrite lor_byte by done.
  rewrite <- (Zplus_mod_idemp_l (w * 2 ^ 8)), Hm, Zplus_mod_idemp_l.
  rewrite Z.add_comm, Z.pow_add_r, (Z.mul_comm (2 ^ Z.of_nat _)), Z.rem_mul_r by lia. unfold byte in Hb. change (2 ^ 8) with 256.
  rewrite Z_mod_plus_full, (Z.mod_small b 256), Z_div_plus_full, (Z.div_small b 256) by lia. change (2 ^ Z.of_nat 8) with 256. rewrite Z.add_0_l. lia.
Qed.

Lemma last_group value a q : (length (a :: q) < 5)%nat -> uint32 value mod 2 ^ Z.of_nat (length (a :: q)) = number (a :: q) ->
  [base32Char (Z.land (int32 (Z.shiftl value (5 - Z.of_nat (length (a :: q))))) 31)] = List.map base32Char (groups5 (a :: q)).
Proof.
  intros Hl Hv. set (p := a :: q) in *. assert (groups5 p = [number (p ++ repeat false (5 - length p))]) as ->.
  { subst p. destruct q as [|? [|? [|? [|]]]]; cbn [length] in *; done || lia. }
  assert (0 < length p)%nat as H0 by (subst p; cbn; lia). cbn [List.map]. f_equal. f_equal. change 31 with (Z.ones 5). rewrite Z.land_ones, int32_low by lia.
  rewrite number_app, repeat_length, <- Hv, low_bits, Z.shiftl_mul_pow2 by lia. replace (Z.of_nat (5 - length p)) with (5 - Z.of_nat (length p)) by lia.
  assert (forall n, number (repeat false n) = 0) as -> by (intros n; unfold number; by induction n).
  replace (2 ^ 5) with (2 ^ Z.of_nat (length p) * 2 ^ (5 - Z.of_nat (length p))) by (rewrite <- Z.pow_add_r by lia; f_equal; lia).
  rewrite Zmult_mod_distr_r. lia.
Qed.

(** The base32 digits of the bytes, whatever their number: the 32-bit
    accumulator of the source loses nothing. *)
Lemma base32_groups bytes : Forall byte bytes -> base32NoPadding bytes = base32Reference bytes.
Proof.
  intros Hb. unfold base32NoPadding, base32Reference.
  assert (Hfold : forall bits value out p, (length p < 5)%nat -> pending bits value p ->
    exists q, (length q < 5)%nat /\
      let '(bits', value', out') := fold_left base32Step bytes (bits, value, out) in
      pending bits' value' q /\ out ++ List.map base32Char (groups5 (p ++ concat (List.map bitsOf bytes))) = out' ++ List.map base32Char (groups5 q)).
  { induction Hb as [|b bytes Hb _ IH]; intros bits value out p Hp5 Hp; cbn [fold_left List.map concat].
    { exists p. rewrite app_nil_r. by split_and!. }
    unfold base32Step at 2. set (value' := int32 (Z.lor (int32 (Z.shiftl value 8)) b)).
    assert (Hp' : pending (bits + 8) value' (p ++ bitsOf b)) by (by apply pending_byte).
    destruct (emitGroups_writes (Z.to_nat (bits + 8)) (bits + 8) value' out (p ++ bitsOf b)) as (q & Hq5 & Hq & Hout).
    { done. } { destruct Hp' as [-> _]. lia. } { rewrite length_app. cbn. lia. }
    destruct (emitGroups _ _ _ _) as [bits' out']. cbn [fst snd] in *. destruct (IH bits' value' out' q Hq5 Hq) as (r & Hr5 & Hr). exists r. split; [done|].
    destruct (fold_left _ _ _) as [[bits2 value2] out2]. destruct Hr as [Hr Hrout]. split; [done|]. rewrite <- Hrout, app_assoc. apply Hout. }
  destruct (Hfold 0 0 [] []) as (q & Hq5 & Hq); [cbn; lia|done|]. destruct (fold_left _ _ _) as [[bits value] out]. destruct Hq as [[-> Hn] Hout].
  cbn [app] in Hout. rewrite Hout. clear Hfold Hout. destruct q as [|a q]; cbn [length]; [by rewrite app_nil_r|].
  rewrite (proj2 (Z.ltb_lt _ _)) by lia. f_equal. by apply last_group.
Qed.

Lemma length_groups5 n : forall l, (length l <= n)%nat -> Z.of_nat (length (groups5 l)) = (Z.of_nat (length l) + 4) / 5.
Proof.
  induction n as [|n IH]; intros l Hl; [by destruct l; [|cbn in Hl; lia]|].
  destruct l as [|a [|b [|c [|d [|e l]]]]]; try done. cbn [groups5 length] in *. rewrite Nat2Z.inj_succ, IH by lia.
  replace (Z.of_nat (S (S (S (S (S (length l)))))) + 4) with (Z.of_nat (length l) + 4 + 1 * 5) by lia. rewrite Z.div_add by lia. lia.
Qed.

(** The loop over a 32-bit accumulator whose upper bits are never cleared writes
    the bits of its input in groups of five, the last one padded with zeros: as
    many characters as the bits need. *)
Theorem base32_reference bytes : Forall byte bytes ->
  base32NoPadding bytes = base32Reference bytes /\ Z.of_nat (length (base32NoPadding bytes)) = (8 * Z.of_nat (length bytes) + 4) / 5.
Proof.
  intros Hb. rewrite base32_groups by done. split; [done|]. unfold base32Reference. rewrite length_map, (length_groups5 _ _ (le_n _)). f_equal. f_equal.
  clear Hb. induction bytes as [|b bytes IH]; [done|]. cbn [List.map concat]. rewrite length_app, Nat2Z.inj_add, IH. cbn. lia.
Qed.

(** More bytes than the accumulator holds. *)
Lemma base32_reference_witness : Forall byte [255; 0; 17; 254; 128; 3; 7] /\ length (base32NoPadding [255; 0; 17; 254; 128; 3; 7]) = 12%nat.
Proof.
  assert (Forall byte [255; 0; 17; 254; 128; 3; 7]) as H by (repeat (constructor; [done|]); constructor).
  split; [exact H|]. destruct (base32_reference _ H) as [_ Hl]. apply Nat2Z.inj. rewrite Hl. reflexivity.
Defined.


(** ** The claims read back *)

Lemma splitOn_none c s : c ∉ s -> splitOn c s = [s].
Proof.
  induction s as [|x s IH]; [done|]. intros [Hx Hs]%not_elem_of_cons. cbn. rewrite (proj2 (Z.eqb_neq x c)) by done. by rewrite IH.
Qed.
Lemma splitOn_app c a b : c ∉ a -> splitOn c (a ++ c :: b) = a :: splitOn c b.
Proof.
  induction a as [|x a IH]; cbn; [by rewrite Z.eqb_refl|]. intros [Hx Ha]%not_elem_of_cons. rewrite (proj2 (Z.eqb_neq x c)) by done. by rewrite IH.
Qed.

Section reads.
Context `{NkeyPlatform}.

Lemma units_base32 n : units [base32Char n].
Proof.
  constructor; [|constructor]. unfold base32Char.
  assert (Forall (fun c => 0 <= c < 65536) (0 :: BASE32_ALPHABET)) as Hall by (apply (bool_decide_unpack _); vm_compute; reflexivity).
  rewrite Forall_forall in Hall. apply Hall. destruct (nth_in_or_default (Z.to_nat n) BASE32_ALPHABET 0) as [Hin| ->]; [right; by apply list_elem_of_In|left].
Qed.
Lemma units_jti claims : units (computeJti claims).
Proof.
  unfold computeJti. rewrite base32_groups by apply sha512_256_bytes. unfold base32Reference, units. apply Forall_fmap, Forall_forall.
  intros n _. exact (Forall_inv (units_base32 n)).
Qed.

Lemma wellFormed_texts l : Forall units l -> wellFormed (texts l).
Proof. intros Hl. apply wellFormed_arr, Forall_fmap. exact Hl. Qed.

(** Closed side conditions of the claims: distinct names and code units. *)
Ltac claims_ok := repeat match goal with
  | |- wellFormed (JObj _) => apply wellFormed_obj; split_and!; [apply (bool_decide_unpack _); vm_compute; reflexivity
                                                               |apply (bool_decide_unpack _); vm_compute; reflexivity|]
  | |- Forall _ [] => constructor
  | |- Forall _ (_ :: _) => constructor; [cbn [snd]|]
  | |- wellFormed (JNum _) => exact I
  | |- wellFormed (JStr (js _)) => apply units_js
  | |- wellFormed (texts _) => apply wellFormed_texts
  | |- wellFormed (permissionJson _) => unfold permissionJson
  | _ => assumption || apply publicKey_units || (constructor; fail)
  end.

Lemma jwt_reads claims seed : wellFormed (JObj claims) ->
  exists jti, jwtClaims (encodeJwt claims seed) = Some (JObj (set_field (js "jti") (JStr jti) claims)).
Proof.
  intros Hc. unfold encodeJwt, jwtClaims. set (jti := computeJti _). set (final := JObj (set_field _ (JStr jti) _)).
  assert (wellFormed final) as Hf by (apply wellFormed_set_field; [apply units_js|apply units_jti|done]).
  assert (Hdot : forall j, wellFormed j -> 46 ∉ base64UrlEncode (JSON_stringify j)).
  { intros j Hj. apply dot_not_base64, bytes_utf8Encode. by apply paired_stringify. }
  rewrite <- app_assoc. cbn [app]. rewrite splitOn_app by (apply Hdot; unfold JWT_HEADER; claims_ok).
  rewrite splitOn_app by (by apply Hdot). rewrite splitOn_none by (apply dot_not_base64, sign_bytes).
  exists jti. rewrite base64Url_roundtrip by (by apply paired_stringify). by apply parse_stringify.
Qed.

Definition input_ok (i : MintUserJwtInput) : Prop :=
  units (mu_userPublicKey i) /\ units (mu_name i) /\ units (mu_audienceAccount i) /\
  Forall units (pub_allow (mu_permissions i)) /\ Forall units (sub_allow (mu_permissions i)).

Lemma userClaims_ok i nowSeconds : input_ok i -> wellFormed (JObj (userClaims i nowSeconds)).
Proof. intros (H1 & H2 & H3 & H4 & H5). unfold userClaims. destruct (mu_expiresAtSeconds i) as [t|]; cbn [app]; claims_ok. Qed.

(** The claims a server reads in a minted user JWT. *)
Lemma user_jwt_reads i nowSeconds : input_ok i -> exists claims, jwtClaims (mintUserJwt i nowSeconds) = Some claims /\
  prop (js "sub") claims = Some (JStr (mu_userPublicKey i)) /\
  propOf "pub" (prop (js "nats") claims) = Some (permissionJson (pub_allow (mu_permissions i))) /\
  propOf "sub" (prop (js "nats") claims) = Some (permissionJson (sub_allow (mu_permissions i))) /\
  prop (js "exp") claims = JNum <$> mu_expiresAtSeconds i.
Proof.
  intros Hi. unfold mintUserJwt.
  destruct (jwt_reads (userClaims i nowSeconds) (mu_accountSeed i)) as [jti ->].
  { by apply userClaims_ok. }
  eexists. split; [reflexivity|]. unfold userClaims. by destruct (mu_expiresAtSeconds i).
Qed.

Definition response_ok (i : MintAuthResponseInput) : Prop :=
  units (mr_userPublicKey i) /\ units (mr_serverId i) /\ (forall t, mr_userJwt i = Some t -> units t) /\ (forall t, mr_error i = Some t -> units t).

(** What a server reads in a response. *)
Lemma response_reads i nowSeconds : response_ok i -> exists claims, jwtClaims (mintAuthResponse i nowSeconds) = Some claims /\
  asString (propOf "jwt" (prop (js "nats") claims)) = match mr_userJwt i with Some [] => None | t => t end /\
  asString (propOf "error" (prop (js "nats") claims)) = match mr_error i with Some [] => None | t => t end.
Proof.
  intros (H1 & H2 & H3 & H4). unfold mintAuthResponse.
  destruct (jwt_reads (responseClaims i nowSeconds) (mr_accountSeed i)) as [jti ->].
  { unfold responseClaims, optionalText. destruct (mr_userJwt i) as [[|c s]|], (mr_error i) as [[|c' s']|]; cbn [app]; claims_ok; first [by apply H3|by apply H4]. }
  eexists. split; [reflexivity|]. unfold responseClaims, optionalText. by destruct (mr_userJwt i) as [[|c s]|], (mr_error i) as [[|c' s']|].
Qed.

Lemma units_bytesToBase64Url bytes : Forall byte bytes -> units (bytesToBase64Url bytes).
Proof.
  intros Hb. pose proof (sextets_range bytes Hb) as Hr. unfold bytesToBase64Url, units. apply Forall_fmap. eapply Forall_impl; [exact Hr|].
  intros n Hn. cbn in *. unfold base64Char. repeat case_match; breflect; lia.
Qed.
Lemma units_encodeJwt claims seed : wellFormed (JObj claims) -> units (encodeJwt claims seed).
Proof.
  intros Hc. unfold encodeJwt. set (final := JObj (set_field (js "jti") (JStr (computeJti _)) _)).
  assert (wellFormed final) as Hf by (apply wellFormed_set_field; [apply units_js|apply units_jti|done]).
  assert (Hu : forall j, wellFormed j -> units (base64UrlEncode (JSON_stringify j))).
  { intros j Hj. apply units_bytesToBase64Url, bytes_utf8Encode. by apply paired_stringify. }
  assert (wellFormed JWT_HEADER) as Hh by (unfold JWT_HEADER; claims_ok).
  unfold units. repeat (apply Forall_app; split); try (by apply Hu).
  - apply Forall_cons. split; [lia|]. by apply Hu.
  - apply Forall_cons. split; [lia|]. apply units_bytesToBase64Url, sign_bytes.
Qed.
(** The user key and server of a decoded request are text. *)
Lemma decoded_units token r : decodeAuthRequest token = Some r -> units (da_userNkey r) /\ units (da_serverId r).
Proof.
  unfold decodeAuthRequest. intros (payload & Hp & Hr)%bind_Some. unfold jwtClaims in Hp. repeat case_match; try discriminate.
  apply parse_wellFormed in Hp; [|apply units_base64UrlDecode].
  assert (Hprop : forall k v, (forall j, v = Some j -> wellFormed j) -> forall j, propOf k v = Some j -> wellFormed j).
  { intros k v Hv j (x & -> & Hx)%bind_Some. eapply wellFormed_prop; [|exact Hx]. by apply Hv. }
  assert (Hnats : forall j, prop (js "nats") payload = Some j -> wellFormed j) by (intros j Hj; by eapply wellFormed_prop).
  assert (Hs : forall v, (forall j, v = Some j -> wellFormed j) -> units (default [] (asString v))).
  { intros [[]|] Hv; cbn; try constructor. by apply (Hv _ eq_refl). }
  injection Hr as <-. cbn [da_userNkey da_serverId]. split.
  - match goal with E : asString _ = Some _ |- _ => pose proof (Hs _ (Hprop "user_nkey"%string _ Hnats)) as Hu; rewrite E in Hu; exact Hu end.
  - apply Hs. do 2 apply Hprop. done.
Qed.
End reads.
End NatsJwt.
