(* ===== verification/EnvironmentCrypto.v ===== *)
(** * Secrets at rest ([packages/db/src/environment-crypto.ts])

    Values of variable sets and credentials of connections are stored as
    [v1:<iv>:<ciphertext and tag>] in base64.  AES-256-GCM is a parameter. *)
From S2P Require Import Prelude Json JsonParse Encoding NatsJwt.
#[local] Open Scope Z_scope.
#[local] Open Scope opengeni_scope.

Module EnvironmentCrypto.
Import NatsJwt.

Definition VERSION_PREFIX : jstr := js "v1".
Definition IV_BYTES : nat := 12.
Definition GCM_TAG_BYTES : nat := 16.
Definition KEY_BYTES : nat := 32.

(** AES-256-GCM: the ciphertext and its tag; what was sealed opens. *)
Class CipherPlatform := {
  aesSeal : list Z -> list Z -> list Z -> list Z * list Z;
  aesOpen : list Z -> list Z -> list Z -> list Z -> option (list Z);
  seal_open key iv plain : aesOpen key iv (aesSeal key iv plain).1 (aesSeal key iv plain).2 = Some plain;
  seal_length key iv plain : length (aesSeal key iv plain).1 = length plain /\ length (aesSeal key iv plain).2 = GCM_TAG_BYTES;
  seal_bytes key iv plain : Forall byte plain -> Forall byte (aesSeal key iv plain).1 /\ Forall byte (aesSeal key iv plain).2
}.

(** [Buffer.toString("base64")], padded. *)
Definition base64StdChar (n : Z) : Z := if n =? 62 then 43 else if n =? 63 then 47 else base64Char n.
Definition padding (bytes : list Z) : jstr := match Nat.modulo (length bytes) 3 with O => [] | 1%nat => [61; 61] | _ => [61] end.
Definition bytesToBase64 (bytes : list Z) : jstr := List.map base64StdChar (toSextets bytes) ++ padding bytes.

Inductive CryptoError := BadKey | UnsupportedFormat | DecryptionFailed.

Section cipher.
Context `{CipherPlatform}.

Definition assertKey (key : list Z) : result CryptoError unit := if (length key =? KEY_BYTES)%nat then Ok tt else Err BadKey.
Definition encryptEnvironmentValue (key iv : list Z) (plaintext : jstr) : result CryptoError jstr :=
  match assertKey key with
  | Err e => Err e
  | Ok _ =>
      let '(ciphertext, tag) := aesSeal key iv (utf8Encode plaintext) in
      Ok (VERSION_PREFIX ++ js ":" ++ bytesToBase64 iv ++ js ":" ++ bytesToBase64 (ciphertext ++ tag))
  end.
Definition decryptEnvironmentValue (key : list Z) (stored : jstr) : result CryptoError jstr :=
  match assertKey key with
  | Err e => Err e
  | Ok _ =>
      match splitOn 58 stored with
      | [version; ivText; payloadText] =>
          if negb (bool_decide (version = VERSION_PREFIX)) then Err UnsupportedFormat
          else
            let iv := bytesOfBase64 ivText in
            let payload := bytesOfBase64 payloadText in
            if negb (length iv =? IV_BYTES)%nat || (length payload <=? GCM_TAG_BYTES)%nat then Err UnsupportedFormat
            else
              let cut := (length payload - GCM_TAG_BYTES)%nat in
              match aesOpen key iv (take cut payload) (drop cut payload) with
              | Some plain => Ok (utf8Decode plain)
              | None => Err DecryptionFailed
              end
      | _ => Err UnsupportedFormat
      end
  end.

(** ** Reading back *)

Lemma value_padding bytes : omap base64Value (padding bytes) = [].
Proof. unfold padding. by destruct (Nat.modulo _ 3) as [|[|]]. Qed.
Lemma stdChar_value n : 0 <= n < 64 -> base64Value (base64StdChar n) = Some n /\ base64StdChar n <> 58.
Proof.
  intros Hn. assert (n ∈ seqZ 0 64) as Hin by (apply elem_of_seqZ; lia). clear Hn. revert n Hin. apply Forall_forall.
  apply (bool_decide_unpack _). vm_compute. done.
Qed.
Lemma base64_std bytes : Forall byte bytes -> bytesOfBase64 (bytesToBase64 bytes) = bytes /\ 58 ∉ bytesToBase64 bytes.
Proof.
  intros Hb. pose proof (sextets_range bytes Hb) as Hs. unfold bytesOfBase64, bytesToBase64. split.
  - rewrite omap_app, value_padding, app_nil_r. rewrite <- (ofSextets_toSextets bytes Hb) at 2. f_equal.
    induction Hs as [|n l Hn _ IH]; cbn; [done|]. by rewrite (proj1 (stdChar_value n Hn)), IH.
  - intros [Hin|Hin]%elem_of_app.
    + apply list_elem_of_In, in_map_iff in Hin as (n & Hn & Hin%list_elem_of_In). rewrite Forall_forall in Hs. by apply (stdChar_value n (Hs _ Hin)).
    + unfold padding in Hin. destruct (Nat.modulo _ 3) as [|[|]]; repeat (apply elem_of_cons in Hin as [?|Hin]; [done|]); by apply not_elem_of_nil in Hin.
Qed.

Lemma utf8Char_nonempty c l : utf8Char c ++ l <> [].
Proof. unfold utf8Char. by repeat destruct (_ <? _). Qed.
Lemma utf8_nonempty s : s <> [] -> utf8Encode s <> [].
Proof.
  destruct s as [|c [|d s]]; [done| |]; intros _; cbn [utf8Encode]; destruct (isHighSurrogate c); try apply utf8Char_nonempty; [done|].
  destruct (isLowSurrogate d); apply utf8Char_nonempty.
Qed.

(** What is stored under a key is read back with it: any text without lone
    surrogates but the empty one, which is stored and cannot be read. *)
Theorem decrypts_what_it_encrypted key iv text : length key = KEY_BYTES -> length iv = IV_BYTES -> Forall byte iv -> paired text ->
  exists stored, encryptEnvironmentValue key iv text = Ok stored /\
    decryptEnvironmentValue key stored = if bool_decide (text = []) then Err UnsupportedFormat else Ok text.
Proof.
  intros Hk Hiv Hb Ht. unfold encryptEnvironmentValue, decryptEnvironmentValue, assertKey. rewrite Hk, Nat.eqb_refl.
  destruct (seal_length key iv (utf8Encode text)) as [L1 L2], (seal_bytes key iv (utf8Encode text) (bytes_utf8Encode _ Ht)) as [B1 B2].
  pose proof (seal_open key iv (utf8Encode text)) as Ho. destruct (aesSeal key iv (utf8Encode text)) as [ciphertext tag]. cbn [fst snd] in *. eexists. split; [done|].
  assert (Forall byte (ciphertext ++ tag)) as Hp by (by apply Forall_app). destruct (base64_std iv Hb) as [E1 N1], (base64_std _ Hp) as [E2 N2].
  change (js ":") with [58]. cbn [app]. rewrite splitOn_app, splitOn_app, splitOn_none by (try done; by apply (bool_decide_unpack _)).
  rewrite bool_decide_eq_true_2 by done. cbn [negb]. rewrite E1, E2, Hiv, Nat.eqb_refl. cbn [negb orb]. rewrite length_app, L1, L2.
  case_bool_decide as Htext; [subst; cbn; done|].
  assert (length (utf8Encode text) <> 0)%nat as Hn by (intros Hz%length_zero_iff_nil; by apply utf8_nonempty in Htext).
  replace (_ <=? _)%nat with false by (symmetry; apply Nat.leb_gt; lia). replace (length (utf8Encode text) + GCM_TAG_BYTES - GCM_TAG_BYTES)%nat with (length ciphertext) by lia.
  rewrite take_app_length, drop_app_length, Ho. by rewrite utf8_roundtrip.
Qed.
End cipher.

(** ** Example: a cipher that hides nothing *)

Program Definition exampleCipher : CipherPlatform := {|
  aesSeal := fun _ _ plain => (plain, repeat 0 GCM_TAG_BYTES);
  aesOpen := fun _ _ ciphertext _ => Some ciphertext
|}.
Next Obligation. by intros. Qed.
Next Obligation. intros. by split. Qed.
Next Obligation. intros key iv plain Hp. split; [done|]. apply (bool_decide_unpack _). vm_compute. exact I. Qed.
#[local] Existing Instance exampleCipher.
Definition exampleKey : list Z := repeat 7 KEY_BYTES.
Definition exampleIv : list Z := repeat 9 IV_BYTES.
Lemma decrypts_what_it_encrypted_witness : exists stored, encryptEnvironmentValue exampleKey exampleIv (js "hunter2") = Ok stored /\
  decryptEnvironmentValue exampleKey stored = Ok (js "hunter2").
Proof.
  apply (decrypts_what_it_encrypted exampleKey exampleIv (js "hunter2")); [reflexivity|reflexivity| |apply paired_js].
  apply (bool_decide_unpack _). vm_compute. exact I.
Defined.
End EnvironmentCrypto.
