(* ===== verification/Sse.v ===== *)
(** * Server-Sent Events wire format

    [Sse.parseSseStream] is the incremental parser of [packages/sdk/src/sse.ts];
    [Sse.formatSse] the printer of [packages/events/src/index.ts].  Text is a
    list of UTF-16 code units; a chunk is what [decoder.decode(value, {stream: true})]
    appends to the parser's buffer. *)
From S2P Require Import Prelude Json.
From Stdlib Require DecimalString.

Abbreviation text := jstr (only parsing).

Module Sse.

(** ** Characters *)

Definition nl : Z := 10.
Definition cr : Z := 13.
Definition colon : Z := 58.
Definition space : Z := 32.

Record SseMessage := { msg_id : option text; msg_event : option text; msg_data : text }.

(** The variables [parseSseStream] closes over. *)
Record Parser := {
  buffer : text;
  id : option text;
  event : option text;
  dataLines : option (list text)
}.
#[export] Instance etaParser : Settable Parser :=
  fun p => Build_Parser (buffer p) (id p) (event p) (dataLines p).

Definition start : Parser := {| buffer := []; id := None; event := None; dataLines := None |}.

(** [lines.join(sep)] *)
Fixpoint join (sep : text) (ls : list text) : text :=
  match ls with
  | [] => []
  | [l] => l
  | l :: ls => l ++ sep ++ join sep ls
  end.

Definition dispatch (p : Parser) : option SseMessage * Parser :=
  let message :=
    match dataLines p with
    | None => None
    | Some ls => Some {| msg_id := id p; msg_event := event p; msg_data := join [nl] ls |}
    end in
  (message, p <| id := None |> <| event := None |> <| dataLines := None |>).

(** [line.indexOf(c)], then the two slices around it. *)
Fixpoint cut (c : Z) (line : text) : option (text * text) :=
  match line with
  | [] => None
  | x :: line => if bool_decide (x = c) then Some ([], line)
                 else match cut c line with
                      | None => None
                      | Some (a, b) => Some (x :: a, b)
                      end
  end.

Definition startsWith (c : Z) (line : text) : bool :=
  match line with [] => false | x :: _ => bool_decide (x = c) end.

Definition handleLine (line : text) (p : Parser) : option SseMessage * Parser :=
  if bool_decide (line = []) then dispatch p
  else if startsWith colon line then (None, p)
  else
    let (field, value) := match cut colon line with
                          | None => (line, [])
                          | Some (a, b) => (a, b)
                          end in
    let value := if startsWith space value then tail value else value in
    (None,
     if bool_decide (field = js "data") then
       p <| dataLines := Some (match dataLines p with None => [] | Some ls => ls end ++ [value]) |>
     else if bool_decide (field = js "event") then p <| event := Some value |>
     else if bool_decide (field = js "id") then p <| id := Some value |>
     else p).

(** [if (line.endsWith("\r")) line = line.slice(0, -1)] *)
Definition strip_cr (line : text) : text :=
  match last line with
  | Some c => if bool_decide (c = cr) then removelast line else line
  | None => line
  end.

Definition opt_list {A} (o : option A) : list A := match o with Some x => [x] | None => [] end.

(** The inner [while (newline !== -1)] loop over the buffered text.  Every pass
    removes a line and its newline from the buffer, so [length buffer] passes
    are enough ([drain_spec] below). *)
Fixpoint drain (fuel : nat) (p : Parser) : list SseMessage * Parser :=
  match fuel with
  | O => ([], p)
  | S fuel =>
      match cut nl (buffer p) with
      | None => ([], p)
      | Some (line, rest) =>
          let (message, p) := handleLine (strip_cr line) (p <| buffer := rest |>) in
          let (ms, p) := drain fuel p in
          (opt_list message ++ ms, p)
      end
  end.

(** One [reader.read()] that returned a chunk. *)
Definition feed (chunk : text) (p : Parser) : list SseMessage * Parser :=
  let p := p <| buffer ::= fun b => b ++ chunk |> in
  drain (length (buffer p)) p.

Fixpoint feed_all (chunks : list text) (p : Parser) : list SseMessage * Parser :=
  match chunks with
  | [] => ([], p)
  | c :: cs => let (ms, p) := feed c p in
               let (ms', p) := feed_all cs p in
               (ms ++ ms', p)
  end.

(** What the generator yields when the reader produces [chunks]; whatever is
    still pending at the end of the stream is discarded. *)
Definition parseSseStream (chunks : list text) : list SseMessage := (feed_all chunks start).1.

(** ** The printer *)

(** [`${n}`] for an integer. *)
Definition showInt (n : Z) : text := js (DecimalString.NilZero.string_of_int (Z.to_int n)).

(** [formatSse] over the three values it interpolates: [event.sequence],
    [event.type] and [JSON.stringify(event)]. *)
Definition formatSse (sequence : Z) (type : text) (stringified : text) : text :=
  join [nl] [js "id: " ++ showInt sequence; js "event: " ++ type; js "data: " ++ stringified; []; []].

(** ** Reference semantics: complete lines, then a fold *)

(** The newline-terminated lines of a text, and the unterminated rest. *)
Fixpoint complete_lines (acc t : text) : list text * text :=
  match t with
  | [] => ([], acc)
  | c :: t => if bool_decide (c = nl) then let (ls, r) := complete_lines [] t in (acc :: ls, r)
              else complete_lines (acc ++ [c]) t
  end.

Fixpoint handle_lines (ls : list text) (p : Parser) : list SseMessage * Parser :=
  match ls with
  | [] => ([], p)
  | l :: ls => let (m, p) := handleLine (strip_cr l) p in
               let (ms, p) := handle_lines ls p in
               (opt_list m ++ ms, p)
  end.

(** The same text parsed line by line, with no chunks and no buffer. *)
Definition parse_reference (t : text) : list SseMessage :=
  (handle_lines (complete_lines [] t).1 start).1.

(** ** Lemmas *)

Lemma handleLine_buffer l p : buffer (handleLine l p).2 = buffer p.
Proof. unfold handleLine, dispatch. repeat break_match; done. Qed.

Lemma handleLine_set_buffer l p b :
  handleLine l (p <| buffer := b |>) = ((handleLine l p).1, (handleLine l p).2 <| buffer := b |>).
Proof. unfold handleLine, dispatch. destruct p; cbn. repeat break_match; done. Qed.

Lemma cut_length c t a b : cut c t = Some (a, b) -> t = a ++ c :: b.
Proof.
  revert a b; induction t as [|x t IH]; intros a b; cbn; [done|].
  case_bool_decide; [naive_solver|]. destruct (cut c t) as [[a' b']|]; [|done].
  intros [= <- <-]. by rewrite (IH a' b').
Qed.

Lemma cut_none_app c t : c ∉ t -> cut c t = None.
Proof.
  induction t as [|x t IH]; [done|]. rewrite not_elem_of_cons. intros [Hx Ht]. cbn.
  rewrite bool_decide_eq_false_2 by done. by rewrite IH.
Qed.

Lemma cut_app c a b : c ∉ a -> cut c (a ++ c :: b) = Some (a, b).
Proof.
  induction a as [|x a IH]; cbn; [by rewrite bool_decide_eq_true_2|].
  rewrite not_elem_of_cons. intros [Hx Ha].
  rewrite bool_decide_eq_false_2 by done. by rewrite IH.
Qed.

Lemma complete_lines_cut acc t :
  nl ∉ acc ->
  complete_lines acc t =
  match cut nl t with
  | None => ([], acc ++ t)
  | Some (l, rest) => ((acc ++ l) :: (complete_lines [] rest).1, (complete_lines [] rest).2)
  end.
Proof.
  revert acc; induction t as [|c t IH]; intros acc Hacc; cbn; [by rewrite app_nil_r|].
  case_bool_decide as E.
  - destruct (complete_lines [] t). by rewrite app_nil_r.
  - rewrite IH by (rewrite elem_of_app, list_elem_of_singleton; intros [?|?]; done).
    destruct (cut nl t) as [[l rest]|]; by rewrite <- (app_assoc acc).
Qed.

Lemma handle_lines_set_buffer ls p b :
  handle_lines ls (p <| buffer := b |>) =
  ((handle_lines ls p).1, (handle_lines ls p).2 <| buffer := b |>).
Proof.
  revert p; induction ls as [|l ls IH]; intros p; [done|]. cbn [handle_lines].
  rewrite handleLine_set_buffer. destruct (handleLine (strip_cr l) p) as [m q].
  cbn [fst snd]. rewrite IH. by destruct (handle_lines ls q).
Qed.

(** [drain] with enough fuel is the line-by-line fold over the buffer. *)
Lemma drain_spec fuel p :
  (length (buffer p) <= fuel)%nat ->
  drain fuel p =
  let (ls, rest) := complete_lines [] (buffer p) in
  let (ms, p') := handle_lines ls p in (ms, p' <| buffer := rest |>).
Proof.
  revert p; induction fuel as [|fuel IH]; intros p Hlen.
  { destruct p as [[|] ? ? ?]; cbn in *; [done|lia]. }
  rewrite complete_lines_cut by apply not_elem_of_nil. cbn [drain].
  destruct (cut nl (buffer p)) as [[l rest]|] eqn:E.
  2: { destruct p; done. }
  cbn [app]. rewrite handleLine_set_buffer. cbn [handle_lines].
  destruct (handleLine (strip_cr l) p) as [m p1] eqn:E1. cbn [fst snd].
  rewrite IH.
  2: { apply cut_length in E. cbn. apply (f_equal length) in E. rewrite length_app in E. cbn in E. lia. }
  change (buffer (p1 <| buffer := rest |>)) with rest.
  destruct (complete_lines [] rest) as [ls r]. cbn [fst snd].
  rewrite handle_lines_set_buffer. by destruct (handle_lines ls p1) as [? []].
Qed.

Lemma feed_spec chunk p :
  feed chunk p =
  let (ls, rest) := complete_lines [] (buffer p ++ chunk) in
  let (ms, p') := handle_lines ls p in (ms, p' <| buffer := rest |>).
Proof.
  unfold feed. rewrite drain_spec by done.
  change (p <| buffer ::= fun b => b ++ chunk |>) with (p <| buffer := buffer p ++ chunk |>).
  change (buffer (p <| buffer := buffer p ++ chunk |>)) with (buffer p ++ chunk).
  destruct (complete_lines [] _) as [ls rest].
  rewrite handle_lines_set_buffer. by destruct (handle_lines ls p).
Qed.

Lemma complete_lines_app acc t1 t2 :
  complete_lines acc (t1 ++ t2) =
  let (l1, r1) := complete_lines acc t1 in
  let (l2, r2) := complete_lines r1 t2 in (l1 ++ l2, r2).
Proof.
  revert acc; induction t1 as [|c t1 IH]; intros acc; cbn; [by destruct (complete_lines acc t2)|].
  case_bool_decide; [|done]. rewrite IH.
  destruct (complete_lines [] t1) as [l1 r1]. by destruct (complete_lines r1 t2).
Qed.

(** The unterminated rest holds no newline, so parsing can restart from it. *)
Lemma complete_lines_rest acc t ls r :
  nl ∉ acc -> complete_lines acc t = (ls, r) -> complete_lines [] r = ([], r).
Proof.
  revert acc ls; induction t as [|c t IH]; intros acc ls Hacc; cbn.
  - intros [= <- <-]. rewrite complete_lines_cut by apply not_elem_of_nil.
    by rewrite cut_none_app.
  - case_bool_decide as E.
    + destruct (complete_lines [] t) as [ls' r'] eqn:E'. intros [= <- <-].
      eapply IH; [|exact E']. apply not_elem_of_nil.
    + apply IH. rewrite elem_of_app, list_elem_of_singleton. naive_solver.
Qed.

Lemma handle_lines_app l1 l2 p :
  handle_lines (l1 ++ l2) p =
  let (m1, p1) := handle_lines l1 p in
  let (m2, p2) := handle_lines l2 p1 in (m1 ++ m2, p2).
Proof.
  revert p; induction l1 as [|l l1 IH]; intros p; cbn [app handle_lines].
  - by destruct (handle_lines l2 p).
  - destruct (handleLine (strip_cr l) p) as [m q]. rewrite IH.
    destruct (handle_lines l1 q) as [m1 p1]. destruct (handle_lines l2 p1). by rewrite app_assoc.
Qed.

Lemma feed_all_spec chunks p r :
  complete_lines [] r = ([], r) -> buffer p = r ->
  (feed_all chunks p).1 = (handle_lines (complete_lines [] (r ++ concat chunks)).1 p).1.
Proof.
  revert p r; induction chunks as [|c cs IH]; intros p r Hr Hp; cbn [feed_all concat].
  - by rewrite app_nil_r, Hr.
  - rewrite feed_spec, Hp. rewrite app_assoc, (complete_lines_app [] (r ++ c)).
    destruct (complete_lines [] (r ++ c)) as [ls rest] eqn:E.
    assert (Hrest := complete_lines_rest _ _ _ _ (not_elem_of_nil nl) E).
    destruct (handle_lines ls p) as [ms p'] eqn:E2.
    specialize (IH (p' <| buffer := rest |>) rest Hrest eq_refl).
    rewrite (complete_lines_app [] rest), Hrest in IH.
    destruct (complete_lines rest (concat cs)) as [ls2 r2]. cbn [fst app] in IH |- *.
    rewrite handle_lines_app, E2. rewrite handle_lines_set_buffer in IH. cbn [fst] in IH.
    destruct (feed_all cs _) as [ms' p'']. cbn [fst] in IH. subst ms'.
    by destruct (handle_lines ls2 p').
Qed.

(** (C26) The incremental parser agrees with the line-by-line reference on the
    concatenated text: where the network cuts the stream into chunks, inside a
    line, a CRLF or a multi-line block, never changes the messages. *)
Theorem parseSseStream_reference chunks :
  parseSseStream chunks = parse_reference (concat chunks).
Proof. unfold parseSseStream. by rewrite (feed_all_spec chunks start []). Qed.

(** ** Printing then parsing *)

(** No line terminator: what [JSON.stringify] guarantees of its output, and
    what an event type has. *)
Definition one_line (t : text) : Prop := nl ∉ t /\ cr ∉ t.
#[export] Instance one_line_dec t : Decision (one_line t).
Proof. unfold one_line. apply _. Defined.

Lemma uint_one_line u : one_line (js (DecimalString.NilEmpty.string_of_uint u)).
Proof.
  unfold one_line. induction u as [|u [IH1 IH2]|u [IH1 IH2]|u [IH1 IH2]|u [IH1 IH2]|u [IH1 IH2]
    |u [IH1 IH2]|u [IH1 IH2]|u [IH1 IH2]|u [IH1 IH2]|u [IH1 IH2]]; cbn;
    [split; apply not_elem_of_nil|..]; split; apply not_elem_of_cons; done.
Qed.

Lemma showInt_one_line n : one_line (showInt n).
Proof.
  unfold showInt. destruct (Z.to_int n) as [u|u]; cbn [DecimalString.NilZero.string_of_int].
  - destruct u; try apply uint_one_line. split; by apply not_elem_of_cons; split; [|apply not_elem_of_nil].
  - destruct u; cbn -[DecimalString.NilEmpty.string_of_uint];
      [split; repeat (apply not_elem_of_cons; split; [done|]); apply not_elem_of_nil|..];
      (split; apply not_elem_of_cons; split; [done|apply uint_one_line| done | apply uint_one_line]).
Qed.

Lemma strip_cr_id t : cr ∉ t -> strip_cr t = t.
Proof.
  intros H. unfold strip_cr. destruct (last t) as [c|] eqn:E; [|done].
  case_bool_decide; [|done]. subst. apply last_Some_elem_of in E. done.
Qed.

Lemma complete_lines_join ls acc :
  Forall (fun l => nl ∉ l) ls -> nl ∉ acc ->
  complete_lines [] (join [nl] (ls ++ [[]]) ++ acc) = (ls, acc).
Proof.
  intros Hls Hacc. induction Hls as [|l ls Hl _ IH]; cbn [app].
  - cbn. rewrite complete_lines_cut by apply not_elem_of_nil. by rewrite cut_none_app.
  - assert (join [nl] (l :: ls ++ [[]]) = l ++ nl :: join [nl] (ls ++ [[]])) as ->.
    { by destruct ls. }
    rewrite <- app_assoc. cbn [app].
    rewrite complete_lines_cut by apply not_elem_of_nil. rewrite cut_app by done.
    by rewrite IH.
Qed.

(** Membership of a character in a line built from constants and variables. *)
Ltac notin :=
  repeat match goal with
  | |- _ ∉ _ ++ _ => apply not_elem_of_app; split
  | |- _ ∉ [] => apply not_elem_of_nil
  end;
  first [done | by (apply (bool_decide_unpack _); vm_compute) | idtac].

Definition event_message (e : Z * text * text) : SseMessage :=
  let '(sequence, type, body) := e in
  {| msg_id := Some (showInt sequence); msg_event := Some type; msg_data := body |}.

Definition format_event (e : Z * text * text) : text :=
  let '(sequence, type, body) := e in formatSse sequence type body.

Lemma handle_field name v p :
  colon ∉ name -> name <> [] -> startsWith colon name = false ->
  handleLine (name ++ colon :: space :: v) p =
  (None,
   if bool_decide (name = js "data") then
     p <| dataLines := Some (match dataLines p with None => [] | Some ls => ls end ++ [v]) |>
   else if bool_decide (name = js "event") then p <| event := Some v |>
   else if bool_decide (name = js "id") then p <| id := Some v |>
   else p).
Proof.
  intros Hc Hne Hs. unfold handleLine.
  rewrite bool_decide_eq_false_2 by (by destruct name).
  assert (startsWith colon (name ++ colon :: space :: v) = false) as -> by (by destruct name).
  rewrite cut_app by done. cbn [startsWith tail]. by rewrite (bool_decide_eq_true_2 (space = space)).
Qed.

(** What a server writes: events, and comments (lines that start with a colon
    and carry nothing, such as the [": connected"] marker). *)
Inductive wire_item :=
| WireEventItem (e : Z * text * text)
| WireComment (comment : text).

Definition item_text (i : wire_item) : text :=
  match i with
  | WireEventItem e => format_event e
  | WireComment comment => join [nl] [colon :: comment; []; []]
  end.

Definition item_one_line (i : wire_item) : Prop :=
  match i with
  | WireEventItem e => one_line e.1.2 /\ one_line e.2
  | WireComment comment => one_line comment
  end.

Definition item_message (i : wire_item) : option SseMessage :=
  match i with WireEventItem e => Some (event_message e) | WireComment _ => None end.

(** One item brings the parser back to its start state, with its message out. *)
Lemma item_lines i :
  item_one_line i ->
  exists ls, complete_lines [] (item_text i) = (ls, []) /\
             handle_lines ls start = (opt_list (item_message i), start).
Proof.
  destruct i as [[[s t] d]|c]; cbn [item_one_line item_text item_message fst snd].
  - intros [[Ht1 Ht2] [Hd1 Hd2]]. destruct (showInt_one_line s) as [Hs1 Hs2].
    exists [js "id: " ++ showInt s; js "event: " ++ t; js "data: " ++ d; []]. split.
    + rewrite <- (complete_lines_join _ []); [by rewrite app_nil_r| |apply not_elem_of_nil].
      repeat (apply Forall_cons_2 || apply Forall_nil_2); notin.
    + cbn [handle_lines]. rewrite !strip_cr_id by notin.
      change (js "id: " ++ showInt s) with (js "id" ++ colon :: space :: showInt s).
      change (js "event: " ++ t) with (js "event" ++ colon :: space :: t).
      change (js "data: " ++ d) with (js "data" ++ colon :: space :: d).
      rewrite (handle_field (js "id")) by notin. cbn [opt_list app].
      rewrite (handle_field (js "event")) by notin. cbn [opt_list app].
      rewrite (handle_field (js "data")) by notin. done.
  - intros [Hc1 Hc2]. exists [colon :: c; []]. split.
    + rewrite <- (complete_lines_join _ []); [by rewrite app_nil_r| |apply not_elem_of_nil].
      repeat (apply Forall_cons_2 || apply Forall_nil_2); notin. by apply not_elem_of_cons.
    + cbn [handle_lines]. rewrite !strip_cr_id by (notin; by apply not_elem_of_cons). done.
Qed.

Lemma parse_items chunks items :
  Forall item_one_line items -> concat chunks = concat (map item_text items) ->
  parseSseStream chunks = omap item_message items.
Proof.
  intros Hi Hc. unfold parseSseStream. rewrite (feed_all_spec chunks start []) by done.
  rewrite Hc. cbn [app]. clear chunks Hc.
  induction Hi as [|i items Hi _ IH]; [done|]. cbn [map concat].
  destruct (item_lines i Hi) as (ls & Hls & Hh). rewrite complete_lines_app, Hls.
  destruct (complete_lines [] (concat (map item_text items))) as [ls2 r2]. cbn [fst] in IH |- *.
  rewrite handle_lines_app, Hh.
  destruct (handle_lines ls2 start) as [ms p]. cbn [fst] in *. subst.
  cbn. by destruct (item_message i).
Qed.

(** (C27) A stream of printed events and comments, cut into chunks anywhere,
    parses back to exactly one message per event, in order, with the event's
    sequence as id, its type as event name and its JSON as data. *)
Theorem format_parse_roundtrip chunks items :
  Forall item_one_line items ->
  concat chunks = concat (map item_text items) ->
  parseSseStream chunks = omap item_message items.
Proof. apply parse_items. Qed.

Lemma format_parse_roundtrip_witness :
  parseSseStream [js "id: 7"; js ("
event: agent.message
data: {}

: con") ; js "nected

"] = [event_message (7, js "agent.message", js "{}")].
Proof.
  apply (format_parse_roundtrip _ [WireEventItem (7, js "agent.message", js "{}"); WireComment (js " connected")]).
  - repeat constructor; by apply (bool_decide_unpack _); vm_compute.
  - by vm_compute.
Defined.
End Sse.
