(* ===== verification/PayloadSanitizer.v ===== *)
(** * Event payload sanitizer ([packages/db/src/event-payload-sanitizer.ts])

    Every payload goes through [sanitizeEventPayload] before it is inserted into
    [session_events]: strings lose NUL and unpaired surrogates (which jsonb
    cannot store), values under credential-like keys are replaced by a marker,
    and MCP server lists keep only the names of their headers. *)
From S2P Require Import Prelude Json.

Module PayloadSanitizer.

Definition REPLACEMENT : Z := 65533.
Definition REDACTED : json := JStr (js "[redacted]").
Definition SENSITIVE_FIELD_NAMES : list jstr :=
  List.map js ["authorization"; "headers"; "accesstoken"; "refreshtoken"; "idtoken"; "token"; "apikey";
    "secret"; "clientsecret"; "credential"; "credentialencrypted"; "encryptedpkceverifier";
    "codeverifier"]%string.

Definition isHigh (code : Z) : bool := (55296 <=? code) && (code <=? 56319).
Definition isLow (code : Z) : bool := (56320 <=? code) && (code <=? 57343).

(** The scan of the fast path. *)
Definition needsWork (value : jstr) : bool :=
  existsb (fun code => (code =? 0) || ((55296 <=? code) && (code <=? 57343))) value.

(** The rebuilding loop; the [next] unit is 0 past the end of the string. *)
Fixpoint rebuild (value : jstr) : jstr :=
  match value with
  | [] => []
  | code :: value =>
      if code =? 0 then rebuild value
      else if isHigh code then
        match value with
        | next :: value' => if isLow next then code :: next :: rebuild value'
                            else REPLACEMENT :: rebuild value
        | [] => [REPLACEMENT]
        end
      else if isLow code then REPLACEMENT :: rebuild value
      else code :: rebuild value
  end.

Definition sanitizeEventString (value : jstr) : jstr :=
  if needsWork value then rebuild value else value.

(** [key.toLowerCase()].  Besides the ASCII capitals, U+212A (Kelvin sign) is the
    only unit whose lower case is a single ASCII letter, so this agrees with
    the full Unicode mapping on whether the result is a name of the ASCII set
    above. *)
Definition toLowerCase (key : jstr) : jstr :=
  List.map (fun c => if (65 <=? c) && (c <=? 90) then c + 32 else if c =? 8490 then 107 else c) key.

(** [.replace(/[-_]/g, "")] after lowering. *)
Definition normalizeFieldName (key : jstr) : jstr :=
  List.filter (fun c => negb ((c =? 45) || (c =? 95))) (toLowerCase key).

Definition sensitiveField (key : jstr) : bool :=
  bool_decide (normalizeFieldName key ∈ SENSITIVE_FIELD_NAMES).

Definition isPlainObject (value : option json) : bool :=
  match value with Some (JObj _) => true | _ => false end.

(** The default [Array.prototype.sort]: by UTF-16 code units. *)
Fixpoint jstr_leb (a b : jstr) : bool :=
  match a, b with
  | [], _ => true
  | _ :: _, [] => false
  | x :: a, y :: b => (x <? y) || ((x =? y) && jstr_leb a b)
  end.
Fixpoint insert_jstr (x : jstr) (l : list jstr) : list jstr :=
  match l with
  | [] => [x]
  | y :: l' => if jstr_leb x y then x :: l else y :: insert_jstr x l'
  end.
Definition sort_jstr (l : list jstr) : list jstr := foldr insert_jstr [] l.

Definition safeHeaderNames (value : option json) : option (list json) :=
  match value with
  | Some (JObj fs) => Some (List.map JStr (sort_jstr (List.map sanitizeEventString (List.map fst fs))))
  | _ => None
  end.

(** [Object.fromEntries]: a later entry overwrites an earlier one. *)
Definition fromEntries (entries : list (jstr * json)) : list (jstr * json) :=
  fold_left (fun fs kv => set_field kv.1 kv.2 fs) entries [].

Definition isHeaderKey (k : jstr) : bool :=
  bool_decide (k = js "headers") || bool_decide (k = js "headersEncrypted").

Definition isMcpListKey (k : jstr) : bool :=
  bool_decide (k = js "mcpServers") || bool_decide (k = js "mcpCredentialUpdates").

(** [cleaned], then [headerNames] when either header object is present. *)
Definition with_header_names (fs cleaned : list (jstr * json)) : json :=
  let headerNames :=
    match safeHeaderNames (assoc (js "headers") fs) with
    | Some names => Some names
    | None => safeHeaderNames (assoc (js "headersEncrypted") fs)
    end in
  JObj (match headerNames with
        | Some names => set_field (js "headerNames") (JArr names) cleaned
        | None => cleaned
        end).

(** The mutually recursive walk: [sanitize None] is [sanitizeEventPayload],
    [sanitize (Some key)] is [sanitizeSensitiveEventField key].  The item
    handler of the two MCP lists drops the header fields before it sanitizes
    the rest; here the fields are sanitized and then dropped by their raw key,
    which gives the same object ([sanitizeMcpServerItem_eq]). *)
Fixpoint sanitize (field : option jstr) (payload : json) {struct payload} : json :=
  let walked :=
    match payload with
    | JStr s => JStr (sanitizeEventString s)
    | JArr l => JArr (List.map (sanitize None) l)
    | JObj fs => JObj (fromEntries (List.map (fun kv => (sanitizeEventString kv.1, sanitize (Some kv.1) kv.2)) fs))
    | _ => payload
    end in
  match field with
  | None => walked
  | Some key =>
      if isMcpListKey key then
        match payload with
        | JArr l =>
            JArr (List.map (fun item =>
              match item with
              | JObj fs =>
                  with_header_names fs
                    (fromEntries (List.map (fun e => e.2) (List.filter (fun e => negb (isHeaderKey e.1))
                      (List.map (fun kv => (kv.1, (sanitizeEventString kv.1, sanitize (Some kv.1) kv.2))) fs))))
              | _ => sanitize None item
              end) l)
        | _ => walked
        end
      else if sensitiveField key then REDACTED
      else walked
  end.

Definition sanitizeEventPayload (payload : json) : json := sanitize None payload.
Definition sanitizeSensitiveEventField (key : jstr) (value : json) : json := sanitize (Some key) value.

(** The item callback shared by [sanitizeSessionMcpServerList] and
    [sanitizeMcpCredentialUpdateList], as the source writes it. *)
Definition sanitizeMcpServerItem (item : json) : json :=
  match item with
  | JObj fs =>
      let rest := List.filter (fun kv => negb (isHeaderKey kv.1)) fs in
      match sanitizeEventPayload (JObj rest) with
      | JObj cleaned => with_header_names fs cleaned
      | other => other
      end
  | _ => sanitizeEventPayload item
  end.

Definition sanitizeSessionMcpServerList (value : json) : json :=
  match value with
  | JArr l => JArr (List.map sanitizeMcpServerItem l)
  | _ => sanitizeEventPayload value
  end.

(** ** The walk satisfies the source's equations *)

Lemma sanitizeEventPayload_obj fs :
  sanitizeEventPayload (JObj fs) =
  JObj (fromEntries (List.map (fun kv => (sanitizeEventString kv.1, sanitizeSensitiveEventField kv.1 kv.2)) fs)).
Proof. done. Qed.

Lemma sanitizeMcpServerItem_eq fs :
  sanitizeMcpServerItem (JObj fs) =
  with_header_names fs
    (fromEntries (List.map (fun e => e.2) (List.filter (fun e => negb (isHeaderKey e.1))
      (List.map (fun kv => (kv.1, (sanitizeEventString kv.1, sanitize (Some kv.1) kv.2))) fs)))).
Proof.
  unfold sanitizeMcpServerItem. rewrite sanitizeEventPayload_obj. do 2 f_equal.
  induction fs as [|[k v] fs IH]; cbn; [done|].
  destruct (negb (isHeaderKey k)); cbn; by rewrite IH.
Qed.

(** [sanitizeSensitiveEventField] branches exactly as the source. *)
Lemma sanitizeSensitiveEventField_eq key value :
  sanitizeSensitiveEventField key value =
  if isMcpListKey key then sanitizeSessionMcpServerList value
  else if sensitiveField key then REDACTED
  else sanitizeEventPayload value.
Proof.
  unfold sanitizeSensitiveEventField, sanitizeEventPayload.
  destruct value as [| | | |l|]; cbn [sanitize sanitizeSessionMcpServerList]; try done.
  destruct (isMcpListKey key); [|done]. f_equal.
  apply map_ext. intros []; try done. by rewrite sanitizeMcpServerItem_eq.
Qed.

(** ** What jsonb can store *)

(** No NUL, every high surrogate followed by a low one, no other low one. *)
Fixpoint storable (value : jstr) : bool :=
  match value with
  | [] => true
  | code :: value =>
      negb (code =? 0) &&
      (if isHigh code then match value with next :: value' => isLow next && storable value' | [] => false end
       else negb (isLow code) && storable value)
  end.

Lemma isLow_not c : isLow c = true -> isHigh c = false /\ (c =? 0) = false.
Proof. unfold isLow, isHigh. intros. breflect. split; [apply andb_false_iff|]; rewrite ?Z.leb_gt, ?Z.eqb_neq; lia. Qed.

Lemma rebuild_storable_len n value : (length value <= n)%nat -> storable (rebuild value) = true.
Proof.
  revert value; induction n as [|n IH]; intros [|c v] Hn; cbn in *; try done; try lia.
  destruct (c =? 0) eqn:E0; [apply IH; lia|].
  destruct (isHigh c) eqn:Eh.
  - destruct v as [|d v]; [done|]. cbn in Hn.
    destruct (isLow d) eqn:El; cbn -[rebuild]; rewrite ?E0, ?Eh, ?El; cbn -[rebuild]; apply IH; cbn; lia.
  - destruct (isLow c) eqn:El; cbn; rewrite ?E0, ?Eh, ?El; cbn; apply IH; lia.
Qed.

Lemma rebuild_id_len n value : (length value <= n)%nat -> storable value = true -> rebuild value = value.
Proof.
  revert value; induction n as [|n IH]; intros [|c v] Hn; cbn in *; try done; try lia.
  intros H. apply andb_true_iff in H as [E0 H]. apply negb_true_iff in E0. rewrite E0.
  destruct (isHigh c) eqn:Eh.
  - destruct v as [|d v]; [done|]. apply andb_true_iff in H as [El H]. rewrite El. cbn in Hn.
    do 2 f_equal. apply IH; [lia|done].
  - apply andb_true_iff in H as [El H]. apply negb_true_iff in El. rewrite El.
    f_equal. apply IH; [lia|done].
Qed.

Lemma needsWork_false value : needsWork value = false -> storable value = true.
Proof.
  unfold needsWork. induction value as [|c v IH]; cbn; [done|]. intros H.
  apply orb_false_iff in H as [Hc Hv]. apply orb_false_iff in Hc as [E0 Hc]. rewrite E0.
  assert (isHigh c = false /\ isLow c = false) as [-> ->]; [|by apply IH].
  unfold isHigh, isLow. split; apply andb_false_iff in Hc; apply andb_false_iff;
    rewrite !Z.leb_gt in *; lia.
Qed.

Lemma sanitizeEventString_storable value : storable (sanitizeEventString value) = true.
Proof.
  unfold sanitizeEventString. destruct (needsWork value) eqn:E.
  - by eapply rebuild_storable_len.
  - by apply needsWork_false.
Qed.

(** Text that jsonb accepts is kept as it is. *)
Lemma sanitizeEventString_id value : storable value = true -> sanitizeEventString value = value.
Proof. unfold sanitizeEventString. intros H. destruct (needsWork value); [by eapply rebuild_id_len|done]. Qed.

(** Every string of a value, keys included. *)
Fixpoint all_strings (P : jstr -> bool) (j : json) : bool :=
  match j with
  | JStr s => P s
  | JArr l => forallb (all_strings P) l
  | JObj fs => forallb (fun kv => P kv.1 && all_strings P kv.2) fs
  | _ => true
  end.

Definition field_ok (P : jstr -> bool) (kv : jstr * json) : bool := P kv.1 && all_strings P kv.2.

Lemma set_field_ok P k v fs :
  field_ok P (k, v) = true -> forallb (field_ok P) fs = true -> forallb (field_ok P) (set_field k v fs) = true.
Proof.
  intros Hkv. induction fs as [|[k' v'] fs IH]; cbn in *; [by rewrite Hkv|].
  intros H. apply andb_true_iff in H as [H1 H2].
  case_bool_decide; cbn; apply andb_true_iff; auto.
Qed.

Lemma fromEntries_ok P es : forallb (field_ok P) es = true -> forallb (field_ok P) (fromEntries es) = true.
Proof.
  unfold fromEntries. assert (forallb (field_ok P) [] = true) as Hnil by done. revert Hnil.
  generalize (@nil (jstr * json)). induction es as [|[k v] es IH]; intros acc Hacc; cbn; [done|].
  intros H. apply andb_true_iff in H as [H1 H2]. apply IH; [|done]. by apply set_field_ok.
Qed.

Lemma safeHeaderNames_ok P v names :
  (forall s, P (sanitizeEventString s) = true) ->
  safeHeaderNames v = Some names -> all_strings P (JArr names) = true.
Proof.
  intros HP. destruct v as [[| | | | |fs]|]; cbn; try done. intros [= <-].
  apply forallb_forall. intros j. rewrite in_map_iff. intros (s & <- & Hs). cbn.
  assert (Hperm : forall l, In s (sort_jstr l) -> In s l).
  { clear. assert (forall x l, In s (insert_jstr x l) -> s = x \/ In s l) as Hi.
    { intros x l. induction l as [|y l IH]; cbn; [naive_solver|]. destruct (jstr_leb x y); cbn; naive_solver. }
    induction l as [|x l IH]; cbn; [done|]. intros H%Hi. naive_solver. }
  apply Hperm, in_map_iff in Hs as (k & <- & _). apply HP.
Qed.

Lemma with_header_names_ok P fs cleaned :
  (forall s, P (sanitizeEventString s) = true) -> P (js "headerNames") = true ->
  forallb (field_ok P) cleaned = true -> all_strings P (with_header_names fs cleaned) = true.
Proof.
  intros HP Hh Hc. unfold with_header_names.
  destruct (safeHeaderNames (assoc (js "headers") fs)) as [names|] eqn:E1;
    [|destruct (safeHeaderNames (assoc (js "headersEncrypted") fs)) as [names|] eqn:E2; [|done]];
    apply set_field_ok; try done; unfold field_ok; cbn [fst snd]; rewrite Hh; by eapply safeHeaderNames_ok.
Qed.

Lemma sanitized_entries_ok P fs :
  (forall s, P (sanitizeEventString s) = true) ->
  Forall (fun kv => forall field, all_strings P (sanitize field kv.2) = true) fs ->
  forallb (field_ok P)
    (fromEntries (List.map (fun e => e.2) (List.filter (fun e => negb (isHeaderKey e.1))
      (List.map (fun kv => (kv.1, (sanitizeEventString kv.1, sanitize (Some kv.1) kv.2))) fs)))) = true.
Proof.
  intros HP IH. rewrite Forall_forall in IH. apply fromEntries_ok, forallb_forall. intros e. rewrite in_map_iff.
  intros ([k e'] & <- & He). apply filter_In in He as [He _].
  apply in_map_iff in He as ([k' v'] & [= <- <-] & Hin%list_elem_of_In).
  unfold field_ok. cbn. rewrite HP. by apply (IH (k', v')).
Qed.

Lemma sanitize_strings P field j :
  (forall s, P (sanitizeEventString s) = true) -> P (js "headerNames") = true ->
  all_strings P REDACTED = true -> all_strings P (sanitize field j) = true.
Proof.
  intros HP Hh HR. revert field. induction j as [| | | |l IH|fs IH] using json_ind_items; intros field.
  1-4: destruct field as [key|]; cbn; try destruct (isMcpListKey key); try destruct (sensitiveField key); cbn; auto.
  - rewrite Forall_forall in IH.
    assert (Hw : all_strings P (JArr (List.map (sanitize None) l)) = true).
    { apply forallb_forall. intros x. rewrite in_map_iff. intros (y & <- & Hy).
      by apply IH, list_elem_of_In. }
    destruct field as [key|]; [|done]. cbn [sanitize].
    destruct (isMcpListKey key); [|by destruct (sensitiveField key)].
    apply forallb_forall. intros x. rewrite in_map_iff. intros (y & <- & Hy).
    destruct (IH y (proj2 (list_elem_of_In _ _) Hy)) as [IHy IHfs].
    destruct y as [| | | | |fs]; try apply (IHy None).
    apply with_header_names_ok; [done..|]. apply sanitized_entries_ok; [done|].
    by apply IHfs.
  - assert (Hw : all_strings P (sanitizeEventPayload (JObj fs)) = true).
    { rewrite sanitizeEventPayload_obj. apply fromEntries_ok, forallb_forall. intros e.
      rewrite in_map_iff. intros ([k v] & <- & Hin%list_elem_of_In). unfold field_ok; cbn.
      rewrite HP. rewrite Forall_forall in IH. by apply (IH (k, v)). }
    destruct field as [key|]; [|done]. cbn [sanitize].
    by destruct (isMcpListKey key), (sensitiveField key).
Qed.

(** (C28) Whatever the payload holds, raw command output included, every string
    that reaches the insert, at any depth, keys included, is one jsonb can
    store. *)
Theorem sanitizeEventPayload_storable payload :
  all_strings storable (sanitizeEventPayload payload) = true.
Proof. apply sanitize_strings; [apply sanitizeEventString_storable|done..]. Qed.

(** ** Redaction as non-interference

    [low_equal a b]: the two payloads differ only in what redaction hides: the
    values under sensitive field names, and the header values (not the header
    names) of the items of an MCP server list. *)
Definition header_keys (v : json) : option (list jstr) :=
  match v with JObj fs => Some (List.map fst fs) | _ => None end.

Inductive low_equal : json -> json -> Prop :=
| low_leaf j : (forall l, j <> JArr l) -> (forall fs, j <> JObj fs) -> low_equal j j
| low_arr l1 l2 : Forall2 low_equal l1 l2 -> low_equal (JArr l1) (JArr l2)
| low_obj fs1 fs2 : Forall2 low_field fs1 fs2 -> low_equal (JObj fs1) (JObj fs2)
with low_field : jstr * json -> jstr * json -> Prop :=
| low_public k v1 v2 : isMcpListKey k = false -> low_equal v1 v2 -> low_field (k, v1) (k, v2)
| low_sensitive k v1 v2 :
    isMcpListKey k = false -> sensitiveField k = true -> low_field (k, v1) (k, v2)
| low_mcp k l1 l2 :
    isMcpListKey k = true -> Forall2 low_item l1 l2 -> low_field (k, JArr l1) (k, JArr l2)
| low_mcp_other k v1 v2 :
    isMcpListKey k = true -> (forall l, v1 <> JArr l) -> low_equal v1 v2 -> low_field (k, v1) (k, v2)
with low_item : json -> json -> Prop :=
| low_item_value j1 j2 : (forall fs, j1 <> JObj fs) -> low_equal j1 j2 -> low_item j1 j2
| low_item_server fs1 fs2 : Forall2 low_server_field fs1 fs2 -> low_item (JObj fs1) (JObj fs2)
with low_server_field : jstr * json -> jstr * json -> Prop :=
| low_server_header k v1 v2 :
    isHeaderKey k = true -> header_keys v1 = header_keys v2 -> low_server_field (k, v1) (k, v2)
| low_server_other kv1 kv2 :
    isHeaderKey kv1.1 = false -> low_field kv1 kv2 -> low_server_field kv1 kv2.

Lemma map_Forall2 {A B} (R : A -> A -> Prop) (f : A -> B) l1 l2 :
  Forall2 R l1 l2 -> Forall (fun x => forall y, R x y -> f x = f y) l1 -> List.map f l1 = List.map f l2.
Proof. induction 1; inversion 1; cbn; f_equal; auto. Qed.

(** Sanitized values of low-equal fields, as an induction hypothesis. *)
Definition agrees (j : json) : Prop :=
  (forall b, low_equal j b -> sanitize None j = sanitize None b) /\
  (forall k b, low_field (k, j) (k, b) -> sanitize (Some k) j = sanitize (Some k) b).

Lemma low_field_key kv1 kv2 : low_field kv1 kv2 -> kv1.1 = kv2.1.
Proof. by destruct 1. Qed.

Lemma agrees_entry kv kv' :
  agrees kv.2 -> low_field kv kv' ->
  (sanitizeEventString kv.1, sanitize (Some kv.1) kv.2) =
  (sanitizeEventString kv'.1, sanitize (Some kv'.1) kv'.2).
Proof.
  intros [_ H] Hf. pose proof (low_field_key _ _ Hf). destruct kv as [k v], kv' as [k' v']; cbn in *.
  subst. f_equal. by apply H.
Qed.

Lemma low_server_header_names k fs1 fs2 :
  isHeaderKey k = true -> Forall2 low_server_field fs1 fs2 ->
  safeHeaderNames (assoc k fs1) = safeHeaderNames (assoc k fs2).
Proof.
  intros Hk. induction 1 as [|[k1 v1] [k2 v2] fs1 fs2 H _ IH]; cbn; [done|].
  inversion H as [? ? ? Hh Hkeys|? ? Hh Hf]; simplify_eq/=.
  - case_bool_decide; [|done]. by destruct v1, v2; cbn in *; try done; injection Hkeys as ->.
  - pose proof (low_field_key _ _ Hf) as Heq; cbn in Heq; subst. case_bool_decide; [|done].
    subst. congruence.
Qed.

Lemma low_server_entries fs1 fs2 :
  Forall2 low_server_field fs1 fs2 -> Forall (fun kv => agrees kv.2) fs1 ->
  let entries fs := List.map (fun e => e.2) (List.filter (fun e => negb (isHeaderKey e.1))
      (List.map (fun kv => (kv.1, (sanitizeEventString kv.1, sanitize (Some kv.1) kv.2))) fs)) in
  entries fs1 = entries fs2.
Proof.
  intros HF; induction HF as [|[k1 v1] [k2 v2] fs1 fs2 H _ IH]; intros Ha; [done|].
  inversion Ha as [|? ? Hv Hfs]; subst. specialize (IH Hfs). cbn in *.
  inversion H as [? ? ? Hh Hkeys|? ? Hh Hf]; simplify_eq/=.
  - rewrite Hh. cbn. done.
  - pose proof (low_field_key _ _ Hf) as Heq; cbn in Heq; subst.
    rewrite Hh. cbn. rewrite IH. f_equal. by apply (agrees_entry (k2, v1) (k2, v2)).
Qed.

Lemma agrees_intro j :
  (forall b, low_equal j b -> sanitize None j = sanitize None b) ->
  (forall l1 l2, j = JArr l1 -> Forall2 low_item l1 l2 ->
     List.map sanitizeMcpServerItem l1 = List.map sanitizeMcpServerItem l2) ->
  agrees j.
Proof.
  intros Hw Hm. split; [done|]. intros k b Hf.
  change (sanitizeSensitiveEventField k j = sanitizeSensitiveEventField k b).
  rewrite !sanitizeSensitiveEventField_eq.
  inversion Hf as [? ? ? Hk He|? ? ? Hk Hs|? ? ? Hk Hi|? ? ? Hk Hna He]; subst; rewrite Hk.
  - destruct (sensitiveField k); [done|]. by apply Hw.
  - by rewrite Hs.
  - cbn. f_equal. by apply (Hm l1).
  - assert (forall l, b <> JArr l) by (inversion He; naive_solver).
    destruct j; try (by destruct (Hna _ eq_refl)); destruct b; naive_solver.
Qed.

Lemma low_equal_leaf j b :
  (forall l, j <> JArr l) -> (forall fs, j <> JObj fs) -> low_equal j b -> j = b.
Proof. inversion 3; naive_solver. Qed.

Lemma agrees_all j : agrees j.
Proof.
  induction j as [| | | |l IH|fs IH] using json_ind_items; apply agrees_intro; try done.
  1-4: by intros ? <-%low_equal_leaf.
  - intros b Hb. inversion Hb as [? Hna| ? l2 H2|]; subst; [by destruct (Hna l)|]. cbn. f_equal.
    apply (map_Forall2 _ _ _ _ H2). eapply Forall_impl; [exact IH|]. intros x [[Hx _] _]. exact Hx.
  - intros ? l2 [= <-] H2. apply (map_Forall2 _ _ _ _ H2). eapply Forall_impl; [exact IH|].
    intros x [[Hx _] Hfs] y Hxy. inversion Hxy as [? ? Hno He|fs1 fs2 Hsf]; subst.
    + assert (forall fs, y <> JObj fs) by (inversion He; naive_solver).
      transitivity (sanitizeEventPayload x); [by destruct x; try destruct (Hno _ eq_refl)|].
      transitivity (sanitizeEventPayload y); [by apply Hx|]. destruct y; naive_solver.
    + rewrite !sanitizeMcpServerItem_eq. unfold with_header_names.
      rewrite (low_server_header_names (js "headers") _ _ eq_refl Hsf).
      rewrite (low_server_header_names (js "headersEncrypted") _ _ eq_refl Hsf).
      pose proof (low_server_entries _ _ Hsf (Hfs _ eq_refl)) as ->. done.
  - intros b Hb. inversion Hb as [? ? Hno| |? fs2 H2]; subst; [by destruct (Hno fs)|].
    change (sanitizeEventPayload (JObj fs) = sanitizeEventPayload (JObj fs2)).
    rewrite !sanitizeEventPayload_obj. do 2 f_equal. apply (map_Forall2 _ _ _ _ H2).
    eapply Forall_impl; [exact IH|]. intros kv Ha kv' Hf. by apply agrees_entry.
Qed.

(** Redaction: payloads that differ only in credential values (under a
    sensitive field name at any depth, or inside the headers of an MCP server
    entry) are stored as the same row, so nothing about those values reaches
    the event log. *)
Theorem sanitizeEventPayload_noninterference a b :
  low_equal a b -> sanitizeEventPayload a = sanitizeEventPayload b.
Proof. apply agrees_all. Qed.

Lemma sanitizeEventPayload_noninterference_witness :
  let p secret := JObj [(js "mcpServers", JArr [JObj [(js "id", JStr (js "gh"));
                          (js "headers", JObj [(js "Authorization", JStr (js secret))])]]);
                        (js "Api-Key", JStr (js secret)); (js "text", JStr (js "hi"))] in
  sanitizeEventPayload (p "hunter2"%string) = sanitizeEventPayload (p "s3cret"%string).
Proof.
  intros p. apply sanitizeEventPayload_noninterference. unfold p.
  apply low_obj. repeat (apply Forall2_cons; split); try apply Forall2_nil; try done.
  - apply low_mcp; [reflexivity|]. repeat (apply Forall2_cons; split); [|done].
    apply low_item_server. repeat (apply Forall2_cons; split); try done.
    + apply low_server_other; [reflexivity|]. apply low_public; [reflexivity|].
      by apply low_leaf.
    + by apply low_server_header.
  - by apply low_sensitive.
  - apply low_public; [reflexivity|]. by apply low_leaf.
Defined.

(** The name test runs on the raw key while the stored key is the repaired one:
    a NUL inside the name hides it from the test, and the repair then stores
    the value under the credential's name. *)
Definition hidden_name : jstr := js "to" ++ 0 :: js "ken".

(** The redaction can be bypassed: there is a payload whose stored form has
    a field named [token] with its value in the clear. *)
Theorem redaction_bypassed_by_nul :
  exists payload secret, secret <> REDACTED /\
    sanitizeEventPayload payload = JObj [(js "token", secret)] /\
    sensitiveField (js "token") = true.
Proof. exists (JObj [(hidden_name, JStr (js "s3cret"))]), (JStr (js "s3cret")). by vm_compute. Qed.
End PayloadSanitizer.
