(* ===== verification/Sql.v ===== *)
(** * Tables and the SQL the repository layer runs on them

    A table is the list of its rows in insertion order.  The statements of
    [packages/db/src/index.ts] are read as list operations: [where] filters,
    [update ... set ... where] maps, [delete] filters out, [order by ... limit]
    sorts and truncates.  A transaction is a function from the database to a
    result and the next database; when it throws, the next database is the one
    it started from. *)
From S2P Require Import Prelude.

Section sql.
Context {R : Type}.
Implicit Types (p : R -> bool) (t : list R).

Definition select_where p t : list R := List.filter p t.
Definition update_where p (f : R -> R) t : list R := List.map (fun r => if p r then f r else r) t.
(** The rows [update ... returning] yields. *)
Definition updated_rows p (f : R -> R) t : list R := List.map f (List.filter p t).
Definition delete_where p t : list R := List.filter (fun r => negb (p r)) t.
Definition count_where p t : Z := Z.of_nat (length (List.filter p t)).
(** [insert ... on conflict (...) do nothing]: [p] holds of the rows with the key. *)
Definition insert_nothing p (row : R) t : list R := if existsb p t then t else t ++ [row].
Definition sum_where p (f : R -> Z) t : Z := fold_right (fun r s => f r + s) 0 (List.filter p t).
Definition limit (n : Z) t : list R := take (Z.to_nat n) t.

Lemma length_update_where p f t : length (update_where p f t) = length t.
Proof. apply length_map. Qed.

Lemma elem_of_select_where p t r : r ∈ select_where p t <-> p r = true /\ r ∈ t.
Proof. unfold select_where. rewrite !list_elem_of_In, filter_In. tauto. Qed.

Lemma select_map p f t : select_where p (List.map f t) = List.map f (select_where (fun r => p (f r)) t).
Proof. unfold select_where. induction t as [|r t IH]; cbn; [done|]. destruct (p (f r)); cbn; by rewrite IH. Qed.

Lemma elem_of_update_where p f t r :
  r ∈ update_where p f t <-> exists r0, r0 ∈ t /\ r = if p r0 then f r0 else r0.
Proof. unfold update_where. rewrite list_elem_of_In, in_map_iff. setoid_rewrite list_elem_of_In. naive_solver. Qed.

Lemma select_update_in p f q t :
  (forall r, r ∈ t -> q (if p r then f r else r) = q r) ->
  select_where q (update_where p f t) = update_where p f (select_where q t).
Proof.
  unfold select_where, update_where. induction t as [|r t IH]; intros H; cbn; [done|].
  rewrite H by left. rewrite IH by (intros; apply H; by right). by destruct (q r).
Qed.

Lemma select_update_other p f q t :
  (forall r, q (if p r then f r else r) = q r) ->
  select_where q (update_where p f t) = update_where p f (select_where q t).
Proof. intros H. by apply select_update_in. Qed.

(** An update that no row of a selection matches leaves the selection alone. *)
Lemma select_update_disjoint p f q t :
  (forall r, p r = true -> q r = false /\ q (f r) = false) ->
  select_where q (update_where p f t) = select_where q t.
Proof.
  intros H. unfold select_where, update_where. induction t as [|r t IH]; cbn; [done|].
  destruct (p r) eqn:E; cbn; [destruct (H r E) as [-> ->]; done|]. by rewrite IH.
Qed.

Lemma update_where_none p f t : (forall r, r ∈ t -> p r = false) -> update_where p f t = t.
Proof.
  unfold update_where. intros H. rewrite <- (List.map_id t) at 2. apply map_ext_in.
  intros r Hr%list_elem_of_In. by rewrite H.
Qed.

Lemma map_update_where {B} (g : R -> B) p f t :
  (forall r, p r = true -> g (f r) = g r) -> List.map g (update_where p f t) = List.map g t.
Proof.
  intros H. unfold update_where. rewrite List.map_map. apply map_ext.
  intros r. destruct (p r) eqn:E; auto.
Qed.

(** A row a lookup finds, after an update that does not change what it looks for. *)
Lemma find_update_where p q f t :
  (forall r, q r = true -> p (f r) = p r) ->
  List.find p (update_where q f t) = (fun r => if q r then f r else r) <$> List.find p t.
Proof.
  intros H. unfold update_where. induction t as [|r t IH]; [done|]. cbn.
  assert (p (if q r then f r else r) = p r) as -> by (destruct (q r) eqn:E; auto).
  by destruct (p r).
Qed.

(** A filter on a unique key selects at most one row. *)
Lemma select_unique {K} (key : R -> K) `{EqDecision K} (k : K) t r1 r2 :
  NoDup (List.map key t) -> r1 ∈ t -> r2 ∈ t -> key r1 = k -> key r2 = k -> r1 = r2.
Proof.
  intros Hnd H1 H2 <- Hk. apply list_elem_of_lookup in H1 as [i Hi], H2 as [j Hj].
  assert (i = j) as ->; [|congruence].
  eapply NoDup_lookup; [exact Hnd|..]; rewrite list_lookup_fmap.
  - by rewrite Hi.
  - rewrite Hj. cbn. by rewrite Hk.
Qed.

Lemma select_key_one {K} (key : R -> K) `{EqDecision K} (k : K) t r p : NoDup (List.map key t) -> r ∈ t -> p r = true ->
  (forall r', r' ∈ t -> p r' = true -> key r' = k) -> length (List.filter p t) = 1%nat.
Proof.
  induction t as [|x t IH]; [intros _ H; by apply elem_of_nil in H|]. cbn. intros [Hx Hnd]%NoDup_cons Hr Hp Hk.
  assert (Hone : forall y, y ∈ t -> p y = true -> p x = true -> False).
  { intros y Hy Hpy Hpx. apply Hx. rewrite (Hk x), <- (Hk y); [by apply list_elem_of_fmap_2|by right|done|by left|done]. }
  destruct (p x) eqn:Ex.
  - cbn. f_equal. rewrite filter_none; [done|]. apply Forall_forall. intros y Hy. apply not_true_iff_false. intros Hpy. by eapply Hone.
  - apply elem_of_cons in Hr as [->|Hr]; [congruence|]. apply (IH Hnd Hr Hp). intros r' Hr'. apply Hk. by right.
Qed.

(** An insert that skips known keys keeps them unique, and is a no-op the second time. *)
Lemma insert_nothing_keys {K} (key : R -> K) p row t :
  (forall r, p r = true <-> key r = key row) -> NoDup (List.map key t) -> NoDup (List.map key (insert_nothing p row t)).
Proof.
  unfold insert_nothing. intros Hp Hnd. destruct (existsb p t) eqn:E; [done|]. rewrite List.map_app. apply NoDup_app. split_and!; [done| |apply NoDup_singleton].
  intros k Hk ->%list_elem_of_singleton. apply list_elem_of_fmap in Hk as (r & Hk & Hr). symmetry in Hk. apply Hp in Hk.
  enough (existsb p t = true) by congruence. apply existsb_exists. exists r. by rewrite <- list_elem_of_In.
Qed.

Lemma insert_nothing_elem p row t r : r ∈ t -> r ∈ insert_nothing p row t.
Proof. unfold insert_nothing. destruct (existsb p t); [done|]. intros H. apply elem_of_app. by left. Qed.

Lemma insert_nothing_inv p row t r : r ∈ insert_nothing p row t -> r ∈ t \/ r = row /\ existsb p t = false.
Proof. unfold insert_nothing. destruct (existsb p t) eqn:E; [by left|]. intros [H|H%list_elem_of_singleton]%elem_of_app; [by left|by right]. Qed.

Lemma insert_nothing_known p row t : existsb p t = true -> insert_nothing p row t = t.
Proof. unfold insert_nothing. by intros ->. Qed.

Lemma insert_nothing_has p row t : p row = true -> existsb p (insert_nothing p row t) = true.
Proof. unfold insert_nothing. intros H. destruct (existsb p t) eqn:E; [done|]. rewrite existsb_app. cbn. by rewrite H, orb_true_r. Qed.

Lemma sum_where_app p f t u : sum_where p f (t ++ u) = sum_where p f t + sum_where p f u.
Proof. unfold sum_where. rewrite List.filter_app. induction (List.filter p t) as [|r l IH]; cbn; lia. Qed.

Lemma sum_where_one p f r : sum_where p f [r] = if p r then f r else 0.
Proof. unfold sum_where. cbn. destruct (p r); cbn; lia. Qed.

Lemma sum_where_none p f t : (forall r, r ∈ t -> p r = false) -> sum_where p f t = 0.
Proof.
  induction t as [|r t IH]; intros H; [done|]. change (r :: t) with ([r] ++ t). rewrite sum_where_app, sum_where_one, IH by (intros; apply H; by right).
  by rewrite H by left.
Qed.

(** The sum over the rows of a unique key. *)
Lemma sum_where_key {K} (key : R -> K) p f t : (forall r r', p r = true -> p r' = true -> key r = key r') -> NoDup (List.map key t) ->
  sum_where p f t = from_option f 0 (List.find p t).
Proof.
  intros Hp. induction t as [|r t IH]; [done|]. intros [Hr Hnd]%NoDup_cons. change (r :: t) with ([r] ++ t) at 1. rewrite sum_where_app, sum_where_one. cbn.
  destruct (p r) eqn:E; [|by rewrite IH]. cbn. rewrite sum_where_none; [lia|]. intros r' Hr'. destruct (p r') eqn:E'; [|done].
  contradict Hr. rewrite (Hp r r' E E'). by apply list_elem_of_fmap_2.
Qed.

Lemma sum_where_split p q1 q2 f t : (forall r, r ∈ t -> p r = q1 r || q2 r /\ q1 r && q2 r = false) ->
  sum_where p f t = sum_where q1 f t + sum_where q2 f t.
Proof.
  induction t as [|r t IH]; intros H; [done|]. change (r :: t) with ([r] ++ t). rewrite !sum_where_app, !sum_where_one, IH by (intros; apply H; by right).
  destruct (H r) as [-> Hd]; [by left|]. destruct (q1 r), (q2 r); cbn in *; [done|lia..].
Qed.

Lemma sum_where_nonneg p f t : (forall r, r ∈ t -> p r = true -> 0 <= f r) -> 0 <= sum_where p f t.
Proof.
  induction t as [|r t IH]; intros H; [done|]. change (r :: t) with ([r] ++ t). rewrite sum_where_app, sum_where_one.
  assert (0 <= sum_where p f t) by (apply IH; intros; apply H; [by right|done]). destruct (p r) eqn:E; [|lia]. assert (0 <= f r) by (apply H; [by left|done]). lia.
Qed.
End sql.
