(* ===== verification/Schema.v ===== *)
(** * The rows of the session tables

    Enumerations of [packages/contracts/src/index.ts] and, for the tables of
    [packages/db/src/schema.ts] the session components share, the columns their
    operations read or write.  Identifiers (uuids) and members of closed
    enumerations are ASCII [string]s; timestamps are milliseconds. *)
From S2P Require Import Prelude Json.
From stdpp Require Import pretty.

Inductive SessionStatus := S_queued | S_running | S_idle | S_requires_action | S_failed | S_cancelled.
#[export] Instance SessionStatus_eq_dec : EqDecision SessionStatus.
Proof. solve_decision. Defined.

Inductive SessionTurnStatus := T_queued | T_running | T_requires_action | T_completed | T_failed | T_cancelled.
#[export] Instance SessionTurnStatus_eq_dec : EqDecision SessionTurnStatus.
Proof. solve_decision. Defined.

Inductive SessionTurnSource := Src_user | Src_scheduled_task | Src_api | Src_goal.

Inductive SessionGoalStatus := G_active | G_paused | G_completed.
#[export] Instance SessionGoalStatus_eq_dec : EqDecision SessionGoalStatus.
Proof. solve_decision. Defined.

(** The members of the [SessionEventType] enumeration, in source order. *)
Definition SessionEventType : list string :=
  ["session.created"; "session.status.changed"; "session.requiresAction";
   "session.context.compacted"; "session.context.cleared";
   "user.message"; "user.interrupt"; "user.approvalDecision";
   "turn.queued"; "turn.updated"; "turn.started"; "turn.completed"; "turn.failed";
   "turn.cancelled"; "turn.queue_drained"; "turn.preempted";
   "agent.message.delta"; "agent.message.completed"; "agent.reasoning.delta";
   "agent.toolCall.created"; "agent.toolCall.output"; "agent.model.usage";
   "tool.auth_needed"; "agent.updated";
   "rig.setup.started"; "rig.setup.completed"; "rig.setup.skipped"; "rig.setup.failed";
   "sandbox.operation.started"; "sandbox.operation.completed"; "sandbox.operation.failed";
   "sandbox.command.output.delta"; "artifact.created";
   "goal.set"; "goal.updated"; "goal.completed"; "goal.paused"; "goal.resumed"; "goal.cleared";
   "goal.continuation"; "memory.saved"; "memory.corrected";
   "stream.url.rotated"; "stream.opened"; "stream.closed"; "stream.revoked";
   "recording.started"; "recording.available"; "recording.failed";
   "fs.changed"; "git.changed";
   "terminal.pty.started"; "terminal.pty.output.delta"; "terminal.pty.exited";
   "session.title_set"; "codex.account.switched"; "codex.credential.selected";
   "codex.capacity.waiting"; "codex.capacity.resumed"; "codex.capacity.superseded";
   "sandbox.box.created"; "sandbox.box.lost"; "sandbox.box.terminated"; "sandbox.box.snapshot";
   "sandbox.env.drift"; "session.route.reconciled"; "workspace.revision.captured";
   "machine.op.failed"; "machine.op.recovered";
   "machine.link.lost"; "machine.link.restored"; "machine.runner.restarted"]%string.

(** The wire event. *)
Record SessionEvent := {
  ev_id : string;
  ev_workspaceId : string;
  ev_sessionId : string;
  ev_sequence : Z;
  ev_type : string;
  ev_payload : json;
  ev_occurredAt : Z;
  ev_clientEventId : option string;
  ev_turnId : option string
}.

(** [sessions] *)
Record SessionRow := {
  s_id : string;
  s_accountId : string;
  s_workspaceId : string;
  s_status : SessionStatus;
  s_initialMessage : jstr;
  s_resources : json;
  s_tools : json;
  s_metadata : json;
  s_model : string;
  s_sandboxBackend : string;
  s_sandboxGroupId : string;
  s_temporalWorkflowId : option string;
  s_activeTurnId : option string;
  s_parentSessionId : option string;
  s_lastSequence : Z;
  s_createdAt : Z;
  s_updatedAt : Z
}.
#[export] Instance etaSessionRow : Settable SessionRow := fun r =>
  Build_SessionRow (s_id r) (s_accountId r) (s_workspaceId r) (s_status r) (s_initialMessage r)
    (s_resources r) (s_tools r) (s_metadata r) (s_model r) (s_sandboxBackend r) (s_sandboxGroupId r)
    (s_temporalWorkflowId r) (s_activeTurnId r) (s_parentSessionId r) (s_lastSequence r) (s_createdAt r) (s_updatedAt r).

(** [session_events] *)
Record EventRow := {
  e_id : string;
  e_accountId : string;
  e_workspaceId : string;
  e_sessionId : string;
  e_turnId : option string;
  e_sequence : Z;
  e_type : string;
  e_payload : json;
  e_clientEventId : option string;
  e_producerId : option string;
  e_producerSeq : option Z;
  e_occurredAt : Z
}.

(** [session_turns] *)
Record TurnRow := {
  t_id : string;
  t_accountId : string;
  t_workspaceId : string;
  t_sessionId : string;
  t_triggerEventId : string;
  t_temporalWorkflowId : string;
  t_status : SessionTurnStatus;
  t_source : SessionTurnSource;
  t_position : Z;
  t_prompt : jstr;
  t_resources : json;
  t_tools : json;
  t_model : string;
  t_reasoningEffort : string;
  t_sandboxBackend : string;
  t_metadata : list (jstr * json);
  t_toolspaceCallCount : Z;
  t_startedAt : option Z;
  t_finishedAt : option Z;
  t_createdAt : Z;
  t_updatedAt : Z
}.
#[export] Instance etaTurnRow : Settable TurnRow := fun r =>
  Build_TurnRow (t_id r) (t_accountId r) (t_workspaceId r) (t_sessionId r) (t_triggerEventId r)
    (t_temporalWorkflowId r) (t_status r) (t_source r) (t_position r) (t_prompt r) (t_resources r)
    (t_tools r) (t_model r) (t_reasoningEffort r) (t_sandboxBackend r) (t_metadata r)
    (t_toolspaceCallCount r) (t_startedAt r) (t_finishedAt r) (t_createdAt r) (t_updatedAt r).

(** [session_goals] *)
Record GoalRow := {
  g_id : string;
  g_workspaceId : string;
  g_sessionId : string;
  g_status : SessionGoalStatus;
  g_text : jstr;
  g_successCriteria : option jstr;
  g_evidence : option jstr;
  g_rationale : option jstr;
  g_pausedReason : option string;
  g_createdBy : string;
  g_version : Z;
  g_autoContinuations : Z;
  g_noProgressStreak : Z;
  g_maxAutoContinuations : option Z;
  g_lastContinuationTurnId : option string;
  g_versionAtLastContinuation : option Z;
  g_metadata : json;
  g_createdAt : Z;
  g_updatedAt : Z
}.
#[export] Instance etaGoalRow : Settable GoalRow := fun r =>
  Build_GoalRow (g_id r) (g_workspaceId r) (g_sessionId r) (g_status r) (g_text r)
    (g_successCriteria r) (g_evidence r) (g_rationale r) (g_pausedReason r) (g_createdBy r)
    (g_version r) (g_autoContinuations r) (g_noProgressStreak r) (g_maxAutoContinuations r)
    (g_lastContinuationTurnId r) (g_versionAtLastContinuation r) (g_metadata r) (g_createdAt r)
    (g_updatedAt r).

(** The database, as far as the session components see it.  [db_fresh] numbers
    the [defaultRandom()] uuids handed out so far. *)
Record Db := {
  db_sessions : list SessionRow;
  db_events : list EventRow;
  db_turns : list TurnRow;
  db_goals : list GoalRow;
  db_fresh : nat
}.
#[export] Instance etaDb : Settable Db := fun d =>
  Build_Db (db_sessions d) (db_events d) (db_turns d) (db_goals d) (db_fresh d).

Definition uuid (n : nat) : string := String.append "uuid-" (pretty n).

Lemma uuid_inj n m : uuid n = uuid m -> n = m.
Proof.
  unfold uuid. intros H. apply (inj (String.append "uuid-")) in H. by apply (inj pretty) in H.
Qed.

(** Errors the repository layer throws; [Unavailable] is a lost connection. *)
Inductive DbError :=
| SessionNotFound (id : string)
| TurnNotFound (id : string)
| QueuedTurnNotFound (id : string)
| PreemptibleTurnNotFound (id : string)
| ReorderMismatch
| GoalNotFound (sessionId : string)
| GoalCompleted
| ParentSessionNotFound (id : string)
| FoldFailed
| EmptyAppend
| UniqueViolation (index : string)
| Unavailable.
