(* ===== verification/EventLog.v ===== *)
(** * The durable event log

    The append and read paths of [session_events] in
    [packages/db/src/index.ts]: sequences are allocated from
    [sessions.last_sequence] under the session's row lock, in one transaction
    with the insert.  [DurableLog] is the promise the streaming layers are
    proved against: events [1..n] with no gap, readable by sequence. *)
From S2P Require Import Prelude Sql Json Schema PayloadSanitizer.

(** ** The interface *)

(** A session's log: event [i] (from 0) carries sequence [i+1], and a page read
    [after] a sequence returns the next events in order. *)
Class DurableLog := {
  log_events : list SessionEvent;
  log_page : Z -> Z -> list SessionEvent;
  log_contiguous : contiguous 0 (List.map ev_sequence log_events);
  log_page_spec : forall after lim, 0 <= after ->
    log_page after lim = take (Z.to_nat lim) (drop (Z.to_nat after) log_events)
}.

Module EventLog.
Import PayloadSanitizer.

Record AppendEventInput := {
  in_type : string;
  in_payload : option json;
  in_clientEventId : option string;
  in_turnId : option string;
  in_producerId : option string;
  in_producerSeq : option Z;
  in_occurredAt : option Z
}.

Definition inSession (workspaceId sessionId : string) (r : SessionRow) : bool :=
  bool_decide (s_workspaceId r = workspaceId) && bool_decide (s_id r = sessionId).

Definition eventOf (workspaceId sessionId : string) (r : EventRow) : bool :=
  bool_decide (e_workspaceId r = workspaceId) && bool_decide (e_sessionId r = sessionId).

Definition mapEvent (row : EventRow) : SessionEvent := {|
  ev_id := e_id row; ev_workspaceId := e_workspaceId row; ev_sessionId := e_sessionId row;
  ev_sequence := e_sequence row; ev_type := e_type row; ev_payload := e_payload row;
  ev_occurredAt := e_occurredAt row; ev_clientEventId := e_clientEventId row;
  ev_turnId := e_turnId row |}.

(** The three unique indexes of the table. *)
Definition conflicts (a b : EventRow) : bool :=
  bool_decide (e_workspaceId a = e_workspaceId b) && bool_decide (e_sessionId a = e_sessionId b) &&
  (bool_decide (e_sequence a = e_sequence b)
   || match e_clientEventId a, e_clientEventId b with Some x, Some y => bool_decide (x = y) | _, _ => false end
   || match e_producerId a, e_producerSeq a, e_producerId b, e_producerSeq b with
      | Some p, Some n, Some q, Some m => bool_decide (p = q) && (n =? m)
      | _, _, _, _ => false
      end).

(** [insert(...).values(values)]: the rows get fresh uuids; a unique index that
    any of them violates aborts the statement. *)
Fixpoint insertEvents (values : list (string -> EventRow)) (d : Db) : result DbError (list EventRow * Db) :=
  match values with
  | [] => Ok ([], d)
  | value :: values =>
      let row := value (uuid (db_fresh d)) in
      if existsb (conflicts row) (db_events d) then Err (UniqueViolation "session_events")
      else match insertEvents values (d <| db_events ::= fun t => t ++ [row] |> <| db_fresh ::= S |>) with
           | Ok (rows, d') => Ok (row :: rows, d')
           | Err e => Err e
           end
  end.

(** One event value of a batch, numbered [++sequence]. *)
Definition eventValue (row : SessionRow) (sequence : Z) (now : Z) (input : AppendEventInput) (id : string) : EventRow := {|
  e_id := id; e_accountId := s_accountId row; e_workspaceId := s_workspaceId row;
  e_sessionId := s_id row; e_turnId := in_turnId input;
  e_sequence := sequence; e_type := in_type input;
  e_payload := sanitizeEventPayload (default (JObj []) (in_payload input));
  e_clientEventId := in_clientEventId input;
  e_producerId := in_producerId input; e_producerSeq := in_producerSeq input;
  e_occurredAt := default now (in_occurredAt input) |}.

Fixpoint eventValues (row : SessionRow) (sequence now : Z) (inputs : list AppendEventInput) : list (string -> EventRow) :=
  match inputs with
  | [] => []
  | input :: inputs => eventValue row (sequence + 1) now input :: eventValues row (sequence + 1) now inputs
  end.

Definition appendSessionEvents (now : Z) (workspaceId sessionId : string) (inputs : list AppendEventInput)
  (d : Db) : result DbError (list SessionEvent * Db) :=
  match inputs with
  | [] => Ok ([], d)
  | _ =>
      match List.find (inSession workspaceId sessionId) (db_sessions d) with
      | None => Err (SessionNotFound sessionId)
      | Some row =>
          match insertEvents (eventValues row (s_lastSequence row) now inputs) d with
          | Err e => Err e
          | Ok (inserted, d) =>
              Ok (List.map mapEvent inserted,
                  d <| db_sessions ::= update_where (inSession workspaceId sessionId)
                         (fun r => r <| s_lastSequence := s_lastSequence row + Z.of_nat (length inputs) |>
                                     <| s_updatedAt := now |>) |>)
          end
      end
  end.

Definition inGroup (workspaceId sandboxGroupId : string) (r : SessionRow) : bool :=
  bool_decide (s_workspaceId r = workspaceId) && bool_decide (s_sandboxGroupId r = sandboxGroupId).

Definition appendSessionEventToSandboxGroup (now : Z) (workspaceId sandboxGroupId : string)
  (input : AppendEventInput) (d : Db) : result DbError (list SessionEvent * Db) :=
  let rows := sort_by s_createdAt (select_where (inGroup workspaceId sandboxGroupId) (db_sessions d)) in
  match rows with
  | [] => Ok ([], d)
  | _ =>
      match insertEvents (List.map (fun row => eventValue row (s_lastSequence row + 1) now input) rows) d with
      | Err e => Err e
      | Ok (inserted, d) =>
          Ok (List.map mapEvent inserted,
              d <| db_sessions ::= update_where (inGroup workspaceId sandboxGroupId)
                     (fun r => r <| s_lastSequence := s_lastSequence r + 1 |> <| s_updatedAt := now |>) |>)
      end
  end.

(** The optional columns an append may set along; [activeTurnId: null] is
    [Some None]. *)
Record SessionUpdate := {
  up_resources : option json;
  up_tools : option json;
  up_model : option string;
  up_metadata : option json;
  up_status : option SessionStatus;
  up_activeTurnId : option (option string)
}.
Definition no_update : SessionUpdate :=
  {| up_resources := None; up_tools := None; up_model := None; up_metadata := None; up_status := None;
     up_activeTurnId := None |}.

Definition applyUpdate (sequence now : Z) (u : SessionUpdate) (r : SessionRow) : SessionRow :=
  r <| s_lastSequence := sequence |>
    <| s_resources := default (s_resources r) (up_resources u) |>
    <| s_tools := default (s_tools r) (up_tools u) |>
    <| s_model := default (s_model r) (up_model u) |>
    <| s_metadata := default (s_metadata r) (up_metadata u) |>
    <| s_status := default (s_status r) (up_status u) |>
    <| s_activeTurnId := default (s_activeTurnId r) (up_activeTurnId u) |>
    <| s_updatedAt := now |>.

Definition appendSessionEventsAndUpdateSession (now : Z) (workspaceId sessionId : string)
  (inputs : list AppendEventInput) (update : SessionUpdate) (d : Db) : result DbError (list SessionEvent * Db) :=
  match inputs with
  | [] => Ok ([], d)
  | _ =>
      match List.find (inSession workspaceId sessionId) (db_sessions d) with
      | None => Err (SessionNotFound sessionId)
      | Some row =>
          match insertEvents (eventValues row (s_lastSequence row) now inputs) d with
          | Err e => Err e
          | Ok (inserted, d) =>
              Ok (List.map mapEvent inserted,
                  d <| db_sessions ::= update_where (inSession workspaceId sessionId)
                         (applyUpdate (s_lastSequence row + Z.of_nat (length inputs)) now update) |>)
          end
      end
  end.

(** [build] sees the locked row and the transaction's database (it may read the
    pending turns and write MCP credentials, a table outside this model). *)
Definition appendSessionEventsWithLockedSessionUpdate (now : Z) (workspaceId sessionId : string)
  (build : SessionRow -> Db -> result DbError (list AppendEventInput * option SessionUpdate))
  (d : Db) : result DbError (list SessionEvent * Db) :=
  match List.find (inSession workspaceId sessionId) (db_sessions d) with
  | None => Err (SessionNotFound sessionId)
  | Some row =>
      match build row d with
      | Err e => Err e
      | Ok (events, update) =>
          match events with
          | [] => Ok ([], d)
          | _ =>
              match insertEvents (eventValues row (s_lastSequence row) now events) d with
              | Err e => Err e
              | Ok (inserted, d) =>
                  Ok (List.map mapEvent inserted,
                      d <| db_sessions ::= update_where (inSession workspaceId sessionId)
                             (applyUpdate (s_lastSequence row + Z.of_nat (length events)) now
                                (default no_update update)) |>)
              end
          end
      end
  end.

(** ** Reads *)

Definition POSTGRES_INT_MAX : Z := 2147483647.

Definition normalizeEventSequence (value : option Z) (fallback : Z) : Z := default fallback value.
Definition normalizeEventLimit (value : option Z) (fallback : Z) : Z :=
  match value with None => fallback | Some v => Z.max 0 v end.

Record ListSessionEventsOptions := { opt_after : option Z; opt_before : option Z; opt_limit : option Z }.

(** With [before] the page is the newest [limit] events below it, returned in
    ascending order; otherwise the oldest [limit] events past [after]. *)
Definition listSessionEvents (workspaceId sessionId : string) (options : ListSessionEventsOptions) (d : Db)
  : list SessionEvent :=
  let after := normalizeEventSequence (opt_after options) 0 in
  let lim := normalizeEventLimit (opt_limit options) 500 in
  let hasBefore := match opt_before options with Some _ => true | None => false end in
  let below (r : EventRow) :=
    match opt_before options with
    | Some before => if before <=? POSTGRES_INT_MAX then e_sequence r <? before else true
    | None => true
    end in
  let rows := select_where (fun r => eventOf workspaceId sessionId r && (after <? e_sequence r) && below r)
                (db_events d) in
  let ordered := if hasBefore then sort_by (fun r => - e_sequence r) rows else sort_by e_sequence rows in
  let page := limit lim ordered in
  List.map mapEvent (if hasBefore then rev page else page).

(** The positional overload the stream uses. *)
Definition listSessionEventsAfter (workspaceId sessionId : string) (after lim : Z) (d : Db) : list SessionEvent :=
  listSessionEvents workspaceId sessionId
    {| opt_after := Some after; opt_before := None; opt_limit := Some lim |} d.

Definition getSessionEvent (workspaceId eventId : string) (d : Db) : option SessionEvent :=
  mapEvent <$> List.find (fun r => bool_decide (e_workspaceId r = workspaceId) && bool_decide (e_id r = eventId))
                 (db_events d).

Definition getSessionEventByClientEventId (workspaceId sessionId clientEventId : string) (d : Db)
  : option SessionEvent :=
  mapEvent <$> List.find (fun r => eventOf workspaceId sessionId r
                                   && bool_decide (e_clientEventId r = Some clientEventId)) (db_events d).

(** ** The log invariant *)

Definition session_log (d : Db) (r : SessionRow) : list EventRow :=
  select_where (eventOf (s_workspaceId r) (s_id r)) (db_events d).

(** Every session's events are numbered [1 .. last_sequence], in insertion
    order, and session ids are unique. *)
Record log_ok (d : Db) : Prop := {
  ok_ids : NoDup (List.map s_id (db_sessions d));
  ok_log : forall r, r ∈ db_sessions d ->
    contiguous 0 (List.map e_sequence (session_log d r)) /\
    s_lastSequence r = Z.of_nat (length (session_log d r))
}.

Lemma insertEvents_spec values d rows d' :
  insertEvents values d = Ok (rows, d') ->
  rows = imap (fun i v => v (uuid (db_fresh d + i)%nat)) values /\
  db_events d' = db_events d ++ rows /\ db_sessions d' = db_sessions d /\
  db_turns d' = db_turns d /\ db_goals d' = db_goals d /\
  db_fresh d' = (db_fresh d + length values)%nat.
Proof.
  revert d rows; induction values as [|v vs IH]; intros d rows; cbn -[imap].
  - intros [= <- <-]. rewrite app_nil_r, Nat.add_0_r. done.
  - destruct (existsb _ _); [done|].
    destruct (insertEvents vs _) as [[rows' d'']|] eqn:E; [|done]. intros [= <- <-].
    apply IH in E as (-> & Hev & Hs & Ht & Hg & Hf). cbn in *. rewrite Nat.add_0_r.
    split_and!; try done; [|by rewrite Hev, <- app_assoc|lia].
    f_equal. apply imap_ext. intros i x _. cbn. do 2 f_equal. lia.
Qed.

Lemma eventValues_spec row seq now inputs fresh :
  let rows := imap (fun i v => v (uuid (fresh + i)%nat)) (eventValues row seq now inputs) in
  length rows = length inputs /\
  List.map e_sequence rows = seqZ (seq + 1) (Z.of_nat (length inputs)) /\
  Forall (fun e => e_workspaceId e = s_workspaceId row /\ e_sessionId e = s_id row) rows.
Proof.
  revert seq fresh; induction inputs as [|i ins IH]; intros seq fresh; [done|]. cbn -[imap seqZ Z.of_nat].
  destruct (IH (seq + 1) (S fresh)) as (Hl & Hs & Hf).
  assert (imap (fun i v => v (uuid (fresh + i)%nat)) (eventValue row (seq + 1) now i :: eventValues row (seq + 1) now ins) =
          eventValue row (seq + 1) now i (uuid (fresh + 0)) ::
          imap (fun i v => v (uuid (S fresh + i)%nat)) (eventValues row (seq + 1) now ins)) as ->.
  { cbn. f_equal. apply imap_ext. intros j x _. cbn. do 2 f_equal. lia. }
  split_and!.
  - cbn [length]. by rewrite Hl.
  - cbn [List.map]. rewrite Hs, Nat2Z.inj_succ, (seqZ_cons (seq + 1)) by lia. cbn. do 2 f_equal; lia.
  - by constructor.
Qed.

Lemma eventOf_true ws id e : eventOf ws id e = true <-> e_workspaceId e = ws /\ e_sessionId e = id.
Proof. unfold eventOf. by rewrite andb_true_iff, !bool_decide_eq_true. Qed.

Lemma inSession_true ws id r : inSession ws id r = true <-> s_workspaceId r = ws /\ s_id r = id.
Proof. unfold inSession. by rewrite andb_true_iff, !bool_decide_eq_true. Qed.

(** A transaction that appends [rows] and moves [last_sequence] accordingly
    keeps the invariant. *)
Lemma log_ok_extend d d' rows (p : SessionRow -> bool) (f : SessionRow -> SessionRow) :
  log_ok d ->
  db_events d' = db_events d ++ rows ->
  db_sessions d' = update_where p f (db_sessions d) ->
  (forall r, s_id (f r) = s_id r /\ s_workspaceId (f r) = s_workspaceId r) ->
  (forall r, r ∈ db_sessions d ->
     let new := select_where (eventOf (s_workspaceId r) (s_id r)) rows in
     List.map e_sequence new = seqZ (s_lastSequence r + 1) (Z.of_nat (length new)) /\
     s_lastSequence (if p r then f r else r) = s_lastSequence r + Z.of_nat (length new)) ->
  log_ok d'.
Proof.
  intros [Hids Hlog] Hev Hs Hf Hnew. split.
  - rewrite Hs, map_update_where; [done|]. intros r _. apply Hf.
  - intros r' Hr'. rewrite Hs in Hr'. apply elem_of_update_where in Hr' as (r & Hr & ->).
    destruct (Hlog r Hr) as [Hc Hl]. destruct (Hnew r Hr) as [Hseq Hlast].
    unfold session_log. rewrite Hlast, Hev.
    assert (s_id (if p r then f r else r) = s_id r /\
            s_workspaceId (if p r then f r else r) = s_workspaceId r) as [-> ->] by (destruct (p r); auto).
    unfold select_where. rewrite List.filter_app. unfold session_log in *. rewrite map_app, !length_app.
    split; [|unfold select_where in *; lia].
    unfold contiguous in *. rewrite length_app, !length_map, Nat2Z.inj_add, seqZ_app by lia.
    rewrite length_map in Hc. fold (session_log d r). unfold select_where in *.
    rewrite Hc at 1. f_equal. rewrite Hseq. f_equal. lia.
Qed.

(** New rows of one session, numbered after its last event. *)
Lemma log_ok_rows d d' rows ws id row f :
  log_ok d -> List.find (inSession ws id) (db_sessions d) = Some row ->
  List.map e_sequence rows = seqZ (s_lastSequence row + 1) (Z.of_nat (length rows)) ->
  Forall (fun e => e_workspaceId e = s_workspaceId row /\ e_sessionId e = s_id row) rows ->
  db_events d' = db_events d ++ rows -> db_sessions d' = update_where (inSession ws id) f (db_sessions d) ->
  (forall r, s_id (f r) = s_id r /\ s_workspaceId (f r) = s_workspaceId r /\
             s_lastSequence (f r) = s_lastSequence row + Z.of_nat (length rows)) ->
  log_ok d'.
Proof.
  intros Hok Hfind Hseq Hin Hev Hs Hf.
  apply find_some in Hfind as [Hrow Hp]. apply inSession_true in Hp as [<- <-].
  apply list_elem_of_In in Hrow.
  eapply log_ok_extend with (d := d) (rows := rows); [done|done|exact Hs|naive_solver|].
  intros r Hr. destruct (inSession (s_workspaceId row) (s_id row) r) eqn:E.
  - apply inSession_true in E as [Hw Hi].
    assert (r = row) as -> by (eapply (select_unique s_id); [apply Hok|..]; done).
    unfold select_where. rewrite filter_all.
    2: { eapply Forall_impl; [exact Hin|]. intros e He. by apply eventOf_true. }
    rewrite Hseq. destruct (Hf row) as (_ & _ & ->). done.
  - unfold select_where. rewrite filter_none; [cbn; split; [done|lia]|].
    eapply Forall_impl; [exact Hin|]. intros e [Hw Hi]. apply not_true_iff_false.
    rewrite eventOf_true. intros [Hw' Hi']. apply not_true_iff_false in E.
    apply E, inSession_true. by rewrite <- Hw, <- Hi, Hw', Hi'.
Qed.

(** The batch append of one session, whatever other columns [f] sets. *)
Lemma log_ok_batch d d1 rows now ws id row inputs f :
  log_ok d -> List.find (inSession ws id) (db_sessions d) = Some row ->
  insertEvents (eventValues row (s_lastSequence row) now inputs) d = Ok (rows, d1) ->
  (forall r, s_id (f r) = s_id r /\ s_workspaceId (f r) = s_workspaceId r /\
             s_lastSequence (f r) = s_lastSequence row + Z.of_nat (length inputs)) ->
  log_ok (d1 <| db_sessions ::= update_where (inSession ws id) f |>).
Proof.
  intros Hok Hfind Hins Hf. apply insertEvents_spec in Hins as (Hrows & Hev & Hs & _).
  destruct (eventValues_spec row (s_lastSequence row) now inputs (db_fresh d)) as (Hl & Hseq & Hin).
  rewrite <- Hrows in Hl, Hseq, Hin. rewrite <- Hl in Hseq, Hf.
  eapply log_ok_rows; [done|done|exact Hseq|exact Hin|exact Hev|cbn; by rewrite Hs|exact Hf].
Qed.

(** The invariant is about who logged and in which order, not about payloads. *)
Lemma log_ok_map d d' g :
  log_ok d -> db_sessions d' = db_sessions d -> db_events d' = List.map g (db_events d) ->
  (forall e, e_workspaceId (g e) = e_workspaceId e /\ e_sessionId (g e) = e_sessionId e /\ e_sequence (g e) = e_sequence e) ->
  log_ok d'.
Proof.
  intros [Hi Hl] Hs He Hg.
  assert (Hlog : forall r, session_log d' r = List.map g (session_log d r)).
  { intros r. unfold session_log, select_where. rewrite He. clear He Hl. induction (db_events d) as [|e l IH]; cbn; [done|].
    assert (eventOf (s_workspaceId r) (s_id r) (g e) = eventOf (s_workspaceId r) (s_id r) e) as ->.
    { unfold eventOf. by destruct (Hg e) as (-> & -> & _). }
    destruct (eventOf _ _ e); cbn; by rewrite IH. }
  split; [by rewrite Hs|]. intros r Hr. rewrite Hs in Hr. rewrite Hlog, length_map, List.map_map.
  rewrite (map_ext (fun e => e_sequence (g e)) e_sequence (fun e => proj2 (proj2 (Hg e)))). by apply Hl.
Qed.

(** No event of the session reaches its next sequence. *)
Lemma log_ok_bound d r e :
  log_ok d -> r ∈ db_sessions d -> e ∈ db_events d -> eventOf (s_workspaceId r) (s_id r) e = true ->
  e_sequence e <= s_lastSequence r.
Proof.
  intros [_ Hl] Hr He Ho. destruct (Hl r Hr) as [Hc ->].
  assert (Hin : e ∈ session_log d r) by by apply elem_of_select_where.
  apply list_elem_of_lookup in Hin as [i Hi].
  assert (e_sequence e = 0 + 1 + Z.of_nat i); [|apply lookup_lt_Some in Hi; lia].
  eapply contiguous_lookup; [exact Hc|]. by rewrite list_lookup_fmap, Hi.
Qed.

(** A batch of fresh client ids past the last sequence violates no index. *)
Lemma insertEvents_total row seq now inputs d :
  (forall e, e ∈ db_events d -> eventOf (s_workspaceId row) (s_id row) e = true -> e_sequence e <= seq) ->
  Forall (fun i => in_producerId i = None) inputs ->
  (forall i c e, i ∈ inputs -> in_clientEventId i = Some c -> e ∈ db_events d ->
     eventOf (s_workspaceId row) (s_id row) e = true -> e_clientEventId e <> Some c) ->
  NoDup (omap in_clientEventId inputs) ->
  exists rows d', insertEvents (eventValues row seq now inputs) d = Ok (rows, d').
Proof.
  revert seq d; induction inputs as [|i ins IH]; intros seq d Hseq Hp Hc Hnd; [by eexists _, _|].
  cbn [eventValues insertEvents]. set (new := eventValue row (seq + 1) now i (uuid (db_fresh d))).
  inversion Hp as [|? ? Hpi Hpins]; subst.
  assert (Hno : existsb (conflicts new) (db_events d) = false).
  { apply not_true_iff_false. intros (e & He & Hcf)%existsb_exists. apply list_elem_of_In in He. unfold conflicts in Hcf.
    cbn in Hcf. rewrite Hpi in Hcf. rewrite orb_false_r in Hcf. breflect.
    assert (Ho : eventOf (s_workspaceId row) (s_id row) e = true) by (apply eventOf_true; by split).
    apply orb_true_iff in H0 as [H0|H0]; breflect; [specialize (Hseq e He Ho); lia|].
    destruct (in_clientEventId i) as [c|] eqn:Ei, (e_clientEventId e) as [c'|] eqn:Ee; try done. breflect. subst c'.
    by apply (Hc i c e); [left|..]. }
  rewrite Hno. destruct (IH (seq + 1) (d <| db_events ::= fun t => t ++ [new] |> <| db_fresh ::= S |>)) as (rows & d' & ->).
  - intros e [He|He%list_elem_of_singleton]%elem_of_app Ho; [specialize (Hseq e He Ho); lia|]. subst e. cbn. lia.
  - done.
  - intros j c e Hj Hjc [He|He%list_elem_of_singleton]%elem_of_app Ho; [by apply (Hc j c e); [right|..]|]. subst e. cbn.
    intros Hic. cbn in Hnd. rewrite Hic in Hnd. apply NoDup_cons in Hnd as [Hnd _]. apply Hnd.
    apply list_elem_of_omap. by exists j.
  - cbn in Hnd. destruct (in_clientEventId i); [by apply NoDup_cons in Hnd as [_ ?]|done].
  - by eexists _, _.
Qed.

Lemma appendSessionEvents_log_ok now ws id inputs d evs d' :
  log_ok d -> appendSessionEvents now ws id inputs d = Ok (evs, d') -> log_ok d'.
Proof.
  intros Hok. unfold appendSessionEvents. destruct inputs as [|i ins]; [by intros [= <- <-]|].
  destruct (List.find _ _) as [row|] eqn:Hf; [|done].
  destruct (insertEvents _ d) as [[rows d1]|] eqn:Hi; [|done]; intros [= <- <-].
  eapply log_ok_batch; eauto.
Qed.

Lemma appendSessionEventsAndUpdateSession_log_ok now ws id inputs u d evs d' :
  log_ok d -> appendSessionEventsAndUpdateSession now ws id inputs u d = Ok (evs, d') -> log_ok d'.
Proof.
  intros Hok. unfold appendSessionEventsAndUpdateSession. destruct inputs as [|i ins]; [by intros [= <- <-]|].
  destruct (List.find _ _) as [row|] eqn:Hf; [|done].
  destruct (insertEvents _ d) as [[rows d1]|] eqn:Hi; [|done]; intros [= <- <-].
  eapply log_ok_batch; eauto.
Qed.

Lemma appendSessionEventsWithLockedSessionUpdate_log_ok now ws id build d evs d' :
  log_ok d -> appendSessionEventsWithLockedSessionUpdate now ws id build d = Ok (evs, d') -> log_ok d'.
Proof.
  intros Hok. unfold appendSessionEventsWithLockedSessionUpdate.
  destruct (List.find _ _) as [row|] eqn:Hf; [|done].
  destruct (build row d) as [[[|i ins] u]|]; [by intros [= <- <-]| |done].
  destruct (insertEvents _ d) as [[rows d1]|] eqn:Hi; [|done]; intros [= <- <-].
  eapply log_ok_batch; eauto.
Qed.

(** In a batch with one event per session, a session of the batch finds exactly
    its own event. *)
Lemma group_event rows now input r fresh :
  NoDup (List.map s_id rows) ->
  let new := select_where (eventOf (s_workspaceId r) (s_id r))
    (imap (fun i v => v (uuid (fresh + i)%nat))
       (List.map (fun row => eventValue row (s_lastSequence row + 1) now input) rows)) in
  (r ∈ rows -> List.map e_sequence new = [s_lastSequence r + 1]) /\
  (s_id r ∉ List.map s_id rows -> new = []).
Proof.
  unfold select_where. revert fresh; induction rows as [|x rows IH]; intros fresh Hnd; cbn -[imap].
  { split; [by intros ?%elem_of_nil|done]. }
  apply NoDup_cons in Hnd as [Hx Hnd]. destruct (IH (S fresh) Hnd) as [IH1 IH2].
  assert (imap (fun i v => v (uuid (fresh + i)%nat))
            (eventValue x (s_lastSequence x + 1) now input
             :: List.map (fun row => eventValue row (s_lastSequence row + 1) now input) rows) =
          eventValue x (s_lastSequence x + 1) now input (uuid (fresh + 0)) ::
          imap (fun i v => v (uuid (S fresh + i)%nat))
            (List.map (fun row => eventValue row (s_lastSequence row + 1) now input) rows)) as ->.
  { cbn. f_equal. apply imap_ext. intros j y _. cbn. do 2 f_equal. lia. }
  cbn [List.filter]. split.
  - intros [->|Hr]%elem_of_cons.
    + rewrite (proj2 (eventOf_true _ _ _)) by done. by rewrite (IH2 Hx).
    + destruct (eventOf _ _ _) eqn:E; [|by apply IH1].
      apply eventOf_true in E as [_ E]. cbn in E. destruct Hx. rewrite E.
      apply list_elem_of_In, in_map, list_elem_of_In, Hr.
  - intros [Hne Hni]%not_elem_of_cons. destruct (eventOf _ _ _) eqn:E; [|by apply IH2].
    apply eventOf_true in E as [_ E]. by destruct Hne.
Qed.

Lemma appendSessionEventToSandboxGroup_log_ok now ws g input d evs d' :
  log_ok d -> appendSessionEventToSandboxGroup now ws g input d = Ok (evs, d') -> log_ok d'.
Proof.
  intros Hok. unfold appendSessionEventToSandboxGroup.
  set (rows := sort_by s_createdAt (select_where (inGroup ws g) (db_sessions d))).
  destruct rows as [|r0 rs] eqn:Erows; [by intros [= <- <-]|]. rewrite <- Erows. clear r0 rs Erows.
  destruct (insertEvents _ d) as [[ins d1]|] eqn:Hi; [|done]. intros [= <- <-].
  apply insertEvents_spec in Hi as (Hins & Hev & Hs & _).
  assert (Hperm : rows ≡ₚ select_where (inGroup ws g) (db_sessions d)) by apply sort_by_perm.
  assert (Hnd : NoDup (List.map s_id rows)).
  { rewrite Hperm. apply NoDup_map_filter, Hok. }
  eapply log_ok_extend with (d := d) (rows := ins); [done|by cbn|cbn; by rewrite Hs|done|].
  intros r Hr. rewrite Hins. cbn zeta. destruct (group_event rows now input r (db_fresh d) Hnd) as [Hin Hout].
  destruct (inGroup ws g r) eqn:E.
  - assert (r ∈ rows) as Hrr by (rewrite Hperm; by apply elem_of_select_where).
    specialize (Hin Hrr). pose proof (f_equal length Hin) as Hlen.
    rewrite length_map in Hlen. rewrite Hin, Hlen. done.
  - rewrite Hout; [cbn; split; [done|lia]|].
    intros Hmem. rewrite Hperm, list_elem_of_In, in_map_iff in Hmem.
    destruct Hmem as (r' & Hid & [Hr' Hp]%filter_In). apply list_elem_of_In in Hr'.
    assert (r' = r) as -> by (eapply (select_unique s_id); [apply Hok|..]; done).
    by rewrite E in Hp.
Qed.

(** One transaction of the append path. *)
Inductive append_step (d d' : Db) : Prop :=
| step_append now ws id inputs evs :
    appendSessionEvents now ws id inputs d = Ok (evs, d') -> append_step d d'
| step_group now ws g input evs :
    appendSessionEventToSandboxGroup now ws g input d = Ok (evs, d') -> append_step d d'
| step_update now ws id inputs u evs :
    appendSessionEventsAndUpdateSession now ws id inputs u d = Ok (evs, d') -> append_step d d'
| step_locked now ws id build evs :
    appendSessionEventsWithLockedSessionUpdate now ws id build d = Ok (evs, d') -> append_step d d'.

(** An append touches neither turns nor goals. *)
Lemma append_step_turns d d' : append_step d d' ->
  db_turns d' = db_turns d /\ db_goals d' = db_goals d /\ (db_fresh d <= db_fresh d')%nat.
Proof.
  destruct 1 as [now w i inputs evs H|now w g input evs H|now w i inputs u evs H|now w i build evs H];
    unfold appendSessionEvents, appendSessionEventToSandboxGroup, appendSessionEventsAndUpdateSession,
      appendSessionEventsWithLockedSessionUpdate in H;
    repeat match type of H with
           | context [match insertEvents ?v d with _ => _ end] =>
               let E := fresh "E" in destruct (insertEvents v d) as [[? ?]|] eqn:E; try discriminate H;
               apply insertEvents_spec in E as (_ & _ & _ & Ht & Hg & Hf)
           | context [match ?x with _ => _ end] => destruct x; try discriminate H
           end; injection H as _ <-; cbn; rewrite ?Ht, ?Hg, ?Hf; split_and!; (done || lia).
Qed.

(** (C5) Whatever sequence of append transactions ran (row locks make them a
    sequence), every session's log is numbered [1..last_sequence] with no gap
    and no repetition. *)
Theorem append_preserves_log d d' :
  log_ok d -> rtc append_step d d' -> log_ok d'.
Proof.
  intros Hok. induction 1 as [|d d1 d2 Hstep _ IH]; [done|]. apply IH.
  destruct Hstep; eauto using appendSessionEvents_log_ok, appendSessionEventToSandboxGroup_log_ok,
    appendSessionEventsAndUpdateSession_log_ok, appendSessionEventsWithLockedSessionUpdate_log_ok.
Qed.

(** ** Reading pages *)

Lemma sequences_drop (l : list EventRow) c after :
  contiguous c (List.map e_sequence l) -> c <= after ->
  List.filter (fun r => after <? e_sequence r) l = drop (Z.to_nat (after - c)) l.
Proof.
  revert c; induction l as [|r l IH]; intros c Hc Ha; [by rewrite drop_nil|].
  cbn [List.map] in Hc. apply contiguous_cons_inv in Hc as [Hr Hl'].
  cbn [List.filter]. destruct (after <? e_sequence r) eqn:E; breflect.
  - assert (after = c) as -> by lia. rewrite Z.sub_diag. cbn. f_equal.
    rewrite filter_all; [done|]. apply Forall_forall. intros x [i Hi]%list_elem_of_lookup.
    assert (e_sequence x = c + 1 + 1 + Z.of_nat i).
    { eapply contiguous_lookup; [exact Hl'|]. by rewrite list_lookup_fmap, Hi. }
    apply Z.ltb_lt. lia.
  - rewrite (IH (c + 1)) by (done || lia).
    replace (Z.to_nat (after - c)) with (S (Z.to_nat (after - (c + 1)))) by lia. done.
Qed.

(** A page of the log: the oldest [limit] events past [after], in order. *)
Lemma session_page d r after lim :
  log_ok d -> r ∈ db_sessions d -> 0 <= after ->
  listSessionEventsAfter (s_workspaceId r) (s_id r) after lim d =
  List.map mapEvent (take (Z.to_nat lim) (drop (Z.to_nat after) (session_log d r))).
Proof.
  intros Hok Hr Ha. destruct (ok_log d Hok r Hr) as [Hc _].
  unfold listSessionEventsAfter, listSessionEvents. cbn. unfold limit. f_equal.
  assert (select_where (fun r0 => eventOf (s_workspaceId r) (s_id r) r0 && (after <? e_sequence r0) && true)
            (db_events d) = drop (Z.to_nat after) (session_log d r)) as ->.
  { replace (Z.to_nat after) with (Z.to_nat (after - 0)) by (f_equal; lia).
    rewrite <- (sequences_drop _ 0) by done.
    unfold session_log, select_where. generalize (db_events d) as l. clear.
    induction l as [|x l IH]; cbn; [done|].
    destruct (eventOf _ _ x); cbn; [destruct (after <? e_sequence x); cbn|]; by rewrite ?IH. }
  rewrite sort_by_id by by eapply sorted_drop, contiguous_sorted.
  f_equal. destruct (Z.max_spec 0 lim) as [[? ->]|[? ->]]; [done|].
  by replace (Z.to_nat lim) with 0%nat by lia.
Qed.

Section implementation.
Context (d : Db) (Hok : log_ok d) (r : SessionRow) (Hr : r ∈ db_sessions d).

(** The table keeps the promise the streaming layers rely on. *)
Definition sessionLog : DurableLog.
Proof.
  refine {|
    log_events := List.map mapEvent (session_log d r);
    log_page := fun after lim => listSessionEventsAfter (s_workspaceId r) (s_id r) after lim d
  |}.
  - rewrite List.map_map. apply (ok_log d Hok r Hr).
  - intros after lim Ha. rewrite session_page by done.
    by rewrite skipn_map, firstn_map.
Defined.
End implementation.

(** What a batch append does to the log of every session: its own grows by the
    inserted rows, the others are untouched. *)
Lemma batch_log d d1 rows now ws id row inputs :
  log_ok d -> List.find (inSession ws id) (db_sessions d) = Some row ->
  insertEvents (eventValues row (s_lastSequence row) now inputs) d = Ok (rows, d1) ->
  forall r ss, r ∈ db_sessions d ->
    session_log (d1 <| db_sessions := ss |>) r =
    session_log d r ++ (if bool_decide (s_id r = id) then rows else []).
Proof.
  intros Hok Hfind Hins r ss Hr. apply insertEvents_spec in Hins as (Hrows & Hev & _ & _).
  destruct (eventValues_spec row (s_lastSequence row) now inputs (db_fresh d)) as (_ & _ & Hin).
  rewrite <- Hrows in Hin. apply find_some in Hfind as [Hrow Hp]. apply inSession_true in Hp as [<- <-].
  apply list_elem_of_In in Hrow. unfold session_log, select_where. cbn. rewrite Hev, List.filter_app. f_equal.
  case_bool_decide as E.
  - assert (r = row) as -> by (eapply (select_unique s_id); [apply Hok|..]; done).
    apply filter_all. eapply Forall_impl; [exact Hin|]. intros e He. by apply eventOf_true.
  - apply filter_none. eapply Forall_impl; [exact Hin|]. intros e [Hw Hi]. apply not_true_iff_false.
    rewrite eventOf_true. intros [_ Hi']. apply E. congruence.
Qed.

Lemma appendSessionEvents_Ok now ws id inputs d evs d' :
  appendSessionEvents now ws id inputs d = Ok (evs, d') ->
  inputs = [] /\ evs = [] /\ d' = d \/
  exists row rows d1 f,
    List.find (inSession ws id) (db_sessions d) = Some row /\
    insertEvents (eventValues row (s_lastSequence row) now inputs) d = Ok (rows, d1) /\
    evs = List.map mapEvent rows /\
    d' = d1 <| db_sessions := update_where (inSession ws id) f (db_sessions d1) |> /\
    (forall r, s_id (f r) = s_id r /\ s_workspaceId (f r) = s_workspaceId r).
Proof.
  unfold appendSessionEvents. destruct inputs as [|i ins]; [intros [= <- <-]; by left|].
  destruct (List.find _ _) as [row|]; [|done]. destruct (insertEvents _ d) as [[rows d1]|] eqn:Hi; [|done].
  intros [= <- <-]. right. eexists row, rows, d1, _. split_and!; [done..|]. done.
Qed.

(** (C11) [appendSessionEvents] against the abstract log: a reader of the session
    sees, page by page, the old log followed by exactly the events the call
    returned, numbered on from [last_sequence]; readers of every other session
    see what they saw before. *)
Theorem append_refines_log d d' now r inputs evs :
  log_ok d -> r ∈ db_sessions d ->
  appendSessionEvents now (s_workspaceId r) (s_id r) inputs d = Ok (evs, d') ->
  List.map ev_sequence evs = seqZ (s_lastSequence r + 1) (Z.of_nat (length inputs)) /\
  forall r' after lim, r' ∈ db_sessions d -> 0 <= after ->
    listSessionEventsAfter (s_workspaceId r') (s_id r') after lim d' =
    take (Z.to_nat lim) (drop (Z.to_nat after)
      (List.map mapEvent (session_log d r') ++ if bool_decide (s_id r' = s_id r) then evs else [])).
Proof.
  intros Hok Hr Happ. pose proof (appendSessionEvents_log_ok _ _ _ _ _ _ _ Hok Happ) as Hok'.
  apply appendSessionEvents_Ok in Happ as [(-> & -> & ->)|(row & rows & d1 & f & Hf & Hi & -> & -> & Hfr)].
  { split; [done|]. intros r' after lim Hr' Ha.
    rewrite session_page, <- firstn_map, <- skipn_map by done.
    by destruct (bool_decide _); rewrite app_nil_r. }
  assert (row = r) as ->.
  { apply find_some in Hf as [Hrow Hp]. apply inSession_true in Hp as [_ Hp]. apply list_elem_of_In in Hrow.
    eapply (select_unique s_id); [apply Hok|..]; done. }
  split.
  - apply insertEvents_spec in Hi as (Hrows & _).
    destruct (eventValues_spec r (s_lastSequence r) now inputs (db_fresh d)) as (_ & Hs & _).
    rewrite <- Hrows in Hs. by rewrite List.map_map.
  - intros r' after lim Hr' Ha. set (d' := setWith _ _ d1) in *.
    assert (Hs1 : db_sessions d1 = db_sessions d) by (by apply insertEvents_spec in Hi as (_ & _ & ? & _)).
    set (r2 := if inSession (s_workspaceId r) (s_id r) r' then f r' else r').
    assert (s_workspaceId r2 = s_workspaceId r' /\ s_id r2 = s_id r') as [Hw Hid].
    { unfold r2. destruct (inSession _ _ _); [|done]. by destruct (Hfr r'). }
    assert (Hr2 : r2 ∈ db_sessions d').
    { unfold d'. cbn. rewrite Hs1. apply elem_of_update_where. by exists r'. }
    rewrite <- Hw, <- Hid, session_page by done.
    assert (session_log d' r2 = session_log d' r') as -> by (unfold session_log; by rewrite Hw, Hid).
    unfold d'. rewrite (batch_log d d1 rows now _ _ _ _ Hok Hf Hi r' _ Hr').
    rewrite <- firstn_map, <- skipn_map, map_app, Hid. by destruct (bool_decide _).
Qed.

(** ** A concrete database *)

Definition exampleSession (id : string) : SessionRow := {|
  s_id := id; s_accountId := "a"; s_workspaceId := "w"; s_status := S_idle; s_initialMessage := [];
  s_resources := JArr []; s_tools := JArr []; s_metadata := JObj []; s_model := "m"; s_sandboxBackend := "none";
  s_sandboxGroupId := "g"; s_temporalWorkflowId := None; s_activeTurnId := None; s_parentSessionId := None; s_lastSequence := 0;
  s_createdAt := 0; s_updatedAt := 0 |}.

Definition exampleInput (type : string) : AppendEventInput := {|
  in_type := type; in_payload := None; in_clientEventId := None; in_turnId := None; in_producerId := None;
  in_producerSeq := None; in_occurredAt := None |}.

Definition exampleDb : Db := {|
  db_sessions := [exampleSession "s1"; exampleSession "s2"]; db_events := []; db_turns := []; db_goals := [];
  db_fresh := 0 |}.

Lemma exampleDb_ok : log_ok exampleDb.
Proof.
  split; [by apply (bool_decide_unpack _); vm_compute|].
  intros r Hr. cbn in Hr. rewrite !elem_of_cons in Hr.
  destruct Hr as [->|[->|Hr]]; [done|done|by apply elem_of_nil in Hr].
Qed.

Definition exampleInputs := [exampleInput "user.message"; exampleInput "session.idle"].
Definition exampleAppended : list SessionEvent * Db :=
  match appendSessionEvents 5 "w" "s1" exampleInputs exampleDb with Ok r => r | Err _ => ([], exampleDb) end.

Lemma append_refines_log_witness :
  listSessionEventsAfter "w" "s1" 0 10 exampleAppended.2 = exampleAppended.1 /\
  List.map ev_sequence exampleAppended.1 = [1; 2].
Proof.
  destruct (append_refines_log exampleDb exampleAppended.2 5 (exampleSession "s1") exampleInputs exampleAppended.1)
    as [H1 H2]; [apply exampleDb_ok|left|by vm_compute|].
  split; [|by rewrite H1].
  etransitivity; [apply (H2 (exampleSession "s1") 0 10); [left|done]|by vm_compute].
Defined.

Lemma append_preserves_log_witness : log_ok exampleAppended.2.
Proof.
  apply (append_preserves_log exampleDb); [apply exampleDb_ok|]. apply rtc_once.
  apply (step_append _ _ 5 "w" "s1" exampleInputs exampleAppended.1). by vm_compute.
Defined.
End EventLog.
