(* ===== verification/EventStream.v ===== *)
(** * The client's event stream ([packages/sdk/src/stream.ts])

    [streamSessionEvents] turns a flaky transport into the session's events,
    each exactly once and in order.  The generator is a function from a script
    of the outside world (the [Transport]: what every [openStream] and
    [listEvents] call answers, and what every read of [signal.aborted] sees) to
    the trace of what it does: states reported, events yielded, sleeps. *)
From S2P Require Import Prelude Json JsonParse Schema Sse EventLog.

Module EventStream.
Import Sse.

(** ** Errors ([packages/sdk/src/errors.ts]) *)

Inductive StreamFailure :=
| BackfillStalled (from to : Z)
| BackfillMissing (wanted got : Z)
| GaveUp (attempts : Z).

Inductive StreamError :=
| OpenGeniApiError (status : Z)
| OpenGeniStreamError (why : StreamFailure)
| TypeError
| AbortError
| OtherError.

Definition isAbortError (error : StreamError) : bool :=
  match error with AbortError => true | _ => false end.

Definition isRetryableStreamError (error : StreamError) : bool :=
  match error with
  | OpenGeniApiError status =>
      (status =? 408) || (status =? 409) || (status =? 425) || (status =? 429) || (500 <=? status)
  | TypeError => true
  | _ => false
  end.

(** ** Parsing a message *)

(** A received event: the JSON object and the sequence it carries. *)
Record WireEvent := { we_sequence : Z; we_json : json }.

Section parse.
Definition parseSessionEvent (data : text) : option WireEvent :=
  match JSON_parse data with
  | None => None
  | Some parsed =>
      if isObject (Some parsed) then
        match asNumber (prop (js "sequence") parsed), asString (prop (js "type") parsed),
              asString (prop (js "id") parsed) with
        | Some sequence, Some _, Some _ => Some {| we_sequence := sequence; we_json := parsed |}
        | _, _, _ => None
        end
      else None
  end.
End parse.

(** ** The generator *)

Record Transport := {
  openStream : nat -> Z -> result StreamError (list text * option StreamError);
  listEvents : nat -> Z -> Z -> result StreamError (list WireEvent);
  aborted : nat -> bool
}.

Record StreamSessionEventsOptions := {
  after : option Z;
  reconnect : option bool;
  reconnectDelayMs : option Z;
  maxReconnectDelayMs : option Z;
  maxReconnectAttempts : option Z
}.

Inductive StreamConnectionState := connecting | live | reconnecting.

Inductive Output :=
| OState (s : StreamConnectionState)
| OEvent (e : WireEvent)
| OSleep (ms : Z).

(** Local variables, the trace, and how often each outside question was asked. *)
Record St := {
  cursor : Z;
  failedAttempts : Z;
  delayMs : Z;
  everConnected : bool;
  opens : nat;
  lists : nat;
  reads : nat;
  out : list Output
}.
#[export] Instance etaSt : Settable St := fun s =>
  Build_St (cursor s) (failedAttempts s) (delayMs s) (everConnected s) (opens s) (lists s) (reads s) (out s).

(** How a piece of the generator's body ends: with a value, by [return], or by
    throwing. *)
Inductive outcome (A : Type) :=
| Val (a : A)
| Return
| Throw (e : StreamError).
Arguments Val {A} a.
Arguments Return {A}.
Arguments Throw {A} e.

Definition M (A : Type) : Type := St -> outcome A * St.
Definition ret {A} (a : A) : M A := fun s => (Val a, s).
Definition bind {A B} (m : M A) (k : A -> M B) : M B := fun s =>
  match m s with
  | (Val a, s) => k a s
  | (Return, s) => (Return, s)
  | (Throw e, s) => (Throw e, s)
  end.
Definition return_ {A} : M A := fun s => (Return, s).
Definition throw {A} (e : StreamError) : M A := fun s => (Throw e, s).
Definition gets {A} (f : St -> A) : M A := fun s => (Val (f s), s).
Definition modify (f : St -> St) : M unit := fun s => (Val tt, f s).
Definition catch {A} (m : M A) (h : StreamError -> M A) : M A := fun s =>
  match m s with
  | (Throw e, s) => h e s
  | r => r
  end.

Declare Scope stream_scope.
Delimit Scope stream_scope with stream.
Notation "x <- m ;; k" := (bind m (fun x => k)) (at level 100, m at next level, right associativity) : stream_scope.
Notation "m ;; k" := (bind m (fun _ => k)) (at level 100, right associativity) : stream_scope.

Section stream.
Context (transport : Transport) (options : StreamSessionEventsOptions).
Local Open Scope stream_scope.

Definition o_reconnect : bool := default true (reconnect options).
Definition baseDelayMs : Z := default 500 (reconnectDelayMs options).
Definition maxDelayMs : Z := default 10000 (maxReconnectDelayMs options).
(** [None] is [Number.POSITIVE_INFINITY]. *)
Definition maxAttempts : option Z := maxReconnectAttempts options.

Definition emit (o : Output) : M unit := modify (fun s => s <| out ::= fun l => l ++ [o] |>).
Definition signalAborted : M bool := fun s => (Val (aborted transport (reads s)), s <| reads ::= S |>).
Definition setCursor (c : Z) : M unit := modify (fun s => s <| cursor := c |>).

Definition lift {A} (r : result StreamError A) : M A :=
  match r with Ok a => ret a | Err e => throw e end.
Definition callOpen (after : Z) : M (list text * option StreamError) := fun s =>
  lift (openStream transport (opens s) after) (s <| opens ::= S |>).
Definition callList (after limit : Z) : M (list WireEvent) := fun s =>
  lift (listEvents transport (lists s) after limit) (s <| lists ::= S |>).

Definition sleep (ms : Z) : M unit :=
  a <- signalAborted ;;
  if a || (ms <=? 0) then ret tt else emit (OSleep ms).

(** One page of [backfillEvents], interleaved with its consumer: the page's
    events must be exactly [cursor + 1], [cursor + 2], ...; each is delivered
    and the abort signal is read after each. *)
Fixpoint deliverPage (bcursor : Z) (advancing : list WireEvent) : M Z :=
  match advancing with
  | [] => ret bcursor
  | missed :: advancing =>
      if negb (we_sequence missed =? bcursor + 1) then
        throw (OpenGeniStreamError (BackfillMissing (bcursor + 1) (we_sequence missed)))
      else
        setCursor (we_sequence missed) ;;
        emit (OEvent missed) ;;
        a <- signalAborted ;;
        if a then return_ else deliverPage (we_sequence missed) advancing
  end.

(** [backfillEvents]: every pass of the loop advances or ends it, so
    [toInclusive - fromExclusive] passes are enough. *)
Fixpoint backfillEvents (fuel : nat) (bcursor toInclusive : Z) : M unit :=
  if bcursor <? toInclusive then
    match fuel with
    | O => throw OtherError
    | S fuel =>
        page <- callList bcursor (Z.min 500 (toInclusive - bcursor)) ;;
        let advancing := sort_by we_sequence
          (List.filter (fun e => (bcursor <? we_sequence e) && (we_sequence e <=? toInclusive)) page) in
        match advancing with
        | [] => throw (OpenGeniStreamError (BackfillStalled (bcursor + 1) toInclusive))
        | _ => bcursor <- deliverPage bcursor advancing ;;
               backfillEvents fuel bcursor toInclusive
        end
    end
  else ret tt.

Definition backfill (fromExclusive toInclusive : Z) : M unit :=
  backfillEvents (Z.to_nat (toInclusive - fromExclusive)) fromExclusive toInclusive.

Definition handleMessage (message : SseMessage) : M unit :=
  a <- signalAborted ;;
  if a then return_
  else
    c <- gets cursor ;;
    match parseSessionEvent (msg_data message) with
    | None => ret tt
    | Some event =>
        if we_sequence event <=? c then ret tt
        else
          (if c + 1 <? we_sequence event then backfill c (we_sequence event - 1) else ret tt) ;;
          setCursor (we_sequence event) ;;
          emit (OEvent event)
    end.

Fixpoint consume (messages : list SseMessage) : M unit :=
  match messages with
  | [] => ret tt
  | m :: messages => handleMessage m ;; consume messages
  end.

(** The [try] block: open, consume until the connection ends, then decide
    between leaving, pacing an empty close, and reconnecting at once. *)
Definition connection (cursorAtOpen : Z) : M unit :=
  body <- callOpen cursorAtOpen ;;
  modify (fun s => s <| everConnected := true |> <| failedAttempts := 0 |> <| delayMs := baseDelayMs |>) ;;
  emit (OState live) ;;
  consume (parseSseStream body.1) ;;
  match body.2 with
  | Some e => throw e
  | None =>
      if negb o_reconnect then return_
      else
        c <- gets cursor ;;
        if c =? cursorAtOpen then sleep baseDelayMs else ret tt
  end.

(** The [catch] block and the backoff after it. *)
Definition onError (error : StreamError) : M unit :=
  a <- signalAborted ;;
  if a || isAbortError error then return_
  else if negb o_reconnect || negb (isRetryableStreamError error) then throw error
  else
    modify (fun s => s <| failedAttempts ::= Z.succ |>) ;;
    f <- gets failedAttempts ;;
    if match maxAttempts with Some m => m <? f | None => false end then
      throw (OpenGeniStreamError (GaveUp (default 0 maxAttempts)))
    else
      d <- gets delayMs ;;
      sleep d ;;
      modify (fun s => s <| delayMs := Z.min (Z.max (delayMs s * 2) baseDelayMs) maxDelayMs |>).

Definition iteration : M unit :=
  s <- gets (fun s => everConnected s || (0 <? failedAttempts s)) ;;
  emit (OState (if s then reconnecting else connecting)) ;;
  cursorAtOpen <- gets cursor ;;
  catch (connection cursorAtOpen) onError.

Inductive status := Running | Done | Failed (e : StreamError).

(** [while (!signal?.aborted)], observed for [fuel] iterations. *)
Fixpoint loop (fuel : nat) (s : St) : status * St :=
  match fuel with
  | O => (Running, s)
  | S fuel =>
      match signalAborted s with
      | (Val false, s) =>
          match iteration s with
          | (Val tt, s) => loop fuel s
          | (Return, s) => (Done, s)
          | (Throw e, s) => (Failed e, s)
          end
      | (_, s) => (Done, s)
      end
  end.

Definition init : St := {|
  cursor := default 0 (after options); failedAttempts := 0; delayMs := baseDelayMs; everConnected := false;
  opens := 0; lists := 0; reads := 0; out := [] |}.

Definition streamSessionEvents (fuel : nat) : status * St := loop fuel init.
End stream.

Definition delivered (s : St) : list WireEvent :=
  omap (fun o => match o with OEvent e => Some e | _ => None end) (out s).

Definition sleeps (s : St) : list Z :=
  omap (fun o => match o with OSleep d => Some d | _ => None end) (out s).

(** ** The delivery invariant *)

Section invariant.
Context (transport : Transport) (options : StreamSessionEventsOptions).
(** [a]: the resume point.  [P]: what is known of every event the transport
    hands out. *)
Context (a : Z) (P : WireEvent -> Prop).
(** [E]: the errors that may end the stream. *)
Context (E : StreamError -> Prop).

Record inv (s : St) : Prop := {
  inv_seq : contiguous a (List.map we_sequence (delivered s));
  inv_cursor : cursor s = a + Z.of_nat (length (delivered s));
  inv_P : Forall P (delivered s)
}.

Lemma inv_eq s s' : delivered s' = delivered s -> cursor s' = cursor s -> inv s -> inv s'.
Proof. intros Hd Hc [H1 H2 H3]. split; by rewrite ?Hd, ?Hc. Qed.

Lemma delivered_emit o s :
  delivered (s <| out ::= fun l => l ++ [o] |>) =
  delivered s ++ match o with OEvent e => [e] | _ => [] end.
Proof. unfold delivered. cbn. rewrite omap_app. by destruct o. Qed.

Lemma inv_emit o s :
  match o with OEvent _ => False | _ => True end -> inv s -> inv (s <| out ::= fun l => l ++ [o] |>).
Proof. intros Ho. apply inv_eq; [|done]. rewrite delivered_emit. destruct o; try done; apply app_nil_r. Qed.

Lemma inv_deliver e s :
  inv s -> we_sequence e = cursor s + 1 -> P e ->
  inv (s <| cursor := we_sequence e |> <| out ::= fun l => l ++ [OEvent e] |>).
Proof.
  intros [H1 H2 H3] He HP.
  split; change (s <| cursor := we_sequence e |> <| out ::= fun l => l ++ [OEvent e] |>)
    with ((s <| cursor := we_sequence e |>) <| out ::= fun l => l ++ [OEvent e] |>);
    rewrite ?delivered_emit; change (delivered (s <| cursor := we_sequence e |>)) with (delivered s).
  - rewrite map_app. cbn [List.map]. rewrite He, H2.
    replace (length (delivered s)) with (length (List.map we_sequence (delivered s))) by apply length_map.
    by apply contiguous_snoc.
  - cbn. rewrite length_app. cbn. lia.
  - apply Forall_app. split; [done|]. by constructor.
Qed.


(** The contract of a piece of the generator: run from a state [s] with the
    invariant, it keeps the invariant, never moves the cursor back, ends in
    [Q] when it ends normally, and throws only errors in [E]. *)
Definition triple {A} (m : M A) (s : St) (Q : A -> St -> Prop) : Prop :=
  inv s ->
  let r := m s in
  inv r.2 /\ cursor s <= cursor r.2 /\
  match r.1 with Val x => Q x r.2 | Return => True | Throw e => E e end.

Lemma triple_bind {A B} (m : M A) (k : A -> M B) s (R : A -> St -> Prop) Q :
  triple m s R -> (forall x s', cursor s <= cursor s' -> R x s' -> triple (k x) s' Q) -> triple (bind m k) s Q.
Proof.
  intros Hm Hk Hs. unfold bind. destruct (Hm Hs) as (H1 & H2 & H3).
  destruct (m s) as [[x| |e] s']; cbn in *; try done.
  destruct (Hk x s' H2 H3 H1) as (H4 & H5 & H6). split_and!; [done|lia|done].
Qed.

Lemma triple_weaken {A} (m : M A) s (R Q : A -> St -> Prop) :
  triple m s R -> (forall x s', cursor s <= cursor s' -> R x s' -> Q x s') -> triple m s Q.
Proof.
  intros Hm Hk Hs. destruct (Hm Hs) as (H1 & H2 & H3). split_and!; [done..|].
  destruct (m s).1; eauto.
Qed.

Lemma triple_catch {A} (m : M A) h s (Q : A -> St -> Prop) :
  triple m s Q -> (forall e s', cursor s <= cursor s' -> E e -> triple (h e) s' Q) -> triple (catch m h) s Q.
Proof.
  intros Hm Hh Hs. unfold catch. destruct (Hm Hs) as (H1 & H2 & H3).
  destruct (m s) as [[x| |e] s']; cbn in *; try done.
  destruct (Hh e s' H2 H3 H1) as (H4 & H5 & H6). split_and!; [done|lia|done].
Qed.

Lemma triple_ret {A} (x : A) s (Q : A -> St -> Prop) : Q x s -> triple (ret x) s Q.
Proof. intros HQ Hs. cbn. split_and!; [done|lia|done]. Qed.
Lemma triple_return {A} s (Q : A -> St -> Prop) : triple return_ s Q.
Proof. intros Hs. cbn. split_and!; [done|lia|done]. Qed.
Lemma triple_throw {A} e s (Q : A -> St -> Prop) : E e -> triple (throw e) s Q.
Proof. intros He Hs. cbn. split_and!; [done|lia|done]. Qed.
Lemma triple_gets {A} (f : St -> A) s : triple (gets f) s (fun x s' => x = f s /\ s' = s).
Proof. intros Hs. cbn. split_and!; [done|lia|done..]. Qed.
Lemma triple_modify f s :
  delivered (f s) = delivered s -> cursor (f s) = cursor s ->
  triple (modify f) s (fun _ s' => cursor s' = cursor s).
Proof. intros Hd Hc Hs. cbn. split_and!; [by apply (inv_eq s)|lia|done]. Qed.
Lemma triple_emit o s :
  match o with OEvent _ => False | _ => True end ->
  triple (emit o) s (fun _ s' => cursor s' = cursor s).
Proof. intros Ho Hs. cbn -[setWith]. split_and!; [by apply inv_emit|cbn; lia|done]. Qed.
Lemma triple_aborted s :
  triple (signalAborted transport) s (fun _ s' => cursor s' = cursor s).
Proof. intros Hs. cbn. split_and!; [by apply (inv_eq s)|lia|done]. Qed.
Lemma triple_deliver e s :
  we_sequence e = cursor s + 1 -> P e ->
  triple (bind (setCursor (we_sequence e)) (fun _ => emit (OEvent e))) s (fun _ s' => cursor s' = we_sequence e).
Proof.
  intros He HP Hs. assert (Hd := inv_deliver e s Hs He HP). cbn in *.
  split_and!; [done|lia|done].
Qed.

Lemma triple_deliver_then {A} e (k : unit -> M A) s Q :
  we_sequence e = cursor s + 1 -> P e ->
  (forall s', cursor s' = we_sequence e -> triple (k tt) s' Q) ->
  triple (bind (setCursor (we_sequence e)) (fun _ => bind (emit (OEvent e)) k)) s Q.
Proof.
  intros He HP Hk Hs. assert (Hd := triple_deliver e s He HP Hs). cbn -[setWith] in Hd |- *.
  destruct Hd as (H1 & H2 & H3). destruct (Hk _ H3 H1) as (H4 & H5 & H6).
  split_and!; [done|lia|done].
Qed.

Lemma triple_sleep ms s : triple (sleep transport ms) s (fun _ s' => cursor s' = cursor s).
Proof.
  eapply triple_bind; [apply triple_aborted|]. intros b s' _ Hc.
  destruct (b || _); [by apply triple_ret|].
  eapply triple_weaken; [by apply triple_emit|]. cbn. intros _ s2 _ ->. done.
Qed.

Lemma bind_assoc {A B C} (m : M A) (k : A -> M B) (h : B -> M C) s :
  bind (bind m k) h s = bind m (fun x => bind (k x) h) s.
Proof. unfold bind. by destruct (m s) as [[]?]. Qed.

Lemma deliverPage_triple adv b s :
  cursor s = b -> Forall P adv ->
  (forall w g, E (OpenGeniStreamError (BackfillMissing w g))) \/
    contiguous b (List.map we_sequence adv) ->
  triple (deliverPage transport b adv) s
    (fun b' s' => cursor s' = b' /\ b' = b + Z.of_nat (length adv) /\ (b' = b \/ Exists (fun e => we_sequence e = b') adv)).
Proof.
  revert b s; induction adv as [|e adv IH]; intros b s Hb HP Hc; cbn [deliverPage].
  - apply triple_ret. cbn. split_and!; [done|lia|by left].
  - apply Forall_cons in HP as [HPe HPadv].
    assert (we_sequence e = b + 1 /\ ((forall w g, E (OpenGeniStreamError (BackfillMissing w g))) \/
              contiguous (b + 1) (List.map we_sequence adv)) \/
            we_sequence e <> b + 1 /\ forall w g, E (OpenGeniStreamError (BackfillMissing w g))) as [[He Hc']|[He HE]].
    { destruct Hc as [Hc|Hc]; [destruct (decide (we_sequence e = b + 1)); eauto|].
      left. unfold contiguous in *. cbn [List.map length] in Hc.
      rewrite Nat2Z.inj_succ, seqZ_cons in Hc by lia. injection Hc as H1 H2.
      split; [done|right]. rewrite H2 at 1. f_equal; lia. }
    2: { rewrite (proj2 (Z.eqb_neq _ _)) by done. by apply triple_throw. }
    rewrite (proj2 (Z.eqb_eq _ _)) by done. cbn [negb].
    apply triple_deliver_then; [lia|done|]. intros s1 Hs1.
    eapply triple_bind; [apply triple_aborted|]. intros ab s2 _ Hs2.
    destruct ab; [apply triple_return|].
    eapply triple_weaken; [apply IH; [lia|done|by rewrite He]|].
    cbn. intros b' s' _ (H1 & H2 & H3). split_and!; [done|lia|].
    right. destruct H3 as [->|H3]; [by left|by right].
Qed.

(** What the transport hands out. *)
Context (Hlist_err : forall i c lim e, listEvents transport i c lim = Err e -> E e).
Context (Hlist : forall i c lim page, a <= c -> listEvents transport i c lim = Ok page -> Forall P page).
Context (Hpage : (forall f, E (OpenGeniStreamError f)) \/
  (forall i c to lim page, a <= c -> c < to -> (exists e, P e /\ to < we_sequence e) -> lim = Z.min 500 (to - c) ->
     listEvents transport i c lim = Ok page ->
     let adv := sort_by we_sequence
          (List.filter (fun e => (c <? we_sequence e) && (we_sequence e <=? to)) page) in
     adv <> [] /\ contiguous c (List.map we_sequence adv))).
Context (Hopen_err : forall i c e, openStream transport i c = Err e -> E e).
Context (Hopen : forall i c body e, openStream transport i c = Ok (body, e) ->
  Forall (fun m => forall ev, parseSessionEvent (msg_data m) = Some ev -> P ev) (parseSseStream body) /\
  (forall x, e = Some x -> E x)).
Context (HgaveUp : forall m, maxReconnectAttempts options = Some m -> E (OpenGeniStreamError (GaveUp m))).

Lemma triple_callList c lim s :
  a <= c ->
  triple (callList transport c lim) s (fun page s' => cursor s' = cursor s /\
     exists i, listEvents transport i c lim = Ok page).
Proof.
  intros Hc Hs. unfold callList. destruct (listEvents transport (lists s) c lim) as [page|e] eqn:Hl; cbn.
  - split_and!; [by apply (inv_eq s)|lia|done|eauto].
  - split_and!; [by apply (inv_eq s)|lia|eauto].
Qed.

Lemma inv_cursor_ge s : inv s -> a <= cursor s.
Proof. intros []. lia. Qed.

Lemma triple_inv {A} (m : M A) s Q : (a <= cursor s -> triple m s Q) -> triple m s Q.
Proof. intros Hm Hs. apply Hm; [by apply inv_cursor_ge|done]. Qed.

Lemma backfill_triple fuel to s :
  (exists e, P e /\ to < we_sequence e) ->
  to - cursor s <= Z.of_nat fuel ->
  triple (backfillEvents transport fuel (cursor s) to) s (fun _ s' => cursor s' = Z.max (cursor s) to).
Proof.
  intros Hto. revert s; induction fuel as [|fuel IH]; intros s Hfuel; cbn [backfillEvents].
  { destruct (_ <? _) eqn:Hlt; breflect; [lia|]. apply triple_ret. lia. }
  destruct (_ <? _) eqn:Hlt; breflect; [|apply triple_ret; lia].
  apply triple_inv. intros Ha. eapply triple_bind; [by apply triple_callList|].
  intros page s1 _ [Hs1 [i Hi]]. set (adv := sort_by _ _).
  assert (HPadv : Forall P adv).
  { unfold adv. rewrite sort_by_perm, Forall_forall. intros e He.
    eapply Forall_forall; [by eapply (Hlist i)|]. apply list_elem_of_In in He. apply filter_In in He as [He _].
    by apply list_elem_of_In. }
  assert (Hle : Forall (fun e => we_sequence e <= to) adv).
  { unfold adv. rewrite sort_by_perm, Forall_forall. intros e He.
    apply list_elem_of_In, filter_In in He as [_ He]. breflect. done. }
  assert (Hadv : (forall f, E (OpenGeniStreamError f)) \/ (adv <> [] /\ contiguous (cursor s) (List.map we_sequence adv))).
  { destruct Hpage as [HE|HE]; [by left|]. right. by eapply HE. }
  clearbody adv. destruct adv as [|e0 adv'].
  { destruct Hadv as [HE|[]]; [by apply triple_throw|done]. }
  eapply triple_bind; [apply deliverPage_triple; [lia|done|naive_solver]|].
  intros b' s2 _ (H1 & H2 & H3). subst b'. cbn [length] in H2.
  eapply triple_weaken; [apply IH; lia|]. cbn. intros _ s' _ ->.
  assert (cursor s2 <= to); [|lia]. destruct H3 as [->|H3]; [lia|].
  apply Exists_exists in H3 as (e & He & <-). by eapply Forall_forall in Hle.
Qed.

(** A message can only move the cursor forward, and to its own event. *)
Lemma handleMessage_triple m s :
  (forall ev, parseSessionEvent (msg_data m) = Some ev -> P ev) ->
  triple (handleMessage transport m) s (fun _ s' =>
    forall ev, parseSessionEvent (msg_data m) = Some ev -> we_sequence ev <= cursor s').
Proof.
  intros HP. eapply triple_bind; [apply triple_aborted|]. intros ab s1 _ _.
  destruct ab; [apply triple_return|].
  eapply triple_bind; [apply triple_gets|]. cbn. intros c s2 _ [-> ->].
  destruct (parseSessionEvent _) as [ev|]; [|by apply triple_ret].
  destruct (_ <=? _) eqn:Hle; breflect.
  { apply triple_ret. by intros ? [= <-]. }
  eapply (triple_bind _ _ _ (fun _ s' => cursor s' = we_sequence ev - 1)).
  - destruct (_ <? _) eqn:Hgap; breflect; [|apply triple_ret; lia].
    eapply triple_weaken; [apply backfill_triple; [|lia]|cbn; lia].
    exists ev. split; [by apply HP|lia].
  - cbn. intros _ s3 _ Hs3. apply (triple_weaken _ _ (fun _ s' => cursor s' = we_sequence ev)).
    + apply triple_deliver; [lia|by apply HP].
    + intros _ s4 _ Hs4 ? [= <-]. lia.
Qed.

Lemma consume_triple messages s :
  Forall (fun m => forall ev, parseSessionEvent (msg_data m) = Some ev -> P ev) messages ->
  triple (consume transport messages) s (fun _ s' =>
    Forall (fun m => forall ev, parseSessionEvent (msg_data m) = Some ev -> we_sequence ev <= cursor s') messages).
Proof.
  revert s; induction messages as [|m messages IH]; intros s HP; cbn [consume]; [by apply triple_ret|].
  apply Forall_cons in HP as [HPm HP].
  eapply triple_bind; [by apply handleMessage_triple|]. cbn. intros _ s1 _ Hm.
  eapply triple_weaken; [by apply IH|]. cbn. intros _ s2 Hs Hrest. constructor; [|done].
  intros ev Hev. specialize (Hm ev Hev). lia.
Qed.

Lemma connection_triple c s :
  triple (connection transport options c) s (fun _ s' =>
    exists i body, openStream transport i c = Ok (body, None) /\
    Forall (fun m => forall ev, parseSessionEvent (msg_data m) = Some ev -> we_sequence ev <= cursor s')
      (parseSseStream body)).
Proof.
  unfold connection.
  eapply (triple_bind _ _ _ (fun b _ => exists i, openStream transport i c = Ok b)).
  { intros Hs. unfold callOpen. destruct (openStream transport (opens s) c) as [[b e]|e] eqn:Ho; cbn.
    - split_and!; [by apply (inv_eq s)|lia|eauto].
    - split_and!; [by apply (inv_eq s)|lia|eauto]. }
  intros [body e] s1 _ [i Ho]. destruct (Hopen i c body e Ho) as [HP He].
  eapply triple_bind; [by apply triple_modify|]. cbn. intros _ s2 _ _.
  eapply triple_bind; [by apply triple_emit|]. cbn. intros _ s3 _ _.
  eapply triple_bind; [by apply consume_triple|]. cbn. intros _ s4 _ Hc.
  destruct e as [x|]; [apply triple_throw; auto|].
  destruct (negb _); [apply triple_return|].
  eapply triple_bind; [apply triple_gets|]. cbn. intros ? s5 _ [-> ->].
  apply (triple_weaken _ _ (fun _ s' => cursor s' = cursor s4)).
  - destruct (_ =? _); [apply triple_sleep|by apply triple_ret].
  - intros _ s6 _ H6. exists i, body. split; [done|].
    eapply Forall_impl; [exact Hc|]. cbn. intros m Hm ev Hev. specialize (Hm ev Hev). lia.
Qed.

Lemma onError_triple e s : E e -> triple (onError transport options e) s (fun _ _ => True).
Proof.
  intros He. eapply triple_bind; [apply triple_aborted|]. intros ab s1 _ _.
  destruct (_ || _); [apply triple_return|].
  destruct (_ || _); [by apply triple_throw|].
  eapply triple_bind; [by apply triple_modify|]. intros _ s2 _ _.
  eapply triple_bind; [apply triple_gets|]. cbn. intros f s3 _ [-> ->].
  unfold maxAttempts. destruct (maxReconnectAttempts options) as [m|] eqn:Hm.
  - destruct (m <? _); [apply triple_throw; by apply HgaveUp|].
    eapply triple_bind; [apply triple_gets|]. cbn. intros d s4 _ [-> ->].
    eapply triple_bind; [apply triple_sleep|]. intros _ s5 _ _.
    eapply triple_weaken; [by apply triple_modify|done].
  - eapply triple_bind; [apply triple_gets|]. cbn. intros d s4 _ [-> ->].
    eapply triple_bind; [apply triple_sleep|]. intros _ s5 _ _.
    eapply triple_weaken; [by apply triple_modify|done].
Qed.

Lemma iteration_triple s : triple (iteration transport options) s (fun _ _ => True).
Proof.
  eapply triple_bind; [apply triple_gets|]. cbn. intros b s1 _ [-> ->].
  eapply triple_bind; [by apply triple_emit|]. cbn. intros _ s2 _ _.
  eapply triple_bind; [apply triple_gets|]. cbn. intros c s3 _ [-> ->].
  apply triple_catch.
  - eapply triple_weaken; [apply connection_triple|done].
  - intros e s4 _ He. by apply onError_triple.
Qed.

Lemma loop_inv fuel s : inv s ->
  let r := loop transport options fuel s in
  inv r.2 /\ match r.1 with Failed e => E e | _ => True end.
Proof.
  revert s; induction fuel as [|fuel IH]; intros s Hs; cbn [loop]; [done|].
  unfold signalAborted. set (s1 := s <| reads ::= S |>).
  assert (Hs1 : inv s1) by by apply (inv_eq s).
  destruct (aborted _ _); [done|].
  destruct (iteration_triple s1 Hs1) as (H1 & _ & H2).
  destruct (iteration transport options s1) as [[[]| |e] s2]; cbn in *; [by apply IH|done|done].
Qed.

End invariant.

Lemma init_inv options (P : WireEvent -> Prop) :
  inv (default 0 (after options)) P (init options).
Proof. split; cbn; [done|lia|by apply Forall_nil_2]. Qed.


(** Whatever the transport does (drop connections, replay, skip, reorder, answer
    pages wrongly), the events yielded carry exactly the sequences [after + 1],
    [after + 2], ...: no duplicate, no gap, in order - as long as the sequences of
    the frames are whole numbers, as the numbers of [Json] are.  The code takes any
    number: a frame of sequence 0.5 at cursor 0 would be yielded. *)
Theorem stream_contiguous transport options fuel :
  contiguous (default 0 (after options))
    (List.map we_sequence (delivered (streamSessionEvents transport options fuel).2)).
Proof.
  destruct (loop_inv transport options (default 0 (after options)) (fun _ => True) (fun _ => True))
    with (fuel := fuel) (s := init options) as [Hinv _]; try done; auto.
  - intros. by apply Forall_true.
  - intros. split; [by apply Forall_true|done].
  - by apply init_inv.
  - apply Hinv.
Qed.

(** ** The transport of a real server *)

(** Two digits and three digits, zero padded, and the calendar date of a day
    count (days since 1970-01-01): [Date.prototype.toISOString]. *)
Definition digits (n k : Z) : jstr :=
  List.map (fun i => 48 + (k / 10 ^ i) `mod` 10) (List.rev (seqZ 0 n)).
Definition civil (days : Z) : Z * Z * Z :=
  let z := days + 719468 in
  let era := z / 146097 in
  let doe := z - era * 146097 in
  let yoe := (doe - doe / 1460 + doe / 36524 - doe / 146096) / 365 in
  let doy := doe - (365 * yoe + yoe / 4 - yoe / 100) in
  let mp := (5 * doy + 2) / 153 in
  let m := if mp <? 10 then mp + 3 else mp - 9 in
  (yoe + era * 400 + (if m <=? 2 then 1 else 0), m, doy - (153 * mp + 2) / 5 + 1).
Definition toISOString (ms : Z) : jstr :=
  let '(y, m, d) := civil (ms / 86400000) in
  let t := ms `mod` 86400000 in
  digits 4 y ++ js "-" ++ digits 2 m ++ js "-" ++ digits 2 d ++ js "T" ++
  digits 2 (t / 3600000) ++ js ":" ++ digits 2 ((t / 60000) `mod` 60) ++ js ":" ++
  digits 2 ((t / 1000) `mod` 60) ++ js "." ++ digits 3 (t `mod` 1000) ++ js "Z".

Example toISOString_ex : toISOString 1709251199123 = js "2024-02-29T23:59:59.123Z".
Proof. reflexivity. Qed.

Definition orNull (s : option string) : json := match s with Some s => JStr (js s) | None => JNull end.

(** The object [mapEvent] returns, as it is stringified. *)
Definition eventJson (e : SessionEvent) : json := JObj [
  (js "id", JStr (js (ev_id e))); (js "workspaceId", JStr (js (ev_workspaceId e)));
  (js "sessionId", JStr (js (ev_sessionId e))); (js "sequence", JNum (ev_sequence e));
  (js "type", JStr (js (ev_type e))); (js "payload", ev_payload e);
  (js "occurredAt", JStr (toISOString (ev_occurredAt e)));
  (js "clientEventId", orNull (ev_clientEventId e)); (js "turnId", orNull (ev_turnId e))].

Definition wireEvent (e : SessionEvent) : WireEvent :=
  {| we_sequence := ev_sequence e; we_json := eventJson e |}.

(** [formatSse(event)]: its three interpolated values. *)
Definition wireItem (e : SessionEvent) : wire_item :=
  WireEventItem (ev_sequence e, js (ev_type e), JSON_stringify (eventJson e)).

Lemma units_pretty_digits n k : units (digits n k).
Proof. apply Forall_fmap, Forall_forall. intros i _. cbn. pose proof (Z.mod_pos_bound (k / 10 ^ i) 10). lia. Qed.

Lemma units_toISOString ms : units (toISOString ms).
Proof.
  unfold toISOString. destruct (civil _) as [[y m] d].
  repeat (apply Forall_app; split; [first [apply units_pretty_digits|apply units_js]|]). apply units_js.
Qed.

Lemma wellFormed_eventJson e : wellFormed (ev_payload e) -> wellFormed (eventJson e).
Proof.
  intros Hp. unfold eventJson. apply wellFormed_obj. split_and!; [by apply (bool_decide_unpack _); vm_compute| |].
  - cbn [List.map fst]. repeat (apply Forall_cons; split; [apply units_js|]). done.
  - assert (Hn : forall o, wellFormed (orNull o)) by (intros [s|]; [apply units_js|done]).
    repeat (apply Forall_cons; split; [cbn [snd]; first [exact I|apply Hn|apply units_js|apply units_toISOString|done]|]). done.
Qed.

Lemma stringify_one_line j : one_line (JSON_stringify j).
Proof. split; apply printable_not_elem; try apply printable_stringify; done. Qed.

(** A client reads back the event the server printed. *)
Lemma parse_wire e : wellFormed (ev_payload e) -> parseSessionEvent (JSON_stringify (eventJson e)) = Some (wireEvent e).
Proof. intros Hp. unfold parseSessionEvent. by rewrite parse_stringify by by apply wellFormed_eventJson. Qed.

(** What may end a stream from an honest server: its own or the network's
    errors, or giving up, never a gap found in the log. *)
Definition not_gap (e : StreamError) : Prop :=
  match e with
  | OpenGeniStreamError (BackfillStalled _ _) | OpenGeniStreamError (BackfillMissing _ _) => False
  | _ => True
  end.

(** A server over a durable log: pages are pages of the log, and every message
    of a connection that parses as an event is an event of the log. *)
Record honest `{DurableLog} (transport : Transport) : Prop := {
  honest_list : forall i after lim page,
    listEvents transport i after lim = Ok page -> page = List.map wireEvent (log_page after lim);
  honest_open : forall i after body err,
    openStream transport i after = Ok (body, err) ->
    Forall (fun m => forall ev, parseSessionEvent (msg_data m) = Some ev -> ev ∈ List.map wireEvent log_events)
      (parseSseStream body);
  honest_open_err : forall i after e, openStream transport i after = Err e -> not_gap e;
  honest_body_err : forall i after body e, openStream transport i after = Ok (body, Some e) -> not_gap e;
  honest_list_err : forall i after lim e, listEvents transport i after lim = Err e -> not_gap e
}.

Section honest.
Context {L : DurableLog} (transport : Transport) (options : StreamSessionEventsOptions).
Context (Hhonest : honest transport) (Hafter : 0 <= default 0 (after options)).

Definition wire_log : list WireEvent := List.map wireEvent log_events.

Lemma wire_log_lookup i e : wire_log !! i = Some e -> we_sequence e = Z.of_nat i + 1.
Proof.
  unfold wire_log. rewrite list_lookup_fmap. intros (ev & Hi & ->)%fmap_Some.
  cbn. pose proof (contiguous_lookup 0 _ i (ev_sequence ev) log_contiguous) as Hc.
  rewrite list_lookup_fmap, Hi in Hc. rewrite Hc by done. lia.
Qed.

Lemma wire_log_elem e : e ∈ wire_log -> 1 <= we_sequence e <= Z.of_nat (length wire_log) /\
  wire_log !! Z.to_nat (we_sequence e - 1) = Some e.
Proof.
  intros [i Hi]%list_elem_of_lookup. rewrite (wire_log_lookup i e Hi).
  apply lookup_lt_Some in Hi as Hlt. split; [lia|].
  by replace (Z.to_nat (Z.of_nat i + 1 - 1)) with i by lia.
Qed.

(** Contiguous events of the log are a segment of it. *)
Lemma segment c l :
  0 <= c -> contiguous c (List.map we_sequence l) -> Forall (.∈ wire_log) l ->
  l = take (length l) (drop (Z.to_nat c) wire_log).
Proof.
  intros Hc Hl HP. apply list_eq_same_length with (n := length l); [| |].
  - rewrite length_take, length_drop. destruct (last l) as [e|] eqn:He.
    + apply last_Some in He as [l' ->]. apply Forall_app in HP as [_ HP].
      apply Forall_cons in HP as [HP _]. apply wire_log_elem in HP as [HP _].
      assert (we_sequence e = c + 1 + Z.of_nat (length l')).
      { eapply contiguous_lookup; [exact Hl|]. rewrite map_app, lookup_app_r by by rewrite length_map.
        by rewrite length_map, Nat.sub_diag. }
      rewrite length_app. cbn. lia.
    + apply last_None in He as ->. cbn. lia.
  - done.
  - intros i x y Hi Hx Hy. rewrite lookup_take_lt, lookup_drop in Hy by done.
    apply wire_log_lookup in Hy as Hy'.
    assert (we_sequence x = c + 1 + Z.of_nat i) as Hsx.
    { eapply contiguous_lookup; [exact Hl|]. by rewrite list_lookup_fmap, Hx. }
    assert (x ∈ wire_log) as [_ Hx']%wire_log_elem
      by exact (proj1 (Forall_forall (.∈ wire_log) l) HP x (list_elem_of_lookup_2 _ _ _ Hx)).
    rewrite Hsx in Hx'.
    replace (Z.to_nat (c + 1 + Z.of_nat i - 1)) with (Z.to_nat c + i)%nat in Hx' by lia. congruence.
Qed.

(** The pages of an honest server always advance the backfill, without a
    hole. *)
Lemma honest_page c to :
  0 <= c -> c < to -> to <= Z.of_nat (length wire_log) ->
  let adv := sort_by we_sequence
    (List.filter (fun e => (c <? we_sequence e) && (we_sequence e <=? to))
       (List.map wireEvent (log_page c (Z.min 500 (to - c))))) in
  adv <> [] /\ contiguous c (List.map we_sequence adv).
Proof.
  intros Hc Hto Hlen. cbn zeta. rewrite log_page_spec, <- firstn_map, <- skipn_map by done.
  fold wire_log. set (page := take _ _).
  assert (Hpage : List.map we_sequence page = seqZ (c + 1) (Z.min 500 (to - c))).
  { apply list_eq. intros i. destruct (decide (i < Z.to_nat (Z.min 500 (to - c)))%nat) as [Hi|Hi].
    - destruct (lookup_lt_is_Some_2 wire_log (Z.to_nat c + i)) as [e He]; [lia|].
      unfold page. rewrite list_lookup_fmap, lookup_take_lt, lookup_drop, He by done. cbn.
      rewrite (wire_log_lookup _ _ He). symmetry. apply lookup_seqZ. lia.
    - rewrite lookup_ge_None_2, lookup_ge_None_2; [done|..].
      + rewrite length_seqZ. lia.
      + rewrite length_map. unfold page. rewrite length_take. lia. }
  assert (Hall : forall e, e ∈ page -> c < we_sequence e <= to).
  { intros e [i Hi]%list_elem_of_lookup.
    assert (List.map we_sequence page !! i = Some (we_sequence e)) as Hs by by rewrite list_lookup_fmap, Hi.
    rewrite Hpage in Hs. apply lookup_seqZ in Hs. lia. }
  rewrite filter_all.
  2: { apply Forall_forall. intros e He. specialize (Hall e He).
       apply andb_true_intro. rewrite Z.ltb_lt, Z.leb_le. lia. }
  rewrite sort_by_id.
  - split.
    + intros ->. cbn in Hpage. apply (f_equal length) in Hpage. rewrite length_seqZ in Hpage. cbn in Hpage. lia.
    + unfold contiguous. rewrite Hpage, length_seqZ. f_equal. lia.
  - apply (contiguous_sorted we_sequence c). unfold contiguous. rewrite Hpage, length_seqZ. f_equal. lia.
Qed.

(** The delivery invariant for an honest server, at any error set that
    contains the errors it really returns. *)
Section errors.
Context (E : StreamError -> Prop).
Context (Hopen_err : forall i c e, openStream transport i c = Err e -> E e).
Context (Hbody_err : forall i c body e, openStream transport i c = Ok (body, Some e) -> E e).
Context (Hlist_err : forall i c lim e, listEvents transport i c lim = Err e -> E e).

Lemma honest_connection_triple c s :
  triple (default 0 (after options)) (.∈ wire_log) E (connection transport options c) s (fun _ s' =>
    exists i body, openStream transport i c = Ok (body, None) /\
    Forall (fun m => forall ev, parseSessionEvent (msg_data m) = Some ev -> we_sequence ev <= cursor s')
      (parseSseStream body)).
Proof.
  destruct Hhonest as [Hl Ho _ _ _]. apply connection_triple; try done.
  - intros i d lim page Hd Hp. rewrite (Hl i d lim page Hp), log_page_spec by lia.
    rewrite <- firstn_map, <- skipn_map. by apply Forall_take, Forall_drop, Forall_forall.
  - right. intros i d to lim page Hd Hto (e & He & Hlt) -> Hp. rewrite (Hl _ _ _ _ Hp).
    apply wire_log_elem in He as [He _]. apply honest_page; lia.
  - intros i d body e Hb. split; [by eapply Ho|]. intros x ->. eauto.
Qed.

Lemma honest_loop_inv fuel :
  (forall m, E (OpenGeniStreamError (GaveUp m))) ->
  let r := streamSessionEvents transport options fuel in
  inv (default 0 (after options)) (.∈ wire_log) r.2 /\ match r.1 with Failed e => E e | _ => True end.
Proof.
  intros Hg. destruct Hhonest as [Hl Ho _ _ _]. apply loop_inv; try done.
  - intros i d lim page Hd Hp. rewrite (Hl i d lim page Hp), log_page_spec by lia.
    rewrite <- firstn_map, <- skipn_map. by apply Forall_take, Forall_drop, Forall_forall.
  - right. intros i d to lim page Hd Hto (e & He & Hlt) -> Hp. rewrite (Hl _ _ _ _ Hp).
    apply wire_log_elem in He as [He _]. apply honest_page; lia.
  - intros i d body e Hb. split; [by eapply Ho|]. intros x ->. eauto.
  - apply init_inv.
Qed.
End errors.
End honest.

(** (C2) Against a server over a durable log, however flaky the connections, the
    stream refines the log: what has been yielded is always a segment of it that
    starts right after the resume point, and the stream never dies because of a
    gap it could not fill. *)
Theorem stream_refines_log {L : DurableLog} transport options fuel :
  honest transport -> 0 <= default 0 (after options) ->
  let r := streamSessionEvents transport options fuel in
  (exists n, delivered r.2 = take n (drop (Z.to_nat (default 0 (after options))) wire_log)) /\
  match r.1 with Failed e => not_gap e | _ => True end.
Proof.
  intros Hh Ha r. destruct (honest_loop_inv transport options Hh Ha not_gap) with (fuel := fuel) as [[Hc _ HP] He];
    [apply Hh..|done|].
  split; [|done]. exists (length (delivered r.2)). by apply segment.
Qed.

(** ** Delivery *)

Section live.
Context {L : DurableLog} (transport : Transport) (options : StreamSessionEventsOptions).
Context (Haborted : forall i, aborted transport i = false).

Definition no_return {A} (m : M A) : Prop := forall s, (m s).1 <> Return.

Lemma no_return_bind {A B} (m : M A) (k : A -> M B) :
  no_return m -> (forall x, no_return (k x)) -> no_return (bind m k).
Proof.
  intros Hm Hk s. unfold bind. specialize (Hm s). destruct (m s) as [[x| |e] s']; cbn in *; [apply Hk|done..].
Qed.

Lemma no_return_aborted {A} (m : M A) : no_return m ->
  no_return (bind (signalAborted transport) (fun a => if a then return_ else m)).
Proof. intros Hm s. cbn. rewrite Haborted. apply Hm. Qed.

Lemma no_return_sleep ms : no_return (sleep transport ms).
Proof. apply no_return_bind; [done|]. intros b. by destruct (_ || _). Qed.

Lemma no_return_deliverPage b adv : no_return (deliverPage transport b adv).
Proof.
  revert b; induction adv as [|e adv IH]; intros b; cbn [deliverPage]; [done|].
  destruct (negb _); [done|]. do 2 (apply no_return_bind; [done|]; intros _).
  by apply no_return_aborted.
Qed.

Lemma no_return_lift {A} (r : result StreamError A) : no_return (lift r).
Proof. by destruct r. Qed.

Lemma no_return_backfill fuel b to : no_return (backfillEvents transport fuel b to).
Proof.
  revert b; induction fuel as [|fuel IH]; intros b; cbn [backfillEvents]; [by destruct (_ <? _)|].
  destruct (_ <? _); [|done]. apply no_return_bind; [intros s; apply no_return_lift|]. intros page.
  destruct (sort_by _ _); [done|]. apply no_return_bind; [apply no_return_deliverPage|]. auto.
Qed.

Lemma no_return_consume ms : no_return (consume transport ms).
Proof.
  induction ms as [|m ms IH]; cbn [consume]; [done|]. apply no_return_bind; [|done].
  apply no_return_aborted, no_return_bind; [done|]. intros c.
  destruct (parseSessionEvent _); [|done]. destruct (_ <=? _); [done|].
  apply no_return_bind; [|done]. destruct (_ <? _); [apply no_return_backfill|done].
Qed.

Lemma no_return_connection c : o_reconnect options = true -> no_return (connection transport options c).
Proof.
  intros Hr. apply no_return_bind; [intros s; apply no_return_lift|]. intros [body e].
  do 2 (apply no_return_bind; [done|]; intros _).
  apply no_return_bind; [apply no_return_consume|]. intros _. cbn [snd fst]. destruct e; [done|]. rewrite Hr. cbn [negb].
  apply no_return_bind; [done|]. intros d. destruct (_ =? _); [apply no_return_sleep|done].
Qed.

Context (Hhonest : honest transport) (Hafter : 0 <= default 0 (after options)).

(** One undisturbed iteration ends normally, with everything its connection
    carried behind the cursor. *)
Lemma iteration_delivers s :
  o_reconnect options = true ->
  (forall i c lim e, listEvents transport i c lim <> Err e) ->
  (forall i c e, openStream transport i c <> Err e /\ forall body, openStream transport i c <> Ok (body, Some e)) ->
  inv (default 0 (after options)) (.∈ wire_log) s ->
  exists s', iteration transport options s = (Val tt, s') /\
    inv (default 0 (after options)) (.∈ wire_log) s' /\
    exists i body, openStream transport i (cursor s) = Ok (body, None) /\
      Forall (fun m => forall ev, parseSessionEvent (msg_data m) = Some ev -> we_sequence ev <= cursor s')
        (parseSseStream body).
Proof.
  intros Hrec Hl Ho Hs. unfold iteration, bind, gets, catch. cbn [emit modify].
  set (s1 := setWith out _ s).
  assert (Hs1 : inv (default 0 (after options)) (.∈ wire_log) s1) by (apply inv_emit; [by destruct (_ || _)|done]).
  change (cursor s1) with (cursor s).
  destruct (honest_connection_triple transport options Hhonest Hafter (fun _ => False)) with (c := cursor s) (s := s1)
    as (H1 & H2 & H3); [naive_solver..|done|].
  pose proof (no_return_connection (cursor s) Hrec s1) as Hn.
  destruct (connection transport options (cursor s) s1) as [[[]| |e] s'] eqn:E; cbn in *; [|done..].
  exists s'. destruct H3 as (i & body & H3 & H4). eauto 10.
Qed.
End live.

(** Progress: while nothing fails and nobody aborts, one connection that
    replays the log after the cursor makes the stream yield all of it: the
    backfill terminates, and no event is held back. *)
Theorem stream_delivers_all {L : DurableLog} transport options :
  honest transport -> Forall (fun e => wellFormed (ev_payload e)) log_events ->
  0 <= default 0 (after options) <= Z.of_nat (length wire_log) ->
  o_reconnect options = true -> (forall i, aborted transport i = false) ->
  (forall i after lim e, listEvents transport i after lim <> Err e) ->
  (forall i after, exists chunks items,
     openStream transport i after = Ok (chunks, None) /\ concat chunks = concat (List.map item_text items) /\
     Forall item_one_line items /\
     forall e, e ∈ log_events -> after < ev_sequence e -> ev_sequence e = Z.of_nat (length log_events) -> wireItem e ∈ items) ->
  let r := streamSessionEvents transport options 1 in
  r.1 = Running /\ delivered r.2 = drop (Z.to_nat (default 0 (after options))) wire_log.
Proof.
  intros Hh Hwf [Ha Hlen] Hrec Hab Hlist Hopen.
  unfold streamSessionEvents. cbn [loop]. unfold signalAborted. rewrite Hab.
  set (s1 := (init options) <| reads ::= S |>).
  set (c := default 0 (after options)) in *.
  assert (Hs1 : inv c (.∈ wire_log) s1) by (by eapply inv_eq; [..|apply init_inv]).
  destruct (iteration_delivers transport options Hab Hh Ha s1 Hrec Hlist)
    as (s2 & Hi & Hs2 & i & body & Ho & Hb); [|done|].
  { intros i' c' e. destruct (Hopen i' c') as (? & ? & Ho & _). rewrite Ho. split; [done|naive_solver]. }
  fold c in Hs2. rewrite Hi. cbn. split; [done|].
  rewrite (segment c (delivered s2)) by (done || apply Hs2).
  apply take_ge. rewrite length_drop. destruct (decide (c = Z.of_nat (length wire_log))) as [Hc|Hc]; [lia|].
  destruct (Hopen i c) as (chunks & items & Ho' & Hcat & Hol & Hlast).
  change (cursor s1) with c in Ho. rewrite Ho' in Ho. injection Ho as <-.
  destruct (lookup_lt_is_Some_2 (A:=SessionEvent) log_events (length log_events - 1)) as [e He].
  { unfold wire_log in *. rewrite length_map in *. lia. }
  assert (Hseq : ev_sequence e = Z.of_nat (length log_events)).
  { pose proof (wire_log_lookup (length log_events - 1) (wireEvent e)) as Hw. cbn in Hw.
    rewrite Hw; [unfold wire_log in *; rewrite length_map in *; lia|].
    unfold wire_log. by rewrite list_lookup_fmap, He. }
  assert (Hin : wireItem e ∈ items).
  { apply Hlast; [by eapply list_elem_of_lookup_2|unfold wire_log in *; rewrite length_map in *; lia|done]. }
  rewrite (parse_items chunks items) in Hb by done.
  assert (we_sequence (wireEvent e) <= cursor s2) as Hcur.
  { rewrite Forall_forall in Hb. refine (Hb (event_message (ev_sequence e, js (ev_type e), JSON_stringify (eventJson e))) _ _ _).
    - apply list_elem_of_omap. exists (wireItem e). done.
    - apply parse_wire. rewrite Forall_forall in Hwf. apply Hwf. by eapply list_elem_of_lookup_2. }
  pose proof (inv_cursor _ _ _ Hs2) as Hcs. cbn in Hcur.
  unfold wire_log in *. rewrite length_map in *. lia.
Qed.

(** ** Reconnecting *)

Section backoff.
Context (transport : Transport) (options : StreamSessionEventsOptions).
Context (Haborted : forall i, aborted transport i = false) (Hrec : o_reconnect options = true).
Context (m : nat) (Hmax : maxReconnectAttempts options = Some (Z.of_nat m)).
Context (Hopen : forall i c, exists e, openStream transport i c = Err e /\ isRetryableStreamError e = true).
Context (Hdelay : 0 < baseDelayMs options <= maxDelayMs options).

Definition delay (k : nat) : Z := Z.min (baseDelayMs options * 2 ^ Z.of_nat k) (maxDelayMs options).

Lemma delay_pos k : baseDelayMs options <= delay k.
Proof. unfold delay. pose proof (Z.pow_pos_nonneg 2 (Z.of_nat k) ltac:(lia) ltac:(lia)). nia. Qed.

Lemma delay_succ k : Z.min (Z.max (delay k * 2) (baseDelayMs options)) (maxDelayMs options) = delay (S k).
Proof.
  pose proof (delay_pos k). unfold delay in *. rewrite Nat2Z.inj_succ, Z.pow_succ_r by lia. lia.
Qed.

(** One failed attempt below the limit: sleep, then double the delay. *)
Lemma failed_iteration s k :
  failedAttempts s = Z.of_nat k -> delayMs s = delay k -> (k < m)%nat ->
  exists s', iteration transport options s = (Val tt, s') /\
    failedAttempts s' = Z.of_nat (S k) /\ delayMs s' = delay (S k) /\ opens s' = S (opens s) /\
    sleeps s' = sleeps s ++ [delay k].
Proof.
  intros Hf Hd Hk. unfold iteration, bind, gets, catch, emit, modify, connection, onError, callOpen, bind, lift.
  cbn -[isAbortError]. destruct (Hopen (opens s) (cursor s)) as (e & -> & He).
  unfold throw, signalAborted, gets, modify, ret. cbn -[isAbortError]. rewrite Haborted, He, Hrec.
  replace (isAbortError e) with false by (by destruct e). cbn.
  unfold maxAttempts. rewrite Hmax, Hf.
  destruct (_ <? _) eqn:E; breflect; [lia|].
  unfold sleep, bind, signalAborted, emit, modify, ret. cbn. rewrite Haborted, Hd. cbn.
  pose proof (delay_pos k). rewrite (proj2 (Z.leb_gt _ _)) by lia. cbn.
  eexists. split; [done|]. cbn. rewrite ?Hd, delay_succ. split_and!; [lia|done|done|].
  unfold sleeps. cbn. rewrite !omap_app. cbn. by rewrite app_nil_r.
Qed.

(** The attempt past the limit gives up, without sleeping. *)
Lemma last_iteration s :
  failedAttempts s = Z.of_nat m ->
  exists s', iteration transport options s = (Throw (OpenGeniStreamError (GaveUp (Z.of_nat m))), s') /\
    opens s' = S (opens s) /\ sleeps s' = sleeps s.
Proof.
  intros Hf. unfold iteration, bind, gets, catch, emit, modify, connection, onError, callOpen, bind, lift.
  cbn -[isAbortError]. destruct (Hopen (opens s) (cursor s)) as (e & -> & He).
  unfold throw, signalAborted, gets, modify, ret. cbn -[isAbortError]. rewrite Haborted, He, Hrec.
  replace (isAbortError e) with false by (by destruct e). cbn.
  unfold maxAttempts. rewrite Hmax, Hf.
  destruct (_ <? _) eqn:E; breflect; [|lia].
  eexists. split; [done|]. cbn. split; [done|].
  unfold sleeps. cbn. rewrite !omap_app. cbn. by rewrite app_nil_r.
Qed.

Lemma loop_S fuel s :
  loop transport options (S fuel) s =
  match iteration transport options (s <| reads ::= S |>) with
  | (Val tt, s) => loop transport options fuel s
  | (Return, s) => (Done, s)
  | (Throw e, s) => (Failed e, s)
  end.
Proof. cbn [loop]. unfold signalAborted. by rewrite Haborted. Qed.

Lemma backoff_from s k :
  failedAttempts s = Z.of_nat k -> delayMs s = delay k -> (k <= m)%nat ->
  let r := loop transport options (S (m - k)) s in
  r.1 = Failed (OpenGeniStreamError (GaveUp (Z.of_nat m))) /\ opens r.2 = (opens s + S (m - k))%nat /\
  sleeps r.2 = sleeps s ++ List.map delay (seq k (m - k)).
Proof.
  remember (m - k)%nat as n eqn:Hn. revert s k Hn. induction n as [|n IH]; intros s k Hn Hf Hd Hk; cbn zeta;
    rewrite loop_S; set (s1 := s <| reads ::= S |>).
  - destruct (last_iteration s1) as (s2 & -> & Ho & Hs); [cbn; lia|]. cbn in *.
    split_and!; [done|cbn in *; lia|by rewrite app_nil_r].
  - destruct (failed_iteration s1 k) as (s2 & -> & Hf2 & Hd2 & Ho & Hs); [done..|lia|].
    destruct (IH s2 (S k)) as (H1 & H2 & H3); [lia|done..|lia|].
    split_and!; [done|rewrite H2, Ho; cbn; lia|]. rewrite H3, Hs. cbn. by rewrite <- app_assoc.
Qed.
End backoff.

(** A server that never answers is retried on an exponential schedule:
    delay [base * 2^k] capped at the maximum before attempt [k + 1], and after
    exactly [maxReconnectAttempts] reconnects the stream fails. *)
Theorem backoff_schedule transport options m :
  (forall i, aborted transport i = false) -> o_reconnect options = true ->
  maxReconnectAttempts options = Some (Z.of_nat m) ->
  (forall i c, exists e, openStream transport i c = Err e /\ isRetryableStreamError e = true) ->
  0 < baseDelayMs options <= maxDelayMs options ->
  let r := streamSessionEvents transport options (S m) in
  r.1 = Failed (OpenGeniStreamError (GaveUp (Z.of_nat m))) /\
  opens r.2 = S m /\
  sleeps r.2 = List.map (fun k => Z.min (baseDelayMs options * 2 ^ Z.of_nat k) (maxDelayMs options)) (seq 0 m).
Proof.
  intros Hab Hr Hm Ho Hd r.
  destruct (backoff_from transport options Hab Hr m Hm Ho Hd (init options) 0) as (H1 & H2 & H3);
    [done|unfold delay; cbn; lia|lia|].
  rewrite Nat.sub_0_r in *. done.
Qed.

(** ** A concrete server *)

Definition exampleEvent (n : Z) : SessionEvent := {|
  ev_id := "e"; ev_workspaceId := "w"; ev_sessionId := "s"; ev_sequence := n; ev_type := "agent.message";
  ev_payload := JObj []; ev_occurredAt := 0; ev_clientEventId := None; ev_turnId := None |}.

Definition exampleLog : DurableLog.
Proof.
  refine {|
    log_events := [exampleEvent 1; exampleEvent 2; exampleEvent 3];
    log_page := fun after lim => take (Z.to_nat lim) (drop (Z.to_nat after) [exampleEvent 1; exampleEvent 2; exampleEvent 3])
  |}; done.
Defined.

(** Every connection carries a comment and event 3 only: events 1 and 2 have to
    be backfilled. *)
Definition exampleTransport : Transport :=
  let _ := exampleLog in {|
  openStream := fun _ _ => Ok ([item_text (WireComment (js " hi")); item_text (wireItem (exampleEvent 3))], None);
  listEvents := fun _ after lim => Ok (List.map wireEvent (log_page after lim));
  aborted := fun _ => false |}.

Definition exampleOptions (m : option Z) : StreamSessionEventsOptions :=
  {| after := None; reconnect := None; reconnectDelayMs := None; maxReconnectDelayMs := None;
     maxReconnectAttempts := m |}.

Lemma example_items : Forall item_one_line [WireComment (js " hi"); wireItem (exampleEvent 3)].
Proof. repeat constructor; by apply (bool_decide_unpack _); vm_compute. Qed.

Lemma exampleTransport_honest : @honest exampleLog exampleTransport.
Proof.
  split; cbn -[parseSseStream]; try done.
  - naive_solver.
  - intros _ _ body err [= <- <-].
    rewrite (parse_items _ [WireComment (js " hi"); wireItem (exampleEvent 3)]); [|apply example_items|].
    2: { cbn [List.map concat]. done. }
    cbn [omap list_omap item_message wireItem]. constructor; [|constructor].
    intros ev. cbn [event_message msg_data]. rewrite parse_wire by apply wellFormed_nil. intros [= <-].
    right; right; left.
Qed.

Lemma stream_refines_log_witness :
  let r := streamSessionEvents exampleTransport (exampleOptions None) 2 in
  (exists n, delivered r.2 = take n (@wire_log exampleLog)) /\
  match r.1 with Failed e => not_gap e | _ => True end.
Proof.
  apply (@stream_refines_log exampleLog exampleTransport (exampleOptions None) 2);
    [apply exampleTransport_honest|cbn; lia].
Defined.

Lemma stream_delivers_all_witness :
  delivered (streamSessionEvents exampleTransport (exampleOptions None) 1).2 = @wire_log exampleLog.
Proof.
  apply (@stream_delivers_all exampleLog exampleTransport (exampleOptions None));
    [apply exampleTransport_honest|by repeat constructor|cbn; lia|done..|].
  intros i0 c0. exists [item_text (WireComment (js " hi")); item_text (wireItem (exampleEvent 3))],
    [WireComment (js " hi"); wireItem (exampleEvent 3)].
  split_and!; [done|done|apply example_items|].
  intros e He _ Hs. cbn in He. rewrite !elem_of_cons in He.
  destruct He as [->|[->|[->|He]]]; [done|done|right; left|by apply elem_of_nil in He].
Defined.

Lemma backoff_schedule_witness :
  let transport := {| openStream := fun _ _ => Err (OpenGeniApiError 503);
                      listEvents := fun _ _ _ => Ok []; aborted := fun _ => false |} in
  sleeps (streamSessionEvents transport (exampleOptions (Some 6)) 7).2 =
  [500; 1000; 2000; 4000; 8000; 10000].
Proof.
  intros transport.
  apply (backoff_schedule transport (exampleOptions (Some 6)) 6); try done.
  intros ? ?. by exists (OpenGeniApiError 503).
Defined.
End EventStream.
