(* ===== verification/SseServer.v ===== *)
(** * The server side of the event stream ([apps/api/src/http/sse.ts])

    [sseSessionStream] replays the durable log page by page while it buffers
    the live events of the bus, then flushes the buffer and forwards live
    batches.  Two asynchronous activities share [lastSent]: the [start] routine
    and the subscription's callback (the bus awaits one callback at a time).
    Every [await] is a point where the other may run, so the server is a step
    relation between two tasks; the log is a [DurableLog] of which a growing
    prefix is visible to queries. *)
From S2P Require Import Prelude Json Schema EventLog.

Module SseServer.

(** An asynchronous [send] in progress, suspended at its query. *)
Inductive Pending :=
| Query (event : SessionEvent) (after limit : Z)
| Answer (event : SessionEvent) (missing : list SessionEvent).

(** A loop [for (const event of ...) await send(event)]. *)
Record Task := { pending : option Pending; rest : list SessionEvent }.
Definition idle : Task := {| pending := None; rest := [] |}.

Inductive Main :=
| Load (cursor : Z)
| Page (cursor : Z) (pageLength : Z) (event : option SessionEvent) (t : Task)
| Flush (t : Task)
| Connected.

Record St := {
  visible : nat;              (* how much of the log has been appended *)
  lastSent : Z;
  replaying : bool;
  buffered : list SessionEvent;
  main : Main;
  live : Task;
  out : list SessionEvent;    (* what was enqueued on the response *)
  published : list SessionEvent  (* what the bus handed to the callback *)
}.
#[export] Instance etaSt : Settable St := fun s =>
  Build_St (visible s) (lastSent s) (replaying s) (buffered s) (main s) (live s) (out s) (published s).

Definition enqueue (e : SessionEvent) (s : St) : St :=
  s <| out ::= fun l => l ++ [e] |> <| lastSent := ev_sequence e |>.

(** [send] up to its first [await]: done, or waiting for a query. *)
Definition sendBegin (event : SessionEvent) (s : St) : St * option Pending :=
  if ev_sequence event <=? lastSent s then (s, None)
  else if lastSent s + 1 <? ev_sequence event then
    (s, Some (Query event (lastSent s) (ev_sequence event - lastSent s - 1)))
  else (enqueue event s, None).

Fixpoint sendMissing (missing : list SessionEvent) (s : St) : St :=
  match missing with
  | [] => s
  | missed :: missing => sendMissing missing (if lastSent s <? ev_sequence missed then enqueue missed s else s)
  end.

(** [send] after its query was answered. *)
Definition sendEnd (event : SessionEvent) (missing : list SessionEvent) (s : St) : St :=
  enqueue event (sendMissing missing s).

Section server.
Context {L : DurableLog} (after pageSize : Z).

(** [listSessionEvents] against what is visible now. *)
Definition loadPage (s : St) (cursor limit : Z) : list SessionEvent :=
  take (Z.to_nat limit) (drop (Z.to_nat cursor) (take (visible s) log_events)).

(** One turn of a task: start the next [send], answer its query, or finish it. *)
Definition taskStep (t : Task) (s : St) : option (St * Task) :=
  match pending t with
  | Some (Query event a limit) =>
      Some (s, {| pending := Some (Answer event (loadPage s a limit)); rest := rest t |})
  | Some (Answer event missing) => Some (sendEnd event missing s, {| pending := None; rest := rest t |})
  | None =>
      match rest t with
      | [] => None
      | event :: rest => let (s, p) := sendBegin event s in Some (s, {| pending := p; rest := rest |})
      end
  end.

Definition startFlush (s : St) : St :=
  s <| replaying := false |> <| main := Flush {| pending := None; rest := sort_by ev_sequence (buffered s) |} |>.

(** One turn of the [start] routine. *)
Definition mainStep (s : St) : option St :=
  match main s with
  | Load cursor =>
      let page := loadPage s cursor pageSize in
      Some (s <| main := Page cursor (Z.of_nat (length page)) None
                           {| pending := None; rest := sort_by ev_sequence page |} |>)
  | Page cursor n sent t =>
      if n =? 0 then Some (startFlush s)
      else
        (* [cursor = Math.max(cursor, event.sequence)] after the awaited send *)
        let cursor := match sent, pending t with Some e, None => Z.max cursor (ev_sequence e) | _, _ => cursor end in
        match taskStep t s with
        | Some (s, t') =>
            let sent := match pending t, rest t with None, e :: _ => Some e | _, _ => sent end in
            Some (s <| main := Page cursor n sent t' |>)
        | None => Some (if n <? pageSize then startFlush s else s <| main := Load cursor |>)
        end
  | Flush t =>
      match taskStep t s with
      | Some (s, t') => Some (s <| main := Flush t' |>)
      | None => Some (s <| buffered := [] |> <| main := Connected |>)
      end
  | Connected => None
  end.

(** The bus hands a message to the callback. *)
Definition deliver (events : list SessionEvent) (s : St) : St :=
  let s := s <| published ::= fun l => l ++ events |> in
  if replaying s then s <| buffered ::= fun l => l ++ events |>
  else s <| live := {| pending := None; rest := sort_by ev_sequence events |} |>.

Inductive step : St -> St -> Prop :=
| step_append s : step s (s <| visible ::= S |>)
| step_main s s' : mainStep s = Some s' -> step s s'
| step_live s s' t : taskStep (live s) s = Some (s', t) -> step s (s' <| live := t |>)
| step_deliver s events :
    live s = idle -> Forall (.∈ take (visible s) log_events) events -> step s (deliver events s).

Definition start (vis : nat) : St := {|
  visible := vis; lastSent := after; replaying := true; buffered := []; main := Load after;
  live := idle; out := []; published := [] |}.

(** ** No gap on the wire *)

(** [covers l q]: every sequence in [(after, q]] is on the wire [l]. *)
Definition covers (l : list SessionEvent) (q : Z) : Prop :=
  forall p, after < p <= q -> exists e, e ∈ l /\ ev_sequence e = p.

(** Each event on the wire comes after all its predecessors. *)
Definition gapfree (l : list SessionEvent) : Prop :=
  forall i e, l !! i = Some e -> after < ev_sequence e /\ covers (take i l) (ev_sequence e - 1).

Lemma covers_app l l' q : covers l q -> covers (l ++ l') q.
Proof. intros H p Hp. destruct (H p Hp) as (e & He & <-). exists e. rewrite elem_of_app. auto. Qed.

Lemma covers_le l q q' : q' <= q -> covers l q -> covers l q'.
Proof. intros Hle H p Hp. apply H. lia. Qed.

Lemma covers_snoc l e : covers l (ev_sequence e - 1) -> covers (l ++ [e]) (ev_sequence e).
Proof.
  intros H p Hp. destruct (decide (p = ev_sequence e)) as [->|Hne].
  - exists e. rewrite elem_of_app, list_elem_of_singleton. auto.
  - apply (covers_app l [e] (ev_sequence e - 1)); [done|lia].
Qed.

Lemma gapfree_snoc l e : gapfree l -> after < ev_sequence e -> covers l (ev_sequence e - 1) -> gapfree (l ++ [e]).
Proof.
  intros Hl Ha Hc i x Hi. apply lookup_app_Some in Hi as [Hi|[Hle Hi]].
  - rewrite take_app_le by (apply lookup_lt_Some in Hi; lia). by apply Hl.
  - apply list_lookup_singleton_Some in Hi as [Hi <-].
    rewrite take_app_length' by lia. done.
Qed.

(** The wire so far: gap-free, made of log events, and complete up to
    [lastSent]. *)
Record wire_ok (s : St) : Prop := {
  w_gapfree : gapfree (out s);
  w_after : after <= lastSent s;
  w_covers : covers (out s) (lastSent s);
  w_log : Forall (.∈ take (visible s) log_events) (out s)
}.

(** A task's queue holds visible events; a suspended [send] has a covered
    resume point, and its answer closes the gap. *)
Definition pending_ok (s : St) (p : Pending) : Prop :=
  match p with
  | Query e a lim => e ∈ take (visible s) log_events /\ after <= a /\ lim = ev_sequence e - a - 1 /\ 0 <= lim /\
                     covers (out s) a
  | Answer e missing => e ∈ take (visible s) log_events /\ Forall (.∈ take (visible s) log_events) missing /\
      after < ev_sequence e /\
      exists a, after <= a /\ covers (out s) a /\ contiguous a (List.map ev_sequence missing) /\
                ev_sequence e = a + Z.of_nat (length missing) + 1
  end.

Definition task_ok (s : St) (t : Task) : Prop :=
  Forall (.∈ take (visible s) log_events) (rest t) /\
  match pending t with Some p => pending_ok s p | None => True end.

(** Growth of the state between two looks at a task. *)
Definition grows (s s' : St) : Prop := (visible s <= visible s')%nat /\ exists l, out s' = out s ++ l.

Lemma take_mono (e : SessionEvent) n m : (n <= m)%nat -> e ∈ take n log_events -> e ∈ take m log_events.
Proof.
  intros Hle [i Hi]%list_elem_of_lookup. apply lookup_take_Some in Hi as [Hi Hlt].
  apply list_elem_of_lookup. exists i. apply lookup_take_Some. split; [done|lia].
Qed.

Lemma Forall_take_mono (l : list SessionEvent) n m :
  (n <= m)%nat -> Forall (.∈ take n log_events) l -> Forall (.∈ take m log_events) l.
Proof. intros Hle H. eapply Forall_impl; [exact H|]. intros e. by apply take_mono. Qed.

Lemma task_ok_grows s s' t : grows s s' -> task_ok s t -> task_ok s' t.
Proof.
  intros [Hv [l Ho]] [Hr Hp]. split; [by eapply Forall_take_mono|].
  destruct (pending t) as [[e a lim|e missing]|]; [| |done]; cbn in *.
  - destruct Hp as (H1 & H2 & H3 & H4 & H5). split_and!; try done; [by eapply take_mono|].
    rewrite Ho. by apply covers_app.
  - destruct Hp as (H1 & H2 & H3 & a & H4 & H5 & H6 & H7). split_and!; try done;
      [by eapply take_mono|by eapply Forall_take_mono|].
    exists a. split_and!; try done. rewrite Ho. by apply covers_app.
Qed.

(** Everything but the wire and [lastSent] is as before. *)
Definition same_rest (s s' : St) : Prop :=
  visible s' = visible s /\ replaying s' = replaying s /\ buffered s' = buffered s /\
  main s' = main s /\ live s' = live s /\ published s' = published s.

Lemma enqueue_ok e s :
  wire_ok s -> e ∈ take (visible s) log_events -> after < ev_sequence e -> covers (out s) (ev_sequence e - 1) ->
  wire_ok (enqueue e s).
Proof.
  intros [H1 H2 H3 H4] He Ha Hc. split; cbn.
  - by apply gapfree_snoc.
  - lia.
  - by apply covers_snoc.
  - apply Forall_app. split; [done|]. by constructor.
Qed.

Lemma sendMissing_ok missing a s :
  wire_ok s -> Forall (.∈ take (visible s) log_events) missing ->
  after <= a -> covers (out s) a -> contiguous a (List.map ev_sequence missing) ->
  let s' := sendMissing missing s in
  wire_ok s' /\ covers (out s') (a + Z.of_nat (length missing)) /\ grows s s' /\ same_rest s s'.
Proof.
  revert a s; induction missing as [|e missing IH]; intros a s Hs Hv Ha Hc Hm; cbn [sendMissing].
  { split_and!; [done|by eapply covers_le; [|exact Hc]; cbn; lia|split; [done|exists []; by rewrite app_nil_r]|done..]. }
  apply Forall_cons in Hv as [He Hv]. cbn [List.map] in Hm.
  apply contiguous_cons_inv in Hm as [Hseq Hm].
  replace (a + Z.of_nat (length (e :: missing))) with (a + 1 + Z.of_nat (length missing)) by (cbn; lia).
  destruct (_ <? _) eqn:E; breflect.
  - assert (Hs' : wire_ok (enqueue e s)).
    { apply enqueue_ok; [done..|lia|]. eapply covers_le; [|exact Hc]. lia. }
    destruct (IH (a + 1) (enqueue e s)) as (H1 & H2 & [H3 [l H4]] & H5); [done..|lia| |done|].
    + rewrite <- Hseq. exact (w_covers _ Hs').
    + split_and!; try done; try apply H5. split; [done|]. exists (e :: l). rewrite H4. cbn. by rewrite <- app_assoc.
  - destruct (IH (a + 1) s) as (H1 & H2 & H3 & H4); [done..|lia| |done|done].
    eapply covers_le; [|by apply w_covers]. lia.
Qed.

Context (Hafter : 0 <= after).

Lemma loadPage_contiguous s a lim :
  0 <= a -> contiguous a (List.map ev_sequence (loadPage s a lim)).
Proof.
  intros Ha. apply list_eq. intros i. rewrite length_map. set (page := loadPage s a lim).
  destruct (page !! i) as [e|] eqn:He.
  - rewrite list_lookup_fmap, He. cbn. symmetry. apply lookup_seqZ.
    apply lookup_lt_Some in He as Hlt. split; [|lia].
    unfold page, loadPage in He. apply lookup_take_Some in He as [He _]. rewrite lookup_drop in He.
    apply lookup_take_Some in He as [He _].
    assert (ev_sequence e = 0 + 1 + Z.of_nat (Z.to_nat a + i)); [|lia].
    eapply contiguous_lookup; [apply log_contiguous|]. by rewrite list_lookup_fmap, He.
  - rewrite list_lookup_fmap, He. symmetry. apply lookup_ge_None. rewrite length_seqZ, Nat2Z.id.
    by apply lookup_ge_None.
Qed.

Lemma loadPage_visible s a lim : Forall (.∈ take (visible s) log_events) (loadPage s a lim).
Proof. by apply Forall_take, Forall_drop, Forall_forall. Qed.

Lemma loadPage_length s a lim :
  0 <= a -> 0 <= lim -> Z.of_nat (length (loadPage s a lim)) =
    Z.min lim (Z.max 0 (Z.of_nat (length (take (visible s) log_events)) - a)).
Proof. intros Ha Hl. unfold loadPage. rewrite length_take, length_drop. lia. Qed.

Lemma visible_sequence e n :
  e ∈ take n log_events -> 1 <= ev_sequence e <= Z.of_nat (length (take n log_events)) /\
    log_events !! Z.to_nat (ev_sequence e - 1) = Some e.
Proof.
  intros [i Hi]%list_elem_of_lookup. apply lookup_lt_Some in Hi as Hlt.
  apply lookup_take_Some in Hi as [Hi _].
  assert (ev_sequence e = 0 + 1 + Z.of_nat i) as ->.
  { eapply contiguous_lookup; [apply log_contiguous|]. by rewrite list_lookup_fmap, Hi. }
  split; [lia|]. by replace (Z.to_nat _) with i by lia.
Qed.

(** The events a task still has to send. *)
Definition queued (t : Task) : list SessionEvent :=
  match pending t with Some (Query e _ _) | Some (Answer e _) => [e] | None => [] end ++ rest t.

Lemma covers_elem s e q :
  wire_ok s -> covers (out s) q -> e ∈ take (visible s) log_events -> after < ev_sequence e <= q -> e ∈ out s.
Proof.
  intros Hs Hc He Hq. destruct (Hc (ev_sequence e) Hq) as (e' & He' & Heq).
  assert (e' ∈ take (visible s) log_events) as Hv
    by exact (proj1 (Forall_forall (.∈ take (visible s) log_events) _) (w_log _ Hs) _ He').
  apply visible_sequence in He as [_ He], Hv as [_ Hv]. rewrite Heq in Hv. congruence.
Qed.

Lemma taskStep_ok t s s' t' :
  wire_ok s -> task_ok s t -> taskStep t s = Some (s', t') ->
  wire_ok s' /\ task_ok s' t' /\ grows s s' /\ same_rest s s' /\
  (forall e, e ∈ queued t -> e ∈ queued t' \/ ev_sequence e <= after \/ e ∈ out s').
Proof.
  intros Hs [Hr Hp]. unfold taskStep, queued. destruct t as [[[e a lim|e missing]|] rest0]; cbn in *.
  - destruct Hp as (H1 & H2 & H3 & H4 & H5). intros [= <- <-].
    split_and!; try done; [|split; [done|exists []; by rewrite app_nil_r]|by left].
    split; [done|]. cbn. pose proof (visible_sequence e _ H1) as [Hlen _].
    split_and!; [done|apply loadPage_visible|lia|]. exists a.
    split_and!; [done..|apply loadPage_contiguous; lia|]. rewrite loadPage_length by lia. lia.
  - destruct Hp as (H1 & H2 & H3 & a & H4 & H5 & H6 & H7). intros [= <- <-]. unfold sendEnd.
    destruct (sendMissing_ok missing a s Hs H2 H4 H5 H6) as (G1 & G2 & [G3 [l G4]] & G5).
    assert (G6 : visible (sendMissing missing s) = visible s) by apply G5.
    assert (Hgrows : grows s (enqueue e (sendMissing missing s))).
    { split; [done|]. exists (l ++ [e]). cbn. by rewrite G4, app_assoc. }
    split_and!; [|split|done|..]; try apply G5.
    + apply enqueue_ok; [done|by rewrite G6|done|]. eapply covers_le; [|exact G2]. lia.
    + cbn. by rewrite G6.
    + done.
    + intros x [->|Hx]%elem_of_cons; [|by left]. right; right. cbn. rewrite elem_of_app. right. left.
  - destruct rest0 as [|e rest0]; [done|]. apply Forall_cons in Hr as [He Hr]. unfold sendBegin.
    destruct (_ <=? _) eqn:E1; breflect; [|destruct (_ <? _) eqn:E2; breflect]; intros [= <- <-].
    + split_and!; try done; [split; [done|exists []; by rewrite app_nil_r]|].
      intros x [->|Hx]%elem_of_cons; [|by left]. right.
      destruct (decide (ev_sequence e <= after)); [by left|right].
      eapply covers_elem; [done|by apply w_covers|done|lia].
    + split_and!; try done; [|split; [done|exists []; by rewrite app_nil_r]|by left].
      split; [done|]. cbn. pose proof (w_after _ Hs).
      split_and!; [done..|lia|]. by apply w_covers.
    + pose proof (w_after _ Hs).
      split_and!; try done; [|split; [done|by exists [e]]|].
      * apply enqueue_ok; [done..|lia|]. eapply covers_le; [|by apply w_covers]. lia.
      * intros x [->|Hx]%elem_of_cons; [|by left]. right; right. cbn. rewrite elem_of_app. right. left.
Qed.

(** ** The invariant of the two tasks *)

(** [v0]: how much of the log was there when the request came in. *)
Context (v0 : nat) (HpageSize : 0 < pageSize).

(** The part of the log that a replay owes the client. *)
Definition owed : Z := Z.min (Z.of_nat v0) (Z.of_nat (length log_events)).

Definition main_ok (s : St) : Prop :=
  match main s with
  | Load c => replaying s = true /\ live s = idle /\ c = lastSent s
  | Page c n sent t =>
      replaying s = true /\ live s = idle /\ pending t = None /\
      Forall (.∈ take (visible s) log_events) (rest t) /\
      contiguous (lastSent s) (List.map ev_sequence (rest t)) /\
      match sent with Some e => Z.max c (ev_sequence e) | None => c end = lastSent s /\
      (n < pageSize -> owed <= lastSent s + Z.of_nat (length (rest t))) /\
      (n = 0 -> rest t = [])
  | Flush t => replaying s = false /\ task_ok s t /\ covers (out s) owed
  | Connected => replaying s = false /\ covers (out s) owed
  end.

(** Published events that are not on the wire yet. *)
Definition unsent (s : St) : list SessionEvent :=
  queued (live s) ++ match main s with Flush t => queued t | Connected => [] | _ => buffered s end.

Record inv (s : St) : Prop := {
  i_wire : wire_ok s;
  i_visible : (v0 <= visible s)%nat;
  i_buffered : Forall (.∈ take (visible s) log_events) (buffered s);
  i_live : task_ok s (live s);
  i_main : main_ok s;
  i_unsent : forall e, e ∈ published s -> ev_sequence e <= after \/ e ∈ out s \/ e ∈ unsent s
}.

Lemma start_inv : inv (start v0).
Proof.
  split; cbn; try done; try (split; done).
  - split; cbn; [by intros ? ?|lia|intros p; lia|done].
  - by intros e He%elem_of_nil.
Qed.

Lemma step_append_inv s : inv s -> inv (s <| visible ::= S |>).
Proof.
  intros [[H1 H1a H1b H1c] H2 H3 H4 H5 H6].
  assert (Hg : grows s (s <| visible ::= S |>)) by (split; [cbn; lia|exists []; by rewrite app_nil_r]).
  split; [|cbn; lia|eapply Forall_take_mono; [|exact H3]; cbn; lia|by eapply task_ok_grows| |done].
  - split; [done..|]. eapply Forall_take_mono; [|exact H1c]. cbn. lia.
  - unfold main_ok in *. cbn. destruct (main s) as [c|c n sent t|t|]; [done| | |done].
    + destruct H5 as (G1 & G2 & G3 & G4 & G5). split_and!; try done; try apply G5.
      eapply Forall_take_mono; [|exact G4]. lia.
    + destruct H5 as (G1 & G2 & G3). split_and!; [done| |done]. by eapply task_ok_grows.
Qed.

Lemma grows_elem s s' e : grows s s' -> e ∈ out s -> e ∈ out s'.
Proof. intros [_ [l ->]]. rewrite elem_of_app. auto. Qed.

Lemma grows_covers s s' q : grows s s' -> covers (out s) q -> covers (out s') q.
Proof. intros [_ [l ->]]. apply covers_app. Qed.

Lemma wire_ok_eq s s' :
  visible s' = visible s -> lastSent s' = lastSent s -> out s' = out s -> wire_ok s -> wire_ok s'.
Proof. intros Hv Hl Ho [H1 H2 H3 H4]. split; by rewrite ?Hv, ?Hl, ?Ho. Qed.

Lemma task_ok_eq s s' t : visible s' = visible s -> out s' = out s -> task_ok s t -> task_ok s' t.
Proof. intros Hv Ho. apply task_ok_grows. split; [lia|]. exists []. by rewrite app_nil_r. Qed.

Lemma task_ok_queue s l : Forall (.∈ take (visible s) log_events) l ->
  task_ok s {| pending := None; rest := sort_by ev_sequence l |}.
Proof. intros H. split; [|done]. cbn. by rewrite sort_by_perm. Qed.

Lemma step_live_inv s s' t : inv s -> taskStep (live s) s = Some (s', t) -> inv (s' <| live := t |>).
Proof.
  intros [H1 H2 H3 H4 H5 H6] Hstep.
  destruct (taskStep_ok _ _ _ _ H1 H4 Hstep) as (G1 & G2 & G3 & (F1 & F2 & F3 & F4 & F5 & F6) & G4).
  split; try (cbn; rewrite ?F1, ?F3; done).
  - by apply (wire_ok_eq s').
  - by apply (task_ok_eq s').
  - unfold main_ok in *. cbn. rewrite F4, F2.
    destruct (main s) as [c|c n sent u|u|].
    + destruct H5 as (_ & E & _). by rewrite E in Hstep.
    + destruct H5 as (_ & E & _). by rewrite E in Hstep.
    + destruct H5 as (E1 & E2 & E3). split_and!; [done| |by eapply grows_covers].
      apply (task_ok_eq s'); [done..|]. by apply (task_ok_grows s).
    + destruct H5 as (E1 & E2). split_and!; [done|by eapply grows_covers].
  - cbn. rewrite F6. intros e He. unfold unsent in *. cbn. rewrite F3, F4.
    destruct (H6 e He) as [|[|[Hq|]%elem_of_app]]; [by left|right; left; by eapply grows_elem| |].
    + destruct (G4 e Hq) as [|[|]]; [right; right; rewrite elem_of_app; by left|by left|by right; left].
    + right; right. rewrite elem_of_app. by right.
Qed.

Lemma step_deliver_inv s events :
  inv s -> live s = idle -> Forall (.∈ take (visible s) log_events) events -> inv (deliver events s).
Proof.
  intros [H1 H2 H3 H4 H5 H6] Hidle Hev. unfold deliver. cbn. destruct (replaying s) eqn:Hr; cbn.
  - split; try done.
    + by apply (wire_ok_eq s).
    + cbn. by apply Forall_app.
    + unfold main_ok in *. cbn in *. destruct (main s); naive_solver.
    + unfold unsent, main_ok in *. cbn. intros e [He|He]%elem_of_app.
      * destruct (H6 e He) as [|[|]]; [by left|by right; left|]. right; right.
        destruct (main s); rewrite ?elem_of_app in *; tauto.
      * right; right. destruct (main s); try (by destruct H5; congruence); rewrite !elem_of_app; tauto.
  - split; try done.
    + by apply (wire_ok_eq s).
    + cbn. by apply task_ok_queue.
    + unfold main_ok in *. cbn in *. destruct (main s) as [| |t|]; [destruct H5; congruence|destruct H5; congruence| |split; [done|apply H5]].
      destruct H5 as (E1 & E2 & E3). split_and!; [done| |done]. by apply (task_ok_eq s).
    + unfold unsent in *. cbn. intros e [He|He]%elem_of_app.
      * destruct (H6 e He) as [|[|[Hq|]%elem_of_app]]; [by left|by right; left| |].
        { rewrite Hidle in Hq. by apply elem_of_nil in Hq. }
        right; right. rewrite elem_of_app. by right.
      * right; right. rewrite elem_of_app. left. unfold queued. cbn. by rewrite elem_of_sort_by.
Qed.

Lemma startFlush_inv s :
  inv s -> live s = idle -> match main s with Load _ | Page _ _ _ _ => True | _ => False end ->
  owed <= lastSent s -> inv (startFlush s).
Proof.
  intros [H1 H2 H3 H4 H5 H6] Hidle Hm Ho. split; try done.
  - by apply (wire_ok_eq s).
  - unfold main_ok. cbn. split_and!; [done| |].
    + apply (task_ok_eq s); [done..|]. by apply task_ok_queue.
    + eapply covers_le; [|by apply w_covers]. done.
  - unfold unsent in *. cbn. intros e He. destruct (H6 e He) as [|[|Hq]]; [by left|by right; left|].
    right; right. rewrite !elem_of_app in *. destruct Hq as [|Hq]; [by left|right].
    unfold queued. cbn. rewrite elem_of_sort_by. destruct (main s); done.
Qed.

Lemma page_done_inv s c n sent t :
  inv s -> main s = Page c n sent t -> rest t = [] ->
  inv (if n <? pageSize then startFlush s
       else s <| main := Load match sent with Some e => Z.max c (ev_sequence e) | None => c end |>).
Proof.
  intros Hs Hm Hr. pose proof (i_main s Hs) as H5. unfold main_ok in H5. rewrite Hm in H5.
  destruct H5 as (E1 & E2 & E3 & E4 & E5 & E6 & E7 & E8).
  destruct (n <? pageSize) eqn:E; breflect.
  - apply startFlush_inv; [done..|by rewrite Hm|]. specialize (E7 E). rewrite Hr in E7. cbn in E7. lia.
  - destruct Hs as [H1 H2 H3 H4 H5 H6]. split; try done.
    + by apply (wire_ok_eq s).
    + unfold unsent in *. cbn. by rewrite Hm in H6.
Qed.

Lemma step_main_inv s s' : inv s -> mainStep s = Some s' -> inv s'.
Proof.
  intros Hs Hstep. pose proof Hs as [H1 H2 H3 H4 H5 H6]. pose proof (w_after _ H1) as Ha.
  unfold mainStep, main_ok in *. destruct (main s) as [c|c n sent t|t|] eqn:Hm; [..|done].
  - destruct H5 as (E1 & E2 & ->). injection Hstep as <-.
    pose proof (loadPage_contiguous s (lastSent s) pageSize ltac:(lia)) as Hc.
    assert (Hl : Z.of_nat (length (loadPage s (lastSent s) pageSize)) = Z.min pageSize
      (Z.max 0 (Z.of_nat (length (take (visible s) log_events)) - lastSent s))) by (apply loadPage_length; lia).
    rewrite length_take in Hl. unfold owed.
    split; try done.
    + by apply (wire_ok_eq s).
    + unfold main_ok, owed. cbn.
      rewrite (sort_by_id ev_sequence) by (by eapply contiguous_sorted).
      split_and!; try done; [apply loadPage_visible|lia|].
      intros Hn. apply length_zero_iff_nil. lia.
    + unfold unsent in *. cbn. by rewrite Hm in H6.
  - destruct H5 as (E1 & E2 & E3 & E4 & E5 & E6 & E7 & E8).
    destruct (n =? 0) eqn:En; breflect.
    { injection Hstep as <-. specialize (E8 En). apply startFlush_inv; [done..|by rewrite Hm|].
      rewrite E8 in E7. cbn in E7. lia. }
    unfold taskStep in Hstep. rewrite E3 in Hstep.
    destruct (rest t) as [|e r] eqn:Hr.
    { destruct t as [p q]; cbn in *; subst p q. injection Hstep as <-.
      replace (match sent with Some e => Z.max c (ev_sequence e) | None => c end) with
        (match sent with Some e => Z.max c (ev_sequence e) | None => c end) by done.
      eapply (page_done_inv s c n sent) in Hs; [|done|done].
      destruct (n <? pageSize); [done|]. by destruct sent. }
    cbn [List.map] in E5. apply contiguous_cons_inv in E5 as [He Hc]. apply Forall_cons in E4 as [Hv Hvs].
    unfold sendBegin in Hstep. rewrite (proj2 (Z.leb_gt _ _)), (proj2 (Z.ltb_ge _ _)) in Hstep by lia.
    injection Hstep as <-.
    assert (Hok : wire_ok (enqueue e s)).
    { apply enqueue_ok; [done..|lia|]. eapply covers_le; [|by apply w_covers]. lia. }
    assert (Hg : grows s (enqueue e s)) by (split; [done|by exists [e]]).
    split; try done.
    + by apply (wire_ok_eq (enqueue e s)).
    + apply (task_ok_eq (enqueue e s)); [done..|]. by apply (task_ok_grows s).
    + unfold main_ok. cbn. rewrite He. split_and!; try done.
      * destruct sent; lia.
      * intros Hn. specialize (E7 Hn). cbn in E7. lia.
    + unfold unsent in *. cbn. intros x Hx. destruct (H6 x Hx) as [|[|Hq]]; [by left| |].
      * right; left. rewrite elem_of_app. by left.
      * right; right. by rewrite Hm in Hq.
  - destruct H5 as (E1 & E2 & E3). destruct (taskStep t s) as [[s1 t1]|] eqn:Ht.
    + injection Hstep as <-.
      destruct (taskStep_ok _ _ _ _ H1 E2 Ht) as (G1 & G2 & G3 & (F1 & F2 & F3 & F4 & F5 & F6) & G4).
      split; try (cbn; rewrite ?F1, ?F3; done).
      * by apply (wire_ok_eq s1).
      * cbn. rewrite F5. apply (task_ok_eq s1); [done..|]. by apply (task_ok_grows s).
      * unfold main_ok. cbn. rewrite F2. split_and!; [done|by apply (task_ok_eq s1)|by eapply grows_covers].
      * unfold unsent in *. cbn. rewrite F5, F6, Hm in *. intros e He.
        destruct (H6 e He) as [|[|[Hq|Hq]%elem_of_app]]; [by left|right; left; by eapply grows_elem| |].
        { right; right. rewrite elem_of_app. by left. }
        destruct (G4 e Hq) as [|[|]]; [right; right; rewrite elem_of_app; by right|by left|by right; left].
    + injection Hstep as <-. split; try done.
      * by apply (wire_ok_eq s).
      * unfold unsent in *. cbn. rewrite Hm in *. intros e He.
        destruct (H6 e He) as [|[|[Hq|Hq]%elem_of_app]]; [by left|by right; left| |].
        { right; right. rewrite elem_of_app. by left. }
        destruct t as [[[]|] [|x l]]; cbn in *; try done; [by apply elem_of_nil in Hq|].
        by destruct (sendBegin x s).
Qed.

Lemma reachable_inv s : rtc step (start v0) s -> inv s.
Proof.
  intros H. remember (start v0) as s0 eqn:E0. assert (inv s0) as Hs0 by (subst; apply start_inv).
  clear E0. induction H as [|s s1 s2 Hstep _ IH]; [done|]. apply IH.
  destruct Hstep; eauto using step_append_inv, step_main_inv, step_live_inv, step_deliver_inv.
Qed.
End server.

(** (C3) Nothing the server writes leaves a gap: whatever the interleaving of
    the replay, the live callback, new appends and lost or repeated
    publications, each event on the wire is preceded by every event between the
    resume point and it, and is an event of the log. *)
Theorem sse_no_gap `{L : DurableLog} after pageSize v0 s :
  0 <= after -> 0 < pageSize -> rtc (step pageSize) (start after v0) s ->
  Forall (.∈ log_events) (out s) /\
  forall i e p, out s !! i = Some e -> after < p < ev_sequence e ->
    exists j e', (j < i)%nat /\ out s !! j = Some e' /\ ev_sequence e' = p.
Proof.
  intros Ha Hp Hr. destruct (reachable_inv after pageSize Ha v0 Hp s Hr) as [[H1 _ _ H2] _ _ _ _ _]. split.
  - rewrite <- (firstn_all log_events). eapply Forall_impl; [exact H2|]. intros e He.
    rewrite firstn_all. by eapply elem_of_take in He as (? & ? & _); apply list_elem_of_lookup_2 in H.
  - intros i e p Hi Hlt. destruct (H1 i e Hi) as [_ Hc]. destruct (Hc p) as (e' & He' & <-); [lia|].
    apply elem_of_take in He' as (j & Hj & Hji). eauto 10.
Qed.

(** (C4) Once the stream reports [connected] and the callback is between
    messages, everything that was durable when the request arrived and
    everything the bus published since is on the wire. *)
Theorem sse_complete `{L : DurableLog} after pageSize v0 s e :
  0 <= after -> 0 < pageSize -> rtc (step pageSize) (start after v0) s ->
  main s = Connected -> live s = idle ->
  e ∈ take v0 log_events \/ e ∈ published s -> after < ev_sequence e -> e ∈ out s.
Proof.
  intros Ha Hp Hr Hm Hl He Hs. destruct (reachable_inv after pageSize Ha v0 Hp s Hr) as [H1 H2 _ _ H5 H6].
  destruct He as [He|He].
  - unfold main_ok in H5. rewrite Hm in H5. destruct H5 as [_ Hc].
    apply visible_sequence in He as Hv. rewrite length_take in Hv.
    eapply (covers_elem after); [done|exact Hc|by eapply take_mono|unfold owed; lia].
  - destruct (H6 e He) as [|[|Hq]]; [lia|done|]. unfold unsent in Hq. rewrite Hl, Hm in Hq.
    by apply elem_of_nil in Hq.
Qed.

(** ** A run with a race *)

Definition exampleEvent (n : Z) : SessionEvent := {|
  ev_id := "e"; ev_workspaceId := "w"; ev_sessionId := "s"; ev_sequence := n; ev_type := "agent.message";
  ev_payload := JObj []; ev_occurredAt := 0; ev_clientEventId := None; ev_turnId := None |}.

Definition exampleLog : DurableLog.
Proof.
  refine {|
    log_events := [exampleEvent 1; exampleEvent 2; exampleEvent 3];
    log_page := fun after lim => take (Z.to_nat lim) (drop (Z.to_nat after) [exampleEvent 1; exampleEvent 2; exampleEvent 3])
  |}; done.
Defined.

#[export] Instance SessionEvent_eq_dec : EqDecision SessionEvent.
Proof. solve_decision. Defined.
#[export] Instance Pending_eq_dec : EqDecision Pending.
Proof. solve_decision. Defined.
#[export] Instance Task_eq_dec : EqDecision Task.
Proof. solve_decision. Defined.

(** Schedules, executed. *)
Inductive Action := DoAppend | DoMain | DoLive | DoDeliver (events : list SessionEvent).

Definition act `{L : DurableLog} (pageSize : Z) (a : Action) (s : St) : option St :=
  match a with
  | DoAppend => Some (s <| visible ::= S |>)
  | DoMain => mainStep pageSize s
  | DoLive => match taskStep (live s) s with Some (s', t) => Some (s' <| live := t |>) | None => None end
  | DoDeliver events =>
      if bool_decide (live s = idle) && bool_decide (Forall (.∈ take (visible s) log_events) events)
      then Some (deliver events s) else None
  end.

Fixpoint exec `{L : DurableLog} (pageSize : Z) (l : list Action) (s : St) : option St :=
  match l with
  | [] => Some s
  | a :: l => match act pageSize a s with Some s => exec pageSize l s | None => None end
  end.

Lemma exec_steps `{L : DurableLog} pageSize l s s' : exec pageSize l s = Some s' -> rtc (step pageSize) s s'.
Proof.
  revert s; induction l as [|a l IH]; intros s; cbn; [by intros [= ->]|].
  destruct (act pageSize a s) as [s1|] eqn:E; [|done]. intros H. eapply rtc_l; [|by apply IH].
  destruct a; cbn in E.
  - injection E as <-. constructor.
  - by constructor.
  - destruct (taskStep _ _) as [[]|] eqn:Ht; [|done]. injection E as <-. by constructor.
  - destruct (_ && _) eqn:Hc; [|done]. injection E as <-. breflect. by constructor.
Qed.

(** The replay page is read before anything is appended; the live publication of
    event 1 is lost, 2 arrives while still replaying, 3 after. *)
Definition race : list Action :=
  [DoMain; DoAppend; DoAppend; DoDeliver [exampleEvent 2]; DoMain; DoMain; DoAppend; DoDeliver [exampleEvent 3];
   DoLive; DoLive; DoLive; DoMain; DoMain; DoMain].

Definition raced : St := default (start 0 0) (@exec exampleLog 1000 race (start 0 0)).

Lemma raced_reachable : @rtc St (@step exampleLog 1000) (start 0 0) raced.
Proof. apply (@exec_steps exampleLog _ race). by vm_compute. Qed.

(** The duplicate check of [send] is not atomic with its write: when a
    buffered event waits for its gap query while the live callback overtakes it,
    the event is written twice and [lastSent] moves back. *)
Theorem send_race :
  exists s, @rtc St (@step exampleLog 1000) (start 0 0) s /\
    List.map ev_sequence (published s) = [2; 3] /\
    List.map ev_sequence (out s) = [1; 2; 3; 2] /\ lastSent s = 2.
Proof. exists raced. split; [apply raced_reachable|by vm_compute]. Qed.

Lemma sse_no_gap_witness :
  exists j e', (j < 3)%nat /\ out raced !! j = Some e' /\ ev_sequence e' = 1.
Proof.
  apply (proj2 (@sse_no_gap exampleLog 0 1000 0 raced ltac:(lia) ltac:(lia) raced_reachable) 3%nat (exampleEvent 2) 1).
  - by vm_compute.
  - cbn. lia.
Defined.

Lemma sse_complete_witness : exampleEvent 3 ∈ out raced.
Proof.
  apply (@sse_complete exampleLog 0 1000 0 raced (exampleEvent 3)); [lia|lia|apply raced_reachable|by vm_compute|by vm_compute| |done].
  right. apply list_elem_of_In. by vm_compute; auto.
Defined.
End SseServer.
