(* ===== verification/TurnQueue.v ===== *)
(** * The turn queue ([packages/db/src/index.ts])

    [session_turns] is the durable queue of a session: turns are enqueued at a
    position, claimed in [(position, created_at, id)] order under the session's
    row lock, finished, requeued after a preemption or a worker death,
    reordered, cancelled.  Every operation is one transaction, so a run of the
    system is a sequence of them. *)
From S2P Require Import Prelude Sql Json Schema EventLog PayloadSanitizer.

Module TurnQueue.
Import EventLog.

(** ** Row predicates *)

Definition turnIn (workspaceId : string) (r : TurnRow) : bool := bool_decide (t_workspaceId r = workspaceId).
Definition turnOf (workspaceId sessionId : string) (r : TurnRow) : bool :=
  turnIn workspaceId r && bool_decide (t_sessionId r = sessionId).
Definition turnIs (workspaceId turnId : string) (r : TurnRow) : bool :=
  turnIn workspaceId r && bool_decide (t_id r = turnId).
Definition hasStatus (statuses : list SessionTurnStatus) (r : TurnRow) : bool :=
  bool_decide (t_status r ∈ statuses).

(** [order by position asc, created_at asc, id asc]. *)
Definition claim_leb (a b : TurnRow) : bool :=
  (t_position a <? t_position b) ||
  ((t_position a =? t_position b) &&
   ((t_createdAt a <? t_createdAt b) || ((t_createdAt a =? t_createdAt b) && string_leb (t_id a) (t_id b)))).

(** [orderBy(asc(position), asc(createdAt))]; ties stay in storage order. *)
Definition by_position (l : list TurnRow) : list TurnRow := sort_by t_position (sort_by t_createdAt l).

(** ** Positions *)

Definition nextTurnPosition (workspaceId sessionId : string) (d : Db) : Z :=
  match List.map t_position (select_where (turnOf workspaceId sessionId) (db_turns d)) with
  | [] => 0
  | p :: ps => fold_right Z.max p ps
  end + 1.

Definition isChildNotification (r : TurnRow) : bool :=
  match assoc (js "childCompletion") (t_metadata r) with Some _ => true | None => false end.

Definition list_min (l : list Z) : option Z :=
  match l with [] => None | p :: ps => Some (fold_right Z.min p ps) end.

Definition positionForEnqueue (now : Z) (workspaceId sessionId : string) (preemptChildNotifications : bool) (d : Db)
  : Z * Db :=
  if negb preemptChildNotifications then (nextTurnPosition workspaceId sessionId d, d)
  else
    match list_min (List.map t_position
            (select_where (fun r => turnOf workspaceId sessionId r && hasStatus [T_queued] r && isChildNotification r)
               (db_turns d))) with
    | None => (nextTurnPosition workspaceId sessionId d, d)
    | Some minPos =>
        (minPos,
         d <| db_turns ::= update_where
                (fun r => turnOf workspaceId sessionId r && hasStatus [T_queued] r && (minPos <=? t_position r))
                (fun r => r <| t_position ::= Z.succ |> <| t_updatedAt := now |>) |>)
    end.

(** ** Enqueue *)

Record EnqueueSessionTurnInput := {
  q_accountId : string;
  q_workspaceId : string;
  q_sessionId : string;
  q_triggerEventId : string;
  q_temporalWorkflowId : string;
  q_source : SessionTurnSource;
  q_prompt : jstr;
  q_resources : json;
  q_tools : json;
  q_model : string;
  q_reasoningEffort : string;
  q_sandboxBackend : string;
  q_metadata : list (jstr * json);
  q_preemptChildNotifications : bool
}.

Definition enqueueSessionTurn (now : Z) (input : EnqueueSessionTurnInput) (d : Db) : TurnRow * Db :=
  let (position, d) :=
    positionForEnqueue now (q_workspaceId input) (q_sessionId input) (q_preemptChildNotifications input) d in
  let row := {|
    t_id := uuid (db_fresh d); t_accountId := q_accountId input; t_workspaceId := q_workspaceId input;
    t_sessionId := q_sessionId input; t_triggerEventId := q_triggerEventId input;
    t_temporalWorkflowId := q_temporalWorkflowId input; t_status := T_queued; t_source := q_source input;
    t_position := position; t_prompt := q_prompt input; t_resources := q_resources input;
    t_tools := q_tools input; t_model := q_model input; t_reasoningEffort := q_reasoningEffort input;
    t_sandboxBackend := q_sandboxBackend input; t_metadata := q_metadata input; t_toolspaceCallCount := 0;
    t_startedAt := None; t_finishedAt := None; t_createdAt := now; t_updatedAt := now |} in
  (row, d <| db_turns ::= fun t => t ++ [row] |> <| db_fresh ::= S |>).

(** ** Claim *)

Definition setActive (now : Z) (status : SessionStatus) (activeTurnId : option string) (r : SessionRow) : SessionRow :=
  r <| s_status := status |> <| s_activeTurnId := activeTurnId |> <| s_updatedAt := now |>.

Definition queuedTurns (workspaceId sessionId : string) (d : Db) : list TurnRow :=
  sort_leb claim_leb (select_where (fun r => turnOf workspaceId sessionId r && hasStatus [T_queued] r) (db_turns d)).

Definition claimNextQueuedTurn (now : Z) (workspaceId sessionId workflowId : string) (d : Db)
  : option TurnRow * Db :=
  match List.find (inSession workspaceId sessionId) (db_sessions d) with
  | None => (None, d)
  | Some _ =>
      match queuedTurns workspaceId sessionId d with
      | [] => (None, d)
      | next :: _ =>
          let claim r := r <| t_status := T_running |> <| t_temporalWorkflowId := workflowId |>
                           <| t_startedAt := Some now |> <| t_updatedAt := now |> in
          (Some (claim next),
           d <| db_turns ::= update_where (turnIs workspaceId (t_id next)) claim |>
             <| db_sessions ::= update_where (inSession workspaceId sessionId) (setActive now S_running (Some (t_id next))) |>)
      end
  end.

(** ** Status changes *)

Definition setSessionStatus (now : Z) (workspaceId sessionId : string) (status : SessionStatus)
  (activeTurnId : option (option string)) (d : Db) : Db :=
  d <| db_sessions ::= update_where (inSession workspaceId sessionId)
         (fun r => r <| s_status := status |> <| s_activeTurnId := default (s_activeTurnId r) activeTurnId |>
                     <| s_updatedAt := now |>) |>.

(** [SessionStatus | SessionTurnStatus], as their common names. *)
Inductive AnyStatus := ASession (s : SessionStatus) | ATurn (s : SessionTurnStatus).

Definition turnStatusForFinish (status : AnyStatus) : SessionTurnStatus :=
  match status with
  | ASession S_idle => T_completed
  | ASession S_queued => T_queued
  | ASession S_running => T_running
  | ASession S_requires_action => T_requires_action
  | ASession S_failed => T_failed
  | ASession S_cancelled => T_cancelled
  | ATurn s => s
  end.

Definition finishTurn (now : Z) (workspaceId turnId : string) (status : AnyStatus) (d : Db) : Db :=
  d <| db_turns ::= update_where (turnIs workspaceId turnId)
         (fun r => r <| t_status := turnStatusForFinish status |>
                     <| t_finishedAt := match turnStatusForFinish status with
                                        | T_requires_action => t_finishedAt r
                                        | _ => Some now
                                        end |>
                     <| t_updatedAt := now |>) |>.

Definition requeuePreemptedTurn (now : Z) (workspaceId turnId triggerEventId : string)
  (fromStatuses : list SessionTurnStatus) (d : Db) : result DbError Db :=
  let matches r := turnIs workspaceId turnId r && hasStatus fromStatuses r in
  match select_where matches (db_turns d) with
  | [] => Err (PreemptibleTurnNotFound turnId)
  | _ => Ok (d <| db_turns ::= update_where matches
                    (fun r => r <| t_status := T_queued |> <| t_triggerEventId := triggerEventId |>
                                <| t_startedAt := None |> <| t_finishedAt := None |> <| t_updatedAt := now |>) |>)
  end.
Definition defaultFromStatuses : list SessionTurnStatus := [T_running; T_requires_action].

(** [coalesce((metadata->>'workerDeathRedispatches')::int, 0)] *)
Definition workerDeathRedispatches (r : TurnRow) : Z :=
  match assoc (js "workerDeathRedispatches") (t_metadata r) with Some (JNum n) => n | _ => 0 end.

Definition incrementTurnWorkerDeathRedispatches (now : Z) (workspaceId turnId : string) (d : Db)
  : result DbError (Z * Db) :=
  let bump r := r <| t_metadata := set_field (js "workerDeathRedispatches") (JNum (workerDeathRedispatches r + 1)) (t_metadata r) |>
                  <| t_updatedAt := now |> in
  match updated_rows (turnIs workspaceId turnId) bump (db_turns d) with
  | [] => Err (TurnNotFound turnId)
  | row :: _ => Ok (workerDeathRedispatches row, d <| db_turns ::= update_where (turnIs workspaceId turnId) bump |>)
  end.

Definition cancelTurnFromDyingDispatch (now : Z) (workspaceId turnId : string) (expectedRedispatches : Z) (d : Db)
  : bool * Db :=
  let matches r := turnIs workspaceId turnId r && hasStatus [T_running; T_requires_action] r
                   && (workerDeathRedispatches r =? expectedRedispatches) in
  (match select_where matches (db_turns d) with [] => false | _ => true end,
   d <| db_turns ::= update_where matches
          (fun r => r <| t_status := T_cancelled |> <| t_finishedAt := Some now |> <| t_updatedAt := now |>) |>).

Definition getSessionTurn (workspaceId turnId : string) (d : Db) : option TurnRow :=
  List.find (turnIs workspaceId turnId) (db_turns d).

(** ** Listing and editing the queue *)

Definition listSessionTurns (workspaceId sessionId : string) (lim : Z) (d : Db) : list TurnRow :=
  limit lim (by_position (select_where (turnOf workspaceId sessionId) (db_turns d))).

Definition listPendingSessionTurns (workspaceId sessionId : string) (d : Db) : list TurnRow :=
  by_position (select_where (fun r => turnOf workspaceId sessionId r
                                      && hasStatus [T_queued; T_running; T_requires_action] r) (db_turns d)).

(** The newest [turn.started] event's turn. *)
Definition latestStartedSessionTurnRow (workspaceId sessionId : string) (d : Db) : option TurnRow :=
  let started := select_where (fun e => eventOf workspaceId sessionId e && bool_decide (e_type e = "turn.started"%string))
                   (db_events d) in
  head (omap (fun e => match e_turnId e with
                       | Some id => List.find (fun t => turnOf workspaceId sessionId t && bool_decide (t_id t = id)) (db_turns d)
                       | None => None
                       end)
          (sort_by (fun e => - e_sequence e) started)).

Record UpdateQueuedSessionTurnInput := {
  u_prompt : option jstr;
  u_resources : option json;
  u_tools : option json;
  u_model : option string;
  u_reasoningEffort : option string;
  u_sandboxBackend : option string;
  u_metadata : option (list (jstr * json))
}.

Definition queuedTurnIs (workspaceId turnId : string) (r : TurnRow) : bool :=
  turnIs workspaceId turnId r && hasStatus [T_queued] r.

Definition updateQueuedSessionTurn (now : Z) (workspaceId turnId : string) (input : UpdateQueuedSessionTurnInput) (d : Db)
  : result DbError (TurnRow * Db) :=
  let edit r := r <| t_prompt := default (t_prompt r) (u_prompt input) |>
                  <| t_resources := default (t_resources r) (u_resources input) |>
                  <| t_tools := default (t_tools r) (u_tools input) |>
                  <| t_model := default (t_model r) (u_model input) |>
                  <| t_reasoningEffort := default (t_reasoningEffort r) (u_reasoningEffort input) |>
                  <| t_sandboxBackend := default (t_sandboxBackend r) (u_sandboxBackend input) |>
                  <| t_metadata := default (t_metadata r) (u_metadata input) |>
                  <| t_updatedAt := now |> in
  match updated_rows (queuedTurnIs workspaceId turnId) edit (db_turns d) with
  | [] => Err (QueuedTurnNotFound turnId)
  | row :: _ => Ok (row, d <| db_turns ::= update_where (queuedTurnIs workspaceId turnId) edit |>)
  end.

Definition cancelled (now : Z) (r : TurnRow) : TurnRow :=
  r <| t_status := T_cancelled |> <| t_finishedAt := Some now |> <| t_updatedAt := now |>.

Definition cancelQueuedSessionTurn (now : Z) (workspaceId turnId : string) (d : Db) : result DbError (TurnRow * Db) :=
  match updated_rows (queuedTurnIs workspaceId turnId) (cancelled now) (db_turns d) with
  | [] => Err (QueuedTurnNotFound turnId)
  | row :: _ => Ok (row, d <| db_turns ::= update_where (queuedTurnIs workspaceId turnId) (cancelled now) |>)
  end.

Definition cancelQueuedSessionTurns (now : Z) (workspaceId sessionId : string) (d : Db) : list string * Db :=
  let matches r := turnOf workspaceId sessionId r && hasStatus [T_queued] r in
  (List.map t_id (sort_by (fun r => - t_position r) (updated_rows matches (cancelled now) (db_turns d))),
   d <| db_turns ::= update_where matches (cancelled now) |>).

(** The loop of [reorderQueuedSessionTurns]: position [index] for each id. *)
Fixpoint assignPositions (now : Z) (workspaceId : string) (index : Z) (turnIds : list string) (d : Db) : Db :=
  match turnIds with
  | [] => d
  | turnId :: turnIds =>
      assignPositions now workspaceId (index + 1) turnIds
        (d <| db_turns ::= update_where (turnIs workspaceId turnId)
                (fun r => r <| t_position := index + 1 |> <| t_updatedAt := now |>) |>)
  end.

Definition reorderQueuedSessionTurns (now : Z) (workspaceId sessionId : string) (turnIds : list string) (d : Db)
  : result DbError (list TurnRow * Db) :=
  let rows := select_where (fun r => turnOf workspaceId sessionId r && hasStatus [T_queued] r
                                     && bool_decide (t_id r ∈ turnIds)) (db_turns d) in
  if negb (Nat.eqb (length rows) (length turnIds)) then Err ReorderMismatch
  else
    let d := assignPositions now workspaceId 0 turnIds d in
    Ok (by_position (select_where (fun r => turnOf workspaceId sessionId r && hasStatus [T_queued] r) (db_turns d)), d).

(** ** Per-turn toolspace budget *)

Definition reserveToolspaceCallForTurn (workspaceId sessionId turnId : string) (lim : Z) (d : Db) : option Z * Db :=
  let matches r := turnOf workspaceId sessionId r && bool_decide (t_id r = turnId) && (t_toolspaceCallCount r <? lim) in
  let bump r := r <| t_toolspaceCallCount ::= Z.succ |> in
  (head (List.map t_toolspaceCallCount (updated_rows matches bump (db_turns d))),
   d <| db_turns ::= update_where matches bump |>).

(** ** A turn created outside the queue *)

Definition promptFromTrigger (payload : option json) : option jstr :=
  match payload with Some p => asString (prop (js "text") p) | None => None end.
Definition resourcesFromTrigger (payload : option json) : option json :=
  match payload with Some p => JArr <$> asArray (prop (js "resources") p) | None => None end.
Definition toolsFromTrigger (payload : option json) : option json :=
  match payload with Some p => JArr <$> asArray (prop (js "tools") p) | None => None end.

Definition reasoningEffortFromSession (s : SessionRow) : string :=
  match asString (prop (js "reasoningEffort") (s_metadata s)) with
  | Some value =>
      match List.find (fun v => bool_decide (js v = value)) ["none"; "minimal"; "low"; "medium"; "high"; "xhigh"]%string with
      | Some v => v
      | None => "medium"
      end
  | None => "medium"
  end%string.

Definition createTurn (now : Z) (workspaceId sessionId triggerEventId temporalWorkflowId : string) (d : Db)
  : result DbError (string * Db) :=
  match List.find (inSession workspaceId sessionId) (db_sessions d) with
  | None => Err (SessionNotFound sessionId)
  | Some session =>
      let payload := ev_payload <$> getSessionEvent workspaceId triggerEventId d in
      let id := uuid (db_fresh d) in
      let row := {|
        t_id := id; t_accountId := s_accountId session; t_workspaceId := s_workspaceId session;
        t_sessionId := sessionId; t_triggerEventId := triggerEventId; t_temporalWorkflowId := temporalWorkflowId;
        t_status := T_running; t_source := Src_user; t_position := nextTurnPosition workspaceId sessionId d;
        t_prompt := default (s_initialMessage session) (promptFromTrigger payload);
        t_resources := default (s_resources session) (resourcesFromTrigger payload);
        t_tools := default (s_tools session) (toolsFromTrigger payload);
        t_model := s_model session; t_reasoningEffort := reasoningEffortFromSession session;
        t_sandboxBackend := s_sandboxBackend session; t_metadata := []; t_toolspaceCallCount := 0;
        t_startedAt := Some now; t_finishedAt := None; t_createdAt := now; t_updatedAt := now |} in
      Ok (id, d <| db_turns ::= fun t => t ++ [row] |> <| db_fresh ::= S |>
                <| db_sessions ::= update_where (inSession workspaceId sessionId) (setActive now S_running (Some id)) |>)
  end.

(** ** The abstract queue *)

Lemma claim_leb_total a b : claim_leb a b = true \/ claim_leb b a = true.
Proof.
  unfold claim_leb. rewrite !orb_true_iff, !andb_true_iff, !orb_true_iff, !andb_true_iff, !Z.ltb_lt, !Z.eqb_eq.
  destruct (string_leb_total (t_id a) (t_id b)) as [-> | ->];
    destruct (Z.lt_trichotomy (t_position a) (t_position b)) as [|[|]]; auto;
    destruct (Z.lt_trichotomy (t_createdAt a) (t_createdAt b)) as [|[|]]; auto 10.
Qed.

Lemma claim_leb_trans a b c : claim_leb a b = true -> claim_leb b c = true -> claim_leb a c = true.
Proof.
  unfold claim_leb. rewrite !orb_true_iff, !andb_true_iff, !orb_true_iff, !andb_true_iff, !Z.ltb_lt, !Z.eqb_eq.
  intros [H|[H1 [H|[H2 H3]]]] [G|[G1 [G|[G2 G3]]]]; try (left; lia);
    right; (split; [lia|]); try (left; lia); right. split; [lia|]. by eapply string_leb_trans.
Qed.

Lemma claim_leb_antisym a b : claim_leb a b = true -> claim_leb b a = true -> t_id a = t_id b.
Proof.
  unfold claim_leb. rewrite !orb_true_iff, !andb_true_iff, !orb_true_iff, !andb_true_iff, !Z.ltb_lt, !Z.eqb_eq.
  intros [H|[H1 [H|[H2 H3]]]] [G|[G1 [G|[G2 G3]]]]; try lia. by apply string_leb_antisym.
Qed.

(** Primary keys are unique, and ids still to be generated are unused. *)
Record turns_ok (d : Db) : Prop := {
  ids_unique : NoDup (List.map t_id (db_turns d));
  ids_fresh : forall n r, (db_fresh d <= n)%nat -> r ∈ db_turns d -> t_id r <> uuid n
}.

Section queue.
Context (ws sid : string).

Definition isQueued (r : TurnRow) : bool := turnOf ws sid r && hasStatus [T_queued] r.
Abbreviation queue d := (queuedTurns ws sid d).
Abbreviation sorted l := (StronglySorted (fun a b => claim_leb a b = true) l).

Lemma queue_perm d : queue d ≡ₚ select_where isQueued (db_turns d).
Proof. apply sort_leb_perm. Qed.

Lemma queue_sorted d : sorted (queue d).
Proof. apply sort_leb_sorted; [apply claim_leb_total|apply claim_leb_trans]. Qed.

Lemma elem_of_queue d r : r ∈ queue d <-> isQueued r = true /\ r ∈ db_turns d.
Proof. rewrite queue_perm. apply elem_of_select_where. Qed.

Lemma queue_ids d : NoDup (List.map t_id (db_turns d)) -> NoDup (List.map t_id (queue d)).
Proof. intros H. rewrite queue_perm. by apply NoDup_map_filter. Qed.

(** A sorted listing of the queued turns is the queue. *)
Lemma queue_unique d l :
  NoDup (List.map t_id (db_turns d)) -> sorted l -> l ≡ₚ select_where isQueued (db_turns d) -> queue d = l.
Proof.
  intros Hnd Hs Hp. apply (StronglySorted_unique_strong (fun a b => claim_leb a b = true)).
  - intros x y Hx Hy Hxy Hyx. apply elem_of_queue in Hx as [_ Hx].
    rewrite Hp in Hy. apply elem_of_select_where in Hy as [_ Hy].
    eapply (select_unique t_id); [exact Hnd|done..|]. symmetry. by apply claim_leb_antisym.
  - apply queue_sorted.
  - done.
  - by rewrite queue_perm, Hp.
Qed.

Lemma turnIs_true w id r : turnIs w id r = true <-> t_workspaceId r = w /\ t_id r = id.
Proof. unfold turnIs, turnIn. by rewrite andb_true_iff, !bool_decide_eq_true. Qed.

Lemma isQueued_true r :
  isQueued r = true <-> t_workspaceId r = ws /\ t_sessionId r = sid /\ t_status r = T_queued.
Proof.
  unfold isQueued, turnOf, turnIn, hasStatus.
  rewrite !andb_true_iff, !bool_decide_eq_true, list_elem_of_singleton. tauto.
Qed.

(** Taking one queued row out of the queue. *)
Lemma select_dequeue id f (t : list TurnRow) :
  (forall r, isQueued (f r) = false) ->
  select_where isQueued (update_where (turnIs ws id) f t) =
  List.filter (fun r => negb (bool_decide (t_id r = id))) (select_where isQueued t).
Proof.
  intros Hf. unfold select_where, update_where. induction t as [|r t IH]; cbn; [done|].
  destruct (turnIs ws id r) eqn:E.
  - apply turnIs_true in E as [Hw Hid]. rewrite Hf, IH. destruct (isQueued r); cbn; [|done].
    by rewrite bool_decide_eq_true_2.
  - destruct (isQueued r) eqn:Eq; cbn; [|done].
    rewrite bool_decide_eq_false_2; cbn; [by rewrite IH|].
    intros Hid. apply isQueued_true in Eq as (Hw & _). apply not_true_iff_false in E.
    apply E, turnIs_true. done.
Qed.

Lemma filter_other_id r (l : list TurnRow) :
  NoDup (List.map t_id (r :: l)) -> List.filter (fun x => negb (bool_decide (t_id x = t_id r))) (r :: l) = l.
Proof.
  cbn. intros [Hr _]%NoDup_cons. rewrite bool_decide_eq_true_2 by done. cbn.
  apply filter_all, Forall_forall. intros x Hx. apply negb_true_iff, bool_decide_eq_false. intros Heq.
  apply Hr. rewrite <- Heq, list_elem_of_In. apply in_map. by apply list_elem_of_In.
Qed.

Lemma map_id_update p f (t : list TurnRow) :
  (forall r, t_id (f r) = t_id r) -> List.map t_id (update_where p f t) = List.map t_id t.
Proof. intros H. apply map_update_where. auto. Qed.
(** An update that keeps the order keys and the queued flag of every row keeps
    the queue, row by row. *)
Lemma queue_map d d' g :
  db_turns d' = List.map g (db_turns d) ->
  (forall r, r ∈ db_turns d -> isQueued (g r) = isQueued r) ->
  (forall r, t_position (g r) = t_position r /\ t_createdAt (g r) = t_createdAt r /\ t_id (g r) = t_id r) ->
  queue d' = List.map g (queue d).
Proof.
  intros Hd Hq Hk.
  assert (Hleb : forall a b, claim_leb (g a) (g b) = claim_leb a b).
  { intros a b. unfold claim_leb. destruct (Hk a) as (-> & -> & ->), (Hk b) as (-> & -> & ->). done. }
  assert (Hins : forall x l, insert_leb claim_leb (g x) (List.map g l) = List.map g (insert_leb claim_leb x l)).
  { intros x l. induction l as [|y l IH]; cbn; [done|]. rewrite Hleb. destruct (claim_leb x y); cbn; [done|]. by rewrite IH. }
  assert (Hsort : forall l, sort_leb claim_leb (List.map g l) = List.map g (sort_leb claim_leb l)).
  { intros l. induction l as [|x l IH]; cbn; [done|]. by rewrite IH, Hins. }
  unfold queuedTurns. rewrite <- Hsort. f_equal. rewrite Hd. clear Hd. unfold select_where.
  induction (db_turns d) as [|r t IH]; cbn; [done|].
  change (turnOf ws sid (g r) && hasStatus [T_queued] (g r)) with (isQueued (g r)).
  change (turnOf ws sid r && hasStatus [T_queued] r) with (isQueued r).
  rewrite Hq by left. rewrite IH by (intros r' Hr'; apply Hq; by right). by destruct (isQueued r).
Qed.

(** The claim of the head. *)
Lemma claim_head now wf d r q :
  NoDup (List.map t_id (db_turns d)) -> queue d = r :: q ->
  List.find (inSession ws sid) (db_sessions d) <> None ->
  exists d', claimNextQueuedTurn now ws sid wf d =
    (Some (r <| t_status := T_running |> <| t_temporalWorkflowId := wf |> <| t_startedAt := Some now |> <| t_updatedAt := now |>), d') /\
    db_turns d' = update_where (turnIs ws (t_id r))
      (fun r => r <| t_status := T_running |> <| t_temporalWorkflowId := wf |> <| t_startedAt := Some now |> <| t_updatedAt := now |>)
      (db_turns d) /\
    db_sessions d' = update_where (inSession ws sid) (setActive now S_running (Some (t_id r))) (db_sessions d) /\
    db_fresh d' = db_fresh d /\
    queue d' = q.
Proof.
  intros Hnd Hq Hs. unfold claimNextQueuedTurn. destruct (List.find _ _); [|done]. rewrite Hq.
  set (claim := fun x : TurnRow => _). set (d' := setWith db_sessions _ _).
  assert (Ht : db_turns d' = update_where (turnIs ws (t_id r)) claim (db_turns d)) by done.
  exists d'. split; [done|]. split; [exact Ht|]. split; [done|]. split; [done|].
  pose proof (queue_ids d Hnd) as Hids. pose proof (queue_sorted d) as Hso. rewrite Hq in Hids, Hso.
  apply queue_unique.
  - rewrite Ht. by rewrite map_id_update.
  - by apply StronglySorted_inv in Hso as [Hso _].
  - rewrite Ht, (select_dequeue (t_id r)); [|intros x; apply andb_false_iff; by right].
    rewrite <- queue_perm, Hq. by rewrite filter_other_id.
Qed.

Lemma nextTurnPosition_gt d r : r ∈ db_turns d -> turnOf ws sid r = true -> t_position r < nextTurnPosition ws sid d.
Proof.
  intros Hr Ht. unfold nextTurnPosition.
  assert (Hin : t_position r ∈ List.map t_position (select_where (turnOf ws sid) (db_turns d))).
  { apply list_elem_of_In, in_map, list_elem_of_In, elem_of_select_where. done. }
  destruct (List.map t_position _) as [|p ps]; [by apply elem_of_nil in Hin|].
  assert (forall x l, x ∈ l -> x <= fold_right Z.max p l) as Hmax.
  { intros x l. induction l as [|y l IH]; [by intros ?%elem_of_nil|]. cbn.
    intros [->|Hx]%elem_of_cons; [lia|]. specialize (IH Hx). lia. }
  assert (p <= fold_right Z.max p ps) by (clear; induction ps; cbn; lia).
  apply elem_of_cons in Hin as [->|Hin]; [lia|]. specialize (Hmax _ _ Hin). lia.
Qed.

Lemma sorted_app (l k : list TurnRow) :
  sorted l -> sorted k -> (forall x y, x ∈ l -> y ∈ k -> claim_leb x y = true) -> sorted (l ++ k).
Proof.
  induction 1 as [|x l Hs IH Hx]; intros Hk Hlk; cbn; [done|]. constructor.
  - apply IH; [done|]. intros a b Ha. apply Hlk. by right.
  - apply Forall_app. split; [done|]. apply Forall_forall. intros y Hy. apply Hlk; [left|done].
Qed.

Lemma claim_leb_position a b : t_position a < t_position b -> claim_leb a b = true.
Proof. intros H. unfold claim_leb. by rewrite (proj2 (Z.ltb_lt _ _) H). Qed.

Lemma claim_leb_le a b : claim_leb a b = true -> t_position a <= t_position b.
Proof. unfold claim_leb. rewrite orb_true_iff, andb_true_iff, Z.ltb_lt, Z.eqb_eq. lia. Qed.

(** A new row behind every queued one. *)
Lemma queue_snoc d d' row :
  turns_ok d -> db_turns d' = db_turns d ++ [row] -> t_id row = uuid (db_fresh d) ->
  isQueued row = true -> (forall r, r ∈ queue d -> t_position r < t_position row) ->
  queue d' = queue d ++ [row].
Proof.
  intros [Hnd Hfr] Hd Hid Hq Hpos. apply queue_unique.
  - rewrite Hd, map_app. apply NoDup_app. split_and!; [done| |apply NoDup_singleton].
    intros x Hx Hx'. apply list_elem_of_singleton in Hx' as ->.
    apply list_elem_of_In, in_map_iff in Hx as (r & Hr & Hin). apply list_elem_of_In in Hin.
    apply (Hfr (db_fresh d) r); [lia|done|congruence].
  - apply sorted_app; [apply queue_sorted|repeat constructor|].
    intros x y Hx ->%list_elem_of_singleton. by apply claim_leb_position, Hpos.
  - rewrite Hd. unfold select_where. rewrite List.filter_app. cbn. rewrite Hq.
    apply Permutation_app_tail, queue_perm.
Qed.
Lemma sorted_split m (l : list TurnRow) :
  sorted l ->
  exists A B, l = A ++ B /\ Forall (fun r => t_position r < m) A /\ Forall (fun r => m <= t_position r) B.
Proof.
  induction 1 as [|x l Hs IH Hx]; [by exists [], []|].
  destruct (decide (t_position x < m)) as [Hlt|Hge].
  - destruct IH as (A & B & -> & HA & HB). exists (x :: A), B. split_and!; [done|by constructor|done].
  - exists [], (x :: l). split_and!; [done|constructor|]. constructor; [lia|].
    eapply Forall_impl; [exact Hx|]. intros y Hy. apply claim_leb_le in Hy. lia.
Qed.

Lemma list_min_spec l m : list_min l = Some m -> m ∈ l /\ Forall (fun x => m <= x) l.
Proof.
  destruct l as [|p ps]; [done|]. cbn. intros [= <-].
  assert (fold_right Z.min p ps <= p /\ Forall (fun x => fold_right Z.min p ps <= x) ps /\
          (fold_right Z.min p ps = p \/ fold_right Z.min p ps ∈ ps)) as (H1 & H2 & H3).
  { induction ps as [|q ps IH]; cbn; [split_and!; [lia|done|by left]|].
    destruct IH as (IH1 & IH2 & IH3). split_and!; [lia| |].
    - constructor; [lia|]. eapply Forall_impl; [exact IH2|]. cbn. intros; lia.
    - rewrite elem_of_cons. destruct (Z.min_spec q (fold_right Z.min p ps)) as [[_ ->]|[_ ->]]; tauto. }
  split; [rewrite elem_of_cons; tauto|]. by constructor.
Qed.

Lemma list_min_none l : list_min l = None -> l = [].
Proof. by destruct l. Qed.

(** Opening a slot at [m]: the queued rows from [m] on move back by one. *)
Definition shifted now m (r : TurnRow) : TurnRow :=
  if isQueued r && (m <=? t_position r) then r <| t_position ::= Z.succ |> <| t_updatedAt := now |> else r.

Lemma queue_insert d d' now m row A B :
  turns_ok d -> db_turns d' = List.map (shifted now m) (db_turns d) ++ [row] ->
  t_id row = uuid (db_fresh d) -> isQueued row = true -> t_position row = m ->
  queue d = A ++ B -> Forall (fun r => t_position r < m) A -> Forall (fun r => m <= t_position r) B ->
  queue d' = A ++ row :: List.map (fun r => r <| t_position ::= Z.succ |> <| t_updatedAt := now |>) B.
Proof.
  intros [Hnd Hfr] Hd Hid Hq Hm HAB HA HB.
  assert (Hsh : forall r, t_id (shifted now m r) = t_id r) by (intros r; unfold shifted; by destruct (_ && _)).
  assert (Hsel : select_where isQueued (List.map (shifted now m) (db_turns d)) ≡ₚ
                 A ++ List.map (fun r => r <| t_position ::= Z.succ |> <| t_updatedAt := now |>) B).
  { trans (List.map (shifted now m) (A ++ B)).
    - rewrite <- HAB, queue_perm. unfold select_where.
      assert (forall r, isQueued (shifted now m r) = isQueued r) as Hi.
      { intros r. unfold shifted. destruct (isQueued r) eqn:E; cbn; [|by rewrite E]. by destruct (m <=? _). }
      clear -Hi. induction (db_turns d) as [|r t IH]; cbn; [done|]. rewrite Hi. destruct (isQueued r); cbn; by rewrite IH.
    - rewrite map_app. apply Permutation_refl'. f_equal.
      + rewrite <- (List.map_id A) at 2. apply map_ext_in. intros r Hr%list_elem_of_In.
        pose proof (proj1 (Forall_forall _ _) HA r Hr) as Hlt. cbn in Hlt. unfold shifted.
        rewrite (proj2 (Z.leb_gt _ _)) by done. by rewrite andb_false_r.
      + apply map_ext_in. intros r Hr%list_elem_of_In.
        pose proof (proj1 (Forall_forall _ _) HB r Hr) as Hge. cbn in Hge. unfold shifted.
        assert (r ∈ queue d) as [-> _]%elem_of_queue by (rewrite HAB, elem_of_app; by right).
        by rewrite (proj2 (Z.leb_le _ _)). }
  apply queue_unique.
  - rewrite Hd, map_app, List.map_map, (map_ext _ t_id) by done. apply NoDup_app.
    split_and!; [done| |apply NoDup_singleton].
    intros x Hx Hx'. apply list_elem_of_singleton in Hx' as ->.
    apply list_elem_of_In, in_map_iff in Hx as (r & Hr & Hin). apply list_elem_of_In in Hin.
    apply (Hfr (db_fresh d) r); [lia|done|congruence].
  - pose proof (queue_sorted d) as Hs. rewrite HAB in Hs.
    assert (HsB : sorted (List.map (fun r => r <| t_position ::= Z.succ |> <| t_updatedAt := now |>) B)).
    { assert (HsB : sorted B) by (clear -Hs; induction A; [done|]; inversion Hs; auto).
      clear -HsB. induction HsB as [|x l Hl IH Hx]; cbn; constructor; [done|].
      apply Forall_map. eapply Forall_impl; [exact Hx|]. intros y. unfold claim_leb. cbn.
      rewrite !orb_true_iff, !andb_true_iff, !Z.ltb_lt, !Z.eqb_eq. intros [|[? ?]]; [left; lia|right]. split; [lia|done]. }
    assert (HsA : sorted A).
    { clear -Hs. induction A as [|x A IH]; [constructor|]. inversion Hs as [|? ? Hs' Hx]; subst.
      constructor; [by apply IH|]. by apply Forall_app in Hx as [? _]. }
    apply sorted_app; [done| |].
    + constructor; [done|]. apply Forall_map. eapply Forall_impl; [exact HB|]. intros y Hy. cbn in Hy.
      apply claim_leb_position. cbn. lia.
    + intros x y Hx Hy. pose proof (proj1 (Forall_forall _ _) HA x Hx) as Hlt. cbn in Hlt.
      apply claim_leb_position. apply elem_of_cons in Hy as [->|Hy]; [lia|].
      apply list_elem_of_In, in_map_iff in Hy as (z & <- & Hz). apply list_elem_of_In in Hz.
      pose proof (proj1 (Forall_forall _ _) HB z Hz) as Hge. cbn in *. lia.
  - rewrite Hd. unfold select_where. rewrite List.filter_app. cbn. rewrite Hq.
    change (List.filter isQueued (List.map (shifted now m) (db_turns d))) with
      (select_where isQueued (List.map (shifted now m) (db_turns d))).
    rewrite Hsel, <- app_assoc. cbn. apply Permutation_app_head. apply Permutation_cons_append.
Qed.

Lemma shift_update now m (t : list TurnRow) :
  update_where (fun r => turnOf ws sid r && hasStatus [T_queued] r && (m <=? t_position r))
    (fun r => r <| t_position ::= Z.succ |> <| t_updatedAt := now |>) t = List.map (shifted now m) t.
Proof. done. Qed.

(** The rows of an id list after the reorder loop. *)
Lemma assignPositions_spec now ids i d :
  NoDup ids ->
  exists g, db_turns (assignPositions now ws i ids d) = List.map g (db_turns d) /\
    (forall r, t_id (g r) = t_id r /\ t_workspaceId (g r) = t_workspaceId r /\ t_sessionId (g r) = t_sessionId r /\
               t_status (g r) = t_status r) /\
    (forall r k, t_workspaceId r = ws -> ids !! k = Some (t_id r) -> t_position (g r) = i + Z.of_nat k + 1) /\
    (forall r, t_id r ∉ ids -> g r = r).
Proof.
  revert i d; induction ids as [|id ids IH]; intros i d Hnd; cbn [assignPositions].
  { exists (fun r => r). rewrite List.map_id. done. }
  apply NoDup_cons in Hnd as [Hid Hnd].
  set (f := fun r : TurnRow => if turnIs ws id r then r <| t_position := i + 1 |> <| t_updatedAt := now |> else r).
  destruct (IH (i + 1) (d <| db_turns := List.map f (db_turns d) |>) Hnd) as (g & Hg & Hk & Hp & Ho).
  exists (fun r => g (f r)). split_and!.
  - rewrite <- List.map_map. exact Hg.
  - intros r. destruct (Hk (f r)) as (-> & -> & -> & ->). unfold f. by destruct (turnIs ws id r).
  - intros r [|k] Hw Hl; cbn in Hl.
    + injection Hl as ->. rewrite Ho.
      * unfold f. rewrite (proj2 (turnIs_true ws (t_id r) r)) by done. cbn. lia.
      * unfold f. by destruct (turnIs ws (t_id r) r).
    + assert (f r = r) as Hf.
      { unfold f. destruct (turnIs ws id r) eqn:E; [|done]. apply turnIs_true in E as [_ E].
        destruct Hid. rewrite <- E. by eapply list_elem_of_lookup_2. }
      rewrite Hf, (Hp r k) by done. lia.
  - intros r [Hne Hni]%not_elem_of_cons.
    assert (f r = r) as Hf.
    { unfold f. destruct (turnIs ws id r) eqn:E; [|done]. by apply turnIs_true in E as [_ E]. }
    by rewrite Hf, Ho.
Qed.

(** Rows sorted by the positions of a reorder are in the order of its ids. *)
Lemma reordered ids (l : list TurnRow) :
  NoDup ids -> List.map t_id l ≡ₚ ids ->
  (forall r k, r ∈ l -> ids !! k = Some (t_id r) -> t_position r = Z.of_nat k + 1) ->
  StronglySorted (key_le t_position) l -> List.map t_id l = ids.
Proof.
  intros Hnd Hp Hk Hs.
  set (R := fun a b => forall i j, ids !! i = Some a -> ids !! j = Some b -> (i <= j)%nat).
  apply (StronglySorted_unique_strong R).
  - intros x y Hx Hy Hxy Hyx. rewrite Hp in Hx. apply list_elem_of_lookup in Hx as [i Hi], Hy as [j Hj].
    specialize (Hxy i j Hi Hj). specialize (Hyx j i Hj Hi). assert (i = j) as -> by lia. congruence.
  - clear Hp. induction Hs as [|x l Hs IH Hx]; cbn; constructor.
    + apply IH. intros r k Hr. apply Hk. by right.
    + apply Forall_map, Forall_forall. intros y Hy i j Hi Hj.
      pose proof (proj1 (Forall_forall _ _) Hx y Hy) as Hle. unfold key_le in Hle.
      rewrite (Hk x i), (Hk y j) in Hle by (done || by (left + right)). lia.
  - clear -Hnd. assert (Hsuf : forall pre l, pre ++ l = ids -> StronglySorted R l); [|by apply (Hsuf [])].
    intros pre l. revert pre. induction l as [|x l IH]; intros pre Heq; constructor.
    + apply (IH (pre ++ [x])). by rewrite <- app_assoc.
    + apply Forall_forall. intros y [n Hn]%list_elem_of_lookup i j Hi Hj.
      assert (i = length pre) as ->.
      { eapply NoDup_lookup; [exact Hnd|exact Hi|]. by rewrite <- Heq, list_lookup_middle. }
      assert (j = length pre + S n)%nat as ->; [|lia].
      eapply NoDup_lookup; [exact Hnd|exact Hj|]. rewrite <- Heq, lookup_app_r by lia.
      by replace (length pre + S n - length pre)%nat with (S n) by lia.
  - done.
Qed.
End queue.

(** Claiming pops the abstract queue: the head of the
    [(position, created_at, id)] order becomes the session's running, active
    turn, the rest of the queue and every other row stay as they are; an empty
    queue changes nothing. *)
Theorem claim_pops_queue now ws sid wf d :
  turns_ok d -> List.find (inSession ws sid) (db_sessions d) <> None ->
  match queuedTurns ws sid d with
  | [] => claimNextQueuedTurn now ws sid wf d = (None, d)
  | r :: q => exists t d', claimNextQueuedTurn now ws sid wf d = (Some t, d') /\
      t_id t = t_id r /\ t_status t = T_running /\ getSessionTurn ws (t_id r) d' = Some t /\
      queuedTurns ws sid d' = q /\
      (forall r', r' ∈ db_turns d -> t_id r' <> t_id r -> r' ∈ db_turns d') /\
      (forall s, s ∈ db_sessions d' -> inSession ws sid s = true -> s_status s = S_running /\ s_activeTurnId s = Some (t_id r))
  end.
Proof.
  intros [Hnd Hfr] Hs. destruct (queuedTurns ws sid d) as [|r q] eqn:Hq.
  { unfold claimNextQueuedTurn. destruct (List.find _ _); [|done]. by rewrite Hq. }
  destruct (claim_head ws sid now wf d r q Hnd Hq Hs) as (d' & Hc & Ht & Hss & _ & Hq').
  assert (isQueued ws sid r = true /\ r ∈ db_turns d) as [Hr Hin] by (apply elem_of_queue; rewrite Hq; left).
  apply isQueued_true in Hr as (Hw & _).
  eexists _, d'. split_and!; [done..| |done| |].
  - unfold getSessionTurn. rewrite Ht. clear -Hnd Hin Hw. unfold update_where.
    induction (db_turns d) as [|x l IH]; [by apply elem_of_nil in Hin|]. cbn [List.map List.find].
    cbn [List.map] in Hnd. apply NoDup_cons in Hnd as [Hx Hnd].
    apply elem_of_cons in Hin as [<-|Hin].
    + rewrite (proj2 (turnIs_true ws (t_id r) r)) by done. by rewrite (proj2 (turnIs_true _ _ _)).
    + destruct (turnIs ws (t_id r) x) eqn:E.
      * apply turnIs_true in E as [_ E]. destruct Hx. rewrite E. by apply list_elem_of_In, in_map, list_elem_of_In.
      * rewrite E. by apply IH.
  - intros r' Hr' Hne. rewrite Ht. apply elem_of_update_where. exists r'. split; [done|].
    destruct (turnIs ws (t_id r) r') eqn:E; [|done]. by apply turnIs_true in E as [_ E].
  - intros s Hs' Hin'. rewrite Hss in Hs'. apply elem_of_update_where in Hs' as (s0 & _ & ->).
    destruct (inSession ws sid s0) eqn:E; [done|congruence].
Qed.

(** Where an enqueued turn lands: at the back, except that a human message
    sent with [preemptChildNotifications] goes in front of every queued
    child-completion notice, behind everything that precedes the first one.
    Nobody else's order changes. *)
Theorem enqueue_position now input d row d' :
  turns_ok d -> enqueueSessionTurn now input d = (row, d') ->
  let q := queuedTurns (q_workspaceId input) (q_sessionId input) in
  exists A B, q d = A ++ B /\ List.map t_id (q d') = List.map t_id A ++ t_id row :: List.map t_id B /\
    (q_preemptChildNotifications input = false -> B = []) /\
    (q_preemptChildNotifications input = true -> Forall (fun r => isChildNotification r = false) A) /\
    (Forall (fun r => isChildNotification r = false) (q d) -> B = []).
Proof.
  intros Hok Henq. unfold enqueueSessionTurn in Henq.
  set (ws := q_workspaceId input) in *. set (sid := q_sessionId input) in *.
  assert (Hback : positionForEnqueue now ws sid (q_preemptChildNotifications input) d = (nextTurnPosition ws sid d, d) ->
    q_preemptChildNotifications input = false \/ Forall (fun r => isChildNotification r = false) (queuedTurns ws sid d) ->
    exists A B, queuedTurns ws sid d = A ++ B /\
      List.map t_id (queuedTurns ws sid d') = List.map t_id A ++ t_id row :: List.map t_id B /\
      (q_preemptChildNotifications input = false -> B = []) /\
      (q_preemptChildNotifications input = true -> Forall (fun r => isChildNotification r = false) A) /\
      (Forall (fun r => isChildNotification r = false) (queuedTurns ws sid d) -> B = [])).
  { intros Hp Hn. rewrite Hp in Henq. injection Henq as <- <-.
    exists (queuedTurns ws sid d), []. rewrite app_nil_r. split_and!; [done| |done| |done].
    - erewrite (queue_snoc ws sid d); [|done|done|done| |].
      + by rewrite map_app.
      + by apply isQueued_true.
      + intros r Hr. cbn. apply elem_of_queue in Hr as [Hr Hin]. apply andb_true_iff in Hr as [Hr _].
        by apply nextTurnPosition_gt.
    - intros Hb. destruct Hn as [Hn|]; [congruence|done]. }
  unfold positionForEnqueue in *. destruct (q_preemptChildNotifications input) eqn:Hpre; cbn [negb] in *; [|by auto].
  destruct (list_min _) as [m|] eqn:Hm.
  2: { apply Hback; [done|right]. apply list_min_none, map_eq_nil in Hm. apply Forall_forall. intros r Hr.
       apply not_true_iff_false. intros Hc. apply elem_of_queue in Hr as [Hr Hin].
       assert (r ∈ select_where (fun r => turnOf ws sid r && hasStatus [T_queued] r && isChildNotification r) (db_turns d)) as Hx.
       { apply elem_of_select_where. split; [|done]. unfold isQueued in Hr. by rewrite Hr. }
       rewrite Hm in Hx. by apply elem_of_nil in Hx. }
  apply list_min_spec in Hm as [Hin Hmin]. injection Henq as <- <-.
  destruct (sorted_split m (queuedTurns ws sid d)) as (A & B & HAB & HA & HB); [apply queue_sorted|].
  exists A, B. split_and!; [done| |done| |].
  - erewrite (queue_insert ws sid d _ now m _ A B); [|done|done|done|by apply isQueued_true|done..].
    rewrite map_app. cbn [List.map]. by rewrite List.map_map.
  - intros _. apply Forall_forall. intros r Hr. apply not_true_iff_false. intros Hc.
    assert (r ∈ queuedTurns ws sid d) as [Hq Hin']%elem_of_queue by (rewrite HAB, elem_of_app; by left).
    pose proof (proj1 (Forall_forall _ _) HA r Hr) as Hlt. cbn in Hlt.
    assert (t_position r ∈ List.map t_position (select_where
      (fun r => turnOf ws sid r && hasStatus [T_queued] r && isChildNotification r) (db_turns d))) as Hx.
    { apply list_elem_of_In, in_map, list_elem_of_In, elem_of_select_where. split; [|done].
      unfold isQueued in Hq. by rewrite Hq. }
    pose proof (proj1 (Forall_forall _ _) Hmin _ Hx) as Hle. cbn in Hle. lia.
  - intros Hn. apply list_elem_of_In, in_map_iff in Hin as (r & _ & Hr). apply list_elem_of_In, elem_of_select_where in Hr as [Hr Hin].
    apply andb_true_iff in Hr as [Hr Hc].
    assert (r ∈ queuedTurns ws sid d) as Hq by (by apply elem_of_queue).
    pose proof (proj1 (Forall_forall _ _) Hn r Hq) as Hf. cbn in Hf. congruence.
Qed.

(** A preempted turn comes back in front: claiming and then requeueing it
    restores the order of the queue, with the turn at its head again, carrying
    the new trigger. *)
Theorem requeue_restores_queue now now' ws sid wf trigger d t d1 :
  turns_ok d -> claimNextQueuedTurn now ws sid wf d = (Some t, d1) ->
  exists d2, requeuePreemptedTurn now' ws (t_id t) trigger defaultFromStatuses d1 = Ok d2 /\
    List.map t_id (queuedTurns ws sid d2) = List.map t_id (queuedTurns ws sid d) /\
    exists r, head (queuedTurns ws sid d2) = Some r /\ t_id r = t_id t /\ t_triggerEventId r = trigger.
Proof.
  intros [Hnd Hfr] Hc.
  assert (Hs : List.find (inSession ws sid) (db_sessions d) <> None).
  { unfold claimNextQueuedTurn in Hc. by destruct (List.find _ _). }
  destruct (queuedTurns ws sid d) as [|r q] eqn:Hq.
  { unfold claimNextQueuedTurn in Hc. destruct (List.find _ _); [|done]. by rewrite Hq in Hc. }
  destruct (claim_head ws sid now wf d r q Hnd Hq Hs) as (d' & Hc' & Ht & _).
  rewrite Hc in Hc'. injection Hc' as -> ->. cbn [t_id setWith].
  assert (isQueued ws sid r = true /\ r ∈ db_turns d) as [Hr Hin] by (apply elem_of_queue; rewrite Hq; left).
  apply isQueued_true in Hr as (Hw & Hss & Hst).
  unfold requeuePreemptedTurn. set (matches := fun r0 : TurnRow => _).
  set (f := fun r0 : TurnRow => r0 <| t_status := T_running |> <| t_temporalWorkflowId := wf |>
              <| t_startedAt := Some now |> <| t_updatedAt := now |>) in *.
  set (f2 := fun r0 : TurnRow => r0 <| t_status := T_queued |> <| t_triggerEventId := trigger |>
              <| t_startedAt := None |> <| t_finishedAt := None |> <| t_updatedAt := now' |>).
  assert (Hm : forall x, matches (f x) = turnIs ws (t_id r) x) by (intros x; apply andb_true_r).
  destruct (select_where matches (db_turns d')) as [|y l] eqn:Hsel.
  { assert (f r ∈ select_where matches (db_turns d')) as Hx.
    { apply elem_of_select_where. rewrite Hm, Ht. split; [by apply turnIs_true|].
      apply elem_of_update_where. exists r. by rewrite (proj2 (turnIs_true ws (t_id r) r)). }
    rewrite Hsel in Hx. by apply elem_of_nil in Hx. }
  eexists. split; [done|].
  set (g := fun x => if turnIs ws (t_id r) x then f2 (f x) else x).
  assert (Hg : queuedTurns ws sid (d' <| db_turns ::= update_where matches f2 |>) = List.map g (queuedTurns ws sid d)).
  { apply queue_map.
    - cbn [db_turns setWith]. rewrite Ht. unfold update_where. rewrite List.map_map. apply map_ext_in.
      intros x Hx%list_elem_of_In. unfold g. destruct (turnIs ws (t_id r) x) eqn:E; [by rewrite Hm, E|].
      unfold matches. by rewrite E.
    - intros x Hx. unfold g. destruct (turnIs ws (t_id r) x) eqn:E; [|done].
      apply turnIs_true in E as [_ E]. assert (x = r) as -> by (eapply (select_unique t_id); eauto).
      rewrite (proj2 (isQueued_true ws sid r)) by done. by apply isQueued_true.
    - intros x. unfold g. by destruct (turnIs ws (t_id r) x). }
  rewrite Hg, Hq. split.
  - rewrite List.map_map. cbn [List.map]. f_equal.
    + unfold g. by destruct (turnIs ws (t_id r) r).
    + apply map_ext. intros x. unfold g. by destruct (turnIs ws (t_id r) x).
  - exists (g r). split; [done|]. unfold g. by rewrite (proj2 (turnIs_true ws (t_id r) r) (conj Hw eq_refl)).
Qed.

(** Reordering the whole queue puts it in the requested order, for the
    listing it returns and for the claims that follow. *)
Theorem reorder_sets_order now ws sid ids d :
  turns_ok d -> List.map t_id (queuedTurns ws sid d) ≡ₚ ids ->
  exists rows d', reorderQueuedSessionTurns now ws sid ids d = Ok (rows, d') /\
    List.map t_id rows = ids /\ List.map t_id (queuedTurns ws sid d') = ids.
Proof.
  intros [Hnd Hfr] Hp. assert (Hids : NoDup ids) by (rewrite <- Hp; by apply queue_ids).
  destruct (assignPositions_spec ws now ids 0 d Hids) as (g & Hg & Hk & Hpos & Ho).
  set (d' := assignPositions now ws 0 ids d) in *.
  assert (Hsel : select_where (isQueued ws sid) (db_turns d') = List.map g (select_where (isQueued ws sid) (db_turns d))).
  { rewrite Hg. unfold select_where. clear -Hk. induction (db_turns d) as [|r t IH]; cbn; [done|].
    assert (isQueued ws sid (g r) = isQueued ws sid r) as ->.
    { unfold isQueued, turnOf, turnIn, hasStatus. by destruct (Hk r) as (_ & -> & -> & ->). }
    destruct (isQueued ws sid r); cbn; by rewrite IH. }
  assert (Hmap : List.map t_id (select_where (isQueued ws sid) (db_turns d')) ≡ₚ ids).
  { rewrite Hsel, List.map_map, (map_ext _ t_id) by (intros x; apply Hk). by rewrite <- (queue_perm ws sid), Hp. }
  assert (Hposd : forall r k, r ∈ select_where (isQueued ws sid) (db_turns d') -> ids !! k = Some (t_id r) -> t_position r = Z.of_nat k + 1).
  { intros r k Hr Hl. rewrite Hsel in Hr. apply list_elem_of_In, in_map_iff in Hr as (x & <- & Hx).
    apply list_elem_of_In, elem_of_select_where in Hx as [Hx _]. apply isQueued_true in Hx as (Hw & _).
    destruct (Hk x) as (Hi & _). rewrite Hi in Hl. rewrite (Hpos x k) by done. lia. }
  unfold reorderQueuedSessionTurns. fold d'.
  assert (Hlen : length (select_where (fun r => turnOf ws sid r && hasStatus [T_queued] r && bool_decide (t_id r ∈ ids)) (db_turns d)) = length ids).
  { rewrite <- Hp, length_map, queue_perm. unfold select_where. f_equal. apply List.filter_ext_in.
    intros r Hr%list_elem_of_In. change (turnOf ws sid r && hasStatus [T_queued] r) with (isQueued ws sid r).
    destruct (isQueued ws sid r) eqn:E; [|done]. cbn. apply bool_decide_eq_true. rewrite <- Hp.
    apply list_elem_of_In, in_map, list_elem_of_In, elem_of_queue. done. }
  rewrite Hlen, Nat.eqb_refl. cbn [negb].
  change (fun r => turnOf ws sid r && hasStatus [T_queued] r) with (isQueued ws sid).
  eexists _, d'. split; [done|]. split.
  - apply reordered; [done| | |apply sort_by_sorted].
    + unfold by_position. by rewrite !sort_by_perm.
    + intros r k Hr. apply Hposd. unfold by_position in Hr. by rewrite !elem_of_sort_by in Hr.
  - apply reordered; [done| | |].
    + by rewrite queue_perm.
    + intros r k Hr. apply Hposd. by rewrite <- (queue_perm ws sid).
    + pose proof (queue_sorted ws sid d') as Hs. clear -Hs.
      induction Hs as [|x l Hs IH Hx]; constructor; [done|].
      eapply Forall_impl; [exact Hx|]. intros y. apply claim_leb_le.
Qed.

(** ** Zombies *)

(** The transactions other actors may run on the queue after a recovery, every
    edit of a queued turn among them; [kept] are the turns no edit replaces the
    metadata of: nothing is excluded with [fun _ => False]. *)
Inductive queue_step (kept : string -> Prop) (d d' : Db) : Prop :=
| qs_enqueue now input row : enqueueSessionTurn now input d = (row, d') -> queue_step kept d d'
| qs_claim now ws sid wf t : claimNextQueuedTurn now ws sid wf d = (t, d') -> queue_step kept d d'
| qs_finish now ws id status : d' = finishTurn now ws id status d -> queue_step kept d d'
| qs_requeue now ws id trigger from : requeuePreemptedTurn now ws id trigger from d = Ok d' -> queue_step kept d d'
| qs_increment now ws id n : incrementTurnWorkerDeathRedispatches now ws id d = Ok (n, d') -> queue_step kept d d'
| qs_dying now ws id n b : cancelTurnFromDyingDispatch now ws id n d = (b, d') -> queue_step kept d d'
| qs_edit now ws id input t : (kept id -> u_metadata input = None) -> updateQueuedSessionTurn now ws id input d = Ok (t, d') -> queue_step kept d d'
| qs_reorder now ws sid ids l : reorderQueuedSessionTurns now ws sid ids d = Ok (l, d') -> queue_step kept d d'
| qs_cancel now ws id t : cancelQueuedSessionTurn now ws id d = Ok (t, d') -> queue_step kept d d'
| qs_drain now ws sid ids : cancelQueuedSessionTurns now ws sid d = (ids, d') -> queue_step kept d d'
| qs_reserve ws sid id lim n : reserveToolspaceCallForTurn ws sid id lim d = (n, d') -> queue_step kept d d'
| qs_status now ws sid status active : d' = setSessionStatus now ws sid status active d -> queue_step kept d d'.

(** Where every turn keeps its metadata, each of them maps the existing rows,
    never lowers a redispatch counter, and adds only rows with fresh ids. *)
Definition grown (r r' : TurnRow) : Prop :=
  t_id r' = t_id r /\ t_workspaceId r' = t_workspaceId r /\ workerDeathRedispatches r <= workerDeathRedispatches r'.

#[export] Instance grown_preorder : PreOrder grown.
Proof. split; [intros r; split_and!; [done..|lia]|intros r1 r2 r3 (? & ? & ?) (? & ? & ?); split_and!; [congruence..|lia]]. Qed.

Definition rows_grow (d d' : Db) : Prop :=
  (db_fresh d <= db_fresh d')%nat /\
  exists g new, db_turns d' = List.map g (db_turns d) ++ new /\ (forall r, grown r (g r)) /\
    Forall (fun r => exists n, (db_fresh d <= n < db_fresh d')%nat /\ t_id r = uuid n) new.

Lemma rows_grow_update d d' p f :
  db_turns d' = update_where p f (db_turns d) -> (db_fresh d <= db_fresh d')%nat ->
  (forall r, grown r (f r)) -> rows_grow d d'.
Proof.
  intros Ht Hn Hf. split; [lia|]. exists (fun r => if p r then f r else r), [].
  rewrite app_nil_r. split_and!; [done| |done]. intros r. by destruct (p r).
Qed.

Lemma rows_grow_same d d' : db_turns d' = db_turns d -> (db_fresh d <= db_fresh d')%nat -> rows_grow d d'.
Proof.
  intros Ht Hn. split; [lia|]. exists (fun r => r), []. rewrite List.map_id, app_nil_r, Ht. by split_and!.
Qed.

Lemma rows_grow_snoc d d' g row :
  db_turns d' = List.map g (db_turns d) ++ [row] -> (forall r, grown r (g r)) ->
  t_id row = uuid (db_fresh d) -> (db_fresh d < db_fresh d')%nat -> rows_grow d d'.
Proof.
  intros Ht Hg Hid Hf. split; [lia|]. exists g, [row]. split_and!; [done..|].
  constructor; [|done]. exists (db_fresh d). split; [lia|done].
Qed.

#[export] Instance rows_grow_preorder : PreOrder rows_grow.
Proof.
  split; [by intros d; apply rows_grow_same|].
  intros d1 d2 d3 [Hf1 (g1 & n1 & Ht1 & Hg1 & Hn1)] [Hf2 (g2 & n2 & Ht2 & Hg2 & Hn2)]. split; [lia|].
  exists (fun r => g2 (g1 r)), (List.map g2 n1 ++ n2). split_and!.
  - by rewrite Ht2, Ht1, List.map_app, List.map_map, app_assoc.
  - intros r. by transitivity (g1 r).
  - apply Forall_app. split; [|eapply Forall_impl; [exact Hn2|]; intros r (n & ? & ?); exists n; split; [lia|done]].
    apply Forall_fmap. eapply Forall_impl; [exact Hn1|]. intros r (n & ? & ?). exists n. split; [lia|].
    destruct (Hg2 r) as [Hi _]. cbn. by rewrite Hi.
Qed.

Lemma assignPositions_grows now ws ids : forall i d, rows_grow d (assignPositions now ws i ids d).
Proof.
  induction ids as [|id ids IH]; intros i d; cbn [assignPositions]; [done|].
  etransitivity; [|apply IH]. by eapply rows_grow_update.
Qed.

Lemma queue_step_grows d d' : queue_step (fun _ => True) d d' -> rows_grow d d'.
Proof.
  destruct 1 as [now input row H|now ws sid wf t H|now ws id status ->|now ws id trigger from H|now ws id n H
    |now ws id n b H|now ws id input t Hm H|now ws sid ids l H|now ws id t H|now ws sid ids H|ws sid id lim n H
    |now ws sid status active ->].
  - unfold enqueueSessionTurn, positionForEnqueue in H.
    destruct (negb _); [|destruct (list_min _) as [m|]]; injection H as _ <-.
    + eapply (rows_grow_snoc _ _ (fun r => r)); [by rewrite List.map_id|done..|cbn; lia].
    + eapply (rows_grow_snoc _ _ (shifted (q_workspaceId input) (q_sessionId input) now m)); [done| |done|cbn; lia].
      intros r. unfold shifted. by destruct (_ && _).
    + eapply (rows_grow_snoc _ _ (fun r => r)); [by rewrite List.map_id|done..|cbn; lia].
  - unfold claimNextQueuedTurn in H. destruct (List.find _ _); [destruct (queuedTurns _ _ _)|]; injection H as _ <-;
      try by apply rows_grow_same. by eapply rows_grow_update.
  - by eapply rows_grow_update.
  - unfold requeuePreemptedTurn in H. destruct (select_where _ _); [done|]. injection H as <-. by eapply rows_grow_update.
  - unfold incrementTurnWorkerDeathRedispatches in H. destruct (updated_rows _ _ _); [done|]. injection H as _ <-.
    eapply rows_grow_update; [done..|]. intros r. split_and!; [done..|]. unfold workerDeathRedispatches at 2. cbn.
    rewrite assoc_set_field, bool_decide_eq_true_2 by done. lia.
  - injection H as _ <-. by eapply rows_grow_update.
  - unfold updateQueuedSessionTurn in H. destruct (updated_rows _ _ _); [done|]. injection H as _ <-.
    eapply rows_grow_update; [done..|]. intros r. split_and!; [done..|]. unfold workerDeathRedispatches. cbn. rewrite Hm by done. cbn. lia.
  - unfold reorderQueuedSessionTurns in H. destruct (negb _); [done|]. injection H as _ <-. apply assignPositions_grows.
  - unfold cancelQueuedSessionTurn in H. destruct (updated_rows _ _ _); [done|]. injection H as _ <-. by eapply rows_grow_update.
  - injection H as _ <-. by eapply rows_grow_update.
  - injection H as _ <-. by eapply rows_grow_update.
  - by apply rows_grow_same.
Qed.

(** The counter of one turn is never below [n] again. *)
Definition counter_ge (ws id : string) (n : Z) (d : Db) : Prop :=
  (exists m, (m < db_fresh d)%nat /\ id = uuid m) /\
  forall r, r ∈ db_turns d -> t_id r = id -> t_workspaceId r = ws /\ n <= workerDeathRedispatches r.

Lemma counter_ge_grows ws id n d d' : rows_grow d d' -> counter_ge ws id n d -> counter_ge ws id n d'.
Proof.
  intros [Hf (g & new & Ht & Hg & Hnew)] [(m & Hm & ->) Hc]. split; [exists m; split; [lia|done]|].
  rewrite Ht. intros r [Hr|Hr]%elem_of_app Hid.
  - apply list_elem_of_In, in_map_iff in Hr as (x & <- & Hx). apply list_elem_of_In in Hx.
    destruct (Hg x) as (Hi & Hw & Hle). rewrite Hi in Hid. destruct (Hc x Hx Hid). split; [congruence|lia].
  - pose proof (proj1 (Forall_forall _ _) Hnew r Hr) as (k & Hk & Hid'). cbn in Hid'.
    rewrite Hid in Hid'. apply uuid_inj in Hid'. lia.
Qed.

(** An edit of another turn may replace that turn's metadata. *)
Lemma queue_step_kept (kept : string -> Prop) d d' : queue_step kept d d' -> queue_step (fun _ => True) d d' \/
  exists now ws id input t, ~ kept id /\ updateQueuedSessionTurn now ws id input d = Ok (t, d').
Proof.
  destruct 1 as [| | | | | |now ws id input t Hm H| | | | |].
  7: { destruct (u_metadata input) eqn:E; [|left; by eapply qs_edit]. right. exists now, ws, id, input, t. split; [|done]. intros Hk. by specialize (Hm Hk). }
  all: left. - by eapply qs_enqueue. - by eapply qs_claim. - by eapply qs_finish. - by eapply qs_requeue. - by eapply qs_increment. - by eapply qs_dying.
  - by eapply qs_reorder. - by eapply qs_cancel. - by eapply qs_drain. - by eapply qs_reserve. - by eapply qs_status.
Qed.
Lemma counter_ge_step ws id n d d' : queue_step (eq id) d d' -> counter_ge ws id n d -> counter_ge ws id n d'.
Proof.
  intros [H|(now & ws' & id' & input & t & Hid & H)]%queue_step_kept; [by apply counter_ge_grows, queue_step_grows|]. intros [Hm Hc].
  unfold updateQueuedSessionTurn in H. destruct (updated_rows _ _ _); [done|]. injection H as _ <-. split; [exact Hm|].
  intros r Hr Hi. cbn in Hr. apply elem_of_update_where in Hr as (y & Hy & ->). destruct (queuedTurnIs ws' id' y) eqn:E; [|by apply Hc].
  exfalso. apply Hid. unfold queuedTurnIs in E. apply andb_true_iff in E as [[_ E]%turnIs_true _]. cbn in Hi. congruence.
Qed.

(** Counting a death raises it. *)
Lemma counter_ge_increment now ws id c d n d' :
  counter_ge ws id c d -> incrementTurnWorkerDeathRedispatches now ws id d = Ok (n, d') -> c < n /\ counter_ge ws id (c + 1) d'.
Proof.
  intros [Hm Hc] Hinc. unfold incrementTurnWorkerDeathRedispatches in Hinc. destruct (updated_rows _ _ _) as [|row l] eqn:E; [done|].
  injection Hinc as <- <-. split.
  - assert (Hr : row ∈ updated_rows (turnIs ws id) (fun r => r
      <| t_metadata := set_field (js "workerDeathRedispatches") (JNum (workerDeathRedispatches r + 1)) (t_metadata r) |>
      <| t_updatedAt := now |>) (db_turns d)) by (rewrite E; left).
    apply list_elem_of_fmap in Hr as (x & -> & Hx). apply elem_of_select_where in Hx as [[Hw Hi]%turnIs_true Hx].
    destruct (Hc x Hx Hi) as [_ Hle]. unfold workerDeathRedispatches at 1. cbn.
    rewrite assoc_set_field, bool_decide_eq_true_2 by done. lia.
  - split; [exact Hm|]. intros r Hr Hid. apply elem_of_update_where in Hr as (x & Hx & ->).
    destruct (turnIs ws id x) eqn:Et.
    + apply turnIs_true in Et as [Hw Hix]. destruct (Hc x Hx Hix) as [_ Hle]. split; [done|].
      unfold workerDeathRedispatches at 1. cbn. rewrite assoc_set_field, bool_decide_eq_true_2 by done. lia.
    + destruct (Hc x Hx Hid) as [Hw _]. by rewrite (proj2 (turnIs_true ws id x)) in Et.
Qed.

(** (C8) Zombie fencing: once recovery has counted a worker death of a turn, the
    dying attempt, which still carries the count it was dispatched with, can
    never settle the turn again, whatever the queue operations did since, edits
    of other queued turns included, short of an edit that replaces this turn's
    own metadata (see [edit_unfences_zombie]). *)
Theorem zombie_fenced now now' ws k d n d1 d2 expected :
  (k < db_fresh d)%nat ->
  (forall r, r ∈ db_turns d -> t_id r = uuid k -> t_workspaceId r = ws /\ expected <= workerDeathRedispatches r) ->
  incrementTurnWorkerDeathRedispatches now ws (uuid k) d = Ok (n, d1) ->
  rtc (queue_step (eq (uuid k))) d1 d2 ->
  (cancelTurnFromDyingDispatch now' ws (uuid k) expected d2).1 = false /\
  (cancelTurnFromDyingDispatch now' ws (uuid k) expected d2).2 = d2.
Proof.
  intros Hk Hexp Hinc Hsteps.
  assert (Hc : counter_ge ws (uuid k) (expected + 1) d2).
  { assert (counter_ge ws (uuid k) (expected + 1) d1) as Hc1 by (eapply (counter_ge_increment now ws (uuid k) expected d); [split; [by exists k|exact Hexp]|exact Hinc]).
    clear -Hsteps Hc1. induction Hsteps as [|x y z Hxy _ IH]; [done|]. apply IH. by eapply counter_ge_step. }
  destruct Hc as [_ Hc]. unfold cancelTurnFromDyingDispatch. set (matches := fun r => _).
  assert (Hnone : forall r, r ∈ db_turns d2 -> matches r = false).
  { intros r Hr. apply not_true_iff_false. intros Hm. unfold matches in Hm. breflect.
    apply turnIs_true in H as [_ Hid]. destruct (Hc r Hr Hid). lia. }
  split; cbn [fst snd].
  - unfold select_where. rewrite filter_none; [done|]. by apply Forall_forall.
  - destruct d2 as [ss es ts gs fr]. cbn in Hnone. exact (f_equal (fun t => Build_Db ss es t gs fr) (update_where_none matches _ ts Hnone)).
Qed.

(** ** Toolspace budget *)

Fixpoint reserveMany (ws sid id : string) (lim : Z) (n : nat) (d : Db) : list bool * Db :=
  match n with
  | O => ([], d)
  | S n => let (r, d) := reserveToolspaceCallForTurn ws sid id lim d in
           let (rs, d) := reserveMany ws sid id lim n d in
           (match r with Some _ => true | None => false end :: rs, d)
  end.

Lemma reserve_one ws sid lim d r :
  NoDup (List.map t_id (db_turns d)) -> r ∈ db_turns d -> t_workspaceId r = ws -> t_sessionId r = sid ->
  exists d', NoDup (List.map t_id (db_turns d')) /\
    if t_toolspaceCallCount r <? lim then
      reserveToolspaceCallForTurn ws sid (t_id r) lim d = (Some (t_toolspaceCallCount r + 1), d') /\
      r <| t_toolspaceCallCount := t_toolspaceCallCount r + 1 |> ∈ db_turns d'
    else reserveToolspaceCallForTurn ws sid (t_id r) lim d = (None, d') /\ r ∈ db_turns d'.
Proof.
  intros Hnd Hr Hw Hs. unfold reserveToolspaceCallForTurn.
  set (matches := fun x : TurnRow => _). set (bump := fun x : TurnRow => _).
  assert (Huniq : forall x, x ∈ db_turns d -> matches x = true -> x = r).
  { intros x Hx Hm. unfold matches in Hm. breflect. by eapply (select_unique t_id). }
  exists (d <| db_turns ::= update_where matches bump |>). split; [cbn [db_turns setWith]; by rewrite map_id_update|].
  assert (Hmr : matches r = (t_toolspaceCallCount r <? lim)).
  { unfold matches, turnOf, turnIn. by rewrite !bool_decide_eq_true_2. }
  destruct (_ <? _) eqn:E.
  - split.
    + f_equal. unfold updated_rows.
      assert (exists l, List.filter matches (db_turns d) = r :: l) as [l ->].
      { clear -Hr Hmr Huniq. induction (db_turns d) as [|x t IH]; [by apply elem_of_nil in Hr|]. cbn.
        destruct (matches x) eqn:Em; [eexists; f_equal; apply Huniq; [left|done]|].
        apply elem_of_cons in Hr as [->|Hr]; [congruence|]. apply IH; [done|]. intros y Hy. apply Huniq. by right. }
      done.
    + cbn [db_turns setWith]. apply elem_of_update_where. exists r. split; [done|]. rewrite Hmr.
      unfold bump. cbn. by rewrite <- Z.add_1_r.
  - split.
    + f_equal. unfold updated_rows. rewrite filter_none; [done|]. apply Forall_forall. intros x Hx.
      apply not_true_iff_false. intros Hm. assert (x = r) as -> by auto. congruence.
    + cbn [db_turns setWith]. apply elem_of_update_where. exists r. by rewrite Hmr.
Qed.

(** The toolspace budget: of [n] reservations of one turn, exactly the first
    [limit - count] succeed, as long as reservations are what changes the row. *)
Theorem toolspace_budget ws sid lim n d r :
  turns_ok d -> r ∈ db_turns d -> t_workspaceId r = ws -> t_sessionId r = sid ->
  0 <= t_toolspaceCallCount r <= lim ->
  let granted := Nat.min n (Z.to_nat (lim - t_toolspaceCallCount r)) in
  (reserveMany ws sid (t_id r) lim n d).1 = repeat true granted ++ repeat false (n - granted).
Proof.
  intros [Hnd _] Hr Hw Hs Hc. cbn zeta. revert d r Hnd Hr Hw Hs Hc; induction n as [|n IH]; intros d r Hnd Hr Hw Hs Hc; [done|].
  cbn [reserveMany]. destruct (reserve_one ws sid lim d r Hnd Hr Hw Hs) as (d' & Hnd' & Hres).
  destruct (_ <? _) eqn:E; breflect; destruct Hres as [-> Hr'].
  - specialize (IH d' _ Hnd' Hr' Hw Hs ltac:(cbn; lia)). cbn [t_id t_toolspaceCallCount setWith] in IH.
    destruct (reserveMany _ _ _ _ _ _) as [rs d2]. cbn [fst] in *.
    replace (Z.to_nat (lim - t_toolspaceCallCount r)) with (S (Z.to_nat (lim - (t_toolspaceCallCount r + 1)))) by lia.
    cbn. f_equal. exact IH.
  - specialize (IH d' r Hnd' Hr' Hw Hs Hc).
    destruct (reserveMany _ _ _ _ _ _) as [rs d2]. cbn [fst] in *.
    replace (Z.to_nat (lim - t_toolspaceCallCount r)) with 0%nat in * by lia.
    rewrite Nat.min_0_r in *. cbn. rewrite IH. by rewrite Nat.sub_0_r.
Qed.

(** ** Examples *)

Definition exampleTurnInput (childCompletion preempt : bool) : EnqueueSessionTurnInput := {|
  q_accountId := "a"; q_workspaceId := "w"; q_sessionId := "s1"; q_triggerEventId := "e";
  q_temporalWorkflowId := "wf"; q_source := Src_user; q_prompt := []; q_resources := JArr []; q_tools := JArr [];
  q_model := "m"; q_reasoningEffort := "low"; q_sandboxBackend := "none";
  q_metadata := if childCompletion then [(js "childCompletion", JObj [])] else [];
  q_preemptChildNotifications := preempt |}.

(** Two child notices, then a human message in front of them. *)
Definition db1 : Db := (enqueueSessionTurn 1 (exampleTurnInput true false) exampleDb).2.
Definition db2 : Db := (enqueueSessionTurn 2 (exampleTurnInput true false) db1).2.
Definition db3 : Db := (enqueueSessionTurn 3 (exampleTurnInput false true) db2).2.
Definition db4 : Db := (claimNextQueuedTurn 4 "w" "s1" "wf" db3).2.

Lemma turns_ok_check d :
  bool_decide (NoDup (List.map t_id (db_turns d))) = true ->
  forallb (fun r => existsb (fun n => String.eqb (t_id r) (uuid n)) (seq 0 (db_fresh d))) (db_turns d) = true -> turns_ok d.
Proof.
  intros H1 H2. split; [by apply bool_decide_eq_true in H1|]. intros n r Hn Hr Heq.
  rewrite forallb_forall in H2. apply list_elem_of_In in Hr. specialize (H2 r Hr).
  apply existsb_exists in H2 as (m & Hm & E). apply in_seq in Hm. apply String.eqb_eq in E.
  rewrite Heq in E. apply uuid_inj in E. lia.
Qed.

Lemma db2_ok : turns_ok db2.
Proof. apply turns_ok_check; by vm_compute. Qed.
Lemma db3_ok : turns_ok db3.
Proof. apply turns_ok_check; by vm_compute. Qed.
Lemma db4_ok : turns_ok db4.
Proof. apply turns_ok_check; by vm_compute. Qed.

Lemma enqueue_position_witness :
  List.map t_id (queuedTurns "w" "s1" db3) = [uuid 2; uuid 0; uuid 1].
Proof.
  destruct (enqueue_position 3 (exampleTurnInput false true) db2 _ db3 db2_ok eq_refl) as (A & B & HAB & Hids & _ & HA & _).
  cbn [q_workspaceId q_sessionId exampleTurnInput] in *. rewrite Hids. specialize (HA eq_refl).
  assert (queuedTurns "w" "s1" db2 = db_turns db2) as Hq by by vm_compute. rewrite Hq in HAB.
  destruct A as [|a A]; [cbn in HAB; subst B; by vm_compute|].
  exfalso. inversion HA as [|? ? Ha _]. subst. revert Ha. assert (a = default a (head (db_turns db2))) as -> by by rewrite HAB.
  by vm_compute.
Defined.

Lemma claim_pops_queue_witness :
  exists t d', claimNextQueuedTurn 4 "w" "s1" "wf" db3 = (Some t, d') /\ t_id t = uuid 2.
Proof.
  pose proof (claim_pops_queue 4 "w" "s1" "wf" db3 db3_ok) as H.
  assert (exists r q, queuedTurns "w" "s1" db3 = r :: q /\ t_id r = uuid 2) as (r & q & Hq & Hr).
  { eexists _, _. split; [by vm_compute|by vm_compute]. }
  rewrite Hq in H. destruct H as (t & d' & Hc & Ht & _); [by vm_compute|]. exists t, d'. by rewrite Ht.
Defined.

Lemma requeue_restores_queue_witness :
  exists t d2, requeuePreemptedTurn 5 "w" t "resume" defaultFromStatuses db4 = Ok d2 /\
    List.map t_id (queuedTurns "w" "s1" d2) = [uuid 2; uuid 0; uuid 1].
Proof.
  destruct (claimNextQueuedTurn 4 "w" "s1" "wf" db3) as [[t|] d1] eqn:E; [|by vm_compute in E].
  assert (d1 = db4) as -> by (unfold db4; by rewrite E).
  destruct (requeue_restores_queue 4 5 "w" "s1" "wf" "resume" db3 t db4 db3_ok E) as (d2 & H2 & Hq & _).
  exists (t_id t), d2. split; [done|]. rewrite Hq. by vm_compute.
Defined.

Lemma reorder_sets_order_witness :
  exists rows d', reorderQueuedSessionTurns 5 "w" "s1" [uuid 1; uuid 0] db4 = Ok (rows, d') /\
    List.map t_id (queuedTurns "w" "s1" d') = [uuid 1; uuid 0].
Proof.
  destruct (reorder_sets_order 5 "w" "s1" [uuid 1; uuid 0] db4 db4_ok) as (rows & d' & H1 & _ & H2).
  - assert (List.map t_id (queuedTurns "w" "s1" db4) = [uuid 0; uuid 1]) as -> by by vm_compute. apply perm_swap.
  - eauto.
Defined.

(** A worker death of the claimed turn, then its requeue and a new claim. *)
Definition db5 : Db := match incrementTurnWorkerDeathRedispatches 5 "w" (uuid 2) db4 with Ok (_, d) => d | Err _ => db4 end.
Definition db6 : Db := match requeuePreemptedTurn 6 "w" (uuid 2) "e" defaultFromStatuses db5 with Ok d => d | Err _ => db5 end.
Definition db7 : Db := (claimNextQueuedTurn 7 "w" "s1" "wf" db6).2.

Lemma zombie_fenced_witness : (cancelTurnFromDyingDispatch 8 "w" (uuid 2) 0 db7).1 = false.
Proof.
  apply (zombie_fenced 5 8 "w" 2 db4 1 db5 db7 0).
  - apply (bool_decide_unpack _). by vm_compute.
  - intros r Hr Hid. assert (Hall : forallb (fun r => String.eqb (t_workspaceId r) "w" && (workerDeathRedispatches r =? 0)) (db_turns db4) = true) by by vm_compute.
    rewrite forallb_forall in Hall. apply list_elem_of_In in Hr. specialize (Hall r Hr). breflect.
    split; [done|lia].
  - by vm_compute.
  - eapply rtc_l with db6; [|apply rtc_once].
    + apply (qs_requeue _ _ _ 6 "w" (uuid 2) "e" defaultFromStatuses). by vm_compute.
    + apply (qs_claim _ _ _ 7 "w" "s1" "wf" (claimNextQueuedTurn 7 "w" "s1" "wf" db6).1). apply surjective_pairing.
Defined.

(** An edit of the requeued turn that replaces its metadata forgets the death:
    the next dispatch is cancelled by the zombie of the first. *)
Definition clearMetadata : UpdateQueuedSessionTurnInput := {|
  u_prompt := None; u_resources := None; u_tools := None; u_model := None; u_reasoningEffort := None;
  u_sandboxBackend := None; u_metadata := Some [] |}.
Definition db8 : Db := match updateQueuedSessionTurn 7 "w" (uuid 2) clearMetadata db6 with Ok (_, d) => d | Err _ => db6 end.

Lemma edit_unfences_zombie :
  (cancelTurnFromDyingDispatch 9 "w" (uuid 2) 0 (claimNextQueuedTurn 8 "w" "s1" "wf" db8).2).1 = true.
Proof. by vm_compute. Qed.

Lemma toolspace_budget_witness : (reserveMany "w" "s1" (uuid 2) 2 5 db4).1 = [true; true; false; false; false].
Proof.
  destruct (List.find (turnIs "w" (uuid 2)) (db_turns db4)) as [r|] eqn:E; [|by vm_compute in E].
  assert (t_sessionId r = "s1"%string /\ t_toolspaceCallCount r = 0) as [Hs Hc].
  { vm_compute in E. injection E as <-. done. }
  apply find_some in E as [Hr Ht]. apply list_elem_of_In in Hr. apply turnIs_true in Ht as [Hw Hid].
  pose proof (toolspace_budget "w" "s1" 2 5 db4 r db4_ok Hr Hw Hs) as H. rewrite Hid, Hc in H. apply H. lia.
Defined.
End TurnQueue.
