(* ===== verification/Goals.v ===== *)
(** * Session goals ([packages/db/src/index.ts])

    A goal keeps a session going: when its queue runs dry, the worker asks
    [evaluateGoalContinuation] whether to synthesize another turn.  The goal row
    carries the counters of the guards (continuations, no-progress streak) and
    its own little state machine (active, paused, completed). *)
From S2P Require Import Prelude Sql Json Schema EventLog PayloadSanitizer TurnQueue.

Module Goals.
Import EventLog TurnQueue.

Definition goalOf (workspaceId sessionId : string) (r : GoalRow) : bool :=
  bool_decide (g_workspaceId r = workspaceId) && bool_decide (g_sessionId r = sessionId).
Definition goalIs (id : string) (r : GoalRow) : bool := bool_decide (g_id r = id).

Definition getSessionGoal (workspaceId sessionId : string) (d : Db) : option GoalRow :=
  List.find (goalOf workspaceId sessionId) (db_goals d).

(** ** Life cycle *)

Record CreateSessionGoalInput := {
  c_workspaceId : string;
  c_sessionId : string;
  c_text : jstr;
  c_successCriteria : option jstr;
  c_maxAutoContinuations : option Z;
  c_createdBy : string
}.

Definition newGoal (now : Z) (id : string) (input : CreateSessionGoalInput) : GoalRow := {|
  g_id := id; g_workspaceId := c_workspaceId input; g_sessionId := c_sessionId input; g_status := G_active;
  g_text := c_text input; g_successCriteria := c_successCriteria input; g_evidence := None; g_rationale := None;
  g_pausedReason := None; g_createdBy := c_createdBy input; g_version := 1; g_autoContinuations := 0;
  g_noProgressStreak := 0; g_maxAutoContinuations := c_maxAutoContinuations input;
  g_lastContinuationTurnId := None; g_versionAtLastContinuation := None; g_metadata := JObj [];
  g_createdAt := now; g_updatedAt := now |}.

(** The unique index on the session rejects a second goal. *)
Definition createSessionGoal (now : Z) (input : CreateSessionGoalInput) (d : Db) : result DbError (GoalRow * Db) :=
  match getSessionGoal (c_workspaceId input) (c_sessionId input) d with
  | Some _ => Err (UniqueViolation "session_goals")
  | None =>
      let row := newGoal now (uuid (db_fresh d)) input in
      Ok (row, d <| db_goals ::= fun t => t ++ [row] |> <| db_fresh ::= S |>)
  end.

Definition clearSessionGoal (now : Z) (workspaceId sessionId : string) (d : Db)
  : result DbError (option (GoalRow * SessionEvent) * Db) :=
  match getSessionGoal workspaceId sessionId d with
  | None => Ok (None, d)
  | Some existing =>
      let d := d <| db_goals ::= delete_where (goalIs (g_id existing)) |> in
      match List.find (inSession workspaceId sessionId) (db_sessions d) with
      | None => Err (SessionNotFound sessionId)
      | Some session =>
          let input := {|
            in_type := "goal.cleared";
            in_payload := Some (JObj [(js "goalId", JStr (js (g_id existing))); (js "text", JStr (g_text existing));
                                      (js "version", JNum (g_version existing))]);
            in_clientEventId := None; in_turnId := None; in_producerId := None; in_producerSeq := None;
            in_occurredAt := None |} in
          match insertEvents [eventValue session (s_lastSequence session + 1) now input] d with
          | Ok (event :: _, d) =>
              Ok (Some (existing, mapEvent event),
                  d <| db_sessions ::= update_where (inSession workspaceId sessionId)
                         (fun r => r <| s_lastSequence := s_lastSequence session + 1 |> <| s_updatedAt := now |>) |>)
          | Ok ([], d) => Ok (None, d)
          | Err e => Err e
          end
      end
  end.

Definition upsertSessionGoal (now : Z) (input : CreateSessionGoalInput) (d : Db) : GoalRow * bool * Db :=
  match getSessionGoal (c_workspaceId input) (c_sessionId input) d with
  | None =>
      let row := newGoal now (uuid (db_fresh d)) input in
      (row, false, d <| db_goals ::= fun t => t ++ [row] |> <| db_fresh ::= S |>)
  | Some existing =>
      let replace r := r <| g_status := G_active |> <| g_text := c_text input |>
        <| g_successCriteria := c_successCriteria input |> <| g_maxAutoContinuations := c_maxAutoContinuations input |>
        <| g_evidence := None |> <| g_rationale := None |> <| g_pausedReason := None |>
        <| g_createdBy := c_createdBy input |> <| g_version := g_version existing + 1 |>
        <| g_autoContinuations := 0 |> <| g_noProgressStreak := 0 |> <| g_lastContinuationTurnId := None |>
        <| g_versionAtLastContinuation := None |> <| g_updatedAt := now |> in
      (replace existing, true, d <| db_goals ::= update_where (goalIs (g_id existing)) replace |>)
  end.

Definition updateSessionGoal (now : Z) (workspaceId sessionId : string) (text : option jstr)
  (successCriteria : option (option jstr)) (d : Db) : result DbError (GoalRow * Db) :=
  let revise r := r <| g_text := default (g_text r) text |>
                    <| g_successCriteria := default (g_successCriteria r) successCriteria |>
                    <| g_version ::= Z.succ |> <| g_noProgressStreak := 0 |> <| g_updatedAt := now |> in
  match updated_rows (goalOf workspaceId sessionId) revise (db_goals d) with
  | [] => Err (GoalNotFound sessionId)
  | row :: _ => Ok (row, d <| db_goals ::= update_where (goalOf workspaceId sessionId) revise |>)
  end.

Record GoalStatusInput := {
  gs_status : SessionGoalStatus;
  gs_evidence : option jstr;
  gs_rationale : option jstr;
  gs_pausedReason : option string
}.

Definition setSessionGoalStatus (now : Z) (workspaceId sessionId : string) (input : GoalStatusInput) (d : Db)
  : result DbError (GoalRow * bool * Db) :=
  match getSessionGoal workspaceId sessionId d with
  | None => Err (GoalNotFound sessionId)
  | Some existing =>
      if bool_decide (g_status existing = gs_status input) then Ok (existing, false, d)
      else if bool_decide (g_status existing = G_completed) then Err GoalCompleted
      else
        let move r :=
          let r := r <| g_status := gs_status input |> <| g_version := g_version existing + 1 |> <| g_updatedAt := now |> in
          match gs_status input with
          | G_completed => r <| g_evidence := gs_evidence input |> <| g_pausedReason := None |>
          | G_paused => r <| g_rationale := gs_rationale input |> <| g_pausedReason := gs_pausedReason input |>
          | G_active => r <| g_rationale := None |> <| g_pausedReason := None |> <| g_autoContinuations := 0 |>
                          <| g_noProgressStreak := 0 |> <| g_lastContinuationTurnId := None |>
                          <| g_versionAtLastContinuation := None |>
          end in
        Ok (move existing, true, d <| db_goals ::= update_where (goalIs (g_id existing)) move |>)
  end.

Definition setSessionGoalLastContinuationTurn (now : Z) (workspaceId sessionId turnId : string) (d : Db) : Db :=
  d <| db_goals ::= update_where (goalOf workspaceId sessionId)
         (fun r => r <| g_lastContinuationTurnId := Some turnId |> <| g_updatedAt := now |>) |>.

(** ** The continuation decision *)

Inductive GoalContinuationDecision :=
| DecideNone
| DecideQueue
| DecidePaused (reason : string) (goal : GoalRow)
| DecideContinue (goal : GoalRow) (autoContinuation : Z) (cap : option Z).

Record EvaluateInput := {
  ev_workspace : string;
  ev_session : string;
  defaultMaxAutoContinuations : option Z;
  noProgressLimit : Z;
  budgetBlocked : option jstr
}.

(** [payload ->> key]: the text of a top-level field. *)
Definition payloadText (key : jstr) (payload : json) : option jstr :=
  match prop key payload with
  | Some (JStr s) => Some s
  | Some (JBool b) => Some (if b then js "true" else js "false")
  | _ => None
  end.

Definition turnEvents (workspaceId turnId type : string) (d : Db) : list EventRow :=
  select_where (fun e => bool_decide (e_workspaceId e = workspaceId) && bool_decide (e_turnId e = Some turnId)
                         && bool_decide (e_type e = type)) (db_events d).

(** The newest finished turn, [order by position desc, created_at desc]. *)
Definition lastFinishedTurn (workspaceId sessionId : string) (d : Db) : option TurnRow :=
  head (sort_by (fun r => - t_position r) (sort_by (fun r => - t_createdAt r)
    (select_where (fun r => turnOf workspaceId sessionId r
                            && match t_finishedAt r with Some _ => true | None => false end) (db_turns d)))).

Definition pendingTurns (workspaceId sessionId : string) (d : Db) : list TurnRow :=
  select_where (fun r => turnOf workspaceId sessionId r && hasStatus [T_queued; T_running; T_requires_action] r)
    (db_turns d).

Definition capOf (row : GoalRow) (dflt : option Z) : option Z :=
  match g_maxAutoContinuations row, dflt with
  | Some a, Some b => Some (Z.min a b)
  | Some a, None => Some a
  | None, b => b
  end.

(** The counters before the guards: [(autoContinuations, noProgressStreak,
    rotatedFailover)]. *)
Definition progressCounters (input : EvaluateInput) (row : GoalRow) (d : Db) : Z * Z * bool :=
  match g_lastContinuationTurnId row with
  | None => (g_autoContinuations row, g_noProgressStreak row, false)
  | Some last =>
      match lastFinishedTurn (ev_workspace input) (ev_session input) d with
      | None => (g_autoContinuations row, g_noProgressStreak row, false)
      | Some finished =>
          if negb (bool_decide (t_id finished = last)) then (0, 0, false)
          else
            let failed := turnEvents (ev_workspace input) last "turn.failed" d in
            let rotatedFailover :=
              existsb (fun e => bool_decide (payloadText (js "rotated") (e_payload e) = Some (js "true"))) failed in
            let toolCalls := turnEvents (ev_workspace input) last "agent.toolCall.created" d in
            let goalRevised := match g_versionAtLastContinuation row with
                               | Some v => v <? g_version row | None => false end in
            let streak :=
              if negb (bool_decide (toolCalls = [])) || goalRevised then 0
              else if existsb (fun e => bool_decide (payloadText (js "recovery") (e_payload e) = Some (js "goal_continuation")))
                        failed
              then g_noProgressStreak row
              else g_noProgressStreak row + 1 in
            (g_autoContinuations row, streak, rotatedFailover)
      end
  end.

(** [budgetBlocked] is falsy when absent or empty. *)
Definition truthy (s : option jstr) : option jstr :=
  match s with Some (_ :: _) => s | _ => None end.

Definition pauseGoal (now : Z) (reason : string) (autoContinuations noProgressStreak : Z) (rationale : option jstr)
  (row : GoalRow) : GoalRow :=
  row <| g_status := G_paused |> <| g_pausedReason := Some reason |>
      <| g_rationale := match rationale with Some r => Some r | None => g_rationale row end |>
      <| g_autoContinuations := autoContinuations |> <| g_noProgressStreak := noProgressStreak |>
      <| g_version ::= Z.succ |> <| g_updatedAt := now |>.

Definition storeGoal (row : GoalRow) (d : Db) : Db := d <| db_goals ::= update_where (goalIs (g_id row)) (fun _ => row) |>.

Definition evaluateGoalContinuation (now : Z) (input : EvaluateInput) (d : Db) : GoalContinuationDecision * Db :=
  match getSessionGoal (ev_workspace input) (ev_session input) d with
  | None => (DecideNone, d)
  | Some row =>
      if negb (bool_decide (g_status row = G_active)) then (DecideNone, d)
      else
        match pendingTurns (ev_workspace input) (ev_session input) d with
        | pendingTurn :: _ => (if bool_decide (t_status pendingTurn = T_queued) then DecideQueue else DecideNone, d)
        | [] =>
            let '(autoContinuations, noProgressStreak, rotatedFailover) := progressCounters input row d in
            let pause reason rationale :=
              let row := pauseGoal now reason autoContinuations noProgressStreak rationale row in
              (DecidePaused reason row, storeGoal row d) in
            if noProgressLimit input <=? noProgressStreak then pause "no_progress"%string None
            else
              let cap := capOf row (defaultMaxAutoContinuations input) in
              if match cap with Some c => c <=? autoContinuations | None => false end
              then pause "max_auto_continuations"%string None
              else
                match truthy (budgetBlocked input) with
                | Some why => pause "limits"%string (Some why)
                | None =>
                    let next := autoContinuations + (if rotatedFailover then 0 else 1) in
                    let row := row <| g_autoContinuations := next |> <| g_noProgressStreak := noProgressStreak |>
                                   <| g_versionAtLastContinuation := Some (g_version row) |> <| g_updatedAt := now |> in
                    (DecideContinue row next cap, storeGoal row d)
                end
        end
  end.

(** ** The decision *)

Lemma evaluate_pending now input d row pendingTurn rest :
  getSessionGoal (ev_workspace input) (ev_session input) d = Some row -> g_status row = G_active ->
  pendingTurns (ev_workspace input) (ev_session input) d = pendingTurn :: rest ->
  evaluateGoalContinuation now input d =
  (if bool_decide (t_status pendingTurn = T_queued) then DecideQueue else DecideNone, d).
Proof. intros Hg Ha Hp. unfold evaluateGoalContinuation. rewrite Hg, bool_decide_eq_true_2, Hp by done. done. Qed.

Definition capped (cap : option Z) (n : Z) : Prop := match cap with Some c => n <= c | None => True end.

Lemma evaluate_continue now input d g n cap d' :
  evaluateGoalContinuation now input d = (DecideContinue g n cap, d') ->
  exists row a s rot, getSessionGoal (ev_workspace input) (ev_session input) d = Some row /\
    g_status row = G_active /\ pendingTurns (ev_workspace input) (ev_session input) d = [] /\
    progressCounters input row d = (a, s, rot) /\ s < noProgressLimit input /\
    cap = capOf row (defaultMaxAutoContinuations input) /\
    match cap with Some c => a < c | None => True end /\ truthy (budgetBlocked input) = None /\
    n = a + (if rot then 0 else 1) /\
    g = row <| g_autoContinuations := n |> <| g_noProgressStreak := s |>
            <| g_versionAtLastContinuation := Some (g_version row) |> <| g_updatedAt := now |> /\
    d' = storeGoal g d.
Proof.
  unfold evaluateGoalContinuation. destruct (getSessionGoal _ _ d) as [row|]; [|done].
  destruct (bool_decide _) eqn:Ea; [|done]. breflect. cbn [negb].
  destruct (pendingTurns _ _ d) as [|t ts]; [|by destruct (bool_decide _)].
  destruct (progressCounters input row d) as [[a s] rot] eqn:Ep. cbn zeta.
  destruct (_ <=? s) eqn:Es; [done|]. breflect.
  destruct (match capOf row _ with Some c => _ | None => _ end) eqn:Ec; [done|].
  destruct (truthy _) eqn:Eb; [done|]. intros [= <- <- <- <-].
  exists row, a, s, rot. split_and!; try done. destruct (capOf _ _); [breflect; lia|done].
Qed.

(** The four outcomes. *)
Lemma evaluate_cases now input d :
  evaluateGoalContinuation now input d = (DecideNone, d) \/
  (exists t, t ∈ pendingTurns (ev_workspace input) (ev_session input) d /\ t_status t = T_queued /\
     evaluateGoalContinuation now input d = (DecideQueue, d)) \/
  (exists row reason a s why, pendingTurns (ev_workspace input) (ev_session input) d = [] /\
     evaluateGoalContinuation now input d =
       (DecidePaused reason (pauseGoal now reason a s why row), storeGoal (pauseGoal now reason a s why row) d)) \/
  (exists g n cap d', evaluateGoalContinuation now input d = (DecideContinue g n cap, d')).
Proof.
  unfold evaluateGoalContinuation. destruct (getSessionGoal _ _ d) as [row|]; [|by left].
  destruct (bool_decide (g_status row = G_active)); cbn [negb]; [|by left].
  destruct (pendingTurns _ _ d) as [|t ts].
  2: { destruct (bool_decide _) eqn:Eq; [right; left|by left]. breflect. exists t. split; [left|done]. }
  destruct (progressCounters input row d) as [[a s] rot]. cbn zeta.
  destruct (_ <=? s); [right; right; left; by eexists row, _, a, s, None|].
  destruct (match capOf row _ with Some c => _ | None => _ end); [right; right; left; by eexists row, _, a, s, None|].
  destruct (truthy _) as [why|]; [right; right; left; by eexists row, _, a, s, (Some why)|].
  right; right; right. by eexists _, _, _, _.
Qed.

(** When a continuation is granted: the goal is active, nothing is queued,
    running or waiting for an approval, no guard has tripped, and the counter
    stays within every configured cap.  A pending turn, whatever the counters,
    leaves the database untouched and is never bypassed. *)
Theorem continuation_guarded now input d :
  match evaluateGoalContinuation now input d with
  | (DecideContinue g n cap, d') =>
      pendingTurns (ev_workspace input) (ev_session input) d = [] /\
      (exists row, getSessionGoal (ev_workspace input) (ev_session input) d = Some row /\ g_status row = G_active /\
        g_version g = g_version row /\ capped (g_maxAutoContinuations row) n) /\
      capped (defaultMaxAutoContinuations input) n /\ g_noProgressStreak g < noProgressLimit input /\
      truthy (budgetBlocked input) = None /\
      db_turns d' = db_turns d /\ db_events d' = db_events d /\ db_sessions d' = db_sessions d
  | (DecidePaused reason g, d') =>
      pendingTurns (ev_workspace input) (ev_session input) d = [] /\ g_status g = G_paused /\
      db_turns d' = db_turns d /\ db_events d' = db_events d /\ db_sessions d' = db_sessions d
  | (DecideQueue, d') => d' = d /\ exists t, t ∈ pendingTurns (ev_workspace input) (ev_session input) d /\ t_status t = T_queued
  | (DecideNone, d') => d' = d
  end.
Proof.
  destruct (evaluate_cases now input d) as [->|[(t & Ht & Hq & ->)|[(row & reason & a & s & why & Hp & ->)|(g & n & cap & d' & E)]]].
  - done.
  - split; [done|]. by exists t.
  - by split_and!.
  - rewrite E. apply evaluate_continue in E as (row & a & s & rot & Hg & Hs & Hp & _ & Hlim & -> & Hc & Hb & -> & -> & ->).
    split_and!; try done.
    + exists row. split_and!; try done. unfold capped, capOf in *. destruct (g_maxAutoContinuations row); [|done].
      destruct (defaultMaxAutoContinuations input), rot; lia.
    + unfold capped, capOf in *. destruct (defaultMaxAutoContinuations input); [|done].
      destruct (g_maxAutoContinuations row), rot; lia.
Qed.

(** ** Useless continuations are bounded *)

(** A granted continuation whose turn then ran, was the last to finish, called
    no tool and met no provider backpressure; nobody touched the goal. *)
Definition idle_round (input : EvaluateInput) (d d' : Db) : Prop :=
  exists now g n cap d1 t, evaluateGoalContinuation now input d = (DecideContinue g n cap, d1) /\
    getSessionGoal (ev_workspace input) (ev_session input) d' = Some (g <| g_lastContinuationTurnId := Some t |>) /\
    option_map t_id (lastFinishedTurn (ev_workspace input) (ev_session input) d') = Some t /\
    turnEvents (ev_workspace input) t "agent.toolCall.created" d' = [] /\
    existsb (fun e => bool_decide (payloadText (js "recovery") (e_payload e) = Some (js "goal_continuation")))
      (turnEvents (ev_workspace input) t "turn.failed" d') = false /\
    pendingTurns (ev_workspace input) (ev_session input) d' = [].

(** The streak the next evaluation will see. *)
Definition streak_is (input : EvaluateInput) (k : Z) (d : Db) : Prop :=
  exists row, getSessionGoal (ev_workspace input) (ev_session input) d = Some row /\
    (progressCounters input row d).1.2 = k.

Lemma progress_idle input row d t :
  g_lastContinuationTurnId row = Some t -> g_versionAtLastContinuation row = Some (g_version row) ->
  option_map t_id (lastFinishedTurn (ev_workspace input) (ev_session input) d) = Some t ->
  turnEvents (ev_workspace input) t "agent.toolCall.created" d = [] ->
  existsb (fun e => bool_decide (payloadText (js "recovery") (e_payload e) = Some (js "goal_continuation")))
      (turnEvents (ev_workspace input) t "turn.failed" d) = false ->
  (progressCounters input row d).1.2 = g_noProgressStreak row + 1.
Proof.
  intros Hlast Hv Hl Ht Hr. unfold progressCounters. rewrite Hlast.
  destruct (lastFinishedTurn _ _ d) as [f|]; [|discriminate Hl]. injection Hl as Hl.
  rewrite bool_decide_eq_true_2 by exact Hl. cbn [negb]. rewrite Ht, Hr, Hv, Z.ltb_irrefl.
  rewrite bool_decide_eq_true_2 by reflexivity. reflexivity.
Qed.

Lemma idle_round_streak input d d' k :
  streak_is input k d -> idle_round input d d' ->
  k < noProgressLimit input /\ streak_is input (k + 1) d' /\
  (exists row, getSessionGoal (ev_workspace input) (ev_session input) d' = Some row /\ g_status row = G_active) /\
  pendingTurns (ev_workspace input) (ev_session input) d' = [].
Proof.
  intros (row & Hrow & Hk) (now & g & n & cap & d1 & t & He & Hg & Hl & Ht & Hr & Hp).
  apply evaluate_continue in He as (row' & a & s & rot & Hrow' & Ha & _ & Hpc & Hlim & _ & _ & _ & _ & -> & _).
  rewrite Hrow' in Hrow. injection Hrow as ->. rewrite Hpc in Hk. cbn in Hk. subst s.
  split_and!; [done| |eexists; split; [exact Hg|done]|done].
  eexists. split; [exact Hg|]. erewrite progress_idle; [reflexivity|reflexivity|reflexivity|eassumption..].
Qed.

(** (C10) A goal that makes no progress stops: from a fresh counter at most
    [noProgressLimit] useless continuations in a row are granted, and the
    evaluation after the last of them pauses the goal. *)
Theorem no_progress_bounded input n d d' :
  0 < noProgressLimit input -> streak_is input 0 d -> nsteps (idle_round input) n d d' ->
  Z.of_nat n <= noProgressLimit input /\
  (Z.of_nat n = noProgressLimit input ->
   forall now, exists g d2, evaluateGoalContinuation now input d' = (DecidePaused "no_progress" g, d2) /\ g_status g = G_paused).
Proof.
  intros Hlim H0 Hn.
  assert (Hrun : forall m k e e', nsteps (idle_round input) m e e' -> streak_is input k e -> k <= noProgressLimit input ->
    streak_is input (k + Z.of_nat m) e' /\ k + Z.of_nat m <= noProgressLimit input /\
    (0 < Z.of_nat m -> (exists row, getSessionGoal (ev_workspace input) (ev_session input) e' = Some row /\ g_status row = G_active) /\
       pendingTurns (ev_workspace input) (ev_session input) e' = [])).
  { intros m. induction m as [|m IH]; intros k e e' Hm Hk Hle; inversion Hm; subst.
    - rewrite Z.add_0_r. split_and!; [done|done|lia].
    - destruct (idle_round_streak input e y k Hk) as (Hlt & Hk' & Hact & Hpend); [done|].
      destruct (IH (k + 1) y e') as (IH1 & IH2 & IH3); [done|done|lia|].
      replace (k + Z.of_nat (S m)) with (k + 1 + Z.of_nat m) by lia. split_and!; [done|done|].
      intros _. destruct m; [|apply IH3; lia]. match goal with H : nsteps _ 0 _ _ |- _ => inversion H; subst end. done. }
  destruct (Hrun n 0 d d' Hn H0) as ((row & Hrow & Hs) & Hle & Hact); [lia|]. split; [lia|].
  intros Heq now. destruct Hact as ((row' & Hrow' & Ha) & Hp); [lia|].
  rewrite Hrow in Hrow'. injection Hrow' as <-.
  unfold evaluateGoalContinuation. rewrite Hrow, bool_decide_eq_true_2, Hp by done. cbn [negb].
  destruct (progressCounters input row d') as [[a s] rot]. cbn in Hs. cbn zeta.
  rewrite (proj2 (Z.leb_le _ _)) by lia. eexists _, _. split; [done|done].
Qed.

(** ** The goal's version *)

(** Every transaction on goals. *)
Inductive goal_step (d d' : Db) : Prop :=
| gs_create now input row : createSessionGoal now input d = Ok (row, d') -> goal_step d d'
| gs_clear now ws sid r : clearSessionGoal now ws sid d = Ok (r, d') -> goal_step d d'
| gs_upsert now input r b : upsertSessionGoal now input d = (r, b, d') -> goal_step d d'
| gs_update now ws sid text crit r : updateSessionGoal now ws sid text crit d = Ok (r, d') -> goal_step d d'
| gs_set now ws sid input r b : setSessionGoalStatus now ws sid input d = Ok (r, b, d') -> goal_step d d'
| gs_last now ws sid t : d' = setSessionGoalLastContinuationTurn now ws sid t d -> goal_step d d'
| gs_evaluate now input dec : evaluateGoalContinuation now input d = (dec, d') -> goal_step d d'.

(** None of them touches a turn. *)
Lemma goal_step_turns d d' : goal_step d d' -> db_turns d' = db_turns d /\ (db_fresh d <= db_fresh d')%nat.
Proof.
  destruct 1 as [now input row H|now ws sid r H|now input r b H|now ws sid text crit r H|now ws sid input r b H
    |now ws sid t ->|now input dec H]; [..|done|];
    unfold createSessionGoal, clearSessionGoal, upsertSessionGoal, updateSessionGoal, setSessionGoalStatus,
      evaluateGoalContinuation in H; cbv zeta in H;
    repeat match type of H with
           | context [match insertEvents ?v ?x with _ => _ end] =>
               let E := fresh "E" in destruct (insertEvents v x) as [[? ?]|] eqn:E; try discriminate H;
               apply insertEvents_spec in E as (_ & _ & _ & Ht & _ & Hf); cbn in Ht, Hf
           | context [match ?x with _ => _ end] => destruct x; try discriminate H
           end; injection H; intros; subst; cbn; rewrite ?Ht, ?Hf; split; (done || lia).
Qed.

Record goals_ok (d : Db) : Prop := {
  goal_ids_unique : NoDup (List.map g_id (db_goals d));
  goal_ids_used : forall r, r ∈ db_goals d -> exists n, (n < db_fresh d)%nat /\ g_id r = uuid n
}.

(** What a transaction may do to a goal that survives it. *)
Definition moved (r r' : GoalRow) : Prop :=
  g_id r' = g_id r /\ g_version r <= g_version r' /\
  (g_status r' <> g_status r \/ g_text r' <> g_text r \/ g_successCriteria r' <> g_successCriteria r ->
   g_version r < g_version r').

Definition goals_move (d d' : Db) : Prop :=
  (db_fresh d <= db_fresh d')%nat /\
  exists (keep : GoalRow -> bool) g new, db_goals d' = List.map g (List.filter keep (db_goals d)) ++ new /\
    (forall r, r ∈ db_goals d -> moved r (g r)) /\
    (new = [] \/ exists r, new = [r] /\ g_id r = uuid (db_fresh d) /\ (db_fresh d < db_fresh d')%nat).

Lemma moved_refl r : moved r r.
Proof. split_and!; [done|lia|intros [|[|]]; done]. Qed.

Lemma goals_move_update d d' p f :
  db_goals d' = update_where p f (db_goals d) -> (db_fresh d <= db_fresh d')%nat ->
  (forall r, r ∈ db_goals d -> p r = true -> moved r (f r)) -> goals_move d d'.
Proof.
  intros Ht Hf Hm. split; [done|]. exists (fun _ => true), (fun r => if p r then f r else r), [].
  rewrite app_nil_r, filter_all by (by apply Forall_forall). split_and!; [done| |by left].
  intros r Hr. destruct (p r) eqn:E; [by apply Hm|apply moved_refl].
Qed.

Lemma goals_move_same d d' : db_goals d' = db_goals d -> (db_fresh d <= db_fresh d')%nat -> goals_move d d'.
Proof.
  intros Ht Hf. apply (goals_move_update d d' (fun _ => false) (fun r => r)); [|done|done].
  rewrite Ht. symmetry. by apply update_where_none.
Qed.

Lemma getSessionGoal_unique ws sid d existing r :
  goals_ok d -> getSessionGoal ws sid d = Some existing -> r ∈ db_goals d -> goalIs (g_id existing) r = true -> r = existing.
Proof.
  intros Hok Hg Hr Hi. unfold goalIs in Hi. breflect. apply find_some in Hg as [Hg _]. apply list_elem_of_In in Hg.
  by eapply (select_unique g_id); [apply Hok|..].
Qed.

Lemma evaluate_moves now input d dec d' :
  goals_ok d -> evaluateGoalContinuation now input d = (dec, d') -> goals_move d d'.
Proof.
  intros Hok. unfold evaluateGoalContinuation.
  destruct (getSessionGoal _ _ d) as [row|] eqn:Hg; [|intros [= _ <-]; by apply goals_move_same].
  destruct (bool_decide (g_status row = G_active)) eqn:Ha; cbn [negb]; [|intros [= _ <-]; by apply goals_move_same].
  apply bool_decide_eq_true in Ha.
  destruct (pendingTurns _ _ d) as [|t ts]; [|intros [= _ <-]; by apply goals_move_same].
  destruct (progressCounters input row d) as [[a s] rot]. cbn zeta.
  assert (Hstore : forall row', g_id row' = g_id row -> moved row row' -> goals_move d (storeGoal row' d)).
  { intros row' Hid Hm. eapply (goals_move_update _ _ (goalIs (g_id row')) (fun _ => row')); [reflexivity|cbn; lia|].
    intros r Hr Hi. rewrite Hid in Hi. by rewrite (getSessionGoal_unique _ _ _ _ r Hok Hg Hr Hi). }
  assert (Hpause : forall reason why, moved row (pauseGoal now reason a s why row)).
  { intros reason why. split_and!; cbn; [reflexivity|lia|lia]. }
  destruct (_ <=? s); [intros [= _ <-]; apply Hstore; [reflexivity|apply Hpause]|].
  destruct (match capOf row _ with Some c => _ | None => _ end); [intros [= _ <-]; apply Hstore; [reflexivity|apply Hpause]|].
  destruct (truthy _) as [why|]; [intros [= _ <-]; apply Hstore; [reflexivity|apply Hpause]|].
  intros [= _ <-]. apply Hstore; [reflexivity|]. split_and!; cbn; [reflexivity|lia|tauto].
Qed.

Lemma setStatus_moves now ws sid input d r b d' :
  goals_ok d -> setSessionGoalStatus now ws sid input d = Ok (r, b, d') -> goals_move d d'.
Proof.
  intros Hok. unfold setSessionGoalStatus. destruct (getSessionGoal ws sid d) as [row|] eqn:Hg; [|discriminate].
  destruct (bool_decide (g_status row = gs_status input)); [intros [= _ _ <-]; by apply goals_move_same|].
  destruct (bool_decide (g_status row = G_completed)) eqn:Hc; [discriminate|]. apply bool_decide_eq_false in Hc.
  intros [= _ _ <-]. eapply goals_move_update; [reflexivity|cbn; lia|].
  intros x Hx Hi. rewrite (getSessionGoal_unique _ _ _ _ x Hok Hg Hx Hi).
  destruct (gs_status input); (split_and!; cbn; [reflexivity|lia|lia]).
Qed.

Lemma clear_moves now ws sid d r d' :
  clearSessionGoal now ws sid d = Ok (r, d') -> goals_move d d'.
Proof.
  unfold clearSessionGoal. destruct (getSessionGoal ws sid d) as [row|]; [|intros [= _ <-]; by apply goals_move_same].
  destruct (List.find _ _) as [session|]; [|discriminate].
  assert (Hd : forall d2 n, (db_fresh d <= n)%nat -> db_goals d2 = delete_where (goalIs (g_id row)) (db_goals d) ->
    db_fresh d2 = n -> goals_move d d2).
  { intros d2 n Hn Hg Hf. split; [lia|]. exists (fun r => negb (goalIs (g_id row) r)), (fun r => r), [].
    rewrite List.map_id, app_nil_r. split_and!; [done|intros; apply moved_refl|by left]. }
  destruct (insertEvents _ _) as [[[|event l] d1]|] eqn:Hi; [| |discriminate];
    apply insertEvents_spec in Hi as (_ & _ & _ & _ & Hg & Hf); intros [= _ <-];
    (eapply Hd; [|exact Hg|reflexivity]; cbn in *; lia).
Qed.

Lemma goal_step_moves d d' : goals_ok d -> goal_step d d' -> goals_move d d'.
Proof.
  intros Hok.
  assert (Hnew : forall d2 row, db_goals d2 = db_goals d ++ [row] -> g_id row = uuid (db_fresh d) -> db_fresh d2 = S (db_fresh d) -> goals_move d d2).
  { intros d2 row Hg Hid Hf. split; [lia|]. exists (fun _ => true), (fun r => r), [row].
    rewrite List.map_id, filter_all by (by apply Forall_forall).
    split_and!; [done|intros; apply moved_refl|right; exists row; split_and!; [done|done|lia]]. }
  destruct 1 as [now input row H|now ws sid r H|now input r b H|now ws sid text crit r H|now ws sid input r b H
    |now ws sid t ->|now input dec H].
  - unfold createSessionGoal in H. destruct (getSessionGoal _ _ d); [discriminate|]. injection H as _ <-.
    eapply Hnew; reflexivity.
  - by eapply clear_moves.
  - unfold upsertSessionGoal in H. destruct (getSessionGoal _ _ d) as [row|] eqn:Hg.
    + injection H as _ _ <-. eapply goals_move_update; [reflexivity|cbn; lia|].
      intros x Hx Hi. rewrite (getSessionGoal_unique _ _ _ _ x Hok Hg Hx Hi).
      split_and!; cbn; [reflexivity|lia|lia].
    + injection H as _ _ <-. eapply Hnew; reflexivity.
  - unfold updateSessionGoal in H. destruct (updated_rows _ _ _); [discriminate|]. injection H as _ <-.
    eapply goals_move_update; [reflexivity|cbn; lia|]. intros x _ _. split_and!; cbn; [reflexivity|lia|lia].
  - by eapply setStatus_moves.
  - eapply goals_move_update; [reflexivity|cbn; lia|]. intros x _ _. split_and!; cbn; [reflexivity|lia|tauto].
  - by eapply evaluate_moves.
Qed.

Lemma goals_ok_move d d' : goals_ok d -> goals_move d d' -> goals_ok d'.
Proof.
  intros [Hnd Hus] (Hf & keep & g & new & Hg & Hm & Hnew).
  assert (Hids : List.map g_id (List.map g (List.filter keep (db_goals d))) = List.map g_id (List.filter keep (db_goals d))).
  { rewrite List.map_map. apply map_ext_in. intros r [Hr _]%filter_In. apply list_elem_of_In in Hr. apply (Hm r Hr). }
  assert (Hold : forall r, r ∈ List.map g (List.filter keep (db_goals d)) -> exists n, (n < db_fresh d)%nat /\ g_id r = uuid n).
  { intros r Hr. apply list_elem_of_In, in_map_iff in Hr as (x & <- & [Hx _]%filter_In).
    apply list_elem_of_In in Hx. destruct (Hm x Hx) as [-> _]. by apply Hus. }
  split; rewrite Hg.
  - rewrite map_app, Hids. destruct Hnew as [->|(r & -> & Hid & Hlt)].
    + rewrite app_nil_r. by apply NoDup_map_filter.
    + apply NoDup_app. split_and!; [by apply NoDup_map_filter| |apply NoDup_singleton].
      intros i Hi ->%list_elem_of_singleton. rewrite <- Hids in Hi. apply list_elem_of_In, in_map_iff in Hi as (y & Hy & Hin).
      apply list_elem_of_In in Hin. destruct (Hold y Hin) as (n & Hn & Hix).
      rewrite Hid, Hix in Hy. apply uuid_inj in Hy. lia.
  - intros r [Hr|Hr]%elem_of_app.
    + destruct (Hold r Hr) as (n & Hn & ->). exists n. split; [lia|done].
    + destruct Hnew as [->|(y & -> & Hid & Hlt)]; [by apply elem_of_nil in Hr|].
      apply list_elem_of_singleton in Hr as ->. by exists (db_fresh d).
Qed.

Definition later (r r' : GoalRow) : Prop :=
  g_version r <= g_version r' /\
  (g_version r' = g_version r -> g_status r' = g_status r /\ g_text r' = g_text r /\ g_successCriteria r' = g_successCriteria r).

Lemma moved_later r r' : moved r r' -> later r r'.
Proof.
  intros (_ & Hv & Hc). split; [done|]. intros Heq.
  destruct (decide (g_status r' = g_status r)); [|exfalso; rewrite Heq in Hc; assert (g_version r < g_version r) by tauto; lia].
  destruct (decide (g_text r' = g_text r)); [|exfalso; rewrite Heq in Hc; assert (g_version r < g_version r) by tauto; lia].
  destruct (decide (g_successCriteria r' = g_successCriteria r)); [done|].
  exfalso; rewrite Heq in Hc; assert (g_version r < g_version r) by tauto; lia.
Qed.

Lemma later_trans r1 r2 r3 : later r1 r2 -> later r2 r3 -> later r1 r3.
Proof.
  intros [H1 H2] [G1 G2]. split; [lia|]. intros Heq.
  destruct H2 as (E1 & E2 & E3); [lia|]. destruct G2 as (F1 & F2 & F3); [lia|]. split_and!; congruence.
Qed.

(** The version is a faithful witness of the goal: over any sequence of goal
    transactions it never decreases, and as long as it has not changed neither
    has the goal's status, text or success criteria.  This is what the
    worker's re-check before it synthesizes a continuation relies on. *)
Theorem goal_version_faithful d d' r r' :
  goals_ok d -> rtc goal_step d d' -> r ∈ db_goals d -> r' ∈ db_goals d' -> g_id r' = g_id r ->
  g_version r <= g_version r' /\
  (g_version r' = g_version r -> g_status r' = g_status r /\ g_text r' = g_text r /\ g_successCriteria r' = g_successCriteria r).
Proof.
  intros Hok Hsteps Hr Hr' Hid.
  assert (Hinv : goals_ok d' /\ (db_fresh d <= db_fresh d')%nat /\
    forall x, x ∈ db_goals d' -> (exists m, (m < db_fresh d)%nat /\ g_id x = uuid m) ->
      exists y, y ∈ db_goals d /\ g_id y = g_id x /\ later y x).
  { clear Hr' Hid. revert d' Hsteps. apply rtc_ind_r.
    - split_and!; [done|done|]. intros x Hx _. exists x. split_and!; [done|done|apply moved_later, moved_refl].
    - intros e e' _ Hstep (Hoke & Hf & IH). pose proof (goal_step_moves _ _ Hoke Hstep) as Hmove.
      split_and!; [by eapply goals_ok_move| |]; destruct Hmove as (Hf' & keep & g & new & Hg & Hm & Hnew); [lia|].
      intros x Hx (m & Hlt & Hidx). rewrite Hg in Hx. apply elem_of_app in Hx as [Hx|Hx].
      + apply list_elem_of_In, in_map_iff in Hx as (z & <- & [Hz _]%filter_In). apply list_elem_of_In in Hz.
        destruct (Hm z Hz) as [Hiz _]. rewrite Hiz in Hidx.
        destruct (IH z Hz) as (y & Hy & Hiy & Hlat); [eauto|]. exists y. split_and!; [done|congruence|].
        eapply later_trans; [exact Hlat|]. by apply moved_later, Hm.
      + destruct Hnew as [->|(y & -> & Hidy & _)]; [by apply elem_of_nil in Hx|].
        apply list_elem_of_singleton in Hx as ->. rewrite Hidy in Hidx. apply uuid_inj in Hidx. lia. }
  destruct Hinv as (_ & _ & Hinv). destruct (Hinv r' Hr') as (y & Hy & Hiy & Hlat).
  - rewrite Hid. by apply (goal_ids_used d Hok).
  - assert (y = r) as -> by (eapply (select_unique g_id (g_id r)); [apply Hok|done|done|congruence|done]). exact Hlat.
Qed.

(** ** Examples *)

Definition exampleGoalInput : CreateSessionGoalInput := {|
  c_workspaceId := "w"; c_sessionId := "s1"; c_text := js "ship it"; c_successCriteria := None;
  c_maxAutoContinuations := None; c_createdBy := "user" |}.

Definition exampleEvaluate : EvaluateInput := {|
  ev_workspace := "w"; ev_session := "s1"; defaultMaxAutoContinuations := None; noProgressLimit := 3;
  budgetBlocked := None |}.

Definition goalDb : Db := match createSessionGoal 1 exampleGoalInput exampleDb with Ok (_, d) => d | Err _ => exampleDb end.

(** A granted continuation, enqueued and claimed as the worker does. *)
Definition continueOnce (now : Z) (d : Db) : Db :=
  let d := (evaluateGoalContinuation now exampleEvaluate d).2 in
  let (t, d) := enqueueSessionTurn now (exampleTurnInput false false) d in
  setSessionGoalLastContinuationTurn now "w" "s1" (t_id t) d.

Definition runNext (now : Z) (d : Db) : Db :=
  match claimNextQueuedTurn now "w" "s1" "wf" d with
  | (Some t, d) => finishTurn (now + 1) "w" (t_id t) (ATurn T_completed) d
  | (None, d) => d
  end.

Definition idled (n : nat) : Db := Nat.iter n (fun d => runNext 20 (continueOnce 10 d)) goalDb.

Lemma idled_round n : (n < 3)%nat -> idle_round exampleEvaluate (idled n) (idled (S n)).
Proof.
  intros Hn. destruct n as [|[|[|n]]]; [| | |lia].
  all: eexists 10, _, _, _, _, _; (split; [by vm_compute|]); (split; [by vm_compute|]); by vm_compute.
Qed.

Lemma no_progress_bounded_witness :
  exists g d2, evaluateGoalContinuation 99 exampleEvaluate (idled 3) = (DecidePaused "no_progress" g, d2).
Proof.
  destruct (no_progress_bounded exampleEvaluate 3 goalDb (idled 3)) as [_ H].
  - done.
  - eexists. split; [by vm_compute|by vm_compute].
  - eapply nsteps_l; [apply (idled_round 0); lia|]. eapply nsteps_l; [apply (idled_round 1); lia|].
    eapply nsteps_l; [apply (idled_round 2); lia|]. constructor.
  - destruct (H eq_refl 99) as (g & d2 & Heq & _). eauto.
Defined.

Definition evaluated : Db := (evaluateGoalContinuation 99 exampleEvaluate goalDb).2.

Definition evaluatedGoal : GoalRow := default (newGoal 1 (uuid 0) exampleGoalInput) (head (db_goals evaluated)).

Lemma goal_version_faithful_witness :
  evaluatedGoal ∈ db_goals evaluated /\ 1 <= g_version evaluatedGoal /\
  (g_version evaluatedGoal = 1 -> g_text evaluatedGoal = js "ship it").
Proof.
  assert (Hr' : evaluatedGoal ∈ db_goals evaluated) by left. split; [exact Hr'|].
  destruct (goal_version_faithful goalDb evaluated (newGoal 1 (uuid 0) exampleGoalInput) evaluatedGoal) as [H1 H2].
  - split; [apply NoDup_singleton|]. intros r Hr%list_elem_of_singleton. subst. exists 0%nat. split; [cbn; lia|done].
  - apply rtc_once. apply (gs_evaluate _ _ 99 exampleEvaluate (evaluateGoalContinuation 99 exampleEvaluate goalDb).1).
    apply surjective_pairing.
  - left.
  - exact Hr'.
  - vm_compute. reflexivity.
  - split; [exact H1|]. intros Hv. by destruct (H2 Hv) as (_ & -> & _).
Defined.

(** Two user turns are queued behind a continuation turn, reordered, and run. *)
Definition engagedDb : Db :=
  let user now d := runNext (now + 1) (enqueueSessionTurn now (exampleTurnInput false false) d).2 in
  let d := runNext 20 (continueOnce 10 (user 7 (user 5 goalDb))) in
  let (a, d) := enqueueSessionTurn 30 (exampleTurnInput false false) d in
  let (b, d) := enqueueSessionTurn 31 (exampleTurnInput false false) d in
  match reorderQueuedSessionTurns 32 "w" "s1" [t_id b; t_id a] d with
  | Ok (_, d) => runNext 50 (runNext 40 d)
  | Err _ => d
  end.

(** Reordering defeats the re-engagement rule: [reorderQueuedSessionTurns]
    numbers the queue from 1, below turns that already ran, and the evaluation
    looks for the newest finished turn by position.  Two user turns that ran
    after the last continuation are then not seen: the streak of the old
    continuation is counted again instead of being reset. *)
Theorem reorder_hides_reengagement :
  (forall t, t ∈ db_turns engagedDb -> t_status t = T_completed) /\
  (exists t, t ∈ db_turns engagedDb /\ t_finishedAt t = Some 51) /\
  option_map t_finishedAt (lastFinishedTurn "w" "s1" engagedDb) = Some (Some 21) /\
  option_map (fun row => progressCounters exampleEvaluate row engagedDb) (getSessionGoal "w" "s1" engagedDb) = Some (1, 1, false).
Proof.
  split_and!; [|..|by vm_compute|by vm_compute].
  - intros t Ht. apply list_elem_of_In in Ht.
    assert (Hall : forallb (fun t => bool_decide (t_status t = T_completed)) (db_turns engagedDb) = true) by by vm_compute.
    rewrite forallb_forall in Hall. by apply Hall, bool_decide_eq_true in Ht.
  - assert (Hex : existsb (fun t => bool_decide (t_finishedAt t = Some 51)) (db_turns engagedDb) = true) by by vm_compute.
    apply existsb_exists in Hex as (t & Ht & E). apply list_elem_of_In in Ht. apply bool_decide_eq_true in E. eauto.
Qed.
End Goals.
