(* ===== verification/ParentWake.v ===== *)
(** * Child completions ([packages/db/src/index.ts], [apps/worker/src/activities/parent-wake.ts])

    When a spawned worker session reaches a terminal state its parent is woken:
    one transaction on the parent's locked row records a card event, and either
    opens a digest turn or folds the child into the one already queued. *)
From S2P Require Import Prelude Sql Json Schema PayloadSanitizer EventLog TurnQueue Goals.
From stdpp Require Import pretty.
#[local] Open Scope Z_scope.
#[local] Open Scope opengeni_scope.

Module ParentWake.
Import PayloadSanitizer EventLog TurnQueue.

Record WakeParentForChildCompletionInput := {
  wp_workspaceId : string;
  wp_parentSessionId : string;
  wp_clientEventId : string;
  wp_childSummary : jstr;
  wp_trailing : jstr;
  wp_childCompletion : json;
  wp_reasoningEffortFallback : string
}.

Inductive WakeResult :=
| already_delivered
| parent_cancelled
| wokePassive (events : list SessionEvent) (temporalWorkflowId : string)
| woke (folded : bool) (turn : TurnRow) (triggerEvent : SessionEvent) (events : list SessionEvent)
    (temporalWorkflowId : string).

(** ** Text *)

Definition newline : jstr := [10].
Definition decimal (n : Z) : jstr := js (pretty n).

(** [Array.prototype.join]. *)
Fixpoint join (sep : jstr) (l : list jstr) : jstr :=
  match l with
  | [] => []
  | [x] => x
  | x :: l => x ++ sep ++ join sep l
  end.

(** A value in a template literal or a [join] ([null] differs, see below). *)
Fixpoint toText (j : json) : jstr :=
  match j with
  | JNull => js "null"
  | JBool b => if b then js "true" else js "false"
  | JNum n => decimal n
  | JStr s => s
  | JArr l =>
      (fix go (first : bool) (l : list json) : jstr :=
         match l with
         | [] => []
         | x :: l => (if first then [] else js ",") ++ match x with JNull => [] | _ => toText x end ++ go false l
         end) true l
  | JObj _ => js "[object Object]"
  end.

Definition buildChildCompletionDigest (summaries : list json) (trailing : jstr) : jstr :=
  match summaries with
  | [] => join newline [[]; []; trailing]
  | [summary] => join newline [match summary with JNull => [] | _ => toText summary end; []; trailing]
  | _ =>
      let header := decimal (Z.of_nat (length summaries)) ++ js " worker sessions you spawned reached a terminal state:" in
      let numbered := join (newline ++ newline) (imap (fun i summary => decimal (Z.of_nat i + 1) ++ js ". " ++ toText summary) summaries) in
      join newline [header; []; numbered; []; trailing]
  end.

(** ** The wake *)

Definition reasoningEffortForMetadata (metadata : json) (fallback : string) : string :=
  match asString (prop (js "reasoningEffort") metadata) with
  | Some value =>
      default fallback (List.find (fun v => bool_decide (js v = value)) ["none"; "minimal"; "low"; "medium"; "high"; "xhigh"]%string)
  | None => fallback
  end.

Definition passiveMode (parent : SessionRow) : bool :=
  bool_decide (prop (js "childNotificationsMode") (s_metadata parent) = Some (JStr (js "passive"))).

Definition workflowIdOf (parent : SessionRow) : string :=
  default (String.append "session-" (s_id parent)) (s_temporalWorkflowId parent).

(** The newest queued child-notification turn. *)
Definition digestTurn (ws parentId : string) (d : Db) : option TurnRow :=
  head (sort_by (fun r => - t_position r)
    (select_where (fun r => turnOf ws parentId r && hasStatus [T_queued] r && isChildNotification r) (db_turns d))).

(** [{...value}] of an object or array. *)
Definition spread (payload : json) : list (jstr * json) :=
  match payload with
  | JObj fs => fs
  | JArr l => imap (fun i x => (decimal (Z.of_nat i), x)) l
  | _ => []
  end.

Definition card (input : WakeParentForChildCompletionInput) (text : jstr) : AppendEventInput := {|
  in_type := "user.message";
  in_payload := Some (JObj [(js "text", JStr text); (js "childCompletion", wp_childCompletion input)]);
  in_clientEventId := Some (wp_clientEventId input); in_turnId := None; in_producerId := None;
  in_producerSeq := None; in_occurredAt := None |}.

Definition plainEvent (type : string) (turnId : option string) (payload : json) : AppendEventInput := {|
  in_type := type; in_payload := Some payload; in_clientEventId := None; in_turnId := turnId;
  in_producerId := None; in_producerSeq := None; in_occurredAt := None |}.

Definition statusQueued : AppendEventInput :=
  plainEvent "session.status.changed" None (JObj [(js "status", JStr (js "queued"))]).

Definition sourceText (s : SessionTurnSource) : jstr :=
  match s with
  | Src_user => js "user" | Src_scheduled_task => js "scheduled_task" | Src_api => js "api" | Src_goal => js "goal"
  end.

Definition queuedEvent (turn : TurnRow) (triggerEventId : string) : AppendEventInput :=
  plainEvent "turn.queued" (Some (t_id turn))
    (JObj [(js "turnId", JStr (js (t_id turn))); (js "triggerEventId", JStr (js triggerEventId));
           (js "source", JStr (sourceText (t_source turn)))]).

Definition priorSummaries (digest : TurnRow) : list json := default [] (asArray (Json.assoc (js "childSummaries") (t_metadata digest))).

Definition eventIs (ws eventId : string) (r : EventRow) : bool :=
  bool_decide (e_workspaceId r = ws) && bool_decide (e_id r = eventId).

Definition setPayload (payload : json) (r : EventRow) : EventRow :=
  {| e_id := e_id r; e_accountId := e_accountId r; e_workspaceId := e_workspaceId r; e_sessionId := e_sessionId r;
     e_turnId := e_turnId r; e_sequence := e_sequence r; e_type := e_type r; e_payload := payload;
     e_clientEventId := e_clientEventId r; e_producerId := e_producerId r; e_producerSeq := e_producerSeq r;
     e_occurredAt := e_occurredAt r |}.

Definition foldedSummaries (input : WakeParentForChildCompletionInput) (digest : TurnRow) : list json :=
  priorSummaries digest ++ [JStr (wp_childSummary input)].
Definition foldedText (input : WakeParentForChildCompletionInput) (digest : TurnRow) : jstr :=
  buildChildCompletionDigest (foldedSummaries input digest) (wp_trailing input).
Definition foldTurn (now : Z) (input : WakeParentForChildCompletionInput) (digest : TurnRow) (r : TurnRow) : TurnRow :=
  r <| t_prompt := foldedText input digest |>
    <| t_metadata := set_field (js "childSummaries") (JArr (foldedSummaries input digest)) (t_metadata digest) |>
    <| t_updatedAt := now |>.

(** FOLD: the digest turn's prompt, summaries and trigger text are rewritten. *)
Definition foldDigest (now : Z) (input : WakeParentForChildCompletionInput) (digest : TurnRow) (cardEvent : SessionEvent) (d : Db)
  : result DbError (TurnRow * SessionEvent * Db) :=
  let ws := wp_workspaceId input in
  let digestText := foldedText input digest in
  let existing := match List.find (eventIs ws (t_triggerEventId digest)) (db_events d) with Some e => spread (e_payload e) | None => [] end in
  let payload := sanitizeEventPayload (JObj (set_field (js "text") (JStr digestText) existing)) in
  let triggerEvent := match updated_rows (eventIs ws (t_triggerEventId digest)) (setPayload payload) (db_events d) with
                      | e :: _ => mapEvent e | [] => cardEvent end in
  match updated_rows (turnIs ws (t_id digest)) (foldTurn now input digest) (db_turns d) with
  | [] => Err FoldFailed
  | turn :: _ =>
      Ok (turn, triggerEvent,
          d <| db_events ::= update_where (eventIs ws (t_triggerEventId digest)) (setPayload payload) |>
            <| db_turns ::= update_where (turnIs ws (t_id digest)) (foldTurn now input digest) |>)
  end.

(** CREATE: a fresh digest turn triggered by the card. *)
Definition digestRow (now : Z) (input : WakeParentForChildCompletionInput) (parent : SessionRow) (cardText : jstr)
  (triggerId id : string) (d : Db) : TurnRow :=
  let latestStartedTurn := latestStartedSessionTurnRow (wp_workspaceId input) (s_id parent) d in {|
  t_id := id; t_accountId := s_accountId parent; t_workspaceId := s_workspaceId parent; t_sessionId := s_id parent;
  t_triggerEventId := triggerId; t_temporalWorkflowId := workflowIdOf parent; t_status := T_queued; t_source := Src_user;
  t_position := nextTurnPosition (wp_workspaceId input) (s_id parent) d; t_prompt := cardText;
  t_resources := JArr []; t_tools := s_tools parent;
  t_model := match latestStartedTurn with Some t => t_model t | None => s_model parent end;
  t_reasoningEffort := match latestStartedTurn with
                       | Some t => t_reasoningEffort t
                       | None => reasoningEffortForMetadata (s_metadata parent) (wp_reasoningEffortFallback input)
                       end;
  t_sandboxBackend := s_sandboxBackend parent;
  t_metadata := [(js "childCompletion", wp_childCompletion input);
                 (js "childSummaries", JArr [JStr (wp_childSummary input)])];
  t_toolspaceCallCount := 0; t_startedAt := None; t_finishedAt := None; t_createdAt := now; t_updatedAt := now |}.

(** The cards of a wake and the parent's settled row. *)
Definition wakeCards (input : WakeParentForChildCompletionInput) (parent : SessionRow) : list AppendEventInput :=
  card input (buildChildCompletionDigest [JStr (wp_childSummary input)] (wp_trailing input))
  :: (if bool_decide (s_status parent ∈ [S_idle; S_failed]) then [statusQueued] else []).
Definition settle (now : Z) (parent : SessionRow) (sequence : Z) (r : SessionRow) : SessionRow :=
  let r := r <| s_lastSequence := sequence |> <| s_updatedAt := now |> in
  if bool_decide (s_status parent ∈ [S_idle; S_failed]) then r <| s_status := S_queued |> <| s_activeTurnId := None |> else r.

Definition wakeParentSessionForChildCompletion (now : Z) (input : WakeParentForChildCompletionInput) (d : Db)
  : result DbError (WakeResult * Db) :=
  let ws := wp_workspaceId input in
  let thisSession := inSession ws (wp_parentSessionId input) in
  match List.find thisSession (db_sessions d) with
  | None => Err (ParentSessionNotFound (wp_parentSessionId input))
  | Some parent =>
      if bool_decide (s_status parent = S_cancelled) then Ok (parent_cancelled, d)
      else
        match getSessionEventByClientEventId ws (wp_parentSessionId input) (wp_clientEventId input) d with
        | Some _ => Ok (already_delivered, d)
        | None =>
            let cardText := buildChildCompletionDigest [JStr (wp_childSummary input)] (wp_trailing input) in
            if passiveMode parent then
              match insertEvents (eventValues parent (s_lastSequence parent) now [card input cardText]) d with
              | Err e => Err e
              | Ok (rows, d) =>
                  Ok (wokePassive (List.map mapEvent rows) (workflowIdOf parent),
                      d <| db_sessions ::= update_where thisSession
                             (fun r => r <| s_lastSequence := s_lastSequence parent + 1 |> <| s_updatedAt := now |>) |>)
              end
            else
              let cards := wakeCards input parent in
              let sequence := s_lastSequence parent + Z.of_nat (length cards) in
              match insertEvents (eventValues parent (s_lastSequence parent) now cards) d with
              | Err e => Err e
              | Ok ([], _) => Err EmptyAppend
              | Ok (cardRow :: rows, d1) =>
                  let cardEvent := mapEvent cardRow in
                  let inserted := List.map mapEvent (cardRow :: rows) in
                  match digestTurn ws (wp_parentSessionId input) d1 with
                  | Some digest =>
                      match foldDigest now input digest cardEvent d1 with
                      | Err e => Err e
                      | Ok (turn, triggerEvent, d2) =>
                          Ok (woke true turn triggerEvent inserted (workflowIdOf parent),
                              d2 <| db_sessions ::= update_where thisSession (settle now parent sequence) |>)
                      end
                  | None =>
                      let turn := digestRow now input parent cardText (e_id cardRow) (uuid (db_fresh d1)) d1 in
                      let d2 := d1 <| db_turns ::= fun t => t ++ [turn] |> <| db_fresh ::= S |> in
                      match insertEvents (eventValues parent sequence now [queuedEvent turn (e_id cardRow)]) d2 with
                      | Err e => Err e
                      | Ok (queuedRows, d3) =>
                          Ok (woke false turn cardEvent (inserted ++ List.map mapEvent queuedRows) (workflowIdOf parent),
                              d3 <| db_sessions ::= update_where thisSession (settle now parent (sequence + 1)) |>)
                      end
                  end
              end
        end
  end.

(** ** A wake always answers, and keeps the logs *)

Lemma find_session ws id d r : List.find (inSession ws id) (db_sessions d) = Some r ->
  r ∈ db_sessions d /\ s_workspaceId r = ws /\ s_id r = id.
Proof. intros [H1 H2]%find_some. apply inSession_true in H2. apply list_elem_of_In in H1. tauto. Qed.

Lemma no_event ws sid c d e :
  getSessionEventByClientEventId ws sid c d = None -> e ∈ db_events d -> eventOf ws sid e = true -> e_clientEventId e <> Some c.
Proof.
  unfold getSessionEventByClientEventId. intros H He Ho Hc. destruct (List.find _ _) eqn:E; [done|].
  apply list_elem_of_In in He. apply (find_none _ _ E) in He. by rewrite Ho, Hc, bool_decide_eq_true_2 in He.
Qed.

(** The cards of a first delivery go in. *)
Lemma cards_total now input parent cards d :
  log_ok d -> List.find (inSession (wp_workspaceId input) (wp_parentSessionId input)) (db_sessions d) = Some parent ->
  getSessionEventByClientEventId (wp_workspaceId input) (wp_parentSessionId input) (wp_clientEventId input) d = None ->
  (exists text b, cards = card input text :: (if b : bool then [statusQueued] else [])) ->
  exists rows d1, insertEvents (eventValues parent (s_lastSequence parent) now cards) d = Ok (rows, d1).
Proof.
  intros Hok Hf Hno (text & b & ->). apply find_session in Hf as (Hin & Hw & Hi). apply insertEvents_total.
  - intros e He Ho. by eapply log_ok_bound.
  - destruct b; by repeat constructor.
  - intros i c e Hi' Hc He Ho. rewrite Hw, Hi in Ho.
    assert (c = wp_clientEventId input) as ->.
    { destruct b; rewrite ?elem_of_cons in Hi'; [destruct Hi' as [->|[->|Hi']]|destruct Hi' as [->|Hi']];
        cbn in Hc; try congruence; by apply elem_of_nil in Hi'. }
    by eapply no_event.
  - destruct b; cbn; apply NoDup_singleton.
Qed.

Lemma eventValues_app row seq now a b :
  eventValues row seq now (a ++ b) = eventValues row seq now a ++ eventValues row (seq + Z.of_nat (length a)) now b.
Proof.
  revert seq; induction a as [|x a IH]; intros seq; cbn [eventValues app length].
  - f_equal. lia.
  - rewrite IH. cbn. do 3 f_equal. lia.
Qed.

(** The rows of a batch: numbered on from [seq], in the parent's session. *)
Definition batch (row : SessionRow) (seq : Z) (n : nat) (rows : list EventRow) : Prop :=
  length rows = n /\ List.map e_sequence rows = seqZ (seq + 1) (Z.of_nat n) /\
  Forall (fun e => e_workspaceId e = s_workspaceId row /\ e_sessionId e = s_id row) rows.

Lemma insert_clients row seq now inputs d rows d1 c :
  insertEvents (eventValues row seq now inputs) d = Ok (rows, d1) ->
  Forall (fun i => in_clientEventId i = None \/ in_clientEventId i = Some c) inputs ->
  Forall (fun e => e_clientEventId e = None \/ e_clientEventId e = Some c) rows.
Proof.
  intros (-> & _)%insertEvents_spec Hf. generalize (db_fresh d) as n. revert seq.
  induction Hf as [|i ins Hi _ IH]; intros seq n; [constructor|]. cbn [eventValues]. rewrite imap_cons. constructor; [exact Hi|].
  specialize (IH (seq + 1) (S n)). eapply Forall_impl; [|intros e He; exact He].
  erewrite imap_ext; [exact IH|]. intros j x _. cbn. do 2 f_equal. lia.
Qed.

Lemma insert_batch row seq now inputs d rows d1 :
  insertEvents (eventValues row seq now inputs) d = Ok (rows, d1) ->
  batch row seq (length inputs) rows /\ db_events d1 = db_events d ++ rows /\ db_sessions d1 = db_sessions d /\
  db_turns d1 = db_turns d /\ db_goals d1 = db_goals d /\ db_fresh d1 = (db_fresh d + length inputs)%nat.
Proof.
  intros (Hr & He & Hs & Ht & Hg & Hf)%insertEvents_spec.
  destruct (eventValues_spec row seq now inputs (db_fresh d)) as (Hl & Hq & Hin). rewrite <- Hr in *.
  assert (length (eventValues row seq now inputs) = length inputs) as Hlen.
  { clear. revert seq; induction inputs; intros; cbn; auto. }
  rewrite Hlen in Hf. unfold batch. by split_and!.
Qed.

Lemma batch_app row seq n m rows rows' :
  batch row seq n rows -> batch row (seq + Z.of_nat n) m rows' -> batch row seq (n + m) (rows ++ rows').
Proof.
  intros (Hl & Hq & Hf) (Hl' & Hq' & Hf'). unfold batch. split_and!.
  - rewrite length_app. lia.
  - rewrite List.map_app, Hq, Hq', Nat2Z.inj_add, seqZ_app by lia. f_equal. f_equal. lia.
  - by apply Forall_app.
Qed.

Lemma log_ok_wake d d' ws id row n rows f :
  log_ok d -> List.find (inSession ws id) (db_sessions d) = Some row -> batch row (s_lastSequence row) n rows ->
  db_events d' = db_events d ++ rows -> db_sessions d' = update_where (inSession ws id) f (db_sessions d) ->
  (forall r, s_id (f r) = s_id r /\ s_workspaceId (f r) = s_workspaceId r /\ s_lastSequence (f r) = s_lastSequence row + Z.of_nat n) ->
  log_ok d'.
Proof.
  intros Hok Hf (Hl & Hq & Hin) He Hs Hfr. subst n. by eapply log_ok_rows.
Qed.

Lemma digestTurn_elem ws sid d t :
  digestTurn ws sid d = Some t ->
  t ∈ db_turns d /\ turnOf ws sid t = true /\ t_status t = T_queued /\ isChildNotification t = true.
Proof.
  unfold digestTurn. intros H%head_Some_elem_of. rewrite elem_of_sort_by in H.
  apply elem_of_select_where in H as [H Hin]. breflect. unfold hasStatus in *. breflect.
  split_and!; [done|done| |done]. by apply list_elem_of_singleton.
Qed.

(** What a delivered wake leaves: the card with its client id, the session
    still there and not cancelled, its metadata as they were. *)
Definition delivered (ws sid c : string) (d : Db) : Prop :=
  exists e, e ∈ db_events d /\ eventOf ws sid e = true /\ e_clientEventId e = Some c.

Lemma delivered_seen ws sid c d : delivered ws sid c d -> getSessionEventByClientEventId ws sid c d <> None.
Proof. intros (e & He & Ho & Hc) Hn. by eapply no_event in Hn. Qed.

(** Rows of a batch whose first input carries a client id. *)
Lemma batch_delivered row seq now input text rest d rows d1 :
  insertEvents (eventValues row seq now (card input text :: rest)) d = Ok (rows, d1) ->
  s_workspaceId row = wp_workspaceId input -> s_id row = wp_parentSessionId input ->
  exists cardRow rows', rows = cardRow :: rows' /\ eventOf (wp_workspaceId input) (wp_parentSessionId input) cardRow = true /\
    e_clientEventId cardRow = Some (wp_clientEventId input).
Proof.
  intros (-> & _)%insertEvents_spec Hw Hi. cbn -[imap]. rewrite imap_cons. eexists _, _. split; [reflexivity|].
  split; [|done]. apply eventOf_true. by split.
Qed.

Definition session_kept (ws sid : string) (d d' : Db) : Prop :=
  forall r, List.find (inSession ws sid) (db_sessions d) = Some r ->
  exists r', List.find (inSession ws sid) (db_sessions d') = Some r' /\ s_metadata r' = s_metadata r /\
             (s_status r <> S_cancelled -> s_status r' <> S_cancelled).

Lemma find_update ws sid ws' sid' f l r :
  (forall r, s_id (f r) = s_id r /\ s_workspaceId (f r) = s_workspaceId r) ->
  List.find (inSession ws sid) l = Some r ->
  List.find (inSession ws sid) (update_where (inSession ws' sid') f l) = Some (if inSession ws' sid' r then f r else r).
Proof.
  intros Hf. induction l as [|x l IH]; [done|]. cbn.
  assert (inSession ws sid (if inSession ws' sid' x then f x else x) = inSession ws sid x) as ->.
  { unfold inSession at 1 3. destruct (inSession ws' sid' x); [|done]. by destruct (Hf x) as [-> ->]. }
  destruct (inSession ws sid x); [by intros [= ->]|done].
Qed.

Lemma setPayload_keys payload e :
  e_workspaceId (setPayload payload e) = e_workspaceId e /\ e_sessionId (setPayload payload e) = e_sessionId e /\
  e_sequence (setPayload payload e) = e_sequence e /\ e_clientEventId (setPayload payload e) = e_clientEventId e.
Proof. done. Qed.

Lemma foldDigest_spec now input digest cardEvent d :
  digest ∈ db_turns d -> turnIs (wp_workspaceId input) (t_id digest) digest = true ->
  exists turn trig g d2, foldDigest now input digest cardEvent d = Ok (turn, trig, d2) /\
    db_turns d2 = update_where (turnIs (wp_workspaceId input) (t_id digest)) (foldTurn now input digest) (db_turns d) /\
    db_sessions d2 = db_sessions d /\ db_goals d2 = db_goals d /\ db_fresh d2 = db_fresh d /\
    db_events d2 = List.map g (db_events d) /\
    forall e, e_workspaceId (g e) = e_workspaceId e /\ e_sessionId (g e) = e_sessionId e /\
              e_sequence (g e) = e_sequence e /\ e_clientEventId (g e) = e_clientEventId e.
Proof.
  intros Hin Hp. unfold foldDigest.
  set (payload := sanitizeEventPayload _).
  destruct (updated_rows (turnIs _ _) _ _) as [|turn l] eqn:E.
  - assert (H : foldTurn now input digest digest ∈ updated_rows (turnIs (wp_workspaceId input) (t_id digest)) (foldTurn now input digest) (db_turns d)).
    { apply list_elem_of_fmap. exists digest. split; [done|]. by apply list_elem_of_In, filter_In; split; [apply list_elem_of_In|]. }
    rewrite E in H. by apply elem_of_nil in H.
  - eexists turn, _, (fun e => if eventIs (wp_workspaceId input) (t_triggerEventId digest) e then setPayload payload e else e), _.
    split; [reflexivity|]. split_and!; [done..|]. intros e. by case_match.
Qed.

(** A transaction that may deliver [c] and nothing else. *)
Definition stays (c : string) (d d' : Db) : Prop :=
  log_ok d' /\ (db_fresh d <= db_fresh d')%nat /\ (forall ws sid, session_kept ws sid d d') /\
  (forall ws sid c, delivered ws sid c d -> delivered ws sid c d') /\
  (forall ws sid c', delivered ws sid c' d' -> c' = c \/ delivered ws sid c' d).

Lemma stays_refl c d : log_ok d -> stays c d d.
Proof. intros H. split_and!; [done|done| |done|by right]. intros ws sid r Hr. by exists r. Qed.

(** Rows appended, payloads rewritten, the parent's row settled. *)
Lemma stays_wake c d d' ws id row n rows g f :
  Forall (fun e => e_clientEventId e = None \/ e_clientEventId e = Some c) rows -> log_ok d -> List.find (inSession ws id) (db_sessions d) = Some row -> batch row (s_lastSequence row) n rows ->
  db_events d' = List.map g (db_events d ++ rows) ->
  (forall e, e_workspaceId (g e) = e_workspaceId e /\ e_sessionId (g e) = e_sessionId e /\
             e_sequence (g e) = e_sequence e /\ e_clientEventId (g e) = e_clientEventId e) ->
  db_sessions d' = update_where (inSession ws id) f (db_sessions d) -> (db_fresh d <= db_fresh d')%nat ->
  (forall r, s_id (f r) = s_id r /\ s_workspaceId (f r) = s_workspaceId r /\ s_lastSequence (f r) = s_lastSequence row + Z.of_nat n /\
             s_metadata (f r) = s_metadata r /\ (s_status r <> S_cancelled -> s_status (f r) <> S_cancelled)) ->
  stays c d d' /\ (forall e, e ∈ rows -> g e ∈ db_events d').
Proof.
  intros Hcl Hok Hf Hb He Hg Hs Hfr Hff. split; [split_and!; [|done| | |]|].
  - apply (log_ok_map (d' <| db_events := db_events d ++ rows |>) d' g); [|done|done|].
    + eapply log_ok_wake; [exact Hok|exact Hf|exact Hb|done|exact Hs|]. intros r. by destruct (Hff r) as (? & ? & ? & _).
    + intros e. by destruct (Hg e) as (? & ? & ? & _).
  - intros ws' sid' r Hr. rewrite Hs. eexists. split; [apply find_update; [|exact Hr]|].
    + intros x. by destruct (Hff x) as (? & ? & _).
    + destruct (Hff r) as (_ & _ & _ & ? & ?). by case_match.
  - intros ws' sid' c0 (e & Hin & Ho & Hc). exists (g e). destruct (Hg e) as (Hw & Hi & _ & Hcc). split_and!.
    + rewrite He. apply list_elem_of_fmap. exists e. split; [done|]. apply elem_of_app. by left.
    + unfold eventOf in *. by rewrite Hw, Hi.
    + congruence.
  - intros ws' sid' c0 (e' & Hin & Ho & Hc). rewrite He in Hin. apply list_elem_of_fmap in Hin as (e & -> & Hin).
    destruct (Hg e) as (Hw & Hi & _ & Hcc). rewrite Hcc in Hc. apply elem_of_app in Hin as [Hin|Hin].
    + right. exists e. split_and!; [done| |done]. unfold eventOf in *. by rewrite <- Hw, <- Hi.
    + left. rewrite Forall_forall in Hcl. destruct (Hcl e Hin); congruence.
  - intros e Hin. rewrite He. apply list_elem_of_fmap. exists e. split; [done|]. apply elem_of_app. by right.
Qed.

(** The outcome of a wake, by its answer. *)
Definition outcome (now : Z) (input : WakeParentForChildCompletionInput) (parent : SessionRow) (d : Db) (r : WakeResult) (d' : Db) : Prop :=
  let ws := wp_workspaceId input in let sid := wp_parentSessionId input in let c := wp_clientEventId input in
  match r with
  | parent_cancelled => d' = d /\ s_status parent = S_cancelled
  | already_delivered => d' = d /\ getSessionEventByClientEventId ws sid c d <> None
  | wokePassive _ _ => delivered ws sid c d' /\ passiveMode parent = true /\ db_turns d' = db_turns d
  | woke folded t _ _ _ =>
      delivered ws sid c d' /\ passiveMode parent = false /\
      if folded
      then exists digest, digestTurn ws sid d = Some digest /\
             db_turns d' = update_where (turnIs ws (t_id digest)) (foldTurn now input digest) (db_turns d)
      else digestTurn ws sid d = None /\ db_turns d' = db_turns d ++ [t] /\
           turnOf ws sid t = true /\ t_status t = T_queued /\
           t_metadata t = [(js "childCompletion", wp_childCompletion input); (js "childSummaries", JArr [JStr (wp_childSummary input)])] /\
           t_prompt t = buildChildCompletionDigest [JStr (wp_childSummary input)] (wp_trailing input) /\
           t_position t = nextTurnPosition ws sid d /\
           exists n, t_id t = uuid n /\ (db_fresh d <= n < db_fresh d')%nat
  end.

Lemma settle_keeps now parent sequence r :
  s_id (settle now parent sequence r) = s_id r /\ s_workspaceId (settle now parent sequence r) = s_workspaceId r /\
  s_lastSequence (settle now parent sequence r) = sequence /\ s_metadata (settle now parent sequence r) = s_metadata r /\
  (s_status r <> S_cancelled -> s_status (settle now parent sequence r) <> S_cancelled).
Proof. unfold settle. by case_bool_decide. Qed.

Lemma digestTurn_ext ws sid d d' : db_turns d' = db_turns d -> digestTurn ws sid d' = digestTurn ws sid d.
Proof. unfold digestTurn. by intros ->. Qed.

Lemma nextTurnPosition_ext ws sid d d' : db_turns d' = db_turns d -> nextTurnPosition ws sid d' = nextTurnPosition ws sid d.
Proof. unfold nextTurnPosition. by intros ->. Qed.

Lemma wakeCards_clients input parent :
  Forall (fun i => in_clientEventId i = None \/ in_clientEventId i = Some (wp_clientEventId input)) (wakeCards input parent).
Proof. unfold wakeCards. constructor; [by right|]. case_bool_decide; [constructor; [by left|]|]; constructor. Qed.

(** The active branch, once the cards are in. *)
Lemma wake_fold now input d parent rows d1 digest :
  let ws := wp_workspaceId input in let sid := wp_parentSessionId input in
  log_ok d -> List.find (inSession ws sid) (db_sessions d) = Some parent ->
  insertEvents (eventValues parent (s_lastSequence parent) now (wakeCards input parent)) d = Ok (rows, d1) ->
  digestTurn ws sid d = Some digest ->
  exists cardRow rows' turn trig d2, rows = cardRow :: rows' /\
    foldDigest now input digest (mapEvent cardRow) d1 = Ok (turn, trig, d2) /\
    let d' := d2 <| db_sessions ::= update_where (inSession ws sid)
                      (settle now parent (s_lastSequence parent + Z.of_nat (length (wakeCards input parent)))) |> in
    stays (wp_clientEventId input) d d' /\ delivered ws sid (wp_clientEventId input) d' /\
    db_turns d' = update_where (turnIs ws (t_id digest)) (foldTurn now input digest) (db_turns d).
Proof.
  intros ws sid Hok Hf Hi Hdig. apply find_session in Hf as Hp. destruct Hp as (_ & Hw & Hid).
  destruct (batch_delivered _ _ _ _ _ _ _ _ _ Hi Hw Hid) as (cardRow & rows' & -> & Ho & Hc).
  pose proof (insert_clients _ _ _ _ _ _ _ _ Hi (wakeCards_clients input parent)) as Hcl.
  apply insert_batch in Hi as (Hb & Hev & Hs & Ht & _ & Hfr).
  apply digestTurn_elem in Hdig as (Hin & Hof & _). rewrite <- Ht in Hin.
  assert (Htis : turnIs ws (t_id digest) digest = true).
  { unfold turnOf, turnIs in *. breflect. by rewrite H, bool_decide_eq_true_2. }
  destruct (foldDigest_spec now input digest (mapEvent cardRow) d1 Hin Htis)
    as (turn & trig & g & d2 & Hfold & Ht2 & Hs2 & _ & Hfr2 & He2 & Hg).
  exists cardRow, rows', turn, trig, d2. split; [done|]. split; [done|].
  match goal with |- let d' := ?x in _ => set (d' := x) end. cbv zeta.
  destruct (stays_wake (wp_clientEventId input) d d' ws sid parent (length (wakeCards input parent)) (cardRow :: rows') g
    (settle now parent (s_lastSequence parent + Z.of_nat (length (wakeCards input parent))))) as [Hst Hrows]; try done.
  - cbn. by rewrite He2, Hev.
  - cbn. by rewrite Hs2, Hs.
  - cbn. rewrite Hfr2, Hfr. lia.
  - intros r. destruct (settle_keeps now parent (s_lastSequence parent + Z.of_nat (length (wakeCards input parent))) r) as (? & ? & ? & ? & ?).
    by split_and!.
  - split; [done|]. split; [|cbn; by rewrite Ht2, Ht].
    exists (g cardRow). destruct (Hg cardRow) as (Hgw & Hgi & _ & Hgc). split_and!; [apply Hrows; left| |congruence].
    unfold eventOf in *. by rewrite Hgw, Hgi.
Qed.

Lemma wake_create now input d parent rows d1 :
  let ws := wp_workspaceId input in let sid := wp_parentSessionId input in
  let sequence := s_lastSequence parent + Z.of_nat (length (wakeCards input parent)) in
  let text := buildChildCompletionDigest [JStr (wp_childSummary input)] (wp_trailing input) in
  log_ok d -> List.find (inSession ws sid) (db_sessions d) = Some parent ->
  insertEvents (eventValues parent (s_lastSequence parent) now (wakeCards input parent)) d = Ok (rows, d1) ->
  exists cardRow rows' queuedRows d3, rows = cardRow :: rows' /\
    let turn := digestRow now input parent text (e_id cardRow) (uuid (db_fresh d1)) d1 in
    insertEvents (eventValues parent sequence now [queuedEvent turn (e_id cardRow)])
      (d1 <| db_turns ::= fun t => t ++ [turn] |> <| db_fresh ::= S |>) = Ok (queuedRows, d3) /\
    let d' := d3 <| db_sessions ::= update_where (inSession ws sid) (settle now parent (sequence + 1)) |> in
    stays (wp_clientEventId input) d d' /\ delivered ws sid (wp_clientEventId input) d' /\ db_turns d' = db_turns d ++ [turn] /\
    db_turns d1 = db_turns d /\ (db_fresh d <= db_fresh d1 < db_fresh d')%nat.
Proof.
  intros ws sid sequence text Hok Hf Hi. apply find_session in Hf as Hp. destruct Hp as (Hin & Hw & Hid).
  destruct (batch_delivered _ _ _ _ _ _ _ _ _ Hi Hw Hid) as (cardRow & rows' & -> & Ho & Hc).
  pose proof (insert_clients _ _ _ _ _ _ _ _ Hi (wakeCards_clients input parent)) as Hcl.
  apply insert_batch in Hi as (Hb & Hev & Hs & Ht & _ & Hfr). exists cardRow, rows'.
  set (turn := digestRow now input parent text (e_id cardRow) (uuid (db_fresh d1)) d1). cbv zeta.
  set (d2 := d1 <| db_turns ::= fun t => t ++ [turn] |> <| db_fresh ::= S |>).
  destruct (insertEvents_total parent sequence now [queuedEvent turn (e_id cardRow)] d2) as (queuedRows & d3 & Hq).
  - intros e He Hoe. change (db_events d2) with (db_events d1) in He. rewrite Hev in He. apply elem_of_app in He as [He|He].
    + pose proof (log_ok_bound d parent e Hok Hin He Hoe). unfold sequence. lia.
    + destruct Hb as (Hl & Hseq & _). apply list_elem_of_lookup in He as [i Hi].
      assert (He : List.map e_sequence (cardRow :: rows') !! i = Some (e_sequence e)) by (by rewrite list_lookup_fmap, Hi).
      rewrite Hseq in He. apply lookup_seqZ in He as [? ?]. unfold sequence. lia.
  - by repeat constructor.
  - intros i c e Hi%list_elem_of_singleton Hcc. subst i. discriminate.
  - apply NoDup_nil_2.
  - exists queuedRows, d3. split; [done|]. split; [exact Hq|].
    pose proof (insert_clients _ _ _ _ _ _ _ (wp_clientEventId input) Hq) as Hqcl.
    apply insert_batch in Hq as (Hqb & Hqe & Hqs & Hqt & _ & Hqf).
    match goal with |- stays _ d ?x /\ _ => set (d' := x) end.
    destruct (stays_wake (wp_clientEventId input) d d' ws sid parent (length (wakeCards input parent) + 1)%nat ((cardRow :: rows') ++ queuedRows) (fun e => e)
      (settle now parent (sequence + 1))) as [Hst Hrows]; try done.
    + apply Forall_app. split; [done|]. apply Hqcl. constructor; [by left|constructor].
    + by apply batch_app.
    + cbn. rewrite Hqe. change (db_events d2) with (db_events d1). by rewrite Hev, List.map_id, <- app_assoc.
    + cbn. rewrite Hqs. change (db_sessions d2) with (db_sessions d1). by rewrite Hs.
    + cbn. rewrite Hqf. cbn. rewrite Hfr. lia.
    + intros r. destruct (settle_keeps now parent (sequence + 1) r) as (? & ? & ? & ? & ?). split_and!; try done. unfold sequence in *. lia.
    + split_and!; [done| | |done|lia|].
      * exists cardRow. split_and!; [|done|done]. apply (Hrows cardRow). left.
      * cbn. rewrite Hqt. cbn. by rewrite Ht.
      * cbn. rewrite Hqf. cbn. lia.
Qed.

(** A wake of an existing parent always answers, keeps every log numbered
    without gaps, and its answer says what it did. *)
Lemma wake_total now input d parent :
  log_ok d -> List.find (inSession (wp_workspaceId input) (wp_parentSessionId input)) (db_sessions d) = Some parent ->
  exists r d', wakeParentSessionForChildCompletion now input d = Ok (r, d') /\ stays (wp_clientEventId input) d d' /\ outcome now input parent d r d'.
Proof.
  intros Hok Hf. unfold wakeParentSessionForChildCompletion. rewrite Hf.
  case_bool_decide as Hcan; [eexists _, _; split; [reflexivity|]; split; [by apply stays_refl|done]|].
  destruct (getSessionEventByClientEventId _ _ _ d) as [ev|] eqn:Hno;
    [eexists _, _; split; [reflexivity|]; split; [by apply stays_refl|by cbn; rewrite Hno]|].
  destruct (passiveMode parent) eqn:Hpas.
  - destruct (cards_total now input parent [card input (buildChildCompletionDigest [JStr (wp_childSummary input)] (wp_trailing input))] d
      Hok Hf Hno) as (rows & d1 & Hi); [by eexists _, false|]. rewrite Hi. eexists _, _. split; [reflexivity|].
    apply find_session in Hf as Hp. destruct Hp as (_ & Hw & Hid).
    destruct (batch_delivered _ _ _ _ _ _ _ _ _ Hi Hw Hid) as (cardRow & rows' & -> & Ho & Hc).
    pose proof (insert_clients _ _ _ _ _ _ _ (wp_clientEventId input) Hi) as Hcl.
    apply insert_batch in Hi as (Hb & Hev & Hs & Ht & _ & Hfr).
    match goal with |- stays _ d ?x /\ _ => set (d' := x) end.
    destruct (stays_wake (wp_clientEventId input) d d' (wp_workspaceId input) (wp_parentSessionId input) parent 1 (cardRow :: rows') (fun e => e)
      (fun r => r <| s_lastSequence := s_lastSequence parent + 1 |> <| s_updatedAt := now |>)) as [Hst Hrows]; try done.
    + apply Hcl. constructor; [by right|constructor].
    + cbn -[List.map]. by rewrite List.map_id.
    + cbn. by rewrite Hs.
    + cbn. rewrite Hfr. lia.
    + split; [done|]. split_and!; [|done|done]. exists cardRow. split_and!; [apply (Hrows cardRow); left|done|done].
  - destruct (cards_total now input parent (wakeCards input parent) d Hok Hf Hno) as (rows & d1 & Hi); [by eexists _, _|].
    rewrite Hi. destruct (wake_create now input d parent rows d1 Hok Hf Hi)
      as (cardRow & rows' & queuedRows & d3 & -> & Hq & Hst & Hdel & Ht & Ht1 & Hfr).
    rewrite (digestTurn_ext _ _ _ _ Ht1). destruct (digestTurn (wp_workspaceId input) (wp_parentSessionId input) d) as [digest|] eqn:Hdig.
    + destruct (wake_fold now input d parent _ d1 digest Hok Hf Hi Hdig) as (c2 & r2 & turn & trig & d2 & [= <- <-] & Hfold & Hst' & Hdel' & Ht').
      rewrite Hfold. eexists _, _. split; [reflexivity|]. split; [exact Hst'|]. split_and!; [exact Hdel'|done|]. by exists digest.
    + rewrite Hq. eexists _, _. split; [reflexivity|]. split; [exact Hst|]. apply find_session in Hf as Hp. destruct Hp as (_ & Hw & Hid).
      split_and!; [exact Hdel|done|done|exact Ht| |done|done|done| |].
      * unfold turnOf, turnIn. cbn. by rewrite Hw, Hid, !bool_decide_eq_true_2.
      * cbn. rewrite Hid. by apply nextTurnPosition_ext.
      * eexists. split; [reflexivity|]. exact Hfr.
Qed.

(** ** Exactly once *)

(** What later transactions on the log may do. *)
Inductive later_step (d d' : Db) : Prop :=
| later_wake now input r : wakeParentSessionForChildCompletion now input d = Ok (r, d') -> later_step d d'
| later_append : append_step d d' -> later_step d d'.

Definition has_session (ws sid : string) (d : Db) : Prop := List.find (inSession ws sid) (db_sessions d) <> None.

Lemma has_session_elem ws sid d : has_session ws sid d <-> exists r, r ∈ db_sessions d /\ inSession ws sid r = true.
Proof.
  unfold has_session. split.
  - intros H. destruct (List.find _ _) as [r|] eqn:E; [|done]. apply find_some in E as [Hin Hp].
    exists r. split; [by apply list_elem_of_In|done].
  - intros (r & Hin & Hp) Hn. apply list_elem_of_In in Hin. apply (find_none _ _ Hn) in Hin. congruence.
Qed.

Lemma update_has_session ws sid p f d d' :
  db_sessions d' = update_where p f (db_sessions d) ->
  (forall r, s_id (f r) = s_id r /\ s_workspaceId (f r) = s_workspaceId r) -> has_session ws sid d -> has_session ws sid d'.
Proof.
  intros Hs Hf. rewrite !has_session_elem. intros (r & Hin & Hp). exists (if p r then f r else r). split.
  - rewrite Hs. apply elem_of_update_where. by exists r.
  - destruct (p r); [|done]. unfold inSession in *. by destruct (Hf r) as [-> ->].
Qed.

Lemma more_delivered ws sid c d d' rows : db_events d' = db_events d ++ rows -> delivered ws sid c d -> delivered ws sid c d'.
Proof. intros He (e & Hin & H). exists e. split; [|done]. rewrite He. apply elem_of_app. by left. Qed.

Lemma append_later ws sid c d d' :
  append_step d d' -> has_session ws sid d -> delivered ws sid c d -> has_session ws sid d' /\ delivered ws sid c d'.
Proof.
  assert (Hins : forall vs rows d1 f p, insertEvents vs d = Ok (rows, d1) ->
    (forall r, s_id (f r) = s_id r /\ s_workspaceId (f r) = s_workspaceId r) -> has_session ws sid d -> delivered ws sid c d ->
    has_session ws sid (d1 <| db_sessions ::= update_where p f |>) /\ delivered ws sid c (d1 <| db_sessions ::= update_where p f |>)).
  { intros vs rows d1 f p (_ & He & Hs & _)%insertEvents_spec Hf Hh Hd. split.
    - eapply (update_has_session _ _ p f d); [cbn; by rewrite Hs|done|done].
    - eapply more_delivered; [exact He|done]. }
  intros Hstep Hh Hd. destruct Hstep as [now w i ins evs H|now w g i evs H|now w i ins u evs H|now w i build evs H].
  - unfold appendSessionEvents in H. destruct ins; [by simplify_eq|]. destruct (List.find _ _); [|done].
    destruct (insertEvents _ d) as [[rows d1]|] eqn:E; [|done]. injection H as _ <-. by eapply Hins.
  - unfold appendSessionEventToSandboxGroup in H. destruct (sort_by _ _); [by simplify_eq|].
    destruct (insertEvents _ d) as [[rows d1]|] eqn:E; [|done]. injection H as _ <-. by eapply Hins.
  - unfold appendSessionEventsAndUpdateSession in H. destruct ins; [by simplify_eq|]. destruct (List.find _ _); [|done].
    destruct (insertEvents _ d) as [[rows d1]|] eqn:E; [|done]. injection H as _ <-. by eapply Hins.
  - unfold appendSessionEventsWithLockedSessionUpdate in H. destruct (List.find _ _); [|done].
    destruct (build _ _) as [[[|e es] u]|]; [by simplify_eq| |done].
    destruct (insertEvents _ d) as [[rows d1]|] eqn:E; [|done]. injection H as _ <-. by eapply Hins.
Qed.

Lemma later_ok ws sid c d d' :
  later_step d d' -> log_ok d -> has_session ws sid d -> delivered ws sid c d ->
  log_ok d' /\ has_session ws sid d' /\ delivered ws sid c d'.
Proof.
  intros [now input r H|H] Hok Hh Hd.
  - destruct (List.find (inSession (wp_workspaceId input) (wp_parentSessionId input)) (db_sessions d)) as [parent|] eqn:E.
    + destruct (wake_total now input d parent Hok E) as (r2 & d2 & H2 & (Hok2 & _ & Hk & Hdel & _) & _).
      rewrite H in H2. injection H2 as _ <-. split_and!; [done| |by apply Hdel].
      unfold has_session in *. destruct (List.find (inSession ws sid) (db_sessions d)) as [p|] eqn:Ep; [|done].
      destruct (Hk ws sid p Ep) as (p' & -> & _). done.
    + unfold wakeParentSessionForChildCompletion in H. by rewrite E in H.
  - split; [|by eapply append_later]. destruct H; eauto using appendSessionEvents_log_ok, appendSessionEventToSandboxGroup_log_ok,
      appendSessionEventsAndUpdateSession_log_ok, appendSessionEventsWithLockedSessionUpdate_log_ok.
Qed.

(** The same episode delivered again changes nothing. *)
Lemma redelivered now input d parent r d1 d2 now' input' :
  log_ok d -> List.find (inSession (wp_workspaceId input) (wp_parentSessionId input)) (db_sessions d) = Some parent ->
  wakeParentSessionForChildCompletion now input d = Ok (r, d1) -> r <> parent_cancelled ->
  rtc later_step d1 d2 ->
  wp_workspaceId input' = wp_workspaceId input -> wp_parentSessionId input' = wp_parentSessionId input ->
  wp_clientEventId input' = wp_clientEventId input ->
  wakeParentSessionForChildCompletion now' input' d2 = Ok (already_delivered, d2) \/
  wakeParentSessionForChildCompletion now' input' d2 = Ok (parent_cancelled, d2).
Proof.
  intros Hok Hf Hw Hr Hs E1 E2 E3.
  destruct (wake_total now input d parent Hok Hf) as (r2 & d1' & Hw2 & (Hok1 & _ & Hk & _ & _) & Ho).
  rewrite Hw in Hw2. injection Hw2 as <- <-.
  set (ws := wp_workspaceId input) in *. set (sid := wp_parentSessionId input) in *. set (c := wp_clientEventId input) in *.
  assert (Hh1 : has_session ws sid d1) by (unfold has_session; by destruct (Hk ws sid parent Hf) as (p' & -> & _)).
  assert (Hd1 : delivered ws sid c d1).
  { destruct r; cbn in Ho; try done; [|by destruct Ho..]. destruct Ho as [-> Hseen].
    unfold getSessionEventByClientEventId in Hseen. destruct (List.find _ (db_events d)) as [e|] eqn:E; [|done].
    apply find_some in E as [Hin Hp]. apply andb_true_iff in Hp as [Hp1 Hp2]. exists e. apply list_elem_of_In in Hin.
    split_and!; [done|done|by apply bool_decide_eq_true in Hp2]. }
  assert (H2 : log_ok d2 /\ has_session ws sid d2 /\ delivered ws sid c d2).
  { clear Hw Hk Ho. induction Hs as [|x y z Hxy _ IH]; [done|]. destruct (later_ok ws sid c x y Hxy Hok1 Hh1 Hd1) as (? & ? & ?). by apply IH. }
  destruct H2 as (_ & Hh2 & Hd2). unfold wakeParentSessionForChildCompletion. rewrite E1, E2, E3. fold ws sid c.
  unfold has_session in Hh2. destruct (List.find (inSession ws sid) (db_sessions d2)) as [p|]; [|done].
  case_bool_decide; [by right|left]. apply delivered_seen in Hd2. by destruct (getSessionEventByClientEventId ws sid c d2).
Qed.

(** What the text of a digest says. *)
Definition says (part whole : jstr) : Prop := exists before after, whole = before ++ part ++ after.
Lemma says_refl s : says s s.
Proof. exists [], []. by rewrite app_nil_r. Qed.
Lemma says_l s a b : says s a -> says s (a ++ b).
Proof. intros (x & y & ->). exists x, (y ++ b). by rewrite <- !app_assoc. Qed.
Lemma says_r s a b : says s b -> says s (a ++ b).
Proof. intros (x & y & ->). exists (a ++ x), y. by rewrite <- app_assoc. Qed.
Lemma join_says sep l s x : says s x -> x ∈ l -> says s (join sep l).
Proof.
  intros Hs. induction l as [|y l IH]; [by intros ?%elem_of_nil|]. destruct l as [|z l]; [by intros ->%list_elem_of_singleton|].
  cbn [join]. intros [->|H]%elem_of_cons; [by apply says_l|]. apply says_r, says_r. by apply IH.
Qed.
Lemma digest_says summaries trailing s : JStr s ∈ summaries -> says s (buildChildCompletionDigest summaries trailing).
Proof.
  intros Hin. unfold buildChildCompletionDigest. destruct summaries as [|x [|y l]]; [by apply elem_of_nil in Hin| |].
  - apply list_elem_of_singleton in Hin as <-. apply (join_says _ _ _ s); [apply says_refl|left].
  - set (items := x :: y :: l) in *. assert (exists i, says s (decimal (Z.of_nat i + 1) ++ js ". " ++ toText (JStr s)) /\
      decimal (Z.of_nat i + 1) ++ js ". " ++ toText (JStr s) ∈ imap (fun i summary => decimal (Z.of_nat i + 1) ++ js ". " ++ toText summary) items) as (i & H1 & H2).
    { apply list_elem_of_lookup in Hin as [i Hi]. exists i. split; [do 2 apply says_r; apply says_refl|]. apply list_elem_of_lookup. exists i. by rewrite list_lookup_imap, Hi. }
    eapply join_says; [by eapply join_says|]. do 2 right. left.
Qed.
Lemma digest_trailing summaries trailing : says trailing (buildChildCompletionDigest summaries trailing).
Proof.
  unfold buildChildCompletionDigest. destruct summaries as [|x [|y l]]; (apply (join_says _ _ _ trailing); [apply says_refl|]); [do 2 right; left|do 2 right; left|do 4 right; left].
Qed.
(** The parent's row after a wake that queues work. *)
Lemma woke_session now input d parent folded t e evs wf d1 :
  let thisSession := inSession (wp_workspaceId input) (wp_parentSessionId input) in
  List.find thisSession (db_sessions d) = Some parent -> wakeParentSessionForChildCompletion now input d = Ok (woke folded t e evs wf, d1) ->
  exists sequence, List.find thisSession (db_sessions d1) = Some (settle now parent sequence parent).
Proof.
  intros this Hf H. unfold wakeParentSessionForChildCompletion in H. fold this in H. rewrite Hf in H.
  destruct (bool_decide _); [done|]. destruct (getSessionEventByClientEventId _ _ _ _); [done|]. destruct (passiveMode parent); [by destruct (insertEvents _ _) as [[]|]|].
  destruct (insertEvents _ _) as [[[|cardRow rows] d0]|] eqn:Ei; [done| |done]. apply insertEvents_spec in Ei as (_ & _ & Hs & _).
  assert (forall sequence, List.find this (update_where this (settle now parent sequence) (db_sessions d)) = Some (settle now parent sequence parent)) as Hset.
  { intros sequence. unfold this. rewrite (find_update _ _ _ _ _ _ parent); [|by intros r; destruct (settle_keeps now parent sequence r) as (? & ? & _)|done].
    apply List.find_some in Hf as [_ Hf]. unfold this in Hf. by rewrite Hf. }
  destruct (digestTurn _ _ d0) as [digest|].
  - unfold foldDigest in H. destruct (updated_rows (turnIs _ _) _ _); [done|]. injection H as _ _ _ _ _ <-. cbn. rewrite Hs. eexists. apply Hset.
  - destruct (insertEvents _ _) as [[qrows d3]|] eqn:Eq; [|done]. apply insertEvents_spec in Eq as (_ & _ & Hs3 & _). injection H as _ _ _ _ _ <-.
    cbn. rewrite Hs3. cbn. rewrite Hs. eexists. apply Hset.
Qed.

(** (C29) A terminal episode wakes the parent exactly once.  Its first delivery is
    recorded in the parent's log and, unless the parent takes its notices
    passively, leaves a queued turn of the parent that tells of this child: a new
    turn, or the digest already queued, which still tells of the children before;
    a parent that was idle or had failed is queued with it.  After that, whatever
    is appended to the logs and whichever other children complete, the same
    episode delivered again changes nothing. *)
Theorem wake_exactly_once now input d parent :
  let ws := wp_workspaceId input in let sid := wp_parentSessionId input in
  log_ok d -> turns_ok d -> List.find (inSession ws sid) (db_sessions d) = Some parent -> s_status parent <> S_cancelled ->
  ~ delivered ws sid (wp_clientEventId input) d ->
  exists r d1, wakeParentSessionForChildCompletion now input d = Ok (r, d1) /\ delivered ws sid (wp_clientEventId input) d1 /\
    (if decide (prop (js "childNotificationsMode") (s_metadata parent) = Some (JStr (js "passive")))
     then db_turns d1 = db_turns d /\ exists events workflow, r = wokePassive events workflow
     else (exists folded turn event events workflow, r = woke folded turn event events workflow) /\
       (exists t, t ∈ db_turns d1 /\ t_workspaceId t = ws /\ t_sessionId t = sid /\ t_status t = T_queued /\
          says (wp_childSummary input) (t_prompt t) /\ says (wp_trailing input) (t_prompt t) /\
          (length (db_turns d1) = S (length (db_turns d)) /\ (forall old, old ∈ db_turns d -> t_id old <> t_id t) \/
           length (db_turns d1) = length (db_turns d) /\ exists old, old ∈ db_turns d /\ t_id old = t_id t /\ t_status old = T_queued /\
             forall s, JStr s ∈ priorSummaries old -> says s (t_prompt t))) /\
       exists parent', List.find (inSession ws sid) (db_sessions d1) = Some parent' /\
         (s_status parent = S_idle \/ s_status parent = S_failed -> s_status parent' = S_queued)) /\
    forall d2 now' input', rtc later_step d1 d2 -> wp_workspaceId input' = ws -> wp_parentSessionId input' = sid ->
      wp_clientEventId input' = wp_clientEventId input ->
      wakeParentSessionForChildCompletion now' input' d2 = Ok (already_delivered, d2) \/
      wakeParentSessionForChildCompletion now' input' d2 = Ok (parent_cancelled, d2).
Proof.
  intros ws sid Hok [Hnd Hfresh] Hf Hnc Hno. destruct (wake_total now input d parent Hok Hf) as (r & d1 & Hw & (Hok1 & _) & Ho). fold ws sid in Ho. exists r, d1. split; [done|].
  assert (r <> parent_cancelled) as Hr by (intros ->; by destruct Ho).
  assert (r <> already_delivered) as Hr'.
  { intros ->. destruct Ho as [_ Hseen]. apply Hno. unfold getSessionEventByClientEventId in Hseen. destruct (List.find _ (db_events d)) as [e|] eqn:E; [|done].
    apply find_some in E as [Hin Hp]. apply andb_true_iff in Hp as [Hp1 Hp2]. exists e. apply list_elem_of_In in Hin. split_and!; [done|done|by apply bool_decide_eq_true in Hp2]. }
  split_and!; [by destruct r; try done; destruct Ho| |intros d2 now' input' Hs E1 E2 E3; by apply (redelivered now input d parent r d1 d2)].
  destruct r as [| |events workflow|folded turn event events workflow]; [done|done| |].
  { destruct Ho as (_ & Hp & Ht). unfold passiveMode in Hp. apply bool_decide_eq_true in Hp. rewrite decide_True by done. eauto. }
  destruct (woke_session now input d parent folded turn event events workflow d1 Hf Hw) as [sequence Hp'].
  destruct Ho as (_ & Hp & Ho). unfold passiveMode in Hp. apply bool_decide_eq_false in Hp. rewrite decide_False by done. split_and!; [eauto 6| |].
  2: { exists (settle now parent sequence parent). split; [done|]. intros Hst. unfold settle. rewrite bool_decide_eq_true_2; [done|]. destruct Hst as [-> | ->]; set_solver. }
  destruct folded.
  - destruct Ho as (digest & Hdig & Ht). apply digestTurn_elem in Hdig as (Hin & Hof & Hst & _). unfold turnOf in Hof. apply andb_true_iff in Hof as [Hofw%bool_decide_eq_true Hofs%bool_decide_eq_true].
    exists (foldTurn now input digest digest). split_and!; [|done|done|done|apply digest_says; unfold foldedSummaries; apply elem_of_app; right; left|apply digest_trailing|].
    + rewrite Ht. apply elem_of_update_where. exists digest. split; [done|]. assert (turnIs (wp_workspaceId input) (t_id digest) digest = true) as -> by (apply turnIs_true; by split). done.
    + right. split; [by rewrite Ht, length_update_where|]. exists digest. split_and!; [done|done|done|]. intros s Hs. apply digest_says. unfold foldedSummaries. apply elem_of_app. by left.
  - destruct Ho as (_ & Ht & Hof & Hst & _ & Hpr & _ & n & Hid & Hn). unfold turnOf in Hof. apply andb_true_iff in Hof as [Hofw%bool_decide_eq_true Hofs%bool_decide_eq_true].
    exists turn. split_and!; [rewrite Ht; apply elem_of_app; right; left|done|done|done|rewrite Hpr; apply digest_says; left|rewrite Hpr; apply digest_trailing|].
    left. split; [rewrite Ht, length_app; cbn; lia|]. intros old Hold E. apply (Hfresh n old); [lia|done|congruence].
Qed.

(** ** Coalescing *)

Definition digests (ws sid : string) (d : Db) : list TurnRow :=
  select_where (fun r => turnOf ws sid r && hasStatus [T_queued] r && isChildNotification r) (db_turns d).

Fixpoint wakeAll (now : Z) (inputs : list WakeParentForChildCompletionInput) (d : Db) : result DbError Db :=
  match inputs with
  | [] => Ok d
  | input :: inputs =>
      match wakeParentSessionForChildCompletion now input d with
      | Ok (_, d) => wakeAll now inputs d
      | Err e => Err e
      end
  end.

(** A session that takes wakes as turns. *)
Definition receptive (ws sid : string) (d : Db) : Prop :=
  log_ok d /\ turns_ok d /\
  exists r, List.find (inSession ws sid) (db_sessions d) = Some r /\ s_status r <> S_cancelled /\ passiveMode r = false.

(** The queued digest [t] stands for [summaries]. *)
Definition stands_for (t : TurnRow) (summaries : list json) (trailing : jstr) : Prop :=
  priorSummaries t = summaries /\ t_prompt t = buildChildCompletionDigest summaries trailing.

Lemma digestTurn_single ws sid d t : digests ws sid d = [t] -> digestTurn ws sid d = Some t.
Proof. unfold digestTurn, digests. by intros ->. Qed.

Lemma digestTurn_nil ws sid d : digests ws sid d = [] -> digestTurn ws sid d = None.
Proof. unfold digestTurn, digests. by intros ->. Qed.

Lemma fold_digests now input d t ws sid :
  turns_ok d -> digests ws sid d = [t] ->
  select_where (fun r => turnOf ws sid r && hasStatus [T_queued] r && isChildNotification r)
    (update_where (turnIs ws (t_id t)) (foldTurn now input t) (db_turns d)) = [foldTurn now input t t].
Proof.
  intros [Hnd _] Hd. assert (Ht : t ∈ digests ws sid d) by (rewrite Hd; left).
  apply elem_of_select_where in Ht as [Hp Ht].
  assert (Hchild : isChildNotification (foldTurn now input t t) = isChildNotification t).
  { unfold isChildNotification, foldTurn. cbn [t_metadata etaTurnRow setWith]. cbn. rewrite assoc_set_field.
    rewrite bool_decide_eq_false_2 by (vm_compute; discriminate). done. }
  assert (Huniq : forall r, r ∈ db_turns d -> turnIs ws (t_id t) r = true -> r = t).
  { intros r Hr Hr'. unfold turnIs in Hr'. breflect. by eapply (select_unique t_id). }
  rewrite select_update_in.
  - unfold digests in Hd. rewrite Hd. cbn. unfold turnOf, turnIs in *. breflect.
    by rewrite H, bool_decide_eq_true_2.
  - intros r Hr. destruct (turnIs ws (t_id t) r) eqn:E; [|done]. rewrite (Huniq r Hr E).
    rewrite Hchild. done.
Qed.

(** One wake of a receptive session: a first digest, or the same one grown. *)
Lemma wake_one now input d :
  let ws := wp_workspaceId input in let sid := wp_parentSessionId input in
  receptive ws sid d -> ~ delivered ws sid (wp_clientEventId input) d ->
  exists r d', wakeParentSessionForChildCompletion now input d = Ok (r, d') /\ receptive ws sid d' /\
    (forall c, delivered ws sid c d' -> c = wp_clientEventId input \/ delivered ws sid c d) /\
    (digests ws sid d = [] -> length (db_turns d') = S (length (db_turns d)) /\
       exists t, digests ws sid d' = [t] /\ stands_for t [JStr (wp_childSummary input)] (wp_trailing input)) /\
    (forall t, digests ws sid d = [t] -> length (db_turns d') = length (db_turns d) /\
       exists t', digests ws sid d' = [t'] /\ t_id t' = t_id t /\
         stands_for t' (priorSummaries t ++ [JStr (wp_childSummary input)]) (wp_trailing input)).
Proof.
  intros ws sid (Hok & Htok & parent & Hf & Hnc & Hnp) Hnd.
  destruct (wake_total now input d parent Hok Hf) as (r & d' & Hw & (Hok' & Hfr & Hk & _ & Hnew) & Ho).
  exists r, d'. split; [done|]. destruct (Hk ws sid parent Hf) as (parent' & Hf' & Hm & Hs).
  assert (Hpas' : passiveMode parent' = false) by (unfold passiveMode in *; by rewrite Hm).
  destruct r as [| |evs wf|folded turn trig evs wf]; cbn in Ho.
  - destruct Ho as [_ Hseen]. destruct Hnd. unfold getSessionEventByClientEventId in Hseen.
    destruct (List.find _ (db_events d)) as [e|] eqn:E; [|done]. apply find_some in E as [Hin Hp].
    apply andb_true_iff in Hp as [Hp1 Hp2]. exists e. apply list_elem_of_In in Hin. by apply bool_decide_eq_true in Hp2.
  - by destruct Ho.
  - destruct Ho as (_ & ? & _). congruence.
  - destruct Ho as (_ & _ & Ho). destruct folded.
    + destruct Ho as (digest & Hdig & Ht). fold ws sid in Hdig, Ht.
      assert (Htok' : turns_ok d').
      { destruct Htok as [Hnd' Hfresh]. split.
        - rewrite Ht, map_update_where; [done|]. by intros.
        - intros n x Hn Hx. rewrite Ht in Hx. apply elem_of_update_where in Hx as (x0 & Hx0 & ->).
          assert (t_id (if turnIs ws (t_id digest) x0 then foldTurn now input digest x0 else x0) = t_id x0) as -> by by case_match.
          apply (Hfresh n); [lia|done]. }
      split; [split_and!; [done|done|by exists parent'; auto]|]. split; [apply Hnew|]. split.
      * intros Hnil. by rewrite (digestTurn_nil _ _ _ Hnil) in Hdig.
      * intros t Hone. rewrite (digestTurn_single _ _ _ _ Hone) in Hdig. injection Hdig as ->.
        split; [by rewrite Ht, length_update_where|]. exists (foldTurn now input digest digest). split_and!; [|done|].
        -- unfold digests at 1. rewrite Ht. by apply fold_digests.
        -- split; [|done]. unfold priorSummaries at 1, foldTurn. cbn [t_metadata etaTurnRow setWith]. cbn.
           by rewrite assoc_set_field, bool_decide_eq_true_2.
    + destruct Ho as (Hdig & Ht & Hof & Hst & Hmeta & Hprompt & _ & n & Hid & Hn). fold ws sid in Hdig, Hof.
      assert (Htok' : turns_ok d').
      { destruct Htok as [Hnd' Hfresh]. split; rewrite Ht.
        - rewrite List.map_app. apply NoDup_app. split_and!; [done| |apply NoDup_singleton].
          intros x (y & -> & Hy)%list_elem_of_fmap Hx%list_elem_of_singleton. rewrite Hid in Hx. by apply (Hfresh n y); [lia|..].
        - intros m x Hm' [Hx|Hx%list_elem_of_singleton]%elem_of_app; [apply (Hfresh m); [lia|done]|].
          subst x. rewrite Hid. intros Heq%uuid_inj. lia. }
      split; [split_and!; [done|done|by exists parent'; auto]|]. split; [apply Hnew|]. split.
      * intros Hnil. split; [rewrite Ht, length_app; cbn; lia|]. exists turn. split.
        -- unfold digests, select_where in *. rewrite Ht, List.filter_app, Hnil. cbn.
           unfold hasStatus, isChildNotification. by rewrite Hof, Hst, Hmeta.
        -- split; [|done]. unfold priorSummaries. by rewrite Hmeta.
      * intros t Hone. by rewrite (digestTurn_single _ _ _ _ Hone) in Hdig.
Qed.

Lemma wakes_grow now ws sid trailing inputs : forall d t summaries,
  receptive ws sid d -> digests ws sid d = [t] -> stands_for t summaries trailing ->
  Forall (fun i => wp_workspaceId i = ws /\ wp_parentSessionId i = sid /\ wp_trailing i = trailing) inputs ->
  NoDup (List.map wp_clientEventId inputs) -> Forall (fun i => ~ delivered ws sid (wp_clientEventId i) d) inputs ->
  exists d' t', wakeAll now inputs d = Ok d' /\ digests ws sid d' = [t'] /\ t_id t' = t_id t /\
    length (db_turns d') = length (db_turns d) /\
    stands_for t' (summaries ++ List.map (fun i => JStr (wp_childSummary i)) inputs) trailing.
Proof.
  induction inputs as [|i inputs IH]; intros d t summaries Hr Hd Hs Hall Hnd Hno.
  - exists d, t. cbn. by rewrite app_nil_r.
  - cbn [List.map] in Hnd. apply NoDup_cons in Hnd as [Hi Hnd]. inversion Hall as [|? ? (Hw & Hsid & Htr) Hall']; subst.
    inversion Hno as [|? ? Hn Hno']; subst.
    destruct (wake_one now i d Hr Hn) as (r & d1 & Hwake & Hr1 & Hnew & _ & Hgrow).
    destruct (Hgrow t Hd) as (Hlen & t1 & Hd1 & Hid & Hs1). destruct Hs as [Hps _]. rewrite Hps in Hs1.
    destruct (IH d1 t1 (summaries ++ [JStr (wp_childSummary i)])) as (d' & t' & Hall2 & Hd' & Hid' & Hlen' & Hs'); [done..| | |].
    + done.
    + rewrite Forall_forall in *. intros j Hj Hdel. apply Hnew in Hdel as [Heq|Hdel]; [|by eapply Hno'].
      apply Hi. rewrite <- Heq. apply list_elem_of_fmap. by exists j.
    + exists d', t'. cbn [wakeAll]. rewrite Hwake. split_and!; [done|done|congruence|congruence|].
      cbn [List.map]. by rewrite <- app_assoc in Hs'.
Qed.

(** Completions coalesce: however many children of a manager reach a
    terminal state before its next claim, they cost it one queued turn, whose
    prompt is the digest of all of them in order. *)
Theorem wakes_coalesce now ws sid trailing input inputs d :
  receptive ws sid d -> digests ws sid d = [] ->
  Forall (fun i => wp_workspaceId i = ws /\ wp_parentSessionId i = sid /\ wp_trailing i = trailing) (input :: inputs) ->
  NoDup (List.map wp_clientEventId (input :: inputs)) ->
  Forall (fun i => ~ delivered ws sid (wp_clientEventId i) d) (input :: inputs) ->
  exists d' t, wakeAll now (input :: inputs) d = Ok d' /\ digests ws sid d' = [t] /\
    length (db_turns d') = S (length (db_turns d)) /\
    t_prompt t = buildChildCompletionDigest (List.map (fun i => JStr (wp_childSummary i)) (input :: inputs)) trailing.
Proof.
  intros Hr Hd Hall Hnd Hno. cbn [List.map] in Hnd. apply NoDup_cons in Hnd as [Hi Hnd].
  inversion Hall as [|? ? (Hw & Hsid & Htr) Hall']; subst. inversion Hno as [|? ? Hn Hno']; subst.
  destruct (wake_one now input d Hr Hn) as (r & d1 & Hwake & Hr1 & Hnew & Hfirst & _).
  destruct (Hfirst Hd) as (Hlen & t1 & Hd1 & Hs1).
  destruct (wakes_grow now _ _ (wp_trailing input) inputs d1 t1 _ Hr1 Hd1 Hs1) as (d' & t' & Hall2 & Hd' & _ & Hlen' & _ & Hp); [done..| |].
  - rewrite Forall_forall in *. intros j Hj Hdel. apply Hnew in Hdel as [Heq|Hdel]; [|by eapply Hno'].
    apply Hi. rewrite <- Heq. apply list_elem_of_fmap. by exists j.
  - exists d', t'. cbn [wakeAll]. rewrite Hwake. split_and!; [done|done|congruence|done].
Qed.

(** ** Two children of the example session *)

Definition exampleWake (child : string) : WakeParentForChildCompletionInput := {|
  wp_workspaceId := "w"; wp_parentSessionId := "s1"; wp_clientEventId := String.append "child-completion:" child;
  wp_childSummary := js child; wp_trailing := js "Read each worker's result."; wp_childCompletion := JObj [];
  wp_reasoningEffortFallback := "low" |}.

Definition wakeDb (now : Z) (input : WakeParentForChildCompletionInput) (d : Db) : WakeResult * Db :=
  match wakeParentSessionForChildCompletion now input d with Ok r => r | Err _ => (parent_cancelled, d) end.
Definition woken : WakeResult * Db := Eval vm_compute in wakeDb 7 (exampleWake "c1") exampleDb.
Definition wokenTwice : WakeResult * Db := Eval vm_compute in wakeDb 8 (exampleWake "c2") woken.2.

Lemma exampleDb_receptive : receptive "w" "s1" exampleDb.
Proof.
  split_and!; [exact exampleDb_ok|by apply turns_ok_check; vm_compute|].
  exists (exampleSession "s1"). by split_and!.
Qed.

Lemma exampleDb_undelivered c : ~ delivered "w" "s1" c exampleDb.
Proof. intros (e & He & _). by apply elem_of_nil in He. Qed.

Lemma wake_exactly_once_witness :
  (exists t, t ∈ db_turns woken.2 /\ t_status t = T_queued /\ says (js "c1") (t_prompt t)) /\
  wakeParentSessionForChildCompletion 9 (exampleWake "c1") wokenTwice.2 = Ok (already_delivered, wokenTwice.2).
Proof.
  destruct exampleDb_receptive as (Hok & Ht & _).
  destruct (wake_exactly_once 7 (exampleWake "c1") exampleDb (exampleSession "s1") Hok Ht ltac:(reflexivity) ltac:(discriminate) (exampleDb_undelivered _))
    as (r & d1 & Hw & _ & H & Hagain).
  assert (d1 = woken.2) as -> by (vm_compute in Hw; injection Hw as _ <-; vm_compute; reflexivity).
  rewrite decide_False in H by (vm_compute; discriminate). destruct H as (_ & (t & Hin & _ & _ & Hst & Hsays & _) & _). split; [exists t; split; [exact Hin|split; [exact Hst|exact Hsays]]|].
  destruct (Hagain wokenTwice.2 9 (exampleWake "c1")) as [H|H]; [|reflexivity..|exact H|].
  - apply rtc_once. apply (later_wake _ _ 8 (exampleWake "c2") wokenTwice.1). vm_compute; reflexivity.
  - vm_compute in H. discriminate H.
Defined.

Lemma wakes_coalesce_witness :
  exists d' t, wakeAll 7 [exampleWake "c1"; exampleWake "c2"] exampleDb = Ok d' /\ db_turns d' = [t] /\
    t_prompt t = buildChildCompletionDigest [JStr (js "c1"); JStr (js "c2")] (js "Read each worker's result.").
Proof.
  destruct (wakes_coalesce 7 "w" "s1" (js "Read each worker's result.") (exampleWake "c1") [exampleWake "c2"] exampleDb)
    as (d' & t & H & Hd & Hl & Hp).
  - exact exampleDb_receptive.
  - reflexivity.
  - by repeat constructor.
  - apply (bool_decide_unpack _). vm_compute. reflexivity.
  - apply Forall_forall. intros i _. apply exampleDb_undelivered.
  - exists d', t. split; [exact H|]. split; [|exact Hp].
    vm_compute in H. injection H as <-. vm_compute in Hd. vm_compute. exact Hd.
Defined.

(** The fold asks only for the status [queued]: a digest turn that was claimed,
    preempted and put back under a resume notice is folded too, and the notice's
    text is replaced by the digest. *)
Definition requeuedDigest : Db :=
  let d := (claimNextQueuedTurn 8 "w" "s1" "wf" woken.2).2 in
  let turnId := match db_turns d with t :: _ => t_id t | [] => EmptyString end in
  match appendSessionEvents 9 "w" "s1" [plainEvent "turn.preempted" (Some turnId) (JObj [(js "text", JStr (js "resume"))])] d with
  | Ok (e :: _, d) => match requeuePreemptedTurn 9 "w" turnId (ev_id e) defaultFromStatuses d with Ok d => d | Err _ => d end
  | _ => d
  end.

Example fold_replaces_notice :
  match (wakeDb 10 (exampleWake "c2") requeuedDigest).1 with
  | woke true _ trigger _ _ => ev_type trigger = "turn.preempted" /\
      prop (js "text") (ev_payload trigger) =
        Some (JStr (buildChildCompletionDigest [JStr (js "c1"); JStr (js "c2")] (js "Read each worker's result.")))
  | _ => False
  end.
Proof. vm_compute. split; reflexivity. Qed.
End ParentWake.
