(* ===== verification/Activity.v ===== *)
(** * Activities

    A worker activity is a program over database transactions: every
    [await someDbCall(db, ...)] is one transaction, other actors may commit
    between two of them, a transaction may fail, and the activity may catch the
    error.  [exec] runs an activity alone; [runs] is the relation with
    interference. *)
From S2P Require Import Prelude Schema.
#[local] Open Scope Z_scope.
#[local] Open Scope opengeni_scope.

Module Activity.

(** ** Programs

    [Tx op next]: the transaction [op] on a database [D], given the clock; [next]
    sees its value or the error it threw.  [O] is what leaves the process. *)
Inductive Program (D E O A : Type) : Type :=
| Ret (a : A)
| Throw (e : E)
| Tx {R : Type} (op : Z -> D -> result E (R * D)) (next : result E R -> Program D E O A)
| Emit (o : O) (next : Program D E O A).
Arguments Ret {D E O A} a.
Arguments Throw {D E O A} e.
Arguments Tx {D E O A R} op next.
Arguments Emit {D E O A} o next.

(** The error of a lost database connection. *)
Class Fallible (E : Type) := unavailable : E.

Section programs.
Context {D E O : Type}.
#[local] Abbreviation Act := (Program D E O).

Fixpoint bind {A B} (m : Act A) (k : A -> Act B) : Act B :=
  match m with
  | Ret a => k a
  | Throw e => Throw e
  | Tx op next => Tx op (fun r => bind (next r) k)
  | Emit o next => Emit o (bind next k)
  end.

(** [try { m } catch (e) { h(e) }] *)
Fixpoint catch {A} (m : Act A) (h : E -> Act A) : Act A :=
  match m with
  | Ret a => Ret a
  | Throw e => h e
  | Tx op next => Tx op (fun r => catch (next r) h)
  | Emit o next => Emit o (catch next h)
  end.

(** A call whose error is not caught on the spot, a call that cannot refuse, and a read. *)
Definition tx {R} (op : Z -> D -> result E (R * D)) : Act R :=
  Tx op (fun r => match r with Ok a => Ret a | Err e => Throw e end).
Definition write (op : Z -> D -> D) : Act unit := tx (fun now d => Ok (tt, op now d)).
Definition read {R} (q : D -> R) : Act R := tx (fun _ d => Ok (q d, d)).
Definition emit (o : O) : Act unit := Emit o (Ret tt).

End programs.

Notation "'let*' x ':=' m 'in' k" := (bind m (fun x => k))
  (at level 200, x pattern, m at level 100, k at level 200, right associativity) : opengeni_scope.
Notation "m ';;' k" := (bind m (fun _ => k)) (at level 100, right associativity) : opengeni_scope.

Section runs.
Context {D E O : Type} {HE : Fallible E}.
#[local] Abbreviation Act := (Program D E O).

(** ** Running alone *)

Fixpoint exec {A} (now : Z) (m : Act A) (d : D) : result E A * list O * D :=
  match m with
  | Ret a => (Ok a, [], d)
  | Throw e => (Err e, [], d)
  | Tx op next =>
      match op now d with
      | Ok (r, d) => exec now (next (Ok r)) d
      | Err e => exec now (next (Err e)) d
      end
  | Emit o next => let '(r, out, d) := exec now next d in (r, o :: out, d)
  end.

Lemma exec_bind {A B} now (m : Act A) (k : A -> Act B) : forall d,
  exec now (bind m k) d =
  match exec now m d with
  | (Ok a, out, d1) => let '(r, out2, d2) := exec now (k a) d1 in (r, out ++ out2, d2)
  | (Err e, out, d1) => (Err e, out, d1)
  end.
Proof.
  induction m as [a|e|R op next IH|o next IH]; intros d; cbn [bind exec].
  - by destruct (exec now (k a) d) as [[r out] d2].
  - done.
  - destruct (op now d) as [[r d']|e]; apply IH.
  - rewrite IH. destruct (exec now next d) as [[[a|e] out] d1]; [|done]. by destruct (exec now (k a) d1) as [[r out2] d2].
Qed.

(** The steps of an activity that runs alone. *)
Lemma exec_read {R B} now (q : D -> R) (k : R -> Act B) d : exec now (bind (read q) k) d = exec now (k (q d)) d.
Proof. done. Qed.
Lemma exec_write {B} now op (k : unit -> Act B) d : exec now (bind (write op) k) d = exec now (k tt) (op now d).
Proof. done. Qed.
Lemma exec_tx {R B} now op (k : R -> Act B) d r d' : op now d = Ok (r, d') -> exec now (bind (tx op) k) d = exec now (k r) d'.
Proof. intros H. cbn. by rewrite H. Qed.

(** ** Running among others *)

(** One transaction: it commits, it refuses, or the database fails. *)
Inductive commits {R} (op : Z -> D -> result E (R * D)) (now : Z) (d : D) : result E R -> D -> Prop :=
| commits_ok r d' : op now d = Ok (r, d') -> commits op now d (Ok r) d'
| commits_err e : op now d = Err e -> commits op now d (Err e) d
| commits_fail : commits op now d (Err unavailable) d.

Section interference.
Context (env : D -> D -> Prop).

Fixpoint runs {A} (m : Act A) (d : D) (a : result E A) (out : list O) (d' : D) : Prop :=
  match m with
  | Ret x => a = Ok x /\ out = [] /\ d' = d
  | Throw e => a = Err e /\ out = [] /\ d' = d
  | Tx op next => exists now d1 r d2, rtc env d d1 /\ commits op now d1 r d2 /\ runs (next r) d2 a out d'
  | Emit o next => exists out', out = o :: out' /\ runs next d a out' d'
  end.

Lemma exec_runs {A} now (m : Act A) : forall d, runs m d (exec now m d).1.1 (exec now m d).1.2 (exec now m d).2.
Proof.
  induction m as [a|e|R op next IH|o next IH]; intros d; cbn [exec runs]; [done|done| |].
  - destruct (op now d) as [[r d']|e] eqn:Eop.
    + exists now, d, (Ok r), d'. split_and!; [constructor|by apply commits_ok|apply IH].
    + exists now, d, (Err e), d. split_and!; [constructor|by apply commits_err|apply IH].
  - specialize (IH d). destruct (exec now next d) as [[r out] d']. by exists out.
Qed.

Lemma runs_alone {A} now (m : Act A) d a out d' : exec now m d = (a, out, d') -> runs m d a out d'.
Proof. intros He. pose proof (exec_runs now m d) as H. by rewrite He in H. Qed.

(** The runs of a composition. *)
Lemma runs_bind {A B} (m : Act A) (k : A -> Act B) : forall d r out d',
  runs (bind m k) d r out d' ->
  (exists e, r = Err e /\ runs m d (Err e) out d') \/
  exists a out1 d1 out2, runs m d (Ok a) out1 d1 /\ runs (k a) d1 r out2 d' /\ out = out1 ++ out2.
Proof.
  induction m as [a|e|R op next IH|o next IH]; intros d r out d' H; cbn [bind runs] in *.
  - right. by exists a, [], d, out.
  - left. destruct H as (-> & -> & ->). by exists e.
  - destruct H as (now & d1 & x & d2 & He & Hc & Hr). destruct (IH x _ _ _ _ Hr) as [(e & -> & Hm)|(a & o1 & d1' & o2 & H1 & H2 & ->)].
    + left. exists e. split; [done|]. by exists now, d1, x, d2.
    + right. exists a, o1, d1', o2. split_and!; [by exists now, d1, x, d2|done..].
  - destruct H as (out' & -> & Hr). destruct (IH _ _ _ _ Hr) as [(e & -> & Hm)|(a & o1 & d1' & o2 & H1 & H2 & ->)].
    + left. exists e. split; [done|]. by exists out'.
    + right. exists a, (o :: o1), d1', o2. split_and!; [by exists o1|done..].
Qed.

(** A run, with the states its transactions found. *)
Fixpoint sees {A} (m : Act A) (d : D) (a : result E A) (out : list O) (d' : D) (found : list D) : Prop :=
  match m with
  | Ret x => a = Ok x /\ out = [] /\ d' = d /\ found = []
  | Throw e => a = Err e /\ out = [] /\ d' = d /\ found = []
  | Tx op next => exists now d1 r d2 found', rtc env d d1 /\ commits op now d1 r d2 /\ found = d1 :: found' /\ sees (next r) d2 a out d' found'
  | Emit o next => exists out', out = o :: out' /\ sees next d a out' d' found
  end.
Lemma sees_runs {A} (m : Act A) : forall d a out d' found, sees m d a out d' found -> runs m d a out d'.
Proof.
  induction m as [x|e|R op next IH|o next IH]; intros d a out d' found H; cbn [sees runs] in *; [by destruct H as (-> & -> & -> & _)..| |].
  - destruct H as (now & d1 & r & d2 & found' & He & Hc & _ & H). exists now, d1, r, d2. split_and!; [done..|by eapply IH].
  - destruct H as (out' & -> & H). exists out'. split; [done|by eapply IH].
Qed.
Lemma runs_sees {A} (m : Act A) : forall d a out d', runs m d a out d' -> exists found, sees m d a out d' found.
Proof.
  induction m as [x|e|R op next IH|o next IH]; intros d a out d' H; cbn [sees runs] in *; [destruct H as (-> & -> & ->); by exists []..| |].
  - destruct H as (now & d1 & r & d2 & He & Hc & H). destruct (IH _ _ _ _ _ H) as [found Hf]. exists (d1 :: found), now, d1, r, d2, found. by split_and!.
  - destruct H as (out' & -> & H). destruct (IH _ _ _ _ H) as [found Hf]. by exists found, out'.
Qed.
Lemma sees_bind {A B} (m : Act A) (k : A -> Act B) : forall d r out d' found, sees (bind m k) d r out d' found ->
  (exists e, r = Err e /\ sees m d (Err e) out d' found) \/
  exists a out1 d1 out2 f1 f2, sees m d (Ok a) out1 d1 f1 /\ sees (k a) d1 r out2 d' f2 /\ out = out1 ++ out2 /\ found = f1 ++ f2.
Proof.
  induction m as [a|e|R op next IH|o next IH]; intros d r out d' found H; cbn [bind sees] in *.
  - right. by exists a, [], d, out, [], found.
  - left. destruct H as (-> & -> & -> & ->). by exists e.
  - destruct H as (now & d1 & x & d2 & fs & He & Hc & -> & Hr). destruct (IH x _ _ _ _ _ Hr) as [(e & -> & Hm)|(a & o1 & d1' & o2 & f1 & f2 & H1 & H2 & -> & ->)].
    + left. exists e. split; [done|]. by exists now, d1, x, d2, fs.
    + right. exists a, o1, d1', o2, (d1 :: f1), f2. split_and!; [by exists now, d1, x, d2, f1|done..].
  - destruct H as (out' & -> & Hr). destruct (IH _ _ _ _ _ Hr) as [(e & -> & Hm)|(a & o1 & d1' & o2 & f1 & f2 & H1 & H2 & -> & ->)].
    + left. exists e. split; [done|]. by exists out'.
    + right. exists a, (o :: o1), d1', o2, f1, f2. split_and!; [by exists o1|done..].
Qed.

(** A relation closed under the environment and under every transaction of an
    activity holds across its runs. *)
Fixpoint txs_in {A} (ok : forall R, (Z -> D -> result E (R * D)) -> Prop) (m : Act A) : Prop :=
  match m with
  | Ret _ | Throw _ => True
  | Tx op next => ok _ op /\ forall r, txs_in ok (next r)
  | Emit _ next => txs_in ok next
  end.

Definition respects (P : D -> D -> Prop) (R : Type) (op : Z -> D -> result E (R * D)) : Prop :=
  forall now d r d', op now d = Ok (r, d') -> P d d'.

Lemma runs_respect (P : D -> D -> Prop) `{!PreOrder P} {A} (m : Act A) d r out d' :
  (forall d d', env d d' -> P d d') -> txs_in (respects P) m -> runs m d r out d' -> P d d'.
Proof.
  intros Henv. revert d out. induction m as [a|e|R op next IH|o next IH]; intros d out Hm H; cbn [runs txs_in] in *.
  - by destruct H as (_ & _ & ->).
  - by destruct H as (_ & _ & ->).
  - destruct Hm as [Hop Hn]. destruct H as (now & d1 & x & d2 & He & Hc & Hr). transitivity d1.
    { clear -He Henv PreOrder0. induction He as [|x y z Hxy _ IH]; [done|]. etransitivity; [by apply Henv|exact IH]. }
    transitivity d2; [|by eapply IH]. destruct Hc; [by eapply Hop|done..].
  - destruct H as (out' & _ & Hr). by eapply IH.
Qed.

(** What a program sends. *)
Fixpoint emits_in {A} (P : O -> Prop) (m : Act A) : Prop :=
  match m with
  | Ret _ | Throw _ => True
  | Tx _ next => forall r, emits_in P (next r)
  | Emit o next => P o /\ emits_in P next
  end.
Lemma runs_emits {A} (P : O -> Prop) (m : Act A) : forall d r out d', emits_in P m -> runs m d r out d' -> Forall P out.
Proof.
  induction m as [a|e|R op next IH|o next IH]; intros d r out d' HP H; cbn [runs emits_in] in *.
  - destruct H as (_ & -> & _). constructor.
  - destruct H as (_ & -> & _). constructor.
  - destruct H as (now & d1 & x & d2 & _ & _ & H). by eapply IH.
  - destruct H as (out' & -> & H). destruct HP. constructor; [done|by eapply IH].
Qed.
Lemma emits_in_bind {A B} (P : O -> Prop) (m : Act A) (k : A -> Act B) : emits_in P m -> (forall a, emits_in P (k a)) -> emits_in P (bind m k).
Proof. intros Hm Hk. induction m as [a|e|R op next IH|o next IH]; cbn in *; [auto|done|auto|]. destruct Hm. auto. Qed.

(** What every answer of an activity satisfies. *)
Fixpoint answers_in {A} (Q : A -> Prop) (m : Act A) : Prop :=
  match m with
  | Ret a => Q a
  | Throw _ => True
  | Tx _ next => forall r, answers_in Q (next r)
  | Emit _ next => answers_in Q next
  end.

Lemma runs_answer {A} (Q : A -> Prop) (m : Act A) a : forall d out d', answers_in Q m -> runs m d (Ok a) out d' -> Q a.
Proof.
  induction m as [x|e|R op next IH|o next IH]; intros d out d' HQ H; cbn [runs answers_in] in *.
  - destruct H as ([= ->] & _). done.
  - by destruct H.
  - destruct H as (now & d1 & r & d2 & _ & _ & H). by eapply IH.
  - destruct H as (out' & _ & H). by eapply IH.
Qed.

Lemma answers_in_bind {A B} (Q : B -> Prop) (m : Act A) (k : A -> Act B) :
  (forall a, answers_in Q (k a)) -> answers_in Q (bind m k).
Proof. intros Hk. induction m as [a|e|R op next IH|o next IH]; cbn; auto. Qed.

Lemma txs_in_bind {A B} ok (m : Act A) (k : A -> Act B) : txs_in ok m -> (forall a, txs_in ok (k a)) -> txs_in ok (bind m k).
Proof. intros H Hk. induction m as [a|e|R op next IH|o next IH]; cbn in *; [done|done| |by apply IH]. destruct H. split; [done|auto]. Qed.

Lemma txs_in_catch {A} ok (m : Act A) h : txs_in ok m -> (forall e, txs_in ok (h e)) -> txs_in ok (catch m h).
Proof. intros H Hk. induction m as [a|e|R op next IH|o next IH]; cbn in *; [done|done| |by apply IH]. destruct H. split; [done|auto]. Qed.
End interference.
End runs.

(** ** Parts of a database

    A program on a part of a larger database. *)
Section embed.
Context {D D' E O : Type} (get : D' -> D) (put : D -> D' -> D').

Fixpoint embed {A} (m : Program D E O A) : Program D' E O A :=
  match m with
  | Ret a => Ret a
  | Throw e => Throw e
  | Tx op next => Tx (fun now d => match op now (get d) with Ok (r, x) => Ok (r, put x d) | Err e => Err e end) (fun r => embed (next r))
  | Emit o next => Emit o (embed next)
  end.

(** The laws of a part. *)
Class IsPart : Prop := {
  get_put x d : get (put x d) = x;
  put_get d : put (get d) d = d;
  put_put x y d : put x (put y d) = put x d
}.

Lemma exec_embed `{IsPart} {A} now (m : Program D E O A) : forall d,
  exec now (embed m) d = let '(r, out, x) := exec now m (get d) in (r, out, put x d).
Proof.
  induction m as [a|e|R op next IH|o next IH]; intros d; cbn [embed exec]; [by rewrite put_get..| |].
  - destruct (op now (get d)) as [[r x]|e]; rewrite IH; [rewrite get_put|done]. destruct (exec now (next (Ok r)) x) as [[r' out] y]. by rewrite put_put.
  - rewrite IH. by destruct (exec now next (get d)) as [[r out] x].
Qed.
End embed.

(** ** Pools

    Any number of programs that interleave their transactions; new ones start,
    any may stop at any point. *)
Section pool.
Context {D E O : Type} {HE : Fallible E}.

Inductive pool_step {A} (spawns : Program D E O A -> Prop) (d : D) (tasks : list (Program D E O A)) : D -> list (Program D E O A) -> Prop :=
| pool_spawn m : spawns m -> pool_step spawns d tasks d (m :: tasks)
| pool_tx {R} now (op : Z -> D -> result E (R * D)) next r d' before after :
    tasks = before ++ Tx op next :: after -> commits op now d r d' -> pool_step spawns d tasks d' (before ++ next r :: after)
| pool_emit o next before after : tasks = before ++ Emit o next :: after -> pool_step spawns d tasks d (before ++ next :: after)
| pool_stop m before after : tasks = before ++ m :: after -> pool_step spawns d tasks d (before ++ after).

Definition pool {A} (spawns : Program D E O A -> Prop) (s s' : D * list (Program D E O A)) : Prop := pool_step spawns s.1 s.2 s'.1 s'.2.

(** A program that starts, runs alone and ends. *)
Lemma pool_alone {A} (spawns : Program D E O A -> Prop) now m : spawns m -> forall d ts,
  rtc (pool spawns) (d, ts) ((exec now m d).2, ts).
Proof.
  intros Hm d ts. apply (rtc_l _ _ (d, m :: ts)); [by apply pool_spawn|]. clear Hm. revert d.
  induction m as [a|e|R op next IH|o next IH]; intros d; cbn [exec].
  - apply rtc_once. by apply (pool_stop spawns d (Ret a :: ts) (Ret a) []).
  - apply rtc_once. by apply (pool_stop spawns d (Throw e :: ts) (Throw e) []).
  - destruct (op now d) as [[r d']|e] eqn:Eop.
    + apply (rtc_l _ _ (d', next (Ok r) :: ts)); [|apply IH]. apply (pool_tx spawns d (Tx op next :: ts) now op next (Ok r) d' [] ts); [done|by apply commits_ok].
    + apply (rtc_l _ _ (d, next (Err e) :: ts)); [|apply IH]. apply (pool_tx spawns d (Tx op next :: ts) now op next (Err e) d [] ts); [done|by apply commits_err].
  - apply (rtc_l _ _ (d, next :: ts)); [by apply (pool_emit spawns d (Emit o next :: ts) o next [] ts)|].
    specialize (IH d). by destruct (exec now next d) as [[r out] d'].
Qed.

(** [wp m Q d]: started or resumed in any later database, every transaction of
    [m] keeps the invariant [I] and the order [le], and an answer satisfies [Q]. *)
Context (I : D -> Prop) (le : D -> D -> Prop) `{!PreOrder le}.
Fixpoint wp {A} (m : Program D E O A) (Q : A -> D -> Prop) (d : D) : Prop :=
  match m with
  | Ret a => Q a d
  | Throw _ => True
  | Tx op next => forall d1 now r d2, le d d1 -> I d1 -> commits op now d1 r d2 -> I d2 /\ le d1 d2 /\ wp (next r) Q d2
  | Emit _ next => wp next Q d
  end.
Definition safe {A} (m : Program D E O A) : D -> Prop := wp m (fun _ _ => True).

Lemma wp_later {A} (m : Program D E O A) (Q : A -> D -> Prop) : (forall a d d', le d d' -> Q a d -> Q a d') ->
  forall d d', le d d' -> wp m Q d -> wp m Q d'.
Proof.
  intros HQ. induction m as [a|e|R op next IH|o next IH]; intros d d' Hle H; cbn in *; [by eapply HQ|done| |by apply (IH d)].
  intros d1 now r d2 H1. apply H. by transitivity d'.
Qed.

Lemma wp_weaken {A} (m : Program D E O A) (Q Q' : A -> D -> Prop) : (forall a d, Q a d -> Q' a d) -> forall d, wp m Q d -> wp m Q' d.
Proof.
  intros HQ. induction m as [a|e|R op next IH|o next IH]; intros d H; cbn in *; [by apply HQ|done| |by apply IH].
  intros d1 now r d2 H1 H2 H3. destruct (H d1 now r d2 H1 H2 H3) as (? & ? & ?). split_and!; [done..|by apply IH].
Qed.

Lemma wp_bind {A B} (m : Program D E O A) (k : A -> Program D E O B) Q : forall d, wp m (fun a => wp (k a) Q) d -> wp (bind m k) Q d.
Proof.
  induction m as [a|e|R op next IH|o next IH]; intros d H; cbn in *; [done|done| |by apply IH].
  intros d1 now r d2 H1 H2 H3. destruct (H d1 now r d2 H1 H2 H3) as (? & ? & ?). split_and!; [done..|by apply IH].
Qed.

Lemma safe_bind {A B} (m : Program D E O A) (k : A -> Program D E O B) d : safe m d -> (forall a d', safe (k a) d') -> safe (bind m k) d.
Proof. intros Hm Hk. apply wp_bind. apply (wp_weaken _ (fun _ _ => True)); [intros a d' _; apply Hk|exact Hm]. Qed.
Lemma wp_then {A B} (m : Program D E O A) (k : A -> Program D E O B) Q Q' d : wp m Q d -> (forall a d', Q a d' -> wp (k a) Q' d') -> wp (bind m k) Q' d.
Proof. intros Hm Hk. apply wp_bind. apply (wp_weaken _ Q); [exact Hk|exact Hm]. Qed.
Lemma safe_catch {A} (m : Program D E O A) h : (forall e d, safe (h e) d) -> forall d, safe m d -> safe (catch m h) d.
Proof.
  intros Hh. induction m as [a|e|R op next IH|o next IH]; intros d H; cbn in *; [done|apply Hh| |by apply IH].
  intros d1 now r d2 H1 H2 H3. destruct (H d1 now r d2 H1 H2 H3) as (? & ? & ?). split_and!; [done..|by apply IH].
Qed.

(** A transaction that keeps the invariant whenever it commits. *)
Lemma wp_tx {R} (op : Z -> D -> result E (R * D)) (Q : R -> D -> Prop) d :
  (forall d1 now r d2, le d d1 -> I d1 -> op now d1 = Ok (r, d2) -> I d2 /\ le d1 d2 /\ Q r d2) -> wp (tx op) Q d.
Proof.
  intros Hop d1 now r d2 Hle Hi Hc. destruct Hc as [r d2 Hop'|e He|]; [by apply (Hop d1 now r d2)|by split_and!|by split_and!].
Qed.

Lemma wp_read {R} (q : D -> R) (Q : R -> D -> Prop) d : (forall d1, le d d1 -> I d1 -> Q (q d1) d1) -> wp (read q) Q d.
Proof. intros H. apply wp_tx. intros d1 now r d2 Hle Hi [= <- <-]. split_and!; [done|reflexivity|by apply H]. Qed.
Lemma safe_read {R} (q : D -> R) d : safe (read q) d.
Proof. by apply wp_read. Qed.

(** A run among interference that keeps the invariant. *)
Lemma wp_runs {A} (env : D -> D -> Prop) (m : Program D E O A) Q a : (forall d d', env d d' -> I d -> I d' /\ le d d') ->
  forall d out d', I d -> wp m Q d -> runs env m d (Ok a) out d' -> I d' /\ le d d' /\ Q a d'.
Proof.
  intros Henv. assert (forall d d', rtc env d d' -> I d -> I d' /\ le d d') as Hrtc.
  { induction 1 as [d|d1 d2 d3 H12 _ IH]; intros Hi; [by split|]. destruct (Henv _ _ H12 Hi) as [Hi2 H1]. destruct (IH Hi2). split; [done|by etransitivity]. }
  induction m as [x|e|R op next IH|o next IH]; intros d out d' Hi Hm H; cbn in *.
  - destruct H as ([= ->] & _ & ->). by split_and!.
  - by destruct H.
  - destruct H as (now & d1 & r & d2 & He & Hc & Hr). destruct (Hrtc _ _ He Hi) as [Hi1 Hl1]. destruct (Hm _ _ _ _ Hl1 Hi1 Hc) as (Hi2 & Hl2 & Hm2).
    destruct (IH r _ _ _ Hi2 Hm2 Hr) as (? & ? & ?). split_and!; [done|by transitivity d1; [|transitivity d2]|done].
  - destruct H as (out' & _ & Hr). by eapply IH.
Qed.

(** A program on a part the invariant does not look at. *)
Lemma safe_embed {D0 A} (get : D -> D0) (put : D0 -> D -> D) (m : Program D0 E O A) :
  (forall x d, I d -> I (put x d) /\ le d (put x d)) -> forall d, safe (embed get put m) d.
Proof.
  intros Hput. induction m as [a|e|R op next IH|o next IH]; intros d; cbn; [done|done| |by apply IH].
  intros d1 now r d2 Hle Hi Hc. destruct Hc as [r d2 Hop|e He|]; [|split_and!; [done|reflexivity|apply IH]..].
  destruct (op now (get d1)) as [[r' x]|e]; [|done]. injection Hop as <- <-. destruct (Hput x d1 Hi). split_and!; [done..|apply IH].
Qed.

Lemma pool_step_safe {A} (spawns : Program D E O A -> Prop) d ts d' ts' : (forall m d, spawns m -> safe m d) -> pool_step spawns d ts d' ts' ->
  I d -> Forall (fun m => safe m d) ts -> I d' /\ le d d' /\ Forall (fun m => safe m d') ts'.
Proof.
  intros Hsp [m Hm|R now op next r d2 before after -> Hc|o next before after ->|m before after ->] Hi Hts.
  - split; [done|split; [reflexivity|]]. constructor; [by apply Hsp|done].
  - apply Forall_app in Hts as [Hb [Ht Ha]%Forall_cons]. destruct (Ht d now r d2) as (Hi2 & Hle & Hn); [reflexivity|done|done|].
    split; [done|split; [done|]]. apply Forall_app. split; [|constructor; [done|]]; (eapply Forall_impl; [eassumption|]); intros m Hm; by eapply wp_later.
  - apply Forall_app in Hts as [Hb [Ht Ha]%Forall_cons]. split; [done|split; [reflexivity|]]. apply Forall_app. split; [done|]. by constructor.
  - apply Forall_app in Hts as [Hb [_ Ha]%Forall_cons]. split; [done|split; [reflexivity|]]. apply Forall_app. by split.
Qed.

(** Every state of a pool of safe programs satisfies the invariant and is later
    than the states before it. *)
Lemma pool_evolves {A} (spawns : Program D E O A -> Prop) s s' : (forall m d, spawns m -> safe m d) -> rtc (pool spawns) s s' ->
  I s.1 -> Forall (fun m => safe m s.1) s.2 -> I s'.1 /\ le s.1 s'.1 /\ Forall (fun m => safe m s'.1) s'.2.
Proof.
  intros Hsp. induction 1 as [s|s1 s2 s3 H _ IH]; [intros Hi Hts; split; [done|by split]|]. intros Hi Hts. destruct (pool_step_safe _ _ _ _ _ Hsp H Hi Hts) as (H1 & H2 & H3).
  destruct (IH H1 H3) as (H4 & H5 & H6). split; [done|split; [by etransitivity|done]].
Qed.

Lemma pool_invariant {A} (spawns : Program D E O A -> Prop) s s' : (forall m d, spawns m -> safe m d) -> rtc (pool spawns) s s' ->
  I s.1 -> Forall (fun m => safe m s.1) s.2 -> I s'.1.
Proof. intros Hsp H Hi Hts. by destruct (pool_evolves _ _ _ Hsp H Hi Hts). Qed.
End pool.
Arguments safe_bind {D E O HE I le A B} m k d.
Arguments wp_then {D E O HE I le A B} m k Q {Q'} d.
Arguments safe_catch {D E O HE I le A} m h.
Arguments safe_read {D E O HE I le _ R} q d.

(** ** The activities of the worker *)

(** What leaves the worker: events published on the bus, the
    [signalWithStart] of a session workflow, a usage record. *)
Inductive Outgoing :=
| Publish (workspaceId sessionId : string) (events : list SessionEvent)
| WakeWorkflow (accountId workspaceId sessionId workflowId : string)
| RecordUsage (accountId workspaceId eventType : string) (quantity : Z) (sourceResourceId idempotencyKey : string).
#[export] Instance DbError_fallible : Fallible DbError := Unavailable.
Abbreviation Act := (Program Db DbError Outgoing).
End Activity.
