(* ===== verification/Access.v ===== *)
(** * Access control ([packages/core/src/access/index.ts] and the access tables of
      [packages/db/src/index.ts])

    A request is resolved to an access context by its delegated token, its API
    key or its managed session, and a workspace route asks for a grant on the
    workspace of its path.  The routes are in AccessRoutes.v.  Handlers are programs over transactions; generated
    ids are numbered.  Columns nothing here reads ([updated_at], the settings of a
    workspace) are left out. *)
From stdpp Require Import pretty.
From S2P Require Import Prelude Json Sql Tokens Activity.
#[local] Open Scope Z_scope.
#[local] Open Scope opengeni_scope.

(** [sha256Hex]: the platform's SHA-256 in hexadecimal. *)
Class DigestPlatform := { sha256Hex : jstr -> jstr }.

Module Access.
Import Activity Tokens.

(** ** Grants ([packages/contracts/src/index.ts]) *)

Inductive ProductAccessMode := local | configured | managed.
#[export] Instance ProductAccessMode_eq_dec : EqDecision ProductAccessMode.
Proof. solve_decision. Defined.

Record AccountGrant := { ag_accountId : jstr; ag_subjectId : jstr; ag_subjectLabel : option jstr; ag_role : option jstr; ag_permissions : list jstr }.
(** The metadata of a delegated grant: the session and the turn of its token. *)
Record AccessGrant := {
  gr_workspaceId : jstr; gr_accountId : jstr; gr_subjectId : jstr; gr_subjectLabel : option jstr; gr_permissions : list jstr;
  gr_delegated : option (option jstr * option jstr)
}.
Record AccessContext := {
  ctx_mode : ProductAccessMode; ctx_subjectId : jstr; ctx_subjectLabel : option jstr; ctx_accountGrants : list AccountGrant;
  ctx_workspaceGrants : list AccessGrant; ctx_defaultAccountId : option jstr; ctx_defaultWorkspaceId : option jstr
}.

(** ** Tables *)

(** [managed_accounts] *)
Record AccountRow := { a_id : jstr; a_name : jstr; a_externalSource : option jstr; a_externalId : option jstr }.
#[export] Instance etaAccountRow : Settable AccountRow := fun r => Build_AccountRow (a_id r) (a_name r) (a_externalSource r) (a_externalId r).
(** [workspaces] *)
Record WorkspaceRow := {
  w_id : jstr; w_accountId : jstr; w_name : jstr; w_slug : option jstr; w_externalSource : option jstr; w_externalId : option jstr; w_createdAt : Z
}.
#[export] Instance etaWorkspaceRow : Settable WorkspaceRow := fun r =>
  Build_WorkspaceRow (w_id r) (w_accountId r) (w_name r) (w_slug r) (w_externalSource r) (w_externalId r) (w_createdAt r).
(** [workspace_memberships], one row per subject and workspace. *)
Record MembershipRow := {
  m_accountId : jstr; m_workspaceId : jstr; m_subjectId : jstr; m_subjectLabel : option jstr; m_role : jstr; m_permissions : list jstr; m_createdAt : Z
}.
#[export] Instance etaMembershipRow : Settable MembershipRow := fun r =>
  Build_MembershipRow (m_accountId r) (m_workspaceId r) (m_subjectId r) (m_subjectLabel r) (m_role r) (m_permissions r) (m_createdAt r).
(** [api_keys] *)
Record ApiKeyRow := {
  k_id : jstr; k_accountId : jstr; k_workspaceId : option jstr; k_name : jstr; k_prefix : jstr; k_keyHash : jstr; k_permissions : list jstr;
  k_expiresAt : option Z; k_revokedAt : option Z; k_lastUsedAt : option Z
}.
#[export] Instance etaApiKeyRow : Settable ApiKeyRow := fun r =>
  Build_ApiKeyRow (k_id r) (k_accountId r) (k_workspaceId r) (k_name r) (k_prefix r) (k_keyHash r) (k_permissions r) (k_expiresAt r) (k_revokedAt r) (k_lastUsedAt r).
(** [session_pins] and [session_list_snapshots]: a member's personal rows. *)
Record PersonalRow := { p_workspaceId : jstr; p_subjectId : jstr; p_data : jstr }.

Record AccessDb := {
  accounts : list AccountRow; workspaces : list WorkspaceRow; memberships : list MembershipRow; apiKeys : list ApiKeyRow;
  sessionPins : list PersonalRow; sessionListSnapshots : list PersonalRow; fresh : nat
}.
#[export] Instance etaAccessDb : Settable AccessDb := fun d =>
  Build_AccessDb (accounts d) (workspaces d) (memberships d) (apiKeys d) (sessionPins d) (sessionListSnapshots d) (fresh d).

(** An [HTTPException], any other error (by the start of its message), or a lost
    connection. *)
Inductive AccessError :=
| HttpError (status : Z) (message : jstr)
| Thrown (message : string)
| Unavailable.
#[export] Instance AccessError_fallible : Fallible AccessError := Unavailable.
(** The schedules a deleted workspace leaves to the scheduler. *)
Inductive Outgoing := DeleteSchedule (temporalScheduleId : jstr).
Abbreviation Handler := (Program AccessDb AccessError Outgoing).
Definition refuse {A} (status : Z) (message : jstr) : Handler A := Throw (HttpError status message).

(** The [n]th generated id. *)
Definition generated (n : nat) : jstr := js (pretty n).
Definition same (a b : jstr) : bool := bool_decide (a = b).
(** [nullable = value] *)
Definition isValue (a : option jstr) (b : jstr) : bool := match a with Some a => same a b | None => false end.

(** [allWorkspacePermissions] and [allAccountPermissions]. *)
Definition allWorkspacePermissions : list jstr := List.map js [
  "workspace:read"; "workspace:admin"; "members:manage"; "sessions:create"; "sessions:read"; "sessions:control"; "files:upload";
  "files:read"; "documents:manage"; "documents:search"; "scheduled_tasks:manage"; "scheduled_tasks:run"; "github:manage"; "github:use";
  "api_keys:manage"; "connections:read"; "connections:write"; "variable-sets:manage"; "variable-sets:use"; "mcp_servers:attach";
  "goals:manage"; "enrollments:read"; "enrollments:manage"]%string.
Definition allAccountPermissions : list jstr := List.map js [
  "account:read"; "account:admin"; "members:manage"; "workspace:create"; "billing:read"; "billing:manage"; "api_keys:manage"]%string.

(** ** The repository *)

Definition externalIs (source id : jstr) (s i : option jstr) : bool := isValue s source && isValue i id.

(** [insert ... on conflict (external_source, external_id) do update set name] *)
Definition upsertAccount (name source id : jstr) (d : AccessDb) : AccountRow * AccessDb :=
  let mine r := externalIs source id (a_externalSource r) (a_externalId r) in
  match List.find mine (accounts d) with
  | Some r => (r <| a_name := name |>, d <| accounts ::= update_where mine (fun r => r <| a_name := name |>) |>)
  | None =>
      let r := {| a_id := generated (fresh d); a_name := name; a_externalSource := Some source; a_externalId := Some id |} in
      (r, (d <| accounts ::= fun t => t ++ [r] |>) <| fresh ::= S |>)
  end.

(** The unique indexes of [workspaces]. *)
Definition workspaceClash (r r' : WorkspaceRow) : bool :=
  match w_slug r with Some slug => same (w_accountId r) (w_accountId r') && isValue (w_slug r') slug | None => false end
  || match w_externalSource r, w_externalId r with
     | Some source, Some id => externalIs source id (w_externalSource r') (w_externalId r')
     | _, _ => false
     end.
Definition insertWorkspace (r : WorkspaceRow) (d : AccessDb) : result AccessError (WorkspaceRow * AccessDb) :=
  if existsb (workspaceClash r) (workspaces d) then Err (Thrown "duplicate key value violates unique constraint")
  else Ok (r, (d <| workspaces ::= fun t => t ++ [r] |>) <| fresh ::= S |>).
Definition upsertWorkspace (now : Z) (accountId name : jstr) (slug : option jstr) (source id : jstr) (d : AccessDb) : result AccessError (WorkspaceRow * AccessDb) :=
  let mine r := externalIs source id (w_externalSource r) (w_externalId r) in
  match List.find mine (workspaces d) with
  | Some r => Ok (r <| w_name := name |>, d <| workspaces ::= update_where mine (fun r => r <| w_name := name |>) |>)
  | None => insertWorkspace {| w_id := generated (fresh d); w_accountId := accountId; w_name := name; w_slug := slug;
                               w_externalSource := Some source; w_externalId := Some id; w_createdAt := now |} d
  end.

Definition getWorkspace (workspaceId : jstr) (d : AccessDb) : option WorkspaceRow := List.find (fun w => same (w_id w) workspaceId) (workspaces d).

Definition membershipOf (subjectId workspaceId : jstr) (m : MembershipRow) : bool := same (m_subjectId m) subjectId && same (m_workspaceId m) workspaceId.
(** [grantWorkspaceAccess]: an upsert on subject and workspace. *)
Definition grantWorkspaceAccess (accountId workspaceId subjectId : jstr) (label : option jstr) (role : jstr) (permissions : list jstr)
  (now : Z) (d : AccessDb) : result AccessError (unit * AccessDb) :=
  let mine := membershipOf subjectId workspaceId in
  if existsb mine (memberships d)
  then Ok (tt, d <| memberships ::= update_where mine (fun m => ((m <| m_subjectLabel := label |>) <| m_role := role |>) <| m_permissions := permissions |>) |>)
  else match getWorkspace workspaceId d with
       | None => Err (Thrown "insert or update violates foreign key constraint")
       | Some _ => Ok (tt, d <| memberships ::= fun t => t ++ [{| m_accountId := accountId; m_workspaceId := workspaceId; m_subjectId := subjectId;
           m_subjectLabel := label; m_role := role; m_permissions := permissions; m_createdAt := now |}] |>)
       end.

Record BootstrapWorkspaceInput := {
  bi_source : jstr; bi_accountName : jstr; bi_workspaceName : jstr; bi_subjectId : jstr; bi_subjectLabel : jstr
}.
(** [bootstrapWorkspace] for the external id ["default"] that both callers pass. *)
Definition bootstrapWorkspace (i : BootstrapWorkspaceInput) (now : Z) (d : AccessDb) : result AccessError (AccessContext * AccessDb) :=
  let (account, d) := upsertAccount (bi_accountName i) (bi_source i) (js "default") d in
  match upsertWorkspace now (a_id account) (bi_workspaceName i) None (bi_source i) (js "default") d with
  | Err e => Err e
  | Ok (workspace, d) =>
      match grantWorkspaceAccess (a_id account) (w_id workspace) (bi_subjectId i) (Some (bi_subjectLabel i)) (js "owner") allWorkspacePermissions now d with
      | Err e => Err e
      | Ok (_, d) => Ok ({| ctx_mode := if same (bi_source i) (js "opengeni:local") then local else configured;
             ctx_subjectId := bi_subjectId i; ctx_subjectLabel := Some (bi_subjectLabel i);
             ctx_accountGrants := [{| ag_accountId := a_id account; ag_subjectId := bi_subjectId i; ag_subjectLabel := Some (bi_subjectLabel i);
                                      ag_role := Some (js "owner"); ag_permissions := allAccountPermissions |}];
             ctx_workspaceGrants := [{| gr_workspaceId := w_id workspace; gr_accountId := a_id account; gr_subjectId := bi_subjectId i;
                                        gr_subjectLabel := Some (bi_subjectLabel i); gr_permissions := allWorkspacePermissions; gr_delegated := None |}];
             ctx_defaultAccountId := Some (a_id account); ctx_defaultWorkspaceId := Some (w_id workspace) |}, d)
      end
  end.

(** The user of a managed session. *)
Record ManagedUser := { u_id : jstr; u_email : jstr; u_name : jstr }.
Definition orElse (a b : jstr) : jstr := match a with [] => b | _ => a end.
Definition userSubject (userId : jstr) : jstr := js "user:" ++ userId.

(** A membership joined with its workspace. *)
Definition joined (d : AccessDb) (m : MembershipRow) : option (MembershipRow * WorkspaceRow) :=
  (fun w => (m, w)) <$> List.find (fun w => same (w_id w) (m_workspaceId m)) (workspaces d).

Definition ensureManagedAccessForUser (u : ManagedUser) (now : Z) (d : AccessDb) : result AccessError (AccessContext * AccessDb) :=
  let subjectId := userSubject (u_id u) in
  let subjectLabel := orElse (u_email u) (u_name u) in
  let (account, d) := upsertAccount (orElse (u_name u) (u_email u)) (js "better-auth:user") (u_id u) d in
  match upsertWorkspace now (a_id account) (js "Default workspace") (Some (js "default")) (js "better-auth:user") (u_id u ++ js ":default") d with
  | Err e => Err e
  | Ok (workspace, d) =>
      match grantWorkspaceAccess (a_id account) (w_id workspace) subjectId (Some subjectLabel) (js "owner") allWorkspacePermissions now d with
      | Err e => Err e
      | Ok (_, d) =>
      let rows := sort_by (fun p => - w_createdAt p.2) (omap (joined d) (select_where (fun m => same (m_subjectId m) subjectId) (memberships d))) in
      Ok ({| ctx_mode := managed; ctx_subjectId := subjectId; ctx_subjectLabel := Some subjectLabel;
             ctx_accountGrants := [{| ag_accountId := a_id account; ag_subjectId := subjectId; ag_subjectLabel := Some subjectLabel;
                                      ag_role := Some (js "owner"); ag_permissions := allAccountPermissions |}];
             ctx_workspaceGrants := List.map (fun p => {| gr_workspaceId := w_id p.2; gr_accountId := w_accountId p.2; gr_subjectId := subjectId;
                                        gr_subjectLabel := Some subjectLabel; gr_permissions := m_permissions p.1; gr_delegated := None |}) rows;
             ctx_defaultAccountId := Some (a_id account); ctx_defaultWorkspaceId := Some (w_id workspace) |}, d)
      end
  end.

Definition getWorkspaceGrant (subjectId workspaceId : jstr) (d : AccessDb) : option AccessGrant :=
  (fun p => {| gr_workspaceId := w_id p.2; gr_accountId := w_accountId p.2; gr_subjectId := m_subjectId p.1;
               gr_subjectLabel := match m_subjectLabel p.1 with Some [] => None | l => l end;
               gr_permissions := m_permissions p.1; gr_delegated := None |})
  <$> head (omap (joined d) (select_where (membershipOf subjectId workspaceId) (memberships d))).
Definition listWorkspaceMembers (workspaceId : jstr) (d : AccessDb) : result AccessError (list MembershipRow) :=
  match getWorkspace workspaceId d with
  | None => Err (Thrown "Workspace not found")
  | Some _ => Ok (sort_by m_createdAt (select_where (fun m => same (m_workspaceId m) workspaceId) (memberships d)))
  end.

Definition activeKey (now : Z) (k : ApiKeyRow) : bool :=
  match k_revokedAt k with None => true | Some _ => false end && match k_expiresAt k with None => true | Some t => now <? t end.
Definition findActiveApiKeyByHash (keyHash : jstr) (now : Z) (d : AccessDb) : option ApiKeyRow * AccessDb :=
  match List.find (fun k => same (k_keyHash k) keyHash && activeKey now k) (apiKeys d) with
  | None => (None, d)
  | Some k => (Some (k <| k_lastUsedAt := Some now |>), d <| apiKeys ::= update_where (fun r => same (k_id r) (k_id k)) (fun r => r <| k_lastUsedAt := Some now |>) |>)
  end.
Definition createApiKey (accountId : jstr) (workspaceId : option jstr) (name prefix keyHash : jstr) (permissions : list jstr) (expiresAt : option Z) (d : AccessDb) : result AccessError (ApiKeyRow * AccessDb) :=
  if existsb (fun k => same (k_keyHash k) keyHash) (apiKeys d) then Err (Thrown "duplicate key value violates unique constraint")
  else if match workspaceId with Some w => negb (existsb (fun r => same (w_id r) w) (workspaces d)) | None => false end
  then Err (Thrown "insert or update violates foreign key constraint")
  else
    let k := {| k_id := generated (fresh d); k_accountId := accountId; k_workspaceId := workspaceId; k_name := name; k_prefix := prefix; k_keyHash := keyHash;
                k_permissions := permissions; k_expiresAt := expiresAt; k_revokedAt := None; k_lastUsedAt := None |} in
    Ok (k, (d <| apiKeys ::= fun t => t ++ [k] |>) <| fresh ::= S |>).
Definition keyOf (workspaceId apiKeyId : jstr) (k : ApiKeyRow) : bool := isValue (k_workspaceId k) workspaceId && same (k_id k) apiKeyId.
Definition revokeApiKey (now : Z) (workspaceId apiKeyId : jstr) (d : AccessDb) : result AccessError (ApiKeyRow * AccessDb) :=
  match getWorkspace workspaceId d with
  | None => Err (Thrown "Workspace not found")
  | Some _ =>
      let revoke k := k <| k_revokedAt := Some now |> in
      match updated_rows (keyOf workspaceId apiKeyId) revoke (apiKeys d) with
      | [] => Err (Thrown "API key not found")
      | row :: _ => Ok (row, d <| apiKeys ::= update_where (keyOf workspaceId apiKeyId) revoke |>)
      end
  end.

Definition personalOf (workspaceId subjectId : jstr) (p : PersonalRow) : bool := same (p_workspaceId p) workspaceId && same (p_subjectId p) subjectId.
Definition removeWorkspaceMember (workspaceId subjectId : jstr) (d : AccessDb) : result AccessError (bool * AccessDb) :=
  match trim subjectId with
  | [] => Err (Thrown "withWorkspaceSubjectRls: a non-empty subjectId is required")
  | _ =>
      match getWorkspace workspaceId d with
      | None => Err (Thrown "Workspace not found")
      | Some _ =>
          if existsb (membershipOf subjectId workspaceId) (memberships d)
          then Ok (true, ((d <| sessionListSnapshots ::= delete_where (personalOf workspaceId subjectId) |>)
                            <| sessionPins ::= delete_where (personalOf workspaceId subjectId) |>)
                            <| memberships ::= delete_where (membershipOf subjectId workspaceId) |>)
          else Ok (false, d)
      end
  end.
(** With the rows that cascade. *)
Definition deleteWorkspace (workspaceId : jstr) (d : AccessDb) : AccessDb :=
  ((((d <| workspaces ::= delete_where (fun w => same (w_id w) workspaceId) |>)
       <| memberships ::= delete_where (fun m => same (m_workspaceId m) workspaceId) |>)
       <| apiKeys ::= delete_where (fun k => isValue (k_workspaceId k) workspaceId) |>)
       <| sessionPins ::= delete_where (fun p => same (p_workspaceId p) workspaceId) |>)
       <| sessionListSnapshots ::= delete_where (fun p => same (p_workspaceId p) workspaceId) |>.

(** ** Requests ([packages/core/src/access/index.ts]) *)

(** What access control reads of a request; the managed session is what Better
    Auth answers for its cookies, [rq_now] the clock in seconds. *)
Record Request := { rq_authorization : option jstr; rq_subject : option jstr; rq_session : option ManagedUser; rq_now : Z }.
Record Settings := { productAccessMode : ProductAccessMode; delegationSecret : option jstr; managedAuth : bool }.

Definition bearerPrefix : jstr := js "Bearer ".
Definition bearerToken (rq : Request) : option jstr :=
  match rq_authorization rq with
  | Some authorization => if startsWith bearerPrefix authorization then Some (drop (length bearerPrefix) authorization) else None
  | None => None
  end.
(** A string in a condition: the empty one is false. *)
Definition nonEmpty (s : option jstr) : option jstr := match s with Some [] => None | _ => s end.
Definition configuredSubject (rq : Request) : jstr :=
  match rq_subject rq with
  | Some header => match trim header with [] => js "configured:key" | s => js "configured:" ++ s end
  | None => js "configured:key"
  end.

Definition includes (permissions : list jstr) (p : jstr) : bool := existsb (same p) permissions.
Definition aliasesOf (p : jstr) : list jstr :=
  if same p (js "variable-sets:use") then [js "environments:use"]
  else if same p (js "variable-sets:manage") then [js "environments:manage"] else [].
Definition hasPermission (permissions : list jstr) (p : jstr) : bool :=
  includes permissions p || existsb (includes permissions) (aliasesOf p) || includes permissions (js "workspace:admin").
Definition missingPermission (p : jstr) : jstr :=
  js "missing permission: " ++ p ++
  (if same p (js "variable-sets:use") then js " (deprecated alias: environments:use)"
   else if same p (js "variable-sets:manage") then js " (deprecated alias: environments:manage)" else []).
Definition requirePermission (grant : AccessGrant) (p : jstr) : Handler unit :=
  if hasPermission (gr_permissions grant) p then Ret tt else refuse 403 (missingPermission p).

Section platform.
Context `{tokens : TokenPlatform} `{digests : DigestPlatform} (settings : Settings).

Definition delegatedContext (mode : ProductAccessMode) (payload : DelegatedAccessTokenPayload) : AccessContext := {|
  ctx_mode := mode; ctx_subjectId := dat_subjectId payload; ctx_subjectLabel := nonEmpty (dat_subjectLabel payload);
  ctx_accountGrants := [{| ag_accountId := dat_accountId payload; ag_subjectId := dat_subjectId payload;
    ag_subjectLabel := nonEmpty (dat_subjectLabel payload); ag_role := None; ag_permissions := dat_permissions payload |}];
  ctx_workspaceGrants := [{| gr_workspaceId := dat_workspaceId payload; gr_accountId := dat_accountId payload; gr_subjectId := dat_subjectId payload;
    gr_subjectLabel := nonEmpty (dat_subjectLabel payload); gr_permissions := dat_permissions payload;
    gr_delegated := Some (dat_sessionId payload, dat_turnId payload) |}];
  ctx_defaultAccountId := Some (dat_accountId payload); ctx_defaultWorkspaceId := Some (dat_workspaceId payload) |}.
Definition delegatedAccessContext (rq : Request) (mode : ProductAccessMode) : Handler (option AccessContext) :=
  match nonEmpty (bearerToken rq), nonEmpty (delegationSecret settings) with
  | Some token, Some secret =>
      match verifyDelegatedAccessToken secret token (rq_now rq) with
      | Err _ => Throw (Thrown "SyntaxError")
      | Ok payload => Ret (delegatedContext mode <$> payload)
      end
  | _, _ => Ret None
  end.

Definition keySubject (k : ApiKeyRow) : jstr := js "api_key:" ++ k_id k.
Definition isBilling (p : jstr) : bool := same p (js "billing:read") || same p (js "billing:manage").
Definition apiKeyContext (mode : ProductAccessMode) (k : ApiKeyRow) : AccessContext := {|
  ctx_mode := mode; ctx_subjectId := keySubject k; ctx_subjectLabel := Some (k_name k);
  ctx_accountGrants := [{| ag_accountId := k_accountId k; ag_subjectId := keySubject k; ag_subjectLabel := Some (k_name k); ag_role := None;
    ag_permissions := match k_workspaceId k with Some _ => List.filter isBilling (k_permissions k) | None => k_permissions k end |}];
  ctx_workspaceGrants := match k_workspaceId k with
    | Some workspaceId => [{| gr_workspaceId := workspaceId; gr_accountId := k_accountId k; gr_subjectId := keySubject k;
        gr_subjectLabel := Some (k_name k); gr_permissions := k_permissions k; gr_delegated := None |}]
    | None => []
    end;
  ctx_defaultAccountId := Some (k_accountId k); ctx_defaultWorkspaceId := k_workspaceId k |}.
Definition apiKeyAccessContext (rq : Request) (mode : ProductAccessMode) : Handler (option AccessContext) :=
  match nonEmpty (bearerToken rq) with
  | None => Ret None
  | Some bearer =>
      let* apiKey := tx (fun now d => Ok (findActiveApiKeyByHash (sha256Hex bearer) now d)) in
      Ret (apiKeyContext mode <$> apiKey)
  end.

Definition resolveAccessContext (rq : Request) : Handler (option AccessContext) :=
  match productAccessMode settings with
  | local =>
      let* context := tx (bootstrapWorkspace {| bi_source := js "opengeni:local"; bi_accountName := js "Local"; bi_workspaceName := js "Local";
                            bi_subjectId := js "dev"; bi_subjectLabel := js "Local dev" |}) in Ret (Some context)
  | configured =>
      let* delegated := delegatedAccessContext rq configured in
      match delegated with
      | Some context => Ret (Some context)
      | None =>
          let* apiKey := apiKeyAccessContext rq configured in
          match apiKey with
          | Some context => Ret (Some context)
          | None =>
              match nonEmpty (delegationSecret settings) with
              | Some _ => Ret None
              | None =>
                  let* context := tx (bootstrapWorkspace {| bi_source := js "opengeni:configured"; bi_accountName := js "Configured";
                                        bi_workspaceName := js "Configured"; bi_subjectId := configuredSubject rq; bi_subjectLabel := js "Configured key" |}) in
                  Ret (Some context)
              end
          end
      end
  | managed =>
      let* token := (match nonEmpty (bearerToken rq) with
        | Some _ =>
            let* delegated := delegatedAccessContext rq managed in
            match delegated with Some context => Ret (Some context) | None => apiKeyAccessContext rq managed end
        | None => Ret None
        end) in
      match token with
      | Some context => Ret (Some context)
      | None =>
          if managedAuth settings
          then match rq_session rq with
               | Some user => let* context := tx (ensureManagedAccessForUser user) in Ret (Some context)
               | None => Ret None
               end
          else Ret None
      end
  end.

Definition requireAccessContext (rq : Request) : Handler AccessContext :=
  let* context := resolveAccessContext rq in
  match context with Some context => Ret context | None => refuse 401 (js "authentication required") end.

Definition requireAccessGrant (rq : Request) (workspaceId : jstr) (permission : option jstr) : Handler AccessGrant :=
  let* context := requireAccessContext rq in
  let* grant := (match List.find (fun g => same (gr_workspaceId g) workspaceId) (ctx_workspaceGrants context) with
    | Some g => Ret (Some g)
    | None => read (getWorkspaceGrant (ctx_subjectId context) workspaceId)
    end) in
  match grant with
  | None =>
      let* workspace := catch (let* w := read (getWorkspace workspaceId) in Ret w) (fun _ => Ret None) in
      match workspace with None => refuse 404 (js "workspace not found") | Some _ => refuse 403 (js "workspace access denied") end
  | Some grant =>
      match permission with
      | Some p => requirePermission grant p ;; Ret grant
      | None => Ret grant
      end
  end.

(** ** Where a grant comes from *)

(** A delegated token of the request verifies. *)
Definition presents (rq : Request) (payload : DelegatedAccessTokenPayload) : Prop := exists secret token,
  nonEmpty (delegationSecret settings) = Some secret /\ nonEmpty (bearerToken rq) = Some token /\
  verifyDelegatedAccessToken secret token (rq_now rq) = Ok (Some payload).
(** A key that was not revoked and whose end, if it has one, is still to come. *)
Definition live (now : Z) (k : ApiKeyRow) : Prop := k_revokedAt k = None /\ forall t, k_expiresAt k = Some t -> now < t.
(** The bearer of the request is a live key of the table. *)
Definition presentsKey (now : Z) (rq : Request) (d : AccessDb) (k : ApiKeyRow) : Prop := exists bearer,
  nonEmpty (bearerToken rq) = Some bearer /\ k ∈ apiKeys d /\ k_keyHash k = sha256Hex bearer /\ live now k.
(** What the permissions of a grant allow: a permission is in them, or they
    administer the workspace, or hold its deprecated name. *)
Definition permits (permissions : list jstr) (p : jstr) : Prop :=
  p ∈ permissions \/ js "workspace:admin" ∈ permissions \/
  p = js "variable-sets:use" /\ js "environments:use" ∈ permissions \/
  p = js "variable-sets:manage" /\ js "environments:manage" ∈ permissions.

Inductive authenticated (now : Z) (rq : Request) (d : AccessDb) : jstr -> Prop :=
| auth_token payload : productAccessMode settings <> local -> presents rq payload -> authenticated now rq d (dat_subjectId payload)
| auth_key k : productAccessMode settings <> local -> presentsKey now rq d k -> authenticated now rq d (keySubject k)
| auth_session u : productAccessMode settings = managed -> managedAuth settings = true -> rq_session rq = Some u -> authenticated now rq d (userSubject (u_id u))
| auth_local : productAccessMode settings = local -> authenticated now rq d (js "dev")
| auth_configured : productAccessMode settings = configured -> nonEmpty (delegationSecret settings) = None -> authenticated now rq d (configuredSubject rq).

(** The permissions of a subject on a workspace are those of a token it presents,
    of its key, or of its membership. *)
Inductive backed (now : Z) (rq : Request) (d d' : AccessDb) (workspaceId subjectId : jstr) (permissions : list jstr) : Prop :=
| backed_token payload : presents rq payload -> dat_workspaceId payload = workspaceId -> dat_subjectId payload = subjectId ->
    dat_permissions payload = permissions -> backed now rq d d' workspaceId subjectId permissions
| backed_key k : presentsKey now rq d k -> k_workspaceId k = Some workspaceId -> keySubject k = subjectId -> k_permissions k = permissions ->
    backed now rq d d' workspaceId subjectId permissions
| backed_member m : authenticated now rq d subjectId -> m ∈ memberships d' -> m_workspaceId m = workspaceId -> m_subjectId m = subjectId ->
    m_permissions m = permissions -> backed now rq d d' workspaceId subjectId permissions.

Definition grantBacked now rq d d' (g : AccessGrant) : Prop := backed now rq d d' (gr_workspaceId g) (gr_subjectId g) (gr_permissions g).
Definition contextBacked now rq d d' (c : AccessContext) : Prop :=
  authenticated now rq d (ctx_subjectId c) /\ Forall (grantBacked now rq d d') (ctx_workspaceGrants c).

Lemma generated_inj m n : generated m = generated n -> m = n.
Proof. unfold generated. intros E%js_inj. by apply (inj pretty) in E. Qed.
(** Tables whose ids are numbered below [next]. *)
Definition numbered {R} (idOf : R -> jstr) (next : nat) (t : list R) : Prop :=
  NoDup (List.map idOf t) /\ forall r, r ∈ t -> exists n, idOf r = generated n /\ (n < next)%nat.
Lemma numbered_append {R} (idOf : R -> jstr) n t r : numbered idOf n t -> idOf r = generated n -> numbered idOf (S n) (t ++ [r]).
Proof.
  intros [Hnd Hid] Hr. split.
  - rewrite List.map_app. apply NoDup_app. split_and!; [done| |apply NoDup_singleton]. intros k Hk ->%list_elem_of_singleton.
    apply list_elem_of_fmap in Hk as (r' & Ek & Hr'). destruct (Hid r' Hr') as (m & Hm & Hl). rewrite Hr, Hm in Ek. apply generated_inj in Ek. lia.
  - intros r' [Hin|Hin%list_elem_of_singleton]%elem_of_app; [destruct (Hid r' Hin) as (m & Hm & Hl); exists m; split; [done|lia]|]. subst r'. exists n. split; [done|lia].
Qed.
Lemma numbered_later {R} (idOf : R -> jstr) n n' t : (n <= n')%nat -> numbered idOf n t -> numbered idOf n' t.
Proof. intros Hl [Hnd Hid]. split; [done|]. intros r Hr. destruct (Hid r Hr) as (m & Hm & Hlt). exists m. split; [done|lia]. Qed.
Lemma numbered_update {R} (idOf : R -> jstr) n p f t : (forall r, p r = true -> idOf (f r) = idOf r) -> numbered idOf n t -> numbered idOf n (update_where p f t).
Proof.
  intros Hf [Hnd Hid]. split; [by rewrite map_update_where|]. intros r (r0 & Hr0 & ->)%elem_of_update_where.
  destruct (p r0) eqn:E; [rewrite Hf by done|]; by apply Hid.
Qed.
Lemma numbered_unique {R} (idOf : R -> jstr) n t r r' : numbered idOf n t -> r ∈ t -> r' ∈ t -> idOf r = idOf r' -> r = r'.
Proof. intros [Hnd _] H1 H2 E. by eapply (select_unique idOf (idOf r)). Qed.
Lemma numbered_delete {R} (idOf : R -> jstr) n p t : numbered idOf n t -> numbered idOf n (delete_where p t).
Proof.
  intros [Hnd Hid]. split; [|intros r [Hr _]%list_elem_of_In%filter_In; by apply Hid, list_elem_of_In].
  unfold delete_where. clear Hid. induction t as [|r t IH]; cbn in *; [done|]. apply NoDup_cons in Hnd as [Hn Hnd]. destruct (negb _); cbn; [|by apply IH].
  apply NoDup_cons. split; [|by apply IH]. intros (r' & Hr' & Hin)%list_elem_of_fmap. apply list_elem_of_In, filter_In in Hin as [Hin%list_elem_of_In _].
  apply Hn. rewrite Hr'. by apply list_elem_of_fmap_2.
Qed.

Lemma same_eq a b : same a b = true <-> a = b.
Proof. unfold same. apply bool_decide_eq_true. Qed.

Lemma activeKey_live now k : activeKey now k = true <-> live now k.
Proof.
  unfold activeKey, live. destruct (k_revokedAt k); cbn [andb]; [by split; [|intros [? _]]|]. destruct (k_expiresAt k) as [t|].
  - rewrite Z.ltb_lt. split; [intros H; split; [done|by intros ? [= <-]]|intros [_ H]; by apply H].
  - split; [by split|done].
Qed.
Lemma includes_in l p : includes l p = true <-> p ∈ l.
Proof.
  unfold includes. rewrite existsb_exists. split; [intros (q & Hq & E%same_eq); subst q; by apply list_elem_of_In|].
  intros H. exists p. split; [by apply list_elem_of_In|by apply same_eq].
Qed.
Lemma hasPermission_permits l p : hasPermission l p = true <-> permits l p.
Proof.
  unfold hasPermission, permits, aliasesOf. rewrite !orb_true_iff, !includes_in.
  destruct (same p (js "variable-sets:use")) eqn:E1; [apply same_eq in E1 as ->|].
  - cbn [existsb]. rewrite orb_false_r, includes_in. split; [tauto|]. intros [H|[H|[[_ H]|[H _]]]]; [tauto..|]. exfalso. revert H. apply (bool_decide_unpack (_ <> _)). by vm_compute.
  - destruct (same p (js "variable-sets:manage")) eqn:E2; [apply same_eq in E2 as ->|].
    + cbn [existsb]. rewrite orb_false_r, includes_in. split; [tauto|]. intros [H|[H|[[H _]|[_ H]]]]; [tauto..| |tauto]. exfalso. revert H. apply (bool_decide_unpack (_ <> _)). by vm_compute.
    + cbn [existsb]. split; [intros [[H|H]|H]; [tauto|done|tauto]|]. intros [H|[H|[[-> _]|[-> _]]]]; [tauto..| |]; exfalso;
        [apply not_true_iff_false in E1; apply E1|apply not_true_iff_false in E2; apply E2]; by apply same_eq.
Qed.

Lemma granted_row accountId ws subject label role permissions now d r d' :
  grantWorkspaceAccess accountId ws subject label role permissions now d = Ok (r, d') ->
  exists m, m ∈ memberships d' /\ m_workspaceId m = ws /\ m_subjectId m = subject /\ m_permissions m = permissions.
Proof.
  unfold grantWorkspaceAccess. destruct (existsb _ _) eqn:E.
  - intros [= _ <-]. apply existsb_exists in E as (m & Hm%list_elem_of_In & Hp). eexists. split; [apply elem_of_update_where; exists m; split; [done|reflexivity]|].
    rewrite Hp. unfold membershipOf in Hp. apply andb_true_iff in Hp as [Hs%same_eq Hw%same_eq]. done.
  - destruct (getWorkspace _ _); [|done]. intros [= _ <-]. eexists. split; [apply elem_of_app; right; by apply list_elem_of_singleton|done].
Qed.

Lemma bootstrap_backed i now rq d c d' : bootstrapWorkspace i now d = Ok (c, d') -> authenticated now rq d (bi_subjectId i) -> contextBacked now rq d d' c.
Proof.
  unfold bootstrapWorkspace. destruct (upsertAccount _ _ _ _) as [a d1]. destruct (upsertWorkspace _ _ _ _ _ _ _) as [[w d2]|]; [|done].
  destruct (grantWorkspaceAccess _ _ _ _ _ _ _ _) as [[r d3]|] eqn:E; [|done]. intros [= <- <-] Ha. split; [exact Ha|]. constructor; [|constructor].
  destruct (granted_row _ _ _ _ _ _ _ _ _ _ E) as (m & Hm & Hw & Hs & Hp). by apply (backed_member _ _ _ _ _ _ _ m).
Qed.

Lemma ensure_backed u now rq d c d' : ensureManagedAccessForUser u now d = Ok (c, d') -> authenticated now rq d (userSubject (u_id u)) -> contextBacked now rq d d' c.
Proof.
  unfold ensureManagedAccessForUser. destruct (upsertAccount _ _ _ _) as [a d1]. destruct (upsertWorkspace _ _ _ _ _ _ _) as [[w d2]|]; [|done].
  destruct (grantWorkspaceAccess _ _ _ _ _ _ _ _) as [[r d3]|] eqn:E; [|done]. intros [= <- <-] Ha. split; [exact Ha|].
  apply Forall_fmap, Forall_forall. intros p (m & Hm & Hj)%elem_of_sort_by%list_elem_of_omap. apply elem_filter in Hm as [Hm Hs%same_eq].
  unfold joined in Hj. apply fmap_Some in Hj as (w' & Hw & ->). apply find_some in Hw as [_ Hw%same_eq].
  by apply (backed_member _ _ _ _ _ _ _ m).
Qed.

Lemma delegated_backed now rq mode d c out d' : productAccessMode settings <> local ->
  exec now (delegatedAccessContext rq mode) d = (Ok (Some c), out, d') -> contextBacked now rq d d' c.
Proof.
  intros Hm. unfold delegatedAccessContext. destruct (nonEmpty (bearerToken rq)) as [token|] eqn:Et; [|done].
  destruct (nonEmpty (delegationSecret settings)) as [secret|] eqn:Es; [|done]. destruct (verifyDelegatedAccessToken _ _ _) as [[payload|]|] eqn:Ev; [|done|done].
  cbn. intros [= <- _ _]. assert (Hp : presents rq payload) by (by exists secret, token).
  split; [by apply auth_token|]. constructor; [|constructor]. by apply (backed_token _ _ _ _ _ _ _ payload).
Qed.

Lemma apiKey_backed now rq mode d c out d' : productAccessMode settings <> local ->
  exec now (apiKeyAccessContext rq mode) d = (Ok (Some c), out, d') -> contextBacked now rq d d' c.
Proof.
  intros Hm. unfold apiKeyAccessContext. destruct (nonEmpty (bearerToken rq)) as [bearer|] eqn:Et; [|done]. cbn.
  unfold findActiveApiKeyByHash. destruct (List.find _ _) as [k|] eqn:E; [|done]. apply find_some in E as [Hk%list_elem_of_In [Hh%same_eq Ha]%andb_true_iff].
  apply activeKey_live in Ha. cbn. intros [= <- _ _]. assert (Hp : presentsKey now rq d k) by (by exists bearer).
  split; [by apply (auth_key _ _ _ k)|]. cbn. destruct (k_workspaceId k) as [w|] eqn:Ew; [|constructor]. constructor; [|constructor]. by apply (backed_key _ _ _ _ _ _ _ k).
Qed.

(** A miss leaves the database as it was. *)
Lemma delegated_miss now rq mode d out d' : exec now (delegatedAccessContext rq mode) d = (Ok None, out, d') -> d' = d.
Proof.
  unfold delegatedAccessContext. repeat case_match; cbn; congruence.
Qed.
Lemma apiKey_miss now rq mode d out d' : exec now (apiKeyAccessContext rq mode) d = (Ok None, out, d') -> d' = d.
Proof.
  unfold apiKeyAccessContext. destruct (nonEmpty _); [|cbn; congruence]. cbn. unfold findActiveApiKeyByHash. destruct (List.find _ _); cbn; congruence.
Qed.

Lemma resolve_backed now rq d c out d' : exec now (resolveAccessContext rq) d = (Ok (Some c), out, d') -> contextBacked now rq d d' c.
Proof.
  assert (Hboot : forall i d c out d', authenticated now rq d (bi_subjectId i) -> exec now (let* context := tx (bootstrapWorkspace i) in Ret (Some context) : Handler (option AccessContext)) d = (Ok (Some c), out, d') ->
    contextBacked now rq d d' c).
  { intros i d0 c0 out0 d0' Ha. cbn. destruct (bootstrapWorkspace i now d0) as [[c1 d1]|] eqn:E; cbn; [|done]. intros [= <- _ <-]. by eapply bootstrap_backed. }
  unfold resolveAccessContext. destruct (productAccessMode settings) eqn:Em.
  - apply Hboot. by apply auth_local.
  - rewrite exec_bind. destruct (exec now (delegatedAccessContext rq configured) d) as [[[[c1|]|e] o1] d1] eqn:E1; [|apply delegated_miss in E1 as ->|done].
    { cbn. intros [= -> _ <-]. eapply delegated_backed; [|exact E1]. congruence. }
    rewrite exec_bind. destruct (exec now (apiKeyAccessContext rq configured) d) as [[[[c1|]|e] o2] d2] eqn:E2; [|apply apiKey_miss in E2 as ->|done].
    { cbn. intros [= -> _ <-]. eapply apiKey_backed; [|exact E2]. congruence. }
    destruct (nonEmpty (delegationSecret settings)) eqn:Es; [done|].
    match goal with |- context [exec now ?m d] => destruct (exec now m d) as [[r o3] d3] eqn:E3 end. intros [= -> _ <-].
    eapply Hboot; [|exact E3]. by apply auth_configured.
  - rewrite exec_bind. destruct (exec now (match nonEmpty (bearerToken rq) with Some _ => _ | None => _ end) d) as [[[[c1|]|e] o1] d1] eqn:E1; [| |done].
    + cbn. intros [= -> _ <-]. destruct (nonEmpty (bearerToken rq)); [|done]. rewrite exec_bind in E1.
      destruct (exec now (delegatedAccessContext rq managed) d) as [[[[c2|]|e] o2] d2] eqn:E2; [|apply delegated_miss in E2 as ->|done].
      * cbn in E1. injection E1 as -> _ <-. eapply delegated_backed; [|exact E2]. congruence.
      * destruct (exec now (apiKeyAccessContext rq managed) d) as [[r o3] d3] eqn:E3. injection E1 as -> _ <-. eapply apiKey_backed; [|exact E3]. congruence.
    + assert (d1 = d) as ->.
      { destruct (nonEmpty (bearerToken rq)); [|by injection E1]. rewrite exec_bind in E1.
        destruct (exec now (delegatedAccessContext rq managed) d) as [[[[c2|]|e] o2] d2] eqn:E2; [done|apply delegated_miss in E2 as ->|done].
        destruct (exec now (apiKeyAccessContext rq managed) d) as [[r o3] d3] eqn:E3. injection E1 as -> _ <-. by apply apiKey_miss in E3. }
      destruct (managedAuth settings) eqn:Ea; [|done]. destruct (rq_session rq) as [u|] eqn:Eu; [|done]. cbn.
      destruct (ensureManagedAccessForUser u now d) as [[c1 d2]|] eqn:E2; cbn; [|done]. intros [= <- _ <-]. eapply ensure_backed; [exact E2|]. by apply auth_session.
Qed.

(** The grant of a context on a workspace, and the answer it leads to. *)
Definition grantOf (c : AccessContext) (workspaceId : jstr) (d : AccessDb) : option AccessGrant :=
  match List.find (fun g => same (gr_workspaceId g) workspaceId) (ctx_workspaceGrants c) with
  | Some g => Some g
  | None => getWorkspaceGrant (ctx_subjectId c) workspaceId d
  end.
Definition answerOf (c : AccessContext) (workspaceId : jstr) (permission : option jstr) (d : AccessDb) : result AccessError AccessGrant :=
  match grantOf c workspaceId d with
  | None => match getWorkspace workspaceId d with
            | None => Err (HttpError 404 (js "workspace not found"))
            | Some _ => Err (HttpError 403 (js "workspace access denied"))
            end
  | Some g => match permission with
              | Some p => if hasPermission (gr_permissions g) p then Ok g else Err (HttpError 403 (missingPermission p))
              | None => Ok g
              end
  end.

Lemma exec_requireAccessGrant now rq workspaceId permission d :
  exec now (requireAccessGrant rq workspaceId permission) d =
  match exec now (resolveAccessContext rq) d with
  | (Ok (Some c), out, d1) => (answerOf c workspaceId permission d1, out, d1)
  | (Ok None, out, d1) => (Err (HttpError 401 (js "authentication required")), out, d1)
  | (Err e, out, d1) => (Err e, out, d1)
  end.
Proof.
  unfold requireAccessGrant, requireAccessContext. rewrite !exec_bind.
  destruct (exec now (resolveAccessContext rq) d) as [[[[c|]|e] o1] d1]; cbn [exec refuse]; [|by rewrite app_nil_r|done].
  assert (Hafter : forall og, exec now (match og with
      | None => let* workspace := catch (let* w := read (getWorkspace workspaceId) in Ret w) (fun _ => Ret None) in
                match workspace with None => refuse 404 (js "workspace not found") | Some _ => refuse 403 (js "workspace access denied") end
      | Some grant => match permission with Some p => requirePermission grant p ;; Ret grant | None => Ret grant end
      end : Handler AccessGrant) d1 = (match og with
      | None => match getWorkspace workspaceId d1 with None => Err (HttpError 404 (js "workspace not found")) | Some _ => Err (HttpError 403 (js "workspace access denied")) end
      | Some g => match permission with Some p => if hasPermission (gr_permissions g) p then Ok g else Err (HttpError 403 (missingPermission p)) | None => Ok g end
      end, [], d1)).
  { intros [g|]; [destruct permission as [p|]|]; cbn; [|done|by destruct (getWorkspace _ _)]. unfold requirePermission. by destruct (hasPermission _ _). }
  assert (Hm : exec now (match List.find (fun g => same (gr_workspaceId g) workspaceId) (ctx_workspaceGrants c) with
      | Some g => Ret (Some g) | None => read (getWorkspaceGrant (ctx_subjectId c) workspaceId) end : Handler (option AccessGrant)) d1 = (Ok (grantOf c workspaceId d1), [], d1)).
  { unfold grantOf. by destruct (List.find _ _). }
  rewrite exec_bind, Hm, Hafter. cbn. by rewrite !app_nil_r.
Qed.

Lemma grantOf_backed now rq d d1 c workspaceId g : contextBacked now rq d d1 c -> grantOf c workspaceId d1 = Some g ->
  gr_workspaceId g = workspaceId /\ grantBacked now rq d d1 g.
Proof.
  intros [Ha Hg]. unfold grantOf. destruct (List.find _ _) as [g0|] eqn:Ef.
  - intros [= ->]. apply find_some in Ef as [Hin%list_elem_of_In Hw%same_eq]. rewrite Forall_forall in Hg. auto.
  - intros Eg. unfold getWorkspaceGrant in Eg. apply fmap_Some in Eg as ([m w] & Hj & ->).
    apply head_elem, list_elem_of_omap in Hj as (m0 & [Hm [Hs%same_eq Hw%same_eq]%andb_true_iff]%elem_filter & Hj). unfold joined in Hj. apply fmap_Some in Hj as (w0 & Hw0 & [= <- <-]).
    apply find_some in Hw0 as [_ Hw0%same_eq]. cbn. split; [congruence|]. apply (backed_member _ _ _ _ _ _ _ m); cbn; [congruence|done|congruence|done|done].
Qed.

Lemma grant_source now rq workspaceId permission d g out d' :
  exec now (requireAccessGrant rq workspaceId permission) d = (Ok g, out, d') ->
  gr_workspaceId g = workspaceId /\
  (forall p, permission = Some p -> hasPermission (gr_permissions g) p = true) /\
  grantBacked now rq d d' g.
Proof.
  rewrite exec_requireAccessGrant. destruct (exec now (resolveAccessContext rq) d) as [[[[c|]|e] o1] d1] eqn:E1; [|done|done].
  apply resolve_backed in E1. intros [= Hans -> ->]. unfold answerOf in Hans. destruct (grantOf c workspaceId d') as [g0|] eqn:Eg; [|by destruct (getWorkspace _ _)].
  destruct (grantOf_backed _ _ _ _ _ _ _ E1 Eg) as [Hw Hb]. assert (Hp : g0 = g /\ forall p, permission = Some p -> hasPermission (gr_permissions g0) p = true).
  { destruct permission as [p|]; [|by simplify_eq]. destruct (hasPermission _ p) eqn:Ep; [|done]. simplify_eq. split; [done|]. by intros ? [= <-]. }
  by destruct Hp as [<- Hp].
Qed.

(** (C39) A grant is for the workspace asked for, permits what was asked for, and
    carries no more than what backs it: a verified token that names this
    workspace and these permissions, a key of this workspace that is neither
    revoked nor expired, or the membership row of a subject the request
    authenticates as. *)
Theorem grant_backed now rq workspaceId permission d g out d' :
  exec now (requireAccessGrant rq workspaceId permission) d = (Ok g, out, d') ->
  gr_workspaceId g = workspaceId /\
  (forall p, permission = Some p -> permits (gr_permissions g) p) /\
  grantBacked now rq d d' g.
Proof. intros (Hw & Hp & Hb)%grant_source. split_and!; [done| |done]. intros p H. by apply hasPermission_permits, Hp. Qed.

(** ** Refusals *)

Lemma exec_bind_no {A B} now (m : Handler A) (k : A -> Handler B) e d : (exec now m d).1.1 <> Err e ->
  (forall a d', (exec now (k a) d').1.1 <> Err e) -> (exec now (bind m k) d).1.1 <> Err e.
Proof.
  intros Hm Hk. rewrite exec_bind. destruct (exec now m d) as [[[a|e'] o1] d1]; cbn in *; [|congruence].
  specialize (Hk a d1). by destruct (exec now (k a) d1) as [[r o2] d2].
Qed.

Lemma delegated_none now rq mode d out d' payload : exec now (delegatedAccessContext rq mode) d = (Ok None, out, d') -> ~ presents rq payload.
Proof.
  intros H (secret & token & Hs & Ht & Hv). unfold delegatedAccessContext in H. rewrite Ht, Hs, Hv in H. done.
Qed.
Lemma apiKey_none now rq mode d out d' k : exec now (apiKeyAccessContext rq mode) d = (Ok None, out, d') -> ~ presentsKey now rq d k.
Proof.
  intros H (bearer & Hb & Hk & Hh & Ha%activeKey_live). unfold apiKeyAccessContext in H. rewrite Hb in H. cbn in H. unfold findActiveApiKeyByHash in H.
  destruct (List.find _ _) as [k'|] eqn:E; [done|]. apply list_elem_of_In in Hk. pose proof (find_none _ _ E k Hk) as Hn.
  apply andb_false_iff in Hn as [Hn|Hn]; [|congruence]. apply not_true_iff_false in Hn. apply Hn. by apply same_eq.
Qed.

(** No context means that nothing the request carries authenticates it. *)
Lemma resolve_none now rq d out d' subject : exec now (resolveAccessContext rq) d = (Ok None, out, d') -> ~ authenticated now rq d subject.
Proof.
  unfold resolveAccessContext. destruct (productAccessMode settings) eqn:Em.
  - cbn. by destruct (bootstrapWorkspace _ _ _) as [[c d1]|].
  - rewrite exec_bind. destruct (exec now (delegatedAccessContext rq configured) d) as [[[[c1|]|e] o1] d1] eqn:E1; [done| |done].
    pose proof (delegated_miss _ _ _ _ _ _ E1) as ->. rewrite exec_bind.
    destruct (exec now (apiKeyAccessContext rq configured) d) as [[[[c1|]|e] o2] d2] eqn:E2; [done| |done].
    destruct (nonEmpty (delegationSecret settings)) as [s|] eqn:Es.
    + intros _ [payload _ Hp|k _ Hk|u Hm|Hm|Hm Hn]; [by eapply delegated_none|by eapply apiKey_none|congruence..].
    + cbn. by destruct (bootstrapWorkspace _ _ _) as [[c d3]|].
  - rewrite exec_bind. intros H. destruct (exec now (match nonEmpty (bearerToken rq) with Some _ => _ | None => _ end) d) as [[[[c1|]|e] o1] d1] eqn:E1; [done| |done].
    intros [payload _ Hp|k _ Hk|u _ Ha Hu|Hm|Hm]; [| | |congruence..].
    + destruct Hp as (secret & token & Hs & Ht & Hv). rewrite Ht in E1. rewrite exec_bind in E1.
      destruct (exec now (delegatedAccessContext rq managed) d) as [[[[c2|]|e] o2] d2] eqn:E2; [done| |done]. eapply delegated_none; [exact E2|]. by exists secret, token.
    + destruct (Hk) as (bearer & Hb & _). rewrite Hb in E1. rewrite exec_bind in E1.
      destruct (exec now (delegatedAccessContext rq managed) d) as [[[[c2|]|e] o2] d2] eqn:E2; [done| |done]. pose proof (delegated_miss _ _ _ _ _ _ E2) as ->.
      destruct (exec now (apiKeyAccessContext rq managed) d) as [[r o3] d3] eqn:E3. injection E1 as -> _ _. by eapply apiKey_none.
    + revert H. rewrite Ha, Hu. cbn. by destruct (ensureManagedAccessForUser _ _ _) as [[c d3]|].
Qed.

(** Resolving a context throws, but it refuses nothing. *)
Lemma resolve_no_http now rq d status message out d' : exec now (resolveAccessContext rq) d <> (Err (HttpError status message), out, d').
Proof.
  assert (Hg : forall a w s l r ps n d e, grantWorkspaceAccess a w s l r ps n d = Err e -> e <> HttpError status message).
  { intros *. unfold grantWorkspaceAccess. repeat case_match; congruence. }
  assert (Hw : forall n a nm sl s i d e, upsertWorkspace n a nm sl s i d = Err e -> e <> HttpError status message).
  { intros *. unfold upsertWorkspace, insertWorkspace. repeat case_match; congruence. }
  assert (Hb : forall i d e, bootstrapWorkspace i now d = Err e -> e <> HttpError status message).
  { intros i d0 e. unfold bootstrapWorkspace. repeat case_match; intros [= <-]; eauto. }
  assert (He : forall u d e, ensureManagedAccessForUser u now d = Err e -> e <> HttpError status message).
  { intros u d0 e. unfold ensureManagedAccessForUser. repeat case_match; intros [= <-]; eauto. }
  assert (Hboot : forall i d, (exec now (let* context := tx (bootstrapWorkspace i) in Ret (Some context) : Handler (option AccessContext)) d).1.1 <> Err (HttpError status message)).
  { intros i d0. cbn. destruct (bootstrapWorkspace i now d0) as [[c d1]|e] eqn:E; cbn; [done|]. apply Hb in E. congruence. }
  assert (Hd : forall mode d, (exec now (delegatedAccessContext rq mode) d).1.1 <> Err (HttpError status message)).
  { intros mode d0. unfold delegatedAccessContext. by repeat case_match. }
  assert (Hk : forall mode d, (exec now (apiKeyAccessContext rq mode) d).1.1 <> Err (HttpError status message)).
  { intros mode d0. unfold apiKeyAccessContext. destruct (nonEmpty _); [|done]. cbn. by destruct (findActiveApiKeyByHash _ _ _). }
  intros H. apply (f_equal (fun x => x.1.1)) in H. revert H. change ((exec now (resolveAccessContext rq) d).1.1 <> Err (HttpError status message)).
  unfold resolveAccessContext. destruct (productAccessMode settings); [apply Hboot|..].
  - apply exec_bind_no; [apply Hd|]. intros [c|] d1; [done|]. apply exec_bind_no; [apply Hk|]. intros [c|] d2; [done|].
    destruct (nonEmpty _); [done|apply Hboot].
  - apply exec_bind_no.
    + destruct (nonEmpty _); [|done]. apply exec_bind_no; [apply Hd|]. by intros [c|] d1; [|apply Hk].
    + intros [c|] d1; [done|]. destruct (managedAuth settings); [|done]. destruct (rq_session rq) as [u|]; [|done].
      apply exec_bind_no; [|done]. cbn. destruct (ensureManagedAccessForUser u now d1) as [[c d2]|e] eqn:E; cbn; [done|]. apply He in E. congruence.
Qed.

(** Whom a request acts as, and the workspace and permissions its credential
    names: its token, else its key, else the person it comes from. *)
Inductive actor (now : Z) (rq : Request) (d : AccessDb) : jstr -> option (jstr * list jstr) -> Prop :=
| act_token payload : productAccessMode settings <> local -> presents rq payload ->
    actor now rq d (dat_subjectId payload) (Some (dat_workspaceId payload, dat_permissions payload))
| act_key k : productAccessMode settings <> local -> (forall payload, ~ presents rq payload) -> presentsKey now rq d k ->
    actor now rq d (keySubject k) ((fun w => (w, k_permissions k)) <$> k_workspaceId k)
| act_person subject : authenticated now rq d subject ->
    (productAccessMode settings <> local -> (forall payload, ~ presents rq payload) /\ forall k, ~ presentsKey now rq d k) -> actor now rq d subject None.
(** The permissions it has on a workspace: what its credential names, or a
    membership of the subject. *)
Inductive entitled (d : AccessDb) (subject : jstr) (named : option (jstr * list jstr)) (workspaceId : jstr) (permissions : list jstr) : Prop :=
| entitled_named : named = Some (workspaceId, permissions) -> entitled d subject named workspaceId permissions
| entitled_member m : m ∈ memberships d -> m_subjectId m = subject -> m_workspaceId m = workspaceId -> m_permissions m = permissions ->
    entitled d subject named workspaceId permissions.

Lemma actor_authenticated now rq d subject named : actor now rq d subject named -> authenticated now rq d subject.
Proof. destruct 1; [by apply auth_token|by apply auth_key|done]. Qed.

(** The context of a request is its actor's. *)
Definition contextOf (now : Z) (rq : Request) (d d' : AccessDb) (c : AccessContext) : Prop := exists named,
  actor now rq d (ctx_subjectId c) named /\
  Forall (fun g => entitled d' (ctx_subjectId c) named (gr_workspaceId g) (gr_permissions g)) (ctx_workspaceGrants c) /\
  forall w permissions, named = Some (w, permissions) -> exists g, g ∈ ctx_workspaceGrants c /\ gr_workspaceId g = w.
Lemma delegated_actor now rq mode d c out d' : productAccessMode settings <> local ->
  exec now (delegatedAccessContext rq mode) d = (Ok (Some c), out, d') -> contextOf now rq d d' c.
Proof.
  intros Hm. unfold delegatedAccessContext. destruct (nonEmpty (bearerToken rq)) as [token|] eqn:Et; [|done].
  destruct (nonEmpty (delegationSecret settings)) as [secret|] eqn:Es; [|done]. destruct (verifyDelegatedAccessToken _ _ _) as [[payload|]|] eqn:Ev; [|done|done].
  cbn. intros [= <- _ _]. assert (Hp : presents rq payload) by (by exists secret, token). eexists. split; [by apply act_token|]. split.
  - apply Forall_singleton. by apply entitled_named.
  - intros w permissions [= <- <-]. eexists. split; [by left|done].
Qed.
Lemma apiKey_actor now rq mode d c out d' : productAccessMode settings <> local -> (forall payload, ~ presents rq payload) ->
  exec now (apiKeyAccessContext rq mode) d = (Ok (Some c), out, d') -> contextOf now rq d d' c.
Proof.
  intros Hm Hn. unfold apiKeyAccessContext. destruct (nonEmpty (bearerToken rq)) as [bearer|] eqn:Et; [|done]. cbn.
  unfold findActiveApiKeyByHash. destruct (List.find _ _) as [k|] eqn:E; [|done]. apply find_some in E as [Hk%list_elem_of_In [Hh%same_eq Ha%activeKey_live]%andb_true_iff].
  cbn. intros [= <- _ _]. assert (Hp : presentsKey now rq d k) by (by exists bearer). eexists. split; [by apply (act_key _ _ _ k)|]. cbn.
  destruct (k_workspaceId k) as [w|]; [|by split]. split; [apply Forall_singleton; by apply entitled_named|]. intros w' permissions [= <- <-]. eexists. split; [by left|done].
Qed.
Lemma person_context now rq d d' c : authenticated now rq d (ctx_subjectId c) ->
  (productAccessMode settings <> local -> (forall payload, ~ presents rq payload) /\ forall k, ~ presentsKey now rq d k) ->
  Forall (fun g => entitled d' (ctx_subjectId c) None (gr_workspaceId g) (gr_permissions g)) (ctx_workspaceGrants c) -> contextOf now rq d d' c.
Proof. intros Ha Hn Hg. exists None. split; [by apply act_person|]. by split. Qed.
Lemma bootstrap_actor i now rq d c d' : bootstrapWorkspace i now d = Ok (c, d') -> authenticated now rq d (bi_subjectId i) ->
  (productAccessMode settings <> local -> (forall payload, ~ presents rq payload) /\ forall k, ~ presentsKey now rq d k) -> contextOf now rq d d' c.
Proof.
  unfold bootstrapWorkspace. destruct (upsertAccount _ _ _ _) as [a d1]. destruct (upsertWorkspace _ _ _ _ _ _ _) as [[w d2]|]; [|done].
  destruct (grantWorkspaceAccess _ _ _ _ _ _ _ _) as [[r d3]|] eqn:E; [|done]. intros [= <- <-] Ha Hn. apply person_context; [done..|]. apply Forall_singleton.
  destruct (granted_row _ _ _ _ _ _ _ _ _ _ E) as (m & Hm & Hw & Hs & Hp). by apply (entitled_member _ _ _ _ _ m).
Qed.
Lemma ensure_actor u now rq d c d' : ensureManagedAccessForUser u now d = Ok (c, d') -> authenticated now rq d (userSubject (u_id u)) ->
  (productAccessMode settings <> local -> (forall payload, ~ presents rq payload) /\ forall k, ~ presentsKey now rq d k) -> contextOf now rq d d' c.
Proof.
  unfold ensureManagedAccessForUser. destruct (upsertAccount _ _ _ _) as [a d1]. destruct (upsertWorkspace _ _ _ _ _ _ _) as [[w d2]|]; [|done].
  destruct (grantWorkspaceAccess _ _ _ _ _ _ _ _) as [[r d3]|] eqn:E; [|done]. intros [= <- <-] Ha Hn. apply person_context; [done..|].
  apply Forall_fmap, Forall_forall. intros p (m & Hm & Hj)%elem_of_sort_by%list_elem_of_omap. apply elem_filter in Hm as [Hm Hs%same_eq].
  unfold joined in Hj. apply fmap_Some in Hj as (w' & Hw & ->). apply find_some in Hw as [_ Hw%same_eq]. by apply (entitled_member _ _ _ _ _ m).
Qed.
Lemma resolve_actor now rq d c out d' : exec now (resolveAccessContext rq) d = (Ok (Some c), out, d') -> contextOf now rq d d' c.
Proof.
  unfold resolveAccessContext. destruct (productAccessMode settings) eqn:Em.
  - cbn. destruct (bootstrapWorkspace _ now d) as [[c1 d1]|] eqn:E; cbn; [|done]. intros [= <- _ <-].
    eapply bootstrap_actor; [exact E|by apply auth_local|by rewrite Em].
  - rewrite exec_bind. destruct (exec now (delegatedAccessContext rq configured) d) as [[[[c1|]|e] o1] d1] eqn:E1; [| |done].
    { cbn. intros [= -> _ <-]. eapply delegated_actor; [|exact E1]. congruence. }
    assert (forall payload, ~ presents rq payload) as Hp by (intros payload; by eapply delegated_none). apply delegated_miss in E1 as ->.
    rewrite exec_bind. destruct (exec now (apiKeyAccessContext rq configured) d) as [[[[c1|]|e] o2] d2] eqn:E2; [| |done].
    { cbn. intros [= -> _ <-]. eapply apiKey_actor; [|done|exact E2]. congruence. }
    assert (forall k, ~ presentsKey now rq d k) as Hk by (intros k; by eapply apiKey_none). apply apiKey_miss in E2 as ->.
    destruct (nonEmpty (delegationSecret settings)) eqn:Es; [done|].
    cbn. destruct (bootstrapWorkspace _ now d) as [[c1 d1]|] eqn:E; cbn; [|done]. intros [= <- _ <-].
    eapply bootstrap_actor; [exact E|by apply auth_configured|done].
  - rewrite exec_bind. destruct (exec now (match nonEmpty (bearerToken rq) with Some _ => _ | None => _ end) d) as [[[[c1|]|e] o1] d1] eqn:E1; [| |done].
    + cbn. intros [= -> _ <-]. destruct (nonEmpty (bearerToken rq)); [|done]. rewrite exec_bind in E1.
      destruct (exec now (delegatedAccessContext rq managed) d) as [[[[c2|]|e] o2] d2] eqn:E2; [| |done].
      * cbn in E1. injection E1 as -> _ <-. eapply delegated_actor; [|exact E2]. congruence.
      * assert (forall payload, ~ presents rq payload) as Hp by (intros payload; by eapply delegated_none). apply delegated_miss in E2 as ->.
        destruct (exec now (apiKeyAccessContext rq managed) d) as [[r o3] d3] eqn:E3. injection E1 as -> _ <-. eapply apiKey_actor; [|done|exact E3]. congruence.
    + assert (d1 = d /\ (forall payload, ~ presents rq payload) /\ forall k, ~ presentsKey now rq d k) as (-> & Hp & Hk).
      { destruct (nonEmpty (bearerToken rq)) as [t|] eqn:Et.
        - rewrite exec_bind in E1. destruct (exec now (delegatedAccessContext rq managed) d) as [[[[c2|]|e] o2] d2] eqn:E2; [done| |done].
          assert (forall payload, ~ presents rq payload) as Hp by (intros payload; by eapply delegated_none). apply delegated_miss in E2 as ->.
          destruct (exec now (apiKeyAccessContext rq managed) d) as [[r o3] d3] eqn:E3. injection E1 as -> _ <-. split; [by apply apiKey_miss in E3|].
          split; [done|]. intros k. by eapply apiKey_none.
        - injection E1 as _ <-. split; [done|]. split; [intros payload (secret & token & _ & Ht & _)|intros k (bearer & Hb & _)]; congruence. }
      destruct (managedAuth settings) eqn:Ea; [|done]. destruct (rq_session rq) as [u|] eqn:Eu; [|done]. cbn.
      destruct (ensureManagedAccessForUser u now d) as [[c1 d2]|] eqn:E2; cbn; [|done]. intros [= <- _ <-].
      eapply ensure_actor; [exact E2|by apply auth_session|done].
Qed.

Lemma no_membership subject workspaceId d m : getWorkspaceGrant subject workspaceId d = None -> is_Some (getWorkspace workspaceId d) ->
  m ∈ memberships d -> m_subjectId m = subject -> m_workspaceId m = workspaceId -> False.
Proof.
  intros Hg [w Hw] Hm Hs Hws. unfold getWorkspaceGrant in Hg. apply fmap_None in Hg. assert ((m, w) ∈ omap (joined d) (select_where (membershipOf subject workspaceId) (memberships d))) as Hin.
  { apply list_elem_of_omap. exists m. split; [apply elem_of_select_where; split; [|done]; unfold membershipOf; apply andb_true_iff; by rewrite !same_eq|].
    unfold joined. unfold getWorkspace in Hw. by rewrite Hws, Hw. }
  destruct (omap _ _); [by apply elem_of_nil in Hin|done].
Qed.

(** Who nothing authenticates is refused with 401, unless its token is a signed
    text that is no JSON, or the database fails. *)
Lemma unauthenticated_refused now rq workspaceId permission d r out d' : (forall subject, ~ authenticated now rq d subject) ->
  exec now (requireAccessGrant rq workspaceId permission) d = (r, out, d') ->
  r = Err (HttpError 401 (js "authentication required")) \/ exists e, r = Err e /\ forall status message, e <> HttpError status message.
Proof.
  intros Hn. rewrite exec_requireAccessGrant. destruct (exec now (resolveAccessContext rq) d) as [[[[c|]|e] o1] d1] eqn:E1.
  - destruct (resolve_backed _ _ _ _ _ _ E1) as [Ha _]. by destruct (Hn _ Ha).
  - intros [= <- _ _]. by left.
  - intros [= <- _ _]. right. exists e. split; [done|]. intros status message ->. by eapply resolve_no_http.
Qed.

(** (C40) Every outcome of a request: it is granted to its actor with permissions it
    is entitled to and that permit what was asked for; 401 exactly when nothing
    authenticates it (a signed token that is no JSON, and the database, may also
    throw); 404 when the workspace does not exist and no credential
    names it; 403 when it exists and the actor is not entitled to it, or is
    without the permission asked for. *)
Theorem access_outcomes now rq workspaceId permission d r out d' :
  exec now (requireAccessGrant rq workspaceId permission) d = (r, out, d') ->
  match r with
  | Ok g => exists subject named, actor now rq d subject named /\ gr_workspaceId g = workspaceId /\
      entitled d' subject named workspaceId (gr_permissions g) /\ forall p, permission = Some p -> permits (gr_permissions g) p
  | Err (HttpError status _) =>
      (status = 401 /\ forall subject, ~ authenticated now rq d subject) \/
      (exists subject named, actor now rq d subject named /\
        (status = 404 /\ getWorkspace workspaceId d' = None /\ (forall permissions, named <> Some (workspaceId, permissions)) \/
         status = 403 /\ is_Some (getWorkspace workspaceId d') /\ (forall permissions, ~ entitled d' subject named workspaceId permissions) \/
         status = 403 /\ exists p permissions, permission = Some p /\ entitled d' subject named workspaceId permissions /\ ~ permits permissions p))
  | Err _ => True
  end /\
  ((forall subject, ~ authenticated now rq d subject) ->
    r = Err (HttpError 401 (js "authentication required")) \/ exists e, r = Err e /\ forall status message, e <> HttpError status message).
Proof.
  intros He. split; [|intros Hn; by eapply unauthenticated_refused]. revert He.
  rewrite exec_requireAccessGrant. destruct (exec now (resolveAccessContext rq) d) as [[[[c|]|e] o1] d1] eqn:E1.
  - destruct (resolve_actor _ _ _ _ _ _ E1) as (named & Ha & Hg & Hnamed). rewrite Forall_forall in Hg. intros [= <- _ ->]. unfold answerOf.
    assert (forall g, grantOf c workspaceId d' = Some g -> gr_workspaceId g = workspaceId /\ entitled d' (ctx_subjectId c) named workspaceId (gr_permissions g)) as Hgrant.
    { intros g. unfold grantOf. destruct (List.find _ _) as [g0|] eqn:Ef.
      - intros [= ->]. apply find_some in Ef as [Hin%list_elem_of_In Hw%same_eq]. split; [done|]. rewrite <- Hw. by apply Hg.
      - intros Eg. unfold getWorkspaceGrant in Eg. apply fmap_Some in Eg as ([m w] & Hj & ->).
        apply head_elem, list_elem_of_omap in Hj as (m0 & [Hm [Hs%same_eq Hw%same_eq]%andb_true_iff]%elem_filter & Hj). unfold joined in Hj. apply fmap_Some in Hj as (w0 & Hw0 & [= <- <-]).
        apply find_some in Hw0 as [_ Hw0%same_eq]. cbn. split; [congruence|]. by apply (entitled_member _ _ _ _ _ m). }
    destruct (grantOf c workspaceId d') as [g|] eqn:Eg.
    + destruct (Hgrant g eq_refl) as [Hw He]. destruct permission as [p|]; [|by exists (ctx_subjectId c), named].
      destruct (hasPermission (gr_permissions g) p) eqn:Ep.
      * exists (ctx_subjectId c), named. split_and!; [done..|]. intros ? [= <-]. by apply hasPermission_permits.
      * right. exists (ctx_subjectId c), named. split; [done|]. right. right. split; [done|]. exists p, (gr_permissions g). split_and!; [done..|].
        intros H%hasPermission_permits. congruence.
    + unfold grantOf in Eg. destruct (List.find _ _) eqn:Ef; [done|]. assert (forall permissions, named <> Some (workspaceId, permissions)) as Hno.
      { intros permissions Hn. destruct (Hnamed _ _ Hn) as (g & Hin%list_elem_of_In & Hw%same_eq). pose proof (find_none _ _ Ef g Hin). cbn in *. congruence. }
      destruct (getWorkspace workspaceId d') as [w|] eqn:Ew; right; exists (ctx_subjectId c), named; (split; [done|]); [right; left|by left].
      split; [done|]. split; [by eexists|]. intros permissions [Hn|m H1 H2 H3 _]; [by eapply Hno|]. eapply no_membership; [exact Eg|by eexists|done..].
  - intros [= <- _ _]. left. split; [done|]. intros subject. by eapply resolve_none.
  - intros [= <- _ _]. destruct e as [status message| |]; [|done..]. exfalso. by eapply resolve_no_http.
Qed.

End platform.
End Access.
