(* ===== verification/AccessRoutes.v ===== *)
(** * The routes that hand out access ([apps/api/src/routes/workspaces.ts],
      [apps/api/src/routes/api-keys.ts] and [packages/core/src/domain/workspace-members.ts])

    Workspaces, members and API keys are created, changed and removed by
    handlers that first ask for a grant.  What they do under any interleaving is
    stated of a pool of such handlers. *)
From stdpp Require Import pretty.
From S2P Require Import Prelude Json Sql Tokens Activity Access.
#[local] Open Scope Z_scope.
#[local] Open Scope opengeni_scope.

Module AccessRoutes.
Import Activity Tokens Access.

Section platform.
Context `{tokens : TokenPlatform} `{digests : DigestPlatform} (settings : Settings).
Abbreviation requireAccessContext := (requireAccessContext settings).
Abbreviation requireAccessGrant := (requireAccessGrant settings).


(** A verdict of [requireLimit] (Limits.v), or a read of another table: an
    outcome the handler is given. *)
Abbreviation Verdict := (result (Z * jstr) unit).
Definition requireLimit (verdict : Verdict) : Handler unit :=
  match verdict with Ok _ => Ret tt | Err (status, message) => refuse status message end.

(** [POST /v1/workspaces/:workspaceId/api-keys]; [token] is [generateApiKeyToken()]. *)
Record CreateApiKeyRequest := { ck_name : jstr; ck_permissions : list jstr; ck_expiresAt : option Z }.
Fixpoint commaSeparated (l : list jstr) : jstr :=
  match l with [] => [] | [p] => p | p :: l => p ++ js ", " ++ commaSeparated l end.
Definition ensureDelegablePermissions (grantPermissions requested : list jstr) : Handler unit :=
  if includes grantPermissions (js "workspace:admin") then Ret tt
  else match List.filter (fun p => negb (includes grantPermissions p)) requested with
       | [] => Ret tt
       | missing => refuse 403 (js "cannot delegate missing permissions: " ++ commaSeparated missing)
       end.
Definition requestedPermissions (body : CreateApiKeyRequest) : list jstr :=
  match ck_permissions body with [] => [js "workspace:read"] | ps => ps end.
Definition createApiKeyRoute (rq : Request) (workspaceId : jstr) (body : CreateApiKeyRequest) (verdict : Verdict) (token : jstr) : Handler ApiKeyRow :=
  let* grant := requireAccessGrant rq workspaceId (Some (js "api_keys:manage")) in
  let permissions := requestedPermissions body in
  ensureDelegablePermissions (gr_permissions grant) permissions ;;
  requireLimit verdict ;;
  tx (fun _ => createApiKey (gr_accountId grant) (Some (gr_workspaceId grant)) (ck_name body) (take 14 token) (sha256Hex token) permissions (ck_expiresAt body)).

(** [DELETE /v1/workspaces/:workspaceId/api-keys/:apiKeyId] *)
Definition revokeApiKeyRoute (rq : Request) (workspaceId apiKeyId : jstr) : Handler ApiKeyRow :=
  let* _ := requireAccessGrant rq workspaceId (Some (js "api_keys:manage")) in
  tx (fun now => revokeApiKey now workspaceId apiKeyId).

(** [POST /v1/workspaces] *)
Record CreateWorkspaceRequest := {
  cw_accountId : option jstr; cw_name : jstr; cw_slug : option jstr; cw_externalSource : option jstr; cw_externalId : option jstr }.
Definition requireAccountPermission (context : AccessContext) (accountId permission : jstr) : Handler unit :=
  match List.find (fun g => same (ag_accountId g) accountId) (ctx_accountGrants context) with
  | Some grant =>
      if includes (ag_permissions grant) permission || includes (ag_permissions grant) (js "account:admin") then Ret tt
      else refuse 403 (js "missing permission: " ++ permission)
  | None => refuse 403 (js "missing permission: " ++ permission)
  end.
Definition createWorkspace (accountId : jstr) (body : CreateWorkspaceRequest) (now : Z) (d : AccessDb) : result AccessError (WorkspaceRow * AccessDb) :=
  if existsb (fun a => same (a_id a) accountId) (accounts d)
  then insertWorkspace {| w_id := generated (fresh d); w_accountId := accountId; w_name := trim (cw_name body);
         w_slug := nonEmpty (trim <$> cw_slug body); w_externalSource := cw_externalSource body; w_externalId := cw_externalId body; w_createdAt := now |} d
  else Err (Thrown "insert or update violates foreign key constraint").
Definition createWorkspaceRoute (rq : Request) (body : CreateWorkspaceRequest) (verdict : Verdict) : Handler WorkspaceRow :=
  let* context := requireAccessContext rq in
  match nonEmpty (match cw_accountId body with Some a => Some a | None => ctx_defaultAccountId context end) with
  | None => refuse 409 (js "account selection is required")
  | Some accountId =>
      requireAccountPermission context accountId (js "workspace:create") ;;
      requireLimit verdict ;;
      let* workspace := tx (createWorkspace accountId body) in
      tx (grantWorkspaceAccess accountId (w_id workspace) (ctx_subjectId context) (nonEmpty (ctx_subjectLabel context)) (js "owner") allWorkspacePermissions) ;;
      Ret workspace
  end.

Definition listMembers (workspaceId : jstr) : Handler (list MembershipRow) :=
  tx (fun _ d => match listWorkspaceMembers workspaceId d with Ok l => Ok (l, d) | Err e => Err e end).
Definition memberNamed (subjectId : jstr) (members : list MembershipRow) : option MembershipRow :=
  List.find (fun m => same (m_subjectId m) subjectId) members.

(** [POST /v1/workspaces/:workspaceId/members]; [getManagedUserByEmail] is the
    user directory's answer. *)
Record AddWorkspaceMemberRequest := { am_email : jstr; am_role : option jstr; am_permissions : list jstr }.
Definition resolveMemberSubjectId (userId : option jstr) : Handler jstr :=
  match nonEmpty userId with None => refuse 404 (js "user is not registered") | Some userId => Ret (userSubject userId) end.
Definition addMemberRoute (rq : Request) (workspaceId : jstr) (body : AddWorkspaceMemberRequest) (getManagedUserByEmail : jstr -> option jstr) : Handler MembershipRow :=
  let* grant := requireAccessGrant rq workspaceId (Some (js "members:manage")) in
  let email := trim (am_email body) in
  let* subjectId := resolveMemberSubjectId (getManagedUserByEmail email) in
  tx (grantWorkspaceAccess (gr_accountId grant) workspaceId subjectId (Some email) (default (js "member") (am_role body)) (am_permissions body)) ;;
  let* members := listMembers workspaceId in
  match memberNamed subjectId members with None => refuse 500 (js "failed to add member") | Some member => Ret member end.

(** [PATCH /v1/workspaces/:workspaceId/members/:subjectId] *)
Record UpdateWorkspaceMemberRequest := { um_role : option jstr; um_permissions : list jstr }.
Definition updateMemberRoute (rq : Request) (workspaceId subjectId : jstr) (body : UpdateWorkspaceMemberRequest) : Handler MembershipRow :=
  let* grant := requireAccessGrant rq workspaceId (Some (js "members:manage")) in
  let* existing := listMembers workspaceId in
  match memberNamed subjectId existing with
  | None => refuse 404 (js "member not found")
  | Some current =>
      tx (grantWorkspaceAccess (gr_accountId grant) workspaceId subjectId (nonEmpty (m_subjectLabel current))
            (default (m_role current) (um_role body)) (um_permissions body)) ;;
      let* members := listMembers workspaceId in
      match memberNamed subjectId members with None => refuse 500 (js "failed to update member") | Some member => Ret member end
  end.

(** [DELETE /v1/workspaces/:workspaceId/members/:subjectId] *)
Definition memberCanAdminister (m : MembershipRow) : bool :=
  existsb (fun p => same p (js "workspace:admin") || same p (js "members:manage")) (m_permissions m).
Definition assertWorkspaceMemberRemovable (members : list MembershipRow) (subjectId callerSubjectId : jstr) : Handler unit :=
  if same subjectId callerSubjectId then refuse 409 (js "you cannot remove your own membership")
  else match memberNamed subjectId members with
       | None => refuse 404 (js "member not found")
       | Some target =>
           if memberCanAdminister target
              && match List.filter (fun m => negb (same (m_subjectId m) subjectId) && memberCanAdminister m) members with [] => true | _ :: _ => false end
           then refuse 409 (js "cannot remove the last member who can manage this workspace")
           else Ret tt
       end.
Definition removeMemberRoute (rq : Request) (workspaceId subjectId : jstr) : Handler unit :=
  let* grant := requireAccessGrant rq workspaceId (Some (js "members:manage")) in
  let* members := listMembers workspaceId in
  assertWorkspaceMemberRemovable members subjectId (gr_subjectId grant) ;;
  let* _ := tx (fun _ => removeWorkspaceMember workspaceId subjectId) in
  Ret tt.

(** [DELETE /v1/workspaces/:workspaceId], with the active sessions and the
    schedules the other tables list. *)
Definition assertWorkspaceDeletable (workspaceCountForAccount activeSessionCount : Z) : Handler unit :=
  if workspaceCountForAccount <=? 1 then refuse 409 (js "cannot delete the account's only workspace")
  else if 0 <? activeSessionCount then refuse 409 (js "stop the workspace's running sessions before deleting it")
  else Ret tt.
Definition deleteWorkspaceRoute (rq : Request) (workspaceId : jstr) (activeSessionCount : Z) (schedules : list jstr) : Handler unit :=
  let* grant := requireAccessGrant rq workspaceId (Some (js "workspace:admin")) in
  let* workspaceCount := read (fun d => count_where (fun w => same (w_accountId w) (gr_accountId grant)) (workspaces d)) in
  assertWorkspaceDeletable workspaceCount activeSessionCount ;;
  List.fold_right (fun id m => emit (DeleteSchedule id) ;; m) (Ret tt) schedules ;;
  write (fun _ => deleteWorkspace workspaceId).

(** ** Interleaved requests *)

Definition done_with {A} (m : Handler A) : Handler unit := bind m (fun _ => Ret tt).
Definition apiKeyPrefix : jstr := js "api_key:".
(** The delegation secret signs no token in the name of an API key; the tokens
    the program mints name workers, sandboxes and users. *)
Definition honest (rq : Request) : Prop := forall secret token payload,
  delegationSecret settings = Some secret -> bearerToken rq = Some token ->
  verifyDelegatedAccessToken secret token (rq_now rq) = Ok (Some payload) -> startsWith apiKeyPrefix (dat_subjectId payload) = false.

(** Every handler that writes to the access tables, and any request at all. *)
Inductive access_task : Handler unit -> Prop :=
| task_createKey rq ws body verdict token : honest rq -> access_task (done_with (createApiKeyRoute rq ws body verdict token))
| task_revokeKey rq ws id : honest rq -> access_task (done_with (revokeApiKeyRoute rq ws id))
| task_createWorkspace rq body verdict : honest rq -> access_task (done_with (createWorkspaceRoute rq body verdict))
| task_addMember rq ws body users : honest rq -> access_task (done_with (addMemberRoute rq ws body users))
| task_updateMember rq ws subject body : honest rq -> access_task (done_with (updateMemberRoute rq ws subject body))
| task_removeMember rq ws subject : honest rq -> access_task (done_with (removeMemberRoute rq ws subject))
| task_deleteWorkspace rq ws active schedules : honest rq -> access_task (done_with (deleteWorkspaceRoute rq ws active schedules))
| task_any rq ws permission : honest rq -> access_task (done_with (requireAccessGrant rq ws permission)).

(** What holds of the tables at all times: keys belong to a workspace, their
    hashes and ids are distinct, and no membership names a key. *)
Record access_ok (d : AccessDb) : Prop := {
  ok_scoped : forall k, k ∈ apiKeys d -> is_Some (k_workspaceId k);
  ok_hashes : NoDup (List.map k_keyHash (apiKeys d));
  ok_ids : NoDup (List.map k_id (apiKeys d));
  ok_generated : forall k, k ∈ apiKeys d -> exists n, k_id k = generated n /\ (n < fresh d)%nat;
  ok_members : forall m, m ∈ memberships d -> startsWith apiKeyPrefix (m_subjectId m) = false
}.

(** What never changes of a key; a revocation is final. *)
Definition credential (k : ApiKeyRow) := (k_id k, k_accountId k, k_workspaceId k, k_keyHash k, k_permissions k, k_expiresAt k).
Record later (d d' : AccessDb) : Prop := {
  later_fresh : (fresh d <= fresh d')%nat;
  later_keys : forall k', k' ∈ apiKeys d' -> (exists n, k_id k' = generated n /\ (fresh d <= n)%nat) \/
    exists k, k ∈ apiKeys d /\ credential k' = credential k /\ (k_revokedAt k <> None -> k_revokedAt k' <> None)
}.

#[export] Instance later_preorder : PreOrder later.
Proof.
  split.
  - intros d. split; [done|]. intros k Hk. right. by exists k.
  - intros d1 d2 d3 [F1 K1] [F2 K2]. split; [lia|]. intros k3 H3. destruct (K2 k3 H3) as [(n & Hn & Hl)|(k2 & H2 & E2 & R2)]; [left; exists n; split; [done|lia]|].
    destruct (K1 k2 H2) as [(n & Hn & Hl)|(k1 & H1 & E1 & R1)].
    + left. exists n. split; [|lia]. unfold credential in E2. congruence.
    + right. exists k1. split_and!; [done|congruence|auto].
Qed.

(** A transaction that leaves the keys and the subjects of memberships alone. *)
Lemma keys_alone d d' : (fresh d <= fresh d')%nat -> apiKeys d' = apiKeys d ->
  (forall m, m ∈ memberships d' -> m ∈ memberships d \/ startsWith apiKeyPrefix (m_subjectId m) = false) ->
  access_ok d -> access_ok d' /\ later d d'.
Proof.
  intros Hf Hk Hm [H1 H2 H3 H4 H5]. split.
  - split; rewrite ?Hk; [done..| |].
    + intros k (n & Hn & Hl)%H4. exists n. split; [done|lia].
    + intros m [H|H]%Hm; auto.
  - split; [done|]. rewrite Hk. intros k Hk'. right. by exists k.
Qed.

Abbreviation wp := (Activity.wp (E := AccessError) (O := Outgoing) access_ok later).
Abbreviation safe := (Activity.safe (E := AccessError) (O := Outgoing) access_ok later).

Lemma ok_accounts name source id d : let d' := (upsertAccount name source id d).2 in
  (fresh d <= fresh d')%nat /\ apiKeys d' = apiKeys d /\ memberships d' = memberships d.
Proof. unfold upsertAccount. destruct (List.find _ _); cbn; split_and!; done || lia. Qed.
Lemma ok_insertWorkspace r d w d' : insertWorkspace r d = Ok (w, d') ->
  (fresh d <= fresh d')%nat /\ apiKeys d' = apiKeys d /\ memberships d' = memberships d.
Proof. unfold insertWorkspace. destruct (existsb _ _); [done|]. intros [= _ <-]. cbn. split_and!; done || lia. Qed.
Lemma ok_upsertWorkspace now accountId name slug source id d w d' : upsertWorkspace now accountId name slug source id d = Ok (w, d') ->
  (fresh d <= fresh d')%nat /\ apiKeys d' = apiKeys d /\ memberships d' = memberships d.
Proof. unfold upsertWorkspace. destruct (List.find _ _); [by intros [= _ <-]|apply ok_insertWorkspace]. Qed.

Lemma ok_grant accountId ws subject label role permissions now d r d' :
  grantWorkspaceAccess accountId ws subject label role permissions now d = Ok (r, d') ->
  fresh d' = fresh d /\ apiKeys d' = apiKeys d /\
  (forall m, m ∈ memberships d' -> (exists m0, m0 ∈ memberships d /\ m_subjectId m0 = m_subjectId m) \/ m_subjectId m = subject).
Proof.
  unfold grantWorkspaceAccess. destruct (existsb _ _).
  - intros [= _ <-]. cbn. split_and!; [done..|]. intros m (m0 & Hm & ->)%elem_of_update_where. left. exists m0. split; [done|]. by destruct (membershipOf _ _ _).
  - destruct (getWorkspace _ _); [|done]. intros [= _ <-]. cbn. split_and!; [done..|].
    intros m [H|H%list_elem_of_singleton]%elem_of_app; [left; by exists m|right; by subst m].
Qed.

(** Subjects that are not keys. *)
Abbreviation keyless s := (startsWith apiKeyPrefix s = false).
Lemma keyless_user u : keyless (userSubject u).
Proof. by apply bool_decide_eq_false_2. Qed.
Lemma keyless_configured rq : keyless (configuredSubject rq).
Proof. unfold configuredSubject. destruct (rq_subject rq) as [h|]; [destruct (trim h)|]; by apply bool_decide_eq_false_2. Qed.
Lemma keySubject_key k : startsWith apiKeyPrefix (keySubject k) = true.
Proof. apply bool_decide_eq_true_2. unfold keySubject. by rewrite take_app_length. Qed.

Definition steady {R} (op : Z -> AccessDb -> result AccessError (R * AccessDb)) : Prop :=
  forall now d r d', access_ok d -> op now d = Ok (r, d') -> access_ok d' /\ later d d'.

Lemma steady_bootstrap i : keyless (bi_subjectId i) -> steady (bootstrapWorkspace i).
Proof.
  intros Hs now d r d' Hok. unfold bootstrapWorkspace. pose proof (ok_accounts (bi_accountName i) (bi_source i) (js "default") d) as (F1 & K1 & M1).
  destruct (upsertAccount _ _ _ _) as [a d1]. cbn in *. destruct (upsertWorkspace _ _ _ _ _ _ _) as [[w d2]|] eqn:E2; [|done]. apply ok_upsertWorkspace in E2 as (F2 & K2 & M2).
  destruct (grantWorkspaceAccess _ _ _ _ _ _ _ _) as [[[] d3]|] eqn:E3; [|done]. apply ok_grant in E3 as (F3 & K3 & M3). intros [= _ <-].
  apply keys_alone; [lia|congruence| |done]. intros m [(m0 & Hm & E)| ->]%M3; [|by right]. right. rewrite <- E. apply (ok_members _ Hok). congruence.
Qed.

Lemma steady_ensure u : steady (ensureManagedAccessForUser u).
Proof.
  intros now d r d' Hok. unfold ensureManagedAccessForUser.
  pose proof (ok_accounts (orElse (u_name u) (u_email u)) (js "better-auth:user") (u_id u) d) as (F1 & K1 & M1).
  destruct (upsertAccount _ _ _ _) as [a d1]. cbn [fst snd] in *. destruct (upsertWorkspace _ _ _ _ _ _ _) as [[w d2]|] eqn:E2; [|done]. apply ok_upsertWorkspace in E2 as (F2 & K2 & M2).
  destruct (grantWorkspaceAccess _ _ _ _ _ _ _ _) as [[[] d3]|] eqn:E3; [|done]. apply ok_grant in E3 as (F3 & K3 & M3). intros [= _ <-].
  apply keys_alone; [lia|congruence| |done]. intros m [(m0 & Hm & E)| ->]%M3; [|right; apply keyless_user]. right. rewrite <- E. apply (ok_members _ Hok). congruence.
Qed.

Lemma steady_grant accountId ws subject label role permissions : keyless subject -> steady (grantWorkspaceAccess accountId ws subject label role permissions).
Proof.
  intros Hs now d r d' Hok (F & K & M)%ok_grant. apply keys_alone; [lia|done| |done].
  intros m [(m0 & Hm & E)| ->]%M; [|by right]. right. rewrite <- E. by apply (ok_members _ Hok).
Qed.

Lemma steady_createWorkspace accountId body : steady (createWorkspace accountId body).
Proof.
  intros now d r d' Hok. unfold createWorkspace. destruct (existsb _ _); [|done]. intros (F & K & M)%ok_insertWorkspace.
  apply keys_alone; [lia|done| |done]. intros m Hm. left. congruence.
Qed.

(** Updates that leave what identifies a key. *)
Lemma keys_updated p f d d' : (forall k, p k = true -> credential (f k) = credential k /\ (k_revokedAt k <> None -> k_revokedAt (f k) <> None)) ->
  fresh d' = fresh d -> memberships d' = memberships d -> apiKeys d' = update_where p f (apiKeys d) -> access_ok d -> access_ok d' /\ later d d'.
Proof.
  intros Hf Hn Hm Hk [H1 H2 H3 H4 H5].
  assert (Hc : forall k', k' ∈ apiKeys d' -> exists k, k ∈ apiKeys d /\ credential k' = credential k /\ (k_revokedAt k <> None -> k_revokedAt k' <> None)).
  { rewrite Hk. intros k' (k & Hin & ->)%elem_of_update_where. exists k. split; [done|]. destruct (p k) eqn:E; [by apply Hf|done]. }
  assert (Hkey : forall {A} (g : ApiKeyRow -> A), (forall k k', credential k' = credential k -> g k' = g k) -> List.map g (apiKeys d') = List.map g (apiKeys d)).
  { intros A g Hg. rewrite Hk. apply map_update_where. intros k Hp. apply Hg, Hf, Hp. }
  split; [split|split].
  - intros k' (k & Hin & E & _)%Hc. destruct (H1 k Hin) as [w Hw]. exists w. unfold credential in E. congruence.
  - rewrite Hkey; [done|]. unfold credential. congruence.
  - rewrite Hkey; [done|]. unfold credential. congruence.
  - intros k' (k & Hin & E & _)%Hc. destruct (H4 k Hin) as (n & Hid & Hl). exists n. unfold credential in E. rewrite Hn. split; [congruence|done].
  - by rewrite Hm.
  - lia.
  - intros k' Hin%Hc. by right.
Qed.

Lemma keys_deleted p d d' : fresh d' = fresh d -> (forall m, m ∈ memberships d' -> m ∈ memberships d) -> apiKeys d' = delete_where p (apiKeys d) ->
  access_ok d -> access_ok d' /\ later d d'.
Proof.
  intros Hn Hm Hk [H1 H2 H3 H4 H5].
  assert (Hc : forall k, k ∈ apiKeys d' -> k ∈ apiKeys d) by (rewrite Hk; by intros k [? _]%elem_filter).
  split; [split|split].
  - auto.
  - rewrite Hk. by apply NoDup_map_filter.
  - rewrite Hk. by apply NoDup_map_filter.
  - intros k (n & ? & ?)%Hc%H4. exists n. by rewrite Hn.
  - auto.
  - lia.
  - intros k Hk'. right. exists k. auto.
Qed.

Lemma steady_find hash : steady (fun now d => Ok (findActiveApiKeyByHash hash now d)).
Proof.
  intros now d r d' Hok. unfold findActiveApiKeyByHash. destruct (List.find _ _) as [k|]; intros [= _ <-]; [|split; [done|reflexivity]].
  by eapply (keys_updated (fun r => same (k_id r) (k_id k)) (fun r => r <| k_lastUsedAt := Some now |>)).
Qed.

Lemma steady_revoke ws id : steady (fun now => revokeApiKey now ws id).
Proof.
  intros now d r d' Hok. unfold revokeApiKey. destruct (getWorkspace _ _); [|done]. destruct (updated_rows _ _ _); [done|]. intros [= _ <-].
  by eapply (keys_updated (keyOf ws id) (fun k => k <| k_revokedAt := Some now |>)).
Qed.

Lemma steady_createKey accountId ws name prefix hash permissions expiresAt :
  steady (fun _ => createApiKey accountId (Some ws) name prefix hash permissions expiresAt).
Proof.
  intros now d r d' [H1 H2 H3 H4 H5]. unfold createApiKey. destruct (existsb _ _) eqn:Eh; [done|]. destruct (negb _); [done|]. intros [= _ <-].
  split; [split|split]; cbn.
  - intros k [Hk|Hk%list_elem_of_singleton]%elem_of_app; [by apply H1|]. subst k. by exists ws.
  - rewrite List.map_app. apply NoDup_app. split_and!; [done| |apply NoDup_singleton]. intros h Hh ->%list_elem_of_singleton.
    apply list_elem_of_fmap in Hh as (k & Ek & Hk). enough (existsb (fun k => same (k_keyHash k) hash) (apiKeys d) = true) by congruence.
    apply existsb_exists. exists k. rewrite <- list_elem_of_In. split; [done|]. apply bool_decide_eq_true_2. by rewrite <- Ek.
  - rewrite List.map_app. apply NoDup_app. split_and!; [done| |apply NoDup_singleton]. intros h Hh ->%list_elem_of_singleton.
    apply list_elem_of_fmap in Hh as (k & Ek & Hk). destruct (H4 k Hk) as (n & Hn & Hl). rewrite <- Ek in Hn. apply generated_inj in Hn. lia.
  - intros k [(n & Hn & Hl)%H4|Hk%list_elem_of_singleton]%elem_of_app; [exists n; split; [done|lia]|]. subst k. exists (fresh d). split; [done|lia].
  - done.
  - lia.
  - intros k [Hk|Hk%list_elem_of_singleton]%elem_of_app; [right; by exists k|]. left. subst k. by exists (fresh d).
Qed.

Lemma steady_remove ws subject : steady (fun _ => removeWorkspaceMember ws subject).
Proof.
  intros now d r d' Hok. unfold removeWorkspaceMember. destruct (trim subject); [done|]. destruct (getWorkspace _ _); [|done].
  destruct (existsb _ _); intros [= _ <-]; [|split; [done|reflexivity]]. apply keys_alone; [done|done| |done]. intros m [Hm _]%elem_filter. by left.
Qed.

Lemma steady_delete ws : steady (fun _ d => Ok (tt, deleteWorkspace ws d)).
Proof.
  intros now d r d' Hok [= _ <-]. eapply keys_deleted; [done| |done|done]. by intros m [Hm _]%elem_filter.
Qed.

Lemma steady_listMembers ws : steady (fun _ d => match listWorkspaceMembers ws d with Ok l => Ok (l, d) | Err e => Err e end).
Proof. intros now d r d' Hok. destruct (listWorkspaceMembers _ _); [|done]. intros [= _ <-]. split; [done|reflexivity]. Qed.

Lemma wp_steady {R} (op : Z -> AccessDb -> result AccessError (R * AccessDb)) (Q : R -> AccessDb -> Prop) d : steady op ->
  (forall now d1 r d2, access_ok d1 -> op now d1 = Ok (r, d2) -> Q r d2) -> wp (tx op : Handler R) Q d.
Proof. intros Hop HQ. apply (Activity.wp_tx access_ok later). intros d1 now r d2 _ Hok H. destruct (Hop now d1 r d2 Hok H). split_and!; [done..|exact (HQ now d1 r d2 Hok H)]. Qed.
Lemma safe_steady {R} (op : Z -> AccessDb -> result AccessError (R * AccessDb)) d : steady op -> safe (tx op : Handler R) d.
Proof. intros Hop. by apply wp_steady. Qed.

(** ** What a context may do *)

Definition mayCreate (g : AccountGrant) : bool :=
  includes (ag_permissions g) (js "workspace:create") || includes (ag_permissions g) (js "account:admin").
(** In the name of a key only if it may not create workspaces. *)
Definition ctx_ok (c : AccessContext) : Prop := keyless (ctx_subjectId c) \/ Forall (fun g => mayCreate g = false) (ctx_accountGrants c).
Definition answer_ok (c : option AccessContext) : Prop := match c with Some c => ctx_ok c | None => True end.

Lemma billing_creates ps : includes (List.filter isBilling ps) (js "workspace:create") = false /\ includes (List.filter isBilling ps) (js "account:admin") = false.
Proof.
  assert (H : forall x, isBilling x = false -> includes (List.filter isBilling ps) x = false).
  { intros x Hx. apply not_true_iff_false. intros (y & [_ Hy]%filter_In & E)%existsb_exists. apply bool_decide_eq_true in E. congruence. }
  split; apply H; reflexivity.
Qed.

Lemma key_context_ok mode k : is_Some (k_workspaceId k) -> ctx_ok (apiKeyContext mode k).
Proof.
  intros [w Hw]. right. constructor; [|constructor]. unfold mayCreate. cbn [ag_permissions]. rewrite Hw. by destruct (billing_creates (k_permissions k)) as [-> ->].
Qed.

Lemma wp_apiKey rq mode d : wp (apiKeyAccessContext rq mode) (fun c _ => answer_ok c) d.
Proof.
  unfold apiKeyAccessContext. destruct (nonEmpty _) as [bearer|]; [|done]. apply (wp_then _ _ (fun k _ => match k with Some k => is_Some (k_workspaceId k) | None => True end)).
  - apply wp_steady; [apply steady_find|]. intros now d1 r d2 Hok. unfold findActiveApiKeyByHash. destruct (List.find _ _) as [k|] eqn:E; intros [= <- _]; [|done].
    apply find_some in E as [Hk _]. cbn. apply (ok_scoped _ Hok). by apply list_elem_of_In.
  - intros [k|] d1 Hk; [|done]. by apply key_context_ok.
Qed.

Lemma wp_delegated rq mode d : honest rq -> wp (delegatedAccessContext settings rq mode) (fun c _ => answer_ok c) d.
Proof.
  intros Hh. unfold delegatedAccessContext. destruct (nonEmpty (bearerToken rq)) as [token|] eqn:Et; [|done].
  destruct (nonEmpty (delegationSecret settings)) as [secret|] eqn:Es; [|done].
  destruct (verifyDelegatedAccessToken _ _ _) as [[payload|]|] eqn:Ev; [|done|done]. left. cbn.
  apply (Hh secret token payload); [by destruct (delegationSecret settings) as [[|]|]|by destruct (bearerToken rq) as [[|]|]|done].
Qed.

Lemma wp_resolve rq d : honest rq -> wp (resolveAccessContext settings rq) (fun c _ => answer_ok c) d.
Proof.
  intros Hh. unfold resolveAccessContext.
  assert (Hboot : forall i d, keyless (bi_subjectId i) -> wp (let* context := tx (bootstrapWorkspace i) in Ret (Some context)) (fun c _ => answer_ok c) d).
  { intros i d1 Hi. apply (wp_then _ _ (fun c _ => ctx_subjectId c = bi_subjectId i)); [|intros c d2 E; left; by rewrite E].
    apply wp_steady; [by apply steady_bootstrap|]. intros now d2 r d3 _. unfold bootstrapWorkspace. destruct (upsertAccount _ _ _ _) as [a d4].
    destruct (upsertWorkspace _ _ _ _ _ _ _) as [[w d5]|]; [|done]. destruct (grantWorkspaceAccess _ _ _ _ _ _ _ _) as [[? d6]|]; [|done]. by intros [= <- _]. }
  destruct (productAccessMode settings).
  - by apply Hboot.
  - eapply wp_then; [by apply wp_delegated|]. intros [c|] d1 Hc; [exact Hc|]. eapply wp_then; [apply wp_apiKey|].
    intros [c|] d2 Hc2; [exact Hc2|]. destruct (nonEmpty _); [done|]. apply Hboot, keyless_configured.
  - eapply (wp_then _ _ (fun c _ => answer_ok c)).
    + destruct (nonEmpty _); [|done]. eapply wp_then; [by apply wp_delegated|]. intros [c|] d1 Hc; [exact Hc|apply wp_apiKey].
    + intros [c|] d1 Hc; [exact Hc|]. destruct (managedAuth settings); [|done]. destruct (rq_session rq) as [u|]; [|done].
      apply (wp_then _ _ (fun c _ => ctx_subjectId c = userSubject (u_id u))); [|intros c d2 E; left; rewrite E; apply keyless_user].
      apply wp_steady; [apply steady_ensure|]. intros now d2 r d3 _. unfold ensureManagedAccessForUser. destruct (upsertAccount _ _ _ _) as [a d4].
      destruct (upsertWorkspace _ _ _ _ _ _ _) as [[w d5]|]; [|done]. destruct (grantWorkspaceAccess _ _ _ _ _ _ _ _) as [[? d6]|]; [|done]. by intros [= <- _].
Qed.

Lemma wp_context rq d : honest rq -> wp (requireAccessContext rq) (fun c _ => ctx_ok c) d.
Proof. intros Hh. eapply wp_then; [by apply wp_resolve|]. intros [c|] d1 Hc; [exact Hc|done]. Qed.

Lemma safe_grant rq ws permission d : honest rq -> safe (requireAccessGrant rq ws permission) d.
Proof.
  intros Hh. unfold Access.requireAccessGrant. eapply wp_then; [by apply wp_context|]. intros c d1 _. apply safe_bind.
  { destruct (List.find _ _); [done|apply safe_read]. }
  intros [g|] d2.
  - destruct permission as [p|]; [|done]. apply safe_bind; [|done]. unfold requirePermission. by destruct (hasPermission _ _).
  - apply safe_bind; [|by intros [w|]]. apply safe_catch; [done|]. apply safe_bind; [apply safe_read|done].
Qed.

#[local] Hint Extern 1 (Activity.safe _ _ (read _) _) => apply safe_read : access.
#[local] Hint Resolve safe_steady steady_revoke steady_createKey steady_remove steady_listMembers steady_delete keyless_user : access.
Lemma safe_listMembers ws d : safe (listMembers ws) d.
Proof. apply safe_steady, steady_listMembers. Qed.
#[local] Hint Resolve safe_grant safe_listMembers steady_grant : access.
(** Handlers whose every step is safe. *)
Ltac handler :=
  repeat match goal with
  | |- Activity.wp _ _ (Activity.bind _ _) _ _ => apply safe_bind; [|intros ? ?]
  | |- Activity.safe _ _ (Activity.bind _ _) _ => apply safe_bind; [|intros ? ?]
  | |- Activity.safe _ _ (match ?x with _ => _ end) _ => destruct x
  | _ => first [done | solve [auto with access]]
  end.

Lemma safe_createWorkspace rq body verdict d : honest rq -> safe (createWorkspaceRoute rq body verdict) d.
Proof.
  intros Hh. unfold createWorkspaceRoute. eapply wp_then; [by apply wp_context|]. intros c d1 Hc. destruct (nonEmpty _) as [accountId|]; [|done].
  apply (wp_then _ _ (fun _ _ => keyless (ctx_subjectId c))).
  - unfold requireAccountPermission. destruct (List.find _ _) as [g|] eqn:E; [|done]. apply find_some in E as [Hg%list_elem_of_In _].
    destruct (includes _ _ || includes _ _) eqn:Em; [|done]. destruct Hc as [Hc|Hc]; [exact Hc|]. rewrite Forall_forall in Hc. specialize (Hc g Hg). unfold mayCreate in Hc. congruence.
  - intros _ d2 Hs. unfold requireLimit. handler. apply safe_steady, steady_createWorkspace.
Qed.

Lemma safe_updateMember rq ws subject body d : honest rq -> safe (updateMemberRoute rq ws subject body) d.
Proof.
  intros Hh. unfold updateMemberRoute. apply safe_bind; [by apply safe_grant|intros g d1].
  apply (wp_then _ _ (fun l _ => forall m, m ∈ l -> keyless (m_subjectId m))).
  - apply wp_steady; [apply steady_listMembers|]. intros now d2 l d3 Hok. unfold listWorkspaceMembers. destruct (getWorkspace _ _); [|done].
    intros [= <- _] m [Hm _]%elem_of_sort_by%elem_filter. by apply (ok_members _ Hok).
  - intros l d2 Hl. destruct (memberNamed subject l) as [m|] eqn:E; [|done]. apply find_some in E as [Hm%list_elem_of_In Es%bool_decide_eq_true].
    assert (keyless subject) by (rewrite <- Es; by apply Hl). handler.
Qed.

Lemma safe_access_task m d : access_task m -> safe m d.
Proof.
  destruct 1 as [rq ws body verdict token Hh|rq ws id Hh|rq body verdict Hh|rq ws body users Hh|rq ws subject body Hh|rq ws subject Hh|rq ws active schedules Hh|rq ws p Hh];
    unfold done_with; (apply safe_bind; [|done]).
  - unfold createApiKeyRoute, ensureDelegablePermissions, requireLimit. handler.
  - unfold revokeApiKeyRoute. handler.
  - by apply safe_createWorkspace.
  - unfold addMemberRoute. apply safe_bind; [by apply safe_grant|intros g d1].
    apply (wp_then _ _ (fun s _ => keyless s)); [|intros s d2 Hs; handler].
    unfold resolveMemberSubjectId. destruct (nonEmpty _); [apply keyless_user|done].
  - by apply safe_updateMember.
  - unfold removeMemberRoute, assertWorkspaceMemberRemovable. handler.
  - unfold deleteWorkspaceRoute, assertWorkspaceDeletable. handler; [by induction schedules|apply safe_steady, steady_delete].
  - by apply safe_grant.
Qed.

Definition emptyAccess : AccessDb :=
  {| accounts := []; workspaces := []; memberships := []; apiKeys := []; sessionPins := []; sessionListSnapshots := []; fresh := 0 |}.
Lemma empty_ok : access_ok emptyAccess.
Proof. split; cbn; first [constructor|by intros ? ?%elem_of_nil]. Qed.

Lemma reachable_access s : rtc (pool access_task) (emptyAccess, []) s -> access_ok s.1 /\ Forall (fun m => safe m s.1) s.2.
Proof.
  intros H. destruct (pool_evolves access_ok later access_task (emptyAccess, []) s) as (H1 & _ & H3); [intros; by apply safe_access_task|done|exact empty_ok|constructor|done].
Qed.

Lemma key_current s s' k k' : rtc (pool access_task) (emptyAccess, []) s -> rtc (pool access_task) s s' -> k ∈ apiKeys s.1 -> k' ∈ apiKeys s'.1 ->
  keySubject k' = keySubject k -> credential k' = credential k /\ (k_revokedAt k <> None -> k_revokedAt k' <> None).
Proof.
  intros Hr Hs Hk Hk' He. destruct (reachable_access s Hr) as [Hok Hsafe].
  destruct (pool_evolves access_ok later access_task s s') as (_ & Hl & _); [intros; by apply safe_access_task|done..|].
  apply app_inv_head in He. destruct (later_keys _ _ Hl k' Hk') as [(n & Hn & Hlt)|(k0 & Hk0 & Ec & Hrev)].
  - exfalso. destruct (ok_generated _ Hok k Hk) as (m & Hm & Hlt'). rewrite He, Hm in Hn. apply generated_inj in Hn. lia.
  - assert (k0 = k) as ->; [|done]. apply (select_unique k_id (k_id k) (apiKeys s.1)); [apply (ok_ids _ Hok)|done|done| |done].
    unfold credential in Ec. congruence.
Qed.

(** (C38) An API key is confined.  However requests interleave, a request answered as
    the key [k] asked for the workspace [k] was made in and has exactly the
    permissions it was made with; and once [k] is revoked or has expired there is
    no such request. *)
Theorem key_confined s s' k rq now ws permission g out d' :
  rtc (pool access_task) (emptyAccess, []) s -> k ∈ apiKeys s.1 -> rtc (pool access_task) s s' -> honest rq ->
  exec now (requireAccessGrant rq ws permission) s'.1 = (Ok g, out, d') -> gr_subjectId g = keySubject k ->
  k_workspaceId k = Some ws /\ gr_permissions g = k_permissions k /\ (forall p, permission = Some p -> hasPermission (k_permissions k) p = true) /\
  k_revokedAt k = None /\ (forall t, k_expiresAt k = Some t -> now < t) /\
  exists bearer, bearerToken rq = Some bearer /\ k_keyHash k = sha256Hex bearer.
Proof.
  intros Hr Hk Hs Hh He Hsub. destruct (grant_source _ _ _ _ _ _ _ _ _ He) as (Hw & Hp & Hb).
  destruct Hb as [payload (secret & token & Hsec & Htok & Hv) _ Hsub' _|k' (bearer & Hbe & Hk' & Hha & Hact) Hkw Hsub' Hperm|m _ Hm _ Hsub' _].
  - exfalso. pose proof (keySubject_key k) as X. rewrite <- Hsub, <- Hsub' in X.
    rewrite (Hh secret token payload) in X; [done|by destruct (delegationSecret settings) as [[|]|]|by destruct (bearerToken rq) as [[|]|]|done].
  - destruct (key_current s s' k k' Hr Hs Hk Hk') as [Hc Hrev]; [congruence|]. unfold credential in Hc. injection Hc as E1 E2 E3 E4 E5 E6. destruct Hact as [Hact0 Hact].
    assert (k_revokedAt k = None) as Hnr.
    { destruct (k_revokedAt k); [|done]. destruct (k_revokedAt k'); [done|]. exfalso. by apply Hrev. }
    split_and!; [congruence|congruence| |done| |exists bearer; split; [by destruct (bearerToken rq) as [[|]|]|congruence]].
    + intros p Hpp. rewrite <- E5, Hperm. by apply Hp.
    + intros t Ht. apply Hact. congruence.
  - exfalso. assert (Hd : rtc (pool access_task) (emptyAccess, []) (d', s'.2)).
    { transitivity s'; [by transitivity s|]. pose proof (pool_alone access_task now _ (task_any rq ws permission Hh) s'.1 s'.2) as X.
      unfold done_with in X. rewrite exec_bind, He in X. cbn in X. by destruct s'. }
    destruct (reachable_access _ Hd) as [Hok _]. pose proof (ok_members _ Hok m Hm) as X. rewrite Hsub', Hsub, keySubject_key in X. done.
Qed.

(** A key is made by a caller that may manage keys, for the workspace of the
    caller's grant, and can do nothing the caller could not. *)
Theorem key_not_stronger env rq ws body verdict token d k out d' :
  runs env (createApiKeyRoute rq ws body verdict token) d (Ok k) out d' ->
  exists g d1 out1, runs env (requireAccessGrant rq ws (Some (js "api_keys:manage"))) d (Ok g) out1 d1 /\
    k_workspaceId k = Some (gr_workspaceId g) /\ k_accountId k = gr_accountId g /\ k_keyHash k = sha256Hex token /\
    forall p, hasPermission (k_permissions k) p = true -> hasPermission (gr_permissions g) p = true.
Proof.
  unfold createApiKeyRoute. intros [(e & [=] & _)|(g & o1 & d1 & o2 & H1 & H2 & _)]%runs_bind. exists g, d1, o1. split; [exact H1|]. clear H1.
  apply runs_bind in H2 as [(e & [=] & _)|([] & o3 & d2 & o4 & H3 & H4 & _)]. apply runs_bind in H4 as [(e & [=] & _)|([] & o5 & d3 & o6 & _ & H6 & _)].
  destruct H6 as (now & d4 & r & d5 & _ & Hc & Hret). destruct Hc as [k' d6 Hop|e He|]; [|by destruct Hret|by destruct Hret]. cbn in Hret. destruct Hret as ([= ->] & _ & _).
  unfold createApiKey in Hop. destruct (existsb _ _); [done|]. destruct (negb _); [done|]. injection Hop as <- _. cbn. split_and!; [done..|].
  unfold ensureDelegablePermissions in H3. intros p. destruct (includes (gr_permissions g) (js "workspace:admin")) eqn:Ea.
  { intros _. unfold hasPermission. by rewrite Ea, orb_true_r. }
  destruct (List.filter _ _) eqn:Ef; [|by destruct H3]. assert (Hsub : forall q, includes (requestedPermissions body) q = true -> includes (gr_permissions g) q = true).
  { intros q (x & Hx & ->%same_eq)%existsb_exists. apply not_false_iff_true. intros Hn.
    assert (Hin : x ∈ List.filter (fun p => negb (includes (gr_permissions g) p)) (requestedPermissions body)) by (apply elem_filter; rewrite list_elem_of_In; by rewrite Hn).
    rewrite Ef in Hin. by apply elem_of_nil in Hin. }
  unfold hasPermission. intros [[H|(a & Ha & H)%existsb_exists]%orb_true_iff|H]%orb_true_iff.
  - by rewrite (Hsub _ H).
  - apply orb_true_iff. left. apply orb_true_iff. right. apply existsb_exists. exists a. auto.
  - apply Hsub in H. congruence.
Qed.

(** A successful removal leaves the workspace someone who can manage its
    members, if the removed member was one; run alone, that is. *)
Theorem removal_keeps_admin now rq ws subject d out d' :
  exec now (removeMemberRoute rq ws subject) d = (Ok tt, out, d') ->
  let d1 := (exec now (requireAccessGrant rq ws (Some (js "members:manage"))) d).2 in
  memberships d' = delete_where (membershipOf subject ws) (memberships d1) /\
  forall target, target ∈ memberships d1 -> membershipOf subject ws target = true -> NoDup (List.map (fun m => (m_subjectId m, m_workspaceId m)) (memberships d1)) ->
    memberCanAdminister target = true -> exists m, m ∈ memberships d' /\ m_workspaceId m = ws /\ memberCanAdminister m = true.
Proof.
  unfold removeMemberRoute. rewrite exec_bind. destruct (exec now (requireAccessGrant _ _ _) d) as [[[g|e] o1] d1]; [|done]. cbn [snd].
  unfold listMembers, listWorkspaceMembers. cbn. destruct (getWorkspace ws d1) as [w|] eqn:Ew; [|done]. cbn.
  rewrite exec_bind. unfold assertWorkspaceMemberRemovable. destruct (same subject (gr_subjectId g)); [done|].
  set (members := sort_by _ _). destruct (memberNamed subject members) as [target0|] eqn:Et; [|done].
  destruct (memberCanAdminister target0 && _) eqn:Eg; [done|]. cbn. unfold removeWorkspaceMember. destruct (trim subject) as [|tc tr]; [done|]. rewrite Ew.
  unfold memberNamed in Et. apply find_some in Et as [Ht0%list_elem_of_In Hs0%same_eq].
  apply elem_of_sort_by, elem_filter in Ht0 as [Ht0 Hw0%same_eq].
  assert (existsb (membershipOf subject ws) (memberships d1) = true) as ->.
  { apply existsb_exists. exists target0. rewrite <- list_elem_of_In. split; [done|]. unfold membershipOf. by rewrite Hs0, Hw0, !(proj2 (same_eq _ _)). }
  cbn. intros [= _ <-]. split; [done|]. intros target Hin [Hs%same_eq Hw%same_eq]%andb_true_iff Hnd Ha.
  assert (target0 = target) as -> by (apply (select_unique (fun m => (m_subjectId m, m_workspaceId m)) (subject, ws) (memberships d1)); congruence || done).
  rewrite Ha in Eg. destruct (List.filter _ members) as [|m l] eqn:El; [done|].
  assert (Hm : m ∈ List.filter (fun m => negb (same (m_subjectId m) subject) && memberCanAdminister m) members) by (rewrite El; by left).
  apply elem_filter in Hm as [Hm [Hne Hma]%andb_true_iff]. apply elem_of_sort_by, elem_filter in Hm as [Hm Hmw%same_eq].
  exists m. split_and!; [|done|done]. apply elem_filter. split; [done|]. unfold membershipOf. apply negb_true_iff in Hne. by rewrite Hne.
Qed.
End platform.

(** ** Examples *)

#[local] Existing Instance toyPlatform.
#[local] Instance toyDigest : DigestPlatform := {| sha256Hex := fun s => js "#" ++ s |}.
Definition exampleSettings : Settings := {| productAccessMode := managed; delegationSecret := None; managedAuth := true |}.
Definition signedIn (name : string) : Request := {| rq_authorization := None; rq_subject := None;
  rq_session := Some {| u_id := js name; u_email := js name; u_name := js name |}; rq_now := 0 |}.
Definition alice := signedIn "alice".
Definition bob := signedIn "bob".
Definition users (email : jstr) : option jstr := Some email.
Definition after {A} (m : Handler A) (d : AccessDb) : AccessDb := (exec 1 m d).2.
(** Alice's default workspace. *)
Definition home : jstr := generated 1.
Definition withAlice : AccessDb := after (requireAccessGrant exampleSettings alice home None) emptyAccess.
Definition withBob (permissions : list jstr) : AccessDb :=
  after (addMemberRoute exampleSettings alice home {| am_email := js "bob"; am_role := None; am_permissions := permissions |} users) withAlice.
Definition roster (d : AccessDb) : list (jstr * list jstr) :=
  List.map (fun m => (m_subjectId m, m_permissions m)) (select_where (fun m => same (m_workspaceId m) home) (memberships d)).
Definition administrators (d : AccessDb) : list jstr :=
  List.map m_subjectId (select_where (fun m => same (m_workspaceId m) home && memberCanAdminister m) (memberships d)).

(** A member who may manage members makes itself an administrator; a key with
    more than its maker has is refused. *)
Example self_promotion :
  let d := withBob [js "members:manage"; js "api_keys:manage"] in
  (exec 1 (createApiKeyRoute exampleSettings bob home {| ck_name := js "k"; ck_permissions := [js "workspace:admin"]; ck_expiresAt := None |} (Ok tt) (js "ogk_1")) d).1.1 =
    Err (HttpError 403 (js "cannot delegate missing permissions: workspace:admin")) /\
  roster (after (updateMemberRoute exampleSettings bob home (userSubject (js "bob")) {| um_role := None; um_permissions := [js "workspace:admin"] |}) d) =
    [(userSubject (js "alice"), allWorkspacePermissions); (userSubject (js "bob"), [js "workspace:admin"])].
Proof. split; vm_compute; reflexivity. Qed.

(** The last administrator can be demoted, by a change and not by a removal. *)
Example last_administrator_demoted :
  let d := withBob [js "members:manage"] in
  let d1 := after (removeMemberRoute exampleSettings bob home (userSubject (js "alice"))) d in
  let d2 := after (updateMemberRoute exampleSettings bob home (userSubject (js "bob")) {| um_role := None; um_permissions := [] |}) d1 in
  administrators d1 = [userSubject (js "bob")] /\ administrators d2 = [].
Proof. split; vm_compute; reflexivity. Qed.

(** The default workspace cannot be left or deleted for good: its owner's next
    request restores the membership, or makes the workspace anew. *)
Example owner_returns :
  let d := withBob [js "members:manage"] in
  let d1 := after (removeMemberRoute exampleSettings bob home (userSubject (js "alice"))) d in
  administrators d1 = [userSubject (js "bob")] /\
  administrators (after (requireAccessContext exampleSettings alice) d1) = [userSubject (js "bob"); userSubject (js "alice")].
Proof. split; vm_compute; reflexivity. Qed.
Example default_workspace_returns :
  let d := after (createWorkspaceRoute exampleSettings alice
    {| cw_accountId := None; cw_name := js "second"; cw_slug := None; cw_externalSource := None; cw_externalId := None |} (Ok tt)) withAlice in
  let d1 := after (deleteWorkspaceRoute exampleSettings alice home 0 []) d in
  List.map w_name (workspaces d1) = [js "second"] /\
  List.map w_name (workspaces (after (requireAccessContext exampleSettings alice) d1)) = [js "second"; js "Default workspace"].
Proof. split; vm_compute; reflexivity. Qed.

Lemma exampleHonest rq : honest exampleSettings rq.
Proof. by intros secret token payload [=]. Qed.

Definition exampleKeyToken : jstr := js "ogk_1".
Definition makeKey : Handler ApiKeyRow := createApiKeyRoute exampleSettings alice home
  {| ck_name := js "k"; ck_permissions := [js "sessions:read"]; ck_expiresAt := None |} (Ok tt) exampleKeyToken.
Definition withKey : AccessDb := after makeKey withAlice.
Definition withBearer (token : jstr) : Request :=
  {| rq_authorization := Some (bearerPrefix ++ token); rq_subject := None; rq_session := None; rq_now := 0 |}.
Definition exampleKey : ApiKeyRow := {|
  k_id := generated 2; k_accountId := generated 0; k_workspaceId := Some home; k_name := js "k"; k_prefix := js "ogk_1"; k_keyHash := js "#ogk_1";
  k_permissions := [js "sessions:read"]; k_expiresAt := None; k_revokedAt := None; k_lastUsedAt := None |}.

Lemma reach_withKey : rtc (pool (access_task exampleSettings)) (emptyAccess, []) (withKey, []).
Proof.
  transitivity (withAlice, @nil (Handler unit)).
  - exact (pool_alone (access_task exampleSettings) 1 _ (task_any exampleSettings alice home None (exampleHonest _)) emptyAccess []).
  - exact (pool_alone (access_task exampleSettings) 1 (done_with makeKey) (task_createKey exampleSettings _ _ _ _ _ (exampleHonest _)) withAlice []).
Qed.

Definition keyGrant : AccessGrant := {|
  gr_workspaceId := home; gr_accountId := generated 0; gr_subjectId := keySubject exampleKey; gr_subjectLabel := Some (js "k");
  gr_permissions := [js "sessions:read"]; gr_delegated := None |}.

Lemma key_confined_witness : k_workspaceId exampleKey = Some home /\ k_revokedAt exampleKey = None.
Proof.
  destruct (key_confined exampleSettings (withKey, []) (withKey, []) exampleKey (withBearer exampleKeyToken) 2 home (Some (js "sessions:read")) keyGrant []
    (exec 2 (requireAccessGrant exampleSettings (withBearer exampleKeyToken) home (Some (js "sessions:read"))) withKey).2) as (H1 & _ & _ & H2 & _).
  - exact reach_withKey.
  - left.
  - constructor.
  - apply exampleHonest.
  - vm_compute. reflexivity.
  - vm_compute. reflexivity.
  - split; [exact H1|exact H2].
Defined.

Lemma grant_backed_witness : exists d', grantBacked exampleSettings 2 (withBearer exampleKeyToken) withKey d' keyGrant.
Proof.
  eexists. eapply (grant_backed exampleSettings 2 (withBearer exampleKeyToken) home (Some (js "sessions:read")) withKey keyGrant []).
  vm_compute. reflexivity.
Defined.

Lemma access_outcomes_witness :
  exec 2 (requireAccessGrant exampleSettings (withBearer (js "ogk_2")) home None) withKey = (Err (HttpError 401 (js "authentication required")), [], withKey) /\
  forall subject, ~ authenticated exampleSettings 2 (withBearer (js "ogk_2")) withKey subject.
Proof.
  split; [vm_compute; reflexivity|].
  destruct (access_outcomes exampleSettings 2 (withBearer (js "ogk_2")) home None withKey (Err (HttpError 401 (js "authentication required"))) [] withKey) as [H _].
  - vm_compute. reflexivity.
  - destruct H as [[_ H]|(subject & named & _ & [[H _]|[[H _]|[H _]]])]; [exact H|discriminate H..].
Defined.

Lemma key_not_stronger_witness :
  exists g d1 out1, runs (fun _ _ => False) (requireAccessGrant exampleSettings alice home (Some (js "api_keys:manage"))) withAlice (Ok g) out1 d1 /\
    forall p, hasPermission [js "sessions:read"] p = true -> hasPermission (gr_permissions g) p = true.
Proof.
  destruct (key_not_stronger exampleSettings (fun _ _ => False) alice home {| ck_name := js "k"; ck_permissions := [js "sessions:read"]; ck_expiresAt := None |}
    (Ok tt) exampleKeyToken withAlice exampleKey [] withKey) as (g & d1 & out1 & H1 & _ & _ & _ & H2).
  - exact (exec_runs (fun _ _ => False) 1 makeKey withAlice).
  - exists g, d1, out1. split; [exact H1|exact H2].
Defined.
End AccessRoutes.
