(* ===== verification/Connections.v ===== *)
(** * Connections ([connections] of [packages/db/src/index.ts],
      [apps/api/src/routes/connections.ts] and [integrations/provider-domain.ts])

    A connection holds the credential of an external service for a workspace or
    for one of its subjects; the credential is stored encrypted and leaves the
    database to the broker only.  [version] counts the changes of the credential
    and of the status; writes that depend on what was read are guarded by it. *)
From S2P Require Import Prelude Json JsonParse Encoding Sql Tokens NatsJwt PayloadSanitizer Activity Access EnvironmentCrypto.
#[local] Open Scope Z_scope.
#[local] Open Scope opengeni_scope.

Module Connections.
Import Activity Tokens Access NatsJwt EnvironmentCrypto.

(** ** Tables *)

Inductive ConnectionKind := oauth2 | api_key | app_install | delegated.
#[export] Instance ConnectionKind_eq_dec : EqDecision ConnectionKind.
Proof. solve_decision. Defined.
Inductive ConnectionStatus := active | needs_reauth | revoked | error_.
#[export] Instance ConnectionStatus_eq_dec : EqDecision ConnectionStatus.
Proof. solve_decision. Defined.

Record ConnectionRow := {
  n_id : jstr; n_accountId : jstr; n_workspaceId : jstr; n_subjectId : option jstr; n_providerDomain : jstr; n_kind : ConnectionKind;
  n_status : ConnectionStatus; n_credentialEncrypted : jstr; n_grantedScopes : list jstr; n_expiresAt : option Z; n_lastRefreshAt : option Z;
  n_lastUsedAt : option Z; n_lastError : option jstr; n_version : Z; n_metadata : json; n_createdBySubjectId : option jstr;
  n_updatedBySubjectId : option jstr; n_createdAt : Z; n_updatedAt : Z
}.
#[export] Instance etaConnectionRow : Settable ConnectionRow := fun r =>
  Build_ConnectionRow (n_id r) (n_accountId r) (n_workspaceId r) (n_subjectId r) (n_providerDomain r) (n_kind r) (n_status r)
    (n_credentialEncrypted r) (n_grantedScopes r) (n_expiresAt r) (n_lastRefreshAt r) (n_lastUsedAt r) (n_lastError r) (n_version r)
    (n_metadata r) (n_createdBySubjectId r) (n_updatedBySubjectId r) (n_createdAt r) (n_updatedAt r).
(** [integration_oauth_state_nonces] *)
Record NonceRow := { o_nonce : jstr; o_accountId : jstr; o_workspaceId : jstr; o_subjectId : jstr; o_expiresAt : Z; o_usedAt : Z }.

Record ConnectionDb := { access : AccessDb; connections : list ConnectionRow; nonces : list NonceRow; nextId : nat }.
#[export] Instance etaConnectionDb : Settable ConnectionDb := fun d => Build_ConnectionDb (access d) (connections d) (nonces d) (nextId d).
Abbreviation Handler := (Program ConnectionDb AccessError Outgoing).
Definition putAccess (a : AccessDb) (d : ConnectionDb) : ConnectionDb := d <| access := a |>.
Definition accessing {A} (m : Access.Handler A) : Handler A := embed access putAccess m.
Definition refuseOn {A} (status : Z) (message : string) : Handler A := Throw (HttpError status (js message)).

(** What the API shows of a connection: everything but the credential. *)
Record ConnectionMetadata := {
  m_id : jstr; m_accountId : jstr; m_workspaceId : jstr; m_subjectId : option jstr; m_providerDomain : jstr; m_kind : ConnectionKind;
  m_status : ConnectionStatus; m_grantedScopes : list jstr; m_expiresAt : option Z; m_lastRefreshAt : option Z; m_lastUsedAt : option Z;
  m_lastError : option jstr; m_version : Z; m_metadata : json; m_createdBySubjectId : option jstr; m_updatedBySubjectId : option jstr;
  m_createdAt : Z; m_updatedAt : Z
}.
Definition mapConnectionMetadata (r : ConnectionRow) : ConnectionMetadata := {|
  m_id := n_id r; m_accountId := n_accountId r; m_workspaceId := n_workspaceId r; m_subjectId := n_subjectId r;
  m_providerDomain := n_providerDomain r; m_kind := n_kind r; m_status := n_status r; m_grantedScopes := n_grantedScopes r;
  m_expiresAt := n_expiresAt r; m_lastRefreshAt := n_lastRefreshAt r; m_lastUsedAt := n_lastUsedAt r; m_lastError := n_lastError r;
  m_version := n_version r; m_metadata := n_metadata r; m_createdBySubjectId := n_createdBySubjectId r;
  m_updatedBySubjectId := n_updatedBySubjectId r; m_createdAt := n_createdAt r; m_updatedAt := n_updatedAt r |}.

(** ** The repository *)

Definition isNull (s : option jstr) : bool := match s with None => true | Some _ => false end.
Definition connectionSubjectVisibility (subjectId : option jstr) (r : ConnectionRow) : bool :=
  match nonEmpty subjectId with Some s => isNull (n_subjectId r) || isValue (n_subjectId r) s | None => isNull (n_subjectId r) end.
Definition inWorkspace (workspaceId : jstr) (r : ConnectionRow) : bool := same (n_workspaceId r) workspaceId.
Definition connectionIs (workspaceId connectionId : jstr) (r : ConnectionRow) : bool := inWorkspace workspaceId r && same (n_id r) connectionId.
Definition isStatus (s : ConnectionStatus) (r : ConnectionRow) : bool := bool_decide (n_status r = s).

Record CreateConnectionInput := {
  ci_accountId : jstr; ci_workspaceId : jstr; ci_subjectId : option jstr; ci_providerDomain : jstr; ci_kind : ConnectionKind;
  ci_credentialEncrypted : jstr; ci_grantedScopes : list jstr; ci_expiresAt : option Z; ci_metadata : json; ci_createdBySubjectId : option jstr
}.
Definition createConnection (i : CreateConnectionInput) (now : Z) (d : ConnectionDb) : result AccessError (ConnectionMetadata * ConnectionDb) :=
  match getWorkspace (ci_workspaceId i) (access d) with
  | None => Err (Thrown "insert or update violates foreign key constraint")
  | Some _ =>
      let r := {| n_id := generated (nextId d); n_accountId := ci_accountId i; n_workspaceId := ci_workspaceId i; n_subjectId := ci_subjectId i;
                  n_providerDomain := ci_providerDomain i; n_kind := ci_kind i; n_status := active; n_credentialEncrypted := ci_credentialEncrypted i;
                  n_grantedScopes := ci_grantedScopes i; n_expiresAt := ci_expiresAt i; n_lastRefreshAt := None; n_lastUsedAt := None; n_lastError := None;
                  n_version := 1; n_metadata := ci_metadata i; n_createdBySubjectId := ci_createdBySubjectId i;
                  n_updatedBySubjectId := ci_createdBySubjectId i; n_createdAt := now; n_updatedAt := now |} in
      Ok (mapConnectionMetadata r, (d <| connections ::= fun t => t ++ [r] |>) <| nextId ::= S |>)
  end.

Definition listConnectionsMetadata (workspaceId : jstr) (subjectId : option jstr) (d : ConnectionDb) : list ConnectionMetadata :=
  List.map mapConnectionMetadata (sort_by (fun r => - n_createdAt r)
    (select_where (fun r => inWorkspace workspaceId r && connectionSubjectVisibility subjectId r) (connections d))).
Definition visibleConnection (workspaceId connectionId : jstr) (subjectId : option jstr) (r : ConnectionRow) : bool :=
  connectionIs workspaceId connectionId r && connectionSubjectVisibility subjectId r.
Definition getConnectionMetadata (workspaceId connectionId : jstr) (subjectId : option jstr) (d : ConnectionDb) : option ConnectionMetadata :=
  mapConnectionMetadata <$> List.find (visibleConnection workspaceId connectionId subjectId) (connections d).

(** An update and the row it returns. *)
Definition updateReturning (p : ConnectionRow -> bool) (f : ConnectionRow -> ConnectionRow) (d : ConnectionDb) : option ConnectionMetadata * ConnectionDb :=
  (mapConnectionMetadata <$> head (updated_rows p f (connections d)), d <| connections ::= update_where p f |>).

Record UpdateConnectionInput := {
  ui_workspaceId : jstr; ui_connectionId : jstr; ui_visibleToSubjectId : option jstr; ui_expectedVersion : option Z;
  ui_subjectId : option (option jstr); ui_providerDomain : option jstr; ui_kind : option ConnectionKind; ui_status : option ConnectionStatus;
  ui_credentialEncrypted : option jstr; ui_grantedScopes : option (list jstr); ui_expiresAt : option (option Z); ui_metadata : option json;
  ui_updatedBySubjectId : option (option jstr)
}.
Definition applyUpdate (i : UpdateConnectionInput) (now : Z) (r : ConnectionRow) : ConnectionRow :=
  let r := r <| n_updatedAt := now |> in
  let r := r <| n_providerDomain := default (n_providerDomain r) (ui_providerDomain i) |> in
  let r := r <| n_subjectId := default (n_subjectId r) (ui_subjectId i) |> in
  let r := r <| n_kind := default (n_kind r) (ui_kind i) |> in
  let r := r <| n_status := default (n_status r) (ui_status i) |> in
  let r := match ui_credentialEncrypted i with
           | Some c => ((r <| n_credentialEncrypted := c |>) <| n_version := n_version r + 1 |>) <| n_lastError := None |>
           | None => r
           end in
  let r := r <| n_grantedScopes := default (n_grantedScopes r) (ui_grantedScopes i) |> in
  let r := r <| n_expiresAt := default (n_expiresAt r) (ui_expiresAt i) |> in
  let r := r <| n_metadata := default (n_metadata r) (ui_metadata i) |> in
  r <| n_updatedBySubjectId := default (n_updatedBySubjectId r) (ui_updatedBySubjectId i) |>.
Definition updateConnection (i : UpdateConnectionInput) (now : Z) : ConnectionDb -> option ConnectionMetadata * ConnectionDb :=
  updateReturning (fun r => visibleConnection (ui_workspaceId i) (ui_connectionId i) (ui_visibleToSubjectId i) r &&
                            match ui_expectedVersion i with Some v => n_version r =? v | None => true end)
    (applyUpdate i now).

Definition revokeConnection (workspaceId connectionId : jstr) (updatedBySubjectId : option jstr) (now : Z) : ConnectionDb -> option ConnectionMetadata * ConnectionDb :=
  updateReturning (visibleConnection workspaceId connectionId updatedBySubjectId)
    (fun r => (((r <| n_status := revoked |>) <| n_version := n_version r + 1 |>) <| n_updatedBySubjectId := updatedBySubjectId |>) <| n_updatedAt := now |>).

(** The updates of the broker; they report whether a row was written. *)
Definition updateReporting (p : ConnectionRow -> bool) (f : ConnectionRow -> ConnectionRow) (d : ConnectionDb) : bool * ConnectionDb :=
  (existsb p (connections d), d <| connections ::= update_where p f |>).
Record RefreshRecord := {
  rr_id : jstr; rr_version : Z; rr_workspaceId : jstr; rr_credentialEncrypted : jstr; rr_expiresAt : option Z;
  rr_grantedScopes : option (list jstr); rr_lastRefreshAt : Z
}.
Definition renewable (i : RefreshRecord) (r : ConnectionRow) : bool := connectionIs (rr_workspaceId i) (rr_id i) r && (n_version r =? rr_version i) && isStatus active r.
Definition recordConnectionTokenRefresh (i : RefreshRecord) (now : Z) : ConnectionDb -> bool * ConnectionDb :=
  updateReporting (renewable i)
    (fun r => (((((((r <| n_credentialEncrypted := rr_credentialEncrypted i |>) <| n_expiresAt := rr_expiresAt i |>) <| n_lastRefreshAt := Some (rr_lastRefreshAt i) |>)
       <| n_status := active |>) <| n_lastError := None |>) <| n_version := n_version r + 1 |>) <| n_updatedAt := now |>)
       <| n_grantedScopes := default (n_grantedScopes r) (rr_grantedScopes i) |>).
Definition atVersion (workspaceId guardId : jstr) (guardVersion : Z) (r : ConnectionRow) : bool := connectionIs workspaceId guardId r && (n_version r =? guardVersion).
Definition setConnectionStatus (workspaceId : jstr) (status : ConnectionStatus) (lastError : option jstr) (guardId : jstr) (guardVersion now : Z)
  : ConnectionDb -> bool * ConnectionDb :=
  updateReporting (atVersion workspaceId guardId guardVersion)
    (fun r => (((r <| n_status := status |>) <| n_lastError := lastError |>) <| n_version := n_version r + 1 |>) <| n_updatedAt := now |>).
Definition recordConnectionUsed (workspaceId connectionId : jstr) (now : Z) (d : ConnectionDb) : ConnectionDb :=
  d <| connections ::= update_where (connectionIs workspaceId connectionId) (fun r => (r <| n_lastUsedAt := Some now |>) <| n_updatedAt := now |>) |>.

(** ** Settings *)

Record ConnectionSettings := { api : Settings; environmentsEncryptionKey : option jstr }.
Definition environmentsEncryptionKeyBytes (s : ConnectionSettings) : result AccessError (option (list Z)) :=
  match nonEmpty (environmentsEncryptionKey s) with
  | None => Ok None
  | Some text =>
      let decoded := bytesOfBase64 text in
      if (length decoded =? KEY_BYTES)%nat then Ok (Some decoded) else Err (Thrown "OPENGENI_ENVIRONMENTS_ENCRYPTION_KEY must be base64 for exactly 32 bytes")
  end.

(** ** The credential, for the broker *)

Record ConnectionCredentialForBroker := {
  cr_id : jstr; cr_accountId : jstr; cr_workspaceId : jstr; cr_subjectId : option jstr; cr_providerDomain : jstr; cr_kind : ConnectionKind;
  cr_status : ConnectionStatus; cr_credential : list (jstr * json); cr_grantedScopes : list jstr; cr_expiresAt : option Z;
  cr_lastRefreshAt : option Z; cr_version : Z; cr_metadata : json
}.
Record LoadInput := { li_workspaceId : jstr; li_connectionId : option jstr; li_providerDomain : jstr; li_kind : option ConnectionKind; li_subjectId : option jstr; li_allowSubjectOwned : bool }.
Definition loadable (i : LoadInput) (r : ConnectionRow) : bool :=
  inWorkspace (li_workspaceId i) r && (if li_allowSubjectOwned i then connectionSubjectVisibility (li_subjectId i) r else isNull (n_subjectId r)) &&
  match nonEmpty (li_connectionId i) with
  | Some id => same (n_id r) id
  | None => same (n_providerDomain r) (li_providerDomain i) && match li_kind i with Some k => bool_decide (n_kind r = k) | None => true end
  end.
(** [order by (status = 'active') desc, updated_at desc] *)
Definition preferred (a b : ConnectionRow) : bool :=
  match isStatus active a, isStatus active b with
  | true, false => true
  | false, true => false
  | _, _ => n_updatedAt b <=? n_updatedAt a
  end.

Section platform.
Context `{tokens : TokenPlatform} `{digests : DigestPlatform} `{cipher : CipherPlatform} (settings : ConnectionSettings).

Definition credentialOf (r : ConnectionRow) (credential : list (jstr * json)) : ConnectionCredentialForBroker := {|
  cr_id := n_id r; cr_accountId := n_accountId r; cr_workspaceId := n_workspaceId r; cr_subjectId := n_subjectId r; cr_providerDomain := n_providerDomain r;
  cr_kind := n_kind r; cr_status := n_status r; cr_credential := credential; cr_grantedScopes := n_grantedScopes r; cr_expiresAt := n_expiresAt r;
  cr_lastRefreshAt := n_lastRefreshAt r; cr_version := n_version r; cr_metadata := n_metadata r |}.
Definition openCredential (key : list Z) (stored : jstr) : option (list (jstr * json)) :=
  match decryptEnvironmentValue key stored with
  | Err _ => None
  | Ok text => match JSON_parse text with Some (JObj fields) => Some fields | _ => None end
  end.
Definition loadConnectionCredentialForBroker (i : LoadInput) (d : ConnectionDb) : result AccessError (option ConnectionCredentialForBroker) :=
  match environmentsEncryptionKeyBytes settings with
  | Err e => Err e
  | Ok None => Err (Thrown "connection credential present but OPENGENI_ENVIRONMENTS_ENCRYPTION_KEY is not configured")
  | Ok (Some key) =>
      match head (sort_leb preferred (select_where (loadable i) (connections d))) with
      | None => Ok None
      | Some r =>
          match openCredential key (n_credentialEncrypted r) with
          | None => Err (Thrown "connection credential could not be decrypted")
          | Some credential => Ok (Some (credentialOf r credential))
          end
      end
  end.

(** ** The routes *)

Definition grantFor (rq : Request) (workspaceId : jstr) (permission : string) : Handler AccessGrant :=
  accessing (requireAccessGrant (api settings) rq workspaceId (Some (js permission))).
Definition requireEnvironmentEncryption : Handler (list Z) :=
  match environmentsEncryptionKeyBytes settings with
  | Err e => Throw e
  | Ok None => refuseOn 503 "variable sets require OPENGENI_ENVIRONMENTS_ENCRYPTION_KEY"
  | Ok (Some key) => Ret key
  end.
(** [value.trim().toLowerCase().replace(/^www\./, "")] *)
Definition canonicalProviderDomain (value : jstr) : Handler jstr :=
  let lower := PayloadSanitizer.toLowerCase (trim value) in
  let canonical := if Tokens.startsWith (js "www.") lower then drop 4 lower else lower in
  match canonical with [] => refuseOn 400 "providerDomain must not be empty" | _ => Ret canonical end.
Definition writableSubjectId (requested : option jstr) (grantSubjectId : jstr) : Handler (option jstr) :=
  match requested with
  | None => Ret None
  | Some s => if same s grantSubjectId then Ret (Some s) else refuseOn 403 "cannot write a connection for another subject"
  end.
Definition encryptCredentialBundle (key iv : list Z) (credential : list (jstr * json)) : Handler jstr :=
  match encryptEnvironmentValue key iv (JSON_stringify (JObj credential)) with
  | Ok stored => Ret stored
  | Err _ => Throw (Thrown "environment encryption key must be exactly 32 bytes")
  end.
Definition found (connection : option ConnectionMetadata) : Handler ConnectionMetadata :=
  match connection with Some c => Ret c | None => refuseOn 404 "connection not found" end.

Definition listRoute (rq : Request) (workspaceId : jstr) : Handler (list ConnectionMetadata) :=
  let* grant := grantFor rq workspaceId "connections:read" in
  read (listConnectionsMetadata workspaceId (Some (gr_subjectId grant))).

Record CreateBody := {
  cb_providerDomain : jstr; cb_kind : ConnectionKind; cb_subjectId : option jstr; cb_credential : list (jstr * json);
  cb_grantedScopes : list jstr; cb_expiresAt : option Z; cb_metadata : json
}.
Definition createRoute (rq : Request) (iv : list Z) (workspaceId : jstr) (body : CreateBody) : Handler ConnectionMetadata :=
  let* grant := grantFor rq workspaceId "connections:write" in
  let* key := requireEnvironmentEncryption in
  let* subjectId := writableSubjectId (cb_subjectId body) (gr_subjectId grant) in
  let* providerDomain := canonicalProviderDomain (cb_providerDomain body) in
  let* stored := encryptCredentialBundle key iv (cb_credential body) in
  tx (createConnection {| ci_accountId := gr_accountId grant; ci_workspaceId := workspaceId; ci_subjectId := subjectId; ci_providerDomain := providerDomain;
    ci_kind := cb_kind body; ci_credentialEncrypted := stored; ci_grantedScopes := cb_grantedScopes body; ci_expiresAt := cb_expiresAt body;
    ci_metadata := cb_metadata body; ci_createdBySubjectId := Some (gr_subjectId grant) |}).

Definition getRoute (rq : Request) (workspaceId connectionId : jstr) : Handler ConnectionMetadata :=
  let* grant := grantFor rq workspaceId "connections:read" in
  let* connection := read (getConnectionMetadata workspaceId connectionId (Some (gr_subjectId grant))) in
  found connection.

Record PatchBody := {
  pb_providerDomain : option jstr; pb_subjectId : option (option jstr); pb_kind : option ConnectionKind; pb_status : option ConnectionStatus;
  pb_credential : option (list (jstr * json)); pb_grantedScopes : option (list jstr); pb_expiresAt : option (option Z); pb_metadata : option json
}.
(** A status goes with a credential, and only to active. *)
Definition checkStatus (body : PatchBody) : Handler unit :=
  match pb_status body with
  | None => Ret tt
  | Some s =>
      if negb (bool_decide (s = active)) then refuseOn 400 "status can only be set to active; use DELETE to revoke"
      else match pb_credential body with None => refuseOn 400 "reactivating a connection requires a new credential" | Some _ => Ret tt end
  end.
Definition whenGiven {A B} (a : option A) (f : A -> Handler B) : Handler (option B) :=
  match a with Some a => let* b := f a in Ret (Some b) | None => Ret None end.
Definition patchRoute (rq : Request) (iv : list Z) (workspaceId connectionId : jstr) (body : PatchBody) : Handler ConnectionMetadata :=
  let* grant := grantFor rq workspaceId "connections:write" in
  checkStatus body ;;
  let* key := whenGiven (pb_credential body) (fun _ => requireEnvironmentEncryption) in
  let* subjectId := whenGiven (pb_subjectId body) (fun s => writableSubjectId s (gr_subjectId grant)) in
  let* providerDomain := whenGiven (pb_providerDomain body) canonicalProviderDomain in
  let* stored := match pb_credential body, key with
                 | Some credential, Some key => let* s := encryptCredentialBundle key iv credential in Ret (Some s)
                 | _, _ => Ret None
                 end in
  let* connection := tx (fun now d => Ok (updateConnection {|
    ui_workspaceId := workspaceId; ui_connectionId := connectionId; ui_visibleToSubjectId := Some (gr_subjectId grant); ui_expectedVersion := None;
    ui_subjectId := subjectId; ui_providerDomain := providerDomain; ui_kind := pb_kind body; ui_status := pb_status body; ui_credentialEncrypted := stored;
    ui_grantedScopes := pb_grantedScopes body; ui_expiresAt := pb_expiresAt body; ui_metadata := pb_metadata body;
    ui_updatedBySubjectId := Some (Some (gr_subjectId grant)) |} now d)) in
  found connection.

Definition deleteRoute (rq : Request) (workspaceId connectionId : jstr) : Handler ConnectionMetadata :=
  let* grant := grantFor rq workspaceId "connections:write" in
  let* connection := tx (fun now d => Ok (revokeConnection workspaceId connectionId (Some (gr_subjectId grant)) now d)) in
  found connection.
End platform.

(** ** Versions

    A row keeps its identity and its version does not go back; between two states
    with the same version the credential and the status are the same. *)
Record row_later (r r' : ConnectionRow) : Prop := {
  rl_id : n_id r' = n_id r;
  rl_workspace : n_workspaceId r' = n_workspaceId r;
  rl_version : n_version r <= n_version r';
  rl_pinned : n_version r' = n_version r -> n_credentialEncrypted r' = n_credentialEncrypted r /\ n_status r' = n_status r
}.
#[export] Instance row_later_preorder : PreOrder row_later.
Proof.
  split; [by intros r|]. intros a b c [I1 W1 V1 P1] [I2 W2 V2 P2]. split; [congruence|congruence|lia|].
  intros E. destruct P1 as [E1 E2]; [lia|]. destruct P2 as [E3 E4]; [lia|]. split; congruence.
Qed.
Definition conn_ok (d : ConnectionDb) : Prop := numbered n_id (nextId d) (connections d).
Definition conn_later (d d' : ConnectionDb) : Prop := forall r, r ∈ connections d -> exists r', r' ∈ connections d' /\ row_later r r'.
#[export] Instance conn_later_preorder : PreOrder conn_later.
Proof.
  split; [intros d r Hr; by exists r|]. intros a b c H1 H2 r Hr. destruct (H1 r Hr) as (r1 & Hr1 & L1). destruct (H2 r1 Hr1) as (r2 & Hr2 & L2).
  exists r2. split; [done|by etransitivity].
Qed.

(** An update that counts the changes it makes. *)
Definition counted (p : ConnectionRow -> bool) (f : ConnectionRow -> ConnectionRow) : Prop := forall r, p r = true -> row_later r (f r).
Lemma update_later p f d : counted p f -> conn_ok d -> let d' := d <| connections ::= update_where p f |> in conn_ok d' /\ conn_later d d'.
Proof.
  intros Hf Hok. split.
  - apply numbered_update; [|done]. intros r Hr. apply Hf, Hr.
  - intros r Hr. exists (if p r then f r else r). split; [apply elem_of_update_where; by exists r|]. destruct (p r) eqn:E; [by apply Hf|done].
Qed.
Lemma counted_bump p f : (forall r, p r = true -> n_id (f r) = n_id r /\ n_workspaceId (f r) = n_workspaceId r /\ n_version (f r) = n_version r + 1) -> counted p f.
Proof. intros H r Hp. destruct (H r Hp) as (E1 & E2 & E3). split; [done|done|lia|lia]. Qed.

Lemma create_later i now d m d' : conn_ok d -> createConnection i now d = Ok (m, d') -> conn_ok d' /\ conn_later d d'.
Proof.
  unfold createConnection. destruct (getWorkspace _ _); [|done]. intros Hok [= _ <-]. split; [by apply numbered_append|].
  intros r Hr. exists r. split; [apply elem_of_app; by left|done].
Qed.
(** A status goes with a credential. *)
Definition guardedUpdate (i : UpdateConnectionInput) : Prop := ui_status i = None \/ is_Some (ui_credentialEncrypted i).
Lemma counted_update p i now : guardedUpdate i -> counted p (applyUpdate i now).
Proof.
  intros Hg r _. unfold applyUpdate. destruct i as [? ? ? ? ? ? ? st cr ? ? ? ?]. cbn in *. destruct cr as [c|]; [split; cbn; [done|done|lia|lia]|].
  destruct Hg as [Hst|[? ?]]; [|done]. cbn in Hst. subst st. by split.
Qed.
Lemma revoke_later ws id s now d : conn_ok d -> conn_ok (revokeConnection ws id s now d).2 /\ conn_later d (revokeConnection ws id s now d).2.
Proof. apply update_later, counted_bump. done. Qed.
Lemma patch_later i now d : guardedUpdate i -> conn_ok d -> conn_ok (updateConnection i now d).2 /\ conn_later d (updateConnection i now d).2.
Proof. intros Hg. by apply update_later, counted_update. Qed.
Lemma refresh_later i now d : conn_ok d -> conn_ok (recordConnectionTokenRefresh i now d).2 /\ conn_later d (recordConnectionTokenRefresh i now d).2.
Proof. apply update_later, counted_bump. done. Qed.
Lemma status_later ws s e id v now d : conn_ok d -> conn_ok (setConnectionStatus ws s e id v now d).2 /\ conn_later d (setConnectionStatus ws s e id v now d).2.
Proof. apply update_later, counted_bump. done. Qed.
Lemma used_later ws id now d : conn_ok d -> conn_ok (recordConnectionUsed ws id now d) /\ conn_later d (recordConnectionUsed ws id now d).
Proof. apply update_later. intros r _. by split. Qed.

(** The row a version pins. *)
Lemma pinned_row d d' r r' : conn_ok d' -> conn_later d d' -> r ∈ connections d -> r' ∈ connections d' -> n_id r' = n_id r -> row_later r r'.
Proof. intros Hok Hl Hr Hr' E. destruct (Hl r Hr) as (r1 & Hr1 & L). by assert (r1 = r') as <- by (apply (numbered_unique n_id _ _ _ _ Hok Hr1 Hr'); rewrite (rl_id _ _ L); congruence). Qed.

(** A write guarded by an old version does nothing. *)
Lemma report_none p f d : (forall r, r ∈ connections d -> p r = false) -> updateReporting p f d = (false, d).
Proof.
  intros Hp. destruct d as [a t n k]. unfold updateReporting. cbn -[update_where] in *. rewrite (update_where_none p) by done. f_equal.
  apply not_true_iff_false. intros (r' & Hr'%list_elem_of_In & Hp')%existsb_exists. by rewrite Hp in Hp'.
Qed.
Lemma guard_fails ws id v d r : conn_ok d -> r ∈ connections d -> n_id r = id -> v < n_version r ->
  forall r', r' ∈ connections d -> connectionIs ws id r' && (n_version r' =? v) = false.
Proof.
  intros Hok Hr Hid Hv r' Hr'. apply not_true_iff_false. intros [[_ E%same_eq]%andb_true_iff Ev%Z.eqb_eq]%andb_true_iff.
  assert (r' = r) as -> by (apply (numbered_unique n_id _ _ _ _ Hok Hr' Hr); congruence). lia.
Qed.
Lemma stale_refresh i now d r : conn_ok d -> r ∈ connections d -> n_id r = rr_id i -> rr_version i < n_version r ->
  recordConnectionTokenRefresh i now d = (false, d).
Proof. intros Hok Hr Hid Hv. apply report_none. intros r' Hr'. unfold renewable. by rewrite (guard_fails _ _ _ _ _ Hok Hr Hid Hv). Qed.
Lemma stale_status ws s e id v now d r : conn_ok d -> r ∈ connections d -> n_id r = id -> v < n_version r ->
  setConnectionStatus ws s e id v now d = (false, d).
Proof. intros Hok Hr Hid Hv. apply report_none. exact (guard_fails _ _ _ _ _ Hok Hr Hid Hv). Qed.

(** ** The tasks of the API *)

Section tasks.
Context `{tokens : TokenPlatform} `{digests : DigestPlatform} `{cipher : CipherPlatform} (settings : ConnectionSettings).
Abbreviation safe := (safe (E := AccessError) (O := Outgoing) conn_ok conn_later).

Definition ended {A} (m : Handler A) : Handler unit := let* _ := m in Ret tt.
Inductive connection_task : Handler unit -> Prop :=
| task_list rq ws : connection_task (ended (listRoute settings rq ws))
| task_create rq iv ws body : connection_task (ended (createRoute settings rq iv ws body))
| task_get rq ws id : connection_task (ended (getRoute settings rq ws id))
| task_patch rq iv ws id body : connection_task (ended (patchRoute settings rq iv ws id body))
| task_delete rq ws id : connection_task (ended (deleteRoute settings rq ws id))
| task_access {A} (m : Access.Handler A) : connection_task (ended (accessing m)).

Lemma safe_on_access {A} (m : Access.Handler A) d : safe (accessing m) d.
Proof. apply (safe_embed conn_ok conn_later _). intros x d1 Hok. split; [exact Hok|]. intros r Hr. by exists r. Qed.
Lemma safe_write {R} (op : Z -> ConnectionDb -> R * ConnectionDb) d :
  (forall now d, conn_ok d -> conn_ok (op now d).2 /\ conn_later d (op now d).2) -> safe (tx (fun now d => Ok (op now d))) d.
Proof. intros H. apply (wp_tx conn_ok conn_later). intros d1 now r d2 _ Hi [= E]. destruct (H now d1 Hi) as [H1 H2]. rewrite E in H1, H2. done. Qed.
Lemma safe_create i d : safe (tx (createConnection i)) d.
Proof. apply (wp_tx conn_ok conn_later). intros d1 now r d2 _ Hi E. by destruct (create_later _ _ _ _ _ Hi E). Qed.
Lemma safe_revokeRow ws id s d : safe (tx (fun now d => Ok (revokeConnection ws id s now d))) d.
Proof. apply (safe_write (fun now => revokeConnection ws id s now)). intros now d1. apply revoke_later. Qed.
Ltac connections :=
  repeat first
    [ done | apply safe_read | apply safe_create | apply safe_revokeRow | apply safe_on_access | apply safe_bind; [|intros] | progress intros
    | match goal with |- context [match ?x with _ => _ end] => destruct x eqn:? end ].

Lemma safe_updateRow i d : guardedUpdate i -> safe (tx (fun now d => Ok (updateConnection i now d))) d.
Proof. intros Hg. apply (safe_write (updateConnection i)). intros now d1. by apply patch_later. Qed.
Lemma safe_patch rq iv ws id body d : safe (patchRoute settings rq iv ws id body) d.
Proof.
  unfold patchRoute. apply safe_bind; [apply safe_on_access|]. intros grant d1.
  apply (wp_then _ _ (fun _ _ => pb_status body = None \/ is_Some (pb_credential body))).
  { unfold checkStatus, refuseOn. destruct (pb_status body); [|by left]. destruct (negb _); [done|]. destruct (pb_credential body); [right; by eexists|done]. }
  intros [] d2 Hst. apply (wp_then _ _ (fun key _ => is_Some (pb_credential body) -> is_Some key)).
  { unfold whenGiven, requireEnvironmentEncryption, refuseOn. destruct (pb_credential body); [|by intros [? ?]].
    destruct (environmentsEncryptionKeyBytes settings) as [[key|]|]; cbn; [intros _; by eexists|done|done]. }
  intros key d3 Hk. apply safe_bind; [unfold whenGiven, writableSubjectId, refuseOn; connections|]. intros subject d4.
  apply safe_bind; [unfold whenGiven, canonicalProviderDomain, refuseOn; connections|]. intros domain d5.
  apply (wp_then _ _ (fun stored _ => is_Some (pb_credential body) -> is_Some stored)).
  { unfold encryptCredentialBundle. destruct (pb_credential body) as [c|]; [|by intros [? ?]]. destruct key as [key|]; [|by destruct Hk].
    destruct (encryptEnvironmentValue _ _ _); cbn; [intros _; by eexists|done]. }
  intros stored d6 Hs. apply safe_bind; [apply safe_updateRow; destruct Hst; [by left|right; by apply Hs]|]. unfold found, refuseOn. intros [c|]; done.
Qed.
Lemma safe_connection_task m d : connection_task m -> safe m d.
Proof.
  unfold ended. destruct 1; (apply safe_bind; [|done]); [..|apply safe_on_access].
  - unfold listRoute, grantFor. connections.
  - unfold createRoute, grantFor, requireEnvironmentEncryption, writableSubjectId, canonicalProviderDomain, encryptCredentialBundle, refuseOn. connections.
  - unfold getRoute, grantFor, found, refuseOn. connections.
  - apply safe_patch.
  - unfold deleteRoute, grantFor, found, refuseOn. connections.
Qed.
End tasks.
End Connections.
