(* ===== verification/RateLimit.v ===== *)
(** * The rate limit of the enrollment routes ([routes/enrollments.ts])

    A token bucket per client.  Tokens are counted in units of 1/2000, so that a
    millisecond of the slowest rate, half a token per second, is one unit; the
    rounding of the code's floating point is not modelled. *)
From stdpp Require Import gmap.
From S2P Require Import Prelude Json Encoding NatsJwt Access.
#[local] Open Scope Z_scope.
#[local] Open Scope opengeni_scope.

Module RateLimit.
Import Access NatsJwt.

Record Bucket := { tokens : Z; updatedAt : Z }.
(** [refill] is in units per millisecond: twice the rate per second. *)
Record TokenBucket := { capacity : Z; refill : Z }.
Definition unit_ : Z := 2000.
Definition full (l : TokenBucket) : Z := capacity l * unit_.
Abbreviation Buckets := (gmap jstr Bucket).

Definition startLimiter : TokenBucket := {| capacity := 10; refill := 1 |}.
Definition pollLimiter : TokenBucket := {| capacity := 60; refill := 4 |}.
Definition lookupLimiter : TokenBucket := {| capacity := 30; refill := 2 |}.
Definition exchangeLimiter : TokenBucket := {| capacity := 20; refill := 1 |}.

(** The tokens of a bucket at [now]. *)
Definition level (l : TokenBucket) (now : Z) (b : Bucket) : Z := Z.min (full l) (tokens b + Z.max 0 (now - updatedAt b) * refill l).
Definition take (l : TokenBucket) (key : jstr) (now : Z) (buckets : Buckets) : bool * Buckets :=
  let bucket := default {| tokens := full l; updatedAt := now |} (buckets !! key) in
  let available := level l now bucket in
  let buckets := if (full l <=? available) && (10000 <? Z.of_nat (size buckets)) then delete key buckets else buckets in
  if available <? unit_ then (false, <[key := {| tokens := available; updatedAt := now |}]> buckets)
  else (true, <[key := {| tokens := available - unit_; updatedAt := now |}]> buckets).

(** The first hop of [x-forwarded-for], then [x-real-ip]. *)
Definition clientIp (forwarded realIp : option jstr) : jstr :=
  let real := match nonEmpty (trim <$> realIp) with Some ip => ip | None => js "unknown" end in
  match nonEmpty forwarded with
  | Some hops => match nonEmpty (trim <$> head (splitOn 44 hops)) with Some first => first | None => real end
  | None => real
  end.

(** ** Sequences of requests *)

(** The verdicts of requests, each of a key at a time. *)
Fixpoint takes (l : TokenBucket) (requests : list (jstr * Z)) (buckets : Buckets) : list (jstr * bool) * Buckets :=
  match requests with
  | [] => ([], buckets)
  | (key, now) :: requests =>
      let '(verdict, buckets) := take l key now buckets in
      let '(verdicts, buckets) := takes l requests buckets in ((key, verdict) :: verdicts, buckets)
  end.
Definition admitted (key : jstr) (verdicts : list (jstr * bool)) : Z :=
  Z.of_nat (length (List.filter (fun v => bool_decide (v.1 = key) && v.2) verdicts)).

(** The bucket a key has after a request. *)
Lemma take_is l key now buckets :
  let available := level l now (default {| tokens := full l; updatedAt := now |} (buckets !! key)) in
  take l key now buckets =
    (unit_ <=? available, <[key := {| tokens := if unit_ <=? available then available - unit_ else available; updatedAt := now |}]>
       (if (full l <=? available) && (10000 <? Z.of_nat (size buckets)) then delete key buckets else buckets)).
Proof. cbn. unfold take. rewrite (Z.leb_antisym _ unit_). by destruct (_ <? unit_). Qed.

Lemma take_lookup l key now buckets k :
  let available := level l now (default {| tokens := full l; updatedAt := now |} (buckets !! key)) in
  (take l key now buckets).2 !! k =
    if decide (k = key) then Some {| tokens := if unit_ <=? available then available - unit_ else available; updatedAt := now |} else buckets !! k.
Proof.
  cbn. rewrite take_is. cbn. destruct (decide (k = key)) as [->|Hk]; [by rewrite lookup_insert_eq|]. rewrite lookup_insert_ne by done.
  destruct (_ && _); [by rewrite lookup_delete_ne|done].
Qed.

(** The tokens of a client at [now]. *)
Definition levelOf (l : TokenBucket) (key : jstr) (now : Z) (buckets : Buckets) : Z :=
  match buckets !! key with Some b => level l now b | None => full l end.
Lemma level_later l now now' b : 0 <= refill l -> updatedAt b <= now <= now' -> level l now' b <= level l now b + (now' - now) * refill l.
Proof. intros Hr Hn. unfold level. rewrite !Z.max_r by lia. assert (0 <= (now' - now) * refill l) by (apply Z.mul_nonneg_nonneg; lia). lia. Qed.
Lemma levelOf_pos l key now buckets : 0 <= refill l -> 0 <= capacity l -> (forall b, buckets !! key = Some b -> 0 <= tokens b) -> 0 <= levelOf l key now buckets.
Proof.
  intros Hr Hc Hb. unfold levelOf, level, full, unit_. destruct (buckets !! key) as [b|]; [|lia]. specialize (Hb b eq_refl).
  assert (0 <= Z.max 0 (now - updatedAt b) * refill l) by (apply Z.mul_nonneg_nonneg; lia). lia.
Qed.

Lemma takes_budget l key until : 0 <= refill l -> 0 <= capacity l -> forall requests buckets from,
  Sorted Z.le (from :: List.map snd requests) -> Forall (fun r => r.2 <= until) requests -> from <= until ->
  (forall b, buckets !! key = Some b -> 0 <= tokens b /\ updatedAt b <= from) ->
  admitted key (takes l requests buckets).1 * unit_ <= levelOf l key from buckets + (until - from) * refill l.
Proof.
  intros Hr Hc. induction requests as [|[k now] requests IH]; intros buckets from Hs Hu Hf Hb.
  - assert (0 <= levelOf l key from buckets) by (apply levelOf_pos; [done..|]; intros b E; by apply Hb). change (admitted key (takes l [] buckets).1) with 0. nia.
  - cbn [List.map snd] in Hs. apply Sorted_inv in Hs as [Hs Hle%HdRel_inv]. apply Forall_cons in Hu as [Hn Hu]. cbn in Hn.
    cbn [takes]. pose proof (take_lookup l k now buckets key) as Hlk. rewrite (take_is l k now buckets) in *. cbn [fst snd] in Hlk |- *.
    set (available := level l now _) in *. set (buckets' := <[_ := _]> _) in *. specialize (IH buckets' now Hs Hu Hn).
    destruct (takes l requests buckets') as [verdicts final]. cbn [fst] in IH |- *. unfold admitted in *. cbn [List.filter fst snd].
    assert (levelOf l key now buckets <= levelOf l key from buckets + (now - from) * refill l) as Hlater.
    { unfold levelOf. destruct (buckets !! key) as [b|] eqn:E; [|nia]. destruct (Hb b eq_refl). apply level_later; [done|lia]. }
    destruct (decide (key = k)) as [<-|Hk].
    + rewrite (bool_decide_eq_true_2 (key = key)) by done. cbn [andb].
      assert (available = levelOf l key now buckets) as Ha.
      { unfold available, levelOf. destruct (buckets !! key); [done|]. cbn. unfold level. cbn. rewrite Z.sub_diag. cbn. unfold full. lia. }
      assert (0 <= available) by (rewrite Ha; apply levelOf_pos; [done..|]; intros b E; by apply Hb).
      assert (forall b, buckets' !! key = Some b -> 0 <= tokens b /\ updatedAt b <= now) as Hb'.
      { intros b E. rewrite Hlk in E. injection E as <-. cbn. destruct (Z.leb_spec unit_ available); lia. }
      specialize (IH Hb'). unfold levelOf at 1 in IH. rewrite Hlk in IH. unfold level in IH. cbn [tokens updatedAt] in IH. rewrite Z.sub_diag in IH. cbn [Z.max Z.mul] in IH.
      destruct (Z.leb_spec unit_ available); cbn [length]; lia.
    + rewrite (bool_decide_eq_false_2 (k = key)) by congruence. cbn [andb].
      assert (forall b, buckets' !! key = Some b -> 0 <= tokens b /\ updatedAt b <= now) as Hb'.
      { intros b E. rewrite Hlk in E. destruct (Hb b E). lia. }
      specialize (IH Hb'). unfold levelOf at 1 in IH. rewrite Hlk in IH. fold (levelOf l key now buckets) in IH. lia.
Qed.

(** However the requests of the clients are interleaved, in any stretch of time a
    client is admitted at most its burst and what is refilled meanwhile, if the
    clock does not go back. *)
Theorem rate_bounded l key from until requests buckets :
  0 <= refill l -> 0 <= capacity l -> Sorted Z.le (from :: List.map snd requests) -> Forall (fun r => r.2 <= until) requests -> from <= until ->
  (forall b, buckets !! key = Some b -> 0 <= tokens b /\ updatedAt b <= from) ->
  admitted key (takes l requests buckets).1 * unit_ <= full l + (until - from) * refill l.
Proof.
  intros Hr Hc Hs Hu Hf Hb. etransitivity; [apply takes_budget; [done..|]; intros b E; by destruct (Hb b E)|].
  apply Z.add_le_mono_r. unfold levelOf, level. destruct (buckets !! key); lia.
Qed.

(** The keys a limiter has seen stay: the deletion is undone by the write that follows. *)
Lemma buckets_grow l key now buckets : dom (take l key now buckets).2 = {[key]} ∪ dom buckets.
Proof. rewrite take_is. cbn [snd]. rewrite dom_insert_L. destruct (_ && _); [rewrite dom_delete_L|done]. apply set_eq. intros k. destruct (decide (k = key)); set_solver. Qed.

(** An idle key regains its burst, and one that keeps asking is admitted at the rate. *)
Definition client : jstr := js "10.0.0.1".
Definition burst (n : nat) (now : Z) : list (jstr * Z) := repeat (client, now) n.
Example burst_then_rate :
  List.map snd (takes startLimiter (burst 11 0 ++ [(client, 1999); (client, 2000)]) ∅).1 = repeat true 10 ++ [false; false; true].
Proof. vm_compute. reflexivity. Qed.

Lemma rate_bounded_witness : Sorted Z.le (List.map snd (burst 11 0 ++ [(client, 1999); (client, 2000)])) /\
  admitted client (takes startLimiter (burst 11 0 ++ [(client, 1999); (client, 2000)]) ∅).1 <= 11.
Proof.
  assert (Sorted Z.le (0 :: List.map snd (burst 11 0 ++ [(client, 1999); (client, 2000)]))) as Hs by (cbn; repeat (constructor; try lia)).
  split; [by apply Sorted_inv in Hs as [? _]|].
  assert (admitted client (takes startLimiter (burst 11 0 ++ [(client, 1999); (client, 2000)]) ∅).1 * unit_ <= full startLimiter + (2000 - 0) * refill startLimiter) as H.
  { apply rate_bounded; [done|done|exact Hs|cbn; repeat (constructor; try (cbn; lia))|lia|]. intros b E. rewrite lookup_empty in E. done. }
  set (n := admitted _ _) in *. change (n * 2000 <= 22000) in H. lia.
Defined.

(** A clock that goes back is measured again. *)
Example clock_back :
  admitted client (takes startLimiter (burst 10 20000 ++ [(client, 0)] ++ burst 10 20000) ∅).1 = 20.
Proof. vm_compute. reflexivity. Qed.

Example client_ips :
  clientIp (Some (js " 1.2.3.4 , 10.0.0.9")) None = js "1.2.3.4" /\ clientIp (Some (js ",10.0.0.9")) (Some (js " 5.6.7.8")) = js "5.6.7.8" /\ clientIp None None = js "unknown".
Proof. split_and!; vm_compute; reflexivity. Qed.
End RateLimit.
