(* ===== verification/Enrollments.v ===== *)
(** * Connected machines ([packages/db/src/index.ts], [apps/api/src/sandbox/enrollment.ts],
      [apps/api/src/sandbox/auth-callout.ts] and [apps/api/src/routes/enrollments.ts])

    A machine is enrolled by a device flow a user approves or by a signed enroll
    token; its credentials are a bearer and a relay token; every connection to
    the message bus is authorized by the callout, which reads the enrollment
    again.  [exposure] has one value and is left out, as are [updated_at] and the
    measurements of a machine. *)
From S2P Require Import Prelude Json JsonParse Encoding Sql Tokens NatsJwt Activity Access.
#[local] Open Scope Z_scope.
#[local] Open Scope opengeni_scope.

Module Enrollments.
Import Activity Tokens Access NatsJwt.

(** ** Tables *)

Inductive EnrollmentStatus := active | revoked.
#[export] Instance EnrollmentStatus_eq_dec : EqDecision EnrollmentStatus.
Proof. solve_decision. Defined.
Inductive DeviceEnrollmentStatus := pending | approved | denied | consumed.
#[export] Instance DeviceEnrollmentStatus_eq_dec : EqDecision DeviceEnrollmentStatus.
Proof. solve_decision. Defined.
Inductive SandboxKind := modal | selfhosted.
#[export] Instance SandboxKind_eq_dec : EqDecision SandboxKind.
Proof. solve_decision. Defined.

(** [enrollments] *)
Record EnrollmentRow := {
  e_id : jstr; e_accountId : jstr; e_workspaceId : jstr; e_pubkey : jstr; e_hasDisplay : bool; e_opStream : bool;
  e_desktopUnavailableReason : option jstr; e_allowScreenControl : bool; e_status : EnrollmentStatus; e_os : jstr; e_arch : jstr;
  e_lastSeenAt : option Z; e_wentOfflineAt : option Z; e_wentOfflineReason : option jstr; e_createdAt : Z; e_revokedAt : option Z
}.
#[export] Instance etaEnrollmentRow : Settable EnrollmentRow := fun r =>
  Build_EnrollmentRow (e_id r) (e_accountId r) (e_workspaceId r) (e_pubkey r) (e_hasDisplay r) (e_opStream r) (e_desktopUnavailableReason r)
    (e_allowScreenControl r) (e_status r) (e_os r) (e_arch r) (e_lastSeenAt r) (e_wentOfflineAt r) (e_wentOfflineReason r) (e_createdAt r) (e_revokedAt r).
(** [device_enrollment_requests] *)
Record RequestRow := {
  q_id : jstr; q_deviceCode : jstr; q_userCode : jstr; q_accountId : jstr; q_workspaceId : jstr; q_pubkey : jstr; q_os : jstr; q_arch : jstr;
  q_machineName : option jstr; q_canOfferDisplay : bool; q_requestsScreenControl : bool; q_status : DeviceEnrollmentStatus;
  q_approvedBySubjectId : option jstr; q_approvedBySubjectLabel : option jstr; q_allowScreenControl : bool; q_approvedAt : option Z;
  q_enrollmentId : option jstr; q_sandboxId : option jstr; q_expiresAt : Z
}.
#[export] Instance etaRequestRow : Settable RequestRow := fun r =>
  Build_RequestRow (q_id r) (q_deviceCode r) (q_userCode r) (q_accountId r) (q_workspaceId r) (q_pubkey r) (q_os r) (q_arch r) (q_machineName r)
    (q_canOfferDisplay r) (q_requestsScreenControl r) (q_status r) (q_approvedBySubjectId r) (q_approvedBySubjectLabel r) (q_allowScreenControl r)
    (q_approvedAt r) (q_enrollmentId r) (q_sandboxId r) (q_expiresAt r).
(** [sandboxes] *)
Record SandboxRow := { b_id : jstr; b_accountId : jstr; b_workspaceId : jstr; b_kind : SandboxKind; b_name : jstr; b_enrollmentId : option jstr; b_createdAt : Z }.
(** What [sessions] holds for the routing of sandbox operations. *)
Record PointerRow := {
  s_id : jstr; s_workspaceId : jstr; s_backend : jstr; s_groupId : jstr; s_activeTurnId : option jstr;
  s_activeSandboxId : option jstr; s_activeEpoch : Z; s_workingDir : option jstr; s_createdAt : Z
}.
#[export] Instance etaPointerRow : Settable PointerRow := fun r =>
  Build_PointerRow (s_id r) (s_workspaceId r) (s_backend r) (s_groupId r) (s_activeTurnId r) (s_activeSandboxId r) (s_activeEpoch r) (s_workingDir r) (s_createdAt r).

Record MachineDb := {
  access : AccessDb; enrollments : list EnrollmentRow; requests : list RequestRow; sandboxes : list SandboxRow; pointers : list PointerRow; nextId : nat
}.
#[export] Instance etaMachineDb : Settable MachineDb := fun d =>
  Build_MachineDb (access d) (enrollments d) (requests d) (sandboxes d) (pointers d) (nextId d).
Abbreviation Handler := (Program MachineDb AccessError Outgoing).
Definition putAccess (a : AccessDb) (d : MachineDb) : MachineDb := d <| access := a |>.
(** A handler of the access tables. *)
Definition accessing {A} (m : Access.Handler A) : Handler A := embed access putAccess m.

(** ** The repository *)

Definition enrollmentOf (workspaceId enrollmentId : jstr) (e : EnrollmentRow) : bool := same (e_workspaceId e) workspaceId && same (e_id e) enrollmentId.
Definition machineOf (workspaceId pubkey : jstr) (e : EnrollmentRow) : bool := same (e_workspaceId e) workspaceId && same (e_pubkey e) pubkey.
Definition isActive (e : EnrollmentRow) : bool := bool_decide (e_status e = active).
Definition isStatus (s : DeviceEnrollmentStatus) (q : RequestRow) : bool := bool_decide (q_status q = s).

Definition getEnrollment (workspaceId enrollmentId : jstr) (d : MachineDb) : option EnrollmentRow := List.find (enrollmentOf workspaceId enrollmentId) (enrollments d).
Definition listEnrollments (workspaceId : jstr) (status : option EnrollmentStatus) (d : MachineDb) : list EnrollmentRow :=
  sort_by (fun e => - e_createdAt e)
    (select_where (fun e => same (e_workspaceId e) workspaceId && match status with Some s => bool_decide (e_status e = s) | None => true end) (enrollments d)).

(** What an enrollment is written with. *)
Record MachineInput := { mi_accountId : jstr; mi_workspaceId : jstr; mi_pubkey : jstr; mi_hasDisplay : bool; mi_allowScreenControl : bool; mi_os : jstr; mi_arch : jstr }.
Definition reenroll (i : MachineInput) (e : EnrollmentRow) : EnrollmentRow :=
  (((((e <| e_hasDisplay := mi_hasDisplay i |>) <| e_allowScreenControl := mi_allowScreenControl i |>) <| e_os := mi_os i |>) <| e_arch := mi_arch i |>)
     <| e_status := active |>) <| e_revokedAt := None |>.
(** [insert ... on conflict (workspace_id, pubkey) do update] *)
Definition createEnrollment (i : MachineInput) (now : Z) (d : MachineDb) : result AccessError (EnrollmentRow * MachineDb) :=
  let mine := machineOf (mi_workspaceId i) (mi_pubkey i) in
  match List.find mine (enrollments d) with
  | Some e => Ok (reenroll i e, d <| enrollments ::= update_where mine (reenroll i) |>)
  | None =>
      match getWorkspace (mi_workspaceId i) (access d) with
      | None => Err (Thrown "insert or update violates foreign key constraint")
      | Some _ =>
          let e := {| e_id := generated (nextId d); e_accountId := mi_accountId i; e_workspaceId := mi_workspaceId i; e_pubkey := mi_pubkey i;
                      e_hasDisplay := mi_hasDisplay i; e_opStream := false; e_desktopUnavailableReason := None; e_allowScreenControl := mi_allowScreenControl i;
                      e_status := active; e_os := mi_os i; e_arch := mi_arch i; e_lastSeenAt := None; e_wentOfflineAt := None; e_wentOfflineReason := None;
                      e_createdAt := now; e_revokedAt := None |} in
          Ok (e, (d <| enrollments ::= fun t => t ++ [e] |>) <| nextId ::= S |>)
      end
  end.

(** The updates of one enrollment; the guarded ones report whether they wrote. *)
Definition updateEnrollment (p : EnrollmentRow -> bool) (f : EnrollmentRow -> EnrollmentRow) (workspaceId enrollmentId : jstr) (d : MachineDb) : bool * MachineDb :=
  let mine e := enrollmentOf workspaceId enrollmentId e && p e in
  (existsb mine (enrollments d), d <| enrollments ::= update_where mine f |>).
Definition revokeEnrollment (now : Z) : jstr -> jstr -> MachineDb -> bool * MachineDb :=
  updateEnrollment isActive (fun e => (e <| e_status := revoked |>) <| e_revokedAt := Some now |>).
Definition touchEnrollmentLastSeen (now : Z) : jstr -> jstr -> MachineDb -> bool * MachineDb :=
  updateEnrollment (fun _ => true) (fun e => ((e <| e_lastSeenAt := Some now |>) <| e_wentOfflineAt := None |>) <| e_wentOfflineReason := None |>).
Definition setEnrollmentWentOffline (now : Z) (reason : jstr) : jstr -> jstr -> MachineDb -> bool * MachineDb :=
  updateEnrollment (fun _ => true) (fun e => (e <| e_wentOfflineAt := Some now |>) <| e_wentOfflineReason := Some reason |>).
Definition clearEnrollmentWentOffline : jstr -> jstr -> MachineDb -> bool * MachineDb :=
  updateEnrollment (fun e => match e_wentOfflineAt e with Some _ => true | None => false end)
    (fun e => (e <| e_wentOfflineAt := None |>) <| e_wentOfflineReason := None |>).
Definition setEnrollmentDisplayState (hasDisplay : bool) (reason : option jstr) : jstr -> jstr -> MachineDb -> bool * MachineDb :=
  updateEnrollment (fun e => negb (Bool.eqb (e_hasDisplay e) hasDisplay) || negb (bool_decide (e_desktopUnavailableReason e = reason)))
    (fun e => (e <| e_hasDisplay := hasDisplay |>) <| e_desktopUnavailableReason := reason |>).
Definition setEnrollmentOpStreamState (opStream : bool) : jstr -> jstr -> MachineDb -> bool * MachineDb :=
  updateEnrollment (fun e => negb (Bool.eqb (e_opStream e) opStream)) (fun e => e <| e_opStream := opStream |>).

(** [device_enrollment_requests] *)
Record StartInput := {
  si_accountId : jstr; si_workspaceId : jstr; si_publicKey : jstr; si_os : jstr; si_arch : jstr; si_machineName : option jstr;
  si_canOfferDisplay : bool; si_requestsScreenControl : bool
}.
Definition createDeviceEnrollmentRequest (i : StartInput) (deviceCode userCode : jstr) (expiresAt : Z) (d : MachineDb) : result AccessError (RequestRow * MachineDb) :=
  if existsb (fun q => same (q_deviceCode q) deviceCode || isStatus pending q && same (q_userCode q) userCode) (requests d)
  then Err (Thrown "duplicate key value violates unique constraint")
  else match getWorkspace (si_workspaceId i) (access d) with
       | None => Err (Thrown "insert or update violates foreign key constraint")
       | Some _ =>
           let q := {| q_id := generated (nextId d); q_deviceCode := deviceCode; q_userCode := userCode; q_accountId := si_accountId i;
                       q_workspaceId := si_workspaceId i; q_pubkey := si_publicKey i; q_os := si_os i; q_arch := si_arch i;
                       q_machineName := si_machineName i; q_canOfferDisplay := si_canOfferDisplay i; q_requestsScreenControl := si_requestsScreenControl i;
                       q_status := pending; q_approvedBySubjectId := None; q_approvedBySubjectLabel := None; q_allowScreenControl := false;
                       q_approvedAt := None; q_enrollmentId := None; q_sandboxId := None; q_expiresAt := expiresAt |} in
           Ok (q, (d <| requests ::= fun t => t ++ [q] |>) <| nextId ::= S |>)
       end.
Definition requestByDeviceCode (deviceCode : jstr) (d : MachineDb) : option RequestRow := List.find (fun q => same (q_deviceCode q) deviceCode) (requests d).
Definition getPendingDeviceEnrollmentRequestByUserCode (workspaceId userCode : jstr) (d : MachineDb) : option RequestRow :=
  List.find (fun q => same (q_workspaceId q) workspaceId && same (q_userCode q) userCode && isStatus pending q) (requests d).
Definition pendingByUserCode (userCode : jstr) (d : MachineDb) : option RequestRow :=
  List.find (fun q => same (q_userCode q) userCode && isStatus pending q) (requests d).

(** [finalizeEnrollmentInScope]: the enrollment and its sandbox. *)
Definition sandboxOn (workspaceId enrollmentId : jstr) (b : SandboxRow) : bool := same (b_workspaceId b) workspaceId && isValue (b_enrollmentId b) enrollmentId.
Definition finalizeEnrollmentInScope (i : MachineInput) (sandboxName : jstr) (now : Z) (d : MachineDb)
  : result AccessError ((EnrollmentRow * SandboxRow) * MachineDb) :=
  match createEnrollment i now d with
  | Err e => Err e
  | Ok (e, d) =>
      match List.find (sandboxOn (mi_workspaceId i) (e_id e)) (sandboxes d) with
      | Some b => Ok ((e, b), d)
      | None =>
          let b := {| b_id := generated (nextId d); b_accountId := mi_accountId i; b_workspaceId := mi_workspaceId i; b_kind := selfhosted;
                      b_name := sandboxName; b_enrollmentId := Some (e_id e); b_createdAt := now |} in
          Ok ((e, b), (d <| sandboxes ::= fun t => t ++ [b] |>) <| nextId ::= S |>)
      end
  end.
Definition finalizeEnrollmentByToken : MachineInput -> jstr -> Z -> MachineDb -> result AccessError ((EnrollmentRow * SandboxRow) * MachineDb) :=
  finalizeEnrollmentInScope.

Definition requestOf (workspaceId requestId : jstr) (q : RequestRow) : bool := same (q_workspaceId q) workspaceId && same (q_id q) requestId.
Definition machineInput (accountId workspaceId : jstr) (allowScreenControl : bool) (q : RequestRow) : MachineInput := {|
  mi_accountId := accountId; mi_workspaceId := workspaceId; mi_pubkey := q_pubkey q; mi_hasDisplay := q_canOfferDisplay q;
  mi_allowScreenControl := allowScreenControl; mi_os := q_os q; mi_arch := q_arch q |}.
Record ApproveInput := {
  ai_accountId : jstr; ai_workspaceId : jstr; ai_requestId : jstr; ai_allowScreenControl : bool; ai_approvedBySubjectId : jstr;
  ai_approvedBySubjectLabel : option jstr; ai_sandboxName : jstr
}.
Definition approval (i : ApproveInput) (now : Z) (e : EnrollmentRow) (b : SandboxRow) (q : RequestRow) : RequestRow :=
  ((((((q <| q_status := approved |>) <| q_allowScreenControl := ai_allowScreenControl i |>) <| q_approvedBySubjectId := Some (ai_approvedBySubjectId i) |>)
      <| q_approvedBySubjectLabel := ai_approvedBySubjectLabel i |>) <| q_approvedAt := Some now |>) <| q_enrollmentId := Some (e_id e) |>)
    <| q_sandboxId := Some (b_id b) |>.
Definition approveDeviceEnrollmentRequest (i : ApproveInput) (now : Z) (d : MachineDb) : result AccessError (option (EnrollmentRow * SandboxRow) * MachineDb) :=
  match List.find (requestOf (ai_workspaceId i) (ai_requestId i)) (requests d) with
  | None => Ok (None, d)
  | Some q =>
      if isStatus denied q || isStatus consumed q then Ok (None, d)
      else if isStatus pending q && (q_expiresAt q <=? now) then Ok (None, d)
      else match finalizeEnrollmentInScope (machineInput (ai_accountId i) (ai_workspaceId i) (ai_allowScreenControl i) q) (ai_sandboxName i) now d with
           | Err e => Err e
           | Ok ((e, b), d) => Ok (Some (e, b), d <| requests ::= update_where (fun q' => same (q_id q') (q_id q)) (approval i now e b) |>)
           end
  end.
(** A fenced change of status. *)
Definition moveRequest (from to : DeviceEnrollmentStatus) (workspaceId requestId : jstr) (d : MachineDb) : bool * MachineDb :=
  let mine q := requestOf workspaceId requestId q && isStatus from q in
  (existsb mine (requests d), d <| requests ::= update_where mine (fun q => q <| q_status := to |>) |>).
Definition denyDeviceEnrollmentRequest : jstr -> jstr -> MachineDb -> bool * MachineDb := moveRequest pending denied.
Definition consumeDeviceEnrollmentRequest : jstr -> jstr -> MachineDb -> bool * MachineDb := moveRequest approved consumed.

(** ** The device flow ([apps/api/src/sandbox/enrollment.ts]) *)

Record MachineSettings := {
  api : Settings; enrollmentSigningSecret : option jstr; selfhostedRelayTokenSecret : option jstr; streamTokenSecret : option jstr;
  sandboxSelfhostedEnabled : bool; selfhostedNatsUrl : option jstr; relayDialBase : jstr; agentUpdatePublicKey : option jstr;
  calloutSeed : jstr; calloutAccount : jstr
}.
(** The first secret that is more than white space. *)
Definition firstSecret (secrets : list (option jstr)) : option jstr := head (omap (fun s => nonEmpty (trim <$> s)) secrets).
Definition resolveEnrollmentSigningSecret (s : MachineSettings) : option jstr := firstSecret [enrollmentSigningSecret s; delegationSecret (api s)].
Definition resolveRelayTokenSecret (s : MachineSettings) : option jstr :=
  firstSecret [selfhostedRelayTokenSecret s; streamTokenSecret s; delegationSecret (api s)].

Definition DEVICE_CODE_TTL_SECONDS : Z := 600.
Definition ENROLLMENT_BEARER_TTL_SECONDS : Z := 30 * 24 * 3600.
Definition RELAY_TOKEN_TTL_SECONDS : Z := 30 * 24 * 3600.
Definition ENROLL_TOKEN_TTL_SECONDS : Z := 3600.

Definition machineName (name : option jstr) (os : jstr) : jstr := take 256 (match nonEmpty (trim <$> name) with Some n => n | None => os ++ js " machine" end).

(** [codes k] are the codes minted at attempt [k]. *)
Fixpoint startAttempts (attempts k : nat) (codes : nat -> jstr * jstr) (i : StartInput) (expiresAt : Z) : Handler RequestRow :=
  match attempts with
  | O => Throw (Thrown "failed to start device enrollment")
  | S n =>
      Tx (fun _ => createDeviceEnrollmentRequest i (codes k).1 (codes k).2 expiresAt)
        (fun r => match r with
                  | Ok q => Ret q
                  | Err e => match n with O => Throw e | S _ => startAttempts n (S k) codes i expiresAt end
                  end)
  end.
(** [at_] is [Date.now()]. *)
Definition startDeviceEnrollment (at_ : Z) (codes : nat -> jstr * jstr) (i : StartInput) : Handler (jstr * jstr) :=
  let* q := startAttempts 5 0 codes i (at_ + DEVICE_CODE_TTL_SECONDS * 1000) in Ret (q_deviceCode q, q_userCode q).

Record Approval := { ap_enrollmentId : jstr; ap_sandboxId : jstr; ap_allowScreenControl : bool }.
Definition approveDeviceEnrollment (accountId workspaceId userCode : jstr) (allowScreenControl : bool) (subjectId : jstr) (subjectLabel : option jstr)
  : Handler (option Approval) :=
  let* found := read (getPendingDeviceEnrollmentRequestByUserCode workspaceId userCode) in
  match found with
  | None => Ret None
  | Some q =>
      let* result := tx (approveDeviceEnrollmentRequest {| ai_accountId := accountId; ai_workspaceId := workspaceId; ai_requestId := q_id q;
        ai_allowScreenControl := allowScreenControl; ai_approvedBySubjectId := subjectId; ai_approvedBySubjectLabel := subjectLabel;
        ai_sandboxName := machineName (q_machineName q) (q_os q) |}) in
      Ret ((fun p => {| ap_enrollmentId := e_id p.1; ap_sandboxId := b_id p.2; ap_allowScreenControl := e_allowScreenControl p.1 |}) <$> result)
  end.
Definition denyDeviceEnrollment (workspaceId userCode : jstr) : Handler bool :=
  let* found := read (getPendingDeviceEnrollmentRequestByUserCode workspaceId userCode) in
  match found with
  | None => Ret false
  | Some q => tx (fun _ d => Ok (denyDeviceEnrollmentRequest workspaceId (q_id q) d))
  end.
(** The two reads of a lookup over all workspaces. *)
Definition twice {A} (q : MachineDb -> option A) : Handler (option A) :=
  let* known := read q in match known with None => Ret None | Some _ => read q end.
Definition getDeviceEnrollmentRequestByDeviceCode (deviceCode : jstr) : Handler (option RequestRow) := twice (requestByDeviceCode deviceCode).
Definition lookupDeviceEnrollment (userCode : jstr) : Handler (option RequestRow) := twice (pendingByUserCode userCode).

Record Credentials := {
  c_agentId : jstr; c_workspaceId : jstr; c_bearer : jstr; c_subjectPrefix : jstr; c_natsUrls : list jstr; c_relayUrl : jstr; c_relayToken : jstr;
  c_natsAccountCreds : jstr; c_updatePublicKey : jstr; c_consentedWholeMachine : bool; c_consentedScreenControl : bool
}.
Inductive PollResponse := P_expired | P_denied | P_pending | P_disabled | P_authorized (credentials : Credentials).
Inductive ExchangeResult := X_disabled | X_invalid | X_ok (credentials : Credentials).
Record ExchangeInput := { xi_token : jstr; xi_publicKey : jstr; xi_os : jstr; xi_arch : jstr; xi_machineName : option jstr; xi_canOfferDisplay : bool }.

Section platform.
Context `{tokens : TokenPlatform} `{digests : DigestPlatform} `{nkeys : NkeyPlatform} (settings : MachineSettings).

(** A token, or the [ZodError] of its schema. *)
Definition minted (r : result unit jstr) : Handler jstr := match r with Ok token => Ret token | Err _ => Throw (Thrown "ZodError") end.
Definition bearerPayload (workspaceId agentId : jstr) (nowSeconds : Z) : EnrollmentBearerPayload := {|
  eb_workspaceId := workspaceId; eb_agentId := agentId; eb_enrollmentId := agentId;
  eb_subjectPrefix := js "agent." ++ workspaceId ++ js "." ++ agentId; eb_exp := nowSeconds + ENROLLMENT_BEARER_TTL_SECONDS |}.
Definition buildEnrollmentCredentials (at_ : Z) (secret workspaceId agentId : jstr) (consentedScreenControl : bool) : Handler Credentials :=
  let nowSeconds := at_ / 1000 in
  let payload := bearerPayload workspaceId agentId nowSeconds in
  let* bearer := minted (signEnrollmentBearer secret payload) in
  let* relayToken := (match resolveRelayTokenSecret settings with
    | Some relaySecret => minted (signRelayToken relaySecret {| rt_workspaceId := workspaceId; rt_agentId := agentId; rt_exp := nowSeconds + RELAY_TOKEN_TTL_SECONDS |})
    | None => Ret []
    end) in
  Ret {| c_agentId := agentId; c_workspaceId := workspaceId; c_bearer := bearer; c_subjectPrefix := eb_subjectPrefix payload;
         c_natsUrls := match nonEmpty (selfhostedNatsUrl settings) with Some url => [url] | None => [] end; c_relayUrl := relayDialBase settings;
         c_relayToken := relayToken; c_natsAccountCreds := bearer; c_updatePublicKey := default [] (agentUpdatePublicKey settings);
         c_consentedWholeMachine := true; c_consentedScreenControl := consentedScreenControl |}.

Definition pollDeviceEnrollment (at_ : Z) (deviceCode : jstr) : Handler PollResponse :=
  let* request := getDeviceEnrollmentRequestByDeviceCode deviceCode in
  match request with
  | None => Ret P_expired
  | Some q =>
      match q_status q with
      | denied => Ret P_denied
      | pending => Ret (if q_expiresAt q <=? at_ then P_expired else P_pending)
      | approved | consumed =>
          match nonEmpty (q_enrollmentId q) with
          | None => Ret P_expired
          | Some enrollmentId =>
              match resolveEnrollmentSigningSecret settings with
              | None => Ret P_disabled
              | Some secret =>
                  let* enrollment := read (getEnrollment (q_workspaceId q) enrollmentId) in
                  match enrollment with
                  | Some e =>
                      if isActive e then
                        let* credentials := buildEnrollmentCredentials at_ secret (q_workspaceId q) (e_id e) (e_allowScreenControl e) in
                        (if isStatus approved q
                         then let* _ := tx (fun _ d => Ok (consumeDeviceEnrollmentRequest (q_workspaceId q) (q_id q) d)) in Ret tt
                         else Ret tt) ;;
                        Ret (P_authorized credentials)
                      else Ret P_denied
                  | None => Ret P_denied
                  end
              end
          end
      end
  end.

Definition mintEnrollToken (at_ : Z) (accountId workspaceId : jstr) (allowScreenControl : bool) : Handler (option jstr) :=
  match resolveEnrollmentSigningSecret settings with
  | None => Ret None
  | Some secret =>
      let nowSeconds := at_ / 1000 in
      let* token := minted (signEnrollToken secret {| et_workspaceId := workspaceId; et_accountId := accountId;
        et_allowScreenControl := allowScreenControl; et_iat := nowSeconds; et_exp := nowSeconds + ENROLL_TOKEN_TTL_SECONDS |}) in
      Ret (Some token)
  end.
Definition exchangeEnrollToken (at_ : Z) (i : ExchangeInput) : Handler ExchangeResult :=
  match resolveEnrollmentSigningSecret settings with
  | None => Ret X_disabled
  | Some secret =>
      match verifyEnrollToken secret (xi_token i) (at_ / 1000) with
      | Err _ => Throw (Thrown "SyntaxError")
      | Ok None => Ret X_invalid
      | Ok (Some claims) =>
          let* finalized := tx (finalizeEnrollmentByToken {| mi_accountId := et_accountId claims; mi_workspaceId := et_workspaceId claims;
            mi_pubkey := xi_publicKey i; mi_hasDisplay := xi_canOfferDisplay i; mi_allowScreenControl := et_allowScreenControl claims;
            mi_os := xi_os i; mi_arch := xi_arch i |} (machineName (xi_machineName i) (xi_os i))) in
          let* credentials := buildEnrollmentCredentials at_ secret (et_workspaceId claims) (e_id finalized.1) (e_allowScreenControl finalized.1) in
          Ret (X_ok credentials)
      end
  end.

(** ** The callout ([auth-callout.ts]) *)

Definition respond (decoded : DecodedAuthRequest) (userJwt error : option jstr) (nowSeconds : Z) : jstr :=
  mintAuthResponse {| mr_userPublicKey := da_userNkey decoded; mr_serverId := da_serverId decoded; mr_accountSeed := calloutSeed settings;
    mr_userJwt := userJwt; mr_error := error |} nowSeconds.
Definition grantOf (decoded : DecodedAuthRequest) (claims : EnrollmentBearerPayload) (nowSeconds : Z) : jstr :=
  mintUserJwt {| mu_userPublicKey := da_userNkey decoded; mu_accountSeed := calloutSeed settings; mu_name := eb_agentId claims;
    mu_permissions := workspaceAgentPermissions (eb_workspaceId claims); mu_audienceAccount := calloutAccount settings;
    mu_expiresAtSeconds := Some (eb_exp claims) |} nowSeconds.
(** An error leaves the request unanswered. *)
Definition handleAuthorizationRequest (at_ : Z) (requestBytes : list Z) : Handler jstr :=
  let nowSeconds := at_ / 1000 in
  match decodeAuthRequest (utf8Decode requestBytes) with
  | None => Throw (Thrown "undecodable authorization request")
  | Some decoded =>
      let deny reason := Ret (respond decoded None (Some (js reason)) nowSeconds) in
      match nonEmpty (da_authToken decoded) with
      | None => deny "missing enrollment bearer"%string
      | Some bearer =>
          match resolveEnrollmentSigningSecret settings with
          | None => deny "enrollment credential plane disabled"%string
          | Some secret =>
              match verifyEnrollmentBearer secret bearer nowSeconds with
              | Err _ => Throw (Thrown "SyntaxError")
              | Ok None => deny "invalid or expired enrollment bearer"%string
              | Ok (Some claims) =>
                  let* enrollment := read (getEnrollment (eb_workspaceId claims) (eb_enrollmentId claims)) in
                  match enrollment with
                  | None => deny "enrollment is not active"%string
                  | Some e =>
                      if negb (isActive e) then deny "enrollment is not active"%string
                      else if negb (same (e_id e) (eb_enrollmentId claims)) then deny "enrollment identity mismatch"%string
                      else Ret (respond decoded (Some (grantOf decoded claims nowSeconds)) None nowSeconds)
                  end
              end
          end
      end
  end.

(** ** The routes ([routes/enrollments.ts]); [allowed] is the verdict of the rate limit. *)

Definition refuseOn {A} (status : Z) (message : string) : Handler A := Throw (HttpError status (js message)).
Definition assertSelfhostedEnabled : Handler unit :=
  if sandboxSelfhostedEnabled settings then Ret tt else refuseOn 404 "selfhosted enrollment is not enabled for this deployment".
Definition rateLimit (allowed : bool) : Handler unit := if allowed then Ret tt else refuseOn 429 "too many requests; slow down".
Definition grantFor (rq : Request) (workspaceId : jstr) (permission : string) : Handler AccessGrant :=
  accessing (requireAccessGrant (api settings) rq workspaceId (Some (js permission))).

Record StartBody := { sb_workspaceId : jstr; sb_publicKey : jstr; sb_os : jstr; sb_arch : jstr; sb_machineName : option jstr; sb_canOfferDisplay : bool; sb_requestsScreenControl : bool }.
Definition startRoute (allowed : bool) (at_ : Z) (codes : nat -> jstr * jstr) (body : StartBody) : Handler (jstr * jstr) :=
  assertSelfhostedEnabled ;; rateLimit allowed ;;
  let* workspace := accessing (read (getWorkspace (sb_workspaceId body))) in
  match workspace with
  | None => refuseOn 404 "workspace not found"
  | Some w =>
      startDeviceEnrollment at_ codes {| si_accountId := w_accountId w; si_workspaceId := w_id w; si_publicKey := sb_publicKey body; si_os := sb_os body;
        si_arch := sb_arch body; si_machineName := sb_machineName body; si_canOfferDisplay := sb_canOfferDisplay body;
        si_requestsScreenControl := sb_requestsScreenControl body |}
  end.
Definition pollRoute (allowed : bool) (at_ : Z) (deviceCode : jstr) : Handler PollResponse :=
  assertSelfhostedEnabled ;; rateLimit allowed ;; pollDeviceEnrollment at_ deviceCode.
Definition lookupRoute (allowed : bool) (rq : Request) (userCode : jstr) : Handler RequestRow :=
  assertSelfhostedEnabled ;; rateLimit allowed ;;
  let* record := lookupDeviceEnrollment userCode in
  match record with
  | None => refuseOn 404 "no pending enrollment for that code"
  | Some q =>
      catch (let* _ := grantFor rq (q_workspaceId q) "enrollments:read" in Ret tt) (fun _ => refuseOn 404 "no pending enrollment for that code") ;;
      Ret q
  end.
Definition exchangeRoute (allowed : bool) (at_ : Z) (body : ExchangeInput) : Handler Credentials :=
  assertSelfhostedEnabled ;; rateLimit allowed ;;
  let* result := exchangeEnrollToken at_ body in
  match result with
  | X_ok credentials => Ret credentials
  | X_disabled => refuseOn 503 "enrollment credential plane is not configured"
  | X_invalid => refuseOn 401 "invalid or expired enroll token"
  end.
Definition approveRoute (rq : Request) (workspaceId userCode : jstr) (allowScreenControl : bool) : Handler Approval :=
  let* grant := grantFor rq workspaceId "enrollments:manage" in
  assertSelfhostedEnabled ;;
  let* answer := approveDeviceEnrollment (gr_accountId grant) workspaceId userCode allowScreenControl (gr_subjectId grant) (gr_subjectLabel grant) in
  match answer with None => refuseOn 404 "no pending enrollment for that code" | Some a => Ret a end.
Definition denyRoute (rq : Request) (workspaceId userCode : jstr) : Handler bool :=
  let* _ := grantFor rq workspaceId "enrollments:manage" in
  assertSelfhostedEnabled ;; denyDeviceEnrollment workspaceId userCode.
Definition mintRoute (rq : Request) (at_ : Z) (workspaceId : jstr) (allowScreenControl : bool) : Handler jstr :=
  let* grant := grantFor rq workspaceId "enrollments:manage" in
  assertSelfhostedEnabled ;;
  let* minted := mintEnrollToken at_ (gr_accountId grant) workspaceId allowScreenControl in
  match minted with None => refuseOn 503 "enrollment credential plane is not configured" | Some token => Ret token end.
Definition revokeRoute (rq : Request) (workspaceId enrollmentId : jstr) : Handler bool :=
  let* _ := grantFor rq workspaceId "enrollments:manage" in
  assertSelfhostedEnabled ;; tx (fun now d => Ok (revokeEnrollment now workspaceId enrollmentId d)).
Definition listRoute (rq : Request) (workspaceId : jstr) (status : option EnrollmentStatus) : Handler (list EnrollmentRow) :=
  let* _ := grantFor rq workspaceId "enrollments:read" in
  assertSelfhostedEnabled ;; read (listEnrollments workspaceId status).

(** ** What the bus is told *)

(** The credential a response grants. *)
Definition granted (response : jstr) : option jstr := claims ← jwtClaims response; asString (propOf "jwt" (prop (js "nats") claims)).
Definition refused (response : jstr) : option jstr := claims ← jwtClaims response; asString (propOf "error" (prop (js "nats") claims)).

Lemma respond_reads decoded userJwt error nowSeconds :
  units (da_userNkey decoded) -> units (da_serverId decoded) -> (forall t, userJwt = Some t -> units t) -> (forall t, error = Some t -> units t) ->
  granted (respond decoded userJwt error nowSeconds) = nonEmpty userJwt /\ refused (respond decoded userJwt error nowSeconds) = nonEmpty error.
Proof.
  intros H1 H2 H3 H4. unfold granted, refused, respond.
  match goal with |- context [mintAuthResponse ?i ?n] => destruct (response_reads i n) as (claims & -> & Hj & He); [by split_and!|] end.
  cbn in *. rewrite Hj, He. by destruct userJwt as [[|]|], error as [[|]|].
Qed.

Lemma deny_reads decoded reason nowSeconds : units (da_userNkey decoded) -> units (da_serverId decoded) ->
  granted (respond decoded None (Some (js reason)) nowSeconds) = None /\ refused (respond decoded None (Some (js reason)) nowSeconds) = nonEmpty (Some (js reason)).
Proof. intros H1 H2. apply respond_reads; [done..|]. intros t [= <-]. apply units_js. Qed.

(** The texts of a verified bearer. *)
Lemma bearer_units secret token nowSeconds claims : verifyEnrollmentBearer secret token nowSeconds = Ok (Some claims) ->
  units (eb_workspaceId claims) /\ units (eb_agentId claims) /\ nowSeconds <= eb_exp claims.
Proof.
  intros H. destruct (accepted_token_signed EnrollmentBearer secret token nowSeconds claims H) as (body & signature & j & _ & _ & Hj & Hp & He).
  apply parse_wellFormed in Hj; [|apply units_base64UrlDecode]. cbn [safeParse] in Hp. unfold parseBearer in Hp.
  apply bind_Some in Hp as (w & Hw%zUuid_inv & (a & Ha%zUuid_inv & (n & _ & (p & _ & (x & _ & [= <-])%bind_Some)%bind_Some)%bind_Some)%bind_Some).
  cbn in *. split_and!; [exact (wellFormed_prop _ _ _ Hj Hw)|exact (wellFormed_prop _ _ _ Hj Ha)|done].
Qed.

Definition grantInput (decoded : DecodedAuthRequest) (claims : EnrollmentBearerPayload) : MintUserJwtInput := {|
  mu_userPublicKey := da_userNkey decoded; mu_accountSeed := calloutSeed settings; mu_name := eb_agentId claims;
  mu_permissions := workspaceAgentPermissions (eb_workspaceId claims); mu_audienceAccount := calloutAccount settings;
  mu_expiresAtSeconds := Some (eb_exp claims) |}.

Lemma grantInput_ok decoded claims : units (calloutAccount settings) -> units (da_userNkey decoded) -> units (eb_workspaceId claims) -> units (eb_agentId claims) ->
  input_ok (grantInput decoded claims).
Proof.
  intros H1 H2 H3 H4. assert (units (js "agent." ++ eb_workspaceId claims ++ js ".>")) as H5.
  { unfold units. repeat (apply Forall_app; split); [apply units_js|done|apply units_js]. }
  assert (units (js "_INBOX.>")) as H6 by apply units_js. unfold input_ok, grantInput, workspaceAgentPermissions. cbn. split_and!; try done; (constructor; [done|constructor; [done|constructor]]).
Qed.

Lemma grant_nonempty decoded claims nowSeconds : nonEmpty (Some (grantOf decoded claims nowSeconds)) = Some (grantOf decoded claims nowSeconds).
Proof. unfold grantOf, mintUserJwt, encodeJwt. rewrite <- app_assoc. cbn [app]. unfold nonEmpty. by destruct (base64UrlEncode (JSON_stringify JWT_HEADER) ++ _) eqn:E; [apply app_nil in E as [_ E]|]. Qed.

(** The callout, for a request that can be read and carries a bearer. *)
Definition calloutAnswer (decoded : DecodedAuthRequest) (bearer : jstr) (nowSeconds : Z) (d : MachineDb) : result AccessError jstr :=
  let deny reason := Ok (respond decoded None (Some (js reason)) nowSeconds) in
  match resolveEnrollmentSigningSecret settings with
  | None => deny "enrollment credential plane disabled"%string
  | Some secret =>
      match verifyEnrollmentBearer secret bearer nowSeconds with
      | Err _ => Err (Thrown "SyntaxError")
      | Ok None => deny "invalid or expired enrollment bearer"%string
      | Ok (Some claims) =>
          match getEnrollment (eb_workspaceId claims) (eb_enrollmentId claims) d with
          | Some e => if isActive e then Ok (respond decoded (Some (grantOf decoded claims nowSeconds)) None nowSeconds) else deny "enrollment is not active"%string
          | None => deny "enrollment is not active"%string
          end
      end
  end.

Lemma getEnrollment_is workspaceId id d e : getEnrollment workspaceId id d = Some e -> e ∈ enrollments d /\ e_workspaceId e = workspaceId /\ e_id e = id.
Proof. unfold getEnrollment, enrollmentOf. intros H. apply find_some in H as [Hin%list_elem_of_In [Hw%same_eq Hi%same_eq]%andb_true_iff]. done. Qed.

Lemma exec_callout now at_ bytes decoded bearer d : decodeAuthRequest (utf8Decode bytes) = Some decoded -> nonEmpty (da_authToken decoded) = Some bearer ->
  exec now (handleAuthorizationRequest at_ bytes) d = (calloutAnswer decoded bearer (at_ / 1000) d, [], d).
Proof.
  intros Hd Hb. unfold handleAuthorizationRequest, calloutAnswer. rewrite Hd, Hb. destruct (resolveEnrollmentSigningSecret settings) as [secret|]; [|done].
  destruct (verifyEnrollmentBearer _ _ _) as [[claims|]|]; [|done|done]. rewrite exec_read.
  destruct (getEnrollment _ _ d) as [e|] eqn:Ee; [|done]. destruct (isActive e); [|done]. cbn [negb].
  apply getEnrollment_is in Ee as (_ & _ & Hi). by rewrite (proj2 (same_eq _ _) Hi).
Qed.

(** (C16) A connection is granted only to a machine whose enrollment is active when the
    callout reads it, on a verified bearer that has not expired, and the
    credential reaches the subjects of the machine's own workspace and the reply
    inboxes, for the key that asked, until the bearer expires. *)
Theorem callout_scoped env at_ bytes d response out d' credential :
  units (calloutAccount settings) ->
  runs env (handleAuthorizationRequest at_ bytes) d (Ok response) out d' -> granted response = Some credential ->
  exists decoded bearer secret claims e user, decodeAuthRequest (utf8Decode bytes) = Some decoded /\ da_authToken decoded = Some bearer /\
    resolveEnrollmentSigningSecret settings = Some secret /\ verifyEnrollmentBearer secret bearer (at_ / 1000) = Ok (Some claims) /\ at_ / 1000 <= eb_exp claims /\
    e ∈ enrollments d' /\ e_status e = active /\ e_id e = eb_enrollmentId claims /\ e_workspaceId e = eb_workspaceId claims /\
    jwtClaims credential = Some user /\ prop (js "sub") user = Some (JStr (da_userNkey decoded)) /\ prop (js "exp") user = Some (JNum (eb_exp claims)) /\
    let scope := permissionJson [js "agent." ++ e_workspaceId e ++ js ".>"; js "_INBOX.>"] in
    propOf "pub" (prop (js "nats") user) = Some scope /\ propOf "sub" (prop (js "nats") user) = Some scope.
Proof.
  intros Hacc. unfold handleAuthorizationRequest. destruct (decodeAuthRequest _) as [decoded|] eqn:Ed; [|by intros []].
  destruct (decoded_units _ _ Ed) as [Hk Hs].
  assert (Hdeny : forall reason, runs env (Ret (respond decoded None (Some (js reason)) (at_ / 1000)) : Handler jstr) d (Ok response) out d' -> granted response <> Some credential).
  { intros reason ([= ->] & _ & _). by rewrite (proj1 (deny_reads decoded reason _ Hk Hs)). }
  destruct (nonEmpty (da_authToken decoded)) as [bearer|] eqn:Eb; [|by intros H%Hdeny ?].
  destruct (resolveEnrollmentSigningSecret settings) as [secret|] eqn:Es; [|by intros H%Hdeny ?].
  destruct (verifyEnrollmentBearer secret bearer _) as [[claims|]|] eqn:Ev; [|by intros H%Hdeny ?|by intros []].
  intros (now & d1 & r & d2 & _ & Hc & Hr) Hg. destruct Hc as [e0 d2 [= <- <-]|?|]; [|by destruct Hr..].
  destruct (getEnrollment _ _ d1) as [e|] eqn:Ee; [|destruct Hr as ([= ->] & _); by rewrite (proj1 (deny_reads decoded _ _ Hk Hs)) in Hg].
  apply getEnrollment_is in Ee as (Hin & Hw & Hi). cbn [bind runs] in Hr. destruct (isActive e) eqn:Ea; cbn [negb runs] in Hr;
    [|destruct Hr as ([= ->] & _); by rewrite (proj1 (deny_reads decoded _ _ Hk Hs)) in Hg].
  rewrite (proj2 (same_eq _ _) Hi) in Hr. cbn [negb] in Hr. destruct Hr as ([= ->] & _ & ->).
  destruct (bearer_units _ _ _ _ Ev) as (Uw & Ua & Hexp). pose proof (grantInput_ok decoded claims Hacc Hk Uw Ua) as Hok.
  assert (units (grantOf decoded claims (at_ / 1000))) as Hu by (apply units_encodeJwt; by apply (userClaims_ok (grantInput decoded claims))).
  destruct (respond_reads decoded (Some (grantOf decoded claims (at_ / 1000))) None (at_ / 1000)) as [Hgr _]; [done|done|by intros t [= <-]|done|].
  rewrite Hgr, grant_nonempty in Hg. injection Hg as <-.
  destruct (user_jwt_reads (grantInput decoded claims) (at_ / 1000) Hok) as (user & Hread & Hsub & Hp1 & Hp2 & He).
  exists decoded, bearer, secret, claims, e, user. rewrite Hw. unfold isActive in Ea. apply bool_decide_eq_true in Ea.
  split_and!; try done. by destruct (da_authToken decoded) as [[|]|].
Qed.

(** ** Credentials *)

Lemma seal_nonempty secret j : nonEmpty (Some (sealEnvelope (prefixOf EnrollmentBearer) secret j)) = Some (sealEnvelope (prefixOf EnrollmentBearer) secret j).
Proof. unfold sealEnvelope. generalize (base64UrlEncode (JSON_stringify j)). intros body. reflexivity. Qed.

(** Credentials handed out at [at_], by a poll or by an exchange. *)
Inductive issues (env : MachineDb -> MachineDb -> Prop) (at_ : Z) (d : MachineDb) (c : Credentials) (d' : MachineDb) : Prop :=
| issues_poll deviceCode out : runs env (pollDeviceEnrollment at_ deviceCode) d (Ok (P_authorized c)) out d' -> issues env at_ d c d'
| issues_exchange i out : runs env (exchangeEnrollToken at_ i) d (Ok (X_ok c)) out d' -> issues env at_ d c d'.

Lemma built env at_ secret workspaceId agentId consented d c out d' :
  runs env (buildEnrollmentCredentials at_ secret workspaceId agentId consented) d (Ok c) out d' ->
  c_workspaceId c = workspaceId /\ c_agentId c = agentId /\ signEnrollmentBearer secret (bearerPayload workspaceId agentId (at_ / 1000)) = Ok (c_bearer c).
Proof.
  unfold buildEnrollmentCredentials. destruct (signEnrollmentBearer _ _) as [bearer|]; [|by intros []]. cbn [minted bind].
  destruct (resolveRelayTokenSecret settings) as [rs|]; [destruct (signRelayToken _ _) as [relay|]; [|by intros []]|]; cbn [minted bind runs]; by intros ([= ->] & _).
Qed.

Lemma issued env at_ d c d' : issues env at_ d c d' -> exists secret, resolveEnrollmentSigningSecret settings = Some secret /\
  signEnrollmentBearer secret (bearerPayload (c_workspaceId c) (c_agentId c) (at_ / 1000)) = Ok (c_bearer c).
Proof.
  intros [code out H|i out H].
  - unfold pollDeviceEnrollment in H. apply runs_bind in H as [(e & [=] & _)|(q & o1 & d1 & o2 & _ & H & _)]. destruct q as [q|]; [|by destruct H].
    destruct (q_status q); [by destruct H as ([=]%(f_equal (fun r => match r with Ok (P_authorized _) => true | _ => false end)) & _) + (destruct H as (H & _); by destruct (_ <=? _)) | | by destruct H |].
    all: destruct (nonEmpty (q_enrollmentId q)) as [id|]; [|by destruct H]; destruct (resolveEnrollmentSigningSecret settings) as [secret|]; [|by destruct H].
    all: apply runs_bind in H as [(e & [=] & _)|([e|] & o3 & d3 & o4 & _ & H & _)]; [|by destruct H]; destruct (isActive e); [|by destruct H].
    all: apply runs_bind in H as [(x & [=] & _)|(c' & o5 & d5 & o6 & Hb & H & _)]; apply built in Hb as (Hw & Ha & Hs).
    all: apply runs_bind in H as [(x & [=] & _)|([] & o7 & d7 & o8 & _ & ([= ->] & _) & _)]; exists secret; by rewrite Hw, Ha.
  - unfold exchangeEnrollToken in H. destruct (resolveEnrollmentSigningSecret settings) as [secret|]; [|by destruct H].
    destruct (verifyEnrollToken _ _ _) as [[claims|]|]; [|by destruct H..].
    apply runs_bind in H as [(x & [=] & _)|(f & o1 & d1 & o2 & _ & H & _)]. apply runs_bind in H as [(x & [=] & _)|(c' & o3 & d3 & o4 & Hb & ([= ->] & _) & _)].
    apply built in Hb as (Hw & Ha & Hs). exists secret. by rewrite Hw, Ha.
Qed.

Lemma bearerJson_ok workspaceId agentId nowSeconds : units workspaceId -> units agentId -> wellFormed (bearerJson (bearerPayload workspaceId agentId nowSeconds)).
Proof.
  intros Hw Ha. assert (units (js "agent." ++ workspaceId ++ js "." ++ agentId)) as Hp.
  { unfold units. repeat (apply Forall_app; split); try apply units_js; done. }
  apply wellFormed_obj. split_and!; [apply (bool_decide_unpack _); vm_compute; reflexivity|apply (bool_decide_unpack _); vm_compute; reflexivity|].
  repeat (constructor; [first [exact I|exact Hw|exact Ha|exact Hp]|]). constructor.
Qed.

(** The credentials a machine is given admit it to the bus for thirty days,
    exactly as long as its enrollment is active. *)
Theorem credentials_follow_enrollment env at_ d c d' now at' bytes decoded d2 :
  units (calloutAccount settings) -> units (c_workspaceId c) -> units (c_agentId c) -> issues env at_ d c d' ->
  decodeAuthRequest (utf8Decode bytes) = Some decoded -> da_authToken decoded = Some (c_bearer c) -> at' / 1000 <= at_ / 1000 + ENROLLMENT_BEARER_TTL_SECONDS ->
  exists response, exec now (handleAuthorizationRequest at' bytes) d2 = (Ok response, [], d2) /\
    (is_Some (granted response) <-> exists e, getEnrollment (c_workspaceId c) (c_agentId c) d2 = Some e /\ e_status e = active) /\
    (granted response = None -> refused response = Some (js "enrollment is not active")).
Proof.
  intros Hacc Hw Ha Hi Hd Hb Hexp. destruct (decoded_units _ _ Hd) as [Hk Hs]. apply issued in Hi as (secret & Hres & Hsign).
  apply (sign_seal EnrollmentBearer) in Hsign as [Hparse Hseal].
  assert (nonEmpty (da_authToken decoded) = Some (c_bearer c)) as Hb'.
  { rewrite Hb, Hseal. apply seal_nonempty. }
  rewrite (exec_callout _ _ _ _ _ _ Hd Hb'). unfold calloutAnswer. rewrite Hres. unfold verifyEnrollmentBearer. rewrite Hseal.
  rewrite verify_sealed by (by apply bearerJson_ok). rewrite Hparse. cbn [mbind option_bind expOf bearerPayload eb_exp].
  rewrite (proj2 (Z.ltb_ge _ _)) by done. cbn [eb_workspaceId eb_enrollmentId].
  pose proof (deny_reads decoded "enrollment is not active" (at' / 1000) Hk Hs) as [Hdg Hdr].
  destruct (getEnrollment _ _ d2) as [e|] eqn:Ee.
  2: { eexists. split; [reflexivity|]. rewrite Hdg, Hdr. split; [|done]. split; [by intros []|by intros (e & [=] & _)]. }
  destruct (isActive e) eqn:Ea; (eexists; split; [reflexivity|]).
  - set (claims := bearerPayload _ _ _). pose proof (grantInput_ok decoded claims Hacc Hk Hw Ha) as Hok.
    assert (units (grantOf decoded claims (at' / 1000))) as Hu by (apply units_encodeJwt; by apply (userClaims_ok (grantInput decoded claims))).
    destruct (respond_reads decoded (Some (grantOf decoded claims (at' / 1000))) None (at' / 1000)) as [Hgr _]; [done|done|by intros t [= <-]|done|].
    rewrite Hgr, grant_nonempty. unfold isActive in Ea. apply bool_decide_eq_true in Ea.
    split; [|intros [=]]. split; [|intros _; by apply mk_is_Some with (x := grantOf decoded claims (at' / 1000))]. intros _. by exists e.
  - rewrite Hdg, Hdr. split; [|done]. split; [by intros []|]. intros (e' & [= <-] & Hact). unfold isActive in Ea. apply bool_decide_eq_false in Ea. done.
Qed.
End platform.
End Enrollments.
