(* ===== verification/EnrollmentSafety.v ===== *)
(** * Machines among others

    The tasks of the enrollment plane interleave their transactions.  What every
    one of them keeps is stated once, as an interface; the life of an enrollment
    request and the exclusion of a revoked machine are two uses of it. *)
From S2P Require Import Prelude Json JsonParse Encoding Sql Tokens NatsJwt Activity Access AccessRoutes Enrollments.
#[local] Open Scope Z_scope.
#[local] Open Scope opengeni_scope.

Module EnrollmentSafety.
Import Activity Tokens Access NatsJwt Enrollments.

Section platform.
Context `{tokens : TokenPlatform} `{digests : DigestPlatform} `{nkeys : NkeyPlatform} (settings : MachineSettings).

Definition ended {A} (m : Handler A) : Handler unit := let* _ := m in Ret tt.

(** An update of an enrollment that keeps its identity and does not undo a
    revocation. *)
Definition mild (f : EnrollmentRow -> EnrollmentRow) : Prop := forall e,
  e_id (f e) = e_id e /\ e_workspaceId (f e) = e_workspaceId e /\ e_pubkey (f e) = e_pubkey e /\ (e_status e = revoked -> e_status (f e) = revoked).
(** The updates a machine's presence makes. *)
Inductive presence : (jstr -> jstr -> MachineDb -> bool * MachineDb) -> Prop :=
| presence_seen now : presence (touchEnrollmentLastSeen now)
| presence_offline now reason : presence (setEnrollmentWentOffline now reason)
| presence_online : presence clearEnrollmentWentOffline
| presence_display b reason : presence (setEnrollmentDisplayState b reason)
| presence_ops b : presence (setEnrollmentOpStreamState b).

(** The work of the plane; [new] holds of the keys that are enrolled. *)
Inductive machine_task (new : jstr -> Prop) : Handler unit -> Prop :=
| task_start allowed at_ codes body : new (sb_publicKey body) -> machine_task new (ended (startRoute settings allowed at_ codes body))
| task_poll allowed at_ code : machine_task new (ended (pollRoute settings allowed at_ code))
| task_lookup allowed rq code : machine_task new (ended (lookupRoute settings allowed rq code))
| task_exchange allowed at_ body : new (xi_publicKey body) -> machine_task new (ended (exchangeRoute settings allowed at_ body))
| task_approve rq ws code screen : machine_task new (ended (approveRoute settings rq ws code screen))
| task_deny rq ws code : machine_task new (ended (denyRoute settings rq ws code))
| task_mint rq at_ ws screen : machine_task new (ended (mintRoute settings rq at_ ws screen))
| task_revoke rq ws id : machine_task new (ended (revokeRoute settings rq ws id))
| task_list rq ws status : machine_task new (ended (listRoute settings rq ws status))
| task_callout at_ bytes : machine_task new (ended (handleAuthorizationRequest settings at_ bytes))
| task_presence op ws id : presence op -> machine_task new (ended (tx (fun _ d => Ok (op ws id d))))
| task_access {A} (m : Access.Handler A) : machine_task new (ended (accessing m)).

(** ** What all of them keep *)

Class Keeps (I : MachineDb -> Prop) (le : MachineDb -> MachineDb -> Prop) (new : jstr -> Prop) : Prop := {
  keep_access a d : I d -> I (putAccess a d) /\ le d (putAccess a d);
  keep_start i deviceCode userCode expiresAt d q d' : new (si_publicKey i) -> I d ->
    createDeviceEnrollmentRequest i deviceCode userCode expiresAt d = Ok (q, d') -> I d' /\ le d d';
  keep_finalize i name now d r d' : new (mi_pubkey i) -> I d -> finalizeEnrollmentByToken i name now d = Ok (r, d') -> I d' /\ le d d';
  keep_approve i now d r d' : I d -> approveDeviceEnrollmentRequest i now d = Ok (r, d') -> I d' /\ le d d';
  keep_deny ws id d : I d -> I (denyDeviceEnrollmentRequest ws id d).2 /\ le d (denyDeviceEnrollmentRequest ws id d).2;
  keep_consume ws id d : I d -> I (consumeDeviceEnrollmentRequest ws id d).2 /\ le d (consumeDeviceEnrollmentRequest ws id d).2;
  keep_update p f ws id d : mild f -> I d -> I (updateEnrollment p f ws id d).2 /\ le d (updateEnrollment p f ws id d).2
}.

Section keeps.
Context (I : MachineDb -> Prop) (le : MachineDb -> MachineDb -> Prop) (new : jstr -> Prop) `{!PreOrder le} `{!Keeps I le new}.
Abbreviation safe := (safe (E := AccessError) (O := Outgoing) I le).

Lemma safe_accessing {A} (m : Access.Handler A) d : safe (accessing m) d.
Proof. apply (safe_embed I le _). by apply keep_access. Qed.

(** A transaction that cannot refuse. *)
Lemma safe_update {R} (op : Z -> MachineDb -> R * MachineDb) d :
  (forall now d, I d -> I (op now d).2 /\ le d (op now d).2) -> safe (tx (fun now d => Ok (op now d))) d.
Proof. intros H. apply (wp_tx I le). intros d1 now r d2 _ Hi [= E]. destruct (H now d1 Hi) as [H1 H2]. rewrite E in H1, H2. done. Qed.

Lemma safe_minted r d : safe (minted r) d.
Proof. by destruct r. Qed.

Lemma mild_revoke now : mild (fun e => (e <| e_status := revoked |>) <| e_revokedAt := Some now |>).
Proof. done. Qed.

Lemma safe_presence op ws id d : presence op -> safe (tx (fun _ d => Ok (op ws id d))) d.
Proof. intros H. apply (safe_update (fun _ => op ws id)). intros _ d1. destruct H; by apply keep_update. Qed.

#[local] Hint Resolve safe_accessing safe_minted safe_read : machines.
Ltac machines :=
  repeat first
    [ done | solve [auto with machines] | apply safe_bind; [|intros] | apply safe_catch; [intros|] | progress intros
    | match goal with |- context [match ?x with _ => _ end] => destruct x end ].

Lemma safe_startAttempts attempts : forall k codes i expiresAt d, new (si_publicKey i) -> safe (startAttempts attempts k codes i expiresAt) d.
Proof.
  induction attempts as [|n IH]; intros k codes i expiresAt d Hn; [done|]. cbn. intros d1 now r d2 _ Hi Hc. destruct Hc as [r d2 Hok|e He|].
  - destruct (keep_start i _ _ _ _ _ _ Hn Hi Hok). done.
  - split; [done|split; [reflexivity|]]. destruct n; [done|by apply IH].
  - split; [done|split; [reflexivity|]]. destruct n; [done|by apply IH].
Qed.

Lemma safe_twice {A} (q : MachineDb -> option A) d : safe (twice q) d.
Proof. unfold twice. machines. Qed.
Lemma safe_credentials at_ secret ws id screen d : safe (buildEnrollmentCredentials settings at_ secret ws id screen) d.
Proof. unfold buildEnrollmentCredentials. machines. Qed.
Lemma safe_consume ws id d : safe (tx (fun _ d => Ok (consumeDeviceEnrollmentRequest ws id d))) d.
Proof. apply (safe_update (fun _ => consumeDeviceEnrollmentRequest ws id)). intros _. apply keep_consume. Qed.
Lemma safe_deny ws id d : safe (tx (fun _ d => Ok (denyDeviceEnrollmentRequest ws id d))) d.
Proof. apply (safe_update (fun _ => denyDeviceEnrollmentRequest ws id)). intros _. apply keep_deny. Qed.
Lemma safe_revoke ws id d : safe (tx (fun now d => Ok (revokeEnrollment now ws id d))) d.
Proof. apply (safe_update (fun now => revokeEnrollment now ws id)). intros now d1. apply keep_update, mild_revoke. Qed.
Lemma safe_approve i d : safe (tx (approveDeviceEnrollmentRequest i)) d.
Proof. apply (wp_tx I le). intros d1 now r d2 _ Hi Hop. by destruct (keep_approve i now d1 r d2 Hi Hop). Qed.
Lemma safe_finalize i name d : new (mi_pubkey i) -> safe (tx (finalizeEnrollmentByToken i name)) d.
Proof. intros Hn. apply (wp_tx I le). intros d1 now r d2 _ Hi Hop. by destruct (keep_finalize i name now d1 r d2 Hn Hi Hop). Qed.
#[local] Hint Resolve safe_startAttempts safe_twice safe_credentials safe_consume safe_deny safe_revoke safe_approve safe_finalize safe_presence : machines.

Lemma safe_poll at_ code d : safe (pollDeviceEnrollment settings at_ code) d.
Proof. unfold pollDeviceEnrollment, getDeviceEnrollmentRequestByDeviceCode. machines. Qed.

Lemma safe_callout at_ bytes d : safe (handleAuthorizationRequest settings at_ bytes) d.
Proof. unfold handleAuthorizationRequest. machines. Qed.
#[local] Hint Resolve safe_poll safe_callout : machines.

Lemma safe_machine_task m d : machine_task new m -> safe m d.
Proof.
  unfold ended. destruct 1; (apply safe_bind; [|done]); auto with machines.
  - unfold startRoute, startDeviceEnrollment, assertSelfhostedEnabled, rateLimit, refuseOn. machines.
  - unfold pollRoute, assertSelfhostedEnabled, rateLimit, refuseOn. machines.
  - unfold lookupRoute, lookupDeviceEnrollment, assertSelfhostedEnabled, rateLimit, refuseOn, grantFor. machines.
  - unfold exchangeRoute, exchangeEnrollToken, assertSelfhostedEnabled, rateLimit, refuseOn. machines.
  - unfold approveRoute, approveDeviceEnrollment, assertSelfhostedEnabled, refuseOn, grantFor. machines.
  - unfold denyRoute, denyDeviceEnrollment, assertSelfhostedEnabled, refuseOn, grantFor. machines.
  - unfold mintRoute, mintEnrollToken, assertSelfhostedEnabled, refuseOn, grantFor. machines.
  - unfold revokeRoute, assertSelfhostedEnabled, refuseOn, grantFor. machines.
  - unfold listRoute, assertSelfhostedEnabled, refuseOn, grantFor. machines.
Qed.

(** Every state the tasks reach. *)
Lemma machines_evolve s s' : rtc (pool (machine_task new)) s s' -> I s.1 -> Forall (fun m => safe m s.1) s.2 ->
  I s'.1 /\ le s.1 s'.1 /\ Forall (fun m => safe m s'.1) s'.2.
Proof. apply (pool_evolves I le). exact safe_machine_task. Qed.
End keeps.

End platform.

(** ** The tables *)

Lemma updateEnrollment_tables p f ws id d :
  requests (updateEnrollment p f ws id d).2 = requests d /\ nextId (updateEnrollment p f ws id d).2 = nextId d /\
  enrollments (updateEnrollment p f ws id d).2 = update_where (fun e => enrollmentOf ws id e && p e) f (enrollments d).
Proof. done. Qed.

(** An enrollment is created with the key it is asked for, or written anew. *)
Lemma createEnrollment_is i now d e d' : createEnrollment i now d = Ok (e, d') ->
  requests d' = requests d /\ e_workspaceId e = mi_workspaceId i /\ e_pubkey e = mi_pubkey i /\ e_status e = active /\
  ((exists e0, e0 ∈ enrollments d /\ e = reenroll i e0) /\
     enrollments d' = update_where (machineOf (mi_workspaceId i) (mi_pubkey i)) (reenroll i) (enrollments d) /\ nextId d' = nextId d \/
   e_id e = generated (nextId d) /\ enrollments d' = enrollments d ++ [e] /\ nextId d' = S (nextId d)).
Proof.
  unfold createEnrollment. destruct (List.find _ _) as [e0|] eqn:E.
  - apply find_some in E as [Hin%list_elem_of_In [Hw%same_eq Hp%same_eq]%andb_true_iff]. intros [= <- <-]. split_and!; [done..|]. left. split_and!; [by exists e0|done..].
  - destruct (getWorkspace _ _); [|done]. intros [= <- <-]. split_and!; [done..|]. by right.
Qed.

Lemma finalize_is i name now d e b d' : finalizeEnrollmentInScope i name now d = Ok ((e, b), d') ->
  exists d1, createEnrollment i now d = Ok (e, d1) /\ requests d' = requests d1 /\ enrollments d' = enrollments d1 /\ (nextId d1 <= nextId d')%nat.
Proof.
  unfold finalizeEnrollmentInScope. destruct (createEnrollment i now d) as [[e1 d1]|]; [|done]. destruct (List.find _ _) as [b0|]; intros [= <- <- <-];
    exists d1; split_and!; try done; cbn; lia.
Qed.

Definition answered (q : RequestRow) : Prop := q_status q = approved \/ q_status q = consumed.
Definition denied_or_consumed_status (s : DeviceEnrollmentStatus) : Prop := s = denied \/ s = consumed.
Definition denied_or_consumed (q : RequestRow) : Prop := denied_or_consumed_status (q_status q).

(** An approval: the request it answers, and the tables it leaves. *)
Lemma approve_is i now d r d' : approveDeviceEnrollmentRequest i now d = Ok (r, d') ->
  d' = d /\ r = None \/
  exists q e b d1, q ∈ requests d /\ q_workspaceId q = ai_workspaceId i /\ q_id q = ai_requestId i /\ ~ denied_or_consumed q /\ r = Some (e, b) /\
    finalizeEnrollmentInScope (machineInput (ai_accountId i) (ai_workspaceId i) (ai_allowScreenControl i) q) (ai_sandboxName i) now d = Ok ((e, b), d1) /\
    requests d' = update_where (fun q' => same (q_id q') (q_id q)) (approval i now e b) (requests d1) /\
    enrollments d' = enrollments d1 /\ nextId d' = nextId d1 /\ sandboxes d' = sandboxes d1 /\ pointers d' = pointers d1.
Proof.
  unfold approveDeviceEnrollmentRequest. destruct (List.find _ _) as [q|] eqn:E; [|intros [= <- <-]; by left].
  apply find_some in E as [Hin%list_elem_of_In [Hw%same_eq Hi%same_eq]%andb_true_iff].
  destruct (isStatus denied q || isStatus consumed q) eqn:Ed; [intros [= <- <-]; by left|].
  destruct (isStatus pending q && _); [intros [= <- <-]; by left|]. destruct (finalizeEnrollmentInScope _ _ _ _) as [[[e b] d1]|] eqn:Ef; [|done].
  intros [= <- <-]. right. exists q, e, b, d1. split_and!; try done. unfold isStatus in Ed. apply orb_false_iff in Ed as [E1%bool_decide_eq_false E2%bool_decide_eq_false].
  by intros [?|?].
Qed.

Lemma move_is from to ws id d : exists p, (forall q, p q = true -> q_status q = from) /\
  requests (moveRequest from to ws id d).2 = update_where p (fun q => q <| q_status := to |>) (requests d) /\
  enrollments (moveRequest from to ws id d).2 = enrollments d /\ nextId (moveRequest from to ws id d).2 = nextId d.
Proof.
  exists (fun q => requestOf ws id q && isStatus from q). split; [|done]. intros q [_ H]%andb_true_iff. unfold isStatus in H. by apply bool_decide_eq_true in H.
Qed.

Lemma create_request_is i deviceCode userCode expiresAt d q d' : createDeviceEnrollmentRequest i deviceCode userCode expiresAt d = Ok (q, d') ->
  requests d' = requests d ++ [q] /\ enrollments d' = enrollments d /\ nextId d' = S (nextId d) /\ q_id q = generated (nextId d) /\
  q_pubkey q = si_publicKey i /\ q_status q = pending /\ q_deviceCode q = deviceCode.
Proof. unfold createDeviceEnrollmentRequest. destruct (existsb _ _); [done|]. destruct (getWorkspace _ _); [|done]. by intros [= <- <-]. Qed.


(** ** Requests *)

(** How a request is answered: once. *)
Definition answer_order (s s' : DeviceEnrollmentStatus) : bool :=
  match s, s' with
  | pending, _ | approved, approved | approved, consumed | consumed, consumed | denied, denied => true
  | _, _ => false
  end.
Definition moves (q q' : RequestRow) : Prop :=
  q_id q' = q_id q /\ q_deviceCode q' = q_deviceCode q /\ q_workspaceId q' = q_workspaceId q /\ q_pubkey q' = q_pubkey q /\ answer_order (q_status q) (q_status q') = true.
(** The rows of the enrollments of two states, told apart by their identity. *)
Definition enrollments_kept (d d' : MachineDb) : Prop := forall e, e ∈ enrollments d ->
  exists e', e' ∈ enrollments d' /\ e_id e' = e_id e /\ e_workspaceId e' = e_workspaceId e /\ e_pubkey e' = e_pubkey e.
Definition advanced (d d' : MachineDb) : Prop :=
  (forall k q, requests d !! k = Some q -> exists q', requests d' !! k = Some q' /\ moves q q') /\ enrollments_kept d d'.
#[export] Instance moves_preorder : PreOrder moves.
Proof.
  split.
  - intros q. unfold moves. split_and!; [done..|]. by destruct (q_status q).
  - intros a b c (H1 & H2 & H3 & H4 & H5) (G1 & G2 & G3 & G4 & G5). unfold moves. split_and!; [congruence..|].
    by destruct (q_status a), (q_status b), (q_status c).
Qed.
#[export] Instance advanced_preorder : PreOrder advanced.
Proof.
  split; [intros d; split; [by intros k q Hq; exists q|by intros e He; exists e]|]. intros a b c [H1 G1] [H2 G2]. split.
  - intros k q Hq. destruct (H1 k q Hq) as (q1 & Hq1 & Hm1). destruct (H2 k q1 Hq1) as (q2 & Hq2 & Hm2). exists q2. split; [done|]. by transitivity q1.
  - intros e He. destruct (G1 e He) as (e1 & H11 & H12 & H13 & H14). destruct (G2 e1 H11) as (e2 & ? & ? & ? & ?). exists e2. split_and!; congruence.
Qed.

(** An answered request carries who approved it and the enrollment of its key. *)
Definition backed_request (d : MachineDb) (q : RequestRow) : Prop := answered q ->
  is_Some (q_approvedBySubjectId q) /\
  exists e, e ∈ enrollments d /\ q_enrollmentId q = Some (e_id e) /\ e_workspaceId e = q_workspaceId q /\ e_pubkey e = q_pubkey q.
Record machines_ok (d : MachineDb) : Prop := {
  ok_requests : numbered q_id (nextId d) (requests d);
  ok_enrollments : numbered e_id (nextId d) (enrollments d);
  ok_backed : forall q, q ∈ requests d -> backed_request d q
}.

Lemma moves_to from to q : q_status q = from -> answer_order from to = true -> moves q (q <| q_status := to |>).
Proof. intros <- H. by split_and!. Qed.
Lemma advanced_update p f d d' : (forall q, q ∈ requests d -> p q = true -> moves q (f q)) -> requests d' = update_where p f (requests d) -> enrollments_kept d d' -> advanced d d'.
Proof.
  intros Hf Hr He. split; [|done]. intros k q Hq. exists (if p q then f q else q). split; [rewrite Hr; unfold update_where; by rewrite list_lookup_fmap, Hq|].
  destruct (p q) eqn:E; [|reflexivity]. apply Hf; [by eapply list_elem_of_lookup_2|done].
Qed.
Lemma advanced_same d d' : requests d' = requests d -> enrollments_kept d d' -> advanced d d'.
Proof. intros Hr He. split; [|done]. intros k q Hq. exists q. by rewrite Hr. Qed.

Lemma backed_kept d d' q : enrollments_kept d d' -> backed_request d q -> backed_request d' q.
Proof.
  intros Hk Hb Ha. destruct (Hb Ha) as (Hs & e & Hin & Hi & Hw & Hp). split; [done|]. destruct (Hk e Hin) as (e' & Hin' & Hi' & Hw' & Hp').
  exists e'. rewrite Hi', Hw', Hp'. by split_and!.
Qed.
Lemma kept_update p f d d' : (forall e, e_id (f e) = e_id e /\ e_workspaceId (f e) = e_workspaceId e /\ e_pubkey (f e) = e_pubkey e) ->
  enrollments d' = update_where p f (enrollments d) -> enrollments_kept d d'.
Proof.
  intros Hf He e Hin. exists (if p e then f e else e). split; [rewrite He; apply elem_of_update_where; by exists e|]. destruct (p e); [apply Hf|done].
Qed.
Lemma kept_same d d' : enrollments d' = enrollments d -> enrollments_kept d d'.
Proof. intros He e Hin. exists e. by rewrite He. Qed.

(** Writing an enrollment. *)
Lemma ok_create i now d e d' : createEnrollment i now d = Ok (e, d') -> machines_ok d ->
  machines_ok d' /\ enrollments_kept d d' /\ e_workspaceId e = mi_workspaceId i /\ e_pubkey e = mi_pubkey i /\
  exists e', e' ∈ enrollments d' /\ e_id e' = e_id e /\ e_workspaceId e' = e_workspaceId e /\ e_pubkey e' = e_pubkey e.
Proof.
  intros Hc [Hq He Hb]. pose proof Hc as Hc'. destruct (createEnrollment_is _ _ _ _ _ Hc) as (Hr & Hw & Hp & _ & [((e0 & Hin & ->) & Hen & Hn)|(Hi & Hen & Hn)]).
  - assert (enrollments_kept d d') as Hk by (by apply (kept_update (machineOf (mi_workspaceId i) (mi_pubkey i)) (reenroll i))).
    split_and!; [split|done|done|done|by destruct (Hk e0 Hin) as (e' & ?); exists e'].
    + by rewrite Hr, Hn.
    + rewrite Hen, Hn. by apply numbered_update.
    + rewrite Hr. intros q Hin'. by apply (backed_kept d), Hb.
  - assert (enrollments_kept d d') as Hk by (intros x Hx; exists x; rewrite Hen; split; [apply elem_of_app; by left|done]).
    split_and!; [split|done|done|done|exists e; split; [rewrite Hen; apply elem_of_app; right; by left|done]].
    + rewrite Hr, Hn. apply (numbered_later q_id (nextId d)); [lia|done].
    + rewrite Hen, Hn. by apply numbered_append.
    + rewrite Hr. intros q Hin'. by apply (backed_kept d), Hb.
Qed.

Lemma ok_tables d d' : requests d' = requests d -> enrollments d' = enrollments d -> (nextId d <= nextId d')%nat -> machines_ok d -> machines_ok d'.
Proof.
  intros Hr He Hn [Hq Hen Hb]. split.
  - rewrite Hr. by apply (numbered_later q_id (nextId d)).
  - rewrite He. by apply (numbered_later e_id (nextId d)).
  - rewrite Hr. intros q Hin. apply (backed_kept d); [by apply kept_same|by apply Hb].
Qed.

(** A fenced move of the status. *)
Lemma ok_move from to ws id d : answer_order from to = true -> (to = consumed -> from = approved) -> to <> approved -> machines_ok d ->
  machines_ok (moveRequest from to ws id d).2 /\ advanced d (moveRequest from to ws id d).2.
Proof.
  intros Ho Hc Ha [Hq He Hb]. destruct (move_is from to ws id d) as (p & Hp & Hr & Hen & Hn). split; [split|].
  - rewrite Hr, Hn. by apply numbered_update.
  - by rewrite Hen, Hn.
  - rewrite Hr. intros q (q0 & Hq0 & ->)%elem_of_update_where. apply (backed_kept d); [by apply kept_same|]. destruct (p q0) eqn:E; [|by apply Hb].
    apply Hp in E. intros [H|H]; cbn in H; [congruence|]. apply (Hb q0 Hq0). left. rewrite E. auto.
  - apply (advanced_update p (fun q => q <| q_status := to |>)); [|done|by apply kept_same]. intros q _ E%Hp. by apply (moves_to from).
Qed.

#[export] Instance requests_kept : Keeps machines_ok advanced (fun _ => True).
Proof.
  split.
  - intros a d Hok. split; [by apply (ok_tables d)|apply advanced_same; [done|by apply kept_same]].
  - intros i dc uc ex d q d' _ [Hq He Hb] Hc. destruct (create_request_is _ _ _ _ _ _ _ Hc) as (Hr & Hen & Hn & Hi & _ & Hs & _). split; [split|].
    + rewrite Hr, Hn. by apply numbered_append.
    + rewrite Hen, Hn. apply (numbered_later e_id (nextId d)); [lia|done].
    + rewrite Hr. intros q' [Hin|Hin%list_elem_of_singleton]%elem_of_app; [apply (backed_kept d); [by apply kept_same|by apply Hb]|].
      subst q'. intros [?|?]; congruence.
    + split; [|by apply kept_same]. intros k q0 Hk. exists q0. rewrite Hr. split; [by apply lookup_app_l_Some|reflexivity].
  - intros i name now d [e b] d' _ Hok Hf. destruct (finalize_is _ _ _ _ _ _ _ Hf) as (d1 & Hc & Hr & He & Hn).
    destruct (ok_create _ _ _ _ _ Hc Hok) as (Hok1 & Hk1 & _). destruct (createEnrollment_is _ _ _ _ _ Hc) as (Hr1 & _).
    split; [by apply (ok_tables d1)|apply advanced_same; [congruence|unfold enrollments_kept; rewrite He; exact Hk1]].
  - intros i now d r d' Hok Ha. destruct (approve_is _ _ _ _ _ Ha) as [[-> _]|(q & e & b & d1 & Hin & Hws & Hid & Hst & _ & Hf & Hr & He & Hn & _)]; [split; [done|reflexivity]|].
    destruct (finalize_is _ _ _ _ _ _ _ Hf) as (d2 & Hc & Hr1 & He1 & Hn1). destruct (ok_create _ _ _ _ _ Hc Hok) as (Hok2 & Hk2 & Hw & Hp & e' & Hin' & Hi' & Hw' & Hp').
    destruct (createEnrollment_is _ _ _ _ _ Hc) as (Hr2 & _). assert (machines_ok d1) as [Hq1 He2 Hb1] by (apply (ok_tables d2); done).
    assert (forall q0, q0 ∈ requests d1 -> same (q_id q0) (q_id q) = true -> q0 = q) as Huniq.
    { intros q0 Hq0 E%same_eq. rewrite Hr1, Hr2 in Hq0. apply (numbered_unique q_id (nextId d) (requests d)); [apply Hok|done..]. }
    split; [split|].
    + rewrite Hr, Hn. by apply numbered_update.
    + by rewrite He, Hn.
    + rewrite Hr. intros q' (q0 & Hq0 & ->)%elem_of_update_where. destruct (same (q_id q0) (q_id q)) eqn:E.
      * rewrite (Huniq q0 Hq0 E). intros _. split; [by eexists|]. exists e'. rewrite He, He1, Hi', Hw', Hp', Hw, Hp. by split_and!.
      * apply (backed_kept d1); [by apply kept_same|by apply Hb1].
    + apply (advanced_update (fun q' => same (q_id q') (q_id q)) (approval i now e b)); [|by rewrite Hr, Hr1, Hr2|unfold enrollments_kept; rewrite He, He1; exact Hk2].
      intros q0 Hq0 E. rewrite <- Hr2, <- Hr1 in Hq0. rewrite (Huniq q0 Hq0 E). split_and!; [done..|]. unfold denied_or_consumed in Hst. cbn. destruct (q_status q); [done|done|exfalso; apply Hst; by left|exfalso; apply Hst; by right].
  - intros ws id d Hok. by apply (ok_move pending denied).
  - intros ws id d Hok. by apply (ok_move approved consumed).
  - intros p f ws id d Hf [Hq He Hb]. assert (forall e, e_id (f e) = e_id e /\ e_workspaceId (f e) = e_workspaceId e /\ e_pubkey (f e) = e_pubkey e) as Hf'.
    { intros e. by destruct (Hf e) as (H1 & H2 & H3 & _). }
    pose proof (kept_update (fun e => enrollmentOf ws id e && p e) f d (updateEnrollment p f ws id d).2 Hf' eq_refl) as Hk.
    split; [|by apply advanced_same]. split.
    + done.
    + apply numbered_update; [|done]. intros e _. apply Hf.
    + intros q Hin. apply (backed_kept d); [done|by apply Hb].
Qed.

(** ** A revoked machine *)

Section revoked.
Context (ws id key : jstr).

(** The enrollment is revoked, and no request of its key is open. *)
Definition out_of_service (d : MachineDb) : Prop :=
  (exists e, getEnrollment ws id d = Some e /\ e_pubkey e = key /\ e_status e = revoked) /\
  forall q, q ∈ requests d -> q_pubkey q = key -> denied_or_consumed q.
Definition anything (d d' : MachineDb) : Prop := True.
#[export] Instance anything_preorder : PreOrder anything.
Proof. split; by repeat intro. Qed.

Lemma out_requests d d' : requests d' = requests d -> getEnrollment ws id d' = getEnrollment ws id d -> out_of_service d -> out_of_service d'.
Proof. unfold out_of_service. intros -> ->. done. Qed.

Lemma getEnrollment_update p f d d' : enrollments d' = update_where p f (enrollments d) ->
  (forall e, p e = true -> e_id (f e) = e_id e /\ e_workspaceId (f e) = e_workspaceId e) ->
  getEnrollment ws id d' = (fun e => if p e then f e else e) <$> getEnrollment ws id d.
Proof.
  unfold getEnrollment. intros -> H. apply find_update_where. intros e He. unfold enrollmentOf. by destruct (H e He) as [-> ->].
Qed.

Lemma out_update d d' p f : requests d' = requests d -> enrollments d' = update_where p f (enrollments d) -> mild f -> out_of_service d -> out_of_service d'.
Proof.
  intros Hr He Hf [(e & Eg & Hk & Hs) Hq]. split; [|by rewrite Hr].
  rewrite (getEnrollment_update p f d d' He) by (intros; split; apply Hf). rewrite Eg. exists (if p e then f e else e). split; [done|].
  destruct (p e); [|done]. destruct (Hf e) as (_ & _ & -> & H). auto.
Qed.

Lemma out_move from to ws' id' d : denied_or_consumed_status to -> out_of_service d -> out_of_service (moveRequest from to ws' id' d).2.
Proof.
  intros Ht [(e & Eg & He) Hq]. destruct (move_is from to ws' id' d) as (p & _ & Hr & Hen & _). split; [exists e; unfold getEnrollment in *; by rewrite Hen|].
  rewrite Hr. intros q (q0 & Hq0 & ->)%elem_of_update_where Hk. destruct (p q0); [exact Ht|by apply Hq].
Qed.

(** Enrolling another machine. *)
Lemma out_create i now d e d' : mi_pubkey i <> key -> createEnrollment i now d = Ok (e, d') -> out_of_service d -> out_of_service d'.
Proof.
  intros Hk Hc Hout. destruct (createEnrollment_is _ _ _ _ _ Hc) as (Hr & _ & _ & _ & [(_ & He & _)|(_ & He & _)]).
  - destruct Hout as [(e0 & Eg & Hk0 & Hs) Hq]. split; [|by rewrite Hr]. rewrite (getEnrollment_update _ _ d d' He) by done. rewrite Eg. exists e0. split; [|done].
    cbn. unfold machineOf. unfold same at 2. rewrite (bool_decide_eq_false_2 (e_pubkey e0 = _)) by congruence. by rewrite andb_false_r.
  - destruct Hout as [(e0 & Eg & Hk0 & Hs) Hq]. split; [|by rewrite Hr]. exists e0. split; [|done]. unfold getEnrollment in *. rewrite He, find_appended. by rewrite Eg.
Qed.

#[export] Instance revoked_kept : Keeps (fun d => machines_ok d /\ out_of_service d) anything (fun k => k <> key).
Proof.
  split.
  - intros a d [Hok Hout]. split; [|done]. split; [by apply (ok_tables d)|done].
  - intros i dc uc ex d q d' Hk [Hok [He Hq]] Hc. split; [|done]. split; [by eapply (keep_start (Keeps := requests_kept))|].
    destruct (create_request_is _ _ _ _ _ _ _ Hc) as (Hr & Hen & _ & _ & Hp & _). split.
    + unfold getEnrollment in *. by rewrite Hen.
    + rewrite Hr. intros q' [Hin|Hin%list_elem_of_singleton]%elem_of_app Hk'; [by apply Hq|]. subst q'. congruence.
  - intros i name now d [e b] d' Hk [Hok Hout] Hf. split; [|done]. split; [by eapply (keep_finalize (Keeps := requests_kept))|].
    destruct (finalize_is _ _ _ _ _ _ _ Hf) as (d1 & Hc & Hr & He & _).
    apply (out_requests d1 d'); [done|unfold getEnrollment; by rewrite He|]. by eapply out_create.
  - intros i now d r d' [Hok Hout] Ha. split; [|done]. split; [by eapply (keep_approve (Keeps := requests_kept))|].
    destruct (approve_is _ _ _ _ _ Ha) as [[-> _]|(q & e & b & d1 & Hin & _ & _ & Hst & _ & Hf & Hr & He & _)]; [done|].
    destruct (finalize_is _ _ _ _ _ _ _ Hf) as (d2 & Hc & Hr1 & He1 & _). assert (q_pubkey q <> key) as Hk by (intros Hk; by apply Hst, Hout).
    assert (out_of_service d2) as [Hg Hq] by exact (out_create (machineInput _ _ _ q) now d e d2 Hk Hc Hout). split; [unfold getEnrollment in *; by rewrite He, He1|].
    destruct (createEnrollment_is _ _ _ _ _ Hc) as (Hr2 & _).
    rewrite Hr, Hr1. intros q' (q0 & Hq0 & ->)%elem_of_update_where Hk'. destruct (same (q_id q0) (q_id q)) eqn:E; [|by apply Hq].
    apply same_eq in E. rewrite Hr2 in Hq0. assert (q0 = q) as -> by (by apply (numbered_unique q_id (nextId d) (requests d)); [apply Hok|..]). done.
  - intros ws' id' d [Hok Hout]. split; [|done]. split; [by apply (keep_deny (Keeps := requests_kept))|]. by apply out_move; [left|].
  - intros ws' id' d [Hok Hout]. split; [|done]. split; [by apply (keep_consume (Keeps := requests_kept))|]. by apply out_move; [right|].
  - intros p f ws' id' d Hf [Hok Hout]. split; [|done]. split; [by apply (keep_update (Keeps := requests_kept))|].
    by apply (out_update d _ (fun e => enrollmentOf ws' id' e && p e) f).
Qed.
End revoked.

(** ** What follows *)

Definition emptyMachines : MachineDb := {| access := AccessRoutes.emptyAccess; enrollments := []; requests := []; sandboxes := []; pointers := []; nextId := 0 |}.
Lemma empty_machines_ok : machines_ok emptyMachines.
Proof. split; cbn; [split; [constructor|by intros ? ?%elem_of_nil]..|by intros ? ?%elem_of_nil]. Qed.

Section results.
Context `{tokens : TokenPlatform} `{digests : DigestPlatform} `{nkeys : NkeyPlatform} (settings : MachineSettings).

(** A poll that answers with credentials, among others. *)
Section poll.
Context (I : MachineDb -> Prop) (le : MachineDb -> MachineDb -> Prop) (new : jstr -> Prop) `{!PreOrder le} `{!Keeps I le new}.
Abbreviation wp := (wp (E := AccessError) (O := Outgoing) I le).

Lemma wp_twice {A} (q : MachineDb -> option A) (Q : option A -> MachineDb -> Prop) d :
  (forall d1, I d1 -> Q None d1) -> (forall d1, I d1 -> Q (q d1) d1) -> wp (twice q) Q d.
Proof.
  intros H1 H2. unfold twice. apply (wp_then _ _ (fun _ d1 => I d1)); [by apply (wp_read I le)|]. intros [a|] d1 Hi; [|by apply H1]. apply (wp_read I le). auto.
Qed.

Lemma wp_credentials at_ secret ws id screen d : wp (buildEnrollmentCredentials settings at_ secret ws id screen) (fun c d' => d' = d /\ c_workspaceId c = ws /\ c_agentId c = id) d.
Proof.
  unfold buildEnrollmentCredentials. destruct (signEnrollmentBearer _ _); [|done]. cbn. destruct (resolveRelayTokenSecret settings); [|done].
  destruct (signRelayToken _ _); done.
Qed.

Lemma wp_poll at_ code (Q : PollResponse -> MachineDb -> Prop) d :
  (forall r d1, (forall c, r <> P_authorized c) -> Q r d1) ->
  (forall d1 d2 d3 q id e c, I d1 -> le d1 d2 -> I d2 -> le d2 d3 -> requestByDeviceCode code d1 = Some q -> answered q -> q_enrollmentId q = Some id ->
     getEnrollment (q_workspaceId q) id d2 = Some e -> e_status e = active -> c_workspaceId c = q_workspaceId q -> c_agentId c = e_id e ->
     (q_status q = approved /\ (exists d0, I d0 /\ le d2 d0 /\ d3 = (consumeDeviceEnrollmentRequest (q_workspaceId q) (q_id q) d0).2) \/ q_status q = consumed /\ d3 = d2) ->
     Q (P_authorized c) d3) ->
  wp (pollDeviceEnrollment settings at_ code) Q d.
Proof.
  intros Hno Hyes. unfold pollDeviceEnrollment.
  apply (wp_then _ _ (fun q d1 => I d1 /\ match q with Some q => requestByDeviceCode code d1 = Some q | None => True end)).
  { apply wp_twice; [done|]. intros d1 Hi. split; [done|]. by destruct (requestByDeviceCode code d1). }
  intros [q|] d1 [Hi1 Hq]; [|by apply Hno]. destruct (q_status q) eqn:Es; [cbn; apply Hno; intros c; by destruct (_ <=? _)| |by apply Hno|].
  all: destruct (q_enrollmentId q) as [[|x id]|] eqn:Eid; [by apply Hno| |by apply Hno]; cbn [nonEmpty].
  all: destruct (resolveEnrollmentSigningSecret settings) as [secret|]; [|by apply Hno].
  all: apply (wp_then _ _ (fun e d2 => le d1 d2 /\ I d2 /\ e = getEnrollment (q_workspaceId q) (x :: id) d2)); [by apply (wp_read I le)|].
  all: intros [e|] d2 (Hl2 & Hi2 & He); [|by apply Hno]; destruct (isActive e) eqn:Ea; [|by apply Hno]; unfold isActive in Ea; apply bool_decide_eq_true in Ea.
  all: (eapply wp_then; [apply wp_credentials|]); intros c d2' (-> & Hcw & Hca).
  - unfold isStatus. rewrite Es. cbn [bool_decide]. rewrite bool_decide_eq_true_2 by done.
    apply (wp_then _ _ (fun _ d3 => exists d0, I d0 /\ le d2 d0 /\ le d2 d3 /\ d3 = (consumeDeviceEnrollmentRequest (q_workspaceId q) (q_id q) d0).2)).
    + apply (wp_then _ _ (fun _ d3 => exists d0, I d0 /\ le d2 d0 /\ le d2 d3 /\ d3 = (consumeDeviceEnrollmentRequest (q_workspaceId q) (q_id q) d0).2)); [|done].
      apply (wp_tx I le). intros d0 now r d3 Hl0 Hi0 [= _ <-]. destruct (keep_consume (q_workspaceId q) (q_id q) d0 Hi0) as [Hi3 Hl3].
      split_and!; [exact Hi3|exact Hl3|]. exists d0. split_and!; [done|done|by transitivity d0|done].
    + intros _ d3 (d0 & Hi0 & Hl0 & Hl3 & ->). eapply (Hyes d1 d2 _ q (x :: id) e c); try done; [by left|]. left. split; [done|]. by exists d0.
  - unfold isStatus. rewrite Es. rewrite bool_decide_eq_false_2 by done. cbn. eapply (Hyes d1 d2 d2 q (x :: id) e c); try done; [by right|by right].
Qed.
End poll.

(** The databases the plane reaches, whoever enrolls. *)
Definition reached (d : MachineDb) : Prop := exists ts, rtc (pool (machine_task settings (fun _ => True))) (emptyMachines, []) (d, ts).
Lemma reached_ok d : reached d -> machines_ok d.
Proof.
  intros [ts H]. destruct (machines_evolve settings machines_ok advanced (fun _ => True) _ _ H) as (Hok & _); [exact empty_machines_ok|constructor|done].
Qed.

(** (C15) A revoked machine whose requests are settled stays out, whatever the others
    do and however their transactions interleave, until its key is enrolled anew. *)
Theorem revoked_stays_out ws id key d s' now at_ bytes decoded bearer secret claims :
  reached d -> out_of_service ws id key d -> rtc (pool (machine_task settings (fun k => k <> key))) (d, []) s' ->
  decodeAuthRequest (utf8Decode bytes) = Some decoded -> nonEmpty (da_authToken decoded) = Some bearer ->
  resolveEnrollmentSigningSecret settings = Some secret -> verifyEnrollmentBearer secret bearer (at_ / 1000) = Ok (Some claims) ->
  eb_workspaceId claims = ws -> eb_enrollmentId claims = id ->
  (exists response, exec now (handleAuthorizationRequest settings at_ bytes) s'.1 = (Ok response, [], s'.1) /\
    granted response = None /\ refused response = Some (js "enrollment is not active")) /\
  forall code c out d', exec now (pollDeviceEnrollment settings at_ code) s'.1 = (Ok (P_authorized c), out, d') -> (c_workspaceId c, c_agentId c) <> (ws, id).
Proof.
  intros Hd%reached_ok Hout Hpool Hdec Hb Hs Hv <- <-.
  destruct (machines_evolve settings _ anything (fun k => k <> key) _ _ Hpool (conj Hd Hout)) as (Hinv & _); [constructor|]. pose proof Hinv as [_ [(e & Eg & _ & He) _]].
  split.
  - rewrite (exec_callout _ _ _ _ _ _ _ Hdec Hb). unfold calloutAnswer. rewrite Hs, Hv, Eg. unfold isActive. rewrite bool_decide_eq_false_2 by (by rewrite He).
    destruct (decoded_units _ _ Hdec) as [Hk Hsv]. destruct (deny_reads settings decoded "enrollment is not active" (at_ / 1000) Hk Hsv) as [H1 H2].
    eexists. split; [reflexivity|]. split; [exact H1|]. rewrite H2. reflexivity.
  - intros code c out d' Hp. pose proof (exec_runs (fun _ _ => False) now (pollDeviceEnrollment settings at_ code) s'.1) as Hr. rewrite Hp in Hr.
    apply (wp_runs (fun d => machines_ok d /\ out_of_service (eb_workspaceId claims) (eb_enrollmentId claims) key d) anything (fun _ _ => False) _ (fun r _ => r = P_authorized c -> (c_workspaceId c, c_agentId c) <> (eb_workspaceId claims, eb_enrollmentId claims))) in Hr
      as (_ & _ & Hne); [by apply Hne|by intros ? ? []|exact Hinv|].
    apply (wp_poll _ anything (fun k => k <> key)); [by intros r d1 Hno E%Hno|].
    intros d1 d2 d3 q id e' c' _ _ [_ [(e1 & Eg1 & _ & He1) _]] _ _ _ _ Hg Ha Hcw Hca _ [= ->] [= Hw Hi]. rewrite <- Hw, <- Hi, Hcw, Hca in Eg1.
    apply getEnrollment_is in Hg as Hg'. destruct Hg' as (_ & _ & Hid). rewrite Hid, Hg in Eg1. congruence.
Qed.

(** A step of the plane, from any of its states with this database. *)
Definition others (d d' : MachineDb) : Prop := exists ts ts', rtc (pool (machine_task settings (fun _ => True))) (emptyMachines, []) (d, ts) /\
  pool (machine_task settings (fun _ => True)) (d, ts) (d', ts').
Lemma others_keep d d' : others d d' -> machines_ok d -> machines_ok d' /\ advanced d d'.
Proof.
  intros (ts & ts' & Hr & Hs) Hok. destruct (machines_evolve settings machines_ok advanced (fun _ => True) _ _ Hr) as (_ & _ & Hts); [exact empty_machines_ok|constructor|].
  destruct (pool_step_safe machines_ok advanced _ _ _ _ _ (safe_machine_task settings machines_ok advanced (fun _ => True)) Hs Hok Hts) as (? & ? & _). done.
Qed.

(** A request that was answered is spent after its consumption. *)
Lemma spent d1 d2 d3 q : q ∈ requests d1 -> advanced d1 d2 ->
  (q_status q = approved /\ (exists d0, machines_ok d0 /\ advanced d2 d0 /\ d3 = (consumeDeviceEnrollmentRequest (q_workspaceId q) (q_id q) d0).2) \/ q_status q = consumed /\ d3 = d2) ->
  exists q', q' ∈ requests d3 /\ q_status q' = consumed /\ q_deviceCode q' = q_deviceCode q /\ q_workspaceId q' = q_workspaceId q /\ q_pubkey q' = q_pubkey q.
Proof.
  intros [k Hk]%list_elem_of_lookup Hl [[Hs (d0 & _ & Hl0 & ->)]|[Hs ->]].
  - destruct (proj1 (transitivity Hl Hl0) k q Hk) as (q0 & Hq0 & Hi & Hc & Hw & Hp & Ho). apply list_elem_of_lookup_2 in Hq0.
    set (mine := fun q' => requestOf (q_workspaceId q) (q_id q) q' && isStatus approved q').
    exists (if mine q0 then q0 <| q_status := consumed |> else q0). split; [apply elem_of_update_where; by exists q0|].
    unfold mine, requestOf. rewrite Hi, Hw, !(proj2 (same_eq _ _)) by done. cbn [andb]. unfold isStatus. rewrite Hs in Ho.
    destruct (q_status q0) eqn:E; cbn in Ho; try done; by split_and!.
  - destruct (proj1 Hl k q Hk) as (q0 & Hq0 & Hi & Hc & Hw & Hp & Ho). exists q0. split; [by eapply list_elem_of_lookup_2|]. rewrite Hs in Ho. by destruct (q_status q0).
Qed.

(** (C17) A machine gets credentials only for a request a user approved, for the
    enrollment of the key the request came with, and the request is spent by
    then; this holds whatever the other tasks do meanwhile. *)
Theorem credentials_need_approval at_ code d c out d' :
  reached d -> runs others (pollDeviceEnrollment settings at_ code) d (Ok (P_authorized c)) out d' ->
  exists q e, q ∈ requests d' /\ q_deviceCode q = code /\ q_status q = consumed /\ is_Some (q_approvedBySubjectId q) /\
    e ∈ enrollments d' /\ e_pubkey e = q_pubkey q /\ e_workspaceId e = q_workspaceId q /\ c_agentId c = e_id e /\ c_workspaceId c = e_workspaceId e.
Proof.
  intros Hd%reached_ok Hr.
  apply (wp_runs machines_ok advanced others _ (fun r d' => forall c, r = P_authorized c -> exists q e, q ∈ requests d' /\ q_deviceCode q = code /\ q_status q = consumed /\
    e ∈ enrollments d' /\ e_pubkey e = q_pubkey q /\ e_workspaceId e = q_workspaceId q /\ c_agentId c = e_id e /\ c_workspaceId c = e_workspaceId e)) in Hr as (Hok & _ & Hq).
  - destruct (Hq c eq_refl) as (q & e & Hin & Hcode & Hst & Hrest). destruct (ok_backed _ Hok q Hin) as (Hs & _); [by right|]. by exists q, e.
  - exact others_keep.
  - done.
  - apply (wp_poll _ advanced (fun _ => True)); [by intros r d1 Hno c' E%Hno|].
    intros d1 d2 d3 q id e c' Hi1 Hl Hi2 Hl2 Hq Ha Hid Hg _ Hcw Hca Hst c'' [= <-]. apply List.find_some in Hq as [Hin%list_elem_of_In Hc%same_eq].
    destruct (ok_backed _ Hi1 q Hin Ha) as (_ & e1 & He1 & Hi & Hw & Hp). rewrite Hid in Hi. injection Hi as ->.
    destruct (proj2 (transitivity Hl Hl2) e1 He1) as (e3 & He3 & Hi3 & Hw3 & Hp3). apply getEnrollment_is in Hg as (_ & _ & Hge).
    destruct (spent d1 d2 d3 q) as (q' & Hin' & Hst' & Hc' & Hw' & Hp'); [done..|]. exists q', e3. split_and!; congruence.
Qed.

End results.

(** ** Examples *)

#[local] Instance examplePlatform : TokenPlatform := {| hmacSha256 := @hmacSha256 toyPlatform; hmac_bytes := @hmac_bytes toyPlatform; isUuid := fun _ => true |}.
#[local] Instance exampleDigest : DigestPlatform := {| sha256Hex := fun s => js "#" ++ s |}.
#[local] Instance exampleNkeys : NkeyPlatform.
Proof.
  refine {| getPublicKey := fun _ => js "A"; sign := fun _ _ => [1; 2; 3]; sha512_256 := fun _ => [7; 255; 0; 31] |}.
  - intros _. apply units_js.
  - intros _ _. repeat (constructor; [done|]). constructor.
  - intros _. repeat (constructor; [done|]). constructor.
Defined.
Definition exampleMachines : MachineSettings := {|
  api := AccessRoutes.exampleSettings; enrollmentSigningSecret := Some (js " secret "); selfhostedRelayTokenSecret := None; streamTokenSecret := Some (js "relay");
  sandboxSelfhostedEnabled := true; selfhostedNatsUrl := Some (js "tls://bus"); relayDialBase := js "wss://relay"; agentUpdatePublicKey := None;
  calloutSeed := js "SA"; calloutAccount := js "AGENTS" |}.
Definition alice := AccessRoutes.alice.
Definition home := AccessRoutes.home.
Definition after {A} (m : Handler A) (d : MachineDb) : MachineDb := (exec 1 m d).2.
Definition answer {A} (m : Handler A) (d : MachineDb) : result AccessError A := (exec 1 m d).1.1.

(** Alice's workspace, a request of one machine, its approval and its first poll. *)
Definition signedUp : MachineDb := after (grantFor exampleMachines alice home "enrollments:read") emptyMachines.
Definition exampleStart : StartBody := {| sb_workspaceId := home; sb_publicKey := js "K"; sb_os := js "linux"; sb_arch := js "x86_64";
  sb_machineName := Some (js "box"); sb_canOfferDisplay := true; sb_requestsScreenControl := true |}.
Definition exampleCodes (k : nat) : jstr * jstr := (js "device", js "BCDF-GHJK").
Definition asked : MachineDb := after (startRoute exampleMachines true 0 exampleCodes exampleStart) signedUp.
Definition agreed : MachineDb := after (approveRoute exampleMachines alice home (js "BCDF-GHJK") false) asked.
Definition polled : MachineDb := after (pollRoute exampleMachines true 1000 (js "device")) agreed.
Definition examplePayload : EnrollmentBearerPayload := bearerPayload home (generated 1) 1.
Definition exampleBearer : jstr := sealEnvelope (prefixOf EnrollmentBearer) (js "secret") (bearerJson examplePayload).

Example device_flow :
  answer (pollRoute exampleMachines true 1000 (js "device")) asked = Ok P_pending /\
  match answer (pollRoute exampleMachines true 1000 (js "device")) agreed with
  | Ok (P_authorized c) => c_bearer c = exampleBearer /\ c_consentedScreenControl c = false
  | _ => False
  end /\
  List.map (fun q => (q_status q, q_approvedBySubjectId q)) (requests polled) = [(consumed, Some (js "user:alice"))].
Proof. split_and!; vm_compute; [reflexivity|split; reflexivity|reflexivity]. Qed.

(** The message a bus server sends about a connection that presents [token]. *)
Definition connecting (token : jstr) : list Z :=
  js "e30." ++ base64UrlEncode (JSON_stringify (JObj [(js "nats", JObj [(js "user_nkey", JStr (js "U")); (js "server_id", JObj [(js "id", JStr (js "N"))]);
    (js "connect_opts", JObj [(js "auth_token", JStr token)])])])) ++ js ".AAAA".
Definition grants (r : result AccessError jstr) : result AccessError (bool * option jstr) :=
  match r with Ok response => Ok (match granted response with Some _ => true | None => false end, refused response) | Err e => Err e end.
Definition connect (d : MachineDb) : result AccessError (bool * option jstr) :=
  grants (answer (handleAuthorizationRequest exampleMachines 5000 (connecting exampleBearer)) d).
Definition dismissed : MachineDb := after (revokeRoute exampleMachines alice home (generated 1)) polled.

(** A revocation is seen by the next connection and the next poll. *)
Example revocation_bites :
  connect polled = Ok (true, None) /\ connect dismissed = Ok (false, Some (js "enrollment is not active")) /\
  answer (pollRoute exampleMachines true 9000 (js "device")) dismissed = Ok P_denied.
Proof. split_and!; vm_compute; reflexivity. Qed.

(** A token minted before, which enrolled nothing yet or other machines, enrolls
    the revoked one again without anyone approving. *)
Definition enrollToken : result AccessError jstr := answer (mintRoute exampleMachines alice 1000 home false) polled.
Definition reenrolled : MachineDb := match enrollToken with
  | Ok token => after (exchangeRoute exampleMachines true 3000000 {| xi_token := token; xi_publicKey := js "K"; xi_os := js "linux"; xi_arch := js "x86_64";
      xi_machineName := None; xi_canOfferDisplay := false |}) dismissed
  | Err _ => dismissed
  end.
Example token_enrolls_again :
  connect reenrolled = Ok (true, None) /\ List.map e_status (enrollments reenrolled) = [active].
Proof. split_and!; vm_compute; reflexivity. Qed.

Lemma reach (A : Type) (m : Handler A) d : machine_task exampleMachines (fun _ => True) (ended m) -> reached exampleMachines d -> reached exampleMachines (after m d).
Proof.
  intros Hm [ts Hd]. exists ts. transitivity (d, ts); [done|]. assert (after m d = (exec 1 (ended m) d).2) as ->; [|by apply pool_alone].
  unfold after, ended. rewrite exec_bind. by destruct (exec 1 m d) as [[[a|e] out] d1].
Qed.
Lemma reached_polled : reached exampleMachines polled.
Proof.
  apply (reach _ (pollRoute exampleMachines true 1000 (js "device")) agreed); [apply task_poll|].
  apply (reach _ (approveRoute exampleMachines alice home (js "BCDF-GHJK") false) asked); [apply task_approve|].
  apply (reach _ (startRoute exampleMachines true 0 exampleCodes exampleStart) signedUp); [by apply task_start|].
  apply (reach _ (grantFor exampleMachines alice home "enrollments:read") emptyMachines); [apply task_access|].
  exists []. left.
Qed.

Definition exampleCredentials : Credentials := {|
  c_agentId := generated 1; c_workspaceId := home; c_bearer := exampleBearer; c_subjectPrefix := js "agent.1.1"; c_natsUrls := [js "tls://bus"];
  c_relayUrl := js "wss://relay"; c_relayToken := match signRelayToken (js "relay") {| rt_workspaceId := home; rt_agentId := generated 1; rt_exp := 2592001 |} with Ok t => t | Err _ => [] end;
  c_natsAccountCreds := exampleBearer; c_updatePublicKey := []; c_consentedWholeMachine := true; c_consentedScreenControl := false |}.

Lemma poll_runs env : runs env (pollDeviceEnrollment exampleMachines 1000 (js "device")) agreed (Ok (P_authorized exampleCredentials)) [] polled.
Proof. apply (runs_alone env 1). vm_compute. reflexivity. Qed.

Lemma credentials_need_approval_witness : exists q, q ∈ requests polled /\ q_status q = consumed.
Proof.
  destruct (credentials_need_approval exampleMachines 1000 (js "device") agreed exampleCredentials [] polled) as (q & e & H1 & _ & H2 & _).
  - apply (reach _ (approveRoute exampleMachines alice home (js "BCDF-GHJK") false) asked); [apply task_approve|].
    apply (reach _ (startRoute exampleMachines true 0 exampleCodes exampleStart) signedUp); [by apply task_start|].
    apply (reach _ (grantFor exampleMachines alice home "enrollments:read") emptyMachines); [apply task_access|].
    exists []. left.
  - apply poll_runs.
  - exists q. by split.
Defined.

Definition exampleRequest : DecodedAuthRequest := {| da_userNkey := js "U"; da_serverId := js "N"; da_authToken := Some exampleBearer; da_user := None |}.

Lemma revoked_stays_out_witness : grants (answer (handleAuthorizationRequest exampleMachines 5000 (connecting exampleBearer)) dismissed) =
  Ok (false, Some (js "enrollment is not active")).
Proof.
  destruct (revoked_stays_out exampleMachines home (generated 1) (js "K") dismissed (dismissed, []) 1 5000 (connecting exampleBearer) exampleRequest
    exampleBearer (js "secret") examplePayload) as [(response & E & Hg & Hr) _].
  - apply (reach _ (revokeRoute exampleMachines alice home (generated 1)) polled); [apply task_revoke|exact reached_polled].
  - split; [eexists; split; [vm_compute; reflexivity|split; reflexivity]|]. intros q Hq _. right.
    apply (Forall_forall (fun q => q_status q = consumed) (requests dismissed)); [|exact Hq]. vm_compute. repeat constructor.
  - left.
  - vm_compute. reflexivity.
  - vm_compute. reflexivity.
  - vm_compute. reflexivity.
  - vm_compute. reflexivity.
  - reflexivity.
  - reflexivity.
  - unfold answer. cbn [fst] in E. rewrite E. cbn [fst grants]. by rewrite Hg, Hr.
Defined.

Lemma credentials_follow_enrollment_witness : exists response,
  exec 1 (handleAuthorizationRequest exampleMachines 5000 (connecting exampleBearer)) polled = (Ok response, [], polled) /\ is_Some (granted response).
Proof.
  destruct (credentials_follow_enrollment exampleMachines (fun _ _ => False) 1000 agreed exampleCredentials polled 1 5000 (connecting exampleBearer) exampleRequest polled)
    as (response & E & Hg & _).
  - apply units_js.
  - apply (bool_decide_unpack _). vm_compute. reflexivity.
  - apply (bool_decide_unpack _). vm_compute. reflexivity.
  - eapply issues_poll, poll_runs.
  - vm_compute. reflexivity.
  - reflexivity.
  - vm_compute. discriminate.
  - exists response. split; [exact E|]. apply Hg. eexists. split; vm_compute; reflexivity.
Defined.

Definition exampleGrant : jstr := grantOf exampleMachines exampleRequest examplePayload 5.
Lemma callout_scoped_witness : exists e, e ∈ enrollments polled /\ e_status e = active.
Proof.
  destruct (callout_scoped exampleMachines (fun _ _ => False) 5000 (connecting exampleBearer) polled (respond exampleMachines exampleRequest (Some exampleGrant) None 5)
    [] polled exampleGrant) as (decoded & bearer & secret & claims & e & user & _ & _ & _ & _ & _ & H1 & H2 & _).
  - apply units_js.
  - apply (runs_alone _ 1). vm_compute. reflexivity.
  - vm_compute. reflexivity.
  - exists e. by split.
Defined.

End EnrollmentSafety.
