(* ===== verification/Billing.v ===== *)
(** * The credit ledger and the usage meter ([packages/db/src/index.ts])

    Prepaid credits are the sum of an append-only ledger; usage events are the
    meter the caps read.  Both tables take each idempotency key once.  A debit
    reads the balance and writes under a lock of its account, while grants,
    refunds and holds are inserted without it. *)
From S2P Require Import Prelude Json Sql Activity.
#[local] Open Scope Z_scope.
#[local] Open Scope opengeni_scope.

Module Billing.
Import Activity.

(** ** Tables *)

(** [credit_ledger_entries], less [id], [currency] (always usd) and [created_at]. *)
Record LedgerRow := {
  e_accountId : string; e_workspaceId : option string; e_type : string; e_amountMicros : Z; e_sourceType : option string;
  e_sourceId : option string; e_idempotencyKey : string; e_metadata : list (jstr * json); e_occurredAt : Z
}.
#[export] Instance etaLedgerRow : Settable LedgerRow := fun r =>
  Build_LedgerRow (e_accountId r) (e_workspaceId r) (e_type r) (e_amountMicros r) (e_sourceType r) (e_sourceId r) (e_idempotencyKey r)
    (e_metadata r) (e_occurredAt r).
(** [usage_events], less [id] and the export columns. *)
Record UsageRow := {
  u_accountId : string; u_workspaceId : string; u_subjectId : option string; u_eventType : string; u_quantity : Z; u_unit : string;
  u_sourceResourceType : option string; u_sourceResourceId : option string; u_idempotencyKey : string; u_occurredAt : Z; u_recordedAt : Z
}.
(** [billing_customers], less [id] and the timestamps. *)
Record CustomerRow := { c_accountId : string; c_provider : string; c_providerCustomerId : string; c_email : option string }.
#[export] Instance etaCustomerRow : Settable CustomerRow := fun r =>
  Build_CustomerRow (c_accountId r) (c_provider r) (c_providerCustomerId r) (c_email r).
(** [stripe_webhook_events], less the stored payload. *)
Record WebhookRow := { h_id : string; h_type : string; h_livemode : bool; h_processedAt : option Z }.
#[export] Instance etaWebhookRow : Settable WebhookRow := fun r => Build_WebhookRow (h_id r) (h_type r) (h_livemode r) (h_processedAt r).

Record BillingDb := { ledger : list LedgerRow; usage : list UsageRow; customers : list CustomerRow; webhooks : list WebhookRow }.
#[export] Instance etaBillingDb : Settable BillingDb := fun d => Build_BillingDb (ledger d) (usage d) (customers d) (webhooks d).

Inductive BillingError :=
| UsageScopeMissing
| CustomerTaken (providerCustomerId : string)
| MissingCreditMetadata (label : string)
| InsufficientCredits
| LimitReached (code : string)
| MissingModelPricing (model : string)
| NotAdmitted (reason : string)
| StripeFailed
| Unavailable.

(** ** Usage events *)

Definition usageKeyIs (key : string) (r : UsageRow) : bool := String.eqb (u_idempotencyKey r) key.
(** The row is the input with its [recordedAt]; [occurredAt] defaults to the clock. *)
Record UsageInput := {
  ui_accountId : string; ui_workspaceId : string; ui_subjectId : option string; ui_eventType : string; ui_quantity : Z; ui_unit : string;
  ui_sourceResourceType : option string; ui_sourceResourceId : option string; ui_idempotencyKey : string; ui_occurredAt : option Z
}.
Definition usageRow (now : Z) (i : UsageInput) : UsageRow := {|
  u_accountId := ui_accountId i; u_workspaceId := ui_workspaceId i; u_subjectId := ui_subjectId i; u_eventType := ui_eventType i;
  u_quantity := ui_quantity i; u_unit := ui_unit i; u_sourceResourceType := ui_sourceResourceType i;
  u_sourceResourceId := ui_sourceResourceId i; u_idempotencyKey := ui_idempotencyKey i;
  u_occurredAt := default now (ui_occurredAt i); u_recordedAt := now |}.
(** The row of the key is the new one or the one that was there. *)
Definition recordUsageEvent (now : Z) (input : UsageInput) (d : BillingDb) : UsageRow * BillingDb :=
  let row := usageRow now input in
  (default row (List.find (usageKeyIs (ui_idempotencyKey input)) (usage d)),
   d <| usage ::= insert_nothing (usageKeyIs (ui_idempotencyKey input)) row |>).

Definition isSome {A} (x : option A) : bool := match x with Some _ => true | None => false end.
Definition matches (wanted : option string) (actual : string) : bool := match wanted with Some w => String.eqb actual w | None => true end.
Definition listUsageEvents (accountId : string) (workspaceId : option string) (limit : option Z) (d : BillingDb) : list UsageRow :=
  Sql.limit (default 100 limit)
    (sort_by (fun r => - u_occurredAt r) (sort_by (fun r => - u_recordedAt r)
      (select_where (fun r => String.eqb (u_accountId r) accountId && matches workspaceId (u_workspaceId r)) (usage d)))).

Record UsageQuery := { uq_accountId : option string; uq_workspaceId : option string; uq_eventType : string; uq_since : option Z }.
Definition inQuery (q : UsageQuery) (r : UsageRow) : bool :=
  String.eqb (u_eventType r) (uq_eventType q) && matches (uq_accountId q) (u_accountId r) && matches (uq_workspaceId q) (u_workspaceId r)
  && match uq_since q with Some t => t <? u_occurredAt r | None => true end.
Definition sumUsageQuantity (q : UsageQuery) (d : BillingDb) : result BillingError Z :=
  if isSome (uq_accountId q) || isSome (uq_workspaceId q) then Ok (sum_where (inQuery q) u_quantity (usage d)) else Err UsageScopeMissing.

(** ** The ledger *)

Definition entryKeyIs (key : string) (r : LedgerRow) : bool := String.eqb (e_idempotencyKey r) key.
Definition ofAccount (accountId : string) (r : LedgerRow) : bool := String.eqb (e_accountId r) accountId.
Definition getBillingBalance (accountId : string) (d : BillingDb) : Z := sum_where (ofAccount accountId) e_amountMicros (ledger d).

Record EntryInput := {
  ei_accountId : string; ei_workspaceId : option string; ei_type : string; ei_amountMicros : Z; ei_sourceType : option string;
  ei_sourceId : option string; ei_idempotencyKey : string; ei_metadata : list (jstr * json); ei_occurredAt : option Z
}.
Definition entryRow (now : Z) (i : EntryInput) (amount : Z) (metadata : list (jstr * json)) : LedgerRow := {|
  e_accountId := ei_accountId i; e_workspaceId := ei_workspaceId i; e_type := ei_type i; e_amountMicros := amount;
  e_sourceType := ei_sourceType i; e_sourceId := ei_sourceId i; e_idempotencyKey := ei_idempotencyKey i; e_metadata := metadata;
  e_occurredAt := default now (ei_occurredAt i) |}.
Definition insertEntry (row : LedgerRow) (d : BillingDb) : BillingDb :=
  d <| ledger ::= insert_nothing (entryKeyIs (e_idempotencyKey row)) row |>.

Definition applyCreditLedgerEntry (now : Z) (input : EntryInput) (d : BillingDb) : Z * BillingDb :=
  let d := insertEntry (entryRow now input (ei_amountMicros input) (ei_metadata input)) d in (getBillingBalance (ei_accountId input) d, d).

(** A debit reads the balance and then inserts; the amount of [ei_amountMicros]
    is the requested one. *)
Definition debitAmount (input : EntryInput) (d : BillingDb) : Z :=
  Z.min (ei_amountMicros input) (Z.max 0 (getBillingBalance (ei_accountId input) d)).
Definition debitMetadata (input : EntryInput) (debited : Z) : list (jstr * json) :=
  set_field (js "debitedMicros") (JNum debited) (set_field (js "requestedAmountMicros") (JNum (ei_amountMicros input)) (ei_metadata input)).
Definition insertDebit (now : Z) (input : EntryInput) (debited : Z) (d : BillingDb) : BillingDb :=
  if 0 <? debited then insertEntry (entryRow now input (- debited) (debitMetadata input debited)) d else d.
(** The balance and the debited amount. *)
Definition applyCreditDebitUpToBalance (now : Z) (input : EntryInput) (d : BillingDb) : Z * Z * BillingDb :=
  if ei_amountMicros input <=? 0 then (getBillingBalance (ei_accountId input) d, 0, d)
  else
    let debitedMicros := debitAmount input d in
    let d := insertDebit now input debitedMicros d in
    (getBillingBalance (ei_accountId input) d, debitedMicros, d).

Definition hasCreditLedgerEntry (accountId key : string) (d : BillingDb) : bool :=
  existsb (fun r => ofAccount accountId r && entryKeyIs key r) (ledger d).

(** ** Customers and webhook events *)

Definition customerIs (accountId provider : string) (r : CustomerRow) : bool :=
  String.eqb (c_accountId r) accountId && String.eqb (c_provider r) provider.
Definition getBillingCustomer (accountId provider : string) (d : BillingDb) : option CustomerRow := List.find (customerIs accountId provider) (customers d).
(** The second unique index is on the provider and its customer id. *)
Definition customerTaken (row : CustomerRow) (r : CustomerRow) : bool :=
  String.eqb (c_provider r) (c_provider row) && String.eqb (c_providerCustomerId r) (c_providerCustomerId row)
  && negb (customerIs (c_accountId row) (c_provider row) r).
Definition upsertBillingCustomer (row : CustomerRow) (d : BillingDb) : result BillingError (unit * BillingDb) :=
  if existsb (customerTaken row) (customers d) then Err (CustomerTaken (c_providerCustomerId row))
  else
    let mine := customerIs (c_accountId row) (c_provider row) in
    Ok (tt, d <| customers ::= fun t =>
      if existsb mine t then update_where mine (fun r => r <| c_providerCustomerId := c_providerCustomerId row |> <| c_email := c_email row |>) t
      else t ++ [row] |>).

Definition webhookIs (id : string) (r : WebhookRow) : bool := String.eqb (h_id r) id.
(** True when the event is new. *)
Definition recordStripeWebhookEvent (id type : string) (livemode : bool) (d : BillingDb) : bool * BillingDb :=
  (negb (existsb (webhookIs id) (webhooks d)),
   d <| webhooks ::= insert_nothing (webhookIs id) {| h_id := id; h_type := type; h_livemode := livemode; h_processedAt := None |} |>).
Definition isStripeWebhookProcessed (id : string) (d : BillingDb) : bool := isSome (List.find (webhookIs id) (webhooks d) ≫= h_processedAt).
Definition markStripeWebhookProcessed (now : Z) (id : string) (d : BillingDb) : BillingDb :=
  d <| webhooks ::= update_where (webhookIs id) (fun r => r <| h_processedAt := Some now |>) |>.

(** ** Programs over the billing tables *)

(** The counter [opengeni_credit_micros_total]. *)
Record CreditMetric := { cm_kind : string; cm_amount : Z }.
Abbreviation Handler := (Program BillingDb BillingError CreditMetric).
#[export] Instance BillingError_fallible : Fallible BillingError := Unavailable.

Definition call {R} (op : Z -> BillingDb -> result BillingError (R * BillingDb)) : Handler R := tx op.
Definition recordCreditMicrosMetric (kind : string) (amountMicros : Z) : Handler unit :=
  if amountMicros <=? 0 then Ret tt else Emit {| cm_kind := kind; cm_amount := amountMicros |} (Ret tt).

(** ** Debits among grants and refunds

    A debit holds the advisory lock of its account from its read to its commit;
    anything else may commit in between. *)

(** The types the callers of [applyCreditDebitUpToBalance] pass. *)
Definition DEBIT_TYPES : list string := ["model_usage_debit"; "sandbox.warm_cost"]%string.
Definition isDebitType (type : string) : bool := bool_decide (type ∈ DEBIT_TYPES).

Record Sys := { s_db : BillingDb; s_debits : gmap string (EntryInput * Z) }.
#[export] Instance etaSys : Settable Sys := fun s => Build_Sys (s_db s) (s_debits s).

Inductive sys_step (s : Sys) : Sys -> Prop :=
| step_begin input : s_debits s !! ei_accountId input = None -> isDebitType (ei_type input) = true -> 0 < ei_amountMicros input ->
    sys_step s (s <| s_debits ::= <[ei_accountId input := (input, debitAmount input (s_db s))]> |>)
| step_commit now account input debited : s_debits s !! account = Some (input, debited) ->
    sys_step s {| s_db := insertDebit now input debited (s_db s); s_debits := delete account (s_debits s) |}
| step_abort account : sys_step s (s <| s_debits ::= delete account |>)
| step_entry now input : isDebitType (ei_type input) = false -> sys_step s (s <| s_db := (applyCreditLedgerEntry now input (s_db s)).2 |>)
| step_elsewhere d' : ledger d' = ledger (s_db s) -> sys_step s (s <| s_db := d' |>).

Lemma debit_steps now input d : 0 < ei_amountMicros input ->
  (applyCreditDebitUpToBalance now input d).2 = insertDebit now input (debitAmount input d) d.
Proof. intros H. unfold applyCreditDebitUpToBalance. destruct (_ <=? 0) eqn:E; [lia|done]. Qed.

Definition isCredit (a : string) (r : LedgerRow) : bool := ofAccount a r && negb (isDebitType (e_type r)) && (0 <=? e_amountMicros r).
Definition isWithdrawal (a : string) (r : LedgerRow) : bool := ofAccount a r && negb (isDebitType (e_type r)) && negb (0 <=? e_amountMicros r).
Definition isDebit (a : string) (r : LedgerRow) : bool := ofAccount a r && isDebitType (e_type r).
Definition credited (a : string) (l : list LedgerRow) : Z := sum_where (isCredit a) e_amountMicros l.
Definition withdrawn (a : string) (l : list LedgerRow) : Z := sum_where (isWithdrawal a) (fun r => - e_amountMicros r) l.
Definition debited (a : string) (l : list LedgerRow) : Z := sum_where (isDebit a) (fun r => - e_amountMicros r) l.

Lemma balance_split a l : sum_where (ofAccount a) e_amountMicros l = credited a l - withdrawn a l - debited a l.
Proof.
  unfold credited, withdrawn, debited. induction l as [|r l IH]; [done|]. change (r :: l) with ([r] ++ l). rewrite !sum_where_app, !sum_where_one, IH.
  unfold isCredit, isWithdrawal, isDebit. destruct (ofAccount a r), (isDebitType (e_type r)), (0 <=? e_amountMicros r); cbn; lia.
Qed.

Lemma withdrawn_nonneg a l : 0 <= withdrawn a l.
Proof. apply sum_where_nonneg. unfold isWithdrawal. intros r _ H. breflect. lia. Qed.

Lemma insert_ledger row d : ledger (insertEntry row d) = ledger d \/ ledger (insertEntry row d) = ledger d ++ [row].
Proof. cbn. unfold insert_nothing. destruct (existsb _ _); auto. Qed.

Definition pending (a : string) (s : Sys) : Z := from_option snd 0 (s_debits s !! a).
Record sys_ok (s : Sys) : Prop := {
  ok_keys : NoDup (List.map e_idempotencyKey (ledger (s_db s)));
  ok_pending : forall a input n, s_debits s !! a = Some (input, n) -> ei_accountId input = a /\ isDebitType (ei_type input) = true /\ 0 <= n;
  ok_debits : forall a, debited a (ledger (s_db s)) + pending a s <= credited a (ledger (s_db s))
}.

Lemma insert_keys row d : NoDup (List.map e_idempotencyKey (ledger d)) -> NoDup (List.map e_idempotencyKey (ledger (insertEntry row d))).
Proof. apply insert_nothing_keys. intros r. apply String.eqb_eq. Qed.

Lemma pending_nonneg s a : sys_ok s -> 0 <= pending a s.
Proof. intros H. unfold pending. destruct (s_debits s !! a) as [[i n]|] eqn:E; [|done]. apply (ok_pending _ H) in E as (_ & _ & ?). done. Qed.

Lemma pending_delete a b s db : pending b {| s_db := db; s_debits := delete a (s_debits s) |} = if String.eqb a b then 0 else pending b s.
Proof.
  unfold pending. cbn. destruct (String.eqb_spec a b) as [->|Hne]; [by rewrite lookup_delete_eq|]. by rewrite lookup_delete_ne.
Qed.

Lemma sys_step_ok s s' : sys_step s s' -> sys_ok s -> sys_ok s'.
Proof.
  intros Hs Hok. pose proof Hok as [Hk Hp Hd]. destruct Hs as [input Hl Ht Hpos|now a input n Hl|a|now input Ht|d' Hd'].
  - assert (Hamt : 0 <= debitAmount input (s_db s)) by (unfold debitAmount; lia). split; cbn; [done| |].
    + intros a i n. rewrite lookup_insert. case_decide as Ha; [|by apply Hp]. subst a. by intros [= <- <-].
    + intros a. specialize (Hd a). unfold pending in *. cbn. rewrite lookup_insert. case_decide as Ha; [|done]. subst a. rewrite Hl in Hd. cbn in *.
      unfold debitAmount, getBillingBalance. rewrite balance_split. pose proof (withdrawn_nonneg (ei_accountId input) (ledger (s_db s))). lia.
  - destruct (Hp _ _ _ Hl) as (Ha & Ht & Hn).
    assert (Hsame : sys_ok {| s_db := s_db s; s_debits := delete a (s_debits s) |}).
    { split; cbn; [done| |].
      - intros b i m. rewrite lookup_delete. case_decide; [done|]. apply Hp.
      - intros b. rewrite pending_delete. specialize (Hd b). pose proof (pending_nonneg s b Hok). destruct (String.eqb a b); lia. }
    unfold insertDebit. destruct (0 <? n); [|done]. set (row := entryRow now input (- n) (debitMetadata input n)).
    split; cbn [s_db s_debits]; [by apply insert_keys|apply (ok_pending _ Hsame)|].
    intros b. rewrite pending_delete. specialize (Hd b). pose proof (pending_nonneg s b Hok).
    destruct (insert_ledger row (s_db s)) as [E|E]; rewrite E; [destruct (String.eqb a b); lia|].
    unfold debited, credited in *. rewrite !sum_where_app, !sum_where_one. unfold isDebit at 2, isCredit at 2, ofAccount. cbn. rewrite Ht, Ha. cbn.
    destruct (String.eqb_spec a b) as [->|]; cbn; [|lia]. unfold pending in Hd. rewrite Hl in Hd. cbn in Hd. lia.
  - split; cbn; [done| |].
    + intros b i n. rewrite lookup_delete. case_decide; [done|]. apply Hp.
    + intros b. unfold pending. cbn. specialize (Hd b). pose proof (pending_nonneg s b Hok). unfold pending in *.
      rewrite lookup_delete. case_decide; cbn; lia.
  - set (row := entryRow now input (ei_amountMicros input) (ei_metadata input)).
    change (sys_ok (s <| s_db := insertEntry row (s_db s) |>)). split; cbn [s_db s_debits setWith]; [by apply insert_keys|done|].
    intros b. specialize (Hd b). change (pending b (s <| _ := _ |>)) with (pending b s).
    destruct (insert_ledger row (s_db s)) as [E|E]; rewrite E; [done|].
    unfold debited, credited in *. rewrite !sum_where_app, !sum_where_one. unfold isDebit at 2, isCredit at 2, ofAccount. cbn. rewrite Ht. cbn.
    change (pending b _) with (pending b s). rewrite andb_false_r. destruct (_ && _ && _) eqn:E'; breflect; lia.
  - split; cbn; rewrite ?Hd'; try done.
Qed.

Definition emptyBilling : BillingDb := {| ledger := []; usage := []; customers := []; webhooks := [] |}.
Definition start : Sys := {| s_db := emptyBilling; s_debits := ∅ |}.

Lemma start_ok : sys_ok start.
Proof. split; [constructor|done|]. intros a. done. Qed.

(** (C32) Whatever commits between the read and the write of a debit, an
    account is never debited more than it was granted: the balance is the grants
    less the refunds and holds less the debits, it only goes negative by refunds
    and holds, and every idempotency key is in the ledger once. *)
Theorem debits_never_overdraw s a : rtc sys_step start s ->
  let l := ledger (s_db s) in
  getBillingBalance a (s_db s) = credited a l - withdrawn a l - debited a l /\ debited a l <= credited a l /\
  - withdrawn a l <= getBillingBalance a (s_db s) /\ NoDup (List.map e_idempotencyKey l).
Proof.
  intros H l. assert (Hok : sys_ok s).
  { assert (Hi : forall x y, rtc sys_step x y -> sys_ok x -> sys_ok y) by (induction 1; eauto using sys_step_ok). exact (Hi _ _ H start_ok). }
  pose proof (pending_nonneg s a Hok). pose proof (ok_debits _ Hok a). pose proof (balance_split a l) as Hb. unfold getBillingBalance. subst l.
  split_and!; [exact Hb|lia|rewrite Hb; lia|apply (ok_keys _ Hok)].
Qed.

(** ** Examples *)

Definition entry (type : string) (amount : Z) (key : string) : EntryInput := {|
  ei_accountId := "acme"; ei_workspaceId := None; ei_type := type; ei_amountMicros := amount; ei_sourceType := None; ei_sourceId := None;
  ei_idempotencyKey := key; ei_metadata := []; ei_occurredAt := None |}.

(** A refund commits while a debit that read a balance of ten waits to write. *)
Definition raced : Sys :=
  let s := start <| s_db := (applyCreditLedgerEntry 0 (entry "credit_topup" 10 "k1") emptyBilling).2 |> in
  let s := s <| s_debits ::= <["acme"%string := (entry "model_usage_debit" 12 "k2", debitAmount (entry "model_usage_debit" 12 "k2") (s_db s))]> |> in
  let s := s <| s_db := (applyCreditLedgerEntry 1 (entry "credit_refund" (-4) "k3") (s_db s)).2 |> in
  {| s_db := insertDebit 2 (entry "model_usage_debit" 12 "k2") 10 (s_db s); s_debits := delete "acme"%string (s_debits s) |}.

Lemma debits_never_overdraw_witness : getBillingBalance "acme" (s_db raced) = -4 /\ debited "acme" (ledger (s_db raced)) <= credited "acme" (ledger (s_db raced)).
Proof.
  split; [vm_compute; reflexivity|].
  assert (H : rtc sys_step start raced).
  { eapply rtc_l; [apply (step_entry _ 0 (entry "credit_topup" 10 "k1")); reflexivity|].
    eapply rtc_l; [apply (step_begin _ (entry "model_usage_debit" 12 "k2")); reflexivity|].
    eapply rtc_l; [apply (step_entry _ 1 (entry "credit_refund" (-4) "k3")); reflexivity|].
    eapply rtc_l; [apply (step_commit _ 2 "acme" (entry "model_usage_debit" 12 "k2") 10); reflexivity|]. apply rtc_refl. }
  exact (proj1 (proj2 (debits_never_overdraw raced "acme" H))).
Defined.

(** The answer of a repeated debit is computed, not read from the ledger: a
    replay reports the amount again though it inserts nothing. *)
Example replay_reports_again :
  let d := (applyCreditLedgerEntry 0 (entry "credit_topup" 30 "k1") emptyBilling).2 in
  let '(_, first, d1) := applyCreditDebitUpToBalance 1 (entry "model_usage_debit" 12 "k2") d in
  let '(_, second, d2) := applyCreditDebitUpToBalance 2 (entry "model_usage_debit" 12 "k2") d1 in
  first = 12 /\ second = 12 /\ d2 = d1 /\ getBillingBalance "acme" d2 = 18.
Proof. vm_compute. done. Qed.
End Billing.
