(* ===== verification/Stripe.v ===== *)
(** * Stripe payments ([apps/api/src/routes/billing.ts])

    Checkouts, refunds and disputes reach the ledger through webhook events.
    Stripe delivers an event at least once and in no particular order, several
    deliveries may run at once and any may fail half way: a delivery is a program
    over the transactions of [Billing], and deliveries run in a pool. *)
From stdpp Require Import pretty.
From S2P Require Import Prelude Json Sql Activity Billing.
#[local] Open Scope Z_scope.
#[local] Open Scope opengeni_scope.

Module Stripe.
Import Billing Activity.

(** ** Stripe objects

    An expandable reference is the id it carries. *)

Abbreviation Metadata := (gmap string string).
Record CheckoutSession := {
  cs_id : string; cs_mode : string; cs_paymentStatus : string; cs_metadata : option Metadata; cs_customer : option string;
  cs_customerDetailsEmail : option string; cs_customerEmail : option string; cs_paymentIntent : option string
}.
Record PaymentIntent := { pi_metadata : option Metadata; pi_customer : option string }.
Record Refund := { rf_id : string; rf_status : option string; rf_amount : Z; rf_metadata : option Metadata; rf_paymentIntent : option string }.
Record Dispute := {
  dp_id : string; dp_status : string; dp_amount : Z; dp_metadata : option Metadata; dp_paymentIntent : option string; dp_charge : option string
}.
Record Customer := { cu_id : string; cu_deleted : bool; cu_email : option string; cu_metadata : option Metadata }.

(** [event.type] with [event.data.object]. *)
Inductive EventData :=
| CheckoutSessionCompleted (session : CheckoutSession)
| PaymentIntentEvent (type : string) (intent : PaymentIntent)
| ChargeRefunded (refunds : list Refund)
| RefundEvent (type : string) (refund : Refund)
| DisputeHeld (type : string) (dispute : Dispute)
| DisputeClosed (dispute : Dispute)
| DisputeFundsReinstated (dispute : Dispute)
| CustomerEvent (type : string) (customer : Customer)
| Ignored (type : string).
Record Event := { ev_id : string; ev_livemode : bool; ev_data : EventData }.
Definition ev_type (e : Event) : string :=
  match ev_data e with
  | CheckoutSessionCompleted _ => "checkout.session.completed"
  | ChargeRefunded _ => "charge.refunded"
  | DisputeClosed _ => "charge.dispute.closed"
  | DisputeFundsReinstated _ => "charge.dispute.funds_reinstated"
  | PaymentIntentEvent type _ | RefundEvent type _ | DisputeHeld type _ | CustomerEvent type _ | Ignored type => type
  end.

Definition orThrow {A} (x : option A) : Handler A := match x with Some a => Ret a | None => Throw StripeFailed end.
Definition centsToMicros (cents : Z) : Z := cents * 10000.
(** A string in a condition. *)
Definition accountOf (metadata : option Metadata) : option string := truthyId (metadata ≫= lookup "opengeni_account_id"%string).
Definition stripeCustomerProvider (e : Event) : string := if ev_livemode e then "stripe:live" else "stripe:test".
Definition credit (accountId type : string) (amount : Z) (sourceType sourceId key : string) (metadata : list (jstr * json)) : Handler unit :=
  call (fun now d => Ok (tt, (applyCreditLedgerEntry now {|
    ei_accountId := accountId; ei_workspaceId := None; ei_type := type; ei_amountMicros := amount; ei_sourceType := Some sourceType;
    ei_sourceId := Some sourceId; ei_idempotencyKey := key; ei_metadata := metadata; ei_occurredAt := None |} d).2)).
Definition str (s : string) : json := JStr (js s).
Definition orNull (s : option string) : json := default JNull (str <$> s).

Section stripe.
(** The Stripe API: the metadata of a payment intent, and the payment intent and
    metadata of a charge; [None] when the call throws.  [safeInteger s] is
    [Number(s)] when it is a safe integer. *)
Context (retrieveIntent : string -> option Metadata) (retrieveCharge : string -> option (option string * Metadata)).
Context (safeInteger : string -> option Z).

Record CreditMetadata := {
  cr_accountId : string; cr_amountMicros : Z; cr_idempotencyKey : string; cr_amountUsd : option string; cr_packageId : option string
}.
Definition creditMetadata (metadata : option Metadata) (label : string) : result BillingError CreditMetadata :=
  let get k := truthyId (metadata ≫= lookup k) in
  match accountOf metadata, (metadata ≫= lookup "opengeni_credit_micros"%string) ≫= safeInteger, get "opengeni_credit_idempotency_key"%string with
  | Some accountId, Some amountMicros, Some key =>
      if amountMicros <=? 0 then Err (MissingCreditMetadata label)
      else Ok {| cr_accountId := accountId; cr_amountMicros := amountMicros; cr_idempotencyKey := key;
                 cr_amountUsd := get "opengeni_credit_amount_usd"%string; cr_packageId := get "opengeni_package_id"%string |}
  | _, _, _ => Err (MissingCreditMetadata label)
  end.

Definition metadataForRefund (refund : Refund) : Handler (option Metadata) :=
  if bool_decide (default ∅ (rf_metadata refund) = ∅) then
    match truthyId (rf_paymentIntent refund) with
    | Some intent => let* metadata := orThrow (retrieveIntent intent) in Ret (Some metadata)
    | None => Ret None
    end
  else Ret (rf_metadata refund).

Definition metadataForDispute (dispute : Dispute) : Handler (option Metadata) :=
  if bool_decide (default ∅ (dp_metadata dispute) = ∅) then
    match truthyId (dp_paymentIntent dispute) with
    | Some intent => let* metadata := orThrow (retrieveIntent intent) in Ret (Some metadata)
    | None =>
        match truthyId (dp_charge dispute) with
        | None => Ret None
        | Some chargeId =>
            let* charge := orThrow (retrieveCharge chargeId) in
            match truthyId charge.1 with
            | Some intent => let* metadata := orThrow (retrieveIntent intent) in Ret (Some metadata)
            | None => Ret (Some charge.2)
            end
        end
    end
  else Ret (dp_metadata dispute).

(** ** The handlers *)

Definition upsertCustomer (e : Event) (accountId customerId : string) (email : option string) : Handler unit :=
  call (fun _ => upsertBillingCustomer {|
    c_accountId := accountId; c_provider := stripeCustomerProvider e; c_providerCustomerId := customerId; c_email := email |}).

Definition handleCheckoutSessionCompleted (e : Event) (session : CheckoutSession) : Handler unit :=
  if negb (String.eqb (cs_mode session) "payment") || negb (String.eqb (cs_paymentStatus session) "paid") then Ret tt
  else
    match creditMetadata (cs_metadata session) (String.append "Stripe checkout session " (cs_id session)) with
    | Err err => Throw err
    | Ok c =>
        (match truthyId (cs_customer session) with
         | Some customerId =>
             upsertCustomer e (cr_accountId c) customerId
               (match cs_customerDetailsEmail session with Some email => Some email | None => cs_customerEmail session end)
         | None => Ret tt
         end) ;;
        credit (cr_accountId c) "credit_topup" (cr_amountMicros c) "stripe_checkout_session" (cs_id session) (cr_idempotencyKey c) [
          (js "stripeEventId", str (ev_id e)); (js "stripePaymentIntentId", orNull (cs_paymentIntent session));
          (js "stripePackageId", orNull (cr_packageId c)); (js "stripeCreditAmountUsd", orNull (cr_amountUsd c))] ;;
        recordCreditMicrosMetric "topup" (cr_amountMicros c)
    end.

Definition mirrorPaymentIntentCustomer (e : Event) (intent : PaymentIntent) : Handler unit :=
  match accountOf (pi_metadata intent), truthyId (pi_customer intent) with
  | Some accountId, Some customerId => upsertCustomer e accountId customerId None
  | _, _ => Ret tt
  end.

Definition refundKey (id : string) : string := String.append "stripe:refund:" id.
Definition applyRefundDebit (refund : Refund) : Handler unit :=
  if match truthyId (rf_status refund) with Some s => negb (String.eqb s "succeeded") | None => false end then Ret tt
  else
    let* metadata := metadataForRefund refund in
    match accountOf metadata with
    | None => Ret tt
    | Some accountId =>
        let* known := read (hasCreditLedgerEntry accountId (refundKey (rf_id refund))) in
        if (known : bool) then Ret tt
        else
          credit accountId "credit_refund" (- centsToMicros (rf_amount refund)) "stripe_refund" (rf_id refund) (refundKey (rf_id refund))
            [(js "stripeRefundId", str (rf_id refund)); (js "stripePaymentIntentId", orNull (truthyId (rf_paymentIntent refund)))] ;;
          recordCreditMicrosMetric "refund" (centsToMicros (rf_amount refund))
    end.
Fixpoint handleChargeRefunded (refunds : list Refund) : Handler unit :=
  match refunds with [] => Ret tt | refund :: refunds => applyRefundDebit refund ;; handleChargeRefunded refunds end.

Definition holdKey (id : string) : string := String.append "stripe:dispute_hold:" id.
Definition releaseKey (id : string) : string := String.append "stripe:dispute_release:" id.
Definition disputeEntry (e : Event) (dispute : Dispute) (accountId type : string) (amount : Z) (key : string) : Handler unit :=
  credit accountId type amount "stripe_dispute" (dp_id dispute) key
    [(js "stripeDisputeId", str (dp_id dispute)); (js "stripeEventType", str (ev_type e))].
Definition holdDisputedCredits (e : Event) (dispute : Dispute) : Handler unit :=
  let* metadata := metadataForDispute dispute in
  match accountOf metadata with
  | None => Ret tt
  | Some accountId => disputeEntry e dispute accountId "credit_dispute_hold" (- centsToMicros (dp_amount dispute)) (holdKey (dp_id dispute))
  end.
Definition releaseDisputedCredits (e : Event) (dispute : Dispute) : Handler unit :=
  if String.eqb (ev_type e) "charge.dispute.closed" && negb (String.eqb (dp_status dispute) "won") then Ret tt
  else
    let* metadata := metadataForDispute dispute in
    match accountOf metadata with
    | None => Ret tt
    | Some accountId =>
        let* held := read (hasCreditLedgerEntry accountId (holdKey (dp_id dispute))) in
        if negb held then Ret tt
        else disputeEntry e dispute accountId "credit_dispute_release" (centsToMicros (dp_amount dispute)) (releaseKey (dp_id dispute))
    end.

Definition mirrorCustomer (e : Event) (customer : Customer) : Handler unit :=
  match accountOf (cu_metadata customer) with
  | Some accountId => if cu_deleted customer then Ret tt else upsertCustomer e accountId (cu_id customer) (cu_email customer)
  | None => Ret tt
  end.

Definition handleStripeWebhookEvent (e : Event) : Handler unit :=
  match ev_data e with
  | CheckoutSessionCompleted session => handleCheckoutSessionCompleted e session
  | PaymentIntentEvent _ intent => mirrorPaymentIntentCustomer e intent
  | ChargeRefunded refunds => handleChargeRefunded refunds
  | RefundEvent _ refund => applyRefundDebit refund
  | DisputeHeld _ dispute => holdDisputedCredits e dispute
  | DisputeClosed dispute | DisputeFundsReinstated dispute => releaseDisputedCredits e dispute
  | CustomerEvent _ customer => mirrorCustomer e customer
  | Ignored _ => Ret tt
  end.

(** [POST /v1/webhooks/stripe] of an event whose signature holds: true when it is
    a duplicate.  An error leaves the event unprocessed and Stripe sends it again. *)
Definition receive (e : Event) : Handler bool :=
  let* firstSeen := call (fun _ d => Ok (recordStripeWebhookEvent (ev_id e) (ev_type e) (ev_livemode e) d)) in
  let* duplicate := (if (firstSeen : bool) then Ret false else read (isStripeWebhookProcessed (ev_id e))) in
  if (duplicate : bool) then Ret true
  else
    handleStripeWebhookEvent e ;;
    call (fun now d => Ok (tt, markStripeWebhookProcessed now (ev_id e) d)) ;;
    Ret false.
End stripe.

(** ** The checkout request *)

(** [(cents / 100).toFixed(2)] *)
Definition usdText (cents : Z) : string :=
  String.append (pretty (cents / 100)) (String.append "." (String.append (pretty (cents mod 100 / 10)) (pretty (cents mod 10)))).
Definition checkoutMetadata (accountId : string) (amountCents amountMicros : Z) (key : string) : Metadata :=
  {["opengeni_account_id" := accountId; "opengeni_credit_amount_usd" := usdText amountCents;
    "opengeni_credit_micros" := pretty amountMicros; "opengeni_credit_idempotency_key" := key]}%string.
Definition checkoutKey (accountId : string) (amountMicros : Z) (uuid : string) : string :=
  String.append "checkout:" (String.append accountId (String.append ":" (String.append (pretty amountMicros) (String.append ":" uuid)))).

(** ** Disputes

    Stripe reports a dispute with one amount and one account. *)

Lemma holdKey_inj a b : holdKey a = holdKey b -> a = b.
Proof. apply (inj (String.append "stripe:dispute_hold:")). Qed.
Lemma releaseKey_inj a b : releaseKey a = releaseKey b -> a = b.
Proof. apply (inj (String.append "stripe:dispute_release:")). Qed.
Lemma hold_not_release a b : holdKey a <> releaseKey b.
Proof. discriminate. Qed.

Section disputes.
Context (retrieveIntent : string -> option Metadata) (retrieveCharge : string -> option (option string * Metadata)).
Context (safeInteger : string -> option Z).
Context (payer : string -> string) (amountIn : string -> Z).

Definition ofDispute (id : string) (r : LedgerRow) : bool :=
  bool_decide (e_sourceType r = Some "stripe_dispute"%string) && bool_decide (e_sourceId r = Some id).
(** What the ledger owes the account of a dispute: hold and release. *)
Definition disputeNet (id : string) (l : list LedgerRow) : Z := sum_where (ofDispute id) e_amountMicros l.
Definition has (key : string) (l : list LedgerRow) : Prop := exists r, r ∈ l /\ e_idempotencyKey r = key.

(** A row another writer may insert, beside the rows [l]. *)
Definition entry_ok (l : list LedgerRow) (r : LedgerRow) : Prop :=
  (forall id, e_idempotencyKey r = holdKey id -> ofDispute id r = true /\ e_accountId r = payer id /\ e_amountMicros r = - centsToMicros (amountIn id)) /\
  (forall id, e_idempotencyKey r = releaseKey id ->
    ofDispute id r = true /\ e_accountId r = payer id /\ e_amountMicros r = centsToMicros (amountIn id) /\ has (holdKey id) l) /\
  (forall id, ofDispute id r = true -> e_idempotencyKey r = holdKey id \/ e_idempotencyKey r = releaseKey id).
Definition ledger_ok (d : BillingDb) : Prop :=
  NoDup (List.map e_idempotencyKey (ledger d)) /\ forall r, r ∈ ledger d -> entry_ok (ledger d) r.
Definition grows (d d' : BillingDb) : Prop := forall r, r ∈ ledger d -> r ∈ ledger d'.

#[export] Instance grows_preorder : PreOrder grows.
Proof. split; [by intros d r|]. intros d1 d2 d3 H1 H2 r Hr. by apply H2, H1. Qed.

Lemma ofDispute_same id r : e_sourceType r = Some "stripe_dispute"%string -> e_sourceId r = Some id -> ofDispute id r = true.
Proof. unfold ofDispute. intros -> ->. by rewrite !bool_decide_true. Qed.

Lemma has_mono key l l' : (forall r, r ∈ l -> r ∈ l') -> has key l -> has key l'.
Proof. intros H (r & Hr & Hk). exists r. auto. Qed.

Lemma entry_ok_mono l l' r : (forall r, r ∈ l -> r ∈ l') -> entry_ok l r -> entry_ok l' r.
Proof. intros H (H1 & H2 & H3). split_and!; [done| |done]. intros id Hk. destruct (H2 id Hk) as (? & ? & ? & ?). split_and!; [done..|by eapply has_mono]. Qed.

Lemma same_ledger d d' : ledger d' = ledger d -> ledger_ok d -> ledger_ok d' /\ grows d d'.
Proof. unfold ledger_ok, grows. intros ->. auto. Qed.

Lemma insert_ok row d : entry_ok (ledger d) row -> ledger_ok d -> ledger_ok (insertEntry row d) /\ grows d (insertEntry row d).
Proof.
  intros Hrow [Hnd Hall].
  assert (Hg : grows d (insertEntry row d)) by (intros r Hr; by apply insert_nothing_elem).
  split; [|done]. split; [by apply insert_keys|]. intros r Hr. eapply entry_ok_mono; [exact Hg|].
  apply insert_nothing_inv in Hr as [Hr|[-> _]]; [by apply Hall|done].
Qed.

#[local] Abbreviation wp := (Activity.wp ledger_ok grows).
#[local] Abbreviation safe := (Activity.safe ledger_ok grows).
#[local] Abbreviation wp_tx := (Activity.wp_tx ledger_ok grows).
#[local] Abbreviation wp_read := (Activity.wp_read ledger_ok grows).

Lemma wp_elsewhere {R} (op : Z -> BillingDb -> result BillingError (R * BillingDb)) (Q : R -> BillingDb -> Prop) d :
  (forall now d r d', op now d = Ok (r, d') -> ledger d' = ledger d) -> (forall r d', Q r d') -> wp (call op) Q d.
Proof. intros H HQ. apply wp_tx. intros d1 now r d2 _ Hi Hop. destruct (same_ledger d1 d2) as [? ?]; [by eapply H|done|]. by split_and!. Qed.

Lemma wp_credit a type amount st sid key meta (Q : unit -> BillingDb -> Prop) d : (forall d', Q tt d') ->
  (forall d1 now, grows d d1 -> ledger_ok d1 -> entry_ok (ledger d1) (entryRow now {|
    ei_accountId := a; ei_workspaceId := None; ei_type := type; ei_amountMicros := amount; ei_sourceType := Some st;
    ei_sourceId := Some sid; ei_idempotencyKey := key; ei_metadata := meta; ei_occurredAt := None |} amount meta)) ->
  wp (credit a type amount st sid key meta) Q d.
Proof.
  intros HQ Hrow. apply wp_tx. intros d1 now r d2 Hg Hi H. assert (r = tt) as -> by by destruct r. injection H as <-.
  destruct (insert_ok _ _ (Hrow d1 now Hg Hi) Hi) as [H1 H2]. by split_and!.
Qed.

(** Keys and sources of the other writers. *)
Lemma foreign_entry l r : (forall id, e_idempotencyKey r <> holdKey id /\ e_idempotencyKey r <> releaseKey id) ->
  e_sourceType r <> Some "stripe_dispute"%string -> entry_ok l r.
Proof.
  intros Hk Hs. split_and!; [by intros id H; destruct (Hk id)|by intros id H; destruct (Hk id)|].
  unfold ofDispute. intros id H. breflect. by destruct Hs.
Qed.

Lemma safe_metric kind n d : safe (recordCreditMicrosMetric kind n) d.
Proof. unfold recordCreditMicrosMetric. by destruct (n <=? 0). Qed.

Lemma safe_customer e a c m d : safe (upsertCustomer e a c m) d.
Proof. apply wp_elsewhere; [|done]. intros now d1 r d2. unfold upsertBillingCustomer. destruct (existsb _ _); [done|]. by intros [= <- <-]. Qed.

Lemma wp_orThrow {A} (x : option A) (Q : A -> BillingDb -> Prop) d : (forall a, x = Some a -> Q a d) -> wp (orThrow x) Q d.
Proof. destruct x; cbn; auto. Qed.

Definition dispute_ok (dispute : Dispute) : Prop :=
  dp_amount dispute = amountIn (dp_id dispute) /\
  forall d, wp (metadataForDispute retrieveIntent retrieveCharge dispute) (fun m _ => forall a, accountOf m = Some a -> a = payer (dp_id dispute)) d.

Lemma wp_metadataForRefund refund (Q : option Metadata -> BillingDb -> Prop) d : (forall m, Q m d) -> wp (metadataForRefund retrieveIntent refund) Q d.
Proof.
  intros HQ. unfold metadataForRefund. destruct (bool_decide _); [|apply HQ]. destruct (truthyId _); [|apply HQ].
  apply wp_bind, wp_orThrow. intros m _. apply HQ.
Qed.

Lemma safe_refund refund d : safe (applyRefundDebit retrieveIntent refund) d.
Proof.
  unfold applyRefundDebit. destruct (match truthyId _ with Some _ => _ | None => _ end); [done|].
  apply wp_bind, wp_metadataForRefund. intros m. destruct (accountOf m) as [a|]; [|done].
  apply wp_bind, wp_read. intros d1 _ _. destruct (hasCreditLedgerEntry _ _ _); [done|].
  apply wp_bind, wp_credit; [intros; apply safe_metric|]. intros d2 now _ _. apply foreign_entry; [|done]. intros id. done.
Qed.

Lemma safe_hold e dispute d : dispute_ok dispute -> safe (holdDisputedCredits retrieveIntent retrieveCharge e dispute) d.
Proof.
  intros [Ham Hw]. unfold holdDisputedCredits. apply wp_bind. eapply wp_weaken; [|apply Hw]. intros m d1 Hm. cbn beta.
  destruct (accountOf m) as [a|] eqn:Ea; [|done]. apply wp_credit; [done|]. intros d2 now _ _. split_and!; cbn.
  - intros id <-%holdKey_inj. rewrite <- Ham. split_and!; [by apply ofDispute_same|by apply Hm|done].
  - done.
  - unfold ofDispute. intros id H. breflect. cbn in *. simplify_eq. by left.
Qed.

Lemma hasEntry_has a key d : hasCreditLedgerEntry a key d = true -> has key (ledger d).
Proof.
  unfold hasCreditLedgerEntry. intros (r & Hr & H)%existsb_exists. unfold entryKeyIs in H. breflect. exists r. split; [by apply list_elem_of_In|done].
Qed.

Lemma safe_release e dispute d : dispute_ok dispute -> safe (releaseDisputedCredits retrieveIntent retrieveCharge e dispute) d.
Proof.
  intros [Ham Hw]. unfold releaseDisputedCredits. destruct (_ && _); [done|]. apply wp_bind. eapply wp_weaken; [|apply Hw]. intros m d1 Hm. cbn beta.
  destruct (accountOf m) as [a|] eqn:Ea; [|done]. apply wp_bind, wp_read. intros d2 _ _. destruct (hasCreditLedgerEntry a _ d2) eqn:Eh; [|done].
  apply hasEntry_has in Eh. apply wp_credit; [done|]. intros d3 now Hg _. split_and!; cbn.
  - done.
  - intros id <-%releaseKey_inj. rewrite <- Ham. split_and!; [by apply ofDispute_same|by apply Hm|done|by eapply has_mono].
  - unfold ofDispute. intros id H. breflect. cbn in *. simplify_eq. by right.
Qed.

(** What a delivered event must be: disputes are consistent, and the checkouts
    carry a key of [checkoutKey]. *)
Definition event_ok (e : Event) : Prop :=
  match ev_data e with
  | DisputeHeld _ dispute | DisputeClosed dispute | DisputeFundsReinstated dispute => dispute_ok dispute
  | CheckoutSessionCompleted session => forall label c, creditMetadata safeInteger (cs_metadata session) label = Ok c ->
      exists a n uuid, cr_idempotencyKey c = checkoutKey a n uuid
  | _ => True
  end.

Lemma safe_handle e d : event_ok e -> safe (handleStripeWebhookEvent retrieveIntent retrieveCharge safeInteger e) d.
Proof.
  unfold event_ok, handleStripeWebhookEvent. destruct (ev_data e) as [session|t intent|refunds|t refund|t dispute|dispute|dispute|t customer|t]; intros He.
  - unfold handleCheckoutSessionCompleted. destruct (_ || _); [done|]. destruct (creditMetadata _ _ _) as [c|err] eqn:Ec; [|done].
    destruct (He _ _ Ec) as (a & n & uuid & Hk).
    apply wp_bind. eapply (wp_weaken _ _ _ (fun _ _ => True)); [intros _ d1 _|destruct (truthyId _); [apply safe_customer|done]].
    apply wp_bind, wp_credit; [intros; apply safe_metric|]. intros d2 now _ _. apply foreign_entry; [|done]. intros id. cbn. rewrite Hk. done.
  - unfold mirrorPaymentIntentCustomer. destruct (accountOf _); [|done]. destruct (truthyId _); [apply safe_customer|done].
  - revert d. induction refunds as [|refund refunds IH]; intros d; [done|]. apply wp_bind.
    eapply (wp_weaken _ _ _ (fun _ _ => True)); [intros _ d1 _; apply IH|apply safe_refund].
  - apply safe_refund.
  - by apply safe_hold.
  - by apply safe_release.
  - by apply safe_release.
  - unfold mirrorCustomer. destruct (accountOf _); [|done]. destruct (cu_deleted _); [done|apply safe_customer].
  - done.
Qed.

Lemma safe_receive e d : event_ok e -> safe (receive retrieveIntent retrieveCharge safeInteger e) d.
Proof.
  intros He. unfold receive. apply wp_bind, wp_elsewhere; [by intros now d1 r d2 [= <- <-]|]. intros firstSeen d1.
  apply wp_bind. apply (wp_weaken _ _ _ (fun _ _ => True)).
  2:{ destruct firstSeen; [done|]. by apply wp_read. }
  intros [] d2 _; [done|]. apply wp_bind. eapply (wp_weaken _ _ _ (fun _ _ => True)); [|by apply safe_handle].
  intros _ d3 _. apply wp_bind, wp_elsewhere; [by intros now d4 r d5 [= <- <-]|done].
Qed.

(** Deliveries, and the writers of other entries. *)
Inductive activity : Handler bool -> Prop :=
| delivery e : event_ok e -> activity (receive retrieveIntent retrieveCharge safeInteger e)
| other_writer (op : Z -> BillingDb -> BillingDb) :
    (forall now d, ledger (op now d) = ledger d \/ exists row, op now d = insertEntry row d /\
       (forall id, e_idempotencyKey row <> holdKey id /\ e_idempotencyKey row <> releaseKey id) /\ e_sourceType row <> Some "stripe_dispute"%string) ->
    activity (let* _ := call (fun now d => Ok (tt, op now d)) in Ret false).

Lemma safe_activity m d : activity m -> safe m d.
Proof.
  intros [e He|op Hop]; [by apply safe_receive|]. apply wp_bind, wp_tx. intros d1 now r d2 _ Hi [= _ <-].
  destruct (Hop now d1) as [Hs|(row & -> & Hk & Hs)].
  - destruct (same_ledger d1 (op now d1) Hs Hi). by split_and!.
  - destruct (insert_ok row d1); [by apply foreign_entry|done|by split_and!].
Qed.

Lemma find_has key l : (exists r, List.find (entryKeyIs key) l = Some r /\ r ∈ l /\ e_idempotencyKey r = key) \/
  List.find (entryKeyIs key) l = None /\ ~ has key l.
Proof.
  destruct (List.find (entryKeyIs key) l) as [r|] eqn:E.
  - left. exists r. apply find_some in E as [Hr Hk]. unfold entryKeyIs in Hk. breflect. split_and!; [done|by apply list_elem_of_In|done].
  - right. split; [done|]. intros (r & Hr & Hk). pose proof (find_none _ _ E r (proj1 (list_elem_of_In _ _) Hr)) as H. unfold entryKeyIs in H. breflect. done.
Qed.

Lemma dispute_rows l id : (forall r, r ∈ l -> entry_ok l r) ->
  disputeNet id l = sum_where (entryKeyIs (holdKey id)) e_amountMicros l + sum_where (entryKeyIs (releaseKey id)) e_amountMicros l.
Proof.
  intros Hall. apply sum_where_split. intros r Hr. destruct (Hall r Hr) as (H1 & H2 & H3). unfold entryKeyIs. split.
  - destruct (ofDispute id r) eqn:E.
    + destruct (H3 id E) as [-> | ->]; rewrite String.eqb_refl; [done|]. by rewrite orb_true_r.
    + symmetry. apply orb_false_iff. split; apply String.eqb_neq; intros Hk; [destruct (H1 id Hk)|destruct (H2 id Hk)]; congruence.
  - destruct (String.eqb_spec (e_idempotencyKey r) (holdKey id)) as [->|]; [|done]. by apply String.eqb_neq.
Qed.

(** (C33) A dispute never pays out.  However the deliveries of a dispute's
    events interleave, repeat, overtake each other or fail, with anything else
    writing to the ledger, the entries of the dispute are all on the account it
    was charged to, and amount to nothing or to the held amount; once a release
    is in the ledger they amount to nothing. *)
Theorem dispute_never_pays s id : rtc (pool activity) (emptyBilling, []) s ->
  let l := ledger s.1 in
  (disputeNet id l = 0 \/ disputeNet id l = - centsToMicros (amountIn id)) /\ (has (releaseKey id) l -> disputeNet id l = 0) /\
  forall r, r ∈ l -> ofDispute id r = true -> e_accountId r = payer id.
Proof.
  intros H l. assert (Hok : ledger_ok s.1).
  { apply (Activity.pool_invariant ledger_ok grows activity (emptyBilling, []) s); [intros; by apply safe_activity|done| |constructor].
    split; [constructor|]. intros r Hr. by apply elem_of_nil in Hr. }
  destruct Hok as [Hnd Hall]. fold l in Hnd, Hall. rewrite (dispute_rows l id Hall).
  assert (Hsum : forall key, sum_where (entryKeyIs key) e_amountMicros l = from_option e_amountMicros 0 (List.find (entryKeyIs key) l)).
  { intros key. apply (sum_where_key e_idempotencyKey); [|done]. unfold entryKeyIs. intros r r' ? ?. breflect. congruence. }
  rewrite !Hsum. split.
  - destruct (find_has (holdKey id) l) as [(h & -> & Hh & Hhk)|[-> Hnh]], (find_has (releaseKey id) l) as [(r & -> & Hr & Hrk)|[-> Hnr]]; cbn.
    + left. destruct (proj1 (Hall h Hh) id Hhk) as (_ & _ & ->), (proj1 (proj2 (Hall r Hr)) id Hrk) as (_ & _ & -> & _). lia.
    + right. destruct (proj1 (Hall h Hh) id Hhk) as (_ & _ & ->). lia.
    + destruct (proj1 (proj2 (Hall r Hr)) id Hrk) as (_ & _ & _ & ?). done.
    + by left.
  - split.
    + intros Hrel. destruct (find_has (releaseKey id) l) as [(r & -> & Hr & Hrk)|[-> Hnr]]; [|done].
      cbn. destruct (proj1 (proj2 (Hall r Hr)) id Hrk) as (_ & _ & -> & Hh).
      destruct (find_has (holdKey id) l) as [(h & -> & Hh' & Hhk)|[-> Hnh]]; [|done]. cbn. destruct (proj1 (Hall h Hh') id Hhk) as (_ & _ & ->). lia.
    + intros r Hr Hs. destruct (Hall r Hr) as (H1 & H2 & H3). destruct (H3 id Hs) as [Hk|Hk]; [apply (H1 id Hk)|apply (H2 id Hk)].
Qed.
End disputes.

(** ** From the checkout to the credit *)

Section checkout.
Context (retrieveIntent : string -> option Metadata) (retrieveCharge : string -> option (option string * Metadata)).
Context (safeInteger : string -> option Z).
Definition MAX_SAFE_INTEGER : Z := 2 ^ 53 - 1.
(** [Number(String(n))] *)
Hypothesis safeInteger_pretty : forall n, 0 < n <= MAX_SAFE_INTEGER -> safeInteger (pretty n) = Some n.

Lemma credit_of_checkout a cents micros uuid label : a <> ""%string -> 0 < micros <= MAX_SAFE_INTEGER ->
  creditMetadata safeInteger (Some (checkoutMetadata a cents micros (checkoutKey a micros uuid))) label =
    Ok {| cr_accountId := a; cr_amountMicros := micros; cr_idempotencyKey := checkoutKey a micros uuid;
          cr_amountUsd := truthyId (Some (usdText cents)); cr_packageId := None |}.
Proof.
  intros Ha Hn. unfold creditMetadata, accountOf. cbn [mbind option_bind].
  set (m := checkoutMetadata a cents micros (checkoutKey a micros uuid)).
  assert (m !! "opengeni_account_id"%string = Some a) as -> by reflexivity.
  assert (m !! "opengeni_credit_micros"%string = Some (pretty micros)) as -> by reflexivity.
  assert (m !! "opengeni_credit_idempotency_key"%string = Some (checkoutKey a micros uuid)) as -> by reflexivity.
  assert (m !! "opengeni_credit_amount_usd"%string = Some (usdText cents)) as -> by reflexivity.
  assert (m !! "opengeni_package_id"%string = None) as -> by reflexivity.
  cbn [mbind option_bind truthyId]. rewrite safeInteger_pretty by done. destruct a; [done|]. cbn [truthyId].
  destruct (micros <=? 0) eqn:E; [lia|]. done.
Qed.

Definition checkoutSession (id : string) (customer email intent : option string) (metadata : Metadata) : CheckoutSession := {|
  cs_id := id; cs_mode := "payment"; cs_paymentStatus := "paid"; cs_metadata := Some metadata; cs_customer := customer;
  cs_customerDetailsEmail := email; cs_customerEmail := None; cs_paymentIntent := intent |}.

(** What a completed checkout does to the ledger. *)
Lemma handle_checkout now e id customer email intent a cents micros uuid d : a <> ""%string -> 0 < micros <= MAX_SAFE_INTEGER ->
  ev_data e = CheckoutSessionCompleted (checkoutSession id customer email intent (checkoutMetadata a cents micros (checkoutKey a micros uuid))) ->
  (forall row, c_accountId row = a -> existsb (customerTaken row) (customers d) = false) ->
  exists d' row, exec now (handleStripeWebhookEvent retrieveIntent retrieveCharge safeInteger e) d = (Ok tt, [{| cm_kind := "topup"; cm_amount := micros |}], d') /\
    ledger d' = ledger (insertEntry row d) /\ webhooks d' = webhooks d /\
    e_accountId row = a /\ e_amountMicros row = micros /\ e_idempotencyKey row = checkoutKey a micros uuid.
Proof.
  intros Ha Hn He Hfree. unfold handleStripeWebhookEvent. rewrite He. unfold handleCheckoutSessionCompleted. cbn [cs_mode cs_paymentStatus cs_metadata checkoutSession negb orb String.eqb].
  cbn. rewrite (credit_of_checkout a cents micros uuid _ Ha Hn). cbn [cr_accountId cr_amountMicros cr_idempotencyKey].
  unfold recordCreditMicrosMetric. destruct (micros <=? 0) eqn:E; [lia|].
  destruct (truthyId customer) as [c|].
  - unfold upsertCustomer, call, upsertBillingCustomer. cbn. rewrite Hfree by done. cbn. eexists _, _. split_and!; try done.
  - cbn. eexists _, _. split_and!; try done.
Qed.

Lemma balance_insert b row d : existsb (entryKeyIs (e_idempotencyKey row)) (ledger d) = false ->
  getBillingBalance b (insertEntry row d) = getBillingBalance b d + (if ofAccount b row then e_amountMicros row else 0).
Proof.
  intros H. unfold getBillingBalance. change (ledger (insertEntry row d)) with (insert_nothing (entryKeyIs (e_idempotencyKey row)) row (ledger d)).
  unfold insert_nothing. by rewrite H, sum_where_app, sum_where_one.
Qed.

(** The same checkout again. *)
Lemma handle_again now e id customer email intent a cents micros uuid d : a <> ""%string -> 0 < micros <= MAX_SAFE_INTEGER ->
  ev_data e = CheckoutSessionCompleted (checkoutSession id customer email intent (checkoutMetadata a cents micros (checkoutKey a micros uuid))) ->
  existsb (entryKeyIs (checkoutKey a micros uuid)) (ledger d) = true ->
  ledger (exec now (handleStripeWebhookEvent retrieveIntent retrieveCharge safeInteger e) d).2 = ledger d.
Proof.
  intros Ha Hn He Hk. unfold handleStripeWebhookEvent. rewrite He. unfold handleCheckoutSessionCompleted. cbn.
  rewrite (credit_of_checkout a cents micros uuid _ Ha Hn). cbn [cr_accountId cr_amountMicros cr_idempotencyKey].
  unfold recordCreditMicrosMetric. destruct (micros <=? 0) eqn:E; [lia|]. destruct (truthyId customer) as [c|].
  - unfold upsertCustomer, call, upsertBillingCustomer. cbn. destruct (existsb (customerTaken _) _); [done|]. cbn. by apply insert_nothing_known.
  - cbn. by apply insert_nothing_known.
Qed.

Definition recorded (e : Event) (d : BillingDb) : BillingDb := (recordStripeWebhookEvent (ev_id e) (ev_type e) (ev_livemode e) d).2.

Lemma receive_start {B} now e d (k : bool -> Handler B) :
  exec now (bind (call (fun _ d => Ok (recordStripeWebhookEvent (ev_id e) (ev_type e) (ev_livemode e) d))) k) d =
  exec now (k (negb (existsb (webhookIs (ev_id e)) (webhooks d)))) (recorded e d).
Proof. done. Qed.

Lemma recorded_again e d : existsb (webhookIs (ev_id e)) (webhooks d) = true -> recorded e d = d.
Proof. unfold recorded. destruct d as [l u c w]. cbn. intros H. by rewrite insert_nothing_known. Qed.

(** A delivery of an event that is not processed runs its handler and marks it. *)
Lemma receive_runs now e d out d' : isStripeWebhookProcessed (ev_id e) d = false ->
  exec now (handleStripeWebhookEvent retrieveIntent retrieveCharge safeInteger e) (recorded e d) = (Ok tt, out, d') ->
  exec now (receive retrieveIntent retrieveCharge safeInteger e) d = (Ok false, out, markStripeWebhookProcessed now (ev_id e) d').
Proof.
  intros Hp Hh. unfold receive. rewrite receive_start.
  assert (Hk : forall k : bool -> Handler bool, exec now (bind (if negb (existsb (webhookIs (ev_id e)) (webhooks d))
      then Ret false else read (isStripeWebhookProcessed (ev_id e))) k) (recorded e d) = exec now (k false) (recorded e d)).
  { intros k. destruct (existsb _ _) eqn:E; [|done]. cbn [negb]. rewrite exec_read, recorded_again by done. by rewrite Hp. }
  rewrite Hk, exec_bind, Hh. cbn. by rewrite app_nil_r.
Qed.

(** And later deliveries are duplicates. *)
Lemma receive_duplicate now e d : isStripeWebhookProcessed (ev_id e) d = true ->
  exec now (receive retrieveIntent retrieveCharge safeInteger e) d = (Ok true, [], d).
Proof.
  intros Hp. assert (E : existsb (webhookIs (ev_id e)) (webhooks d) = true).
  { apply existsb_exists. unfold isStripeWebhookProcessed in Hp. destruct (List.find _ _) as [r|] eqn:Ef; [|done]. apply find_some in Ef. by exists r. }
  unfold receive. rewrite receive_start, recorded_again, E by done. cbn [negb]. by rewrite exec_read, Hp.
Qed.

Lemma marked_processed now id d : existsb (webhookIs id) (webhooks d) = true -> isStripeWebhookProcessed id (markStripeWebhookProcessed now id d) = true.
Proof.
  unfold isStripeWebhookProcessed, markStripeWebhookProcessed. cbn. intros (r & Hr & Hi)%existsb_exists.
  rewrite find_update_where by done. destruct (List.find (webhookIs id) (webhooks d)) as [r'|] eqn:E.
  - apply find_some in E as [_ E]. cbn. by rewrite E.
  - by rewrite (find_none _ _ E r Hr) in Hi.
Qed.

(** What a checkout puts into the metadata of its session is what the
    completed session pays: the first delivery credits exactly the amount to
    exactly the account, whatever else is in the ledger, a second delivery is a
    duplicate that changes nothing, and so does another event for the session. *)
Theorem checkout_credited now e id customer email intent a cents micros uuid d : a <> ""%string -> 0 < micros <= MAX_SAFE_INTEGER ->
  ev_data e = CheckoutSessionCompleted (checkoutSession id customer email intent (checkoutMetadata a cents micros (checkoutKey a micros uuid))) ->
  (forall row, c_accountId row = a -> existsb (customerTaken row) (customers d) = false) ->
  isStripeWebhookProcessed (ev_id e) d = false -> existsb (entryKeyIs (checkoutKey a micros uuid)) (ledger d) = false ->
  exists d', exec now (receive retrieveIntent retrieveCharge safeInteger e) d = (Ok false, [{| cm_kind := "topup"; cm_amount := micros |}], d') /\
    (forall b, getBillingBalance b d' = getBillingBalance b d + (if String.eqb a b then micros else 0)) /\
    (forall now', exec now' (receive retrieveIntent retrieveCharge safeInteger e) d' = (Ok true, [], d')) /\
    (forall now' e', ev_data e' = ev_data e -> ledger (exec now' (handleStripeWebhookEvent retrieveIntent retrieveCharge safeInteger e') d').2 = ledger d').
Proof.
  intros Ha Hn He Hfree Hp Hnew. destruct (handle_checkout now e id customer email intent a cents micros uuid (recorded e d) Ha Hn He Hfree)
    as (d2 & row & Hex & Hl & Hw & Hra & Hrn & Hrk).
  exists (markStripeWebhookProcessed now (ev_id e) d2). split_and!.
  - by apply receive_runs.
  - intros b. transitivity (getBillingBalance b (insertEntry row d)).
    { unfold getBillingBalance. cbn [markStripeWebhookProcessed ledger setWith]. cbn. by rewrite Hl. }
    rewrite balance_insert by by rewrite Hrk. unfold ofAccount. by rewrite Hra, Hrn.
  - intros now'. apply receive_duplicate, marked_processed. rewrite Hw. cbn. apply insert_nothing_has. cbn. apply String.eqb_refl.
  - intros now' e' He'. rewrite He in He'. eapply handle_again; [exact Ha|exact Hn|exact He'|].
    cbn. rewrite Hl. cbn. rewrite Hrk. apply insert_nothing_has. rewrite <- Hrk. apply String.eqb_refl.
Qed.
End checkout.

(** ** Examples *)

Definition acmeMetadata : Metadata := {["opengeni_account_id" := "acme"]}%string.
Definition exampleIntent (_ : string) : option Metadata := Some acmeMetadata.
Definition exampleCharge (_ : string) : option (option string * Metadata) := Some (Some "pi"%string, ∅).
Definition exampleNumber (s : string) : option Z := if String.eqb s "25000000" then Some 25000000 else None.
Definition exampleDispute (status : string) : Dispute := {|
  dp_id := "dp_1"; dp_status := status; dp_amount := 1500; dp_metadata := None; dp_paymentIntent := None; dp_charge := Some "ch_1"%string |}.
Definition exampleEvent (id : string) (data : EventData) : Event := {| ev_id := id; ev_livemode := true; ev_data := data |}.
Definition heldEvent : Event := exampleEvent "evt_1" (DisputeHeld "charge.dispute.created" (exampleDispute "needs_response")).
Definition wonEvent : Event := exampleEvent "evt_2" (DisputeClosed (exampleDispute "won")).
Definition deliver (now : Z) (e : Event) (d : BillingDb) : BillingDb := (exec now (receive exampleIntent exampleCharge exampleNumber e) d).2.
Definition refundEvent (metadata : option Metadata) : Event := exampleEvent "evt_3" (RefundEvent "refund.created" {|
  rf_id := "re_1"; rf_status := Some "succeeded"%string; rf_amount := 500; rf_metadata := metadata; rf_paymentIntent := Some "pi"%string |}).

Lemma exampleDispute_ok status : dispute_ok exampleIntent exampleCharge (fun _ => "acme"%string) (fun _ => 1500) (exampleDispute status).
Proof.
  split; [done|]. intros d. unfold metadataForDispute. rewrite bool_decide_true by done. cbn. intros a [= <-]. done.
Qed.

Lemma dispute_never_pays_witness :
  let d := deliver 2 wonEvent (deliver 1 heldEvent emptyBilling) in
  List.map e_amountMicros (ledger d) = [-15000000; 15000000] /\ disputeNet "dp_1" (ledger d) = 0.
Proof.
  intros d. assert (Hl : List.map e_amountMicros (ledger d) = [-15000000; 15000000]) by (vm_compute; reflexivity). split; [exact Hl|].
  assert (Hrun : rtc (pool (activity exampleIntent exampleCharge exampleNumber (fun _ => "acme"%string) (fun _ => 1500))) (emptyBilling, []) (d, [])).
  { unfold d, deliver. etransitivity; apply pool_alone; constructor; apply exampleDispute_ok. }
  destruct (dispute_never_pays exampleIntent exampleCharge exampleNumber (fun _ => "acme"%string) (fun _ => 1500) (d, []) "dp_1" Hrun) as (_ & H & _).
  apply H, (hasEntry_has "acme"). vm_compute. reflexivity.
Defined.

Definition paidEvent (id : string) : Event := exampleEvent id (CheckoutSessionCompleted
  (checkoutSession "cs_1" (Some "cus_1"%string) (Some "a@b"%string) None (checkoutMetadata "acme" 2500 25000000 (checkoutKey "acme" 25000000 "u")))).

(** Decimal numerals. *)
Fixpoint decimal (acc : N) (s : string) : option N :=
  match s with
  | EmptyString => Some acc
  | String c s => let n := Ascii.N_of_ascii c in if ((48 <=? n) && (n <=? 57))%N then decimal (10 * acc + (n - 48))%N s else None
  end.

Lemma decimal_go x : forall s, decimal 0 (pretty_N_go x s) = decimal x s.
Proof.
  induction (N.lt_wf_0 x) as [x _ IH]. intros s. destruct (decide (x = 0%N)) as [->|Hx]; [by rewrite pretty_N_go_0|].
  rewrite pretty_N_go_step by lia. rewrite IH by (apply N.div_lt; lia). cbn [decimal].
  assert (Hc : Ascii.N_of_ascii (pretty_N_char (x mod 10)) = (48 + x mod 10)%N).
  { pose proof (N.mod_lt x 10 ltac:(done)) as Hlt. destruct (x mod 10)%N as [|p]; [done|]. do 4 (destruct p as [p|p|]; try done; try lia). }
  rewrite Hc. assert (Hm : (x mod 10 < 10)%N) by by apply N.mod_lt. assert (Hd : (x = 10 * (x / 10) + x mod 10)%N) by by apply N.div_mod.
  revert Hm Hd. generalize (x mod 10)%N (x / 10)%N. intros r q Hm Hd.
  destruct (((48 <=? 48 + r) && (48 + r <=? 57))%N) eqn:E; [|apply andb_false_iff in E as [E|E]; apply N.leb_gt in E; lia].
  f_equal. lia.
Qed.

Definition decimalNumber (s : string) : option Z := Z.of_N <$> decimal 0 s.
Lemma decimal_pretty n : 0 < n <= MAX_SAFE_INTEGER -> decimalNumber (pretty n) = Some n.
Proof.
  intros [Hn _]. destruct n as [|p|p]; [lia| |lia]. unfold decimalNumber.
  change (pretty (Z.pos p)) with (pretty_N_go (N.pos p) ""). by rewrite decimal_go.
Qed.

Lemma checkout_credited_witness :
  exists d', exec 1 (receive exampleIntent exampleCharge decimalNumber (paidEvent "evt_1")) emptyBilling =
      (Ok false, [{| cm_kind := "topup"; cm_amount := 25000000 |}], d') /\ getBillingBalance "acme" d' = 25000000.
Proof.
  destruct (checkout_credited exampleIntent exampleCharge decimalNumber decimal_pretty 1 (paidEvent "evt_1") "cs_1" (Some "cus_1"%string) (Some "a@b"%string) None
    "acme" 2500 25000000 "u" emptyBilling) as (d' & He & Hb & _); try reflexivity.
  - discriminate.
  - vm_compute. split; [reflexivity|discriminate].
  - exists d'. split; [exact He|]. rewrite Hb. reflexivity.
Defined.

(** Stripe does not order its events: a dispute that is won before its hold
    arrives keeps the credits held for good, for a second delivery of the win is
    a duplicate. *)
Example late_hold_stranded :
  let d := deliver 3 wonEvent (deliver 2 heldEvent (deliver 1 wonEvent emptyBilling)) in getBillingBalance "acme" d = -15000000.
Proof. vm_compute. reflexivity. Qed.

(** Any metadata of its own hides the payment intent's from a refund: a refund
    that was annotated is not debited. *)
Example annotated_refund_ignored :
  getBillingBalance "acme" (deliver 1 (refundEvent None) emptyBilling) = -5000000 /\
  getBillingBalance "acme" (deliver 1 (refundEvent (Some {["reason" := "goodwill"]}%string)) emptyBilling) = 0.
Proof. vm_compute. done. Qed.
End Stripe.
