(* ===== verification/Limits.v ===== *)
(** * Admission and model usage ([packages/core/src/billing/limits.ts],
      [packages/config/src/index.ts], [apps/worker/src/activities/agent-turn.ts])

    The API admits an action against the balance and the caps, the worker checks
    a run again before and between model calls, and every model response is
    metered and debited under a key of its turn and source. *)
From stdpp Require Import pretty.
From S2P Require Import Prelude Json Sql Activity Billing.
#[local] Open Scope Z_scope.
#[local] Open Scope opengeni_scope.

Module Limits.
Import Activity Billing.

Inductive LimitAction := agent_run_create | tokens_consume | file_upload | document_index | schedule_create | workspace_create | api_key_create.
#[export] Instance LimitAction_eq_dec : EqDecision LimitAction.
Proof. solve_decision. Defined.
Inductive UsageLimitsMode := limits_none | limits_static | limits_managed.
#[export] Instance UsageLimitsMode_eq_dec : EqDecision UsageLimitsMode.
Proof. solve_decision. Defined.

(** Positive caps; an absent one does not limit. *)
Record StaticUsageLimits := {
  maxWorkspacesPerAccount : option Z; maxApiKeysPerWorkspace : option Z; maxSchedulesPerWorkspace : option Z; maxFileUploadBytes : option Z;
  maxMonthlyAgentRunsPerWorkspace : option Z; maxMonthlyTokensPerWorkspace : option Z; maxMonthlyCostMicrosPerAccount : option Z;
  maxDocumentIndexedChunksPerWorkspace : option Z
}.
Record ModelPricing := {
  inputMicrosPerMillionTokens : Z; cachedInputMicrosPerMillionTokens : option Z; outputMicrosPerMillionTokens : Z; marginBps : option Z
}.
Record Settings := { stripeBilling : bool; usageLimitsMode : UsageLimitsMode; limits : StaticUsageLimits; pricing : string -> option ModelPricing }.
(** The counts of the other tables, and the start of the UTC month of the clock. *)
Record Outside := {
  workspacesOf : string -> Z; activeApiKeysOf : string -> Z; scheduledTasksOf : string -> Z; monthStart : Z
}.

Inductive LimitDecision := Allowed | Blocked (code message : string).

Definition usesCreditLimits (s : Settings) : bool := stripeBilling s || bool_decide (usageLimitsMode s = limits_managed).
Definition enforcesCaps (s : Settings) : bool := bool_decide (usageLimitsMode s <> limits_none).
Definition isCostlyAction (a : LimitAction) : bool := match a with agent_run_create | tokens_consume | document_index => true | _ => false end.

Record LimitCheckInput := { lc_accountId : string; lc_workspaceId : option string; lc_action : LimitAction; lc_quantity : option Z }.

Definition monthly (eventType workspaceId : string) (o : Outside) (d : BillingDb) : Z :=
  sum_where (inQuery {| uq_accountId := None; uq_workspaceId := Some workspaceId; uq_eventType := eventType; uq_since := Some (monthStart o) |}) u_quantity (usage d).
Definition monthlyCost (accountId : string) (o : Outside) (d : BillingDb) : Z :=
  sum_where (inQuery {| uq_accountId := Some accountId; uq_workspaceId := None; uq_eventType := "model.cost"; uq_since := Some (monthStart o) |}) u_quantity (usage d).

Definition checkCreditBalance (s : Settings) (i : LimitCheckInput) (codexBilled : bool) (d : BillingDb) : LimitDecision :=
  if codexBilled then Allowed
  else if negb (usesCreditLimits s) || negb (isCostlyAction (lc_action i)) then Allowed
  else if 0 <? getBillingBalance (lc_accountId i) d then Allowed
  else Blocked "insufficient_credits" "insufficient OpenGeni credits".

(** [text] is the message before the number in parentheses. *)
Definition reached (code text : string) (limit : Z) (suffix : string) : LimitDecision :=
  Blocked code (String.append text (String.append " (" (String.append (pretty limit) (String.append suffix ")")))).
Definition capped (limit : option Z) (workspaceId : option string) (refused : string -> Z -> bool) (code text suffix : string) : LimitDecision :=
  match limit, truthyId workspaceId with
  | Some limit, Some ws => if refused ws limit then reached code text limit suffix else Allowed
  | _, _ => Allowed
  end.
Definition checkStaticCaps (s : Settings) (o : Outside) (i : LimitCheckInput) (codexBilled : bool) (d : BillingDb) : LimitDecision :=
  let limits := limits s in
  let requested := default 0 (lc_quantity i) in
  let over eventType ws limit := limit <? monthly eventType ws o d + requested in
  let byAction := match lc_action i with
   | workspace_create =>
       match maxWorkspacesPerAccount limits with
       | Some limit => if workspacesOf o (lc_accountId i) <? limit then Allowed else reached "max_workspaces_per_account" "workspace limit reached" limit ""
       | None => Allowed
       end
   | api_key_create =>
       capped (maxApiKeysPerWorkspace limits) (lc_workspaceId i) (fun ws limit => limit <=? activeApiKeysOf o ws)
         "max_api_keys_per_workspace" "API key limit reached" ""
   | schedule_create =>
       capped (maxSchedulesPerWorkspace limits) (lc_workspaceId i) (fun ws limit => limit <=? scheduledTasksOf o ws)
         "max_schedules_per_workspace" "scheduled task limit reached" ""
   | file_upload =>
       match maxFileUploadBytes limits, lc_quantity i with
       | Some limit, Some quantity =>
           if (quantity =? 0) || (quantity <=? limit) then Allowed
           else Blocked "max_file_upload_bytes" (String.append "file upload exceeds static limit of " (String.append (pretty limit) " bytes"))
       | _, _ => Allowed
       end
   | agent_run_create =>
       capped (maxMonthlyAgentRunsPerWorkspace limits) (lc_workspaceId i) (over "agent_run.created"%string)
         "max_monthly_agent_runs_per_workspace" "monthly agent run limit reached" ""
   | tokens_consume =>
       if codexBilled then Allowed
       else capped (maxMonthlyTokensPerWorkspace limits) (lc_workspaceId i) (over "model.tokens"%string)
              "max_monthly_tokens_per_workspace" "monthly token limit reached" ""
   | document_index =>
       capped (maxDocumentIndexedChunksPerWorkspace limits) (lc_workspaceId i) (over "document.indexed"%string)
         "max_document_indexed_chunks_per_workspace" "monthly document indexing limit reached" " chunks"
   end in
  match maxMonthlyCostMicrosPerAccount limits with
  | Some limit =>
      if isCostlyAction (lc_action i) && negb codexBilled && (limit <=? monthlyCost (lc_accountId i) o d)
      then reached "max_monthly_cost_micros_per_account" "monthly model cost limit reached" limit " micros"
      else byAction
  | None => byAction
  end.
(** [codexBilled] is [isCodexBilledTurn] for a workspace, false without one. *)
Definition checkLimit (s : Settings) (o : Outside) (i : LimitCheckInput) (codexBilled : bool) (d : BillingDb) : LimitDecision :=
  match checkCreditBalance s i codexBilled d with
  | Allowed => if enforcesCaps s then checkStaticCaps s o i codexBilled d else Allowed
  | refusal => refusal
  end.
(** The HTTP status of a refusal. *)
Definition requireLimit (s : Settings) (o : Outside) (i : LimitCheckInput) (codexBilled : bool) (d : BillingDb) : result (Z * string) unit :=
  match checkLimit s o i codexBilled d with
  | Allowed => Ok tt
  | Blocked code message => Err (if String.eqb code "insufficient_credits" then 402 else 429, message)
  end.

(** ** The worker's check

    [admitRun] is the decision of a bound entitlements port: [Some reason] refuses. *)
Definition ensureRunAllowed (s : Settings) (o : Outside) (accountId workspaceId : string) (isCodexTurn : bool) (admitRun : option (option string))
  (d : BillingDb) : result BillingError unit :=
  let funded :=
    if isCodexTurn || negb (usesCreditLimits s) then Ok tt
    else match admitRun with
         | Some (Some reason) => Err (NotAdmitted (match reason with EmptyString => "insufficient OpenGeni credits" | _ => reason end))
         | Some None => Ok tt
         | None => if getBillingBalance accountId d <=? 0 then Err InsufficientCredits else Ok tt
         end in
  match funded with
  | Err e => Err e
  | Ok _ =>
      if negb (enforcesCaps s) then Ok tt
      else if match maxMonthlyAgentRunsPerWorkspace (limits s) with Some limit => limit <? monthly "agent_run.created" workspaceId o d | None => false end
      then Err (LimitReached "max_monthly_agent_runs_per_workspace")
      else if negb isCodexTurn && match maxMonthlyTokensPerWorkspace (limits s) with Some limit => limit <=? monthly "model.tokens" workspaceId o d | None => false end
      then Err (LimitReached "max_monthly_tokens_per_workspace")
      else Ok tt
  end.

(** ** The price of a model response *)

Definition positiveInt (v : option Z) : Z := match v with Some n => Z.max 0 n | None => 0 end.
(** [Math.ceil(a / b)]: the products are far below the precision of a double. *)
Definition ceilDiv (a b : Z) : Z := - (- a / b).
(** The spellings [cached_tokens], [cachedInputTokens] and [cached_input_tokens]. *)
Record TokensDetail := { cached_tokens : option Z; cachedInputTokens : option Z; cached_input_tokens : option Z }.
Record UsageEntry := { inputTokens : option Z; outputTokens : option Z; totalTokens : option Z; inputTokensDetails : list TokensDetail }.
Record ModelUsageInput := { mu_self : UsageEntry; requestUsageEntries : list UsageEntry }.

Definition cachedTokens (e : UsageEntry) : Z :=
  fold_right (fun t n => positiveInt (cached_tokens t) + positiveInt (cachedInputTokens t) + positiveInt (cached_input_tokens t) + n) 0 (inputTokensDetails e).
Definition calculateEntryCostMicros (p : ModelPricing) (e : UsageEntry) : Z :=
  let input := positiveInt (inputTokens e) in
  let cached := Z.min input (cachedTokens e) in
  let uncached := Z.max 0 (input - cached) in
  let cachedInputRate := default (inputMicrosPerMillionTokens p) (cachedInputMicrosPerMillionTokens p) in
  ceilDiv (uncached * inputMicrosPerMillionTokens p) 1000000 + ceilDiv (cached * cachedInputRate) 1000000
  + ceilDiv (positiveInt (outputTokens e) * outputMicrosPerMillionTokens p) 1000000.
Definition entriesOf (u : ModelUsageInput) : list UsageEntry := match requestUsageEntries u with [] => [mu_self u] | entries => entries end.
Definition calculateModelUsageCostMicros (s : Settings) (model : string) (u : ModelUsageInput) : result BillingError Z :=
  match pricing s model with
  | None => Err (MissingModelPricing model)
  | Some p =>
      let rawCost := fold_left (fun sum e => sum + calculateEntryCostMicros p e) (entriesOf u) 0 in
      Ok (ceilDiv (rawCost * (10000 + default 0 (marginBps p))) 10000)
  end.

Record ModelCall := {
  mc_accountId : string; mc_workspaceId : string; mc_sessionId : string; mc_turnId : string; mc_model : string; mc_isCodexTurn : bool;
  mc_usage : option ModelUsageInput; mc_sourceKey : string; mc_cachedTelemetry : Z
}.
Definition sourceOf (c : ModelCall) : string := String.append (mc_turnId c) (String.append ":" (mc_sourceKey c)).
Definition recordModelUsage (c : ModelCall) (eventType unit : string) (quantity : Z) : Handler UsageRow :=
  call (fun now d => Ok (recordUsageEvent now {|
    ui_accountId := mc_accountId c; ui_workspaceId := mc_workspaceId c; ui_subjectId := None; ui_eventType := eventType; ui_quantity := quantity;
    ui_unit := unit; ui_sourceResourceType := Some "model_response"%string; ui_sourceResourceId := Some (sourceOf c);
    ui_idempotencyKey := String.append "usage:" (String.append eventType (String.append ":" (sourceOf c))); ui_occurredAt := None |} d)).
Definition debitKey (c : ModelCall) : string := String.append "credit:model_usage_debit:" (sourceOf c).
Definition modelDebit (c : ModelCall) (costMicros input output total : Z) : EntryInput := {|
  ei_accountId := mc_accountId c; ei_workspaceId := Some (mc_workspaceId c); ei_type := "model_usage_debit"; ei_amountMicros := costMicros;
  ei_sourceType := Some "model_response"%string; ei_sourceId := Some (sourceOf c); ei_idempotencyKey := debitKey c;
  ei_metadata := [(js "model", JStr (js (mc_model c))); (js "sessionId", JStr (js (mc_sessionId c))); (js "turnId", JStr (js (mc_turnId c)));
                  (js "sourceKey", JStr (js (mc_sourceKey c))); (js "inputTokens", JNum input); (js "outputTokens", JNum output);
                  (js "totalTokens", JNum total); (js "cachedTokens", JNum (mc_cachedTelemetry c))];
  ei_occurredAt := None |}.
Definition recordModelUsageAndDebitCredits (s : Settings) (c : ModelCall) : Handler unit :=
  match mc_usage c with
  | None => Ret tt
  | Some u =>
      let input := positiveInt (inputTokens (mu_self u)) in
      let output := positiveInt (outputTokens (mu_self u)) in
      let reported := positiveInt (totalTokens (mu_self u)) in
      let total := if reported =? 0 then input + output else reported in
      if mc_isCodexTurn c then recordModelUsage c "model.cost" "usd_micros" 0 ;; Ret tt
      else
        (if 0 <? total then recordModelUsage c "model.tokens" "tokens" total ;; Ret tt else Ret tt) ;;
        if negb (usesCreditLimits s) || (total =? 0) then Ret tt
        else
          match calculateModelUsageCostMicros s (mc_model c) u with
          | Err e => Throw e
          | Ok costMicros =>
              recordModelUsage c "model.cost" "usd_micros" costMicros ;;
              if 0 <? costMicros then
                let* debit := call (fun now d => let '(balance, debited, d) := applyCreditDebitUpToBalance now (modelDebit c costMicros input output total) d in
                                                 Ok ((balance, debited), d)) in
                recordCreditMicrosMetric "usage" debit.2
              else Ret tt
          end
  end.

(** ** Prices *)

Lemma ceilDiv_bounds a b : 0 < b -> a <= b * ceilDiv a b < a + b.
Proof. intros Hb. unfold ceilDiv. pose proof (Z.div_mod (- a) b ltac:(lia)). pose proof (Z.mod_pos_bound (- a) b Hb). lia. Qed.

(** Millionths of a micro, the cache discount included. *)
Definition exactCost (p : ModelPricing) (e : UsageEntry) : Z :=
  let input := positiveInt (inputTokens e) in
  let cached := Z.min input (cachedTokens e) in
  (input - cached) * inputMicrosPerMillionTokens p + cached * default (inputMicrosPerMillionTokens p) (cachedInputMicrosPerMillionTokens p)
  + positiveInt (outputTokens e) * outputMicrosPerMillionTokens p.
Definition exactCosts (p : ModelPricing) (l : list UsageEntry) : Z := fold_right (fun e n => exactCost p e + n) 0 l.

Lemma entry_cost_bounds p e : exactCost p e <= 1000000 * calculateEntryCostMicros p e <= exactCost p e + 3 * 999999.
Proof.
  unfold calculateEntryCostMicros, exactCost. set (input := positiveInt (inputTokens e)). set (cached := Z.min input (cachedTokens e)).
  rewrite Z.max_r by (subst cached; lia). set (rate := default _ (cachedInputMicrosPerMillionTokens p)).
  pose proof (ceilDiv_bounds ((input - cached) * inputMicrosPerMillionTokens p) 1000000 ltac:(lia)).
  pose proof (ceilDiv_bounds (cached * rate) 1000000 ltac:(lia)).
  pose proof (ceilDiv_bounds (positiveInt (outputTokens e) * outputMicrosPerMillionTokens p) 1000000 ltac:(lia)). lia.
Qed.

Lemma entries_cost_bounds p l : forall n,
  exactCosts p l <= 1000000 * (fold_left (fun sum e => sum + calculateEntryCostMicros p e) l n - n) <= exactCosts p l + 3 * 999999 * Z.of_nat (length l).
Proof.
  induction l as [|e l IH]; intros n; cbn [fold_left exactCosts fold_right length]; [lia|]. fold (exactCosts p l).
  pose proof (entry_cost_bounds p e). specialize (IH (n + calculateEntryCostMicros p e)). lia.
Qed.

(** A model response is never priced below its tokens at the model's
    rates with the margin, and above them by less than three micros per request
    (with the margin) and one. *)
Theorem model_cost_bounds s model u p cost : pricing s model = Some p -> 0 <= default 0 (marginBps p) -> calculateModelUsageCostMicros s model u = Ok cost ->
  let exact := exactCosts p (entriesOf u) * (10000 + default 0 (marginBps p)) in
  exact <= 10000000000 * cost /\
  10000000000 * cost < exact + 3 * 999999 * Z.of_nat (length (entriesOf u)) * (10000 + default 0 (marginBps p)) + 10000000000.
Proof.
  intros Hp Hm. unfold calculateModelUsageCostMicros. rewrite Hp. intros [= <-]. cbn zeta. set (m := 10000 + default 0 (marginBps p)).
  pose proof (entries_cost_bounds p (entriesOf u) 0) as [H1 H2]. rewrite Z.sub_0_r in *. set (raw := fold_left _ _ _) in *.
  pose proof (ceilDiv_bounds (raw * m) 10000 ltac:(lia)) as [H3 H4]. assert (0 < m) by lia. nia.
Qed.

(** ** A response is charged once *)

Section charged.
(** The cost of a response, by its turn and source. *)
Context (costOf : string -> Z).

Definition chargeKey (source : string) : string := String.append "credit:model_usage_debit:" source.
Definition charge_ok (r : LedgerRow) : Prop := forall source, e_idempotencyKey r = chargeKey source -> - costOf source <= e_amountMicros r <= 0.
Definition charged_ok (d : BillingDb) : Prop :=
  NoDup (List.map e_idempotencyKey (ledger d)) /\ NoDup (List.map u_idempotencyKey (usage d)) /\ forall r, r ∈ ledger d -> charge_ok r.
Definition anyLater (d d' : BillingDb) : Prop := True.
#[export] Instance anyLater_preorder : PreOrder anyLater.
Proof. by split. Qed.

Lemma charge_insert row d : charge_ok row -> charged_ok d -> charged_ok (insertEntry row d).
Proof.
  intros Hrow (H1 & H2 & H3). split_and!; [by apply insert_keys|done|]. intros r Hr. apply insert_nothing_inv in Hr as [Hr|[-> _]]; [by apply H3|done].
Qed.
Lemma usage_insert now input d : charged_ok d -> charged_ok (recordUsageEvent now input d).2.
Proof.
  intros (H1 & H2 & H3). split_and!; [done| |done]. cbn. apply insert_nothing_keys; [|done]. intros r. apply String.eqb_eq.
Qed.

Inductive metering (s : Settings) : Handler unit -> Prop :=
| meter_response c : (forall u n, mc_usage c = Some u -> calculateModelUsageCostMicros s (mc_model c) u = Ok n -> n = costOf (sourceOf c)) ->
    metering s (recordModelUsageAndDebitCredits s c)
| write_entry row : (forall source, e_idempotencyKey row <> chargeKey source) -> metering s (call (fun _ d => Ok (tt, insertEntry row d)))
| write_usage input : metering s (call (fun now d => Ok (tt, (recordUsageEvent now input d).2))).

#[local] Abbreviation wp_tx := (Activity.wp_tx charged_ok anyLater).

Lemma wp_usage c t unit q (Q : UsageRow -> BillingDb -> Prop) d : (forall r d', Q r d') -> Activity.wp charged_ok anyLater (recordModelUsage c t unit q) Q d.
Proof.
  intros HQ. apply wp_tx. intros d1 now r d2 _ Hi. match goal with |- Ok (recordUsageEvent _ ?i _) = _ -> _ => pose proof (usage_insert now i d1 Hi) as Hu; destruct (recordUsageEvent now i d1) as [r' d'] end.
  intros [= <- <-]. by split_and!.
Qed.

Lemma debit_charge now c n input output total d : 0 < n -> n = costOf (sourceOf c) -> charged_ok d ->
  charged_ok (applyCreditDebitUpToBalance now (modelDebit c n input output total) d).2.
Proof.
  intros Hn Hc Hi. rewrite debit_steps by done. unfold insertDebit. destruct (0 <? debitAmount _ d) eqn:E; [|done].
  apply charge_insert; [|done]. intros source Hk. cbn in Hk. apply (inj (String.append "credit:model_usage_debit:")) in Hk as <-.
  cbn. breflect. unfold debitAmount in *. cbn in *. lia.
Qed.

Lemma safe_metering s m d : metering s m -> Activity.safe charged_ok anyLater m d.
Proof.
  intros [c Hc|row Hrow|input].
  - unfold recordModelUsageAndDebitCredits. destruct (mc_usage c) as [u|] eqn:Eu; [|done]. cbv zeta. set (total := if _ =? 0 then _ else _).
    destruct (mc_isCodexTurn c); [by apply wp_bind, wp_usage|]. apply wp_bind.
    apply (wp_weaken _ _ _ (fun _ _ => True)); [intros _ d1 _|destruct (0 <? total); [by apply wp_bind, wp_usage|done]].
    destruct (_ || _); [done|]. destruct (calculateModelUsageCostMicros s (mc_model c) u) as [n|e] eqn:En; [|done].
    apply wp_bind, wp_usage. intros _ d2. destruct (0 <? n) eqn:E; [|done]. breflect. apply wp_bind, wp_tx. intros d3 now r d4 _ Hi H.
    pose proof (debit_charge now c n (positiveInt (inputTokens (mu_self u))) (positiveInt (outputTokens (mu_self u))) total d3 E (Hc u n eq_refl En) Hi) as Hok.
    destruct (applyCreditDebitUpToBalance now _ d3) as [[b x] d5]. injection H as <- <-. split_and!; [exact Hok|done|].
    unfold recordCreditMicrosMetric. by destruct (_ <=? 0).
  - apply wp_tx. intros d1 now r d2 _ Hi [= _ <-]. split_and!; [|done..]. apply charge_insert; [|done]. intros source Hk. by destruct (Hrow source).
  - apply wp_tx. intros d1 now r d2 _ Hi [= _ <-]. split_and!; [|done..]. exact (usage_insert _ _ _ Hi).
Qed.

(** A model response is charged once.  However often its turn is run
    again, wherever a worker dies and whatever else is metered meanwhile, the
    ledger takes from an account at most the cost of the response, and no usage
    event is recorded twice. *)
Theorem response_charged_once s st source : rtc (pool (metering s)) (emptyBilling, []) st -> 0 <= costOf source ->
  - costOf source <= sum_where (entryKeyIs (chargeKey source)) e_amountMicros (ledger st.1) <= 0 /\
  NoDup (List.map u_idempotencyKey (usage st.1)).
Proof.
  intros H Hc. assert (Hok : charged_ok st.1).
  { apply (Activity.pool_invariant charged_ok anyLater (metering s) (emptyBilling, []) st); [intros; by eapply safe_metering|done| |constructor].
    split_and!; [constructor|constructor|]. intros r Hr. by apply elem_of_nil in Hr. }
  destruct Hok as (H1 & H2 & H3). split; [|done].
  rewrite (sum_where_key e_idempotencyKey); [| |done]; [|unfold entryKeyIs; intros r r' ? ?; breflect; congruence].
  destruct (List.find _ _) as [r|] eqn:E; [|cbn; lia]. apply find_some in E as [Hr Hk]. unfold entryKeyIs in Hk. breflect.
  apply (H3 r); [by apply list_elem_of_In|done].
Qed.
End charged.

(** ** The two admission checks *)

Definition runAdmission (accountId workspaceId : string) : LimitCheckInput := {|
  lc_accountId := accountId; lc_workspaceId := Some workspaceId; lc_action := agent_run_create; lc_quantity := Some 1 |}.
Definition runUsage (accountId workspaceId : string) (subjectId : option string) (resourceType resourceId : string) : UsageInput := {|
  ui_accountId := accountId; ui_workspaceId := workspaceId; ui_subjectId := subjectId; ui_eventType := "agent_run.created"; ui_quantity := 1;
  ui_unit := "run"; ui_sourceResourceType := Some resourceType; ui_sourceResourceId := Some resourceId;
  ui_idempotencyKey := String.append "agent_run.created:" (String.append workspaceId (String.append ":" resourceId)); ui_occurredAt := None |}.

Lemma monthly_insert t ws o p row d : monthly t ws o (d <| usage ::= insert_nothing p row |>) <=
  monthly t ws o d + (if String.eqb (u_eventType row) t then Z.max 0 (u_quantity row) else 0).
Proof.
  unfold monthly. change (usage (d <| usage ::= insert_nothing p row |>)) with (insert_nothing p row (usage d)). unfold insert_nothing. destruct (existsb _ _); [destruct (String.eqb _ _); lia|]. rewrite sum_where_app, sum_where_one.
  unfold inQuery at 2. cbn. destruct (String.eqb (u_eventType row) t); cbn; [|lia]. destruct (_ && _); lia.
Qed.

Lemma monthly_other t ws o p row d : u_eventType row <> t -> monthly t ws o (d <| usage ::= insert_nothing p row |>) = monthly t ws o d.
Proof.
  intros Hne. unfold monthly. change (usage (d <| usage ::= insert_nothing p row |>)) with (insert_nothing p row (usage d)). unfold insert_nothing. destruct (existsb _ _); [done|]. rewrite sum_where_app, sum_where_one.
  unfold inQuery at 2. cbn. apply String.eqb_neq in Hne as ->. cbn. lia.
Qed.

(** The worker does not refuse a run the API has just admitted and
    recorded, under the ledger and the same settings, except at the token cap -
    the one limit the admission of a run does not look at. *)
Theorem admitted_run_starts s o a ws codex now subject rt rid d : ws <> ""%string -> checkLimit s o (runAdmission a ws) codex d = Allowed ->
  let d' := (recordUsageEvent now (runUsage a ws subject rt rid) d).2 in
  ensureRunAllowed s o a ws codex None d' =
    if negb codex && enforcesCaps s && match maxMonthlyTokensPerWorkspace (limits s) with Some n => n <=? monthly "model.tokens" ws o d | None => false end
    then Err (LimitReached "max_monthly_tokens_per_workspace") else Ok tt.
Proof.
  intros Hws Hadm. cbv zeta. unfold checkLimit, checkCreditBalance in Hadm. unfold ensureRunAllowed.
  change (getBillingBalance a (recordUsageEvent now (runUsage a ws subject rt rid) d).2) with (getBillingBalance a d).
  assert (Hfund : (if codex || negb (usesCreditLimits s) then Ok tt else if getBillingBalance a d <=? 0 then Err InsufficientCredits else Ok tt) = Ok (E := BillingError) tt).
  { destruct codex; [done|]. cbn [orb]. cbn [lc_action runAdmission isCostlyAction negb orb lc_accountId] in Hadm. rewrite orb_false_r in Hadm.
    destruct (negb (usesCreditLimits s)); [done|]. destruct (0 <? getBillingBalance a d) eqn:E; [|done]. breflect. by rewrite (proj2 (Z.leb_gt _ _) E). }
  rewrite Hfund. destruct (enforcesCaps s) eqn:Ec; cbn [negb]; [|by rewrite andb_false_r].
  assert (Hcap : checkStaticCaps s o (runAdmission a ws) codex d = Allowed).
  { destruct codex; [done|]. destruct (_ || _); [done|]. by destruct (0 <? _). }
  assert (Hruns : match maxMonthlyAgentRunsPerWorkspace (limits s) with
                  | Some n => n <? monthly "agent_run.created" ws o (recordUsageEvent now (runUsage a ws subject rt rid) d).2 | None => false end = false).
  { destruct (maxMonthlyAgentRunsPerWorkspace (limits s)) as [n|] eqn:En; [|done]. apply Z.ltb_ge.
    unfold checkStaticCaps, capped in Hcap. cbn [lc_action runAdmission lc_workspaceId lc_quantity default] in Hcap. rewrite En in Hcap.
    assert (truthyId (Some ws) = Some ws) as Ht by by destruct ws. rewrite Ht in Hcap.
    assert (Hle : n <? monthly "agent_run.created" ws o d + 1 = false).
    { destruct (n <? _); [|done]. exfalso. destruct (maxMonthlyCostMicrosPerAccount (limits s)); [destruct (_ && _)|]; discriminate. }
    apply Z.ltb_ge in Hle. etransitivity; [apply monthly_insert|]. cbn. lia. }
  rewrite Hruns. unfold recordUsageEvent. cbn [snd]. rewrite (monthly_other "model.tokens") by done. by rewrite andb_true_r.
Qed.

(** ** Examples *)

Definition noLimits : StaticUsageLimits := {|
  maxWorkspacesPerAccount := None; maxApiKeysPerWorkspace := None; maxSchedulesPerWorkspace := None; maxFileUploadBytes := None;
  maxMonthlyAgentRunsPerWorkspace := Some 1; maxMonthlyTokensPerWorkspace := None; maxMonthlyCostMicrosPerAccount := None;
  maxDocumentIndexedChunksPerWorkspace := None |}.
(** The default pricing of gpt-5.6-terra. *)
Definition terra : ModelPricing := {|
  inputMicrosPerMillionTokens := 2500000; cachedInputMicrosPerMillionTokens := Some 250000; outputMicrosPerMillionTokens := 15000000; marginBps := Some 2500 |}.
Definition exampleSettings : Settings := {|
  stripeBilling := true; usageLimitsMode := limits_managed; limits := noLimits; pricing := fun m => if String.eqb m "gpt-5.6-terra" then Some terra else None |}.
Definition exampleUsage (details : list TokensDetail) : ModelUsageInput := {|
  mu_self := {| inputTokens := Some 1000; outputTokens := Some 100; totalTokens := None; inputTokensDetails := details |}; requestUsageEntries := [] |}.
Definition exampleCall : ModelCall := {|
  mc_accountId := "acme"; mc_workspaceId := "w"; mc_sessionId := "s"; mc_turnId := "t"; mc_model := "gpt-5.6-terra"; mc_isCodexTurn := false;
  mc_usage := Some (exampleUsage []); mc_sourceKey := "1"; mc_cachedTelemetry := 0 |}.
Definition exampleOutside : Outside := {| workspacesOf _ := 0; activeApiKeysOf _ := 0; scheduledTasksOf _ := 0; monthStart := 0 |}.
Definition funded : BillingDb := (applyCreditLedgerEntry 0 (entry "credit_topup" 9000 "k1") emptyBilling).2.

Lemma model_cost_bounds_witness : calculateModelUsageCostMicros exampleSettings "gpt-5.6-terra" (exampleUsage []) = Ok 5000 /\
  exactCosts terra (entriesOf (exampleUsage [])) * 12500 <= 10000000000 * 5000.
Proof.
  assert (H : calculateModelUsageCostMicros exampleSettings "gpt-5.6-terra" (exampleUsage []) = Ok 5000) by (vm_compute; reflexivity).
  split; [exact H|]. exact (proj1 (model_cost_bounds exampleSettings "gpt-5.6-terra" (exampleUsage []) terra 5000 eq_refl ltac:(discriminate) H)).
Defined.

(** The spellings of the cached tokens are added up: a provider that reports two
    of them is billed twice the cached tokens at the discount. *)
Example cached_spellings_added :
  calculateModelUsageCostMicros exampleSettings "gpt-5.6-terra" (exampleUsage [{| cached_tokens := Some 400; cachedInputTokens := None; cached_input_tokens := None |}]) = Ok 3875 /\
  calculateModelUsageCostMicros exampleSettings "gpt-5.6-terra" (exampleUsage [{| cached_tokens := Some 400; cachedInputTokens := Some 400; cached_input_tokens := None |}]) = Ok 2750.
Proof. vm_compute. done. Qed.

(** The turn runs twice. *)
Definition chargedTwice : BillingDb :=
  (exec 2 (recordModelUsageAndDebitCredits exampleSettings exampleCall) (exec 1 (recordModelUsageAndDebitCredits exampleSettings exampleCall)
    (exec 0 (call (fun _ d => Ok (tt, insertEntry (entryRow 0 (entry "credit_topup" 9000 "k1") 9000 []) d))) emptyBilling).2).2).2.
Lemma response_charged_once_witness :
  getBillingBalance "acme" chargedTwice = 4000 /\ - 5000 <= sum_where (entryKeyIs (chargeKey "t:1")) e_amountMicros (ledger chargedTwice) <= 0.
Proof.
  split; [vm_compute; reflexivity|].
  assert (H : rtc (pool (metering (fun _ => 5000) exampleSettings)) (emptyBilling, []) (chargedTwice, [])).
  { unfold chargedTwice.
    assert (Hc : metering (fun _ => 5000) exampleSettings (recordModelUsageAndDebitCredits exampleSettings exampleCall)).
    { constructor. intros u n [= <-] Hn. vm_compute in Hn. injection Hn as <-. reflexivity. }
    etransitivity; [apply pool_alone|etransitivity; apply pool_alone; exact Hc].
    apply (write_entry _ _ (entryRow 0 (entry "credit_topup" 9000 "k1") 9000 [])). discriminate. }
  exact (proj1 (response_charged_once (fun _ => 5000) exampleSettings (chargedTwice, []) "t:1" H ltac:(discriminate))).
Defined.

Lemma admitted_run_starts_witness :
  ensureRunAllowed exampleSettings exampleOutside "acme" "w" false None (recordUsageEvent 1 (runUsage "acme" "w" None "session" "s") funded).2 = Ok tt.
Proof.
  exact (admitted_run_starts exampleSettings exampleOutside "acme" "w" false 1 None "session" "s" funded ltac:(discriminate) ltac:(vm_compute; reflexivity)).
Defined.

(** The cap is one run: the next is refused. *)
Example second_run_refused :
  requireLimit exampleSettings exampleOutside (runAdmission "acme" "w") false (recordUsageEvent 1 (runUsage "acme" "w" None "session" "s") funded).2 =
    Err (429, "monthly agent run limit reached (1)"%string) /\
  requireLimit exampleSettings exampleOutside (runAdmission "acme" "w") false emptyBilling = Err (402, "insufficient OpenGeni credits"%string).
Proof. vm_compute. done. Qed.
End Limits.
