(* ===== verification/Rigs.v ===== *)
(** * Rigs ([packages/db/src/index.ts], "rigs")

    A rig is a versioned definition of a sandbox machine.  Versions are minted
    and never rewritten, one of them is active; a change is proposed against the
    active version, verified in a throw-away sandbox and merged by minting the
    next version.  Every function is one transaction; the ones that mint or
    activate lock the row of the rig. *)
From stdpp Require Import pretty.
From S2P Require Import Prelude Json Sql Schema.
#[local] Open Scope Z_scope.
#[local] Open Scope opengeni_scope.

Module Rigs.

(** ** Tables *)

Record RigCheck := { ck_name : jstr; ck_command : jstr }.

(** [rigs] *)
Record RigRow := {
  g_id : nat; g_accountId : string; g_workspaceId : string; g_name : jstr; g_description : option jstr; g_createdBy : option string;
  g_createdAt : Z; g_updatedAt : Z
}.
#[export] Instance etaRigRow : Settable RigRow := fun r =>
  Build_RigRow (g_id r) (g_accountId r) (g_workspaceId r) (g_name r) (g_description r) (g_createdBy r) (g_createdAt r) (g_updatedAt r).

(** [rig_versions] *)
Record VersionRow := {
  v_id : nat; v_accountId : string; v_workspaceId : string; v_rigId : nat; v_version : Z; v_image : option jstr; v_setupScript : option jstr;
  v_checks : list RigCheck; v_credentialHooks : list string; v_defaultVariableSetIds : list string; v_changelog : option jstr;
  v_createdBy : option string; v_active : bool; v_createdAt : Z
}.
#[export] Instance etaVersionRow : Settable VersionRow := fun r =>
  Build_VersionRow (v_id r) (v_accountId r) (v_workspaceId r) (v_rigId r) (v_version r) (v_image r) (v_setupScript r) (v_checks r)
    (v_credentialHooks r) (v_defaultVariableSetIds r) (v_changelog r) (v_createdBy r) (v_active r) (v_createdAt r).

Inductive RigChangeStatus := proposed | verifying | merged | rejected | failed.
#[export] Instance RigChangeStatus_eq_dec : EqDecision RigChangeStatus.
Proof. solve_decision. Defined.

(** The [kind] and the [payload] of a change, as the request schema admits them;
    an absent field is [None], a [null] is [Some None]. *)
Inductive RigChangePayload :=
| SetupAppend (command : jstr) (note : option jstr)
| DefinitionEdit (image setupScript : option (option jstr)) (checks : option (list RigCheck))
    (credentialHooks defaultVariableSetIds : option (list string)) (changelog : option (option jstr)).

(** [rig_changes] *)
Record ChangeRow := {
  k_id : nat; k_accountId : string; k_workspaceId : string; k_rigId : nat; k_baseVersionId : option nat; k_payload : RigChangePayload;
  k_status : RigChangeStatus; k_proposedBy : option string; k_verification : option (list (jstr * json)); k_resultVersionId : option nat;
  k_createdAt : Z; k_updatedAt : Z
}.
#[export] Instance etaChangeRow : Settable ChangeRow := fun r =>
  Build_ChangeRow (k_id r) (k_accountId r) (k_workspaceId r) (k_rigId r) (k_baseVersionId r) (k_payload r) (k_status r) (k_proposedBy r)
    (k_verification r) (k_resultVersionId r) (k_createdAt r) (k_updatedAt r).

(** [audit_events], as the rigs write them. *)
Record AuditRow := {
  a_accountId : string; a_workspaceId : string; a_subjectId : string; a_action : string; a_rigId : nat; a_metadata : list (jstr * json);
  a_occurredAt : Z
}.

(** What the rigs read of [sessions] and of [variable_sets]. *)
Record RigSession := { s_workspaceId : string; s_rigId : option nat; s_status : SessionStatus }.
#[export] Instance etaRigSession : Settable RigSession := fun r => Build_RigSession (s_workspaceId r) (s_rigId r) (s_status r).
Record VariableSetRow := { vs_workspaceId : string; vs_id : string }.

(** [fresh] is the next generated id. *)
Record RigDb := {
  rigs : list RigRow; versions : list VersionRow; changes : list ChangeRow; audits : list AuditRow; sessions : list RigSession;
  variableSets : list VariableSetRow; fresh : nat
}.
#[export] Instance etaRigDb : Settable RigDb := fun d =>
  Build_RigDb (rigs d) (versions d) (changes d) (audits d) (sessions d) (variableSets d) (fresh d).

Inductive RigError :=
| RigNotFound (rigId : nat)
| RigVersionNotFound (versionId : nat)
| RigChangeNotFound (changeId : nat)
| RigNameTaken (name : jstr)
| RigChangeTransitionError (changeId : nat) (fromStatus toStatus : RigChangeStatus)
| RigActiveVersionChangedError (rigId expectedVersionId : nat) (actualVersionId : option nat)
| RigChangeAlreadyVerifyingError (changeId : nat)
| HttpError (status : Z) (message : string)
| SandboxError (message : jstr)
| Unavailable.

(** ** The [where] clauses *)

Definition rigIs (ws : string) (rigId : nat) (r : RigRow) : bool := String.eqb (g_workspaceId r) ws && Nat.eqb (g_id r) rigId.
Definition rigNamed (ws : string) (name : jstr) (r : RigRow) : bool := String.eqb (g_workspaceId r) ws && bool_decide (g_name r = name).
Definition versionOf (ws : string) (rigId : nat) (r : VersionRow) : bool := String.eqb (v_workspaceId r) ws && Nat.eqb (v_rigId r) rigId.
Definition activeOf (ws : string) (rigId : nat) (r : VersionRow) : bool := versionOf ws rigId r && v_active r.
Definition versionIs (ws : string) (rigId versionId : nat) (r : VersionRow) : bool := versionOf ws rigId r && Nat.eqb (v_id r) versionId.
Definition versionById (ws : string) (versionId : nat) (r : VersionRow) : bool := String.eqb (v_workspaceId r) ws && Nat.eqb (v_id r) versionId.
Definition changeOf (ws : string) (rigId : nat) (r : ChangeRow) : bool := String.eqb (k_workspaceId r) ws && Nat.eqb (k_rigId r) rigId.
Definition changeIs (ws : string) (changeId : nat) (r : ChangeRow) : bool := String.eqb (k_workspaceId r) ws && Nat.eqb (k_id r) changeId.
Definition usesRig (ws : string) (rigId : nat) (r : RigSession) : bool :=
  String.eqb (s_workspaceId r) ws && bool_decide (s_rigId r = Some rigId).
(** [status not in ('failed', 'cancelled')] *)
Definition holdsRig (ws : string) (rigId : nat) (r : RigSession) : bool :=
  usesRig ws rigId r && negb (bool_decide (s_status r = S_failed) || bool_decide (s_status r = S_cancelled)).

Definition rigRow (ws : string) (rigId : nat) (d : RigDb) : option RigRow := head (select_where (rigIs ws rigId) (rigs d)).
Definition activeVersion (ws : string) (rigId : nat) (d : RigDb) : option VersionRow := head (select_where (activeOf ws rigId) (versions d)).
Definition changeRow (ws : string) (changeId : nat) (d : RigDb) : option ChangeRow := head (select_where (changeIs ws changeId) (changes d)).

(** ** Minting versions *)

Record RigVersionContentInput := {
  ci_image : option jstr; ci_setupScript : option jstr; ci_checks : option (list RigCheck); ci_credentialHooks : option (list string);
  ci_defaultVariableSetIds : option (list string); ci_changelog : option jstr; ci_createdBy : option string
}.
Definition emptyContent : RigVersionContentInput := {|
  ci_image := None; ci_setupScript := None; ci_checks := None; ci_credentialHooks := None; ci_defaultVariableSetIds := None;
  ci_changelog := None; ci_createdBy := None |}.

Definition versionValues (now : Z) (id : nat) (accountId ws : string) (rigId : nat) (version : Z) (input : RigVersionContentInput)
  (createdBy : option string) (active : bool) : VersionRow := {|
  v_id := id; v_accountId := accountId; v_workspaceId := ws; v_rigId := rigId; v_version := version; v_image := ci_image input;
  v_setupScript := ci_setupScript input; v_checks := default [] (ci_checks input); v_credentialHooks := default [] (ci_credentialHooks input);
  v_defaultVariableSetIds := default [] (ci_defaultVariableSetIds input); v_changelog := ci_changelog input; v_createdBy := createdBy;
  v_active := active; v_createdAt := now |}.

(** [coalesce(max(version), 0) + 1] *)
Definition nextVersion (ws : string) (rigId : nat) (d : RigDb) : Z :=
  fold_right Z.max 0 (List.map v_version (select_where (versionOf ws rigId) (versions d))) + 1.
Definition deactivate (ws : string) (rigId : nat) (d : RigDb) : RigDb :=
  d <| versions ::= update_where (activeOf ws rigId) (fun r => r <| v_active := false |>) |>.
(** The insert of a version, after the active one was deactivated when it replaces it. *)
Definition minted (ws : string) (rigId : nat) (activate : bool) (row : VersionRow) (d : RigDb) : RigDb :=
  (if activate then deactivate ws rigId d else d) <| versions ::= fun t => t ++ [row] |> <| fresh ::= S |>.
Definition touchRig (now : Z) (ws : string) (rigId : nat) (d : RigDb) : RigDb :=
  d <| rigs ::= update_where (rigIs ws rigId) (fun r => r <| g_updatedAt := now |>) |>.

Definition createRigVersion (now : Z) (ws : string) (rigId : nat) (input : RigVersionContentInput) (activate : bool) (d : RigDb)
  : result RigError (VersionRow * RigDb) :=
  match rigRow ws rigId d with
  | None => Err (RigNotFound rigId)
  | Some rig =>
      let version := nextVersion ws rigId d in
      let row := versionValues now (fresh d) (g_accountId rig) ws rigId version input (ci_createdBy input) activate in
      Ok (row, touchRig now ws rigId (minted ws rigId activate row d))
  end.

Definition activateRigVersion (now : Z) (ws : string) (rigId versionId : nat) (d : RigDb) : result RigError (VersionRow * RigDb) :=
  match rigRow ws rigId d with
  | None => Err (RigNotFound rigId)
  | Some _ =>
      match head (select_where (versionIs ws rigId versionId) (versions d)) with
      | None => Err (RigVersionNotFound versionId)
      | Some _ =>
          let d := deactivate ws rigId d in
          match head (updated_rows (versionIs ws rigId versionId) (fun r => r <| v_active := true |>) (versions d)) with
          | None => Err (RigVersionNotFound versionId)
          | Some row =>
              Ok (row, touchRig now ws rigId
                    (d <| versions ::= update_where (versionIs ws rigId versionId) (fun r => r <| v_active := true |>) |>))
          end
      end
  end.

(** ** Rigs *)

(** The version 1 of the insert is active; the name is unique in its workspace. *)
Definition createRig (now : Z) (accountId ws : string) (name : jstr) (description : option jstr) (createdBy : option string)
  (initialVersion : option RigVersionContentInput) (d : RigDb) : result RigError ((RigRow * VersionRow) * RigDb) :=
  if existsb (rigNamed ws name) (rigs d) then Err (RigNameTaken name)
  else
    let rig := {| g_id := fresh d; g_accountId := accountId; g_workspaceId := ws; g_name := name; g_description := description;
                  g_createdBy := createdBy; g_createdAt := now; g_updatedAt := now |} in
    let content := default emptyContent initialVersion in
    let version := versionValues now (S (fresh d)) accountId ws (g_id rig) 1 content
                     (match ci_createdBy content with Some by_ => Some by_ | None => createdBy end) true in
    Ok ((rig, version), d <| rigs ::= fun t => t ++ [rig] |> <| versions ::= fun t => t ++ [version] |> <| fresh ::= fun n => S (S n) |>).

(** [name] and [description] only. *)
Definition updateRig (now : Z) (ws : string) (rigId : nat) (name : option jstr) (description : option (option jstr)) (d : RigDb)
  : result RigError (RigRow * RigDb) :=
  let set r := r <| g_name := default (g_name r) name |> <| g_description := default (g_description r) description |> <| g_updatedAt := now |> in
  let taken n := existsb (fun r => rigNamed ws n r && negb (Nat.eqb (g_id r) rigId)) (rigs d) in
  match head (updated_rows (rigIs ws rigId) set (rigs d)) with
  | None => Err (RigNotFound rigId)
  | Some row =>
      if match name with Some n => taken n | None => false end then Err (RigNameTaken (g_name row))
      else Ok (row, d <| rigs ::= update_where (rigIs ws rigId) set |>)
  end.

(** The foreign keys: versions and changes go with their rig, sessions forget it. *)
Definition dropRig (ws : string) (rigId : nat) (d : RigDb) : RigDb :=
  d <| rigs ::= delete_where (rigIs ws rigId) |>
    <| versions ::= delete_where (fun r => Nat.eqb (v_rigId r) rigId) |>
    <| changes ::= delete_where (fun r => Nat.eqb (k_rigId r) rigId) |>
    <| sessions ::= update_where (fun r => bool_decide (s_rigId r = Some rigId)) (fun r => r <| s_rigId := None |>) |>.

Definition deleteRig (ws : string) (rigId : nat) (d : RigDb) : bool * RigDb :=
  match rigRow ws rigId d with None => (false, d) | Some _ => (true, dropRig ws rigId d) end.

Definition deleteRigIfNoActiveSessions (ws : string) (rigId : nat) (d : RigDb) : (bool * Z) * RigDb :=
  match rigRow ws rigId d with
  | None => ((false, 0), d)
  | Some _ =>
      let activeSessionCount := count_where (holdsRig ws rigId) (sessions d) in
      if 0 <? activeSessionCount then ((false, activeSessionCount), d)
      else let '(deleted, d) := deleteRig ws rigId d in ((deleted, activeSessionCount), d)
  end.

Definition countRigs (ws : string) (d : RigDb) : Z := count_where (fun r => String.eqb (g_workspaceId r) ws) (rigs d).
Definition countSessionsUsingRig (ws : string) (rigId : nat) (d : RigDb) : Z := count_where (usesRig ws rigId) (sessions d).
Definition getRigName (ws : string) (rigId : nat) (d : RigDb) : option jstr := g_name <$> rigRow ws rigId d.
Definition getRigVersion (ws : string) (rigId versionId : nat) (d : RigDb) : option VersionRow :=
  head (select_where (versionIs ws rigId versionId) (versions d)).
Definition getRigVersionById (ws : string) (versionId : nat) (d : RigDb) : option VersionRow :=
  head (select_where (versionById ws versionId) (versions d)).
(** [order by version desc] *)
Definition listRigVersions (ws : string) (rigId : nat) (d : RigDb) : list VersionRow :=
  sort_by (fun r => - v_version r) (select_where (versionOf ws rigId) (versions d)).

(** ** Changes *)

Definition createRigChange (now : Z) (accountId ws : string) (rigId : nat) (baseVersionId : option nat) (payload : RigChangePayload)
  (proposedBy : option string) (d : RigDb) : result RigError (ChangeRow * RigDb) :=
  let row := {| k_id := fresh d; k_accountId := accountId; k_workspaceId := ws; k_rigId := rigId; k_baseVersionId := baseVersionId;
                k_payload := payload; k_status := proposed; k_proposedBy := proposedBy; k_verification := None; k_resultVersionId := None;
                k_createdAt := now; k_updatedAt := now |} in
  (* the foreign key of [rig_id] *)
  if existsb (fun r => Nat.eqb (g_id r) rigId) (rigs d) then Ok (row, d <| changes ::= fun t => t ++ [row] |> <| fresh ::= S |>)
  else Err (RigNotFound rigId).

(** [order by created_at desc limit ..]; rows of one instant in any order. *)
Definition listRigChanges (ws : string) (rigId : nat) (most : Z) (d : RigDb) : list ChangeRow :=
  limit most (sort_by (fun r => - k_createdAt r) (select_where (changeOf ws rigId) (changes d))).
Definition getRigChange (ws : string) (changeId : nat) (d : RigDb) : option ChangeRow := changeRow ws changeId d.

Definition terminal (s : RigChangeStatus) : bool := match s with merged | rejected => true | _ => false end.

(** [update .. where id = .. returning], after the row was locked. *)
Definition setChange (ws : string) (changeId : nat) (f : ChangeRow -> ChangeRow) (d : RigDb) : result RigError (ChangeRow * RigDb) :=
  match head (updated_rows (changeIs ws changeId) f (changes d)) with
  | None => Err (RigChangeNotFound changeId)
  | Some row => Ok (row, d <| changes ::= update_where (changeIs ws changeId) f |>)
  end.

Definition updateRigChangeStatus (now : Z) (ws : string) (changeId : nat) (status : RigChangeStatus) (verification : option (list (jstr * json)))
  (resultVersionId : option (option nat)) (d : RigDb) : result RigError (ChangeRow * RigDb) :=
  match changeRow ws changeId d with
  | None => Err (RigChangeNotFound changeId)
  | Some current =>
      if terminal (k_status current) then Err (RigChangeTransitionError changeId (k_status current) status)
      else
        let mergedVerification := (fun v => overlay v (default [] (k_verification current))) <$> verification in
        setChange ws changeId (fun r => r
          <| k_status := status |>
          <| k_verification := match mergedVerification with Some v => Some v | None => k_verification r end |>
          <| k_resultVersionId := default (k_resultVersionId r) resultVersionId |>
          <| k_updatedAt := now |>) d
  end.

Definition attemptOf (verification : list (jstr * json)) : Z := default 0 (asNumber (assoc (js "attempt") verification)).
Definition newAttempt (startedAt : jstr) (previous : list (jstr * json)) : list (jstr * json) :=
  overlay [(js "attempt", JNum (attemptOf previous + 1)); (js "startedAt", JStr startedAt); (js "checkResults", JArr []);
           (js "finishedAt", JNull); (js "passed", JNull); (js "error", JNull)] previous.

Definition beginRigChangeVerificationAttempt (now : Z) (ws : string) (changeId : nat) (startedAt : jstr) (allowAlreadyVerifying : bool)
  (d : RigDb) : result RigError (ChangeRow * RigDb) :=
  match changeRow ws changeId d with
  | None => Err (RigChangeNotFound changeId)
  | Some current =>
      match k_status current with
      | verifying => if allowAlreadyVerifying then Ok (current, d) else Err (RigChangeAlreadyVerifyingError changeId)
      | merged => Err (RigChangeTransitionError changeId merged verifying)
      | _ =>
          let verification := newAttempt startedAt (default [] (k_verification current)) in
          setChange ws changeId (fun r => r <| k_status := verifying |> <| k_verification := Some verification |> <| k_updatedAt := now |>) d
      end
  end.

Definition createRigVersionForChangePromotion (now : Z) (ws : string) (rigId changeId : nat) (input : RigVersionContentInput)
  (expectedActiveVersionId : nat) (d : RigDb) : result RigError ((VersionRow * ChangeRow) * RigDb) :=
  match rigRow ws rigId d with
  | None => Err (RigNotFound rigId)
  | Some rig =>
      match head (select_where (fun r => changeOf ws rigId r && Nat.eqb (k_id r) changeId) (changes d)) with
      | None => Err (RigChangeNotFound changeId)
      | Some currentChange =>
          if terminal (k_status currentChange) then Err (RigChangeTransitionError changeId (k_status currentChange) merged)
          else if negb (bool_decide (k_baseVersionId currentChange = Some expectedActiveVersionId))
          then Err (RigActiveVersionChangedError rigId expectedActiveVersionId (k_baseVersionId currentChange))
          else
            let active := v_id <$> activeVersion ws rigId d in
            if negb (bool_decide (active = Some expectedActiveVersionId))
            then Err (RigActiveVersionChangedError rigId expectedActiveVersionId active)
            else
              let version := nextVersion ws rigId d in
              let row := versionValues now (fresh d) (g_accountId rig) ws rigId version input (ci_createdBy input) true in
              let d := minted ws rigId true row d in
              match setChange ws changeId
                (fun r => r <| k_status := merged |> <| k_resultVersionId := Some (v_id row) |> <| k_updatedAt := now |>) d with
              | Err e => Err e
              | Ok (change, d) => Ok ((row, change), touchRig now ws rigId d)
              end
      end
  end.

(** ** Reads with the health of the active version *)

Inductive CheckHealth := passing | failing | unknown.
Record RigVerificationHealth := { checkHealth : CheckHealth; lastVerifiedAt : option jstr }.
Record RigHealthCandidate := { hc_versionId : nat; hc_passed : bool; hc_verifiedAt : jstr }.

(** A rig as the API shows it. *)
Record Rig := { rig_row : RigRow; rig_activeVersion : option VersionRow; rig_activeVersionHealth : option RigVerificationHealth; rig_versionCount : Z }.

(** The text of a generated id. *)
Definition idText (id : nat) : jstr := js (pretty id).

Section health.
(** [toISOString] and [Date.parse]; an unparsable date compares as false. *)
Context (toISOString : Z -> jstr) (dateParse : jstr -> option Z).

Definition notBefore (a b : jstr) : bool :=
  match dateParse a, dateParse b with Some x, Some y => y <=? x | _, _ => false end.
Definition latestCandidate (candidates : list RigHealthCandidate) : option RigHealthCandidate :=
  fold_left (fun latest c => match latest with
                             | None => Some c
                             | Some l => if notBefore (hc_verifiedAt c) (hc_verifiedAt l) then Some c else latest
                             end) candidates None.
Definition latestRigHealth (candidates : list RigHealthCandidate) : RigVerificationHealth :=
  match latestCandidate candidates with
  | Some l => {| checkHealth := if hc_passed l then passing else failing; lastVerifiedAt := Some (hc_verifiedAt l) |}
  | None => {| checkHealth := unknown; lastVerifiedAt := None |}
  end.

Definition verificationTimestamp (verification : list (jstr * json)) (fallback : Z) : jstr :=
  default (toISOString fallback) (asString (assoc (js "finishedAt") verification)).
Definition asBool (v : option json) : option bool := match v with Some (JBool b) => Some b | _ => None end.

Definition changeCandidate (versionId : nat) (c : ChangeRow) : option RigHealthCandidate :=
  let verification := default [] (k_verification c) in
  match asBool (assoc (js "passed") verification) with
  | Some passed => Some {| hc_versionId := versionId; hc_passed := passed; hc_verifiedAt := verificationTimestamp verification (k_updatedAt c) |}
  | None => None
  end.
Definition auditCandidate (versionId : nat) (a : AuditRow) : RigHealthCandidate := {|
  hc_versionId := versionId;
  hc_passed := default (String.eqb (a_action a) "rig.verification.passed") (asBool (assoc (js "passed") (a_metadata a)));
  hc_verifiedAt := default (toISOString (a_occurredAt a)) (asString (assoc (js "finishedAt") (a_metadata a))) |}.
Definition verificationAudit (ws : string) (versionId : nat) (a : AuditRow) : bool :=
  String.eqb (a_workspaceId a) ws && (String.eqb (a_action a) "rig.verification.passed" || String.eqb (a_action a) "rig.verification.failed") &&
  bool_decide (asString (assoc (js "versionId") (a_metadata a)) = Some (idText versionId)).

(** The candidates of one of the versions: its change first, then the audits. *)
Definition healthCandidates (ws : string) (versionId : nat) (d : RigDb) : list RigHealthCandidate :=
  omap (changeCandidate versionId)
    (select_where (fun c => String.eqb (k_workspaceId c) ws && bool_decide (k_resultVersionId c = Some versionId)) (changes d)) ++
  List.map (auditCandidate versionId) (select_where (verificationAudit ws versionId) (audits d)).
Definition loadRigHealth (ws : string) (versionId : nat) (d : RigDb) : RigVerificationHealth := latestRigHealth (healthCandidates ws versionId d).

Definition mapRig (row : RigRow) (active : option VersionRow) (versionCount : Z) (d : RigDb) : Rig := {|
  rig_row := row; rig_activeVersion := active;
  rig_activeVersionHealth := (fun v => loadRigHealth (g_workspaceId row) (v_id v) d) <$> active; rig_versionCount := versionCount |}.
Definition loadRig (ws : string) (d : RigDb) (row : RigRow) : Rig :=
  mapRig row (activeVersion ws (g_id row) d) (count_where (versionOf ws (g_id row)) (versions d)) d.
Definition getRig (ws : string) (rigId : nat) (d : RigDb) : option Rig := loadRig ws d <$> rigRow ws rigId d.
Definition getRigByName (ws : string) (name : jstr) (d : RigDb) : option Rig := loadRig ws d <$> head (select_where (rigNamed ws name) (rigs d)).
(** [order by created_at] *)
Definition listRigs (ws : string) (d : RigDb) : list Rig :=
  List.map (loadRig ws d) (sort_by g_createdAt (select_where (fun r => String.eqb (g_workspaceId r) ws) (rigs d))).
End health.

(** ** Well-formed tables *)

(** The versions of a rig, oldest first. *)
Definition history (rigId : nat) (d : RigDb) : list VersionRow := select_where (fun v => Nat.eqb (v_rigId v) rigId) (versions d).
Definition oneActive (l : list VersionRow) : Prop := length (List.filter v_active l) = 1%nat.
Definition numbered (l : list VersionRow) : Prop := List.map v_version l = seqZ 1 (Z.of_nat (length l)).

Record rig_ok (d : RigDb) : Prop := {
  ok_ids : NoDup (List.map g_id (rigs d)) /\ NoDup (List.map v_id (versions d)) /\ NoDup (List.map k_id (changes d));
  ok_fresh : (forall r, r ∈ rigs d -> (g_id r < fresh d)%nat) /\ (forall r, r ∈ versions d -> (v_id r < fresh d)%nat) /\
             (forall r, r ∈ changes d -> (k_id r < fresh d)%nat);
  ok_names : NoDup (List.map (fun r => (g_workspaceId r, g_name r)) (rigs d));
  ok_versions : forall v, v ∈ versions d -> exists g, g ∈ rigs d /\ g_id g = v_rigId v /\ g_workspaceId g = v_workspaceId v;
  ok_changes : forall k, k ∈ changes d -> exists g, g ∈ rigs d /\ g_id g = k_rigId k;
  ok_history : forall g, g ∈ rigs d -> numbered (history (g_id g) d) /\ oneActive (history (g_id g) d)
}.

(** What a version keeps, and what a change keeps before and after its merge. *)
Definition frozen (v : VersionRow) : VersionRow := v <| v_active := false |>.
Definition proposal (k : ChangeRow) : ChangeRow :=
  k <| k_status := proposed |> <| k_verification := None |> <| k_resultVersionId := None |> <| k_updatedAt := 0 |>.
Definition settled (k : ChangeRow) : option nat * bool := (k_resultVersionId k, bool_decide (k_status k = merged)).

(** Later databases: what is still there has not been rewritten, and versions go
    with their rig only. *)
Record later (d d' : RigDb) : Prop := {
  later_fresh : (fresh d <= fresh d')%nat;
  later_rigs : forall r', r' ∈ rigs d' -> (g_id r' < fresh d)%nat ->
    exists r, r ∈ rigs d /\ g_id r = g_id r' /\ g_workspaceId r = g_workspaceId r' /\ g_accountId r = g_accountId r';
  later_versions : forall v', v' ∈ versions d' -> (v_id v' < fresh d)%nat -> exists v, v ∈ versions d /\ frozen v = frozen v';
  later_changes : forall k', k' ∈ changes d' -> (k_id k' < fresh d)%nat ->
    exists k, k ∈ changes d /\ proposal k = proposal k' /\ (k_status k = merged -> settled k' = settled k);
  later_kept : forall v, v ∈ versions d -> (v_rigId v < fresh d)%nat -> (exists g', g' ∈ rigs d' /\ g_id g' = v_rigId v) ->
    exists v', v' ∈ versions d' /\ frozen v' = frozen v
}.
#[export] Instance later_preorder : PreOrder later.
Proof.
  split.
  - intros d. split; eauto 6.
  - intros a b c [F1 R1 V1 K1 L1] [F2 R2 V2 K2 L2]. split; [lia|..].
    + intros r Hr Hl. destruct (R2 r Hr) as (r2 & Hr2 & E1 & E2 & E3); [lia|]. destruct (R1 r2 Hr2) as (r1 & Hr1 & E1' & E2' & E3'); [lia|].
      exists r1. split_and!; [done|congruence..].
    + intros v Hv Hl. destruct (V2 v Hv) as (v2 & Hv2 & E); [lia|]. assert (v_id v2 = v_id v) by exact (f_equal v_id E).
      destruct (V1 v2 Hv2) as (v1 & Hv1 & E1); [lia|]. exists v1. split; [done|congruence].
    + intros k Hk Hl. destruct (K2 k Hk) as (k2 & Hk2 & E & M); [lia|]. assert (k_id k2 = k_id k) by exact (f_equal k_id E).
      destruct (K1 k2 Hk2) as (k1 & Hk1 & E1 & M1); [lia|]. exists k1. split_and!; [done|congruence|]. intros Hm. specialize (M1 Hm).
      assert (k_status k2 = merged).
      { injection M1 as _ Hb. rewrite Hm, (bool_decide_eq_true_2 (merged = merged)) in Hb by done. by apply bool_decide_eq_true in Hb. }
      rewrite <- M1. by apply M.
    + intros v Hv Hl (g & Hg & E). destruct (R2 g Hg) as (g2 & Hg2 & E2 & _); [lia|]. destruct (L1 v Hv Hl) as (v2 & Hv2 & F); [exists g2; split; [done|congruence]|].
      pose proof (f_equal v_rigId F) as Fr. cbn in Fr. destruct (L2 v2 Hv2) as (v3 & Hv3 & F'); [lia|exists g; split; [done|congruence]|].
      exists v3. split; [done|congruence].
Qed.

(** ** Rows and histories *)

Lemma head_select {R} (p : R -> bool) t r : head (select_where p t) = Some r -> p r = true /\ r ∈ t.
Proof. intros H. apply elem_of_select_where. destruct (select_where p t); [done|]. injection H as ->. by left. Qed.

Lemma rigRow_some ws rigId d g : rigRow ws rigId d = Some g -> g ∈ rigs d /\ g_id g = rigId /\ g_workspaceId g = ws.
Proof. intros [H Hin]%head_select. unfold rigIs in H. by nreflect. Qed.

Lemma changeRow_some ws changeId d k : changeRow ws changeId d = Some k -> k ∈ changes d /\ k_id k = changeId /\ k_workspaceId k = ws.
Proof. intros [H Hin]%head_select. unfold changeIs in H. by nreflect. Qed.

Lemma same_rig d g g' : rig_ok d -> g ∈ rigs d -> g' ∈ rigs d -> g_id g = g_id g' -> g = g'.
Proof. intros [[H _] _ _ _ _ _] Hg Hg' He. by apply (select_unique g_id (g_id g') (rigs d)). Qed.

Lemma version_workspace d g v : rig_ok d -> g ∈ rigs d -> v ∈ versions d -> v_rigId v = g_id g -> v_workspaceId v = g_workspaceId g.
Proof. intros Hok Hg Hv He. destruct (ok_versions _ Hok v Hv) as (g' & Hg' & E1 & E2). rewrite <- E2. f_equal. apply (same_rig d); [done..|congruence]. Qed.

Lemma versionOf_in d ws rigId g v : rig_ok d -> rigRow ws rigId d = Some g -> v ∈ versions d -> versionOf ws rigId v = Nat.eqb (v_rigId v) rigId.
Proof.
  intros Hok (Hg & <- & <-)%rigRow_some Hv. unfold versionOf. destruct (Nat.eqb_spec (v_rigId v) (g_id g)) as [E|E]; [|by rewrite andb_false_r].
  by rewrite (version_workspace d g v Hok Hg Hv E), String.eqb_refl.
Qed.

Lemma history_of d ws rigId g : rig_ok d -> rigRow ws rigId d = Some g -> select_where (versionOf ws rigId) (versions d) = history rigId d.
Proof.
  intros Hok Hg. unfold history, select_where. apply filter_ext_in. intros v Hv. apply (versionOf_in d ws rigId g); [done..|]. by apply list_elem_of_In.
Qed.

Lemma inactive_id v : v_active v = false -> v <| v_active := false |> = v.
Proof. destruct v. cbn. by intros ->. Qed.

Lemma deactivate_map ws rigId d : versions (deactivate ws rigId d) = List.map (fun v => if versionOf ws rigId v then frozen v else v) (versions d).
Proof.
  unfold deactivate. change (update_where (activeOf ws rigId) frozen (versions d) = List.map (fun v => if versionOf ws rigId v then frozen v else v) (versions d)).
  unfold update_where. apply map_ext. intros v. unfold activeOf. destruct (versionOf ws rigId v); [|done]. destruct (v_active v) eqn:E; cbn; [done|].
  symmetry. by apply inactive_id.
Qed.

Lemma history_deactivate d ws rigId g gid : rig_ok d -> rigRow ws rigId d = Some g ->
  history gid (deactivate ws rigId d) = if Nat.eqb gid rigId then List.map frozen (history gid d) else history gid d.
Proof.
  intros Hok Hg. unfold history. rewrite deactivate_map. rewrite select_map. unfold select_where. rewrite (filter_ext _ (fun v => Nat.eqb (v_rigId v) gid)).
  2: { intros v. by destruct (versionOf ws rigId v). }
  destruct (Nat.eqb_spec gid rigId) as [->|Hne].
  - apply map_ext_in. intros v [Hv E]%filter_In. rewrite (versionOf_in d ws rigId g); [by rewrite E|done..|by apply list_elem_of_In].
  - rewrite <- (List.map_id (List.filter _ _)) at 2. apply map_ext_in. intros v [Hv E]%filter_In. unfold versionOf. apply Nat.eqb_eq in E as ->.
    apply Nat.eqb_neq in Hne as ->. by rewrite andb_false_r.
Qed.

(** ** Operations keep the tables *)

Lemma frozen_id v v' : frozen v = frozen v' -> v_id v = v_id v'.
Proof. intros H. exact (f_equal v_id H). Qed.

Lemma fold_max_seq n : forall m, 1 <= m -> fold_right Z.max 0 (seqZ m (Z.of_nat n)) = if Nat.eqb n 0 then 0 else m + Z.of_nat n - 1.
Proof.
  induction n as [|n IH]; intros m Hm; [done|]. rewrite seqZ_cons by lia. replace (Z.pred (Z.of_nat (S n))) with (Z.of_nat n) by lia.
  cbn [fold_right]. rewrite IH by lia. destruct n; cbn [Nat.eqb]; lia.
Qed.

Lemma nextVersion_eq d ws rigId g : rig_ok d -> rigRow ws rigId d = Some g -> nextVersion ws rigId d = Z.of_nat (length (history rigId d)) + 1.
Proof.
  intros Hok Hg. unfold nextVersion. rewrite (history_of d ws rigId g Hok Hg). pose proof (rigRow_some _ _ _ _ Hg) as (Hin & <- & _).
  rewrite (proj1 (ok_history _ Hok g Hin)), fold_max_seq by lia. destruct (Nat.eqb_spec (length (history (g_id g) d)) 0); lia.
Qed.

Lemma numbered_snoc l v : numbered l -> v_version v = Z.of_nat (length l) + 1 -> numbered (l ++ [v]).
Proof.
  unfold numbered. intros H Hv. rewrite List.map_app, H, length_app. cbn [length List.map]. rewrite Nat2Z.inj_add, seqZ_app by lia. f_equal.
  rewrite Hv, seqZ_cons by done. cbn. f_equal. lia.
Qed.
Lemma numbered_map f l : (forall v, v_version (f v) = v_version v) -> numbered l -> numbered (List.map f l).
Proof. unfold numbered. intros Hf H. rewrite List.map_map, length_map, <- H. by apply map_ext. Qed.

Lemma active_frozen l : List.filter v_active (List.map frozen l) = [].
Proof. by induction l. Qed.

Lemma versions_minted ws rigId activate row d :
  versions (minted ws rigId activate row d) = List.map (fun v => if activate && versionOf ws rigId v then frozen v else v) (versions d) ++ [row].
Proof.
  unfold minted. destruct activate; cbn [versions setWith]; cbn; [by rewrite <- deactivate_map|]. by rewrite List.map_id.
Qed.

Lemma history_minted d ws rigId g activate row gid : rig_ok d -> rigRow ws rigId d = Some g -> v_rigId row = rigId ->
  history gid (minted ws rigId activate row d) =
  if Nat.eqb gid rigId then (if activate then List.map frozen (history gid d) else history gid d) ++ [row] else history gid d.
Proof.
  intros Hok Hg Hr. transitivity (history gid (if activate then deactivate ws rigId d else d) ++ (if Nat.eqb gid rigId then [row] else [])).
  { unfold history, minted. change (select_where (fun v => Nat.eqb (v_rigId v) gid) (versions (if activate then deactivate ws rigId d else d) ++ [row]) =
      select_where (fun v => Nat.eqb (v_rigId v) gid) (versions (if activate then deactivate ws rigId d else d)) ++ (if Nat.eqb gid rigId then [row] else [])).
    unfold select_where. rewrite List.filter_app. cbn. by rewrite Hr, (Nat.eqb_sym rigId). }
  destruct activate; [rewrite (history_deactivate d ws rigId g gid Hok Hg)|]; destruct (Nat.eqb gid rigId); by rewrite ?app_nil_r.
Qed.

Lemma mint_keeps d ws rigId g activate row : rig_ok d -> rigRow ws rigId d = Some g -> v_id row = fresh d -> v_rigId row = rigId ->
  v_workspaceId row = ws -> v_version row = nextVersion ws rigId d -> v_active row = activate ->
  rig_ok (minted ws rigId activate row d) /\ later d (minted ws rigId activate row d).
Proof.
  intros Hok Hg Hid Hrig Hws Hver Hact. pose proof (rigRow_some _ _ _ _ Hg) as (Hgin & Hgid & Hgws).
  assert (Hrest : rigs (minted ws rigId activate row d) = rigs d /\ changes (minted ws rigId activate row d) = changes d /\
    fresh (minted ws rigId activate row d) = S (fresh d)) by by destruct activate.
  destruct Hrest as (Er & Ec & Ef). pose proof (versions_minted ws rigId activate row d) as Ev.
  assert (Hold : forall v, v ∈ List.map (fun v => if activate && versionOf ws rigId v then frozen v else v) (versions d) -> exists v0, v0 ∈ versions d /\ frozen v0 = frozen v).
  { intros v (v0 & -> & Hv0)%list_elem_of_fmap. exists v0. split; [done|]. by destruct (_ && _). }
  destruct Hok as [(I1 & I2 & I3) (F1 & F2 & F3) N V K H]. assert (Hok : rig_ok d) by by split.
  split; split; rewrite ?Er, ?Ec, ?Ef, ?Ev.
  - split_and!; [done| |done]. rewrite List.map_app, List.map_map, (map_ext _ v_id) by (intros v; by destruct (_ && _)).
    apply NoDup_app. split_and!; [done| |apply NoDup_singleton]. intros x (v & -> & Hv)%list_elem_of_fmap Hx%list_elem_of_singleton.
    specialize (F2 v Hv). cbn in Hx. lia.
  - split_and!; [intros r Hr; specialize (F1 r Hr); lia| |intros r Hr; specialize (F3 r Hr); lia].
    intros v [Hv|Hv%list_elem_of_singleton]%elem_of_app; [|subst v; lia]. destruct (Hold v Hv) as (v0 & Hv0 & E). apply frozen_id in E. specialize (F2 v0 Hv0). lia.
  - done.
  - intros v [Hv|Hv%list_elem_of_singleton]%elem_of_app; [|subst v; exists g; split_and!; [done|congruence..]].
    destruct (Hold v Hv) as (v0 & Hv0 & E). destruct (V v0 Hv0) as (g0 & ? & ? & ?). exists g0. split_and!; [done| |].
    + transitivity (v_rigId v0); [done|]. exact (f_equal v_rigId E).
    + transitivity (v_workspaceId v0); [done|]. exact (f_equal v_workspaceId E).
  - done.
  - intros g0 Hg0. rewrite (history_minted d ws rigId g activate row _ Hok Hg Hrig). destruct (Nat.eqb_spec (g_id g0) rigId) as [E|E]; [|by apply H].
    destruct (H g0 Hg0) as [Hn Ha]. rewrite E in *. split.
    + destruct activate; apply numbered_snoc; rewrite ?length_map, ?Hver, ?(nextVersion_eq d ws rigId g); try done. by apply numbered_map.
    + unfold oneActive in *. rewrite List.filter_app. destruct activate; [rewrite active_frozen|]; cbn; rewrite Hact; [done|]. by rewrite app_nil_r.
  - lia.
  - intros r Hr _. exists r. by split_and!.
  - intros v [Hv|Hv%list_elem_of_singleton]%elem_of_app Hl; [by apply Hold|subst v; lia].
  - intros k Hk _. exists k. by split_and!.
  - intros v Hv _ _. exists (if activate && versionOf ws rigId v then frozen v else v). split; [|by destruct (_ && _)].
    apply elem_of_app. left. by apply (list_elem_of_fmap_2 (fun v => if activate && versionOf ws rigId v then frozen v else v)).
Qed.

Lemma changes_keep d p f : rig_ok d ->
  (forall k, k ∈ changes d -> p k = true -> proposal (f k) = proposal k /\ (k_status k = merged -> settled (f k) = settled k)) ->
  rig_ok (d <| changes ::= update_where p f |>) /\ later d (d <| changes ::= update_where p f |>).
Proof.
  intros Hok Hf. set (d' := d <| changes ::= update_where p f |>).
  assert (Hin : forall k', k' ∈ changes d' -> exists k, k ∈ changes d /\ proposal k = proposal k' /\ (k_status k = merged -> settled k' = settled k)).
  { intros k' (k & Hk & ->)%elem_of_update_where. exists k. split; [done|]. destruct (p k) eqn:E; [|done]. by destruct (Hf k Hk E) as [-> ?]. }
  assert (Hid : List.map k_id (changes d') = List.map k_id (changes d)).
  { change (List.map k_id (update_where p f (changes d)) = List.map k_id (changes d)). unfold update_where. rewrite List.map_map. apply map_ext_in.
    intros k Hk%list_elem_of_In. destruct (p k) eqn:E; [|done]. exact (f_equal k_id (proj1 (Hf k Hk E))). }
  destruct Hok as [(I1 & I2 & I3) (F1 & F2 & F3) N V K H].
  assert (Hk : forall k', k' ∈ changes d' -> exists k, k ∈ changes d /\ k_id k = k_id k' /\ k_rigId k = k_rigId k').
  { intros k' Hk'. destruct (Hin k' Hk') as (k & ? & E & _). exists k. split_and!; [done|exact (f_equal k_id E)|exact (f_equal k_rigId E)]. }
  split; split; [split_and!; [done|done|by rewrite Hid]| |done|done| |done| |intros r Hr _; by exists r|intros v Hv _; by exists v|intros k' Hk' _; by apply Hin|intros v Hv _ _; by exists v].
  - split_and!; [done|done|]. intros k' Hk'. destruct (Hk k' Hk') as (k & Hk0 & <- & _). by apply F3.
  - intros k' Hk'. destruct (Hk k' Hk') as (k & Hk0 & _ & <-). by apply K.
  - done.
Qed.

Lemma rigs_keep d p f : rig_ok d -> (forall r, g_id (f r) = g_id r /\ g_workspaceId (f r) = g_workspaceId r /\ g_accountId (f r) = g_accountId r) ->
  NoDup (List.map (fun r => (g_workspaceId r, g_name r)) (update_where p f (rigs d))) ->
  rig_ok (d <| rigs ::= update_where p f |>) /\ later d (d <| rigs ::= update_where p f |>).
Proof.
  intros [(I1 & I2 & I3) (F1 & F2 & F3) N V K H] Hf Hn. set (d' := d <| rigs ::= update_where p f |>).
  assert (Hin : forall r', r' ∈ rigs d' -> exists r, r ∈ rigs d /\ g_id r = g_id r' /\ g_workspaceId r = g_workspaceId r' /\ g_accountId r = g_accountId r').
  { intros r' (r & Hr & ->)%elem_of_update_where. exists r. split; [done|]. destruct (p r); [|done]. by destruct (Hf r) as (-> & -> & ->). }
  assert (Hout : forall r, r ∈ rigs d -> exists r', r' ∈ rigs d' /\ g_id r' = g_id r /\ g_workspaceId r' = g_workspaceId r).
  { intros r Hr. exists (if p r then f r else r). split; [apply elem_of_update_where; by exists r|]. destruct (p r); [|done]. by destruct (Hf r) as (-> & -> & _). }
  split; split.
  - split_and!; [|done|done]. change (NoDup (List.map g_id (update_where p f (rigs d)))). rewrite map_update_where; [done|]. intros r _. apply Hf.
  - split_and!; [|done|done]. intros r' Hr'. destruct (Hin r' Hr') as (r & Hr & <- & _). by apply F1.
  - done.
  - intros v Hv. destruct (V v Hv) as (g & Hg & E1 & E2). destruct (Hout g Hg) as (g' & ? & ? & ?). exists g'. split_and!; [done|congruence..].
  - intros k Hk. destruct (K k Hk) as (g & Hg & E). destruct (Hout g Hg) as (g' & ? & ? & _). exists g'. split; [done|congruence].
  - intros g' Hg'. destruct (Hin g' Hg') as (g & Hg & <- & _). by apply H.
  - done.
  - intros r' Hr' _. by apply Hin.
  - intros v Hv _. by exists v.
  - intros k Hk _. by exists k.
  - intros v Hv _ _. exists v. split; [|done]. first [done|apply elem_of_app; by left].
Qed.

Lemma touch_keeps now ws rigId d : rig_ok d -> rig_ok (touchRig now ws rigId d) /\ later d (touchRig now ws rigId d).
Proof. intros Hok. apply rigs_keep; [done|done|]. rewrite map_update_where by done. apply (ok_names _ Hok). Qed.

Lemma setChange_keeps ws changeId f d k d' : rig_ok d ->
  (forall k, k ∈ changes d -> changeIs ws changeId k = true -> proposal (f k) = proposal k /\ (k_status k = merged -> settled (f k) = settled k)) ->
  setChange ws changeId f d = Ok (k, d') -> rig_ok d' /\ later d d'.
Proof.
  intros Hok Hf H. unfold setChange in H. destruct (head _); [|done]. injection H as _ <-. by apply changes_keep.
Qed.

(** The row a guard looked at is the one an update by its id changes. *)
Lemma changeRow_unique ws changeId d k k' : rig_ok d -> changeRow ws changeId d = Some k -> k' ∈ changes d -> changeIs ws changeId k' = true -> k' = k.
Proof.
  intros Hok (Hk & Hid & _)%changeRow_some Hk' He. unfold changeIs in He. nreflect. apply (select_unique k_id changeId (changes d)); [apply (ok_ids _ Hok)|done..].
Qed.

Lemma createRigVersion_keeps now ws rigId input activate d v d' : rig_ok d -> createRigVersion now ws rigId input activate d = Ok (v, d') ->
  rig_ok d' /\ later d d'.
Proof.
  intros Hok H. unfold createRigVersion in H. destruct (rigRow ws rigId d) as [g|] eqn:Eg; [|done]. injection H as <- <-.
  set (row := versionValues _ _ _ _ _ _ _ _ _).
  destruct (mint_keeps d ws rigId g activate row Hok Eg eq_refl eq_refl eq_refl eq_refl eq_refl) as [H1 H2].
  destruct (touch_keeps now ws rigId _ H1) as [H3 H4]. split; [exact H3|]. by etransitivity.
Qed.

(** A rename to a name no other rig of the workspace has. *)
Lemma names_renamed ws rigId n f t : (forall r, g_workspaceId (f r) = g_workspaceId r /\ g_name (f r) = n) ->
  NoDup (List.map (fun r => (g_workspaceId r, g_name r)) t) -> NoDup (List.map g_id t) ->
  (forall r, r ∈ t -> rigNamed ws n r = true -> g_id r = rigId) ->
  NoDup (List.map (fun r => (g_workspaceId r, g_name r)) (update_where (rigIs ws rigId) f t)).
Proof.
  intros Hf. induction t as [|r t IH]; [done|]. cbn [List.map update_where]. intros [Hn Hnd]%NoDup_cons [Hi Hids]%NoDup_cons Hfree.
  assert (Hnamed : forall r', g_workspaceId r' = ws -> g_name r' = n -> rigNamed ws n r' = true).
  { intros r' Hw Hnm. unfold rigNamed. rewrite bool_decide_eq_true_2 by done. rewrite andb_true_r. by apply String.eqb_eq. }
  apply NoDup_cons. split; [|apply IH; [done..|]; intros; apply Hfree; [by right|done]].
  intros (r' & E & (r0 & Hr0 & ->)%elem_of_update_where)%list_elem_of_fmap.
  assert (Hne : g_id r0 <> g_id r) by (intros E'; apply Hi; rewrite <- E'; by apply list_elem_of_fmap_2).
  destruct (rigIs ws rigId r) eqn:E1, (rigIs ws rigId r0) eqn:E2; unfold rigIs in E1, E2; injection E as Ew En.
  - nreflect. congruence.
  - nreflect. apply Hne. rewrite (proj1 (Hf r)) in Ew. rewrite (proj2 (Hf r)) in En. rewrite (Hfree r0); [done|by right|]. apply Hnamed; congruence.
  - nreflect. apply Hne. rewrite (proj1 (Hf r0)) in Ew. rewrite (proj2 (Hf r0)) in En. rewrite (Hfree r); [done|by left|]. apply Hnamed; congruence.
  - apply Hn. rewrite Ew, En. by apply (list_elem_of_fmap_2 (fun r => (g_workspaceId r, g_name r))).
Qed.

Lemma updateRig_keeps now ws rigId name description d r d' : rig_ok d -> updateRig now ws rigId name description d = Ok (r, d') -> rig_ok d' /\ later d d'.
Proof.
  intros Hok H. unfold updateRig in H. destruct (head _); [|done]. destruct (match name with Some _ => _ | None => _ end) eqn:Et; [done|]. injection H as _ <-.
  apply rigs_keep; [done|done|]. destruct name as [n|]; [|rewrite map_update_where by done; apply (ok_names _ Hok)].
  apply (names_renamed ws rigId n); [done|apply (ok_names _ Hok)|apply (ok_ids _ Hok)|]. intros r' Hr' Hn.
  destruct (Nat.eq_dec (g_id r') rigId); [done|]. exfalso. apply not_true_iff_false in Et. apply Et, existsb_exists.
  exists r'. split; [by apply list_elem_of_In|]. rewrite Hn. cbn. by apply negb_true_iff, Nat.eqb_neq.
Qed.

Lemma createRig_keeps now accountId ws name description createdBy initial d r d' : rig_ok d ->
  createRig now accountId ws name description createdBy initial d = Ok (r, d') -> rig_ok d' /\ later d d'.
Proof.
  intros Hok H. unfold createRig in H. destruct (existsb _ _) eqn:En; [done|]. injection H as <- <-.
  set (rig := Build_RigRow _ _ _ _ _ _ _ _). set (row := versionValues _ _ _ _ _ _ _ _ _).
  destruct Hok as [(I1 & I2 & I3) (F1 & F2 & F3) N V K H]. split; split; cbn [rigs versions changes fresh].
  - split_and!; [| |done]; rewrite List.map_app; apply NoDup_app; (split_and!; [done| |apply NoDup_singleton]).
    + intros x (r & -> & Hr)%list_elem_of_fmap Hx%list_elem_of_singleton. specialize (F1 r Hr). cbn in Hx. lia.
    + intros x (v & -> & Hv)%list_elem_of_fmap Hx%list_elem_of_singleton. specialize (F2 v Hv). cbn in Hx. lia.
  - split_and!; [intros r [Hr| ->%list_elem_of_singleton]%elem_of_app; [specialize (F1 r Hr)|cbn]; lia
      |intros v [Hv| ->%list_elem_of_singleton]%elem_of_app; [specialize (F2 v Hv)|cbn]; lia|intros k Hk; specialize (F3 k Hk); lia].
  - rewrite List.map_app. apply NoDup_app. split_and!; [done| |apply NoDup_singleton]. intros x (r & -> & Hr)%list_elem_of_fmap Hx%list_elem_of_singleton.
    injection Hx as Hw Hn. apply not_true_iff_false in En. apply En, existsb_exists. exists r. split; [by apply list_elem_of_In|].
    unfold rigNamed. rewrite Hw, Hn, String.eqb_refl. cbn. by apply bool_decide_eq_true.
  - intros v [Hv| ->%list_elem_of_singleton]%elem_of_app; [|exists rig; split_and!; [apply elem_of_app; right; by left|done..]].
    destruct (V v Hv) as (g & Hg & E). exists g. split; [apply elem_of_app; by left|done].
  - intros k Hk. destruct (K k Hk) as (g & Hg & E). exists g. split; [apply elem_of_app; by left|done].
  - intros g [Hg|Hg%list_elem_of_singleton]%elem_of_app.
    + unfold history, select_where in *. cbn [versions]. rewrite List.filter_app.
      specialize (F1 g Hg). assert (Hne : Nat.eqb (v_rigId row) (g_id g) = false) by (apply Nat.eqb_neq; cbn; lia).
      cbn [List.filter]. rewrite Hne, app_nil_r. by apply H.
    + subst g. unfold history, select_where. cbn [versions]. rewrite List.filter_app. rewrite (filter_none _ (versions d)).
      { assert (He : Nat.eqb (v_rigId row) (g_id rig) = true) by apply Nat.eqb_refl. cbn [List.filter app]. rewrite He. by split. }
      apply Forall_forall. intros v Hv. destruct (V v Hv) as (g & Hg & E & _). specialize (F1 g Hg). apply Nat.eqb_neq. cbn. lia.
  - lia.
  - intros r [Hr| ->%list_elem_of_singleton]%elem_of_app Hl; [by exists r|cbn in Hl; lia].
  - intros v [Hv| ->%list_elem_of_singleton]%elem_of_app Hl; [by exists v|cbn in Hl; lia].
  - intros k Hk _. by exists k.
  - intros v Hv _ _. exists v. split; [|done]. first [done|apply elem_of_app; by left].
Qed.

Lemma createRigChange_keeps now accountId ws rigId base payload by_ d k d' : rig_ok d ->
  createRigChange now accountId ws rigId base payload by_ d = Ok (k, d') -> rig_ok d' /\ later d d'.
Proof.
  intros Hok H. unfold createRigChange in H. destruct (existsb _ _) eqn:Eg; [|done]. injection H as <- <-. set (row := Build_ChangeRow _ _ _ _ _ _ _ _ _ _ _ _).
  destruct Hok as [(I1 & I2 & I3) (F1 & F2 & F3) N V K H]. split; split; cbn [rigs versions changes fresh].
  - split_and!; [done|done|]. rewrite List.map_app. apply NoDup_app. split_and!; [done| |apply NoDup_singleton].
    intros x (k & -> & Hk)%list_elem_of_fmap Hx%list_elem_of_singleton. specialize (F3 k Hk). cbn in Hx. lia.
  - split_and!; [intros r Hr; specialize (F1 r Hr); lia|intros v Hv; specialize (F2 v Hv); lia|].
    intros k [Hk| ->%list_elem_of_singleton]%elem_of_app; [specialize (F3 k Hk)|cbn]; lia.
  - done.
  - done.
  - intros k [Hk| ->%list_elem_of_singleton]%elem_of_app; [by apply K|]. apply existsb_exists in Eg as (g & Hg & E). nreflect.
    exists g. split; [by apply list_elem_of_In|done].
  - done.
  - lia.
  - intros r Hr _. by exists r.
  - intros v Hv _. by exists v.
  - intros k [Hk| ->%list_elem_of_singleton]%elem_of_app Hl; [by exists k|cbn in Hl; lia].  - intros v Hv _ _. by exists v.
Qed.

Lemma updateRigChangeStatus_keeps now ws changeId status verification result d k d' : rig_ok d ->
  updateRigChangeStatus now ws changeId status verification result d = Ok (k, d') -> rig_ok d' /\ later d d'.
Proof.
  intros Hok H. unfold updateRigChangeStatus in H. destruct (changeRow ws changeId d) as [c|] eqn:Ec; [|done]. destruct (terminal _) eqn:Et; [done|].
  apply (setChange_keeps _ _ _ _ _ _ Hok) in H; [done|]. intros k' Hk' He. pose proof (changeRow_unique _ _ _ _ _ Hok Ec Hk' He) as ->.
  split; [done|]. intros Hm. by rewrite Hm in Et.
Qed.

Lemma beginRigChangeVerificationAttempt_keeps now ws changeId startedAt allow d k d' : rig_ok d ->
  beginRigChangeVerificationAttempt now ws changeId startedAt allow d = Ok (k, d') -> rig_ok d' /\ later d d'.
Proof.
  intros Hok H. unfold beginRigChangeVerificationAttempt in H. destruct (changeRow ws changeId d) as [c|] eqn:Ec; [|done].
  assert (Hset : forall v, k_status c <> merged -> setChange ws changeId (fun r => r <| k_status := verifying |> <| k_verification := Some v |> <| k_updatedAt := now |>) d = Ok (k, d') ->
    rig_ok d' /\ later d d').
  { intros v Hne Hs. apply (setChange_keeps _ _ _ _ _ _ Hok) in Hs; [done|]. intros k' Hk' He. by pose proof (changeRow_unique _ _ _ _ _ Hok Ec Hk' He) as ->. }
  destruct (k_status c) eqn:Es; try (eapply Hset; [|exact H]; congruence); [|done]. destruct allow; [|done]. injection H as _ <-. split; [done|reflexivity].
Qed.

(** A promotion mints a version of its input, on top of the active one the change
    was based on, and merges the change. *)
Lemma promotion_spec now ws rigId changeId input expected d v k d' : rig_ok d ->
  createRigVersionForChangePromotion now ws rigId changeId input expected d = Ok ((v, k), d') ->
  exists g c, rigRow ws rigId d = Some g /\ changeRow ws changeId d = Some c /\ k_rigId c = rigId /\ terminal (k_status c) = false /\
    k_baseVersionId c = Some expected /\ v_id <$> activeVersion ws rigId d = Some expected /\
    v = versionValues now (fresh d) (g_accountId g) ws rigId (nextVersion ws rigId d) input (ci_createdBy input) true /\
    k = c <| k_status := merged |> <| k_resultVersionId := Some (v_id v) |> <| k_updatedAt := now |> /\
    d' = touchRig now ws rigId ((minted ws rigId true v d) <| changes ::= update_where (changeIs ws changeId)
           (fun r => r <| k_status := merged |> <| k_resultVersionId := Some (v_id v) |> <| k_updatedAt := now |>) |>).
Proof.
  intros Hok H. unfold createRigVersionForChangePromotion in H. destruct (rigRow ws rigId d) as [g|] eqn:Eg; [|done].
  destruct (head (select_where _ (changes d))) as [c|] eqn:Ec; [|done]. destruct (terminal (k_status c)) eqn:Et; [done|].
  destruct (bool_decide (k_baseVersionId c = _)) eqn:Eb; [|done]. destruct (bool_decide (v_id <$> _ = _)) eqn:Ea; [|done]. cbn [negb] in H.
  destruct (setChange _ _ _ _) as [[k0 d0]|] eqn:Es; [|done]. injection H as <- <- <-. breflect.
  apply head_select in Ec as [Hc Hin]. unfold changeOf in Hc. nreflect.
  assert (Hrow : changeRow ws changeId d = Some c).
  { unfold changeRow. assert (Hci : changeIs ws changeId c = true) by (unfold changeIs; apply andb_true_iff; split; [by apply String.eqb_eq|by apply Nat.eqb_eq]).
    destruct (select_where (changeIs ws changeId) (changes d)) as [|c' t] eqn:Et'.
    - assert (Hx : c ∈ select_where (changeIs ws changeId) (changes d)) by by apply elem_of_select_where. rewrite Et' in Hx. by apply elem_of_nil in Hx.
    - cbn. f_equal. assert (Hc' : c' ∈ select_where (changeIs ws changeId) (changes d)) by (rewrite Et'; by left).
      apply elem_of_select_where in Hc' as [E' Hin']. unfold changeIs in E'. nreflect. by apply (select_unique k_id changeId (changes d)); [apply (ok_ids _ Hok)|..]. }
  exists g, c. split_and!; try done.
  - unfold setChange in Es. destruct (head _) as [k1|] eqn:Eh; [|done]. injection Es as <- _. unfold updated_rows in Eh.
    change (changes (minted ws rigId true _ d)) with (changes d) in Eh. change (List.filter (changeIs ws changeId) (changes d)) with (select_where (changeIs ws changeId) (changes d)) in Eh.
    unfold changeRow in Hrow. destruct (select_where _ _) as [|c' t]; [done|]. injection Hrow as ->. by injection Eh as <-.
  - unfold setChange in Es. destruct (head _) as [k1|] eqn:Eh; [|done]. by injection Es as _ <-.
Qed.

Lemma promotion_keeps now ws rigId changeId input expected d r d' : rig_ok d ->
  createRigVersionForChangePromotion now ws rigId changeId input expected d = Ok (r, d') -> rig_ok d' /\ later d d'.
Proof.
  intros Hok H. destruct r as [v k]. destruct (promotion_spec _ _ _ _ _ _ _ _ _ _ Hok H) as (g & c & Hg & Hc & _ & Ht & _ & _ & Hv & _ & ->).
  assert (Hkeep : rig_ok (minted ws rigId true v d) /\ later d (minted ws rigId true v d)) by (subst v; by apply (mint_keeps d ws rigId g)).
  destruct Hkeep as [H1 H2]. destruct (changes_keep (minted ws rigId true v d) (changeIs ws changeId)
    (fun r => r <| k_status := merged |> <| k_resultVersionId := Some (v_id v) |> <| k_updatedAt := now |>)) as [H3 H4]; [exact H1| |].
  { intros k' Hk' He. change (changes (minted ws rigId true v d)) with (changes d) in Hk'. pose proof (changeRow_unique _ _ _ _ _ Hok Hc Hk' He) as ->.
    split; [|intros Hm; by rewrite Hm in Ht]. reflexivity. }
  destruct (touch_keeps now ws rigId _ H3) as [H5 H6]. split; [exact H5|]. transitivity (minted ws rigId true v d); [done|]. etransitivity; [exact H4|exact H6].
Qed.

Lemma activateRigVersion_keeps now ws rigId versionId d v d' : rig_ok d -> activateRigVersion now ws rigId versionId d = Ok (v, d') -> rig_ok d' /\ later d d'.
Proof.
  intros Hok H. unfold activateRigVersion in H. destruct (rigRow ws rigId d) as [g|] eqn:Eg; [|done].
  destruct (head (select_where (versionIs ws rigId versionId) (versions d))) as [t|] eqn:Et; [|done].
  destruct (head (updated_rows _ _ _)) as [r|]; [|done]. injection H as _ <-. apply head_select in Et as [Hti Htin].
  set (set := fun v : VersionRow => v <| v_active := true |>). set (d1 := (deactivate ws rigId d) <| versions ::= update_where (versionIs ws rigId versionId) set |>).
  pose proof (rigRow_some _ _ _ _ Eg) as (Hgin & Hgid & Hgws).
  set (sel := fun v : VersionRow => if versionOf ws rigId v then v <| v_active := Nat.eqb (v_id v) versionId |> else v).
  assert (Ev : versions d1 = List.map sel (versions d)).
  { change (update_where (versionIs ws rigId versionId) set (versions (deactivate ws rigId d)) = List.map sel (versions d)). rewrite deactivate_map.
    unfold update_where. rewrite List.map_map. apply map_ext. intros v0. unfold sel, versionIs. destruct (versionOf ws rigId v0) eqn:E.
    - change (versionOf ws rigId (frozen v0)) with (versionOf ws rigId v0). rewrite E. change (v_id (frozen v0)) with (v_id v0). cbn [andb]. by destruct (Nat.eqb _ _).
    - by rewrite E. }
  assert (Hsel : forall v0, frozen (sel v0) = frozen v0) by (intros v0; unfold sel; by destruct (versionOf ws rigId v0)).
  assert (Hin : forall v', v' ∈ versions d1 -> exists v0, v0 ∈ versions d /\ frozen v0 = frozen v').
  { rewrite Ev. intros v' (v0 & -> & Hv0)%list_elem_of_fmap. exists v0. by rewrite Hsel. }
  assert (Hd1 : rig_ok d1 /\ later d d1).
  { destruct Hok as [(I1 & I2 & I3) (F1 & F2 & F3) N V K Hh]. assert (Hok : rig_ok d) by by split. split; split.
    - split_and!; [done| |done]. rewrite Ev, List.map_map, (map_ext _ v_id); [done|]. intros v0. exact (f_equal v_id (Hsel v0)).
    - split_and!; [done| |done]. intros v' Hv'. destruct (Hin v' Hv') as (v0 & Hv0 & E). rewrite <- (frozen_id _ _ E). by apply F2.
    - done.
    - intros v' Hv'. destruct (Hin v' Hv') as (v0 & Hv0 & E). destruct (V v0 Hv0) as (g0 & ? & ? & ?). exists g0.
      split_and!; [done|transitivity (v_rigId v0); [done|exact (f_equal v_rigId E)]|transitivity (v_workspaceId v0); [done|exact (f_equal v_workspaceId E)]].
    - done.
    - intros g0 Hg0. destruct (Hh g0 Hg0) as [Hn Ha]. assert (Eh : history (g_id g0) d1 = List.map sel (history (g_id g0) d)).
      { unfold history. rewrite Ev, select_map. f_equal. apply filter_ext. intros v0. f_equal. exact (f_equal v_rigId (Hsel v0)). }
      rewrite Eh. split; [apply numbered_map; [|done]; intros v0; exact (f_equal v_version (Hsel v0))|]. unfold oneActive in *.
      destruct (Nat.eqb_spec (g_id g0) rigId) as [E|E].
      + assert (Ht : t ∈ history (g_id g0) d).
        { apply elem_of_select_where. split; [|done]. unfold versionIs, versionOf in Hti. nreflect. apply Nat.eqb_eq. congruence. }
        change (length (select_where v_active (List.map sel (history (g_id g0) d))) = 1%nat). rewrite select_map, length_map.
        unfold select_where. rewrite (filter_ext_in _ (fun v0 => Nat.eqb (v_id v0) versionId)).
        * apply (select_key_one v_id versionId _ t); [by apply NoDup_map_filter|done|unfold versionIs in Hti; nreflect; by apply Nat.eqb_eq|intros v0 _ E0; by nreflect].
        * intros v0 Hv0%list_elem_of_In. apply elem_of_select_where in Hv0 as [Er Hv0]. unfold sel. rewrite (versionOf_in d ws rigId g) by done.
          rewrite <- E, Er. done.
      + rewrite (map_ext_in _ id), List.map_id; [done|]. intros v0 Hv0%list_elem_of_In. apply elem_of_select_where in Hv0 as [Er Hv0]. unfold sel.
        rewrite (versionOf_in d ws rigId g) by done. nreflect. rewrite Er. by apply Nat.eqb_neq in E as ->.
    - done.
    - intros r0 Hr0 _. by exists r0.
    - intros v' Hv' _. by apply Hin.
    - intros k Hk _. by exists k.
    - intros v0 Hv0 _ _. exists (sel v0). split; [|done]. rewrite Ev. by apply (list_elem_of_fmap_2 sel). }
  destruct Hd1 as [H1 H2]. destruct (touch_keeps now ws rigId d1 H1) as [H3 H4]. split; [exact H3|]. etransitivity; [exact H2|exact H4].
Qed.

Lemma dropRig_keeps ws rigId d : rig_ok d -> rig_ok (dropRig ws rigId d) /\ later d (dropRig ws rigId d) \/ rigRow ws rigId d = None.
Proof.
  intros Hok. destruct (rigRow ws rigId d) as [g|] eqn:Eg; [left|by right]. pose proof (rigRow_some _ _ _ _ Eg) as (Hgin & Hgid & Hgws).
  destruct Hok as [(I1 & I2 & I3) (F1 & F2 & F3) N V K H]. assert (Hok : rig_ok d) by by split.
  assert (Hd : forall {A} (p : A -> bool) t x, x ∈ delete_where p t <-> p x = false /\ x ∈ t).
  { intros A p t x. unfold delete_where. rewrite !list_elem_of_In, filter_In, negb_true_iff. tauto. }
  assert (Hkeep : forall g0, g0 ∈ rigs d -> g_id g0 <> rigId -> g0 ∈ rigs (dropRig ws rigId d)).
  { intros g0 Hg0 Hne. apply Hd. split; [|done]. unfold rigIs. apply andb_false_iff. right. by apply Nat.eqb_neq. }
  assert (Hgone : forall g0, rigIs ws rigId g0 = false -> g0 ∈ rigs d -> g_id g0 <> rigId).
  { intros g0 Eg0 Hg0 E. assert (g0 = g) as -> by (apply (same_rig d); [done..|congruence]). unfold rigIs in Eg0.
    by rewrite Hgws, Hgid, String.eqb_refl, Nat.eqb_refl in Eg0. }
  split; split; unfold dropRig; cbn [rigs versions changes fresh setWith]; cbn [rigs versions changes fresh].
  - split_and!; by apply NoDup_map_filter.
  - split_and!; intros x [_ Hx]%Hd; auto.
  - by apply NoDup_map_filter.
  - intros v [Ev Hv]%Hd. destruct (V v Hv) as (g0 & Hg0 & E1 & E2). exists g0. split; [|done]. apply Hkeep; [done|]. nreflect. congruence.
  - intros k [Ek Hk]%Hd. destruct (K k Hk) as (g0 & Hg0 & E). exists g0. split; [|done]. apply Hkeep; [done|]. nreflect. congruence.
  - intros g0 [Eg0 Hg0]%Hd. pose proof (Hgone g0 Eg0 Hg0) as Hne.
    assert (Eh : history (g_id g0) (dropRig ws rigId d) = history (g_id g0) d); [|change (numbered (history (g_id g0) (dropRig ws rigId d)) /\ oneActive (history (g_id g0) (dropRig ws rigId d))); rewrite Eh; by apply H].
    change (history (g_id g0) (dropRig ws rigId d)) with (List.filter (fun v => Nat.eqb (v_rigId v) (g_id g0)) (List.filter (fun v => negb (Nat.eqb (v_rigId v) rigId)) (versions d))).
    apply filter_filter. intros v E. nreflect. rewrite E. by apply negb_true_iff, Nat.eqb_neq.
  - done.
  - intros r [_ Hr]%Hd _. by exists r.
  - intros v [_ Hv]%Hd _. by exists v.
  - intros k [_ Hk]%Hd _. by exists k.  - intros v Hv _ (g0 & [Eg0 Hg0]%Hd & E). exists v. split; [|done]. apply Hd. split; [|done]. apply Nat.eqb_neq. rewrite <- E. by apply Hgone.
Qed.

Lemma deleteRigIfNoActiveSessions_keeps ws rigId d : rig_ok d ->
  rig_ok (deleteRigIfNoActiveSessions ws rigId d).2 /\ later d (deleteRigIfNoActiveSessions ws rigId d).2.
Proof.
  intros Hok. unfold deleteRigIfNoActiveSessions, deleteRig. destruct (rigRow ws rigId d) eqn:E; [|by split]. destruct (0 <? _); [by split|].
  cbn. by destruct (dropRig_keeps ws rigId d Hok) as [H|H]; [|congruence].
Qed.
End Rigs.
