(* ===== verification/RigFlow.v ===== *)
(** * The rig workflows ([packages/core/src/rigs/index.ts], the routes of
    [apps/api/src/routes/rigs.ts] and [apps/worker/src/activities/rig-verification.ts])

    Handlers and the verification activity as programs over the transactions of
    [Rigs].  A handler works on the rig and the change it loaded; only the
    promotion compares them with the tables again. *)
From stdpp Require Import pretty.
From S2P Require Import Prelude Json Sql Schema PayloadSanitizer Activity Rigs.
#[local] Open Scope Z_scope.
#[local] Open Scope opengeni_scope.

Module RigFlow.
Import Activity Rigs.

Definition MAX_RIGS_PER_WORKSPACE : Z := 50.

#[export] Instance RigError_fallible : Fallible RigError := Unavailable.
(** What a handler starts. *)
Inductive Started := StartRigVerification (workspaceId : string) (target : nat) (workflowId : string).
Abbreviation Handler := (Program RigDb RigError Started).

Record AccessGrant := { gr_accountId : string; gr_workspaceId : string; gr_subjectId : string }.
Definition rigActorForGrant (grant : AccessGrant) : string := String.append "user:" (gr_subjectId grant).

Definition lift {A} (r : result RigError A) : Handler A := match r with Ok a => Ret a | Err e => Throw e end.
Definition refuse {A} (status : Z) (message : string) : Handler A := Throw (HttpError status message).

Definition recordRigAuditEvent (grant : AccessGrant) (action : string) (rigId : nat) (metadata : list (jstr * json)) : Handler unit :=
  write (fun now d => d <| audits ::= fun t => t ++ [{|
    a_accountId := gr_accountId grant; a_workspaceId := gr_workspaceId grant; a_subjectId := gr_subjectId grant; a_action := action;
    a_rigId := rigId; a_metadata := overlay metadata [(js "rigId", JStr (idText rigId))]; a_occurredAt := now |}] |>).

(** ** Validation *)

Definition trimmedRigName (name : jstr) : result RigError jstr :=
  match trim name with [] => Err (HttpError 422 "rig name is required") | trimmed => Ok trimmed end.

Fixpoint duplicate (seen : list jstr) (names : list jstr) : bool :=
  match names with [] => false | n :: names => bool_decide (n ∈ seen) || duplicate (n :: seen) names end.
Definition assertUniqueCheckNames (checks : option (list RigCheck)) : result RigError unit :=
  match checks with
  | Some checks => if duplicate [] (List.map ck_name checks) then Err (HttpError 422 "duplicate rig check name") else Ok tt
  | None => Ok tt
  end.

(** [[...new Set(ids)]] *)
Fixpoint distinct (seen : list string) (ids : list string) : list string :=
  match ids with [] => [] | id :: ids => if bool_decide (id ∈ seen) then distinct seen ids else id :: distinct (id :: seen) ids end.
Definition getVariableSet (ws id : string) (d : RigDb) : bool :=
  existsb (fun r => String.eqb (vs_workspaceId r) ws && String.eqb (vs_id r) id) (variableSets d).
Fixpoint assertEach (ws : string) (ids : list string) : Handler unit :=
  match ids with
  | [] => Ret tt
  | id :: ids =>
      let* found := read (getVariableSet ws id) in
      if (found : bool) then assertEach ws ids else refuse 422 "unknown defaultVariableSetId"
  end.
Definition assertVariableSetsExist (ws : string) (ids : option (list string)) : Handler unit := assertEach ws (distinct [] (default [] ids)).

(** ** The handlers *)

Section handlers.
Context (toISOString : Z -> jstr) (dateParse : jstr -> option Z).
#[local] Abbreviation getRig := (getRig toISOString dateParse).
#[local] Abbreviation getRigByName := (getRigByName toISOString dateParse).

Definition requireRigForApi (ws : string) (rigId : nat) : Handler Rig :=
  let* rig := read (getRig ws rigId) in
  match rig with Some rig => Ret rig | None => refuse 404 "rig not found" end.
Definition requireRigChangeForApi (ws : string) (rigId changeId : nat) : Handler ChangeRow :=
  let* change := read (getRigChange ws changeId) in
  match change with
  | Some change => if Nat.eqb (k_rigId change) rigId then Ret change else refuse 404 "rig change not found"
  | None => refuse 404 "rig change not found"
  end.

Record CreateRigRequest := {
  cr_name : jstr; cr_description : option jstr; cr_image : option jstr; cr_setupScript : option jstr; cr_checks : list RigCheck;
  cr_credentialHooks : list string; cr_defaultVariableSetIds : list string
}.
Definition createRigForApi (grant : AccessGrant) (payload : CreateRigRequest) : Handler Rig :=
  let ws := gr_workspaceId grant in
  let* name := lift (trimmedRigName (cr_name payload)) in
  lift (assertUniqueCheckNames (Some (cr_checks payload))) ;;
  assertVariableSetsExist ws (Some (cr_defaultVariableSetIds payload)) ;;
  let* count := read (countRigs ws) in
  if MAX_RIGS_PER_WORKSPACE <=? count then refuse 422 "a workspace supports at most 50 rigs"
  else
    let* existing := read (getRigByName ws name) in
    match existing with
    | Some _ => refuse 409 "rig name is already in use"
    | None =>
        let createdBy := rigActorForGrant grant in
        let* created := tx (fun now => createRig now (gr_accountId grant) ws name (cr_description payload) (Some createdBy)
          (Some {| ci_image := cr_image payload; ci_setupScript := cr_setupScript payload; ci_checks := Some (cr_checks payload);
                   ci_credentialHooks := Some (cr_credentialHooks payload); ci_defaultVariableSetIds := Some (cr_defaultVariableSetIds payload);
                   ci_changelog := Some (js "Initial version"); ci_createdBy := Some createdBy |})) in
        recordRigAuditEvent grant "rig.created" (g_id created.1) [] ;;
        Ret {| rig_row := created.1; rig_activeVersion := Some created.2;
               rig_activeVersionHealth := Some {| checkHealth := unknown; lastVerifiedAt := None |}; rig_versionCount := 1 |}
    end.

Definition updateRigForApi (grant : AccessGrant) (rig : Rig) (payloadName : option jstr) (description : option (option jstr)) : Handler Rig :=
  let ws := gr_workspaceId grant in
  let rigId := g_id (rig_row rig) in
  let* name := (match payloadName with Some n => bind (lift (trimmedRigName n)) (fun n => Ret (Some n)) | None => Ret None end) in
  (match name with
   | Some n =>
       if bool_decide (n = g_name (rig_row rig)) then Ret tt
       else
         let* existing := read (getRigByName ws n) in
         match existing with
         | Some e => if Nat.eqb (g_id (rig_row e)) rigId then Ret tt else refuse 409 "rig name is already in use"
         | None => Ret tt
         end
   | None => Ret tt
   end) ;;
  let* updated := tx (fun now d => match updateRig now ws rigId name description d with
                                   | Ok (row, d) => Ok (loadRig toISOString dateParse ws d row, d) | Err e => Err e end) in
  recordRigAuditEvent grant "rig.updated" rigId [] ;;
  Ret updated.

Definition deleteRigForApi (grant : AccessGrant) (rig : Rig) : Handler unit :=
  let rigId := g_id (rig_row rig) in
  let* deleted := tx (fun _ d => Ok (deleteRigIfNoActiveSessions (gr_workspaceId grant) rigId d)) in
  if 0 <? deleted.2 then refuse 409 "rig is referenced by active sessions; it cannot be deleted"
  else if negb deleted.1 then refuse 404 "rig not found"
  else recordRigAuditEvent grant "rig.deleted" rigId [].

Definition kindText (payload : RigChangePayload) : string := match payload with SetupAppend _ _ => "setup_append" | DefinitionEdit _ _ _ _ _ _ => "definition_edit" end.
Definition proposeRigChangeForApi (grant : AccessGrant) (rig : Rig) (request : RigChangePayload) (proposedBy : option string) : Handler ChangeRow :=
  let ws := gr_workspaceId grant in
  let rigId := g_id (rig_row rig) in
  match rig_activeVersion rig with
  | None => refuse 422 "rig has no active version to base a change on"
  | Some active =>
      (match request with
       | DefinitionEdit _ _ checks _ ids _ => lift (assertUniqueCheckNames checks) ;; assertVariableSetsExist ws ids
       | SetupAppend _ _ => Ret tt
       end) ;;
      let* change := tx (fun now => createRigChange now (gr_accountId grant) ws rigId (Some (v_id active)) request
                                      (Some (default (rigActorForGrant grant) proposedBy))) in
      recordRigAuditEvent grant "rig.change.proposed" rigId
        [(js "changeId", JStr (idText (k_id change))); (js "kind", JStr (js (kindText request)))] ;;
      Ret change
  end.

(** ** Promotion *)

Definition promoteChangeWithActiveCas (ws : string) (rigId changeId expected : nat) (input : RigVersionContentInput) : Handler (VersionRow * ChangeRow) :=
  catch (tx (fun now => createRigVersionForChangePromotion now ws rigId changeId input expected))
    (fun e => match e with
              | RigActiveVersionChangedError _ _ _ => refuse 409 "rig moved since this change was verified; re-verify before promoting"
              | RigChangeTransitionError _ _ _ => refuse 409 "rig change is terminal"
              | e => Throw e
              end).

Definition trimEnd (s : jstr) : jstr := rev (trimStart (rev s)).
Definition newline : jstr := [10].
Definition appendRigSetupCommand (baseSetupScript : option jstr) (command : jstr) : jstr :=
  match trimEnd (default [] baseSetupScript) with [] => command | base => base ++ newline ++ command end.

(** [typeof text === "string" && text.trim() ? text : fallback] *)
Definition textOr (fallback : string) (text : option jstr) : jstr :=
  match text with Some t => match trim t with [] => js fallback | _ => t end | None => js fallback end.

Definition promotedContent (base : VersionRow) (payload : RigChangePayload) (createdBy : option string) : RigVersionContentInput :=
  match payload with
  | SetupAppend command note => {|
      ci_image := v_image base; ci_setupScript := Some (appendRigSetupCommand (v_setupScript base) command); ci_checks := Some (v_checks base);
      ci_credentialHooks := Some (v_credentialHooks base); ci_defaultVariableSetIds := Some (v_defaultVariableSetIds base);
      ci_changelog := Some (textOr "Verified setup append" note); ci_createdBy := createdBy |}
  | DefinitionEdit image setupScript checks hooks ids changelog => {|
      ci_image := default (v_image base) image; ci_setupScript := default (v_setupScript base) setupScript;
      ci_checks := Some (default (v_checks base) checks); ci_credentialHooks := Some (default (v_credentialHooks base) hooks);
      ci_defaultVariableSetIds := Some (default (v_defaultVariableSetIds base) ids);
      ci_changelog := Some (textOr "Verified definition edit" (default None changelog)); ci_createdBy := createdBy |}
  end.

Definition versionMetadata (change : option nat) (version : VersionRow) : list (jstr * json) :=
  (match change with Some id => [(js "changeId", JStr (idText id))] | None => [] end) ++
  [(js "versionId", JStr (idText (v_id version))); (js "version", JNum (v_version version))].

(** The base, the compare-and-swap and the audit of both promotions. *)
Definition promoteFromBase (grant : AccessGrant) (rig : Rig) (change : ChangeRow) (createdBy : option string) : Handler (ChangeRow * VersionRow) :=
  let ws := gr_workspaceId grant in
  let rigId := g_id (rig_row rig) in
  match k_baseVersionId change with
  | None => refuse 422 "rig change has no base version"
  | Some baseId =>
      let* base := read (getRigVersion ws rigId baseId) in
      match base with
      | None => refuse 404 "base rig version not found"
      | Some base =>
          if match k_payload change with SetupAppend command _ => bool_decide (trim command = []) | _ => false end
          then refuse 422 "setup_append change is missing command"
          else
            let* p := promoteChangeWithActiveCas ws rigId (k_id change) baseId (promotedContent base (k_payload change) createdBy) in
            recordRigAuditEvent grant "rig.change.merged" rigId (versionMetadata (Some (k_id change)) p.1) ;;
            recordRigAuditEvent grant "rig.version.promoted" rigId (versionMetadata (Some (k_id change)) p.1) ;;
            Ret (p.2, p.1)
      end
  end.

Definition promoteSetupAppendChange (grant : AccessGrant) (rig : Rig) (change : ChangeRow) : Handler (ChangeRow * VersionRow) :=
  match k_payload change with
  | DefinitionEdit _ _ _ _ _ _ => refuse 422 "only setup_append changes auto-promote through this path"
  | SetupAppend _ _ =>
      match k_status change with
      | proposed | verifying =>
          promoteFromBase grant rig change (match k_proposedBy change with Some by_ => Some by_ | None => Some (rigActorForGrant grant) end)
      | _ => refuse 409 "cannot promote"
      end
  end.

Definition promoteVerifiedDefinitionEditChangeForApi (grant : AccessGrant) (rig : Rig) (change : ChangeRow) : Handler (ChangeRow * VersionRow) :=
  match k_payload change with
  | SetupAppend _ _ => refuse 422 "only definition_edit changes use explicit promote"
  | DefinitionEdit _ _ _ _ _ _ =>
      match k_status change with
      | proposed =>
          if negb (bool_decide (asBool (k_verification change ≫= assoc (js "passed")) = Some true))
          then refuse 422 "definition_edit change must pass verification before promote"
          else promoteFromBase grant rig change (Some (rigActorForGrant grant))
      | _ => refuse 409 "cannot promote"
      end
  end.

Definition createRigVersionForApi (grant : AccessGrant) (rig : Rig) (payload : RigChangePayload) : Handler VersionRow :=
  let ws := gr_workspaceId grant in
  let rigId := g_id (rig_row rig) in
  match rig_activeVersion rig, payload with
  | Some base, DefinitionEdit image setupScript checks hooks ids changelog =>
      lift (assertUniqueCheckNames checks) ;;
      assertVariableSetsExist ws ids ;;
      let* version := tx (fun now => createRigVersion now ws rigId {|
        ci_image := default (v_image base) image; ci_setupScript := default (v_setupScript base) setupScript;
        ci_checks := Some (default (v_checks base) checks); ci_credentialHooks := Some (default (v_credentialHooks base) hooks);
        ci_defaultVariableSetIds := Some (default (v_defaultVariableSetIds base) ids);
        ci_changelog := Some (default (js "Manager-created version") (default None changelog)); ci_createdBy := Some (rigActorForGrant grant) |} true) in
      recordRigAuditEvent grant "rig.version.promoted" rigId (versionMetadata None version ++ [(js "direct", JBool true)]) ;;
      Ret version
  | _, _ => refuse 422 "rig has no active version"
  end.

Definition activateRigVersionForApi (grant : AccessGrant) (rig : Rig) (versionId : nat) : Handler VersionRow :=
  let rigId := g_id (rig_row rig) in
  let* version := tx (fun now => activateRigVersion now (gr_workspaceId grant) rigId versionId) in
  recordRigAuditEvent grant "rig.version.activated" rigId (versionMetadata None version) ;;
  Ret version.

(** ** Routes *)

(** [temporal workflowId]: the workflow service takes the start.  [startedAt] is
    the clock of the request. *)
Context (temporal : string -> bool).

Definition startRigVerification (ws : string) (target : nat) (workflowId : string) : Handler unit :=
  if temporal workflowId then Emit (StartRigVerification ws target workflowId) (Ret tt) else Throw Unavailable.

Definition changeWorkflowId (changeId : nat) (attempt : Z) : string :=
  String.append "rig-verification-change-" (String.append (pretty changeId) (String.append "-attempt-" (pretty attempt))).
Definition startChangeVerification (ws : string) (changeId : nat) (startedAt : jstr) : Handler ChangeRow :=
  let* change := catch (tx (fun now => beginRigChangeVerificationAttempt now ws changeId startedAt false))
    (fun e => match e with
              | RigChangeAlreadyVerifyingError _ => refuse 409 "already verifying"
              | RigChangeTransitionError _ _ _ => refuse 409 "rig change is terminal"
              | e => Throw e
              end) in
  startRigVerification ws changeId (changeWorkflowId changeId (attemptOf (default [] (k_verification change)))) ;;
  Ret change.

Definition postChange (grant : AccessGrant) (rigId : nat) (request : RigChangePayload) (proposedBy : option string) (startedAt : jstr) : Handler ChangeRow :=
  let* rig := requireRigForApi (gr_workspaceId grant) rigId in
  let* change := proposeRigChangeForApi grant rig request proposedBy in
  startChangeVerification (gr_workspaceId grant) (k_id change) startedAt.
Definition postVerifyChange (grant : AccessGrant) (rigId changeId : nat) (startedAt : jstr) : Handler ChangeRow :=
  let* change := requireRigChangeForApi (gr_workspaceId grant) rigId changeId in
  startChangeVerification (gr_workspaceId grant) (k_id change) startedAt.
Definition postPromote (grant : AccessGrant) (rigId changeId : nat) : Handler (ChangeRow * VersionRow) :=
  let* rig := requireRigForApi (gr_workspaceId grant) rigId in
  let* change := requireRigChangeForApi (gr_workspaceId grant) (g_id (rig_row rig)) changeId in
  promoteVerifiedDefinitionEditChangeForApi grant rig change.
Definition patchRig (grant : AccessGrant) (rigId : nat) (name : option jstr) (description : option (option jstr)) : Handler Rig :=
  let* rig := requireRigForApi (gr_workspaceId grant) rigId in updateRigForApi grant rig name description.
Definition removeRig (grant : AccessGrant) (rigId : nat) : Handler unit :=
  let* rig := requireRigForApi (gr_workspaceId grant) rigId in deleteRigForApi grant rig.
Definition postVersion (grant : AccessGrant) (rigId : nat) (payload : RigChangePayload) : Handler VersionRow :=
  let* rig := requireRigForApi (gr_workspaceId grant) rigId in createRigVersionForApi grant rig payload.
Definition postActivate (grant : AccessGrant) (rigId versionId : nat) : Handler VersionRow :=
  let* rig := requireRigForApi (gr_workspaceId grant) rigId in activateRigVersionForApi grant rig versionId.
Definition postVerifyRig (grant : AccessGrant) (rigId : nat) (uuid : string) : Handler nat :=
  let* rig := requireRigForApi (gr_workspaceId grant) rigId in
  match rig_activeVersion rig with
  | None => refuse 422 "rig has no active version"
  | Some v =>
      startRigVerification (gr_workspaceId grant) (v_id v)
        (String.append "rig-verification-version-" (String.append (pretty (v_id v)) (String.append "-" uuid))) ;;
      Ret (v_id v)
  end.

(** ** The verification activity *)

Record CommandResult := { exitCode : option Z; output : jstr }.
(** The throw-away sandbox: establishing it with an image and running the setup
    hook fail with a message or not; the n-th command of the run answers or
    throws. *)
Record Sandbox := {
  establish : option jstr -> option jstr;
  setupHook : jstr -> option jstr;
  command : nat -> jstr -> jstr + CommandResult
}.

Definition OUTPUT_TAIL_LIMIT : Z := 64 * 1024.
Definition tail (value : jstr) (most : Z) : jstr :=
  if most <? Z.of_nat (length value) then drop (length value - Z.to_nat most) value else value.

(** [sanitizeMemoryText] of packages/db/src/memory-domain.ts. *)
Context (sanitizeMemoryText : jstr -> jstr).
Definition scrubVerificationOutput (value : jstr) : jstr := sanitizeMemoryText (PayloadSanitizer.sanitizeEventString value).
Definition scrubVerificationPayload (value : list (jstr * json)) : list (jstr * json) :=
  match PayloadSanitizer.sanitizeEventPayload (JObj value) with JObj fs => fs | _ => [] end.

Definition runCommand (box : Sandbox) (i : nat) (cmd : jstr) : jstr + CommandResult :=
  match command box i cmd with
  | inl e => inl e
  | inr r => inr {| exitCode := exitCode r; output := scrubVerificationOutput (tail (output r) OUTPUT_TAIL_LIMIT) |}
  end.

Definition setupAppendCommand (change : ChangeRow) : option jstr := match k_payload change with SetupAppend c _ => Some c | _ => None end.
Definition candidateVersionForChange (base : VersionRow) (change : ChangeRow) : VersionRow :=
  match k_payload change with
  | SetupAppend _ _ => base
  | DefinitionEdit image setupScript checks hooks ids changelog => base
      <| v_image := default (v_image base) image |>
      <| v_setupScript := default (v_setupScript base) setupScript |>
      <| v_checks := default (v_checks base) checks |>
      <| v_credentialHooks := default (v_credentialHooks base) hooks |>
      <| v_defaultVariableSetIds := default (v_defaultVariableSetIds base) ids |>
      <| v_changelog := match default None changelog with Some c => Some c | None => v_changelog base end |>
  end.

Definition resultFields (r : CommandResult) : list (jstr * json) :=
  [(js "exitCode", match exitCode r with Some n => JNum n | None => JNull end); (js "output", JStr (output r))].
Definition checkResult (check : RigCheck) (r : CommandResult) : json :=
  JObj ((js "name", JStr (ck_name check)) :: (js "command", JStr (scrubVerificationOutput (ck_command check))) :: resultFields r).
Definition succeeded (r : CommandResult) : bool := bool_decide (exitCode r = Some 0).

(** The checks in order: their results, or what the first one that throws says. *)
Fixpoint runChecks (box : Sandbox) (i : nat) (checks : list RigCheck) : jstr + list (RigCheck * CommandResult) :=
  match checks with
  | [] => inr []
  | check :: checks =>
      match runCommand box i (ck_command check) with
      | inl e => inl e
      | inr r => match runChecks box (S i) checks with inl e => inl e | inr rs => inr ((check, r) :: rs) end
      end
  end.

(** The sandbox part of a verification: what it has written into the
    [verification] object by the time it ends, and how it ended. *)
Inductive RunOutcome := Threw (message : jstr) | CommandFailed | Checked (passed : bool).
Definition verificationRun (box : Sandbox) (startedAt : jstr) (candidate : VersionRow) (cmd : option jstr) : list (jstr * json) * RunOutcome :=
  let v := [(js "startedAt", JStr startedAt); (js "checkResults", JArr [])] in
  match establish box (v_image candidate) with
  | Some e => (v, Threw e)
  | None =>
      let script := default [] (v_setupScript candidate) in
      let hasSetup := negb (bool_decide (trim script = [])) in
      match (if hasSetup then setupHook box script else None) with
      | Some e => (v, Threw e)
      | None =>
          let v := if hasSetup then set_field (js "setupResult") (JObj (resultFields {| exitCode := Some 0; output := [] |})) v else v in
          let '(v, stop) :=
            match cmd with
            | None | Some [] => (v, None)
            | Some c =>
                match runCommand box 0 c with
                | inl e => (v, Some (Threw e))
                | inr r => (set_field (js "commandResult") (JObj (resultFields r)) v, if succeeded r then None else Some CommandFailed)
                end
            end in
          match stop with
          | Some outcome => (v, outcome)
          | None =>
              match runChecks box 1 (v_checks candidate) with
              | inl e => (v, Threw e)
              | inr rs => (set_field (js "checkResults") (JArr (List.map (fun p => checkResult p.1 p.2) rs)) v,
                           Checked (forallb (fun p => succeeded p.2) rs))
              end
          end
      end
  end.

Inductive Verdict := auto_promote | await_manage_promote | reject | retryable_failure.
Definition classifyRigVerificationOutcome (payload : RigChangePayload) (passed infraError : bool) : Verdict :=
  if infraError then retryable_failure
  else if negb passed then reject
  else match payload with SetupAppend _ _ => auto_promote | DefinitionEdit _ _ _ _ _ _ => await_manage_promote end.
Definition verdictStatus (v : Verdict) : RigChangeStatus :=
  match v with auto_promote => merged | await_manage_promote => proposed | reject => rejected | retryable_failure => failed end.

Definition loadChangeTarget (ws : string) (changeId : nat) : Handler (Rig * VersionRow * ChangeRow) :=
  let* change := read (getRigChange ws changeId) in
  match change with
  | None => Throw (RigChangeNotFound changeId)
  | Some change =>
      let* rig := read (getRig ws (k_rigId change)) in
      match rig, k_baseVersionId change with
      | None, _ => Throw (RigNotFound (k_rigId change))
      | Some _, None => Throw (RigVersionNotFound 0)
      | Some rig, Some baseId =>
          let* base := read (getRigVersionById ws baseId) in
          match base with
          | Some base => if Nat.eqb (v_rigId base) (g_id (rig_row rig)) then Ret (rig, base, change) else Throw (RigVersionNotFound baseId)
          | None => Throw (RigVersionNotFound baseId)
          end
      end
  end.

Definition systemGrant (rig : Rig) : AccessGrant := {|
  gr_accountId := g_accountId (rig_row rig); gr_workspaceId := g_workspaceId (rig_row rig); gr_subjectId := "system:rig-verification" |}.

(** [error.message] *)
Context (messageOf : RigError -> jstr).

Definition finished (finishedAt : jstr) (passed : bool) (v : list (jstr * json)) : list (jstr * json) :=
  set_field (js "passed") (JBool passed) (set_field (js "finishedAt") (JStr finishedAt) v).

(** Two audit events of one outcome. *)
Definition auditTwo (grant : AccessGrant) (rigId changeId : nat) (first second : string) (status : string) : Handler unit :=
  recordRigAuditEvent grant first rigId [(js "changeId", JStr (idText changeId)); (js "status", JStr (js status))] ;;
  recordRigAuditEvent grant second rigId [(js "changeId", JStr (idText changeId))].

Definition settleVerification (ws : string) (rig : Rig) (change : ChangeRow) (v : list (jstr * json)) (outcome : RunOutcome) (finishedAt : jstr)
  : Handler ChangeRow :=
  let grant := systemGrant rig in
  let rigId := g_id (rig_row rig) in
  let update status v := tx (fun now => updateRigChangeStatus now ws (k_id change) status (Some (scrubVerificationPayload v)) None) in
  match outcome with
  | Threw e => Throw (SandboxError e)
  | CommandFailed =>
      let* updated := update rejected (finished finishedAt false v) in
      auditTwo grant rigId (k_id change) "rig.verification.failed" "rig.change.rejected" "rejected" ;;
      Ret updated
  | Checked passed =>
      let v := finished finishedAt passed v in
      match classifyRigVerificationOutcome (k_payload change) passed false with
      | auto_promote =>
          update verifying v ;;
          let* p := promoteSetupAppendChange grant rig (change <| k_verification := Some v |>) in
          recordRigAuditEvent grant "rig.verification.passed" rigId [(js "changeId", JStr (idText (k_id change)))] ;;
          Ret p.1
      | verdict =>
          let* updated := update (verdictStatus verdict) v in
          (if passed then recordRigAuditEvent grant "rig.verification.passed" rigId
                            [(js "changeId", JStr (idText (k_id change))); (js "status", JStr (js "proposed"))]
           else auditTwo grant rigId (k_id change) "rig.verification.failed" "rig.change.rejected" "rejected") ;;
          Ret updated
      end
  end.

(** [catch (error)]: the change fails, with what the run had written. *)
Definition failVerification (ws : string) (rig : Rig) (change : ChangeRow) (v : list (jstr * json)) (finishedAt : jstr) (e : RigError) : Handler ChangeRow :=
  let v := set_field (js "error") (JStr (scrubVerificationOutput (messageOf e))) (finished finishedAt false v) in
  let* updated := tx (fun now => updateRigChangeStatus now ws (k_id change) failed (Some (scrubVerificationPayload v)) None) in
  auditTwo (systemGrant rig) (g_id (rig_row rig)) (k_id change) "rig.verification.failed" "rig.change.failed" "failed" ;;
  Ret updated.

Definition verifyRigChange (box : Sandbox) (startedAt finishedAt : jstr) (ws : string) (changeId : nat) : Handler ChangeRow :=
  let* t := loadChangeTarget ws changeId in
  let '(rig, base, change) := t in
  tx (fun now => beginRigChangeVerificationAttempt now ws (k_id change) startedAt true) ;;
  recordRigAuditEvent (systemGrant rig) "rig.verification.started" (g_id (rig_row rig)) [(js "changeId", JStr (idText (k_id change)))] ;;
  let '(v, outcome) := verificationRun box startedAt (candidateVersionForChange base change) (setupAppendCommand change) in
  catch (settleVerification ws rig change v outcome finishedAt) (failVerification ws rig change v finishedAt).

Definition verifyRigVersion (box : Sandbox) (startedAt finishedAt : jstr) (ws : string) (versionId : nat) : Handler bool :=
  let* version := read (getRigVersionById ws versionId) in
  match version with
  | None => Throw (RigVersionNotFound versionId)
  | Some version =>
      let* rig := read (getRig ws (v_rigId version)) in
      match rig with
      | None => Throw (RigNotFound (v_rigId version))
      | Some rig =>
          let grant := systemGrant rig in
          let rigId := g_id (rig_row rig) in
          let id := [(js "versionId", JStr (idText (v_id version)))] in
          recordRigAuditEvent grant "rig.verification.started" rigId id ;;
          let '(v, outcome) := verificationRun box startedAt version None in
          let ended passed rest := scrubVerificationPayload (id ++ [(js "startedAt", JStr startedAt); (js "finishedAt", JStr finishedAt);
                                                              (js "passed", JBool passed)] ++ rest) in
          catch
            match outcome with
            | Checked passed =>
                recordRigAuditEvent grant (if passed then "rig.verification.passed" else "rig.verification.failed") rigId
                  (ended passed [(js "checkResults", default JNull (assoc (js "checkResults") v))]) ;;
                Ret passed
            | CommandFailed => Ret false (* only a change runs a command *)
            | Threw e => Throw (SandboxError e)
            end
            (fun e =>
              recordRigAuditEvent grant "rig.verification.failed" rigId
                (ended false [(js "error", JStr (tail (scrubVerificationOutput (messageOf e)) 4096))]) ;;
              Throw e)
      end
  end.

(** ** What merged changes are worth *)

(** The version of a merged change is the content the change promised, minted on
    the version it was based on, and it belongs to no other change. *)
Definition mintedFrom (v : VersionRow) (input : RigVersionContentInput) : Prop :=
  v = versionValues (v_createdAt v) (v_id v) (v_accountId v) (v_workspaceId v) (v_rigId v) (v_version v) input (ci_createdBy input) (v_active v).
Definition merge_ok (d : RigDb) (k : ChangeRow) : Prop :=
  exists base v by_, base ∈ versions d /\ v ∈ versions d /\ k_baseVersionId k = Some (v_id base) /\ k_resultVersionId k = Some (v_id v) /\
    v_rigId base = k_rigId k /\ v_rigId v = k_rigId k /\ v_version base < v_version v /\ mintedFrom v (promotedContent base (k_payload k) by_).
Record flow_ok (d : RigDb) : Prop := {
  flow_rigs : rig_ok d;
  flow_merged : forall k, k ∈ changes d -> k_status k = merged -> merge_ok d k;
  flow_once : forall k1 k2, k1 ∈ changes d -> k2 ∈ changes d -> k_status k1 = merged -> k_status k2 = merged ->
    k_resultVersionId k1 = k_resultVersionId k2 -> k1 = k2
}.

(** Nothing merges between the two. *)
Definition no_merge (d d' : RigDb) : Prop :=
  forall k', k' ∈ changes d' -> k_status k' = merged -> exists k, k ∈ changes d /\ proposal k = proposal k' /\ k_status k = merged.

Lemma promotedContent_frozen b b' payload by_ : frozen b = frozen b' -> promotedContent b payload by_ = promotedContent b' payload by_.
Proof. destruct b, b'. unfold frozen. cbn. intros [= -> -> -> -> -> -> -> -> -> -> -> -> ->]. by destruct payload. Qed.
Lemma mintedFrom_frozen v v' input : frozen v = frozen v' -> mintedFrom v input -> mintedFrom v' input.
Proof.
  intros E H. unfold mintedFrom, versionValues in *. destruct v, v'. unfold frozen in E. cbn in *. injection E as <- <- <- <- <- <- <- <- <- <- <- <- <-.
  injection H as H1 H2 H3 H4 H5 H6 H7. congruence.
Qed.
Lemma frozen_version v v' : frozen v = frozen v' -> v_version v = v_version v'.
Proof. intros H. exact (f_equal v_version H). Qed.
Lemma frozen_rig v v' : frozen v = frozen v' -> v_rigId v = v_rigId v'.
Proof. intros H. exact (f_equal v_rigId H). Qed.
Lemma settled_result k k' : settled k' = settled k -> k_resultVersionId k' = k_resultVersionId k.
Proof. by intros [= -> _]. Qed.

(** A merge that is in the tables before is as good afterwards. *)
Lemma merge_kept d d' k k' : rig_ok d -> rig_ok d' -> later d d' -> k' ∈ changes d' -> proposal k = proposal k' -> settled k' = settled k ->
  merge_ok d k -> merge_ok d' k'.
Proof.
  intros Hok Hok' Hle Hk' Ep Es (b & v & by_ & Hb & Hv & Hkb & Hkr & Hrb & Hrv & Hlt & Hm).
  assert (Erig : k_rigId k' = k_rigId k) by (symmetry; exact (f_equal k_rigId Ep)).
  destruct (ok_changes _ Hok' k' Hk') as (g' & Hg' & Eg). rewrite Erig in Eg.
  assert (Hkeep : forall x, x ∈ versions d -> v_rigId x = k_rigId k -> exists x', x' ∈ versions d' /\ frozen x' = frozen x).
  { intros x Hx Ex. apply (later_kept _ _ Hle x Hx); [|exists g'; split; [done|congruence]].
    destruct (ok_versions _ Hok x Hx) as (g & Hg & E & _). rewrite <- E. by apply (ok_fresh _ Hok). }
  destruct (Hkeep b Hb Hrb) as (b' & Hb' & Eb), (Hkeep v Hv Hrv) as (v' & Hv' & Ev). exists b', v', by_. split_and!; [done..| | | | | |].
  - replace (k_baseVersionId k') with (k_baseVersionId k) by exact (f_equal k_baseVersionId Ep). by rewrite (frozen_id _ _ Eb).
  - rewrite (settled_result _ _ Es), (frozen_id _ _ Ev). done.
  - rewrite (frozen_rig _ _ Eb). congruence.
  - rewrite (frozen_rig _ _ Ev). congruence.
  - by rewrite (frozen_version _ _ Eb), (frozen_version _ _ Ev).
  - replace (k_payload k') with (k_payload k) by exact (f_equal k_payload Ep). rewrite (promotedContent_frozen _ _ _ _ Eb).
    by apply (mintedFrom_frozen v).
Qed.

(** The merged row a later merged row comes from. *)
Lemma merged_origin d d' k k' : rig_ok d -> later d d' -> k ∈ changes d -> k' ∈ changes d' -> proposal k = proposal k' -> k_status k = merged ->
  settled k' = settled k.
Proof.
  intros Hok Hle Hk Hk' Ep Hm. assert (Eid : k_id k = k_id k') by exact (f_equal k_id Ep).
  destruct (later_changes _ _ Hle k' Hk') as (k0 & Hk0 & Ep0 & Hs); [rewrite <- Eid; by apply (ok_fresh _ Hok)|].
  assert (k0 = k) as -> by (apply (select_unique k_id (k_id k) (changes d)); [apply (ok_ids _ Hok)|done|done| |done]; rewrite Eid; exact (f_equal k_id Ep0)). by apply Hs.
Qed.

Lemma flow_keeps d d' : flow_ok d -> rig_ok d' -> later d d' -> no_merge d d' -> flow_ok d'.
Proof.
  intros [Hok Hm Ho] Hok' Hle Hno. split; [done| |].
  - intros k' Hk' Hs'. destruct (Hno k' Hk' Hs') as (k & Hk & Ep & Hs). apply (merge_kept d d' k k'); try done; [|by apply Hm].
    by apply (merged_origin d d').
  - intros k1 k2 H1 H2 S1 S2 E. destruct (Hno k1 H1 S1) as (o1 & O1 & P1 & M1), (Hno k2 H2 S2) as (o2 & O2 & P2 & M2).
    assert (o1 = o2) as <-.
    { apply Ho; [done..|]. rewrite <- (settled_result _ _ (merged_origin d d' o1 k1 Hok Hle O1 H1 P1 M1)), E. by apply settled_result, (merged_origin d d'). }
    apply (select_unique k_id (k_id o1) (changes d')); [apply (ok_ids _ Hok')|done..| |].
    + symmetry. exact (f_equal k_id P1).
    + symmetry. exact (f_equal k_id P2).
Qed.

(** ** The transactions of the handlers *)

Lemma no_merge_same d d' : changes d' = changes d -> no_merge d d'.
Proof. intros E k Hk Hs. rewrite E in Hk. by exists k. Qed.

Lemma no_merge_update d p f : (forall k, k ∈ changes d -> p k = true -> proposal (f k) = proposal k /\ (k_status (f k) = merged -> k_status k = merged)) ->
  no_merge d (d <| changes ::= update_where p f |>).
Proof.
  intros Hf k' (k & Hk & ->)%elem_of_update_where Hs. exists k. destruct (p k) eqn:E; [|done]. destruct (Hf k Hk E) as [Ep Hm].
  split_and!; [done|done|by apply Hm].
Qed.

Lemma setChange_no_merge ws changeId f d k d' : setChange ws changeId f d = Ok (k, d') ->
  (forall k, k ∈ changes d -> changeIs ws changeId k = true -> proposal (f k) = proposal k /\ (k_status (f k) = merged -> k_status k = merged)) -> no_merge d d'.
Proof. unfold setChange. destruct (head _); [|done]. intros [= _ <-]. apply no_merge_update. Qed.

Definition calm {R} (op : Z -> RigDb -> result RigError (R * RigDb)) : Prop :=
  forall now d r d', rig_ok d -> op now d = Ok (r, d') -> (rig_ok d' /\ later d d') /\ no_merge d d'.

#[local] Abbreviation safe := (Activity.safe (E := RigError) (O := Started) flow_ok later).
#[local] Abbreviation wp := (Activity.wp (E := RigError) (O := Started) flow_ok later).

Lemma wp_calm {R} (op : Z -> RigDb -> result RigError (R * RigDb)) (Q : R -> RigDb -> Prop) d : calm op -> (forall r d', later d d' -> Q r d') -> wp (tx op) Q d.
Proof.
  intros Hop HQ. apply (Activity.wp_tx flow_ok later). intros d1 now r d2 Hle Hi H. destruct (Hop now d1 r d2 (flow_rigs _ Hi) H) as [[H1 H2] H3].
  split_and!; [by apply (flow_keeps d1)|done|]. apply HQ. by etransitivity.
Qed.
Lemma safe_calm {R} (op : Z -> RigDb -> result RigError (R * RigDb)) d : calm op -> safe (tx op) d.
Proof. intros Hop. by apply wp_calm. Qed.

Lemma calm_tables {R} (op : Z -> RigDb -> result RigError (R * RigDb)) :
  (forall now d r d', op now d = Ok (r, d') -> rigs d' = rigs d /\ versions d' = versions d /\ changes d' = changes d /\ (fresh d <= fresh d')%nat) -> calm op.
Proof.
  intros Hop now d r d' [I [F1 [F2 F3]] N V K H] E. destruct (Hop now d r d' E) as (Er & Ev & Ec & Ef).
  split; [|by apply no_merge_same]. split; split; unfold history in *; rewrite ?Er, ?Ev, ?Ec; eauto 6.
  split_and!; intros x Hx; [specialize (F1 x Hx)|specialize (F2 x Hx)|specialize (F3 x Hx)]; lia.
Qed.

Lemma calm_createRig accountId ws name description by_ initial : calm (fun now => createRig now accountId ws name description by_ initial).
Proof.
  intros now d r d' Hok H. split; [by eapply createRig_keeps|]. unfold createRig in H. destruct (existsb _ _); [done|]. injection H as _ <-. by apply no_merge_same.
Qed.
Lemma calm_updateRig {R} (g : RigRow -> RigDb -> R) ws rigId name description :
  calm (fun now d => match updateRig now ws rigId name description d with Ok (row, d) => Ok (g row d, d) | Err e => Err e end).
Proof.
  intros now d r d' Hok H. destruct (updateRig _ _ _ _ _ _) as [[row d2]|] eqn:E; [|done]. injection H as _ <-. split; [by eapply updateRig_keeps|].
  unfold updateRig in E. destruct (head _); [|done]. destruct (match name with Some _ => _ | None => _ end); [done|]. injection E as _ <-. by apply no_merge_same.
Qed.
Lemma calm_delete ws rigId : calm (fun _ d => Ok (deleteRigIfNoActiveSessions ws rigId d)).
Proof.
  intros now d r d' Hok [= H]. pose proof (deleteRigIfNoActiveSessions_keeps ws rigId d Hok) as Hk. rewrite H in Hk. split; [exact Hk|].
  unfold deleteRigIfNoActiveSessions, deleteRig in H. intros k Hk' Hs. exists k. split; [|done].
  destruct (rigRow ws rigId d); [|by injection H as _ <-]. destruct (0 <? _); [by injection H as _ <-|]. injection H as _ <-.
  unfold dropRig in Hk'. cbn in Hk'. by apply list_elem_of_In, filter_In in Hk' as [Hin%list_elem_of_In _].
Qed.
Lemma calm_createChange accountId ws rigId base payload by_ : calm (fun now => createRigChange now accountId ws rigId base payload by_).
Proof.
  intros now d r d' Hok H. split; [by eapply createRigChange_keeps|]. unfold createRigChange in H. destruct (existsb _ _); [|done]. injection H as _ <-.
  intros k [Hk|Hk%list_elem_of_singleton]%elem_of_app Hs; [by exists k|by rewrite Hk in Hs].
Qed.
Lemma calm_createVersion ws rigId input activate : calm (fun now => createRigVersion now ws rigId input activate).
Proof.
  intros now d r d' Hok H. split; [by eapply createRigVersion_keeps|]. unfold createRigVersion in H. destruct (rigRow ws rigId d); [|done]. injection H as _ <-.
  apply no_merge_same. by destruct activate.
Qed.
Lemma calm_activate ws rigId versionId : calm (fun now => activateRigVersion now ws rigId versionId).
Proof.
  intros now d r d' Hok H. split; [by eapply activateRigVersion_keeps|]. unfold activateRigVersion in H. destruct (rigRow ws rigId d); [|done].
  destruct (head (select_where _ _)); [|done]. destruct (head (updated_rows _ _ _)); [|done]. injection H as _ <-. by apply no_merge_same.
Qed.
Lemma calm_status ws changeId status verification result : status <> merged ->
  calm (fun now => updateRigChangeStatus now ws changeId status verification result).
Proof.
  intros Hst now d r d' Hok H. split; [by eapply updateRigChangeStatus_keeps|]. unfold updateRigChangeStatus in H.
  destruct (changeRow ws changeId d) as [c|] eqn:Ec; [|done]. destruct (terminal _) eqn:Et; [done|]. eapply setChange_no_merge; [exact H|].
  intros k Hk He. pose proof (changeRow_unique _ _ _ _ _ Hok Ec Hk He) as ->. by split.
Qed.
Lemma calm_begin ws changeId startedAt allow : calm (fun now => beginRigChangeVerificationAttempt now ws changeId startedAt allow).
Proof.
  intros now d r d' Hok H. split; [by eapply beginRigChangeVerificationAttempt_keeps|]. unfold beginRigChangeVerificationAttempt in H.
  destruct (changeRow ws changeId d) as [c|]; [|done].
  destruct (k_status c); try (eapply setChange_no_merge; [exact H|by intros; split]); [|done]. destruct allow; [|done]. injection H as _ <-. by apply no_merge_same.
Qed.
#[local] Hint Resolve calm_createRig calm_updateRig calm_delete calm_createChange calm_createVersion calm_activate calm_begin : rigs.

Lemma safe_audit grant action rigId metadata d : safe (recordRigAuditEvent grant action rigId metadata) d.
Proof. apply safe_calm, calm_tables. by intros now d0 r d' [= _ <-]. Qed.
Lemma safe_lift {A} (r : result RigError A) d : safe (lift r) d.
Proof. by destruct r. Qed.
Lemma safe_sets ws ids d : safe (assertVariableSetsExist ws ids) d.
Proof.
  unfold assertVariableSetsExist. generalize (distinct [] (default [] ids)). intros l. revert d. induction l as [|id l IH]; intros d; [done|].
  apply safe_bind; [apply safe_read|]. intros [|] d'; [apply IH|done].
Qed.
#[local] Hint Resolve safe_audit safe_lift safe_sets : rigs.
#[local] Hint Extern 1 (Activity.safe _ _ (read _) _) => apply safe_read : rigs.

(** Handlers whose transactions are all calm. *)
Ltac handler :=
  repeat match goal with
  | |- Activity.safe _ _ (Activity.bind _ _) _ => apply safe_bind; [|intros ? ?]
  | |- Activity.safe _ _ (match ?x with _ => _ end) _ => destruct x
  | |- Activity.safe _ _ (if ?x then _ else _) _ => destruct x
  | |- Activity.safe _ _ (tx _) _ => solve [apply safe_calm; auto with rigs]
  | _ => first [done | solve [auto with rigs]]
  end.

Lemma safe_requireRig ws rigId d : safe (requireRigForApi ws rigId) d.
Proof. unfold requireRigForApi. handler. Qed.
#[local] Hint Resolve safe_requireRig : rigs.
Lemma safe_createRig grant payload d : safe (createRigForApi grant payload) d.
Proof. unfold createRigForApi. handler. Qed.
Lemma safe_updateRig grant rig name description d : safe (updateRigForApi grant rig name description) d.
Proof. unfold updateRigForApi. handler. Qed.
Lemma safe_deleteRig grant rig d : safe (deleteRigForApi grant rig) d.
Proof. unfold deleteRigForApi. handler. Qed.
Lemma safe_propose grant rig request by_ d : safe (proposeRigChangeForApi grant rig request by_) d.
Proof. unfold proposeRigChangeForApi. handler. Qed.
Lemma safe_createVersion grant rig payload d : safe (createRigVersionForApi grant rig payload) d.
Proof. unfold createRigVersionForApi. handler. Qed.
Lemma safe_activate grant rig versionId d : safe (activateRigVersionForApi grant rig versionId) d.
Proof. unfold activateRigVersionForApi. handler. Qed.
Lemma safe_startWorkflow ws target workflowId d : safe (startRigVerification ws target workflowId) d.
Proof. unfold startRigVerification. handler. Qed.
#[local] Hint Resolve safe_createRig safe_updateRig safe_deleteRig safe_propose safe_createVersion safe_activate safe_startWorkflow : rigs.
Lemma safe_startChange ws changeId startedAt d : safe (startChangeVerification ws changeId startedAt) d.
Proof.
  unfold startChangeVerification. handler. apply safe_catch; [by intros [] ?|]. apply safe_calm. auto with rigs.
Qed.

(** ** Promotions *)

(** A change as it was once read. *)
Definition known (change : ChangeRow) (d : RigDb) : Prop :=
  (k_id change < fresh d)%nat /\ forall k, k ∈ changes d -> k_id k = k_id change -> proposal k = proposal change.

Lemma known_read d ws changeId k : rig_ok d -> changeRow ws changeId d = Some k -> known k d.
Proof.
  intros Hok (Hk & Hid & _)%changeRow_some. split; [by apply (ok_fresh _ Hok)|]. intros k' Hk' E. f_equal.
  apply (select_unique k_id (k_id k) (changes d)); [apply (ok_ids _ Hok)|done..].
Qed.
Lemma known_later change d d' : later d d' -> known change d -> known change d'.
Proof.
  intros Hle [Hl Hk]. split; [pose proof (later_fresh _ _ Hle); lia|]. intros k' Hk' E. destruct (later_changes _ _ Hle k' Hk') as (k & Hin & Ep & _); [lia|].
  rewrite <- Ep. apply Hk; [done|]. rewrite <- E. exact (f_equal k_id Ep).
Qed.

Lemma version_below d g v : rig_ok d -> g ∈ rigs d -> v ∈ versions d -> v_rigId v = g_id g -> v_version v <= Z.of_nat (length (history (g_id g) d)).
Proof.
  intros Hok Hg Hv E. destruct (ok_history _ Hok g Hg) as [Hn _]. assert (Hin : v_version v ∈ List.map v_version (history (g_id g) d)).
  { apply list_elem_of_fmap_2, elem_of_select_where. split; [by apply Nat.eqb_eq|done]. }
  rewrite Hn in Hin. apply elem_of_seqZ in Hin. lia.
Qed.

Lemma getRigVersion_some ws rigId id d v : getRigVersion ws rigId id d = Some v -> v ∈ versions d /\ v_rigId v = rigId /\ v_id v = id.
Proof. intros [H Hin]%head_select. unfold versionIs, versionOf in H. by nreflect. Qed.
Lemma activeVersion_some ws rigId d v : activeVersion ws rigId d = Some v -> v ∈ versions d /\ v_rigId v = rigId.
Proof. intros [H Hin]%head_select. unfold activeOf, versionOf in H. by nreflect. Qed.

(** The base a promotion read is the active version it replaces. *)
Lemma base_is_active ws rigId baseId d0 d base a : rig_ok d0 -> later d0 d -> getRigVersion ws rigId baseId d0 = Some base -> a ∈ versions d -> v_id a = baseId ->
  frozen a = frozen base.
Proof.
  intros Hok0 Hle (Hb & Hbr & Hbi)%getRigVersion_some Ha Hai. destruct (later_versions _ _ Hle a Ha) as (a0 & Ha0 & E).
  { rewrite Hai, <- Hbi. by apply (ok_fresh _ Hok0). }
  rewrite <- E. f_equal. apply (select_unique v_id baseId (versions d0)); [apply (ok_ids _ Hok0)|done|done| |done]. rewrite <- Hai. exact (frozen_id _ _ E).
Qed.

Lemma promotion_flow now ws change base baseId by_ rigId d0 d r d' : flow_ok d -> later d0 d -> rig_ok d0 -> known change d ->
  getRigVersion ws rigId baseId d0 = Some base ->
  createRigVersionForChangePromotion now ws rigId (k_id change) (promotedContent base (k_payload change) by_) baseId d = Ok (r, d') ->
  flow_ok d'.
Proof.
  intros Hi Hle Hok0 [_ Hknown] Hbase H. pose proof (flow_rigs _ Hi) as Hok. destruct r as [v k].
  destruct (promotion_keeps _ _ _ _ _ _ _ _ _ Hok H) as [Hok' Hle']. destruct (promotion_spec _ _ _ _ _ _ _ _ _ _ Hok H) as
    (g & c & Hg & Hc & Hcr & Ht & Hcb & Ha & Hv & Hk & Hd').
  pose proof (rigRow_some _ _ _ _ Hg) as (Hgin & Hgid & _). pose proof (changeRow_some _ _ _ _ Hc) as (Hcin & Hcid & _).
  destruct (activeVersion ws rigId d) as [a|] eqn:Eact; [|done]. injection Ha as Haid. apply activeVersion_some in Eact as [Hain Har].
  pose proof (base_is_active _ _ _ _ _ _ _ Hok0 Hle Hbase Hain Haid) as Eab.
  set (f := fun r : ChangeRow => r <| k_status := merged |> <| k_resultVersionId := Some (v_id v) |> <| k_updatedAt := now |>) in *.
  assert (Hch : forall k', k' ∈ changes d' -> k' = f c \/ k' ∈ changes d /\ k_id k' <> k_id c).
  { rewrite Hd'. intros k' (k0 & Hk0 & ->)%elem_of_update_where. destruct (changeIs ws (k_id change) k0) eqn:E.
    - left. by rewrite (changeRow_unique _ _ _ _ _ Hok Hc Hk0 E).
    - right. split; [done|]. intros Eid. assert (k0 = c) as -> by (apply (select_unique k_id (k_id c) (changes d)); [apply (ok_ids _ Hok)|done..]).
      pose proof Hc as [Hci _]%head_select. congruence. }
  assert (Hvin : v ∈ versions d').
  { rewrite Hd'. change (v ∈ versions (minted ws rigId true v d)). rewrite versions_minted. apply elem_of_app. right. by left. }
  assert (Hold : forall k', k' ∈ changes d -> k_status k' = merged -> exists n, k_resultVersionId k' = Some n /\ (n < fresh d)%nat).
  { intros k' Hk' Hs. destruct (flow_merged _ Hi k' Hk' Hs) as (_ & w & _ & _ & Hw & _ & E & _). exists (v_id w). split; [done|by apply (ok_fresh _ Hok)]. }
  assert (Hvid : v_id v = fresh d) by by rewrite Hv. split; [done| |].
  - intros k' Hk' Hs. destruct (Hch k' Hk') as [->|[Hin Hne]].
    + destruct (later_kept _ _ Hle' a Hain) as (a' & Ha' & Ea').
      { rewrite Har, <- Hgid. by apply (ok_fresh _ Hok). }
      { destruct (ok_changes _ Hok' _ Hk') as (g' & Hg' & E). exists g'. split; [done|]. rewrite E, Har. exact Hcr. }
      exists a', v, by_. split_and!; [done|done| |done| | | |].
      * change (k_baseVersionId (f c)) with (k_baseVersionId c). by rewrite Hcb, (frozen_id _ _ Ea'), Haid.
      * rewrite (frozen_rig _ _ Ea'), Har. symmetry. exact Hcr.
      * rewrite Hv. symmetry. exact Hcr.
      * rewrite (frozen_version _ _ Ea'), Hv. cbn [v_version versionValues]. rewrite (nextVersion_eq d ws rigId g Hok Hg).
        pose proof (version_below d g a Hok Hgin Hain ltac:(congruence)) as Hb. rewrite Hgid in Hb. lia.
      * change (k_payload (f c)) with (k_payload c). pose proof (f_equal k_payload (Hknown c Hcin Hcid)) as Ep. cbn in Ep.
        rewrite Ep, (promotedContent_frozen a' base) by congruence. unfold mintedFrom. by rewrite Hv at 1 2 3 4 5 6 7 8.
    + apply (merge_kept d d' k' k'); try done. by apply (flow_merged _ Hi).
  - assert (Hnew : forall k', k' ∈ changes d -> k_status k' = merged -> k_resultVersionId (f c) = k_resultVersionId k' -> False).
    { intros k' Hk' Hs E. destruct (Hold k' Hk' Hs) as (n & En & Hn). rewrite En in E. injection E as E. lia. }
    intros k1 k2 H1 H2 S1 S2 E. destruct (Hch k1 H1) as [->|[I1 N1]], (Hch k2 H2) as [->|[I2 N2]]; [done|exfalso..|].
    + by apply (Hnew k2).
    + by apply (Hnew k1).
    + by apply (flow_once _ Hi).
Qed.

Lemma safe_promote grant rig change by_ d : known change d -> safe (promoteFromBase grant rig change by_) d.
Proof.
  intros Hk. unfold promoteFromBase. destruct (k_baseVersionId change) as [baseId|]; [|done].
  set (ws := gr_workspaceId grant). set (rigId := g_id (rig_row rig)).
  apply (wp_then _ _ (fun base d' => known change d' /\ exists d0, later d0 d' /\ rig_ok d0 /\ getRigVersion ws rigId baseId d0 = base)).
  { apply (Activity.wp_read flow_ok later). intros d1 Hle Hi. split; [by eapply known_later|]. exists d1. split_and!; [reflexivity|apply (flow_rigs _ Hi)|done]. }
  intros [base|] d1 [Hk1 (d0 & Hle & Hok0 & Hb)]; [|done]. destruct (match k_payload change with SetupAppend _ _ => _ | _ => false end); [done|].
  apply safe_bind; [|intros p d2; apply safe_bind; [apply safe_audit|intros _ d3]; apply safe_bind; [apply safe_audit|done]].
  apply safe_catch; [by intros [] ?|]. apply (Activity.wp_tx flow_ok later). intros d2 now r d3 Hle2 Hi Hop.
  pose proof (promotion_keeps _ _ _ _ _ _ _ _ _ (flow_rigs _ Hi) Hop) as [_ Hlater]. split_and!; [|done|done].
  eapply (promotion_flow now ws change base baseId by_ rigId d0 d2); [done|by etransitivity|done|by eapply known_later|done|exact Hop].
Qed.
Lemma safe_promoteSetup grant rig change d : known change d -> safe (promoteSetupAppendChange grant rig change) d.
Proof. intros Hk. unfold promoteSetupAppendChange. destruct (k_payload change); [|done]. destruct (k_status change); try done; by apply safe_promote. Qed.
Lemma safe_promoteEdit grant rig change d : known change d -> safe (promoteVerifiedDefinitionEditChangeForApi grant rig change) d.
Proof.
  intros Hk. unfold promoteVerifiedDefinitionEditChangeForApi. destruct (k_payload change); [done|]. destruct (k_status change); try done.
  destruct (negb _); [done|]. by apply safe_promote.
Qed.

Lemma wp_requireChange ws rigId changeId d : wp (requireRigChangeForApi ws rigId changeId) known d.
Proof.
  unfold requireRigChangeForApi. apply Activity.wp_bind, (Activity.wp_read flow_ok later). intros d1 _ Hi. destruct (getRigChange ws changeId d1) as [k|] eqn:E; [|done].
  destruct (Nat.eqb _ _); [|done]. cbn. eapply known_read; [apply (flow_rigs _ Hi)|exact E].
Qed.

(** ** The verification activity *)

Lemma wp_loadTarget ws changeId d : wp (loadChangeTarget ws changeId) (fun t d' => known t.2 d') d.
Proof.
  unfold loadChangeTarget. apply Activity.wp_bind, (Activity.wp_read flow_ok later). intros d1 _ Hi. destruct (getRigChange ws changeId d1) as [k|] eqn:E; [|done].
  assert (Hk : known k d1) by (eapply known_read; [apply (flow_rigs _ Hi)|exact E]).
  apply Activity.wp_bind, (Activity.wp_read flow_ok later). intros d2 H2 _. destruct (Rigs.getRig _ _ _ _ _) as [rig|]; [|done].
  destruct (k_baseVersionId k); [|done]. apply Activity.wp_bind, (Activity.wp_read flow_ok later). intros d3 H3 _.
  destruct (getRigVersionById _ _ _) as [base|]; [|done]. destruct (Nat.eqb _ _); [|done]. cbn. eapply known_later; [|exact Hk]. by transitivity d2.
Qed.

Lemma safe_status ws changeId status verification result d : status <> merged ->
  safe (tx (fun now => updateRigChangeStatus now ws changeId status verification result)) d.
Proof. intros H. by apply safe_calm, calm_status. Qed.
Lemma safe_auditTwo grant rigId changeId first second status d : safe (auditTwo grant rigId changeId first second status) d.
Proof. unfold auditTwo. handler. Qed.

Lemma safe_settle ws rig change v outcome finishedAt d : known change d -> safe (settleVerification ws rig change v outcome finishedAt) d.
Proof.
  intros Hk. unfold settleVerification. destruct outcome as [e| |passed]; [done| |].
  - apply safe_bind; [by apply safe_status|intros u d1]. apply safe_bind; [apply safe_auditTwo|done].
  - assert (Hout : forall (status : RigChangeStatus) w (a : Handler unit), status <> merged -> (forall d, safe a d) ->
      safe (let* updated := tx (fun now => updateRigChangeStatus now ws (k_id change) status w None) in a ;; Ret updated) d).
    { intros status w a Hs Ha. apply safe_bind; [by apply safe_status|intros u d1]. by apply safe_bind. }
    destruct (classifyRigVerificationOutcome (k_payload change) passed false) eqn:Ec.
    + apply (wp_then _ _ (fun _ d1 => known change d1)).
      { apply wp_calm; [by apply calm_status|]. intros _ d1 Hle. by eapply known_later. }
      intros _ d1 Hk1. apply safe_bind; [by apply safe_promoteSetup|intros p d2]. apply safe_bind; [apply safe_audit|done].
    + apply Hout; [done|]. intros d1. destruct passed; [apply safe_audit|apply safe_auditTwo].
    + apply Hout; [done|]. intros d1. destruct passed; [apply safe_audit|apply safe_auditTwo].
    + apply Hout; [done|]. intros d1. destruct passed; [apply safe_audit|apply safe_auditTwo].
Qed.

Lemma safe_verifyChange box startedAt finishedAt ws changeId d : safe (verifyRigChange box startedAt finishedAt ws changeId) d.
Proof.
  unfold verifyRigChange. eapply wp_then; [apply wp_loadTarget|]. intros [[rig base] change] d1 Hk. cbn [snd] in Hk.
  apply (wp_then _ _ (fun _ d2 => known change d2)).
  { apply wp_calm; [apply calm_begin|]. intros _ d2 Hle. by eapply known_later. }
  intros _ d2 Hk2. apply (wp_then _ _ (fun _ d3 => known change d3)).
  { apply wp_calm; [apply calm_tables; by intros now d3 r d4 [= _ <-]|]. intros _ d3 Hle. by eapply known_later. }
  intros _ d3 Hk3. destruct (verificationRun _ _ _ _) as [v outcome]. apply safe_catch; [|by apply safe_settle].
  intros e d4. unfold failVerification. apply safe_bind; [by apply safe_status|intros u d5]. apply safe_bind; [apply safe_auditTwo|done].
Qed.

Lemma safe_verifyVersion box startedAt finishedAt ws versionId d : safe (verifyRigVersion box startedAt finishedAt ws versionId) d.
Proof.
  unfold verifyRigVersion. apply safe_bind; [apply safe_read|intros [v|] d1; [|done]]. apply safe_bind; [apply safe_read|intros [rig|] d2; [|done]].
  apply safe_bind; [apply safe_audit|intros _ d3]. destruct (verificationRun _ _ _ _) as [w outcome]. apply safe_catch.
  - intros e d4. apply safe_bind; [apply safe_audit|done].
  - destruct outcome as [e| |passed]; [done|done|]. apply safe_bind; [apply safe_audit|done].
Qed.

(** ** All of them together *)

Definition done_with {A} (m : Handler A) : Handler unit := bind m (fun _ => Ret tt).
(** Everything that writes to the tables of the rigs; sessions, variable sets
    and audit events have other writers. *)
Inductive rig_task : Handler unit -> Prop :=
| task_create grant payload : rig_task (done_with (createRigForApi grant payload))
| task_patch grant rigId name description : rig_task (done_with (patchRig grant rigId name description))
| task_remove grant rigId : rig_task (done_with (removeRig grant rigId))
| task_version grant rigId payload : rig_task (done_with (postVersion grant rigId payload))
| task_activate grant rigId versionId : rig_task (done_with (postActivate grant rigId versionId))
| task_propose grant rigId request by_ startedAt : rig_task (done_with (postChange grant rigId request by_ startedAt))
| task_verify grant rigId changeId startedAt : rig_task (done_with (postVerifyChange grant rigId changeId startedAt))
| task_promote grant rigId changeId : rig_task (done_with (postPromote grant rigId changeId))
| task_verifyRig grant rigId uuid : rig_task (done_with (postVerifyRig grant rigId uuid))
| task_verification box startedAt finishedAt ws changeId : rig_task (done_with (verifyRigChange box startedAt finishedAt ws changeId))
| task_reverification box startedAt finishedAt ws versionId : rig_task (done_with (verifyRigVersion box startedAt finishedAt ws versionId))
| task_other op : (forall now d r d', op now d = Ok (r, d') -> rigs d' = rigs d /\ versions d' = versions d /\ changes d' = changes d /\ (fresh d <= fresh d')%nat) ->
    rig_task (tx op).

Lemma safe_task m d : rig_task m -> safe m d.
Proof.
  destruct 1; try (unfold done_with, patchRig, removeRig, postVersion, postActivate, postChange, postVerifyRig; repeat (apply safe_bind; [|done]); handler; fail).
  - unfold done_with, postChange. apply safe_bind; [|done]. handler. apply safe_startChange.
  - unfold done_with, postVerifyChange. apply safe_bind; [|done]. eapply wp_then; [apply wp_requireChange|]. intros k d1 _. apply safe_startChange.
  - unfold done_with, postPromote. apply safe_bind; [|done]. apply safe_bind; [apply safe_requireRig|intros rig d1]. eapply wp_then; [apply wp_requireChange|]. intros k d2 Hk. by apply safe_promoteEdit.
  - unfold done_with. apply safe_bind; [apply safe_verifyChange|done].
  - unfold done_with. apply safe_bind; [apply safe_verifyVersion|done].
  - by apply safe_calm, calm_tables.
Qed.

Definition emptyRigs : RigDb := {| rigs := []; versions := []; changes := []; audits := []; sessions := []; variableSets := []; fresh := 0 |}.
Lemma empty_flow ss vs n : flow_ok (emptyRigs <| sessions := ss |> <| variableSets := vs |> <| fresh := n |>).
Proof.
  split; [|intros k Hk; by apply elem_of_nil in Hk|intros k1 k2 Hk; by apply elem_of_nil in Hk].
  split; [split_and!; constructor|split_and!; intros r Hr; by apply elem_of_nil in Hr|constructor|intros v Hv; by apply elem_of_nil in Hv
    |intros k Hk; by apply elem_of_nil in Hk|intros g Hg; by apply elem_of_nil in Hg].
Qed.

Lemma reachable_flow s : rtc (pool rig_task) (emptyRigs, []) s -> flow_ok s.1 /\ Forall (fun m => safe m s.1) s.2.
Proof.
  intros H. destruct (Activity.pool_evolves flow_ok later rig_task (emptyRigs, []) s) as (H1 & _ & H3); [intros; by apply safe_task|done|exact (empty_flow [] [] 0)|constructor|done].
Qed.

(** (C35) Rig definitions are versioned and immutable.  However handlers and
    verifications interleave, fail or die, every rig has the versions 1 to n and
    exactly one of them active, names are unique in a workspace, a version is
    never rewritten (but for its active flag) nor lost while its rig exists, and
    a merged change stays merged into the same version. *)
Theorem rig_history_immutable s s' : rtc (pool rig_task) (emptyRigs, []) s -> rtc (pool rig_task) s s' ->
  (forall g, g ∈ rigs s.1 -> List.map v_version (history (g_id g) s.1) = seqZ 1 (Z.of_nat (length (history (g_id g) s.1))) /\
                             length (List.filter v_active (history (g_id g) s.1)) = 1%nat) /\
  NoDup (List.map (fun g => (g_workspaceId g, g_name g)) (rigs s.1)) /\
  (forall v g', v ∈ versions s.1 -> g' ∈ rigs s'.1 -> g_id g' = v_rigId v ->
     exists v', v' ∈ versions s'.1 /\ v' <| v_active := v_active v |> = v) /\
  (forall k k', k ∈ changes s.1 -> k' ∈ changes s'.1 -> k_id k = k_id k' -> k_status k = merged ->
     k_status k' = merged /\ k_resultVersionId k' = k_resultVersionId k).
Proof.
  intros H1 H2. destruct (reachable_flow s H1) as [Hi Hts].
  destruct (Activity.pool_evolves flow_ok later rig_task s s') as (_ & Hle & _); [intros; by apply safe_task|done..|]. pose proof (flow_rigs _ Hi) as Hok.
  split_and!; [apply (ok_history _ Hok)|apply (ok_names _ Hok)| |].
  - intros v g' Hv Hg' E. destruct (later_kept _ _ Hle v Hv) as (v' & Hv' & Ef); [|by exists g'|].
    { destruct (ok_versions _ Hok v Hv) as (g & Hg & <- & _). by apply (ok_fresh _ Hok). }
    exists v'. split; [done|]. unfold frozen in Ef. destruct v, v'. cbn in Ef |- *. injection Ef as -> -> -> -> -> -> -> -> -> -> -> -> ->. done.
  - intros k k' Hk Hk' E Hm. destruct (later_changes _ _ Hle k' Hk') as (k0 & Hk0 & Ep & Hs); [rewrite <- E; by apply (ok_fresh _ Hok)|].
    assert (k0 = k) as ->.
    { apply (select_unique k_id (k_id k) (changes s.1)); [apply (ok_ids _ Hok)|done|done| |done]. rewrite E. exact (f_equal k_id Ep). }
    specialize (Hs Hm). split; [|by apply settled_result]. injection Hs as _ Hb. rewrite Hm, (bool_decide_eq_true_2 (merged = merged)) in Hb by done.
    by apply bool_decide_eq_true in Hb.
Qed.

(** What a change asks of a version, field by field.  A command goes on a line
    of its own behind the script it is appended to, the white space at the end of
    that script aside; a note of nothing but white space is none. *)
Definition appendedTo (script command result : jstr) : Prop :=
  exists body blank, script = body ++ blank /\ Forall (fun c => isWhite c = true) blank /\ (forall c, last body = Some c -> isWhite c = false) /\
    (body = [] /\ result = command \/ body <> [] /\ result = body ++ [10] ++ command).
Definition saysOr (text : option jstr) (standard result : jstr) : Prop :=
  match text with
  | Some t => Forall (fun c => isWhite c = true) t /\ result = standard \/ Exists (fun c => isWhite c = false) t /\ result = t
  | None => result = standard
  end.
(** A field the edit names is what it says; any other is the base's. *)
Definition edited {A} (edit : option A) (before after : A) : Prop := match edit with Some a => after = a | None => after = before end.
Definition asProposed (base : VersionRow) (payload : RigChangePayload) (v : VersionRow) : Prop :=
  match payload with
  | SetupAppend command note =>
      v_image v = v_image base /\ v_checks v = v_checks base /\ v_credentialHooks v = v_credentialHooks base /\
      v_defaultVariableSetIds v = v_defaultVariableSetIds base /\
      (exists script, v_setupScript v = Some script /\ appendedTo (default [] (v_setupScript base)) command script) /\
      exists text, v_changelog v = Some text /\ saysOr note (js "Verified setup append") text
  | DefinitionEdit image setupScript checks hooks ids changelog =>
      edited image (v_image base) (v_image v) /\ edited setupScript (v_setupScript base) (v_setupScript v) /\
      edited checks (v_checks base) (v_checks v) /\ edited hooks (v_credentialHooks base) (v_credentialHooks v) /\
      edited ids (v_defaultVariableSetIds base) (v_defaultVariableSetIds v) /\
      exists text, v_changelog v = Some text /\ saysOr (default None changelog) (js "Verified definition edit") text
  end.

Lemma trimStart_splits s : exists blank, s = blank ++ trimStart s /\ Forall (fun c => isWhite c = true) blank /\
  forall c, head (trimStart s) = Some c -> isWhite c = false.
Proof.
  induction s as [|c s (blank & E & Hb & Hh)]; [by exists []|]. cbn [trimStart]. destruct (isWhite c) eqn:Ec.
  - exists (c :: blank). split_and!; [by rewrite E at 1|by constructor|done].
  - exists []. split_and!; [done|done|]. by intros c' [= <-].
Qed.
Lemma trimEnd_splits s : exists blank, s = trimEnd s ++ blank /\ Forall (fun c => isWhite c = true) blank /\
  forall c, last (trimEnd s) = Some c -> isWhite c = false.
Proof.
  unfold trimEnd. destruct (trimStart_splits (rev s)) as (blank & E & Hb & Hh). exists (rev blank). split_and!.
  - rewrite <- rev_app_distr, <- E. by rewrite rev_involutive.
  - rewrite rev_alt. by apply Forall_reverse.
  - intros c Hc. apply Hh. rewrite (rev_alt (trimStart _)) in Hc. change (last (reverse (trimStart (rev s))) = Some c) in Hc. by rewrite last_reverse in Hc.
Qed.
Lemma trimStart_blank s : trimStart s = [] <-> Forall (fun c => isWhite c = true) s.
Proof.
  split.
  - intros E. destruct (trimStart_splits s) as (blank & Es & Hb & _). rewrite E, app_nil_r in Es. by subst.
  - induction 1 as [|c s Hc _ IH]; [done|]. cbn. by rewrite Hc.
Qed.
Lemma trim_blank s : trim s = [] <-> Forall (fun c => isWhite c = true) s.
Proof.
  unfold trim. destruct (trimStart_splits s) as (blank & E & Hb & Hh). rewrite <- trimStart_blank. split; [|by intros ->].
  intros H. apply (f_equal (@rev Z)) in H. rewrite rev_involutive in H. cbn in H. apply trimStart_blank in H.
  destruct (trimStart s) as [|c t] eqn:Et; [done|]. cbn [rev] in H. apply Forall_app in H as [_ H]. apply Forall_inv in H. by rewrite Hh in H.
Qed.
Lemma append_appends base command : appendedTo (default [] base) command (appendRigSetupCommand base command).
Proof.
  destruct (trimEnd_splits (default [] base)) as (blank & E & Hb & Hl). exists (trimEnd (default [] base)), blank. split_and!; [done..|].
  unfold appendRigSetupCommand. destruct (trimEnd _); [by left|by right].
Qed.
Lemma text_says standard text : saysOr text (js standard) (textOr standard text).
Proof.
  destruct text as [t|]; [|done]. cbn. destruct (trim t) as [|c u] eqn:E; [left; split; [by apply trim_blank|done]|right; split; [|done]].
  apply Exists_impl with (P := fun c => isWhite c <> true); [|by intros c' ?%not_true_is_false]. apply not_Forall_Exists; [apply _|]. intros H%trim_blank. congruence.
Qed.
Lemma minted_as_proposed base v payload by_ : mintedFrom v (promotedContent base payload by_) -> asProposed base payload v.
Proof.
  intros ->. destruct payload as [command note|image script checks hooks ids changelog]; cbn.
  - split_and!; [done..| |].
    + eexists. split; [done|apply append_appends].
    + eexists. split; [done|apply text_says].
  - split_and!; try (by match goal with |- edited ?o _ _ => destruct o end). eexists. split; [done|apply text_says].
Qed.

(** (C36) A merged change became exactly what it proposed.  Whatever was proposed,
    verified, promoted, activated or rolled back meanwhile, its version is the
    base version with the change applied - the image, the setup script, the
    checks, the credential hooks, the variable sets and the changelog, each as
    the change says or else as the base has it - it is newer than that base, on
    the same rig, and it is the version of this change only. *)
Theorem merged_as_proposed s k : rtc (pool rig_task) (emptyRigs, []) s -> k ∈ changes s.1 -> k_status k = merged ->
  (exists base v, base ∈ versions s.1 /\ v ∈ versions s.1 /\ k_baseVersionId k = Some (v_id base) /\ k_resultVersionId k = Some (v_id v) /\
     v_rigId base = k_rigId k /\ v_rigId v = k_rigId k /\ v_version base < v_version v /\ asProposed base (k_payload k) v) /\
  (forall k', k' ∈ changes s.1 -> k_status k' = merged -> k_resultVersionId k' = k_resultVersionId k -> k' = k).
Proof.
  intros H Hk Hm. destruct (reachable_flow s H) as [Hi _]. split.
  - destruct (flow_merged _ Hi k Hk Hm) as (base & v & by_ & H1 & H2 & H3 & H4 & H5 & H6 & H7 & H8). exists base, v. split_and!; [done..|by eapply minted_as_proposed].
  - intros k' Hk' Hm' E. by apply (flow_once _ Hi).
Qed.

(** What was verified is what is promoted: the image, the setup, the checks, the
    hooks and the variable sets of the candidate, with the command of a setup
    change at the end of the setup. *)
Lemma promoted_is_candidate base change by_ :
  let c := candidateVersionForChange base change in
  let p := promotedContent base (k_payload change) by_ in
  ci_image p = v_image c /\ ci_checks p = Some (v_checks c) /\ ci_credentialHooks p = Some (v_credentialHooks c) /\
  ci_defaultVariableSetIds p = Some (v_defaultVariableSetIds c) /\
  ci_setupScript p = match setupAppendCommand change with Some cmd => Some (appendRigSetupCommand (v_setupScript c) cmd) | None => v_setupScript c end.
Proof. unfold candidateVersionForChange, setupAppendCommand. by destruct (k_payload change). Qed.

(** ** One verification *)

Lemma head_updated {R} (p : R -> bool) f t r : head (select_where p t) = Some r -> head (updated_rows p f t) = Some (f r).
Proof. unfold updated_rows, select_where. by destruct (List.filter p t); intros [= ->]. Qed.

Lemma update_ok now ws id status v d k : changeRow ws id d = Some k -> terminal (k_status k) = false ->
  exists f, updateRigChangeStatus now ws id status (Some v) None d = Ok (f k, d <| changes ::= update_where (changeIs ws id) f |>) /\
    (forall r, proposal (f r) = proposal r) /\ k_status (f k) = status /\ k_verification (f k) = Some (overlay v (default [] (k_verification k))) /\
    k_resultVersionId (f k) = k_resultVersionId k.
Proof.
  intros Hk Ht. unfold updateRigChangeStatus. rewrite Hk, Ht. unfold setChange. erewrite head_updated by exact Hk. exists (fun r => r <| k_status := status |> <| k_verification := Some (overlay v (default [] (k_verification k))) |>
    <| k_resultVersionId := default (k_resultVersionId r) None |> <| k_updatedAt := now |>). split; [reflexivity|]. by split_and!.
Qed.

(** The row of an updated change. *)
Lemma changeRow_updated ws id f d k : (forall r, proposal (f r) = proposal r) -> changeRow ws id d = Some k ->
  changeRow ws id (d <| changes ::= update_where (changeIs ws id) f |>) = Some (f k).
Proof.
  intros Hf Hk. unfold changeRow. change (changes (d <| changes ::= update_where (changeIs ws id) f |>)) with (update_where (changeIs ws id) f (changes d)).
  rewrite select_update_other.
  2: { intros r. destruct (changeIs ws id r) eqn:E; [|done]. rewrite <- E. unfold changeIs. pose proof (f_equal k_id (Hf r)) as E1. pose proof (f_equal k_workspaceId (Hf r)) as E2.
       cbn in E1, E2. by rewrite E1, E2. }
  unfold changeRow in Hk. pose proof (head_select _ _ _ Hk) as [Hc _]. destruct (select_where _ _); [done|]. injection Hk as ->. cbn. by rewrite Hc.
Qed.

(** A promotion whose base is the active version succeeds. *)
Lemma promotion_succeeds now ws id input d g k a : rig_ok d -> rigRow ws (k_rigId k) d = Some g -> changeRow ws id d = Some k ->
  terminal (k_status k) = false -> k_baseVersionId k = Some (v_id a) -> activeVersion ws (k_rigId k) d = Some a ->
  exists v k' d', createRigVersionForChangePromotion now ws (k_rigId k) id input (v_id a) d = Ok ((v, k'), d') /\
    mintedFrom v input /\ k_status k' = merged /\ k_resultVersionId k' = Some (v_id v) /\ activeVersion ws (k_rigId k) d' = Some v /\
    k_verification k' = k_verification k.
Proof.
  intros Hok Hg Hk Ht Hb Ha. unfold createRigVersionForChangePromotion. rewrite Hg.
  assert (Hsel : head (select_where (fun r => changeOf ws (k_rigId k) r && Nat.eqb (k_id r) id) (changes d)) = Some k).
  { pose proof (changeRow_some _ _ _ _ Hk) as (Hin & Hid & Hws).
    assert (Hp : k ∈ select_where (fun r => changeOf ws (k_rigId k) r && Nat.eqb (k_id r) id) (changes d)).
    { apply elem_of_select_where. split; [|done]. unfold changeOf. by rewrite Hws, Hid, String.eqb_refl, !Nat.eqb_refl. }
    destruct (select_where _ _) as [|k0 t] eqn:E; [by apply elem_of_nil in Hp|]. cbn. f_equal.
    assert (H0 : k0 ∈ select_where (fun r => changeOf ws (k_rigId k) r && Nat.eqb (k_id r) id) (changes d)) by (rewrite E; by left).
    apply elem_of_select_where in H0 as [E0 H0]. nreflect. by apply (select_unique k_id id (changes d)); [apply (ok_ids _ Hok)|..]. }
  rewrite Hsel, Ht, Hb, bool_decide_eq_true_2 by done. cbn [negb]. rewrite Ha. cbn [fmap option_fmap option_map]. rewrite bool_decide_eq_true_2 by done. cbn [negb].
  set (v := versionValues _ _ _ _ _ _ _ _ _). unfold setChange. erewrite head_updated.
  2: { change (changes (minted ws (k_rigId k) true v d)) with (changes d). exact Hk. }
  eexists v, _, _. split; [reflexivity|]. split_and!; [done..| |done].
  unfold activeVersion. cbn [touchRig]. change (head (select_where (activeOf ws (k_rigId k)) (versions (minted ws (k_rigId k) true v d))) = Some v).
  rewrite versions_minted. unfold select_where. rewrite List.filter_app. rewrite (filter_none _ (List.map _ _)).
  - cbn [List.filter app]. unfold activeOf, versionOf. cbn. by rewrite String.eqb_refl, Nat.eqb_refl.
  - apply Forall_forall. intros x (x0 & -> & _)%list_elem_of_fmap. cbn [andb]. unfold activeOf. destruct (versionOf ws (k_rigId k) x0) eqn:E; [by rewrite andb_false_r|by rewrite E].
Qed.

Lemma exec_catch_ok {A} now (m : Handler A) h a out d' : forall d, exec now m d = (Ok a, out, d') -> exec now (catch m h) d = (Ok a, out, d').
Proof.
  revert out. induction m as [x|e|R op next IH|o next IH]; intros out d H; cbn [catch exec] in *; [done|done| |].
  - destruct (op now d) as [[r d1]|e]; by apply IH.
  - destruct (exec now next d) as [[r o1] d1] eqn:E. injection H as -> <- ->. by rewrite (IH _ _ E).
Qed.
Lemma exec_catch_throw {A} now e (h : RigError -> Handler A) d : exec now (catch (Throw e) h) d = exec now (h e) d.
Proof. done. Qed.
Lemma exec_audit {B} now grant action rigId metadata (k : unit -> Handler B) d :
  exists l, exec now (bind (recordRigAuditEvent grant action rigId metadata) k) d = exec now (k tt) (d <| audits ::= fun t => t ++ [l] |>).
Proof. eexists. reflexivity. Qed.

(** Payloads whose keys the sanitizer keeps. *)
Definition keys_ok (fs : list (jstr * json)) : Prop := NoDup (List.map fst fs) /\ Forall (fun k => PayloadSanitizer.storable k = true) (List.map fst fs).
Lemma keys_ok_set k v fs : PayloadSanitizer.storable k = true -> keys_ok fs -> keys_ok (set_field k v fs).
Proof.
  intros Hk [Hn Hs]. split; [by apply keys_set_field|]. rewrite Forall_forall in *. by intros x [->|Hx]%elem_keys_set_field; [|apply Hs].
Qed.
Lemma run_keys box startedAt candidate cmd : keys_ok (verificationRun box startedAt candidate cmd).1.
Proof.
  assert (H0 : keys_ok [(js "startedAt", JStr startedAt); (js "checkResults", JArr [])]).
  { split; [apply (bool_decide_unpack _); vm_compute; exact Logic.I|repeat constructor]. }
  unfold verificationRun. destruct (establish _ _); [done|]. destruct (if negb _ then _ else _); [done|]. set (v := if negb _ then _ else _).
  assert (Hv : keys_ok v) by (subst v; destruct (negb _); [by apply keys_ok_set|done]). clearbody v.
  assert (Hend : forall w, keys_ok w -> keys_ok (match runChecks box 1 (v_checks candidate) with
    | inl e => (w, Threw e)
    | inr rs => (set_field (js "checkResults") (JArr (List.map (fun p => checkResult p.1 p.2) rs)) w, Checked (forallb (fun p => succeeded p.2) rs)) end).1).
  { intros w Hw. destruct (runChecks _ _ _); [done|by apply keys_ok_set]. }
  destruct cmd as [[|c cs]|]; [by apply Hend| |by apply Hend]. destruct (runCommand _ _ _) as [e|r]; [done|].
  destruct (succeeded r); [apply Hend|]; by apply keys_ok_set.
Qed.

Lemma scrubbed_keys v : NoDup (List.map fst (scrubVerificationPayload v)).
Proof.
  unfold scrubVerificationPayload. rewrite PayloadSanitizer.sanitizeEventPayload_obj. unfold PayloadSanitizer.fromEntries.
  generalize (List.map (fun kv => (PayloadSanitizer.sanitizeEventString kv.1, PayloadSanitizer.sanitizeSensitiveEventField kv.1 kv.2)) v). intros l.
  assert (H : forall l acc, NoDup (List.map fst acc) -> NoDup (List.map (fst : jstr * json -> jstr) (fold_left (fun fs kv => set_field kv.1 kv.2 fs) l acc)));
    [|apply H; constructor].
  clear. induction l as [|kv l IH]; cbn; [done|]. intros acc H. by apply IH, keys_set_field.
Qed.
Lemma scrub_passed v b : keys_ok v -> assoc (js "passed") v = Some (JBool b) -> assoc (js "passed") (scrubVerificationPayload v) = Some (JBool b).
Proof.
  intros [Hn Hs] H. unfold scrubVerificationPayload. rewrite PayloadSanitizer.sanitizeEventPayload_obj. unfold PayloadSanitizer.fromEntries.
  assert (Hk : List.map fst (List.map (fun kv => (PayloadSanitizer.sanitizeEventString kv.1, PayloadSanitizer.sanitizeSensitiveEventField kv.1 kv.2)) v) = List.map fst v).
  { rewrite List.map_map. apply map_ext_in. intros kv Hkv%list_elem_of_In. cbn. apply PayloadSanitizer.sanitizeEventString_id.
    apply (proj1 (Forall_forall _ _) Hs). by apply list_elem_of_fmap_2. }
  change (assoc (js "passed") (overlay (List.map (fun kv => (PayloadSanitizer.sanitizeEventString kv.1, PayloadSanitizer.sanitizeSensitiveEventField kv.1 kv.2)) v) []) = Some (JBool b)).
  rewrite assoc_overlay by by rewrite Hk. assert (Ha : assoc (js "passed") (List.map (fun kv => (PayloadSanitizer.sanitizeEventString kv.1,
    PayloadSanitizer.sanitizeSensitiveEventField kv.1 kv.2)) v) = Some (JBool b)); [|by rewrite Ha].
  clear Hn Hk. induction v as [|[k x] v IH]; [done|]. cbn [List.map List.map fst snd assoc] in *. apply Forall_cons in Hs as [Hk Hs].
  rewrite PayloadSanitizer.sanitizeEventString_id by done. case_bool_decide as E; [|by apply IH]. subst k. injection H as ->. reflexivity.
Qed.

Lemma finished_passed finishedAt p v : keys_ok v -> keys_ok (finished finishedAt p v) /\ assoc (js "passed") (finished finishedAt p v) = Some (JBool p).
Proof. intros H. split; [by apply keys_ok_set, keys_ok_set|]. unfold finished. by rewrite assoc_set_field, bool_decide_eq_true_2. Qed.

Definition passedOf (k : ChangeRow) : option bool := asBool (k_verification k ≫= assoc (js "passed")).
Lemma passed_overlay v old b : keys_ok v -> assoc (js "passed") v = Some (JBool b) ->
  asBool (assoc (js "passed") (overlay (scrubVerificationPayload v) old)) = Some b.
Proof. intros Hk H. rewrite assoc_overlay by apply scrubbed_keys. by rewrite (scrub_passed v b Hk H). Qed.

(** The end of a verification, from a database in which the change is being
    verified on the active version. *)
Section verdict.
Context (now : Z) (ws : string) (id : nat) (g : RigRow) (k : ChangeRow) (b : VersionRow).
Definition verifiable (d : RigDb) : Prop :=
  rig_ok d /\ changeRow ws id d = Some k /\ rigRow ws (k_rigId k) d = Some g /\ k_baseVersionId k = Some (v_id b) /\
  activeVersion ws (k_rigId k) d = Some b /\ k_status k = verifying.
(** What the activity answers: the status, the verdict it stored, and the versions. *)
Definition ended (d : RigDb) (status : RigChangeStatus) (passed : bool) (r : result RigError ChangeRow * list Started * RigDb) : Prop :=
  exists k' d', r = (Ok k', [], d') /\ k_status k' = status /\ passedOf k' = Some passed /\
    if bool_decide (status = merged)
    then exists v by_, activeVersion ws (k_rigId k) d' = Some v /\ k_resultVersionId k' = Some (v_id v) /\ mintedFrom v (promotedContent b (k_payload k) by_)
    else versions d' = versions d.

Lemma ended_frame d d1 status passed r : versions d1 = versions d -> ended d1 status passed r -> ended d status passed r.
Proof. intros E (k' & d' & H1 & H2 & H3 & H4). exists k', d'. split_and!; [done..|]. case_bool_decide; [done|congruence]. Qed.

Lemma update_ends d status passed v (rest : Handler unit) : verifiable d -> status <> merged -> keys_ok v -> assoc (js "passed") v = Some (JBool passed) ->
  (forall d, exists d', exec now rest d = (Ok tt, [], d') /\ versions d' = versions d) ->
  ended d status passed (exec now (let* updated := tx (fun now => updateRigChangeStatus now ws (k_id k) status (Some (scrubVerificationPayload v)) None) in
                                   rest ;; Ret updated) d).
Proof.
  intros (Hok & Hk & _ & _ & _ & Hs) Hne Hkeys Hp Hrest. pose proof (changeRow_some _ _ _ _ Hk) as (_ & Hid & _).
  destruct (update_ok now ws id status (scrubVerificationPayload v) d k Hk) as (f & Hup & _ & Hst & Hv & _); [by rewrite Hs|].
  rewrite Hid, (exec_tx now _ _ _ _ _ Hup), exec_bind. match goal with |- context [exec now rest ?x] => destruct (Hrest x) as (d' & -> & Ev) end.
  exists (f k), d'. split_and!; [done|done| |by rewrite bool_decide_eq_false_2, Ev]. unfold passedOf. rewrite Hv. cbn. by apply passed_overlay.
Qed.

Lemma audits_end grant rigId changeId first second status d :
  exists d', exec now (auditTwo grant rigId changeId first second status) d = (Ok tt, [], d') /\ versions d' = versions d.
Proof. eexists. split; [reflexivity|done]. Qed.
Lemma audit_ends grant action rigId metadata d :
  exists d', exec now (recordRigAuditEvent grant action rigId metadata) d = (Ok tt, [], d') /\ versions d' = versions d.
Proof. eexists. split; [reflexivity|done]. Qed.

Lemma active_in d : activeVersion ws (k_rigId k) d = Some b -> b ∈ versions d /\ v_rigId b = k_rigId k /\ v_workspaceId b = ws.
Proof. intros [H Hin]%head_select. unfold activeOf, versionOf in H. by nreflect. Qed.

Lemma version_found d : rig_ok d -> activeVersion ws (k_rigId k) d = Some b ->
  getRigVersion ws (k_rigId k) (v_id b) d = Some b /\ getRigVersionById ws (v_id b) d = Some b.
Proof.
  intros Hok Ha. destruct (active_in d Ha) as (Hin & Hr & Hw).
  assert (Hone : forall p, p b = true -> (forall x, p x = true -> v_id x = v_id b) -> head (select_where p (versions d)) = Some b).
  { intros p Hp Hx. assert (Hb : b ∈ select_where p (versions d)) by by apply elem_of_select_where.
    destruct (select_where p (versions d)) as [|y t] eqn:E; [by apply elem_of_nil in Hb|]. cbn. f_equal.
    assert (Hy : y ∈ select_where p (versions d)) by (rewrite E; by left). apply elem_of_select_where in Hy as [Hpy Hy].
    apply (select_unique v_id (v_id b) (versions d)); [apply (ok_ids _ Hok)|done|done|by apply Hx|done]. }
  split; apply Hone.
  - unfold versionIs, versionOf. by rewrite Hw, Hr, String.eqb_refl, !Nat.eqb_refl.
  - intros x E. unfold versionIs in E. by nreflect.
  - unfold versionById. by rewrite Hw, String.eqb_refl, Nat.eqb_refl.
  - intros x E. unfold versionById in E. by nreflect.
Qed.

Lemma promote_ends d rig c n v : verifiable d -> rig_row rig = g -> k_payload k = SetupAppend c n -> trim c <> [] -> keys_ok v ->
  assoc (js "passed") v = Some (JBool true) ->
  ended d merged true (exec now
    (tx (fun now => updateRigChangeStatus now ws (k_id k) verifying (Some (scrubVerificationPayload v)) None) ;;
     let* p := promoteSetupAppendChange (systemGrant rig) rig (k <| k_verification := Some v |>) in
     recordRigAuditEvent (systemGrant rig) "rig.verification.passed" (g_id (rig_row rig)) [(js "changeId", JStr (idText (k_id k)))] ;;
     Ret p.1) d).
Proof.
  intros (Hok & Hk & Hg & Hb & Ha & Hs) <- Hpay Hc Hkeys Hp. pose proof (changeRow_some _ _ _ _ Hk) as (_ & Hid & _).
  pose proof (rigRow_some _ _ _ _ Hg) as (_ & Hgid & Hgws).
  destruct (update_ok now ws id verifying (scrubVerificationPayload v) d k Hk) as (f & Hup & Hf & Hst & Hv & _); [by rewrite Hs|].
  rewrite Hid, (exec_tx now _ _ _ _ _ Hup). set (d1 := d <| changes ::= update_where (changeIs ws id) f |>).
  assert (Hok1 : rig_ok d1) by by destruct (updateRigChangeStatus_keeps _ _ _ _ _ _ _ _ _ Hok Hup).
  pose proof (changeRow_updated ws id f d k Hf Hk) as Hk1. fold d1 in Hk1.
  assert (Er : k_rigId (f k) = k_rigId k) by exact (f_equal k_rigId (Hf k)).
  destruct (promotion_succeeds now ws id (promotedContent b (k_payload k) (match k_proposedBy k with Some by_ => Some by_ | None => Some (rigActorForGrant (systemGrant rig)) end))
    d1 (rig_row rig) (f k) b) as (w & k2 & d2 & Hprom & Hm & Hs2 & Hr2 & Ha2 & Hv2); [done|by rewrite Er|done|by rewrite Hst| |by rewrite Er|].
  { rewrite <- Hb. exact (f_equal k_baseVersionId (Hf k)). }
  rewrite Er in Hprom, Ha2.
  assert (Hexec : exists d3, exec now (promoteSetupAppendChange (systemGrant rig) rig (k <| k_verification := Some v |>)) d1 = (Ok (k2, w), [], d3) /\
    versions d3 = versions d2).
  { unfold promoteSetupAppendChange. change (k_payload (k <| k_verification := Some v |>)) with (k_payload k).
    change (k_status (k <| k_verification := Some v |>)) with (k_status k). rewrite Hs, Hpay. unfold promoteFromBase.
    change (k_baseVersionId (k <| k_verification := Some v |>)) with (k_baseVersionId k). change (k_payload (k <| k_verification := Some v |>)) with (k_payload k).
    change (k_id (k <| k_verification := Some v |>)) with (k_id k). change (k_proposedBy (k <| k_verification := Some v |>)) with (k_proposedBy k).
    cbn [gr_workspaceId systemGrant]. rewrite Hb, Hgws, Hgid, Hid, exec_read.
    assert (Hfound : getRigVersion ws (k_rigId k) (v_id b) d1 = Some b) by by apply version_found. rewrite Hfound, Hpay, bool_decide_eq_false_2 by done.
    rewrite exec_bind. unfold promoteChangeWithActiveCas. erewrite exec_catch_ok.
    2: { unfold tx. cbn [exec]. rewrite <- Hpay, Hprom. reflexivity. }
    eexists. split; [reflexivity|done]. }
  destruct Hexec as (d3 & He & Ev). rewrite exec_bind, He. eexists k2, _. split; [reflexivity|]. split_and!; [done| |].
  - unfold passedOf. rewrite Hv2, Hv. cbn. by apply passed_overlay.
  - rewrite bool_decide_eq_true_2 by done. eexists w, _. split_and!; [|done|exact Hm].
    unfold activeVersion in *. cbn. by rewrite Ev.
Qed.

Lemma load_ends d : verifiable d -> exec now (loadChangeTarget ws id) d = (Ok (loadRig toISOString dateParse ws d g, b, k), [], d).
Proof.
  intros (Hok & Hk & Hg & Hb & Ha & Hs). pose proof (rigRow_some _ _ _ _ Hg) as (_ & Hgid & _).
  unfold loadChangeTarget. rewrite exec_read. unfold getRigChange. rewrite Hk, exec_read. unfold Rigs.getRig. rewrite Hg. cbn [fmap option_fmap option_map].
  rewrite Hb, exec_read, (proj2 (version_found d Hok Ha)). cbn [rig_row loadRig mapRig]. by rewrite (proj1 (proj2 (active_in d Ha))), Hgid, Nat.eqb_refl.
Qed.
End verdict.

(** The verdict of a verification.  When a change is verified on the active
    version, the activity answers with the change: merged into a new active
    version with its content when a setup command and every check succeeded,
    proposed - to be promoted by hand - when it edits the definition, rejected when the command or a
    check failed, failed when the sandbox could not run them; the stored verdict
    says the same, and no version is minted unless it merges. *)
Theorem verification_verdict box startedAt finishedAt now ws id d g k b : verifiable ws id g k b d ->
  (forall c n, k_payload k = SetupAppend c n -> trim c <> []) ->
  let outcome := (verificationRun box startedAt (candidateVersionForChange b k) (setupAppendCommand k)).2 in
  let passed := match outcome with Checked p => p | _ => false end in
  let status := match outcome with
                | Threw _ => failed | CommandFailed => rejected
                | Checked p => if p then match k_payload k with SetupAppend _ _ => merged | _ => proposed end else rejected
                end in
  ended ws k b d status passed (exec now (verifyRigChange box startedAt finishedAt ws id) d).
Proof.
  intros Hver Hcmd. cbv zeta. pose proof Hver as (Hok & Hk & Hg & Hb & Ha & Hs). pose proof (changeRow_some _ _ _ _ Hk) as (_ & Hid & _).
  pose proof (rigRow_some _ _ _ _ Hg) as (_ & Hgid & Hgws).
  unfold verifyRigChange. rewrite exec_bind, (load_ends now ws id g k b d Hver). cbv beta iota. rewrite (surjective_pairing (exec _ _ _)), (surjective_pairing (exec _ _ _).1). cbn [app].
  rewrite <- !surjective_pairing. set (rig := loadRig _ _ _ _ _).
  assert (Hbegin : beginRigChangeVerificationAttempt now ws (k_id k) startedAt true d = Ok (k, d)).
  { rewrite Hid. unfold beginRigChangeVerificationAttempt. by rewrite Hk, Hs. }
  rewrite (exec_tx now _ _ _ _ _ Hbegin). match goal with |- ended _ _ _ _ _ _ (exec _ (bind (recordRigAuditEvent ?gr ?a ?r ?m) ?kk) _) =>
    destruct (exec_audit now gr a r m kk d) as (l & ->) end.
  set (d1 := d <| audits ::= fun t => t ++ [l] |>). assert (Hv1 : verifiable ws id g k b d1).
  { split_and!; try done. destruct (calm_tables (fun _ d => Ok (tt, d <| audits ::= fun t => t ++ [l] |>))) with (now := 0) (d := d) (r := tt) (d' := d1) as [[H _] _]; try done.
    by intros ? ? ? ? [= _ <-]. }
  apply (ended_frame ws k b d d1); [done|].
  pose proof (run_keys box startedAt (candidateVersionForChange b k) (setupAppendCommand k)) as Hkeys.
  destruct (verificationRun box startedAt (candidateVersionForChange b k) (setupAppendCommand k)) as [v outcome]. cbn [fst snd] in *.
  destruct (finished_passed finishedAt false v Hkeys) as [Hkf Hpf]. destruct (finished_passed finishedAt true v Hkeys) as [Hkt Hpt].
  assert (Hcatch : forall status passed m h, ended ws k b d1 status passed (exec now m d1) -> ended ws k b d1 status passed (exec now (catch m h) d1)).
  { intros status passed m h (k' & d' & E & Hrest). exists k', d'. split; [|exact Hrest]. by apply exec_catch_ok. }
  destruct outcome as [e| |[|]]; unfold settleVerification.
  - rewrite exec_catch_throw. unfold failVerification. apply (update_ends now ws id g k b); [done|done|by apply keys_ok_set| |apply audits_end].
    by rewrite assoc_set_field, bool_decide_eq_false_2.
  - apply Hcatch. apply (update_ends now ws id g k b); [done|done|done|done|apply audits_end].
  - apply Hcatch. destruct (k_payload k) as [c n|] eqn:Ep; cbn [classifyRigVerificationOutcome negb verdictStatus].
    + apply (promote_ends now ws id g k b d1 rig c n); [done|done|done|by eapply Hcmd|done|done].
    + apply (update_ends now ws id g k b); [done|done|done|done|apply audit_ends].
  - apply Hcatch. cbn [classifyRigVerificationOutcome negb verdictStatus]. apply (update_ends now ws id g k b); [done|done|done|done|apply audits_end].
Qed.
End handlers.

(** ** Examples *)

Section examples.
Let iso (t : Z) : jstr := js (pretty t).
Let parse (s : jstr) : option Z := Some (Z.of_nat (length s)).
Let scrub (s : jstr) : jstr := s.
Let message (e : RigError) : jstr := match e with SandboxError m => m | HttpError _ m => js m | _ => js "error" end.
Let up (_ : string) : bool := true.
Let down (_ : string) : bool := false.

Definition exampleGrant : AccessGrant := {| gr_accountId := "acme"; gr_workspaceId := "w"; gr_subjectId := "ann" |}.
Definition exampleRig : CreateRigRequest := {|
  cr_name := js " node "; cr_description := None; cr_image := Some (js "node:22"); cr_setupScript := Some (js "apt update");
  cr_checks := [{| ck_name := js "node"; ck_command := js "node -v" |}]; cr_credentialHooks := []; cr_defaultVariableSetIds := [] |}.
Definition installJq : RigChangePayload := SetupAppend (js "apt install jq") None.
Definition newImage : RigChangePayload := DefinitionEdit (Some (Some (js "node:24"))) None None None None None.
(** Sandboxes in which everything works, in which the checks fail, and none. *)
Definition goodBox : Sandbox := {| establish _ := None; setupHook _ := None; command _ _ := inr {| exitCode := Some 0; output := [] |} |}.
Definition badBox : Sandbox := {| establish _ := None; setupHook _ := None; command _ _ := inr {| exitCode := Some 1; output := [] |} |}.
Definition noBox : Sandbox := {| establish _ := Some (js "no capacity"); setupHook _ := None; command _ _ := inl [] |}.

Let after (m : Handler unit) (d : RigDb) : RigDb := (exec 1 m d).2.
Let create := done_with (createRigForApi iso parse exampleGrant exampleRig).
Let propose (payload : RigChangePayload) := done_with (postChange iso parse up exampleGrant 0 payload None (js "t1")).
Let verification (box : Sandbox) := done_with (verifyRigChange iso parse scrub message box (js "t1") (js "t2") "w" 2).

Definition withRig : RigDb := Eval vm_compute in after create emptyRigs.
Definition withChange : RigDb := Eval vm_compute in after (propose installJq) withRig.
Definition withMerge : RigDb := Eval vm_compute in after (verification goodBox) withChange.
Definition withEdit : RigDb := Eval vm_compute in after (verification goodBox) (after (propose newImage) withRig).

Let task := rig_task iso parse up scrub message.
Lemma reach_change : rtc (pool task) (emptyRigs, []) (withChange, []).
Proof.
  transitivity (withRig, @nil (Handler unit)).
  - exact (pool_alone task 1 create (task_create _ _ _ _ _ exampleGrant exampleRig) emptyRigs []).
  - exact (pool_alone task 1 (propose installJq) (task_propose _ _ _ _ _ exampleGrant 0 installJq None (js "t1")) withRig []).
Qed.
Lemma reach_merge : rtc (pool task) (withChange, []) (withMerge, []).
Proof. exact (pool_alone task 1 (verification goodBox) (task_verification _ _ _ _ _ goodBox (js "t1") (js "t2") "w" 2) withChange []). Qed.

Lemma rig_history_immutable_witness :
  List.map v_version (history 0 withChange) = [1] /\
  forall v, v ∈ versions withChange -> exists v', v' ∈ versions withMerge /\ v' <| v_active := v_active v |> = v.
Proof.
  destruct (rig_history_immutable iso parse up scrub message (withChange, []) (withMerge, []) reach_change reach_merge) as (_ & _ & H & _).
  split; [vm_compute; reflexivity|]. intros v Hv. cbn [fst] in H. unfold withMerge in H at 1. cbn [rigs] in H.
  eapply (H v _ Hv); [by left|]. unfold withChange in Hv. cbn [versions] in Hv. by apply list_elem_of_singleton in Hv as ->.
Defined.

Lemma merged_as_proposed_witness : exists base v, base ∈ versions withMerge /\ v ∈ versions withMerge /\
  v_version base < v_version v /\ asProposed base installJq v.
Proof.
  assert (H : rtc (pool task) (emptyRigs, []) (withMerge, [])) by (transitivity (withChange, @nil (Handler unit)); [exact reach_change|exact reach_merge]).
  assert (Hk : exists k, k ∈ changes withMerge /\ k_status k = merged /\ k_payload k = installJq).
  { eexists. split; [left|by split]. }
  destruct Hk as (k & Hk & Hm & Hp). destruct (merged_as_proposed iso parse up scrub message (withMerge, []) k H Hk Hm) as [(base & v & H1 & H2 & _ & _ & _ & _ & H3 & H4) _].
  exists base, v. rewrite <- Hp. by split_and!.
Defined.

Definition theRig : RigRow := Eval vm_compute in default {| g_id := 0; g_accountId := ""; g_workspaceId := ""; g_name := []; g_description := None;
  g_createdBy := None; g_createdAt := 0; g_updatedAt := 0 |} (head (rigs withChange)).
Lemma withChange_ok : rig_ok withChange.
Proof. exact (flow_rigs _ (proj1 (reachable_flow iso parse up scrub message (withChange, []) reach_change))). Qed.

(** A command that fails rejects the change. *)
Lemma verification_verdict_witness : exists k b, k_payload k = installJq /\
  ended "w" k b withChange rejected false (exec 9 (verifyRigChange iso parse scrub message badBox (js "t1") (js "t2") "w" 2) withChange).
Proof.
  destruct (changeRow "w" 2 withChange) as [k|] eqn:H1; [|vm_compute in H1; discriminate].
  destruct (activeVersion "w" 0 withChange) as [b|] eqn:H5; [|vm_compute in H5; discriminate].
  assert (Hk : k_payload k = installJq /\ k_rigId k = 0%nat /\ k_baseVersionId k = Some (v_id b) /\ k_status k = verifying /\
    (verificationRun scrub badBox (js "t1") (candidateVersionForChange b k) (setupAppendCommand k)).2 = CommandFailed).
  { pose proof H1 as E1. pose proof H5 as E5. vm_compute in E1, E5. injection E1 as <-. injection E5 as <-. split_and!; vm_compute; reflexivity. }
  destruct Hk as (H2 & H3 & H4 & H6 & Ho).
  exists k, b. split; [exact H2|].
  assert (Hv : verifiable "w" 2 theRig k b withChange) by (split_and!; [exact withChange_ok|exact H1|rewrite H3; reflexivity|exact H4|rewrite H3; exact H5|exact H6]).
  pose proof (verification_verdict iso parse scrub message badBox (js "t1") (js "t2") 9 "w" 2 withChange theRig k b Hv) as H.
  rewrite Ho in H. apply H. rewrite H2. intros c n [= <- <-]. vm_compute. discriminate.
Defined.

(** A verification whose workflow was not started, or whose worker died, leaves
    the change verifying for good: it can be neither verified nor promoted again. *)
Example verification_stuck :
  let d := after (done_with (postChange iso parse down exampleGrant 0 newImage None (js "t1"))) withRig in
  (exec 2 (postVerifyChange up exampleGrant 0 2 (js "t9")) d).1.1 = Err (HttpError 409 "already verifying") /\
  (exec 2 (postPromote iso parse exampleGrant 0 2) d).1.1 = Err (HttpError 409 "cannot promote").
Proof. vm_compute. done. Qed.

(** A rejected change is terminal for [updateRigChangeStatus], but not for
    [beginRigChangeVerificationAttempt]: it can be verified again, and merge. *)
Example rejected_reopened :
  let d := after (verification badBox) withChange in
  k_status <$> changeRow "w" 2 d = Some rejected /\
  match updateRigChangeStatus 2 "w" 2 verifying None None d with Err (RigChangeTransitionError 2 rejected verifying) => true | _ => false end = true /\
  k_status <$> changeRow "w" 2 (after (verification goodBox) (after (done_with (postVerifyChange up exampleGrant 0 2 (js "t3"))) d)) = Some merged.
Proof. vm_compute. done. Qed.

(** The promotion of an edit looks at the verdict on the change it loaded, not in
    its transaction: it merges a change whose next verification is under way, and
    the verification that rejects it finds it merged. *)
Example promoted_while_verifying :
  match changeRow "w" 2 withEdit, getRig iso parse "w" 0 withEdit with
  | Some change, Some rig =>
      let d := after (done_with (postVerifyChange up exampleGrant 0 2 (js "t3"))) withEdit in
      let d' := after (done_with (promoteVerifiedDefinitionEditChangeForApi exampleGrant rig change)) d in
      (k_status change, k_status <$> changeRow "w" 2 d, k_status <$> changeRow "w" 2 d') = (proposed, Some verifying, Some merged) /\
      match (exec 9 (settleVerification "w" rig change [] (Checked false) (js "t4")) d').1.1 with
      | Err (RigChangeTransitionError 2 merged rejected) => true | _ => false end = true
  | _, _ => False
  end.
Proof. vm_compute. done. Qed.
End examples.
End RigFlow.
