(* ===== verification/GoalActivities.v ===== *)
(** * Goal activities ([apps/worker/src/activities/goals.ts])

    The goal loop's activity: the locked decision of [Goals], then the
    continuation turn it synthesizes; and the goal pause of an interrupt.
    Model policy, billing balances and usage sums are tables outside the model:
    their answers are arguments. *)
From S2P Require Import Prelude Sql Json Schema PayloadSanitizer EventLog TurnQueue Goals ParentWake Activity.
From stdpp Require Import pretty.
#[local] Open Scope Z_scope.
#[local] Open Scope opengeni_scope.

(** ** Tool references ([packages/contracts/src/index.ts]) *)

Module ToolRefs.

Definition textOf (v : option json) : jstr :=
  match v with Some j => ParentWake.toText j | None => js "undefined" end.
Definition refKey (tool : json) : jstr := textOf (prop (js "kind") tool) ++ js ":" ++ textOf (prop (js "id") tool).
Definition isOptional (tool : json) : bool := bool_decide (prop (js "optional") tool = Some (JBool true)).
(** [{ optional, ...strict } = tool] *)
Definition strictRef (tool : json) : json :=
  match tool with JObj fs => JObj (List.filter (fun kv => negb (bool_decide (kv.1 = js "optional"))) fs) | _ => tool end.

(** One tool of the loop over the [Map], whose insertion order is [order]. *)
Definition mergeRef (byKey : list (jstr * json)) (tool : json) : list (jstr * json) :=
  match Json.assoc (refKey tool) byKey with
  | None => byKey ++ [(refKey tool, tool)]
  | Some prior => if isOptional prior && negb (isOptional tool) then set_field (refKey tool) (strictRef prior) byKey else byKey
  end.
Definition mergeToolRefs (existing additions : list json) : list json :=
  List.map snd (foldl mergeRef [] (existing ++ additions)).

Definition firstParty (id : string) : json := JObj [(js "kind", JStr (js "mcp")); (js "id", JStr (js id))].
Definition withFirstPartyTools (mcpServers : list string) (tools : list json) : list json :=
  if negb (existsb (String.eqb "opengeni") mcpServers) then tools else mergeToolRefs tools [firstParty "opengeni"].
Definition withCodexAppsTool (mcpServers : list string) (tools : list json) : list json :=
  if negb (existsb (String.eqb "codex_apps") mcpServers) then tools else mergeToolRefs tools [firstParty "codex_apps"].

Lemma refKey_strict tool : refKey (strictRef tool) = refKey tool.
Proof.
  destruct tool as [| | | | |fs]; try done. unfold refKey, strictRef, prop.
  assert (H : forall k, k <> js "optional" ->
    Json.assoc k (List.filter (fun kv => negb (bool_decide (kv.1 = js "optional"))) fs) = Json.assoc k fs).
  { intros k Hk. induction fs as [|[j v] fs IH]; [done|]. cbn [List.filter fst].
    destruct (bool_decide (j = js "optional")) eqn:E; cbn [negb Json.assoc].
    - apply bool_decide_eq_true in E as ->. by rewrite IH, bool_decide_eq_false_2.
    - by rewrite IH. }
  by rewrite !H by (vm_compute; discriminate).
Qed.

(** The map of a merge: one entry per key, under the key of its reference. *)
Definition keyed (byKey : list (jstr * json)) : Prop :=
  NoDup (List.map fst byKey) /\ Forall (fun kv => refKey kv.2 = kv.1) byKey.

Lemma assoc_none {V} k (fs : list (jstr * V)) : Json.assoc k fs = None -> k ∉ List.map fst fs.
Proof.
  induction fs as [|[j x] fs IH]; cbn; [by intros _ ?%elem_of_nil|]. case_bool_decide; [done|].
  intros Hn [->|Hin]%elem_of_cons; [done|by apply IH].
Qed.

Lemma keyed_merge byKey tool : keyed byKey -> keyed (mergeRef byKey tool).
Proof.
  intros [Hnd Hk]. unfold mergeRef. destruct (Json.assoc (refKey tool) byKey) as [prior|] eqn:E.
  - destruct (_ && _); [|done]. revert Hnd Hk E. induction byKey as [|[j x] fs IH]; cbn; [done|].
    intros [Hj Hnd]%NoDup_cons [Hx Hk]%Forall_cons. cbn in Hx. case_bool_decide as Hjk; intros E.
    + injection E as ->. rewrite Hjk. split; cbn; [by apply NoDup_cons|]. constructor; [cbn; by rewrite refKey_strict|done].
    + destruct (IH Hnd Hk E) as [IH1 IH2]. split; cbn; [|by constructor]. apply NoDup_cons. split; [|done].
      intros Hin. apply Hj. clear -Hin Hjk. induction fs as [|[i y] fs IH]; cbn in *.
      * apply list_elem_of_singleton in Hin. congruence.
      * case_bool_decide; cbn in Hin; [by subst|]. apply elem_of_cons in Hin as [->|Hin]; [left|right; auto].
  - split.
    + rewrite List.map_app. apply NoDup_app. split_and!; [done| |apply NoDup_singleton].
      intros k Hk1 Hk2%list_elem_of_singleton. subst. by apply assoc_none in E.
    + apply Forall_app. split; [done|by repeat constructor].
Qed.

(** A merge keeps one reference per tool. *)
Lemma mergeToolRefs_NoDup existing additions : NoDup (List.map refKey (mergeToolRefs existing additions)).
Proof.
  unfold mergeToolRefs. set (l := existing ++ additions).
  assert (H : keyed (foldl mergeRef [] l)).
  { assert (H0 : keyed []) by (split; constructor). revert H0. generalize (@nil (jstr * json)).
    induction l as [|x l IH]; intros acc Hacc; cbn; [done|]. apply IH. by apply keyed_merge. }
  destruct H as [Hnd Hk]. rewrite List.map_map. erewrite List.map_ext_in; [exact Hnd|].
  intros kv Hin%list_elem_of_In. by apply (proj1 (Forall_forall _ _) Hk).
Qed.

Example strict_wins :
  mergeToolRefs [JObj [(js "kind", JStr (js "mcp")); (js "id", JStr (js "x")); (js "optional", JBool true)]; firstParty "y"]
    [firstParty "x"] = [firstParty "x"; firstParty "y"].
Proof. by vm_compute. Qed.
End ToolRefs.

(** ** The activities *)

Module GoalActivities.
Import PayloadSanitizer EventLog TurnQueue Goals ParentWake Activity ToolRefs.

(** The settings the activities read. *)
Record Settings := {
  goalMaxAutoContinuations : option Z;
  goalNoProgressLimit : Z;
  openaiReasoningEffort : string;
  mcpServers : list string;
  billingMode : string;
  usageLimitsMode : string;
  maxMonthlyCostMicrosPerAccount : option Z;
  maxMonthlyAgentRunsPerWorkspace : option Z;
  sessionHistorySource : string;
  childCompletionParentWakeEnabled : bool
}.

(** What the tables outside the model answer: the workspace's model policy (when
    there is one), whether a model is billed to the user's Codex plan, the
    credit balance and the usage sums of the month. *)
Record Outside := {
  policyBlocks : option (string -> bool);
  isCodexBilledTurn : string -> bool;
  balanceMicros : Z;
  monthlyModelCost : Z;
  monthlyAgentRuns : Z;
  turnHistoryItems : Z
}.

Definition getSession (ws sid : string) (d : Db) : option SessionRow := List.find (inSession ws sid) (db_sessions d).
Definition requireSession (ws sid : string) : Act SessionRow :=
  tx (fun _ d => match getSession ws sid d with Some s => Ok (s, d) | None => Err (SessionNotFound sid) end).

(** The publish is best effort: it cannot fail the append. *)
Definition appendAndPublishEvents (ws sid : string) (events : list AppendEventInput) : Act (list SessionEvent) :=
  let* appended := tx (fun now => appendSessionEvents now ws sid events) in
  emit (Publish ws sid appended);; Ret appended.

(** [limit && ...]: a limit of zero is no limit. *)
Definition limitOf (l : option Z) : option Z := match l with Some 0 => None | _ => l end.

Definition goalRunBudgetBlocked (settings : Settings) (o : Outside) (isCodexRun : bool) : option jstr :=
  let limited := String.eqb (usageLimitsMode settings) "static" || String.eqb (usageLimitsMode settings) "managed" in
  if negb isCodexRun && (String.eqb (billingMode settings) "stripe" || String.eqb (usageLimitsMode settings) "managed")
     && (balanceMicros o <=? 0)
  then Some (js "insufficient OpenGeni credits")
  else if negb limited then None
  else
    let runs :=
      match limitOf (maxMonthlyAgentRunsPerWorkspace settings) with
      | Some most => if most <? monthlyAgentRuns o + 1
                     then Some (js "monthly agent run limit reached (" ++ decimal most ++ js ")") else None
      | None => None
      end in
    match (if isCodexRun then None else limitOf (maxMonthlyCostMicrosPerAccount settings)) with
    | Some most => if most <=? monthlyModelCost o
                   then Some (js "monthly model cost limit reached (" ++ decimal most ++ js " micros)") else runs
    | None => runs
    end.

(** The model of a continuation, and why the policy blocks it. *)
Definition continuationPolicy (o : Outside) (inherited sessionModel : string) : string * option jstr :=
  match policyBlocks o with
  | None => (inherited, None)
  | Some blocks =>
      if negb (blocks inherited) then (inherited, None)
      else if negb (String.eqb inherited sessionModel) && negb (blocks sessionModel) then (sessionModel, None)
      else (inherited, Some (js "workspace model policy blocks model " ++ [34] ++ js inherited ++ [34]
                             ++ js "; pick an allowed model or change the workspace model policy"))
  end.

Definition goalContinuationPrompt (goal : GoalRow) (autoContinuation : Z) (cap : option Z) : jstr :=
  let counter := match cap with None => decimal autoContinuation | Some c => decimal autoContinuation ++ js "/" ++ decimal c end in
  join newline [
    js "[GOAL CONTINUATION " ++ counter ++ js "] The session goal is not done. Goal: " ++ g_text goal ++ js ".";
    js "Success criteria: " ++ default (js "none specified") (g_successCriteria goal) ++ js ".";
    js "Continue working toward the goal now. If it is actually complete, call opengeni__goal_complete with concrete evidence.";
    js "If you are blocked or continuing is not productive, call opengeni__goal_pause with your rationale.";
    js "You may revise the goal with opengeni__goal_update. Do not stop without one of these explicit actions."].

Definition optionalField (key : string) (value : option jstr) : list (jstr * json) :=
  match truthy value with Some v => [(js key, JStr v)] | None => [] end.

Record GoalActivityInput := { ga_accountId : string; ga_workspaceId : string; ga_sessionId : string; ga_workflowId : string }.

Inductive MaybeContinueGoalResult := action_none | action_queue | action_paused | action_continue.

Definition pausedEvent (actor reason : string) (goal : GoalRow) (rationale : list (jstr * json)) : AppendEventInput :=
  plainEvent "goal.paused" None
    (JObj ([(js "goalId", JStr (js (g_id goal))); (js "actor", JStr (js actor)); (js "reason", JStr (js reason))]
           ++ rationale ++ [(js "autoContinuations", JNum (g_autoContinuations goal));
                            (js "noProgressStreak", JNum (g_noProgressStreak goal))])).

Definition capJson (cap : option Z) : json := match cap with Some c => JNum c | None => JNull end.

(** The synthesized turn. *)
Definition continuationTurn (settings : Settings) (input : GoalActivityInput) (session : SessionRow) (goal : GoalRow)
  (autoContinuation : Z) (prompt : jstr) (model effort eventId : string) : EnqueueSessionTurnInput := {|
  q_accountId := ga_accountId input; q_workspaceId := ga_workspaceId input; q_sessionId := ga_sessionId input;
  q_triggerEventId := eventId; q_temporalWorkflowId := ga_workflowId input; q_source := Src_goal; q_prompt := prompt;
  q_resources := JArr []; q_tools := JArr (withFirstPartyTools (mcpServers settings) (default [] (asArray (Some (s_tools session)))));
  q_model := model; q_reasoningEffort := effort; q_sandboxBackend := s_sandboxBackend session;
  q_metadata := [(js "goalId", JStr (js (g_id goal))); (js "autoContinuation", JNum autoContinuation)];
  q_preemptChildNotifications := false |}.

(** After a [continue] decision. *)
Definition synthesize (settings : Settings) (input : GoalActivityInput) (session : SessionRow) (goal : GoalRow)
  (autoContinuation : Z) (cap : option Z) (model effort : string) : Act MaybeContinueGoalResult :=
  let ws := ga_workspaceId input in let sid := ga_sessionId input in
  let* recheck := read (getSessionGoal ws sid) in
  match recheck with
  | Some g =>
      if negb (bool_decide (g_status g = G_active)) || negb (g_version g =? g_version goal) then Ret action_none
      else
        let prompt := goalContinuationPrompt goal autoContinuation cap in
        let* events := appendAndPublishEvents ws sid
          [plainEvent "goal.continuation" None
             (JObj [(js "goalId", JStr (js (g_id goal))); (js "text", JStr prompt);
                    (js "autoContinuation", JNum autoContinuation); (js "maxAutoContinuations", capJson cap);
                    (js "goalVersion", JNum (g_version goal))])] in
        match events with
        | [] => Throw EmptyAppend
        | continuationEvent :: _ =>
            let* turn := tx (fun now d => Ok (enqueueSessionTurn now
              (continuationTurn settings input session goal autoContinuation prompt model effort (ev_id continuationEvent)) d)) in
            write (fun now => setSessionGoalLastContinuationTurn now ws sid (t_id turn));;
            let* _ := appendAndPublishEvents ws sid [queuedEvent turn (ev_id continuationEvent)] in
            emit (RecordUsage (ga_accountId input) ws "agent_run.created" 1 (t_id turn)
                    (String.append "agent_run.created:goal:" (String.append ws (String.append ":" (t_id turn)))));;
            Ret action_continue
        end
  | None => Ret action_none
  end.

Definition maybeContinueGoal (settings : Settings) (o : Outside) (input : GoalActivityInput) : Act MaybeContinueGoalResult :=
  let ws := ga_workspaceId input in let sid := ga_sessionId input in
  let* existingGoal := read (getSessionGoal ws sid) in
  match existingGoal with
  | None => Ret action_none
  | Some existing =>
      if negb (bool_decide (g_status existing = G_active)) then Ret action_none
      else
        let* session := requireSession ws sid in
        let* latestStartedTurn := read (latestStartedSessionTurnRow ws sid) in
        let inherited := match latestStartedTurn with Some t => t_model t | None => s_model session end in
        let effort := match latestStartedTurn with
                      | Some t => t_reasoningEffort t
                      | None => reasoningEffortForMetadata (s_metadata session) (openaiReasoningEffort settings)
                      end in
        let (model, modelPolicyBlocked) := continuationPolicy o inherited (s_model session) in
        let blocked := goalRunBudgetBlocked settings o (isCodexBilledTurn o model) in
        let* decision := tx (fun now d => Ok (evaluateGoalContinuation now {|
          ev_workspace := ws; ev_session := sid; defaultMaxAutoContinuations := goalMaxAutoContinuations settings;
          noProgressLimit := goalNoProgressLimit settings;
          budgetBlocked := match modelPolicyBlocked with Some _ => modelPolicyBlocked | None => blocked end |} d)) in
        match decision with
        | DecideNone => Ret action_none
        | DecideQueue => Ret action_queue
        | DecidePaused reason goal =>
            let* _ := appendAndPublishEvents ws sid
              [pausedEvent "system" reason goal (optionalField "rationale" (g_rationale goal))] in
            Ret action_paused
        | DecideContinue goal autoContinuation cap =>
            synthesize settings input session goal autoContinuation cap model effort
        end
  end.

(** ** Interrupts *)

Definition isSteerInterrupt (trigger : option SessionEvent) : bool :=
  match trigger with
  | Some e => String.eqb (ev_type e) "user.interrupt" && bool_decide (prop (js "reason") (ev_payload e) = Some (JStr (js "steer")))
  | None => false
  end.

Definition pauseActiveGoalOnInterrupt (ws sid : string) : Act unit :=
  let* goal := read (getSessionGoal ws sid) in
  match goal with
  | Some g =>
      if negb (bool_decide (g_status g = G_active)) then Ret tt
      else
        let* r := tx (fun now => setSessionGoalStatus now ws sid
          {| gs_status := G_paused; gs_evidence := None; gs_rationale := None; gs_pausedReason := Some "user_interrupt" |}) in
        let (paused, changed) := (r : GoalRow * bool) in
        if changed : bool then
          let* _ := appendAndPublishEvents ws sid [pausedEvent "user" "user_interrupt" paused []] in Ret tt
        else Ret tt
  | None => Ret tt
  end.

Definition pauseGoalForInterrupt (ws sid : string) (triggerEventId : option string) : Act unit :=
  match triggerEventId with
  | Some id =>
      let* trigger := read (getSessionEvent ws id) in
      if isSteerInterrupt trigger then Ret tt else pauseActiveGoalOnInterrupt ws sid
  | None => pauseActiveGoalOnInterrupt ws sid
  end.
End GoalActivities.
