(* ===== verification/SessionActivities.v ===== *)
(** * Session activities ([apps/worker/src/activities/session-state.ts, parent-wake.ts])

    What the session workflow calls between turns: failing a session, stopping
    the active turn, putting a turn back after its worker died, claiming the
    next turn, marking the session idle, and the completion notice a terminal
    state sends to the parent session. *)
From S2P Require Import Prelude Sql Json Schema PayloadSanitizer EventLog TurnQueue Goals ParentWake Activity GoalActivities.
From stdpp Require Import pretty.
#[local] Open Scope Z_scope.
#[local] Open Scope opengeni_scope.

Module SessionActivities.
Import PayloadSanitizer EventLog TurnQueue Goals ParentWake Activity GoalActivities.

(** ** The completion notice ([parent-wake.ts]) *)

Inductive TerminalStatus := Terminal_idle | Terminal_failed.

Definition goalStatusText (s : SessionGoalStatus) : jstr :=
  match s with G_active => js "active" | G_paused => js "paused" | G_completed => js "completed" end.
Definition terminalText (s : TerminalStatus) : jstr := match s with Terminal_idle => js "idle" | Terminal_failed => js "failed" end.

Definition childCompletionPayload (child : SessionRow) (goal : option GoalRow) (terminalStatus : TerminalStatus) : json :=
  JObj ([(js "childSessionId", JStr (js (s_id child))); (js "status", JStr (terminalText terminalStatus))]
        ++ match goal with
           | Some g => [(js "goal", JObj ([(js "status", JStr (goalStatusText (g_status g))); (js "text", JStr (g_text g))]
                          ++ optionalField "evidence" (g_evidence g) ++ optionalField "rationale" (g_rationale g)
                          ++ optionalField "pausedReason" (js <$> g_pausedReason g)))]
           | None => []
           end).

Definition childCompletionSummary (child : SessionRow) (goal : option GoalRow) (terminalStatus : TerminalStatus) : jstr :=
  let status := g_status <$> goal in
  let id := js "Worker session id: " ++ js (s_id child) ++ js "." in
  let first :=
    match terminalStatus with
    | Terminal_failed => js "A worker session you spawned has FAILED. " ++ id
    | Terminal_idle =>
        if bool_decide (status = Some G_completed) then js "A worker session you spawned has COMPLETED its goal. " ++ id
        else if bool_decide (status = Some G_paused) then js "A worker session you spawned has PAUSED its goal and gone idle. " ++ id
        else js "A worker session you spawned has finished its work and gone idle. " ++ id
    end in
  let about :=
    match goal with
    | None => []
    | Some g =>
        [js "Worker goal: " ++ g_text g]
        ++ match g_status g, truthy (g_evidence g) with
           | G_completed, Some e => [js "Completion evidence: " ++ e] | _, _ => [] end
        ++ match g_status g, truthy (g_rationale g) with
           | G_paused, Some r => [js "Pause rationale: " ++ r] | _, _ => [] end
    end in
  join newline (first :: about).

Definition childCompletionTrailing (parentGoalUserPaused : bool) : jstr :=
  if parentGoalUserPaused
  then js "Read each worker's session events/notebook output for its result. This session was paused by the user "
       ++ [8212] ++ js " do NOT resume or replace your goal; summarize the result for the user and stop."
  else js "Read each worker's session events/notebook output for its result, then continue. If your own goal was paused awaiting these workers, resume it now.".

Definition userPaused (goal : option GoalRow) : bool :=
  match goal with
  | Some g => bool_decide (g_status g = G_paused) && bool_decide (g_pausedReason g = Some "user_interrupt")
  | None => false
  end.

(** [child-completion:${childSessionId}:${episodeKey ?? child.lastSequence}] *)
Definition completionEventId (child : SessionRow) (childSessionId : string) (episodeKey : option string) : string :=
  String.append "child-completion:" (String.append childSessionId
    (String.append ":" (default (pretty (s_lastSequence child)) episodeKey))).

Definition completionInput (settings : Settings) (ws childSessionId parentId : string) (child : SessionRow)
  (goal parentGoal : option GoalRow) (terminalStatus : TerminalStatus) (episodeKey : option string)
  : WakeParentForChildCompletionInput := {|
  wp_workspaceId := ws; wp_parentSessionId := parentId; wp_clientEventId := completionEventId child childSessionId episodeKey;
  wp_childSummary := childCompletionSummary child goal terminalStatus;
  wp_trailing := childCompletionTrailing (userPaused parentGoal);
  wp_childCompletion := childCompletionPayload child goal terminalStatus;
  wp_reasoningEffortFallback := openaiReasoningEffort settings |}.

(** The body of the [try]; the [catch] logs and returns.  [canWake]: a
    [wakeSessionWorkflow] service is configured. *)
Definition notifyParentOfChildTerminal (settings : Settings) (canWake : bool) (ws childSessionId : string)
  (terminalStatus : TerminalStatus) (episodeKey : option string) : Act unit :=
  if negb (childCompletionParentWakeEnabled settings) then Ret tt
  else
    catch
      (let* child := read (getSession ws childSessionId) in
       match child with
       | None => Ret tt
       | Some child =>
           match s_parentSessionId child with
           | None => Ret tt
           | Some parentId =>
               let* goal := read (getSessionGoal ws childSessionId) in
               let* parentGoal := read (getSessionGoal ws parentId) in
               let* result := tx (fun now => wakeParentSessionForChildCompletion now
                 (completionInput settings ws childSessionId parentId child goal parentGoal terminalStatus episodeKey)) in
               match result with
               | already_delivered | parent_cancelled => Ret tt
               | wokePassive events _ => emit (Publish ws parentId events)
               | woke _ _ _ events workflowId =>
                   emit (Publish ws parentId events);;
                   if canWake then emit (WakeWorkflow (s_accountId child) ws parentId workflowId) else Ret tt
               end
           end
       end)
      (fun _ => Ret tt).

(** ** The activities ([session-state.ts]) *)

Definition WORKER_DEATH_MAX_REDISPATCHES : Z := 3.

(** [agent-turn.ts] *)
Definition WORKER_DEATH_RESUME_TEXT : jstr := join newline [
  js "[TURN RESUMED AFTER WORKER CRASH] The platform worker running this turn died before the turn finished.";
  js "Your conversation history above, including this turn's earlier work, is preserved up to the last checkpoint; anything in flight after that checkpoint was lost.";
  js "Continue the original task from where it left off. Before repeating any action with side effects, check whether it already happened."].

Record TurnActivityInput := { ta_workspaceId : string; ta_sessionId : string; ta_triggerEventId : string }.

Definition statusEvent (turnId : option string) (status : string) : AppendEventInput :=
  plainEvent "session.status.changed" turnId (JObj [(js "status", JStr (js status))]).
Definition payloadOf (trigger : option SessionEvent) : json := match trigger with Some e => ev_payload e | None => JNull end.
Definition textJson (s : string) : json := JStr (js s).

Definition failSession (settings : Settings) (canWake : bool) (input : TurnActivityInput) (error : option jstr) : Act unit :=
  let ws := ta_workspaceId input in let sid := ta_sessionId input in
  let* session := requireSession ws sid in
  if bool_decide (s_status session = S_failed) then Ret tt
  else
    let* trigger := read (getSessionEvent ws (ta_triggerEventId input)) in
    let turnId := s_activeTurnId session in
    let* _ := appendAndPublishEvents ws sid
      [plainEvent "turn.failed" turnId
         (JObj [(js "triggerEventId", textJson (ta_triggerEventId input)); (js "trigger", payloadOf trigger);
                (js "error", JStr (default (js "Agent activity failed before it could report a terminal state.") error))]);
       statusEvent turnId "failed"] in
    match turnId with Some id => write (fun now => finishTurn now ws id (ATurn T_failed)) | None => Ret tt end;;
    write (fun now => setSessionStatus now ws sid S_failed (Some None));;
    notifyParentOfChildTerminal settings canWake ws sid Terminal_failed None.

(** The whole queue, cancelled under one summary event. *)
Definition drainQueue (input : TurnActivityInput) : Act unit :=
  let ws := ta_workspaceId input in let sid := ta_sessionId input in
  let* drainedTurnIds := tx (fun now d => Ok (cancelQueuedSessionTurns now ws sid d)) in
  match drainedTurnIds with
  | [] => Ret tt
  | _ =>
      let* _ := appendAndPublishEvents ws sid
        [plainEvent "turn.queue_drained" None
           (JObj [(js "triggerEventId", textJson (ta_triggerEventId input));
                  (js "drainedCount", JNum (Z.of_nat (length drainedTurnIds)));
                  (js "drainedTurnIds", JArr (List.map textJson drainedTurnIds))])] in
      Ret tt
  end.

Definition cancelActiveTurn (input : TurnActivityInput) (trigger : option SessionEvent) (turnId : string) : Act unit :=
  let ws := ta_workspaceId input in let sid := ta_sessionId input in
  let* _ := appendAndPublishEvents ws sid
    [plainEvent "turn.cancelled" (Some turnId)
       (JObj [(js "triggerEventId", textJson (ta_triggerEventId input)); (js "reason", payloadOf trigger)]);
     statusEvent (Some turnId) "queued"] in
  write (fun now => finishTurn now ws turnId (ATurn T_cancelled));;
  write (fun now => setSessionStatus now ws sid S_queued (Some None)).

Definition interruptActiveTurn (input : TurnActivityInput) : Act unit :=
  let ws := ta_workspaceId input in let sid := ta_sessionId input in
  let* session := requireSession ws sid in
  let* trigger := read (getSessionEvent ws (ta_triggerEventId input)) in
  (if isSteerInterrupt trigger then Ret tt else pauseActiveGoalOnInterrupt ws sid;; drainQueue input);;
  match s_activeTurnId session with
  | None => Ret tt
  | Some turnId => cancelActiveTurn input trigger turnId
  end.

Inductive RequeueTurnAfterWorkerDeathResult := stale | exceeded (redispatches : Z) | requeued (redispatches : Z).

Definition recoverable (turn : option TurnRow) : bool :=
  match turn with Some t => bool_decide (t_status t ∈ [T_running; T_requires_action; T_cancelled]) | None => false end.

(** The synthesized notice and the requeue. *)
Definition preemptedEvent (input : TurnActivityInput) (turnId : string) (redispatches : Z) (resumeWithNotice : bool) : AppendEventInput :=
  plainEvent "turn.preempted" (Some turnId)
    (JObj ([(js "triggerEventId", textJson (ta_triggerEventId input)); (js "reason", textJson "worker_death");
            (js "redispatches", JNum redispatches); (js "resumeWithNotice", JBool resumeWithNotice)]
           ++ (if resumeWithNotice then [(js "text", JStr WORKER_DEATH_RESUME_TEXT)] else []))).

(** The notice and the requeue, once the death is counted. *)
Definition redispatch (settings : Settings) (o : Outside) (input : TurnActivityInput) (turnId : string) (redispatches : Z)
  : Act RequeueTurnAfterWorkerDeathResult :=
  let ws := ta_workspaceId input in let sid := ta_sessionId input in
  let* trigger := read (getSessionEvent ws (ta_triggerEventId input)) in
  let approvalRerun := match trigger with Some e => String.eqb (ev_type e) "user.approvalDecision" | None => false end in
  let resumeWithNotice := negb approvalRerun && String.eqb (sessionHistorySource settings) "items" && (0 <? turnHistoryItems o) in
  let* events := appendAndPublishEvents ws sid
    [preemptedEvent input turnId redispatches resumeWithNotice; statusEvent (Some turnId) "queued"] in
  let resumeFrom := match events with e :: _ => if resumeWithNotice then ev_id e else ta_triggerEventId input
                                    | [] => ta_triggerEventId input end in
  let* settled :=
    catch
      (let* _ := tx (fun now d => match requeuePreemptedTurn now ws turnId resumeFrom
                                          [T_running; T_requires_action; T_cancelled] d with
                                  | Ok d => Ok (tt, d) | Err e => Err e end) in Ret false)
      (fun requeueError =>
         let* current := read (getSessionTurn ws turnId) in
         if recoverable current then Throw requeueError else Ret true) in
  if settled : bool then Ret stale
  else
    write (fun now => setSessionStatus now ws sid S_queued (Some None));;
    Ret (requeued redispatches).

Definition requeueTurnAfterWorkerDeath (settings : Settings) (o : Outside) (input : TurnActivityInput) (turnId : string)
  : Act RequeueTurnAfterWorkerDeathResult :=
  let ws := ta_workspaceId input in
  let* turn := read (getSessionTurn ws turnId) in
  if negb (recoverable turn) then Ret stale
  else
    let* redispatches := tx (fun now => incrementTurnWorkerDeathRedispatches now ws turnId) in
    if WORKER_DEATH_MAX_REDISPATCHES <? redispatches then Ret (exceeded (redispatches - 1))
    else redispatch settings o input turnId redispatches.

Definition claimNextQueuedTurn (ws sid workflowId : string) : Act (option TurnRow) :=
  tx (fun now d => Ok (TurnQueue.claimNextQueuedTurn now ws sid workflowId d)).

Definition markSessionIdle (settings : Settings) (canWake : bool) (ws sid : string) : Act unit :=
  let* session := requireSession ws sid in
  (if bool_decide (s_status session ∈ [S_queued; S_running])
   then write (fun now => setSessionStatus now ws sid S_idle (Some None)) else Ret tt);;
  notifyParentOfChildTerminal settings canWake ws sid Terminal_idle None.

(** ** Worker deaths are bounded

    The counter of one turn, across everything the other actors may commit
    while and between recoveries. *)

(** [kept] are the turns no edit replaces the metadata of. *)
Inductive world_step (kept : string -> Prop) (d d' : Db) : Prop :=
| ws_queue : queue_step kept d d' -> world_step kept d d'
| ws_log : later_step d d' -> world_step kept d d'
| ws_goal : goal_step d d' -> world_step kept d d'.

Section counter.
Context (ws id : string).

Definition keeps_count (d d' : Db) : Prop := forall n, counter_ge ws id n d -> counter_ge ws id n d'.

#[local] Instance keeps_count_preorder : PreOrder keeps_count.
Proof. split; [by intros d n|intros d1 d2 d3 H1 H2 n H; by apply H2, H1]. Qed.

Lemma grows_keeps d d' : rows_grow d d' -> keeps_count d d'.
Proof. intros H n. by apply counter_ge_grows. Qed.

Lemma same_turns_keep d d' : db_turns d' = db_turns d -> (db_fresh d <= db_fresh d')%nat -> keeps_count d d'.
Proof. intros H1 H2. apply grows_keeps. by apply rows_grow_same. Qed.

Lemma append_keeps d d' : append_step d d' -> keeps_count d d'.
Proof. intros (Ht & _ & Hf)%append_step_turns. by apply same_turns_keep. Qed.

(** A fold rewrites the metadata of the digest turn from the digest turn's own. *)
Lemma fold_keeps now input digest cardEvent d r t d' :
  digest ∈ db_turns d -> foldDigest now input digest cardEvent d = Ok (r, t, d') -> keeps_count d d'.
Proof.
  intros Hin H n [Hm Hc]. unfold foldDigest in H. destruct (updated_rows (turnIs _ _) _ _); [done|]. injection H as _ _ <-.
  split; [exact Hm|]. intros x Hx Hid. cbn in Hx. apply elem_of_update_where in Hx as (y & Hy & ->).
  destruct (turnIs _ _ y) eqn:E; [|by apply Hc]. cbn in Hid. apply turnIs_true in E as [Hw Hi]. destruct (Hc y Hy Hid) as [? _].
  split; [done|]. destruct (Hc digest Hin) as [_ Hle]; [congruence|]. unfold workerDeathRedispatches in *. cbn.
  by rewrite assoc_set_field, bool_decide_eq_false_2 by (vm_compute; discriminate).
Qed.

Lemma wake_keeps now input d r d' : wakeParentSessionForChildCompletion now input d = Ok (r, d') -> keeps_count d d'.
Proof.
  intros H. unfold wakeParentSessionForChildCompletion in H. destruct (List.find _ _) as [parent|]; [|done].
  destruct (bool_decide _); [by injection H as _ <-|]. destruct (getSessionEventByClientEventId _ _ _ _); [by injection H as _ <-|].
  destruct (passiveMode parent).
  - destruct (insertEvents _ _) as [[rows d1]|] eqn:E; [|done]. injection H as _ <-.
    apply insertEvents_spec in E as (_ & _ & _ & Ht & _ & Hf). apply same_turns_keep; cbn; [done|lia].
  - destruct (insertEvents _ _) as [[rows d1]|] eqn:E; [|done]. apply insertEvents_spec in E as (_ & _ & _ & Ht & _ & Hf).
    destruct rows as [|cardRow rows]; [done|]. transitivity d1; [by apply same_turns_keep; [|lia]|].
    destruct (digestTurn _ _ _) as [digest|] eqn:Hdig.
    + destruct (foldDigest _ _ _ _ _) as [[[turn trig] d2]|] eqn:Hfold; [|done]. injection H as _ <-.
      apply digestTurn_elem in Hdig as (Hin & _). transitivity d2; [by eapply fold_keeps|by apply same_turns_keep].
    + destruct (insertEvents _ _) as [[queuedRows d3]|] eqn:E; [|done]. injection H as _ <-.
      apply insertEvents_spec in E as (_ & _ & _ & Ht3 & _ & Hf3). apply grows_keeps.
      eapply (rows_grow_snoc _ _ (fun r => r)); [cbn; rewrite List.map_id; exact Ht3|done|done|]. cbn in *. lia.
Qed.

Lemma goal_step_keeps d d' : goal_step d d' -> keeps_count d d'.
Proof. intros [Ht Hf]%goal_step_turns. by apply same_turns_keep. Qed.

Lemma world_step_keeps d d' : world_step (eq id) d d' -> keeps_count d d'.
Proof.
  intros [H|[now input r H|H]|H].
  - intros n. by apply counter_ge_step.
  - by eapply wake_keeps.
  - by apply append_keeps.
  - by apply goal_step_keeps.
Qed.

Lemma world_keeps d d' : rtc (world_step (eq id)) d d' -> keeps_count d d'.
Proof. induction 1 as [|x y z Hxy _ IH]; [done|]. transitivity y; [by apply world_step_keeps|done]. Qed.

Lemma append_respects ws' sid events : txs_in (respects keeps_count) (appendAndPublishEvents ws' sid events).
Proof.
  apply txs_in_bind; [|done]. split; [|by intros []]. intros now d r d' H. apply append_keeps. by eapply step_append.
Qed.

Lemma read_respects {R} (q : Db -> R) : txs_in (respects keeps_count) (read q : Act R).
Proof. by split; [intros ? ? ? ? [= _ <-]|intros []]. Qed.

Lemma redispatch_respects settings o input k : txs_in (respects keeps_count) (redispatch settings o input id k).
Proof.
  apply txs_in_bind; [apply read_respects|]. intros trigger.
  apply txs_in_bind; [apply append_respects|]. intros events.
  apply txs_in_bind; [apply txs_in_catch; [apply txs_in_bind; [|done]|]|].
  - split; [|by intros []]. intros now d3 r d4 H4. destruct (requeuePreemptedTurn _ _ _ _ _ _) eqn:E; [|done]. injection H4 as _ <-.
    apply grows_keeps, queue_step_grows. by eapply qs_requeue.
  - intros e. apply txs_in_bind; [apply read_respects|]. intros current. by destruct (recoverable current).
  - intros []; [done|]. apply txs_in_bind; [|done]. split; [|by intros []]. intros ? ? ? ? [= _ <-].
    apply grows_keeps, queue_step_grows. by eapply qs_status.
Qed.

Lemma redispatch_answers settings o input k :
  answers_in (fun r => r = stale \/ r = requeued k) (redispatch settings o input id k).
Proof.
  unfold redispatch. repeat (apply answers_in_bind; intros ?).
  match goal with |- context [if ?b then _ else _] => destruct b end; [by left|].
  apply answers_in_bind. intros ?. by right.
Qed.

Lemma requeue_keeps settings o input d r out d' :
  runs (world_step (eq id)) (requeueTurnAfterWorkerDeath settings o input id) d r out d' -> keeps_count d d'.
Proof.
  apply (runs_respect (world_step (eq id)) keeps_count); [apply world_step_keeps|].
  apply txs_in_bind; [apply read_respects|]. intros turn. destruct (negb _); [done|]. apply txs_in_bind.
  { split; [|by intros []]. intros ? ? ? ? H. apply grows_keeps, queue_step_grows. by eapply qs_increment. }
  intros k. destruct (_ <? k); [done|]. apply redispatch_respects.
Qed.

(** A call of the activity that finds the counter at [c] and answers [requeued]
    has counted past it, within the bound. *)
Lemma requeue_counts settings o input d out d' n c :
  ta_workspaceId input = ws -> counter_ge ws id c d ->
  runs (world_step (eq id)) (requeueTurnAfterWorkerDeath settings o input id) d (Ok (requeued n)) out d' ->
  c < n <= WORKER_DEATH_MAX_REDISPATCHES /\ counter_ge ws id (c + 1) d'.
Proof.
  intros Hws Hc H. unfold requeueTurnAfterWorkerDeath in H. rewrite Hws in H. cbv zeta in H. clear Hws.
  apply runs_bind in H as [(e & ? & _)|(turn & o1 & d1 & o2 & Hread & H & ->)]; [done|].
  assert (Hc1 : counter_ge ws id c d1) by exact (runs_respect (world_step (eq id)) keeps_count _ _ _ _ _ world_step_keeps (read_respects _) Hread c Hc).
  destruct (negb (recoverable turn)); [by destruct H|].
  apply runs_bind in H as [(e & ? & _)|(k & o3 & d2 & o4 & Hinc & H & ->)]; [done|].
  destruct Hinc as (now2 & e3 & x2 & e4 & Hw2 & Hcm2 & Hinc).
  assert (Hk : c < k /\ counter_ge ws id (c + 1) d2).
  { destruct x2; [|by destruct Hinc]. destruct Hinc as ([= ->] & _ & ->). inversion Hcm2; simplify_eq.
    eapply counter_ge_increment; [|done]. by apply (world_keeps d1). }
  destruct Hk as [Hk Hc2]. destruct (WORKER_DEATH_MAX_REDISPATCHES <? k) eqn:Emax; [by destruct H|]. breflect.
  destruct (runs_answer _ _ _ _ _ _ _ (redispatch_answers settings o input k) H) as [?|[= ->]]; [done|]. split; [done|].
  by apply (runs_respect (world_step (eq id)) keeps_count _ _ _ _ _ world_step_keeps (redispatch_respects settings o input k) H).
Qed.

(** A history: other transactions, and calls of the activity for one turn; [n]
    counts the calls that put the turn back. *)
Inductive recoveries : Db -> nat -> Db -> Prop :=
| rec_done d : recoveries d 0 d
| rec_other d d1 n d2 : world_step (eq id) d d1 -> recoveries d1 n d2 -> recoveries d n d2
| rec_call settings o input d r out d1 n d2 :
    ta_workspaceId input = ws ->
    runs (world_step (eq id)) (requeueTurnAfterWorkerDeath settings o input id) d r out d1 -> recoveries d1 n d2 ->
    recoveries d (match r with Ok (requeued _) => S n | _ => n end) d2.

Lemma recoveries_bound d n d' c : counter_ge ws id c d -> recoveries d n d' -> c <= WORKER_DEATH_MAX_REDISPATCHES ->
  c + Z.of_nat n <= WORKER_DEATH_MAX_REDISPATCHES.
Proof.
  intros Hc H. revert c Hc. induction H as [d|d d1 n d2 Hw _ IH|settings o input d r out d1 n d2 Hws Hr _ IH]; intros c Hc Hb.
  - cbn. lia.
  - apply IH; [by eapply world_step_keeps|done].
  - destruct r as [[| |k]|e]; try (apply IH; [by apply (requeue_keeps _ _ _ _ _ _ _ Hr)|done]).
    destruct (requeue_counts _ _ _ _ _ _ _ _ Hws Hc Hr) as [Hk Hc1]. specialize (IH _ Hc1 ltac:(lia)). lia.
Qed.
End counter.

(** (C9) A turn that keeps killing its worker is put back at most three times:
    over any history of recovery calls and other transactions, with other actors
    committing between the transactions of every call, no more than
    [WORKER_DEATH_MAX_REDISPATCHES] calls answer [requeued].  The one
    transaction left out is an edit that replaces the metadata of this very turn
    while it is queued, which restarts the count
    ([TurnQueue.edit_unfences_zombie]). *)
Theorem redispatch_bounded ws k d n d' :
  (k < db_fresh d)%nat ->
  (forall r, r ∈ db_turns d -> t_id r = uuid k -> t_workspaceId r = ws /\ 0 <= workerDeathRedispatches r) ->
  recoveries ws (uuid k) d n d' ->
  Z.of_nat n <= WORKER_DEATH_MAX_REDISPATCHES.
Proof.
  intros Hk Hr H. apply (recoveries_bound ws (uuid k) d n d' 0); [|done|done]. split; [by exists k|exact Hr].
Qed.

(** ** An interrupt *)

Section interrupt.
Context (now : Z) (ws sid : string).

(** What an append of plain events leaves. *)
Definition calm (d d' : Db) : Prop :=
  log_ok d' /\ db_turns d' = db_turns d /\ db_goals d' = db_goals d /\
  forall s, getSession ws sid d = Some s ->
  exists s', getSession ws sid d' = Some s' /\ s_status s' = s_status s /\ s_activeTurnId s' = s_activeTurnId s.

Definition plain (i : AppendEventInput) : Prop := in_producerId i = None /\ in_clientEventId i = None.

Lemma append_plain inputs d s :
  log_ok d -> getSession ws sid d = Some s -> Forall plain inputs ->
  exists evs d', exec now (appendAndPublishEvents ws sid inputs) d = (Ok evs, [Publish ws sid evs], d') /\ calm d d'.
Proof.
  intros Hok Hf Hp.
  assert (Happ : exists evs d', appendSessionEvents now ws sid inputs d = Ok (evs, d') /\ calm d d').
  { unfold appendSessionEvents. destruct inputs as [|i inputs]; [eexists _, _; split; [done|]; split_and!; [done..|]; intros r ?; by exists r|].
    unfold getSession in Hf. rewrite Hf. apply find_session in Hf as Hin. destruct Hin as (Hin & Hw & Hi).
    destruct (insertEvents_total s (s_lastSequence s) now (i :: inputs) d) as (rows & d1 & Hins).
    - intros e He Ho. by eapply log_ok_bound.
    - eapply Forall_impl; [exact Hp|]. by intros x [? _].
    - intros j c e Hj Hc. destruct (proj1 (Forall_forall _ _) Hp j Hj) as [_ ?]. congruence.
    - assert (omap in_clientEventId (i :: inputs) = []) as ->; [|constructor].
      clear -Hp. induction Hp as [|x l [_ Hx] _ IH]; [done|]. cbn. by rewrite Hx.
    - rewrite Hins. eexists _, _. split; [done|]. apply insertEvents_spec in Hins as Hspec. destruct Hspec as (_ & _ & Hs & Ht & Hg & _).
      split_and!; [|done|done|].
      + eapply log_ok_batch; [exact Hok|exact Hf|exact Hins|]. intros r. by split_and!.
      + intros r Hr. unfold getSession in *. cbn. rewrite Hs, (find_update _ _ _ _ _ _ r) by done.
        eexists. split; [done|]. by case_match. }
  destruct Happ as (evs & d' & Happ & Hcalm). exists evs, d'. split; [|exact Hcalm].
  unfold appendAndPublishEvents, tx, emit. cbn [bind exec]. by rewrite Happ.
Qed.

Lemma log_ok_status d status active : log_ok d -> log_ok (setSessionStatus now ws sid status active d).
Proof.
  intros Hok. eapply (log_ok_extend d _ []); [exact Hok|by rewrite app_nil_r|reflexivity|done|].
  intros r Hr. cbn. split; [done|]. destruct (inSession ws sid r); cbn; lia.
Qed.

(** A stop pauses the goal. *)
Lemma pause_exec d s :
  log_ok d -> getSession ws sid d = Some s ->
  exists out d', exec now (pauseActiveGoalOnInterrupt ws sid) d = (Ok tt, out, d') /\ log_ok d' /\ db_turns d' = db_turns d /\
    (forall g, getSessionGoal ws sid d' = Some g -> g_status g <> G_active) /\
    exists s', getSession ws sid d' = Some s' /\ s_status s' = s_status s /\ s_activeTurnId s' = s_activeTurnId s.
Proof.
  intros Hok Hf. unfold pauseActiveGoalOnInterrupt. rewrite exec_read.
  destruct (getSessionGoal ws sid d) as [g|] eqn:Hg.
  2: { eexists _, d. split; [done|]. split_and!; [done|done|by rewrite Hg|by exists s]. }
  destruct (bool_decide (g_status g = G_active)) eqn:Ha; cbn [negb].
  2: { eexists _, d. split; [done|]. split_and!; [done|done| |by exists s]. breflect. intros g'. rewrite Hg. by intros [= <-]. }
  breflect. set (input := Build_GoalStatusInput _ _ _ _).
  destruct (setSessionGoalStatus now ws sid input d) as [[[g1 c] d1]|e] eqn:Hset.
  2: { unfold setSessionGoalStatus in Hset. by rewrite Hg, Ha in Hset. }
  rewrite (exec_tx _ _ _ _ _ _ Hset). unfold setSessionGoalStatus in Hset. rewrite Hg, Ha in Hset.
  injection Hset as <- <- <-. match goal with |- context [exec now _ ?x] => set (d1 := x) end.
  assert (Hok1 : log_ok d1) by (eapply (log_ok_extend d d1 [] (fun _ => false) id);
    [exact Hok|by rewrite app_nil_r|unfold update_where; by rewrite List.map_id|done|intros r _; cbn; split; [done|lia]]).
  rewrite exec_bind. match goal with |- context [appendAndPublishEvents ws sid ?evs] =>
    destruct (append_plain evs d1 s Hok1 Hf) as (evs1 & d2 & Happ & Hok2 & Ht2 & Hg2 & Hs2); [by repeat constructor|] end.
  rewrite Happ. eexists _, d2. split; [done|]. split_and!; [done|by rewrite Ht2| |by apply Hs2].
  intros g' Hg'. unfold getSessionGoal in Hg, Hg'. rewrite Hg2 in Hg'. cbn in Hg'. rewrite find_update_where in Hg' by done.
  rewrite Hg in Hg'. cbn in Hg'. injection Hg' as <-. unfold goalIs. by rewrite bool_decide_eq_true_2.
Qed.

Lemma queue_emptied d : queuedTurns ws sid (cancelQueuedSessionTurns now ws sid d).2 = [].
Proof.
  apply Permutation_nil. symmetry. rewrite (queue_perm ws sid). cbn. unfold select_where. rewrite filter_none; [done|].
  apply Forall_forall. intros r Hr. apply elem_of_update_where in Hr as (x & _ & ->).
  destruct (turnOf ws sid x && hasStatus [T_queued] x) eqn:E; [|exact E]. apply andb_false_iff. by right.
Qed.

(** ... and drains the queue. *)
Lemma drain_exec input d s :
  ta_workspaceId input = ws -> ta_sessionId input = sid -> log_ok d -> getSession ws sid d = Some s ->
  exists out d', exec now (drainQueue input) d = (Ok tt, out, d') /\ log_ok d' /\ queuedTurns ws sid d' = [] /\
    db_goals d' = db_goals d /\
    (exists s', getSession ws sid d' = Some s' /\ s_status s' = s_status s /\ s_activeTurnId s' = s_activeTurnId s).
Proof.
  intros Hw Hs Hok Hf. unfold drainQueue. rewrite Hw, Hs. cbv zeta.
  destruct (cancelQueuedSessionTurns now ws sid d) as [ids d1] eqn:E.
  assert (Hop : (fun now d => Ok (cancelQueuedSessionTurns now ws sid d)) now d = Ok (E := DbError) (ids, d1)) by (by rewrite E).
  rewrite (exec_tx _ _ _ _ _ _ Hop). pose proof (queue_emptied d) as Hq. rewrite E in Hq. cbn in Hq.
  injection E as _ <-. match goal with |- context [exec now _ ?x] => set (d1 := x) in * end.
  assert (Hok1 : log_ok d1) by (eapply (log_ok_extend d d1 [] (fun _ => false) id);
    [exact Hok|by rewrite app_nil_r|unfold update_where; by rewrite List.map_id|done|intros r _; cbn; split; [done|lia]]).
  destruct ids as [|i ids]; [eexists _, d1; split; [done|]; split_and!; [done..|by exists s]|].
  rewrite exec_bind. match goal with |- context [appendAndPublishEvents ws sid ?evs] =>
    destruct (append_plain evs d1 s Hok1 Hf) as (evs1 & d2 & Happ & Hok2 & Ht2 & Hg2 & Hs2); [by repeat constructor|] end.
  rewrite Happ. eexists _, d2. split; [done|]. split_and!; [done|unfold queuedTurns; by rewrite Ht2|done|by apply Hs2].
Qed.

(** The active turn: cancelled, and the session back in the queue state. *)
Lemma cancel_exec input trigger id d s :
  ta_workspaceId input = ws -> ta_sessionId input = sid -> log_ok d -> getSession ws sid d = Some s ->
  exists out d', exec now (cancelActiveTurn input trigger id) d = (Ok tt, out, d') /\ log_ok d' /\
    db_goals d' = db_goals d /\ db_turns d' = db_turns (finishTurn now ws id (ATurn T_cancelled) d) /\
    (exists s', getSession ws sid d' = Some s' /\ s_status s' = S_queued /\ s_activeTurnId s' = None).
Proof.
  intros Hw Hs Hok Hf. unfold cancelActiveTurn. rewrite Hw, Hs. cbv zeta. rewrite exec_bind.
  match goal with |- context [appendAndPublishEvents ws sid ?evs] =>
    destruct (append_plain evs d s Hok Hf) as (evs1 & d1 & Happ & Hok1 & Ht1 & Hg1 & Hs1); [by repeat constructor|] end.
  rewrite Happ, exec_write. destruct (Hs1 s Hf) as (s1 & Hf1 & _). set (d2 := finishTurn now ws id (ATurn T_cancelled) d1).
  assert (Hok2 : log_ok d2) by (eapply (log_ok_extend d1 d2 [] (fun _ => false) (fun r => r));
    [exact Hok1|by rewrite app_nil_r|unfold update_where; by rewrite List.map_id|done|intros r _; cbn; split; [done|lia]]).
  eexists _, _. split; [reflexivity|]. split_and!; [by apply log_ok_status|done|cbn; by rewrite Ht1|].
  unfold getSession in *. cbn -[update_where]. rewrite (find_update _ _ _ _ _ _ s1) by done. eexists. split; [done|].
  apply find_session in Hf1 as (_ & ? & ?). by rewrite (proj2 (inSession_true ws sid s1)).
Qed.

Lemma sorted_filter {A} (R : A -> A -> Prop) (p : A -> bool) l : StronglySorted R l -> StronglySorted R (List.filter p l).
Proof.
  induction 1 as [|x l _ IH Hx]; cbn; [constructor|]. destruct (p x); [|done]. constructor; [done|].
  rewrite Forall_forall in *. intros y Hy. apply Hx. apply list_elem_of_In, filter_In in Hy as [Hy _]. by apply list_elem_of_In.
Qed.

(** Cancelling one turn takes it out of the queue, if it was there. *)
Lemma finish_dequeues id d d' :
  NoDup (List.map t_id (db_turns d)) -> db_turns d' = db_turns (finishTurn now ws id (ATurn T_cancelled) d) ->
  queuedTurns ws sid d' = List.filter (fun r => negb (bool_decide (t_id r = id))) (queuedTurns ws sid d).
Proof.
  intros Hnd Ht. assert (Hids : List.map t_id (db_turns d') = List.map t_id (db_turns d)) by (rewrite Ht; by apply map_id_update).
  apply queue_unique; [by rewrite Hids|apply sorted_filter, queue_sorted|].
  rewrite (queue_perm ws sid), Ht. cbn. rewrite (select_dequeue ws sid id); [done|]. intros r. by apply andb_false_iff; right.
Qed.
End interrupt.

(** Stop means stop: an interrupt that is not a steer leaves no queued turn
    and no active goal; a steer leaves the goal and the rest of the queue as
    they are.  Either way the active turn is cancelled and the session waits for
    its next claim. *)
Theorem interrupt_outcome now input d s :
  let ws := ta_workspaceId input in let sid := ta_sessionId input in
  log_ok d -> NoDup (List.map t_id (db_turns d)) -> getSession ws sid d = Some s ->
  exists out d' s', exec now (interruptActiveTurn input) d = (Ok tt, out, d') /\ getSession ws sid d' = Some s' /\ log_ok d' /\
    s_activeTurnId s' = None /\
    s_status s' = (if s_activeTurnId s then S_queued else s_status s) /\
    (forall id r, s_activeTurnId s = Some id -> r ∈ db_turns d' -> turnIs ws id r = true -> t_status r = T_cancelled) /\
    if isSteerInterrupt (getSessionEvent ws (ta_triggerEventId input) d)
    then db_goals d' = db_goals d /\
         queuedTurns ws sid d' = List.filter (fun r => negb (bool_decide (Some (t_id r) = s_activeTurnId s))) (queuedTurns ws sid d)
    else queuedTurns ws sid d' = [] /\ forall g, getSessionGoal ws sid d' = Some g -> g_status g <> G_active.
Proof.
  intros ws sid Hok Hnd Hf. unfold interruptActiveTurn. fold ws sid. cbv zeta.
  assert (Hreq : (fun _ d => match getSession ws sid d with Some s => Ok (s, d) | None => Err (SessionNotFound sid) end) now d
    = Ok (E := DbError) (s, d)) by (by rewrite Hf).
  unfold requireSession. rewrite (exec_tx now _ _ _ _ _ Hreq), exec_read. set (trigger := getSessionEvent ws (ta_triggerEventId input) d).
  assert (Hfirst : exists out1 d1 s1, exec now (if isSteerInterrupt trigger then Ret tt
      else pauseActiveGoalOnInterrupt ws sid;; drainQueue input) d = (Ok tt, out1, d1) /\ log_ok d1 /\
      getSession ws sid d1 = Some s1 /\ s_status s1 = s_status s /\ s_activeTurnId s1 = s_activeTurnId s /\
      if isSteerInterrupt trigger then d1 = d
      else queuedTurns ws sid d1 = [] /\ forall g, getSessionGoal ws sid d1 = Some g -> g_status g <> G_active).
  { destruct (isSteerInterrupt trigger); [by eexists _, d, s|]. rewrite exec_bind.
    destruct (pause_exec now ws sid d s Hok Hf) as (o1 & d1 & -> & Hok1 & Ht1 & Hg1 & s1 & Hf1 & Hs1 & Ha1).
    destruct (drain_exec now ws sid input d1 s1 eq_refl eq_refl Hok1 Hf1) as (o2 & d2 & -> & Hok2 & Hq2 & Hg2 & s2 & Hf2 & Hs2 & Ha2).
    eexists _, d2, s2. split; [done|]. split_and!; [done|done|congruence|congruence|done|].
    intros g. unfold getSessionGoal in *. rewrite Hg2. apply Hg1. }
  destruct Hfirst as (o1 & d1 & s1 & Hex & Hok1 & Hf1 & Hs1 & Ha1 & Hrest). rewrite exec_bind, Hex.
  destruct (s_activeTurnId s) as [id|] eqn:Hact.
  - destruct (cancel_exec now ws sid input trigger id d1 s1 eq_refl eq_refl Hok1 Hf1) as (o2 & d2 & -> & Hok2 & Hg2 & Ht2 & s2 & Hf2 & Hs2 & Ha2).
    eexists _, d2, s2. split; [done|]. split_and!; [done..| |].
    + intros id' r [= <-] Hr Hid. rewrite Ht2 in Hr. cbn in Hr. apply elem_of_update_where in Hr as (x & _ & ->).
      destruct (turnIs ws id x) eqn:E; [done|congruence].
    + destruct (isSteerInterrupt trigger).
      * subst d1. split; [done|]. rewrite (finish_dequeues now ws sid id d d2 Hnd Ht2). apply filter_ext. intros r.
        f_equal. apply bool_decide_ext. naive_solver.
      * destruct Hrest as [Hq Hg]. split; [|intros g; unfold getSessionGoal in *; rewrite Hg2; apply Hg].
        apply Permutation_nil. symmetry. rewrite (queue_perm ws sid), Ht2. cbn.
        rewrite (select_dequeue ws sid id) by (intros r; by apply andb_false_iff; right). rewrite <- (queue_perm ws sid). by rewrite Hq.
  - eexists _, d1, s1. split; [reflexivity|]. split_and!; [done|done|done|done|done|].
    destruct (isSteerInterrupt trigger); [|done]. subst d1. split; [done|]. symmetry. apply filter_all, Forall_forall.
    intros r _. apply negb_true_iff. by apply bool_decide_eq_false.
Qed.

(** ** Examples *)

Definition exampleSettings : Settings := {|
  goalMaxAutoContinuations := Some 5; goalNoProgressLimit := 3; openaiReasoningEffort := "low"; mcpServers := ["opengeni"];
  billingMode := "none"; usageLimitsMode := "none"; maxMonthlyCostMicrosPerAccount := None;
  maxMonthlyAgentRunsPerWorkspace := None; sessionHistorySource := "items"; childCompletionParentWakeEnabled := true |}.
Definition exampleOutside : Outside := {|
  policyBlocks := None; isCodexBilledTurn := fun _ => false; balanceMicros := 0; monthlyModelCost := 0;
  monthlyAgentRuns := 0; turnHistoryItems := 2 |}.
Definition exampleCall : TurnActivityInput := {| ta_workspaceId := "w"; ta_sessionId := "s1"; ta_triggerEventId := "e" |}.

(** A worker death of the turn [uuid 2], and the claim that follows. *)
Definition deathOf (now : Z) (d : Db) := exec now (requeueTurnAfterWorkerDeath exampleSettings exampleOutside exampleCall (uuid 2)) d.
Definition afterDeath (now : Z) (d : Db) : Db := (TurnQueue.claimNextQueuedTurn now "w" "s1" "wf" (deathOf now d).2).2.
Definition death1 : Db := Eval vm_compute in afterDeath 10 db4.
Definition death2 : Db := Eval vm_compute in afterDeath 20 death1.
Definition death3 : Db := Eval vm_compute in afterDeath 30 death2.

Lemma one_death now k d e n d' :
  (deathOf now d).1.1 = Ok (requeued k) -> afterDeath now d = e ->
  recoveries "w" (uuid 2) e n d' -> recoveries "w" (uuid 2) d (S n) d'.
Proof.
  intros Hk <- H. pose proof (exec_runs (world_step (eq (uuid 2))) now (requeueTurnAfterWorkerDeath exampleSettings exampleOutside exampleCall (uuid 2)) d) as Hr.
  fold (deathOf now d) in Hr. rewrite Hk in Hr. eapply (rec_call "w" (uuid 2) _ _ _ _ (Ok (requeued k))); [|exact Hr|]; [done|].
  eapply rec_other; [|exact H]. apply ws_queue. eapply qs_claim. apply surjective_pairing.
Qed.

(** The bound is reached. *)
Example three_deaths : recoveries "w" (uuid 2) db4 3 death3 /\ (deathOf 40 death3).1.1 = Ok (exceeded 3).
Proof.
  split; [|vm_compute; reflexivity].
  apply (one_death 10 1 db4 death1 2 death3); [vm_compute; reflexivity..|].
  apply (one_death 20 2 death1 death2 1 death3); [vm_compute; reflexivity..|].
  apply (one_death 30 3 death2 death3 0 death3); [vm_compute; reflexivity..|apply rec_done].
Qed.

Lemma redispatch_bounded_witness : Z.of_nat 3 <= WORKER_DEATH_MAX_REDISPATCHES.
Proof.
  apply (redispatch_bounded "w" 2 db4 3 death3); [apply (bool_decide_unpack _); vm_compute; reflexivity| |exact (proj1 three_deaths)].
  intros r Hr Hid. assert (Hall : forallb (fun r => String.eqb (t_workspaceId r) "w" && (0 <=? workerDeathRedispatches r)) (db_turns db4) = true) by (vm_compute; reflexivity).
  rewrite forallb_forall in Hall. apply list_elem_of_In in Hr. specialize (Hall r Hr). breflect.
  by split.
Defined.

(** A session with a goal, an active turn and a queued one. *)
Definition busyDb : Db := Eval vm_compute in
  let d := (enqueueSessionTurn 3 (exampleTurnInput true false) (enqueueSessionTurn 2 (exampleTurnInput false false) goalDb).2).2 in
  (TurnQueue.claimNextQueuedTurn 4 "w" "s1" "wf" d).2.
Definition busySession : SessionRow := Eval vm_compute in default (exampleSession "s1") (getSession "w" "s1" busyDb).
Definition stopped : result DbError unit * list Outgoing * Db := Eval vm_compute in exec 5 (interruptActiveTurn exampleCall) busyDb.

Lemma busyDb_ok : log_ok busyDb.
Proof.
  split; [by apply (bool_decide_unpack _); vm_compute|]. intros r Hr. apply list_elem_of_In in Hr.
  assert (Hall : forallb (fun r => bool_decide (s_lastSequence r = 0)) (db_sessions busyDb) && bool_decide (db_events busyDb = []) = true)
    by (vm_compute; reflexivity).
  breflect. rewrite forallb_forall in H. specialize (H r Hr). breflect. unfold session_log, select_where. by rewrite H0, H.
Qed.

Lemma interrupt_outcome_witness :
  length (queuedTurns "w" "s1" busyDb) = 1%nat /\ queuedTurns "w" "s1" stopped.2 = [] /\
  forall g, getSessionGoal "w" "s1" stopped.2 = Some g -> g_status g <> G_active.
Proof.
  split; [vm_compute; reflexivity|].
  destruct (interrupt_outcome 5 exampleCall busyDb busySession) as (out & d' & s' & Hex & _ & _ & _ & _ & _ & Hout).
  - exact busyDb_ok.
  - apply (bool_decide_unpack _). vm_compute. reflexivity.
  - vm_compute. reflexivity.
  - assert (stopped.2 = d') as -> by (change stopped with (Ok (E := DbError) tt, stopped.1.2, stopped.2); transitivity (exec 5 (interruptActiveTurn exampleCall) busyDb).2; [vm_compute; reflexivity|by rewrite Hex]).
    assert (Hno : isSteerInterrupt (getSessionEvent (ta_workspaceId exampleCall) (ta_triggerEventId exampleCall) busyDb) = false)
      by (vm_compute; reflexivity).
    rewrite Hno in Hout. exact Hout.
Defined.
End SessionActivities.
