(* ===== verification/SessionWorkflow.v ===== *)
(** * The session workflow ([apps/worker/src/workflows/session.ts])

    The Temporal workflow that drives one session: it claims turns, runs each as
    a long activity, reacts to signals while it waits, and decides when to idle
    out, to hold, or to continue as new.  Between two [await]s the workflow runs
    alone, so it is a state machine whose control points ([Pc]) are the awaits
    of the source; [step] runs the straight-line code up to the next one.
    Signal handlers run at any control point.  What the activities answer is the
    input of the machine. *)
From S2P Require Import Prelude Schema.

Module SessionWorkflow.

Definition TURNS_PER_RUN_BACKSTOP : Z := 2000.
Definition CODEX_CAPACITY_CHECKS_PER_RUN_BACKSTOP : Z := 512.
Definition ROTATION_IDLE_FLOOR_MS : Z := 60000.

(** ** Data of the activities *)

Inductive TurnResultStatus := R_idle | R_requires_action | R_failed | R_cancelled | R_preempted.
#[export] Instance TurnResultStatus_eq_dec : EqDecision TurnResultStatus.
Proof. solve_decision. Defined.

(** [cw_nextCheckAt] is the parsed date, [None] when it is not a date. *)
Record CodexCapacityWaitRef := { cw_waiterId : string; cw_generation : Z; cw_nextCheckAt : option Z }.

Record RunAgentTurnResult := {
  r_status : TurnResultStatus;
  r_continueDelayMs : option Z;
  r_idleUntilReset : bool;
  r_capacityWait : option CodexCapacityWaitRef
}.

Inductive TimeoutType := HEARTBEAT | SCHEDULE_TO_START | START_TO_CLOSE | SCHEDULE_TO_CLOSE.
Inductive FailureCause := TimeoutFailure (timeoutType : TimeoutType) | OtherCause.
Inductive Error := ActivityFailure (cause : FailureCause) | CancelledError | OtherError.

Inductive ReconcileCause := cause_timer | cause_signal | cause_queue.
Inductive GoalAction := goal_none | goal_queue | goal_continue | goal_paused.
Inductive RequeueResult := requeued (redispatches : Z) | stale | exceeded (redispatches : Z).

Record Turn := { turnId : string; triggerEventId : string }.

(** What the workflow schedules. *)
Inductive Command :=
| ClaimNextQueuedTurn
| GetCodexCapacityWait
| MaybeContinueGoal
| PauseGoalForInterrupt (trigger : string)
| MarkSessionIdle
| RunAgentSegment (turn : Turn)
| CancelSegment
| InterruptActiveTurn (trigger : string)
| RequeueTurnAfterWorkerDeath (turn : Turn)
| FailSession (turn : Turn)
| ReconcileCodexCapacityWait (waiterId : string) (generation : Z) (cause : ReconcileCause)
| ContinueAsNew.

(** What it is answered. *)
Inductive Response :=
| Claimed (turn : option Turn)
| CapacityWait (wait : option CodexCapacityWaitRef)
| GoalContinued (action : GoalAction)
| Done
| TurnResult (result : RunAgentTurnResult)
| Requeued (result : RequeueResult)
| Reconciled (waiting : option CodexCapacityWaitRef)
| Threw (error : Error).

(** ** Pure helpers *)

Definition continuationHoldMs (result : RunAgentTurnResult) (floorMs : Z) : Z :=
  if negb (bool_decide (r_status result = R_idle)) then 0
  else
    let delay := default 0 (r_continueDelayMs result) in
    if r_idleUntilReset result then Z.max delay floorMs else Z.max delay 0.

Definition isWorkerDeathFailure (error : Error) : bool :=
  match error with
  | ActivityFailure (TimeoutFailure HEARTBEAT) | ActivityFailure (TimeoutFailure SCHEDULE_TO_START) => true
  | _ => false
  end.

Definition isCancellation (error : Error) : bool := match error with CancelledError => true | _ => false end.

(** JavaScript truthiness of a nullable string. *)
Definition truthy (id : option string) : option string :=
  match id with Some (String _ _) => id | _ => None end.
Definition isSet (id : option string) : bool := match id with Some _ => true | None => false end.

(** ** Control points, state *)

Inductive Exit := exit_idle | exit_stopped | exit_failed.

Inductive Pc :=
| AwaitClaim
| AwaitCapacityRead
| AwaitGoal
| AwaitIdle (seenWakeups : Z)
| AwaitPauseGoal
| AwaitMarkStopped
| AwaitFinalClaim (seenWakeups : Z)
| AwaitMarkIdle (seenWakeups : Z)
| AwaitInterruptTurn
| AwaitTurn (turn : Turn) (baseline : Z * Z)
| AwaitFailureCapacity (turn : Turn) (error : Error) (baseline : Z * Z)
| AwaitRequeue (turn : Turn)
| AwaitFailSession
| AwaitApproval (turn : Turn) (result : RunAgentTurnResult)
| AwaitHold (seenWakeups holdMs : Z)
| AwaitCapacity (current : CodexCapacityWaitRef) (seenWakeups seenCapacityWakeups timerMs : Z)
| AwaitReconcile
| ContinuedAsNew
| Completed (exit : Exit)
| Failed (error : Error).

Record St := {
  approvalQueue : list string;
  interruptedEventId : option string;
  wakeups : Z;
  capacityWakeups : Z;
  turnsThisRun : Z;
  capacityChecksThisRun : Z;
  pc : Pc;
  commands : list Command
}.
#[export] Instance etaSt : Settable St := fun s =>
  Build_St (approvalQueue s) (interruptedEventId s) (wakeups s) (capacityWakeups s) (turnsThisRun s)
    (capacityChecksThisRun s) (pc s) (commands s).

Inductive Signal :=
| userMessage (eventId : string)
| queueChanged
| approvalDecision (eventId : string)
| interrupt (eventId : string)
| codexCapacityChanged (revision : Z).

Definition handleSignal (sig : Signal) (s : St) : St :=
  match sig with
  | userMessage _ | queueChanged => s <| wakeups ::= Z.succ |>
  | approvalDecision eventId => s <| approvalQueue ::= fun q => q ++ [eventId] |>
  | interrupt eventId => s <| interruptedEventId := Some eventId |>
  | codexCapacityChanged _ => s <| capacityWakeups ::= Z.succ |>
  end.

(** The options of [SessionWorkflowInput] that steer the run, the patch markers
    its history carries, and what [workflowInfo] and [Date.now] say. *)
Record Config := {
  maxTurnsPerRun : option Z;
  maxCapacityChecksPerRun : option Z;
  patched_continue_as_new : bool;
  patched_capacity_wait : bool;
  patched_worker_death : bool
}.
Record Info := { continueAsNewSuggested : bool; now : Z }.

Section workflow.
Context (config : Config).

(** Schedule a command and wait. *)
Definition await (c : Command) (p : Pc) (s : St) : St := s <| commands ::= fun l => l ++ [c] |> <| pc := p |>.

(** The top of the [while (true)] loop. *)
Definition topOfLoop (info : Info) (s : St) : St :=
  if patched_continue_as_new config
     && (continueAsNewSuggested info || (default TURNS_PER_RUN_BACKSTOP (maxTurnsPerRun config) <=? turnsThisRun s))
     && negb (isSet (interruptedEventId s))
  then await ContinueAsNew ContinuedAsNew (s <| approvalQueue := [] |>)
  else await ClaimNextQueuedTurn AwaitClaim s.

Definition interruptActiveTurn (trigger : string) (s : St) : St :=
  await (InterruptActiveTurn trigger) AwaitInterruptTurn s.

(** [runTurn], up to its first await. *)
Definition runTurn (turn : Turn) (s : St) : St :=
  match truthy (interruptedEventId s) with
  | Some trigger => interruptActiveTurn trigger s
  | None => await (RunAgentSegment turn) (AwaitTurn turn (wakeups s, capacityWakeups s)) s
  end.

Definition reconcile (current : CodexCapacityWaitRef) (cause : ReconcileCause) (s : St) : St :=
  await (ReconcileCodexCapacityWait (cw_waiterId current) (cw_generation current) cause) AwaitReconcile s.

(** One iteration of [waitForCodexCapacity] up to its await; its [return] goes
    back to the top of the loop from every caller. *)
Definition waitForCodexCapacity (info : Info) (current : CodexCapacityWaitRef) (entryBaseline : option (Z * Z)) (s : St) : St :=
  if isSet (interruptedEventId s) then topOfLoop info s
  else
    let seenWakeups := match entryBaseline with Some b => b.1 | None => wakeups s end in
    let seenCapacityWakeups := match entryBaseline with Some b => b.2 | None => capacityWakeups s end in
    let timerMs := match cw_nextCheckAt current with Some t => Z.max 0 (t - now info) | None => 0 end in
    if negb (wakeups s =? seenWakeups) then reconcile current cause_queue s
    else if negb (capacityWakeups s =? seenCapacityWakeups) then reconcile current cause_signal s
    else if 0 <? timerMs then s <| pc := AwaitCapacity current seenWakeups seenCapacityWakeups timerMs |>
    else reconcile current cause_timer s.

(** After [if (!turn)]'s capacity read. *)
Definition afterCapacityRead (s : St) : St :=
  if isSet (interruptedEventId s) then s <| pc := AwaitIdle (wakeups s) |>
  else await MaybeContinueGoal AwaitGoal s.

Definition afterNoTurn (s : St) : St :=
  if negb (isSet (interruptedEventId s)) && patched_capacity_wait config then await GetCodexCapacityWait AwaitCapacityRead s
  else afterCapacityRead s.

(** After the 5 s idle wait. *)
Definition afterIdleWait (info : Info) (woke : bool) (seenWakeups : Z) (s : St) : St :=
  match truthy (interruptedEventId s) with
  | Some idleInterruptEventId =>
      await (PauseGoalForInterrupt idleInterruptEventId) AwaitPauseGoal (s <| interruptedEventId := None |>)
  | None =>
      if woke then topOfLoop info s
      else await ClaimNextQueuedTurn (AwaitFinalClaim seenWakeups) s
  end.

Definition afterFailure (turn : Turn) (error : Error) (s : St) : St :=
  if isWorkerDeathFailure error && patched_worker_death config
  then await (RequeueTurnAfterWorkerDeath turn) (AwaitRequeue turn) s
  else await (FailSession turn) AwaitFailSession s.

Definition holdOrLoop (info : Info) (result : RunAgentTurnResult) (s : St) : St :=
  let holdMs := continuationHoldMs result ROTATION_IDLE_FLOOR_MS in
  if 0 <? holdMs then s <| pc := AwaitHold (wakeups s) holdMs |> else topOfLoop info s.

(** After the race, on the turn's result. *)
Definition afterTurn (info : Info) (turn : Turn) (result : RunAgentTurnResult) (baseline : Z * Z) (s : St) : St :=
  match r_status result with
  | R_failed => s <| pc := Completed exit_failed |>
  | R_cancelled | R_preempted => topOfLoop info s
  | R_idle | R_requires_action =>
      match r_capacityWait result with
      | Some wait => waitForCodexCapacity info wait (Some baseline) s
      | None =>
          if bool_decide (r_status result = R_requires_action) then s <| pc := AwaitApproval turn result |>
          else holdOrLoop info result s
      end
  end.

Definition afterApproval (info : Info) (turn : Turn) (result : RunAgentTurnResult) (s : St) : St :=
  match truthy (interruptedEventId s) with
  | Some trigger => interruptActiveTurn trigger s
  | None =>
      match approvalQueue s with
      | [] => holdOrLoop info result s
      | approvalEventId :: queue =>
          let s := s <| approvalQueue := queue |> in
          match truthy (Some approvalEventId) with
          | Some approvalEventId => runTurn {| turnId := turnId turn; triggerEventId := approvalEventId |} s
          | None => holdOrLoop info result s
          end
      end
  end.

(** The condition each pending [condition(...)] waits for. *)
Definition wakeCondition (s : St) : bool :=
  match pc s with
  | AwaitIdle seen => isSet (interruptedEventId s) || negb (wakeups s =? seen)
  | AwaitTurn _ _ => isSet (interruptedEventId s)
  | AwaitApproval _ _ => isSet (interruptedEventId s) || negb (bool_decide (approvalQueue s = []))
  | AwaitHold seen _ => isSet (interruptedEventId s) || negb (wakeups s =? seen)
  | AwaitCapacity _ seen seenCapacity _ =>
      isSet (interruptedEventId s) || negb (wakeups s =? seen) || negb (capacityWakeups s =? seenCapacity)
  | _ => false
  end.

(** The pending condition holds. *)
Definition wake (info : Info) (s : St) : option St :=
  if negb (wakeCondition s) then None
  else
    match pc s with
    | AwaitIdle seen => Some (afterIdleWait info true seen s)
    | AwaitTurn _ _ =>
        (* the race went to the interrupt *)
        Some (interruptActiveTurn (default EmptyString (interruptedEventId s)) (s <| commands ::= fun l => l ++ [CancelSegment] |>))
    | AwaitApproval turn result => Some (afterApproval info turn result s)
    | AwaitHold _ _ => Some (topOfLoop info s)
    | AwaitCapacity current seen seenCapacity _ =>
        if isSet (interruptedEventId s) then Some (topOfLoop info s)
        else Some (reconcile current (if negb (wakeups s =? seen) then cause_queue else cause_signal) s)
    | _ => None
    end.

(** The timer of a timed condition fires; a condition that already holds wins. *)
Definition timeout (info : Info) (s : St) : option St :=
  if wakeCondition s then None
  else
    match pc s with
    | AwaitIdle seen => Some (afterIdleWait info false seen s)
    | AwaitHold _ _ => Some (topOfLoop info s)
    | AwaitCapacity current _ _ _ => Some (reconcile current cause_timer s)
    | _ => None
    end.

(** An activity answers.  Only the turn's and the goal check's failures are
    caught; any other fails the workflow. *)
Definition resolve (info : Info) (r : Response) (s : St) : option St :=
  match pc s, r with
  | AwaitClaim, Claimed (Some turn) => Some (runTurn turn (s <| turnsThisRun ::= Z.succ |>))
  | AwaitClaim, Claimed None => Some (afterNoTurn s)
  | AwaitCapacityRead, CapacityWait (Some wait) => Some (waitForCodexCapacity info wait None s)
  | AwaitCapacityRead, CapacityWait None => Some (afterCapacityRead s)
  | AwaitGoal, GoalContinued goal_continue | AwaitGoal, GoalContinued goal_queue => Some (topOfLoop info s)
  | AwaitGoal, GoalContinued _ => Some (s <| pc := AwaitIdle (wakeups s) |>)
  | AwaitGoal, Threw error =>
      if isCancellation error then Some (s <| pc := Failed error |>) else Some (s <| pc := AwaitIdle (wakeups s) |>)
  | AwaitPauseGoal, Done => Some (await MarkSessionIdle AwaitMarkStopped s)
  | AwaitMarkStopped, Done => Some (s <| pc := Completed exit_stopped |>)
  | AwaitFinalClaim _, Claimed (Some turn) => Some (runTurn turn (s <| turnsThisRun ::= Z.succ |>))
  | AwaitFinalClaim seen, Claimed None => Some (await MarkSessionIdle (AwaitMarkIdle seen) s)
  | AwaitMarkIdle seen, Done =>
      if isSet (interruptedEventId s) || negb (wakeups s =? seen) then Some (topOfLoop info s)
      else Some (s <| pc := Completed exit_idle |>)
  | AwaitInterruptTurn, Done => Some (topOfLoop info (s <| interruptedEventId := None |>))
  | AwaitTurn turn baseline, TurnResult result => Some (afterTurn info turn result baseline s)
  | AwaitTurn turn baseline, Threw error =>
      if patched_capacity_wait config then Some (await GetCodexCapacityWait (AwaitFailureCapacity turn error baseline) s)
      else Some (afterFailure turn error s)
  | AwaitFailureCapacity turn _ baseline, CapacityWait (Some wait) =>
      Some (waitForCodexCapacity info wait (Some baseline) s)
  | AwaitFailureCapacity turn error _, CapacityWait None => Some (afterFailure turn error s)
  | AwaitRequeue turn, Requeued (exceeded _) => Some (await (FailSession turn) AwaitFailSession s)
  | AwaitRequeue turn, Requeued _ => Some (topOfLoop info s)
  | AwaitFailSession, Done => Some (s <| pc := Completed exit_failed |>)
  | AwaitReconcile, Reconciled None => Some (topOfLoop info s)
  | AwaitReconcile, Reconciled (Some next) =>
      let s := s <| capacityChecksThisRun ::= Z.succ |> in
      if negb (isSet (interruptedEventId s))
         && (continueAsNewSuggested info
             || (default CODEX_CAPACITY_CHECKS_PER_RUN_BACKSTOP (maxCapacityChecksPerRun config) <=? capacityChecksThisRun s))
      then Some (await ContinueAsNew ContinuedAsNew s)
      else Some (waitForCodexCapacity info next None s)
  | AwaitClaim, Threw error | AwaitCapacityRead, Threw error | AwaitPauseGoal, Threw error
  | AwaitMarkStopped, Threw error | AwaitFinalClaim _, Threw error | AwaitMarkIdle _, Threw error
  | AwaitInterruptTurn, Threw error | AwaitFailureCapacity _ _ _, Threw error | AwaitRequeue _, Threw error
  | AwaitFailSession, Threw error | AwaitReconcile, Threw error => Some (s <| pc := Failed error |>)
  | _, _ => None
  end.

Definition running (s : St) : bool :=
  match pc s with ContinuedAsNew | Completed _ | Failed _ => false | _ => true end.

Inductive Input := ISignal (sig : Signal) | IWake | ITimeout | IResolve (r : Response).

Definition step (info : Info) (i : Input) (s : St) : option St :=
  match i with
  | ISignal sig => if running s then Some (handleSignal sig s) else None
  | IWake => wake info s
  | ITimeout => timeout info s
  | IResolve r => resolve info r s
  end.

Definition start (info : Info) : St :=
  topOfLoop info {| approvalQueue := []; interruptedEventId := None; wakeups := 0; capacityWakeups := 0;
                    turnsThisRun := 0; capacityChecksThisRun := 0; pc := AwaitClaim; commands := [] |}.

Fixpoint run (l : list (Info * Input)) (s : St) : option St :=
  match l with
  | [] => Some s
  | (info, i) :: l => match step info i s with Some s => run l s | None => None end
  end.
End workflow.

(** ** A pending interrupt *)

(** The event of the newest interrupt signal. *)
Definition latest (e : string) (i : Info * Input) : string := match i.2 with ISignal (interrupt e') => e' | _ => e end.
Definition named (i : Info * Input) : Prop := match i.2 with ISignal (interrupt e') => e' <> EmptyString | _ => True end.
(** Work that would run past an interrupt. *)
Definition defers (c : Command) : Prop := match c with RunAgentSegment _ | ContinueAsNew | MaybeContinueGoal => False | _ => True end.
Definition carriesOut (e : string) (c : Command) : Prop := c = InterruptActiveTurn e \/ c = PauseGoalForInterrupt e.
Definition waits (p : Pc) : bool :=
  match p with AwaitIdle _ | AwaitTurn _ _ | AwaitApproval _ _ | AwaitHold _ _ | AwaitCapacity _ _ _ _ => true | _ => false end.
Record pendingAt (e : string) (s : St) : Prop := {
  pa_set : interruptedEventId s = Some e; pa_named : e <> EmptyString;
  pa_free : pc s <> AwaitInterruptTurn; pa_kept : pc s <> ContinuedAsNew; pa_awake : pc s <> Completed exit_idle
}.

Section pending.
Context (config : Config) (info : Info) (e : string).
(** What a step makes of a pending interrupt. *)
Definition defersOrServes (e' : string) (s s' : St) : Prop := exists pre, Forall defers pre /\
  ((commands s' = commands s ++ pre /\ pendingAt e' s') \/ exists c, carriesOut e' c /\ commands s' = commands s ++ pre ++ [c]).

Lemma truthy_named (s : St) : interruptedEventId s = Some e -> e <> EmptyString -> truthy (interruptedEventId s) = Some e.
Proof. intros ->. by destruct e. Qed.
Lemma keeps s s' : commands s' = commands s -> pendingAt e s' -> defersOrServes e s s'.
Proof. intros Hc Hp. exists []. split; [constructor|]. left. by rewrite app_nil_r. Qed.
Lemma awaits s s0 c p : commands s0 = commands s -> interruptedEventId s0 = Some e -> e <> EmptyString -> defers c ->
  p <> AwaitInterruptTurn -> p <> ContinuedAsNew -> p <> Completed exit_idle -> defersOrServes e s (await c p s0).
Proof. intros Hc Hi He Hd H1 H2 H3. exists [c]. split; [by repeat constructor|]. left. unfold await. cbn. by rewrite Hc. Qed.
Lemma serves s s0 c p : commands s0 = commands s -> carriesOut e c -> defersOrServes e s (await c p s0).
Proof. intros Hc He. exists []. split; [constructor|]. right. exists c. unfold await. cbn. by rewrite Hc. Qed.
Lemma top_pending s s0 : commands s0 = commands s -> interruptedEventId s0 = Some e -> e <> EmptyString -> defersOrServes e s (topOfLoop config info s0).
Proof. intros Hc Hi He. unfold topOfLoop. rewrite Hi, andb_false_r. by apply awaits. Qed.
Lemma runTurn_pending t s s0 : commands s0 = commands s -> interruptedEventId s0 = Some e -> e <> EmptyString -> defersOrServes e s (runTurn t s0).
Proof. intros Hc Hi He. unfold runTurn. rewrite truthy_named by done. apply serves; [done|by left]. Qed.
Lemma capacity_pending c b s s0 : commands s0 = commands s -> interruptedEventId s0 = Some e -> e <> EmptyString -> defersOrServes e s (waitForCodexCapacity config info c b s0).
Proof. intros Hc Hi He. unfold waitForCodexCapacity. rewrite Hi. by apply top_pending. Qed.
Lemma hold_pending r s s0 : commands s0 = commands s -> interruptedEventId s0 = Some e -> e <> EmptyString -> defersOrServes e s (holdOrLoop config info r s0).
Proof. intros Hc Hi He. unfold holdOrLoop. destruct (0 <? _); [by apply keeps|by apply top_pending]. Qed.
Lemma afterTurn_pending t r b s : interruptedEventId s = Some e -> e <> EmptyString -> defersOrServes e s (afterTurn config info t r b s).
Proof.
  intros Hi He. unfold afterTurn. destruct (r_status r), (r_capacityWait r); try (by apply keeps); try (by apply top_pending); try (by apply capacity_pending);
    (case_bool_decide; [by apply keeps|by apply hold_pending]).
Qed.
Lemma afterNoTurn_pending s s0 : commands s0 = commands s -> interruptedEventId s0 = Some e -> e <> EmptyString -> defersOrServes e s (afterNoTurn config s0).
Proof. intros Hc Hi He. unfold afterNoTurn, afterCapacityRead. rewrite Hi. by apply keeps. Qed.
Lemma afterIdleWait_pending woke seen s : interruptedEventId s = Some e -> e <> EmptyString -> defersOrServes e s (afterIdleWait config info woke seen s).
Proof. intros Hi He. unfold afterIdleWait. rewrite truthy_named by done. apply serves; [done|by right]. Qed.
Lemma afterApproval_pending t r s : interruptedEventId s = Some e -> e <> EmptyString -> defersOrServes e s (afterApproval config info t r s).
Proof. intros Hi He. unfold afterApproval. rewrite truthy_named by done. apply serves; [done|by left]. Qed.
Lemma afterFailure_pending t x s : interruptedEventId s = Some e -> e <> EmptyString -> defersOrServes e s (afterFailure config t x s).
Proof. intros Hi He. unfold afterFailure. destruct (_ && _); by apply awaits. Qed.

Lemma resolve_pending r s s' : resolve config info r s = Some s' -> pendingAt e s -> defersOrServes e s s'.
Proof.
  intros H [Hi He Hf Hk Ha]. unfold resolve in H.
  destruct (pc s) eqn:Hpc; try done; destruct r as [[?|]|[?|]|[]| |r|[]|[?|]|x]; try done; rewrite ?Hi in H; cbn [isSet orb negb andb] in H;
    repeat match type of H with context [if ?b then _ else _] => destruct b eqn:? end; simplify_eq;
    first [by apply runTurn_pending|by apply afterNoTurn_pending|by apply capacity_pending|by apply top_pending|by apply afterTurn_pending
      |by apply afterFailure_pending|by apply awaits|by apply keeps|by (unfold afterCapacityRead; rewrite Hi; apply keeps)|idtac].
  exfalso. apply andb_true_iff in Heqb as [Heqb _]. cbn in Heqb. by rewrite Hi in Heqb.
Qed.
Lemma wake_pending s s' : wake config info s = Some s' -> pendingAt e s -> defersOrServes e s s'.
Proof.
  intros H [Hi He Hf Hk Ha]. unfold wake in H. destruct (negb _); [done|]. destruct (pc s) eqn:Hpc; try done; rewrite ?Hi in H; cbn [isSet default] in H; simplify_eq.
  - by apply afterIdleWait_pending.
  - exists [CancelSegment]. split; [by repeat constructor|]. right. exists (InterruptActiveTurn e). split; [by left|]. unfold interruptActiveTurn, await. cbn. by rewrite <- app_assoc.
  - by apply afterApproval_pending.
  - by apply top_pending.
  - by apply top_pending.
Qed.
Lemma pending_wakes s : pendingAt e s -> timeout config info s = None /\ (waits (pc s) = true -> exists s', wake config info s = Some s').
Proof.
  intros [Hi _ _ _ _]. unfold timeout, wake, wakeCondition. rewrite Hi. destruct (pc s); cbn; (split; [done|]); try done; intros _; eauto.
Qed.
End pending.

Lemma step_pending config info i e s s' : step config info i s = Some s' -> pendingAt e s -> named (info, i) -> defersOrServes (latest e (info, i)) s s'.
Proof.
  destruct i as [sig| | |r]; cbn [step]; intros H Hp Hn.
  - destruct (running s) eqn:Hr; [|done]. injection H as <-. destruct Hp as [Hi He Hf Hk Ha]. exists []. split; [constructor|]. left. rewrite app_nil_r. by destruct sig.
  - by apply (wake_pending config info e).
  - apply (pending_wakes config info e) in Hp as [Ht _]. by rewrite Ht in H.
  - by apply (resolve_pending config info e r).
Qed.

(** (C7) Interrupts come first.  From the moment an interrupt is pending, and
    whatever signals, answers and timers follow, the workflow dispatches no
    turn, asks for no continuation of the goal and does not continue as new,
    until it schedules the activity that carries the newest interrupt out; until
    then the interrupt stays pending, no timer fires, every wait has been woken,
    and the workflow does not end idle.  (The one interrupt this leaves out is
    one that arrives while the activity of another is still running: see
    [second_interrupt_lost].) *)
Theorem interrupts_first config tr s s' e :
  run config tr s = Some s' -> pendingAt e s -> Forall named tr ->
  (exists pre, commands s' = commands s ++ pre /\ Forall defers pre /\ pendingAt (foldl latest e tr) s' /\
     forall info, timeout config info s' = None /\ (waits (pc s') = true -> exists s'', wake config info s' = Some s'')) \/
  (exists tr1 tr2 s1 pre c, tr = tr1 ++ tr2 /\ run config tr1 s = Some s1 /\ run config tr2 s1 = Some s' /\
     commands s1 = commands s ++ pre ++ [c] /\ Forall defers pre /\ carriesOut (foldl latest e tr1) c).
Proof.
  revert s e. induction tr as [|[info i] tr IH]; intros s e; cbn [run foldl].
  { intros [= <-] Hp _. left. exists []. rewrite app_nil_r. split_and!; [done|constructor|done|]. intros info. by apply (pending_wakes config info e). }
  destruct (step config info i s) as [s0|] eqn:Hs; [|done]. intros Hr Hp [Hn Hns]%Forall_cons.
  destruct (step_pending _ _ _ _ _ _ Hs Hp Hn) as (pre & Hd & [(Hc & Hp0)|(c & Hcar & Hc)]).
  - destruct (IH _ _ Hr Hp0 Hns) as [(pre' & Hc' & Hd' & Hrest)|(tr1 & tr2 & s1 & pre' & c & -> & Hr1 & Hr2 & Hc' & Hd' & Hcar)].
    + left. exists (pre ++ pre'). rewrite Hc', Hc, app_assoc. split; [done|]. split; [by apply Forall_app|done].
    + right. exists ((info, i) :: tr1), tr2, s1, (pre ++ pre'), c. cbn [run foldl app]. rewrite Hs, Hc', Hc, <- !app_assoc. split_and!; try done. by apply Forall_app.
  - right. exists [(info, i)], tr, s0, pre, c. cbn [run foldl app]. by rewrite Hs.
Qed.

(** ** No lost wakeup

    The workflow beside its durable queue.  A client commits a turn, then sends
    the signal for it; [unsignalled] counts the commits whose signal is still on
    its way.  An activity answers from the queue as it is at that moment, and
    some of them put a turn back. *)
Record Sys := { wf : St; queued : Z; unsignalled : Z }.

Definition isTurnSignal (sig : Signal) : bool :=
  match sig with userMessage _ | queueChanged => true | _ => false end.

(** What an answer says of the queue, before and after the activity. *)
Definition answers (r : Response) (q q' : Z) : Prop :=
  match r with
  | Claimed (Some _) => 0 < q /\ q' = q - 1
  | Claimed None => q = 0 /\ q' = q
  | GoalContinued goal_continue | Requeued (requeued _) => q' = q + 1
  | TurnResult result => if bool_decide (r_status result = R_preempted) then q' = q + 1 else q' = q
  | Reconciled None => q <= q'
  | _ => 0 <= q' <= q
  end.

Inductive sys_step (config : Config) : Sys -> Sys -> Prop :=
| client_enqueue y : sys_step config y {| wf := wf y; queued := queued y + 1; unsignalled := unsignalled y + 1 |}
| client_cancel y : 0 < queued y -> sys_step config y {| wf := wf y; queued := queued y - 1; unsignalled := unsignalled y |}
| client_signal y sig info w :
    0 < unsignalled y -> isTurnSignal sig = true -> step config info (ISignal sig) (wf y) = Some w ->
    sys_step config y {| wf := w; queued := queued y; unsignalled := unsignalled y - 1 |}
| other_input y i info w :
    (forall r, i <> IResolve r) -> step config info i (wf y) = Some w ->
    sys_step config y {| wf := w; queued := queued y; unsignalled := unsignalled y |}
| activity_answer y r info q w :
    answers r (queued y) q -> step config info (IResolve r) (wf y) = Some w ->
    sys_step config y {| wf := w; queued := q; unsignalled := unsignalled y |}.

(** The baseline a control point will compare [wakeups] with before it ends the run. *)
Definition baselineOf (p : Pc) : option Z :=
  match p with AwaitIdle seen | AwaitFinalClaim seen | AwaitMarkIdle seen => Some seen | _ => None end.

Definition covered (y : Sys) : Prop :=
  match pc (wf y) with
  | AwaitMarkIdle seen => queued y <= unsignalled y \/ seen < wakeups (wf y)
  | Completed exit_idle => queued y <= unsignalled y
  | _ => True
  end.

Definition sys_inv (y : Sys) : Prop :=
  0 <= queued y /\ 0 <= unsignalled y /\
  (forall seen, baselineOf (pc (wf y)) = Some seen -> seen <= wakeups (wf y)) /\ covered y.

(** A straight-line segment that ends in [p] is harmless when [p] carries no
    baseline older than it read and is not the idle exit. *)
Definition fresh (s : St) : Prop :=
  match pc s with
  | AwaitMarkIdle _ | Completed exit_idle => False
  | AwaitIdle seen | AwaitFinalClaim seen => seen <= wakeups s
  | _ => True
  end.

Lemma fresh_inv s q u : fresh s -> 0 <= q -> 0 <= u -> sys_inv {| wf := s; queued := q; unsignalled := u |}.
Proof.
  intros Hf Hq Hu. unfold sys_inv, covered; cbn. unfold fresh in Hf.
  split_and!; [done|done| |]; destruct (pc s) as [| | | | | | | | | | | | | | | | | |[]|];
    try done; cbn; by intros ? [= <-].
Qed.

Section liveness.
Context (config : Config) (info : Info).

Lemma top_fresh s : fresh (topOfLoop config info s).
Proof. unfold topOfLoop. by destruct (_ && _). Qed.

Lemma runTurn_fresh t s : fresh (runTurn t s).
Proof. unfold runTurn. by destruct (truthy _). Qed.

Lemma capacity_fresh c b s : fresh (waitForCodexCapacity config info c b s).
Proof.
  unfold waitForCodexCapacity. destruct (isSet _); [apply top_fresh|].
  by repeat (destruct (negb _) || destruct (0 <? _)).
Qed.

Lemma afterCapacityRead_fresh s : fresh (afterCapacityRead s).
Proof. unfold afterCapacityRead. destruct (isSet _); [|done]. cbn. unfold fresh; cbn. lia. Qed.

Lemma afterNoTurn_fresh s : fresh (afterNoTurn config s).
Proof. unfold afterNoTurn. destruct (_ && _); [done|apply afterCapacityRead_fresh]. Qed.

Lemma afterIdleWait_fresh woke seen s : seen <= wakeups s -> fresh (afterIdleWait config info woke seen s).
Proof. unfold afterIdleWait. intros H. destruct (truthy _); [done|]. destruct woke; [apply top_fresh|done]. Qed.

Lemma hold_fresh r s : fresh (holdOrLoop config info r s).
Proof. unfold holdOrLoop. destruct (_ <? _); [done|apply top_fresh]. Qed.

Lemma afterTurn_fresh t r b s : fresh (afterTurn config info t r b s).
Proof.
  unfold afterTurn. destruct (r_status r); try apply top_fresh; try done;
    (destruct (r_capacityWait r); [apply capacity_fresh|]); (destruct (bool_decide _); [done|apply hold_fresh]).
Qed.

Lemma afterApproval_fresh t r s : fresh (afterApproval config info t r s).
Proof.
  unfold afterApproval. destruct (truthy (interruptedEventId s)); [done|].
  destruct (approvalQueue s); [apply hold_fresh|]. destruct (truthy _); [apply runTurn_fresh|apply hold_fresh].
Qed.

Lemma afterFailure_fresh t e s : fresh (afterFailure config t e s).
Proof. unfold afterFailure. by destruct (_ && _). Qed.

Create HintDb fresh_db.
#[local] Hint Resolve top_fresh runTurn_fresh capacity_fresh afterCapacityRead_fresh afterNoTurn_fresh
  afterIdleWait_fresh hold_fresh afterTurn_fresh afterApproval_fresh afterFailure_fresh : fresh_db.

Lemma wake_fresh s s' :
  wake config info s = Some s' -> (forall seen, baselineOf (pc s) = Some seen -> seen <= wakeups s) -> fresh s'.
Proof.
  unfold wake. destruct (negb _); [done|]. intros H Hb. destruct (pc s); simplify_eq; auto with fresh_db; [done|].
  destruct (isSet _); simplify_eq; auto with fresh_db. done.
Qed.

Lemma timeout_fresh s s' :
  timeout config info s = Some s' -> (forall seen, baselineOf (pc s) = Some seen -> seen <= wakeups s) -> fresh s'.
Proof.
  unfold timeout. destruct (wakeCondition s); [done|]. intros H Hb. destruct (pc s); simplify_eq; auto with fresh_db. done.
Qed.
End liveness.

Lemma resolve_fresh config info r s s' :
  resolve config info r s = Some s' -> (forall seen, baselineOf (pc s) = Some seen -> seen <= wakeups s) ->
  fresh s' \/
  (exists seen, pc s = AwaitFinalClaim seen /\ r = Claimed None /\ pc s' = AwaitMarkIdle seen /\ wakeups s' = wakeups s) \/
  (exists seen, pc s = AwaitMarkIdle seen /\ r = Done /\ pc s' = Completed exit_idle /\ wakeups s = seen).
Proof.
  unfold resolve. intros H Hb.
  destruct (pc s) as [| | | | | |seen|seen| | | | | | | | | | | |] eqn:Hp; destruct r; try discriminate H;
    repeat match type of H with context [match ?x with _ => _ end] => destruct x eqn:? end;
    try discriminate H; injection H as <-;
    first [left; by auto using top_fresh, runTurn_fresh, capacity_fresh, afterCapacityRead_fresh,
             afterNoTurn_fresh, afterTurn_fresh, afterFailure_fresh
          | left; unfold fresh; cbn; lia | left; exact I | idtac].
  - right. left. by exists seen.
  - right. right. exists seen. split_and!; [done..|]. breflect. done.
Qed.

Lemma sys_step_inv config y y' : sys_step config y y' -> sys_inv y -> sys_inv y'.
Proof.
  intros Hs (Hq & Hu & Hb & Hc). destruct Hs as [y|y Hpos|y sig info w Hpos Hsig H|y i info w Hi H|y r info q w Ha H].
  - unfold sys_inv, covered in *; cbn. split_and!; [lia|lia|done|]. destruct (pc (wf y)) as [| | | | | | | | | | | | | | | | | |[]|]; try done; lia.
  - unfold sys_inv, covered in *; cbn. split_and!; [lia|lia|done|]. destruct (pc (wf y)) as [| | | | | | | | | | | | | | | | | |[]|]; try done; lia.
  - cbn [step] in H. destruct (running (wf y)) eqn:Hr; [|done]. injection H as <-.
    assert (Hp : pc (handleSignal sig (wf y)) = pc (wf y)) by by destruct sig.
    assert (Hw : wakeups (handleSignal sig (wf y)) = wakeups (wf y) + 1) by by destruct sig.
    unfold sys_inv, covered in *; cbn. rewrite Hp, Hw. unfold running in Hr. split_and!; [lia|lia| |].
    + intros seen Hs%Hb. lia.
    + destruct (pc (wf y)) as [| | | | | | |seen| | | | | | | | | | |[]|]; try done. specialize (Hb seen eq_refl). lia.
  - destruct i as [sig| | |r]; cbn [step] in H; [|apply fresh_inv; eauto using wake_fresh|apply fresh_inv; eauto using timeout_fresh|by destruct (Hi r)].
    destruct (running (wf y)) eqn:Hr; [|done]. injection H as <-.
    assert (Hp : pc (handleSignal sig (wf y)) = pc (wf y)) by by destruct sig.
    assert (Hw : wakeups (wf y) <= wakeups (handleSignal sig (wf y))) by (destruct sig; cbn; lia).
    unfold sys_inv, covered in *; cbn. rewrite Hp. split_and!; [lia|lia| |].
    + intros seen Hs%Hb. lia.
    + destruct (pc (wf y)) as [| | | | | | |seen| | | | | | | | | | |[]|]; try done. lia.
  - assert (0 <= q) by (destruct r as [[]| |[]| |res|[]|[]|]; cbn in Ha; try destruct (bool_decide _); lia).
    destruct (resolve_fresh config info r (wf y) w H Hb) as [Hf|[(seen & Hp & -> & Hp' & Hw)|(seen & Hp & -> & Hp' & Hw)]].
    + by apply fresh_inv.
    + unfold sys_inv, covered; cbn. rewrite Hp'. cbn in Ha |- *. split_and!; [lia|lia| |lia].
      intros ? [= <-]. rewrite Hw. apply Hb. by rewrite Hp.
    + unfold sys_inv, covered; cbn. rewrite Hp'. cbn in Ha |- *. split_and!; [lia|lia|done|].
      unfold covered in Hc. rewrite Hp in Hc. lia.
Qed.

Lemma sys_inv_reachable config y y' : sys_inv y -> rtc (sys_step config) y y' -> sys_inv y'.
Proof. intros Hi H. revert Hi. induction H; eauto using sys_step_inv. Qed.

(** (C6) No lost wakeup: whatever the interleaving of clients committing,
    cancelling and signalling turns with the workflow's own steps, when the
    workflow ends because it is idle, every turn still queued is one whose
    signal has not been delivered (and that signal will start a new run): a
    turn whose signal was taken is never stranded. *)
Theorem idle_exit_strands_nothing config info y q u :
  0 <= q -> 0 <= u ->
  rtc (sys_step config) {| wf := start config info; queued := q; unsignalled := u |} y ->
  pc (wf y) = Completed exit_idle -> queued y <= unsignalled y.
Proof.
  intros Hq Hu H Hp. apply sys_inv_reachable in H; [|by apply fresh_inv; [apply top_fresh|..]].
  destruct H as (_ & _ & _ & Hc). unfold covered in Hc. by rewrite Hp in Hc.
Qed.

Definition exampleConfig : Config :=
  {| maxTurnsPerRun := None; maxCapacityChecksPerRun := None; patched_continue_as_new := true;
     patched_capacity_wait := true; patched_worker_death := true |}.
Definition exampleInfo : Info := {| continueAsNewSuggested := false; now := 1000 |}.
Definition exampleTurn : Turn := {| turnId := "t1"; triggerEventId := "e1" |}.
Definition exampleResult (status : TurnResultStatus) (idleUntilReset : bool) : RunAgentTurnResult :=
  {| r_status := status; r_continueDelayMs := None; r_idleUntilReset := idleUntilReset; r_capacityWait := None |}.

(** ** Concrete schedules *)

Inductive SysInput :=
| SEnqueue | SDeliver (sig : Signal) | SSignal (sig : Signal) | SWake | STimeout | SAnswer (r : Response) (q : Z).

(** Runs one interleaving; [None] when a step is not possible there. *)
Definition sysRun1 (config : Config) (info : Info) (i : SysInput) (y : Sys) : option Sys :=
  let set w q u := {| wf := w; queued := q; unsignalled := u |} in
  match i with
  | SEnqueue => Some (set (wf y) (queued y + 1) (unsignalled y + 1))
  | SDeliver sig =>
      if (0 <? unsignalled y) && isTurnSignal sig
      then w ← step config info (ISignal sig) (wf y); Some (set w (queued y) (unsignalled y - 1)) else None
  | SSignal sig => w ← step config info (ISignal sig) (wf y); Some (set w (queued y) (unsignalled y))
  | SWake => w ← step config info IWake (wf y); Some (set w (queued y) (unsignalled y))
  | STimeout => w ← step config info ITimeout (wf y); Some (set w (queued y) (unsignalled y))
  | SAnswer r q =>
      let ok := match r with
                | Claimed (Some _) => (0 <? queued y) && (q =? queued y - 1)
                | Claimed None => (queued y =? 0) && (q =? 0)
                | _ => false
                end in
      let unchanged := match r with
                       | Claimed _ | GoalContinued goal_continue | Requeued (requeued _) | Reconciled None => false
                       | TurnResult result => negb (bool_decide (r_status result = R_preempted)) && (q =? queued y)
                       | _ => (0 <=? q) && (q <=? queued y)
                       end in
      if ok || unchanged
      then w ← step config info (IResolve r) (wf y); Some (set w q (unsignalled y)) else None
  end.

Fixpoint sysRun (config : Config) (info : Info) (l : list SysInput) (y : Sys) : option Sys :=
  match l with
  | [] => Some y
  | i :: l => match sysRun1 config info i y with Some y => sysRun config info l y | None => None end
  end.

Lemma sysRun1_step config info i y y' : sysRun1 config info i y = Some y' -> sys_step config y y'.
Proof.
  destruct i as [|sig|sig| | |r q]; cbn [sysRun1]; cbv zeta.
  - intros [= <-]. apply client_enqueue.
  - destruct (_ && _) eqn:E; [|done]. destruct (step _ _ _ _) eqn:H; intros [= <-]. breflect.
    by eapply client_signal.
  - destruct (step _ _ _ _) eqn:H; intros [= <-]. eapply other_input; [|exact H]. discriminate.
  - destruct (step _ _ _ _) eqn:H; intros [= <-]. eapply other_input; [|exact H]. discriminate.
  - destruct (step _ _ _ _) eqn:H; intros [= <-]. eapply other_input; [|exact H]. discriminate.
  - destruct (_ || _) eqn:E; [|done]. destruct (step _ _ _ _) eqn:H; intros [= <-].
    eapply activity_answer; [|exact H]. revert E. clear H.
    destruct r as [[]| |[]| |res|[]|[]|]; cbn [orb andb answers]; try destruct (bool_decide _);
      cbn [orb andb negb]; rewrite ?orb_false_r; intros; breflect; try discriminate; lia.
Qed.

Lemma sysRun_rtc config info l : forall y y', sysRun config info l y = Some y' -> rtc (sys_step config) y y'.
Proof.
  induction l as [|i l IH]; intros y y'; cbn [sysRun]; [by intros [= <-]|].
  destruct (sysRun1 _ _ _ _) eqn:E; [|done]. intros H%IH. eauto using rtc_l, sysRun1_step.
Qed.

Definition sysStart (q u : Z) : Sys := {| wf := start exampleConfig exampleInfo; queued := q; unsignalled := u |}.

(** A claim, a quiet idle wait, and the exit; a signal that lands in the middle of it. *)
Definition quietExit : list SysInput :=
  [SAnswer (Claimed None) 0; SAnswer (CapacityWait None) 0; SAnswer (GoalContinued goal_none) 0; STimeout;
   SAnswer (Claimed None) 0; SEnqueue; SAnswer Done 1].

Definition quietEnd : Sys :=
  Eval vm_compute in match sysRun exampleConfig exampleInfo quietExit (sysStart 0 0) with Some y => y | None => sysStart 0 0 end.

Lemma quietExit_runs : rtc (sys_step exampleConfig) (sysStart 0 0) quietEnd.
Proof. apply (sysRun_rtc exampleConfig exampleInfo quietExit). vm_compute. reflexivity. Qed.

Lemma idle_exit_strands_nothing_witness : pc (wf quietEnd) = Completed exit_idle /\ queued quietEnd = 1 /\ queued quietEnd <= unsignalled quietEnd.
Proof.
  split; [reflexivity|]. split; [reflexivity|].
  apply (idle_exit_strands_nothing exampleConfig exampleInfo quietEnd 0 0); [lia|lia|exact quietExit_runs|reflexivity].
Defined.

(** An interrupt while a turn runs, then a second one before the first is seen. *)
Definition interruptedTurn : St := (start exampleConfig exampleInfo) <| interruptedEventId := Some "e5"%string |> <| pc := AwaitTurn exampleTurn (0, 0) |>.
Definition twoInterrupts : list (Info * Input) :=
  [(exampleInfo, ISignal queueChanged); (exampleInfo, ISignal (interrupt "e6")); (exampleInfo, IWake); (exampleInfo, IResolve Done)].
Lemma interrupts_first_witness : exists tr1 tr2 s1 pre c, twoInterrupts = tr1 ++ tr2 /\ run exampleConfig tr1 interruptedTurn = Some s1 /\
  commands s1 = commands interruptedTurn ++ pre ++ [c] /\ Forall defers pre /\ carriesOut (foldl latest "e5"%string tr1) c.
Proof.
  destruct (run exampleConfig twoInterrupts interruptedTurn) as [s'|] eqn:Hr; [|vm_compute in Hr; discriminate Hr].
  assert (pendingAt "e5" interruptedTurn) as Hp by (split; vm_compute; congruence).
  assert (Forall named twoInterrupts) as Hn by (repeat constructor; discriminate).
  destruct (interrupts_first exampleConfig twoInterrupts interruptedTurn s' "e5" Hr Hp Hn) as [(pre & _ & _ & [Hset _ _ _ _] & _)|(tr1 & tr2 & s1 & pre & c & H)].
  - exfalso. vm_compute in Hr. injection Hr as <-. vm_compute in Hset. discriminate Hset.
  - exists tr1, tr2, s1, pre, c. destruct H as (H1 & H2 & _ & H3 & H4 & H5). split; [exact H1|]. split; [exact H2|]. split; [exact H3|]. split; [exact H4|exact H5].
Defined.

(** A capped account is not hammered: after a turn that ended idle on an
    exhausted rotation the workflow holds for at least a minute, claims nothing
    meanwhile, and only a wakeup, an interrupt or the timer ends the hold. *)
Theorem rotation_holds config info turn b result s s' :
  pc s = AwaitTurn turn b -> r_status result = R_idle -> r_idleUntilReset result = true -> r_capacityWait result = None ->
  step config info (IResolve (TurnResult result)) s = Some s' ->
  (exists ms, pc s' = AwaitHold (wakeups s) ms /\ ROTATION_IDLE_FLOOR_MS <= ms /\ default 0 (r_continueDelayMs result) <= ms) /\
  commands s' = commands s /\
  forall info' i s'', step config info' i s' = Some s'' ->
    match i with
    | ISignal sig => s'' = handleSignal sig s'
    | IWake => interruptedEventId s' <> None
    | ITimeout => s'' = topOfLoop config info' s'
    | IResolve _ => False
    end.
Proof.
  intros Hp Hi Hr Hc. cbn [step]. unfold resolve. rewrite Hp. unfold afterTurn. rewrite Hi, Hc.
  rewrite (bool_decide_eq_false_2 (R_idle = R_requires_action)) by discriminate. unfold holdOrLoop, continuationHoldMs.
  rewrite Hi, Hr, (bool_decide_eq_true_2 (R_idle = R_idle)) by reflexivity. cbn [negb].
  set (ms := Z.max _ _). assert (ROTATION_IDLE_FLOOR_MS <= ms) by (unfold ms; lia).
  destruct (0 <? ms) eqn:E; [|unfold ROTATION_IDLE_FLOOR_MS in *; breflect; lia]. intros [= <-]. split_and!.
  - exists ms. split_and!; [done..|]. unfold ms. lia.
  - done.
  - intros info' i s''. destruct i as [sig| | |r]; cbn [step].
    + by intros [= <-].
    + unfold wake, wakeCondition. cbn. rewrite Z.eqb_refl. by destruct (interruptedEventId s).
    + unfold timeout, wakeCondition. cbn. destruct (_ || _); [done|]. by intros [= <-].
    + by destruct r.
Qed.

Lemma rotation_holds_witness :
  let s := (start exampleConfig exampleInfo) <| pc := AwaitTurn exampleTurn (0, 0) |> in
  let result := exampleResult R_idle true in
  exists s', step exampleConfig exampleInfo (IResolve (TurnResult result)) s = Some s' /\
    exists ms, pc s' = AwaitHold (wakeups s) ms /\ ROTATION_IDLE_FLOOR_MS <= ms /\ default 0 (r_continueDelayMs result) <= ms.
Proof.
  intros s result. eexists. split; [vm_compute; reflexivity|].
  apply (rotation_holds exampleConfig exampleInfo exampleTurn (0, 0) result s); vm_compute; reflexivity.
Defined.

(** ** What modelling showed *)

(** The stop taken while idle does not re-check the queue: a turn committed and
    signalled just before the interrupt (the order in which a steer sends them)
    is left queued by a workflow that has ended, with no signal outstanding. *)
Theorem stop_strands_signalled_turn :
  exists y, rtc (sys_step exampleConfig) (sysStart 0 0) y /\
    pc (wf y) = Completed exit_stopped /\ queued y = 1 /\ unsignalled y = 0.
Proof.
  destruct (sysRun exampleConfig exampleInfo
    [SAnswer (Claimed None) 0; SAnswer (CapacityWait None) 0; SAnswer (GoalContinued goal_none) 0;
     SEnqueue; SDeliver queueChanged; SSignal (interrupt "steer"); SWake; SAnswer Done 1; SAnswer Done 1]
    (sysStart 0 0)) as [y|] eqn:E; [|vm_compute in E; discriminate].
  exists y. split; [by eapply sysRun_rtc|]. vm_compute in E. by injection E as <-.
Qed.

(** A second interrupt that arrives while the first is being carried out is
    cleared with it: nothing is ever scheduled for it. *)
Theorem second_interrupt_lost config info eventId s :
  pc s = AwaitInterruptTurn ->
  exists s' s'', step config info (ISignal (interrupt eventId)) s = Some s' /\
    step config info (IResolve Done) s' = Some s'' /\ interruptedEventId s'' = None /\
    exists c, commands s'' = commands s ++ [c] /\ (c = ClaimNextQueuedTurn \/ c = ContinueAsNew).
Proof.
  intros Hp. eexists _, _. cbn [step]. unfold running. rewrite Hp. split; [reflexivity|].
  unfold resolve. cbn [handleSignal]. split; [cbn; rewrite Hp; reflexivity|].
  unfold topOfLoop. destruct (_ && _); (split; [reflexivity|]); eexists; (split; [reflexivity|auto]).
Qed.

Lemma second_interrupt_lost_witness :
  let s := (start exampleConfig exampleInfo) <| pc := AwaitInterruptTurn |> in
  exists s' s'', step exampleConfig exampleInfo (ISignal (interrupt "stop")) s = Some s' /\
    step exampleConfig exampleInfo (IResolve Done) s' = Some s'' /\ interruptedEventId s'' = None /\
    exists c, commands s'' = commands s ++ [c] /\ (c = ClaimNextQueuedTurn \/ c = ContinueAsNew).
Proof. intros s. apply second_interrupt_lost. reflexivity. Defined.

(** An interrupt that arrives while a turn is being claimed hits the turn just
    claimed, which is cancelled without being run. *)
Theorem interrupt_hits_claimed_turn config info turn trigger s :
  pc s = AwaitClaim -> truthy (interruptedEventId s) = Some trigger ->
  exists s', step config info (IResolve (Claimed (Some turn))) s = Some s' /\
    commands s' = commands s ++ [InterruptActiveTurn trigger] /\ pc s' = AwaitInterruptTurn.
Proof.
  intros Hp Ht. cbn [step]. unfold resolve. rewrite Hp. eexists. split; [reflexivity|].
  unfold runTurn. cbn [interruptedEventId etaSt setWith]. cbn. by rewrite Ht.
Qed.
End SessionWorkflow.
