(* ===== verification/SandboxLease.v ===== *)
(** * The sandbox lease ([packages/db/src/index.ts], §4)

    One row per sandbox group says who owns the shared box: its liveness
    (cold, warming, warm, draining), its epoch, its instance and the archive a
    cold start replays; one row per live holder is the source of truth of the
    reference counts.  Each operation is one transaction on the group's locked
    row, so a run of the system is a sequence of operations. *)
From stdpp Require Import sorting.
From S2P Require Import Prelude Json Sql.

Module SandboxLease.

Inductive SandboxLeaseLiveness := cold | warming | warm | draining.
#[export] Instance SandboxLeaseLiveness_eq_dec : EqDecision SandboxLeaseLiveness.
Proof. solve_decision. Defined.

Inductive LeaseHolderKind := turn | viewer.
#[export] Instance LeaseHolderKind_eq_dec : EqDecision LeaseHolderKind.
Proof. solve_decision. Defined.

(** [sandbox_leases], less [updated_at].  The metering cursor is written by
    [Metering] alone. *)
Record LeaseRow := {
  l_id : nat;
  l_accountId : string;
  l_workspaceId : string;
  l_sandboxGroupId : string;
  l_liveness : SandboxLeaseLiveness;
  l_refcount : Z;
  l_turnHolders : Z;
  l_viewerHolders : Z;
  l_instanceId : option string;
  l_backend : string;
  l_os : string;
  l_image : option string;
  l_rigVersionId : option string;
  l_dataPlaneUrl : option string;
  l_terminalDataPlaneUrl : option string;
  l_leaseEpoch : Z;
  l_resumeBackendId : option jstr;
  l_resumeState : option json;
  l_lastMeterAt : option Z;
  l_lastMeterTick : Z;
  l_expiresAt : Z
}.
#[export] Instance etaLeaseRow : Settable LeaseRow := fun r =>
  Build_LeaseRow (l_id r) (l_accountId r) (l_workspaceId r) (l_sandboxGroupId r) (l_liveness r) (l_refcount r)
    (l_turnHolders r) (l_viewerHolders r) (l_instanceId r) (l_backend r) (l_os r) (l_image r) (l_rigVersionId r)
    (l_dataPlaneUrl r) (l_terminalDataPlaneUrl r) (l_leaseEpoch r) (l_resumeBackendId r) (l_resumeState r)
    (l_lastMeterAt r) (l_lastMeterTick r) (l_expiresAt r).

(** [sandbox_lease_holders] *)
Record HolderRow := {
  h_workspaceId : string;
  h_leaseId : nat;
  h_kind : LeaseHolderKind;
  h_holderId : string;
  h_subjectId : option string;
  h_lastHeartbeatAt : Z
}.
#[export] Instance etaHolderRow : Settable HolderRow := fun r =>
  Build_HolderRow (h_workspaceId r) (h_leaseId r) (h_kind r) (h_holderId r) (h_subjectId r) (h_lastHeartbeatAt r).

Record Db := { leases : list LeaseRow; holders : list HolderRow; fresh : nat }.
#[export] Instance etaDb : Settable Db := fun d => Build_Db (leases d) (holders d) (fresh d).

Inductive LeaseError :=
| SandboxImageConflictError (sandboxGroupId currentImage requestedImage : string)
| SandboxRigConflictError (sandboxGroupId currentRigVersionId requestedRigVersionId : string)
| LeaseRowVanished (sandboxGroupId : string).

Inductive AcquireRole := spawner | attached | rearmed | fenced.
#[export] Instance AcquireRole_eq_dec : EqDecision AcquireRole.
Proof. solve_decision. Defined.

Record AcquireLeaseInput := {
  a_accountId : string;
  a_workspaceId : string;
  a_sandboxGroupId : string;
  a_kind : LeaseHolderKind;
  a_holderId : string;
  a_subjectId : option string;
  a_backend : string;
  a_os : option string;
  a_image : option string;
  a_rigVersionId : option string;
  a_leaseTtlMs : Z;
  a_warmingLeaseTtlMs : option Z;
  a_expectedEpoch : option Z
}.

(** ** Predicates of the [where] clauses *)

Definition ofGroup (ws group : string) (r : LeaseRow) : bool :=
  bool_decide (l_workspaceId r = ws) && bool_decide (l_sandboxGroupId r = group).
Definition leaseIs (id : nat) (r : LeaseRow) : bool := Nat.eqb (l_id r) id.
Definition isLive (l : SandboxLeaseLiveness) (r : LeaseRow) : bool := bool_decide (l_liveness r = l).
(** [workspace_id = .. and sandbox_group_id = .. and liveness = .. and lease_epoch = ..] *)
Definition fence (ws group : string) (l : SandboxLeaseLiveness) (epoch : Z) (r : LeaseRow) : bool :=
  ofGroup ws group r && isLive l r && (l_leaseEpoch r =? epoch).
Definition drainFence (ws group : string) (epoch : Z) (r : LeaseRow) : bool :=
  fence ws group draining epoch r && (l_refcount r =? 0).
Definition holderOf (id : nat) (h : HolderRow) : bool := Nat.eqb (h_leaseId h) id.
Definition holderKind (kind : LeaseHolderKind) (h : HolderRow) : bool := bool_decide (h_kind h = kind).
Definition holderIs (id : nat) (kind : LeaseHolderKind) (holderId : string) (h : HolderRow) : bool :=
  holderOf id h && (holderKind kind h && bool_decide (h_holderId h = holderId)).

Definition leaseFor (ws group : string) (d : Db) : option LeaseRow := head (select_where (ofGroup ws group) (leases d)).

(** ** Holders and counts *)

Definition stampCounts (hs : list HolderRow) (r : LeaseRow) : LeaseRow :=
  r <| l_refcount := count_where (holderOf (l_id r)) hs |>
    <| l_turnHolders := count_where (fun h => holderOf (l_id r) h && holderKind turn h) hs |>
    <| l_viewerHolders := count_where (fun h => holderOf (l_id r) h && holderKind viewer h) hs |>.

Definition recomputeAndStampLease (now : Z) (leaseId : nat) (leaseTtlMs : Z)
  (setLiveness : option SandboxLeaseLiveness) (d : Db) : list LeaseRow * Db :=
  let stamp r :=
    let r := stampCounts (holders d) r <| l_expiresAt := now + leaseTtlMs |> in
    match setLiveness with Some l => r <| l_liveness := l |> | None => r end in
  (updated_rows (leaseIs leaseId) stamp (leases d),
   d <| leases ::= update_where (leaseIs leaseId) stamp |>).

Definition upsertLeaseHolder (now : Z) (leaseId : nat) (ws : string) (kind : LeaseHolderKind) (holderId : string)
  (subjectId : option string) (d : Db) : Db :=
  match select_where (holderIs leaseId kind holderId) (holders d) with
  | _ :: _ => d <| holders ::= update_where (holderIs leaseId kind holderId) (fun h => h <| h_lastHeartbeatAt := now |>) |>
  | [] => d <| holders ::= fun hs => hs ++ [{|
      h_workspaceId := ws; h_leaseId := leaseId; h_kind := kind; h_holderId := holderId;
      h_subjectId := subjectId; h_lastHeartbeatAt := now |}] |>
  end.

(** ** [acquireLease] *)

(** (1) insert, on conflict do nothing *)
Definition materialize (now : Z) (input : AcquireLeaseInput) (d : Db) : Db :=
  match leaseFor (a_workspaceId input) (a_sandboxGroupId input) d with
  | Some _ => d
  | None =>
      d <| leases ::= fun l => l ++ [{|
             l_id := fresh d; l_accountId := a_accountId input; l_workspaceId := a_workspaceId input;
             l_sandboxGroupId := a_sandboxGroupId input; l_liveness := cold; l_refcount := 0;
             l_turnHolders := 0; l_viewerHolders := 0; l_instanceId := None; l_backend := a_backend input;
             l_os := default "linux"%string (a_os input); l_image := a_image input;
             l_rigVersionId := a_rigVersionId input; l_dataPlaneUrl := None; l_terminalDataPlaneUrl := None;
             l_leaseEpoch := 0; l_resumeBackendId := None; l_resumeState := None;
             l_lastMeterAt := None; l_lastMeterTick := 0; l_expiresAt := now + a_leaseTtlMs input |}] |>
        <| fresh ::= S |>
  end.

(** Both sides known and different. *)
Definition differs (wanted actual : option string) : option (string * string) :=
  match wanted, actual with
  | Some w, Some a => if bool_decide (a = w) then None else Some (a, w)
  | _, _ => None
  end.

(** Re-stamps the axes this run carries. *)
Definition stampAxes (input : AcquireLeaseInput) (r : LeaseRow) : LeaseRow :=
  r <| l_image := match a_image input with Some i => Some i | None => l_image r end |>
    <| l_rigVersionId := match a_rigVersionId input with Some v => Some v | None => l_rigVersionId r end |>.

Definition soloReset (input : AcquireLeaseInput) (r : LeaseRow) : LeaseRow :=
  stampAxes input r <| l_liveness := cold |> <| l_instanceId := None |> <| l_dataPlaneUrl := None |>
    <| l_terminalDataPlaneUrl := None |> <| l_resumeBackendId := None |> <| l_resumeState := None |>.

Definition otherHolders (input : AcquireLeaseInput) (r : LeaseRow) (d : Db) : Z :=
  count_where (fun h => holderOf (l_id r) h
                        && negb (holderKind (a_kind input) h && bool_decide (h_holderId h = a_holderId input)))
    (holders d).

(** The shared-state conflict: refuse, recreate solo, or nothing to do. *)
Definition resolveConflict (input : AcquireLeaseInput) (row : LeaseRow) (d : Db)
  : result LeaseError (SandboxLeaseLiveness * Db) :=
  let imageConflict := differs (a_image input) (l_image row) in
  let rigConflict := differs (a_rigVersionId input) (l_rigVersionId row) in
  if bool_decide (l_liveness row = cold) then Ok (cold, d)
  else
    match imageConflict, rigConflict with
    | None, None => Ok (l_liveness row, d)
    | _, _ =>
        if 0 <? otherHolders input row d
        then
          match imageConflict, rigConflict with
          | Some (current, wanted), _ => Err (SandboxImageConflictError (a_sandboxGroupId input) current wanted)
          | None, Some (current, wanted) => Err (SandboxRigConflictError (a_sandboxGroupId input) current wanted)
          | None, None => Ok (l_liveness row, d)
          end
        else Ok (cold, d <| leases ::= update_where (leaseIs (l_id row)) (soloReset input) |>)
    end.

(** Register the holder, restamp, and answer. *)
Definition join (now : Z) (input : AcquireLeaseInput) (row : LeaseRow) (ttl : Z)
  (setLiveness : option SandboxLeaseLiveness) (role : AcquireRole) (d : Db)
  : result LeaseError (AcquireRole * LeaseRow * Db) :=
  let d := upsertLeaseHolder now (l_id row) (a_workspaceId input) (a_kind input) (a_holderId input) (a_subjectId input) d in
  let (updated, d) := recomputeAndStampLease now (l_id row) ttl setLiveness d in
  match updated with
  | [] => Err (LeaseRowVanished (a_sandboxGroupId input))
  | lease :: _ => Ok (role, lease, d)
  end.

Definition casWarming (input : AcquireLeaseInput) (r : LeaseRow) : LeaseRow :=
  stampAxes input r <| l_liveness := warming |>.

(** The part of the transaction under the row lock. *)
Definition acquireLocked (now : Z) (input : AcquireLeaseInput) (row : LeaseRow) (d : Db)
  : result LeaseError (AcquireRole * LeaseRow * Db) :=
  let warmingLeaseTtlMs := default (a_leaseTtlMs input) (a_warmingLeaseTtlMs input) in
  match resolveConflict input row d with
  | Err e => Err e
  | Ok (liveness, d) =>
      match liveness with
      | draining => join now input row (a_leaseTtlMs input) (Some warm) rearmed d
      | cold =>
          let cas r := leaseIs (l_id row) r && isLive cold r in
          let role := match select_where cas (leases d) with [] => attached | _ :: _ => spawner end in
          join now input row warmingLeaseTtlMs None role (d <| leases ::= update_where cas (casWarming input) |>)
      | warm =>
          if bool_decide (a_kind input = turn)
             && match a_expectedEpoch input with Some e => negb (l_leaseEpoch row =? e) | None => false end
          then Ok (fenced, row, d)
          else join now input row (a_leaseTtlMs input) None attached d
      | warming => join now input row warmingLeaseTtlMs None attached d
      end
  end.

Definition acquireLease (now : Z) (input : AcquireLeaseInput) (d : Db)
  : result LeaseError (AcquireRole * LeaseRow * Db) :=
  let d := materialize now input d in
  match leaseFor (a_workspaceId input) (a_sandboxGroupId input) d with
  | None => Err (LeaseRowVanished (a_sandboxGroupId input))
  | Some row => acquireLocked now input row d
  end.

(** ** The spawner's operations *)

Record CommitInput := {
  c_workspaceId : string;
  c_sandboxGroupId : string;
  c_expectedEpoch : Z;
  c_instanceId : string;
  c_dataPlaneUrl : option string;
  c_resumeBackendId : option jstr;
  c_resumeState : option json;
  c_leaseTtlMs : Z;
  c_warmingLeaseTtlMs : option Z
}.

Definition warmed (now : Z) (input : CommitInput) (r : LeaseRow) : LeaseRow :=
  r <| l_liveness := warm |> <| l_instanceId := Some (c_instanceId input) |>
    <| l_dataPlaneUrl := c_dataPlaneUrl input |> <| l_terminalDataPlaneUrl := None |>
    <| l_resumeBackendId := c_resumeBackendId input |> <| l_resumeState := c_resumeState input |>
    <| l_leaseEpoch ::= Z.succ |> <| l_expiresAt := now + c_leaseTtlMs input |>.

(** An [update ... where p returning *] that reports the first row. *)
Definition cas (p : LeaseRow -> bool) (f : LeaseRow -> LeaseRow) (d : Db) : option LeaseRow * Db :=
  (head (updated_rows p f (leases d)), d <| leases ::= update_where p f |>).

Definition warmingFence (input : CommitInput) : LeaseRow -> bool :=
  fence (c_workspaceId input) (c_sandboxGroupId input) warming (c_expectedEpoch input).

Definition commitWarmingToWarm (now : Z) (input : CommitInput) (d : Db) : option LeaseRow * Db :=
  cas (warmingFence input) (warmed now input) d.

Definition recorded (now : Z) (input : CommitInput) (r : LeaseRow) : LeaseRow :=
  r <| l_instanceId := Some (c_instanceId input) |> <| l_resumeBackendId := c_resumeBackendId input |>
    <| l_resumeState := c_resumeState input |>
    <| l_expiresAt := now + default (c_leaseTtlMs input) (c_warmingLeaseTtlMs input) |>.

Definition recordWarmingSandboxCreated (now : Z) (input : CommitInput) (d : Db) : option LeaseRow * Db :=
  cas (warmingFence input) (recorded now input) d.

(** ** The archive in [resume_state] *)

Section archive.
(** The text Postgres gives a jsonb value that is not a string, the texts of
timestamps, and the reading of such a text as a date. *)
Context (render : json -> jstr) (toISOString pgTimestamp : Z -> jstr) (dateParse : jstr -> option Z).

(** [v #>> path] once the path is resolved. *)
Definition jsonText (v : option json) : option jstr :=
match v with
| None | Some JNull => None
| Some (JStr s) => Some s
| Some v => Some (render v)
end.

(** [resume_state #> '{sessionState,key}'] *)
Definition sessionStateField (key : jstr) (state : option json) : option json :=
match state with
| Some st => match prop (js "sessionState") st with Some ss => prop key ss | None => None end
| None => None
end.

Definition workspaceArchive (state : option json) : option jstr := jsonText (sessionStateField (js "workspaceArchive") state).
Definition workspaceArchivePrev (state : option json) : option jstr := jsonText (sessionStateField (js "workspaceArchivePrev") state).
Definition workspaceArchiveAt (state : option json) : option jstr := jsonText (sessionStateField (js "workspaceArchiveAt") state).

(** [jsonb_strip_nulls]: drops null fields of objects, at every depth. *)
Fixpoint stripNulls (j : json) : json :=
match j with
| JArr l => JArr ((fix go l := match l with [] => [] | x :: l => stripNulls x :: go l end) l)
| JObj fs =>
  JObj ((fix go fs := match fs with
                      | [] => []
                      | (_, JNull) :: fs => go fs
                      | (k, v) :: fs => (k, stripNulls v) :: go fs
                      end) fs)
| _ => j
end.

(** A SQL value inside [jsonb_build_object]. *)
Definition orNull (v : option json) : json := default JNull v.

(** The minimal envelope a lease keeps when its box is gone. *)
Definition archiveOnly (resumeBackendId : option jstr) (state : option json) : json :=
JObj [(js "backendId",
       match jsonText (match state with Some st => prop (js "backendId") st | None => None end) with
       | Some b => JStr b
       | None => match resumeBackendId with Some b => JStr b | None => JNull end
       end);
    (js "sessionState",
       stripNulls (JObj [
         (js "workspaceArchive", orNull (sessionStateField (js "workspaceArchive") state));
         (js "workspaceArchivePrev", orNull (sessionStateField (js "workspaceArchivePrev") state));
         (js "workspaceArchiveAt", orNull (sessionStateField (js "workspaceArchiveAt") state))]))].

Definition chilled (r : LeaseRow) : LeaseRow :=
let keep := match workspaceArchive (l_resumeState r) with Some _ => true | None => false end in
r <| l_liveness := cold |> <| l_instanceId := None |> <| l_dataPlaneUrl := None |> <| l_terminalDataPlaneUrl := None |>
<| l_resumeState := if keep then Some (archiveOnly (l_resumeBackendId r) (l_resumeState r)) else None |>
<| l_resumeBackendId := if keep then l_resumeBackendId r else None |>.

Definition failWarmingToCold (ws group : string) (expectedEpoch : Z) (d : Db) : Db :=
d <| leases ::= update_where (fence ws group warming expectedEpoch) chilled |>.

Definition confirmDrainCold (ws group : string) (expectedEpoch : Z) (d : Db) : bool * Db :=
(match select_where (drainFence ws group expectedEpoch) (leases d) with [] => false | _ :: _ => true end,
d <| leases ::= update_where (drainFence ws group expectedEpoch) chilled |>).

(** Object concatenation [a || b]. *)
Definition concatFields (a b : list (jstr * json)) : list (jstr * json) :=
fold_left (fun acc kv => set_field kv.1 kv.2 acc) b a.

Definition objectFields (j : option json) : list (jstr * json) :=
match j with Some (JObj fs) => fs | _ => [] end.

(** [foldWorkspaceArchiveOntoLease]'s new [resume_state]. *)
Definition foldArchive (archive archiveAt : jstr) (prev : option jstr) (state : option json) : json :=
let fs := objectFields state in
let session := objectFields (assoc (js "sessionState") fs) in
JObj (set_field (js "sessionState")
      (stripNulls (JObj (concatFields session
         [(js "workspaceArchive", JStr archive); (js "workspaceArchiveAt", JStr archiveAt);
          (js "workspaceArchivePrev", match prev with Some p => JStr p | None => JNull end)]))) fs).

Record DrainSnapshotResult := { ds_wrote : bool; ds_priorArchive : option jstr; ds_priorArchivePrev : option jstr }.

Definition persistDrainSnapshot (now : Z) (ws group : string) (expectedEpoch : Z) (archive : option jstr) (d : Db)
: DrainSnapshotResult * Db :=
match select_where (drainFence ws group expectedEpoch) (leases d), archive with
| [], _ => ({| ds_wrote := false; ds_priorArchive := None; ds_priorArchivePrev := None |}, d)
| _ :: _, None => ({| ds_wrote := true; ds_priorArchive := None; ds_priorArchivePrev := None |}, d)
| guard :: _, Some archive =>
  ({| ds_wrote := true; ds_priorArchive := workspaceArchive (l_resumeState guard);
      ds_priorArchivePrev := workspaceArchivePrev (l_resumeState guard) |},
   d <| leases ::= update_where (drainFence ws group expectedEpoch)
          (fun r => r <| l_resumeState := Some (foldArchive archive (pgTimestamp now) None (l_resumeState r)) |>) |>)
end.

Record WarmSnapshotResult := { wr_wrote : bool; wr_throttled : bool; wr_superseded : bool; wr_priorArchiveForGc : option jstr }.

(** [prior_archive_at ? Date.parse(prior_archive_at) : NaN] *)
Definition priorAtMs (r : LeaseRow) : option Z :=
match workspaceArchiveAt (l_resumeState r) with
| Some (c :: s) => dateParse (c :: s)
| _ => None
end.

Definition warmFence (ws group : string) (expectedEpoch : Z) : LeaseRow -> bool := fence ws group warm expectedEpoch.

Definition persistWarmSnapshot (now : Z) (ws group : string) (expectedEpoch : Z) (archive : jstr) (minIntervalMs : Z)
(capturedAt : option Z) (d : Db) : WarmSnapshotResult * Db :=
let capturedAtMs := default now capturedAt in
match select_where (warmFence ws group expectedEpoch) (leases d) with
| [] => ({| wr_wrote := false; wr_throttled := false; wr_superseded := false; wr_priorArchiveForGc := None |}, d)
| guard :: _ =>
  if match priorAtMs guard with Some at_ => capturedAtMs <=? at_ | None => false end
  then ({| wr_wrote := false; wr_throttled := false; wr_superseded := true; wr_priorArchiveForGc := None |}, d)
  else if (0 <? minIntervalMs)
          && match priorAtMs guard with Some at_ => capturedAtMs - at_ <? minIntervalMs | None => false end
  then ({| wr_wrote := false; wr_throttled := true; wr_superseded := false; wr_priorArchiveForGc := None |}, d)
  else ({| wr_wrote := true; wr_throttled := false; wr_superseded := false;
           wr_priorArchiveForGc := workspaceArchivePrev (l_resumeState guard) |},
        d <| leases ::= update_where (warmFence ws group expectedEpoch)
               (fun r => r <| l_resumeState :=
                  Some (foldArchive archive (toISOString capturedAtMs) (workspaceArchive (l_resumeState guard))
                          (l_resumeState r)) |>) |>)
end.

(** ** The files of a box *)

(** [v -> key]; [jsonb_array_elements(coalesce(v, '[]'))], which raises on what
    is no array; [a || array]. *)
Definition arrow (key : jstr) (v : option json) : option json := match v with Some (JObj fs) => assoc key fs | _ => None end.
Definition arrayElements (v : option json) : option (list json) := match v with None => Some [] | Some (JArr l) => Some l | Some _ => None end.
Definition appendArray (v : json) (l : list json) : list json := match v with JArr l' => l' ++ l | v => v :: l end.
Definition instanceText (existing : json) : option jstr := jsonText (arrow (js "instanceId") (Some existing)).

#[local] Instance leb_dec {A} (leb : A -> A -> bool) : RelDecision (fun a b => leb a b = true) := fun a b => decide (leb a b = true).

(** The [resume_state] that records the files of an instance: its entry holds the
    distinct file ids, old and new; the entries of other instances stay.  The
    order of texts is the database's collation. *)
Definition filesRecorded (collation : jstr -> jstr -> bool) (instanceId : jstr) (fileIds : list jstr) (state : option json) : option json :=
  match arrayElements (arrow (js "opengeniFileMaterialization") state) with
  | None => None
  | Some existing =>
      let mine := match List.find (fun x => bool_decide (instanceText x = Some instanceId)) existing with
                  | Some x => default (JArr []) (arrow (js "fileIds") (Some x)) | None => JArr [] end in
      let texts := List.map (fun v => jsonText (Some v)) (appendArray mine (List.map JStr fileIds)) in
      let values := List.map JStr (merge_sort (fun a b => collation a b = true) (remove_dups (omap (fun t => t) texts)))
                    ++ (if bool_decide (None ∈ texts) then [JNull] else []) in
      let entry := JObj [(js "instanceId", JStr instanceId); (js "fileIds", JArr values)] in
      let byInstance x y := collation (default [] (instanceText x)) (default [] (instanceText y)) in
      let others := List.filter (fun x => match instanceText x with Some t => negb (bool_decide (t = instanceId)) | None => false end) existing in
      Some (JObj (set_field (js "opengeniFileMaterialization")
        (JArr (merge_sort (fun x y => byInstance x y = true) (entry :: others))) (objectFields state)))
  end.

Definition boxFence (ws group : string) (expectedEpoch : Z) (instanceId : string) (r : LeaseRow) : bool :=
  warmFence ws group expectedEpoch r && bool_decide (l_instanceId r = Some instanceId).
(** [None] is the SQL error of a malformed [resume_state]; [true] is [wrote]. *)
Definition markSandboxFileResourcesMaterialized (collation : jstr -> jstr -> bool) (ws group : string) (expectedEpoch : Z) (instanceId : string)
  (fileIds : list string) (d : Db) : option (bool * Db) :=
  let fileIds := remove_dups (List.filter (fun id => negb (bool_decide (id = EmptyString))) fileIds) in
  let matches := boxFence ws group expectedEpoch instanceId in
  let files r := filesRecorded collation (js instanceId) (List.map js fileIds) (l_resumeState r) in
  match fileIds with
  | [] => Some (false, d)
  | _ =>
      if existsb (fun r => matches r && match files r with None => true | Some _ => false end) (leases d) then None
      else Some (match select_where matches (leases d) with [] => false | _ :: _ => true end,
                 d <| leases ::= update_where matches (fun r => r <| l_resumeState := files r |>) |>)
  end.
End archive.

(** ** The URLs of a running box *)

Definition urlFence (ws group : string) (expectedEpoch : Z) (r : LeaseRow) : bool :=
  ofGroup ws group r && (l_leaseEpoch r =? expectedEpoch) && (isLive warm r || isLive draining r).
Definition recordLeaseDataPlaneUrl (ws group : string) (expectedEpoch : Z) (dataPlaneUrl : option string) (d : Db) : option LeaseRow * Db :=
  cas (urlFence ws group expectedEpoch) (fun r => r <| l_dataPlaneUrl := dataPlaneUrl |>) d.
Definition recordLeaseTerminalDataPlaneUrl (ws group : string) (expectedEpoch : Z) (terminalDataPlaneUrl : option string) (d : Db) : option LeaseRow * Db :=
  cas (urlFence ws group expectedEpoch) (fun r => r <| l_terminalDataPlaneUrl := terminalDataPlaneUrl |>) d.

(** ** Release, heartbeat, re-arm *)

Definition releaseLeaseHolder (now : Z) (ws group : string) (kind : LeaseHolderKind) (holderId : string) (idleGraceMs : Z)
  (d : Db) : option (SandboxLeaseLiveness * Z) * Db :=
  match leaseFor ws group d with
  | None => (None, d)
  | Some row =>
      let d := d <| holders ::= delete_where (holderIs (l_id row) kind holderId) |> in
      let counted := stampCounts (holders d) row in
      let enterDraining := isLive warm row && (l_refcount counted =? 0) && (l_turnHolders counted =? 0) in
      let stamp r :=
        let r := r <| l_refcount := l_refcount counted |> <| l_turnHolders := l_turnHolders counted |>
                   <| l_viewerHolders := l_viewerHolders counted |> in
        if enterDraining then r <| l_liveness := draining |> <| l_expiresAt := now + idleGraceMs |> else r in
      (Some (l_liveness (stamp row), l_refcount counted),
       d <| leases ::= update_where (leaseIs (l_id row)) stamp |>)
  end.

(** [lease_id = (select id from sandbox_leases ...)]: no row when there is no lease. *)
Definition holderInGroup (ws group : string) (kind : LeaseHolderKind) (holderId : string) (d : Db) (h : HolderRow) : bool :=
  match leaseFor ws group d with Some row => holderIs (l_id row) kind holderId h | None => false end.

Definition touchLeaseHolder (now : Z) (ws group : string) (kind : LeaseHolderKind) (holderId : string) (d : Db) : bool * Db :=
  let mine := holderInGroup ws group kind holderId d in
  (match select_where mine (holders d) with [] => false | _ :: _ => true end,
   d <| holders ::= update_where mine (fun h => h <| h_lastHeartbeatAt := now |>) |>).

Definition heartbeatLeaseHolder (now : Z) (ws group : string) (kind : LeaseHolderKind) (holderId : string)
  (leaseTtlMs expectedEpoch : Z) (d : Db) : bool * Db :=
  let (held, d) := touchLeaseHolder now ws group kind holderId d in
  if negb held then (false, d)
  else
    let live r := ofGroup ws group r && (l_leaseEpoch r =? expectedEpoch) && (isLive warm r || isLive warming r) in
    (match select_where live (leases d) with [] => false | _ :: _ => true end,
     d <| leases ::= update_where live (fun r => r <| l_expiresAt := now + leaseTtlMs |>) |>).

Definition reArmDrainingLease (now : Z) (ws group : string) (leaseTtlMs : Z) (d : Db) : bool * Db :=
  let p r := ofGroup ws group r && isLive draining r in
  (match select_where p (leases d) with [] => false | _ :: _ => true end,
   d <| leases ::= update_where p (fun r => r <| l_liveness := warm |> <| l_expiresAt := now + leaseTtlMs |>) |>).

(** ** The reaper *)

Record ReapDrainable := { rd_workspaceId : string; rd_sandboxGroupId : string; rd_instanceId : option string; rd_leaseEpoch : Z }.
Record ReapInput := { rp_workspaceId : string; rp_viewerHolderTtlMs : Z; rp_turnHolderTtlMs : option Z; rp_idleGraceMs : Z }.
Record ReapResult := { rr_reapedViewers : Z; rr_reapedTurns : Z; rr_warmingReset : Z; rr_drained : list ReapDrainable }.

Definition staleHolder (now : Z) (ws : string) (kind : LeaseHolderKind) (ttl : Z) (h : HolderRow) : bool :=
  bool_decide (h_workspaceId h = ws) && holderKind kind h && (h_lastHeartbeatAt h <? now - ttl).

(** (b) *)
Definition recount (now idleGraceMs : Z) (hs : list HolderRow) (r : LeaseRow) : LeaseRow :=
  let counted := stampCounts hs r in
  if isLive warm r && (l_refcount counted =? 0) && (l_turnHolders counted =? 0)
  then counted <| l_liveness := draining |> <| l_expiresAt := now + idleGraceMs |>
  else counted.

Definition expiredWarming (now : Z) (ws : string) (r : LeaseRow) : bool :=
  bool_decide (l_workspaceId r = ws) && isLive warming r && (l_expiresAt r <? now).
Definition hasInstance (r : LeaseRow) : bool := match l_instanceId r with Some _ => true | None => false end.
(** (c1) *)
Definition deadBeforeCreate (now : Z) (ws : string) (r : LeaseRow) : bool := expiredWarming now ws r && negb (hasInstance r).
Definition resetCold (r : LeaseRow) : LeaseRow :=
  r <| l_liveness := cold |> <| l_instanceId := None |> <| l_resumeBackendId := None |> <| l_resumeState := None |>
    <| l_dataPlaneUrl := None |> <| l_terminalDataPlaneUrl := None |>.
(** (c2) *)
Definition deadAfterCreate (now : Z) (ws : string) (r : LeaseRow) : bool := expiredWarming now ws r && hasInstance r.
Definition drainNow (now : Z) (r : LeaseRow) : LeaseRow :=
  r <| l_liveness := draining |> <| l_refcount := 0 |> <| l_turnHolders := 0 |> <| l_viewerHolders := 0 |>
    <| l_dataPlaneUrl := None |> <| l_terminalDataPlaneUrl := None |> <| l_expiresAt := now - 1 |>.
(** (d) *)
Definition drainable (now : Z) (ws : string) (r : LeaseRow) : bool :=
  bool_decide (l_workspaceId r = ws) && isLive draining r && (l_expiresAt r <? now) && (l_refcount r =? 0).

Definition reapStaleLeaseHolders (now : Z) (input : ReapInput) (d : Db) : ReapResult * Db :=
  let ws := rp_workspaceId input in
  let inWs r := bool_decide (l_workspaceId r = ws) in
  let staleViewer := staleHolder now ws viewer (rp_viewerHolderTtlMs input) in
  let staleTurn := match rp_turnHolderTtlMs input with
                   | Some ttl => fun h => (0 <? ttl) && staleHolder now ws turn ttl h
                   | None => fun _ => false
                   end in
  let hs1 := delete_where staleViewer (holders d) in
  let hs2 := delete_where staleTurn hs1 in
  let ls1 := update_where inWs (recount now (rp_idleGraceMs input) hs2) (leases d) in
  let ls2 := update_where (deadBeforeCreate now ws) resetCold ls1 in
  let ls3 := update_where (deadAfterCreate now ws) (drainNow now) ls2 in
  ({| rr_reapedViewers := count_where staleViewer (holders d);
      rr_reapedTurns := count_where staleTurn hs1;
      rr_warmingReset := count_where (deadBeforeCreate now ws) ls1 + count_where (deadAfterCreate now ws) ls2;
      rr_drained := List.map (fun r => {| rd_workspaceId := ws; rd_sandboxGroupId := l_sandboxGroupId r;
                                         rd_instanceId := l_instanceId r; rd_leaseEpoch := l_leaseEpoch r |})
                      (select_where (drainable now ws) ls3) |},
   d <| leases := ls3 |> <| holders := hs2 |>).

(** ** Well-formed leases *)

Definition row_ok (r : LeaseRow) : Prop :=
  l_refcount r = l_turnHolders r + l_viewerHolders r /\ 0 <= l_turnHolders r /\ 0 <= l_viewerHolders r /\
  match l_liveness r with
  | cold => l_instanceId r = None
  | warm | draining => l_instanceId r <> None
  | warming => True
  end.

Definition groupKey (r : LeaseRow) : string * string := (l_workspaceId r, l_sandboxGroupId r).
Definition meterCursor (r : LeaseRow) : option Z * Z := (l_lastMeterAt r, l_lastMeterTick r).
Definition holderKey (h : HolderRow) : nat * LeaseHolderKind * string := (h_leaseId h, h_kind h, h_holderId h).

Record lease_ok (d : Db) : Prop := {
  lo_groups : NoDup (List.map groupKey (leases d));
  lo_ids : NoDup (List.map l_id (leases d));
  lo_fresh : forall r, r ∈ leases d -> (l_id r < fresh d)%nat;
  lo_rows : forall r, r ∈ leases d -> row_ok r;
  lo_holders : NoDup (List.map holderKey (holders d))
}.

(** What every write keeps of a row: its identity, its metering cursor, the
    order of epochs, and its well-formedness. *)
Definition moves (r r' : LeaseRow) : Prop :=
  l_id r' = l_id r /\ groupKey r' = groupKey r /\ l_leaseEpoch r <= l_leaseEpoch r' /\ meterCursor r' = meterCursor r /\
  (row_ok r -> row_ok r').

#[export] Instance moves_preorder : PreOrder moves.
Proof.
  split; [intros r; unfold moves; by split_and!|].
  intros r1 r2 r3 (I1 & K1 & E1 & M1 & O1) (I2 & K2 & E2 & M2 & O2). unfold moves. split_and!; [congruence|congruence|lia|congruence|auto].
Qed.

Definition evolves (d d' : Db) : Prop := Forall2 moves (leases d) (leases d') /\ fresh d' = fresh d.

#[export] Instance evolves_preorder : PreOrder evolves.
Proof.
  split; [intros d; split; [reflexivity|done]|].
  intros d1 d2 d3 [H1 F1] [H2 F2]. split; [by transitivity (leases d2)|congruence].
Qed.

Lemma map_moves {B} (g : LeaseRow -> B) l l' :
  (forall r r', moves r r' -> g r' = g r) -> Forall2 moves l l' -> List.map g l' = List.map g l.
Proof. intros Hg. induction 1 as [|r r' l l' Hr _ IH]; cbn; [done|]. by rewrite IH, (Hg _ _ Hr). Qed.

Lemma evolves_ok d d' :
  evolves d d' -> lease_ok d -> NoDup (List.map holderKey (holders d')) -> lease_ok d'.
Proof.
  intros [Hl Hf] [Hg Hi Hfr Hr Hh] Hh'.
  assert (Hback : forall r', r' ∈ leases d' -> exists r, r ∈ leases d /\ moves r r').
  { intros r' [i H]%list_elem_of_lookup. destruct (Forall2_lookup_r _ _ _ _ _ Hl H) as (r & Hr0 & Hm).
    exists r. split; [by eapply list_elem_of_lookup_2|done]. }
  split; [| | | |done].
  - rewrite (map_moves groupKey _ _ (fun r r' H => proj1 (proj2 H)) Hl). exact Hg.
  - rewrite (map_moves l_id _ _ (fun r r' H => proj1 H) Hl). exact Hi.
  - intros r' (r & Hin & Hid & _)%Hback. rewrite Hid, Hf. by apply Hfr.
  - intros r' (r & Hin & _ & _ & _ & _ & Hok)%Hback. by apply Hok, Hr.
Qed.

Lemma update_evolves p g d :
  (forall r, r ∈ leases d -> p r = true -> moves r (g r)) -> evolves d (d <| leases ::= update_where p g |>).
Proof.
  intros H. split; [|done]. cbn. unfold update_where. induction (leases d) as [|r l IH]; cbn; [constructor|].
  constructor; [|apply IH; intros; apply H; [by right|done]].
  destruct (p r) eqn:E; [apply H; [left|done]|reflexivity].
Qed.

Lemma set_leases_evolves d d' l : leases d' = leases d -> fresh d' = fresh d -> Forall2 moves (leases d) l ->
  evolves d (d' <| leases := l |>).
Proof. intros _ Hf H. by split. Qed.

Lemma holders_evolves d hs : evolves d (d <| holders := hs |>).
Proof. split; [reflexivity|done]. Qed.

(** ** Counting holders *)

Lemma count_split (p q q' : HolderRow -> bool) hs :
  (forall h, q' h = negb (q h)) ->
  count_where p hs = count_where (fun h => p h && q h) hs + count_where (fun h => p h && q' h) hs.
Proof.
  intros Hq. unfold count_where. induction hs as [|h hs IH]; cbn; [done|]. rewrite Hq.
  destruct (p h), (q h); cbn; rewrite ?Nat2Z.inj_succ; lia.
Qed.

Lemma stampCounts_moves hs r : moves r (stampCounts hs r).
Proof.
  unfold moves. split_and!; [done..|]. intros (_ & _ & _ & Hl). split_and!; [|apply Nat2Z.is_nonneg..|done].
  cbn. apply count_split. intros h. unfold holderKind. by destruct (h_kind h).
Qed.

Lemma same_lease d r r' :
  lease_ok d -> r ∈ leases d -> r' ∈ leases d -> leaseIs (l_id r) r' = true -> r' = r.
Proof.
  intros Hok Hr Hr' H%Nat.eqb_eq. by eapply (select_unique l_id (l_id r)); [apply lo_ids|..].
Qed.

Lemma same_group d ws group r r' :
  lease_ok d -> r ∈ leases d -> r' ∈ leases d -> ofGroup ws group r = true -> ofGroup ws group r' = true -> r' = r.
Proof.
  intros Hok Hr Hr' H H'. unfold ofGroup in *. breflect.
  eapply (select_unique groupKey (ws, group)); [by apply lo_groups|done..| |]; unfold groupKey; congruence.
Qed.

Lemma leaseFor_elem ws group d r : leaseFor ws group d = Some r -> r ∈ leases d /\ ofGroup ws group r = true.
Proof.
  unfold leaseFor. intros H. apply head_Some_elem_of in H. apply elem_of_select_where in H as [??]. done.
Qed.

Lemma leaseFor_none ws group d r : leaseFor ws group d = None -> r ∈ leases d -> ofGroup ws group r = false.
Proof.
  unfold leaseFor. intros H Hr. apply head_None in H. destruct (ofGroup ws group r) eqn:E; [|done].
  assert (Hin : r ∈ select_where (ofGroup ws group) (leases d)) by by apply elem_of_select_where.
  rewrite H in Hin. by apply elem_of_nil in Hin.
Qed.

Lemma leaseFor_unique ws group d r :
  lease_ok d -> r ∈ leases d -> ofGroup ws group r = true -> leaseFor ws group d = Some r.
Proof.
  intros Hok Hr Hg. destruct (leaseFor ws group d) as [r'|] eqn:E.
  - apply leaseFor_elem in E as [Hr' Hg']. f_equal. by eapply same_group.
  - by rewrite (leaseFor_none _ _ _ _ E Hr) in Hg.
Qed.

(** ** Every operation moves rows forward and keeps the tables well formed *)

Lemma holders_update_keys p g hs :
  (forall h, p h = true -> holderKey (g h) = holderKey h) ->
  List.map holderKey (update_where p g hs) = List.map holderKey hs.
Proof. apply map_update_where. Qed.

Lemma upsert_ok now id ws kind holderId subjectId d :
  NoDup (List.map holderKey (holders d)) ->
  NoDup (List.map holderKey (holders (upsertLeaseHolder now id ws kind holderId subjectId d))).
Proof.
  intros H. unfold upsertLeaseHolder. destruct (select_where _ _) as [|h l] eqn:E; cbn.
  - rewrite List.map_app. apply NoDup_app. split_and!; [done| |apply NoDup_singleton].
    intros k (h & -> & Hh)%list_elem_of_fmap Hk%list_elem_of_singleton.
    assert (Hin : h ∈ select_where (holderIs id kind holderId) (holders d)); [|rewrite E in Hin; by apply elem_of_nil in Hin].
    apply elem_of_select_where. split; [|done]. unfold holderKey in Hk. cbn in Hk. injection Hk as Hk1 Hk2 Hk3.
    unfold holderIs, holderOf, holderKind. by rewrite Hk1, Hk2, Hk3, Nat.eqb_refl, !bool_decide_eq_true_2.
  - rewrite holders_update_keys; done.
Qed.

Lemma upsert_leases now id ws kind holderId subjectId d :
  leases (upsertLeaseHolder now id ws kind holderId subjectId d) = leases d /\
  fresh (upsertLeaseHolder now id ws kind holderId subjectId d) = fresh d.
Proof. unfold upsertLeaseHolder. by destruct (select_where _ _). Qed.

Lemma materialize_ok now input d : lease_ok d -> lease_ok (materialize now input d).
Proof.
  intros Hok. unfold materialize. destruct (leaseFor _ _ d) as [r|] eqn:E; [done|].
  destruct Hok as [Hg Hi Hf Hr Hh]. split; cbn; rewrite ?List.map_app; cbn [List.map].
  - apply NoDup_app. split_and!; [done| |apply NoDup_singleton].
    intros k (r & -> & Hin)%list_elem_of_fmap Hk%list_elem_of_singleton.
    assert (ofGroup (a_workspaceId input) (a_sandboxGroupId input) r = false) by by eapply leaseFor_none.
    unfold groupKey in Hk. injection Hk as Hk1 Hk2. unfold ofGroup in *.
    rewrite Hk1, Hk2, !bool_decide_eq_true_2 in H by done. done.
  - apply NoDup_app. split_and!; [done| |apply NoDup_singleton].
    intros k (r & -> & Hin)%list_elem_of_fmap Hk%list_elem_of_singleton. cbn in Hk. apply Hf in Hin. lia.
  - intros r [Hin|Hin%list_elem_of_singleton]%elem_of_app; [apply Hf in Hin; lia|subst; cbn; lia].
  - intros r [Hin|Hin%list_elem_of_singleton]%elem_of_app; [by apply Hr|]. subst. by unfold row_ok.
  - done.
Qed.

Lemma join_evolves now input row ttl setL role d lease d' :
  join now input row ttl setL role d = Ok (role, lease, d') ->
  (forall r, r ∈ leases d -> leaseIs (l_id row) r = true ->
     match setL with Some warm => l_instanceId r <> None | Some _ => False | None => True end) ->
  evolves d d'.
Proof.
  unfold join, recomputeAndStampLease. set (d0 := upsertLeaseHolder _ _ _ _ _ _ _).
  destruct (updated_rows _ _ _) eqn:E; [done|]. intros [= -> <-] Hset.
  destruct (upsert_leases now (l_id row) (a_workspaceId input) (a_kind input) (a_holderId input) (a_subjectId input) d) as [Hl Hf].
  transitivity d0; [split; unfold d0; rewrite ?Hl; [reflexivity|done]|].
  apply update_evolves. intros r Hr Hp. unfold d0 in Hr. rewrite Hl in Hr.
  transitivity (stampCounts (holders d0) r); [apply stampCounts_moves|].
  specialize (Hset r Hr Hp). destruct setL as [[]|]; try done;
    unfold moves, row_ok; cbn; (split_and!; [done|done|lia|done|]); intros (? & ? & ? & ?); by split_and!.
Qed.

Lemma join_holders now input row ttl setL role d lease d' :
  join now input row ttl setL role d = Ok (role, lease, d') ->
  holders d' = holders (upsertLeaseHolder now (l_id row) (a_workspaceId input) (a_kind input) (a_holderId input) (a_subjectId input) d).
Proof. unfold join, recomputeAndStampLease. destruct (updated_rows _ _ _); [done|]. by intros [= _ <-]. Qed.

Lemma update_holders_same p g d : holders (d <| leases ::= update_where p g |>) = holders d.
Proof. done. Qed.

Lemma soloReset_moves input r : l_liveness r <> cold -> moves r (soloReset input r).
Proof.
  intros _. unfold moves, row_ok; cbn. split_and!; [done|done|lia|done|]. intros (? & ? & ? & ?). by split_and!.
Qed.

Lemma casWarming_moves input r : isLive cold r = true -> moves r (casWarming input r).
Proof. intros _. unfold moves, row_ok; cbn. split_and!; [done|done|lia|done|]. intros (? & ? & ? & ?). by split_and!. Qed.

Lemma resolveConflict_spec input row d liveness d' :
  resolveConflict input row d = Ok (liveness, d') ->
  holders d' = holders d /\
  ((d' = d /\ liveness = l_liveness row) \/
   (liveness = cold /\ l_liveness row <> cold /\
    (differs (a_image input) (l_image row) <> None \/ differs (a_rigVersionId input) (l_rigVersionId row) <> None) /\
    otherHolders input row d = 0 /\ d' = d <| leases ::= update_where (leaseIs (l_id row)) (soloReset input) |>)).
Proof.
  unfold resolveConflict. case_bool_decide as Hc; [intros [= <- <-]; rewrite Hc; auto|].
  assert (0 <= otherHolders input row d) by apply Nat2Z.is_nonneg.
  destruct (differs (a_image input) _) as [[]|] eqn:Ei, (differs (a_rigVersionId input) _) as [[]|] eqn:Er;
    try (intros [= <- <-]; by auto);
    (destruct (0 <? _) eqn:E; [done|]; breflect; intros [= <- <-]; split; [done|right];
     split_and!; [done|done|auto|lia|done]).
Qed.

Lemma resolveConflict_evolves input row d liveness d' :
  lease_ok d -> row ∈ leases d -> resolveConflict input row d = Ok (liveness, d') ->
  evolves d d' /\ lease_ok d' /\ (exists row', row' ∈ leases d' /\ l_id row' = l_id row /\ l_liveness row' = liveness).
Proof.
  intros Hok Hin H. apply resolveConflict_spec in H as [Hh [[-> ->]|(-> & Hc & _ & _ & ->)]].
  - split; [reflexivity|]. split; [done|]. by exists row.
  - assert (evolves d (d <| leases ::= update_where (leaseIs (l_id row)) (soloReset input) |>)).
    { apply update_evolves. intros r Hr Hp. apply soloReset_moves. by rewrite (same_lease d row r Hok Hin Hr Hp). }
    split; [exact H|]. split; [exact (evolves_ok _ _ H Hok (lo_holders _ Hok))|].
    exists (soloReset input row). split_and!; [|done|done]. apply elem_of_update_where. exists row. split; [done|].
    unfold leaseIs. by rewrite Nat.eqb_refl.
Qed.

Lemma acquire_evolves now input d role lease d' :
  lease_ok d -> acquireLease now input d = Ok (role, lease, d') ->
  evolves (materialize now input d) d' /\ NoDup (List.map holderKey (holders d')).
Proof.
  intros Hok%(materialize_ok now input). unfold acquireLease. set (d0 := materialize now input d) in *.
  destruct (leaseFor _ _ d0) as [row|] eqn:Erow; [|done]. apply leaseFor_elem in Erow as [Hrow _]. unfold acquireLocked.
  destruct (resolveConflict input row d0) as [[liveness d1]|] eqn:Ec; [|done].
  pose proof (resolveConflict_evolves _ _ _ _ _ Hok Hrow Ec) as (He & Hok1 & row1 & Hrow1 & Hid & Hl).
  assert (Hkey : forall r, r ∈ leases d1 -> leaseIs (l_id row) r = true -> r = row1).
  { intros r Hr Hp. rewrite <- Hid in Hp. by apply (same_lease d1 row1 r). }
  assert (Hnd : forall setL ttl rl d2, holders d2 = holders d1 ->
    join now input row ttl setL rl d2 = Ok (role, lease, d') -> NoDup (List.map holderKey (holders d'))).
  { intros setL ttl rl d2 H2 Hj. assert (rl = role) as -> by (unfold join, recomputeAndStampLease in Hj; by destruct (updated_rows _ _ _); simplify_eq).
    rewrite (join_holders _ _ _ _ _ _ _ _ _ Hj). apply upsert_ok. rewrite H2. by apply lo_holders. }
  assert (Hrole : forall setL ttl rl d2, join now input row ttl setL rl d2 = Ok (role, lease, d') -> rl = role).
  { intros setL ttl rl d2 Hj. unfold join, recomputeAndStampLease in Hj. by destruct (updated_rows _ _ _); simplify_eq. }
  destruct liveness.
  - intros Hj. pose proof (Hrole _ _ _ _ Hj) as Hr. split; [|by eapply Hnd; [|exact Hj]].
    rewrite Hr in Hj. transitivity d1; [done|]. etransitivity; [|eapply join_evolves; [exact Hj|done]].
    apply update_evolves. intros r Hr' Hp. breflect. by apply casWarming_moves.
  - intros Hj. split; [|by eapply Hnd; [|exact Hj]]. rewrite (Hrole _ _ _ _ Hj) in Hj.
    transitivity d1; [done|]. by eapply join_evolves.
  - destruct (_ && _); [intros [= _ _ <-]; split; [exact He|exact (lo_holders _ Hok1)]|].
    intros Hj. split; [|by eapply Hnd; [|exact Hj]]. rewrite (Hrole _ _ _ _ Hj) in Hj.
    transitivity d1; [done|]. by eapply join_evolves.
  - intros Hj. split; [|by eapply Hnd; [|exact Hj]]. rewrite (Hrole _ _ _ _ Hj) in Hj.
    transitivity d1; [done|]. eapply join_evolves; [exact Hj|]. intros r Hr Hp. rewrite (Hkey r Hr Hp).
    pose proof (lo_rows _ Hok1 row1 Hrow1) as (_ & _ & _ & Hi). by rewrite Hl in Hi.
Qed.


Lemma fence_spec ws group l epoch r :
  fence ws group l epoch r = true -> ofGroup ws group r = true /\ l_liveness r = l /\ l_leaseEpoch r = epoch.
Proof. unfold fence, isLive. intros H. breflect. done. Qed.

(** An unchanged-identity write is a move once it keeps the row well formed. *)
Lemma moves_intro r r' :
  l_id r' = l_id r -> groupKey r' = groupKey r -> l_leaseEpoch r <= l_leaseEpoch r' ->
  meterCursor r' = meterCursor r -> l_refcount r' = l_refcount r -> l_turnHolders r' = l_turnHolders r -> l_viewerHolders r' = l_viewerHolders r ->
  (row_ok r -> match l_liveness r' with
               | cold => l_instanceId r' = None | warm | draining => l_instanceId r' <> None | warming => True end) ->
  moves r r'.
Proof.
  intros ? ? ? ? Hc Ht Hv Hl. unfold moves. split_and!; [done..|]. intros Hok. specialize (Hl Hok).
  destruct Hok as (? & ? & ? & _). unfold row_ok. rewrite Hc, Ht, Hv. by split_and!.
Qed.

(** Kept: identity, epoch, counts, liveness and instance. *)
Lemma moves_same r r' :
  l_id r' = l_id r -> groupKey r' = groupKey r -> l_leaseEpoch r' = l_leaseEpoch r ->
  meterCursor r' = meterCursor r -> l_refcount r' = l_refcount r -> l_turnHolders r' = l_turnHolders r -> l_viewerHolders r' = l_viewerHolders r ->
  l_liveness r' = l_liveness r -> l_instanceId r' = l_instanceId r -> moves r r'.
Proof.
  intros ? ? He ? ? ? ? Hl Hi. apply moves_intro; [done..|lia|done|done|done|done|].
  rewrite Hl, Hi. by intros (_ & _ & _ & ?).
Qed.

Lemma instance_of r : row_ok r -> l_liveness r = warm \/ l_liveness r = draining -> l_instanceId r <> None.
Proof. intros (_ & _ & _ & H) [E|E]; by rewrite E in H. Qed.

Lemma warmed_moves now input r : moves r (warmed now input r).
Proof. apply moves_intro; cbn; try done; lia. Qed.

Lemma recorded_moves now input r : l_liveness r = warming -> moves r (recorded now input r).
Proof. intros H. apply moves_intro; cbn; try done. by rewrite H. Qed.

Lemma chilled_moves render r : moves r (chilled render r).
Proof. apply moves_intro; cbn; try done; lia. Qed.

Lemma recount_moves now grace hs r : moves r (recount now grace hs r).
Proof.
  unfold recount. destruct (_ && _) eqn:E; [|apply stampCounts_moves].
  transitivity (stampCounts hs r); [apply stampCounts_moves|]. unfold isLive in E. breflect.
  apply moves_intro; cbn; try done. intros Hok. eapply (instance_of (stampCounts hs r)); [exact Hok|left; exact H].
Qed.

Lemma resetCold_moves r : moves r (resetCold r).
Proof. apply moves_intro; cbn; try done; lia. Qed.

Lemma drainNow_moves now r : hasInstance r = true -> moves r (drainNow now r).
Proof.
  intros H. unfold moves, row_ok; cbn. split_and!; [done|done|lia|done|]. intros _. split_and!; [lia..|].
  unfold hasInstance in H. by destruct (l_instanceId r).
Qed.

Lemma update_moves p g l :
  (forall r, r ∈ l -> p r = true -> moves r (g r)) -> Forall2 moves l (update_where p g l).
Proof. intros H. by destruct (update_evolves p g {| leases := l; holders := []; fresh := 0 |} H). Qed.

(** ** The system's steps *)

Section steps.
Context (render : json -> jstr) (toISOString pgTimestamp : Z -> jstr) (dateParse : jstr -> option Z).

Inductive lease_step (d : Db) : Db -> Prop :=
| ls_acquire now input role lease d' : acquireLease now input d = Ok (role, lease, d') -> lease_step d d'
| ls_commit now input : lease_step d (commitWarmingToWarm now input d).2
| ls_record now input : lease_step d (recordWarmingSandboxCreated now input d).2
| ls_fail ws group e : lease_step d (failWarmingToCold render ws group e d)
| ls_release now ws group kind h grace : lease_step d (releaseLeaseHolder now ws group kind h grace d).2
| ls_heartbeat now ws group kind h ttl e : lease_step d (heartbeatLeaseHolder now ws group kind h ttl e d).2
| ls_touch now ws group kind h : lease_step d (touchLeaseHolder now ws group kind h d).2
| ls_rearm now ws group ttl : lease_step d (reArmDrainingLease now ws group ttl d).2
| ls_reap now input : lease_step d (reapStaleLeaseHolders now input d).2
| ls_persistDrain now ws group e a : lease_step d (persistDrainSnapshot render pgTimestamp now ws group e a d).2
| ls_persistWarm now ws group e a i t :
lease_step d (persistWarmSnapshot render toISOString dateParse now ws group e a i t d).2
| ls_confirm ws group e : lease_step d (confirmDrainCold render ws group e d).2
| ls_url ws group e url : lease_step d (recordLeaseDataPlaneUrl ws group e url d).2
| ls_terminal ws group e url : lease_step d (recordLeaseTerminalDataPlaneUrl ws group e url d).2
| ls_files collation ws group e i files wrote d' : markSandboxFileResourcesMaterialized render collation ws group e i files d = Some (wrote, d') -> lease_step d d'.

Lemma touch_holders now ws group kind h d :
List.map holderKey (holders (touchLeaseHolder now ws group kind h d).2) = List.map holderKey (holders d).
Proof. cbn. by apply holders_update_keys. Qed.

Lemma touch_leases now ws group kind h d : leases (touchLeaseHolder now ws group kind h d).2 = leases d.
Proof. done. Qed.

Lemma persistWarm_spec now ws group e a i t d :
(persistWarmSnapshot render toISOString dateParse now ws group e a i t d).2 = d \/
exists f, (persistWarmSnapshot render toISOString dateParse now ws group e a i t d).2
          = d <| leases ::= update_where (warmFence ws group e) f |> /\ forall r, moves r (f r).
Proof.
unfold persistWarmSnapshot. repeat case_match; auto; right; eexists; (split; [reflexivity|]); intros; by apply moves_same.
Qed.

Lemma mark_spec collation ws group e i files d wrote d' : markSandboxFileResourcesMaterialized render collation ws group e i files d = Some (wrote, d') ->
  (d' = d /\ wrote = false) \/ exists p f, d' = d <| leases ::= update_where p f |> /\ (forall r, p r = true -> warmFence ws group e r = true) /\
  (forall r, moves r (f r) /\ l_liveness (f r) = l_liveness r /\ l_id (f r) = l_id r) /\
  wrote = match select_where p (leases d) with [] => false | _ :: _ => true end.
Proof.
  unfold markSandboxFileResourcesMaterialized. destruct (remove_dups _); [intros [= <- <-]; by left|]. destruct (existsb _ _); [done|]. intros [= <- <-]. right. eexists _, _. split; [reflexivity|].
  split_and!; [by intros r [H _]%andb_true_iff| |done]. intros r. split_and!; [by apply moves_same|done|done].
Qed.

(** Past the insertion of a missing row, a step only moves rows. *)
Lemma step_evolves d d' :
lease_ok d -> lease_step d d' ->
NoDup (List.map holderKey (holders d')) /\ (evolves d d' \/ exists now input, evolves (materialize now input d) d').
Proof.
intros Hok Hs.
assert (Hnd : forall hs, List.map holderKey hs = List.map holderKey (holders d) -> NoDup (List.map holderKey hs)).
{ intros hs ->. by apply lo_holders. }
destruct Hs as [now input role lease d' H|now input|now input|ws group e|now ws group kind h grace
|now ws group kind h ttl e|now ws group kind h|now ws group ttl|now input|now ws group e a|now ws group e a i t|ws group e
|ws group e u|ws group e u|coll ws group e i fs w d' H].
- apply acquire_evolves in H as [H Hh]; [|done]. eauto.
- split; [by apply Hnd|left]. apply update_evolves. intros. apply warmed_moves.
- split; [by apply Hnd|left]. apply update_evolves. intros r Hr [_ [Hl _]]%fence_spec. by apply recorded_moves.
- split; [by apply Hnd|left]. apply update_evolves. intros. apply chilled_moves.
- unfold releaseLeaseHolder. destruct (leaseFor ws group d) as [row|] eqn:E; [|split; [by apply Hnd|by left]].
apply leaseFor_elem in E as [Hrow _]. split; [by apply NoDup_map_filter, lo_holders|left].
split; [|done]. apply update_moves. intros r Hr Hp. rewrite (same_lease d row r Hok Hrow Hr Hp).
exact (recount_moves now grace (delete_where (holderIs (l_id row) kind h) (holders d)) row).
- unfold heartbeatLeaseHolder. destruct (touchLeaseHolder now ws group kind h d) as [held d1] eqn:E.
assert (Hd : leases d1 = leases d /\ fresh d1 = fresh d /\ List.map holderKey (holders d1) = List.map holderKey (holders d)).
{ pose proof (touch_holders now ws group kind h d) as Hk. rewrite E in Hk. cbn in Hk. unfold touchLeaseHolder in E.
  injection E as _ <-. by split_and!. }
destruct Hd as (Hl & Hf & Hk). destruct (negb held); cbn; (split; [by apply Hnd|left]).
+ split; [rewrite Hl; reflexivity|done].
+ split; [|done]. cbn. rewrite Hl. apply update_moves. intros. by apply moves_same.
- split; [by apply Hnd, touch_holders|left]. split; [reflexivity|done].
- split; [by apply Hnd|left]. apply update_evolves. intros r Hr Hp. unfold isLive in Hp. breflect.
apply moves_intro; cbn; try done. intros Hr'. apply (instance_of r); [done|by right].
- split; [by apply NoDup_map_filter, NoDup_map_filter, lo_holders|left]. split; [|done]. cbn.
etransitivity; [apply update_moves; intros; apply recount_moves|].
etransitivity; [apply update_moves; intros; apply resetCold_moves|].
apply update_moves. intros r _ Hp. unfold deadAfterCreate in Hp. breflect. by apply drainNow_moves.
- unfold persistDrainSnapshot. destruct (select_where _ _); [by split; [apply Hnd|left]|].
destruct a; [|by split; [apply Hnd|left]]. split; [by apply Hnd|left].
apply update_evolves. intros. by apply moves_same.
- destruct (persistWarm_spec now ws group e a i t d) as [->|(f & -> & Hm)]; (split; [by apply Hnd|left]); [reflexivity|].
by apply update_evolves.
- split; [by apply Hnd|left]. apply update_evolves. intros. apply chilled_moves.
- split; [by apply Hnd|left]. apply update_evolves. intros. by apply moves_same.
- split; [by apply Hnd|left]. apply update_evolves. intros. by apply moves_same.
- apply mark_spec in H as [[-> _]|(p & f & -> & _ & Hm & _)]; (split; [by apply Hnd|left]); [reflexivity|].
  apply update_evolves. intros. by apply Hm.
Qed.

Lemma step_ok d d' : lease_step d d' -> lease_ok d -> lease_ok d'.
Proof.
intros Hs Hok. destruct (step_evolves d d' Hok Hs) as [Hh [H|(now & input & H)]].
- by eapply evolves_ok.
- eapply evolves_ok; [exact H|by apply materialize_ok|done].
Qed.

Lemma steps_ok d d' : rtc lease_step d d' -> lease_ok d -> lease_ok d'.
Proof. induction 1; eauto using step_ok. Qed.

(** Whatever operations run, in whatever order, the lease tables stay well
  formed: one lease per group, one row per holder, counts that add up, a cold
  lease without an instance and a warm or draining one with the instance that
  must be stopped. *)
Theorem leases_well_formed d d' : lease_ok d -> rtc lease_step d d' -> lease_ok d'.
Proof. intros Hok H. by eapply steps_ok. Qed.

(** The row of a lease after a step. *)
Lemma step_row d d' r r' :
lease_ok d -> lease_step d d' -> r ∈ leases d -> r' ∈ leases d' -> groupKey r' = groupKey r -> moves r r'.
Proof.
intros Hok Hs Hr Hr' Hk. pose proof (step_ok d d' Hs Hok) as Hok'.
assert (Hgo : forall d0, r ∈ leases d0 -> evolves d0 d' -> moves r r').
{ intros d0 Hr0 [Hl _]. apply list_elem_of_lookup in Hr0 as [i Hi].
  destruct (Forall2_lookup_l _ _ _ _ _ Hl Hi) as (r'' & Hi' & Hm).
  apply list_elem_of_lookup_2 in Hi'. replace r' with r''; [done|].
  apply (select_unique groupKey (groupKey r) (leases d')); [by apply lo_groups|done|done|by apply Hm|done]. }
destruct (step_evolves d d' Hok Hs) as [_ [H|(now & input & H)]]; [by eapply Hgo|].
eapply Hgo; [|exact H]. unfold materialize. destruct (leaseFor _ _ d); [done|]. apply elem_of_app. by left.
Qed.

Lemma step_keeps d d' r :
lease_ok d -> lease_step d d' -> r ∈ leases d -> exists r', r' ∈ leases d' /\ groupKey r' = groupKey r.
Proof.
intros Hok Hs Hr.
assert (Hgo : forall d0, r ∈ leases d0 -> evolves d0 d' -> exists r', r' ∈ leases d' /\ groupKey r' = groupKey r).
{ intros d0 Hr0 [Hl _]. apply list_elem_of_lookup in Hr0 as [i Hi].
  destruct (Forall2_lookup_l _ _ _ _ _ Hl Hi) as (r'' & Hi' & Hm). exists r''.
  split; [by eapply list_elem_of_lookup_2|apply Hm]. }
destruct (step_evolves d d' Hok Hs) as [_ [H|(now & input & H)]]; [by eapply Hgo|].
eapply Hgo; [|exact H]. unfold materialize. destruct (leaseFor _ _ d); [done|]. apply elem_of_app. by left.
Qed.
End steps.

(** ** The row an update makes of a row *)

Definition upd (p : LeaseRow -> bool) (g : LeaseRow -> LeaseRow) (r : LeaseRow) : LeaseRow := if p r then g r else r.

Lemma upd_in p g l r : r ∈ l -> upd p g r ∈ update_where p g l.
Proof. intros H. apply elem_of_update_where. by exists r. Qed.

Lemma update_ids p g l : (forall x, p x = true -> l_id (g x) = l_id x) -> List.map l_id (update_where p g l) = List.map l_id l.
Proof. apply map_update_where. Qed.

(** In a table with unique ids, the row of [r]'s id after an update is [upd r]. *)
Lemma update_tracks p g l r r' :
  NoDup (List.map l_id l) -> (forall x, p x = true -> l_id (g x) = l_id x) ->
  r ∈ l -> r' ∈ update_where p g l -> l_id r' = l_id r -> r' = upd p g r.
Proof.
  intros Hnd Hg Hr Hr' Hid. apply (select_unique l_id (l_id r) (update_where p g l)); [by rewrite update_ids|done| |done|].
  - by apply upd_in.
  - unfold upd. destruct (p r) eqn:E; [by apply Hg|done].
Qed.

Lemma join_leases now input row ttl setL rl d role lease d' :
  join now input row ttl setL rl d = Ok (role, lease, d') ->
  rl = role /\ exists stamp, leases d' = update_where (leaseIs (l_id row)) stamp (leases d) /\
    forall x, l_id (stamp x) = l_id x /\ l_liveness (stamp x) = default (l_liveness x) setL /\ l_expiresAt (stamp x) = now + ttl.
Proof.
  unfold join, recomputeAndStampLease. destruct (updated_rows _ _ _); [done|]. intros [= -> _ <-]. split; [done|].
  destruct (upsert_leases now (l_id row) (a_workspaceId input) (a_kind input) (a_holderId input) (a_subjectId input) d) as [Hl _].
  cbn [leases etaDb setWith]. cbn. rewrite Hl. eexists. split; [reflexivity|]. intros x. by destruct setL.
Qed.

Lemma materialize_keeps now input d r :
  r ∈ leases d -> r ∈ leases (materialize now input d) /\ holders (materialize now input d) = holders d.
Proof. intros H. unfold materialize. destruct (leaseFor _ _ d); [done|]. split; [apply elem_of_app; by left|done]. Qed.

(** An acquire leaves other groups' leases alone. *)
Lemma locked_other now input row d role lease d' r r' :
  lease_ok d -> row ∈ leases d -> acquireLocked now input row d = Ok (role, lease, d') ->
  r ∈ leases d -> r' ∈ leases d' -> l_id r' = l_id r -> leaseIs (l_id row) r = false -> r' = r.
Proof.
  intros Hok Hrow H Hr Hr' Hid Eid. pose proof (lo_ids _ Hok) as Hnd. unfold acquireLocked in H. revert H.
  destruct (resolveConflict input row d) as [[liveness d1]|] eqn:Ec; [|done].
  apply resolveConflict_spec in Ec as [_ Hc].
  assert (Hd1 : NoDup (List.map l_id (leases d1)) /\ r ∈ leases d1).
  { destruct Hc as [[-> _]|(_ & _ & _ & _ & ->)]; [done|]. cbn. rewrite update_ids by done. split; [done|].
    pose proof (upd_in (leaseIs (l_id row)) (soloReset input) _ r Hr) as Hin. unfold upd in Hin. by rewrite Eid in Hin. }
  destruct Hd1 as [Hnd1 Hr1]. clear Hc.
  assert (Hjoin : forall ttl setL rl d2, NoDup (List.map l_id (leases d2)) -> r ∈ leases d2 ->
    join now input row ttl setL rl d2 = Ok (role, lease, d') -> r' = r).
  { intros ttl setL rl d2 Hnd2 Hr2 (_ & stamp & Hl & Hst)%join_leases. rewrite Hl in Hr'.
    apply update_tracks with (r := r) in Hr'; [|done|intros; apply Hst|done|done]. unfold upd in Hr'. by rewrite Eid in Hr'. }
  destruct liveness; [|by apply Hjoin| |by apply Hjoin].
  - apply Hjoin; cbn.
    + rewrite update_ids; done.
    + pose proof (upd_in (fun x => leaseIs (l_id row) x && isLive cold x) (casWarming input) _ r Hr1) as Hin.
      unfold upd in Hin. by rewrite Eid in Hin.
  - destruct (_ && _); [|by apply Hjoin]. intros [= _ _ <-]. by apply (select_unique l_id (l_id r) (leases d1)).
Qed.

Lemma leaseIs_refl r : leaseIs (l_id r) r = true.
Proof. apply Nat.eqb_refl. Qed.

(** The joined row is the locked row, restamped. *)
Lemma join_row now input row ttl setL rl d role lease d' r r' :
  NoDup (List.map l_id (leases d)) -> join now input row ttl setL rl d = Ok (role, lease, d') ->
  r ∈ leases d -> r' ∈ leases d' -> l_id r = l_id row -> l_id r' = l_id r ->
  rl = role /\ l_liveness r' = default (l_liveness r) setL /\ l_expiresAt r' = now + ttl.
Proof.
  intros Hnd (-> & stamp & Hl & Hst)%join_leases Hr Hr' Hid Hid'. rewrite Hl in Hr'. split; [done|].
  apply update_tracks with (r := r) in Hr'; [|done|intros; apply Hst|done|done].
  unfold upd in Hr'. rewrite <- Hid, leaseIs_refl in Hr'. subst r'. apply Hst.
Qed.

(** The compare-and-set of the cold branch, and the join that follows it. *)
Lemma cold_row now input row ttl d role lease d' r r' :
  let cas x := leaseIs (l_id row) x && isLive cold x in
  NoDup (List.map l_id (leases d)) -> r ∈ leases d -> l_id r = l_id row -> l_liveness r = cold ->
  join now input row ttl None (match select_where cas (leases d) with [] => attached | _ :: _ => spawner end)
    (d <| leases ::= update_where cas (casWarming input) |>) = Ok (role, lease, d') ->
  r' ∈ leases d' -> l_id r' = l_id r ->
  l_liveness r' = warming /\ role = spawner /\ l_expiresAt r' = now + ttl.
Proof.
  intros cas Hnd Hr Hid Hl H Hr' Hid'.
  assert (Hcas : cas r = true) by (unfold cas, isLive; rewrite <- Hid, leaseIs_refl, Hl; done).
  pose proof (upd_in cas (casWarming input) _ r Hr) as Hin. unfold upd in Hin. rewrite Hcas in Hin.
  apply (join_row _ _ _ _ _ _ _ _ _ _ (casWarming input r) r') in H as (<- & -> & ->);
    [|cbn; by rewrite update_ids|exact Hin|done|done|done].
  split_and!; [done| |done]. destruct (select_where cas (leases d)) eqn:E; [|done].
  assert (Hr0 : r ∈ select_where cas (leases d)) by by apply elem_of_select_where. rewrite E in Hr0. by apply elem_of_nil in Hr0.
Qed.

(** What an acquire makes of the lease it locks. *)
Definition locked_outcome now input d role (r r' : LeaseRow) : Prop :=
  (r' = r /\ role = fenced) \/
  (l_liveness r' = l_liveness r /\ l_liveness r <> cold /\ l_liveness r <> draining /\ role = attached) \/
  (l_liveness r = draining /\ l_liveness r' = warm /\ role = rearmed) \/
  (l_liveness r' = warming /\ role = spawner /\ l_expiresAt r' = now + default (a_leaseTtlMs input) (a_warmingLeaseTtlMs input) /\
   (l_liveness r = cold \/
    ((differs (a_image input) (l_image r) <> None \/ differs (a_rigVersionId input) (l_rigVersionId r) <> None) /\
     otherHolders input r d = 0))).

Lemma locked_same now input row d role lease d' r' :
  lease_ok d -> row ∈ leases d -> acquireLocked now input row d = Ok (role, lease, d') ->
  r' ∈ leases d' -> l_id r' = l_id row -> locked_outcome now input d role row r'.
Proof.
  intros Hok Hrow H Hr' Hid. pose proof (lo_ids _ Hok) as Hnd. unfold acquireLocked in H. unfold locked_outcome.
  destruct (resolveConflict input row d) as [[liveness d1]|] eqn:Ec; [|done].
  apply resolveConflict_spec in Ec as [_ [[-> ->]|(-> & Hnc & Hdiff & Hoth & ->)]].
  - destruct (l_liveness row) eqn:El.
    + apply (cold_row _ _ _ _ _ _ _ _ row r') in H as (? & ? & ?); [|done..]. right. right. right. split_and!; auto.
    + apply (join_row _ _ _ _ _ _ _ _ _ _ row r') in H as (<- & Hl & _); [|done..]. cbn in Hl. rewrite El in Hl. right. left. by split_and!.
    + destruct (_ && _).
      * injection H as <- _ <-. left. split; [|done]. by apply (select_unique l_id (l_id row) (leases d)).
      * apply (join_row _ _ _ _ _ _ _ _ _ _ row r') in H as (<- & Hl & _); [|done..]. cbn in Hl. rewrite El in Hl. right. left. by split_and!.
    + apply (join_row _ _ _ _ _ _ _ _ _ _ row r') in H as (<- & Hl & _); [|done..]. right. right. left. by split_and!.
  - pose proof (upd_in (leaseIs (l_id row)) (soloReset input) _ row Hrow) as Hin. unfold upd in Hin. rewrite leaseIs_refl in Hin.
    apply (cold_row _ _ _ _ _ _ _ _ (soloReset input row) r') in H as (? & ? & ?);
      [|cbn; by rewrite update_ids|exact Hin|reflexivity|reflexivity|done|done].
    right. right. right. split_and!; auto.
Qed.

(** What an acquire does to a lease that was there. *)
Lemma acquire_row now input d role lease d' r r' :
  lease_ok d -> acquireLease now input d = Ok (role, lease, d') ->
  r ∈ leases d -> r' ∈ leases d' -> l_id r' = l_id r ->
  if ofGroup (a_workspaceId input) (a_sandboxGroupId input) r
  then locked_outcome now input d role r r' else r' = r.
Proof.
  intros Hok0 H Hr0 Hr' Hid. destruct (materialize_keeps now input d r Hr0) as [Hr Hh].
  apply (materialize_ok now input) in Hok0 as Hok. unfold acquireLease in H.
  destruct (leaseFor _ _ (materialize now input d)) as [row|] eqn:Erow; [|done]. apply leaseFor_elem in Erow as [Hrow Hg].
  destruct (ofGroup _ _ r) eqn:Eg.
  - rewrite (same_group _ _ _ r row Hok Hr Hrow Eg Hg) in H.
    pose proof (locked_same _ _ _ _ _ _ _ _ Hok Hr H Hr' Hid) as Ho. unfold locked_outcome, otherHolders in *. by rewrite Hh in Ho.
  - eapply locked_other; [exact Hok|exact Hrow|exact H|exact Hr|exact Hr'|exact Hid|].
    destruct (leaseIs (l_id row) r) eqn:E; [|done]. rewrite (same_lease _ row r Hok Hrow Hr E) in Eg. by rewrite Hg in Eg.
Qed.

Lemma persistWarm_fields render toISOString dateParse now ws group e a i t d :
  (persistWarmSnapshot render toISOString dateParse now ws group e a i t d).2 = d \/
  exists f, (persistWarmSnapshot render toISOString dateParse now ws group e a i t d).2
            = d <| leases ::= update_where (warmFence ws group e) f |> /\
            forall r, l_id (f r) = l_id r /\ l_liveness (f r) = l_liveness r.
Proof. unfold persistWarmSnapshot. repeat case_match; auto; right; eexists; (split; [reflexivity|done]). Qed.

(** ** Fencing *)

Section fencing.
Context (render : json -> jstr) (toISOString pgTimestamp : Z -> jstr) (dateParse : jstr -> option Z).
Local Notation lstep := (lease_step render toISOString pgTimestamp dateParse).

Lemma update_nop p g d : (forall r, r ∈ leases d -> p r = false) -> d <| leases ::= update_where p g |> = d.
Proof. intros H. pose proof (update_where_none p g _ H) as E. destruct d as [ls hs n]. cbn in *. unfold update_where in E. by rewrite E. Qed.

Lemma select_nop {A} (p : A -> bool) l : (forall r, r ∈ l -> p r = false) -> select_where p l = [].
Proof. intros H. apply filter_none, Forall_forall. exact H. Qed.

Lemma ofGroup_key ws group r : ofGroup ws group r = true <-> groupKey r = (ws, group).
Proof.
unfold ofGroup, groupKey. rewrite andb_true_iff, !bool_decide_eq_true. split; [by intros [-> ->]|by intros [= -> ->]].
Qed.

Lemma steps_row d d' r :
lease_ok d -> rtc lstep d d' -> r ∈ leases d ->
exists r', r' ∈ leases d' /\ groupKey r' = groupKey r /\ l_leaseEpoch r <= l_leaseEpoch r'.
Proof.
intros Hok H. revert r Hok. induction H as [d|d d1 d' Hs _ IH]; intros r Hok Hr; [by exists r|].
destruct (step_keeps _ _ _ _ d d1 r Hok Hs Hr) as (r1 & Hr1 & Hk).
pose proof (step_row _ _ _ _ d d1 r r1 Hok Hs Hr Hr1 Hk) as (_ & _ & He & _).
destruct (IH r1) as (r' & Hr' & Hk' & He'); [by eapply step_ok|done|]. exists r'. split_and!; [done|congruence|lia].
Qed.

(** No lease of the group has an epoch up to [e] any more. *)
Definition superseded (ws group : string) (e : Z) (d : Db) : Prop :=
forall r, r ∈ leases d -> ofGroup ws group r = true -> e < l_leaseEpoch r.

Lemma superseded_fence ws group l e d r : superseded ws group e d -> r ∈ leases d -> fence ws group l e r = false.
Proof.
intros H Hr. destruct (fence ws group l e r) eqn:E; [|done]. apply fence_spec in E as (Hg & _ & He).
apply H in Hg; [lia|done].
Qed.

Lemma commit_supersedes now input d lease d1 d2 :
lease_ok d -> commitWarmingToWarm now input d = (Some lease, d1) -> rtc lstep d1 d2 ->
superseded (c_workspaceId input) (c_sandboxGroupId input) (c_expectedEpoch input) d2.
Proof.
intros Hok H Hs r Hr Hg.
assert (Hd1 : d1 = (commitWarmingToWarm now input d).2) by by rewrite H.
assert (Hok1 : lease_ok d1) by (rewrite Hd1; eapply (step_ok render toISOString pgTimestamp dateParse); [apply ls_commit|done]).
unfold commitWarmingToWarm, cas in H. injection H as Hl H'. clear Hd1.
apply head_Some_elem_of in Hl. unfold updated_rows in Hl. apply list_elem_of_fmap in Hl as (r0 & -> & Hr0).
apply list_elem_of_In, filter_In in Hr0 as [Hr0 Hf]. apply list_elem_of_In in Hr0.
assert (Hin : warmed now input r0 ∈ leases d1).
{ rewrite <- H'. cbn. apply elem_of_update_where. exists r0. split; [done|]. by rewrite Hf. }
apply fence_spec in Hf as (Hg0 & _ & He0).
destruct (steps_row d1 d2 _ Hok1 Hs Hin) as (r' & Hr' & Hk & He).
assert (lease_ok d2) by by eapply steps_ok.
assert (r' = r) as ->.
{ apply (same_group d2 (c_workspaceId input) (c_sandboxGroupId input)); [done|done|done|done|].
  apply ofGroup_key. rewrite Hk. by apply ofGroup_key in Hg0. }
cbn in He. lia.
Qed.

Lemma cas_none p f d : (forall r, r ∈ leases d -> p r = false) -> cas p f d = (None, d).
Proof. intros H. unfold cas, updated_rows. rewrite (filter_none p) by (by apply Forall_forall). cbn [head List.map]. by rewrite (update_nop _ _ _ H). Qed.

(** (C13) The epoch fence.  Once a spawner has committed its box at some epoch,
    and whatever ran on the leases since, the ten operations that carry that epoch
    as their fence change no lease, and the nine that answer say so: a second
    commit or creation record, the reset of a failed spawn (which answers
    nothing), the end of a drain, both snapshots, the holder's heartbeat, the two
    URL records and the record of the files of a box. *)
Theorem superseded_fenced now input d lease d1 d2 :
let ws := c_workspaceId input in let group := c_sandboxGroupId input in let e := c_expectedEpoch input in
lease_ok d -> commitWarmingToWarm now input d = (Some lease, d1) -> rtc lstep d1 d2 ->
(forall now' input', c_workspaceId input' = ws -> c_sandboxGroupId input' = group -> c_expectedEpoch input' = e ->
   commitWarmingToWarm now' input' d2 = (None, d2) /\ recordWarmingSandboxCreated now' input' d2 = (None, d2)) /\
failWarmingToCold render ws group e d2 = d2 /\
confirmDrainCold render ws group e d2 = (false, d2) /\
(forall now' a, ds_wrote (persistDrainSnapshot render pgTimestamp now' ws group e a d2).1 = false /\
                (persistDrainSnapshot render pgTimestamp now' ws group e a d2).2 = d2) /\
(forall now' a i t, wr_wrote (persistWarmSnapshot render toISOString dateParse now' ws group e a i t d2).1 = false /\
                    (persistWarmSnapshot render toISOString dateParse now' ws group e a i t d2).2 = d2) /\
(forall now' kind h ttl, (heartbeatLeaseHolder now' ws group kind h ttl e d2).1 = false /\
                         leases (heartbeatLeaseHolder now' ws group kind h ttl e d2).2 = leases d2) /\
(forall url, recordLeaseDataPlaneUrl ws group e url d2 = (None, d2) /\ recordLeaseTerminalDataPlaneUrl ws group e url d2 = (None, d2)) /\
(forall collation i files, markSandboxFileResourcesMaterialized render collation ws group e i files d2 = Some (false, d2)).
Proof.
intros ws group e Hok H Hs. pose proof (commit_supersedes _ _ _ _ _ _ Hok H Hs) as Hsup. clear H Hs Hok.
assert (Hf : forall l r, r ∈ leases d2 -> fence ws group l e r = false) by (intros; by eapply superseded_fence).
assert (Hdf : forall r, r ∈ leases d2 -> drainFence ws group e r = false) by (intros r Hr; unfold drainFence; by rewrite Hf).
assert (Hg : forall (b : bool) r, r ∈ leases d2 -> ofGroup ws group r && (l_leaseEpoch r =? e) && b = false).
{ intros b r Hr. destruct (ofGroup ws group r) eqn:Eg; [|done]. specialize (Hsup r Hr Eg). replace (l_leaseEpoch r =? e) with false by (symmetry; apply Z.eqb_neq; lia). done. }
split_and!.
- intros now' input' E1 E2 E3. unfold commitWarmingToWarm, recordWarmingSandboxCreated, warmingFence. rewrite E1, E2, E3. split; apply cas_none, Hf.
- exact (update_nop _ _ _ (Hf warming)).
- unfold confirmDrainCold. by rewrite (select_nop _ _ Hdf), (update_nop _ _ _ Hdf).
- intros now' a. unfold persistDrainSnapshot. by rewrite (select_nop _ _ Hdf).
- intros now' a i t. unfold persistWarmSnapshot, warmFence. by rewrite (select_nop _ _ (Hf warm)).
- intros now' kind h ttl. unfold heartbeatLeaseHolder. destruct (touchLeaseHolder _ _ _ _ _ _) as [held d3] eqn:E.
  assert (Hl : leases d3 = leases d2) by (unfold touchLeaseHolder in E; by injection E as _ <-).
  destruct held; cbn [negb]; [|done]. cbn. rewrite Hl. rewrite (select_nop _ _ (fun r => Hg _ r)). split; [done|]. apply update_where_none. exact (fun r => Hg _ r).
- intros url. split; apply cas_none; exact (fun r => Hg _ r).
- intros collation i files. unfold markSandboxFileResourcesMaterialized. destruct (remove_dups _) as [|id ids]; [done|].
  assert (Hm : forall r, r ∈ leases d2 -> boxFence ws group e i r = false) by (intros r Hr; unfold boxFence, warmFence; by rewrite Hf).
  destruct (existsb _ _) eqn:Ex; [|by rewrite (select_nop _ _ Hm), (update_nop _ _ _ Hm)].
  exfalso. apply existsb_exists in Ex as (r & Hr%list_elem_of_In & [Hc _]%andb_true_iff). by rewrite Hm in Hc.
Qed.

(** ** The liveness of a lease as a state machine *)

(** The acquirer rolls the box to another image or rig, and nobody else holds it. *)
Definition soloRecreate (input : AcquireLeaseInput) (d : Db) (r : LeaseRow) : Prop :=
  (differs (a_image input) (l_image r) <> None \/ differs (a_rigVersionId input) (l_rigVersionId r) <> None) /\
  otherHolders input r d = 0.

(** The three ways a box is given up. *)
Inductive gives_up (d d' : Db) (r : LeaseRow) : Prop :=
| gu_failed ws group e :
    d' = failWarmingToCold render ws group e d -> fence ws group warming e r = true -> gives_up d d' r
| gu_dead now input :
    d' = (reapStaleLeaseHolders now input d).2 -> deadBeforeCreate now (rp_workspaceId input) r = true -> gives_up d d' r
| gu_drained ws group e :
    d' = (confirmDrainCold render ws group e d).2 -> drainFence ws group e r = true -> gives_up d d' r.

Inductive transition (d d' : Db) (r r' : LeaseRow) : Prop :=
| tr_same : l_liveness r' = l_liveness r -> transition d d' r r'
| tr_spawn now input lease :
    acquireLease now input d = Ok (spawner, lease, d') ->
    ofGroup (a_workspaceId input) (a_sandboxGroupId input) r = true ->
    l_liveness r = cold \/ soloRecreate input d r -> l_liveness r' = warming -> transition d d' r r'
| tr_commit : l_liveness r = warming -> l_liveness r' = warm -> transition d d' r r'
| tr_drain :
    l_liveness r = warm -> l_liveness r' = draining -> (forall h, h ∈ holders d' -> holderOf (l_id r) h = false) ->
    transition d d' r r'
| tr_rearm : l_liveness r = draining -> l_liveness r' = warm -> transition d d' r r'
| tr_abandon :
    l_liveness r = warming -> l_liveness r' = draining -> l_instanceId r' = l_instanceId r -> transition d d' r r'
| tr_give_up : gives_up d d' r -> l_liveness r' = cold -> transition d d' r r'.

Lemma count_zero {A} (p : A -> bool) l : count_where p l = 0 -> forall x, x ∈ l -> p x = false.
Proof.
  unfold count_where. intros H x Hx. destruct (p x) eqn:E; [|done].
  assert (Hin : x ∈ List.filter p l) by (apply list_elem_of_In, filter_In; split; [by apply list_elem_of_In|done]).
  destruct (List.filter p l); [by apply elem_of_nil in Hin|cbn in H; lia].
Qed.

(** A recount keeps a lease's liveness, or drains a warm one nobody holds. *)
Lemma recount_liveness now grace hs r :
  l_liveness (recount now grace hs r) = l_liveness r \/
  (l_liveness r = warm /\ l_liveness (recount now grace hs r) = draining /\ (forall h, h ∈ hs -> holderOf (l_id r) h = false)).
Proof.
  unfold recount. destruct (_ && _) eqn:E; [right|by left]. unfold isLive in E. breflect.
  split_and!; [done|done|]. by apply count_zero.
Qed.

Lemma reap_transition now input d r r' :
  lease_ok d -> r ∈ leases d -> r' ∈ leases (reapStaleLeaseHolders now input d).2 -> l_id r' = l_id r ->
  transition d (reapStaleLeaseHolders now input d).2 r r'.
Proof.
  intros Hok Hr Hr' Hid. pose proof (lo_ids _ Hok) as Hnd.
  set (d' := (reapStaleLeaseHolders now input d).2) in *. set (hs := holders d').
  set (ws := rp_workspaceId input). set (p1 := fun x => bool_decide (l_workspaceId x = ws)).
  set (g1 := recount now (rp_idleGraceMs input) hs).
  assert (Hg1 : forall x, l_id (g1 x) = l_id x) by (intros x; unfold g1, recount; by destruct (_ && _)).
  assert (Hl : leases d' = update_where (deadAfterCreate now ws) (drainNow now)
                 (update_where (deadBeforeCreate now ws) resetCold (update_where p1 g1 (leases d)))) by reflexivity.
  rewrite Hl in Hr'. set (r1 := upd p1 g1 r). set (r2 := upd (deadBeforeCreate now ws) resetCold r1).
  apply update_tracks with (r := r2) in Hr'; [|by rewrite !update_ids|done|by apply upd_in, upd_in|].
  2: { rewrite Hid. unfold r2, r1, upd. by repeat case_match; cbn; rewrite ?Hg1. }
  assert (H1 : l_liveness r1 = l_liveness r \/
    (l_liveness r = warm /\ l_liveness r1 = draining /\ (forall h, h ∈ hs -> holderOf (l_id r) h = false))).
  { unfold r1, upd. destruct (p1 r); [apply recount_liveness|by left]. }
  assert (H2 : expiredWarming now ws r1 = true -> r1 = stampCounts hs r /\ expiredWarming now ws r = true).
  { unfold expiredWarming, isLive. intros H. breflect. destruct H1 as [H1|(_ & H1 & _)]; [|congruence].
    assert (Hw : isLive warm r = false) by (unfold isLive; apply bool_decide_eq_false; congruence).
    assert (Hr1 : r1 = stampCounts hs r).
    { unfold r1, upd in *. destruct (p1 r) eqn:Ep; unfold g1, recount in *; rewrite ?Hw in *; [done|].
      unfold p1 in Ep. breflect. done. }
    rewrite Hr1 in *. cbn in *. split; [done|]. rewrite !andb_true_iff, !bool_decide_eq_true, Z.ltb_lt. by split_and!. }
  subst r'. clear Hl Hid. unfold r2, upd.
  destruct (deadBeforeCreate now ws r1) eqn:E1.
  - assert (E2 : deadAfterCreate now ws (resetCold r1) = false) by (unfold deadAfterCreate, expiredWarming, isLive; cbn; by rewrite andb_false_r).
    rewrite E2. apply tr_give_up; [|done]. eapply gu_dead; [reflexivity|]. unfold deadBeforeCreate in *. breflect.
    destruct (H2 H) as [Hr1 He]. rewrite Hr1 in H0. change (hasInstance r = false) in H0.
    fold ws. by rewrite He, H0.
  - destruct (deadAfterCreate now ws r1) eqn:E2.
    + unfold deadAfterCreate in E2. breflect. destruct (H2 H) as [Hr1 He]. unfold expiredWarming, isLive in He. breflect.
      apply tr_abandon; [done|done|]. by rewrite Hr1.
    + destruct H1 as [H1|(Hw & H1 & Hh)]; [by apply tr_same|by apply tr_drain].
Qed.

(** Steps that are one update of the lease table. *)
Lemma update_transition p g d d' r r' :
  lease_ok d -> leases d' = update_where p g (leases d) -> (forall x, p x = true -> l_id (g x) = l_id x) ->
  r ∈ leases d -> r' ∈ leases d' -> l_id r' = l_id r ->
  (p r = true -> transition d d' r (g r)) -> transition d d' r r'.
Proof.
  intros Hok Hl Hg Hr Hr' Hid Ht. rewrite Hl in Hr'.
  apply update_tracks with (r := r) in Hr'; [|by apply lo_ids|done|done|done]. subst r'. unfold upd.
  destruct (p r); [by apply Ht|by apply tr_same].
Qed.

Lemma step_transition d d' r r' :
  lease_ok d -> lstep d d' -> r ∈ leases d -> r' ∈ leases d' -> l_id r' = l_id r -> transition d d' r r'.
Proof.
  intros Hok Hs Hr Hr' Hid.
  assert (Hsame : leases d' = leases d -> transition d d' r r').
  { intros Hl. rewrite Hl in Hr'. apply tr_same. by rewrite (select_unique l_id (l_id r) (leases d) r' r (lo_ids _ Hok)). }
  destruct Hs as [now input role lease d' H|now input|now input|ws group e|now ws group kind h grace
    |now ws group kind h ttl e|now ws group kind h|now ws group ttl|now input|now ws group e a|now ws group e a i t|ws group e
|ws group e u|ws group e u|coll ws group e i fs w d' H].
  - pose proof (acquire_row _ _ _ _ _ _ _ _ Hok H Hr Hr' Hid) as Ha. destruct (ofGroup _ _ r) eqn:Eg; [|subst; by apply tr_same].
    destruct Ha as [[-> _]|[(Hl & _)|[(Hl & Hl' & _)|(Hl & -> & _ & Hc)]]]; [by apply tr_same|by apply tr_same|by apply tr_rearm|].
    by eapply tr_spawn.
  - eapply update_transition; [done|reflexivity|done|done|done|done|]. intros (_ & Hl & _)%fence_spec. by apply tr_commit.
  - eapply update_transition; [done|reflexivity|done|done|done|done|]. intros _. by apply tr_same.
  - eapply update_transition; [done|reflexivity|done|done|done|done|]. intros Hf. apply tr_give_up; [|done]. by eapply gu_failed.
  - unfold releaseLeaseHolder in *. destruct (leaseFor ws group d) as [row|] eqn:E; [|by apply Hsame].
    apply leaseFor_elem in E as [Hrow _]. eapply update_transition; [done|reflexivity| |done|done|done|].
    { intros x _. by case_match. }
    intros Hp. rewrite (same_lease d row r Hok Hrow Hr Hp) in *.
    destruct (recount_liveness now grace (delete_where (holderIs (l_id row) kind h) (holders d)) row) as [Hl|(Hl & Hl' & Hh)];
      [by apply tr_same|by apply tr_drain].
  - unfold heartbeatLeaseHolder in *. destruct (touchLeaseHolder now ws group kind h d) as [held d1] eqn:E.
    assert (Hl : leases d1 = leases d) by (unfold touchLeaseHolder in E; by injection E as _ <-).
    destruct held; cbn [negb] in *; [|by apply Hsame].
    eapply update_transition; [done|cbn; rewrite Hl; reflexivity|done|done|done|done|]. intros _. by apply tr_same.
  - by apply Hsame.
  - eapply update_transition; [done|reflexivity|done|done|done|done|]. unfold isLive. intros Hp. breflect. by apply tr_rearm.
  - by apply reap_transition.
  - unfold persistDrainSnapshot in *. destruct (select_where _ _); [by apply Hsame|]. destruct a; [|by apply Hsame].
    eapply update_transition; [done|reflexivity|done|done|done|done|]. intros _. by apply tr_same.
  - destruct (persistWarm_fields render toISOString dateParse now ws group e a i t d) as [H|(f & H & Hf)];
      [apply Hsame; by rewrite H|].
    eapply update_transition; [done|rewrite H; reflexivity|intros; apply Hf|done|done|done|]. intros _. by apply tr_same, Hf.
  - eapply update_transition; [done|reflexivity|done|done|done|done|]. intros Hf. apply tr_give_up; [|done]. by eapply gu_drained.
  - eapply update_transition; [done|reflexivity|done|done|done|done|]. intros _. by apply tr_same.
  - eapply update_transition; [done|reflexivity|done|done|done|done|]. intros _. by apply tr_same.
  - apply mark_spec in H as [[-> _]|(p & f & -> & _ & Hm & _)]; [by apply Hsame|].
    eapply update_transition; [done|reflexivity|intros; apply Hm|done|done|done|]. intros _. apply tr_same, Hm.
Qed.

(** The liveness of a lease moves only along the edges of its state
    machine: a spawn leaves cold (or rolls a box nobody else holds), only a
    warming lease commits, a warm box drains only when no holder is left, a
    draining one can be re-armed, and a box is given up only by its own spawner
    failing, by the reaper when a spawner died before creating anything, or
    after a drain with no reference left. *)
Theorem liveness_transitions d d' r r' :
  lease_ok d -> lstep d d' -> r ∈ leases d -> r' ∈ leases d' -> l_id r' = l_id r -> transition d d' r r'.
Proof. apply step_transition. Qed.

(** ** One spawner at a time *)

(** A step that does not give the group's box up. *)
Definition quiet (ws group : string) (d d' : Db) : Prop :=
  lstep d d' /\ forall r, r ∈ leases d -> ofGroup ws group r = true -> ~ gives_up d d' r.

Definition occupied (ws group : string) (d : Db) : Prop :=
  lease_ok d /\ exists r, r ∈ leases d /\ ofGroup ws group r = true /\ l_liveness r <> cold.

Lemma keeps_id d d' r :
  lease_ok d -> lstep d d' -> r ∈ leases d -> exists r', r' ∈ leases d' /\ l_id r' = l_id r /\ groupKey r' = groupKey r.
Proof.
  intros Hok Hs Hr. destruct (step_keeps _ _ _ _ d d' r Hok Hs Hr) as (r' & Hr' & Hk). exists r'.
  by pose proof (step_row _ _ _ _ d d' r r' Hok Hs Hr Hr' Hk) as (Hid & _).
Qed.

Lemma quiet_occupied ws group d d' : quiet ws group d d' -> occupied ws group d -> occupied ws group d'.
Proof.
  intros [Hs Hq] [Hok (r & Hr & Hg & Hl)]. split; [by eapply step_ok|].
  destruct (keeps_id d d' r Hok Hs Hr) as (r' & Hr' & Hid & Hk). exists r'. split_and!; [done| |].
  - apply ofGroup_key. rewrite Hk. by apply ofGroup_key.
  - destruct (step_transition d d' r r' Hok Hs Hr Hr' Hid) as [H|? ? ? ? ? ? H|? H|? H ?|? H|? H ?|H ?]; try congruence.
    by destruct (Hq r Hr Hg).
Qed.

Lemma spawner_occupies now input d lease d' :
  lease_ok d -> acquireLease now input d = Ok (spawner, lease, d') -> occupied (a_workspaceId input) (a_sandboxGroupId input) d'.
Proof.
  intros Hok H. split; [apply (step_ok render toISOString pgTimestamp dateParse d); [by eapply ls_acquire|done]|].
  pose proof (acquire_evolves _ _ _ _ _ _ Hok H) as [[Hl _] _]. pose proof (materialize_ok now input d Hok) as Hok0.
  unfold acquireLease in H. destruct (leaseFor _ _ (materialize now input d)) as [row|] eqn:E; [|done].
  apply leaseFor_elem in E as [Hrow Hg]. apply list_elem_of_lookup in Hrow as Hi. destruct Hi as [i Hi].
  destruct (Forall2_lookup_l _ _ _ _ _ Hl Hi) as (r' & Hi' & Hm). apply list_elem_of_lookup_2 in Hi'.
  exists r'. split_and!; [done| |].
  - apply ofGroup_key. destruct Hm as (_ & -> & _). by apply ofGroup_key.
  - destruct (locked_same _ _ _ _ _ _ _ _ Hok0 Hrow H Hi' (proj1 Hm)) as [(_ & ?)|[(_ & _ & _ & ?)|[(_ & _ & ?)|(-> & _)]]]; done.
Qed.

(** (C12) The double-spawn guard: once a group has a spawner, and until its box is
    given up, every further acquire attaches, re-arms, is fenced or is refused;
    none becomes a second spawner, except one that deliberately rolls a box
    nobody else holds to another image or rig. *)
Theorem one_spawner now input d lease d1 d2 now' input' lease' d3 :
  lease_ok d -> acquireLease now input d = Ok (spawner, lease, d1) ->
  rtc (quiet (a_workspaceId input) (a_sandboxGroupId input)) d1 d2 ->
  a_workspaceId input' = a_workspaceId input -> a_sandboxGroupId input' = a_sandboxGroupId input ->
  acquireLease now' input' d2 = Ok (spawner, lease', d3) ->
  exists r, r ∈ leases d2 /\ ofGroup (a_workspaceId input) (a_sandboxGroupId input) r = true /\ soloRecreate input' d2 r.
Proof.
  intros Hok H Hq Hw Hgr H'.
  assert (Ho : occupied (a_workspaceId input) (a_sandboxGroupId input) d2).
  { pose proof (spawner_occupies _ _ _ _ _ Hok H) as Ho. clear H H'. induction Hq; eauto using quiet_occupied. }
  destruct Ho as [Hok2 (r & Hr & Hg & Hl)]. exists r. split_and!; [done..|].
  assert (Hs : lstep d2 d3) by by eapply ls_acquire.
  destruct (keeps_id d2 d3 r Hok2 Hs Hr) as (r' & Hr' & Hid & _).
  pose proof (acquire_row _ _ _ _ _ _ _ _ Hok2 H' Hr Hr' Hid) as Ha. rewrite Hw, Hgr, Hg in Ha.
  destruct Ha as [(_ & ?)|[(_ & _ & _ & ?)|[(_ & _ & ?)|(_ & _ & _ & [?|?])]]]; done.
Qed.

(** ** The workspace archive *)

Lemma select_id l r : NoDup (List.map l_id l) -> r ∈ l -> select_where (leaseIs (l_id r)) l = [r].
Proof.
  induction l as [|x l IH]; [by intros _ ?%elem_of_nil|]. cbn [List.map]. intros [Hx Hnd]%NoDup_cons [->|Hr]%elem_of_cons.
  - cbn. rewrite leaseIs_refl. f_equal. apply select_nop. intros y Hy. apply Nat.eqb_neq. intros E.
    apply Hx. rewrite <- E. apply list_elem_of_fmap. by exists y.
  - cbn. destruct (leaseIs (l_id r) x) eqn:E; [|by apply IH]. apply Nat.eqb_eq in E. destruct Hx.
    rewrite E. apply list_elem_of_fmap. by exists r.
Qed.

(** The row a join returns. *)
Lemma join_total now input row ttl setL rl d r :
  NoDup (List.map l_id (leases d)) -> r ∈ leases d -> l_id r = l_id row ->
  exists lease d', join now input row ttl setL rl d = Ok (rl, lease, d') /\ lease ∈ leases d' /\
    groupKey lease = groupKey r /\ l_liveness lease = default (l_liveness r) setL /\ l_leaseEpoch lease = l_leaseEpoch r /\
    l_instanceId lease = l_instanceId r /\ l_resumeState lease = l_resumeState r /\ l_resumeBackendId lease = l_resumeBackendId r.
Proof.
  intros Hnd Hr Hid. unfold join, recomputeAndStampLease, updated_rows.
  destruct (upsert_leases now (l_id row) (a_workspaceId input) (a_kind input) (a_holderId input) (a_subjectId input) d) as [Hl _].
  set (d0 := upsertLeaseHolder _ _ _ _ _ _ _) in *. rewrite Hl.
  change (List.filter (leaseIs (l_id row)) (leases d)) with (select_where (leaseIs (l_id row)) (leases d)).
  rewrite <- Hid, select_id by done. cbn [List.map]. eexists _, _. split; [reflexivity|]. split.
  - cbn. rewrite Hl. apply elem_of_update_where. exists r. split; [done|]. by rewrite leaseIs_refl.
  - by destruct setL.
Qed.

(** An acquire of a cold lease always wins the spawn, and finds what the lease kept. *)
Lemma acquire_cold now input d r :
  lease_ok d -> r ∈ leases d -> ofGroup (a_workspaceId input) (a_sandboxGroupId input) r = true -> l_liveness r = cold ->
  exists lease d', acquireLease now input d = Ok (spawner, lease, d') /\ lease ∈ leases d' /\
    groupKey lease = groupKey r /\ l_liveness lease = warming /\ l_leaseEpoch lease = l_leaseEpoch r /\
    l_instanceId lease = l_instanceId r /\ l_resumeState lease = l_resumeState r /\ l_resumeBackendId lease = l_resumeBackendId r.
Proof.
  intros Hok Hr Hg Hl. unfold acquireLease, materialize. rewrite !(leaseFor_unique _ _ d r Hok Hr Hg).
  unfold acquireLocked, resolveConflict. rewrite (bool_decide_eq_true_2 _ Hl).
  set (cas := fun x => leaseIs (l_id r) x && isLive cold x).
  assert (Hcas : cas r = true) by (unfold cas, isLive; by rewrite leaseIs_refl, Hl).
  assert (Hin : r ∈ select_where cas (leases d)) by by apply elem_of_select_where.
  destruct (select_where cas (leases d)) as [|x l]; [by apply elem_of_nil in Hin|]. clear Hin.
  pose proof (upd_in cas (casWarming input) _ r Hr) as Hin. unfold upd in Hin. rewrite Hcas in Hin.
  destruct (join_total now input r (default (a_leaseTtlMs input) (a_warmingLeaseTtlMs input)) None spawner
    (d <| leases ::= update_where cas (casWarming input) |>) (casWarming input r)) as (lease & d' & Hj & H); [|exact Hin|done|].
  - cbn. rewrite update_ids by done. by apply lo_ids.
  - exists lease, d'. split; [exact Hj|exact H].
Qed.

Fixpoint stripFields (fs : list (jstr * json)) : list (jstr * json) :=
  match fs with
  | [] => []
  | (_, JNull) :: fs => stripFields fs
  | (k, v) :: fs => (k, stripNulls v) :: stripFields fs
  end.

Lemma stripNulls_obj fs : stripNulls (JObj fs) = JObj (stripFields fs).
Proof. reflexivity. Qed.

Lemma assoc_strip k fs v : assoc k fs = Some v -> v <> JNull -> assoc k (stripFields fs) = Some (stripNulls v).
Proof.
  induction fs as [|[k' v'] fs IH]; cbn [assoc]; [done|]. case_bool_decide as E.
  - subst k'. intros [= ->] Hn. destruct v; try done; cbn [stripFields assoc]; by rewrite bool_decide_eq_true_2.
  - intros H Hn. destruct v'; cbn [stripFields]; [by apply IH|..]; cbn [assoc]; rewrite bool_decide_eq_false_2 by done; by apply IH.
Qed.

(** A text stored as the archive is read back, and the chilled envelope keeps it. *)
Lemma foldArchive_archive archive archiveAt prev state :
  sessionStateField (js "workspaceArchive") (Some (foldArchive archive archiveAt prev state)) = Some (JStr archive) /\
  sessionStateField (js "workspaceArchiveAt") (Some (foldArchive archive archiveAt prev state)) = Some (JStr archiveAt).
Proof.
  unfold sessionStateField, foldArchive, concatFields. cbn [prop fold_left fst snd].
  rewrite !assoc_set_field, !bool_decide_eq_true_2 by done. rewrite stripNulls_obj. cbn [prop].
  split; (erewrite assoc_strip; [|rewrite !assoc_set_field; cbn [js bool_decide]; reflexivity|]); reflexivity || discriminate.
Qed.

Lemma archiveOnly_archive b state a :
  sessionStateField (js "workspaceArchive") state = Some (JStr a) ->
  sessionStateField (js "workspaceArchive") (Some (archiveOnly render b state)) = Some (JStr a).
Proof.
  intros H. unfold archiveOnly, sessionStateField at 1. rewrite H. cbn [prop assoc orNull default].
  rewrite bool_decide_eq_false_2 by discriminate. rewrite bool_decide_eq_true_2 by done.
  rewrite stripNulls_obj. cbn [prop]. by erewrite assoc_strip; [|cbn [assoc]; rewrite bool_decide_eq_true_2 by done; reflexivity|].
Qed.

Lemma foldArchive_prev archive archiveAt p state :
  sessionStateField (js "workspaceArchivePrev") (Some (foldArchive archive archiveAt (Some p) state)) = Some (JStr p).
Proof.
  unfold sessionStateField, foldArchive, concatFields. cbn [prop fold_left fst snd].
  rewrite !assoc_set_field, !bool_decide_eq_true_2 by done. rewrite stripNulls_obj. cbn [prop].
  erewrite assoc_strip; [|rewrite !assoc_set_field; cbn [js bool_decide]; reflexivity|]; reflexivity || discriminate.
Qed.

(** A spawn of the group that failed and rolled back. *)
Definition failedSpawn (ws group : string) (d d' : Db) : Prop :=
  exists now input lease d1,
    a_workspaceId input = ws /\ a_sandboxGroupId input = group /\
    acquireLease now input d = Ok (spawner, lease, d1) /\
    d' = failWarmingToCold render ws group (l_leaseEpoch lease) d1.

(** The group's lease is cold and carries the archive. *)
Definition archived (ws group : string) (e : Z) (a : jstr) (d : Db) : Prop :=
  lease_ok d /\ exists r, r ∈ leases d /\ ofGroup ws group r = true /\ l_liveness r = cold /\ l_leaseEpoch r = e /\
    sessionStateField (js "workspaceArchive") (l_resumeState r) = Some (JStr a).

(** Chilling a fenced row of the group yields an archived lease. *)
Lemma chill_archived ws group e a d r p :
  lease_ok (d <| leases ::= update_where p (chilled render) |>) ->
  r ∈ leases d -> ofGroup ws group r = true -> p r = true -> l_leaseEpoch r = e ->
  sessionStateField (js "workspaceArchive") (l_resumeState r) = Some (JStr a) ->
  archived ws group e a (d <| leases ::= update_where p (chilled render) |>).
Proof.
  intros Hok Hr Hg Hp He Ha. split; [done|]. exists (chilled render r). split_and!; [|done|done|done|].
  - cbn. apply elem_of_update_where. exists r. split; [done|]. by rewrite Hp.
  - unfold chilled. assert (Hw : workspaceArchive render (l_resumeState r) = Some a) by (unfold workspaceArchive; by rewrite Ha).
    rewrite Hw. exact (archiveOnly_archive (l_resumeBackendId r) _ _ Ha).
Qed.

Lemma failedSpawn_archived ws group e a d d' : failedSpawn ws group d d' -> archived ws group e a d -> archived ws group e a d'.
Proof.
  intros (now & input & lease & d1 & Hw & Hgr & Hacq & ->) [Hok (r & Hr & Hg & Hl & He & Ha)]. subst ws group.
  destruct (acquire_cold now input d r Hok Hr Hg Hl) as (lease' & d1' & Hacq' & Hin & Hk & Hlw & He' & _ & Hst & _).
  rewrite Hacq in Hacq'. injection Hacq' as <- <-.
  assert (Hok1 : lease_ok d1) by (apply (step_ok render toISOString pgTimestamp dateParse d); [by eapply ls_acquire|done]).
  assert (Hgl : ofGroup (a_workspaceId input) (a_sandboxGroupId input) lease = true).
  { apply ofGroup_key. rewrite Hk. by apply ofGroup_key. }
  apply chill_archived with (r := lease); [|done|done| |congruence|by rewrite Hst].
  - change (lease_ok (failWarmingToCold render (a_workspaceId input) (a_sandboxGroupId input) (l_leaseEpoch lease) d1)).
    apply (step_ok render toISOString pgTimestamp dateParse d1); [apply ls_fail|done].
  - unfold fence, isLive. by rewrite Hgl, Hlw, Z.eqb_refl.
Qed.

(** Files survive the box: an archive persisted while a lease drains is what
    the next spawner of the group finds on its lease after the teardown, however
    many spawns fail in between. *)
Theorem drained_archive_restored now ws group e a d res d1 d2 d3 now' input :
  lease_ok d -> persistDrainSnapshot render pgTimestamp now ws group e (Some a) d = (res, d1) -> ds_wrote res = true ->
  confirmDrainCold render ws group e d1 = (true, d2) -> rtc (failedSpawn ws group) d2 d3 ->
  a_workspaceId input = ws -> a_sandboxGroupId input = group ->
  exists lease d4, acquireLease now' input d3 = Ok (spawner, lease, d4) /\
    sessionStateField (js "workspaceArchive") (l_resumeState lease) = Some (JStr a) /\
    l_instanceId lease = None /\ l_leaseEpoch lease = e.
Proof.
  intros Hok Hp Hw Hc Hf Hws Hgr.
  assert (Hd1 : d1 = (persistDrainSnapshot render pgTimestamp now ws group e (Some a) d).2) by by rewrite Hp.
  assert (Hok1 : lease_ok d1) by (rewrite Hd1; apply (step_ok render toISOString pgTimestamp dateParse d); [apply ls_persistDrain|done]).
  assert (Hd2 : d2 = (confirmDrainCold render ws group e d1).2) by by rewrite Hc.
  assert (Hok2 : lease_ok d2) by (rewrite Hd2; apply (step_ok render toISOString pgTimestamp dateParse d1); [apply ls_confirm|done]).
  assert (Ha2 : archived ws group e a d2).
  { unfold persistDrainSnapshot in Hp. destruct (select_where (drainFence ws group e) (leases d)) as [|r l] eqn:Esel; [by injection Hp as <- _|].
    assert (Hr : r ∈ select_where (drainFence ws group e) (leases d)) by (rewrite Esel; left).
    apply elem_of_select_where in Hr as [Hfr Hr]. injection Hp as _ Hd. clear Hd1 Hc.
    set (f := fun r => r <| l_resumeState := Some (foldArchive a (pgTimestamp now) None (l_resumeState r)) |>) in *.
    assert (Hin : f r ∈ leases d1).
    { rewrite <- Hd. cbn. apply elem_of_update_where. exists r. split; [done|]. by rewrite Hfr. }
    assert (Hff : drainFence ws group e (f r) = true) by exact Hfr.
    rewrite Hd2 in *. pose proof Hff as Hff'. unfold drainFence in Hff'. breflect.
    apply fence_spec in H as (Hg & _ & He). apply chill_archived with (r := f r); [done..|].
    exact (proj1 (foldArchive_archive a (pgTimestamp now) None (l_resumeState r))). }
  assert (Ha3 : archived ws group e a d3) by (clear Hc Hd2 Hok2; induction Hf; eauto using failedSpawn_archived).
  destruct Ha3 as [Hok3 (r & Hr & Hg & Hl & He & Ha)]. subst ws group.
  destruct (acquire_cold now' input d3 r Hok3 Hr Hg Hl) as (lease & d4 & Hacq & _ & _ & _ & He' & Hi & Hst & _).
  exists lease, d4. split_and!; [done|by rewrite Hst| |congruence]. rewrite Hi.
  pose proof (lo_rows _ Hok3 r Hr) as (_ & _ & _ & Hcold). by rewrite Hl in Hcold.
Qed.

(** ** Snapshots of a warm box *)

Context (Hparse : forall t, dateParse (toISOString t) = Some t) (Hiso : forall t, toISOString t <> []).

(** Warm snapshots are ordered by when their capture started: a capture is
    stored exactly when it is newer than the stored one and, under a throttle,
    at least the interval newer; storing it keeps the one it replaces as the
    fallback and hands the one before that to collection.  A late landing of an
    older capture changes nothing. *)
Theorem warm_snapshot_monotonic now ws group e a interval t d r :
  lease_ok d -> r ∈ leases d -> warmFence ws group e r = true ->
  let (res, d') := persistWarmSnapshot render toISOString dateParse now ws group e a interval (Some t) d in
  (wr_wrote res = true <->
   forall at_, priorAtMs render dateParse r = Some at_ -> at_ < t /\ (0 < interval -> interval <= t - at_)) /\
  (wr_wrote res = false -> d' = d) /\
  (wr_wrote res = true ->
   wr_priorArchiveForGc res = workspaceArchivePrev render (l_resumeState r) /\
   exists r', r' ∈ leases d' /\ l_id r' = l_id r /\
     workspaceArchive render (l_resumeState r') = Some a /\ priorAtMs render dateParse r' = Some t /\
     (forall p, workspaceArchive render (l_resumeState r) = Some p -> workspaceArchivePrev render (l_resumeState r') = Some p)).
Proof.
  intros Hok Hr Hf. unfold persistWarmSnapshot. change (default now (Some t)) with t.
  assert (Hin : r ∈ select_where (warmFence ws group e) (leases d)) by by apply elem_of_select_where.
  destruct (select_where (warmFence ws group e) (leases d)) as [|g l] eqn:Esel; [by apply elem_of_nil in Hin|].
  assert (g = r) as ->.
  { assert (Hg : g ∈ select_where (warmFence ws group e) (leases d)) by (rewrite Esel; left).
    apply elem_of_select_where in Hg as [Hfg Hg]. apply fence_spec in Hf as (Hf & _), Hfg as (Hfg & _).
    by apply (same_group d ws group). }
  clear Hin Esel.
  destruct (match priorAtMs render dateParse r with Some at_ => t <=? at_ | None => false end) eqn:E1; [|destruct (_ && _) eqn:E2]; cbn [wr_wrote].
  - split; [split; [done|]|by split]. intros H. destruct (priorAtMs render dateParse r) as [at_|]; [|done]. breflect. specialize (H at_ eq_refl). lia.
  - split; [split; [done|]|by split]. intros H. breflect. destruct (priorAtMs render dateParse r) as [at_|]; [|done]. breflect. specialize (H at_ eq_refl). lia.
  - split; [|split; [done|intros _; split; [done|]]].
    + split; [intros _ at_ Hat|done]. rewrite Hat in *. breflect. split; [lia|]. intros Hi. rewrite (proj2 (Z.ltb_lt _ _) Hi) in E2. cbn in E2. breflect. lia.
    + set (f := fun x => x <| l_resumeState := Some (foldArchive a (toISOString t) (workspaceArchive render (l_resumeState r)) (l_resumeState x)) |>).
      exists (f r).
      assert (Ha : l_resumeState (f r) = Some (foldArchive a (toISOString t) (workspaceArchive render (l_resumeState r)) (l_resumeState r))) by done.
      destruct (foldArchive_archive a (toISOString t) (workspaceArchive render (l_resumeState r)) (l_resumeState r)) as [H1 H2].
      split_and!.
      * cbn. apply elem_of_update_where. exists r. split; [done|]. by rewrite Hf.
      * done.
      * unfold workspaceArchive at 1. by rewrite Ha, H1.
      * unfold priorAtMs, workspaceArchiveAt. rewrite Ha, H2. cbn [jsonText]. specialize (Hiso t). rewrite <- (Hparse t).
        by destruct (toISOString t).
      * intros p Hp. unfold workspaceArchivePrev. rewrite Ha, Hp, foldArchive_prev. done.
Qed.

End fencing.

(** ** A run: spawn, commit, release, drain, snapshot, cold, spawn again *)

Definition exampleRender (_ : json) : jstr := [].
Definition exampleIso (t : Z) : jstr := [t].
Definition exampleParse (s : jstr) : option Z := match s with [t] => Some t | _ => None end.

Definition exampleAcquire (holderId : string) (image : option string) : AcquireLeaseInput := {|
  a_accountId := "a"; a_workspaceId := "w"; a_sandboxGroupId := "g"; a_kind := turn; a_holderId := holderId;
  a_subjectId := None; a_backend := "modal"; a_os := None; a_image := image; a_rigVersionId := None;
  a_leaseTtlMs := 90; a_warmingLeaseTtlMs := Some 600; a_expectedEpoch := None |}.
Definition exampleCommit (epoch : Z) (instanceId : string) : CommitInput := {|
  c_workspaceId := "w"; c_sandboxGroupId := "g"; c_expectedEpoch := epoch; c_instanceId := instanceId;
  c_dataPlaneUrl := None; c_resumeBackendId := Some (js "modal"); c_resumeState := None;
  c_leaseTtlMs := 90; c_warmingLeaseTtlMs := Some 600 |}.

Definition after {A} (d : Db) (r : result LeaseError (A * Db)) : Db := match r with Ok (_, d) => d | Err _ => d end.
Definition emptyDb : Db := {| leases := []; holders := []; fresh := 0 |}.
Definition warmingDb : Db := after emptyDb (acquireLease 0 (exampleAcquire "t1" (Some "img")) emptyDb).
Definition warmDb : Db := (commitWarmingToWarm 10 (exampleCommit 0 "box") warmingDb).2.
Definition drainingDb : Db := (releaseLeaseHolder 20 "w" "g" turn "t1" 5 warmDb).2.
Definition snapshotDb : Db := (persistDrainSnapshot exampleRender exampleIso 30 "w" "g" 1 (Some (js "files")) drainingDb).2.
Definition coldDb : Db := (confirmDrainCold exampleRender "w" "g" 1 snapshotDb).2.
Definition respawnDb : Db := after coldDb (acquireLease 40 (exampleAcquire "t2" (Some "img")) coldDb).

Lemma emptyDb_ok : lease_ok emptyDb.
Proof. split; cbn; [apply NoDup_nil_2|apply NoDup_nil_2|by intros r ?%elem_of_nil|by intros r ?%elem_of_nil|apply NoDup_nil_2]. Qed.

Definition archiveOf (d : Db) : list (option json) :=
  List.map (fun r => sessionStateField (js "workspaceArchive") (l_resumeState r)) (leases d).

(** The reaper loses files that a caught failure keeps.  A cold lease holds
    an archive; its spawner dies before the provider create returns.  Rolling
    back with [failWarmingToCold] keeps the archive, the reaper's warming-death
    reset nulls the whole [resume_state] with it. *)
Theorem warming_death_loses_archive :
  archiveOf coldDb = [Some (JStr (js "files"))] /\
  archiveOf respawnDb = [Some (JStr (js "files"))] /\
  archiveOf (failWarmingToCold exampleRender "w" "g" 1 respawnDb) = [Some (JStr (js "files"))] /\
  archiveOf (reapStaleLeaseHolders 1000 {| rp_workspaceId := "w"; rp_viewerHolderTtlMs := 60; rp_turnHolderTtlMs := None;
               rp_idleGraceMs := 5 |} respawnDb).2 = [None].
Proof. by vm_compute. Qed.

Local Notation exstep := (lease_step exampleRender exampleIso exampleIso exampleParse).

Lemma after_acquire now input d : lease_ok d -> exstep d (after d (acquireLease now input d)) \/ after d (acquireLease now input d) = d.
Proof. intros _. destruct (acquireLease now input d) as [[[role lease] d']|e] eqn:E; [left|by right]. by eapply ls_acquire. Qed.

Lemma warmingDb_ok : lease_ok warmingDb.
Proof.
  destruct (after_acquire 0 (exampleAcquire "t1" (Some "img"%string)) emptyDb emptyDb_ok) as [H|H]; [|vm_compute in H; discriminate].
  by eapply step_ok, emptyDb_ok.
Qed.

Lemma warmDb_step : exstep warmingDb warmDb.
Proof. apply ls_commit. Qed.
Lemma drainingDb_step : exstep warmDb drainingDb.
Proof. apply ls_release. Qed.
Lemma warmDb_ok : lease_ok warmDb.
Proof. eapply step_ok; [exact warmDb_step|exact warmingDb_ok]. Qed.
Lemma drainingDb_ok : lease_ok drainingDb.
Proof. eapply step_ok; [exact drainingDb_step|exact warmDb_ok]. Qed.

Lemma leases_well_formed_witness : lease_ok drainingDb /\ List.map l_liveness (leases drainingDb) = [draining].
Proof.
  split; [|vm_compute; reflexivity].
  apply (leases_well_formed exampleRender exampleIso exampleIso exampleParse warmingDb); [exact warmingDb_ok|].
  eapply rtc_l; [exact warmDb_step|]. eapply rtc_l; [exact drainingDb_step|apply rtc_refl].
Defined.

Lemma superseded_fenced_witness : failWarmingToCold exampleRender "w" "g" 0 drainingDb = drainingDb.
Proof.
  destruct (commitWarmingToWarm 10 (exampleCommit 0 "box") warmingDb) as [lease d1] eqn:E.
  destruct lease as [lease|]; [|vm_compute in E; discriminate].
  assert (Hd : d1 = warmDb) by (unfold warmDb; rewrite E; reflexivity). subst d1.
  destruct (superseded_fenced exampleRender exampleIso exampleIso exampleParse 10 (exampleCommit 0 "box") warmingDb lease warmDb
    drainingDb warmingDb_ok E (rtc_once _ _ drainingDb_step)) as (_ & H & _).
  exact H.
Defined.

Definition rowOf (d : Db) : LeaseRow := default (Build_LeaseRow 0 EmptyString EmptyString EmptyString cold 0 0 0 None EmptyString EmptyString None None None None 0 None None None 0 0) (head (leases d)).

Lemma rowOf_in d : length (leases d) = 1%nat -> rowOf d ∈ leases d.
Proof. unfold rowOf. destruct (leases d); [discriminate|]. intros _. left. Qed.

Lemma warm_row : rowOf warmDb ∈ leases warmDb.
Proof. apply rowOf_in. vm_compute. reflexivity. Qed.
Lemma draining_row : rowOf drainingDb ∈ leases drainingDb.
Proof. apply rowOf_in. vm_compute. reflexivity. Qed.

Lemma liveness_transitions_witness : transition exampleRender warmDb drainingDb (rowOf warmDb) (rowOf drainingDb).
Proof.
  apply (liveness_transitions exampleRender exampleIso exampleIso exampleParse); [exact warmDb_ok|exact drainingDb_step|exact warm_row|exact draining_row|vm_compute; reflexivity].
Defined.

Lemma one_spawner_witness :
  exists r, r ∈ leases warmingDb /\ ofGroup "w" "g" r = true /\ soloRecreate (exampleAcquire "t1" (Some "img2"%string)) warmingDb r.
Proof.
  destruct (acquireLease 0 (exampleAcquire "t1" (Some "img"%string)) emptyDb) as [[[role lease] d1]|e] eqn:E; [|vm_compute in E; discriminate].
  assert (Hd : d1 = warmingDb) by (unfold warmingDb; rewrite E; reflexivity). subst d1.
  assert (role = spawner) as -> by (vm_compute in E; congruence).
  destruct (acquireLease 5 (exampleAcquire "t1" (Some "img2"%string)) warmingDb) as [[[role' lease'] d3]|e] eqn:E'; [|vm_compute in E'; discriminate].
  assert (role' = spawner) as -> by (vm_compute in E'; congruence).
  apply (one_spawner exampleRender exampleIso exampleIso exampleParse 0 (exampleAcquire "t1" (Some "img"%string)) emptyDb lease warmingDb
    warmingDb 5 (exampleAcquire "t1" (Some "img2"%string)) lease' d3 emptyDb_ok E (rtc_refl _ _) eq_refl eq_refl E').
Defined.

Lemma drained_archive_restored_witness :
  exists lease d4, acquireLease 40 (exampleAcquire "t2" (Some "img"%string)) coldDb = Ok (spawner, lease, d4) /\
    sessionStateField (js "workspaceArchive") (l_resumeState lease) = Some (JStr (js "files")) /\
    l_instanceId lease = None /\ l_leaseEpoch lease = 1.
Proof.
  apply (drained_archive_restored exampleRender exampleIso exampleIso exampleParse 30 "w" "g" 1 (js "files") drainingDb
    {| ds_wrote := true; ds_priorArchive := None; ds_priorArchivePrev := None |} snapshotDb coldDb coldDb 40
    (exampleAcquire "t2" (Some "img"%string)));
    [exact drainingDb_ok|vm_compute; reflexivity|reflexivity|vm_compute; reflexivity|apply rtc_refl|reflexivity|reflexivity].
Defined.

Lemma warm_snapshot_monotonic_witness :
  wr_wrote (persistWarmSnapshot exampleRender exampleIso exampleParse 15 "w" "g" 1 (js "files") 5 (Some 12) warmDb).1 = true.
Proof.
  pose proof (warm_snapshot_monotonic exampleRender exampleIso exampleParse (fun _ => eq_refl) (fun _ => ltac:(discriminate))
    15 "w" "g" 1 (js "files") 5 12 warmDb (rowOf warmDb) warmDb_ok warm_row ltac:(vm_compute; reflexivity)) as H.
  destruct (persistWarmSnapshot _ _ _ _ _ _ _ _ _ _ _) as [res d']. destruct H as [H _]. apply H.
  intros at_ Hat. vm_compute in Hat. discriminate.
Defined.

(** Files are recorded for the instance they were written to, once each. *)
Definition shorter (a b : jstr) : bool := (Z.of_nat (length a) <=? Z.of_nat (length b)).
Definition filesOf (d : Db) : option json := l_resumeState (rowOf d).
Definition markTwice (instanceId : string) : option Db :=
  match markSandboxFileResourcesMaterialized exampleRender shorter "w" "g" 1 instanceId ["ff"; "f"; "ff"; ""]%string warmDb with
  | Some (_, d) => option_map snd (markSandboxFileResourcesMaterialized exampleRender shorter "w" "g" 1 instanceId ["fff"; "f"]%string d)
  | None => None
  end.
Example files_recorded_once :
  match markTwice "box" with Some d => arrow (js "opengeniFileMaterialization") (filesOf d) | None => None end =
    Some (JArr [JObj [(js "instanceId", JStr (js "box")); (js "fileIds", JArr [JStr (js "f"); JStr (js "ff"); JStr (js "fff")])]]) /\
  option_map filesOf (markTwice "other") = Some (filesOf warmDb).
Proof. vm_compute. split; reflexivity. Qed.
End SandboxLease.
