(* ===== verification/Metering.v ===== *)
(** * Warm-time metering ([packages/db/src/index.ts], P2.1, and the sweep of
      [apps/worker/src/activities/sandbox-lease.ts])

    A warm box is metered by ticks: each moves the cursor of the lease to the
    clock and records the whole seconds since the cursor, then debits their cost.
    A workspace without balance or over its cap loses the boxes that no turn
    holds. *)
From stdpp Require Import pretty.
From Stdlib Require Import QArith Qround.
From S2P Require Import Prelude Json JsonParse Sql Billing SandboxLease.
#[local] Open Scope Z_scope.
#[local] Open Scope opengeni_scope.

Module Metering.
Import Billing SandboxLease.

Record MeterDb := { leaseDb : SandboxLease.Db; billing : BillingDb }.
#[export] Instance etaMeterDb : Settable MeterDb := fun d => Build_MeterDb (leaseDb d) (billing d).

Record AccrueInput := {
  ac_accountId : string; ac_workspaceId : string; ac_sandboxGroupId : string; ac_expectedEpoch : Z;
  ac_warmRateMicrosPerSecond : Q; ac_subjectId : option string; ac_debitCredits : option bool
}.
Record AccrueWarmSecondsResult := { accrued : bool; seconds : Z; tick : Z; costMicros : Z }.
Definition none : AccrueWarmSecondsResult := {| accrued := false; seconds := 0; tick := 0; costMicros := 0 |}.

(** [floor(extract(epoch from (now() - last_meter_at)))], of milliseconds. *)
Definition elapsedSeconds (now last : Z) : Z := (now - last) / 1000.
(** [Math.round(seconds * Math.max(0, rate))] *)
Definition warmCost (seconds : Z) (rate : Q) : Z := Qfloor (inject_Z seconds * (if Qle_bool rate 0 then 0 else rate) + (1 # 2)).

Definition colons (parts : list string) : string := String.concat ":" parts.
Definition boxEpoch (input : AccrueInput) : string := colons [ac_sandboxGroupId input; pretty (ac_expectedEpoch input)].
Definition meterKey (kind : string) (input : AccrueInput) (tick : Z) : string := colons [kind; boxEpoch input; pretty tick].
Definition meterEvent (now : Z) (eventType unit : string) (quantity tick : Z) (input : AccrueInput) : UsageRow := usageRow now {|
  ui_accountId := ac_accountId input; ui_workspaceId := ac_workspaceId input; ui_subjectId := ac_subjectId input; ui_eventType := eventType;
  ui_quantity := quantity; ui_unit := unit; ui_sourceResourceType := Some "sandbox_lease"%string; ui_sourceResourceId := Some (boxEpoch input);
  ui_idempotencyKey := meterKey (String.append "usage:" eventType) input tick; ui_occurredAt := None |}.
Definition insertUsage (row : UsageRow) (b : BillingDb) : BillingDb := b <| usage ::= insert_nothing (usageKeyIs (u_idempotencyKey row)) row |>.

(** The transaction on the lease row. *)
Definition accrueLocked (now : Z) (input : AccrueInput) (d : MeterDb) : AccrueWarmSecondsResult * MeterDb :=
  match leaseFor (ac_workspaceId input) (ac_sandboxGroupId input) (leaseDb d) with
  | None => (none, d)
  | Some row =>
      if negb (l_leaseEpoch row =? ac_expectedEpoch input) || negb (isLive warm row) then (none, d)
      else
        match l_lastMeterAt row with
        | None => (none, d <| leaseDb ::= fun x => x <| leases ::= update_where (leaseIs (l_id row)) (fun r => r <| l_lastMeterAt := Some now |>) |> |>)
        | Some last =>
            let elapsedS := elapsedSeconds now last in
            if elapsedS <=? 0 then (none, d)
            else
              let tick := l_lastMeterTick row + 1 in
              let costMicros := warmCost elapsedS (ac_warmRateMicrosPerSecond input) in
              let b := insertUsage (meterEvent now "sandbox.warm_seconds" "seconds" elapsedS tick input) (billing d) in
              let b := if 0 <? costMicros then insertUsage (meterEvent now "sandbox.warm_cost" "usd_micros" costMicros tick input) b else b in
              ({| accrued := true; seconds := elapsedS; tick := tick; costMicros := costMicros |},
               {| leaseDb := (leaseDb d) <| leases ::= update_where (leaseIs (l_id row))
                    (fun r => r <| l_lastMeterAt := Some now |> <| l_lastMeterTick := tick |>) |>;
                  billing := b |})
        end
  end.

(** The debit after it: an error is swallowed, and a worker that dies between the
    two never debits. *)
Definition warmDebit (input : AccrueInput) (res : AccrueWarmSecondsResult) : EntryInput := {|
  ei_accountId := ac_accountId input; ei_workspaceId := Some (ac_workspaceId input); ei_type := "sandbox.warm_cost";
  ei_amountMicros := costMicros res; ei_sourceType := Some "sandbox_lease"%string; ei_sourceId := Some (boxEpoch input);
  ei_idempotencyKey := meterKey "debit:sandbox.warm_cost" input (tick res); ei_metadata := []; ei_occurredAt := None |}.
Definition accrueWarmSeconds (now : Z) (debitFails : bool) (input : AccrueInput) (d : MeterDb) : AccrueWarmSecondsResult * MeterDb :=
  let (res, d) := accrueLocked now input d in
  (res,
   if accrued res && (0 <? costMicros res) && default true (ac_debitCredits input) && negb debitFails
   then d <| billing := (applyCreditDebitUpToBalance now (warmDebit input res) (billing d)).2 |> else d).

(** ** Over the limit *)

Inductive DrainReason := balance | warm_cap.
#[export] Instance DrainReason_eq_dec : EqDecision DrainReason.
Proof. solve_decision. Defined.
Record ForceDrainInput := {
  fd_workspaceId : string; fd_balanceMicros : Z; fd_enforceBalance : bool; fd_maxWarmSecondsPerWorkspace : Z; fd_capWindowStart : Z; fd_idleGraceMs : Z
}.
Definition warmSecondsSince (ws : string) (since : Z) (b : BillingDb) : Z :=
  sum_where (inQuery {| uq_accountId := None; uq_workspaceId := Some ws; uq_eventType := "sandbox.warm_seconds"; uq_since := Some since |}) u_quantity (usage b).
Definition overLimit (input : ForceDrainInput) (b : BillingDb) : option DrainReason :=
  if fd_enforceBalance input && (fd_balanceMicros input <=? 0) then Some balance
  else if (0 <? fd_maxWarmSecondsPerWorkspace input)
       && (fd_maxWarmSecondsPerWorkspace input <=? warmSecondsSince (fd_workspaceId input) (fd_capWindowStart input) b) then Some warm_cap
  else None.

Definition viewerOnly (ws : string) (r : LeaseRow) : bool := String.eqb (l_workspaceId r) ws && isLive warm r && (l_turnHolders r =? 0).
Definition evicted (now graceMs : Z) (r : LeaseRow) : LeaseRow :=
  r <| l_liveness := draining |> <| l_refcount := 0 |> <| l_turnHolders := 0 |> <| l_viewerHolders := 0 |> <| l_expiresAt := now + graceMs |>.
Definition heldBy (rows : list LeaseRow) (h : HolderRow) : bool := existsb (fun r => Nat.eqb (l_id r) (h_leaseId h)) rows.
(** The reason and the groups that were drained. *)
Definition forceDrainOverLimitViewerOnlyBoxes (now : Z) (input : ForceDrainInput) (d : MeterDb) : option DrainReason * list string * MeterDb :=
  match overLimit input (billing d) with
  | None => (None, [], d)
  | Some reason =>
      let boxes := select_where (viewerOnly (fd_workspaceId input)) (leases (leaseDb d)) in
      (Some reason, List.map l_sandboxGroupId boxes,
       d <| leaseDb := {|
         leases := update_where (viewerOnly (fd_workspaceId input)) (evicted now (fd_idleGraceMs input)) (leases (leaseDb d));
         holders := delete_where (fun h => holderKind viewer h && heldBy boxes h) (holders (leaseDb d));
         fresh := fresh (leaseDb d) |} |>)
  end.

(** ** The sweep *)

Record Settings := {
  st_enforceBalance : bool; st_maxWarmSecondsPerWorkspace : Z; st_idleGraceMs : Z; st_warmRate : string -> Q; st_accountOf : string -> string
}.
(** [opengeni_private.list_meterable_warm_leases()] *)
Definition listMeterableWarmLeases (d : MeterDb) : list LeaseRow :=
  select_where (fun r => isLive warm r && (l_turnHolders r =? 0)) (leases (leaseDb d)).
Definition tickOf (s : Settings) (r : LeaseRow) : AccrueInput := {|
  ac_accountId := l_accountId r; ac_workspaceId := l_workspaceId r; ac_sandboxGroupId := l_sandboxGroupId r; ac_expectedEpoch := l_leaseEpoch r;
  ac_warmRateMicrosPerSecond := st_warmRate s (l_backend r); ac_subjectId := Some (l_sandboxGroupId r); ac_debitCredits := None |}.
(** The number of ticks that accrued, the workspaces seen, and the database;
    nothing fails here. *)
Fixpoint accrueAll (now : Z) (s : Settings) (rows : list LeaseRow) (d : MeterDb) : Z * list string * MeterDb :=
  match rows with
  | [] => (0, [], d)
  | r :: rows =>
      let (res, d) := accrueWarmSeconds now false (tickOf s r) d in
      let '(n, workspaces, d) := accrueAll now s rows d in
      ((if accrued res then n + 1 else n), l_workspaceId r :: filter (fun w => w <> l_workspaceId r) workspaces, d)
  end.
Definition accrueWarmTick (now : Z) (s : Settings) (d : MeterDb) : Z * list string * MeterDb := accrueAll now s (listMeterableWarmLeases d) d.
Fixpoint forceDrainAll (now monthStart : Z) (s : Settings) (workspaces : list string) (d : MeterDb) : Z * MeterDb :=
  match workspaces with
  | [] => (0, d)
  | ws :: workspaces =>
      let '(_, drained, d) := forceDrainOverLimitViewerOnlyBoxes now {|
        fd_workspaceId := ws;
        fd_balanceMicros := if st_enforceBalance s then getBillingBalance (st_accountOf s ws) (billing d) else 1;
        fd_enforceBalance := st_enforceBalance s; fd_maxWarmSecondsPerWorkspace := st_maxWarmSecondsPerWorkspace s;
        fd_capWindowStart := monthStart; fd_idleGraceMs := st_idleGraceMs s |} d in
      let (n, d) := forceDrainAll now monthStart s workspaces d in (Z.of_nat (length drained) + n, d)
  end.
Definition forceDrainOverLimitWorkspaces (now monthStart : Z) (s : Settings) (workspaces : list string) (d : MeterDb) : Z * MeterDb :=
  if negb (st_enforceBalance s) && (st_maxWarmSecondsPerWorkspace s <=? 0) then (0, d) else forceDrainAll now monthStart s workspaces d.
(** The metering half of [reapSandboxLeases]. *)
Definition meterSweep (now monthStart : Z) (s : Settings) (d : MeterDb) : Z * Z * MeterDb :=
  let '(metered, workspaces, d) := accrueWarmTick now s d in
  let (drained, d) := forceDrainOverLimitWorkspaces now monthStart s workspaces d in (metered, drained, d).

(** ** The keys of the meter *)

(** The usage event of a tick is named by the group, the epoch and the tick. *)
Definition warmKey (group : string) (epoch tick : Z) : string := String.concat ":" ["usage:sandbox.warm_seconds"; group; pretty epoch; pretty tick]%string.

Lemma last_colon (a a' b b' : jstr) : a ++ 58 :: b = a' ++ 58 :: b' -> 58 ∉ b -> 58 ∉ b' -> a = a' /\ b = b'.
Proof.
  intros E Hb Hb'. apply app_eq_inv in E as [(k & -> & E)|(k & -> & E)]; (destruct k as [|x k]; [rewrite app_nil_r; by injection E|]); injection E as _ E.
  - exfalso. apply Hb'. rewrite E. apply elem_of_app. right. by left.
  - exfalso. apply Hb. rewrite E. apply elem_of_app. right. by left.
Qed.
Lemma no_colon (n : Z) : 58 ∉ js (pretty n).
Proof.
  assert (forall x, (0 < x)%N -> 58 ∉ js (pretty_N_go x "")) as Hp.
  { intros x Hx. destruct (numeral x Hx "") as (c & ds & -> & _ & Hd & _). rewrite app_nil_r. intros Hin. rewrite Forall_forall in Hd. by specialize (Hd _ Hin). }
  destruct n as [|p|p]; [by intros H%list_elem_of_singleton|by apply (Hp (N.pos p))|].
  change (js (pretty (Z.neg p))) with (45 :: js (pretty_N_go (N.pos p) "")). intros [E|H]%elem_of_cons; [done|by apply (Hp (N.pos p))].
Qed.
Lemma js_warmKey group epoch tick : js (warmKey group epoch tick) = ((js "usage:sandbox.warm_seconds:" ++ js group) ++ 58 :: js (pretty epoch)) ++ 58 :: js (pretty tick).
Proof. unfold warmKey. cbn [String.concat]. rewrite !js_app. change (js ":") with [58]. cbn [app]. by rewrite <- !app_assoc. Qed.
Lemma warmKey_inj g e t g' e' t' : warmKey g e t = warmKey g' e' t' -> g = g' /\ t = t'.
Proof.
  intros E%(f_equal js). rewrite !js_warmKey in E. apply last_colon in E as [E Et]; [|apply no_colon..]. apply last_colon in E as [E _]; [|apply no_colon..].
  apply app_inv_head, js_inj in E. apply js_inj in Et. split; [done|]. by apply (inj pretty).
Qed.
Lemma meterKey_warm input tick : meterKey "usage:sandbox.warm_seconds" input tick = warmKey (ac_sandboxGroupId input) (ac_expectedEpoch input) tick.
Proof. apply js_inj. rewrite js_warmKey. unfold meterKey, colons, boxEpoch. cbn [String.concat]. unfold colons. cbn [String.concat]. rewrite !js_app. change (js ":") with [58]. cbn [app]. by rewrite <- !app_assoc. Qed.
Lemma cost_not_warm input tick g e t : meterKey "usage:sandbox.warm_cost" input tick <> warmKey g e t.
Proof. intros E%(f_equal js). rewrite js_warmKey in E. unfold meterKey, colons in E. cbn [String.concat] in E. rewrite !js_app in E. by vm_compute in E || discriminate E. Qed.

(** ** Steps and their trace *)

(** A sandbox group, a UUID, is of one workspace. *)
Definition groups_apart (x : SandboxLease.Db) : Prop := forall r r', r ∈ leases x -> r' ∈ leases x -> l_sandboxGroupId r = l_sandboxGroupId r' -> l_id r = l_id r'.
(** What other code does to billing: usage is only appended to, and only the
    ticks record warm seconds. *)
Definition elsewhere (b b' : BillingDb) : Prop := exists rows, usage b' = usage b ++ rows /\ forall u g e t, u ∈ rows -> u_idempotencyKey u <> warmKey g e t.
(** The usage events a step appended. *)
Definition recorded (b b' : BillingDb) : list UsageRow := drop (length (usage b)) (usage b').

Section steps.
Context (render : json -> jstr) (toISOString pgTimestamp : Z -> jstr) (dateParse : jstr -> option Z).

(** A tick on a lease shows the events it recorded; everything else is silent. *)
Inductive meter_step (d : MeterDb) : option (nat * list UsageRow) -> MeterDb -> Prop :=
| me_tick now debitFails input row : leaseFor (ac_workspaceId input) (ac_sandboxGroupId input) (leaseDb d) = Some row ->
    meter_step d (Some (l_id row, recorded (billing d) (billing (accrueWarmSeconds now debitFails input d).2))) (accrueWarmSeconds now debitFails input d).2
| me_drain now input : meter_step d None (forceDrainOverLimitViewerOnlyBoxes now input d).2
| me_lease x : lease_step render toISOString pgTimestamp dateParse (leaseDb d) x -> groups_apart x -> meter_step d None (d <| leaseDb := x |>)
| me_billing b : elsewhere (billing d) b -> meter_step d None (d <| billing := b |>).

Inductive meter_run : MeterDb -> list (nat * list UsageRow) -> MeterDb -> Prop :=
| run_done d : meter_run d [] d
| run_step d o d1 tr d2 : meter_step d o d1 -> meter_run d1 tr d2 -> meter_run d (match o with Some x => x :: tr | None => tr end) d2.

(** The events of warm seconds the ticks of a lease recorded, and their seconds. *)
Definition warmEvents (id : nat) (tr : list (nat * list UsageRow)) : list UsageRow :=
  List.filter (fun u => String.eqb (u_eventType u) "sandbox.warm_seconds") (flat_map (fun x => if Nat.eqb x.1 id then x.2 else []) tr).
Definition metered (id : nat) (tr : list (nat * list UsageRow)) : Z := fold_right (fun u n => u_quantity u + n) 0 (warmEvents id tr).

(** An update that keeps the identity of rows and their well-formedness. *)
Lemma update_lease_ok p g x hs :
  (forall r, p r = true -> l_id (g r) = l_id r /\ groupKey (g r) = groupKey r /\ (row_ok r -> row_ok (g r))) ->
  NoDup (List.map holderKey hs) -> lease_ok x -> lease_ok {| leases := update_where p g (leases x); holders := hs; fresh := fresh x |}.
Proof.
  intros Hg Hh [Hk Hi Hf Hr _]. split; cbn; [| | | |done].
  - rewrite map_update_where; [done|]. intros r Hp. by apply Hg.
  - rewrite map_update_where; [done|]. intros r Hp. by apply Hg.
  - intros r (r0 & H0 & ->)%elem_of_update_where. destruct (p r0) eqn:E; [|by apply Hf]. rewrite (proj1 (Hg r0 E)). by apply Hf.
  - intros r (r0 & H0 & ->)%elem_of_update_where. destruct (p r0) eqn:E; [|by apply Hr]. by apply Hg, Hr.
Qed.

Lemma viewerOnly_spec ws r : viewerOnly ws r = true -> l_workspaceId r = ws /\ l_liveness r = warm /\ l_turnHolders r = 0.
Proof. unfold viewerOnly, isLive. intros H. breflect. done. Qed.

Lemma evict_ok now input d : lease_ok (leaseDb d) -> lease_ok (leaseDb (forceDrainOverLimitViewerOnlyBoxes now input d).2).
Proof.
  intros Hok. unfold forceDrainOverLimitViewerOnlyBoxes. destruct (overLimit _ _); [|done]. apply update_lease_ok; [| |done].
  - intros r (_ & Hw & _)%viewerOnly_spec. split_and!; [done..|]. intros (_ & _ & _ & Hi). rewrite Hw in Hi. by split_and!.
  - apply NoDup_map_filter, Hok.
Qed.

(** What a tick does to the row of its lease. *)
Definition ticked (now : Z) (r : LeaseRow) (res : AccrueWarmSecondsResult) (r' : LeaseRow) : Prop :=
  l_id r' = l_id r /\ groupKey r' = groupKey r /\
  if accrued res then
    exists t0, l_lastMeterAt r = Some t0 /\ l_lastMeterAt r' = Some now /\ l_lastMeterTick r' = l_lastMeterTick r + 1 /\
      seconds res = (now - t0) / 1000
  else l_lastMeterTick r' = l_lastMeterTick r /\ (l_lastMeterAt r' = l_lastMeterAt r \/ l_lastMeterAt r = None).

Lemma leaseFor_self x ws group row : lease_ok x -> leaseFor ws group x = Some row -> row ∈ leases x /\ forall r, r ∈ leases x -> leaseIs (l_id row) r = true -> r = row.
Proof. intros Hok [Hr _]%leaseFor_elem. split; [done|]. intros r Hr' H. by apply (same_lease x row r). Qed.

Lemma accrue_row now input d row r : lease_ok (leaseDb d) -> leaseFor (ac_workspaceId input) (ac_sandboxGroupId input) (leaseDb d) = Some row ->
  r ∈ leases (leaseDb d) ->
  lease_ok (leaseDb (accrueLocked now input d).2) /\ exists r', r' ∈ leases (leaseDb (accrueLocked now input d).2) /\
    if Nat.eqb (l_id row) (l_id r) then ticked now r (accrueLocked now input d).1 r'
    else l_id r' = l_id r /\ groupKey r' = groupKey r /\ meterCursor r' = meterCursor r.
Proof.
  intros Hok Hf Hr. destruct (leaseFor_self _ _ _ _ Hok Hf) as [Hin Hu].
  assert (Hsame : exists r', r' ∈ leases (leaseDb d) /\ if Nat.eqb (l_id row) (l_id r) then ticked now r none r' else l_id r' = l_id r /\ groupKey r' = groupKey r /\ meterCursor r' = meterCursor r).
  { exists r. split; [done|]. destruct (Nat.eqb _ _); [|done]. split; [done|]. split; [done|]. split; [done|by left]. }
  assert (Hupd : forall g, (forall x, l_id (g x) = l_id x /\ groupKey (g x) = groupKey x /\ (row_ok x -> row_ok (g x))) ->
    lease_ok ((leaseDb d) <| leases ::= update_where (leaseIs (l_id row)) g |>) /\
    (if leaseIs (l_id row) r then g r else r) ∈ update_where (leaseIs (l_id row)) g (leases (leaseDb d))).
  { intros g Hg. split; [|by apply elem_of_update_where; exists r]. apply (update_lease_ok (leaseIs (l_id row)) g (leaseDb d)); [by intros; apply Hg|apply Hok|done]. }
  unfold accrueLocked. rewrite Hf. destruct (_ || _); [done|]. destruct (l_lastMeterAt row) as [t0|] eqn:Et.
  - destruct (_ <=? 0) eqn:Ee; [done|]. cbn [fst snd leaseDb accrued seconds]. edestruct Hupd as [H1 H2]; [|split; [exact H1|eexists; split; [exact H2|]]]; [done|].
    destruct (leaseIs (l_id row) r) eqn:El; unfold leaseIs in El; rewrite Nat.eqb_sym in El; rewrite El; [|done].
    assert (r = row) as -> by (apply Hu; [done|unfold leaseIs; by rewrite Nat.eqb_sym]). split; [done|]. split; [done|]. exists t0. by split_and!.
  - cbn [fst snd leaseDb]. edestruct Hupd as [H1 H2]; [|split; [exact H1|eexists; split; [exact H2|]]]; [done|].
    destruct (leaseIs (l_id row) r) eqn:El; unfold leaseIs in El; rewrite Nat.eqb_sym in El; rewrite El; [|done].
    assert (r = row) as -> by (apply Hu; [done|unfold leaseIs; by rewrite Nat.eqb_sym]). split; [done|]. split; [done|]. split; [done|by right].
Qed.

Lemma accrue_lease now fails input d : (accrueWarmSeconds now fails input d).1 = (accrueLocked now input d).1 /\
  leaseDb (accrueWarmSeconds now fails input d).2 = leaseDb (accrueLocked now input d).2.
Proof. unfold accrueWarmSeconds. destruct (accrueLocked now input d) as [res d1]. split; [done|]. cbn. by destruct (_ && _). Qed.

(** The events a tick records. *)
Definition past (g : string) (n : Z) (b : BillingDb) : Prop := forall u e t, u ∈ usage b -> u_idempotencyKey u = warmKey g e t -> t <= n.
Definition isWarm (u : UsageRow) : bool := String.eqb (u_eventType u) "sandbox.warm_seconds".
Lemma recorded_app b b' rows : usage b' = usage b ++ rows -> recorded b b' = rows.
Proof. intros E. unfold recorded. rewrite E. apply drop_app_length. Qed.
Lemma insertUsage_rows row b : exists rows, usage (insertUsage row b) = usage b ++ rows /\ (rows = [] \/ rows = [row]) /\
  ((forall u, u ∈ usage b -> u_idempotencyKey u <> u_idempotencyKey row) -> rows = [row]).
Proof.
  unfold insertUsage, insert_nothing. cbn. destruct (existsb _ _) eqn:E.
  - exists []. rewrite app_nil_r. split_and!; [done|by left|]. intros H. exfalso. apply existsb_exists in E as (u & Hu%list_elem_of_In & Hk%String.eqb_eq). by eapply H.
  - exists [row]. split_and!; [done|by right|done].
Qed.
Lemma accrue_debit now fails input d : usage (billing (accrueWarmSeconds now fails input d).2) = usage (billing (accrueLocked now input d).2).
Proof.
  unfold accrueWarmSeconds. destruct (accrueLocked now input d) as [res d1]. cbn. destruct (_ && _); [|done]. cbn. unfold applyCreditDebitUpToBalance.
  destruct (_ <=? 0); [done|]. cbn. unfold insertDebit. by destruct (0 <? _).
Qed.
Lemma accrue_usage now fails input d row : leaseFor (ac_workspaceId input) (ac_sandboxGroupId input) (leaseDb d) = Some row ->
  let res := (accrueWarmSeconds now fails input d).1 in let d1 := (accrueWarmSeconds now fails input d).2 in
  exists rows, usage (billing d1) = usage (billing d) ++ rows /\
    (forall u g e t, u ∈ rows -> u_idempotencyKey u = warmKey g e t -> g = ac_sandboxGroupId input /\ accrued res = true /\ t = l_lastMeterTick row + 1) /\
    (past (ac_sandboxGroupId input) (l_lastMeterTick row) (billing d) ->
     if accrued res then exists u, List.filter isWarm rows = [u] /\ u_quantity u = seconds res else rows = []).
Proof.
  intros Hf. cbn zeta. rewrite (proj1 (accrue_lease now fails input d)), accrue_debit. unfold accrueLocked. rewrite Hf.
  destruct (_ || _); [exists []; rewrite app_nil_r; split_and!; [done|by intros * H%elem_of_nil|done]|].
  destruct (l_lastMeterAt row) as [t0|]; [|exists []; rewrite app_nil_r; split_and!; [done|by intros * H%elem_of_nil|done]].
  destruct (_ <=? 0); [exists []; rewrite app_nil_r; split_and!; [done|by intros * H%elem_of_nil|done]|].
  cbn [fst snd billing accrued seconds tick costMicros]. set (warmRow := meterEvent now "sandbox.warm_seconds" _ _ _ _). set (costRow := meterEvent now "sandbox.warm_cost" _ _ _ _).
  destruct (insertUsage_rows warmRow (billing d)) as (w & Ew & Hw & Hfresh). assert (u_idempotencyKey warmRow = warmKey (ac_sandboxGroupId input) (ac_expectedEpoch input) (l_lastMeterTick row + 1)) as Ek
    by apply meterKey_warm.
  assert (exists c, usage (if 0 <? warmCost (elapsedSeconds now t0) (ac_warmRateMicrosPerSecond input) then insertUsage costRow (insertUsage warmRow (billing d)) else insertUsage warmRow (billing d)) =
    usage (billing d) ++ w ++ c /\ (c = [] \/ c = [costRow])) as (c & Ec & Hc).
  { destruct (0 <? _); [|exists []; rewrite app_nil_r; auto]. destruct (insertUsage_rows costRow (insertUsage warmRow (billing d))) as (c & Ec & Hc & _). exists c. rewrite Ec, Ew, <- app_assoc. auto. }
  exists (w ++ c). split_and!; [exact Ec| |].
  - intros u g e t [Hu|Hu]%elem_of_app Hk.
    + destruct Hw as [-> | ->]; [by apply elem_of_nil in Hu|]. apply list_elem_of_singleton in Hu as ->. rewrite Ek in Hk. by apply warmKey_inj in Hk as [-> ->].
    + destruct Hc as [-> | ->]; [by apply elem_of_nil in Hu|]. apply list_elem_of_singleton in Hu as ->. by apply cost_not_warm in Hk.
  - intros Hp. exists warmRow. split; [|done]. rewrite Hfresh by (intros u Hu E; rewrite Ek in E; specialize (Hp u _ _ Hu E); lia). by destruct Hc as [-> | ->].
Qed.

(** What a step does to a lease and to what was recorded for it. *)
Definition observedFor (id : nat) (o : option (nat * list UsageRow)) : list UsageRow :=
  match o with Some (id', rows) => if Nat.eqb id' id then List.filter isWarm rows else [] | None => [] end.
Definition meteredStep (r r' : LeaseRow) (events : list UsageRow) : Prop :=
  (events = [] /\ l_lastMeterTick r' = l_lastMeterTick r /\ (l_lastMeterAt r' = l_lastMeterAt r \/ l_lastMeterAt r = None)) \/
  exists u t0 now, events = [u] /\ l_lastMeterAt r = Some t0 /\ l_lastMeterAt r' = Some now /\ l_lastMeterTick r' = l_lastMeterTick r + 1 /\ u_quantity u = (now - t0) / 1000.
Lemma groups_apart_update p g x hs f : (forall r, p r = true -> l_id (g r) = l_id r /\ l_sandboxGroupId (g r) = l_sandboxGroupId r) -> groups_apart x ->
  groups_apart {| leases := update_where p g (leases x); holders := hs; fresh := f |}.
Proof.
  intros Hg Ha r r' (r0 & H0 & ->)%elem_of_update_where (r1 & H1 & ->)%elem_of_update_where. destruct (p r0) eqn:E0, (p r1) eqn:E1;
    rewrite ?(proj1 (Hg _ E0)), ?(proj1 (Hg _ E1)), ?(proj2 (Hg _ E0)), ?(proj2 (Hg _ E1)); by apply Ha.
Qed.
Lemma accrue_apart now fails input d : groups_apart (leaseDb d) -> groups_apart (leaseDb (accrueWarmSeconds now fails input d).2).
Proof.
  intros Ha. rewrite (proj2 (accrue_lease now fails input d)). unfold accrueLocked. destruct (leaseFor _ _ _); [|done]. destruct (_ || _); [done|].
  destruct (l_lastMeterAt _); [destruct (_ <=? 0); [done|]|]; by apply groups_apart_update.
Qed.
Lemma past_app g n n' b rows : n <= n' -> past g n b -> (forall u e t, u ∈ rows -> u_idempotencyKey u = warmKey g e t -> t <= n') -> forall b', usage b' = usage b ++ rows -> past g n' b'.
Proof. intros Hn Hp Hr b' E u e t Hu Hk. rewrite E in Hu. apply elem_of_app in Hu as [Hu|Hu]; [|by eapply Hr]. specialize (Hp u e t Hu Hk). lia. Qed.
Record meter_ok (d : MeterDb) (r : LeaseRow) : Prop := {
  mo_lease : lease_ok (leaseDb d); mo_apart : groups_apart (leaseDb d); mo_row : r ∈ leases (leaseDb d); mo_past : past (l_sandboxGroupId r) (l_lastMeterTick r) (billing d)
}.
Lemma meter_step_row d o d1 r : meter_step d o d1 -> meter_ok d r ->
  exists r', meter_ok d1 r' /\ l_id r' = l_id r /\ meteredStep r r' (observedFor (l_id r) o).
Proof.
  intros Hs [Hok Ha Hr Hp]. destruct Hs as [now fails input row Hf|now input|x Hx Hax|b (rows & Eb & Hb)].
  - destruct (accrue_usage now fails input d row Hf) as (rows & Eu & Hkeys & Hrec). rewrite (recorded_app _ _ _ Eu).
    destruct (accrue_lease now fails input d) as [Er El]. destruct (accrue_row now input d row r Hok Hf Hr) as (Hok1 & r' & Hr' & Hc). rewrite <- El in Hok1, Hr'.
    exists r'. cbn [observedFor]. apply leaseFor_elem in Hf as Hrow. destruct Hrow as (Hin & Hgk). unfold ofGroup in Hgk. apply andb_true_iff in Hgk as [_ Hgk%bool_decide_eq_true].
    destruct (Nat.eqb (l_id row) (l_id r)) eqn:E.
    + assert (r = row) as -> by (apply (same_lease (leaseDb d) row r Hok Hin Hr); unfold leaseIs; by rewrite Nat.eqb_sym).
      rewrite <- Er in Hc. destruct Hc as (Hid & Hgrp & Hc). injection Hgrp as _ Hgrp. rewrite Hgk in Hp. specialize (Hrec Hp). split; [|split; [done|]].
      * split; [done|by apply accrue_apart|done|]. rewrite Hgrp, Hgk. destruct (accrued _) eqn:Eacc.
        -- destruct Hc as (t0 & _ & _ & Ht & _). apply (past_app _ (l_lastMeterTick row) _ (billing d) rows); [lia|done| |done].
           intros u e t Hu Hk. destruct (Hkeys u _ _ _ Hu Hk) as (_ & _ & ->). lia.
        -- destruct Hc as [Ht _]. subst rows. apply (past_app _ (l_lastMeterTick row) _ (billing d) []); [lia|done|by intros ? ? ? ?%elem_of_nil|done].
      * destruct (accrued _) eqn:Eacc; [|left; by rewrite Hrec]. right. destruct Hc as (t0 & H0 & H1 & Ht & Hs). destruct Hrec as (u & -> & Hq). exists u, t0, now. split_and!; try done. congruence.
    + destruct Hc as (Hid & Hgrp & Hc). unfold meterCursor in Hc. injection Hc as Hat Htick. injection Hgrp as _ Hgrp. split; [|split; [done|left; split_and!; [done|done|by left]]].
      split; [done|by apply accrue_apart|done|]. rewrite Hgrp. apply (past_app _ (l_lastMeterTick r) _ (billing d) rows); [lia|done| |done].
      intros u e t Hu Hk. exfalso. destruct (Hkeys u _ _ _ Hu Hk) as (Hg & _). apply Nat.eqb_neq in E. apply E. apply Ha; [done|done|congruence].
  - exists (if viewerOnly (fd_workspaceId input) r then (if overLimit input (billing d) then evicted now (fd_idleGraceMs input) r else r) else r).
    pose proof (evict_ok now input d Hok) as Hok1. unfold forceDrainOverLimitViewerOnlyBoxes in *. destruct (overLimit _ _) as [reason|]; cbn [snd] in *.
    + split; [split; [done|cbn; by apply groups_apart_update|cbn; apply elem_of_update_where; exists r; by destruct (viewerOnly _ r)|cbn; by destruct (viewerOnly _ r)]|].
      split; [by destruct (viewerOnly _ r)|]. left. destruct (viewerOnly _ r); (split_and!; [done|done|by left]).
    + replace (if viewerOnly _ r then r else r) with r by (by destruct (viewerOnly _ r)). split; [by split|]. split; [done|]. left. split_and!; [done|done|by left].
  - destruct (step_keeps _ _ _ _ _ x r Hok Hx Hr) as (r' & Hr' & Hk). destruct (step_row _ _ _ _ _ x r r' Hok Hx Hr Hr' Hk) as (Hid & _ & _ & Hm & _).
    unfold meterCursor in Hm. injection Hm as Hat Htick. injection Hk as _ Hgrp. exists r'. split; [|split; [done|left; split_and!; [done|done|by left]]].
    split; [by eapply step_ok|done|done|]. cbn. by rewrite Hgrp, Htick.
  - exists r. split; [|split; [done|left; split_and!; [done|done|by left]]]. split; [done..|]. cbn. apply (past_app _ (l_lastMeterTick r) _ (billing d) rows); [lia|done| |done].
    intros u e t Hu Hk. by destruct (Hb u _ _ _ Hu Hk).
Qed.

Lemma observed_events id o tr : warmEvents id (match o with Some x => x :: tr | None => tr end) = observedFor id o ++ warmEvents id tr.
Proof.
  destruct o as [[id' rows]|]; [|done]. unfold warmEvents, observedFor. cbn [flat_map fst snd]. rewrite List.filter_app. f_equal. by destruct (Nat.eqb id' id).
Qed.
Lemma metered_app id o tr : metered id (match o with Some x => x :: tr | None => tr end) = fold_right (fun u n => u_quantity u + n) (metered id tr) (observedFor id o).
Proof. unfold metered. rewrite observed_events, fold_right_app. done. Qed.

(** (C34) Whatever happens to a lease between its ticks, the seconds in the usage
    events its ticks recorded never exceed the time its cursor moved, and each
    event loses less than one second; the tick number counts these events. *)
Theorem warm_meter_bounds d tr d' r t0 : meter_run d tr d' -> lease_ok (leaseDb d) -> groups_apart (leaseDb d) -> r ∈ leases (leaseDb d) ->
  l_lastMeterAt r = Some t0 -> past (l_sandboxGroupId r) (l_lastMeterTick r) (billing d) ->
  exists r' t1, r' ∈ leases (leaseDb d') /\ l_id r' = l_id r /\ l_lastMeterAt r' = Some t1 /\
    l_lastMeterTick r' = l_lastMeterTick r + Z.of_nat (length (warmEvents (l_id r) tr)) /\
    1000 * metered (l_id r) tr <= t1 - t0 <= 1000 * metered (l_id r) tr + 999 * Z.of_nat (length (warmEvents (l_id r) tr)).
Proof.
  intros Hrun Hok Ha Hr Ht Hp. assert (meter_ok d r) as Hm by done. clear Hok Ha Hr Hp. revert r t0 Ht Hm. induction Hrun as [d|d o d1 tr d2 Hs _ IH]; intros r t0 Ht Hm.
  { exists r, t0. split_and!; [apply Hm|done|done| | |]; cbn; lia. }
  destruct (meter_step_row d o d1 r Hs Hm) as (r1 & Hm1 & Hid & Hc). rewrite observed_events, metered_app, length_app.
  destruct Hc as [(-> & Htick & Hat)|(u & t & now & -> & Hat & Hat1 & Htick & Hq)].
  - destruct Hat as [Hat|Hat]; [|congruence]. destruct (IH r1 t0) as (r' & t1 & Hr' & Hid' & Ht1 & Hk & Hb); [congruence|done|]. rewrite Hid, Htick in *. exists r', t1. cbn [fold_right length]. rewrite Nat.add_0_l. split; [exact Hr'|]. split; [exact Hid'|]. split; [exact Ht1|]. split; [exact Hk|exact Hb].
  - assert (t = t0) as -> by congruence. destruct (IH r1 now Hat1 Hm1) as (r' & t1 & Hr' & Hid' & Ht1 & Hk & Hb). rewrite Hid in *. exists r', t1. cbn [fold_right length].
    rewrite Hq. pose proof (Z.div_mod (now - t0) 1000 ltac:(done)). pose proof (Z.mod_pos_bound (now - t0) 1000 ltac:(done)). split_and!; [done|done|done|lia|lia|lia].
Qed.
End steps.

(** The force drain spares the boxes of running turns.  When a workspace
    is over a limit - its balance spent while balances are enforced, or its warm
    seconds of the month at the cap - exactly its warm boxes that no turn holds
    start draining, with no viewer left on them; every other lease keeps its
    row and its holders.  Otherwise nothing changes, and the lease tables stay
    well formed. *)
Theorem force_drain_spares_turns now input d : lease_ok (leaseDb d) ->
  let '(reason, drained, d') := forceDrainOverLimitViewerOnlyBoxes now input d in
  let ws := fd_workspaceId input in
  lease_ok (leaseDb d') /\ billing d' = billing d /\
  (reason = None <-> ~ (fd_enforceBalance input = true /\ fd_balanceMicros input <= 0) /\
     (fd_maxWarmSecondsPerWorkspace input <= 0 \/ warmSecondsSince ws (fd_capWindowStart input) (billing d) < fd_maxWarmSecondsPerWorkspace input)) /\
  (reason = None -> d' = d /\ drained = []) /\
  (reason <> None -> forall r, r ∈ leases (leaseDb d) ->
     if String.eqb (l_workspaceId r) ws && isLive warm r && (l_turnHolders r =? 0)
     then evicted now (fd_idleGraceMs input) r ∈ leases (leaseDb d') /\ l_sandboxGroupId r ∈ drained /\
          forall h, h ∈ holders (leaseDb d') -> holderOf (l_id r) h = true -> h_kind h = turn
     else r ∈ leases (leaseDb d') /\ forall h, h ∈ holders (leaseDb d) -> holderOf (l_id r) h = true -> h ∈ holders (leaseDb d')).
Proof.
  intros Hok. pose proof (evict_ok now input d Hok) as Hok'. unfold forceDrainOverLimitViewerOnlyBoxes in *.
  assert (Hlim : overLimit input (billing d) = None <-> ~ (fd_enforceBalance input = true /\ fd_balanceMicros input <= 0) /\
     (fd_maxWarmSecondsPerWorkspace input <= 0 \/ warmSecondsSince (fd_workspaceId input) (fd_capWindowStart input) (billing d) < fd_maxWarmSecondsPerWorkspace input)).
  { unfold overLimit. destruct (fd_enforceBalance input && (fd_balanceMicros input <=? 0)) eqn:E1; [breflect; split; [done|naive_solver]|].
    apply andb_false_iff in E1. rewrite Z.leb_gt in E1. destruct ((0 <? _) && _) eqn:E2; [breflect; split; [done|lia]|].
    apply andb_false_iff in E2. rewrite Z.ltb_ge, Z.leb_gt in E2. split; [|done]. intros _. split; [|lia]. intros [Hen Hb]. destruct E1; [congruence|lia]. }
  destruct (overLimit input (billing d)) as [reason|] eqn:E; [|by split_and!]. split_and!; [done|done|by rewrite <- Hlim|done|].
  intros _ r Hr. fold (viewerOnly (fd_workspaceId input) r). cbn [leaseDb snd leases holders]. destruct (viewerOnly _ r) eqn:Ev.
  - split_and!; [|apply list_elem_of_fmap; exists r; split; [done|by apply elem_of_select_where]|].
    + apply elem_of_update_where. exists r. by rewrite Ev.
    + intros h [Hh Hk]%elem_filter Hho. apply negb_true_iff, andb_false_iff in Hk as [Hk|Hk].
      * unfold holderKind in Hk. breflect. by destruct (h_kind h).
      * exfalso. assert (heldBy (select_where (viewerOnly (fd_workspaceId input)) (leases (leaseDb d))) h = true); [|congruence].
        unfold heldBy. apply existsb_exists. exists r. split; [apply list_elem_of_In, elem_of_select_where; done|].
        unfold holderOf in Hho. by rewrite Nat.eqb_sym.
  - split; [apply elem_of_update_where; exists r; by rewrite Ev|]. intros h Hh Hho. apply elem_filter. split; [done|].
    apply negb_true_iff, andb_false_iff. right. unfold heldBy. apply not_true_iff_false. intros (r' & Hr' & Hid)%existsb_exists.
    apply list_elem_of_In, elem_of_select_where in Hr' as [Hv Hr']. unfold holderOf in Hho. apply Nat.eqb_eq in Hid, Hho.
    replace r' with r in Hv; [congruence|]. apply (same_lease (leaseDb d) r' r Hok); [done..|]. unfold leaseIs. apply Nat.eqb_eq. congruence.
Qed.

(** ** Examples *)

Definition exampleTick (epoch : Z) : AccrueInput := {|
  ac_accountId := "acme"; ac_workspaceId := "w"; ac_sandboxGroupId := "g"; ac_expectedEpoch := epoch; ac_warmRateMicrosPerSecond := 3 # 2;
  ac_subjectId := None; ac_debitCredits := None |}.
Definition after (now epoch : Z) (d : MeterDb) : MeterDb := (accrueWarmSeconds now false (exampleTick epoch) d).2.
(** A box that warmed up at 10 and has its cursor at 2000. *)
Definition seeded : MeterDb := after 2000 1 {|
  leaseDb := warmDb; billing := (applyCreditLedgerEntry 0 (entry "credit_topup" 1000 "k1") emptyBilling).2 |}.
Definition cursorOf (d : MeterDb) : list (option Z * Z) := List.map meterCursor (leases (leaseDb d)).

(** Ten seconds at one and a half micros. *)
Example tick_meters :
  (accrueWarmSeconds 12000 false (exampleTick 1) seeded).1 = {| accrued := true; seconds := 10; tick := 1; costMicros := 15 |} /\
  cursorOf (after 12000 1 seeded) = [(Some 12000, 1)] /\ getBillingBalance "acme" (billing (after 12000 1 seeded)) = 985 /\
  List.map (fun u => (u_idempotencyKey u, u_quantity u)) (usage (billing (after 12000 1 seeded))) =
    [("usage:sandbox.warm_seconds:g:1:1", 10); ("usage:sandbox.warm_cost:g:1:1", 15)]%string.
Proof. vm_compute. done. Qed.

(** "No silent seconds loss" holds for a tick of less than a second only: an
    accruing tick moves the cursor to the clock and drops its remainder, so
    three ticks 1.9 seconds apart meter three seconds of 5.7. *)
Example remainders_dropped :
  List.map u_quantity (List.filter (fun u => String.eqb (u_unit u) "seconds") (usage (billing (after 7700 1 (after 5800 1 (after 3900 1 seeded)))))) = [1; 1; 1] /\
  cursorOf (after 7700 1 (after 5800 1 (after 3900 1 seeded))) = [(Some 7700, 3)].
Proof. vm_compute. done. Qed.

(** Nothing resets the cursor when the box goes cold: the first tick after it
    warms up again, an hour later, meters and charges the hour it did not exist. *)
Definition rewarmed : MeterDb :=
  let x := leaseDb (after 12000 1 seeded) in
  let x := (releaseLeaseHolder 13000 "w" "g" turn "t1" 5 x).2 in
  let x := (confirmDrainCold exampleRender "w" "g" 1 x).2 in
  let x := SandboxLease.after x (acquireLease 3600000 (exampleAcquire "t2" (Some "img"%string)) x) in
  (after 12000 1 seeded) <| leaseDb := (commitWarmingToWarm 3605000 (exampleCommit 1 "box2") x).2 |>.
Example cold_time_billed :
  List.map l_liveness (leases (leaseDb rewarmed)) = [warm] /\
  (accrueWarmSeconds 3606000 false (exampleTick 2) rewarmed).1 = {| accrued := true; seconds := 3594; tick := 2; costMicros := 5391 |}.
Proof. vm_compute. done. Qed.

Definition unseeded : MeterDb := {| leaseDb := warmDb; billing := (applyCreditLedgerEntry 0 (entry "credit_topup" 1000 "k1") emptyBilling).2 |}.
Lemma seeded_ok : lease_ok (leaseDb seeded).
Proof.
  unfold seeded, after. fold unseeded. rewrite (proj2 (accrue_lease 2000 false (exampleTick 1) unseeded)).
  apply (accrue_row 2000 (exampleTick 1) unseeded (rowOf warmDb) (rowOf warmDb)); [exact warmDb_ok|vm_compute; reflexivity|exact warm_row].
Qed.
Lemma seeded_row : rowOf (leaseDb seeded) ∈ leases (leaseDb seeded).
Proof. apply rowOf_in. vm_compute. reflexivity. Qed.

Lemma seeded_apart : groups_apart (leaseDb seeded).
Proof.
  intros r r' Hr Hr'. assert (leases (leaseDb seeded) = [rowOf (leaseDb seeded)]) as E by (vm_compute; reflexivity). rewrite E in Hr, Hr'.
  apply list_elem_of_singleton in Hr as ->. by apply list_elem_of_singleton in Hr' as ->.
Qed.
Lemma seeded_past : past (l_sandboxGroupId (rowOf (leaseDb seeded))) (l_lastMeterTick (rowOf (leaseDb seeded))) (billing seeded).
Proof. intros u e t Hu. assert (usage (billing seeded) = []) as E by (vm_compute; reflexivity). rewrite E in Hu. by apply elem_of_nil in Hu. Qed.
Lemma warm_meter_bounds_witness :
  exists r' t1, r' ∈ leases (leaseDb (after 13500 1 seeded)) /\ l_lastMeterAt r' = Some t1 /\ 1000 * 11 <= t1 - 2000 <= 1000 * 11 + 999 * 1.
Proof.
  destruct (warm_meter_bounds exampleRender exampleIso exampleIso exampleParse seeded _ (after 13500 1 seeded) (rowOf (leaseDb seeded)) 2000
    (run_step _ _ _ _ seeded _ _ [] _ (me_tick _ _ _ _ seeded 13500 false (exampleTick 1) (rowOf (leaseDb seeded)) ltac:(vm_compute; reflexivity)) (run_done _ _ _ _ _))
    seeded_ok seeded_apart seeded_row ltac:(vm_compute; reflexivity) seeded_past) as (r' & t1 & Hr & _ & Ht & _ & Hb).
  exists r', t1. split; [exact Hr|]. split; [exact Ht|]. vm_compute in Hb |- *. exact Hb.
Defined.

Definition broke : ForceDrainInput := {|
  fd_workspaceId := "w"; fd_balanceMicros := 0; fd_enforceBalance := true; fd_maxWarmSecondsPerWorkspace := 0; fd_capWindowStart := 0; fd_idleGraceMs := 5 |}.
Lemma force_drain_spares_turns_witness :
  rowOf (leaseDb seeded) ∈ leases (leaseDb (forceDrainOverLimitViewerOnlyBoxes 20 broke seeded).2).
Proof.
  pose proof (force_drain_spares_turns 20 broke seeded seeded_ok) as H.
  destruct (forceDrainOverLimitViewerOnlyBoxes 20 broke seeded) as [[reason drained] d'] eqn:E.
  destruct H as (_ & _ & _ & _ & H). assert (Hne : reason <> None) by (vm_compute in E; injection E as <- _ _; discriminate).
  specialize (H Hne _ seeded_row). destruct (_ && _) eqn:Hv in H; [vm_compute in Hv; discriminate|exact (proj1 H)].
Defined.

Definition exampleView : AcquireLeaseInput := {|
  a_accountId := "a"; a_workspaceId := "w"; a_sandboxGroupId := "g"; a_kind := viewer; a_holderId := "v1"; a_subjectId := None;
  a_backend := "modal"; a_os := None; a_image := Some "img"%string; a_rigVersionId := None; a_leaseTtlMs := 90; a_warmingLeaseTtlMs := None;
  a_expectedEpoch := None |}.
(** The box of a viewer goes, when its turn is over. *)
Example viewer_box_drained :
  let x := leaseDb seeded in
  let x := SandboxLease.after x (acquireLease 3000 exampleView x) in
  let x := (releaseLeaseHolder 4000 "w" "g" turn "t1" 5 x).2 in
  let '(reason, drained, d) := forceDrainOverLimitViewerOnlyBoxes 5000 broke (seeded <| leaseDb := x |>) in
  drained = ["g"%string] /\ List.map l_liveness (leases (leaseDb d)) = [draining] /\ holders (leaseDb d) = [].
Proof. vm_compute. done. Qed.
End Metering.
