(* ===== verification/HistorySanitizer.v ===== *)
(** * Replayed history ([packages/runtime/src/history-sanitizer.ts])

    The filter every stored conversation passes before it is sent to the model,
    and the rewrites of single items and request bodies.  The Responses API
    refuses a whole request when a tool result has no call before it or a call
    no result after it. *)
From S2P Require Import Prelude Json.
#[local] Open Scope Z_scope.
#[local] Open Scope opengeni_scope.

Module HistorySanitizer.

(** ** Items *)

(** Own keys only: no item type is named like a method of [Object.prototype]. *)
Definition TOOL_CALL_RESULT_TYPE_BY_CALL_TYPE : list (jstr * jstr) := [
  (js "function_call", js "function_call_result");
  (js "computer_call", js "computer_call_result");
  (js "shell_call", js "shell_call_output");
  (js "apply_patch_call", js "apply_patch_call_output");
  (js "tool_search_call", js "tool_search_output")].
Definition RESULT_TYPES : list jstr := List.map snd TOOL_CALL_RESULT_TYPE_BY_CALL_TYPE.

Definition itemType (item : json) : option jstr := asString (prop (js "type") item).

(** [typeof v === "string" && v.length > 0] *)
Definition nonEmpty (v : option json) : option jstr :=
  match asString v with Some (_ :: _) => asString v | _ => None end.

Definition callIdOf (item : json) : option jstr :=
  match nonEmpty (prop (js "callId") item), nonEmpty (prop (js "call_id") item) with
  | Some id, _ => Some id
  | None, Some id => Some id
  | None, None =>
      match prop (js "providerData") item with
      | Some provider =>
          match nonEmpty (prop (js "call_id") provider) with
          | Some id => Some id
          | None => nonEmpty (prop (js "callId") provider)
          end
      | None => None
      end
  end.

(** What an item is to the pairing: a call or a result, under the result type
    and the call id. *)
Definition key : Type := jstr * jstr.
Inductive role := Call (k : key) | Result (k : key) | Other.

Definition roleOf (item : json) : role :=
  match itemType item, callIdOf item with
  | Some type, Some callId =>
      match assoc type TOOL_CALL_RESULT_TYPE_BY_CALL_TYPE with
      | Some resultType => Call (resultType, callId)
      | None => if bool_decide (type ∈ RESULT_TYPES) then Result (type, callId) else Other
      end
  | _, _ => Other
  end.
Definition isReasoning (item : json) : bool := bool_decide (itemType item = Some (js "reasoning")).

(** ** The filter

    [dropped] is kept as one flag per item. *)

(** The first scan: open calls, and rule 1. *)
Fixpoint settle (items : list json) (open : gset key) : list bool * gset key :=
  match items with
  | [] => ([], open)
  | item :: items =>
      match roleOf item with
      | Call k => let (flags, open) := settle items ({[k]} ∪ open) in (false :: flags, open)
      | Result k =>
          if bool_decide (k ∈ open)
          then let (flags, open) := settle items (open ∖ {[k]}) in (false :: flags, open)
          else let (flags, open) := settle items open in (true :: flags, open)
      | Other => let (flags, open) := settle items open in (false :: flags, open)
      end
  end.

(** Rule 2: from the end, the last call of every key still open. *)
Fixpoint dangling (items : list json) (still : gset key) : list bool * gset key :=
  match items with
  | [] => ([], still)
  | item :: items =>
      let (flags, still) := dangling items still in
      match roleOf item with
      | Call k => if bool_decide (k ∈ still) then (true :: flags, still ∖ {[k]}) else (false :: flags, still)
      | _ => (false :: flags, still)
      end
  end.

(** Rule 3: a reasoning item goes with the first item after its run.  The flags
    of other items do not change meanwhile. *)
Fixpoint nextDropped (items : list json) (dropped : list bool) : bool :=
  match items, dropped with
  | item :: items, d :: dropped => if isReasoning item then nextDropped items dropped else d
  | _, _ => false
  end.
Fixpoint stranded (items : list json) (dropped : list bool) : list bool :=
  match items, dropped with
  | item :: items, d :: dropped => (d || (isReasoning item && nextDropped items dropped)) :: stranded items dropped
  | _, _ => []
  end.

Fixpoint keep (items : list json) (dropped : list bool) : list json :=
  match items, dropped with
  | item :: items, d :: dropped => if d then keep items dropped else item :: keep items dropped
  | _, _ => []
  end.

Definition droppedFlags (items : list json) : list bool :=
  let (orphans, open) := settle items ∅ in
  let (unsettled, _) := dangling items open in
  zip_with orb orphans unsettled.

Definition sanitizeHistoryItemsForModel (items : list json) : list json :=
  keep items (stranded items (droppedFlags items)).

Definition call (id : string) : json := JObj [(js "type", JStr (js "function_call")); (js "callId", JStr (js id))].
Definition output (id : string) : json := JObj [(js "type", JStr (js "function_call_result")); (js "callId", JStr (js id))].
Definition reasoning : json := JObj [(js "type", JStr (js "reasoning"))].
Definition message : json := JObj [(js "type", JStr (js "message")); (js "role", JStr (js "user"))].

Example drops_orphan : sanitizeHistoryItemsForModel [message; output "a"; call "b"; output "b"] = [message; call "b"; output "b"].
Proof. vm_compute. reflexivity. Qed.
Example drops_dangling : sanitizeHistoryItemsForModel [message; reasoning; reasoning; call "a"; message] = [message; message].
Proof. vm_compute. reflexivity. Qed.

(** ** The scans *)

Lemma settle_length items : forall open, length (settle items open).1 = length items.
Proof.
  induction items as [|x items IH]; intros open; [done|]. cbn. destruct (roleOf x) as [k|k|]; try case_bool_decide;
    match goal with |- context [settle items ?o] => specialize (IH o); destruct (settle items o) end; cbn in *; lia.
Qed.

Lemma dangling_length items still : length (dangling items still).1 = length items.
Proof.
  induction items as [|x items IH]; [done|]. cbn. destruct (dangling items still) as [f s].
  destruct (roleOf x); try case_bool_decide; cbn in *; lia.
Qed.

Lemma settle_app a b : forall open,
  settle (a ++ b) open = ((settle a open).1 ++ (settle b (settle a open).2).1, (settle b (settle a open).2).2).
Proof.
  induction a as [|x a IH]; intros open; cbn [app settle fst snd]; [by destruct (settle b open)|].
  destruct (roleOf x) as [k|k|]; try case_bool_decide; rewrite IH;
    match goal with |- context [settle a ?o] => destruct (settle a o) end; done.
Qed.

Lemma dangling_app a b still :
  dangling (a ++ b) still = ((dangling a (dangling b still).2).1 ++ (dangling b still).1, (dangling a (dangling b still).2).2).
Proof.
  induction a as [|x a IH]; cbn [app dangling fst snd]; [by destruct (dangling b still)|]. rewrite IH.
  destruct (dangling a (dangling b still).2) as [f s]. cbn [fst snd].
  destruct (roleOf x); try case_bool_decide; done.
Qed.

(** What is open after a scan: an earlier call with no result since. *)
Lemma settle_open items : forall open k, k ∈ (settle items open).2 ->
  (k ∈ open /\ Forall (fun x => roleOf x <> Result k) items) \/
  exists a c b, items = a ++ c :: b /\ roleOf c = Call k /\ Forall (fun x => roleOf x <> Result k) b.
Proof.
  induction items as [|x items IH]; intros open k Hk; [left; split; [done|constructor]|]. cbn in Hk.
  assert (Hlater : forall o, k ∈ (settle items o).2 -> (k ∈ o -> k ∈ open \/ roleOf x = Call k) -> roleOf x <> Result k \/ k ∉ o ->
    (k ∈ open /\ Forall (fun x => roleOf x <> Result k) (x :: items)) \/
    exists a c b, x :: items = a ++ c :: b /\ roleOf c = Call k /\ Forall (fun x => roleOf x <> Result k) b).
  { intros o Ho Hin Hx. destruct (IH o k Ho) as [[Ho' Hall]|(a & c & b & -> & Hc & Hb)].
    - destruct (Hin Ho') as [?|?]; [left; split; [done|constructor; [by destruct Hx|done]]|right; by exists [], x, items].
    - right. by exists (x :: a), c, b. }
  destruct (roleOf x) as [k'|k'|] eqn:E; [|case_bool_decide as Hk'|];
    match type of Hk with context [settle items ?o] => specialize (Hlater o); destruct (settle items o) as [f o'] end; cbn in *;
    (apply Hlater; [done| |]).
  - intros [->%elem_of_singleton|?]%elem_of_union; [by right|by left].
  - by left.
  - intros [? _]%elem_of_difference. by left.
  - destruct (decide (k = k')) as [->|Hne]; [right|left; congruence]. intros [_ H]%elem_of_difference. by apply H, elem_of_singleton.
  - by left.
  - destruct (decide (k = k')) as [->|Hne]; [by right|left; congruence].
  - by left.
  - by left.
Qed.

(** A call stays open until a result. *)
Lemma settle_stays items : forall open k, k ∈ open -> Forall (fun x => roleOf x <> Result k) items -> k ∈ (settle items open).2.
Proof.
  induction items as [|x items IH]; intros open k Hk Hall; [done|]. apply Forall_cons in Hall as [Hx Hall]. cbn.
  destruct (roleOf x) as [k'|k'|] eqn:E; [|case_bool_decide|];
    match goal with |- context [settle items ?o] => specialize (IH o k); destruct (settle items o) as [f o'] end; cbn in *; apply IH; try done.
  - set_solver.
  - apply elem_of_difference. split; [done|]. intros ->%elem_of_singleton. by apply Hx.
Qed.

(** What is left of the open keys after the backward scan. *)
Lemma dangling_left items still k :
  k ∈ (dangling items still).2 <-> k ∈ still /\ Forall (fun x => roleOf x <> Call k) items.
Proof.
  induction items as [|x items IH]; cbn; [split; [by intros ?; split|by intros []]|].
  rewrite Forall_cons. destruct (dangling items still) as [f s]. cbn in IH. destruct (roleOf x) as [k'|k'|] eqn:E; cbn.
  - case_bool_decide as Hin; cbn; rewrite ?elem_of_difference, ?elem_of_singleton, IH.
    + split; [intros [[? ?] ?]; split_and!; [done|congruence|done]|intros (? & ? & ?); split; [done|congruence]].
    + split; [intros [? Ha]; split_and!; [done| |done]|tauto]. intros [= ->]. apply Hin, IH. done.
  - rewrite IH. split; [intros [? ?]; by split_and!|tauto].
  - rewrite IH. split; [intros [? ?]; by split_and!|tauto].
Qed.

(** ** The flags, item by item *)

Definition orphan (a : list json) (x : json) : bool :=
  match roleOf x with Result k => negb (bool_decide (k ∈ (settle a ∅).2)) | _ => false end.
Definition unsettled (a : list json) (x : json) (b : list json) : bool :=
  match roleOf x with Call k => bool_decide (k ∈ (dangling b (settle (a ++ x :: b) ∅).2).2) | _ => false end.

Lemma settle_flag a x b open :
  exists fb, (settle (a ++ x :: b) open).1 =
    (settle a open).1 ++ match roleOf x with Result k => negb (bool_decide (k ∈ (settle a open).2)) | _ => false end :: fb.
Proof.
  rewrite settle_app. cbn [fst settle]. destruct (roleOf x) as [k|k|]; [|case_bool_decide|];
    match goal with |- context [settle b ?o] => destruct (settle b o) as [fb ?] end; by exists fb.
Qed.

Lemma dangling_flag a x b still :
  exists fa, length fa = length a /\ exists fb, (dangling (a ++ x :: b) still).1 =
    fa ++ match roleOf x with Call k => bool_decide (k ∈ (dangling b still).2) | _ => false end :: fb.
Proof.
  rewrite dangling_app. cbn [fst]. exists (dangling a (dangling (x :: b) still).2).1. split; [apply dangling_length|]. cbn [dangling].
  destruct (dangling b still) as [fb s]. cbn [fst snd]. exists fb.
  destruct (roleOf x); try case_bool_decide; done.
Qed.

Lemma droppedFlags_at a x b : droppedFlags (a ++ x :: b) !! length a = Some (orphan a x || unsettled a x b).
Proof.
  unfold droppedFlags, orphan, unsettled. pose proof (settle_flag a x b ∅) as [fb Hs]. pose proof (settle_length a ∅) as Hl.
  destruct (settle (a ++ x :: b) ∅) as [f1 o1] eqn:E. cbn [fst snd] in *.
  destruct (dangling_flag a x b o1) as (fa & Hla & fb' & Hd). destruct (dangling (a ++ x :: b) o1) as [f2 s2]. cbn [fst snd] in *.
  subst f1 f2. rewrite lookup_zip_with, !list_lookup_middle by done. done.
Qed.

Lemma stranded_at items dropped i x d :
  items !! i = Some x -> dropped !! i = Some d ->
  stranded items dropped !! i = Some (d || (isReasoning x && nextDropped (drop (S i) items) (drop (S i) dropped))).
Proof.
  revert dropped i; induction items as [|y items IH]; intros [|d' dropped] [|i]; cbn; try done.
  - intros [= ->] [= ->]. by rewrite !drop_0.
  - apply IH.
Qed.

Lemma role_not_reasoning x : roleOf x <> Other -> isReasoning x = false.
Proof.
  unfold roleOf, isReasoning. intros H. apply bool_decide_eq_false. intros E. apply H. rewrite E.
  destruct (callIdOf x); [|done]. by vm_compute.
Qed.

(** An item that takes part in the pairing goes by these two rules alone. *)
Definition mask (items : list json) : list bool := stranded items (droppedFlags items).

Lemma mask_at a x b : roleOf x <> Other -> mask (a ++ x :: b) !! length a = Some (orphan a x || unsettled a x b).
Proof.
  intros H. unfold mask. erewrite stranded_at; [|by rewrite list_lookup_middle|apply droppedFlags_at].
  rewrite role_not_reasoning by done. by rewrite orb_false_r.
Qed.

(** Splits of what is kept. *)
Lemma keep_split items m p x q : keep items m = p ++ x :: q ->
  exists a b, items = a ++ x :: b /\ m !! length a = Some false /\ p = keep a (take (length a) m) /\ q = keep b (drop (S (length a)) m).
Proof.
  revert m p; induction items as [|y items IH]; intros [|d m] p H; cbn in H; try by destruct p.
  destruct d; [|destruct p as [|z p]].
  - destruct (IH m p H) as (a & b & -> & Hm & -> & ->). by exists (y :: a), b.
  - injection H as -> <-. exists [], items. done.
  - injection H as -> H. destruct (IH m p H) as (a & b & -> & Hm & -> & ->). by exists (z :: a), b.
Qed.

Lemma elem_of_keep items m x a b : items = a ++ x :: b -> m !! length a = Some false -> x ∈ keep items m.
Proof.
  intros ->. revert m; induction a as [|y a IH]; intros [|d m] H; cbn in *; try done.
  - injection H as ->. left.
  - destruct d; [|right]; by apply IH.
Qed.

Lemma keep_elem items m x : x ∈ keep items m -> exists a b, items = a ++ x :: b /\ m !! length a = Some false.
Proof. intros (p & q & H)%list_elem_of_split. destruct (keep_split _ _ _ _ _ H) as (a & b & ? & ? & _). by exists a, b. Qed.

(** ** What the API accepts *)

Definition callKey (x : json) : option key := match roleOf x with Call k => Some k | _ => None end.
Definition resultKey (x : json) : option key := match roleOf x with Result k => Some k | _ => None end.

Lemma callKey_Some x k : callKey x = Some k <-> roleOf x = Call k.
Proof. unfold callKey. destruct (roleOf x); naive_solver. Qed.
Lemma resultKey_Some x k : resultKey x = Some k <-> roleOf x = Result k.
Proof. unfold resultKey. destruct (roleOf x); naive_solver. Qed.

(** Every result has its call before it; every call has its result after it. *)
Definition answered (items : list json) : Prop :=
  forall p r q k, items = p ++ r :: q -> roleOf r = Result k -> exists c, c ∈ p /\ roleOf c = Call k.
Definition settled (items : list json) : Prop :=
  forall p c q k, items = p ++ c :: q -> roleOf c = Call k -> exists r, r ∈ q /\ roleOf r = Result k.

Record valid (items : list json) : Prop := {
  valid_calls : NoDup (omap callKey items);
  valid_results : NoDup (omap resultKey items);
  valid_answered : answered items;
  valid_settled : settled items
}.

Lemma distinct_split (f : json -> option key) p x q k :
  NoDup (omap f (p ++ x :: q)) -> f x = Some k -> Forall (fun y => f y <> Some k) (p ++ q).
Proof.
  rewrite omap_app. intros H Hx. cbn in H. rewrite Hx in H. apply NoDup_app in H as (_ & Hp & [Hq _]%NoDup_cons).
  apply Forall_forall. intros y [Hy|Hy]%elem_of_app Hf.
  - apply (Hp k); [|left]. apply list_elem_of_omap. by exists y.
  - apply Hq, list_elem_of_omap. by exists y.
Qed.

Lemma distinct_keys (f : json -> option key) items :
  (forall p x q k y, items = p ++ x :: q -> f x = Some k -> y ∈ q -> f y <> Some k) -> NoDup (omap f items).
Proof.
  induction items as [|x items IH]; intros H; [constructor|].
  assert (IH' : NoDup (omap f items)) by (apply IH; intros p z q k y -> Hz Hy; by apply (H (x :: p) z q k y)).
  cbn. destruct (f x) as [k|] eqn:E; [|done]. apply NoDup_cons. split; [|done].
  intros (y & Hy & Hf)%list_elem_of_omap. by apply (H [] x items k y).
Qed.

(** The open keys at the end of a history, seen from a result or a call in it. *)
Lemma open_after_result a r b k : roleOf r = Result k -> k ∈ (settle a ∅).2 -> k ∈ (settle (a ++ r :: b) ∅).2 ->
  exists c, c ∈ b /\ roleOf c = Call k.
Proof.
  intros Hr Ha H. rewrite settle_app in H. cbn [snd settle] in H. rewrite Hr, bool_decide_eq_true_2 in H by done.
  assert (Hb : k ∈ (settle b ((settle a ∅).2 ∖ {[k]})).2) by (destruct (settle b _); exact H).
  apply settle_open in Hb as [[[_ Hn]%elem_of_difference _]|(b1 & c & b2 & -> & Hc & _)]; [by destruct Hn; apply elem_of_singleton|].
  exists c. split; [apply elem_of_app; right; left|done].
Qed.

Lemma open_call a k : k ∈ (settle a ∅).2 ->
  exists a1 c a2, a = a1 ++ c :: a2 /\ roleOf c = Call k /\ Forall (fun x => roleOf x <> Result k) a2.
Proof. intros [[H _]|H]%settle_open; [by apply not_elem_of_empty in H|done]. Qed.

Lemma settle_after_call a c b k : roleOf c = Call k ->
  (settle (a ++ c :: b) ∅).2 = (settle b ({[k]} ∪ (settle a ∅).2)).2.
Proof. intros Hc. rewrite settle_app. cbn [snd settle]. rewrite Hc. by destruct (settle b _). Qed.

(** The first result after an open call is kept. *)
Lemma first_result a c b k : roleOf c = Call k -> k ∉ (settle (a ++ c :: b) ∅).2 ->
  exists b1 r b2, b = b1 ++ r :: b2 /\ roleOf r = Result k /\ k ∈ (settle (a ++ c :: b1) ∅).2.
Proof.
  intros Hc. rewrite (settle_after_call _ _ _ _ Hc). set (o := {[k]} ∪ _). intros Hn.
  assert (Hk : k ∈ o) by set_solver. assert (Hex : Exists (fun x => resultKey x = Some k) b).
  { apply dec_stable. intros Hno. apply Hn, settle_stays; [done|]. apply Forall_forall. intros x Hx E.
    apply Hno, Exists_exists. exists x. split; [done|by apply resultKey_Some]. }
  assert (Hfirst : exists b1 r b2, b = b1 ++ r :: b2 /\ roleOf r = Result k /\ Forall (fun x => roleOf x <> Result k) b1).
  { clear -Hex. induction b as [|x b IH]; [by apply Exists_nil in Hex|].
    destruct (decide (resultKey x = Some k)) as [E|E]; [exists [], x, b; apply resultKey_Some in E; by split_and!|].
    apply Exists_cons in Hex as [?|Hex]; [done|]. destruct (IH Hex) as (b1 & r & b2 & -> & Hr & Hall).
    exists (x :: b1), r, b2. split_and!; [done|done|]. constructor; [|done]. intros ?%resultKey_Some. done. }
  destruct Hfirst as (b1 & r & b2 & -> & Hr & Hall). exists b1, r, b2. split_and!; [done|done|].
  rewrite (settle_after_call _ _ _ _ Hc). by apply settle_stays.
Qed.

(** What the kept items say of the scans. *)
Lemma kept_result a r b k : roleOf r = Result k -> mask (a ++ r :: b) !! length a = Some false <-> k ∈ (settle a ∅).2.
Proof.
  intros Hr. rewrite mask_at by congruence. unfold orphan, unsettled. rewrite Hr, orb_false_r.
  case_bool_decide; naive_solver.
Qed.

Lemma kept_call a c b k : roleOf c = Call k ->
  mask (a ++ c :: b) !! length a = Some false <->
  ~ (k ∈ (settle (a ++ c :: b) ∅).2 /\ Forall (fun x => roleOf x <> Call k) b).
Proof.
  intros Hc. rewrite mask_at by congruence. unfold orphan, unsettled. rewrite Hc, <- dangling_left. cbn [orb].
  case_bool_decide; naive_solver.
Qed.

(** The kept part of a split history. *)
Lemma keep_before a m x : x ∈ keep a (take (length a) m) <->
  exists a1 a2, a = a1 ++ x :: a2 /\ m !! length a1 = Some false.
Proof.
  split.
  - intros (a1 & a2 & -> & H)%keep_elem. exists a1, a2. split; [done|].
    rewrite lookup_take in H. rewrite length_app in H. cbn in H. by rewrite decide_True in H by lia.
  - intros (a1 & a2 & -> & H). eapply elem_of_keep; [done|]. rewrite lookup_take, length_app. cbn. by rewrite decide_True by lia.
Qed.

Lemma keep_after a b m y x : x ∈ keep b (drop (S (length a)) m) <->
  exists b1 b2, b = b1 ++ x :: b2 /\ m !! length (a ++ y :: b1) = Some false.
Proof.
  assert (Hl : forall b1 : list json, m !! length (a ++ y :: b1) = drop (S (length a)) m !! length b1).
  { intros b1. rewrite lookup_drop, length_app. cbn. f_equal. lia. }
  split.
  - intros (b1 & b2 & -> & H)%keep_elem. exists b1, b2. by rewrite Hl.
  - intros (b1 & b2 & -> & H). rewrite Hl in H. by eapply elem_of_keep.
Qed.

(** Rule 1. *)
Lemma sanitized_answered items : answered (sanitizeHistoryItemsForModel items).
Proof.
  intros p r q k (a & b & -> & Hm & -> & _)%keep_split Hr. fold (mask (a ++ r :: b)) in *.
  apply (kept_result _ _ _ _ Hr) in Hm. destruct (open_call _ _ Hm) as (a1 & c & a2 & -> & Hc & _).
  exists c. split; [|done]. apply keep_before. exists a1, a2. split; [done|].
  rewrite <- (app_assoc a1 (c :: a2)). cbn. apply (kept_call _ _ _ _ Hc). intros [Ho Hall].
  change (c :: a2 ++ r :: b) with ((c :: a2) ++ r :: b) in Ho. rewrite app_assoc in Ho.
  destruct (open_after_result _ _ _ _ Hr Hm Ho) as (c' & Hin & Hc').
  apply Forall_app in Hall as [_ Hall]. apply Forall_cons in Hall as [_ Hall]. rewrite Forall_forall in Hall. by apply (Hall c').
Qed.

(** Rule 2, when no two calls share their key. *)
Lemma sanitized_settled items : NoDup (omap callKey items) -> settled (sanitizeHistoryItemsForModel items).
Proof.
  intros Hnd p c q k (a & b & -> & Hm & _ & ->)%keep_split Hc. fold (mask (a ++ c :: b)) in *.
  apply (kept_call _ _ _ _ Hc) in Hm.
  assert (Hb : Forall (fun x => roleOf x <> Call k) b).
  { apply callKey_Some in Hc as Hk. eapply distinct_split in Hnd; [|exact Hk]. apply Forall_app in Hnd as [_ Hb].
    eapply Forall_impl; [exact Hb|]. intros x Hx ?%callKey_Some. done. }
  destruct (first_result a c b k Hc) as (b1 & r & b2 & -> & Hr & Ho); [tauto|].
  exists r. split; [|done]. apply (keep_after a _ _ c). exists b1, b2. split; [done|].
  change (c :: b1 ++ r :: b2) with ((c :: b1) ++ r :: b2). rewrite (app_assoc a). by apply (kept_result _ _ _ _ Hr).
Qed.

Lemma keep_omap (f : json -> option key) items m : NoDup (omap f items) -> NoDup (omap f (keep items m)).
Proof.
  intros H. apply distinct_keys. intros p x q k y (a & b & -> & _ & _ & ->)%keep_split Hx Hy Hf.
  apply (keep_after a _ _ x) in Hy as (b1 & b2 & -> & _). eapply distinct_split in H; [|exact Hx].
  rewrite Forall_forall in H. apply (H y); [|done]. apply elem_of_app. right. apply elem_of_app. right. left.
Qed.

Lemma sanitized_results items : NoDup (omap callKey items) -> NoDup (omap resultKey (sanitizeHistoryItemsForModel items)).
Proof.
  intros Hnd. apply distinct_keys. intros p x q k y (a & b & -> & Hm & _ & ->)%keep_split Hx Hy Hf.
  apply resultKey_Some in Hx, Hf. fold (mask (a ++ x :: b)) in *. apply (kept_result _ _ _ _ Hx) in Hm.
  apply (keep_after a _ _ x) in Hy as (b1 & b2 & -> & Hm2).
  change (x :: b1 ++ y :: b2) with ((x :: b1) ++ y :: b2) in Hm2. rewrite (app_assoc a) in Hm2. apply (kept_result _ _ _ _ Hf) in Hm2.
  destruct (open_after_result _ _ _ _ Hx Hm Hm2) as (c2 & Hin2 & Hc2).
  destruct (open_call _ _ Hm) as (a1 & c1 & a2 & -> & Hc1 & _). apply callKey_Some in Hc1, Hc2.
  rewrite <- app_assoc in Hnd. cbn in Hnd. eapply distinct_split in Hnd; [|exact Hc1]. rewrite Forall_forall in Hnd. apply (Hnd c2); [|done].
  rewrite !elem_of_app. right. right. right. apply elem_of_app. by left.
Qed.

(** ** Rule 3: reasoning items keep their follower *)

Fixpoint follower (items : list json) : option json :=
  match items with
  | [] => None
  | x :: items => if isReasoning x then follower items else Some x
  end.

Lemma stranded_drop n items d : drop n (stranded items d) = stranded (drop n items) (drop n d).
Proof.
  revert items d; induction n as [|n IH]; intros items d; [done|].
  destruct items as [|x items], d as [|b d]; try done; cbn; [by destruct (drop n items)|apply IH].
Qed.

Lemma follower_keep items d : length d = length items -> nextDropped items d = false ->
  follower (keep items (stranded items d)) = follower items.
Proof.
  revert d; induction items as [|x items IH]; intros [|b d]; try done. cbn. intros [= Hl] Hn.
  destruct (isReasoning x) eqn:E.
  - rewrite Hn. cbn. destruct b; cbn; [by apply IH|]. rewrite E. by apply IH.
  - subst b. cbn. by rewrite E.
Qed.

Lemma droppedFlags_length items : length (droppedFlags items) = length items.
Proof.
  unfold droppedFlags. pose proof (settle_length items ∅) as H1. destruct (settle items ∅) as [f o].
  pose proof (dangling_length items o) as H2. destruct (dangling items o) as [f2 o2]. cbn in *.
  rewrite length_zip_with. lia.
Qed.

Lemma sanitized_follower items p r q :
  sanitizeHistoryItemsForModel items = p ++ r :: q -> isReasoning r = true ->
  exists a b, items = a ++ r :: b /\ follower q = follower b.
Proof.
  intros (a & b & -> & Hm & _ & ->)%keep_split Hr. exists a, b. split; [done|].
  erewrite stranded_at in Hm; [|by rewrite list_lookup_middle|apply droppedFlags_at].
  rewrite Hr in Hm. injection Hm as Hm. breflect. cbn [andb] in *.
  assert (Hb : drop (S (length a)) (a ++ r :: b) = b).
  { change (r :: b) with ([r] ++ b). rewrite app_assoc. apply drop_app_length'. rewrite length_app. cbn. lia. }
  rewrite stranded_drop, Hb in *. apply follower_keep; [|done].
  rewrite length_drop, droppedFlags_length, length_app. cbn. lia.
Qed.

(** ** Valid histories pass *)

Lemma keep_none items : forall m, length m = length items -> Forall (fun d => d = false) m -> keep items m = items.
Proof.
  induction items as [|x items IH]; intros [|d m]; try done. cbn. intros [= Hl] [-> Hm]%Forall_cons. f_equal. by apply IH.
Qed.

Lemma stranded_none items : forall d, length d = length items -> Forall (fun d => d = false) d -> stranded items d = d.
Proof.
  induction items as [|x items IH]; intros [|b d]; try done. cbn. intros [= Hl] [-> Hd]%Forall_cons.
  rewrite IH by done. cbn. f_equal. apply andb_false_iff. right. clear -Hd. revert d Hd.
  induction items as [|y items IH]; intros [|b d]; try done. cbn. intros [-> Hd]%Forall_cons. by destruct (isReasoning y); [apply IH|].
Qed.

Lemma valid_flags items : valid items -> Forall (fun d => d = false) (droppedFlags items).
Proof.
  intros [Hc Hr Ha Hs]. apply Forall_lookup. intros i d Hi.
  assert (Hlt : (i < length items)%nat) by (rewrite <- droppedFlags_length; by eapply lookup_lt_Some).
  destruct (lookup_lt_is_Some_2 items i Hlt) as [x Hx]. apply take_drop_middle in Hx as Hsplit.
  set (a := take i items) in *. set (b := drop (S i) items) in *.
  assert (Hla : length a = i) by (unfold a; rewrite length_take; lia).
  rewrite <- Hsplit, <- Hla, droppedFlags_at in Hi. injection Hi as <-. apply orb_false_iff. unfold orphan, unsettled.
  destruct (roleOf x) as [k|k|] eqn:E; split; try done.
  - rewrite Hsplit. apply bool_decide_eq_false. intros [Ho _]%dangling_left.
    destruct (open_call _ _ Ho) as (a1 & c & a2 & -> & Hck & Hno). destruct (Hs a1 c a2 k eq_refl Hck) as (r & Hin & Hrk).
    rewrite Forall_forall in Hno. by apply (Hno r).
  - apply negb_false_iff, bool_decide_eq_true. destruct (Ha a x b k) as (c & Hin & Hck); [done|done|].
    apply list_elem_of_split in Hin as (a1 & a2 & Ea). rewrite Ea, (settle_after_call _ _ _ _ Hck). apply settle_stays; [set_solver|].
    apply Forall_forall. intros y Hy Hyk. apply resultKey_Some in Hyk, E. rewrite <- Hsplit in Hr.
    eapply distinct_split in Hr; [|exact E]. rewrite Forall_forall in Hr. apply (Hr y); [|done].
    apply elem_of_app. left. rewrite Ea, elem_of_app, elem_of_cons. auto.
Qed.

(** The session-bricking orphan is always removed: whatever the stored
    history, every tool result sent has its call before it, and every reasoning
    item sent is still followed by the item it was followed by. *)
Theorem sanitize_no_orphans items :
  answered (sanitizeHistoryItemsForModel items) /\
  forall p r q, sanitizeHistoryItemsForModel items = p ++ r :: q -> isReasoning r = true ->
    exists a b, items = a ++ r :: b /\ follower q = follower b.
Proof. split; [apply sanitized_answered|apply sanitized_follower]. Qed.

(** (C24) As long as no two calls share type and id, what is sent is valid: calls
    and results pair up, one to one and in order; and a history that is valid
    already is sent unchanged, so the filter is idempotent. *)
Theorem sanitize_valid items : NoDup (omap callKey items) ->
  valid (sanitizeHistoryItemsForModel items) /\
  (valid items -> sanitizeHistoryItemsForModel items = items) /\
  sanitizeHistoryItemsForModel (sanitizeHistoryItemsForModel items) = sanitizeHistoryItemsForModel items.
Proof.
  intros Hnd.
  assert (Hv : valid (sanitizeHistoryItemsForModel items)).
  { split; [by apply keep_omap|by apply sanitized_results|apply sanitized_answered|by apply sanitized_settled]. }
  assert (Hid : forall l, valid l -> sanitizeHistoryItemsForModel l = l).
  { intros l Hl. unfold sanitizeHistoryItemsForModel. pose proof (valid_flags l Hl) as Hf. pose proof (droppedFlags_length l) as Hlen.
    rewrite stranded_none by done. by apply keep_none. }
  split_and!; [done|apply Hid|by apply Hid].
Qed.

(** Two unanswered calls of one id: only the last is dropped. *)
Example duplicate_call_survives : sanitizeHistoryItemsForModel [call "a"; call "a"; message] = [call "a"; message].
Proof. vm_compute. reflexivity. Qed.

Lemma sanitize_no_orphans_witness :
  sanitizeHistoryItemsForModel [output "x"; call "a"; output "a"] = [] ++ [call "a"] ++ [output "a"] /\
  exists c, c ∈ [call "a"] /\ roleOf c = Call (js "function_call_result", js "a").
Proof.
  split; [vm_compute; reflexivity|].
  apply (proj1 (sanitize_no_orphans [output "x"; call "a"; output "a"]) [call "a"] (output "a") []); vm_compute; reflexivity.
Defined.

Lemma sanitize_valid_witness :
  valid (sanitizeHistoryItemsForModel [output "x"; call "a"; output "a"; reasoning; call "b"]) /\
  sanitizeHistoryItemsForModel [output "x"; call "a"; output "a"; reasoning; call "b"] = [call "a"; output "a"].
Proof.
  split; [|vm_compute; reflexivity].
  apply (sanitize_valid [output "x"; call "a"; output "a"; reasoning; call "b"]).
  apply (bool_decide_unpack _). vm_compute. reflexivity.
Defined.
End HistorySanitizer.
