(* ===== verification/RequestRewrites.v ===== *)
(** * Rewrites of items, run states and request bodies
      ([packages/runtime/src/history-sanitizer.ts])

    The account-bound parts of reasoning items are removed from single items and
    from serialized run states, tool searches of a run state are made
    server-side, and computer calls of a request body are brought to the one
    shape the provider takes.  A rewrite reports whether it changed anything;
    when it did not, the original text is sent. *)
From S2P Require Import Prelude Json JsonParse Sse Schema EventLog EventStream HistorySanitizer.
#[local] Open Scope Z_scope.
#[local] Open Scope opengeni_scope.

Module RequestRewrites.
Import HistorySanitizer.

(** ** Objects *)

(** ["k" in record] and [delete record.k]. *)
Definition has (k : string) (j : json) : bool := match prop (js k) j with Some _ => true | None => false end.
Definition delete (k : string) (j : json) : json :=
  match j with JObj fs => JObj (List.filter (fun kv => negb (bool_decide (kv.1 = js k))) fs) | _ => j end.
Definition setField (k : string) (v : json) (j : json) : json :=
  match j with JObj fs => JObj (set_field (js k) v fs) | _ => j end.

(** A field rewritten in place, and whether the rewrite changed it. *)
Definition inField (k : string) (f : json -> json * bool) (j : json) : json * bool :=
  match prop (js k) j with
  | Some v => let (v, changed) := f v in (if changed : bool then setField k v j else j, changed)
  | None => (j, false)
  end.
Definition inArray (f : json -> json * bool) (j : json) : json * bool :=
  match j with JArr l => (JArr (List.map (fun x => (f x).1) l), existsb (fun x => (f x).2) l) | _ => (j, false) end.
Definition andThen (f g : json -> json * bool) (j : json) : json * bool :=
  let (j, a) := f j in let (j, b) := g j in (j, a || b).

(** ** Reasoning items *)

Definition providerHasBlob (item : json) : bool :=
  match prop (js "providerData") item with
  | Some provider => has "encryptedContent" provider || has "encrypted_content" provider
  | None => false
  end.

Definition withoutBlob (provider : json) : json := delete "encrypted_content" (delete "encryptedContent" provider).

Definition stripReasoningEncryptedContent (item : json) : json :=
  if negb (bool_decide (itemType item = Some (js "reasoning")) || bool_decide (itemType item = Some (js "compaction"))) then item
  else
    let item := if providerHasBlob item
                then match prop (js "providerData") item with Some p => setField "providerData" (withoutBlob p) item | None => item end
                else item in
    if has "encrypted_content" item then delete "encrypted_content" item else item.

(** The identity of a reasoning item of a run state. *)
Definition scrubReasoning (item : json) : json * bool :=
  if negb (bool_decide (prop (js "type") item = Some (JStr (js "reasoning")))) then (item, false)
  else
    andThen (fun j => if has "id" j then (delete "id" j, true) else (j, false))
      (andThen (inField "providerData"
                  (andThen (fun p => if has "encryptedContent" p then (delete "encryptedContent" p, true) else (p, false))
                           (fun p => if has "encrypted_content" p then (delete "encrypted_content" p, true) else (p, false))))
               (fun j => if has "encrypted_content" j then (delete "encrypted_content" j, true) else (j, false))) item.

Definition neutralizeToolSearch (item : json) : json * bool :=
  if negb (bool_decide (prop (js "type") item = Some (JStr (js "tool_search_call")))
           || bool_decide (prop (js "type") item = Some (JStr (js "tool_search_output")))) then (item, false)
  else if bool_decide (prop (js "execution") item = Some (JStr (js "server"))) then (item, false)
  else (setField "execution" (JStr (js "server")) item, true).

(** ** Run states

    The places of a run state that hold items: [originalInput] when an array,
    the [rawItem]s of [generatedItems], the outputs of [modelResponses] and of
    [lastModelResponse]. *)
Definition inResponse (f : json -> json * bool) : json -> json * bool := inField "output" (inArray f).
Definition overItems (f : json -> json * bool) : json -> json * bool :=
  andThen (inField "originalInput" (inArray f))
    (andThen (inField "generatedItems" (inArray (inField "rawItem" f)))
      (andThen (inField "modelResponses" (inArray (inResponse f)))
               (inField "lastModelResponse" (inResponse f)))).

Definition rewriteSerialized (f : json -> json * bool) (serialized : text) : text :=
  match JSON_parse serialized with
  | None => serialized
  | Some root =>
      if negb (isObject (Some root)) then serialized
      else let (root, changed) := overItems f root in
           if changed : bool then JSON_stringify root else serialized
  end.
Definition stripReasoningIdentityFromSerializedRunState : text -> text := rewriteSerialized scrubReasoning.
Definition neutralizeToolSearchItemsInSerializedRunState : text -> text := rewriteSerialized neutralizeToolSearch.

(** ** Computer calls *)

Definition nonEmptyArray (v : option json) : option json :=
  match v with Some (JArr (_ :: _)) => v | _ => None end.
(** Neither [undefined] nor [null]. *)
Definition present (v : option json) : option json := match v with Some JNull => None | _ => v end.

Definition normalizeComputerCallActions (items : list json) : list json :=
  List.map (fun item =>
    if bool_decide (itemType item = Some (js "computer_call"))
       && match present (prop (js "action") item), nonEmptyArray (prop (js "actions") item) with Some _, Some _ => true | _, _ => false end
    then delete "action" item else item) items.

Definition actionsOnly (item : json) : json * bool :=
  if negb (bool_decide (prop (js "type") item = Some (JStr (js "computer_call")))) then (item, false)
  else
    let existingActions := nonEmptyArray (prop (js "actions") item) in
    let actions := match existingActions with
                   | Some a => Some a
                   | None => (fun a => JArr [a]) <$> present (prop (js "action") item)
                   end in
    match actions with
    | None => (item, false)
    | Some actions =>
        if match existingActions with Some _ => negb (has "action" item) | None => false end then (item, false)
        else (setField "actions" actions (delete "action" item), true)
    end.
Definition rewriteComputerCallsToActionsOnly : json -> json * bool := inField "input" (inArray actionsOnly).

Section card.
(** The generated error card ([screenshot-error-card.ts]). *)
Context (SCREENSHOT_FAILURE_CARD_IMAGE_URL : jstr).

Definition fillImage (item : json) : json * bool :=
  if negb (bool_decide (prop (js "type") item = Some (JStr (js "computer_call_output")))) then (item, false)
  else
    inField "output" (fun output =>
      if negb (isObject (Some output)) then (output, false)
      else match nonEmpty (prop (js "image_url") output) with
           | Some _ => (output, false)
           | None => (setField "image_url" (JStr SCREENSHOT_FAILURE_CARD_IMAGE_URL) output, true)
           end) item.
Definition rewriteEmptyComputerCallOutputImageUrls : json -> json * bool := inField "input" (inArray fillImage).

(** [haystack.includes(needle)] *)
Fixpoint prefixOf (needle haystack : jstr) : bool :=
  match needle, haystack with
  | [], _ => true
  | x :: needle, y :: haystack => (x =? y) && prefixOf needle haystack
  | _, _ => false
  end.
Fixpoint includes (needle haystack : jstr) : bool :=
  prefixOf needle haystack || match haystack with [] => false | _ :: haystack => includes needle haystack end.

(** The body the wrapped [fetch] sends for a string body. *)
Definition computerCallNormalizingFetch (body : text) : text :=
  if includes ([34] ++ js "computer_call") body then
    match JSON_parse body with
    | None => body
    | Some parsed =>
        let (parsed, changed1) := rewriteComputerCallsToActionsOnly parsed in
        let (parsed, changed2) := rewriteEmptyComputerCallOutputImageUrls parsed in
        if changed1 || changed2 then JSON_stringify parsed else body
    end
  else body.
End card.

(** ** Fields after a rewrite *)

(** Decides the equality of literal field names. *)
Ltac field_names :=
  repeat match goal with
  | |- context [bool_decide (js ?a = js ?b)] =>
      let v := eval vm_compute in (bool_decide (js a = js b)) in change (bool_decide (js a = js b)) with v; cbv iota
  end.

(** A rewrite that reports no change changes nothing. *)
Definition honest (f : json -> json * bool) : Prop := forall j, (f j).2 = false -> (f j).1 = j.

Definition isRecord (j : json) : bool := match j with JObj _ => true | _ => false end.

Lemma prop_setField k k' v j : isRecord j = true ->
  prop k (setField k' v j) = if bool_decide (k = js k') then Some v else prop k j.
Proof. destruct j; try done. intros _. apply assoc_set_field. Qed.

Lemma prop_delete k k' j : prop k (delete k' j) = if bool_decide (k = js k') then None else prop k j.
Proof.
  destruct j as [| | | | |fs]; try (by case_bool_decide). cbn. induction fs as [|[i v] fs IH]; cbn; [by case_bool_decide|].
  destruct (bool_decide (i = js k')) eqn:E; cbn; rewrite IH; repeat case_bool_decide; breflect; congruence.
Qed.

Lemma prop_record k j v : prop k j = Some v -> isRecord j = true.
Proof. by destruct j. Qed.

Lemma prop_inField k k' f j : honest f ->
  prop (js k) (inField k' f j).1 = if bool_decide (js k = js k') then fst ∘ f <$> prop (js k) j else prop (js k) j.
Proof.
  intros Hf. unfold inField. destruct (prop (js k') j) as [v|] eqn:E.
  - pose proof (Hf v) as Hv. destruct (f v) as [v' []] eqn:Ef; cbn in *.
    + rewrite prop_setField by (by eapply prop_record). case_bool_decide as Hk; [|done]. rewrite Hk, E. cbn. by rewrite Ef.
    + case_bool_decide as Hk; [|done]. rewrite Hk, E. cbn. rewrite Ef. cbn. by rewrite Hv.
  - cbn. case_bool_decide as Hk; [|done]. by rewrite Hk, E.
Qed.

Lemma changed_inField k f j : (inField k f j).2 = match prop (js k) j with Some v => (f v).2 | None => false end.
Proof. unfold inField. destruct (prop _ j) as [v|]; [|done]. by destruct (f v) as [v' []]. Qed.

Lemma honest_inField k f : honest f -> honest (inField k f).
Proof.
  intros Hf j. unfold inField. destruct (prop _ j) as [v|]; [|done]. by destruct (f v) as [v' []].
Qed.

Lemma honest_inArray f : honest f -> honest (inArray f).
Proof.
  intros Hf [| | | |l|]; try done. cbn. intros H. f_equal. rewrite <- (List.map_id l) at 2. apply map_ext_in.
  intros x Hx. apply Hf. apply not_true_iff_false. intros E. apply not_true_iff_false in H. apply H, existsb_exists. by exists x.
Qed.

Lemma honest_andThen f g : honest f -> honest g -> honest (andThen f g).
Proof.
  intros Hf Hg j. unfold andThen. specialize (Hf j). destruct (f j) as [j1 a]. specialize (Hg j1). destruct (g j1) as [j2 b].
  cbn in *. intros [-> ->]%orb_false_iff. rewrite Hg by done. by apply Hf.
Qed.

Lemma andThen_fst f g j : (andThen f g j).1 = (g (f j).1).1.
Proof. unfold andThen. destruct (f j) as [j1 a]. cbn. by destruct (g j1). Qed.
Lemma andThen_snd f g j : (andThen f g j).2 = (f j).2 || (g (f j).1).2.
Proof. unfold andThen. destruct (f j) as [j1 a]. cbn. by destruct (g j1). Qed.

#[local] Hint Resolve honest_inField honest_inArray honest_andThen : core.

(** ** The items of a run state *)

Definition arrayOf (v : option json) : list json := default [] (asArray v).
Definition outputOf (response : json) : list json := arrayOf (prop (js "output") response).
Definition itemsOf (root : json) : list json :=
  arrayOf (prop (js "originalInput") root)
  ++ omap (prop (js "rawItem")) (arrayOf (prop (js "generatedItems") root))
  ++ concat (List.map outputOf (arrayOf (prop (js "modelResponses") root)))
  ++ match prop (js "lastModelResponse") root with Some r => outputOf r | None => [] end.

Lemma arrayOf_inArray f v : arrayOf (fst ∘ inArray f <$> v) = List.map (fst ∘ f) (arrayOf v).
Proof. by destruct v as [[]|]. Qed.

Lemma outputOf_inResponse f r : honest f -> outputOf (inResponse f r).1 = List.map (fst ∘ f) (outputOf r).
Proof.
  intros Hf. unfold outputOf, inResponse. rewrite prop_inField by auto. rewrite bool_decide_eq_true_2 by done. apply arrayOf_inArray.
Qed.

Lemma rawItems_inArray f l : honest f ->
  omap (prop (js "rawItem")) (List.map (fst ∘ inField "rawItem" f) l) = List.map (fst ∘ f) (omap (prop (js "rawItem")) l).
Proof.
  intros Hf. induction l as [|x l IH]; [done|]. cbn -[inField prop js]. rewrite prop_inField by done. rewrite bool_decide_eq_true_2 by done.
  destruct (prop (js "rawItem") x) as [v|]; cbn; [|exact IH]. f_equal. exact IH.
Qed.

Lemma outputs_inArray f l : honest f ->
  concat (List.map outputOf (List.map (fst ∘ inResponse f) l)) = List.map (fst ∘ f) (concat (List.map outputOf l)).
Proof.
  intros Hf. rewrite concat_map, !List.map_map. f_equal. apply map_ext. intros r. by apply outputOf_inResponse.
Qed.

(** A rewrite goes over exactly the items, one by one. *)
Lemma overItems_items f root : honest f -> itemsOf (overItems f root).1 = List.map (fst ∘ f) (itemsOf root).
Proof.
  intros Hf. unfold overItems. rewrite !andThen_fst. unfold itemsOf. rewrite !prop_inField by (unfold inResponse; auto 10).
  field_names. rewrite !List.map_app. f_equal; [apply arrayOf_inArray|]. f_equal; [|f_equal].
  - rewrite arrayOf_inArray. by apply rawItems_inArray.
  - rewrite arrayOf_inArray. by apply outputs_inArray.
  - destruct (prop (js "lastModelResponse") root) as [r|]; [|done]. by apply outputOf_inResponse.
Qed.

Lemma existsb_concat {A} (p : A -> bool) ls : existsb p (concat ls) = existsb (existsb p) ls.
Proof. induction ls as [|l ls IH]; [done|]. cbn. by rewrite existsb_app, IH. Qed.

Lemma existsb_map {A B} (p : B -> bool) (g : A -> B) l : existsb p (List.map g l) = existsb (fun x => p (g x)) l.
Proof. induction l as [|x l IH]; [done|]. cbn. by rewrite IH. Qed.

Lemma existsb_ext' {A} (p q : A -> bool) l : (forall x, p x = q x) -> existsb p l = existsb q l.
Proof. intros H. induction l as [|x l IH]; [done|]. cbn. by rewrite H, IH. Qed.

Lemma inArray_changed f v : match v with Some j => (inArray f j).2 | None => false end = existsb (fun x => (f x).2) (arrayOf v).
Proof. by destruct v as [[]|]. Qed.

(** It reports a change when one of the items changed. *)
Lemma overItems_changed f root : honest f -> (overItems f root).2 = existsb (fun x => (f x).2) (itemsOf root).
Proof.
  intros Hf. unfold overItems. rewrite !andThen_snd, !changed_inField.
  repeat (rewrite !prop_inField by (unfold inResponse; auto 10); field_names).
  unfold itemsOf. rewrite !existsb_app, existsb_concat, existsb_map, !inArray_changed. f_equal. f_equal; [|f_equal].
  - induction (arrayOf _) as [|x l IH]; [done|]. cbn -[prop js]. rewrite changed_inField.
    destruct (prop (js "rawItem") x); cbn -[prop js]; [|exact IH]. f_equal. exact IH.
  - apply existsb_ext'. intros r. unfold inResponse. rewrite changed_inField. apply inArray_changed.
  - destruct (prop _ root) as [r|]; [|done]. unfold inResponse. rewrite changed_inField. apply inArray_changed.
Qed.

(** ** Scrubbed reasoning items *)

Definition identityFree (x : json) : Prop :=
  prop (js "type") x = Some (JStr (js "reasoning")) ->
  has "id" x = false /\ has "encrypted_content" x = false /\
  forall p, prop (js "providerData") x = Some p -> has "encryptedContent" p = false /\ has "encrypted_content" p = false.

Definition dropField (k : string) (j : json) : json * bool := if has k j then (delete k j, true) else (j, false).

Lemma honest_dropField k : honest (dropField k).
Proof. intros j. unfold dropField. by destruct (has k j). Qed.
#[local] Hint Resolve honest_dropField : core.

Lemma prop_dropField k k' j : prop (js k) (dropField k' j).1 = if bool_decide (js k = js k') then None else prop (js k) j.
Proof.
  unfold dropField. destruct (has k' j) eqn:E; cbn; [apply prop_delete|]. unfold has in E.
  case_bool_decide as Hk; [|done]. rewrite Hk. by destruct (prop (js k') j).
Qed.

Definition scrubFields : json -> json * bool :=
  andThen (dropField "id") (andThen (inField "providerData" (andThen (dropField "encryptedContent") (dropField "encrypted_content")))
    (dropField "encrypted_content")).

Lemma scrub_unfold x : scrubReasoning x =
  if bool_decide (prop (js "type") x = Some (JStr (js "reasoning"))) then scrubFields x else (x, false).
Proof. unfold scrubReasoning. by destruct (bool_decide _). Qed.

Lemma honest_scrub : honest scrubReasoning.
Proof.
  intros x. rewrite scrub_unfold. case_bool_decide; [|done].
  assert (Hf : honest scrubFields) by (unfold scrubFields; auto 10). apply Hf.
Qed.

Lemma prop_scrubFields k x : prop (js k) (scrubFields x).1 =
  if bool_decide (js k = js "encrypted_content") then None
  else if bool_decide (js k = js "id") then None
  else if bool_decide (js k = js "providerData")
  then fst ∘ andThen (dropField "encryptedContent") (dropField "encrypted_content") <$> prop (js k) x
  else prop (js k) x.
Proof.
  unfold scrubFields. rewrite !andThen_fst, prop_dropField, prop_inField by auto. rewrite prop_dropField.
  repeat (case_bool_decide; try congruence). rewrite H0 in H1. by vm_compute in H1.
Qed.

Lemma scrub_type x : prop (js "type") (scrubReasoning x).1 = prop (js "type") x.
Proof. rewrite scrub_unfold. case_bool_decide; [|done]. rewrite prop_scrubFields. by field_names. Qed.

Lemma scrub_free x : identityFree (scrubReasoning x).1.
Proof.
  intros Ht. rewrite scrub_type in Ht. rewrite scrub_unfold, bool_decide_eq_true_2 by done. unfold has.
  rewrite !prop_scrubFields. field_names. split_and!; [done|done|].
  intros p. destruct (prop (js "providerData") x) as [p0|]; [|done]. intros [= <-].
  cbv beta delta [compose]. rewrite andThen_fst, !prop_dropField. by field_names.
Qed.

Lemma free_unchanged x : identityFree x -> (scrubReasoning x).2 = false.
Proof.
  intros H. rewrite scrub_unfold. case_bool_decide as Ht; [|done]. destruct (H Ht) as (H1 & H2 & H3).
  assert (Hd : forall k j, has k j = false -> dropField k j = (j, false)) by (intros k j; unfold dropField; by intros ->).
  unfold scrubFields. rewrite andThen_snd, andThen_snd, changed_inField. rewrite (Hd _ _ H1). cbn [fst snd orb].
  assert (Hp : match prop (js "providerData") x with Some v => (andThen (dropField "encryptedContent") (dropField "encrypted_content") v).2 | None => false end = false).
  { destruct (prop (js "providerData") x) as [p|] eqn:E; [|done]. destruct (H3 p eq_refl) as [H4 H5]. unfold andThen. by rewrite (Hd _ _ H4), (Hd _ _ H5). }
  rewrite Hp, honest_inField by (auto; by rewrite changed_inField). by rewrite (Hd _ _ H2).
Qed.

(** The parts of an item a scrub may touch. *)
Definition identityFields : list jstr := [js "id"; js "encrypted_content"; js "providerData"].

Lemma scrub_elsewhere x k : js k ∉ identityFields -> prop (js k) (scrubReasoning x).1 = prop (js k) x.
Proof.
  intros H. rewrite scrub_unfold. case_bool_decide; [|done]. rewrite prop_scrubFields.
  unfold identityFields in H. rewrite !not_elem_of_cons in H. destruct H as (? & ? & ? & _). by rewrite !bool_decide_eq_false_2.
Qed.

(** A rewrite that makes values of values. *)
Definition keepsShape (f : json -> json * bool) : Prop := forall j, wellFormed j -> wellFormed (f j).1.

Lemma keeps_setField k v j : units (js k) -> wellFormed v -> wellFormed j -> wellFormed (setField k v j).
Proof. destruct j; cbn [setField]; auto using wellFormed_set_field. Qed.

Lemma keeps_delete k j : wellFormed j -> wellFormed (delete k j).
Proof.
  destruct j as [| | | | |fs]; try done. cbn [delete]. rewrite !wellFormed_obj. intros (Hnd & Hu & Hw).
  split_and!; [by apply NoDup_map_filter| |]; apply Forall_forall.
  - intros k' (kv & -> & [Hin _]%elem_filter)%list_elem_of_fmap. rewrite Forall_forall in Hu. by apply Hu, list_elem_of_fmap_2.
  - intros kv [Hin _]%elem_filter. rewrite Forall_forall in Hw. by apply Hw.
Qed.

Lemma keeps_andThen f g : keepsShape f -> keepsShape g -> keepsShape (andThen f g).
Proof. intros Hf Hg j Hj. rewrite andThen_fst. apply Hg, Hf, Hj. Qed.

Lemma keeps_inField k f : keepsShape f -> keepsShape (inField k f).
Proof.
  intros Hf j Hj. unfold inField. destruct (prop (js k) j) as [v|] eqn:E; [|done]. specialize (Hf v (wellFormed_prop _ _ _ Hj E)).
  destruct (f v) as [v' []]; [|done]. apply keeps_setField; [apply units_js|done|done].
Qed.

Lemma keeps_inArray f : keepsShape f -> keepsShape (inArray f).
Proof.
  intros Hf [| | | |l|] Hj; try done. apply wellFormed_arr in Hj. apply wellFormed_arr, Forall_fmap.
  eapply Forall_impl; [exact Hj|]. intros x Hx. by apply Hf.
Qed.

Lemma keeps_overItems f : keepsShape f -> keepsShape (overItems f).
Proof. intros Hf. unfold overItems, inResponse. repeat (apply keeps_andThen || apply keeps_inField || apply keeps_inArray || exact Hf). Qed.

Lemma keeps_dropField k : keepsShape (dropField k).
Proof. intros j Hj. unfold dropField. destruct (has k j); [by apply keeps_delete|done]. Qed.

Lemma keeps_scrub : keepsShape scrubReasoning.
Proof.
  intros j Hj. rewrite scrub_unfold. case_bool_decide as E; [|done]. clear E. revert j Hj. unfold scrubFields. change (keepsShape scrubFields).
  repeat (apply keeps_andThen || apply keeps_inField || apply keeps_dropField).
Qed.

(** A run state resumed under another account carries no reasoning identity:
    every reasoning item of the text that is sent has lost its id and its
    encrypted content, no item is added, lost or moved, no other field of any
    item changes, and a second pass returns the text as it is. *)
Theorem runstate_scrubbed serialized root :
  units serialized -> JSON_parse serialized = Some root -> isObject (Some root) = true ->
  exists root', JSON_parse (stripReasoningIdentityFromSerializedRunState serialized) = Some root' /\
    Forall identityFree (itemsOf root') /\
    Forall2 (fun x y => forall k, js k ∉ identityFields \/ prop (js "type") x <> Some (JStr (js "reasoning")) -> prop (js k) y = prop (js k) x)
      (itemsOf root) (itemsOf root') /\
    stripReasoningIdentityFromSerializedRunState (stripReasoningIdentityFromSerializedRunState serialized) =
      stripReasoningIdentityFromSerializedRunState serialized.
Proof.
  intros Hu Hp Hobj. pose proof (overItems_items scrubReasoning root honest_scrub) as Hitems.
  pose proof (overItems_changed scrubReasoning root honest_scrub) as Hchanged.
  assert (Hres : exists root', JSON_parse (stripReasoningIdentityFromSerializedRunState serialized) = Some root' /\
    itemsOf root' = List.map (fst ∘ scrubReasoning) (itemsOf root)).
  { unfold stripReasoningIdentityFromSerializedRunState, rewriteSerialized. rewrite Hp, Hobj. cbn [negb].
    pose proof (keeps_overItems _ keeps_scrub root (parse_wellFormed _ _ Hu Hp)) as Hwf.
    destruct (overItems scrubReasoning root) as [root' []]; cbn [fst snd] in *; [exists root'; by rewrite parse_stringify|].
    exists root. split; [done|]. rewrite <- (List.map_id (itemsOf root)) at 1. apply map_ext_in. intros x Hx. symmetry. apply honest_scrub.
    apply not_true_iff_false. intros E. symmetry in Hchanged. apply not_true_iff_false in Hchanged. apply Hchanged, existsb_exists. by exists x. }
  destruct Hres as (root' & Hp' & Hi). exists root'.
  assert (Hfree : Forall identityFree (itemsOf root')).
  { rewrite Hi. apply Forall_fmap, Forall_forall. intros x _. apply scrub_free. }
  split_and!; [done|done| |].
  - rewrite Hi. clear. induction (itemsOf root) as [|x l IH]; cbn; constructor; [|exact IH].
    intros k [Hk|Hk]; [by apply scrub_elsewhere|]. cbn. rewrite scrub_unfold. by rewrite bool_decide_eq_false_2.
  - set (s := stripReasoningIdentityFromSerializedRunState serialized) in *. unfold stripReasoningIdentityFromSerializedRunState, rewriteSerialized.
    rewrite Hp'. destruct (isObject (Some root')); [|done]. cbn [negb].
    assert (Hno : (overItems scrubReasoning root').2 = false).
    { rewrite overItems_changed by apply honest_scrub. apply not_true_iff_false. intros (x & Hx & E)%existsb_exists.
      apply list_elem_of_In in Hx. rewrite Forall_forall in Hfree. rewrite free_unchanged in E; [done|by apply Hfree]. }
    by destruct (overItems scrubReasoning root') as [r []].
Qed.

(** ** Computer calls *)

Definition isComputerCall (x : json) : bool := bool_decide (prop (js "type") x = Some (JStr (js "computer_call"))).

(** The actions a call carries: the batch when it has one, or the single action. *)
Definition carries (x : json) (l : list json) : Prop :=
  (prop (js "actions") x = Some (JArr l) /\ l <> []) \/
  ((forall l', prop (js "actions") x = Some (JArr l') -> l' = []) /\ exists a, prop (js "action") x = Some a /\ a <> JNull /\ l = [a]).
(** A call brought to the batched shape: the same call, the actions it carried in
    [actions] alone; one that carries none is left as it is. *)
Definition batched (x y : json) : Prop :=
  (forall k, k <> js "action" -> k <> js "actions" -> prop k y = prop k x) /\
  (forall l, carries x l -> prop (js "actions") y = Some (JArr l) /\ prop (js "action") y = None) /\
  ((forall l, ~ carries x l) -> y = x).

Lemma actionsOnly_honest : honest actionsOnly.
Proof.
  intros x. unfold actionsOnly. destruct (bool_decide _); [|done]. cbn [negb].
  destruct (nonEmptyArray _); [destruct (has "action" x)|destruct (present _)]; done.
Qed.
(** The rewrite, by the actions of the call. *)
Lemma carried_batch x a : nonEmptyArray (prop (js "actions") x) = Some a -> exists l, a = JArr l /\ prop (js "actions") x = Some (JArr l) /\ carries x l /\ forall l', carries x l' -> l' = l.
Proof.
  destruct (prop (js "actions") x) as [[| | | |[|b l]|]|] eqn:E; try discriminate. intros [= <-]. exists (b :: l). split_and!; [done|done|by left|].
  intros l' [[H _]|[H _]]; [congruence|]. by rewrite E in H; specialize (H _ eq_refl).
Qed.
Lemma no_batch x l : nonEmptyArray (prop (js "actions") x) = None -> carries x l <-> exists a, present (prop (js "action") x) = Some a /\ l = [a].
Proof.
  intros Hn. split.
  - intros [[H Hne]|[_ (a & Ha & Hnn & ->)]]; [rewrite H in Hn; by destruct l|]. exists a. split; [|done]. rewrite Ha. by destruct a.
  - intros (a & Ha & ->). right. split; [intros l' H; rewrite H in Hn; by destruct l'|]. exists a. unfold present in Ha. destruct (prop (js "action") x) as [[]|]; simplify_eq; by split_and!.
Qed.
Lemma actionsOnly_batched x : isComputerCall x = true -> batched x (actionsOnly x).1 /\ (actionsOnly (actionsOnly x).1).2 = false.
Proof.
  intros Hc. unfold isComputerCall in Hc. assert (isRecord x = true) as Hr by (breflect; by eapply prop_record).
  assert (forall l, nonEmptyArray (Some (JArr l)) = Some (JArr l) -> (forall l', carries x l' -> l' = l) -> carries x l ->
    let y := setField "actions" (JArr l) (delete "action" x) in batched x y /\ (actionsOnly y).2 = false) as Hset.
  { intros l Hl Hu Hcar y. assert (isRecord (delete "action" x) = true) as Hd by (by destruct x).
    assert (forall k, prop k y = if bool_decide (k = js "actions") then Some (JArr l) else if bool_decide (k = js "action") then None else prop k x) as Hy
      by (intros k; unfold y; by rewrite prop_setField, prop_delete).
    assert (prop (js "actions") y = Some (JArr l)) as H1 by (by rewrite Hy, bool_decide_eq_true_2). assert (prop (js "action") y = None) as H2 by (by rewrite Hy).
    split; [split_and!|].
    - intros k Hk Hk'. by rewrite Hy, !bool_decide_eq_false_2.
    - intros l' ->%Hu. done.
    - intros Hno. by destruct (Hno l).
    - unfold actionsOnly. destruct (negb _); [done|]. unfold has. by rewrite H1, H2, Hl. }
  assert (forall y, actionsOnly x = (y, false) -> y = x -> (forall l, carries x l -> prop (js "actions") x = Some (JArr l) /\ prop (js "action") x = None) ->
    batched x (actionsOnly x).1 /\ (actionsOnly (actionsOnly x).1).2 = false) as Hkeep.
  { intros y E -> Hl. rewrite E. cbn [fst]. rewrite E. split; [split_and!|]; done. }
  destruct (nonEmptyArray (prop (js "actions") x)) as [a|] eqn:Ea.
  - destruct (carried_batch _ _ Ea) as (l & -> & Hp & Hcar & Hu). assert (nonEmptyArray (Some (JArr l)) = Some (JArr l)) as Hl by (by rewrite Hp in Ea).
    destruct (has "action" x) eqn:Eh.
    + assert (actionsOnly x = (setField "actions" (JArr l) (delete "action" x), true)) as E by (unfold actionsOnly; by rewrite Hc, Ea, Eh). rewrite E. exact (Hset l Hl Hu Hcar).
    + apply (Hkeep x); [unfold actionsOnly; by rewrite Hc, Ea, Eh|done|]. intros l' ->%Hu. split; [done|]. unfold has in Eh. by destruct (prop (js "action") x).
  - destruct (present (prop (js "action") x)) as [a|] eqn:Ep.
    + assert (actionsOnly x = (setField "actions" (JArr [a]) (delete "action" x), true)) as E by (unfold actionsOnly; by rewrite Hc, Ea, Ep). rewrite E.
      apply (Hset [a]); [done| |]; [intros l' (a' & Ha & ->)%no_batch; [congruence|done]|apply no_batch; eauto].
    + apply (Hkeep x); [unfold actionsOnly; by rewrite Hc, Ea, Ep|done|]. intros l (a & Ha & _)%no_batch; [congruence|done].
Qed.

(** (C25) The computer calls of a request body: the rewrite leaves every other item,
    and every other field of the body and of the calls, as it was, moves and loses
    none, and leaves each call with exactly the actions it carried (its batch, or
    else its single action) in [actions] alone; a call without any is left as it
    is.  When it reports no change the body is the same, and rewriting again
    reports none. *)
Theorem computer_calls_actions_only body items :
  prop (js "input") body = Some (JArr items) ->
  exists items', prop (js "input") (rewriteComputerCallsToActionsOnly body).1 = Some (JArr items') /\
    (forall k, k <> js "input" -> prop k (rewriteComputerCallsToActionsOnly body).1 = prop k body) /\
    Forall2 (fun x y => if isComputerCall x then batched x y else y = x) items items' /\
    ((rewriteComputerCallsToActionsOnly body).2 = false -> (rewriteComputerCallsToActionsOnly body).1 = body) /\
    (rewriteComputerCallsToActionsOnly (rewriteComputerCallsToActionsOnly body).1).2 = false.
Proof.
  intros Hb. exists (List.map (fun x => (actionsOnly x).1) items).
  assert (Hp : prop (js "input") (rewriteComputerCallsToActionsOnly body).1 = Some (JArr (List.map (fun x => (actionsOnly x).1) items))).
  { unfold rewriteComputerCallsToActionsOnly. rewrite prop_inField by (apply honest_inArray, actionsOnly_honest). field_names. by rewrite Hb. }
  split_and!; [done| | | |].
  - intros k Hk. unfold rewriteComputerCallsToActionsOnly, inField. rewrite Hb. cbn. destruct (existsb _ items); [|done].
    rewrite prop_setField by (by eapply prop_record). by rewrite bool_decide_eq_false_2.
  - clear. induction items as [|x l IH]; cbn; constructor; [|done]. destruct (isComputerCall x) eqn:E; [by apply actionsOnly_batched|].
    unfold isComputerCall in E. unfold actionsOnly. by rewrite E.
  - apply honest_inField, honest_inArray, actionsOnly_honest.
  - unfold rewriteComputerCallsToActionsOnly at 1. rewrite changed_inField, Hp. cbn. apply not_true_iff_false.
    intros (y & Hy & E)%existsb_exists. apply in_map_iff in Hy as (x & <- & _). destruct (isComputerCall x) eqn:Ex; [by rewrite (proj2 (actionsOnly_batched x Ex)) in E|].
    assert (actionsOnly x = (x, false)) as Ey by (unfold isComputerCall in Ex; unfold actionsOnly; by rewrite Ex). rewrite Ey in E. cbn [fst] in E. by rewrite Ey in E.
Qed.

(** ** Examples *)

Definition exampleReasoning : json :=
  JObj [(js "type", JStr (js "reasoning")); (js "id", JStr (js "rs"));
        (js "providerData", JObj [(js "encrypted_content", JStr (js "x")); (js "note", JNum 1)])].
Definition exampleRunState : json :=
  JObj [(js "originalInput", JArr [message; exampleReasoning]);
        (js "lastModelResponse", JObj [(js "output", JArr [exampleReasoning])])].

Example scrubbed : (overItems scrubReasoning exampleRunState).1 =
  let clean := JObj [(js "type", JStr (js "reasoning")); (js "providerData", JObj [(js "note", JNum 1)])] in
  JObj [(js "originalInput", JArr [message; clean]); (js "lastModelResponse", JObj [(js "output", JArr [clean])])].
Proof. vm_compute. reflexivity. Qed.

Lemma runstate_scrubbed_witness :
  exists root', JSON_parse (stripReasoningIdentityFromSerializedRunState (JSON_stringify exampleRunState)) = Some root' /\
    Forall identityFree (itemsOf root').
Proof.
  destruct (runstate_scrubbed (JSON_stringify exampleRunState) exampleRunState) as (root' & H1 & H2 & _).
  - apply (bool_decide_unpack _). vm_compute. reflexivity.
  - vm_compute. reflexivity.
  - reflexivity.
  - exists root'. split; [exact H1|exact H2].
Defined.

Definition exampleBody : json :=
  JObj [(js "input", JArr [message; JObj [(js "type", JStr (js "computer_call")); (js "action", JObj [(js "type", JStr (js "screenshot"))])]])].

Lemma computer_calls_actions_only_witness :
  exists items', prop (js "input") (rewriteComputerCallsToActionsOnly exampleBody).1 = Some (JArr items') /\
    prop (js "actions") (List.nth 1 items' JNull) = Some (JArr [JObj [(js "type", JStr (js "screenshot"))]]).
Proof.
  destruct (computer_calls_actions_only exampleBody
    [message; JObj [(js "type", JStr (js "computer_call")); (js "action", JObj [(js "type", JStr (js "screenshot"))])]])
    as (items' & H1 & _ & H2 & _); [vm_compute; reflexivity|].
  exists items'. split; [exact H1|]. inversion_clear H2 as [|? ? ? ? _ H3]. inversion_clear H3 as [|? called ? ? H4 _]. cbn [List.nth].
  assert (isComputerCall (JObj [(js "type", JStr (js "computer_call")); (js "action", JObj [(js "type", JStr (js "screenshot"))])]) = true) as E by (vm_compute; reflexivity).
  rewrite E in H4. destruct H4 as (_ & H4 & _). apply H4. right. split; [intros l; vm_compute; discriminate|]. eexists. split; [vm_compute; reflexivity|]. split; [discriminate|reflexivity].
Defined.
End RequestRewrites.
