(* ===== verification/Coalesce.v ===== *)
(** * Delta coalescing ([packages/events/src/coalesce.ts])

    Pages of a session's log merge runs of text deltas into one event each. *)
From S2P Require Import Prelude Json Schema.
#[local] Open Scope Z_scope.
#[local] Open Scope opengeni_scope.

Module Coalesce.

Definition COALESCIBLE_DELTA_TYPES : list string :=
  ["agent.message.delta"; "agent.reasoning.delta"; "sandbox.command.output.delta"]%string.
Definition isCoalescibleDelta (event : SessionEvent) : bool := bool_decide (ev_type event ∈ COALESCIBLE_DELTA_TYPES).
Definition isSandbox (event : SessionEvent) : bool := String.eqb (ev_type event) "sandbox.command.output.delta".

(** A string field of a payload; [asRecord] makes any other payload an empty object. *)
Definition field (k : string) (payload : json) : option jstr := asString (prop (js k) payload).

Definition member (k : string) (v : option json) : option json := match v with Some j => prop (js k) j | None => None end.

Definition reasoningText (payload : json) : jstr :=
  match field "text" payload with
  | Some text => text
  | None =>
      match member "content" (member "rawItem" (prop (js "item") payload)) with
      | Some (JArr content) => concat (List.map (fun part => default [] (field "text" part)) content)
      | _ => []
      end
  end.

Definition deltaText (event : SessionEvent) : jstr :=
  let payload := ev_payload event in
  if String.eqb (ev_type event) "agent.reasoning.delta" then reasoningText payload
  else if isSandbox event then
    match field "chunk" payload, field "text" payload, field "output" payload with
    | Some t, _, _ => t
    | None, Some t, _ => t
    | None, None, Some t => t
    | None, None, None => []
    end
  else default [] (field "text" payload).

Record DeltaRun := {
  first : SessionEvent;
  lastSequence : Z;
  text : jstr;
  sandboxName : option jstr;
  sandboxStream : option jstr;
  sandboxCommandId : option jstr
}.

Definition sandboxField (k : string) (event : SessionEvent) : option jstr :=
  if isSandbox event then field k (ev_payload event) else None.

Definition sameDeltaRun (first next : SessionEvent) (firstSandboxName nextSandboxName : option jstr) : bool :=
  String.eqb (ev_type first) (ev_type next) && bool_decide (ev_turnId first = ev_turnId next)
  && (negb (isSandbox first) || bool_decide (firstSandboxName = nextSandboxName)).

Definition stringField (k : string) (v : option jstr) : list (jstr * json) :=
  match v with Some s => [(js k, JStr s)] | None => [] end.

Definition withPayload (payload : json) (e : SessionEvent) : SessionEvent :=
  {| ev_id := ev_id e; ev_workspaceId := ev_workspaceId e; ev_sessionId := ev_sessionId e; ev_sequence := ev_sequence e;
     ev_type := ev_type e; ev_payload := payload; ev_occurredAt := ev_occurredAt e; ev_clientEventId := ev_clientEventId e;
     ev_turnId := ev_turnId e |}.

(** The event of a run. *)
Definition runEvent (run : DeltaRun) : SessionEvent :=
  withPayload
    (JObj (if isSandbox (first run)
           then [(js "chunk", JStr (text run)); (js "coalescedUntil", JNum (lastSequence run))]
                ++ stringField "stream" (sandboxStream run) ++ stringField "commandId" (sandboxCommandId run)
                ++ stringField "name" (sandboxName run)
           else [(js "text", JStr (text run)); (js "coalescedUntil", JNum (lastSequence run))]))
    (first run).
Definition flush (run : option DeltaRun) : list SessionEvent :=
  match run with Some run => [runEvent run] | None => [] end.

Definition startRun (event : SessionEvent) : DeltaRun := {|
  first := event; lastSequence := ev_sequence event; text := deltaText event;
  sandboxName := sandboxField "name" event; sandboxStream := sandboxField "stream" event;
  sandboxCommandId := sandboxField "commandId" event |}.
Definition joins (run : DeltaRun) (event : SessionEvent) : bool :=
  sameDeltaRun (first run) event (sandboxName run) (sandboxField "name" event)
  && bool_decide (sandboxStream run = sandboxField "stream" event)
  && bool_decide (sandboxCommandId run = sandboxField "commandId" event).
Definition extendRun (run : DeltaRun) (event : SessionEvent) : DeltaRun := {|
  first := first run; lastSequence := ev_sequence event; text := text run ++ deltaText event;
  sandboxName := sandboxName run; sandboxStream := sandboxStream run; sandboxCommandId := sandboxCommandId run |}.

(** The loop: what it pushes from here on. *)
Fixpoint coalesceFrom (run : option DeltaRun) (events : list SessionEvent) : list SessionEvent :=
  match events with
  | [] => flush run
  | event :: events =>
      if negb (isCoalescibleDelta event) then flush run ++ event :: coalesceFrom None events
      else
        match run with
        | Some r => if joins r event then coalesceFrom (Some (extendRun r event)) events
                    else flush run ++ coalesceFrom (Some (startRun event)) events
        | None => coalesceFrom (Some (startRun event)) events
        end
  end.
Definition coalesceSessionEventDeltas (events : list SessionEvent) : list SessionEvent := coalesceFrom None events.

(** ** What a reader of the text sees

    An event as its atoms: a delta is its characters, each under the identity of
    its run; any other event is itself. *)

Definition runKey (e : SessionEvent) : string * option string * option jstr * option jstr * option jstr :=
  (ev_type e, ev_turnId e, sandboxField "name" e, sandboxField "stream" e, sandboxField "commandId" e).
Definition atomsOf (k : string * option string * option jstr * option jstr * option jstr) (t : jstr) : list (SessionEvent + _ * Z) :=
  List.map (fun c => inr (k, c)) t.
Definition atoms (e : SessionEvent) : list (SessionEvent + _ * Z) :=
  if isCoalescibleDelta e then atomsOf (runKey e) (deltaText e) else [inl e].

(** The last sequence an event of a page stands for: the client's next [after]. *)
Definition until (e : SessionEvent) : Z :=
  if isCoalescibleDelta e then default (ev_sequence e) (asNumber (prop (js "coalescedUntil") (ev_payload e))) else ev_sequence e.

(** The events' spans follow each other from [c] to [c']. *)
Fixpoint tiles (c : Z) (l : list SessionEvent) (c' : Z) : Prop :=
  match l with
  | [] => c' = c
  | e :: l => ev_sequence e = c + 1 /\ tiles (until e) l c'
  end.

(** No two neighbours belong to one run. *)
Fixpoint separated (l : list SessionEvent) : Prop :=
  match l with
  | e :: ((e' :: _) as l') => (isCoalescibleDelta e = true -> isCoalescibleDelta e' = true -> runKey e <> runKey e') /\ separated l'
  | _ => True
  end.

(** The run under construction. *)
Record run_ok (r : DeltaRun) : Prop := {
  run_delta : isCoalescibleDelta (first r) = true;
  run_name : sandboxName r = sandboxField "name" (first r);
  run_stream : sandboxStream r = sandboxField "stream" (first r);
  run_command : sandboxCommandId r = sandboxField "commandId" (first r)
}.

Lemma startRun_ok e : isCoalescibleDelta e = true -> run_ok (startRun e).
Proof. by split. Qed.
Lemma extendRun_ok r e : run_ok r -> run_ok (extendRun r e).
Proof. by intros []. Qed.

Lemma joins_key r e : run_ok r -> joins r e = true <-> runKey (first r) = runKey e.
Proof.
  intros [_ Hn Hs Hc]. unfold joins, sameDeltaRun, runKey. rewrite Hn, Hs, Hc.
  rewrite !andb_true_iff, orb_true_iff, !bool_decide_eq_true, String.eqb_eq. split.
  - intros [[[[Ht ->] Hor] ->] ->]. rewrite Ht. do 3 f_equal. destruct Hor as [Hor|Hor]; [|done].
    apply negb_true_iff in Hor. unfold sandboxField. assert (isSandbox e = isSandbox (first r)) as -> by (unfold isSandbox; by rewrite Ht).
    by rewrite Hor.
  - intros [= -> -> -> -> ->]. split_and!; auto.
Qed.

(** The event of a run reads like the run. *)
Lemma runEvent_reads r : run_ok r ->
  isCoalescibleDelta (runEvent r) = true /\ runKey (runEvent r) = runKey (first r) /\ deltaText (runEvent r) = text r /\
  ev_sequence (runEvent r) = ev_sequence (first r) /\ until (runEvent r) = lastSequence r.
Proof.
  intros [Hd Hn Hs Hc].
  assert (Hun : until (runEvent r) = lastSequence r).
  { unfold until. change (isCoalescibleDelta (runEvent r)) with (isCoalescibleDelta (first r)). rewrite Hd.
    unfold runEvent. by destruct (isSandbox (first r)). }
  split_and!; [exact Hd| | |done|exact Hun].
  - unfold runKey, sandboxField in *. change (isSandbox (runEvent r)) with (isSandbox (first r)).
    change (ev_type (runEvent r)) with (ev_type (first r)). change (ev_turnId (runEvent r)) with (ev_turnId (first r)).
    rewrite <- Hn, <- Hs, <- Hc. destruct (isSandbox (first r)) eqn:E; [|congruence].
    unfold runEvent. rewrite E. unfold field. cbn -[js].
    destruct (sandboxStream r), (sandboxCommandId r), (sandboxName r); vm_compute; reflexivity.
  - unfold deltaText. change (isSandbox (runEvent r)) with (isSandbox (first r)). change (ev_type (runEvent r)) with (ev_type (first r)).
    unfold runEvent. destruct (isSandbox (first r)) eqn:E.
    + apply String.eqb_eq in E. by rewrite E.
    + by destruct (String.eqb (ev_type (first r)) "agent.reasoning.delta").
Qed.

Lemma runEvent_atoms r : run_ok r -> atoms (runEvent r) = atomsOf (runKey (first r)) (text r).
Proof. intros H. unfold atoms. destruct (runEvent_reads r H) as (-> & -> & -> & _). done. Qed.

(** ** The loop *)

Lemma coalesce_atoms events : forall run, match run with Some r => run_ok r | None => True end ->
  concat (List.map atoms (coalesceFrom run events)) =
  match run with Some r => atomsOf (runKey (first r)) (text r) | None => [] end ++ concat (List.map atoms events).
Proof.
  induction events as [|e events IH]; intros run Hrun; cbn [coalesceFrom List.map concat].
  - destruct run as [r|]; [|done]. cbn. by rewrite runEvent_atoms.
  - destruct (isCoalescibleDelta e) eqn:Ed; cbn [negb].
    + destruct run as [r|]; [destruct (joins r e) eqn:Ej|].
      * rewrite IH by (by apply extendRun_ok). cbn [first text extendRun]. apply joins_key in Ej; [|done].
        unfold atoms at 2. rewrite Ed, Ej. unfold atomsOf. by rewrite List.map_app, app_assoc.
      * cbn [flush app List.map concat]. rewrite runEvent_atoms, IH by (auto using startRun_ok). cbn [first text startRun].
        unfold atoms at 2. by rewrite Ed.
      * rewrite IH by (auto using startRun_ok). cbn [first text startRun app]. unfold atoms at 2. by rewrite Ed.
    + rewrite List.map_app, concat_app. cbn [List.map concat]. rewrite IH by done. f_equal.
      destruct run as [r|]; [|done]. cbn. by rewrite runEvent_atoms, app_nil_r.
Qed.

Lemma coalesce_tiles events : forall run c, match run with Some r => run_ok r /\ lastSequence r = c | None => True end ->
  contiguous c (List.map ev_sequence events) ->
  tiles (match run with Some r => ev_sequence (first r) - 1 | None => c end) (coalesceFrom run events) (c + Z.of_nat (length events)).
Proof.
  induction events as [|e events IH]; intros run c Hrun Hc; cbn [coalesceFrom List.map length].
  - destruct run as [r|]; cbn [flush tiles]; [|lia]. destruct Hrun as [Hr <-]. destruct (runEvent_reads r Hr) as (_ & _ & _ & -> & ->). lia.
  - cbn [List.map] in Hc. apply contiguous_cons_inv in Hc as [He Hc].
    replace (c + Z.of_nat (S (length events))) with (c + 1 + Z.of_nat (length events)) by lia.
    assert (Hflush : forall r rest c', run_ok r -> lastSequence r = c -> tiles c rest c' -> tiles (ev_sequence (first r) - 1) (runEvent r :: rest) c').
    { intros r rest c' Hr <- Ht. cbn [tiles]. destruct (runEvent_reads r Hr) as (_ & _ & _ & -> & ->). split; [lia|done]. }
    destruct (isCoalescibleDelta e) eqn:Ed; cbn [negb].
    + assert (Hstart : tiles c (coalesceFrom (Some (startRun e)) events) (c + 1 + Z.of_nat (length events))).
      { specialize (IH (Some (startRun e)) (c + 1)). cbn [first lastSequence startRun] in IH. rewrite He in IH.
        replace (c + 1 - 1) with c in IH by lia. apply IH; [|done]. split; [by apply startRun_ok|done]. }
      destruct run as [r|]; [destruct Hrun as [Hr Hl]; destruct (joins r e)|exact Hstart].
      * specialize (IH (Some (extendRun r e)) (c + 1)). cbn [first lastSequence extendRun] in IH. apply IH; [|done].
        split; [by apply extendRun_ok|done].
      * by apply Hflush.
    + assert (Hrest : tiles c (e :: coalesceFrom None events) (c + 1 + Z.of_nat (length events))).
      { cbn. split; [lia|]. unfold until. rewrite Ed, He. by apply (IH None). }
      destruct run as [r|]; [destruct Hrun; by apply Hflush|exact Hrest].
Qed.

Lemma coalesce_separated events : forall run, match run with Some r => run_ok r | None => True end ->
  separated (coalesceFrom run events) /\
  match run with
  | Some r => exists e l, coalesceFrom run events = e :: l /\ runKey e = runKey (first r)
  | None => True
  end.
Proof.
  induction events as [|e events IH]; intros run Hrun; cbn [coalesceFrom].
  - destruct run as [r|]; [|done]. split; [done|]. eexists _, []. split; [done|]. by apply runEvent_reads.
  - destruct (isCoalescibleDelta e) eqn:Ed; cbn [negb].
    + destruct (IH (Some (startRun e)) (startRun_ok e Ed)) as [Hs (e1 & l1 & E1 & Hk1)].
      destruct run as [r|]; [destruct (joins r e) eqn:Ej|].
      * destruct (IH (Some (extendRun r e))) as [Hs' (e2 & l2 & E2 & Hk2)]; [by apply extendRun_ok|]. split; [done|].
        exists e2, l2. by split.
      * cbn [flush app]. split; [|eexists _, _; split; [done|by apply runEvent_reads]]. rewrite E1 in *. split; [|done].
        intros _ _. destruct (runEvent_reads r Hrun) as (_ & -> & _). rewrite Hk1. cbn [first startRun].
        intros Heq. apply (joins_key r e Hrun) in Heq. congruence.
      * split; [done|]. done.
    + assert (Hrest : separated (e :: coalesceFrom None events)).
      { destruct (IH None I) as [Hs _]. cbn. destruct (coalesceFrom None events); [done|]. split; [congruence|done]. }
      destruct run as [r|]; cbn [flush app]; [|by split].
      split; [|eexists _, _; split; [done|by apply runEvent_reads]]. split; [congruence|exact Hrest].
Qed.

(** Coalescing loses nothing: the characters of every delta, each under its
    turn, stream and command, and all other events come out in the same order;
    on a contiguous page the spans of the results follow each other without gap
    or overlap up to the page's last sequence, so a client may resume after any
    of them; and no two neighbours could still be merged. *)
Theorem coalesce_faithful events :
  concat (List.map atoms (coalesceSessionEventDeltas events)) = concat (List.map atoms events) /\
  (forall c, contiguous c (List.map ev_sequence events) ->
     tiles c (coalesceSessionEventDeltas events) (c + Z.of_nat (length events))) /\
  separated (coalesceSessionEventDeltas events).
Proof.
  split_and!.
  - by apply (coalesce_atoms events None).
  - intros c Hc. by apply (coalesce_tiles events None).
  - by apply (coalesce_separated events None).
Qed.

(** ** Example *)

Definition exampleDelta (n : Z) (type : string) (payload : json) : SessionEvent := {|
  ev_id := "e"; ev_workspaceId := "w"; ev_sessionId := "s"; ev_sequence := n; ev_type := type; ev_payload := payload;
  ev_occurredAt := 0; ev_clientEventId := None; ev_turnId := Some "t"%string |}.
Definition examplePage : list SessionEvent := [
  exampleDelta 4 "agent.message.delta" (JObj [(js "text", JStr (js "Hel"))]);
  exampleDelta 5 "agent.message.delta" (JObj [(js "text", JStr (js "lo"))]);
  exampleDelta 6 "turn.completed" (JObj []);
  exampleDelta 7 "sandbox.command.output.delta" (JObj [(js "chunk", JStr (js "$"))])].

Lemma coalesce_faithful_witness :
  coalesceSessionEventDeltas examplePage = [
    exampleDelta 4 "agent.message.delta" (JObj [(js "text", JStr (js "Hello")); (js "coalescedUntil", JNum 5)]);
    exampleDelta 6 "turn.completed" (JObj []);
    exampleDelta 7 "sandbox.command.output.delta" (JObj [(js "chunk", JStr (js "$")); (js "coalescedUntil", JNum 7)])] /\
  tiles 3 (coalesceSessionEventDeltas examplePage) 7.
Proof.
  split; [vm_compute; reflexivity|].
  exact (proj1 (proj2 (coalesce_faithful examplePage)) 3 eq_refl).
Defined.
End Coalesce.
