(* ===== verification/TimelineItems.v ===== *)
(** * Timeline items ([packages/react/src/timeline/types.ts], the readers of [projection.ts])

    What the client renders: the items [buildTimeline] makes of a session's
    events, and the functions that read an untyped payload. *)
From S2P Require Import Prelude Json JsonParse PayloadSanitizer Schema EventStream RequestRewrites Coalesce.
#[local] Open Scope Z_scope.
#[local] Open Scope opengeni_scope.

Module TimelineItems.
Import Coalesce.

(** ** Items *)

Inductive CallStatus := C_running | C_complete | C_failed | C_cancelled.
#[export] Instance CallStatus_eq_dec : EqDecision CallStatus.
Proof. solve_decision. Defined.
Inductive TurnOutcome := O_complete | O_failed | O_cancelled.
#[export] Instance TurnOutcome_eq_dec : EqDecision TurnOutcome.
Proof. solve_decision. Defined.
Inductive WorkerAction := W_spawn | W_message | W_interrupt.
Inductive InterruptMode := M_stop | M_steer.
Inductive NoticeTone := N_waiting | N_cancelled | N_failed.

Record UserMessageItem := {
  um_id : string; um_text : jstr; um_pending : bool; um_resources : list json; um_tools : list json; um_occurredAt : Z
}.
(** [AgentMessageItem] and [ReasoningItem] have the same fields. *)
Record StreamedItem := {
  sm_id : string; sm_turnId : option string; sm_text : jstr; sm_streaming : bool; sm_occurredAt : Z
}.
Record ToolCallItem := {
  tc_id : string; tc_turnId : option string; tc_callId : option jstr; tc_name : jstr; tc_arguments : json; tc_output : option json;
  tc_raw : option json; tc_status : CallStatus; tc_occurredAt : Z
}.
Record WorkerItem := {
  wk_id : string; wk_turnId : option string; wk_callId : option jstr; wk_action : WorkerAction; wk_prompt : option jstr;
  wk_workerSessionId : option jstr; wk_mode : option InterruptMode; wk_status : CallStatus; wk_occurredAt : Z
}.
Record WorkerCompletion := {
  childSessionId : jstr; childStatus : jstr; goalStatus : option jstr; goalText : option jstr; evidence : option jstr;
  pausedReason : option jstr
}.
Record WorkerCompletionItem := {
  wc_id : string; wc_turnId : option string; wc_occurredAt : Z; wc_child : WorkerCompletion; wc_text : jstr
}.
Record SandboxItem := {
  sb_id : string; sb_turnId : option string; sb_name : jstr; sb_command : option jstr; sb_output : jstr; sb_status : CallStatus;
  sb_occurredAt : Z
}.
Record MemoryItem := {
  mm_id : string; mm_turnId : option string; mm_corrected : bool; mm_memoryKind : jstr; mm_preview : jstr; mm_deduped : bool;
  mm_replacementPreview : option jstr; mm_action : option jstr; mm_memoryId : jstr; mm_replacementMemoryId : option jstr; mm_occurredAt : Z
}.
Record AuthNeededItem := {
  an_id : string; an_turnId : option string; an_providerDomain : jstr; an_connectionId : option jstr; an_reason : option jstr;
  an_scopes : list jstr; an_resource : option jstr; an_toolName : option jstr; an_authorizationUrl : option jstr; an_occurredAt : Z
}.
Record TurnEndItem := {
  te_id : string; te_turnId : option string; te_outcome : TurnOutcome; te_failureText : option jstr; te_occurredAt : Z
}.

Inductive TimelineItem :=
| UserMessage (i : UserMessageItem)
| AgentMessage (i : StreamedItem)
| Reasoning (i : StreamedItem)
| ToolCall (i : ToolCallItem)
| Worker (i : WorkerItem)
| WorkerDone (i : WorkerCompletionItem)
| Sandbox (i : SandboxItem)
| SessionStatusDivider (id : string) (status : SessionStatus) (occurredAt : Z)
| Goal (id action : string) (text : option jstr) (occurredAt : Z)
| Notice (id : string) (tone : NoticeTone) (text : jstr) (occurredAt : Z)
| AuthNeeded (i : AuthNeededItem)
| Memory (i : MemoryItem)
| TurnEnd (i : TurnEndItem).

#[export] Instance etaStreamedItem : Settable StreamedItem := fun r =>
  Build_StreamedItem (sm_id r) (sm_turnId r) (sm_text r) (sm_streaming r) (sm_occurredAt r).
#[export] Instance etaToolCallItem : Settable ToolCallItem := fun r =>
  Build_ToolCallItem (tc_id r) (tc_turnId r) (tc_callId r) (tc_name r) (tc_arguments r) (tc_output r) (tc_raw r) (tc_status r) (tc_occurredAt r).
#[export] Instance etaWorkerItem : Settable WorkerItem := fun r =>
  Build_WorkerItem (wk_id r) (wk_turnId r) (wk_callId r) (wk_action r) (wk_prompt r) (wk_workerSessionId r) (wk_mode r) (wk_status r) (wk_occurredAt r).
#[export] Instance etaSandboxItem : Settable SandboxItem := fun r =>
  Build_SandboxItem (sb_id r) (sb_turnId r) (sb_name r) (sb_command r) (sb_output r) (sb_status r) (sb_occurredAt r).

(** ["turnId" in item], and its value. *)
Definition itemTurn (i : TimelineItem) : option string :=
  match i with
  | AgentMessage m | Reasoning m => sm_turnId m
  | ToolCall c => tc_turnId c
  | Worker w => wk_turnId w
  | WorkerDone w => wc_turnId w
  | Sandbox s => sb_turnId s
  | AuthNeeded a => an_turnId a
  | Memory m => mm_turnId m
  | TurnEnd t => te_turnId t
  | UserMessage _ | SessionStatusDivider _ _ _ | Goal _ _ _ _ | Notice _ _ _ _ => None
  end.
Definition isActivityItem (i : TimelineItem) : bool :=
  match i with Reasoning _ | ToolCall _ | Worker _ | Sandbox _ | Memory _ => true | _ => false end.
Definition itemStatus (i : TimelineItem) : option CallStatus :=
  match i with ToolCall c => Some (tc_status c) | Worker w => Some (wk_status w) | Sandbox s => Some (sb_status s) | _ => None end.
Definition isStreaming (i : TimelineItem) : bool :=
  match i with AgentMessage m | Reasoning m => sm_streaming m | _ => false end.
Definition itemId (i : TimelineItem) : string :=
  match i with
  | UserMessage m => um_id m | AgentMessage m | Reasoning m => sm_id m | ToolCall c => tc_id c | Worker w => wk_id w
  | WorkerDone w => wc_id w | Sandbox s => sb_id s | SessionStatusDivider id _ _ => id | Goal id _ _ _ => id | Notice id _ _ _ => id
  | AuthNeeded a => an_id a | Memory m => mm_id m | TurnEnd t => te_id t
  end.
Definition itemOccurredAt (i : TimelineItem) : Z :=
  match i with
  | UserMessage m => um_occurredAt m | AgentMessage m | Reasoning m => sm_occurredAt m | ToolCall c => tc_occurredAt c
  | Worker w => wk_occurredAt w | WorkerDone w => wc_occurredAt w | Sandbox s => sb_occurredAt s | SessionStatusDivider _ _ t => t
  | Goal _ _ _ t => t | Notice _ _ _ t => t | AuthNeeded a => an_occurredAt a | Memory m => mm_occurredAt m | TurnEnd t => te_occurredAt t
  end.

(** ** Reading payloads *)

(** A string in a condition: the empty one is false. *)
Definition truthy (s : option jstr) : option jstr := match s with Some [] => None | _ => s end.

Definition asBool (v : option json) : bool := match v with Some (JBool b) => b | _ => false end.
Definition isString (v : option json) : bool := match v with Some (JStr _) => true | _ => false end.
Definition kindIs (kind : string) (entry : json) : bool := bool_decide (field "kind" entry = Some (js kind)).

Definition resourceRefs (value : option json) : list json :=
  match value with
  | Some (JArr l) =>
      List.filter (fun entry =>
        if kindIs "repository" entry then isString (prop (js "uri") entry) && isString (prop (js "ref") entry)
        else kindIs "file" entry && isString (prop (js "fileId") entry)) l
  | _ => []
  end.
Definition toolRefs (value : option json) : list json :=
  match value with
  | Some (JArr l) => List.filter (fun entry => kindIs "mcp" entry && isString (prop (js "id") entry)) l
  | _ => []
  end.

Definition isHex (c : Z) : bool := (48 <=? c) && (c <=? 57) || (65 <=? c) && (c <=? 70) || (97 <=? c) && (c <=? 102).
(** [/^[0-9a-f]{8}-[0-9a-f]{4}-[0-9a-f]{4}-[0-9a-f]{4}-[0-9a-f]{12}$/i] *)
Fixpoint hexGroups (groups : list nat) (s : jstr) : bool :=
  match groups with
  | [] => false
  | n :: rest =>
      Nat.eqb (length (take n s)) n && forallb isHex (take n s)
      && match rest, drop n s with
         | [], [] => true
         | _ :: _, c :: s => (c =? 45) && hexGroups rest s
         | _, _ => false
         end
  end.
Definition looksLikeId (value : jstr) : bool := hexGroups [8; 4; 4; 4; 12]%nat value.

Definition workerCompletionPayload (value : option json) : option WorkerCompletion :=
  match value with
  | None => None
  | Some payload =>
      match field "childSessionId" payload, field "status" payload with
      | Some child, Some status =>
          if negb (looksLikeId child) || match trim status with [] => true | _ => false end then None
          else
            let goal k := asString (member k (prop (js "goal") payload)) in
            Some {| childSessionId := child; childStatus := status; goalStatus := goal "status"%string; goalText := goal "text"%string;
                    evidence := goal "evidence"%string;
                    pausedReason := match goal "pausedReason"%string with Some r => Some r | None => goal "rationale"%string end |}
      | _, _ => None
      end
  end.

Definition sessionStatusOf (s : jstr) : option SessionStatus :=
  if bool_decide (s = js "queued") then Some S_queued
  else if bool_decide (s = js "running") then Some S_running
  else if bool_decide (s = js "idle") then Some S_idle
  else if bool_decide (s = js "requires_action") then Some S_requires_action
  else if bool_decide (s = js "failed") then Some S_failed
  else if bool_decide (s = js "cancelled") then Some S_cancelled
  else None.
Definition ATTENTION_STATUSES : list SessionStatus := [S_requires_action; S_failed; S_cancelled].

Definition isErrorOutput (payload : json) : bool :=
  asBool (prop (js "error") payload) || asBool (prop (js "failed") payload)
  || match prop (js "output") payload with Some output => asBool (prop (js "isError") output) | None => false end.

(** ** Failure texts ([packages/react/src/lib/format.ts]) *)

(** [text.toLowerCase().includes(needle)]: no needle ends in [i], the only ASCII
    unit some other lower case begins with. *)
Definition mentions (needle : string) (text : jstr) : bool := RequestRewrites.includes (js needle) (PayloadSanitizer.toLowerCase text).

Definition CREDIT_EXHAUSTION_MESSAGE : jstr :=
  js "Out of OpenGeni credits " ++ [8212] ++ js " this workspace's balance is empty. Add credits to continue; the conversation is preserved.".
Definition saysInsufficientCredits (text : jstr) : bool := mentions "insufficient opengeni credits" text.
Definition isCreditExhaustion (error detail segmentLimit : option jstr) : bool :=
  bool_decide (segmentLimit = Some (js "budget_exhausted"))
  || match error with Some t => saysInsufficientCredits t | None => false end
  || match detail with Some t => saysInsufficientCredits t | None => false end.
Definition isCreditExhaustionPayload (payload : json) : bool :=
  isCreditExhaustion (field "error" payload) (field "detail" payload) (field "segmentLimit" payload).

Definition humanizeFailureReason (reason : jstr) : jstr :=
  if match reason with [] => true | _ => false end then reason
  else if saysInsufficientCredits reason then CREDIT_EXHAUSTION_MESSAGE
  else if mentions "incorrect api key" reason || mentions "invalid api key" reason || mentions "invalid_api_key" reason
          || mentions "platform.openai.com/account/api-keys" reason
          || mentions "401" reason && (mentions "api key" reason || mentions "unauthorized" reason)
  then js "The model provider rejected this deployment's engine credentials. Sending messages won't help until the deployment's engine configuration is fixed."
  else if mentions "insufficient_quota" reason || mentions "exceeded your current quota" reason
  then js "The model provider refused the request: this deployment's provider quota is exhausted."
  else reason.

Definition nonBlank (s : jstr) : bool := match trim s with [] => false | _ => true end.
Fixpoint firstText (keys : list string) (payload : json) : option jstr :=
  match keys with
  | [] => None
  | key :: keys => match field key payload with Some s => if nonBlank s then Some s else firstText keys payload | None => firstText keys payload end
  end.
Definition failureMessage (payload : json) : option jstr := humanizeFailureReason <$> firstText ["error"; "message"]%string payload.

Definition goalTextOf (payload : json) : option jstr :=
  match truthy (field "text" payload), truthy (asString (member "text" (prop (js "goal") payload))), truthy (field "prompt" payload) with
  | Some t, _, _ => Some t
  | None, Some t, _ => Some t
  | None, None, t => t
  end.

Definition memoryItem (id type : string) (turnId : option string) (payload : json) (occurredAt : Z) : option MemoryItem :=
  match truthy (field "memoryId" payload) with
  | None => None
  | Some memoryId => Some {|
      mm_id := id; mm_turnId := turnId; mm_corrected := String.eqb type "memory.corrected";
      mm_memoryKind := default [] (field "kind" payload); mm_preview := default [] (field "preview" payload);
      mm_deduped := asBool (prop (js "deduped") payload); mm_replacementPreview := truthy (field "replacementPreview" payload);
      mm_action := truthy (field "action" payload); mm_memoryId := memoryId;
      mm_replacementMemoryId := truthy (field "replacementMemoryId" payload); mm_occurredAt := occurredAt |}
  end.

Definition AUTH_NEEDED_REASONS : list jstr := List.map js ["missing_connection"; "expired"; "insufficient_scope"; "refresh_failed"]%string.
Definition authNeededReason (value : option json) : option jstr :=
  match asString value with Some s => if bool_decide (s ∈ AUTH_NEEDED_REASONS) then Some s else None | None => None end.
Definition stringList (value : option json) : list jstr :=
  match value with
  | Some (JArr l) => omap (fun entry => match entry with JStr s => if nonBlank s then Some s else None | _ => None end) l
  | _ => []
  end.

(** ** Orchestration calls *)

Section json_text.
Definition tryParseJson (text : jstr) : option json :=
  let trimmed := trim text in
  match trimmed with
  | c :: _ => if (c =? 123) || (c =? 91) || (c =? 34) then JSON_parse trimmed else None
  | [] => None
  end.

(** Tool arguments: a JSON text or the value itself. *)
Definition argumentRecord (args : json) : option json := match args with JStr s => tryParseJson s | _ => Some args end.
Definition workerPrompt (args : json) : option jstr :=
  match argumentRecord args with Some record => firstText ["initialMessage"; "message"; "text"; "prompt"]%string record | None => None end.
Definition workerInterruptMode (args : json) : InterruptMode :=
  if bool_decide (asString (member "mode" (argumentRecord args)) = Some (js "steer")) then M_steer else M_stop.

Definition has (k : string) (record : json) : bool := match prop (js k) record with Some _ => true | None => false end.

(** The first id found, depth first.  [fuel] is seven minus the source's depth. *)
Fixpoint extractSessionRef (fuel : nat) (value : option json) : option jstr :=
  match fuel with
  | O => None
  | S fuel =>
      let among := fix among (l : list (option json)) : option jstr :=
        match l with [] => None | x :: l => match extractSessionRef fuel x with Some id => Some id | None => among l end end in
      match value with
      | None | Some JNull | Some (JBool _) | Some (JNum _) => None
      | Some (JStr s) => extractSessionRef fuel (tryParseJson s)
      | Some (JArr l) => among (List.map Some l)
      | Some (JObj _ as record) =>
          let ownId := match field "sessionId" record with Some id => if looksLikeId id then Some id else None | None => None end in
          let rowId := match field "id" record with
                       | Some id => if looksLikeId id && (has "status" record || has "workspaceId" record || has "initialMessage" record) then Some id else None
                       | None => None
                       end in
          match ownId, rowId with
          | Some id, _ => Some id
          | None, Some id => Some id
          | None, None =>
              match among (List.map (fun k => prop (js k) record) ["structuredContent"; "session"; "result"; "content"]%string) with
              | Some id => Some id
              | None => match field "text" record with Some t => extractSessionRef fuel (tryParseJson t) | None => None end
              end
          end
      end
  end.
Definition sessionRef (value : option json) : option jstr := extractSessionRef 7 value.
End json_text.

(** [toolDisplayName]: the part after the first [__], with runs of [_] and [-] as spaces. *)
Fixpoint afterPrefix (name : jstr) : option jstr :=
  match name with
  | 95 :: 95 :: rest => Some rest
  | _ :: rest => afterPrefix rest
  | [] => None
  end.
Fixpoint spaced (inRun : bool) (name : jstr) : jstr :=
  match name with
  | [] => []
  | c :: rest => if (c =? 95) || (c =? 45) then (if inRun then spaced true rest else 32 :: spaced true rest) else c :: spaced false rest
  end.
Definition toolDisplayName (name : jstr) : jstr := trim (spaced false (default name (afterPrefix name))).

Example tool_label : toolDisplayName (js "mcp-linear-34ed__list_my--issues") = js "list my issues".
Proof. vm_compute. reflexivity. Qed.
End TimelineItems.
