(* ===== verification/Timeline.v ===== *)
(** * The timeline projection ([packages/react/src/timeline/projection.ts])

    [buildTimeline] folds a session's events into the items a client renders:
    a first pass anchors every user message where its turn starts, the second
    one runs through the events and updates the items. *)
From S2P Require Import Prelude Json JsonParse Schema EventStream Coalesce TimelineItems.
From stdpp Require Import gmap.
#[local] Open Scope Z_scope.
#[local] Open Scope opengeni_scope.

Module Timeline.
Import Coalesce TimelineItems.

(** ** Where user messages go *)

Definition turnIdOf (e : SessionEvent) : option jstr := truthy (js <$> ev_turnId e).
Definition startsWith (prefix s : string) : bool := String.prefix prefix s.
Definition isAgentActivityEvent (type : string) : bool := startsWith "agent." type || startsWith "sandbox." type.

(** The maps [prescanTurnAnchors] fills. *)
Record Scan := {
  queuedTurnByTrigger : gmap jstr jstr;
  startSeqByTrigger : gmap jstr Z;
  cancelledTurnIds : gset jstr;
  fallbackSeqByTurn : gmap jstr Z;
  startedTurnIds : gset jstr
}.
#[export] Instance etaScan : Settable Scan := fun s =>
  Build_Scan (queuedTurnByTrigger s) (startSeqByTrigger s) (cancelledTurnIds s) (fallbackSeqByTurn s) (startedTurnIds s).
Definition emptyScan : Scan := {|
  queuedTurnByTrigger := ∅; startSeqByTrigger := ∅; cancelledTurnIds := ∅; fallbackSeqByTurn := ∅; startedTurnIds := ∅ |}.

Definition addTurn (t : option jstr) (s : gset jstr) : gset jstr := match t with Some t => {[t]} ∪ s | None => s end.
Definition drainedTurnIds (payload : json) : list jstr :=
  match prop (js "drainedTurnIds") payload with Some (JArr l) => omap (fun v => asString (Some v)) l | _ => [] end.

Definition scanQueued (e : SessionEvent) (s : Scan) : Scan :=
  let queuedTurnId := match field "turnId" (ev_payload e) with Some t => Some t | None => js <$> ev_turnId e end in
  match truthy (field "triggerEventId" (ev_payload e)), truthy queuedTurnId with
  | Some trigger, Some turn => s <| queuedTurnByTrigger ::= <[trigger := turn]> |>
  | _, _ => s
  end.
(** The [if] on the type of an event. *)
Definition scanType (e : SessionEvent) (s : Scan) : Scan :=
  if String.eqb (ev_type e) "turn.started" then
    let s := match truthy (field "triggerEventId" (ev_payload e)) with
             | Some trigger => s <| startSeqByTrigger ::= <[trigger := ev_sequence e]> |>
             | None => s
             end in
    s <| startedTurnIds ::= addTurn (turnIdOf e) |>
  else if String.eqb (ev_type e) "turn.cancelled" && match turnIdOf e with Some _ => true | None => false end then
    s <| cancelledTurnIds ::= addTurn (turnIdOf e) |>
  else if String.eqb (ev_type e) "turn.queue_drained" then
    s <| cancelledTurnIds ::= fun c => list_to_set (drainedTurnIds (ev_payload e)) ∪ c |>
  else s.
Definition scanFallback (e : SessionEvent) (s : Scan) : Scan :=
  match turnIdOf e with
  | Some t =>
      if String.eqb (ev_type e) "turn.queued" || String.eqb (ev_type e) "turn.cancelled" then s
      else match fallbackSeqByTurn s !! t with
           | Some previous => if ev_sequence e <? previous then s <| fallbackSeqByTurn ::= <[t := ev_sequence e]> |> else s
           | None => s <| fallbackSeqByTurn ::= <[t := ev_sequence e]> |>
           end
  | None => s
  end.
Definition scanEvent (s : Scan) (e : SessionEvent) : Scan :=
  if String.eqb (ev_type e) "turn.queued" then scanQueued e s
  else
    let s := scanFallback e (scanType e s) in
    if isAgentActivityEvent (ev_type e) then s <| startedTurnIds ::= addTurn (turnIdOf e) |> else s.

Record TurnAnchorPrescan := {
  pre_queuedTurnByTrigger : gmap jstr jstr;
  pre_startSeqByTrigger : gmap jstr Z;
  pre_cancelledBeforeStartTriggers : gset jstr;
  pre_startedTurnIds : gset jstr
}.

(** The two loops over the queued turns: a start without an event of its own is
    the first event of the turn, and a turn cancelled with no event is withdrawn. *)
Definition anchors (s : Scan) : TurnAnchorPrescan :=
  let start := startSeqByTrigger s ∪ omap (fun turn => fallbackSeqByTurn s !! turn) (queuedTurnByTrigger s) in {|
  pre_queuedTurnByTrigger := queuedTurnByTrigger s;
  pre_startSeqByTrigger := start;
  pre_cancelledBeforeStartTriggers :=
    dom (filter (fun kv => kv.2 ∈ cancelledTurnIds s /\ start !! kv.1 = None /\ fallbackSeqByTurn s !! kv.2 = None) (queuedTurnByTrigger s));
  pre_startedTurnIds := startedTurnIds s |}.

Definition bySequence (events : list SessionEvent) : list SessionEvent := sort_by ev_sequence events.
Definition prescanTurnAnchors (events : list SessionEvent) : TurnAnchorPrescan :=
  anchors (fold_left scanEvent (bySequence events) emptyScan).

(** An event, and whether it is a pending user message. *)
Abbreviation TimelineEvent := (SessionEvent * bool)%type.
Definition isUserMessage (e : SessionEvent) : bool := String.eqb (ev_type e) "user.message".

Inductive Anchor := AtSequence (sequence : Z) | Withdrawn | Pending.
Definition anchorOf (prescan : TurnAnchorPrescan) (e : SessionEvent) : Anchor :=
  let id := js (ev_id e) in
  match pre_queuedTurnByTrigger prescan !! id with
  | None => AtSequence (ev_sequence e)
  | Some _ =>
      if decide (id ∈ pre_cancelledBeforeStartTriggers prescan) then Withdrawn
      else match pre_startSeqByTrigger prescan !! id with Some startSeq => AtSequence startSeq | None => Pending end
  end.

(** [insertions.get(sequence)], filled in order, and the pending messages. *)
Definition insertionsAt (prescan : TurnAnchorPrescan) (ordered : list SessionEvent) (sequence : Z) : list TimelineEvent :=
  List.map (fun e => (e, false))
    (List.filter (fun e => isUserMessage e && match anchorOf prescan e with AtSequence n => n =? sequence | _ => false end) ordered).
Definition pendingMessages (prescan : TurnAnchorPrescan) (ordered : list SessionEvent) : list TimelineEvent :=
  List.map (fun e => (e, true)) (List.filter (fun e => isUserMessage e && match anchorOf prescan e with Pending => true | _ => false end) ordered).

Definition orderTimelineEvents (events : list SessionEvent) (prescan : TurnAnchorPrescan) : list TimelineEvent :=
  let ordered := bySequence events in
  concat (List.map (fun e => insertionsAt prescan ordered (ev_sequence e) ++ (if isUserMessage e then [] else [(e, false)])) ordered)
  ++ pendingMessages prescan ordered.

(** ** The items

    The list is kept newest first: [push] is [cons], [items[items.length - 1]] is
    the head, and a search from the end is a search from the head. *)

Definition setFirst {A} (p : A -> bool) (f : A -> A) : list A -> list A :=
  fix go l := match l with [] => [] | x :: l => if p x then f x :: l else x :: go l end.

Definition stopStreaming (i : TimelineItem) : TimelineItem :=
  match i with
  | AgentMessage m => AgentMessage (m <| sm_streaming := false |>)
  | Reasoning m => Reasoning (m <| sm_streaming := false |>)
  | _ => i
  end.
Definition closeStreamingTail (items : list TimelineItem) : list TimelineItem :=
  match items with i :: rest => stopStreaming i :: rest | [] => [] end.

Definition setStatus (s : CallStatus) (i : TimelineItem) : TimelineItem :=
  match i with
  | ToolCall c => ToolCall (c <| tc_status := s |>)
  | Worker w => Worker (w <| wk_status := s |>)
  | Sandbox b => Sandbox (b <| sb_status := s |>)
  | _ => i
  end.
Definition isRunning (i : TimelineItem) : bool := bool_decide (itemStatus i = Some C_running).

(** An item of another turn, when both are known. *)
Definition otherTurn (turnId : option string) (i : TimelineItem) : bool :=
  match truthyId (itemTurn i), truthyId turnId with Some t, Some t' => negb (String.eqb t t') | _, _ => false end.
Definition finalize (disposition : CallStatus) (i : TimelineItem) : TimelineItem :=
  let i := stopStreaming i in if isRunning i then setStatus disposition i else i.
Definition finalizeOpen (turnId : option string) (disposition : CallStatus) : list TimelineItem -> list TimelineItem :=
  List.map (fun i => if otherTurn turnId i then i else finalize disposition i).

Definition isCall (i : TimelineItem) : bool := match i with ToolCall _ | Worker _ => true | _ => false end.
Definition callIs (callId : jstr) (i : TimelineItem) : bool :=
  match i with ToolCall c => bool_decide (tc_callId c = Some callId) | Worker w => bool_decide (wk_callId w = Some callId) | _ => false end.
(** What [findOpenCall] looks for: the newest call of that id, else the newest running one. *)
Definition openCall (callId : option jstr) (items : list TimelineItem) : TimelineItem -> bool :=
  match truthy callId with
  | Some id => if existsb (callIs id) items then callIs id else fun i => isCall i && isRunning i
  | None => fun i => isCall i && isRunning i
  end.
Definition runningSandbox (i : TimelineItem) : bool := match i with Sandbox _ => isRunning i | _ => false end.
Definition openSandbox (name : jstr) (i : TimelineItem) : bool :=
  match i with Sandbox b => bool_decide (sb_name b = name) && isRunning i | _ => false end.

(** [items] is newest first, as [hasTurnActivity] walks. *)
Fixpoint trailingActivity (items : list TimelineItem) : bool :=
  match items with
  | [] => false
  | i :: rest => match i with TurnEnd _ | UserMessage _ => false | _ => isActivityItem i || trailingActivity rest end
  end.
Definition hasTurnActivity (items : list TimelineItem) (turnId : option string) : bool :=
  match truthyId turnId with
  | Some _ => existsb (fun i => isActivityItem i && bool_decide (itemTurn i = turnId)) items
  | None => trailingActivity items
  end.

Definition turnEndItem (e : SessionEvent) (outcome : TurnOutcome) (failureText : option jstr) : TimelineItem := TurnEnd {|
  te_id := String.append (ev_id e) "-turn-end"; te_turnId := ev_turnId e; te_outcome := outcome; te_failureText := failureText;
  te_occurredAt := ev_occurredAt e |}.

(** ** One event *)

Definition str (k : string) (e : SessionEvent) : jstr := default [] (field k (ev_payload e)).

Definition onUserMessage (e : SessionEvent) (pending : bool) (items : list TimelineItem) : list TimelineItem :=
  let items := closeStreamingTail items in
  match workerCompletionPayload (prop (js "childCompletion") (ev_payload e)) with
  | Some child => WorkerDone {| wc_id := ev_id e; wc_turnId := ev_turnId e; wc_occurredAt := ev_occurredAt e; wc_child := child; wc_text := str "text" e |} :: items
  | None => UserMessage {|
      um_id := ev_id e; um_text := str "text" e; um_pending := pending; um_resources := resourceRefs (prop (js "resources") (ev_payload e));
      um_tools := toolRefs (prop (js "tools") (ev_payload e)); um_occurredAt := ev_occurredAt e |} :: items
  end.

Definition newStreamed (e : SessionEvent) (text : jstr) (streaming : bool) : StreamedItem := {|
  sm_id := ev_id e; sm_turnId := ev_turnId e; sm_text := text; sm_streaming := streaming; sm_occurredAt := ev_occurredAt e |}.
Definition extends (turnId : option string) (m : StreamedItem) : bool := sm_streaming m && bool_decide (sm_turnId m = turnId).
Definition append (text : jstr) (m : StreamedItem) : StreamedItem := m <| sm_text ::= fun t => t ++ text |>.

(** Both kinds of streamed text: the tail takes the text when it is of the kind
    and still streams the same turn. *)
Definition streamDelta (kind : TimelineItem -> option StreamedItem) (wrap : StreamedItem -> TimelineItem) (text : jstr) (e : SessionEvent)
  (items : list TimelineItem) : list TimelineItem :=
  match text with
  | [] => items
  | _ =>
      match items, head items ≫= kind with
      | _ :: rest, Some m =>
          if extends (ev_turnId e) m then wrap (append text m) :: rest else wrap (newStreamed e text true) :: closeStreamingTail items
      | _, _ => wrap (newStreamed e text true) :: closeStreamingTail items
      end
  end.
Definition asMessage (i : TimelineItem) : option StreamedItem := match i with AgentMessage m => Some m | _ => None end.
Definition asReasoning (i : TimelineItem) : option StreamedItem := match i with Reasoning m => Some m | _ => None end.
Definition onMessageDelta (e : SessionEvent) : list TimelineItem -> list TimelineItem := streamDelta asMessage AgentMessage (str "text" e) e.
Definition onReasoningDelta (e : SessionEvent) : list TimelineItem -> list TimelineItem :=
  streamDelta asReasoning Reasoning (reasoningText (ev_payload e)) e.

Definition messageOf (turnId : option string) (i : TimelineItem) : bool :=
  match i with AgentMessage m => bool_decide (sm_turnId m = turnId) | _ => false end.
Definition textStartsWith (prefix text : jstr) : bool := bool_decide (take (length prefix) text = prefix).
Definition reconciles (text : jstr) (m : StreamedItem) : bool :=
  sm_streaming m || bool_decide (sm_text m = []) || bool_decide (text = sm_text m) || textStartsWith (sm_text m) text.
Definition completeMessage (text : jstr) (i : TimelineItem) : TimelineItem :=
  match i with
  | AgentMessage m =>
      let authoritative := bool_decide (sm_text m = []) || (negb (bool_decide (text = [])) && textStartsWith (sm_text m) text) in
      AgentMessage ((m <| sm_text := if authoritative then match text with [] => sm_text m | _ => text end else sm_text m |>)
                      <| sm_streaming := false |>)
  | _ => i
  end.
Definition onMessageCompleted (e : SessionEvent) (items : list TimelineItem) : list TimelineItem :=
  let text := str "text" e in
  let fresh := match text with [] => items | _ => AgentMessage (newStreamed e text false) :: items end in
  match List.find (messageOf (ev_turnId e)) items with
  | Some (AgentMessage m) => if reconciles text m then setFirst (messageOf (ev_turnId e)) (completeMessage text) items else fresh
  | _ => fresh
  end.

Section json_text.
Definition onToolCall (e : SessionEvent) (items : list TimelineItem) : list TimelineItem :=
  let payload := ev_payload e in
  let name := default (js "tool") (field "name" payload) in
  let args := default JNull (prop (js "arguments") payload) in
  let worker action prompt mode := Worker {|
    wk_id := ev_id e; wk_turnId := ev_turnId e; wk_callId := field "id" payload; wk_action := action; wk_prompt := prompt;
    wk_workerSessionId := sessionRef (Some args); wk_mode := mode; wk_status := C_running; wk_occurredAt := ev_occurredAt e |} in
  (if bool_decide (name = js "session_interrupt") then worker W_interrupt None (Some (workerInterruptMode args))
   else if bool_decide (name = js "session_create") then worker W_spawn (workerPrompt args) None
   else if bool_decide (name = js "session_send_message") then worker W_message (workerPrompt args) None
   else ToolCall {|
     tc_id := ev_id e; tc_turnId := ev_turnId e; tc_callId := field "id" payload; tc_name := name; tc_arguments := args; tc_output := None;
     tc_raw := prop (js "raw") payload; tc_status := C_running; tc_occurredAt := ev_occurredAt e |}) :: closeStreamingTail items.

Definition settleCall (payload : json) (i : TimelineItem) : TimelineItem :=
  let status := if isErrorOutput payload then C_failed else C_complete in
  match i with
  | Worker w => Worker ((w <| wk_status := status |>)
      <| wk_workerSessionId := match wk_workerSessionId w with Some id => Some id | None => sessionRef (prop (js "output") payload) end |>)
  | ToolCall c => ToolCall (c <| tc_status := status |> <| tc_output := prop (js "output") payload |>)
  | _ => i
  end.
Definition onToolOutput (e : SessionEvent) (items : list TimelineItem) : list TimelineItem :=
  setFirst (openCall (field "id" (ev_payload e)) items) (settleCall (ev_payload e)) items.

Definition joinOutput (output message : jstr) : jstr := match output with [] => message | _ => output ++ 10 :: message end.
Definition settleSandbox (status : CallStatus) (payload : json) (i : TimelineItem) : TimelineItem :=
  match i with
  | Sandbox b => Sandbox (b <| sb_status := status |>
      <| sb_output ::= fun o => match failureMessage payload with Some m => match m with [] => o | _ => joinOutput o m end | None => o end |>)
  | _ => i
  end.
Definition onSandboxOperation (e : SessionEvent) (status : CallStatus) (items : list TimelineItem) : list TimelineItem :=
  let payload := ev_payload e in
  let name := default (js "sandbox") (field "name" payload) in
  if bool_decide (name ∈ [js "repository-clone"; js "file-resource-download"]) && negb (bool_decide (status = C_failed)) then items
  else if existsb (openSandbox name) items then
    if bool_decide (status = C_running) then items else setFirst (openSandbox name) (settleSandbox status payload) items
  else Sandbox {|
    sb_id := ev_id e; sb_turnId := ev_turnId e; sb_name := name; sb_command := field "command" payload;
    sb_output := default [] (failureMessage payload); sb_status := status; sb_occurredAt := ev_occurredAt e |} :: closeStreamingTail items.

Definition addOutput (text : jstr) (i : TimelineItem) : TimelineItem :=
  match i with Sandbox b => Sandbox (b <| sb_output ::= fun o => o ++ text |>) | _ => i end.
Definition commandText (payload : json) : jstr :=
  match field "chunk" payload, field "text" payload, field "output" payload with
  | Some t, _, _ => t
  | None, Some t, _ => t
  | None, None, Some t => t
  | None, None, None => []
  end.
Definition onCommandOutput (e : SessionEvent) (items : list TimelineItem) : list TimelineItem :=
  let owner := match field "name" (ev_payload e) with
               | Some name => if existsb (openSandbox name) items then openSandbox name else runningSandbox
               | None => runningSandbox
               end in
  match commandText (ev_payload e) with [] => items | text => setFirst owner (addOutput text) items end.

Definition isDivider (i : TimelineItem) : option SessionStatus := match i with SessionStatusDivider _ s _ => Some s | _ => None end.
Definition onStatusChanged (e : SessionEvent) (items : list TimelineItem) : list TimelineItem :=
  match field "status" (ev_payload e) ≫= sessionStatusOf with
  | Some status =>
      if bool_decide (status ∈ ATTENTION_STATUSES) && negb (bool_decide (head (omap isDivider items) = Some status))
      then SessionStatusDivider (ev_id e) status (ev_occurredAt e) :: items
      else items
  | None => items
  end.

Definition notice (e : SessionEvent) (tone : NoticeTone) (text : jstr) : TimelineItem := Notice (ev_id e) tone text (ev_occurredAt e).

Definition onAuthNeeded (e : SessionEvent) (items : list TimelineItem) : list TimelineItem :=
  let payload := ev_payload e in
  AuthNeeded {|
    an_id := ev_id e; an_turnId := ev_turnId e; an_providerDomain := default [] (field "providerDomain" payload);
    an_connectionId := field "connectionId" payload; an_reason := authNeededReason (prop (js "reason") payload);
    an_scopes := stringList (prop (js "scopes") payload); an_resource := field "resource" payload; an_toolName := field "toolName" payload;
    an_authorizationUrl := field "authorizationUrl" payload; an_occurredAt := ev_occurredAt e |} :: closeStreamingTail items.

Definition onTurnCompleted (e : SessionEvent) (items : list TimelineItem) : list TimelineItem :=
  let items := finalizeOpen (ev_turnId e) C_complete items in
  if isCreditExhaustionPayload (ev_payload e) then
    notice e N_failed CREDIT_EXHAUSTION_MESSAGE :: turnEndItem e O_failed (Some CREDIT_EXHAUSTION_MESSAGE) :: items
  else turnEndItem e O_complete None :: items.

Definition onTurnFailed (e : SessionEvent) (items : list TimelineItem) : list TimelineItem :=
  let hadActivity := hasTurnActivity items (ev_turnId e) in
  let failureText := if isCreditExhaustionPayload (ev_payload e) then Some CREDIT_EXHAUSTION_MESSAGE else failureMessage (ev_payload e) in
  let items := turnEndItem e O_failed failureText :: finalizeOpen (ev_turnId e) C_cancelled items in
  if hadActivity then items else notice e N_failed (default (js "The turn failed.") failureText) :: items.

Definition onTurnCancelled (prescan : TurnAnchorPrescan) (e : SessionEvent) (items : list TimelineItem) : list TimelineItem :=
  if match turnIdOf e with Some t => negb (bool_decide (t ∈ pre_startedTurnIds prescan)) | None => false end then items
  else
    let hadActivity := hasTurnActivity items (ev_turnId e) in
    let items := turnEndItem e O_cancelled None :: finalizeOpen (ev_turnId e) C_cancelled items in
    if hadActivity then items else notice e N_cancelled (js "Interrupted.") :: items.

Definition GOAL_EVENTS : list string :=
  ["goal.set"; "goal.updated"; "goal.completed"; "goal.paused"; "goal.resumed"; "goal.cleared"; "goal.continuation"]%string.

Definition project (prescan : TurnAnchorPrescan) (items : list TimelineItem) (te : TimelineEvent) : list TimelineItem :=
  let e := te.1 in
  let type := ev_type e in
  if String.eqb type "user.message" then onUserMessage e te.2 items
  else if String.eqb type "agent.message.delta" then onMessageDelta e items
  else if String.eqb type "agent.message.completed" then onMessageCompleted e items
  else if String.eqb type "agent.reasoning.delta" then onReasoningDelta e items
  else if String.eqb type "agent.toolCall.created" then onToolCall e items
  else if String.eqb type "agent.toolCall.output" then onToolOutput e items
  else if String.eqb type "sandbox.operation.started" then onSandboxOperation e C_running items
  else if String.eqb type "sandbox.operation.completed" then onSandboxOperation e C_complete items
  else if String.eqb type "sandbox.operation.failed" then onSandboxOperation e C_failed items
  else if String.eqb type "sandbox.command.output.delta" then onCommandOutput e items
  else if String.eqb type "session.status.changed" then onStatusChanged e items
  else if String.eqb type "session.requiresAction" then
    notice e N_waiting (js "Approval needed " ++ [8212] ++ js " the turn is paused until someone decides.") :: finalizeOpen (ev_turnId e) C_complete items
  else if String.eqb type "tool.auth_needed" then onAuthNeeded e items
  else if String.eqb type "turn.completed" then onTurnCompleted e items
  else if String.eqb type "turn.failed" then onTurnFailed e items
  else if String.eqb type "turn.cancelled" then onTurnCancelled prescan e items
  else if String.eqb type "memory.saved" || String.eqb type "memory.corrected" then
    match memoryItem (ev_id e) type (ev_turnId e) (ev_payload e) (ev_occurredAt e) with
    | Some m => Memory m :: closeStreamingTail items
    | None => items
    end
  else if bool_decide (type ∈ GOAL_EVENTS) then
    Goal (ev_id e) (String.substring 5 (String.length type - 5) type) (goalTextOf (ev_payload e)) (ev_occurredAt e) :: items
  else items.

Definition buildTimeline (events : list SessionEvent) : list TimelineItem :=
  let prescan := prescanTurnAnchors events in
  rev (fold_left (project prescan) (orderTimelineEvents events prescan) []).
End json_text.

(** ** Reads of the log *)

Definition turnEnds (e : SessionEvent) : bool := bool_decide (ev_type e ∈ ["turn.completed"; "turn.failed"; "turn.cancelled"]%string).
Definition creditExhaustedFromEvents (events : list SessionEvent) : bool :=
  match List.find turnEnds (rev (bySequence events)) with Some e => isCreditExhaustionPayload (ev_payload e) | None => false end.
Definition sessionStatusFromEvents (events : list SessionEvent) : option SessionStatus :=
  head (omap (fun e => if String.eqb (ev_type e) "session.status.changed" then field "status" (ev_payload e) ≫= sessionStatusOf else None) (rev events)).

(** ** The first pass *)

(** The maps speak of events that are there; a fallback is its turn's first. *)
Definition opensTurn (t : jstr) (e : SessionEvent) : Prop :=
  turnIdOf e = Some t /\ ev_type e <> "turn.queued"%string /\ ev_type e <> "turn.cancelled"%string.
Record scanned (l : list SessionEvent) (s : Scan) : Prop := {
  sc_start : forall k n, startSeqByTrigger s !! k = Some n -> exists e, e ∈ l /\ ev_sequence e = n /\ ev_type e = "turn.started"%string;
  sc_fallback : forall t n, fallbackSeqByTurn s !! t = Some n -> exists e, e ∈ l /\ ev_sequence e = n /\ opensTurn t e;
  sc_first : forall t e, e ∈ l -> opensTurn t e -> exists n, fallbackSeqByTurn s !! t = Some n /\ n <= ev_sequence e;
  sc_started : forall e t, e ∈ l -> turnIdOf e = Some t -> isAgentActivityEvent (ev_type e) = true -> t ∈ startedTurnIds s
}.

Lemma scanFallback_rest e s : queuedTurnByTrigger (scanFallback e s) = queuedTurnByTrigger s /\
  startSeqByTrigger (scanFallback e s) = startSeqByTrigger s /\ startedTurnIds (scanFallback e s) = startedTurnIds s /\
  cancelledTurnIds (scanFallback e s) = cancelledTurnIds s.
Proof. unfold scanFallback. by repeat case_match. Qed.

Lemma scanFallback_lookup e s t n : fallbackSeqByTurn (scanFallback e s) !! t = Some n ->
  fallbackSeqByTurn s !! t = Some n \/ opensTurn t e /\ n = ev_sequence e.
Proof.
  unfold scanFallback, opensTurn. destruct (turnIdOf e) as [t'|] eqn:Et; [|auto]. destruct (_ || _) eqn:Eo; [auto|].
  apply orb_false_iff in Eo as [E1%String.eqb_neq E2%String.eqb_neq].
  assert (H : <[t' := ev_sequence e]> (fallbackSeqByTurn s) !! t = Some n -> fallbackSeqByTurn s !! t = Some n \/ (Some t' = Some t /\ ev_type e <> "turn.queued"%string /\ ev_type e <> "turn.cancelled"%string) /\ n = ev_sequence e).
  { intros [[-> <-]|[_ ?]]%lookup_insert_Some; [right|by left]. split_and!; [done|exact E1|exact E2|done]. }
  destruct (fallbackSeqByTurn s !! t') as [m|]; [destruct (_ <? m)|]; auto.
Qed.

Lemma scanFallback_le e s t : opensTurn t e -> exists n, fallbackSeqByTurn (scanFallback e s) !! t = Some n /\ n <= ev_sequence e.
Proof.
  intros (Ht & E1%String.eqb_neq & E2%String.eqb_neq). unfold scanFallback. rewrite Ht, E1, E2. cbn [orb].
  destruct (fallbackSeqByTurn s !! t) as [m|] eqn:Em; [destruct (_ <? m) eqn:El|]; breflect.
  - exists (ev_sequence e). split; [cbn; apply lookup_insert_eq|lia].
  - by exists m.
  - exists (ev_sequence e). split; [cbn; apply lookup_insert_eq|lia].
Qed.

Lemma scanFallback_keeps e s t n : fallbackSeqByTurn s !! t = Some n -> exists m, fallbackSeqByTurn (scanFallback e s) !! t = Some m /\ m <= n.
Proof.
  intros Hn. unfold scanFallback. destruct (turnIdOf e) as [t'|]; [|by exists n]. destruct (_ || _); [by exists n|].
  destruct (decide (t' = t)) as [->|Hne].
  - rewrite Hn. destruct (_ <? n) eqn:El; breflect; [|by exists n]. exists (ev_sequence e). split; [cbn; apply lookup_insert_eq|lia].
  - destruct (fallbackSeqByTurn s !! t') as [m|]; [destruct (_ <? m)|]; exists n; cbn; rewrite ?lookup_insert_ne; done.
Qed.

Lemma elem_of_addTurn t o s : t ∈ addTurn o s <-> o = Some t \/ t ∈ s.
Proof. destruct o; cbn; set_solver. Qed.

Lemma scanType_rest e s : fallbackSeqByTurn (scanType e s) = fallbackSeqByTurn s /\ queuedTurnByTrigger (scanType e s) = queuedTurnByTrigger s /\
  startedTurnIds s ⊆ startedTurnIds (scanType e s) /\
  forall k n, startSeqByTrigger (scanType e s) !! k = Some n -> startSeqByTrigger s !! k = Some n \/ n = ev_sequence e /\ ev_type e = "turn.started"%string.
Proof.
  unfold scanType. destruct (String.eqb (ev_type e) "turn.started") eqn:E; [|by repeat case_match; auto].
  apply String.eqb_eq in E. destruct (truthy _) as [trigger|]; cbn; split_and!; auto.
  - intros t Ht. apply elem_of_addTurn. by right.
  - intros k n [[-> <-]|[_ ?]]%lookup_insert_Some; auto.
  - intros t Ht. apply elem_of_addTurn. by right.
Qed.

Lemma scanQueued_rest e s : startSeqByTrigger (scanQueued e s) = startSeqByTrigger s /\ fallbackSeqByTurn (scanQueued e s) = fallbackSeqByTurn s /\
  startedTurnIds (scanQueued e s) = startedTurnIds s.
Proof. unfold scanQueued. by repeat case_match. Qed.

Lemma scanned_step l s e : scanned l s -> scanned (l ++ [e]) (scanEvent s e).
Proof.
  intros [Hs Hf Hfi Hst]. unfold scanEvent. destruct (String.eqb (ev_type e) "turn.queued") eqn:Eq.
  - apply String.eqb_eq in Eq. destruct (scanQueued_rest e s) as (E1 & E2 & E3). split; rewrite ?E1, ?E2, ?E3.
    + intros k n (x & Hx & ?)%Hs. exists x. split; [apply elem_of_app; by left|done].
    + intros t n (x & Hx & ?)%Hf. exists x. split; [apply elem_of_app; by left|done].
    + intros t x [Hx| ->%list_elem_of_singleton]%elem_of_app Ho; [by apply Hfi|]. by destruct Ho as (_ & ? & _).
    + intros x t [Hx| ->%list_elem_of_singleton]%elem_of_app Ht Ha; [by eapply Hst|]. by rewrite Eq in Ha.
  - set (s1 := scanType e s). destruct (scanType_rest e s) as (E1 & _ & E3 & E4). fold s1 in E1, E3, E4.
    destruct (scanFallback_rest e s1) as (_ & F2 & F3 & _).
    set (s2 := scanFallback e s1) in *.
    assert (Hstart : startSeqByTrigger (if isAgentActivityEvent (ev_type e) then s2 <| startedTurnIds ::= addTurn (turnIdOf e) |> else s2) = startSeqByTrigger s1) by (by case_match).
    assert (Hfall : fallbackSeqByTurn (if isAgentActivityEvent (ev_type e) then s2 <| startedTurnIds ::= addTurn (turnIdOf e) |> else s2) = fallbackSeqByTurn s2) by (by case_match).
    assert (Hsta : startedTurnIds s ⊆ startedTurnIds (if isAgentActivityEvent (ev_type e) then s2 <| startedTurnIds ::= addTurn (turnIdOf e) |> else s2)).
    { intros t Ht%E3. case_match; [|by rewrite F3]. apply elem_of_addTurn. right. by rewrite F3. }
    split; rewrite ?Hstart, ?Hfall.
    + intros k n [(x & Hx & ?)%Hs|[-> Ht]]%E4; [exists x|exists e]; (split; [apply elem_of_app|done]); [by left|right; by apply list_elem_of_singleton].
    + intros t n [Hn|[Ho ->]]%scanFallback_lookup; [rewrite E1 in Hn; apply Hf in Hn as (x & Hx & ?); exists x|exists e];
        (split; [apply elem_of_app|done]); [by left|right; by apply list_elem_of_singleton].
    + intros t x [Hx| ->%list_elem_of_singleton]%elem_of_app Ho; [|by apply scanFallback_le].
      destruct (Hfi t x Hx Ho) as (n & Hn & Hle). rewrite <- E1 in Hn. destruct (scanFallback_keeps e s1 t n Hn) as (m & Hm & ?). exists m. split; [done|lia].
    + intros x t [Hx| ->%list_elem_of_singleton]%elem_of_app Ht Ha; [eapply Hsta, Hst; done|]. rewrite Ha. apply elem_of_addTurn. by left.
Qed.

Lemma scanned_fold l : scanned l (fold_left scanEvent l emptyScan).
Proof.
  induction l as [|e l IH] using rev_ind; [split; cbn; try (intros ? ? ?%lookup_empty_Some; done); by intros ? ? ?%elem_of_nil|].
  rewrite fold_left_app. by apply scanned_step.
Qed.

(** Where a message can be anchored. *)
Lemma anchorOf_sequence l e n : anchorOf (anchors (fold_left scanEvent l emptyScan)) e = AtSequence n ->
  n = ev_sequence e \/ (exists x, x ∈ l /\ ev_sequence x = n /\ ev_type x = "turn.started"%string) \/
  exists t x, x ∈ l /\ ev_sequence x = n /\ opensTurn t x /\ forall y, y ∈ l -> opensTurn t y -> n <= ev_sequence y.
Proof.
  pose proof (scanned_fold l) as [Hs Hf Hfi _]. set (s := fold_left _ _ _) in *. unfold anchorOf, anchors. cbn.
  destruct (queuedTurnByTrigger s !! _) as [turn|] eqn:Eq; [|intros [= <-]; by left]. destruct (decide _); [done|].
  destruct ((startSeqByTrigger s ∪ _) !! _) as [m|] eqn:Em; [intros [= ->]; right|done].
  apply lookup_union_Some_raw in Em as [Em|[_ Em]]; [left; by eapply Hs|right].
  rewrite lookup_omap, Eq in Em. cbn in Em. destruct (Hf _ _ Em) as (x & Hx & Hn & Ho). exists turn, x. split_and!; [done..|].
  intros y Hy Hoy. destruct (Hfi turn y Hy Hoy) as (m & Hm & Hle). rewrite Em in Hm. injection Hm as <-. done.
Qed.

(** ** What the log says of a message

    Read off the events alone: the turn a message was queued as, where that turn
    starts, and whether it was withdrawn. *)
Definition queues (q : SessionEvent) (id turn : jstr) : Prop :=
  ev_type q = "turn.queued"%string /\ truthy (field "triggerEventId" (ev_payload q)) = Some id /\
  truthy (match field "turnId" (ev_payload q) with Some t => Some t | None => js <$> ev_turnId q end) = Some turn.
Definition starts (x : SessionEvent) (id : jstr) : Prop := ev_type x = "turn.started"%string /\ truthy (field "triggerEventId" (ev_payload x)) = Some id.
Definition withdraws (x : SessionEvent) (turn : jstr) : Prop :=
  ev_type x = "turn.cancelled"%string /\ turnIdOf x = Some turn \/ ev_type x = "turn.queue_drained"%string /\ turn ∈ drainedTurnIds (ev_payload x).
Definition latest (P : SessionEvent -> Prop) (events : list SessionEvent) (x : SessionEvent) : Prop :=
  x ∈ events /\ P x /\ forall y, y ∈ events -> P y -> ev_sequence y <= ev_sequence x.
Definition earliest (P : SessionEvent -> Prop) (events : list SessionEvent) (x : SessionEvent) : Prop :=
  x ∈ events /\ P x /\ forall y, y ∈ events -> P y -> ev_sequence x <= ev_sequence y.
(** The newest queueing of a message counts. *)
Definition queuedAs (events : list SessionEvent) (e : SessionEvent) (turn : jstr) : Prop :=
  exists q, latest (fun q => exists t, queues q (js (ev_id e)) t) events q /\ queues q (js (ev_id e)) turn.

Inductive standing (events : list SessionEvent) (e : SessionEvent) : Anchor -> Prop :=
| st_unqueued : (forall q t, q ∈ events -> ~ queues q (js (ev_id e)) t) -> standing events e (AtSequence (ev_sequence e))
| st_started turn x : queuedAs events e turn -> latest (fun x => starts x (js (ev_id e))) events x -> standing events e (AtSequence (ev_sequence x))
| st_first turn x : queuedAs events e turn -> (forall y, y ∈ events -> ~ starts y (js (ev_id e))) -> earliest (opensTurn turn) events x ->
    standing events e (AtSequence (ev_sequence x))
| st_withdrawn turn x : queuedAs events e turn -> (forall y, y ∈ events -> ~ starts y (js (ev_id e)) /\ ~ opensTurn turn y) -> x ∈ events -> withdraws x turn ->
    standing events e Withdrawn
| st_pending turn : queuedAs events e turn -> (forall y, y ∈ events -> ~ starts y (js (ev_id e)) /\ ~ opensTurn turn y /\ ~ withdraws y turn) ->
    standing events e Pending.

(** The newest event that says something. *)
Definition newest {A} (P : SessionEvent -> A -> Prop) (l : list SessionEvent) (o : option A) : Prop :=
  match o with
  | Some a => exists l1 x l2, l = l1 ++ x :: l2 /\ P x a /\ forall y b, y ∈ l2 -> ~ P y b
  | None => forall y b, y ∈ l -> ~ P y b
  end.
Lemma newest_hit {A} (P : SessionEvent -> A -> Prop) l e a : P e a -> newest P (l ++ [e]) (Some a).
Proof. intros H. exists l, e, []. split_and!; [done|done|by intros y b ?%elem_of_nil]. Qed.
Lemma newest_miss {A} (P : SessionEvent -> A -> Prop) l e o : (forall b, ~ P e b) -> newest P l o -> newest P (l ++ [e]) o.
Proof.
  intros He. destruct o as [a|]; cbn.
  - intros (l1 & x & l2 & -> & Hx & Hl). exists l1, x, (l2 ++ [e]). rewrite <- app_assoc. split_and!; [done|done|]. intros y b [Hy| ->%list_elem_of_singleton]%elem_of_app; [by apply Hl|done].
  - intros Hl y b [Hy| ->%list_elem_of_singleton]%elem_of_app; [by apply Hl|done].
Qed.

Record told (l : list SessionEvent) (s : Scan) : Prop := {
  to_queued : forall k, newest (fun e t => queues e k t) l (queuedTurnByTrigger s !! k);
  to_started : forall k, newest (fun e n => starts e k /\ n = ev_sequence e) l (startSeqByTrigger s !! k);
  to_withdrawn : forall t, t ∈ cancelledTurnIds s <-> exists x, x ∈ l /\ withdraws x t
}.
Lemma withdraws_snoc l e t (P : Prop) : (withdraws e t -> P) -> (P -> withdraws e t) -> (exists x, x ∈ l ++ [e] /\ withdraws x t) <-> (exists x, x ∈ l /\ withdraws x t) \/ P.
Proof.
  intros H1 H2. split.
  - intros (x & [Hx| ->%list_elem_of_singleton]%elem_of_app & H); [left; by exists x|right; by apply H1].
  - intros [(x & Hx & H)|H]; [exists x|exists e]; (split; [apply elem_of_app|by auto]); [by left|right; by apply list_elem_of_singleton].
Qed.
Lemma told_step l s e : told l s -> told (l ++ [e]) (scanEvent s e).
Proof.
  intros [Hq Hs Hw]. unfold scanEvent. destruct (String.eqb (ev_type e) "turn.queued") eqn:Eq.
  - apply String.eqb_eq in Eq. assert (startSeqByTrigger (scanQueued e s) = startSeqByTrigger s /\ cancelledTurnIds (scanQueued e s) = cancelledTurnIds s) as [E1 E2] by (unfold scanQueued; by repeat case_match).
    split; rewrite ?E1, ?E2.
    + intros k. unfold scanQueued. set (qt := match field "turnId" (ev_payload e) with Some t => Some t | None => _ end).
      destruct (truthy (field "triggerEventId" (ev_payload e))) as [trigger|] eqn:Et; [|apply newest_miss; [intros t (_ & ? & _); congruence|done]].
      destruct (truthy qt) as [turn|] eqn:Eu; [|apply newest_miss; [intros t (_ & _ & ?); unfold qt in Eu; congruence|done]]. cbn.
      destruct (decide (trigger = k)) as [->|Hne]; [rewrite lookup_insert_eq; by apply newest_hit|rewrite lookup_insert_ne by done; apply newest_miss; [intros t (_ & ? & _); congruence|done]].
    + intros k. apply newest_miss; [intros n [[? _] _]; congruence|done].
    + intros t. rewrite Hw. rewrite (withdraws_snoc l e t False); [tauto| |done]. intros [[? _]|[? _]]; congruence.
  - apply String.eqb_neq in Eq. destruct (scanFallback_rest e (scanType e s)) as (F1 & F2 & _ & F4). set (s2 := scanFallback e (scanType e s)) in *.
    assert (told (l ++ [e]) s2) as [H1 H2 H3]; [|destruct (isAgentActivityEvent _); by split].
    destruct (scanType_rest e s) as (_ & G2 & _). split; rewrite ?F1, ?F2, ?F4, ?G2.
    + intros k. apply newest_miss; [by intros t [? _]|done].
    + intros k. unfold scanType. destruct (String.eqb (ev_type e) "turn.started") eqn:E1.
      * apply String.eqb_eq in E1. destruct (truthy (field "triggerEventId" (ev_payload e))) as [trigger|] eqn:Et; cbn; [|apply newest_miss; [intros n [[_ ?] _]; congruence|done]].
        destruct (decide (trigger = k)) as [->|Hne]; [rewrite lookup_insert_eq; by apply newest_hit|rewrite lookup_insert_ne by done; apply newest_miss; [intros n [[_ ?] _]; congruence|done]].
      * apply String.eqb_neq in E1. match goal with |- newest _ _ (startSeqByTrigger ?x !! _) => assert (startSeqByTrigger x = startSeqByTrigger s) as -> by (by repeat case_match) end.
        apply newest_miss; [by intros n [[? _] _]|done].
    + intros t. unfold scanType. destruct (String.eqb (ev_type e) "turn.started") eqn:E1.
      * apply String.eqb_eq in E1. match goal with |- _ ∈ cancelledTurnIds ?x <-> _ => assert (cancelledTurnIds x = cancelledTurnIds s) as -> by (by repeat case_match) end.
        rewrite Hw, (withdraws_snoc l e t False); [tauto| |done]. intros [[? _]|[? _]]; congruence.
      * clear E1. destruct (String.eqb (ev_type e) "turn.cancelled" && _) eqn:E2.
        -- apply andb_true_iff in E2 as [E2%String.eqb_eq E3]. cbn. rewrite elem_of_addTurn, Hw, (withdraws_snoc l e t (turnIdOf e = Some t)); [tauto| |by left].
           intros [[_ ?]|[? _]]; [done|congruence].
        -- destruct (String.eqb (ev_type e) "turn.queue_drained") eqn:E3.
           ++ apply String.eqb_eq in E3. cbn. rewrite elem_of_union, elem_of_list_to_set, Hw, (withdraws_snoc l e t (t ∈ drainedTurnIds (ev_payload e))); [tauto| |by right].
              intros [[? _]|[_ ?]]; [congruence|done].
           ++ apply String.eqb_neq in E3. rewrite Hw, (withdraws_snoc l e t False); [tauto| |done].
              intros [[E4 E5]|[? _]]; [|done]. rewrite E4, E5 in E2. discriminate E2.
Qed.
Lemma told_fold l : told l (fold_left scanEvent l emptyScan).
Proof.
  induction l as [|e l IH] using rev_ind; [split; cbn|rewrite fold_left_app; by apply told_step].
  - intros k. rewrite lookup_empty. by intros y b ?%elem_of_nil.
  - intros k. rewrite lookup_empty. by intros y b ?%elem_of_nil.
  - intros t. split; [by intros ?%not_elem_of_empty|by intros (x & ?%elem_of_nil & _)].
Qed.

(** In a sorted log the newest event is the one of the greatest sequence. *)
Lemma newest_latest {A} (P : SessionEvent -> A -> Prop) l a : StronglySorted (key_le ev_sequence) l -> newest P l (Some a) ->
  exists x, latest (fun x => exists b, P x b) l x /\ P x a.
Proof.
  intros Hs (l1 & x & l2 & -> & Hx & Hl). exists x. split; [|done]. split_and!; [apply elem_of_app; right; left|eauto|].
  intros y [Hy|[->|Hy]%elem_of_cons]%elem_of_app [b Hb]; [|lia|by destruct (Hl y b)].
  apply (StronglySorted_app_1_elem_of _ l1 (x :: l2)) with (x1 := y) (x2 := x) in Hs; [exact Hs|done|left].
Qed.
Lemma anchor_stands l e : StronglySorted (key_le ev_sequence) l -> standing l e (anchorOf (anchors (fold_left scanEvent l emptyScan)) e).
Proof.
  intros Hsort. pose proof (scanned_fold l) as [_ Hf Hfi _]. pose proof (told_fold l) as [Hq Hst Hw]. set (s := fold_left _ _ _) in *. set (id := js (ev_id e)).
  specialize (Hq id). specialize (Hst id). unfold anchorOf, anchors. cbn. fold id. destruct (queuedTurnByTrigger s !! id) as [turn|] eqn:Eq.
  2: { apply st_unqueued. intros q t Hin. by apply Hq. }
  assert (queuedAs l e turn) as Has by (destruct (newest_latest _ _ _ Hsort Hq) as (q & H1 & H2); by exists q).
  assert (startSeqByTrigger s !! id = None -> forall y, y ∈ l -> ~ starts y id) as Hnos.
  { intros E. rewrite E in Hst. intros y Hy Hs. by apply (Hst y (ev_sequence y) Hy). }
  assert (fallbackSeqByTurn s !! turn = None -> forall y, y ∈ l -> ~ opensTurn turn y) as Hnoo by (intros E y Hy Ho; destruct (Hfi _ _ Hy Ho) as (n & Hn & _); congruence).
  set (fallback := omap (fun turn => fallbackSeqByTurn s !! turn) (queuedTurnByTrigger s)). assert (fallback !! id = fallbackSeqByTurn s !! turn) as Efb by (unfold fallback; by rewrite lookup_omap, Eq).
  destruct (decide _) as [Hd|Hd].
  - apply elem_of_dom in Hd as [t Hd]. apply map_lookup_filter_Some in Hd as [Ht (Hc & Hns & Hnf)]. cbn in *. rewrite Eq in Ht. injection Ht as <-.
    apply lookup_union_None in Hns as [Hns _]. apply Hw in Hc as (x & Hx & Hc). eapply st_withdrawn; [exact Has| |exact Hx|exact Hc]. intros y Hy. split; [by apply Hnos|by apply Hnoo].
  - destruct ((startSeqByTrigger s ∪ fallback) !! id) as [n|] eqn:Es.
    + apply lookup_union_Some_raw in Es as [Es|[Es Ef]].
      * rewrite Es in Hst. destruct (newest_latest _ _ _ Hsort Hst) as (x & (H1 & H2 & H3) & H4 & ->). eapply st_started; [exact Has|]. split_and!; [done|done|]. intros y Hy Hsy. apply H3; [done|]. by exists (ev_sequence y).
      * rewrite Efb in Ef. destruct (Hf _ _ Ef) as (x & Hx & <- & Ho). eapply st_first; [exact Has|by apply Hnos|]. split_and!; [done|done|].
        intros y Hy Hoy. destruct (Hfi _ _ Hy Hoy) as (m & Hm & Hle). rewrite Ef in Hm. by injection Hm as <-.
    + apply lookup_union_None in Es as [Es Ef]. eapply st_pending; [exact Has|]. intros y Hy. split_and!; [by apply Hnos|apply Hnoo; [congruence|done]|].
      intros Hc. apply Hd. apply elem_of_dom. exists turn. apply map_lookup_filter_Some. split; [done|]. cbn. split_and!; [apply Hw; by exists y|by apply lookup_union_None|congruence].
Qed.
(** It does not matter in which order the events come. *)
Lemma standing_perm l l' e a : l ≡ₚ l' -> standing l e a -> standing l' e a.
Proof.
  intros Hp. assert (forall x, x ∈ l <-> x ∈ l') as Hin by (intros x; by rewrite Hp).
  assert (forall P x, latest P l x -> latest P l' x) as Hl by (intros P x (H1 & H2 & H3); split_and!; [by apply Hin|done|intros y Hy; by apply H3, Hin]).
  assert (forall P x, earliest P l x -> earliest P l' x) as Hfst by (intros P x (H1 & H2 & H3); split_and!; [by apply Hin|done|intros y Hy; by apply H3, Hin]).
  assert (forall t, queuedAs l e t -> queuedAs l' e t) as Hqa by (intros t (q & H1 & H2); exists q; eauto).
  intros [H|t x H1 H2|t x H1 H2 H3|t x H1 H2 H3 H4|t H1 H2].
  - apply st_unqueued. intros q t Hq. by apply H, Hin.
  - eapply st_started; eauto.
  - eapply st_first; eauto. intros y Hy. by apply H2, Hin.
  - eapply st_withdrawn; eauto. + intros y Hy. by apply H2, Hin. + by apply Hin.
  - eapply st_pending; eauto. intros y Hy. by apply H2, Hin.
Qed.
Lemma message_stands events e : standing events e (anchorOf (prescanTurnAnchors events) e).
Proof. apply (standing_perm (bySequence events)); [apply sort_by_perm|]. apply anchor_stands, sort_by_sorted. Qed.

(** ** The order of the second pass *)

(** Dealing rows into the buckets of distinct keys loses none and repeats none. *)
Lemma deal_perm {A} (key : A -> option Z) (keys : list Z) (l : list A) : NoDup keys -> (forall x n, x ∈ l -> key x = Some n -> n ∈ keys) ->
  concat (List.map (fun n => List.filter (fun x => bool_decide (key x = Some n)) l) keys) ≡ₚ
  List.filter (fun x => bool_decide (is_Some (key x))) l.
Proof.
  intros Hnd. induction l as [|x l IH]; intros Hin.
  - clear. induction keys; [done|]. by cbn.
  - assert (IH' := IH (fun y n Hy => Hin y n (list_elem_of_further _ _ _ Hy))). clear IH. cbn [List.filter]. destruct (key x) as [n|] eqn:Ek.
    + rewrite (bool_decide_eq_true_2 (is_Some (Some n))) by done. rewrite <- IH'. clear IH'.
      destruct (list_elem_of_split keys n) as (K1 & K2 & ->); [apply (Hin x); [left|done]|].
      assert (Hskip : forall K, n ∉ K -> List.map (fun m => if bool_decide (Some n = Some m) then x :: List.filter (fun y => bool_decide (key y = Some m)) l
          else List.filter (fun y => bool_decide (key y = Some m)) l) K = List.map (fun m => List.filter (fun y => bool_decide (key y = Some m)) l) K).
      { intros K HK. apply map_ext_in. intros m Hm%list_elem_of_In. rewrite bool_decide_eq_false_2; [done|]. intros [= ->]. done. }
      apply NoDup_app in Hnd as (_ & Hd & [Hn2 _]%NoDup_cons).
      assert (Hn1 : n ∉ K1) by (intros Hc; apply (Hd n Hc); left).
      rewrite !List.map_app. cbn [List.map]. rewrite (Hskip K1 Hn1), (Hskip K2 Hn2), !concat_app.
      cbn [concat]. rewrite bool_decide_eq_true_2 by done. cbn [app]. symmetry. apply Permutation_middle.
    + rewrite (bool_decide_eq_false_2 (is_Some None)) by (by intros [? ?]). rewrite <- IH'.
      rewrite (map_ext _ (fun n => List.filter (fun x => bool_decide (key x = Some n)) l)); [done|]. intros m. by rewrite bool_decide_eq_false_2.
Qed.

Lemma concat_map_app {A B} (f g : A -> list B) l : concat (List.map (fun x => f x ++ g x) l) ≡ₚ concat (List.map f l) ++ concat (List.map g l).
Proof.
  induction l as [|x l IH]; [done|]. cbn. rewrite IH, <- !app_assoc. apply Permutation_app_head. rewrite !app_assoc. apply Permutation_app_tail, Permutation_app_comm.
Qed.

Section order.
Context (events : list SessionEvent) (Hnd : NoDup (List.map ev_sequence events)).
Abbreviation ordered := (bySequence events).
Abbreviation prescan := (prescanTurnAnchors events).

Lemma ordered_nodup : NoDup (List.map ev_sequence ordered).
Proof using Hnd. unfold bySequence. by rewrite (Permutation_map _ (sort_by_perm ev_sequence events)). Qed.

Lemma same_sequence x y : x ∈ ordered -> y ∈ ordered -> ev_sequence x = ev_sequence y -> x = y.
Proof using Hnd.
  intros [i Hi]%list_elem_of_lookup [j Hj]%list_elem_of_lookup Heq. assert (i = j) as ->; [|congruence].
  eapply (NoDup_lookup _ _ _ (ev_sequence x) ordered_nodup); rewrite list_lookup_fmap; [by rewrite Hi|by rewrite Hj; cbn; rewrite Heq].
Qed.

Lemma ordered_sorted : StronglySorted (fun x y => ev_sequence x < ev_sequence y) ordered.
Proof using Hnd.
  pose proof (sort_by_sorted ev_sequence events) as Hs. pose proof ordered_nodup as Hn. unfold bySequence in *.
  induction Hs as [|x l Hs IH Hx]; constructor; cbn [List.map] in Hn; apply NoDup_cons in Hn as [Hnx Hn]; [by apply IH|].
  apply Forall_forall. intros y Hy. pose proof (proj1 (Forall_forall _ _) Hx y Hy) as Hle. unfold key_le in Hle. cbn in *.
  assert (ev_sequence x <> ev_sequence y); [|lia]. intros E. apply Hnx. rewrite E. by apply list_elem_of_In, in_map, list_elem_of_In.
Qed.

(** Every anchor is the sequence of an event. *)
Lemma anchored e n : e ∈ ordered -> anchorOf prescan e = AtSequence n -> exists x, x ∈ ordered /\ ev_sequence x = n.
Proof using.
  intros He H. apply anchorOf_sequence in H as [->|[(x & Hx & Hn & _)|(t & x & Hx & Hn & _)]]; eauto.
Qed.

Definition anchorSequence (e : SessionEvent) : option Z :=
  if isUserMessage e then match anchorOf prescan e with AtSequence n => Some n | _ => None end else None.
Definition isPending (e : SessionEvent) : bool := isUserMessage e && match anchorOf prescan e with Pending => true | _ => false end.
Definition isWithdrawn (e : SessionEvent) : bool := isUserMessage e && match anchorOf prescan e with Withdrawn => true | _ => false end.

Lemma insertionsAt_bucket n : insertionsAt prescan ordered n = List.map (fun e => (e, false)) (List.filter (fun e => bool_decide (anchorSequence e = Some n)) ordered).
Proof using.
  unfold insertionsAt. f_equal. apply filter_ext. intros e. unfold anchorSequence. destruct (isUserMessage e); [|done]. cbn [andb].
  destruct (anchorOf prescan e) as [m| |]; [|done|done]. destruct (m =? n) eqn:E; breflect; symmetry.
  - apply bool_decide_eq_true. congruence.
  - apply bool_decide_eq_false. congruence.
Qed.

Lemma insertions_perm : concat (List.map (fun e => insertionsAt prescan ordered (ev_sequence e)) ordered) ≡ₚ
  List.map (fun e => (e, false)) (List.filter (fun e => bool_decide (is_Some (anchorSequence e))) ordered).
Proof using Hnd.
  rewrite (map_ext _ _ (fun e => insertionsAt_bucket (ev_sequence e))).
  rewrite <- (List.map_map (fun e => List.filter (fun x => bool_decide (anchorSequence x = Some (ev_sequence e))) ordered) (List.map (fun e => (e, false)))).
  rewrite <- concat_map. apply Permutation_map.
  rewrite <- (deal_perm anchorSequence (List.map ev_sequence ordered) ordered ordered_nodup); [by rewrite List.map_map|].
  intros e n He Ha. unfold anchorSequence in Ha. destruct (isUserMessage e); [|done]. destruct (anchorOf prescan e) eqn:E; try done. injection Ha as ->.
  destruct (anchored e n He E) as (x & Hx & <-). by apply list_elem_of_In, in_map, list_elem_of_In.
Qed.

Lemma others_kept (l : list SessionEvent) : concat (List.map (fun e => if isUserMessage e then [] else [(e, false)]) l) =
  List.map (fun e => (e, false)) (List.filter (fun e => negb (isUserMessage e)) l).
Proof using. induction l as [|e l IH]; [done|]. cbn. rewrite IH. by destruct (isUserMessage e). Qed.
End order.

Lemma filter_partition {A} (p q r : A -> bool) l : (forall x, r x = p x || q x) -> (forall x, p x = true -> q x = false) ->
  List.filter r l ≡ₚ List.filter p l ++ List.filter q l.
Proof.
  intros Hr Hd. induction l as [|x l IH]; [done|]. cbn. rewrite (Hr x). specialize (Hd x).
  destruct (p x), (q x); cbn [orb app]; rewrite ?IH; try done; [discriminate (Hd eq_refl)|]. apply Permutation_middle.
Qed.

Lemma insert_by_head {A} (key : A -> Z) x l : Forall (fun y => key x <= key y) l -> insert_by key x l = x :: l.
Proof. destruct 1 as [|y l H _]; [done|]. cbn. by rewrite (proj2 (Z.leb_le _ _) H). Qed.

(** Sorting is stable: it commutes with filters. *)
Lemma sort_by_filter {A} (key : A -> Z) p l : sort_by key (List.filter p l) = List.filter p (sort_by key l).
Proof.
  assert (Hins : forall x l, StronglySorted (key_le key) l -> List.filter p (insert_by key x l) = if p x then insert_by key x (List.filter p l) else List.filter p l).
  { intros x k H. induction H as [|y k Hs IH Hy]; cbn; [by destruct (p x)|].
    destruct (key x <=? key y) eqn:E; breflect.
    - assert (Hall : Forall (fun z => key x <= key z) (List.filter p (y :: k))).
      { apply Forall_forall. intros z [[->|Hz]%elem_of_cons _]%elem_filter; [done|]. pose proof (proj1 (Forall_forall _ _) Hy z Hz) as H. unfold key_le in H. lia. }
      cbn [List.filter] in *. destruct (p x); [|done]. by rewrite insert_by_head.
    - cbn [List.filter]. rewrite IH. destruct (p x), (p y); cbn; try done. by rewrite (proj2 (Z.leb_gt _ _) E). }
  induction l as [|x l IH]; [done|]. cbn. rewrite Hins by apply sort_by_sorted. rewrite <- IH. by destruct (p x).
Qed.

Lemma Permutation_eq {A} (l k : list A) : l = k -> l ≡ₚ k.
Proof. by intros ->. Qed.

Definition placed (events : list SessionEvent) (e : SessionEvent) : list TimelineEvent :=
  insertionsAt (prescanTurnAnchors events) (bySequence events) (ev_sequence e) ++ (if isUserMessage e then [] else [(e, false)]).

Lemma insertions_user prescan l n : Forall (fun te => isUserMessage te.1 = true) (insertionsAt prescan l n).
Proof. apply Forall_forall. intros te (e & -> & [_ [He _]%andb_true_iff]%elem_filter)%list_elem_of_fmap. done. Qed.
Lemma pending_user prescan l : Forall (fun te => isUserMessage te.1 = true) (pendingMessages prescan l).
Proof. apply Forall_forall. intros te (e & -> & [_ [He _]%andb_true_iff]%elem_filter)%list_elem_of_fmap. done. Qed.

Lemma filter_user (l : list TimelineEvent) : Forall (fun te => isUserMessage te.1 = true) l -> List.filter (fun te => negb (isUserMessage te.1)) l = [].
Proof. intros H. apply filter_none. eapply Forall_impl; [exact H|]. intros te Ht. cbn in Ht. by rewrite Ht. Qed.

Lemma placed_others events l : List.map fst (List.filter (fun te => negb (isUserMessage te.1)) (concat (List.map (placed events) l))) =
  List.filter (fun e => negb (isUserMessage e)) l.
Proof.
  induction l as [|e l IH]; [done|]. cbn [List.map concat]. rewrite List.filter_app, List.map_app, IH. unfold placed. rewrite List.filter_app, List.map_app.
  rewrite (filter_user (insertionsAt _ _ _)) by apply insertions_user. cbn [List.map app List.filter]. by destruct (isUserMessage e) eqn:E; cbn; rewrite ?E.
Qed.

(** (C30) The order of the timeline, for events of distinct sequences in any
    order.  Where a message goes is read off the log ([standing]): one never
    queued stays at its own place; one queued goes to the start of the turn its
    newest queueing names (the newest start that names the message, or else the
    first event of that turn); without a start it is withdrawn if that turn was
    cancelled or drained, and pending otherwise.  Then every event appears
    exactly once, except the withdrawn messages; exactly the pending messages are
    marked so; all other events keep their sequence order; and a message stands
    directly before the event it goes to, other messages there aside. *)
Theorem order_exact events : NoDup (List.map ev_sequence events) ->
  let projected := orderTimelineEvents events (prescanTurnAnchors events) in
  exists verdict : SessionEvent -> Anchor, (forall e, standing events e (verdict e)) /\
  projected ≡ₚ List.map (fun e => (e, isUserMessage e && match verdict e with Pending => true | _ => false end))
                 (List.filter (fun e => negb (isUserMessage e && match verdict e with Withdrawn => true | _ => false end)) events) /\
  List.map fst (List.filter (fun te => negb (isUserMessage te.1)) projected) = bySequence (List.filter (fun e => negb (isUserMessage e)) events) /\
  forall e x, e ∈ events -> isUserMessage e = true -> verdict e = AtSequence (ev_sequence x) -> x ∈ events -> isUserMessage x = false ->
    exists A M B, projected = A ++ (e, false) :: M ++ (x, false) :: B /\ Forall (fun te => isUserMessage te.1 = true) M.
Proof.
  intros Hnd projected. set (prescan := prescanTurnAnchors events) in *. exists (anchorOf prescan). unfold projected, orderTimelineEvents. split_and!; [apply message_stands|..].
  all: fold (isPending events) (isWithdrawn events).
  - fold (placed events).
    rewrite (concat_map_app (fun e => insertionsAt prescan (bySequence events) (ev_sequence e)) (fun e => if isUserMessage e then [] else [(e, false)])).
    unfold prescan. rewrite (insertions_perm events Hnd), others_kept. unfold pendingMessages. fold (isPending events).
    transitivity (List.map (fun e => (e, isPending events e)) (List.filter (fun e => negb (isWithdrawn events e)) (bySequence events))).
    2: { apply Permutation_map. unfold bySequence. by rewrite sort_by_perm. }
    assert (Hsplit : List.filter (fun e => negb (isWithdrawn events e)) (bySequence events) ≡ₚ
      (List.filter (fun e => bool_decide (is_Some (anchorSequence events e))) (bySequence events) ++ List.filter (fun e => negb (isUserMessage e)) (bySequence events)) ++
      List.filter (isPending events) (bySequence events)).
    { rewrite <- (filter_partition _ _ (fun e => bool_decide (is_Some (anchorSequence events e)) || negb (isUserMessage e))); [|done|].
      - apply filter_partition; intros e; unfold isWithdrawn, isPending, anchorSequence; destruct (isUserMessage e), (anchorOf _ e); done.
      - intros e. unfold anchorSequence. by destruct (isUserMessage e). }
    rewrite Hsplit, !List.map_app. apply Permutation_app; [apply Permutation_app|]; apply Permutation_eq, map_ext_in.
    all: intros e [He Hp]%list_elem_of_In%elem_filter; unfold isPending, anchorSequence in *; destruct (isUserMessage e), (anchorOf _ e); try done.
    all: breflect; by destruct Hp.
  - rewrite List.filter_app, List.map_app, (filter_user (pendingMessages _ _)) by apply pending_user. cbn [List.map]. rewrite app_nil_r.
    unfold bySequence at 3. rewrite sort_by_filter. apply placed_others.
  - intros e x He Hu Ha Hx Hxu. destruct (list_elem_of_split (bySequence events) x) as (A0 & B0 & E); [by apply elem_of_sort_by|].
    assert (Hin : (e, false) ∈ insertionsAt prescan (bySequence events) (ev_sequence x)).
    { apply list_elem_of_fmap. exists e. split; [done|]. apply elem_filter. split; [by apply elem_of_sort_by|]. rewrite Hu, Ha. by apply Z.eqb_eq. }
    destruct (list_elem_of_split _ _ Hin) as (I1 & I2 & EI). pose proof (insertions_user prescan (bySequence events) (ev_sequence x)) as HF. rewrite EI in HF.
    apply Forall_app in HF as [_ [_ HF]%Forall_cons]. assert (Hpl : concat (List.map (placed events) (bySequence events)) =
      concat (List.map (placed events) A0) ++ (I1 ++ (e, false) :: I2) ++ [(x, false)] ++ concat (List.map (placed events) B0)).
    { rewrite E at 1. rewrite List.map_app, concat_app. cbn [List.map concat]. unfold placed at 2. rewrite Hxu. fold prescan. by rewrite EI, <- !app_assoc. }
    change (exists A M B, concat (List.map (placed events) (bySequence events)) ++ pendingMessages prescan (bySequence events) =
      A ++ (e, false) :: M ++ (x, false) :: B /\ Forall (fun te => isUserMessage te.1 = true) M).
    rewrite Hpl. exists (concat (List.map (placed events) A0) ++ I1), I2, (concat (List.map (placed events) B0) ++ pendingMessages prescan (bySequence events)).
    split; [|done]. by repeat (rewrite <- app_assoc; cbn [app]).
Qed.

(** ** Compacted pages *)

(** What the projection reads of a delta. *)
Record reads_as (e e' : SessionEvent) (text : jstr) : Prop := {
  ra_id : ev_id e' = ev_id e;
  ra_sequence : ev_sequence e' = ev_sequence e;
  ra_type : ev_type e' = ev_type e;
  ra_turn : ev_turnId e' = ev_turnId e;
  ra_occurredAt : ev_occurredAt e' = ev_occurredAt e;
  ra_text : deltaText e' = text;
  ra_name : sandboxField "name" e' = sandboxField "name" e
}.

Lemma delta_cases e : isCoalescibleDelta e = true ->
  ev_type e = "agent.message.delta"%string \/ ev_type e = "agent.reasoning.delta"%string \/ ev_type e = "sandbox.command.output.delta"%string.
Proof. unfold isCoalescibleDelta. intros H%bool_decide_eq_true. unfold COALESCIBLE_DELTA_TYPES in H. set_solver. Qed.

Lemma setFirst_twice {A} (p : A -> bool) f g (l : list A) : (forall x, p (f x) = p x) -> setFirst p g (setFirst p f l) = setFirst p (fun x => g (f x)) l.
Proof. intros H. induction l as [|x l IH]; [done|]. cbn. destruct (p x) eqn:E; cbn; rewrite ?H, E; [done|]. by rewrite IH. Qed.
Lemma setFirst_ext {A} (p : A -> bool) f g (l : list A) : (forall x, p x = true -> f x = g x) -> setFirst p f l = setFirst p g l.
Proof. intros H. induction l as [|x l IH]; [done|]. cbn. destruct (p x) eqn:E; [by rewrite H|by rewrite IH]. Qed.
Lemma existsb_setFirst {A} (p q : A -> bool) f (l : list A) : (forall x, p (f x) = p x) -> existsb p (setFirst q f l) = existsb p l.
Proof. intros H. induction l as [|x l IH]; [done|]. cbn. destruct (q x); cbn; [by rewrite H|by rewrite IH]. Qed.

Lemma open_addOutput name t i : openSandbox name (addOutput t i) = openSandbox name i.
Proof. by destruct i. Qed.
Lemma running_addOutput t i : runningSandbox (addOutput t i) = runningSandbox i.
Proof. by destruct i. Qed.

(** The output of two chunks is that of their concatenation. *)
Lemma output_twice (name : option jstr) t u items :
  let owner := fun l => match name with Some n => if existsb (openSandbox n) l then openSandbox n else runningSandbox | None => runningSandbox end in
  setFirst (owner (setFirst (owner items) (addOutput t) items)) (addOutput u) (setFirst (owner items) (addOutput t) items) =
  setFirst (owner items) (addOutput (t ++ u)) items.
Proof.
  intros owner. assert (Ho : owner (setFirst (owner items) (addOutput t) items) = owner items).
  { unfold owner. destruct name as [n|]; [|done]. rewrite existsb_setFirst; [done|]. intros x. apply open_addOutput. }
  rewrite Ho, setFirst_twice.
  - apply setFirst_ext. intros [] _; cbn; try done. by rewrite <- app_assoc.
  - intros x. unfold owner. destruct name as [n|]; [destruct (existsb _ _)|]; apply open_addOutput || apply running_addOutput.
Qed.
Lemma output_none owner items : setFirst owner (addOutput []) items = items.
Proof. induction items as [|x l IH]; [done|]. cbn. destruct (owner x); [|by rewrite IH]. destruct x as [| | | | | |b| | | | | |]; cbn; try done. rewrite app_nil_r. by destruct b. Qed.

Section json_text.
Lemma project_message prescan items e b : ev_type e = "agent.message.delta"%string -> project prescan items (e, b) = onMessageDelta e items.
Proof. intros E. unfold project. cbn [fst]. by rewrite E. Qed.
Lemma project_reasoning prescan items e b : ev_type e = "agent.reasoning.delta"%string -> project prescan items (e, b) = onReasoningDelta e items.
Proof. intros E. unfold project. cbn [fst]. by rewrite E. Qed.
Lemma project_output prescan items e b : ev_type e = "sandbox.command.output.delta"%string ->
  project prescan items (e, b) =
  setFirst (match sandboxField "name" e with Some n => if existsb (openSandbox n) items then openSandbox n else runningSandbox | None => runningSandbox end)
    (addOutput (deltaText e)) items.
Proof.
  intros E. unfold project. cbn [fst]. rewrite E. change (onCommandOutput e items = setFirst (match sandboxField "name" e with Some n => if existsb (openSandbox n) items then openSandbox n else runningSandbox | None => runningSandbox end)
    (addOutput (deltaText e)) items). unfold onCommandOutput, sandboxField, deltaText, isSandbox. rewrite E. cbn [String.eqb Ascii.eqb Bool.eqb].
  change (commandText (ev_payload e)) with (match field "chunk" (ev_payload e), field "text" (ev_payload e), field "output" (ev_payload e) with
    | Some t, _, _ => t | None, Some t, _ => t | None, None, Some t => t | None, None, None => [] end).
  destruct (match field "chunk" (ev_payload e) with Some _ => _ | None => _ end) as [|c l]; [by rewrite output_none|done].
Qed.

Lemma message_text e : ev_type e = "agent.message.delta"%string -> str "text" e = deltaText e.
Proof. intros E. unfold deltaText, isSandbox. by rewrite E. Qed.
Lemma reasoning_text e : ev_type e = "agent.reasoning.delta"%string -> reasoningText (ev_payload e) = deltaText e.
Proof. intros E. unfold deltaText. by rewrite E. Qed.

(** A streamed item takes the text of the delta that follows. *)
Lemma stream_merge kind wrap t1 t2 e1 e2 e12 items text : (forall m, kind (wrap m) = Some m) -> t1 <> [] -> ev_turnId e1 = ev_turnId e2 ->
  reads_as e1 e12 text -> streamDelta kind wrap t2 e2 (streamDelta kind wrap t1 e1 items) = streamDelta kind wrap (t1 ++ t2) e12 items.
Proof.
  intros Hk Ht Htu [Hid _ _ Htu' Hocc _ _].
  assert (Happ : forall m rest, extends (ev_turnId e1) m = true ->
    streamDelta kind wrap t2 e2 (wrap (append t1 m) :: rest) = wrap (append (t1 ++ t2) m) :: rest).
  { intros m rest Hx. unfold streamDelta. destruct t2 as [|c t2]; [by rewrite app_nil_r|]. cbn [head mbind option_bind]. rewrite Hk, <- Htu.
    change (extends (ev_turnId e1) (append t1 m)) with (extends (ev_turnId e1) m). rewrite Hx. do 2 f_equal. unfold append. cbn. by rewrite <- app_assoc. }
  assert (Hnew : forall rest, streamDelta kind wrap t2 e2 (wrap (newStreamed e1 t1 true) :: rest) = wrap (newStreamed e12 (t1 ++ t2) true) :: rest).
  { intros rest. change (newStreamed e1 t1 true) with (append t1 (newStreamed e1 [] true)). rewrite Happ.
    - unfold newStreamed, append. cbn. by rewrite Hid, Htu', Hocc.
    - unfold extends. cbn. by apply bool_decide_eq_true. }
  unfold streamDelta at 2 3. rewrite Htu'. destruct t1 as [|c t1]; [done|]. cbn [app] in *.
  destruct items as [|i rest]; [apply Hnew|]. cbn [head mbind option_bind]. destruct (kind i) as [m|]; [|apply Hnew].
  destruct (extends (ev_turnId e1) m) eqn:Ex; [by apply Happ|apply Hnew].
Qed.

Lemma project_merge prescan items e1 e2 e12 b : isCoalescibleDelta e1 = true -> runKey e1 = runKey e2 -> (isSandbox e1 = false -> deltaText e1 <> []) ->
  reads_as e1 e12 (deltaText e1 ++ deltaText e2) -> project prescan (project prescan items (e1, b)) (e2, b) = project prescan items (e12, b).
Proof.
  intros Hd [= Hty Htu Hna _ _] Hne Hr. pose proof Hr as [_ _ Hty' _ _ Hte Hna'].
  destruct (delta_cases e1 Hd) as [E|[E|E]]; pose proof E as E2; rewrite Hty in E2; pose proof E as E12; rewrite <- Hty' in E12.
  - rewrite !project_message by done. unfold onMessageDelta. rewrite !message_text, Hte by done. eapply stream_merge; [done| |done|exact Hr].
    apply Hne. unfold isSandbox. by rewrite E.
  - rewrite !project_reasoning by done. unfold onReasoningDelta. rewrite !reasoning_text, Hte by done. eapply stream_merge; [done| |done|exact Hr].
    apply Hne. unfold isSandbox. by rewrite E.
  - rewrite !project_output, Hte, Hna', <- Hna by done. apply (output_twice (sandboxField "name" e1)).
Qed.

Lemma project_alike prescan items e e' b : isCoalescibleDelta e = true -> reads_as e e' (deltaText e) -> project prescan items (e', b) = project prescan items (e, b).
Proof.
  intros Hd [Hid _ Hty Htu Hocc Hte Hna].
  destruct (delta_cases e Hd) as [E|[E|E]]; pose proof E as E'; rewrite <- Hty in E'.
  - rewrite !project_message by done. unfold onMessageDelta, streamDelta, newStreamed. by rewrite !message_text, Hte, Hid, Htu, Hocc.
  - rewrite !project_reasoning by done. unfold onReasoningDelta, streamDelta, newStreamed. by rewrite !reasoning_text, Hte, Hid, Htu, Hocc.
  - by rewrite !project_output, Hte, Hna.
Qed.
End json_text.

(** The first pass does not read the text of a delta. *)
Lemma scan_delta s e : isCoalescibleDelta e = true -> scanEvent s e = (scanFallback e s) <| startedTurnIds ::= addTurn (turnIdOf e) |>.
Proof. intros Hd. unfold scanEvent, scanType. by destruct (delta_cases e Hd) as [E|[E|E]]; rewrite E. Qed.

Lemma scan_alike s e e' text : isCoalescibleDelta e = true -> reads_as e e' text -> scanEvent s e' = scanEvent s e.
Proof.
  intros Hd [_ Hseq Hty Htu _ _ _]. assert (isCoalescibleDelta e' = true) as Hd' by (unfold isCoalescibleDelta in *; by rewrite Hty).
  rewrite !scan_delta by done. unfold scanFallback, turnIdOf. by rewrite Hseq, Hty, Htu.
Qed.

Lemma addTurn_twice t s : addTurn t (addTurn t s) = addTurn t s.
Proof. destruct t; cbn; [|done]. apply set_eq. set_solver. Qed.

Lemma scan_merge s e1 e2 : isCoalescibleDelta e1 = true -> runKey e1 = runKey e2 -> ev_sequence e1 < ev_sequence e2 -> scanEvent (scanEvent s e1) e2 = scanEvent s e1.
Proof.
  intros Hd [= Hty Htu _ _ _] Hlt. assert (isCoalescibleDelta e2 = true) as Hd2 by (unfold isCoalescibleDelta in *; by rewrite <- Hty).
  rewrite !scan_delta by done. assert (turnIdOf e2 = turnIdOf e1) as Ht by (unfold turnIdOf; by rewrite Htu). rewrite Ht.
  set (s1 := setWith startedTurnIds _ (scanFallback e1 s)).
  assert (scanFallback e2 s1 = s1) as ->.
  { unfold scanFallback at 1. rewrite Ht. destruct (turnIdOf e1) as [t|] eqn:Et; [|done]. rewrite <- Hty. destruct (_ || _) eqn:Eo; [done|].
    apply orb_false_iff in Eo as [E1%String.eqb_neq E2%String.eqb_neq].
    destruct (scanFallback_le e1 s t) as (n & Hn & Hle); [done|]. change (fallbackSeqByTurn s1) with (fallbackSeqByTurn (scanFallback e1 s)). rewrite Hn.
    by rewrite (proj2 (Z.ltb_ge _ _)) by lia. }
  unfold s1, setWith. cbn. by rewrite addTurn_twice.
Qed.

(** A page of the log: its sequences increase. *)
Abbreviation increasing l := (StronglySorted (fun x y => ev_sequence x < ev_sequence y) l).

Lemma increasing_nodup l : increasing l -> NoDup (List.map ev_sequence l).
Proof.
  induction 1 as [|x l Hs IH Hx]; [constructor|]. cbn. constructor; [|done]. intros (y & Hy & Hin%list_elem_of_In)%list_elem_of_In%in_map_iff.
  pose proof (proj1 (Forall_forall _ _) Hx y Hin). cbn in *. lia.
Qed.
Lemma increasing_ordered l : increasing l -> bySequence l = l.
Proof.
  intros H. apply sort_by_id. induction H as [|x l Hs IH Hx]; constructor; [done|]. eapply Forall_impl; [exact Hx|]. intros y Hy. unfold key_le. cbn in Hy. lia.
Qed.
Lemma increasing_app l1 l2 : increasing (l1 ++ l2) <-> increasing l1 /\ increasing l2 /\ forall x y, x ∈ l1 -> y ∈ l2 -> ev_sequence x < ev_sequence y.
Proof.
  induction l1 as [|x l1 IH]; cbn.
  - split; [intros H; split_and!; [constructor|done|by intros ? ? ?%elem_of_nil]|by intros (_ & ? & _)].
  - split.
    + intros [H Hx]%StronglySorted_inv. apply IH in H as (H1 & H2 & H3). apply Forall_app in Hx as [Hx1 Hx2]. split_and!; [by constructor|done|].
      intros y z [->|Hy]%elem_of_cons Hz; [by apply (proj1 (Forall_forall _ _) Hx2 z)|by apply H3].
    + intros ([H1 Hx]%StronglySorted_inv & H2 & H3). constructor; [apply IH; split_and!; [done..|]; intros y z Hy; apply H3; by right|].
      apply Forall_app. split; [done|]. apply Forall_forall. intros z Hz. apply H3; [left|done].
Qed.

Lemma delta_not_user e : isCoalescibleDelta e = true -> isUserMessage e = false.
Proof. intros Hd. unfold isUserMessage. by destruct (delta_cases e Hd) as [E|[E|E]]; rewrite E. Qed.

Lemma delta_opens e t : isCoalescibleDelta e = true -> turnIdOf e = Some t -> opensTurn t e.
Proof. intros Hd Ht. by destruct (delta_cases e Hd) as [E|[E|E]]; split_and!; rewrite ?E. Qed.

Lemma filter_skip {A} (p : A -> bool) l1 l2 l3 : Forall (fun x => p x = false) l2 -> List.filter p (l1 ++ l2 ++ l3) = List.filter p (l1 ++ l3).
Proof. intros H. rewrite !List.filter_app. by rewrite (filter_none p l2 H). Qed.

Lemma insertions_skip prescan pre ds post n : Forall (fun e => isUserMessage e = false) ds ->
  insertionsAt prescan (pre ++ ds ++ post) n = insertionsAt prescan (pre ++ post) n /\
  pendingMessages prescan (pre ++ ds ++ post) = pendingMessages prescan (pre ++ post).
Proof.
  intros H. unfold insertionsAt, pendingMessages. split; f_equal; apply filter_skip; eapply Forall_impl; try exact H; intros e He; cbn in He; by rewrite He.
Qed.

(** No message is anchored inside a run. *)
Lemma no_insertion pre e1 e2 post : increasing (pre ++ e1 :: e2 :: post) -> isCoalescibleDelta e1 = true -> runKey e1 = runKey e2 ->
  let l := pre ++ e1 :: e2 :: post in insertionsAt (anchors (fold_left scanEvent l emptyScan)) l (ev_sequence e2) = [].
Proof.
  intros Hs Hd [= Hty Htu _ _ _] l. unfold insertionsAt. rewrite filter_none; [done|]. apply Forall_forall. intros u Hu. apply not_true_iff_false.
  intros [Hum Ha]%andb_true_iff. destruct (anchorOf _ u) as [n| |] eqn:E; try done. apply Z.eqb_eq in Ha as ->.
  assert (isCoalescibleDelta e2 = true) as Hd2 by (unfold isCoalescibleDelta in *; by rewrite <- Hty).
  assert (He1 : e1 ∈ l) by (apply elem_of_app; right; left). assert (He2 : e2 ∈ l) by (apply elem_of_app; right; right; left).
  assert (Huniq : forall x, x ∈ l -> ev_sequence x = ev_sequence e2 -> x = e2).
  { intros x Hx Hseq. apply (same_sequence l (increasing_nodup l Hs)); [by rewrite increasing_ordered..|done]. }
  assert (Hlt : ev_sequence e1 < ev_sequence e2).
  { apply increasing_app in Hs as (_ & [_ Hs]%StronglySorted_inv & _). by apply Forall_cons in Hs as [Hs _]. }
  apply anchorOf_sequence in E as [E|[(x & Hx & Hn & Ht)|(t & x & Hx & Hn & Ho & Hfirst)]].
  - rewrite (Huniq u Hu) in Hum by done. by rewrite delta_not_user in Hum.
  - rewrite (Huniq x Hx Hn) in Ht. by destruct (delta_cases e2 Hd2) as [E|[E|E]]; rewrite E in Ht.
  - rewrite (Huniq x Hx Hn) in Ho. destruct Ho as (Ho & _). assert (opensTurn t e1) as Ho1 by (apply delta_opens; [done|]; unfold turnIdOf in *; by rewrite Htu).
    specialize (Hfirst e1 He1 Ho1). lia.
Qed.

Section json_text.
Definition render (ordered : list SessionEvent) (prescan : TurnAnchorPrescan) (at_ : Z -> list TimelineEvent) (pending : list TimelineEvent) : list TimelineItem :=
  rev (fold_left (project prescan) (concat (List.map (fun e => at_ (ev_sequence e) ++ (if isUserMessage e then [] else [(e, false)])) ordered) ++ pending) []).

Lemma build_render l : increasing l -> buildTimeline l =
  render l (anchors (fold_left scanEvent l emptyScan)) (insertionsAt (anchors (fold_left scanEvent l emptyScan)) l)
    (pendingMessages (anchors (fold_left scanEvent l emptyScan)) l).
Proof. intros Hs. unfold buildTimeline, orderTimelineEvents, prescanTurnAnchors, render. by rewrite increasing_ordered. Qed.

(** Two neighbours of one run render as the one event that reads like both. *)
Lemma build_merge pre e1 e2 e12 post : increasing (pre ++ e1 :: e2 :: post) -> isCoalescibleDelta e1 = true -> runKey e1 = runKey e2 ->
  (isSandbox e1 = false -> deltaText e1 <> []) -> reads_as e1 e12 (deltaText e1 ++ deltaText e2) ->
  buildTimeline (pre ++ e12 :: post) = buildTimeline (pre ++ e1 :: e2 :: post) /\ increasing (pre ++ e12 :: post).
Proof.
  intros Hs Hd Hk Hne Hr. pose proof Hr as [_ Hseq Hty _ _ _ _]. pose proof Hk as [= Hty2 _ _ _ _].
  assert (Hs' : increasing (pre ++ e12 :: post)).
  { apply increasing_app in Hs as (H1 & [[H2 H2']%StronglySorted_inv H3]%StronglySorted_inv & H4). apply increasing_app. split_and!; [done| |].
    - constructor; [done|]. apply Forall_cons in H3 as [_ H3]. eapply Forall_impl; [exact H3|]. intros x. cbn. by rewrite Hseq.
    - intros x y Hx [->|Hy]%elem_of_cons; [rewrite Hseq; apply H4; [done|left]|apply H4; [done|by right; right]]. }
  split; [|done]. rewrite !build_render by done. pose proof (no_insertion pre e1 e2 post Hs Hd Hk) as Hno. cbv zeta in Hno.
  assert (Hu1 : isUserMessage e1 = false) by by apply delta_not_user.
  assert (Hu2 : isUserMessage e2 = false) by (unfold isUserMessage in *; by rewrite <- Hty2).
  assert (Hu12 : isUserMessage e12 = false) by (unfold isUserMessage in *; by rewrite Hty).
  assert (Hscan : fold_left scanEvent (pre ++ e12 :: post) emptyScan = fold_left scanEvent (pre ++ e1 :: e2 :: post) emptyScan).
  { rewrite !fold_left_app. cbn [fold_left]. rewrite scan_merge, (scan_alike _ e1 e12 _ Hd Hr); [done|done|done|].
    apply increasing_app in Hs as (_ & [_ Hs]%StronglySorted_inv & _). by apply Forall_cons in Hs as [Hs _]. }
  rewrite Hscan. set (P := anchors _) in *.
  destruct (insertions_skip P pre [e12] post 0) as [_ Hp12]; [by repeat constructor|].
  destruct (insertions_skip P pre [e1; e2] post 0) as [_ Hp1]; [by repeat constructor|]. cbn [app] in *.
  rewrite Hp12, Hp1. rewrite <- Hp1.
  assert (Hat : forall n, insertionsAt P (pre ++ e12 :: post) n = insertionsAt P (pre ++ e1 :: e2 :: post) n).
  { intros n. destruct (insertions_skip P pre [e12] post n) as [H12 _]; [by repeat constructor|].
    destruct (insertions_skip P pre [e1; e2] post n) as [H1 _]; [by repeat constructor|]. cbn [app] in *. by rewrite H12, H1. }
  unfold render. rewrite (map_ext (fun e => insertionsAt P (pre ++ e12 :: post) (ev_sequence e) ++ _) (fun e => insertionsAt P (pre ++ e1 :: e2 :: post) (ev_sequence e) ++ (if isUserMessage e then [] else [(e, false)])))
    by (intros e; by rewrite Hat).
  f_equal. rewrite !List.map_app, !concat_app. cbn [List.map concat]. rewrite Hu1, Hu2, Hu12, Hno, Hseq. cbn [app].
  rewrite !fold_left_app. cbn [fold_left]. by rewrite (project_merge P _ e1 e2 e12).
Qed.

Lemma build_alike pre e e' post : increasing (pre ++ e :: post) -> isCoalescibleDelta e = true -> reads_as e e' (deltaText e) ->
  buildTimeline (pre ++ e' :: post) = buildTimeline (pre ++ e :: post) /\ increasing (pre ++ e' :: post).
Proof.
  intros Hs Hd Hr. pose proof Hr as [_ Hseq Hty _ _ _ _].
  assert (Hs' : increasing (pre ++ e' :: post)).
  { apply increasing_app in Hs as (H1 & [H2 H3]%StronglySorted_inv & H4). apply increasing_app. split_and!; [done| |].
    - constructor; [done|]. eapply Forall_impl; [exact H3|]. intros x. cbn. by rewrite Hseq.
    - intros x y Hx [->|Hy]%elem_of_cons; [rewrite Hseq; apply H4; [done|left]|apply H4; [done|by right]]. }
  split; [|done]. rewrite !build_render by done.
  assert (Hu : isUserMessage e = false) by by apply delta_not_user.
  assert (Hu' : isUserMessage e' = false) by (unfold isUserMessage in *; by rewrite Hty).
  assert (Hscan : fold_left scanEvent (pre ++ e' :: post) emptyScan = fold_left scanEvent (pre ++ e :: post) emptyScan).
  { rewrite !fold_left_app. cbn [fold_left]. by rewrite (scan_alike _ e e' _ Hd Hr). }
  rewrite Hscan. set (P := anchors _) in *.
  assert (Hat : forall n, insertionsAt P (pre ++ e' :: post) n = insertionsAt P (pre ++ e :: post) n /\ pendingMessages P (pre ++ e' :: post) = pendingMessages P (pre ++ e :: post)).
  { intros n. destruct (insertions_skip P pre [e'] post n) as [H1 H2]; [by repeat constructor|].
    destruct (insertions_skip P pre [e] post n) as [H3 H4]; [by repeat constructor|]. cbn [app] in *. by rewrite H1, H2, H3, H4. }
  unfold render. rewrite (map_ext (fun x => insertionsAt P (pre ++ e' :: post) (ev_sequence x) ++ _) (fun x => insertionsAt P (pre ++ e :: post) (ev_sequence x) ++ (if isUserMessage x then [] else [(x, false)])))
    by (intros x; by rewrite (proj1 (Hat _))).
  rewrite (proj2 (Hat 0)).
  f_equal. rewrite !List.map_app, !concat_app. cbn [List.map concat]. rewrite Hu, Hu', Hseq. cbn [app].
  rewrite !fold_left_app. cbn [fold_left]. by rewrite (project_alike P _ e e').
Qed.

Definition voiced (e : SessionEvent) : Prop := isCoalescibleDelta e = true -> isSandbox e = false -> deltaText e <> [].

Lemma run_reads r e : run_ok r -> ev_id e = ev_id (first r) -> ev_sequence e = ev_sequence (first r) -> ev_type e = ev_type (first r) ->
  ev_turnId e = ev_turnId (first r) -> ev_occurredAt e = ev_occurredAt (first r) -> sandboxField "name" e = sandboxField "name" (first r) ->
  reads_as e (runEvent r) (text r).
Proof.
  intros Hr H1 H2 H3 H4 H5 H6. destruct (runEvent_reads r Hr) as (_ & Hk & Ht & _ & _). injection Hk as Hn _ _.
  split; try done. by rewrite Hn, H6.
Qed.

Lemma coalesce_renders events : forall run pre,
  match run with Some r => run_ok r /\ (isSandbox (first r) = false -> text r <> []) | None => True end ->
  increasing (pre ++ flush run ++ events) -> Forall voiced events ->
  buildTimeline (pre ++ coalesceFrom run events) = buildTimeline (pre ++ flush run ++ events).
Proof.
  induction events as [|e events IH]; intros run pre Hrun Hs Hv; cbn [coalesceFrom]; [by rewrite app_nil_r|].
  apply Forall_cons in Hv as [He Hv]. destruct (isCoalescibleDelta e) eqn:Ed; cbn [negb].
  - assert (Hstart : run_ok (startRun e) /\ (isSandbox (first (startRun e)) = false -> text (startRun e) <> [])).
    { split; [by apply startRun_ok|]. intros Hsb. by apply He. }
    assert (Halone : forall pre', increasing (pre' ++ e :: events) -> buildTimeline (pre' ++ coalesceFrom (Some (startRun e)) events) = buildTimeline (pre' ++ e :: events)).
    { intros pre' Hs'. destruct (build_alike pre' e (runEvent (startRun e)) events Hs' Ed) as [E Hs2]; [by apply run_reads; [apply Hstart|..]|].
      rewrite (IH (Some (startRun e)) pre'); [|done|exact Hs2|done]. exact E. }
    destruct run as [r|]; [|by apply Halone]. destruct Hrun as [Hr Hne]. cbn [flush app] in *. destruct (joins r e) eqn:Ej.
    + apply joins_key in Ej; [|done]. destruct (runEvent_reads r Hr) as (Hd & Hk & Ht & _).
      destruct (build_merge pre (runEvent r) e (runEvent (extendRun r e)) events) as [E Hs2].
      * exact Hs.
      * exact Hd.
      * congruence.
      * intros Hsb. rewrite Ht. by apply Hne.
      * rewrite Ht. apply (run_reads (extendRun r e) (runEvent r)); try done; [by apply extendRun_ok|]. by injection Hk as Hn _ _.
      * rewrite (IH (Some (extendRun r e)) pre); [exact E| |exact Hs2|done]. split; [by apply extendRun_ok|]. cbn. intros Hsb [Hnil _]%app_eq_nil.
        by apply Hne.
    + replace (pre ++ runEvent r :: coalesceFrom (Some (startRun e)) events) with ((pre ++ [runEvent r]) ++ coalesceFrom (Some (startRun e)) events)
        by by rewrite <- app_assoc.
      rewrite Halone; by rewrite <- app_assoc.
  - replace (pre ++ flush run ++ e :: coalesceFrom None events) with ((pre ++ flush run ++ [e]) ++ coalesceFrom None events) by by rewrite <- !app_assoc.
    rewrite (IH None); [cbn [flush app]; by rewrite <- !app_assoc|done| |done]. cbn [flush app]. by rewrite <- !app_assoc.
Qed.

(** (C31) A compacted page renders as the page: the timeline of the coalesced
    events is the timeline of the events, item by item, ids included - for events
    in strictly increasing sequence none of whose message and reasoning deltas is
    the empty string.  An empty delta before the others of its run would lend the
    run its id and its time: [silent_head_renames] below. *)
Theorem coalesced_renders_same events : StronglySorted (fun x y => ev_sequence x < ev_sequence y) events -> Forall voiced events ->
  buildTimeline (coalesceSessionEventDeltas events) = buildTimeline events.
Proof. intros Hs Hv. by apply (coalesce_renders events None []). Qed.
End json_text.

(** ** Settled turns *)

(** An item may change its text or settle; it never starts again. *)
Definition came_from (i i' : TimelineItem) : Prop :=
  itemTurn i' = itemTurn i /\ (isStreaming i' = true -> isStreaming i = true) /\ (isRunning i' = true -> isRunning i = true).
Definition born_of (e : SessionEvent) (i : TimelineItem) : Prop :=
  (itemTurn i = None \/ itemTurn i = ev_turnId e) /\ (isStreaming i || isRunning i = true -> isAgentActivityEvent (ev_type e) = true).
Definition derived (e : SessionEvent) (items items' : list TimelineItem) : Prop :=
  forall i', i' ∈ items' -> (exists i, i ∈ items /\ came_from i i') \/ born_of e i'.

Lemma came_from_refl i : came_from i i.
Proof. done. Qed.
Lemma derived_refl e items : derived e items items.
Proof. intros i Hi. left. by exists i. Qed.
Lemma derived_trans e l1 l2 l3 : derived e l1 l2 -> derived e l2 l3 -> derived e l1 l3.
Proof.
  intros H1 H2 k Hk. destruct (H2 k Hk) as [(j & Hj & Ht & Hs & Hr)|?]; [|by right]. destruct (H1 j Hj) as [(i & Hi & Ht' & Hs' & Hr')|[Hb1 Hb2]].
  - left. exists i. split; [done|]. split_and!; [congruence|auto|auto].
  - right. split; [by rewrite Ht|]. intros [H|H]%orb_true_iff; apply Hb2, orb_true_iff; auto.
Qed.
Lemma derived_cons e items items' i : born_of e i -> derived e items items' -> derived e items (i :: items').
Proof. intros Hi H j [->|Hj]%elem_of_cons; [by right|by apply H]. Qed.
Lemma derived_map e items f : (forall i, came_from i (f i)) -> derived e items (List.map f items).
Proof. intros H i' (i & -> & Hi)%list_elem_of_fmap. left. by exists i. Qed.
Lemma derived_setFirst e items p f : (forall i, p i = true -> came_from i (f i)) -> derived e items (setFirst p f items).
Proof.
  intros H. induction items as [|i items IH]; [apply derived_refl|]. cbn. intros j. destruct (p i) eqn:E; intros [->|Hj]%elem_of_cons.
  - left. exists i. split; [left|by apply H].
  - left. exists j. split; [by right|done].
  - left. exists i. split; [left|done].
  - destruct (IH j Hj) as [(x & Hx & ?)|?]; [left; exists x; split; [by right|done]|by right].
Qed.
Lemma derived_close e items : derived e items (closeStreamingTail items).
Proof.
  destruct items as [|i items]; [apply derived_refl|]. intros j [->|Hj]%elem_of_cons; left; [exists i; split; [left|by destruct i]|exists j; split; [by right|done]].
Qed.
Lemma derived_push e items i : born_of e i -> derived e items (i :: closeStreamingTail items).
Proof. intros H. apply derived_cons; [done|apply derived_close]. Qed.

Lemma finalize_from d i : d <> C_running -> came_from i (finalize d i) /\ isStreaming (finalize d i) = false /\ isRunning (finalize d i) = false.
Proof.
  intros Hd. unfold finalize. destruct (isRunning (stopStreaming i)) eqn:E.
  - assert (Hset : isRunning (setStatus d (stopStreaming i)) = false).
    { unfold isRunning. apply bool_decide_eq_false. destruct i; try done; by intros [= ?]. }
    split_and!; [|by destruct i|done]. split_and!; [by destruct i..|by rewrite Hset].
  - split_and!; [|by destruct i|done]. split_and!; [by destruct i..|by rewrite E].
Qed.
Lemma derived_finalize e items turnId d : d <> C_running -> derived e items (finalizeOpen turnId d items).
Proof. intros Hd. apply derived_map. intros i. destruct (otherTurn turnId i); [done|by apply finalize_from]. Qed.

(** Items that start nothing. *)
Lemma born_still e i : itemTurn i = None \/ itemTurn i = ev_turnId e -> isStreaming i = false -> isRunning i = false -> born_of e i.
Proof. intros Ht Hs Hr. split; [done|]. by rewrite Hs, Hr. Qed.

Section json_text.
Lemma derived_stream kind wrap text e items : (forall i m, kind i = Some m -> i = wrap m) -> (wrap = AgentMessage \/ wrap = Reasoning) ->
  isAgentActivityEvent (ev_type e) = true -> derived e items (streamDelta kind wrap text e items).
Proof.
  intros Hk Hw Ha. assert (Hb : forall t, born_of e (wrap (newStreamed e t true))) by (intros t; split; [right; by destruct Hw as [-> | ->]|done]).
  unfold streamDelta. destruct text as [|c t]; [apply derived_refl|]. destruct items as [|i rest]; [by apply derived_push|].
  cbn [head mbind option_bind]. destruct (kind i) as [m|] eqn:Em; [|by apply derived_push]. destruct (extends _ m) eqn:Ex; [|by apply derived_push].
  apply Hk in Em as ->. intros j [->|Hj]%elem_of_cons; left; [exists (wrap m); split; [left|]|exists j; split; [by right|done]].
  unfold came_from, isRunning. by destruct Hw as [-> | ->].
Qed.

Lemma settleCall_from payload i : came_from i (settleCall payload i).
Proof. unfold came_from, isRunning. destruct i; cbn; try done; by destruct (isErrorOutput payload). Qed.
Lemma settleSandbox_from status payload i : status <> C_running -> came_from i (settleSandbox status payload i).
Proof. unfold came_from, isRunning. intros Hs. destruct i; cbn; try done. split_and!; [done..|]. by intros [= ?]%bool_decide_eq_true. Qed.
Lemma addOutput_from text i : came_from i (addOutput text i).
Proof. by destruct i. Qed.
Lemma completeMessage_from text i : came_from i (completeMessage text i).
Proof. by destruct i. Qed.

Lemma project_derived prescan items e b : derived e items (project prescan items (e, b)).
Proof.
  unfold project. cbn [fst snd].
  destruct (String.eqb (ev_type e) "user.message") eqn:E0.
  { unfold onUserMessage. case_match; apply derived_push, born_still; auto. }
  destruct (String.eqb (ev_type e) "agent.message.delta") eqn:E1.
  { apply String.eqb_eq in E1. apply derived_stream; [by intros [] ? [= ->]|by left|by rewrite E1]. }
  destruct (String.eqb (ev_type e) "agent.message.completed") eqn:E2.
  { unfold onMessageCompleted. assert (Hfresh : derived e items (match str "text" e with [] => items | _ => AgentMessage (newStreamed e (str "text" e) false) :: items end)).
    { destruct (str "text" e); [apply derived_refl|apply derived_cons, derived_refl; by apply born_still; auto]. }
    destruct (List.find _ items) as [[]|]; try exact Hfresh. destruct (reconciles _ _); [|exact Hfresh]. apply derived_setFirst. intros j _. apply completeMessage_from. }
  destruct (String.eqb (ev_type e) "agent.reasoning.delta") eqn:E3.
  { apply String.eqb_eq in E3. apply derived_stream; [by intros [] ? [= ->]|by right|by rewrite E3]. }
  destruct (String.eqb (ev_type e) "agent.toolCall.created") eqn:E4.
  { apply String.eqb_eq in E4. unfold onToolCall. apply derived_push. split; [right; by repeat case_match|by rewrite E4]. }
  destruct (String.eqb (ev_type e) "agent.toolCall.output") eqn:E5.
  { apply derived_setFirst. intros j _. apply settleCall_from. }
  assert (Hop : forall status, isAgentActivityEvent (ev_type e) = true -> derived e items (onSandboxOperation e status items)).
  { intros status Ha. unfold onSandboxOperation. destruct (_ && _); [apply derived_refl|]. destruct (existsb _ items).
    - case_bool_decide; [apply derived_refl|]. apply derived_setFirst. intros j _. by apply settleSandbox_from.
    - apply derived_push. split; [by right|done]. }
  destruct (String.eqb (ev_type e) "sandbox.operation.started") eqn:E6; [apply Hop; apply String.eqb_eq in E6; by rewrite E6|].
  destruct (String.eqb (ev_type e) "sandbox.operation.completed") eqn:E7; [apply Hop; apply String.eqb_eq in E7; by rewrite E7|].
  destruct (String.eqb (ev_type e) "sandbox.operation.failed") eqn:E8; [apply Hop; apply String.eqb_eq in E8; by rewrite E8|].
  destruct (String.eqb (ev_type e) "sandbox.command.output.delta") eqn:E9.
  { unfold onCommandOutput. destruct (commandText _); [apply derived_refl|]. apply derived_setFirst. intros j _. apply addOutput_from. }
  destruct (String.eqb (ev_type e) "session.status.changed") eqn:E10.
  { unfold onStatusChanged. destruct (_ ≫= _) as [st|]; [|apply derived_refl]. case_match; [|apply derived_refl]. apply derived_cons, derived_refl. by apply born_still; auto. }
  destruct (String.eqb (ev_type e) "session.requiresAction") eqn:E11.
  { apply derived_cons; [by apply born_still; auto|by apply derived_finalize]. }
  destruct (String.eqb (ev_type e) "tool.auth_needed") eqn:E12; [by apply derived_push, born_still; auto|].
  destruct (String.eqb (ev_type e) "turn.completed") eqn:E13.
  { unfold onTurnCompleted. case_match; repeat (apply derived_cons; [by apply born_still; auto|]); by apply derived_finalize. }
  destruct (String.eqb (ev_type e) "turn.failed") eqn:E14.
  { unfold onTurnFailed. destruct (hasTurnActivity _ _); repeat (apply derived_cons; [by apply born_still; auto|]); by apply derived_finalize. }
  destruct (String.eqb (ev_type e) "turn.cancelled") eqn:E15.
  { unfold onTurnCancelled. case_match; [apply derived_refl|]. destruct (hasTurnActivity _ _); repeat (apply derived_cons; [by apply born_still; auto|]); by apply derived_finalize. }
  destruct (_ || _).
  { destruct (memoryItem _ _ _ _ _) as [m|] eqn:Em; [|apply derived_refl]. apply derived_push, born_still; auto. right.
    unfold memoryItem in Em. destruct (truthy _); [|done]. by injection Em as <-. }
  case_bool_decide; [|apply derived_refl]. apply derived_cons, derived_refl. by apply born_still; auto.
Qed.

(** Nothing of turn [T] streams or runs. *)
Definition quiet (T : string) (items : list TimelineItem) : Prop :=
  forall i, i ∈ items -> itemTurn i = Some T -> isStreaming i = false /\ isRunning i = false.
(** The agent or the sandbox at work for [T]. *)
Definition works (T : string) (e : SessionEvent) : Prop := ev_turnId e = Some T /\ isAgentActivityEvent (ev_type e) = true.

Lemma quiet_project T prescan items e b : quiet T items -> ~ works T e -> quiet T (project prescan items (e, b)).
Proof.
  intros Hq Hw i' Hi' Ht. destruct (project_derived prescan items e b i' Hi') as [(i & Hi & Hti & Hs & Hr)|[Hborn Hact]].
  - rewrite Hti in Ht. destruct (Hq i Hi Ht) as [Es Er]. split; apply not_true_iff_false; [intros ?%Hs|intros ?%Hr]; congruence.
  - apply orb_false_iff, not_true_iff_false. intros Ha%Hact. apply Hw. split; [|done]. destruct Hborn; congruence.
Qed.

Lemma quiet_fold T prescan l : forall items, quiet T items -> Forall (fun te => ~ works T te.1) l -> quiet T (fold_left (project prescan) l items).
Proof.
  induction l as [|[e b] l IH]; intros items Hq Hl; [done|]. apply Forall_cons in Hl as [He Hl]. cbn [fold_left]. apply IH; [by apply quiet_project|done].
Qed.

Lemma quiet_finalize T items d : T <> ""%string -> d <> C_running -> quiet T (finalizeOpen (Some T) d items).
Proof.
  intros HT Hd i' (i & -> & Hi)%list_elem_of_fmap Ht. destruct (finalize_from d i Hd) as ((Hti & _) & Hs & Hr).
  destruct (otherTurn (Some T) i) eqn:E; [|done]. unfold otherTurn in E. rewrite Ht in E. destruct T; [done|]. cbn [truthyId] in E. by rewrite String.eqb_refl in E.
Qed.

Lemma quiet_cons T i items : isStreaming i = false -> isRunning i = false -> quiet T items -> quiet T (i :: items).
Proof. intros Hs Hr Hq j [->|Hj]%elem_of_cons; [done|by apply Hq]. Qed.

(** The end of a turn that started settles its items. *)
Lemma quiet_end T prescan items e b : ev_turnId e = Some T -> T <> ""%string -> turnEnds e = true ->
  (ev_type e = "turn.cancelled"%string -> js T ∈ pre_startedTurnIds prescan) -> quiet T (project prescan items (e, b)).
Proof.
  intros Ht HT He Hst. unfold turnEnds in He. apply bool_decide_eq_true in He. unfold project. cbn [fst].
  assert (Hpush : forall d i its, d <> C_running -> isStreaming i = false -> isRunning i = false -> its = finalizeOpen (ev_turnId e) d items \/ (exists j, isStreaming j = false /\ isRunning j = false /\ its = j :: finalizeOpen (ev_turnId e) d items) -> quiet T (i :: its)).
  { intros d i its Hd Hs Hr Hits. apply quiet_cons; [done..|]. rewrite Ht in Hits. destruct Hits as [->|(j & Hjs & Hjr & ->)]; [by apply quiet_finalize|]. by apply quiet_cons, quiet_finalize. }
  apply elem_of_cons in He as [E|He]; [|apply elem_of_cons in He as [E|He]; [|apply list_elem_of_singleton in He as E]]; rewrite E; cbn -[finalizeOpen].
  - unfold onTurnCompleted. case_match; eapply (Hpush C_complete); try done; [right; eexists; split_and!; [| |reflexivity]; done|by left].
  - unfold onTurnFailed. destruct (hasTurnActivity _ _); eapply (Hpush C_cancelled); try done; [by left|right; eexists; split_and!; [| |reflexivity]; done].
  - unfold onTurnCancelled. assert (turnIdOf e = Some (js T)) as -> by (unfold turnIdOf; rewrite Ht; by destruct T).
    rewrite bool_decide_eq_true_2 by by apply Hst. cbn [negb]. destruct (hasTurnActivity _ _); eapply (Hpush C_cancelled); try done; [by left|right; eexists; split_and!; [| |reflexivity]; done].
Qed.

Lemma order_elem events prescan te : te ∈ orderTimelineEvents events prescan -> te.1 ∈ bySequence events.
Proof.
  intros [Hte|Hte]%elem_of_app; [|by apply list_elem_of_fmap in Hte as (x & -> & [Hx _]%elem_filter)].
  apply list_elem_of_In, in_concat in Hte as (l & (x & <- & Hx%list_elem_of_In)%in_map_iff & Hte%list_elem_of_In).
  apply elem_of_app in Hte as [Hte|Hte]; [by apply list_elem_of_fmap in Hte as (y & -> & [Hy _]%elem_filter)|].
  destruct (isUserMessage x); [by apply elem_of_nil in Hte|]. by apply list_elem_of_singleton in Hte as ->.
Qed.

(** A turn that ended is at rest: once the log has its completion, failure
    or cancellation and no agent or sandbox event of it after that, none of its
    items streams or runs, whatever other turns do and wherever user messages
    stand. *)
Theorem settled_turn_quiet events e T : NoDup (List.map ev_sequence events) -> e ∈ events -> turnEnds e = true -> ev_turnId e = Some T -> T <> ""%string ->
  (forall x, x ∈ events -> works T x -> ev_sequence x < ev_sequence e) -> quiet T (buildTimeline events).
Proof.
  intros Hnd He Hend Ht HT Hafter. unfold buildTimeline. set (P := prescanTurnAnchors events).
  intros i Hi. rewrite list_elem_of_In, <- in_rev, <- list_elem_of_In in Hi. revert i Hi. change (quiet T (fold_left (project P) (orderTimelineEvents events P) [])).
  pose proof (scanned_fold (bySequence events)) as Hsc. assert (Hin : forall x, x ∈ bySequence events <-> x ∈ events) by (intros x; apply elem_of_sort_by).
  assert (Hfst : forall te, te ∈ orderTimelineEvents events P -> te.1 ∈ events).
  { intros te Hte. apply Hin. by eapply order_elem. }
  destruct (decide (js T ∈ pre_startedTurnIds P)) as [Hst|Hns].
  - destruct (list_elem_of_split (bySequence events) e) as (A & B & E); [by apply Hin|].
    assert (Hu : isUserMessage e = false).
    { unfold isUserMessage. apply String.eqb_neq. intros Eq. unfold turnEnds in Hend. by rewrite Eq in Hend. }
    assert (Hpl : orderTimelineEvents events P = concat (List.map (placed events) A) ++ insertionsAt P (bySequence events) (ev_sequence e) ++ [(e, false)] ++
      concat (List.map (placed events) B) ++ pendingMessages P (bySequence events)).
    { unfold orderTimelineEvents. change (concat (List.map (placed events) (bySequence events)) ++ pendingMessages P (bySequence events) = concat (List.map (placed events) A) ++
        insertionsAt P (bySequence events) (ev_sequence e) ++ [(e, false)] ++ concat (List.map (placed events) B) ++ pendingMessages P (bySequence events)).
      rewrite E at 1. rewrite List.map_app, concat_app. cbn [List.map concat]. unfold placed at 2. rewrite Hu. fold P. by rewrite <- !app_assoc. }
    rewrite Hpl, app_assoc, fold_left_app, fold_left_app. apply quiet_fold; [apply quiet_end; done|].
    apply Forall_forall. intros te Hte Hw.
    assert (Hnu : isUserMessage te.1 = false).
    { destruct Hw as [_ Hw]. unfold isUserMessage. apply String.eqb_neq. intros Eq. by rewrite Eq in Hw. }
    apply elem_of_app in Hte as [Hte|Hte].
    2: { pose proof (proj1 (Forall_forall _ _) (pending_user P (bySequence events)) te Hte). cbn in *. congruence. }
    apply list_elem_of_In, in_concat in Hte as (l & (x & <- & Hx%list_elem_of_In)%in_map_iff & Hte%list_elem_of_In).
    unfold placed in Hte. apply elem_of_app in Hte as [Hte|Hte].
    { pose proof (proj1 (Forall_forall _ _) (insertions_user P (bySequence events) (ev_sequence x)) te Hte). cbn in *. congruence. }
    destruct (isUserMessage x); [by apply elem_of_nil in Hte|]. apply list_elem_of_singleton in Hte as ->. cbn in Hw.
    assert (Hlt : ev_sequence e < ev_sequence x).
    { pose proof (ordered_sorted events Hnd) as Hs. rewrite E in Hs. apply increasing_app in Hs as (_ & [_ Hs]%StronglySorted_inv & _).
      by apply (proj1 (Forall_forall _ _) Hs). }
    assert (x ∈ events) as Hxe by (apply Hin; rewrite E; apply elem_of_app; right; by right). specialize (Hafter x Hxe Hw). lia.
  - apply quiet_fold; [by intros ? ?%elem_of_nil|]. apply Forall_forall. intros te Hte [Hw Ha]. apply Hns.
    apply (sc_started _ _ Hsc te.1); [by apply Hin, Hfst| |done]. unfold turnIdOf. rewrite Hw. by destruct T.
Qed.
End json_text.

(** ** Examples *)


Definition ev (n : Z) (id type : string) (turnId : option string) (payload : list (string * string)) : SessionEvent := {|
  ev_id := id; ev_workspaceId := "w"; ev_sessionId := "s"; ev_sequence := n; ev_type := type;
  ev_payload := JObj (List.map (fun kv => (js kv.1, JStr (js kv.2))) payload); ev_occurredAt := n; ev_clientEventId := None; ev_turnId := turnId |}.

(** Two turns: the second message is queued while the first turn works, the
    third one is withdrawn, the fourth still waits. *)
Definition exampleLog : list SessionEvent := [
  ev 1 "m1" "user.message" None [("text", "fix it")];
  ev 2 "q1" "turn.queued" None [("triggerEventId", "m1"); ("turnId", "t1")];
  ev 3 "s1" "turn.started" (Some "t1") [("triggerEventId", "m1")];
  ev 4 "d1" "agent.message.delta" (Some "t1") [("text", "Look")];
  ev 5 "m2" "user.message" None [("text", "and test")];
  ev 6 "q2" "turn.queued" None [("triggerEventId", "m2"); ("turnId", "t2")];
  ev 7 "d2" "agent.message.delta" (Some "t1") [("text", "ing")];
  ev 8 "m3" "user.message" None [("text", "never mind")];
  ev 9 "q3" "turn.queued" None [("triggerEventId", "m3"); ("turnId", "t3")];
  ev 10 "x3" "turn.cancelled" (Some "t3") [];
  ev 11 "c1" "agent.toolCall.created" (Some "t1") [("name", "shell"); ("id", "k1")];
  ev 12 "e1" "turn.failed" (Some "t1") [("error", "boom")];
  ev 13 "s2" "turn.started" (Some "t2") [("triggerEventId", "m2")];
  ev 14 "d3" "agent.message.delta" (Some "t2") [("text", "Testing")];
  ev 15 "m4" "user.message" None [("text", "later")];
  ev 16 "q4" "turn.queued" None [("triggerEventId", "m4"); ("turnId", "t4")]]%string.

(** A pending message ends the stream it is shown behind: [d3] is still receiving
    deltas, but [sm_streaming] is false. *)
Example timeline_of_log :
  List.map (fun i => (itemId i, isStreaming i, itemStatus i)) (buildTimeline exampleLog) =
  [("m1", false, None); ("d1", false, None); ("c1", false, Some C_cancelled); ("e1-turn-end", false, None); ("m2", false, None);
   ("d3", false, None); ("m4", false, None)]%string.
Proof. vm_compute. reflexivity. Qed.

Lemma exampleLog_distinct : NoDup (List.map ev_sequence exampleLog).
Proof. apply (bool_decide_unpack _). vm_compute. reflexivity. Qed.

Lemma order_exact_witness :
  List.map fst (List.filter (fun te => negb (isUserMessage te.1)) (orderTimelineEvents exampleLog (prescanTurnAnchors exampleLog))) =
    bySequence (List.filter (fun e => negb (isUserMessage e)) exampleLog) /\
  List.filter (isWithdrawn exampleLog) exampleLog = [ev 8 "m3" "user.message" None [("text", "never mind")]]%string.
Proof.
  destruct (order_exact exampleLog exampleLog_distinct) as (verdict & _ & _ & H & _). split; [exact H|]. vm_compute. reflexivity.
Defined.

(** The runtime emits a delta of no text as it comes ([packages/runtime/src/index.ts]). *)
Example silent_head_renames :
  let page := [ev 1 "d1" "agent.message.delta" (Some "t") [("text", "")]; ev 2 "d2" "agent.message.delta" (Some "t") [("text", "a")]]%string in
  List.map itemId (buildTimeline page) = ["d2"]%string /\ List.map itemId (buildTimeline (coalesceSessionEventDeltas page)) = ["d1"]%string.
Proof. vm_compute. done. Qed.

Lemma coalesced_renders_same_witness :
  length (coalesceSessionEventDeltas [ev 1 "d1" "agent.message.delta" (Some "t") [("text", "a")]; ev 2 "d2" "agent.message.delta" (Some "t") [("text", "b")]]%string) = 1%nat /\
  buildTimeline (coalesceSessionEventDeltas [ev 1 "d1" "agent.message.delta" (Some "t") [("text", "a")]; ev 2 "d2" "agent.message.delta" (Some "t") [("text", "b")]]%string) =
  buildTimeline [ev 1 "d1" "agent.message.delta" (Some "t") [("text", "a")]; ev 2 "d2" "agent.message.delta" (Some "t") [("text", "b")]]%string.
Proof.
  split; [vm_compute; reflexivity|]. apply coalesced_renders_same.
  - repeat constructor.
  - repeat constructor; intros _ _; vm_compute; discriminate.
Defined.

Lemma settled_turn_quiet_witness : quiet "t1" (buildTimeline exampleLog).
Proof.
  apply (settled_turn_quiet exampleLog (ev 12 "e1" "turn.failed" (Some "t1") [("error", "boom")])%string "t1" exampleLog_distinct).
  - apply list_elem_of_lookup_2 with 11%nat. reflexivity.
  - vm_compute. reflexivity.
  - reflexivity.
  - discriminate.
  - intros x Hx [Ht Ha]. assert (forallb (fun x => negb (isAgentActivityEvent (ev_type x)) || negb (bool_decide (ev_turnId x = Some "t1"%string)) || (ev_sequence x <? 12)) exampleLog = true) as H by (vm_compute; reflexivity).
    rewrite forallb_forall in H. specialize (H x (proj1 (list_elem_of_In _ _) Hx)). rewrite Ha, Ht in H. cbn in H. apply Z.ltb_lt. exact H.
Defined.

(** "A new item of a different kind ends whatever was streaming at the tail":
    goal, status and turn-end items do not.  A goal event in the middle of a
    message leaves the first half streaming next to the second. *)
Example goal_splits_stream :
  List.map (fun i => (itemId i, isStreaming i)) (buildTimeline [
    ev 1 "d1" "agent.message.delta" (Some "t") [("text", "a")]; ev 2 "g" "goal.updated" (Some "t") [("text", "ship")];
    ev 3 "d2" "agent.message.delta" (Some "t") [("text", "b")]])%string = [("d1", true); ("g", false); ("d2", true)]%string.
Proof. vm_compute. reflexivity. Qed.

(** "So the completed text never duplicates the streamed one": it does when a
    steering message split the stream and a tool call closed it. *)
Example split_message_repeated :
  omap (fun i => match i with AgentMessage m => Some (sm_text m) | _ => None end) (buildTimeline [
    ev 1 "d1" "agent.message.delta" (Some "t") [("text", "Let me ")]; ev 2 "m" "user.message" None [("text", "hurry")];
    ev 3 "d2" "agent.message.delta" (Some "t") [("text", "look")]; ev 4 "c" "agent.toolCall.created" (Some "t") [("name", "shell")];
    ev 5 "f" "agent.message.completed" (Some "t") [("text", "Let me look")]])%string = List.map js ["Let me "; "look"; "Let me look"]%string.
Proof. vm_compute. reflexivity. Qed.
End Timeline.
