(* ===== verification/TimelineGroups.v ===== *)
(** * Grouping the timeline ([groupTimeline] of [packages/react/src/timeline/projection.ts])

    Consecutive activity items form collapsible blocks, and when a turn ends
    everything since the last boundary folds into one turn group, its final
    message aside. *)
From S2P Require Import Prelude Json Schema TimelineItems.
#[local] Open Scope Z_scope.
#[local] Open Scope opengeni_scope.

Module TimelineGroups.
Import TimelineItems.

Inductive TimelineGroup :=
| ItemGroup (item : TimelineItem)
| ActivityGroup (id : string) (items : list TimelineItem) (outcome : option TurnOutcome) (failureText : option jstr)
| TurnGroup (id : string) (outcome : TurnOutcome) (failureText : option jstr) (startedAt endedAt : Z) (groups : list TimelineGroup).

(** The list of groups is kept newest first, like the items of [Timeline]. *)

(** ** Outcomes *)

Definition applyTurnOutcome (turnEnd : TurnEndItem) (g : TimelineGroup) : TimelineGroup :=
  match g with
  | ActivityGroup id items _ failureText =>
      match te_outcome turnEnd with
      | O_complete => ActivityGroup id items (Some O_complete) failureText
      | _ =>
          let hasFailed := existsb (fun i => bool_decide (itemStatus i = Some C_failed)) items in
          let hasInterrupted := existsb (fun i => bool_decide (itemStatus i = Some C_cancelled)) items in
          ActivityGroup id items (Some (if hasFailed then O_failed else if hasInterrupted then O_cancelled else O_complete))
            (match truthy (te_failureText turnEnd) with Some t => if hasFailed then Some t else failureText | None => failureText end)
      end
  | _ => g
  end.

Definition isOpenActivity (g : TimelineGroup) : bool := match g with ActivityGroup _ _ None _ => true | _ => false end.
Definition worksFor (turnId : option string) (g : TimelineGroup) : bool :=
  match g with ActivityGroup _ items _ _ => existsb (fun i => bool_decide (itemTurn i = turnId)) items | _ => false end.
Definition stampTurnOutcome (turnEnd : TurnEndItem) (groups : list TimelineGroup) : list TimelineGroup :=
  match te_turnId turnEnd with
  | None => match groups with g :: rest => (if isOpenActivity g then applyTurnOutcome turnEnd g else g) :: rest | [] => [] end
  | Some _ => List.map (fun g => if isOpenActivity g && worksFor (te_turnId turnEnd) g then applyTurnOutcome turnEnd g else g) groups
  end.

(** ** Folding a settled turn *)

Definition isTurnBoundary (g : TimelineGroup) : bool := match g with TurnGroup _ _ _ _ _ _ | ItemGroup (UserMessage _) => true | _ => false end.
(** A turn id that is set and another. *)
Definition foreign (turnId t : option string) : bool :=
  match t, truthyId turnId with Some t, Some turnId => negb (String.eqb t turnId) | _, _ => false end.
Definition belongsToDifferentTurn (g : TimelineGroup) (turnId : option string) : bool :=
  match g with
  | ActivityGroup _ items _ _ => match items with [] => false | _ => forallb (fun i => foreign turnId (itemTurn i)) items end
  | ItemGroup (AgentMessage m) => foreign turnId (sm_turnId m)
  | _ => false
  end.
Definition isBetweenTurnDivider (g : TimelineGroup) : bool :=
  match g with ItemGroup (SessionStatusDivider _ status _) => negb (bool_decide (status = S_running)) | _ => false end.

(** The walk back from the end: what it passed (oldest first), whether another
    turn stopped it, and what lies before (newest first). *)
Fixpoint walkBack (turnId : option string) (groups passed : list TimelineGroup) : list TimelineGroup * bool * list TimelineGroup :=
  match groups with
  | [] => (passed, false, [])
  | g :: rest =>
      if isTurnBoundary g then (passed, false, groups)
      else if belongsToDifferentTurn g turnId then (passed, true, groups)
      else walkBack turnId rest (g :: passed)
  end.
Fixpoint skipDividers (passed before : list TimelineGroup) : list TimelineGroup * list TimelineGroup :=
  match passed with
  | g :: rest => if isBetweenTurnDivider g then skipDividers rest (g :: before) else (passed, before)
  | [] => ([], before)
  end.

Definition isFinalMessage (turnEnd : TurnEndItem) (g : TimelineGroup) : bool :=
  match g with
  | ItemGroup (AgentMessage m) =>
      negb (sm_streaming m)
      && negb match truthyId (sm_turnId m), truthyId (te_turnId turnEnd) with Some t, Some t' => negb (String.eqb t t') | _, _ => false end
  | _ => false
  end.
(** The body and the final message, if the last group is one. *)
Definition splitFinal (turnEnd : TurnEndItem) (collected : list TimelineGroup) : list TimelineGroup * list TimelineGroup :=
  match rev collected with
  | g :: body => if isFinalMessage turnEnd g then (rev body, [g]) else (collected, [])
  | [] => ([], [])
  end.

Definition groupStartedAt (g : TimelineGroup) : option Z :=
  match g with
  | ItemGroup i => Some (itemOccurredAt i)
  | ActivityGroup _ items _ _ => itemOccurredAt <$> head items
  | TurnGroup _ _ _ startedAt _ _ => Some startedAt
  end.

Definition foldSettledTurn (turnEnd : TurnEndItem) (groups : list TimelineGroup) : list TimelineGroup :=
  let '(passed, stoppedAtForeignTurn, before) := walkBack (te_turnId turnEnd) groups [] in
  let (collected, before) := if stoppedAtForeignTurn then skipDividers passed before else (passed, before) in
  let (body, finalMessage) := splitFinal turnEnd collected in
  match body with
  | [] => groups
  | first :: _ =>
      finalMessage ++ TurnGroup
        (String.append "turn-" (default (te_id turnEnd) (te_turnId turnEnd))) (te_outcome turnEnd) (truthy (te_failureText turnEnd))
        (default (te_occurredAt turnEnd) (groupStartedAt first)) (te_occurredAt turnEnd) body :: before
  end.

Definition addItem (groups : list TimelineGroup) (item : TimelineItem) : list TimelineGroup :=
  if isActivityItem item then
    match groups with
    | ActivityGroup id items None failureText :: rest => ActivityGroup id (items ++ [item]) None failureText :: rest
    | _ => ActivityGroup (String.append "activity-" (itemId item)) [item] None None :: groups
    end
  else
    match item with
    | TurnEnd turnEnd => foldSettledTurn turnEnd (stampTurnOutcome turnEnd groups)
    | _ => ItemGroup item :: groups
    end.
Definition groupTimeline (items : list TimelineItem) : list TimelineGroup := rev (fold_left addItem items []).

(** ** What the groups hold *)

Fixpoint itemsOf (g : TimelineGroup) : list TimelineItem :=
  match g with
  | ItemGroup i => [i]
  | ActivityGroup _ items _ _ => items
  | TurnGroup _ _ _ _ _ groups => concat (List.map itemsOf groups)
  end.
Definition flatten (groups : list TimelineGroup) : list TimelineItem := concat (List.map itemsOf groups).

(** A turn group is not empty and holds neither turns nor user messages; an
    activity group holds activities, at least one. *)
Definition simple (g : TimelineGroup) : Prop :=
  match g with
  | ItemGroup i => isActivityItem i = false /\ match i with TurnEnd _ => False | _ => True end
  | ActivityGroup _ items _ _ => items <> [] /\ Forall (fun i => isActivityItem i = true) items
  | TurnGroup _ _ _ _ _ _ => False
  end.
Definition shaped (g : TimelineGroup) : Prop :=
  match g with
  | TurnGroup _ _ _ _ _ groups => groups <> [] /\ Forall (fun g => simple g /\ isTurnBoundary g = false) groups
  | _ => simple g
  end.

Lemma flatten_app l k : flatten (l ++ k) = flatten l ++ flatten k.
Proof. unfold flatten. by rewrite List.map_app, concat_app. Qed.

Lemma stamp_items turnEnd g : itemsOf (applyTurnOutcome turnEnd g) = itemsOf g.
Proof. destruct g; [done| |done]. cbn. by destruct (te_outcome turnEnd). Qed.
Lemma stamp_shaped turnEnd g : shaped g -> shaped (applyTurnOutcome turnEnd g).
Proof. destruct g; [done| |done]. cbn. by destruct (te_outcome turnEnd). Qed.

Lemma stampTurn_spec turnEnd groups : List.map itemsOf (stampTurnOutcome turnEnd groups) = List.map itemsOf groups /\
  (Forall shaped groups -> Forall shaped (stampTurnOutcome turnEnd groups)).
Proof.
  unfold stampTurnOutcome. destruct (te_turnId turnEnd) as [t|].
  - rewrite List.map_map. split.
    + apply map_ext. intros g. case_match; [apply stamp_items|done].
    + intros H. apply Forall_forall. intros g' (g & -> & Hg)%list_elem_of_fmap. pose proof (proj1 (Forall_forall _ _) H g Hg).
      case_match; [by apply stamp_shaped|done].
  - destruct groups as [|g rest]; [done|]. cbn [List.map]. split.
    + case_match; [by rewrite stamp_items|done].
    + intros [Hg Hr]%Forall_cons. constructor; [|done]. case_match; [by apply stamp_shaped|done].
Qed.

Lemma walkBack_spec turnId groups : forall passed p b before, walkBack turnId groups passed = (p, b, before) ->
  exists mid, p = rev mid ++ passed /\ groups = mid ++ before /\ Forall (fun g => isTurnBoundary g = false) mid.
Proof.
  induction groups as [|g groups IH]; intros passed p b before; cbn [walkBack]; [intros [= <- <- <-]; by exists []|].
  destruct (isTurnBoundary g) eqn:E; [intros [= <- <- <-]; by exists []|]. destruct (belongsToDifferentTurn g turnId); [intros [= <- <- <-]; by exists []|].
  intros (mid & -> & -> & Hm)%IH. exists (g :: mid). split_and!; [cbn; by rewrite <- app_assoc|done|by constructor].
Qed.

Lemma skipDividers_spec passed : forall before c b, skipDividers passed before = (c, b) ->
  exists mid, passed = mid ++ c /\ b = rev mid ++ before.
Proof.
  induction passed as [|g rest IH]; intros before c b; cbn [skipDividers]; [intros [= <- <-]; by exists []|].
  destruct (isBetweenTurnDivider g); [|intros [= <- <-]; by exists []]. intros (mid & -> & ->)%IH. exists (g :: mid). cbn. by rewrite <- app_assoc.
Qed.

Lemma splitFinal_spec turnEnd collected body final : splitFinal turnEnd collected = (body, final) ->
  collected = body ++ final /\ (length final <= 1)%nat.
Proof.
  unfold splitFinal. destruct (rev collected) as [|g r] eqn:E.
  - intros [= <- <-]. apply (f_equal (@rev _)) in E. rewrite rev_involutive in E. subst. split; [done|cbn; lia].
  - apply (f_equal (@rev _)) in E. rewrite rev_involutive in E. cbn in E. destruct (isFinalMessage turnEnd g); intros [= <- <-]; (split; [|cbn; lia]); [done|by rewrite app_nil_r].
Qed.

(** Folding a turn keeps the items and their order. *)
Lemma foldSettled_spec turnEnd groups : flatten (rev (foldSettledTurn turnEnd groups)) = flatten (rev groups) /\
  (Forall shaped groups -> Forall shaped (foldSettledTurn turnEnd groups)).
Proof.
  unfold foldSettledTurn. destruct (walkBack _ groups []) as [[passed b] before] eqn:Ew.
  apply walkBack_spec in Ew as (mid & -> & -> & Hb). rewrite app_nil_r.
  assert (Hcut : exists lead collected, (if b then skipDividers (rev mid) before else (rev mid, before)) = (collected, rev lead ++ before) /\ rev mid = lead ++ collected).
  { destruct b; [|by exists [], (rev mid)]. destruct (skipDividers (rev mid) before) as [c b'] eqn:Es. apply skipDividers_spec in Es as (lead & Hl & ->). by exists lead, c. }
  destruct Hcut as (lead & collected & -> & Hm). destruct (splitFinal turnEnd collected) as [body final] eqn:Ef.
  apply splitFinal_spec in Ef as [-> Hlen]. destruct body as [|first body]; [done|].
  set (turn := TurnGroup _ _ _ _ _ (first :: body)). split.
  - rewrite !rev_app_distr. cbn [rev]. rewrite rev_app_distr, rev_involutive, !flatten_app, Hm, !flatten_app.
    assert (flatten (rev final) = flatten final) as -> by (destruct final as [|x [|]]; [done..|cbn in Hlen; lia]).
    assert (flatten [turn] = flatten (first :: body)) as -> by (unfold flatten at 1; cbn [List.map concat itemsOf turn]; by rewrite app_nil_r).
    by rewrite <- !app_assoc.
  - intros [Hmid Hbef]%Forall_app.
    assert (Hall : Forall shaped (lead ++ (first :: body) ++ final)) by (rewrite <- Hm; by apply Forall_rev).
    assert (Hbd : Forall (fun g => isTurnBoundary g = false) (lead ++ (first :: body) ++ final)) by (rewrite <- Hm; by apply Forall_rev).
    apply Forall_app in Hall as [Hl [Hbo Hfi]%Forall_app], Hbd as [_ [Hbb _]%Forall_app].
    apply Forall_app. split; [done|]. constructor; [|apply Forall_app; split; [by apply Forall_rev|done]].
    split; [done|]. apply Forall_forall. intros g Hg. pose proof (proj1 (Forall_forall _ _) Hbo g Hg) as Hsh.
    pose proof (proj1 (Forall_forall _ _) Hbb g Hg) as Hnb. cbn in Hnb. by destruct g.
Qed.

Definition isTurnEnd (i : TimelineItem) : bool := match i with TurnEnd _ => true | _ => false end.

Lemma addItem_spec groups i : flatten (rev (addItem groups i)) = flatten (rev groups) ++ (if isTurnEnd i then [] else [i]) /\
  (Forall shaped groups -> Forall shaped (addItem groups i)).
Proof.
  unfold addItem. destruct (isActivityItem i) eqn:Ea.
  - assert (isTurnEnd i = false) as -> by by destruct i.
    assert (Hnew : forall id, flatten (rev (ActivityGroup id [i] None None :: groups)) = flatten (rev groups) ++ [i] /\
      (Forall shaped groups -> Forall shaped (ActivityGroup id [i] None None :: groups))).
    { intros id. cbn [rev]. rewrite flatten_app. split; [done|]. intros H. constructor; [|done]. split; [done|by repeat constructor]. }
    destruct groups as [|g rest]; [apply Hnew|]. destruct g as [|id items [o|] ft|]; try apply Hnew. cbn [rev]. rewrite !flatten_app. split.
    + unfold flatten at 2 4. cbn. by rewrite !app_nil_r, app_assoc.
    + intros [[Hne Hall] Hr]%Forall_cons. constructor; [|done]. split; [by destruct items|]. apply Forall_app. split; [done|by repeat constructor].
  - destruct (isTurnEnd i) eqn:Et.
    + destruct i as [| | | | | | | | | | | |turnEnd]; try done. rewrite app_nil_r.
      destruct (foldSettled_spec turnEnd (stampTurnOutcome turnEnd groups)) as [H1 H2], (stampTurn_spec turnEnd groups) as [H3 H4].
      split; [rewrite H1; unfold flatten; by rewrite !List.map_rev, H3|]. intros H. by apply H2, H4.
    + assert (match i with TurnEnd turnEnd => foldSettledTurn turnEnd (stampTurnOutcome turnEnd groups) | _ => ItemGroup i :: groups end = ItemGroup i :: groups) as -> by by destruct i.
      cbn [rev]. rewrite flatten_app. split; [done|]. intros H. constructor; [|done]. split; [done|by destruct i].
Qed.

(** Grouping loses, repeats and reorders nothing: read from top to bottom
    the groups hold exactly the items, the turn ends aside.  Every activity
    block holds activities and at least one, a folded turn is not empty, and it
    holds neither another turn nor a user message. *)
Theorem group_lossless items :
  flatten (groupTimeline items) = List.filter (fun i => negb (isTurnEnd i)) items /\ Forall shaped (groupTimeline items).
Proof.
  unfold groupTimeline. induction items as [|i items IH] using rev_ind; [done|].
  rewrite fold_left_app, List.filter_app. cbn [fold_left List.filter]. destruct IH as [IH1 IH2], (addItem_spec (fold_left addItem items []) i) as [H1 H2]. split.
  - rewrite H1, IH1. by destruct (isTurnEnd i).
  - apply Forall_rev, H2. apply Forall_rev in IH2. by rewrite rev_involutive in IH2.
Qed.
End TimelineGroups.
