(* ===== verification/Compaction.v ===== *)
(** * Context compaction ([packages/runtime/src/context-compaction.ts])

    The client-side compaction of a conversation: when to compact, the history
    that replaces the active one (all user messages and one summary), the
    deterministic fallback that fits a token budget, the read-path budget guard
    and the transcript sent to a chat summarizer.  Token counts are estimates:
    a quarter of the serialized length, rounded up.  The threshold is a product
    of floating-point numbers and is an argument here. *)
From S2P Require Import Prelude Json HistorySanitizer ParentWake.
#[local] Open Scope Z_scope.
#[local] Open Scope opengeni_scope.

Module Compaction.
Import HistorySanitizer.

(** ** Constants *)

Definition COMPACTION_SUMMARY_MARKER : jstr := js "opengeni_context_summary".
Definition COMPACT_USER_MESSAGE_MAX_TOKENS : Z := 20000.
Definition COMPACTION_PROMPT : jstr := ParentWake.join ParentWake.newline [
  js "You are performing a CONTEXT CHECKPOINT COMPACTION. Create a handoff summary for another LLM that will resume the task.";
  []; js "Include:"; js "- Current progress and key decisions made";
  js "- Important context, constraints, or user preferences"; js "- What remains to be done (clear next steps)";
  js "- Any critical data, examples, or references needed to continue"; [];
  js "Be concise, structured, and focused on helping the next LLM seamlessly continue the work."].
Definition SUMMARY_PREFIX : jstr := js "Another language model started to solve this problem and produced a summary of its thinking process. You also have access to the state of the tools that were used by that language model. Use this to build on the work that has already been done and avoid duplicating work. Here is the summary produced by the other language model, use the information in this summary to assist with your own analysis:".
Definition USER_MESSAGE_TRUNCATION_MARKER : jstr := [10] ++ js "[... middle truncated for context compaction ...]" ++ [10].

(** ** Items *)

Definition itemRole (item : json) : option jstr := asString (prop (js "role") item).
Definition isUserMessage (item : json) : bool :=
  bool_decide (itemType item = Some (js "message")) && bool_decide (itemRole item = Some (js "user")).
Definition isCompactionSummary (item : json) : bool :=
  isUserMessage item && bool_decide (prop COMPACTION_SUMMARY_MARKER item = Some (JBool true)).
Definition isInitialInstructionMessage (item : json) : bool :=
  bool_decide (itemType item = Some (js "message"))
  && (bool_decide (itemRole item = Some (js "system")) || bool_decide (itemRole item = Some (js "developer"))).

Definition size (text : jstr) : Z := Z.of_nat (length text).
(** [Math.ceil(text.length / 4)] *)
Definition estimatedTextTokens (text : jstr) : Z := (size text + 3) / 4.
Definition estimateItemTokens (item : json) : Z := estimatedTextTokens (stringify item).
Definition estimateTokens (items : list json) : Z := foldr (fun item total => estimateItemTokens item + total) 0 items.

(** ** The decision *)

Inductive CompactionReason := force | above_threshold | below_threshold | no_history.
Record ClientCompactionDecision := {
  shouldCompact : bool; reason : CompactionReason; signalTokens : Z; thresholdTokens : Z }.

Definition decideClientCompaction (items : list json) (lastInputTokens : option Z) (threshold : Z) (forced : bool)
  : ClientCompactionDecision :=
  let recorded := match lastInputTokens with Some n => if 0 <? n then n else 0 | None => 0 end in
  let signal := if 0 <? recorded then recorded else estimateTokens items in
  let answer b r := {| shouldCompact := b; reason := r; signalTokens := signal; thresholdTokens := threshold |} in
  match items with
  | [] => answer false no_history
  | _ => if forced then answer true force
         else if threshold <? signal then answer true above_threshold else answer false below_threshold
  end.

(** ** The read-path budget guard *)

(** The indices of the user messages. *)
Definition boundaries (items : list json) : list nat :=
  List.filter (fun i => match items !! i with Some item => isUserMessage item | None => false end) (seq 0 (length items)).
Definition findKeepBoundary (items : list json) (keepRecentTokens : Z) : nat :=
  match boundaries items with
  | [] => 0
  | bs => match List.find (fun b => estimateTokens (drop b items) <=? keepRecentTokens) bs with
          | Some b => b
          | None => List.last bs 0%nat
          end
  end.

Record BudgetResult := { kept : list json; trimmed : bool; droppedCount : nat; estimatedTokens : Z }.
Definition enforceInputBudget (items : list json) (maxTokens trailingTokens : Z) : BudgetResult :=
  let total := estimateTokens items + Z.max 0 trailingTokens in
  let whole := {| kept := items; trimmed := false; droppedCount := 0; estimatedTokens := total |} in
  if match items with [] => true | _ => false end || (total <=? maxTokens) then whole
  else
    let boundary := findKeepBoundary items (Z.max 0 (maxTokens - Z.max 0 trailingTokens)) in
    match boundary with
    | O => whole
    | _ => {| kept := drop boundary items; trimmed := true; droppedCount := boundary;
              estimatedTokens := estimateTokens (drop boundary items) + Z.max 0 trailingTokens |}
    end.

(** ** Messages within a budget *)

(** [text.slice(0, n)] and the last [n] code units. *)
Definition headOf (n : Z) (text : jstr) : jstr := take (Z.to_nat n) text.
Definition tailOf (n : Z) (text : jstr) : jstr := drop (length text - Z.to_nat n) text.

Definition truncateMiddleByChars (text : jstr) (maxChars : Z) : jstr :=
  if size text <=? maxChars then text
  else if maxChars <=? size USER_MESSAGE_TRUNCATION_MARKER then headOf maxChars USER_MESSAGE_TRUNCATION_MARKER
  else
    let keepChars := maxChars - size USER_MESSAGE_TRUNCATION_MARKER in
    headOf ((keepChars + 1) / 2) text ++ USER_MESSAGE_TRUNCATION_MARKER ++ tailOf (keepChars / 2) text.
Definition truncateMiddleByEstimatedTokens (text : jstr) (maxTokens : Z) : jstr :=
  truncateMiddleByChars text (Z.max 0 (maxTokens * 4)).

Definition isImage (part : json) : bool :=
  bool_decide (prop (js "type") part = Some (JStr (js "input_image")))
  || bool_decide (prop (js "type") part = Some (JStr (js "image_url"))).
Definition contentWithoutImages (item : json) : option json :=
  match prop (js "content") item with
  | Some (JArr parts) => Some (JArr (List.filter (fun part => negb (isImage part)) parts))
  | content => content
  end.

Definition partText (part : json) : jstr :=
  match asString (prop (js "text") part), asString (prop (js "content") part) with
  | Some t, _ => t
  | None, Some t => t
  | None, None => []
  end.
Definition messageText (item : json) : jstr :=
  match prop (js "content") item with
  | Some (JStr text) => text
  | Some (JArr parts) => concat (List.map partText parts)
  | _ => []
  end.

(** [next.content = v]; an [undefined] content prints like a missing one. *)
Definition setContent (v : option json) (item : json) : json :=
  match item, v with JObj fs, Some v => JObj (set_field (js "content") v fs) | _, _ => item end.

Definition compactMessageToTokenBudget (item : json) (maxTokens : Z) : json :=
  let text := messageText item in
  if maxTokens <? estimatedTextTokens text
  then setContent (Some (JStr (truncateMiddleByEstimatedTokens text maxTokens))) item
  else setContent (contentWithoutImages item) item.

Fixpoint capAttempts (attempts : nat) (item : json) (maxItemTokens contentBudget : Z) : option json :=
  match attempts with
  | O => None
  | S attempts =>
      let capped := compactMessageToTokenBudget item contentBudget in
      let estimated := estimateItemTokens capped in
      if estimated <=? maxItemTokens then Some capped
      else if contentBudget <=? 0 then None
      else capAttempts attempts item maxItemTokens (Z.max 0 (contentBudget - Z.max 1 (estimated - maxItemTokens)))
  end.
Definition compactMessageToEstimatedItemBudget (item : json) (maxItemTokens : Z) : option json :=
  if maxItemTokens <=? 0 then None
  else capAttempts 6 item maxItemTokens
         (Z.max 0 (maxItemTokens - estimateItemTokens (setContent (Some (JStr [])) item))).

(** ** The rebuilt history *)

Definition buildSummaryItem (summaryBody : jstr) : json := JObj [
  (js "type", JStr (js "message")); (js "role", JStr (js "user"));
  (js "content", JStr (SUMMARY_PREFIX ++ [10] ++ trim summaryBody)); (COMPACTION_SUMMARY_MARKER, JBool true)].

Definition buildCompactionPromptInput (items : list json) : list json :=
  items ++ [JObj [(js "type", JStr (js "message")); (js "role", JStr (js "user")); (js "content", JStr COMPACTION_PROMPT)]].

Definition buildCompactionReplacementHistory (items : list json) (summaryBody : jstr) : list json :=
  List.map (fun item => compactMessageToTokenBudget item COMPACT_USER_MESSAGE_MAX_TOKENS)
    (List.filter (fun item => isUserMessage item && negb (isCompactionSummary item)) items)
  ++ [buildSummaryItem summaryBody].

(** ** The deterministic fallback *)

Fixpoint retainInstructions (items : list json) (remaining : Z) : list json * Z :=
  match items with
  | [] => ([], remaining)
  | item :: items =>
      if negb (isInitialInstructionMessage item) then
        if isUserMessage item then ([], remaining) else retainInstructions items remaining
      else if remaining <=? 0 then ([], remaining)
      else
        match compactMessageToEstimatedItemBudget item (Z.min 2000 remaining) with
        | None => retainInstructions items remaining
        | Some capped =>
            let tokens := estimateItemTokens capped in
            if tokens <=? remaining
            then let (l, remaining) := retainInstructions items (remaining - tokens) in (capped :: l, remaining)
            else retainInstructions items remaining
        end
  end.

(** From the newest message on: [items] is the history reversed, the result
    newest first. *)
Fixpoint retainUsers (items : list json) (remaining : Z) : list json * Z :=
  match items with
  | [] => ([], remaining)
  | item :: items =>
      if remaining <=? 0 then ([], remaining)
      else if negb (isUserMessage item) || isCompactionSummary item then retainUsers items remaining
      else
        match compactMessageToEstimatedItemBudget item (Z.min COMPACT_USER_MESSAGE_MAX_TOKENS remaining) with
        | None => retainUsers items remaining
        | Some capped =>
            let tokens := estimateItemTokens capped in
            if tokens <=? remaining
            then let (l, remaining) := retainUsers items (remaining - tokens) in (capped :: l, remaining)
            else retainUsers items remaining
        end
  end.

Definition fallbackSummary (cause : option jstr) : json :=
  buildSummaryItem (ParentWake.join ParentWake.newline [
    js "Non-LLM context compaction fallback.";
    match cause with Some (_ :: _ as c) => js "Summarizer failure: " ++ c | _ => js "Summarizer failure: unavailable." end;
    js "Older assistant, tool, reasoning, and image history was dropped deterministically.";
    js "Retained context above is limited to initial instructions and the most recent user messages that fit the fallback budget; oversized retained messages may be middle-truncated."]).

Definition fallbackTarget (items : list json) (targetTokens : option Z) : Z :=
  let sourceTokens := Z.max 1 (estimateTokens items) in
  let requestedTarget := match targetTokens with Some n => if 0 <? n then n else sourceTokens / 2 | None => sourceTokens / 2 end in
  Z.max 1 (Z.min requestedTarget (Z.max 1 (sourceTokens - 1))).

Definition buildDeterministicFallbackCompactionHistory (items : list json) (cause : option jstr) (targetTokens : option Z) : list json :=
  let summaryItem := fallbackSummary cause in
  let remaining := Z.max 0 (fallbackTarget items targetTokens - estimateItemTokens summaryItem) in
  let (retainedInstructions, remaining) := retainInstructions items remaining in
  let (retainedUsers, _) := retainUsers (rev items) remaining in
  retainedInstructions ++ rev retainedUsers ++ [summaryItem].

(** ** The transcript for a chat summarizer *)

Definition truncateForTranscript (text : jstr) (most : Z) : jstr :=
  if size text <=? most then text
  else headOf most text ++ js "... (" ++ ParentWake.decimal (size text - most) ++ js " more chars)".

Definition resultText (item : json) : jstr :=
  match prop (js "output") item with
  | Some (JStr s) => s
  | Some JNull | None => stringify item
  | Some output => stringify output
  end.
Definition callText (item : json) : jstr :=
  let namePart := default [] (asString (prop (js "name") item)) in
  let argPart := match prop (js "arguments") item with
                 | Some (JStr s) => s
                 | Some JNull | None => js "{}"
                 | Some args => stringify args
                 end in
  trim (namePart ++ js " " ++ argPart).

Definition renderItem (item : json) : jstr :=
  let type := default (js "unknown") (itemType item) in
  if bool_decide (type = js "message") then
    js "[" ++ default (js "assistant") (itemRole item) ++ js "] " ++ truncateForTranscript (messageText item) 4000
  else if bool_decide (type = js "reasoning") then js "[reasoning] (omitted)"
  else if bool_decide (type ∈ RESULT_TYPES) then js "[tool_result] " ++ truncateForTranscript (resultText item) 2000
  else match assoc type TOOL_CALL_RESULT_TYPE_BY_CALL_TYPE with
       | Some _ => js "[tool_call " ++ type ++ js "] " ++ truncateForTranscript (callText item) 1000
       | None => js "[" ++ type ++ js "] " ++ truncateForTranscript (stringify item) 1000
       end.

Definition transcriptLength (lines : list jstr) : Z := foldr (fun line sum => size line + sum) 0 lines + Z.max 0 (Z.of_nat (length lines) - 1).

(** The oldest lines go until the rest fits. *)
Fixpoint dropOldest (prefix : list jstr) (last : list jstr) (maxChars : Z) : list jstr :=
  match prefix with
  | [] => []
  | _ :: rest => if maxChars <? transcriptLength (prefix ++ last) then dropOldest rest last maxChars else prefix
  end.

Definition renderCompactionPromptInputForChat (input : list json) (maxEstimatedTokens : option Z) : jstr :=
  let rendered := List.map renderItem input in
  let all := ParentWake.join ParentWake.newline rendered in
  match maxEstimatedTokens with
  | None => all
  | Some most =>
      if most <=? 0 then all
      else
        let maxChars := Z.max 1 (most * 4) in
        let last := drop (length rendered - 1) rendered in
        let kept := dropOldest (take (length rendered - 1) rendered) last maxChars in
        truncateMiddleByChars (ParentWake.join ParentWake.newline (kept ++ last)) maxChars
  end.

(** ** Sizes *)

Lemma size_app a b : size (a ++ b) = size a + size b.
Proof. unfold size. rewrite length_app. lia. Qed.
Lemma size_nonneg a : 0 <= size a.
Proof. unfold size. lia. Qed.
Lemma size_headOf n t : 0 <= n -> size (headOf n t) <= n.
Proof. unfold size, headOf. rewrite length_take. lia. Qed.
Lemma size_tailOf n t : 0 <= n -> size (tailOf n t) <= n.
Proof. unfold size, tailOf. rewrite length_drop. lia. Qed.

Lemma halves n : (n + 1) / 2 + n / 2 = n.
Proof. Z.to_euclidean_division_equations; lia. Qed.

Lemma truncateMiddle_size t n : 0 <= n -> size (truncateMiddleByChars t n) <= n.
Proof.
  intros Hn. unfold truncateMiddleByChars. destruct (_ <=? n) eqn:E; breflect; [done|].
  destruct (n <=? _) eqn:E2; breflect; [by apply size_headOf|].
  set (k := n - size USER_MESSAGE_TRUNCATION_MARKER) in *. rewrite !size_app.
  pose proof (size_headOf ((k + 1) / 2) t ltac:(apply Z.div_pos; lia)). pose proof (size_tailOf (k / 2) t ltac:(apply Z.div_pos; lia)). pose proof (halves k). lia.
Qed.

Lemma tokens_size t n : size t <= 4 * n -> estimatedTextTokens t <= n.
Proof. unfold estimatedTextTokens. intros H. assert ((size t + 3) / 4 < n + 1) by (apply Z.div_lt_upper_bound; lia). lia. Qed.

Lemma tokens_nonneg t : 0 <= estimatedTextTokens t.
Proof. unfold estimatedTextTokens. pose proof (size_nonneg t). apply Z.div_pos; lia. Qed.

Lemma truncateMiddle_tokens t n : estimatedTextTokens (truncateMiddleByEstimatedTokens t n) <= Z.max 0 n.
Proof.
  apply tokens_size. unfold truncateMiddleByEstimatedTokens. etransitivity; [apply truncateMiddle_size; lia|]. lia.
Qed.

Lemma estimateTokens_app a b : estimateTokens (a ++ b) = estimateTokens a + estimateTokens b.
Proof. unfold estimateTokens. induction a as [|x a IH]; cbn [app foldr]; lia. Qed.
Lemma estimateTokens_rev a : estimateTokens (rev a) = estimateTokens a.
Proof. induction a as [|x a IH]; [done|]. cbn [rev]. rewrite estimateTokens_app, IH. unfold estimateTokens. cbn [foldr]. lia. Qed.
Lemma estimateTokens_nonneg a : 0 <= estimateTokens a.
Proof. unfold estimateTokens. induction a as [|x a IH]; cbn [foldr]; [done|]. pose proof (tokens_nonneg (stringify x)). unfold estimateItemTokens, estimateTokens in *. lia. Qed.

(** ** The fallback *)

Lemma retainInstructions_spends items : forall remaining, 0 <= remaining ->
  estimateTokens (retainInstructions items remaining).1 + (retainInstructions items remaining).2 = remaining /\
  0 <= (retainInstructions items remaining).2.
Proof.
  induction items as [|x items IH]; intros r Hr; cbn [retainInstructions]; [by split|].
  destruct (negb _); [destruct (isUserMessage x); [by split|by apply IH]|]. destruct (r <=? 0); [by split|].
  destruct (compactMessageToEstimatedItemBudget _ _) as [capped|]; [|by apply IH].
  destruct (estimateItemTokens capped <=? r) eqn:E; [|by apply IH]. breflect. specialize (IH (r - estimateItemTokens capped) ltac:(lia)).
  destruct (retainInstructions items _) as [l r']. cbn [fst snd] in *. unfold estimateTokens in *. cbn [foldr]. lia.
Qed.

Lemma retainUsers_spends items : forall remaining, 0 <= remaining ->
  estimateTokens (retainUsers items remaining).1 + (retainUsers items remaining).2 = remaining /\
  0 <= (retainUsers items remaining).2.
Proof.
  induction items as [|x items IH]; intros r Hr; cbn [retainUsers]; [by split|].
  destruct (r <=? 0); [by split|]. destruct (_ || _); [by apply IH|].
  destruct (compactMessageToEstimatedItemBudget _ _) as [capped|]; [|by apply IH].
  destruct (estimateItemTokens capped <=? r) eqn:E; [|by apply IH]. breflect. specialize (IH (r - estimateItemTokens capped) ltac:(lia)).
  destruct (retainUsers items _) as [l r']. cbn [fst snd] in *. unfold estimateTokens in *. cbn [foldr]. lia.
Qed.

Lemma fallback_tokens items cause target :
  estimateTokens (buildDeterministicFallbackCompactionHistory items cause target) <=
  Z.max (fallbackTarget items target) (estimateItemTokens (fallbackSummary cause)).
Proof.
  unfold buildDeterministicFallbackCompactionHistory. cbv zeta.
  set (budget := Z.max 0 _). assert (Hb : 0 <= budget) by lia.
  destruct (retainInstructions_spends items budget Hb) as [H1 H2]. destruct (retainInstructions items budget) as [li r]. cbn [fst snd] in *.
  destruct (retainUsers_spends (rev items) r H2) as [H3 H4]. destruct (retainUsers (rev items) r) as [lu r']. cbn [fst snd] in *.
  rewrite !estimateTokens_app, estimateTokens_rev. unfold estimateTokens at 3. cbn [foldr].
  pose proof (tokens_nonneg (stringify (fallbackSummary cause))). unfold estimateItemTokens in *. lia.
Qed.

Lemma target_below items target : fallbackTarget items target <= Z.max 1 (estimateTokens items - 1).
Proof.
  unfold fallbackTarget. cbv zeta. set (requested := match target with None => _ | _ => _ end). clearbody requested. lia.
Qed.

Lemma retained_messages items cause target :
  exists l, buildDeterministicFallbackCompactionHistory items cause target = l ++ [fallbackSummary cause].
Proof.
  unfold buildDeterministicFallbackCompactionHistory. cbv zeta. destruct (retainInstructions _ _) as [li r].
  destruct (retainUsers _ _) as [lu r']. exists (li ++ rev lu). by rewrite app_assoc.
Qed.

(** ** Compacting again *)

Lemma prop_setContent k v item : js k <> js "content" -> prop (js k) (setContent v item) = prop (js k) item.
Proof. intros H. destruct item, v; try done. cbn. rewrite assoc_set_field. by rewrite bool_decide_eq_false_2. Qed.

Lemma content_setContent v fs : prop (js "content") (setContent (Some v) (JObj fs)) = Some v.
Proof. cbn. rewrite assoc_set_field. by rewrite bool_decide_eq_true_2. Qed.

Lemma set_field_twice k v w fs : set_field k v (set_field k w fs) = set_field k v fs.
Proof.
  induction fs as [|[j x] fs IH]; cbn; [by rewrite bool_decide_eq_true_2|].
  case_bool_decide as H; cbn; [by rewrite bool_decide_eq_true_2 by done|]. by rewrite bool_decide_eq_false_2, IH.
Qed.

Lemma set_field_same k v fs : assoc k fs = Some v -> set_field k v fs = fs.
Proof.
  induction fs as [|[j x] fs IH]; cbn; [done|]. case_bool_decide as H; [subst; by intros [= ->]|]. intros E. by rewrite IH.
Qed.

Lemma setContent_twice v w item : setContent (Some v) (setContent (Some w) item) = setContent (Some v) item.
Proof. destruct item; try done. cbn. by rewrite set_field_twice. Qed.

Lemma compact_keeps item n k : js k <> js "content" -> prop (js k) (compactMessageToTokenBudget item n) = prop (js k) item.
Proof. intros H. unfold compactMessageToTokenBudget. destruct (_ <? _); by apply prop_setContent. Qed.

Lemma compact_user item n : isUserMessage (compactMessageToTokenBudget item n) = isUserMessage item.
Proof. unfold isUserMessage, itemType, itemRole. by rewrite !compact_keeps by (vm_compute; discriminate). Qed.

Lemma compact_summary item n : isCompactionSummary (compactMessageToTokenBudget item n) = isCompactionSummary item.
Proof.
  unfold isCompactionSummary. rewrite compact_user. unfold COMPACTION_SUMMARY_MARKER. by rewrite compact_keeps by (vm_compute; discriminate).
Qed.

Lemma size_concat_filter (p : json -> bool) (f : json -> jstr) l : size (concat (List.map f (List.filter p l))) <= size (concat (List.map f l)).
Proof.
  induction l as [|x l IH]; cbn; [done|]. rewrite size_app. pose proof (size_nonneg (f x)).
  destruct (p x); cbn; rewrite ?size_app; lia.
Qed.

(** A message that was capped is within the cap, and capping it again changes
    nothing. *)
Lemma compact_tokens fs n : 0 <= n -> estimatedTextTokens (messageText (compactMessageToTokenBudget (JObj fs) n)) <= n.
Proof.
  intros Hn. unfold compactMessageToTokenBudget. destruct (n <? _) eqn:E; breflect.
  - unfold messageText at 1. rewrite content_setContent. pose proof (truncateMiddle_tokens (messageText (JObj fs)) n). lia.
  - etransitivity; [|exact E]. unfold contentWithoutImages. unfold messageText at 2.
    destruct (prop (js "content") (JObj fs)) as [c|] eqn:Ec; [|unfold messageText; cbn [setContent]; by rewrite Ec].
    destruct c; unfold messageText; rewrite content_setContent; try done.
    unfold estimatedTextTokens. apply Z.div_le_mono; [lia|]. pose proof (size_concat_filter (fun part => negb (isImage part)) partText l). lia.
Qed.

Lemma filter_twice {A} (p : A -> bool) l : List.filter p (List.filter p l) = List.filter p l.
Proof. induction l as [|x l IH]; [done|]. cbn. destruct (p x) eqn:E; cbn; [by rewrite E, IH|done]. Qed.

Lemma withoutImages_again fs v : contentWithoutImages (JObj fs) = Some v ->
  contentWithoutImages (setContent (Some v) (JObj fs)) = Some v.
Proof.
  unfold contentWithoutImages. rewrite content_setContent.
  destruct (prop (js "content") (JObj fs)) as [[]|]; intros [= <-]; try done. by rewrite filter_twice.
Qed.

Lemma compact_twice item n : 0 <= n -> isUserMessage item = true ->
  compactMessageToTokenBudget (compactMessageToTokenBudget item n) n = compactMessageToTokenBudget item n.
Proof.
  intros Hn Hu. destruct item as [| | | | |fs]; try done. pose proof (compact_tokens fs n Hn) as Ht.
  unfold compactMessageToTokenBudget at 1. rewrite (proj2 (Z.ltb_ge _ _) Ht).
  unfold compactMessageToTokenBudget. destruct (n <? estimatedTextTokens (messageText (JObj fs))).
  - unfold contentWithoutImages. rewrite content_setContent. apply setContent_twice.
  - destruct (contentWithoutImages (JObj fs)) as [v|] eqn:Ec.
    + rewrite (withoutImages_again fs v Ec). apply setContent_twice.
    + cbn [setContent]. by rewrite Ec.
Qed.

Definition retained (item : json) : bool := isUserMessage item && negb (isCompactionSummary item).

Lemma summary_marked body : isCompactionSummary (buildSummaryItem body) = true.
Proof. vm_compute. reflexivity. Qed.

(** Compacting a compacted history again keeps every user message as the
    first compaction left it and replaces the summary: it is the compaction of
    the original history with the new summary, so repeated compactions neither
    lose user messages, nor cut them further, nor pile up summaries. *)
Theorem compaction_absorbs items first second :
  buildCompactionReplacementHistory (buildCompactionReplacementHistory items first) second =
  buildCompactionReplacementHistory items second.
Proof.
  unfold buildCompactionReplacementHistory at 1 3. f_equal. unfold buildCompactionReplacementHistory. fold retained.
  set (cap := fun item => compactMessageToTokenBudget item COMPACT_USER_MESSAGE_MAX_TOKENS).
  assert (Hr : forall x, retained (cap x) = retained x) by (intros x; unfold retained, cap; by rewrite compact_user, compact_summary).
  rewrite List.filter_app. cbn [List.filter]. assert (retained (buildSummaryItem first) = false) as ->.
  { unfold retained. by rewrite summary_marked, andb_false_r. }
  rewrite app_nil_r. clear first. induction items as [|x l IH]; [done|]. cbn [List.filter].
  destruct (retained x) eqn:E; [|exact IH]. cbn [List.map List.filter]. rewrite Hr, E. cbn [List.map]. rewrite IH. f_equal.
  unfold cap. apply compact_twice; [unfold COMPACT_USER_MESSAGE_MAX_TOKENS; lia|]. by apply andb_true_iff in E as [? _].
Qed.

(** The fallback always fits: its estimate is within the target, unless the
    summary alone is larger; so whenever the summary is smaller than the history
    the fallback is strictly smaller than the history, and it always ends in the
    summary. *)
Theorem fallback_bounded items cause target :
  let out := buildDeterministicFallbackCompactionHistory items cause target in
  estimateTokens out <= Z.max (fallbackTarget items target) (estimateItemTokens (fallbackSummary cause)) /\
  (1 < estimateTokens items -> estimateItemTokens (fallbackSummary cause) < estimateTokens items -> estimateTokens out < estimateTokens items) /\
  exists l, out = l ++ [fallbackSummary cause].
Proof.
  cbv zeta. pose proof (fallback_tokens items cause target) as Hb. split_and!; [done| |apply retained_messages].
  intros H1 Hs. pose proof (target_below items target). lia.
Qed.

Definition longHistory : list json := [
  JObj [(js "type", JStr (js "message")); (js "role", JStr (js "developer")); (js "content", JStr (js "be careful"))];
  JObj [(js "type", JStr (js "message")); (js "role", JStr (js "user")); (js "content", JStr (repeat 97 3000))];
  JObj [(js "type", JStr (js "reasoning"))];
  JObj [(js "type", JStr (js "message")); (js "role", JStr (js "user")); (js "content", JStr (js "and now?"))]].

(** Here the summary is smaller than the history; the developer message and
    both user messages stay, the first of them cut in the middle. *)
Lemma fallback_bounded_witness :
  length (buildDeterministicFallbackCompactionHistory longHistory None None) = 4%nat /\
  estimateTokens (buildDeterministicFallbackCompactionHistory longHistory None None) < estimateTokens longHistory.
Proof.
  split; [vm_compute; reflexivity|].
  apply (proj1 (proj2 (fallback_bounded longHistory None None))); vm_compute; reflexivity.
Defined.

(** ** The budget guard and the transcript *)

Lemma boundaries_elem items b : b ∈ boundaries items -> exists item, items !! b = Some item /\ isUserMessage item = true.
Proof.
  unfold boundaries. intros H%list_elem_of_In. apply filter_In in H as [_ H].
  destruct (items !! b) as [item|]; [by exists item|done].
Qed.

(** A trimmed input starts at a user message; it fits, or it is the last turn. *)
Lemma budget_guard items maxTokens trailing :
  let r := enforceInputBudget items maxTokens trailing in
  kept r = drop (droppedCount r) items /\
  (trimmed r = true ->
     (exists item rest, kept r = item :: rest /\ isUserMessage item = true) /\
     (estimateTokens (kept r) <= Z.max 0 (maxTokens - Z.max 0 trailing) \/ droppedCount r = List.last (boundaries items) 0%nat)).
Proof.
  unfold enforceInputBudget. cbv zeta. destruct (_ || _); [by split|].
  set (budget := Z.max 0 _). destruct (findKeepBoundary items budget) as [|b] eqn:E; [by split|].
  cbn [kept droppedCount trimmed]. split; [done|]. intros _. unfold findKeepBoundary in E.
  destruct (boundaries items) as [|b0 bs] eqn:Eb; [done|]. rewrite <- Eb in E.
  assert (Hin : S b ∈ boundaries items /\ (estimateTokens (drop (S b) items) <= budget \/ S b = List.last (boundaries items) 0%nat)).
  { destruct (List.find _ (boundaries items)) as [x|] eqn:Ef; subst.
    - apply find_some in Ef as [Hin Hle]. breflect. split; [by apply list_elem_of_In|by left].
    - split; [|by right]. rewrite <- E, Eb. apply list_elem_of_In. destruct (exists_last (l := b0 :: bs)) as (l & x & ->); [done|].
      rewrite last_last. apply in_app_iff. right. by left. }
  destruct Hin as [Hin Hor]. apply boundaries_elem in Hin as (item & Hi & Hu). split; [|by rewrite Eb in Hor].
  exists item, (drop (S (S b)) items). split; [by apply drop_S|done].
Qed.

(** The transcript never exceeds its cap. *)
Lemma transcript_bounded input most : 0 < most ->
  size (renderCompactionPromptInputForChat input (Some most)) <= most * 4.
Proof.
  intros H. unfold renderCompactionPromptInputForChat. rewrite (proj2 (Z.leb_gt _ _) H). cbv zeta.
  match goal with |- context [truncateMiddleByChars ?t ?n] => pose proof (truncateMiddle_size t n) end. lia.
Qed.
End Compaction.
