(* ===== verification/CodexRotation.v ===== *)
(** * Credential rotation ([apps/worker/src/activities/codex-rotation.ts])

    A workspace connects several subscriptions; before a turn runs, one of them
    is chosen.  The policy is pure: it reads the accounts' cached usage windows,
    cooldowns and lease counts, the session's pin and the workspace's strategy,
    and answers an account, an idle until some account is available again, or
    nothing.  Times are milliseconds, percentages integers (their columns are).
    A strategy is the text of its column: any text but the ones compared with
    ranks by remaining quota. *)
From S2P Require Import Prelude.
#[local] Open Scope Z_scope.
#[local] Open Scope opengeni_scope.

Module CodexRotation.

(** [CodexAccountStatus | CodexLeaseAccountStatus]: the last three fields are
    zero or [None] for an account without lease data. *)
Record Account := {
  a_id : string;
  a_status : string;
  a_allocatorEnabled : bool;
  a_primaryUsedPercent : option Z;
  a_primaryResetAt : option Z;
  a_secondaryUsedPercent : option Z;
  a_secondaryResetAt : option Z;
  a_exhaustedUntil : option Z;
  a_connectorNamespaces : option (list string);
  a_activeLeaseCount : Z;
  a_selectionCount : Z;
  a_lastSelectedAt : option Z
}.
#[export] Instance etaAccount : Settable Account := fun a =>
  Build_Account (a_id a) (a_status a) (a_allocatorEnabled a) (a_primaryUsedPercent a) (a_primaryResetAt a)
    (a_secondaryUsedPercent a) (a_secondaryResetAt a) (a_exhaustedUntil a) (a_connectorNamespaces a)
    (a_activeLeaseCount a) (a_selectionCount a) (a_lastSelectedAt a).

(** ** The pin *)

Inductive CodexPinSource := pin_manual | pin_policy.
Inductive CodexPinDisposition := manual | sharded | clearStale | unpinned.

Definition classifyCodexPin (pinnedCredentialId : option string) (pinSource : option CodexPinSource)
  (strategy : string) (rotationEnabled : bool) : CodexPinDisposition :=
  let pinned := match pinnedCredentialId with Some _ => true | None => false end in
  let policy := match pinSource with Some pin_policy => true | _ => false end in
  if pinned && negb policy then manual
  else if rotationEnabled && String.eqb strategy "sharded" then sharded
  else if pinned && policy then clearStale
  else unpinned.

(** ** Health and eligibility *)

Definition MIN_IDLE_MS : Z := 60000.
Definition DEFAULT_RESET_COOLDOWN_MS : Z := 60000.

Definition effectiveWindowUsed (usedPercent resetAt : option Z) (now : Z) : Z :=
  match resetAt with
  | Some r => if r <=? now then 0 else default 0 usedPercent
  | None => default 0 usedPercent
  end.
Definition primaryUsed (acct : Account) (now : Z) : Z := effectiveWindowUsed (a_primaryUsedPercent acct) (a_primaryResetAt acct) now.
Definition secondaryUsed (acct : Account) (now : Z) : Z := effectiveWindowUsed (a_secondaryUsedPercent acct) (a_secondaryResetAt acct) now.
Definition bindingUsedPct (acct : Account) (now : Z) : Z := Z.max (primaryUsed acct now) (secondaryUsed acct now).
Definition bindingRemaining (acct : Account) (now : Z) : Z := Z.min (100 - primaryUsed acct now) (100 - secondaryUsed acct now).
Definition cooling (acct : Account) (now : Z) : bool := match a_exhaustedUntil acct with Some t => now <? t | None => false end.

Definition has (l : list string) (x : string) : bool := existsb (String.eqb x) l.
Definition covers (acct : Account) (usedConnectors : list string) : bool :=
  match usedConnectors with
  | [] => true
  | _ => match a_connectorNamespaces acct with
         | None => false
         | Some owned => forallb (has owned) usedConnectors
         end
  end.
Definition droppedConnectorsFor (acct : Account) (usedConnectors : list string) : list string :=
  match usedConnectors with
  | [] => []
  | _ => match a_connectorNamespaces acct with
         | None => usedConnectors
         | Some owned => List.filter (fun connector => negb (has owned connector)) usedConnectors
         end
  end.

Definition isCodexCredentialHealthy (acct : Account) (nearExhaustionPct now : Z) : bool :=
  String.eqb (a_status acct) "active" && negb (cooling acct now) && (bindingUsedPct acct now <? nearExhaustionPct).
Definition isCodexCredentialEligible (acct : Account) (nearExhaustionPct now : Z) : bool :=
  a_allocatorEnabled acct && isCodexCredentialHealthy acct nearExhaustionPct now.

(** ** When an account is available again *)

Definition isFuture (t : option Z) (now : Z) : bool := match t with Some t => now <? t | None => false end.
Definition windowClear (over : bool) (resetAt : option Z) (now : Z) : list Z :=
  if over then [if isFuture resetAt now then default 0 resetAt else now + DEFAULT_RESET_COOLDOWN_MS] else [].
Definition clearInstants (acct : Account) (nearExhaustionPct now : Z) : list Z :=
  (if isFuture (a_exhaustedUntil acct) now then [default 0 (a_exhaustedUntil acct)] else [])
  ++ windowClear (nearExhaustionPct <=? primaryUsed acct now) (a_primaryResetAt acct) now
  ++ windowClear (nearExhaustionPct <=? secondaryUsed acct now) (a_secondaryResetAt acct) now.
Definition availableAt (acct : Account) (nearExhaustionPct now : Z) : Z :=
  match clearInstants acct nearExhaustionPct now with
  | [] => now + DEFAULT_RESET_COOLDOWN_MS
  | c :: rest => foldl Z.max c rest
  end.

(** [None] when [reduce] throws: there is no account. *)
Definition earliest (times : list Z) : option Z :=
  match times with [] => None | t :: rest => Some (foldl Z.min t rest) end.
Definition earliestReset (accounts : list Account) (nearExhaustionPct now : Z) : option Z :=
  earliest (List.map (fun acct => availableAt acct nearExhaustionPct now) accounts).

Definition authoritativeInstants (acct : Account) (nearExhaustionPct now : Z) : list Z :=
  if negb (a_allocatorEnabled acct) || negb (String.eqb (a_status acct) "active") then []
  else
    (if isFuture (a_exhaustedUntil acct) now then [default 0 (a_exhaustedUntil acct)] else [])
    ++ (if (nearExhaustionPct <=? default 0 (a_primaryUsedPercent acct)) && isFuture (a_primaryResetAt acct) now
        then [default 0 (a_primaryResetAt acct)] else [])
    ++ (if (nearExhaustionPct <=? default 0 (a_secondaryUsedPercent acct)) && isFuture (a_secondaryResetAt acct) now
        then [default 0 (a_secondaryResetAt acct)] else []).
Definition authoritativeCodexCapacityResetAt (accounts : list Account) (nearExhaustionPct now : Z) : option Z :=
  earliest (concat (List.map (fun acct => authoritativeInstants acct nearExhaustionPct now) accounts)).

Definition computeIdleDelayMs (earliestResetAt now maxMs : Z) : Z := Z.min (Z.max (earliestResetAt - now) MIN_IDLE_MS) maxMs.

(** ** Reactive failover *)

Definition REACTIVE_PERSISTENCE_FAULT_FLOOR_MS : Z := 5000.
Definition REACTIVE_ROTATION_MARGIN : Z := 2.
Definition REACTIVE_CIRCUIT_BREAKER_IDLE_MS : Z := MIN_IDLE_MS.
Record ReactiveRotationResume := { continueDelayMs : Z; idleUntilReset : bool }.
Definition computeReactiveRotationResume (cooldownPersisted : bool) (priorConsecutiveRotations connectedAccountCount : Z)
  : ReactiveRotationResume :=
  let streak := priorConsecutiveRotations + 1 in
  let bound := connectedAccountCount + REACTIVE_ROTATION_MARGIN in
  if bound <? streak then {| continueDelayMs := REACTIVE_CIRCUIT_BREAKER_IDLE_MS; idleUntilReset := true |}
  else if negb cooldownPersisted then {| continueDelayMs := REACTIVE_PERSISTENCE_FAULT_FLOOR_MS; idleUntilReset := false |}
  else {| continueDelayMs := 0; idleUntilReset := false |}.

(** ** Shards *)

(** The 32-bit conversions of the bit operators and of [Math.imul]; [>>> 0]. *)
Definition imul (x y : Z) : Z := int32 (int32 x * int32 y).
Definition FNV_OFFSET : Z := 2166136261.
Definition FNV_PRIME : Z := 16777619.
Definition fnv1a32 (input : jstr) : Z :=
  uint32 (foldl (fun hash code => imul (Z.lxor (int32 hash) code) FNV_PRIME) FNV_OFFSET input).

Definition shardCredentialForSession (sessionId : string) (accounts : list Account) (nearExhaustionPct now : Z) : option string :=
  let eligibles := List.filter (fun acct => isCodexCredentialEligible acct nearExhaustionPct now) accounts in
  match eligibles with
  | [] => None
  | _ => a_id <$> eligibles !! Z.to_nat (fnv1a32 (js sessionId) mod Z.of_nat (length eligibles))
  end.

(** [Throws] is the [TypeError] of a [reduce] over no accounts. *)
Inductive ShardDecision :=
| Home (credentialId : string) (rewritePin : bool)
| ShardAllCapped (earliestResetAt : Z)
| ShardThrows.

Definition byId (accounts : list Account) (id : option string) : option Account :=
  match id with Some id => List.find (fun acct => String.eqb (a_id acct) id) accounts | None => None end.

Definition chooseShardedHome (sessionId : string) (currentPolicyPin : option string) (accounts : list Account)
  (nearExhaustionPct now : Z) : ShardDecision :=
  let kept := match byId accounts currentPolicyPin with
              | Some row => if isCodexCredentialEligible row nearExhaustionPct now then currentPolicyPin else None
              | None => None
              end in
  match kept with
  | Some pin => Home pin false
  | None =>
      match shardCredentialForSession sessionId accounts nearExhaustionPct now with
      | Some home => Home home true
      | None => match earliestReset accounts nearExhaustionPct now with
                | Some t => ShardAllCapped t
                | None => ShardThrows
                end
      end
  end.

(** ** The rankers *)

Inductive RotationDecision :=
| Active (credentialId : string) (moved : bool) (droppedConnectors : list string)
| AllCapped (earliestResetAt : Z)
| NoAccount
| Throws.

Record RankArgs := {
  r_rotationStrategy : string;
  r_activeCredentialId : option string;
  r_priorCredentialId : option string;
  r_accounts : list Account;
  r_nearExhaustionPct : Z;
  r_now : Z;
  r_usedConnectors : list string
}.
#[export] Instance etaRankArgs : Settable RankArgs := fun r =>
  Build_RankArgs (r_rotationStrategy r) (r_activeCredentialId r) (r_priorCredentialId r) (r_accounts r)
    (r_nearExhaustionPct r) (r_now r) (r_usedConnectors r).

Definition allCapped (accounts : list Account) (nearExhaustionPct now : Z) : RotationDecision :=
  match earliestReset accounts nearExhaustionPct now with Some t => AllCapped t | None => Throws end.

Definition isActive (id : string) (active : option string) : bool := bool_decide (active = Some id).

Definition decideRotation (args : RankArgs) (allocatable : list Account) (chosen : option Account) : RotationDecision :=
  match chosen with
  | None => allCapped allocatable (r_nearExhaustionPct args) (r_now args)
  | Some chosen => Active (a_id chosen) (negb (isActive (a_id chosen) (r_activeCredentialId args)))
                     (droppedConnectorsFor chosen (r_usedConnectors args))
  end.

(** [findIndex]; the list rotated to start after the prior account. *)
Fixpoint findIndex (accounts : list Account) (id : string) : option nat :=
  match accounts with
  | [] => None
  | acct :: accounts => if String.eqb (a_id acct) id then Some 0%nat else S <$> findIndex accounts id
  end.
Definition roundRobinOrder (allocatable : list Account) (priorCredentialId : option string) : list Account :=
  match priorCredentialId ≫= findIndex allocatable with
  | Some i => drop (S i) allocatable ++ take (S i) allocatable
  | None => allocatable
  end.

(** The [reduce] of [most_remaining]: the account kept of [best] and [acct]. *)
Definition better (now : Z) (best acct : Account) : Account :=
  if negb (a_activeLeaseCount acct =? a_activeLeaseCount best)
  then if a_activeLeaseCount acct <? a_activeLeaseCount best then acct else best
  else if negb (bindingRemaining acct now =? bindingRemaining best now)
  then if bindingRemaining best now <? bindingRemaining acct now then acct else best
  else if negb (a_selectionCount acct =? a_selectionCount best)
  then if a_selectionCount acct <? a_selectionCount best then acct else best
  else if default 0 (a_lastSelectedAt acct) <? default 0 (a_lastSelectedAt best) then acct else best.
Definition mostRemaining (now : Z) (pool : list Account) : option Account :=
  match pool with [] => None | acct :: rest => Some (foldl (better now) acct rest) end.

Definition chooseRotationActive (args : RankArgs) : RotationDecision :=
  let eligible acct := isCodexCredentialEligible acct (r_nearExhaustionPct args) (r_now args) in
  let allocatable := List.filter a_allocatorEnabled (r_accounts args) in
  let eligibles := List.filter eligible allocatable in
  let decide := decideRotation args allocatable in
  match allocatable with
  | [] => NoAccount
  | _ =>
      if String.eqb (r_rotationStrategy args) "round_robin" then
        match eligibles with
        | [] => allCapped allocatable (r_nearExhaustionPct args) (r_now args)
        | _ => decide (List.find eligible (roundRobinOrder allocatable (r_priorCredentialId args)))
        end
      else if String.eqb (r_rotationStrategy args) "drain_then_next" then
        match byId (r_accounts args) (r_priorCredentialId args) with
        | Some prior => if eligible prior then decide (Some prior) else decide (head eligibles)
        | None => decide (head eligibles)
        end
      else
        let covering := List.filter (fun acct => covers acct (r_usedConnectors args)) eligibles in
        decide (mostRemaining (r_now args) match covering with [] => eligibles | _ => covering end)
  end.

Definition withoutLeaseData (acct : Account) : Account :=
  acct <| a_activeLeaseCount := 0 |> <| a_selectionCount := 0 |> <| a_lastSelectedAt := None |>.
Definition chooseLegacyRotationActive (args : RankArgs) : RotationDecision :=
  let ranked := chooseRotationActive (args <| r_accounts ::= List.map withoutLeaseData |>) in
  if String.eqb (r_rotationStrategy args) "most_remaining" then
    match byId (r_accounts args) (r_activeCredentialId args) with
    | Some active => if isCodexCredentialEligible active (r_nearExhaustionPct args) (r_now args)
                     then Active (a_id active) false [] else ranked
    | None => ranked
    end
  else ranked.

(** ** The policy of one turn *)

Record SelectionContext := {
  c_accounts : list Account;
  c_activeCredentialId : option string;
  c_rotationEnabled : bool;
  c_leaseRotationEnabled : bool;
  c_rotationStrategy : string;
  c_existingCredentialId : option string
}.
#[export] Instance etaSelectionContext : Settable SelectionContext := fun c =>
  Build_SelectionContext (c_accounts c) (c_activeCredentialId c) (c_rotationEnabled c) (c_leaseRotationEnabled c)
    (c_rotationStrategy c) (c_existingCredentialId c).
Record SelectArgs := {
  s_context : SelectionContext;
  s_leasingEnabled : bool;
  s_sessionId : string;
  s_sessionPinnedCredentialId : option string;
  s_sessionPinSource : option CodexPinSource;
  s_sessionLastCredentialId : option string;
  s_continuationCredentialId : option string;
  s_nearExhaustionPct : Z;
  s_now : Z
}.
Record CodexTurnLeaseSelection := {
  sel_credentialId : option string;
  sel_decision : RotationDecision;
  (** [advanceActivePointer !== false] *)
  sel_advances : bool
}.

Definition sticky (args : SelectArgs) (id : option string) : option CodexTurnLeaseSelection :=
  match byId (c_accounts (s_context args)) id with
  | Some acct =>
      if isCodexCredentialHealthy acct (s_nearExhaustionPct args) (s_now args)
      then Some {| sel_credentialId := Some (a_id acct);
                   sel_decision := Active (a_id acct) (negb (isActive (a_id acct) (c_activeCredentialId (s_context args)))) [];
                   sel_advances := false |}
      else None
  | None => None
  end.

Definition selectManual (args : SelectArgs) : CodexTurnLeaseSelection :=
  match byId (c_accounts (s_context args)) (s_sessionPinnedCredentialId args) with
  | Some pinned =>
      if negb (a_allocatorEnabled pinned) then {| sel_credentialId := None; sel_decision := NoAccount; sel_advances := false |}
      else if isCodexCredentialHealthy pinned (s_nearExhaustionPct args) (s_now args)
      then {| sel_credentialId := Some (a_id pinned); sel_decision := Active (a_id pinned) false []; sel_advances := false |}
      else {| sel_credentialId := None;
              sel_decision := AllCapped (availableAt pinned (s_nearExhaustionPct args) (s_now args)); sel_advances := false |}
  | None => {| sel_credentialId := None; sel_decision := NoAccount; sel_advances := false |}
  end.

Definition selectSharded (args : SelectArgs) : CodexTurnLeaseSelection :=
  let accounts := c_accounts (s_context args) in
  match accounts with
  | [] => {| sel_credentialId := None; sel_decision := NoAccount; sel_advances := false |}
  | _ =>
      let policyPin := match s_sessionPinSource args with Some pin_policy => s_sessionPinnedCredentialId args | _ => None end in
      match chooseShardedHome (s_sessionId args) policyPin accounts (s_nearExhaustionPct args) (s_now args) with
      | ShardAllCapped t => {| sel_credentialId := None; sel_decision := AllCapped t; sel_advances := false |}
      | ShardThrows => {| sel_credentialId := None; sel_decision := Throws; sel_advances := false |}
      | Home id _ => {| sel_credentialId := Some id;
                        sel_decision := Active id (negb (isActive id (c_activeCredentialId (s_context args)))) [];
                        sel_advances := false |}
      end
  end.

(** The pointer or pin kept as it is, when its account still takes new turns. *)
Definition connected (args : SelectArgs) (id : option string) : option string :=
  match id with
  | Some i => if has (List.map a_id (List.filter a_allocatorEnabled (c_accounts (s_context args)))) i then Some i else None
  | None => None
  end.
Definition keepPointer (id : option string) : CodexTurnLeaseSelection :=
  {| sel_credentialId := id; sel_decision := match id with Some i => Active i false [] | None => NoAccount end; sel_advances := true |}.

Definition selectRanked (args : SelectArgs) (leasingEnabled : bool) : CodexTurnLeaseSelection :=
  let ctx := s_context args in
  let priorId := match s_sessionLastCredentialId args with Some id => Some id | None => c_activeCredentialId ctx end in
  let rank := {| r_rotationStrategy := c_rotationStrategy ctx; r_activeCredentialId := c_activeCredentialId ctx;
                 r_priorCredentialId := priorId; r_accounts := c_accounts ctx;
                 r_nearExhaustionPct := s_nearExhaustionPct args; r_now := s_now args;
                 r_usedConnectors := default [] (byId (c_accounts ctx) priorId ≫= a_connectorNamespaces) |} in
  let decision := if leasingEnabled then chooseRotationActive rank else chooseLegacyRotationActive rank in
  {| sel_credentialId := match decision with Active id _ _ => Some id | _ => None end; sel_decision := decision; sel_advances := true |}.

Definition selectNew (args : SelectArgs) : CodexTurnLeaseSelection :=
  let ctx := s_context args in
  let leasingEnabled := s_leasingEnabled args && c_leaseRotationEnabled ctx in
  match classifyCodexPin (s_sessionPinnedCredentialId args) (s_sessionPinSource args) (c_rotationStrategy ctx) (c_rotationEnabled ctx) with
  | manual => selectManual args
  | sharded => selectSharded args
  | disposition =>
      if negb (c_rotationEnabled ctx) then keepPointer (connected args (c_activeCredentialId ctx))
      else
        match leasingEnabled, disposition, s_sessionPinnedCredentialId args with
        | false, unpinned, Some _ =>
            keepPointer match connected args (s_sessionPinnedCredentialId args) with
                        | Some pin => Some pin
                        | None => connected args (c_activeCredentialId ctx)
                        end
        | _, _, _ => selectRanked args leasingEnabled
        end
  end.

Definition selectCodexCredentialLeaseForTurn (args : SelectArgs) : CodexTurnLeaseSelection :=
  match sticky args (c_existingCredentialId (s_context args)) with
  | Some selection => selection
  | None =>
      match sticky args (s_continuationCredentialId args) with
      | Some selection => selection
      | None => selectNew args
      end
  end.

(** ** Accounts found *)

Lemma byId_Some accounts id acct : byId accounts id = Some acct -> acct ∈ accounts /\ id = Some (a_id acct).
Proof.
  destruct id as [id|]; [|done]. intros [Hin E]%find_some. apply String.eqb_eq in E as <-. split; [by apply list_elem_of_In|done].
Qed.

Lemma has_elem l x : has l x = true <-> x ∈ l.
Proof.
  unfold has. rewrite existsb_exists. setoid_rewrite String.eqb_eq. setoid_rewrite <- list_elem_of_In.
  split; [by intros (? & ? & <-)|by exists x].
Qed.

Lemma connected_Some args id i : connected args id = Some i ->
  id = Some i /\ exists acct, acct ∈ c_accounts (s_context args) /\ a_id acct = i /\ a_allocatorEnabled acct = true.
Proof.
  unfold connected. destruct id as [j|]; [|done]. destruct (has _ j) eqn:E; [|done]. intros [= <-]. split; [done|].
  apply has_elem, list_elem_of_fmap in E as (acct & -> & [Hin Ha]%elem_filter). by exists acct.
Qed.

Lemma eligible_healthy acct near now : isCodexCredentialEligible acct near now = true ->
  isCodexCredentialHealthy acct near now = true /\ a_allocatorEnabled acct = true.
Proof. unfold isCodexCredentialEligible. by intros [? ?]%andb_true_iff. Qed.

(** ** Instants *)

Lemma foldl_max_ge rest : forall c x, x = c \/ x ∈ rest -> x <= foldl Z.max c rest.
Proof.
  induction rest as [|y rest IH]; intros c x Hx; cbn; [destruct Hx as [->|[]%elem_of_nil]; lia|].
  destruct Hx as [->|[->|Hx]%elem_of_cons].
  - transitivity (Z.max c y); [lia|]. by apply IH; left.
  - transitivity (Z.max c y); [lia|]. by apply IH; left.
  - by apply IH; right.
Qed.
Lemma foldl_max_in rest : forall c, foldl Z.max c rest = c \/ foldl Z.max c rest ∈ rest.
Proof.
  induction rest as [|y rest IH]; intros c; cbn; [by left|]. destruct (IH (Z.max c y)) as [->|H]; [|right; by right].
  destruct (Z.max_spec c y) as [[_ ->]|[_ ->]]; [right; left|by left].
Qed.
Lemma foldl_min_le rest : forall c x, x = c \/ x ∈ rest -> foldl Z.min c rest <= x.
Proof.
  induction rest as [|y rest IH]; intros c x Hx; cbn; [destruct Hx as [->|[]%elem_of_nil]; lia|].
  destruct Hx as [->|[->|Hx]%elem_of_cons].
  - transitivity (Z.min c y); [|lia]. by apply IH; left.
  - transitivity (Z.min c y); [|lia]. by apply IH; left.
  - by apply IH; right.
Qed.
Lemma foldl_min_in rest : forall c, foldl Z.min c rest = c \/ foldl Z.min c rest ∈ rest.
Proof.
  induction rest as [|y rest IH]; intros c; cbn; [by left|]. destruct (IH (Z.min c y)) as [->|H]; [|right; by right].
  destruct (Z.min_spec c y) as [[_ ->]|[_ ->]]; [by left|right; left].
Qed.

Lemma earliest_spec times t : earliest times = Some t -> t ∈ times /\ forall x, x ∈ times -> t <= x.
Proof.
  destruct times as [|c rest]; [done|]. intros [= <-]. split.
  - destruct (foldl_min_in rest c) as [->|H]; [left|by right].
  - intros x [->|Hx]%elem_of_cons; apply foldl_min_le; auto.
Qed.

Lemma windowClear_elem over resetAt now x : x ∈ windowClear over resetAt now ->
  over = true /\ now < x /\ (resetAt = Some x \/ isFuture resetAt now = false).
Proof.
  unfold windowClear. destruct over; [|by intros ?%elem_of_nil]. intros ->%list_elem_of_singleton. split; [done|].
  unfold isFuture, DEFAULT_RESET_COOLDOWN_MS. destruct resetAt as [r|]; [|split; [lia|by right]].
  destruct (now <? r) eqn:E; breflect; cbn; (split; [lia|]); [by left|by right].
Qed.

Lemma clearInstants_future acct near now x : x ∈ clearInstants acct near now -> now < x.
Proof.
  unfold clearInstants. rewrite !elem_of_app. intros [H|[H|H]]; [|apply windowClear_elem in H as (_ & H & _); exact H..].
  unfold isFuture in H. destruct (a_exhaustedUntil acct) as [t|]; [|by apply elem_of_nil in H].
  destruct (now <? t) eqn:E; [|by apply elem_of_nil in H]. breflect. apply list_elem_of_singleton in H as ->. exact E.
Qed.

(** An unknown or elapsed reset never yields a past instant. *)
Lemma availableAt_future acct near now : now < availableAt acct near now.
Proof.
  unfold availableAt. pose proof (clearInstants_future acct near now) as H.
  destruct (clearInstants acct near now) as [|c rest]; [unfold DEFAULT_RESET_COOLDOWN_MS; lia|].
  apply Z.lt_le_trans with c; [apply H; by left|apply foldl_max_ge; by left].
Qed.

Lemma availableAt_clears acct near now x : x ∈ clearInstants acct near now -> x <= availableAt acct near now.
Proof.
  unfold availableAt. destruct (clearInstants acct near now) as [|c rest]; [by intros ?%elem_of_nil|].
  intros Hx%elem_of_cons. by apply foldl_max_ge.
Qed.

Lemma earliestReset_future accounts near now t : earliestReset accounts near now = Some t -> now < t.
Proof.
  intros [(acct & -> & _)%list_elem_of_fmap _]%earliest_spec. apply availableAt_future.
Qed.

Lemma earliestReset_total accounts near now : accounts <> [] -> exists t, earliestReset accounts near now = Some t.
Proof. destruct accounts as [|a l]; [done|]. intros _. by eexists. Qed.

Lemma allCapped_cases accounts near now : accounts <> [] ->
  exists t, allCapped accounts near now = AllCapped t /\ earliestReset accounts near now = Some t /\ now < t.
Proof.
  intros H. destruct (earliestReset_total accounts near now H) as [t E]. exists t. unfold allCapped. rewrite E.
  split_and!; [done|done|by eapply earliestReset_future].
Qed.

(** ** What a ranker answers *)

Definition soundDecision (accounts : list Account) (near now : Z) (d : RotationDecision) : Prop :=
  match d with
  | Active id _ _ => exists acct, acct ∈ accounts /\ a_id acct = id /\ isCodexCredentialEligible acct near now = true
  | AllCapped t => now < t
  | NoAccount => True
  | Throws => False
  end.

Lemma allCapped_sound accounts allocatable near now : allocatable <> [] -> soundDecision accounts near now (allCapped allocatable near now).
Proof. intros H. by destruct (allCapped_cases allocatable near now H) as (t & -> & _ & ?). Qed.

Lemma decide_sound args allocatable chosen : allocatable <> [] ->
  (forall c, chosen = Some c -> c ∈ r_accounts args /\ isCodexCredentialEligible c (r_nearExhaustionPct args) (r_now args) = true) ->
  soundDecision (r_accounts args) (r_nearExhaustionPct args) (r_now args) (decideRotation args allocatable chosen).
Proof.
  intros Hne H. destruct chosen as [c|]; [|by apply allCapped_sound]. destruct (H c eq_refl). by exists c.
Qed.

Lemma foldl_better now rest : forall best, foldl (better now) best rest = best \/ foldl (better now) best rest ∈ rest.
Proof.
  induction rest as [|a rest IH]; intros best; cbn; [by left|].
  destruct (IH (better now best a)) as [->|H]; [|right; by right].
  unfold better. repeat case_match; first [by left | right; left].
Qed.

Lemma mostRemaining_elem now pool acct : mostRemaining now pool = Some acct -> acct ∈ pool.
Proof.
  destruct pool as [|a rest]; intros [= <-]. destruct (foldl_better now rest a) as [->|H]; [left|by right].
Qed.

Lemma roundRobinOrder_elem allocatable prior x : x ∈ roundRobinOrder allocatable prior -> x ∈ allocatable.
Proof.
  unfold roundRobinOrder. destruct (prior ≫= _) as [i|]; [|done]. intros [H|H]%elem_of_app.
  - rewrite <- (take_drop (S i) allocatable). apply elem_of_app. by right.
  - rewrite <- (take_drop (S i) allocatable). apply elem_of_app. by left.
Qed.

Lemma rank_sound args : soundDecision (r_accounts args) (r_nearExhaustionPct args) (r_now args) (chooseRotationActive args).
Proof.
  unfold chooseRotationActive. destruct (List.filter a_allocatorEnabled _) as [|a0 l0] eqn:Ea; [done|].
  assert (Hne : a0 :: l0 <> []) by done. rewrite <- Ea in Hne |- *. clear a0 l0 Ea. set (allocatable := List.filter _ _) in *.
  set (eligible := fun acct => isCodexCredentialEligible acct _ _).
  assert (Hin : forall x, x ∈ allocatable -> x ∈ r_accounts args) by (intros x [? _]%elem_filter; done).
  assert (Hel : forall x, x ∈ List.filter eligible allocatable -> x ∈ r_accounts args /\ eligible x = true).
  { intros x [Hx ?]%elem_filter. auto. }
  destruct (String.eqb _ "round_robin").
  { destruct (List.filter eligible allocatable); [by apply allCapped_sound|]. apply decide_sound; [done|].
    intros c [Hc He]%find_some. split; [|done]. by eapply Hin, roundRobinOrder_elem, list_elem_of_In. }
  assert (Hhead : forall c, head (List.filter eligible allocatable) = Some c -> c ∈ r_accounts args /\ eligible c = true).
  { intros c Hc. by apply Hel, head_elem. }
  destruct (String.eqb _ "drain_then_next").
  { destruct (byId _ _) as [prior|] eqn:Ep; [|by apply decide_sound]. destruct (isCodexCredentialEligible prior _ _) eqn:E; [|by apply decide_sound].
    apply decide_sound; [done|]. intros c [= <-]. by apply byId_Some in Ep as [? _]. }
  apply decide_sound; [done|]. intros c Hc%mostRemaining_elem.
  destruct (List.filter (fun acct => covers acct _) _) as [|x xs] eqn:Ec; [by apply Hel|].
  rewrite <- Ec in Hc. apply elem_filter in Hc as [Hc _]. by apply Hel.
Qed.

Lemma eligible_withoutLeaseData acct near now : isCodexCredentialEligible (withoutLeaseData acct) near now = isCodexCredentialEligible acct near now.
Proof. by destruct acct. Qed.

Lemma legacy_sound args : soundDecision (r_accounts args) (r_nearExhaustionPct args) (r_now args) (chooseLegacyRotationActive args).
Proof.
  assert (Hr : soundDecision (r_accounts args) (r_nearExhaustionPct args) (r_now args)
                 (chooseRotationActive (args <| r_accounts ::= List.map withoutLeaseData |>))).
  { pose proof (rank_sound (args <| r_accounts ::= List.map withoutLeaseData |>)) as H. cbn in H.
    destruct (chooseRotationActive _) as [id m dr|t| |]; try done. destruct H as (x & (acct & -> & Hin)%list_elem_of_fmap & Hid & He).
    rewrite eligible_withoutLeaseData in He. exists acct. split_and!; [done| |done]. by destruct acct. }
  unfold chooseLegacyRotationActive. destruct (String.eqb _ _); [|done]. destruct (byId _ _) as [a|] eqn:Ea; [|done].
  destruct (isCodexCredentialEligible a _ _) eqn:E; [|done]. apply byId_Some in Ea as [? _]. by exists a.
Qed.

Lemma shard_sound sessionId accounts near now home : shardCredentialForSession sessionId accounts near now = Some home ->
  exists acct, acct ∈ accounts /\ a_id acct = home /\ isCodexCredentialEligible acct near now = true.
Proof.
  unfold shardCredentialForSession. destruct (List.filter _ accounts) as [|a l] eqn:E; [done|]. rewrite <- E. clear a l E.
  destruct (_ !! _) as [acct|] eqn:El; [|done]. intros [= <-]. apply list_elem_of_lookup_2, elem_filter in El as [Hin He]. by exists acct.
Qed.

(** The index is always in range. *)
Lemma shard_total sessionId accounts near now : shardCredentialForSession sessionId accounts near now = None ->
  forall acct, acct ∈ accounts -> isCodexCredentialEligible acct near now = false.
Proof.
  unfold shardCredentialForSession. intros H acct Hin. apply not_true_iff_false. intros He.
  assert (Hf : acct ∈ List.filter (fun acct => isCodexCredentialEligible acct near now) accounts) by by apply elem_filter.
  destruct (List.filter _ accounts) as [|a l] eqn:E; [by apply elem_of_nil in Hf|].
  destruct (lookup_lt_is_Some_2 (a :: l) (Z.to_nat (fnv1a32 (js sessionId) mod Z.of_nat (length (a :: l))))) as [x Hx].
  { pose proof (Z.mod_pos_bound (fnv1a32 (js sessionId)) (Z.of_nat (length (a :: l))) ltac:(cbn [length]; lia)). lia. }
  by rewrite Hx in H.
Qed.

Lemma chooseShardedHome_sound sessionId pin accounts near now : accounts <> [] ->
  match chooseShardedHome sessionId pin accounts near now with
  | Home id rewritePin =>
      (exists acct, acct ∈ accounts /\ a_id acct = id /\ isCodexCredentialEligible acct near now = true) /\
      (rewritePin = false -> pin = Some id)
  | ShardAllCapped t => now < t /\ forall acct, acct ∈ accounts -> isCodexCredentialEligible acct near now = false
  | ShardThrows => False
  end.
Proof.
  intros Hne. unfold chooseShardedHome.
  assert (Hshard : match match shardCredentialForSession sessionId accounts near now with
                         | Some home => Home home true
                         | None => match earliestReset accounts near now with Some t => ShardAllCapped t | None => ShardThrows end
                         end with
                   | Home id rewritePin => (exists acct, acct ∈ accounts /\ a_id acct = id /\ isCodexCredentialEligible acct near now = true) /\
                                           (rewritePin = false -> pin = Some id)
                   | ShardAllCapped t => now < t /\ forall acct, acct ∈ accounts -> isCodexCredentialEligible acct near now = false
                   | ShardThrows => False
                   end).
  { destruct (shardCredentialForSession _ _ _ _) as [home|] eqn:Es; [split; [by eapply shard_sound|done]|].
    destruct (earliestReset_total accounts near now Hne) as [t Et]. rewrite Et. split; [by eapply earliestReset_future|].
    by eapply shard_total. }
  destruct (byId accounts pin) as [row|] eqn:Ep; [|done]. destruct (isCodexCredentialEligible row near now) eqn:E; [|done].
  apply byId_Some in Ep as [Hin ->]. split; [|done]. by exists row.
Qed.

(** ** The policy of a turn *)

Lemma sticky_sound args id sel : sticky args id = Some sel ->
  exists acct, acct ∈ c_accounts (s_context args) /\ id = Some (a_id acct) /\
    isCodexCredentialHealthy acct (s_nearExhaustionPct args) (s_now args) = true /\
    sel_credentialId sel = Some (a_id acct) /\ exists m, sel_decision sel = Active (a_id acct) m [].
Proof.
  unfold sticky. destruct (byId _ id) as [acct|] eqn:E; [|done]. destruct (isCodexCredentialHealthy acct _ _) eqn:Eh; [|done].
  intros [= <-]. apply byId_Some in E as [Hin ->]. exists acct. split_and!; eauto.
Qed.

(** What a provider says of an account that can serve a request: it is active,
    no cooldown runs, and in neither quota window has it reached the limit, a
    window whose reset has passed counting as unused. *)
Definition quotaLeft (near now : Z) (used resetAt : option Z) : Prop :=
  0 < near /\ (exists r, resetAt = Some r /\ r <= now) \/ default 0 used < near.
Definition usable (acct : Account) (near now : Z) : Prop :=
  a_status acct = "active"%string /\ (forall t, a_exhaustedUntil acct = Some t -> t <= now) /\
  quotaLeft near now (a_primaryUsedPercent acct) (a_primaryResetAt acct) /\
  quotaLeft near now (a_secondaryUsedPercent acct) (a_secondaryResetAt acct).
Lemma used_quotaLeft near now used resetAt : effectiveWindowUsed used resetAt now < near -> quotaLeft near now used resetAt.
Proof. unfold effectiveWindowUsed, quotaLeft. destruct resetAt as [r|]; [|auto]. destruct (r <=? now) eqn:E; breflect; [|auto]. left. eauto. Qed.
Lemma healthy_usable acct near now : isCodexCredentialHealthy acct near now = true -> usable acct near now.
Proof.
  unfold isCodexCredentialHealthy, bindingUsedPct, cooling. intros [[Hs%String.eqb_eq Hc%negb_true_iff]%andb_true_iff [Hp Hq]%Z.ltb_lt%Z.max_lub_lt_iff]%andb_true_iff.
  split_and!; [done| |by apply used_quotaLeft..]. intros t Ht. rewrite Ht in Hc. by apply Z.ltb_ge in Hc.
Qed.

(** A selection that may run on [id], and one that says why it cannot. *)
Definition mayRun (args : SelectArgs) (id : string) : Prop :=
  exists acct, acct ∈ c_accounts (s_context args) /\ a_id acct = id /\
    (usable acct (s_nearExhaustionPct args) (s_now args) \/
     c_rotationEnabled (s_context args) = false /\ c_activeCredentialId (s_context args) = Some id) /\
    (a_allocatorEnabled acct = true \/ c_existingCredentialId (s_context args) = Some id \/ s_continuationCredentialId args = Some id).
Definition soundSelection (args : SelectArgs) (sel : CodexTurnLeaseSelection) : Prop :=
  match sel_decision sel with
  | Active id _ _ => sel_credentialId sel = Some id /\ mayRun args id
  | AllCapped t => sel_credentialId sel = None /\ s_now args < t
  | NoAccount => sel_credentialId sel = None
  | Throws => False
  end.

Lemma eligible_mayRun args id :
  (exists acct, acct ∈ c_accounts (s_context args) /\ a_id acct = id /\
     isCodexCredentialEligible acct (s_nearExhaustionPct args) (s_now args) = true) -> mayRun args id.
Proof. intros (acct & Hin & Hid & [Hh%healthy_usable Ha]%eligible_healthy). exists acct. auto 6. Qed.

Lemma manual_sound args : soundSelection args (selectManual args).
Proof.
  unfold selectManual, soundSelection. destruct (byId _ _) as [p|] eqn:Ep; [|done]. destruct (a_allocatorEnabled p) eqn:Ea; [|done].
  cbn [negb]. apply byId_Some in Ep as [Hin _]. destruct (isCodexCredentialHealthy p _ _) eqn:E; cbn.
  - split; [done|]. apply healthy_usable in E. exists p. auto 6.
  - split; [done|apply availableAt_future].
Qed.

Lemma sharded_sound args : soundSelection args (selectSharded args).
Proof.
  unfold selectSharded, soundSelection. destruct (c_accounts (s_context args)) as [|a l] eqn:E; [done|].
  set (policyPin := match s_sessionPinSource args with Some pin_policy => _ | _ => None end).
  pose proof (chooseShardedHome_sound (s_sessionId args) policyPin (a :: l) (s_nearExhaustionPct args) (s_now args) ltac:(done)) as H.
  destruct (chooseShardedHome _ _ _ _ _); cbn; [|by destruct H|done]. split; [done|]. apply eligible_mayRun. rewrite E. apply H.
Qed.

Lemma ranked_sound args leasing : soundSelection args (selectRanked args leasing).
Proof.
  unfold selectRanked, soundSelection. cbv zeta. set (rank := Build_RankArgs _ _ _ _ _ _ _). cbn [sel_decision sel_credentialId].
  assert (H : soundDecision (c_accounts (s_context args)) (s_nearExhaustionPct args) (s_now args)
                (if leasing then chooseRotationActive rank else chooseLegacyRotationActive rank)).
  { destruct leasing; [apply (rank_sound rank)|apply (legacy_sound rank)]. }
  destruct (if leasing then _ else _); cbn in *; try done. split; [done|]. by apply eligible_mayRun.
Qed.

Lemma pointer_sound args : c_rotationEnabled (s_context args) = false ->
  soundSelection args (keepPointer (connected args (c_activeCredentialId (s_context args)))).
Proof.
  intros Hr. unfold soundSelection. destruct (connected _ _) as [id|] eqn:E; [|done]. cbn. split; [done|].
  apply connected_Some in E as (Hact & acct & Hin & Hid & Ha). exists acct. auto 6.
Qed.

(** A session without a pin never reaches the branch that keeps one: outside the
    sharded regime a pin is manual or stale. *)
Lemma unpinned_no_pin pin source strategy enabled : classifyCodexPin pin source strategy enabled = unpinned -> pin = None.
Proof. unfold classifyCodexPin. destruct pin, source as [[]|], enabled; cbn; try done; by destruct (String.eqb _ _). Qed.

Lemma selectNew_sound args : soundSelection args (selectNew args).
Proof.
  unfold selectNew. destruct (classifyCodexPin _ _ _ _) eqn:Ec; [apply manual_sound|apply sharded_sound|..];
    destruct (c_rotationEnabled (s_context args)) eqn:Er; cbn [negb]; try by apply pointer_sound.
  - destruct (_ && _); apply ranked_sound.
  - apply unpinned_no_pin in Ec as ->. destruct (_ && _); apply ranked_sound.
Qed.


(** ** Most remaining: the first best account *)

(** Fewer leases, then more remaining quota, then fewer selections, then longer
    unselected. *)
Definition preferred (now : Z) (a b : Account) : Prop :=
  a_activeLeaseCount a < a_activeLeaseCount b \/
  a_activeLeaseCount a = a_activeLeaseCount b /\
  (bindingRemaining b now < bindingRemaining a now \/
   bindingRemaining a now = bindingRemaining b now /\
   (a_selectionCount a < a_selectionCount b \/
    a_selectionCount a = a_selectionCount b /\ default 0 (a_lastSelectedAt a) < default 0 (a_lastSelectedAt b))).

Lemma better_cases now best acct :
  preferred now acct best /\ better now best acct = acct \/ ~ preferred now acct best /\ better now best acct = best.
Proof.
  unfold better, preferred.
  generalize (bindingRemaining acct now) as ra, (bindingRemaining best now) as rb,
    (default 0 (a_lastSelectedAt acct)) as la, (default 0 (a_lastSelectedAt best)) as lb. intros.
  destruct (negb (a_activeLeaseCount acct =? a_activeLeaseCount best)) eqn:E1; breflect;
    [destruct (_ <? _) eqn:E; breflect; [left|right]; (split; [lia|done])|].
  destruct (negb (ra =? rb)) eqn:E2; breflect; [destruct (rb <? ra) eqn:E; breflect; [left|right]; (split; [lia|done])|].
  destruct (negb (a_selectionCount acct =? a_selectionCount best)) eqn:E3; breflect;
    (destruct (_ <? _) eqn:E; breflect; [left|right]; (split; [lia|done])).
Qed.

Definition firstBest (now : Z) (pool : list Account) (a : Account) : Prop :=
  exists l1 l2, pool = l1 ++ a :: l2 /\ Forall (preferred now a) l1 /\ Forall (fun b => ~ preferred now b a) l2.

Lemma foldl_firstBest now rest : forall best, firstBest now (best :: rest) (foldl (better now) best rest).
Proof.
  induction rest as [|x rest IH]; intros best; [exists [], []; split_and!; constructor|]. cbn [foldl].
  destruct (IH (better now best x)) as (l1 & l2 & Hl & H1 & H2). set (a := foldl _ _ _) in *. clearbody a. clear IH.
  destruct (better_cases now best x) as [[Hp E]|[Hp E]]; rewrite E in Hl; destruct l1 as [|y l1]; injection Hl as Hy Hl; subst.
  - exists [best], l2. split_and!; [done|constructor; [exact Hp|constructor]|done].
  - exists (best :: y :: l1), l2. split_and!; [done| |done]. apply Forall_cons. split; [|done].
    apply Forall_cons in H1 as [H1 _]. unfold preferred in *. lia.
  - exists [], (x :: l2). split_and!; [done|constructor|]. by apply Forall_cons.
  - exists (y :: x :: l1), l2. apply Forall_cons in H1 as [Hy H1]. split_and!; [done| |done].
    apply Forall_cons. split; [done|]. apply Forall_cons. split; [|done]. unfold preferred in *. lia.
Qed.

(** The accounts [most_remaining] chooses from. *)
Definition candidates (args : RankArgs) : list Account :=
  List.filter (fun acct => isCodexCredentialEligible acct (r_nearExhaustionPct args) (r_now args)) (r_accounts args).
Definition coveringCandidates (args : RankArgs) : list Account :=
  List.filter (fun acct => covers acct (r_usedConnectors args)) (candidates args).
Definition tier (args : RankArgs) : list Account :=
  match coveringCandidates args with [] => candidates args | _ => coveringCandidates args end.

Lemma eligible_allocatable accounts near now :
  List.filter (fun acct => isCodexCredentialEligible acct near now) (List.filter a_allocatorEnabled accounts) =
  List.filter (fun acct => isCodexCredentialEligible acct near now) accounts.
Proof. apply filter_filter. intros x Hx. by apply eligible_healthy in Hx as [_ ?]. Qed.

(** The default branch, written over the tier. *)
Lemma choose_default args : r_rotationStrategy args <> "round_robin" -> r_rotationStrategy args <> "drain_then_next" ->
  List.filter a_allocatorEnabled (r_accounts args) <> [] ->
  chooseRotationActive args =
    decideRotation args (List.filter a_allocatorEnabled (r_accounts args)) (mostRemaining (r_now args) (tier args)).
Proof.
  intros H1%String.eqb_neq H2%String.eqb_neq H3. unfold chooseRotationActive. rewrite H1, H2, eligible_allocatable.
  by destruct (List.filter a_allocatorEnabled _).
Qed.

Lemma mostRemaining_firstBest now pool a : mostRemaining now pool = Some a -> firstBest now pool a.
Proof. destruct pool as [|b rest]; intros [= <-]. apply foldl_firstBest. Qed.

Lemma mostRemaining_None now pool : mostRemaining now pool = None -> pool = [].
Proof. by destruct pool. Qed.

(** Nobody in the pool has fewer leases than the chosen one. *)
Lemma firstBest_leases now pool a b : firstBest now pool a -> b ∈ pool -> a_activeLeaseCount a <= a_activeLeaseCount b.
Proof.
  intros (l1 & l2 & -> & H1 & H2) Hb. rewrite Forall_forall in H1, H2. unfold preferred in *.
  apply elem_of_app in Hb as [Hb|[->|Hb]%elem_of_cons]; [specialize (H1 b Hb)| |specialize (H2 b Hb)]; lia.
Qed.

Lemma firstBest_elem now pool a : firstBest now pool a -> a ∈ pool.
Proof. intros (l1 & l2 & -> & _). apply elem_of_app. right. left. Qed.

(** The default strategy takes the best account of the whole eligible pool,
    every turn: among the accounts that own the session's connectors, or among
    all eligible ones when none does, the first with the fewest live leases,
    then the most remaining quota, then the fewest selections, then the longest
    unselected; it warns of exactly the connectors that are lost, and idles only
    when no account is eligible. *)
Theorem most_remaining_optimal args :
  r_rotationStrategy args <> "round_robin" -> r_rotationStrategy args <> "drain_then_next" ->
  match chooseRotationActive args with
  | Active id moved dropped =>
      exists a, firstBest (r_now args) (tier args) a /\ a_id a = id /\
        (moved = true <-> r_activeCredentialId args <> Some id) /\
        (coveringCandidates args <> [] -> dropped = []) /\
        (forall c, c ∈ dropped <-> c ∈ r_usedConnectors args /\ ~ exists owned, a_connectorNamespaces a = Some owned /\ c ∈ owned)
  | _ => candidates args = []
  end.
Proof.
  intros H1 H2. destruct (List.filter a_allocatorEnabled (r_accounts args)) as [|a0 l0] eqn:Ea.
  { unfold chooseRotationActive. rewrite Ea. unfold candidates. by rewrite <- eligible_allocatable, Ea. }
  rewrite choose_default by (done || by rewrite Ea). rewrite Ea. destruct (mostRemaining _ _) as [a|] eqn:Em; unfold decideRotation.
  2: { destruct (allCapped_cases (a0 :: l0) (r_nearExhaustionPct args) (r_now args) ltac:(done)) as (t & -> & _).
       apply mostRemaining_None in Em. unfold tier in Em. by destruct (coveringCandidates args). }
  apply mostRemaining_firstBest in Em as Hb.
  - exists a. split_and!; [done|done| | |].
    + unfold isActive. rewrite negb_true_iff, bool_decide_eq_false. done.
    + intros Hne. assert (Hc : covers a (r_usedConnectors args) = true).
      { apply firstBest_elem in Hb as Hin.
        unfold tier in Hin. destruct (coveringCandidates args) as [|x l] eqn:Ec; [done|]. rewrite <- Ec in Hin.
        by apply elem_filter in Hin as [_ ?]. }
      unfold covers, droppedConnectorsFor in *. destruct (r_usedConnectors args) as [|c cs]; [done|].
      destruct (a_connectorNamespaces a) as [owned|]; [|done]. apply filter_none, Forall_forall. intros x Hx.
      rewrite forallb_forall in Hc. rewrite Hc by by apply list_elem_of_In. done.
    + intros c. unfold droppedConnectorsFor. destruct (r_usedConnectors args) as [|c0 cs]; [set_solver|].
      destruct (a_connectorNamespaces a) as [owned|].
      * rewrite elem_filter, negb_true_iff, <- not_true_iff_false, has_elem. naive_solver.
      * split; [|naive_solver]. intros Hin. split; [done|]. by intros (? & ? & _).
Qed.

(** ** Idling until an account is available *)

(** While a window's reset is ahead its percentage stands; afterwards it is 0. *)
Lemma window_later used resetAt now later near : 0 < near -> now <= later ->
  effectiveWindowUsed used resetAt now < near -> effectiveWindowUsed used resetAt later < near.
Proof.
  unfold effectiveWindowUsed. intros ? ? H. destruct resetAt as [r|]; [|done].
  destruct (r <=? now) eqn:E1, (r <=? later) eqn:E2; breflect; lia.
Qed.

Lemma window_blocked used resetAt now later near : 0 < near -> now <= later ->
  near <= effectiveWindowUsed used resetAt now -> (forall x, x ∈ windowClear true resetAt now -> later < x) ->
  isFuture resetAt now = true -> near <= effectiveWindowUsed used resetAt later.
Proof.
  unfold windowClear, effectiveWindowUsed, isFuture. intros ? ? H Hx Hf. destruct resetAt as [r|]; [|done].
  rewrite Hf in Hx. specialize (Hx r ltac:(left)). destruct (r <=? now) eqn:E1, (r <=? later) eqn:E2; breflect; lia.
Qed.

Lemma window_unknown used resetAt now later near : 0 < near ->
  near <= effectiveWindowUsed used resetAt now -> isFuture resetAt now = false -> near <= effectiveWindowUsed used resetAt later.
Proof.
  unfold effectiveWindowUsed, isFuture. intros ? H Hf. destruct resetAt as [r|]; [|done]. breflect.
  destruct (r <=? now) eqn:E1; breflect; lia.
Qed.

(** A blocked window stays blocked before its clear instant. *)
Lemma window_before used resetAt now later near : 0 < near -> now <= later ->
  near <= effectiveWindowUsed used resetAt now -> (forall x, x ∈ windowClear true resetAt now -> later < x) ->
  near <= effectiveWindowUsed used resetAt later.
Proof.
  intros. destruct (isFuture resetAt now) eqn:E; [by eapply window_blocked|by eapply window_unknown].
Qed.

Lemma clear_primary acct near now x : near <= primaryUsed acct now -> x ∈ windowClear true (a_primaryResetAt acct) now ->
  x ∈ clearInstants acct near now.
Proof. intros H%Z.leb_le Hx. unfold clearInstants. rewrite !elem_of_app, H. auto. Qed.
Lemma clear_secondary acct near now x : near <= secondaryUsed acct now -> x ∈ windowClear true (a_secondaryResetAt acct) now ->
  x ∈ clearInstants acct near now.
Proof. intros H%Z.leb_le Hx. unfold clearInstants. rewrite !elem_of_app, H. auto. Qed.
Lemma clear_cooldown acct near now t : a_exhaustedUntil acct = Some t -> now < t -> t ∈ clearInstants acct near now.
Proof.
  intros H Ht%Z.ltb_lt. unfold clearInstants. rewrite !elem_of_app. left. unfold isFuture. rewrite H, Ht. cbn. by left.
Qed.

Lemma healthy_iff acct near now : isCodexCredentialHealthy acct near now = true <->
  a_status acct = "active" /\ cooling acct now = false /\ primaryUsed acct now < near /\ secondaryUsed acct now < near.
Proof.
  unfold isCodexCredentialHealthy, bindingUsedPct. rewrite !andb_true_iff, negb_true_iff, String.eqb_eq, Z.ltb_lt.
  rewrite Z.max_lub_lt_iff. tauto.
Qed.

Lemma no_clear_instant acct near now : clearInstants acct near now = [] -> a_status acct = "active" ->
  isCodexCredentialHealthy acct near now = true.
Proof.
  intros [E1 [E2 E3]%app_eq_nil]%app_eq_nil Hs. apply healthy_iff. unfold windowClear in *. split_and!; [done| | |].
  - unfold cooling, isFuture in *. destruct (a_exhaustedUntil acct); [|done]. by destruct (now <? z).
  - by destruct (near <=? primaryUsed acct now) eqn:E; breflect.
  - by destruct (near <=? secondaryUsed acct now) eqn:E; breflect.
Qed.

Lemma availableAt_in acct near now : clearInstants acct near now <> [] -> availableAt acct near now ∈ clearInstants acct near now.
Proof.
  unfold availableAt. destruct (clearInstants acct near now) as [|c rest]; [done|]. intros _.
  destruct (foldl_max_in rest c) as [->|H]; [left|by right].
Qed.

Lemma windowClear_single over resetAt now x y : x ∈ windowClear over resetAt now -> y ∈ windowClear over resetAt now -> y = x.
Proof. unfold windowClear. destruct over; [|by intros ?%elem_of_nil]. by intros ->%list_elem_of_singleton ->%list_elem_of_singleton. Qed.

Lemma unhealthy_until acct near now later : 0 < near -> now <= later < availableAt acct near now ->
  isCodexCredentialHealthy acct near now = false -> isCodexCredentialHealthy acct near later = false.
Proof.
  intros Hn [Hl Ht] Hu. apply not_true_iff_false. intros (Hs & Hc & H1 & H2)%healthy_iff.
  destruct (decide (clearInstants acct near now = [])) as [E|E].
  { by rewrite (no_clear_instant acct near now E Hs) in Hu. }
  apply availableAt_in in E. set (t := availableAt _ _ _) in *. clearbody t. unfold clearInstants in E.
  rewrite !elem_of_app in E. destruct E as [E|[E|E]].
  - unfold isFuture, cooling in *. destruct (a_exhaustedUntil acct) as [u|]; [|by apply elem_of_nil in E].
    destruct (now <? u); [|by apply elem_of_nil in E]. apply list_elem_of_singleton in E. cbn in E. breflect. lia.
  - pose proof (windowClear_elem _ _ _ _ E) as [Ho%Z.leb_le _]. rewrite (proj2 (Z.leb_le _ _) Ho) in E.
    assert (near <= primaryUsed acct later); [|lia]. eapply window_before; [done|done|exact Ho|].
    intros x Hx. by rewrite (windowClear_single _ _ _ _ _ E Hx).
  - pose proof (windowClear_elem _ _ _ _ E) as [Ho%Z.leb_le _]. rewrite (proj2 (Z.leb_le _ _) Ho) in E.
    assert (near <= secondaryUsed acct later); [|lia]. eapply window_before; [done|done|exact Ho|].
    intros x Hx. by rewrite (windowClear_single _ _ _ _ _ E Hx).
Qed.

Lemma roundRobinOrder_perm allocatable prior x : x ∈ allocatable -> x ∈ roundRobinOrder allocatable prior.
Proof.
  unfold roundRobinOrder. destruct (prior ≫= _) as [i|]; [|done]. rewrite <- (take_drop (S i) allocatable) at 1.
  rewrite !elem_of_app. tauto.
Qed.

(** An account whose blocks all have an end on record. *)
Definition known (near now : Z) (acct : Account) : Prop :=
  a_status acct = "active" /\
  (near <= primaryUsed acct now -> isFuture (a_primaryResetAt acct) now = true) /\
  (near <= secondaryUsed acct now -> isFuture (a_secondaryResetAt acct) now = true).

Lemma window_cleared used resetAt now t near : 0 < near -> now <= t ->
  (near <= effectiveWindowUsed used resetAt now -> isFuture resetAt now = true) ->
  (near <= effectiveWindowUsed used resetAt now -> forall x, x ∈ windowClear true resetAt now -> x <= t) ->
  effectiveWindowUsed used resetAt t < near.
Proof.
  intros Hn Ht Hf Hx. destruct (Z.lt_ge_cases (effectiveWindowUsed used resetAt now) near) as [H|H]; [by eapply window_later|].
  specialize (Hf H). specialize (Hx H). unfold windowClear, isFuture, effectiveWindowUsed in *. destruct resetAt as [r|]; [|done].
  rewrite Hf in Hx. specialize (Hx r ltac:(left)). destruct (r <=? t) eqn:E; breflect; [done|lia].
Qed.

Lemma healthy_at acct near now : 0 < near -> known near now acct -> isCodexCredentialHealthy acct near (availableAt acct near now) = true.
Proof.
  intros Hn (Hs & H1 & H2). pose proof (availableAt_future acct near now) as Hf.
  pose proof (availableAt_clears acct near now) as Hc. apply healthy_iff. split_and!; [done| | |].
  - unfold cooling. destruct (a_exhaustedUntil acct) as [u|] eqn:E; [|done]. apply Z.ltb_ge.
    destruct (Z.lt_ge_cases now u) as [Hu|Hu]; [|lia]. by apply Hc, clear_cooldown.
  - eapply window_cleared; [done| |exact H1|]; [lia|]. intros H x Hx. by apply Hc, clear_primary.
  - eapply window_cleared; [done| |exact H2|]; [lia|]. intros H x Hx. by apply Hc, clear_secondary.
Qed.

Lemma rank_allCapped args t : chooseRotationActive args = AllCapped t ->
  candidates args = [] /\ earliestReset (List.filter a_allocatorEnabled (r_accounts args)) (r_nearExhaustionPct args) (r_now args) = Some t.
Proof.
  unfold chooseRotationActive. rewrite eligible_allocatable. fold (candidates args).
  destruct (List.filter a_allocatorEnabled _) as [|a0 l0] eqn:Ea; [done|]. rewrite <- Ea. assert (Hne : a0 :: l0 <> []) by done. rewrite <- Ea in Hne. clear Ea.
  set (allocatable := List.filter _ _) in *.
  assert (Hd : forall chosen, decideRotation args allocatable chosen = AllCapped t ->
    chosen = None /\ earliestReset allocatable (r_nearExhaustionPct args) (r_now args) = Some t).
  { intros chosen. unfold decideRotation. destruct chosen; [done|].
    destruct (allCapped_cases allocatable (r_nearExhaustionPct args) (r_now args) Hne) as (t' & -> & -> & _). by intros [= ->]. }
  assert (Hh : head (candidates args) = None -> candidates args = []) by by destruct (candidates args).
  destruct (String.eqb _ "round_robin").
  { destruct (candidates args) as [|c l] eqn:Ec; [intros [_ H]%(Hd None); by split|]. intros [Hf H']%Hd. exfalso.
    assert (Hc : c ∈ candidates args) by (rewrite Ec; left). unfold candidates in Hc. rewrite <- eligible_allocatable in Hc.
    apply elem_filter in Hc as [Hc He]. eapply find_none in Hf; [by rewrite He in Hf|]. by apply list_elem_of_In, roundRobinOrder_perm. }
  destruct (String.eqb _ "drain_then_next").
  { destruct (byId _ _) as [p|]; [destruct (isCodexCredentialEligible p _ _); [done|]|]; intros [H H']%Hd; auto. }
  intros [H H']%Hd. split; [|done]. fold (coveringCandidates args) in H. destruct (coveringCandidates args) as [|c l] eqn:Ec; [|done].
  by destruct (candidates args).
Qed.

(** An idle lasts exactly as long as it must.  With the usage data as it is,
    no account that takes new turns is eligible before the instant the turn
    idles until; and if every block of theirs has an end on record, one of them
    is eligible at that instant. *)
Theorem idle_exact args t : 0 < r_nearExhaustionPct args -> chooseRotationActive args = AllCapped t ->
  r_now args < t /\
  (forall acct later, acct ∈ r_accounts args -> r_now args <= later < t ->
     isCodexCredentialEligible acct (r_nearExhaustionPct args) later = false) /\
  (Forall (fun acct => a_allocatorEnabled acct = true -> known (r_nearExhaustionPct args) (r_now args) acct) (r_accounts args) ->
     exists acct, acct ∈ r_accounts args /\ isCodexCredentialEligible acct (r_nearExhaustionPct args) t = true).
Proof.
  intros Hn [Hc Ht]%rank_allCapped. split; [by eapply earliestReset_future|]. apply earliest_spec in Ht as [Hin Hmin]. split.
  - intros acct later Ha Hl. unfold isCodexCredentialEligible. destruct (a_allocatorEnabled acct) eqn:Ee; [cbn [andb]|done].
    apply unhealthy_until with (r_now args); [done| |].
    + split; [lia|]. apply Z.lt_le_trans with t; [lia|]. apply Hmin, list_elem_of_fmap. exists acct. split; [done|]. by apply elem_filter.
    + apply not_true_iff_false. intros Hh. assert (Hx : acct ∈ candidates args); [|by rewrite Hc in Hx; apply elem_of_nil in Hx].
      apply elem_filter. split; [done|]. unfold isCodexCredentialEligible. by rewrite Ee, Hh.
  - intros Hk. apply list_elem_of_fmap in Hin as (acct & -> & [Ha Ee]%elem_filter). exists acct. split; [done|].
    rewrite Forall_forall in Hk. unfold isCodexCredentialEligible. rewrite Ee. by apply healthy_at, Hk.
Qed.

(** The clamped delay is positive and bounded. *)
Lemma idle_delay_bounds earliestResetAt now maxMs : MIN_IDLE_MS <= maxMs ->
  MIN_IDLE_MS <= computeIdleDelayMs earliestResetAt now maxMs <= maxMs.
Proof. unfold computeIdleDelayMs. lia. Qed.

(** At most [accounts + 2] failovers in a row are redispatched without a pause. *)
Lemma reactive_bounded persisted prior accounts :
  continueDelayMs (computeReactiveRotationResume persisted prior accounts) = 0 -> persisted = true /\ prior < accounts + REACTIVE_ROTATION_MARGIN.
Proof. unfold computeReactiveRotationResume. destruct (_ <? _) eqn:E, persisted; cbn; breflect; try done. lia. Qed.

(** ** Round robin *)

(** The accounts that serve the next [n] turns, each turn starting from the last. *)
Fixpoint served (n : nat) (args : RankArgs) (prior : string) : list string :=
  match n with
  | O => []
  | S n => match chooseRotationActive (args <| r_priorCredentialId := Some prior |>) with
           | Active id _ _ => id :: served n args id
           | _ => []
           end
  end.

Lemma findIndex_split l1 a l2 : ~ a_id a ∈ List.map a_id l1 -> findIndex (l1 ++ a :: l2) (a_id a) = Some (length l1).
Proof.
  induction l1 as [|x l1 IH]; intros H; cbn; [by rewrite String.eqb_refl|].
  destruct (String.eqb_spec (a_id x) (a_id a)) as [E|_]; [destruct H; cbn; rewrite E; left|].
  rewrite IH; [done|]. intros Hin. apply H. cbn. by right.
Qed.

Lemma roundRobin_split l1 a l2 : NoDup (List.map a_id (l1 ++ a :: l2)) ->
  roundRobinOrder (l1 ++ a :: l2) (Some (a_id a)) = l2 ++ l1 ++ [a].
Proof.
  intros Hnd. unfold roundRobinOrder. cbn [mbind option_bind]. rewrite findIndex_split.
  - rewrite <- (Nat.add_1_r (length l1)), <- drop_drop, drop_app_length. cbn [drop].
    rewrite (cons_middle a l1 l2), (app_assoc l1 [a] l2), take_app_length' by (rewrite length_app; cbn; lia). done.
  - rewrite List.map_app in Hnd. apply NoDup_app in Hnd as (_ & H & _). intros Hin. apply (H _ Hin). cbn. left.
Qed.

(** The next account is the cyclic successor in the eligible list. *)
Lemma round_robin_next args a l1 l2 : r_rotationStrategy args = "round_robin" -> NoDup (List.map a_id (r_accounts args)) ->
  candidates args = l1 ++ a :: l2 ->
  exists moved dropped c, chooseRotationActive (args <| r_priorCredentialId := Some (a_id a) |>) = Active (a_id c) moved dropped /\
    head (l2 ++ l1 ++ [a]) = Some c.
Proof.
  intros Hs Hnd Hc. unfold chooseRotationActive. cbn [r_rotationStrategy r_accounts r_nearExhaustionPct r_now r_priorCredentialId setWith].
  rewrite Hs, String.eqb_refl. set (eligible := fun acct => isCodexCredentialEligible acct _ _).
  set (allocatable := List.filter a_allocatorEnabled _).
  assert (Hcand : List.filter eligible allocatable = l1 ++ a :: l2) by (rewrite <- Hc; apply eligible_allocatable).
  assert (a ∈ List.filter eligible allocatable) as [Ha He]%elem_filter by (rewrite Hcand; set_solver).
  assert (Hnda : NoDup (List.map a_id allocatable)) by by apply NoDup_map_filter.
  destruct (list_elem_of_split _ _ Ha) as (m1 & m2 & Hm).
  assert (Hnot : forall x y, List.map a_id allocatable = x ++ a_id a :: y -> a_id a ∉ x).
  { intros x y E Hin. rewrite E in Hnda. apply NoDup_app in Hnda as (_ & Hd & _). apply (Hd _ Hin). left. }
  assert (l1 = List.filter eligible m1 /\ l2 = List.filter eligible m2) as [-> ->].
  { rewrite Hm, List.filter_app in Hcand. cbn [List.filter] in Hcand. rewrite He in Hcand. symmetry in Hcand.
    assert (Ha1 : a ∉ m1).
    { intros Hin. apply (Hnot (List.map a_id m1) (List.map a_id m2)); [by rewrite Hm, List.map_app|by apply list_elem_of_fmap_2]. }
    apply split_unique in Hcand; [done| |by intros [? _]%elem_filter].
    intros Hin. assert (Hnd' : NoDup (List.map a_id (List.filter eligible allocatable))) by by apply NoDup_map_filter.
    rewrite Hm, List.filter_app in Hnd'. cbn [List.filter] in Hnd'. rewrite He, <- Hcand, List.map_app in Hnd'.
    apply NoDup_app in Hnd' as (_ & Hd & _). apply (Hd (a_id a)); [by apply list_elem_of_fmap_2|left]. }
  rewrite Hcand. destruct (List.filter eligible m1 ++ a :: _) as [|c0 l0] eqn:El; [by destruct (List.filter eligible m1)|].
  rewrite <- El in *. clear c0 l0 El. destruct allocatable as [|a0 l0] eqn:Ea; [by destruct m1|]. rewrite Hm in *.
  rewrite roundRobin_split, find_filter, !List.filter_app by done. cbn [List.filter]. rewrite He.
  destruct (head _) as [c|] eqn:Eh; [by eexists _, _, c|].
  destruct (List.filter eligible m2); [|done]. by destruct (List.filter eligible m1).
Qed.

Definition rotationOf (l r : list Account) : Prop := exists x y, l = x ++ y /\ r = y ++ x.

Lemma served_rotation args l : r_rotationStrategy args = "round_robin" -> NoDup (List.map a_id (r_accounts args)) ->
  forall a rest, rotationOf (candidates args) (a :: l ++ rest) -> served (length l) args (a_id a) = List.map a_id l.
Proof.
  intros Hs Hnd. induction l as [|c l IH]; intros a rest (x & y & Hc & Hr); [done|]. cbn [length served].
  assert (Hr' : exists l1 l2, candidates args = l1 ++ a :: l2 /\ l2 ++ l1 = c :: l ++ rest).
  { destruct y as [|b y]; cbn in Hr.
    - exists [], (c :: l ++ rest). rewrite Hc, app_nil_r, <- Hr. by rewrite app_nil_r.
    - injection Hr as <- Hr. by exists x, y. }
  destruct Hr' as (l1 & l2 & Hc' & Hcl). destruct (round_robin_next args a l1 l2 Hs Hnd Hc') as (m & d & c' & -> & Hh).
  rewrite app_assoc, Hcl in Hh. injection Hh as <-. cbn [List.map]. f_equal. apply (IH c (rest ++ [a])).
  clear x y Hc Hr. unfold rotationOf. destruct l2 as [|c2 l2]; cbn in Hcl.
  - exists (l1 ++ [a]), []. rewrite app_nil_r, Hcl in *. subst l1. rewrite Hc'. split; [done|]. cbn. by rewrite <- app_assoc.
  - injection Hcl as -> Hl. exists (l1 ++ [a]), (c :: l2). rewrite Hc'. split; [by rewrite <- app_assoc|]. cbn. f_equal.
    by rewrite !app_assoc, Hl, <- app_assoc.
Qed.

(** Round robin is fair: as long as the eligible accounts stay the same, the
    next turns after one that ran on account [a] run on each other eligible
    account in list order and then on [a] again, each exactly once a round. *)
Theorem round_robin_cycle args l1 a l2 : r_rotationStrategy args = "round_robin" -> NoDup (List.map a_id (r_accounts args)) ->
  candidates args = l1 ++ a :: l2 ->
  served (length (candidates args)) args (a_id a) = List.map a_id (l2 ++ l1 ++ [a]).
Proof.
  intros Hs Hnd Hc. destruct (l2 ++ l1) as [|c rest] eqn:El.
  - apply app_eq_nil in El as [-> ->]. rewrite Hc. cbn [length app served].
    destruct (round_robin_next args a [] [] Hs Hnd Hc) as (m & d & c & -> & [= <-]). done.
  - assert (Hlen : length (candidates args) = S (length (rest ++ [a]))).
    { rewrite Hc, !length_app. cbn. apply (f_equal length) in El. rewrite length_app in El. cbn in El. lia. }
    rewrite Hlen. cbn [served]. destruct (round_robin_next args a l1 l2 Hs Hnd Hc) as (m & d & c' & -> & Hh).
    rewrite app_assoc, El in Hh. injection Hh as <-. rewrite app_assoc, El. cbn [app List.map]. f_equal.
    apply (served_rotation args (rest ++ [a]) Hs Hnd c []). rewrite app_nil_r. unfold rotationOf. destruct l2 as [|c2 l2]; cbn in El.
    + exists (l1 ++ [a]), []. rewrite app_nil_r. subst l1. by rewrite Hc.
    + injection El as -> Hl. exists (l1 ++ [a]), (c :: l2). rewrite Hc. split; [by rewrite <- app_assoc|]. cbn. f_equal.
      by rewrite <- Hl, <- app_assoc.
Qed.

(** ** The hash *)

Lemma uint32_mul x y : uint32 (x * y) = uint32 (uint32 x * uint32 y).
Proof. unfold uint32. by rewrite Zmult_mod. Qed.

Lemma uint32_lxor x y : uint32 (Z.lxor x y) = Z.lxor (uint32 x) (uint32 y).
Proof.
  apply Z.bits_inj'. intros n Hn. unfold uint32. rewrite Z.lxor_spec.
  destruct (Z.lt_ge_cases n 32) as [H|H]; [rewrite !Z.mod_pow2_bits_low by lia; apply Z.lxor_spec|].
  by rewrite !Z.mod_pow2_bits_high by lia.
Qed.

(** The signed arithmetic of the source computes the unsigned 32-bit FNV-1a. *)
Lemma fnv1a32_reference input : Forall (fun code => 0 <= code < 65536) input ->
  fnv1a32 input = foldl (fun hash code => (Z.lxor hash code * FNV_PRIME) mod 2 ^ 32) FNV_OFFSET input.
Proof.
  unfold fnv1a32. intros H. assert (H0 : uint32 FNV_OFFSET = FNV_OFFSET) by done.
  rewrite <- H0 at 2. clear H0. generalize FNV_OFFSET as h. induction H as [|code input Hc _ IH]; intros h; [done|]. cbn [foldl].
  rewrite IH. f_equal. unfold imul. rewrite uint32_int32, uint32_mul, !uint32_int32, uint32_lxor, uint32_int32.
  assert (uint32 code = code) as -> by (apply Z.mod_small; lia). unfold uint32 at 1. reflexivity.
Qed.

Example fnv_a : fnv1a32 (js "a") = 3826002220.
Proof. vm_compute. reflexivity. Qed.

(** ** Examples *)

Definition exampleAccount (id : string) (used : Z) (leases : Z) : Account := {|
  a_id := id; a_status := "active"; a_allocatorEnabled := true; a_primaryUsedPercent := Some used; a_primaryResetAt := Some 2000;
  a_secondaryUsedPercent := None; a_secondaryResetAt := None; a_exhaustedUntil := None; a_connectorNamespaces := None;
  a_activeLeaseCount := leases; a_selectionCount := 0; a_lastSelectedAt := None |}.
Definition exampleRank (strategy : string) (accounts : list Account) : RankArgs := {|
  r_rotationStrategy := strategy; r_activeCredentialId := Some "a"%string; r_priorCredentialId := None; r_accounts := accounts;
  r_nearExhaustionPct := 90; r_now := 1000; r_usedConnectors := [] |}.
Definition exampleSelect (pin : option string) (accounts : list Account) : SelectArgs := {|
  s_context := {| c_accounts := accounts; c_activeCredentialId := Some "a"%string; c_rotationEnabled := true;
                  c_leaseRotationEnabled := true; c_rotationStrategy := "most_remaining"; c_existingCredentialId := None |};
  s_leasingEnabled := true; s_sessionId := "s"; s_sessionPinnedCredentialId := pin; s_sessionPinSource := Some pin_manual;
  s_sessionLastCredentialId := None; s_continuationCredentialId := None; s_nearExhaustionPct := 90; s_now := 1000 |}.


Lemma most_remaining_optimal_witness :
  chooseRotationActive (exampleRank "most_remaining" [exampleAccount "a" 95 0; exampleAccount "b" 60 1; exampleAccount "c" 70 0; exampleAccount "d" 65 0]) =
    Active "d" true [] /\
  exists a, firstBest 1000 [exampleAccount "b" 60 1; exampleAccount "c" 70 0; exampleAccount "d" 65 0] a /\ a_id a = "d"%string.
Proof.
  split; [vm_compute; reflexivity|].
  destruct (most_remaining_optimal (exampleRank "most_remaining" [exampleAccount "a" 95 0; exampleAccount "b" 60 1; exampleAccount "c" 70 0; exampleAccount "d" 65 0])
    ltac:(vm_compute; discriminate) ltac:(vm_compute; discriminate)) as (a & Hb & Hid & _).
  exists a. split; [exact Hb|exact Hid].
Defined.

Lemma idle_exact_witness :
  chooseRotationActive (exampleRank "most_remaining" [exampleAccount "a" 95 0; exampleAccount "b" 90 1]) = AllCapped 2000 /\
  exists acct, acct ∈ [exampleAccount "a" 95 0; exampleAccount "b" 90 1] /\ isCodexCredentialEligible acct 90 2000 = true.
Proof.
  split; [vm_compute; reflexivity|].
  refine (proj2 (proj2 (idle_exact (exampleRank "most_remaining" [exampleAccount "a" 95 0; exampleAccount "b" 90 1]) 2000 _ _)) _).
  - vm_compute. reflexivity.
  - vm_compute. reflexivity.
  - constructor; [|constructor; [|constructor]]; intros _; (split; [vm_compute; reflexivity|]; split; [reflexivity|]);
      intros H; exfalso; apply H; vm_compute; reflexivity.
Defined.

Lemma round_robin_cycle_witness :
  served 3 (exampleRank "round_robin" [exampleAccount "a" 5 0; exampleAccount "x" 99 0; exampleAccount "b" 6 0; exampleAccount "c" 7 0]) "b" =
  ["c"; "a"; "b"]%string.
Proof.
  apply (round_robin_cycle (exampleRank "round_robin" [exampleAccount "a" 5 0; exampleAccount "x" 99 0; exampleAccount "b" 6 0; exampleAccount "c" 7 0])
    [exampleAccount "a" 5 0] (exampleAccount "b" 6 0) [exampleAccount "c" 7 0]).
  - reflexivity.
  - apply (bool_decide_unpack _). vm_compute. reflexivity.
  - vm_compute. reflexivity.
Defined.

(** Every account switched off: the sharded regime idles, the others report that
    there is no account. *)
Example sharded_disabled_idles :
  let off := (exampleAccount "a" 5 0) <| a_allocatorEnabled := false |> in
  chooseShardedHome "s" None [off] 90 1000 = ShardAllCapped 61000 /\
  chooseRotationActive (exampleRank "most_remaining" [off]) = NoAccount.
Proof. vm_compute. done. Qed.
End CodexRotation.
