(* ===== verification/CodexLease.v ===== *)
(** * Credential leases ([packages/db/src/index.ts])

    One short-lived lease per running turn says which subscription the turn
    uses.  [acquireCodexCredentialLease] locks the workspace's rotation row,
    shows the candidates with their live lease counts to the policy (see
    [CodexRotation]) and records its choice, all in one transaction; the holder
    id and the generation fence the activities that a successor replaced. *)
From S2P Require Import Prelude Json Sql Schema CodexRotation.
#[local] Open Scope Z_scope.
#[local] Open Scope opengeni_scope.

Module CodexLease.
Import CodexRotation.

(** ** Tables *)

(** [codex_subscription_credentials]; the columns the policy reads are the
    account's (its lease count is not a column and is kept 0). *)
Record CredentialRow := {
  cr_accountId : string;
  cr_workspaceId : string;
  cr_account : Account;
  cr_lastError : option jstr;
  cr_createdAt : Z;
  cr_updatedAt : Z
}.
#[export] Instance etaCredentialRow : Settable CredentialRow := fun r =>
  Build_CredentialRow (cr_accountId r) (cr_workspaceId r) (cr_account r) (cr_lastError r) (cr_createdAt r) (cr_updatedAt r).

(** [codex_rotation_settings] *)
Record SettingsRow := {
  st_accountId : string;
  st_workspaceId : string;
  st_activeCredentialId : option string;
  st_rotationEnabled : bool;
  st_leaseRotationEnabled : bool;
  st_rotationStrategy : string;
  st_updatedAt : Z
}.
#[export] Instance etaSettingsRow : Settable SettingsRow := fun r =>
  Build_SettingsRow (st_accountId r) (st_workspaceId r) (st_activeCredentialId r) (st_rotationEnabled r)
    (st_leaseRotationEnabled r) (st_rotationStrategy r) (st_updatedAt r).

(** [codex_credential_leases], unique by workspace and turn. *)
Record LeaseRow := {
  ls_accountId : string;
  ls_workspaceId : string;
  ls_credentialId : string;
  ls_turnId : string;
  ls_holderId : string;
  ls_generation : Z;
  ls_leasedUntil : Z;
  ls_updatedAt : Z
}.
#[export] Instance etaLeaseRow : Settable LeaseRow := fun r =>
  Build_LeaseRow (ls_accountId r) (ls_workspaceId r) (ls_credentialId r) (ls_turnId r) (ls_holderId r) (ls_generation r)
    (ls_leasedUntil r) (ls_updatedAt r).

(** [agent_run_states], as far as the frozen credential goes. *)
Record RunStateRow := {
  rs_accountId : string;
  rs_workspaceId : string;
  rs_turnId : option string;
  rs_stateVersion : Z;
  rs_frozenCodexCredentialId : option string
}.

Record CodexDb := {
  core : Db;
  credentials : list CredentialRow;
  settings : list SettingsRow;
  leases : list LeaseRow;
  runStates : list RunStateRow
}.
#[export] Instance etaCodexDb : Settable CodexDb := fun d =>
  Build_CodexDb (core d) (credentials d) (settings d) (leases d) (runStates d).

Inductive CodexLeaseError :=
| LeaseTtlMustBePositive
| HolderIdRequired
| SettingsNotVisible (workspaceId : string)
| TurnNotFound (turnId : string)
| ForeignOrDuplicateCandidate
| OutsideWorkspacePool
| DisabledForNewAllocations.

(** ** Row predicates *)

Definition settingsIn (accountId ws : string) (r : SettingsRow) : bool :=
  bool_decide (st_accountId r = accountId) && bool_decide (st_workspaceId r = ws).
Definition credentialIn (accountId ws : string) (r : CredentialRow) : bool :=
  bool_decide (cr_accountId r = accountId) && bool_decide (cr_workspaceId r = ws).
Definition credentialIs (accountId ws id : string) (r : CredentialRow) : bool :=
  credentialIn accountId ws r && bool_decide (a_id (cr_account r) = id).
Definition leaseOf (ws turnId : string) (r : LeaseRow) : bool :=
  bool_decide (ls_workspaceId r = ws) && bool_decide (ls_turnId r = turnId).
Definition live (now : Z) (r : LeaseRow) : bool := now <? ls_leasedUntil r.
(** [.. and holder_id = .. and generation = ..] *)
Definition leaseHeld (ws turnId holderId : string) (generation : Z) (r : LeaseRow) : bool :=
  leaseOf ws turnId r && bool_decide (ls_holderId r = holderId) && (ls_generation r =? generation).
Definition leaseAccount (accountId : string) (r : LeaseRow) : bool := bool_decide (ls_accountId r = accountId).
Definition turnIn (accountId ws turnId : string) (r : TurnRow) : bool :=
  bool_decide (t_accountId r = accountId) && bool_decide (t_workspaceId r = ws) && bool_decide (t_id r = turnId).

(** ** Candidates *)

(** Live leases of other turns on one credential. *)
Definition countsFor (ws credentialId : string) (now : Z) (exclude : option string) (r : LeaseRow) : bool :=
  bool_decide (ls_workspaceId r = ws) && bool_decide (ls_credentialId r = credentialId) && live now r
  && match exclude with Some turnId => negb (bool_decide (ls_turnId r = turnId)) | None => true end.
Definition activeLeases (ws credentialId : string) (now : Z) (exclude : option string) (d : CodexDb) : Z :=
  count_where (countsFor ws credentialId now exclude) (leases d).

Definition createdBefore (a b : CredentialRow) : bool :=
  (cr_createdAt a <? cr_createdAt b) || ((cr_createdAt a =? cr_createdAt b) && string_leb (a_id (cr_account a)) (a_id (cr_account b))).
Definition listCodexLeaseCandidatesInTransaction (accountId ws : string) (exclude : option string) (now : Z) (d : CodexDb)
  : list Account :=
  List.map (fun r => (cr_account r) <| a_activeLeaseCount := activeLeases ws (a_id (cr_account r)) now exclude d |>)
    (sort_leb createdBefore (select_where (credentialIn accountId ws) (credentials d))).

(** [filter] sees the accounts; the turn's policy scope is inside it. *)
Definition filterCodexLeaseCandidatesForPolicy (accounts : list Account) (filter : option (list Account -> list Account))
  : result CodexLeaseError (list Account) :=
  match filter with
  | None => Ok accounts
  | Some filter =>
      let filtered := filter accounts in
      if forallb (fun a => has (List.map a_id accounts) (a_id a)) filtered && bool_decide (NoDup (List.map a_id filtered))
      then Ok filtered else Err ForeignOrDuplicateCandidate
  end.

(** ** Acquire *)

Record AcquireInput := {
  i_accountId : string;
  i_workspaceId : string;
  i_turnId : string;
  i_holderId : string;
  i_advanceActivePointer : bool;
  i_continuationCredentialId : option string;
  (** [resolvePolicyScope] and [filterNewAllocationCandidates] composed, of the
      turn's metadata. *)
  i_filterNewAllocationCandidates : option (list (jstr * json) -> list Account -> list Account);
  i_leaseTtlMs : Z
}.

Record AcquireResult := {
  q_decision : RotationDecision;
  q_accounts : list Account;
  q_credentialId : option string;
  q_reused : bool;
  q_holderId : option string;
  q_generation : option Z;
  q_leasedUntil : option Z;
  q_advanceActivePointer : bool
}.

Definition defaultSettings (now : Z) (accountId ws : string) : SettingsRow := {|
  st_accountId := accountId; st_workspaceId := ws; st_activeCredentialId := None; st_rotationEnabled := false;
  st_leaseRotationEnabled := false; st_rotationStrategy := "most_remaining"; st_updatedAt := now |}.
(** [insert .. on conflict (workspace_id) do nothing] *)
Definition ensureSettings (now : Z) (accountId ws : string) (d : CodexDb) : CodexDb :=
  if existsb (fun r => bool_decide (st_workspaceId r = ws)) (settings d) then d
  else d <| settings ::= fun t => t ++ [defaultSettings now accountId ws] |>.

Definition validatedContinuation (input : AcquireInput) (d : CodexDb) : option string :=
  match i_continuationCredentialId input with
  | None => None
  | Some credential =>
      let states := select_where (fun r => bool_decide (rs_accountId r = i_accountId input)
                      && bool_decide (rs_workspaceId r = i_workspaceId input) && bool_decide (rs_turnId r = Some (i_turnId input))) (runStates d) in
      match head (sort_by (fun r => - rs_stateVersion r) states) with
      | Some r => if bool_decide (rs_frozenCodexCredentialId r = Some credential) then Some credential else None
      | None => None
      end
  end.

(** The exact-turn selection first, over all accounts; otherwise a new one over
    the filtered candidates. *)
Definition choose (input : AcquireInput) (metadata : list (jstr * json)) (select : SelectionContext -> CodexTurnLeaseSelection)
  (context : SelectionContext) (sameTurn : option string) : result CodexLeaseError (list Account * CodexTurnLeaseSelection) :=
  let sel := select context in
  if match sameTurn with Some id => bool_decide (sel_credentialId sel = Some id) | None => false end
  then Ok (c_accounts context, sel)
  else match filterCodexLeaseCandidatesForPolicy (c_accounts context)
               ((fun f => f metadata) <$> i_filterNewAllocationCandidates input) with
       | Err e => Err e
       | Ok accounts => Ok (accounts, select (context <| c_accounts := accounts |>))
       end.

Definition movePointer (now : Z) (input : AcquireInput) (credentialId : string) (d : CodexDb) : CodexDb :=
  d <| settings ::= update_where (settingsIn (i_accountId input) (i_workspaceId input))
         (fun r => r <| st_activeCredentialId := Some credentialId |> <| st_updatedAt := now |>) |>.

(** [insert .. on conflict (workspace_id, turn_id) do update] *)
Definition newLease (now : Z) (input : AcquireInput) (credentialId : string) : LeaseRow := {|
  ls_accountId := i_accountId input; ls_workspaceId := i_workspaceId input; ls_credentialId := credentialId;
  ls_turnId := i_turnId input; ls_holderId := i_holderId input; ls_generation := 1;
  ls_leasedUntil := now + i_leaseTtlMs input; ls_updatedAt := now |}.
Definition takeOver (now : Z) (input : AcquireInput) (credentialId : string) (r : LeaseRow) : LeaseRow :=
  r <| ls_credentialId := credentialId |> <| ls_holderId := i_holderId input |>
    <| ls_generation := if bool_decide (ls_holderId r = i_holderId input) then ls_generation r else ls_generation r + 1 |>
    <| ls_leasedUntil := now + i_leaseTtlMs input |> <| ls_updatedAt := now |>.
Definition upsertLease (now : Z) (input : AcquireInput) (credentialId : string) (d : CodexDb) : LeaseRow * CodexDb :=
  let key := leaseOf (i_workspaceId input) (i_turnId input) in
  match List.find key (leases d) with
  | Some r => (takeOver now input credentialId r, d <| leases ::= update_where key (takeOver now input credentialId) |>)
  | None => (newLease now input credentialId, d <| leases ::= fun t => t ++ [newLease now input credentialId] |>)
  end.

Definition noLease (decision : RotationDecision) (accounts : list Account) (credentialId : option string) (advances : bool) : AcquireResult := {|
  q_decision := decision; q_accounts := accounts; q_credentialId := credentialId; q_reused := false; q_holderId := None;
  q_generation := None; q_leasedUntil := None; q_advanceActivePointer := advances |}.

Definition countSelection (now : Z) (input : AcquireInput) (credentialId : string) (d : CodexDb) : CodexDb :=
  d <| credentials ::= update_where (credentialIs (i_accountId input) (i_workspaceId input) credentialId)
         (fun r => r <| cr_account ::= fun a => a <| a_selectionCount ::= Z.succ |> <| a_lastSelectedAt := Some now |> |>) |>.

Definition grant (now : Z) (input : AcquireInput) (context : SelectionContext) (accounts : list Account)
  (sel : CodexTurnLeaseSelection) (id : string) (d : CodexDb) : AcquireResult * CodexDb :=
  let advances := i_advanceActivePointer input && sel_advances sel in
  let point d := if advances && negb (isActive id (c_activeCredentialId context)) then movePointer now input id d else d in
  if negb (c_leaseRotationEnabled context) then (noLease (sel_decision sel) accounts (Some id) advances, point d)
  else
    let reused := bool_decide (c_existingCredentialId context = Some id) in
    let (lease, d) := upsertLease now input id d in
    let d := if reused then d else countSelection now input id d in
    ({| q_decision := sel_decision sel; q_accounts := accounts; q_credentialId := Some id; q_reused := reused;
        q_holderId := Some (ls_holderId lease); q_generation := Some (ls_generation lease);
        q_leasedUntil := Some (ls_leasedUntil lease); q_advanceActivePointer := advances |}, point d).

Definition settle (now : Z) (input : AcquireInput) (context : SelectionContext) (continuation : option string)
  (accounts : list Account) (sel : CodexTurnLeaseSelection) (d : CodexDb) : result CodexLeaseError (AcquireResult * CodexDb) :=
  match sel_credentialId sel with
  | None =>
      let drop := c_leaseRotationEnabled context && match c_existingCredentialId context with Some _ => true | None => false end in
      Ok (noLease (sel_decision sel) accounts None false,
          if drop then d <| leases ::= delete_where (leaseOf (i_workspaceId input) (i_turnId input)) |> else d)
  | Some id =>
      match byId accounts (Some id) with
      | None => Err OutsideWorkspacePool
      | Some acct =>
          if negb (a_allocatorEnabled acct) && negb (bool_decide (c_existingCredentialId context = Some id))
             && negb (bool_decide (continuation = Some id))
          then Err DisabledForNewAllocations
          else Ok (grant now input context accounts sel id d)
      end
  end.

Definition acquireCodexCredentialLease (now : Z) (input : AcquireInput) (select : SelectionContext -> CodexTurnLeaseSelection)
  (d : CodexDb) : result CodexLeaseError (AcquireResult * CodexDb) :=
  let ws := i_workspaceId input in
  if i_leaseTtlMs input <=? 0 then Err LeaseTtlMustBePositive
  else if match trim (js (i_holderId input)) with [] => true | _ => false end then Err HolderIdRequired
  else
    let d := ensureSettings now (i_accountId input) ws d in
    match List.find (settingsIn (i_accountId input) ws) (settings d) with
    | None => Err (SettingsNotVisible ws)
    | Some st =>
        match List.find (turnIn (i_accountId input) ws (i_turnId input)) (db_turns (core d)) with
        | None => Err (TurnNotFound (i_turnId input))
        | Some turn =>
            let continuation := validatedContinuation input d in
            let leaseRotation := st_rotationEnabled st && st_leaseRotationEnabled st in
            let d := if leaseRotation
                     then d <| leases ::= delete_where (fun r => bool_decide (ls_workspaceId r = ws) && negb (live now r)) |> else d in
            let existing := if leaseRotation
                            then ls_credentialId <$> List.find (fun r => leaseOf ws (i_turnId input) r && live now r) (leases d) else None in
            let context := {|
              c_accounts := listCodexLeaseCandidatesInTransaction (i_accountId input) ws (Some (i_turnId input)) now d;
              c_activeCredentialId := st_activeCredentialId st; c_rotationEnabled := st_rotationEnabled st;
              c_leaseRotationEnabled := leaseRotation; c_rotationStrategy := st_rotationStrategy st;
              c_existingCredentialId := existing |} in
            match choose input (t_metadata turn) select context (match existing with Some id => Some id | None => continuation end) with
            | Err e => Err e
            | Ok (accounts, sel) => settle now input context continuation accounts sel d
            end
        end
    end.

(** ** The other operations *)

Definition heartbeatCodexCredentialLeaseUntil (now : Z) (accountId ws turnId holderId : string) (generation leaseTtlMs : Z)
  (d : CodexDb) : option Z * CodexDb :=
  let mine r := leaseAccount accountId r && leaseHeld ws turnId holderId generation r && live now r in
  let extend r := r <| ls_leasedUntil := now + leaseTtlMs |> <| ls_updatedAt := now |> in
  (ls_leasedUntil <$> head (updated_rows mine extend (leases d)), d <| leases ::= update_where mine extend |>).

Definition releaseCodexCredentialLease (ws turnId holderId : string) (generation : Z) (d : CodexDb) : bool * CodexDb :=
  (existsb (leaseHeld ws turnId holderId generation) (leases d),
   d <| leases ::= delete_where (leaseHeld ws turnId holderId generation) |>).

Inductive Quarantine := Q_status (status : string) (lastError : jstr) | Q_cooldown (until : Z).
Definition quarantined (now : Z) (q : Quarantine) (r : CredentialRow) : CredentialRow :=
  match q with
  | Q_status status lastError =>
      r <| cr_account ::= fun a => a <| a_status := status |> |> <| cr_lastError := Some lastError |> <| cr_updatedAt := now |>
  | Q_cooldown until => r <| cr_account ::= fun a => a <| a_exhaustedUntil := Some until |> |>
  end.
Definition quarantineCodexCredentialForLease (now : Z) (accountId ws turnId credentialId holderId : string) (generation : Z)
  (q : Quarantine) (d : CodexDb) : bool * CodexDb :=
  let mine r := leaseAccount accountId r && leaseHeld ws turnId holderId generation r
                && bool_decide (ls_credentialId r = credentialId) && live now r in
  if existsb mine (leases d)
  then (existsb (credentialIs accountId ws credentialId) (credentials d),
        d <| credentials ::= update_where (credentialIs accountId ws credentialId) (quarantined now q) |>)
  else (false, d).

(** ** What an acquire does to the lease table *)

Section key.
Context (ws turnId : string).

(** A row written for the turn by [holder] (a new lease or a taken-over one). *)
Definition writtenBy (holder : string) (r : LeaseRow) : Prop := leaseOf ws turnId r = true /\ ls_holderId r = holder.

Lemma leaseOf_takeOver now input id r : leaseOf ws turnId (takeOver now input id r) = leaseOf ws turnId r.
Proof. by destruct r. Qed.
End key.

Lemma leaseOf_newLease now input id : leaseOf (i_workspaceId input) (i_turnId input) (newLease now input id) = true.
Proof. unfold leaseOf. by rewrite !bool_decide_eq_true_2. Qed.

Lemma elem_of_delete {R} p (t : list R) r : r ∈ delete_where p t <-> r ∈ t /\ p r = false.
Proof. unfold delete_where. rewrite elem_filter. by rewrite negb_true_iff. Qed.

Lemma upsert_rows now input id d r d1 : upsertLease now input id d = (r, d1) ->
  (forall l, l ∈ leases d1 -> l ∈ leases d \/ writtenBy (i_workspaceId input) (i_turnId input) (i_holderId input) l) /\
  (forall l, l ∈ leases d1 -> leaseOf (i_workspaceId input) (i_turnId input) l = true -> ls_holderId l = i_holderId input).
Proof.
  unfold upsertLease. destruct (List.find _ _) as [r0|] eqn:E; intros [= <- <-]; cbn; split.
  - intros l (l0 & Hl0 & ->)%elem_of_update_where. destruct (leaseOf _ _ l0) eqn:Ek; [right|by left].
    split; [by rewrite leaseOf_takeOver|done].
  - intros l (l0 & Hl0 & ->)%elem_of_update_where. destruct (leaseOf _ _ l0) eqn:Ek; [done|congruence].
  - intros l [Hl| ->%list_elem_of_singleton]%elem_of_app; [by left|right]. split; [apply leaseOf_newLease|done].
  - intros l [Hl| ->%list_elem_of_singleton]%elem_of_app Hk; [|done]. apply list_elem_of_In in Hl.
    pose proof (find_none _ _ E _ Hl). congruence.
Qed.

Lemma leases_movePointer now input id d : leases (movePointer now input id d) = leases d.
Proof. done. Qed.

Lemma grant_rows now input ctx accounts sel id d res d1 : grant now input ctx accounts sel id d = (res, d1) ->
  (forall l, l ∈ leases d1 -> l ∈ leases d \/ writtenBy (i_workspaceId input) (i_turnId input) (i_holderId input) l) /\
  (q_generation res <> None ->
   forall l, l ∈ leases d1 -> leaseOf (i_workspaceId input) (i_turnId input) l = true -> ls_holderId l = i_holderId input).
Proof.
  unfold grant. destruct (c_leaseRotationEnabled ctx); cbn [negb].
  - destruct (upsertLease now input id d) as [r d2] eqn:Eu. apply upsert_rows in Eu as [H1 H2].
    intros [= <- <-]. destruct (_ && negb (isActive _ _)), (bool_decide _); cbn; auto.
  - intros [= <- <-]. split; [|done]. intros l Hl. left. by destruct (_ && negb _).
Qed.

Lemma settle_rows now input ctx cont accounts sel d res d1 : settle now input ctx cont accounts sel d = Ok (res, d1) ->
  (forall l, l ∈ leases d1 -> l ∈ leases d \/ writtenBy (i_workspaceId input) (i_turnId input) (i_holderId input) l) /\
  (q_generation res <> None ->
   forall l, l ∈ leases d1 -> leaseOf (i_workspaceId input) (i_turnId input) l = true -> ls_holderId l = i_holderId input).
Proof.
  unfold settle. destruct (sel_credentialId sel) as [id|].
  - destruct (byId accounts (Some id)); [|done]. destruct (_ && _ && _); [done|]. intros [= H]. by apply grant_rows in H.
  - intros [= <- <-]. split; [|done]. intros l Hl. left. destruct (_ && _); [|done]. cbn in Hl. by apply elem_of_delete in Hl as [? _].
Qed.

Lemma acquire_rows now input select d res d1 : acquireCodexCredentialLease now input select d = Ok (res, d1) ->
  (forall l, l ∈ leases d1 -> l ∈ leases d \/ writtenBy (i_workspaceId input) (i_turnId input) (i_holderId input) l) /\
  (q_generation res <> None ->
   forall l, l ∈ leases d1 -> leaseOf (i_workspaceId input) (i_turnId input) l = true -> ls_holderId l = i_holderId input).
Proof.
  unfold acquireCodexCredentialLease. destruct (_ <=? 0); [done|]. destruct (trim _) as [|c0 l0]; [done|]. clear c0 l0.
  set (d0 := ensureSettings _ _ _ d). assert (H0 : leases d0 = leases d) by (unfold d0, ensureSettings; by destruct (existsb _ _)).
  destruct (List.find _ (settings d0)) as [st|]; [|done]. destruct (List.find _ _) as [turn|]; [|done].
  destruct (choose _ _ _ _ _) as [[accounts sel]|e]; [|done]. intros [H1 H2]%settle_rows. split; [|done].
  intros l Hl. destruct (H1 l Hl) as [Hd|Hw]; [left|by right]. rewrite <- H0. destruct (_ && _); [|done]. by apply elem_of_delete in Hd as [? _].
Qed.

(** ** Runs *)

(** One operation of the system; [other] is everything that writes no lease:
    usage refreshes, settings, turns, and deletes that cascade.  The activity
    [holder] of the turn does not acquire. *)
Inductive codex_step (ws turnId holder : string) (d d' : CodexDb) : Prop :=
| cs_acquire now input select res :
    ~ (i_workspaceId input = ws /\ i_turnId input = turnId /\ i_holderId input = holder) ->
    acquireCodexCredentialLease now input select d = Ok (res, d') -> codex_step ws turnId holder d d'
| cs_heartbeat now accountId ws' turn' holder' generation ttl :
    d' = (heartbeatCodexCredentialLeaseUntil now accountId ws' turn' holder' generation ttl d).2 -> codex_step ws turnId holder d d'
| cs_release ws' turn' holder' generation :
    d' = (releaseCodexCredentialLease ws' turn' holder' generation d).2 -> codex_step ws turnId holder d d'
| cs_quarantine now accountId ws' turn' credentialId holder' generation q :
    d' = (quarantineCodexCredentialForLease now accountId ws' turn' credentialId holder' generation q d).2 -> codex_step ws turnId holder d d'
| cs_other p : leases d' = List.filter p (leases d) -> codex_step ws turnId holder d d'.

Definition gone (ws turnId holder : string) (d : CodexDb) : Prop :=
  forall l, l ∈ leases d -> leaseOf ws turnId l = true -> ls_holderId l <> holder.

Lemma leaseOf_key ws turnId l : leaseOf ws turnId l = true <-> ls_workspaceId l = ws /\ ls_turnId l = turnId.
Proof. unfold leaseOf. by rewrite andb_true_iff, !bool_decide_eq_true. Qed.

Lemma step_gone ws turnId holder d d' : codex_step ws turnId holder d d' -> gone ws turnId holder d -> gone ws turnId holder d'.
Proof.
  intros Hs Hg l Hl Hk. destruct Hs as [now input select res Hne H|? ? ? ? ? ? ? ->|? ? ? ? ->|? ? ? ? ? ? ? ? ->|p E].
  - apply acquire_rows in H as [H _]. destruct (H l Hl) as [?|[Hkey Hh]]; [by apply Hg|]. intros Eh. apply Hne.
    apply leaseOf_key in Hkey as [E1 E2], Hk as [E3 E4]. split_and!; congruence.
  - cbn in Hl. apply elem_of_update_where in Hl as (l0 & Hl0 & ->).
    destruct (leaseAccount _ _ && _ && _); exact (Hg l0 Hl0 Hk).
  - cbn in Hl. apply elem_of_delete in Hl as [Hl _]. by apply Hg.
  - unfold quarantineCodexCredentialForLease in Hl. destruct (existsb _ _); by apply Hg.
  - rewrite E in Hl. apply elem_filter in Hl as [Hl _]. by apply Hg.
Qed.

Lemma gone_held ws turnId holder generation d : gone ws turnId holder d ->
  forall l, l ∈ leases d -> leaseHeld ws turnId holder generation l = false.
Proof.
  intros Hg l Hl. unfold leaseHeld. destruct (leaseOf ws turnId l) eqn:E; [|done]. by rewrite (bool_decide_eq_false_2 _ (Hg l Hl E)).
Qed.

Lemma update_leases_same f d : f (leases d) = leases d -> d <| leases ::= f |> = d.
Proof. destruct d. cbn. by intros ->. Qed.

(** A replaced activity is powerless.  Once another activity has leased the
    turn, and until the old one acquires again (it never does: the holder id is
    the activity's), its heartbeats, releases and quarantines find nothing and
    change nothing, with any generation and whatever ran in between. *)
Theorem lease_fenced now input select d res d1 d2 holder :
  acquireCodexCredentialLease now input select d = Ok (res, d1) -> q_generation res <> None ->
  holder <> i_holderId input ->
  rtc (codex_step (i_workspaceId input) (i_turnId input) holder) d1 d2 ->
  forall later accountId generation ttl credentialId q,
    heartbeatCodexCredentialLeaseUntil later accountId (i_workspaceId input) (i_turnId input) holder generation ttl d2 = (None, d2) /\
    releaseCodexCredentialLease (i_workspaceId input) (i_turnId input) holder generation d2 = (false, d2) /\
    quarantineCodexCredentialForLease later accountId (i_workspaceId input) (i_turnId input) credentialId holder generation q d2 = (false, d2).
Proof.
  intros [_ H]%acquire_rows Hg Hne Hrun later accountId generation ttl credentialId q.
  assert (Hgone : gone (i_workspaceId input) (i_turnId input) holder d2).
  { assert (H1 : gone (i_workspaceId input) (i_turnId input) holder d1) by (intros l Hl Hk; rewrite (H Hg l Hl Hk); done).
    clear -Hrun H1. induction Hrun as [|d1 d d2 Hstep _ IH]; [done|]. apply IH. by eapply step_gone. }
  pose proof (gone_held _ _ _ generation _ Hgone) as Hheld. split_and!.
  - unfold heartbeatCodexCredentialLeaseUntil, updated_rows. rewrite filter_none.
    + cbn. f_equal. apply update_leases_same, update_where_none. intros l Hl. rewrite Hheld by done. by rewrite andb_false_r.
    + apply Forall_forall. intros l Hl. rewrite Hheld by done. by rewrite andb_false_r.
  - unfold releaseCodexCredentialLease. f_equal.
    + apply not_true_iff_false. intros (l & Hl & E)%existsb_exists. apply list_elem_of_In in Hl. by rewrite Hheld in E.
    + apply update_leases_same. apply filter_all, Forall_forall. intros l Hl. by rewrite Hheld.
  - unfold quarantineCodexCredentialForLease. destruct (existsb _ _) eqn:E; [|done].
    apply existsb_exists in E as (l & Hl & E). apply list_elem_of_In in Hl. rewrite Hheld in E by done. by rewrite andb_false_r in E.
Qed.

(** ** Acquiring under the policy of [CodexRotation] *)

Definition policy (leasingEnabled : bool) (sessionId : string) (pin : option string) (pinSource : option CodexPinSource)
  (last continuation : option string) (near now : Z) (context : SelectionContext) : CodexTurnLeaseSelection :=
  selectCodexCredentialLeaseForTurn {| s_context := context; s_leasingEnabled := leasingEnabled; s_sessionId := sessionId;
    s_sessionPinnedCredentialId := pin; s_sessionPinSource := pinSource; s_sessionLastCredentialId := last;
    s_continuationCredentialId := continuation; s_nearExhaustionPct := near; s_now := now |}.

Lemma candidates_elem accountId ws exclude now d acct :
  acct ∈ listCodexLeaseCandidatesInTransaction accountId ws exclude now d <->
  exists r, r ∈ credentials d /\ credentialIn accountId ws r = true /\
    acct = (cr_account r) <| a_activeLeaseCount := activeLeases ws (a_id (cr_account r)) now exclude d |>.
Proof.
  unfold listCodexLeaseCandidatesInTransaction. rewrite list_elem_of_fmap. split.
  - intros (r & -> & Hr). rewrite sort_leb_perm in Hr. apply elem_of_select_where in Hr as [? ?]. by exists r.
  - intros (r & Hr & Hin & ->). exists r. split; [done|]. rewrite sort_leb_perm. by apply elem_of_select_where.
Qed.

Lemma healthy_count acct n near now : isCodexCredentialHealthy (acct <| a_activeLeaseCount := n |>) near now = isCodexCredentialHealthy acct near now.
Proof. by destruct acct. Qed.

(** What every acquire that gets to the policy has passed. *)
Record admitted (now : Z) (input : AcquireInput) (d : CodexDb) (st : SettingsRow) : Prop := {
  ad_ttl : 0 < i_leaseTtlMs input;
  ad_holder : trim (js (i_holderId input)) <> [];
  ad_settings : List.find (settingsIn (i_accountId input) (i_workspaceId input)) (settings d) = Some st;
  ad_turn : exists turn, List.find (turnIn (i_accountId input) (i_workspaceId input) (i_turnId input)) (db_turns (core d)) = Some turn;
  ad_rotation : st_rotationEnabled st = true;
  ad_lease : st_leaseRotationEnabled st = true
}.

Definition swept (now : Z) (ws : string) (d : CodexDb) : CodexDb :=
  d <| leases ::= delete_where (fun r => bool_decide (ls_workspaceId r = ws) && negb (live now r)) |>.

Definition contextOf (now : Z) (input : AcquireInput) (st : SettingsRow) (d : CodexDb) (existing : option string) : SelectionContext := {|
  c_accounts := listCodexLeaseCandidatesInTransaction (i_accountId input) (i_workspaceId input) (Some (i_turnId input)) now (swept now (i_workspaceId input) d);
  c_activeCredentialId := st_activeCredentialId st; c_rotationEnabled := true; c_leaseRotationEnabled := true;
  c_rotationStrategy := st_rotationStrategy st; c_existingCredentialId := existing |}.

Lemma acquire_admitted now input select d st : admitted now input d st ->
  exists metadata,
    let d0 := swept now (i_workspaceId input) d in
    let existing := ls_credentialId <$> List.find (fun r => leaseOf (i_workspaceId input) (i_turnId input) r && live now r) (leases d0) in
    let ctx := contextOf now input st d existing in
    acquireCodexCredentialLease now input select d =
      match choose input metadata select ctx (match existing with Some id => Some id | None => validatedContinuation input d end) with
      | Err e => Err e
      | Ok (accounts, sel) => settle now input ctx (validatedContinuation input d) accounts sel d0
      end.
Proof.
  intros [Httl Hh Hst [turn Ht] Hr Hl]. exists (t_metadata turn). cbv zeta. unfold acquireCodexCredentialLease.
  destruct (i_leaseTtlMs input <=? 0) eqn:E; breflect; [lia|]. destruct (trim _); [done|].
  assert (Hens : ensureSettings now (i_accountId input) (i_workspaceId input) d = d).
  { unfold ensureSettings. apply find_some in Hst as [Hin Hs]. assert (existsb (fun r => bool_decide (st_workspaceId r = i_workspaceId input)) (settings d) = true) as ->; [|done].
    apply existsb_exists. exists st. split; [done|]. by apply andb_true_iff in Hs as [_ ?]. }
  rewrite Hens, Hst, Ht, Hr, Hl. reflexivity.
Qed.

Lemma upsert_existing now input id d r : List.find (leaseOf (i_workspaceId input) (i_turnId input)) (leases d) = Some r ->
  upsertLease now input id d =
    (takeOver now input id r, d <| leases ::= update_where (leaseOf (i_workspaceId input) (i_turnId input)) (takeOver now input id) |>).
Proof. unfold upsertLease. by intros ->. Qed.

Lemma find_swept now ws turnId d :
  List.find (leaseOf ws turnId) (leases (swept now ws d)) = List.find (fun r => leaseOf ws turnId r && live now r) (leases (swept now ws d)).
Proof.
  rewrite !find_filter. f_equal. apply filter_ext_in. intros l Hl. apply list_elem_of_In in Hl. cbn in Hl. apply elem_of_delete in Hl as [_ Hp].
  destruct (leaseOf ws turnId l) eqn:E; [|done]. apply leaseOf_key in E as [E _]. rewrite bool_decide_eq_true_2 in Hp by done. cbn in *.
  by destruct (live now l).
Qed.

(** A retried turn stays where it is.  If the turn still has a live lease and
    its account is healthy, acquiring again, from the same activity or from the
    one that takes over after a worker died, answers the same account whatever
    the strategy, pin and load: the generation grows exactly when the holder
    changes, no selection is counted, the active pointer does not move, and the
    leases of the other turns that are still live are as they were. *)
Theorem lease_reused now input d st leasing sessionId pin pinSource last continuation near r :
  admitted now input d st ->
  List.find (fun r => leaseOf (i_workspaceId input) (i_turnId input) r && live now r) (leases (swept now (i_workspaceId input) d)) = Some r ->
  (exists c, c ∈ credentials d /\ credentialIs (i_accountId input) (i_workspaceId input) (ls_credentialId r) c = true) ->
  (forall c, c ∈ credentials d -> credentialIs (i_accountId input) (i_workspaceId input) (ls_credentialId r) c = true ->
     isCodexCredentialHealthy (cr_account c) near now = true) ->
  exists res d', acquireCodexCredentialLease now input (policy leasing sessionId pin pinSource last continuation near now) d = Ok (res, d') /\
    q_credentialId res = Some (ls_credentialId r) /\ q_reused res = true /\ q_holderId res = Some (i_holderId input) /\
    q_generation res = Some (if bool_decide (ls_holderId r = i_holderId input) then ls_generation r else ls_generation r + 1) /\
    q_leasedUntil res = Some (now + i_leaseTtlMs input) /\
    credentials d' = credentials d /\ settings d' = settings d /\
    leases d' = update_where (leaseOf (i_workspaceId input) (i_turnId input)) (takeOver now input (ls_credentialId r)) (leases (swept now (i_workspaceId input) d)).
Proof.
  intros Had Hr (c & Hc & Hcid) Hh. destruct (acquire_admitted now input (policy leasing sessionId pin pinSource last continuation near now) d st Had) as [md Hacq].
  cbv zeta in Hacq. rewrite Hacq, Hr. cbn [fmap option_fmap option_map]. clear Hacq.
  set (ctx := contextOf _ _ _ _ _). set (id := ls_credentialId r) in *.
  assert (Hby : exists acct, byId (c_accounts ctx) (Some id) = Some acct /\ a_id acct = id /\ isCodexCredentialHealthy acct near now = true).
  { destruct (byId (c_accounts ctx) (Some id)) as [acct|] eqn:E.
    - exists acct. apply byId_Some in E as [Hin [= Hid]]. split_and!; [done|done|]. apply candidates_elem in Hin as (c' & Hc' & Hin' & ->).
      rewrite healthy_count. apply Hh; [done|]. unfold credentialIs. rewrite Hin', Hid. by apply bool_decide_eq_true_2.
    - exfalso. apply andb_true_iff in Hcid as [Hin Hid]. apply bool_decide_eq_true in Hid.
      assert (Hcand : (cr_account c) <| a_activeLeaseCount := activeLeases (i_workspaceId input) (a_id (cr_account c)) now (Some (i_turnId input)) (swept now (i_workspaceId input) d) |> ∈ c_accounts ctx) by (apply candidates_elem; by exists c).
      apply list_elem_of_In in Hcand. apply (find_none _ _ E) in Hcand. cbn in Hcand. by rewrite Hid, String.eqb_refl in Hcand. }
  destruct Hby as (acct & Hby & Hid & Hhealthy).
  assert (Hsel : policy leasing sessionId pin pinSource last continuation near now ctx =
    {| sel_credentialId := Some id; sel_decision := Active id (negb (isActive id (c_activeCredentialId ctx))) []; sel_advances := false |}).
  { unfold policy, selectCodexCredentialLeaseForTurn, sticky. cbn [s_context s_nearExhaustionPct s_now].
    change (c_existingCredentialId ctx) with (Some id). rewrite Hby, Hhealthy, Hid. done. }
  unfold choose. rewrite Hsel. cbn [sel_credentialId]. rewrite bool_decide_eq_true_2 by done.
  unfold settle. cbn [sel_credentialId]. rewrite Hby. change (c_existingCredentialId ctx) with (Some id).
  rewrite (bool_decide_eq_true_2 (Some id = Some id)) by done. cbn [negb]. rewrite andb_false_r. cbn [andb].
  unfold grant. cbn [sel_advances sel_decision]. change (c_leaseRotationEnabled ctx) with true. change (c_existingCredentialId ctx) with (Some id).
  rewrite (bool_decide_eq_true_2 (Some id = Some id)) by done. rewrite andb_false_r. cbn [andb negb].
  rewrite (upsert_existing _ _ _ _ r) by by rewrite find_swept. eexists _, _. split; [reflexivity|]. cbn. by split_and!.
Qed.

(** ** A burst of first turns

    Turns that start within one lease time, on a pool of accounts that stay
    eligible and own the same connectors. *)

Section burst.
Context (accountId ws : string) (near start T : Z).

Definition pool (d : CodexDb) : list CredentialRow := select_where (credentialIn accountId ws) (credentials d).
Definition poolIds (d : CodexDb) : list string := List.map (fun c => a_id (cr_account c)) (pool d).
Definition leasesOn (id : string) (d : CodexDb) : Z :=
  count_where (fun l => bool_decide (ls_workspaceId l = ws) && bool_decide (ls_credentialId l = id)) (leases d).
Definition balanced (d : CodexDb) : Prop := forall a b, a ∈ poolIds d -> b ∈ poolIds d -> leasesOn a d <= leasesOn b d + 1.

Definition defaultStrategy (strategy : string) : Prop :=
  strategy <> "round_robin" /\ strategy <> "drain_then_next" /\ strategy <> "sharded".

Record ready (d : CodexDb) : Prop := {
  rd_settings : exists st, List.find (settingsIn accountId ws) (settings d) = Some st /\
    st_rotationEnabled st = true /\ st_leaseRotationEnabled st = true /\ defaultStrategy (st_rotationStrategy st);
  rd_some : pool d <> [];
  rd_eligible : forall c now, c ∈ pool d -> start <= now <= T -> isCodexCredentialEligible (cr_account c) near now = true;
  rd_covers : forall c1 c2, c1 ∈ pool d -> c2 ∈ pool d ->
    covers (cr_account c1) (default [] (a_connectorNamespaces (cr_account c2))) = true;
  rd_live : forall l, l ∈ leases d -> ls_workspaceId l = ws -> T < ls_leasedUntil l
}.

Record FirstTurn := { ft_now : Z; ft_input : AcquireInput; ft_sessionId : string; ft_last : option string }.
Record isFirst (d : CodexDb) (t : FirstTurn) : Prop := {
  ft_account : i_accountId (ft_input t) = accountId;
  ft_ws : i_workspaceId (ft_input t) = ws;
  ft_continuation : i_continuationCredentialId (ft_input t) = None;
  ft_filter : i_filterNewAllocationCandidates (ft_input t) = None;
  ft_holder : trim (js (i_holderId (ft_input t))) <> [];
  ft_within : start <= ft_now t <= T /\ T < ft_now t + i_leaseTtlMs (ft_input t);
  ft_turn : exists turn, List.find (turnIn accountId ws (i_turnId (ft_input t))) (db_turns (core d)) = Some turn
}.
Definition unleased (t : FirstTurn) (d : CodexDb) : Prop :=
  forall l, l ∈ leases d -> leaseOf ws (i_turnId (ft_input t)) l = false.

Definition acquireFirst (t : FirstTurn) (d : CodexDb) : result CodexLeaseError (AcquireResult * CodexDb) :=
  acquireCodexCredentialLease (ft_now t) (ft_input t)
    (policy true (ft_sessionId t) None None (ft_last t) None near (ft_now t)) d.

Lemma swept_ready d now : ready d -> now <= T -> swept now ws d = d.
Proof.
  intros Hr Hn. apply update_leases_same, filter_all, Forall_forall. intros l Hl.
  destruct (decide (ls_workspaceId l = ws)) as [E|E]; [|by rewrite bool_decide_eq_false_2].
  rewrite bool_decide_eq_true_2 by done. pose proof (rd_live d Hr l Hl E). unfold live.
  by rewrite (proj2 (Z.ltb_lt _ _)) by lia.
Qed.

Lemma countsFor_leasesOn d t id : ready d -> ft_now t <= T -> unleased t d ->
  activeLeases ws id (ft_now t) (Some (i_turnId (ft_input t))) d = leasesOn id d.
Proof.
  intros Hr Hn Hu. unfold activeLeases, leasesOn, count_where. do 2 f_equal. apply filter_ext_in. intros l Hl. apply list_elem_of_In in Hl.
  unfold countsFor. specialize (Hu l Hl). unfold leaseOf in Hu.
  destruct (decide (ls_workspaceId l = ws)) as [E|E]; [|by rewrite bool_decide_eq_false_2].
  rewrite bool_decide_eq_true_2 in * by done. cbn in Hu |- *. rewrite Hu. pose proof (rd_live d Hr l Hl E). unfold live.
  rewrite (proj2 (Z.ltb_lt _ _)) by lia. by rewrite !andb_true_r.
Qed.

Lemma eligible_count acct n now : isCodexCredentialEligible (acct <| a_activeLeaseCount := n |>) near now = isCodexCredentialEligible acct near now.
Proof. by destruct acct. Qed.

(** The policy picks the pool's least leased account. *)
Lemma policy_least d t st : ready d -> isFirst d t -> unleased t d ->
  List.find (settingsIn accountId ws) (settings d) = Some st -> st_rotationEnabled st = true -> defaultStrategy (st_rotationStrategy st) ->
  exists sel id, policy true (ft_sessionId t) None None (ft_last t) None near (ft_now t) (contextOf (ft_now t) (ft_input t) st d None) = sel /\
    sel_credentialId sel = Some id /\
    (exists acct, byId (c_accounts (contextOf (ft_now t) (ft_input t) st d None)) (Some id) = Some acct /\ a_allocatorEnabled acct = true) /\
    id ∈ poolIds d /\ (forall b, b ∈ poolIds d -> leasesOn id d <= leasesOn b d).
Proof.
  intros Hr Hf Hu Hst Hrot (Hs1 & Hs2 & Hs3). set (ctx := contextOf _ _ _ _ _).
  pose proof (ft_within d t Hf) as Hw.
  assert (Hacc : forall acct, acct ∈ c_accounts ctx <-> exists c, c ∈ pool d /\ acct = (cr_account c) <| a_activeLeaseCount := leasesOn (a_id (cr_account c)) d |>).
  { intros acct. unfold ctx, contextOf. cbn [c_accounts]. rewrite candidates_elem, (ft_account d t Hf), (ft_ws d t Hf), swept_ready by (done || lia).
    assert (Hn : forall id, activeLeases ws id (ft_now t) (Some (i_turnId (ft_input t))) d = leasesOn id d) by (intros id; apply countsFor_leasesOn; [done|lia|done]).
    unfold pool. split; intros (c & Hc).
    - destruct Hc as (Hc & Hin & ->). exists c. rewrite Hn. split; [by apply elem_of_select_where|done].
    - destruct Hc as [[Hin Hc]%elem_of_select_where ->]. exists c. by rewrite Hn. }
  unfold policy, selectCodexCredentialLeaseForTurn. cbn [s_context s_continuationCredentialId].
  change (c_existingCredentialId ctx) with (@None string). cbn [sticky byId]. unfold sticky. cbn [byId s_context].
  unfold selectNew. cbn [s_context s_sessionPinnedCredentialId s_sessionPinSource s_leasingEnabled].
  change (c_rotationStrategy ctx) with (st_rotationStrategy st). change (c_rotationEnabled ctx) with true. change (c_leaseRotationEnabled ctx) with true.
  unfold classifyCodexPin. rewrite (proj2 (String.eqb_neq _ _) Hs3). cbn [andb negb].
  unfold selectRanked. cbn [s_context s_sessionLastCredentialId s_nearExhaustionPct s_now]. cbv zeta.
  set (rank := Build_RankArgs _ _ _ _ _ _ _).
  assert (Hel : forall acct, acct ∈ c_accounts ctx -> isCodexCredentialEligible acct near (ft_now t) = true).
  { intros acct (c & Hc & ->)%Hacc. rewrite eligible_count. apply (rd_eligible d Hr); [done|lia]. }
  assert (Hcand : candidates rank = c_accounts ctx) by (apply filter_all, Forall_forall; exact Hel).
  assert (Hcov : coveringCandidates rank = c_accounts ctx).
  { unfold coveringCandidates. rewrite Hcand. apply filter_all, Forall_forall. intros acct (c & Hc & ->)%Hacc. unfold rank. cbn [r_usedConnectors].
    destruct (byId (c_accounts ctx) _) as [prior|] eqn:Ep; [|done]. apply byId_Some in Ep as [(c2 & Hc2 & ->)%Hacc _].
    pose proof (rd_covers d Hr c c2 Hc Hc2) as H. by destruct (cr_account c). }
  assert (Hne : c_accounts ctx <> []).
  { destruct (pool d) as [|c l] eqn:E; [by destruct (rd_some d Hr)|]. intros Hnil.
    assert (Hin : (cr_account c) <| a_activeLeaseCount := leasesOn (a_id (cr_account c)) d |> ∈ c_accounts ctx) by (apply Hacc; exists c; split; [left|done]).
    rewrite Hnil in Hin. by apply elem_of_nil in Hin. }
  assert (Htier : tier rank = c_accounts ctx) by (unfold tier; rewrite Hcov, Hcand; by destruct (c_accounts ctx)).
  assert (Halloc : List.filter a_allocatorEnabled (r_accounts rank) = c_accounts ctx).
  { apply filter_all, Forall_forall. intros acct Ha. by apply Hel, eligible_healthy in Ha as [_ ?]. }
  rewrite choose_default; [|done|done|by rewrite Halloc]. rewrite Htier.
  destruct (mostRemaining _ _) as [a|] eqn:Em; [|by apply mostRemaining_None in Em; destruct Hne]. apply mostRemaining_firstBest in Em as Hb.
  pose proof (firstBest_elem _ _ _ Hb) as Ha. apply Hacc in Ha as Hac. destruct Hac as (c & Hc & Hac). eexists _, (a_id a). split_and!; [done|done| | |].
  - destruct (byId (c_accounts ctx) (Some (a_id a))) as [acct|] eqn:E.
    + exists acct. split; [done|]. apply byId_Some in E as [Hin _]. by apply Hel, eligible_healthy in Hin as [_ ?].
    + exfalso. apply list_elem_of_In in Ha. apply (find_none _ _ E) in Ha. cbn in Ha. by rewrite String.eqb_refl in Ha.
  - rewrite Hac. cbn. apply list_elem_of_fmap. by exists c.
  - intros b (c2 & -> & Hc2)%list_elem_of_fmap.
    assert (H2 : (cr_account c2) <| a_activeLeaseCount := leasesOn (a_id (cr_account c2)) d |> ∈ c_accounts ctx) by (apply Hacc; by exists c2).
    pose proof (firstBest_leases _ _ _ _ Hb H2) as Hle. by rewrite Hac in Hle |- *.
Qed.

(** What a grant of a new lease leaves behind. *)
Definition granted (t : FirstTurn) (id : string) (d d' : CodexDb) : Prop :=
  core d' = core d /\ leases d' = leases d ++ [newLease (ft_now t) (ft_input t) id] /\
  credentials d' = credentials (countSelection (ft_now t) (ft_input t) id d) /\
  (settings d' = settings d \/ settings d' = settings (movePointer (ft_now t) (ft_input t) id d)).

Lemma acquireFirst_grants d t : ready d -> isFirst d t -> unleased t d ->
  exists res d' id, acquireFirst t d = Ok (res, d') /\ q_credentialId res = Some id /\ granted t id d d' /\
    id ∈ poolIds d /\ (forall b, b ∈ poolIds d -> leasesOn id d <= leasesOn b d).
Proof.
  intros Hr Hf Hu. destruct (rd_settings d Hr) as (st & Hst & Hrot & Hlease & Hstrat). pose proof (ft_within d t Hf) as Hw.
  assert (Had : admitted (ft_now t) (ft_input t) d st).
  { split; rewrite ?(ft_account d t Hf), ?(ft_ws d t Hf); [lia|apply (ft_holder d t Hf)|done|apply (ft_turn d t Hf)|done|done]. }
  unfold acquireFirst. set (select := policy _ _ _ _ _ _ _ _).
  destruct (acquire_admitted _ _ select d st Had) as [md Hacq]. cbv zeta in Hacq. rewrite (ft_ws d t Hf), swept_ready in Hacq by (done || lia).
  assert (Hnone : List.find (leaseOf ws (i_turnId (ft_input t))) (leases d) = None).
  { apply find_all_false. intros l Hl. by apply Hu. }
  assert (Hnone' : List.find (fun r => leaseOf ws (i_turnId (ft_input t)) r && live (ft_now t) r) (leases d) = None).
  { apply find_all_false. intros l Hl. by rewrite Hu. }
  rewrite Hnone' in Hacq. cbn [fmap option_fmap option_map] in Hacq.
  assert (Hcont : validatedContinuation (ft_input t) d = None) by (unfold validatedContinuation; by rewrite (ft_continuation d t Hf)).
  destruct (policy_least d t st Hr Hf Hu Hst Hrot Hstrat) as (sel & id & Hsel & Hid & (acct & Hby & Ha) & Hin & Hmin).
  rewrite Hcont in Hacq. unfold choose in Hacq. rewrite (ft_filter d t Hf) in Hacq. cbn [fmap option_fmap option_map filterCodexLeaseCandidatesForPolicy] in Hacq.
  set (ctx := contextOf _ _ _ _ None) in *. change (ctx <| c_accounts := c_accounts ctx |>) with ctx in Hacq. rewrite Hacq. fold select in Hsel. rewrite Hsel.
  unfold settle. rewrite Hid, Hby, Ha. cbn [negb andb]. unfold grant. change (c_leaseRotationEnabled ctx) with true. cbn [negb].
  change (c_existingCredentialId ctx) with (@None string). rewrite (bool_decide_eq_false_2 (None = Some id)) by done.
  unfold upsertLease. rewrite (ft_ws d t Hf), Hnone. eexists _, _, id. split; [reflexivity|]. split_and!; [done| |done|done].
  unfold granted. destruct (_ && negb _); cbn; split_and!; auto.
Qed.

Lemma pool_granted t id d d' : granted t id d d' ->
  forall c', c' ∈ pool d' -> exists c n s, c ∈ pool d /\ cr_account c' = (cr_account c) <| a_selectionCount := n |> <| a_lastSelectedAt := s |>.
Proof.
  intros (_ & _ & Hc & _) c' [Hin Hc']%elem_of_select_where. rewrite Hc in Hc'. cbn in Hc'. apply elem_of_update_where in Hc' as (c & Hc0 & ->).
  exists c. destruct (credentialIs _ _ _ c).
  - exists (Z.succ (a_selectionCount (cr_account c))), (Some (ft_now t)). split; [by apply elem_of_select_where|]. by destruct c as [? ? [] ? ? ?].
  - exists (a_selectionCount (cr_account c)), (a_lastSelectedAt (cr_account c)). split; [by apply elem_of_select_where|]. by destruct (cr_account c).
Qed.

Lemma poolIds_granted t id d d' : granted t id d d' -> poolIds d' = poolIds d.
Proof.
  intros (_ & _ & Hc & _). unfold poolIds, pool. rewrite Hc. cbn. rewrite select_update_other.
  - unfold update_where. rewrite List.map_map. apply map_ext. intros c. by destruct (credentialIs _ _ _ c).
  - intros r. by destruct (credentialIs _ _ _ r).
Qed.

Lemma leasesOn_granted t id d d' : granted t id d d' -> i_workspaceId (ft_input t) = ws ->
  forall b, leasesOn b d' = leasesOn b d + if bool_decide (id = b) then 1 else 0.
Proof.
  intros (_ & Hl & _) Hws b. unfold leasesOn, count_where. rewrite Hl, List.filter_app, length_app, Nat2Z.inj_add. f_equal.
  cbn. rewrite (bool_decide_eq_true_2 (i_workspaceId (ft_input t) = ws)) by done. cbn. by destruct (bool_decide (id = b)).
Qed.

Lemma ready_granted t id d d' : ready d -> isFirst d t -> granted t id d d' -> ready d'.
Proof.
  intros Hr Hf Hg. pose proof (pool_granted t id d d' Hg) as Hp. pose proof (poolIds_granted t id d d' Hg) as Hids. split.
  - destruct (rd_settings d Hr) as (st & Hst & H). destruct Hg as (_ & _ & _ & [->| ->]); [by exists st|]. cbn.
    rewrite find_update_where by by intros []. rewrite Hst. cbn. eexists. split; [reflexivity|]. by destruct (settingsIn _ _ st).
  - intros Hnil. apply (rd_some d Hr). unfold poolIds in Hids. rewrite Hnil in Hids. cbn in Hids. by destruct (pool d).
  - intros c' now Hc' Hn. destruct (Hp c' Hc') as (c & n & s & Hc & ->). rewrite <- (rd_eligible d Hr c now Hc Hn). by destruct (cr_account c).
  - intros c1 c2 H1 H2. destruct (Hp c1 H1) as (b1 & n1 & s1 & Hb1 & ->), (Hp c2 H2) as (b2 & n2 & s2 & Hb2 & ->).
    pose proof (rd_covers d Hr b1 b2 Hb1 Hb2) as H. by destruct (cr_account b1), (cr_account b2).
  - destruct Hg as (_ & -> & _). intros l [Hl| ->%list_elem_of_singleton]%elem_of_app E; [by apply (rd_live d Hr)|]. cbn. apply (ft_within d t Hf).
Qed.

Lemma balanced_granted t id d d' : granted t id d d' -> i_workspaceId (ft_input t) = ws -> balanced d -> id ∈ poolIds d ->
  (forall b, b ∈ poolIds d -> leasesOn id d <= leasesOn b d) -> balanced d'.
Proof.
  intros Hg Hws Hb Hid Hmin a b. rewrite (poolIds_granted _ _ _ _ Hg), !(leasesOn_granted _ _ _ _ Hg Hws). intros Ha Hb'.
  specialize (Hb a b Ha Hb'). specialize (Hmin b Hb'). do 2 case_bool_decide; subst; lia.
Qed.

Fixpoint acquireAll (ts : list FirstTurn) (d : CodexDb) : result CodexLeaseError CodexDb :=
  match ts with
  | [] => Ok d
  | t :: ts => match acquireFirst t d with Ok (_, d') => acquireAll ts d' | Err e => Err e end
  end.

(** A burst spreads evenly.  Turns that start together, each for the first
    time, all get an account; and if the live leases of the pool's accounts
    differed by at most one before, they still do afterwards: no account is
    stampeded, however many workers allocate. *)
Theorem burst_balanced ts d : ready d -> balanced d -> Forall (isFirst d) ts ->
  NoDup (List.map (fun t => i_turnId (ft_input t)) ts) -> Forall (fun t => unleased t d) ts ->
  exists d', acquireAll ts d = Ok d' /\ balanced d' /\ poolIds d' = poolIds d /\
    length (leases d') = (length (leases d) + length ts)%nat.
Proof.
  revert d. induction ts as [|t ts IH]; intros d Hr Hb Hfs Hnd Hus; [exists d; split_and!; [done|done|done|cbn; lia]|].
  apply Forall_cons in Hfs as [Hf Hfs], Hus as [Hu Hus]. cbn in Hnd. apply NoDup_cons in Hnd as [Hnot Hnd].
  destruct (acquireFirst_grants d t Hr Hf Hu) as (res & d1 & id & Hacq & _ & Hg & Hid & Hmin). cbn [acquireAll]. rewrite Hacq.
  destruct (IH d1) as (d' & Hall & Hb' & Hids & Hlen).
  - by eapply ready_granted.
  - eapply balanced_granted; [done|apply (ft_ws d t Hf)|done..].
  - eapply Forall_impl; [exact Hfs|]. intros u []. split; try done. by rewrite (proj1 Hg).
  - done.
  - apply Forall_forall. intros u Hin l Hl. destruct Hg as (_ & Hl1 & _). rewrite Hl1 in Hl.
    apply elem_of_app in Hl as [Hl| ->%list_elem_of_singleton]; [rewrite Forall_forall in Hus; by apply Hus|].
    unfold leaseOf. cbn. rewrite andb_false_iff. right. apply bool_decide_eq_false_2. intros E. apply Hnot. rewrite E.
    exact (list_elem_of_fmap_2 (fun t => i_turnId (ft_input t)) ts u Hin).
  - exists d'. split_and!; [done|done|by rewrite Hids, (poolIds_granted _ _ _ _ Hg)|].
    rewrite Hlen. destruct Hg as (_ & -> & _). rewrite length_app. cbn. lia.
Qed.
End burst.

(** ** Example *)

Definition exampleTurn (id : string) : TurnRow := {|
  t_id := id; t_accountId := "acc"; t_workspaceId := "ws"; t_sessionId := "s"; t_triggerEventId := "e"; t_temporalWorkflowId := "wf";
  t_status := T_running; t_source := Src_user; t_position := 1; t_prompt := []; t_resources := JNull; t_tools := JNull; t_model := "m";
  t_reasoningEffort := "low"; t_sandboxBackend := "none"; t_metadata := []; t_toolspaceCallCount := 0; t_startedAt := None;
  t_finishedAt := None; t_createdAt := 0; t_updatedAt := 0 |}.
Definition exampleCredential (id : string) (createdAt : Z) : CredentialRow := {|
  cr_accountId := "acc"; cr_workspaceId := "ws"; cr_account := exampleAccount id 10 0; cr_lastError := None;
  cr_createdAt := createdAt; cr_updatedAt := 0 |}.
Definition exampleSettings : SettingsRow := {|
  st_accountId := "acc"; st_workspaceId := "ws"; st_activeCredentialId := Some "a"%string; st_rotationEnabled := true;
  st_leaseRotationEnabled := true; st_rotationStrategy := "most_remaining"; st_updatedAt := 0 |}.
Definition exampleDb : CodexDb := {|
  core := {| db_sessions := []; db_events := []; db_turns := List.map exampleTurn ["t1"; "t2"; "t3"]%string; db_goals := []; db_fresh := 0 |};
  credentials := [exampleCredential "b" 2; exampleCredential "a" 1]; settings := [exampleSettings]; leases := []; runStates := [] |}.
Definition exampleInput (turnId holder : string) : AcquireInput := {|
  i_accountId := "acc"; i_workspaceId := "ws"; i_turnId := turnId; i_holderId := holder; i_advanceActivePointer := true;
  i_continuationCredentialId := None; i_filterNewAllocationCandidates := None; i_leaseTtlMs := 300000 |}.
Definition examplePolicy (now : Z) := policy true "s" None None None None 90 now.
Definition exampleAcquired : AcquireResult * CodexDb :=
  match acquireCodexCredentialLease 1000 (exampleInput "t1" "h1") (examplePolicy 1000) exampleDb with
  | Ok r => r
  | Err _ => (noLease NoAccount [] None false, exampleDb)
  end.

(** A second activity takes the turn over; the first one's heartbeat misses. *)
Lemma lease_fenced_witness :
  q_generation exampleAcquired.1 = Some 1 /\
  match acquireCodexCredentialLease 2000 (exampleInput "t1" "h2") (examplePolicy 2000) exampleAcquired.2 with
  | Ok (res, d) => q_generation res = Some 2 /\ heartbeatCodexCredentialLeaseUntil 2500 "acc" "ws" "t1" "h1" 1 300000 d = (None, d)
  | Err _ => False
  end.
Proof.
  split; [vm_compute; reflexivity|].
  destruct (acquireCodexCredentialLease 2000 (exampleInput "t1" "h2") (examplePolicy 2000) exampleAcquired.2) as [[res d]|] eqn:E;
    [|vm_compute in E; discriminate].
  assert (Hg : q_generation res = Some 2) by (vm_compute in E; injection E as <- _; reflexivity).
  split; [exact Hg|].
  refine (proj1 (lease_fenced 2000 (exampleInput "t1" "h2") (examplePolicy 2000) exampleAcquired.2 res d d "h1" E _ _ (rtc_refl _ d) 2500 "acc" 1 300000 "a" (Q_cooldown 0))).
  - rewrite Hg. discriminate.
  - vm_compute. discriminate.
Defined.

Lemma lease_reused_witness :
  match acquireCodexCredentialLease 2000 (exampleInput "t1" "h2") (examplePolicy 2000) exampleAcquired.2 with
  | Ok (res, _) => q_credentialId res = Some "a"%string /\ q_reused res = true
  | Err _ => False
  end.
Proof.
  destruct (lease_reused 2000 (exampleInput "t1" "h2") exampleAcquired.2 exampleSettings true "s" None None None None 90
    (newLease 1000 (exampleInput "t1" "h1") "a")) as (res & d' & H & Hc & Hr & _).
  - split; try (vm_compute; reflexivity); [vm_compute; discriminate|]. exists (exampleTurn "t1"). vm_compute. reflexivity.
  - vm_compute. reflexivity.
  - exists (nth 1 (credentials exampleAcquired.2) (exampleCredential "a" 1)). split; [|vm_compute; reflexivity].
    apply list_elem_of_lookup_2 with 1%nat. vm_compute. reflexivity.
  - intros c Hin _. assert (Forall (fun c => isCodexCredentialHealthy (cr_account c) 90 2000 = true) (credentials exampleAcquired.2)) as HF
      by (repeat constructor). rewrite Forall_forall in HF. apply HF, Hin.
  - unfold examplePolicy. rewrite H. split; [exact Hc|exact Hr].
Defined.

Definition exampleBurst : list FirstTurn :=
  List.map (fun t => {| ft_now := 1000; ft_input := exampleInput t t; ft_sessionId := t; ft_last := None |}) ["t1"; "t2"; "t3"]%string.

Lemma burst_balanced_witness :
  exists d', acquireAll 90 exampleBurst exampleDb = Ok d' /\ balanced "acc" "ws" d' /\
    leasesOn "ws" "a" d' = 2 /\ leasesOn "ws" "b" d' = 1.
Proof.
  destruct (burst_balanced "acc" "ws" 90 1000 2000 exampleBurst exampleDb) as (d' & H & Hb & _).
  - split.
    + exists exampleSettings. do 3 (split; [reflexivity|]). split; [|split]; vm_compute; discriminate.
    + vm_compute. discriminate.
    + intros c now Hc _. unfold pool in Hc. cbn in Hc. apply elem_of_cons in Hc as [->|Hc]; [|apply elem_of_cons in Hc as [->|Hc]; [|by apply elem_of_nil in Hc]];
        unfold isCodexCredentialEligible, isCodexCredentialHealthy, bindingUsedPct, primaryUsed, secondaryUsed, effectiveWindowUsed; cbn;
        destruct (2000 <=? now); reflexivity.
    + intros c1 c2 H1 H2. assert (Forall (fun c => a_connectorNamespaces (cr_account c) = None) (pool "acc" "ws" exampleDb)) as HF by (vm_compute; repeat constructor).
      rewrite Forall_forall in HF. rewrite (HF c2 H2). reflexivity.
    + intros l Hl. by apply elem_of_nil in Hl.
  - intros a b Ha Hb. vm_compute. discriminate.
  - repeat (apply Forall_cons; split); [| | |apply Forall_nil; exact I];
      (split; [reflexivity..|vm_compute; discriminate|split; [split|]; vm_compute; done|eexists; vm_compute; reflexivity]).
  - apply (bool_decide_unpack _). vm_compute. reflexivity.
  - repeat constructor; intros l Hl; by apply elem_of_nil in Hl.
  - exists d'. split; [exact H|]. split; [exact Hb|]. vm_compute in H. injection H as <-. vm_compute. split; reflexivity.
Defined.
End CodexLease.
