(* ===== verification/CodexSettle.v ===== *)
(** * Settling a turn that lost its credential ([packages/db/src/index.ts])

    [settleCodexCredentialFailover] and [settleCodexCredentialLeaseLoss] end the
    dispatch of a turn whose account failed or whose lease was lost: fenced by
    the lease, the turn's status and the worker-death counter, one transaction
    appends the two durable events, puts the same turn back (or fails it), frees
    the session and deletes the lease. *)
From S2P Require Import Prelude Json PayloadSanitizer Sql Schema EventLog TurnQueue CodexRotation CodexLease.
#[local] Open Scope Z_scope.
#[local] Open Scope opengeni_scope.

Module CodexSettle.
Import EventLog TurnQueue CodexLease.

Record SettleInput := {
  z_accountId : string;
  z_workspaceId : string;
  z_sessionId : string;
  z_turnId : string;
  z_originalTriggerEventId : string;
  z_holderId : string;
  z_generation : Z;
  z_resumeWithNotice : bool;
  z_preemptedPayload : list (jstr * json)
}.

Inductive SettleError :=
| FailoverBoundNotPositive
| RedispatchFenceNegative
| NoticeWithoutCheckpoint
| InsertFailed (e : DbError).

(** ** The fences *)

Definition turnFor (input : SettleInput) (r : TurnRow) : bool :=
  bool_decide (t_accountId r = z_accountId input) && bool_decide (t_workspaceId r = z_workspaceId input)
  && bool_decide (t_id r = z_turnId input) && bool_decide (t_sessionId r = z_sessionId input).
Definition dispatched (r : TurnRow) : bool := bool_decide (t_status r ∈ [T_running; T_requires_action]).
Definition sessionFor (input : SettleInput) (r : SessionRow) : bool :=
  bool_decide (s_accountId r = z_accountId input) && bool_decide (s_workspaceId r = z_workspaceId input)
  && bool_decide (s_id r = z_sessionId input).

(** The locked turn and session, when the turn is dispatched and active. *)
Definition activeDispatch (input : SettleInput) (d : CodexDb) : option (TurnRow * SessionRow) :=
  match List.find (turnFor input) (db_turns (core d)) with
  | Some turn =>
      if negb (dispatched turn) then None
      else match List.find (sessionFor input) (db_sessions (core d)) with
           | Some session => if bool_decide (s_activeTurnId session = Some (z_turnId input)) then Some (turn, session) else None
           | None => None
           end
  | None => None
  end.

Definition ownLease (input : SettleInput) (r : LeaseRow) : bool :=
  leaseAccount (z_accountId input) r && leaseHeld (z_workspaceId input) (z_turnId input) (z_holderId input) (z_generation input) r.

(** ** The settlement *)

Definition event (input : SettleInput) (type : string) (payload : json) : AppendEventInput := {|
  in_type := type; in_payload := Some payload; in_occurredAt := None; in_clientEventId := None;
  in_turnId := Some (z_turnId input); in_producerId := None; in_producerSeq := None |}.
Definition statusEvent (input : SettleInput) (status : string) : AppendEventInput :=
  event input "session.status.changed" (JObj [(js "status", JStr (js status))]).

(** The two events at the next sequences, then the turn, the session and the
    lease.  [onTurn] is given the id of the first event. *)
Definition settlement (now : Z) (input : SettleInput) (session : SessionRow) (first : AppendEventInput) (status : SessionStatus)
  (statusText : string) (onTurn : string -> TurnRow -> TurnRow) (d : CodexDb) : result SettleError (list SessionEvent * CodexDb) :=
  match insertEvents (eventValues session (s_lastSequence session) now [first; statusEvent input statusText]) (core d) with
  | Err e => Err (InsertFailed e)
  | Ok (inserted, c) =>
      let eventId := match inserted with e :: _ => e_id e | [] => EmptyString end in
      let c := c <| db_turns ::= update_where (turnIs (z_workspaceId input) (z_turnId input)) (onTurn eventId) |>
                 <| db_sessions ::= update_where
                      (fun r => inSession (z_workspaceId input) (z_sessionId input) r && bool_decide (s_activeTurnId r = Some (z_turnId input)))
                      (fun r => r <| s_status := status |> <| s_activeTurnId := None |>
                                  <| s_lastSequence := s_lastSequence session + 2 |> <| s_updatedAt := now |>) |> in
      Ok (List.map mapEvent inserted, d <| core := c |> <| leases ::= delete_where (ownLease input) |>)
  end.

Definition requeued (now : Z) (input : SettleInput) (eventId : string) (r : TurnRow) : TurnRow :=
  r <| t_status := T_queued |>
    <| t_triggerEventId := if z_resumeWithNotice input then eventId else z_originalTriggerEventId input |>
    <| t_startedAt := None |> <| t_finishedAt := None |> <| t_updatedAt := now |>.

(** ** Failover *)

(** [Number(metadata.codexCredentialFailovers ?? 0)]: only this function writes it. *)
Definition failoversOf (metadata : list (jstr * json)) : Z :=
  match assoc (js "codexCredentialFailovers") metadata with Some (JNum n) => n | _ => 0 end.

Inductive FailoverAction := Requeued (events : list SessionEvent) | Stale | LimitExceeded.

Definition settleCodexCredentialFailover (now : Z) (input : SettleInput) (maxFailovers : Z) (d : CodexDb)
  : result SettleError (FailoverAction * Z * CodexDb) :=
  if maxFailovers <? 1 then Err FailoverBoundNotPositive
  else
    let current := match List.find (turnFor input) (db_turns (core d)) with Some turn => failoversOf (t_metadata turn) | None => 0 end in
    match activeDispatch input d with
    | None => Ok (Stale, current, d)
    | Some (turn, session) =>
        if negb (existsb (fun r => ownLease input r && live now r) (leases d)) then Ok (Stale, current, d)
        else
          let failoverCount := current + 1 in
          if maxFailovers <? failoverCount then Ok (LimitExceeded, failoverCount, d)
          else
            let preempted := event input "turn.preempted"
              (JObj (set_field (js "failoverCount") (JNum failoverCount) (z_preemptedPayload input))) in
            let onTurn eventId r := requeued now input eventId r
              <| t_metadata := set_field (js "codexCredentialFailovers") (JNum failoverCount) (t_metadata turn) |> in
            match settlement now input session preempted S_queued "queued" onTurn d with
            | Err e => Err e
            | Ok (events, d') => Ok (Requeued events, failoverCount, d')
            end
    end.

(** ** A lost lease *)

Inductive LossAction := LossRequeued (events : list SessionEvent) | LossFailed (events : list SessionEvent) | LossStale.

Definition settleCodexCredentialLeaseLoss (now : Z) (input : SettleInput) (expectedRedispatches : Z) (checkpointDurable : bool)
  (failedPayload : list (jstr * json)) (d : CodexDb) : result SettleError (LossAction * CodexDb) :=
  if expectedRedispatches <? 0 then Err RedispatchFenceNegative
  else if z_resumeWithNotice input && negb checkpointDurable then Err NoticeWithoutCheckpoint
  else
    match activeDispatch input d with
    | None => Ok (LossStale, d)
    | Some (turn, session) =>
        let successor := match List.find (fun r => leaseAccount (z_accountId input) r && leaseOf (z_workspaceId input) (z_turnId input) r) (leases d) with
                         | Some lease => negb (bool_decide (ls_holderId lease = z_holderId input) && (ls_generation lease =? z_generation input))
                         | None => false
                         end in
        if negb (workerDeathRedispatches turn =? expectedRedispatches) || successor then Ok (LossStale, d)
        else if checkpointDurable then
          match settlement now input session (event input "turn.preempted" (JObj (z_preemptedPayload input))) S_queued "queued"
                  (requeued now input) d with
          | Err e => Err e
          | Ok (events, d') => Ok (LossRequeued events, d')
          end
        else
          match settlement now input session (event input "turn.failed" (JObj failedPayload)) S_failed "failed"
                  (fun _ r => r <| t_status := T_failed |> <| t_finishedAt := Some now |> <| t_updatedAt := now |>) d with
          | Err e => Err e
          | Ok (events, d') => Ok (LossFailed events, d')
          end
    end.

(** The second payload is not sanitized in the source; it needs nothing. *)
Example status_payload_clean status : status = "queued"%string \/ status = "failed"%string ->
  PayloadSanitizer.sanitizeEventPayload (JObj [(js "status", JStr (js status))]) = JObj [(js "status", JStr (js status))].
Proof. intros [-> | ->]; vm_compute; reflexivity. Qed.

(** ** A settlement *)

Lemma activeDispatch_Some input d turn session : activeDispatch input d = Some (turn, session) ->
  List.find (turnFor input) (db_turns (core d)) = Some turn /\ dispatched turn = true /\
  List.find (sessionFor input) (db_sessions (core d)) = Some session /\ s_activeTurnId session = Some (z_turnId input).
Proof.
  unfold activeDispatch. destruct (List.find (turnFor input) _) as [t|]; [|done]. destruct (dispatched t) eqn:Ed; [|done]. cbn [negb].
  destruct (List.find (sessionFor input) _) as [s|]; [|done]. case_bool_decide; [|done]. by intros [= <- <-].
Qed.

Lemma sessionFor_true input r : sessionFor input r = true ->
  s_accountId r = z_accountId input /\ s_workspaceId r = z_workspaceId input /\ s_id r = z_sessionId input.
Proof. unfold sessionFor. rewrite !andb_true_iff, !bool_decide_eq_true. tauto. Qed.

(** Session ids are unique, so the session found by account is the session of
    the workspace and id. *)
Lemma find_own_session input d session : log_ok d -> List.find (sessionFor input) (db_sessions d) = Some session ->
  List.find (inSession (z_workspaceId input) (z_sessionId input)) (db_sessions d) = Some session.
Proof.
  intros Hok [Hin Hp]%find_some. apply sessionFor_true in Hp as (_ & Hw & Hi). apply list_elem_of_In in Hin.
  destruct (List.find (inSession _ _) _) as [s'|] eqn:E.
  - f_equal. apply find_some in E as [Hin' [_ Hi']%inSession_true]. apply list_elem_of_In in Hin'.
    eapply (select_unique s_id); [apply Hok|done|done|reflexivity|congruence].
  - exfalso. apply list_elem_of_In in Hin. apply (find_none _ _ E) in Hin. apply not_true_iff_false in Hin. by apply Hin, inSession_true.
Qed.

Lemma update_where_ext {R} (p q : R -> bool) f t : (forall r, r ∈ t -> p r = q r) -> update_where p f t = update_where q f t.
Proof. intros H. unfold update_where. apply map_ext_in. intros r Hr%list_elem_of_In. by rewrite H. Qed.

Definition freed (now : Z) (session : SessionRow) (status : SessionStatus) (r : SessionRow) : SessionRow :=
  r <| s_status := status |> <| s_activeTurnId := None |> <| s_lastSequence := s_lastSequence session + 2 |> <| s_updatedAt := now |>.

Record settledTo (now : Z) (input : SettleInput) (session : SessionRow) (first : AppendEventInput) (status : SessionStatus) (statusText : string)
  (onTurn : string -> TurnRow -> TurnRow) (d : CodexDb) (evs : list SessionEvent) (d' : CodexDb) : Prop := {
  sd_events : exists e1 e2, evs = List.map mapEvent [e1; e2] /\ db_events (core d') = db_events (core d) ++ [e1; e2] /\
    e1 = eventValue session (s_lastSequence session + 1) now first (e_id e1) /\
    e2 = eventValue session (s_lastSequence session + 2) now (statusEvent input statusText) (e_id e2) /\
    db_turns (core d') = update_where (turnIs (z_workspaceId input) (z_turnId input)) (onTurn (e_id e1)) (db_turns (core d));
  sd_sessions : db_sessions (core d') = update_where (inSession (z_workspaceId input) (z_sessionId input)) (freed now session status) (db_sessions (core d));
  sd_log : log_ok (core d');
  sd_leases : leases d' = delete_where (ownLease input) (leases d);
  sd_rest : credentials d' = credentials d /\ settings d' = settings d
}.

Lemma settlement_spec now input turn session type payload status statusText onTurn d :
  log_ok (core d) -> activeDispatch input d = Some (turn, session) ->
  exists evs d', settlement now input session (event input type payload) status statusText onTurn d = Ok (evs, d') /\
    settledTo now input session (event input type payload) status statusText onTurn d evs d'.
Proof.
  intros Hok (_ & _ & Hs & Hact)%activeDispatch_Some. pose proof (find_own_session _ _ _ Hok Hs) as Hfind.
  apply find_some in Hs as [Hin Hp]. apply sessionFor_true in Hp as (_ & Hw & Hi). apply list_elem_of_In in Hin.
  set (inputs := [event input type payload; statusEvent input statusText]).
  destruct (insertEvents_total session (s_lastSequence session) now inputs (core d)) as (rows & c & Hins).
  - intros e He Ho. by eapply log_ok_bound.
  - by repeat constructor.
  - intros i x e Hi' Hx. repeat (apply elem_of_cons in Hi' as [->|Hi']; [done|]). by apply elem_of_nil in Hi'.
  - constructor.
  - unfold settlement. fold inputs. rewrite Hins. eexists _, _. split; [reflexivity|].
    pose proof (insertEvents_spec _ _ _ _ Hins) as (Hrows & Hev & Hss & Hts & _). cbn in Hrows.
    assert (Hupd : update_where (fun r => inSession (z_workspaceId input) (z_sessionId input) r && bool_decide (s_activeTurnId r = Some (z_turnId input)))
        (fun r => r <| s_status := status |> <| s_activeTurnId := None |> <| s_lastSequence := s_lastSequence session + 2 |> <| s_updatedAt := now |>) (db_sessions c) =
      update_where (inSession (z_workspaceId input) (z_sessionId input)) (freed now session status) (db_sessions (core d))).
    { rewrite Hss. apply update_where_ext. intros r Hr. destruct (inSession _ _ r) eqn:E; [|done]. apply inSession_true in E as [_ E].
      assert (r = session) as -> by (eapply (select_unique s_id); [apply Hok|done|done|reflexivity|congruence]). by rewrite Hact, bool_decide_eq_true_2. }
    split.
    + rewrite Hrows. eexists _, _. split_and!; [reflexivity|cbn; by rewrite Hev, Hrows|done| |cbn; by rewrite Hts].
      cbn. f_equal. lia.
    + exact Hupd.
    + pose proof (log_ok_batch (core d) c rows now (z_workspaceId input) (z_sessionId input) session inputs (freed now session status) Hok Hfind Hins
        ltac:(intros r; split_and!; done)) as H.
      eapply (log_ok_map _ _ (fun e => e)); [exact H|etrans; [exact Hupd|cbn; by rewrite Hss]|by rewrite List.map_id|done].
    + done.
    + done.
Qed.

Lemma turnFor_turnIs input r : turnFor input r = true -> turnIs (z_workspaceId input) (z_turnId input) r = true.
Proof. unfold turnFor. rewrite !andb_true_iff, !bool_decide_eq_true, turnIs_true. tauto. Qed.

(** No dispatch of a turn whose every row is queued or finished. *)
Lemma undispatched input d : (forall r, r ∈ db_turns (core d) -> turnIs (z_workspaceId input) (z_turnId input) r = true -> dispatched r = false) ->
  activeDispatch input d = None.
Proof.
  intros H. unfold activeDispatch. destruct (List.find _ _) as [t|] eqn:E; [|done]. apply find_some in E as [Hin%list_elem_of_In Ht%turnFor_turnIs].
  by rewrite (H t Hin Ht).
Qed.

Lemma updated_turn p f (t : list TurnRow) r : r ∈ update_where p f t -> (forall x, p (f x) = p x) -> p r = true -> exists x, x ∈ t /\ r = f x.
Proof.
  intros (x & Hx & ->)%elem_of_update_where Hp Hr. exists x. split; [done|]. destruct (p x) eqn:E; [done|congruence].
Qed.

Lemma failoversOf_set n metadata : failoversOf (set_field (js "codexCredentialFailovers") (JNum n) metadata) = n.
Proof. unfold failoversOf. rewrite assoc_set_field. by rewrite bool_decide_eq_true_2. Qed.

(** A failover is all or nothing, fenced and bounded.  It either changes
    nothing, because the turn is no longer this activity's live dispatch or its
    failovers are used up, or it does everything in one step: the counter is one
    higher and within the bound, the two events are the next of an intact log,
    the turn is queued, the session is queued and free, and of all leases
    exactly the activity's own is gone.  Calling it again changes nothing. *)
Theorem failover_settled now input maxFailovers d : log_ok (core d) -> 1 <= maxFailovers ->
  exists action count d', settleCodexCredentialFailover now input maxFailovers d = Ok (action, count, d') /\
  match action with
  | Requeued evs =>
      exists turn session l, activeDispatch input d = Some (turn, session) /\
        (l ∈ leases d /\ ownLease input l = true /\ now < ls_leasedUntil l) /\
        count = failoversOf (t_metadata turn) + 1 /\ count <= maxFailovers /\ log_ok (core d') /\
        List.map ev_sequence evs = [s_lastSequence session + 1; s_lastSequence session + 2] /\
        (forall r, r ∈ db_turns (core d') -> turnIs (z_workspaceId input) (z_turnId input) r = true ->
           t_status r = T_queued /\ failoversOf (t_metadata r) = count) /\
        (forall s, s ∈ db_sessions (core d') -> inSession (z_workspaceId input) (z_sessionId input) s = true ->
           s_status s = S_queued /\ s_activeTurnId s = None /\ s_lastSequence s = s_lastSequence session + 2) /\
        (forall r, r ∈ leases d' <-> r ∈ leases d /\ ownLease input r = false) /\
        forall later, exists n, settleCodexCredentialFailover later input maxFailovers d' = Ok (Stale, n, d')
  | Stale => d' = d /\ (activeDispatch input d = None \/ forall l, l ∈ leases d -> ownLease input l = true -> ls_leasedUntil l <= now)
  | LimitExceeded => d' = d /\ maxFailovers < count
  end.
Proof.
  intros Hok Hmax. unfold settleCodexCredentialFailover at 1. rewrite (proj2 (Z.ltb_ge _ _) Hmax). cbv zeta.
  destruct (activeDispatch input d) as [[turn session]|] eqn:Ha; [|by eexists Stale, _, d; eauto].
  pose proof (activeDispatch_Some _ _ _ _ Ha) as (Ht & _). rewrite Ht.
  destruct (existsb _ (leases d)) eqn:El; cbn [negb].
  2: { eexists Stale, _, d. split; [done|]. split; [done|]. right. intros l Hl Ho. apply not_true_iff_false in El.
       apply Z.nlt_ge. intros Hlt. apply El, existsb_exists. exists l. split; [by apply list_elem_of_In|]. rewrite Ho. by apply Z.ltb_lt. }
  destruct (maxFailovers <? _) eqn:Em; breflect; [by eexists LimitExceeded, _, d|].
  set (count := failoversOf (t_metadata turn) + 1) in *. set (onTurn := fun eventId r => _).
  destruct (settlement_spec now input turn session "turn.preempted"
    (JObj (set_field (js "failoverCount") (JNum count) (z_preemptedPayload input))) S_queued "queued" onTurn d Hok Ha) as (evs & d' & Hset & Hto).
  rewrite Hset. exists (Requeued evs), count, d'. split; [done|].
  apply existsb_exists in El as (l & Hl & [Ho Hlive]%andb_true_iff). apply Z.ltb_lt in Hlive. apply list_elem_of_In in Hl.
  destruct (sd_events _ _ _ _ _ _ _ _ _ _ Hto) as (e1 & e2 & -> & Hev & He1 & He2 & Hturns).
  assert (Hq : forall r, r ∈ db_turns (core d') -> turnIs (z_workspaceId input) (z_turnId input) r = true ->
    t_status r = T_queued /\ failoversOf (t_metadata r) = count).
  { intros r Hr Hp. rewrite Hturns in Hr. apply updated_turn in Hr as (x & _ & ->); [|done|done]. split; [done|]. apply failoversOf_set. }
  exists turn, session, l. split_and!; try done; try lia.
  - apply (sd_log _ _ _ _ _ _ _ _ _ _ Hto).
  - rewrite He1, He2. done.
  - intros s Hs Hp. rewrite (sd_sessions _ _ _ _ _ _ _ _ _ _ Hto) in Hs. apply elem_of_update_where in Hs as (x & _ & ->).
    destruct (inSession _ _ x) eqn:E; [done|congruence].
  - intros r. rewrite (sd_leases _ _ _ _ _ _ _ _ _ _ Hto). apply elem_of_delete.
  - intros later. eexists. unfold settleCodexCredentialFailover. rewrite (proj2 (Z.ltb_ge _ _) Hmax). rewrite undispatched; [reflexivity|].
    intros r Hr Hp. unfold dispatched. by rewrite (proj1 (Hq r Hr Hp)).
Qed.

(** The same for a lost lease: whatever it changes, it changes for the dispatch
    the caller was started for and while no successor holds the lease. *)
Lemma loss_settled now input expected durable failedPayload d : log_ok (core d) -> 0 <= expected -> (z_resumeWithNotice input = true -> durable = true) ->
  exists action d', settleCodexCredentialLeaseLoss now input expected durable failedPayload d = Ok (action, d') /\ log_ok (core d') /\
  match action with
  | LossStale => d' = d
  | LossRequeued evs | LossFailed evs =>
      exists turn session, activeDispatch input d = Some (turn, session) /\ workerDeathRedispatches turn = expected /\
        (durable = true <-> exists evs, action = LossRequeued evs) /\
        (forall r, r ∈ db_turns (core d') -> turnIs (z_workspaceId input) (z_turnId input) r = true ->
           t_status r = if durable then T_queued else T_failed)
  end.
Proof.
  intros Hok He Hn. unfold settleCodexCredentialLeaseLoss. rewrite (proj2 (Z.ltb_ge _ _) He).
  assert (z_resumeWithNotice input && negb durable = false) as -> by (destruct (z_resumeWithNotice input); [by rewrite Hn|done]).
  destruct (activeDispatch input d) as [[turn session]|] eqn:Ha; [|by exists LossStale, d].
  destruct (_ || _) eqn:Ef; [by exists LossStale, d|]. breflect. destruct durable.
  - destruct (settlement_spec now input turn session "turn.preempted" (JObj (z_preemptedPayload input)) S_queued "queued" (requeued now input) d Hok Ha)
      as (evs & d' & -> & Hto). exists (LossRequeued evs), d'. split; [done|]. split; [apply (sd_log _ _ _ _ _ _ _ _ _ _ Hto)|].
    exists turn, session. split_and!; [done|done|by split; [exists evs|]|]. intros r Hr Hp.
    destruct (sd_events _ _ _ _ _ _ _ _ _ _ Hto) as (e1 & e2 & _ & _ & _ & _ & Ht). rewrite Ht in Hr. by apply updated_turn in Hr as (x & _ & ->).
  - destruct (settlement_spec now input turn session "turn.failed" (JObj failedPayload) S_failed "failed"
      (fun _ r => r <| t_status := T_failed |> <| t_finishedAt := Some now |> <| t_updatedAt := now |>) d Hok Ha)
      as (evs & d' & -> & Hto). exists (LossFailed evs), d'. split; [done|]. split; [apply (sd_log _ _ _ _ _ _ _ _ _ _ Hto)|].
    exists turn, session. split_and!; [done|done|by split; [|intros [? [=]]]|]. intros r Hr Hp.
    destruct (sd_events _ _ _ _ _ _ _ _ _ _ Hto) as (e1 & e2 & _ & _ & _ & _ & Ht). rewrite Ht in Hr. by apply updated_turn in Hr as (x & _ & ->).
Qed.

(** ** Example *)

Definition exampleCore : Db := {|
  db_sessions := [(EventLog.exampleSession "s1") <| s_status := S_running |> <| s_activeTurnId := Some "t1"%string |>];
  db_events := [];
  db_turns := [(CodexLease.exampleTurn "t1") <| t_accountId := "a"%string |> <| t_workspaceId := "w"%string |> <| t_sessionId := "s1"%string |>];
  db_goals := []; db_fresh := 0 |}.
Definition exampleLease : LeaseRow := {|
  ls_accountId := "a"; ls_workspaceId := "w"; ls_credentialId := "c"; ls_turnId := "t1"; ls_holderId := "h1"; ls_generation := 1;
  ls_leasedUntil := 5000; ls_updatedAt := 0 |}.
Definition exampleSettle : SettleInput := {|
  z_accountId := "a"; z_workspaceId := "w"; z_sessionId := "s1"; z_turnId := "t1"; z_originalTriggerEventId := "e"; z_holderId := "h1";
  z_generation := 1; z_resumeWithNotice := true; z_preemptedPayload := [] |}.
Definition exampleState : CodexDb := {| core := exampleCore; credentials := []; settings := []; leases := [exampleLease]; runStates := [] |}.

Lemma failover_settled_witness :
  match settleCodexCredentialFailover 1000 exampleSettle 3 exampleState with
  | Ok (Requeued evs, 1, d') => List.map ev_sequence evs = [1; 2] /\ leases d' = []
  | _ => False
  end /\
  exists action count d', settleCodexCredentialFailover 1000 exampleSettle 3 exampleState = Ok (action, count, d').
Proof.
  split; [vm_compute; split; reflexivity|].
  destruct (failover_settled 1000 exampleSettle 3 exampleState) as (action & count & d' & H & _).
  - split; [by apply (bool_decide_unpack _); vm_compute|]. intros r Hr. apply elem_of_cons in Hr as [->|Hr]; [done|by apply elem_of_nil in Hr].
  - vm_compute. discriminate.
  - exists action, count, d'. exact H.
Defined.
End CodexSettle.
