(* ===== verification/CapacityWait.v ===== *)
(** * Waiting for capacity ([packages/db/src/index.ts])

    When no subscription account can serve a goal's turn, the turn fails and the
    session waits durably: [armCodexCapacityWait] settles the turn and arms one
    waiter in one transaction, capacity changes bump the waiter's wake revision
    ([withCodexCapacityMutation]), and [reconcileCodexCapacityWait], run by
    timers and signals in any number, evaluates the waiter under its lock: it
    waits on, is superseded, or enqueues exactly one continuation turn, which
    validates itself before it spends anything. *)
From S2P Require Import Prelude Json PayloadSanitizer Sql Schema EventLog EventStream TurnQueue Goals ParentWake CodexRotation CodexLease CodexSettle.
#[local] Open Scope Z_scope.
#[local] Open Scope opengeni_scope.

Module CapacityWait.
Import EventLog TurnQueue Goals CodexLease.

(** ** Rows *)

Inductive WaitStatus := waiting | resumed | superseded.
#[export] Instance WaitStatus_eq_dec : EqDecision WaitStatus.
Proof. solve_decision. Defined.
Inductive CodexCapacityResetKind := authoritative | bounded_refresh.
#[export] Instance ResetKind_eq_dec : EqDecision CodexCapacityResetKind.
Proof. solve_decision. Defined.

(** [codex_capacity_waiters] *)
Record WaiterRow := {
  w_id : string;
  w_accountId : string;
  w_workspaceId : string;
  w_sessionId : string;
  w_goalId : string;
  w_blockedTurnId : string;
  w_workflowId : string;
  w_generation : Z;
  w_status : WaitStatus;
  w_goalVersion : Z;
  w_controlGeneration : Z;
  w_policyHash : option jstr;
  w_earliestResetAt : option Z;
  w_nextCheckAt : Z;
  w_resetKind : CodexCapacityResetKind;
  w_refreshAttempt : Z;
  w_wakeRevision : Z;
  w_observedWakeRevision : Z;
  w_lastWakeReason : string;
  w_resumedTurnId : option string;
  w_createdAt : Z;
  w_updatedAt : Z
}.
#[export] Instance etaWaiterRow : Settable WaiterRow := fun r =>
  Build_WaiterRow (w_id r) (w_accountId r) (w_workspaceId r) (w_sessionId r) (w_goalId r) (w_blockedTurnId r) (w_workflowId r)
    (w_generation r) (w_status r) (w_goalVersion r) (w_controlGeneration r) (w_policyHash r) (w_earliestResetAt r) (w_nextCheckAt r)
    (w_resetKind r) (w_refreshAttempt r) (w_wakeRevision r) (w_observedWakeRevision r) (w_lastWakeReason r) (w_resumedTurnId r)
    (w_createdAt r) (w_updatedAt r).

(** The columns of [usage_events] the resume writes. *)
Record UsageRow := { u_eventType : string; u_sourceResourceId : string; u_idempotencyKey : string; u_occurredAt : Z }.

Record CapacityDb := { codex : CodexDb; waiters : list WaiterRow; usageEvents : list UsageRow }.
#[export] Instance etaCapacityDb : Settable CapacityDb := fun d => Build_CapacityDb (codex d) (waiters d) (usageEvents d).

Inductive CapacityError := CapacityInsert (e : DbError) | CapacityFilter (e : CodexLeaseError).

(** ** Time *)

Definition CODEX_CAPACITY_REFRESH_MIN_MS : Z := 60000.
Definition CODEX_CAPACITY_REFRESH_MAX_MS : Z := 15 * 60000.
Definition codexCapacityRefreshBackoffMs (attempt : Z) : Z :=
  let safeAttempt := if 0 <? attempt then attempt else 0 in
  Z.min (CODEX_CAPACITY_REFRESH_MIN_MS * 2 ^ safeAttempt) CODEX_CAPACITY_REFRESH_MAX_MS.
Definition nextCodexCapacityCheckAt (earliestResetAt : option Z) (resetKind : CodexCapacityResetKind) (refreshAttempt now : Z) : Z :=
  match resetKind, earliestResetAt with
  | authoritative, Some t => if now <? t then t else now + codexCapacityRefreshBackoffMs refreshAttempt
  | _, _ => now + codexCapacityRefreshBackoffMs refreshAttempt
  end.

(** ** Metadata of a turn *)

Definition policyHashOf (metadata : list (jstr * json)) : option jstr :=
  match assoc (js "codexCredentialPolicyHash") metadata with Some (JStr (c :: s)) => Some (c :: s) | _ => None end.
Definition controlGenerationOf (metadata : list (jstr * json)) : Z :=
  match assoc (js "sessionControlGeneration") metadata with Some (JNum n) => if 0 <=? n then n else 0 | _ => 0 end.

(** ** Row predicates *)

Definition settingsFor (ws : string) (r : SettingsRow) : bool := bool_decide (st_workspaceId r = ws).
Definition sessionOf (accountId ws id : string) (r : SessionRow) : bool :=
  bool_decide (s_accountId r = accountId) && inSession ws id r.
Definition goalFor (ws goalId sessionId : string) (r : GoalRow) : bool := goalOf ws sessionId r && goalIs goalId r.
Definition turnOfSession (ws turnId sessionId : string) (r : TurnRow) : bool :=
  turnIs ws turnId r && bool_decide (t_sessionId r = sessionId).
Definition waiterIs (id : string) (r : WaiterRow) : bool := bool_decide (w_id r = id).
Definition waiterIn (ws : string) (r : WaiterRow) : bool := bool_decide (w_workspaceId r = ws).
Definition waiterOf (ws sessionId : string) (r : WaiterRow) : bool := waiterIn ws r && bool_decide (w_sessionId r = sessionId).
Definition isWaiting (r : WaiterRow) : bool := bool_decide (w_status r = waiting).
Definition unsettled (r : TurnRow) : bool := hasStatus [T_queued; T_running; T_requires_action] r.

Definition event (turnId : option string) (type : string) (payload : list (jstr * json)) : AppendEventInput := {|
  in_type := type; in_payload := Some (JObj payload); in_occurredAt := None; in_clientEventId := None;
  in_turnId := turnId; in_producerId := None; in_producerSeq := None |}.
Definition str (s : string) : json := JStr (js s).
Definition orNull (v : option jstr) : json := match v with Some s => JStr s | None => JNull end.
Definition statusEvent (turnId : string) (status reason : string) : AppendEventInput :=
  event (Some turnId) "session.status.changed" [(js "status", str status); (js "reason", str reason)].

Definition setCore (c : Db) (d : CapacityDb) : CapacityDb := d <| codex ::= fun x => x <| core := c |> |>.

(** ** Arming *)

Record ArmInput := {
  a_accountId : string;
  a_workspaceId : string;
  a_sessionId : string;
  a_turnId : string;
  a_workflowId : string;
  a_goalId : string;
  a_goalVersion : Z;
  a_controlGeneration : option Z;
  a_policyHash : option jstr;
  a_earliestResetAt : option Z;
  a_resetKind : CodexCapacityResetKind;
  a_failurePayload : list (jstr * json);
  a_runStateSaved : bool;
  a_leaseFence : option (string * Z);
  a_expectedRedispatches : option Z
}.
Inductive ArmResult := ArmWaiting (waiter : WaiterRow) (events : list SessionEvent) | ArmStale (waiter : option WaiterRow).

(** A lease of the turn, of whatever holder. *)
Definition turnLease (input : ArmInput) (r : LeaseRow) : bool :=
  leaseAccount (a_accountId input) r && leaseOf (a_workspaceId input) (a_turnId input) r.
Definition leaseFenceValid (now : Z) (input : ArmInput) (turn : TurnRow) (d : CapacityDb) : bool :=
  match a_leaseFence input with
  | None => true
  | Some (holderId, generation) =>
      match List.find (fun r => turnLease input r && live now r) (leases (codex d)) with
      | None => false
      | Some lease => bool_decide (ls_holderId lease = holderId) && (ls_generation lease =? generation)
                      && (workerDeathRedispatches turn =? default (workerDeathRedispatches turn) (a_expectedRedispatches input))
      end
  end.

Definition fenced (now : Z) (input : ArmInput) (session : SessionRow) (goal : GoalRow) (turn : TurnRow) (d : CapacityDb) : bool :=
  bool_decide (s_activeTurnId session = Some (a_turnId input)) && bool_decide (s_status session = S_running)
  && bool_decide (g_status goal = G_active) && (g_version goal =? a_goalVersion input)
  && bool_decide (t_status turn = T_running) && leaseFenceValid now input turn d
  && (controlGenerationOf (t_metadata turn) =? default 0 (a_controlGeneration input))
  && match a_policyHash input with None => true | Some h => bool_decide (policyHashOf (t_metadata turn) = Some h) end.

(** The values of the armed row, but for its identity. *)
Definition armed (now : Z) (input : ArmInput) (turn : TurnRow) (existing : option WaiterRow) (id : string) (createdAt : Z) : WaiterRow :=
  let wakeRevision := match existing with Some w => w_wakeRevision w | None => 0 end + 1 in {|
  w_id := id; w_accountId := a_accountId input; w_workspaceId := a_workspaceId input; w_sessionId := a_sessionId input;
  w_goalId := a_goalId input; w_blockedTurnId := a_turnId input; w_workflowId := a_workflowId input;
  w_generation := match existing with Some w => w_generation w | None => 0 end + 1; w_status := waiting;
  w_goalVersion := a_goalVersion input; w_controlGeneration := default 0 (a_controlGeneration input);
  w_policyHash := match a_policyHash input with Some h => Some h | None => policyHashOf (t_metadata turn) end;
  w_earliestResetAt := a_earliestResetAt input;
  w_nextCheckAt := nextCodexCapacityCheckAt (a_earliestResetAt input) (a_resetKind input) 0 now;
  w_resetKind := a_resetKind input; w_refreshAttempt := 0; w_wakeRevision := wakeRevision; w_observedWakeRevision := wakeRevision;
  w_lastWakeReason := "capacity_wait_armed"; w_resumedTurnId := None; w_createdAt := createdAt; w_updatedAt := now |}.

Definition upsertWaiter (now : Z) (input : ArmInput) (turn : TurnRow) (existing : option WaiterRow) (d : CapacityDb) : WaiterRow * CapacityDb :=
  match existing with
  | Some w => (armed now input turn existing (w_id w) (w_createdAt w),
               d <| waiters ::= update_where (waiterIs (w_id w)) (fun r => armed now input turn existing (w_id r) (w_createdAt r)) |>)
  | None => let row := armed now input turn None (uuid (db_fresh (core (codex d)))) now in
            (row, setCore ((core (codex d)) <| db_fresh ::= S |>) d <| waiters ::= fun t => t ++ [row] |>)
  end.

Definition armEvents (input : ArmInput) (w : WaiterRow) : list AppendEventInput := [
  event (Some (a_turnId input)) "turn.failed"
    (overlay [(js "recovery", str "codex_capacity"); (js "retryable", JBool false); (js "rotated", JBool true);
             (js "runStateSaved", JBool (a_runStateSaved input)); (js "capacityWaiterId", str (w_id w));
             (js "capacityWaitGeneration", JNum (w_generation w))] (a_failurePayload input));
  event (Some (a_turnId input)) "codex.capacity.waiting" [
    (js "waiterId", str (w_id w)); (js "generation", JNum (w_generation w)); (js "goalId", str (a_goalId input));
    (js "goalVersion", JNum (a_goalVersion input)); (js "controlGeneration", JNum (w_controlGeneration w));
    (js "policyHash", orNull (w_policyHash w));
    (js "resetKind", str (match a_resetKind input with authoritative => "authoritative" | bounded_refresh => "bounded_refresh" end));
    (js "earliestResetAt", orNull (EventStream.toISOString <$> a_earliestResetAt input));
    (js "nextCheckAt", JStr (EventStream.toISOString (w_nextCheckAt w)))];
  statusEvent (a_turnId input) "idle" "codex_capacity"].

Definition armCodexCapacityWait (now : Z) (input : ArmInput) (d : CapacityDb) : result CapacityError (ArmResult * CapacityDb) :=
  let ws := a_workspaceId input in
  let c := core (codex d) in
  match List.find (settingsFor ws) (settings (codex d)) with
  | None => Ok (ArmStale None, d)
  | Some rotation =>
      if negb (bool_decide (st_accountId rotation = a_accountId input)) then Ok (ArmStale None, d)
      else
        let session := List.find (sessionOf (a_accountId input) ws (a_sessionId input)) (db_sessions c) in
        let goal := List.find (goalFor ws (a_goalId input) (a_sessionId input)) (db_goals c) in
        let turn := List.find (turnOfSession ws (a_turnId input) (a_sessionId input)) (db_turns c) in
        let existing := List.find (waiterOf ws (a_sessionId input)) (waiters d) in
        let again := match existing, turn with
        | Some w, Some t =>
            if isWaiting w && bool_decide (w_blockedTurnId w = a_turnId input) && bool_decide (t_status t = T_failed)
            then Some (ArmWaiting w [])
            else None
        | _, _ => None
        end in
        match again with
        | Some r => Ok (r, d)
        | None =>
            match session, goal, turn with
            | Some s, Some g, Some t =>
                if negb (fenced now input s g t d) then Ok (ArmStale existing, d)
                else
                  let (w, d) := upsertWaiter now input t existing d in
                  match insertEvents (eventValues s (s_lastSequence s) now (armEvents input w)) (core (codex d)) with
                  | Err e => Err (CapacityInsert e)
                  | Ok (inserted, c) =>
                      let c := c
                        <| db_turns ::= update_where (fun r => turnIs ws (a_turnId input) r && hasStatus [T_running] r)
                             (fun r => r <| t_status := T_failed |> <| t_finishedAt := Some now |> <| t_updatedAt := now |>) |>
                        <| db_sessions ::= update_where
                             (fun r => inSession ws (a_sessionId input) r && bool_decide (s_activeTurnId r = Some (a_turnId input)))
                             (fun r => r <| s_status := S_idle |> <| s_activeTurnId := None |>
                                         <| s_lastSequence := s_lastSequence s + 3 |> <| s_updatedAt := now |>) |> in
                      Ok (ArmWaiting w (List.map mapEvent inserted),
                          (setCore c d) <| codex ::= fun x => x <| leases ::= delete_where (turnLease input) |> |>)
                  end
            | _, _, _ => Ok (ArmStale existing, d)
            end
        end
  end.

(** ** Wakes *)

Record WakeTarget := {
  tg_accountId : string; tg_workspaceId : string; tg_sessionId : string; tg_workflowId : string; tg_waiterId : string;
  tg_generation : Z; tg_wakeRevision : Z
}.
Definition wakeTarget (r : WaiterRow) : WakeTarget := {|
  tg_accountId := w_accountId r; tg_workspaceId := w_workspaceId r; tg_sessionId := w_sessionId r; tg_workflowId := w_workflowId r;
  tg_waiterId := w_id r; tg_generation := w_generation r; tg_wakeRevision := w_wakeRevision r |}.

Definition getCodexCapacityWaitForSession (ws sessionId : string) (d : CapacityDb) : option WaiterRow :=
  List.find (fun r => waiterOf ws sessionId r && isWaiting r) (waiters d).

(** The waiters a capacity change concerns: all of the workspace, or those of
    one policy ([Some None] is the absent hash). *)
Definition concerned (ws : string) (policyHash : option (option jstr)) (r : WaiterRow) : bool :=
  waiterIn ws r && isWaiting r && match policyHash with None => true | Some h => bool_decide (w_policyHash r = h) end.
Definition woken (now : Z) (reason : string) (r : WaiterRow) : WaiterRow :=
  r <| w_wakeRevision ::= Z.succ |> <| w_lastWakeReason := reason |> <| w_updatedAt := now |>.

(** [mutate] changes the credential tables and says whether capacity changed. *)
Definition withCodexCapacityMutation {T} (now : Z) (ws reason : string) (policyHash : option (option jstr))
  (mutate : CodexDb -> T * bool * CodexDb) (d : CapacityDb) : T * list WakeTarget * CapacityDb :=
  let '(result, changed, codex') := mutate (codex d) in
  let d := d <| codex := codex' |> in
  if negb changed then (result, [], d)
  else (result, List.map wakeTarget (updated_rows (concerned ws policyHash) (woken now reason) (waiters d)),
        d <| waiters ::= update_where (concerned ws policyHash) (woken now reason) |>).

Definition pendingWake (r : WaiterRow) : bool := w_observedWakeRevision r <? w_wakeRevision r.
Definition listPendingCodexCapacityWakeTargets (ws : string) (d : CapacityDb) : list WakeTarget :=
  List.map wakeTarget (select_where (fun r => waiterIn ws r && isWaiting r && pendingWake r) (waiters d)).

(** ** Reconciliation *)

Inductive AvailabilityDecision :=
| Available (credentialId : string) (diagnostic : json)
| CapacityUnavailable (earliestResetAt : option Z) (resetKind : CodexCapacityResetKind).

Inductive ReconcileResult :=
| StillWaiting (waiter : WaiterRow)
| Resumed (waiter : WaiterRow) (turn : TurnRow) (events : list SessionEvent)
| Superseded (waiter : WaiterRow) (events : list SessionEvent)
| ReconcileStale (waiter : option WaiterRow).

Definition supersede (now : Z) (reason : string) (session : SessionRow) (w : WaiterRow) (d : CapacityDb)
  : result CapacityError (ReconcileResult * CapacityDb) :=
  let set r := r <| w_status := superseded |> <| w_observedWakeRevision := w_wakeRevision w |> <| w_lastWakeReason := reason |> <| w_updatedAt := now |> in
  let payload := [(js "waiterId", str (w_id w)); (js "generation", JNum (w_generation w)); (js "reason", str reason)] in
  match insertEvents (eventValues session (s_lastSequence session) now [event (Some (w_blockedTurnId w)) "codex.capacity.superseded" payload]) (core (codex d)) with
  | Err e => Err (CapacityInsert e)
  | Ok (inserted, c) =>
      let c := c <| db_sessions ::= update_where (inSession (s_workspaceId session) (s_id session))
                      (fun r => r <| s_lastSequence := s_lastSequence session + 1 |> <| s_updatedAt := now |>) |> in
      Ok (Superseded (set w) (List.map mapEvent inserted),
          (setCore c d) <| waiters ::= update_where (fun r => waiterIs (w_id w) r && isWaiting r) set |>)
  end.

(** The fences, in the order they are asked. *)
Definition supersedeReason (w : WaiterRow) (session : SessionRow) (goal : GoalRow) (blocked : TurnRow) (turns : list TurnRow) : option string :=
  let ofSession := turnOf (w_workspaceId w) (w_sessionId w) in
  if negb (bool_decide (g_status goal = G_active)) || negb (g_version goal =? w_goalVersion w) then Some "goal_changed"%string
  else if negb (controlGenerationOf (t_metadata blocked) =? w_controlGeneration w) then Some "control_generation_changed"%string
  else if negb (bool_decide (policyHashOf (t_metadata blocked) = w_policyHash w)) then Some "credential_policy_changed"%string
  else if negb (bool_decide (s_status session = S_idle)) || negb (bool_decide (s_activeTurnId session = None)) then Some "session_not_capacity_idle"%string
  else if negb (bool_decide (t_status blocked = T_failed)) then Some "blocked_turn_changed"%string
  else if existsb (fun r => ofSession r && unsettled r) turns then Some "pending_work_exists"%string
  else if existsb (fun r => ofSession r && (t_position blocked <? t_position r)) turns then Some "newer_turn_exists"%string
  else None.

Definition joinLines (lines : list jstr) : jstr :=
  match lines with [] => [] | l :: rest => l ++ concat (List.map (fun k => 10 :: k) rest) end.
Definition resumePrompt (goal : GoalRow) : jstr := joinLines [
  js "[CODEX CAPACITY RESUME] Codex subscription capacity is available again.";
  js "Continue the existing active goal from durable conversation history: " ++ g_text goal;
  js "Success criteria: " ++ default (js "none specified") (g_successCriteria goal) ++ js ".";
  js "Do not replay completed tool side effects; verify any ambiguous in-flight effect before repeating it.";
  js "If the goal is complete, call opengeni__goal_complete. If blocked for another reason, call opengeni__goal_pause."].

Definition without (keys : list jstr) (fields : list (jstr * json)) : list (jstr * json) :=
  List.filter (fun kv => negb (bool_decide (kv.1 ∈ keys))) fields.
Definition continuationMetadata (w : WaiterRow) (goal : GoalRow) (blocked : TurnRow) : list (jstr * json) :=
  overlay [(js "goalId", str (g_id goal)); (js "codexCapacityWaiterId", str (w_id w));
          (js "codexCapacityWaitGeneration", JNum (w_generation w)); (js "codexCapacityBlockedTurnId", str (w_blockedTurnId w))]
    (without [js "workerDeathRedispatches"; js "codexCredentialFailovers"] (t_metadata blocked)).

Definition resumeTurn (now : Z) (w : WaiterRow) (session : SessionRow) (goal : GoalRow) (blocked : TurnRow) (triggerEventId : string) (c : Db) : TurnRow := {|
  t_id := uuid (db_fresh c); t_accountId := s_accountId session; t_workspaceId := w_workspaceId w; t_sessionId := w_sessionId w;
  t_triggerEventId := triggerEventId; t_temporalWorkflowId := w_workflowId w; t_status := T_queued; t_source := Src_goal;
  t_position := nextTurnPosition (w_workspaceId w) (w_sessionId w) c; t_prompt := resumePrompt goal; t_resources := t_resources blocked;
  t_tools := t_tools blocked; t_model := t_model blocked; t_reasoningEffort := t_reasoningEffort blocked;
  t_sandboxBackend := t_sandboxBackend blocked; t_metadata := continuationMetadata w goal blocked; t_toolspaceCallCount := 0;
  t_startedAt := None; t_finishedAt := None; t_createdAt := now; t_updatedAt := now |}.

Definition recordUsage (now : Z) (ws turnId : string) (t : list UsageRow) : list UsageRow :=
  let key := String.append "agent_run.created:codex-capacity:" (String.append ws (String.append ":" turnId)) in
  if existsb (fun r => String.eqb (u_idempotencyKey r) key) t then t
  else t ++ [{| u_eventType := "agent_run.created"; u_sourceResourceId := turnId; u_idempotencyKey := key; u_occurredAt := now |}].

Definition resumeEvents (w : WaiterRow) (goal : GoalRow) (diagnostic : json) (turnId triggerEventId : string) : list AppendEventInput := [
  event (Some turnId) "codex.capacity.resumed" [
    (js "waiterId", str (w_id w)); (js "generation", JNum (w_generation w)); (js "wakeRevision", JNum (w_wakeRevision w));
    (js "goalId", str (g_id goal)); (js "goalVersion", JNum (g_version goal)); (js "controlGeneration", JNum (w_controlGeneration w));
    (js "policyHash", orNull (w_policyHash w)); (js "diagnostic", diagnostic)];
  event (Some turnId) "turn.queued" [(js "turnId", str turnId); (js "triggerEventId", str triggerEventId);
                                     (js "source", str "goal"); (js "reason", str "codex_capacity")];
  statusEvent turnId "queued" "codex_capacity"].
Definition continuationEvent (w : WaiterRow) (goal : GoalRow) : AppendEventInput :=
  event None "goal.continuation" [
    (js "goalId", str (g_id goal)); (js "goalVersion", JNum (g_version goal)); (js "text", JStr (resumePrompt goal));
    (js "reason", str "codex_capacity"); (js "capacityWaiterId", str (w_id w)); (js "capacityWaitGeneration", JNum (w_generation w))].

(** The continuation event, the turn, the usage record, the tail events, then
    the waiter, the goal and the session. *)
Definition resume (now : Z) (diagnostic : json) (w : WaiterRow) (session : SessionRow) (goal : GoalRow) (blocked : TurnRow) (d : CapacityDb)
  : result CapacityError (ReconcileResult * CapacityDb) :=
  match insertEvents (eventValues session (s_lastSequence session) now [continuationEvent w goal]) (core (codex d)) with
  | Err e => Err (CapacityInsert e)
  | Ok (first, c) =>
      let trigger := match first with e :: _ => e_id e | [] => EmptyString end in
      let turn := resumeTurn now w session goal blocked trigger c in
      let c := c <| db_turns ::= fun t => t ++ [turn] |> <| db_fresh ::= S |> in
      match insertEvents (eventValues session (s_lastSequence session + 1) now (resumeEvents w goal diagnostic (t_id turn) trigger)) c with
      | Err e => Err (CapacityInsert e)
      | Ok (tail, c) =>
          let set r := r <| w_status := resumed |> <| w_resumedTurnId := Some (t_id turn) |> <| w_observedWakeRevision := w_wakeRevision w |>
                         <| w_lastWakeReason := "capacity_available" |> <| w_updatedAt := now |> in
          let c := c
            <| db_goals ::= update_where (goalIs (g_id goal))
                 (fun r => r <| g_lastContinuationTurnId := Some (t_id turn) |> <| g_versionAtLastContinuation := Some (g_version goal) |> <| g_updatedAt := now |>) |>
            <| db_sessions ::= update_where (fun r => inSession (w_workspaceId w) (w_sessionId w) r && bool_decide (s_activeTurnId r = None))
                 (fun r => r <| s_status := S_queued |> <| s_activeTurnId := None |> <| s_lastSequence := s_lastSequence session + 4 |> <| s_updatedAt := now |>) |> in
          Ok (Resumed (set w) turn (List.map mapEvent (first ++ tail)),
              (setCore c d) <| waiters ::= update_where (fun r => waiterIs (w_id w) r && isWaiting r && (w_generation r =? w_generation w)) set |>
                            <| usageEvents ::= recordUsage now (w_workspaceId w) (t_id turn) |>)
      end
  end.

Definition keepWaiting (now : Z) (earliestResetAt : option Z) (resetKind : CodexCapacityResetKind) (w : WaiterRow) (d : CapacityDb)
  : ReconcileResult * CapacityDb :=
  let refreshAttempt := match resetKind with bounded_refresh => w_refreshAttempt w + 1 | authoritative => 0 end in
  let set r := r <| w_earliestResetAt := earliestResetAt |> <| w_nextCheckAt := nextCodexCapacityCheckAt earliestResetAt resetKind refreshAttempt now |>
                 <| w_resetKind := resetKind |> <| w_refreshAttempt := refreshAttempt |> <| w_observedWakeRevision := w_wakeRevision w |> <| w_updatedAt := now |> in
  (StillWaiting (set w),
   d <| waiters ::= update_where (fun r => waiterIs (w_id w) r && isWaiting r && (w_generation r =? w_generation w)) set |>).

Record ReconcileInput := { c_accountId : string; c_workspaceId : string; c_sessionId : string; c_waiterId : string; c_generation : Z }.

Definition contextFor (now : Z) (rotation : SettingsRow) (accountId ws : string) (accounts : list CodexRotation.Account) : CodexRotation.SelectionContext := {|
  CodexRotation.c_accounts := accounts; CodexRotation.c_activeCredentialId := st_activeCredentialId rotation;
  CodexRotation.c_rotationEnabled := st_rotationEnabled rotation;
  CodexRotation.c_leaseRotationEnabled := st_rotationEnabled rotation && st_leaseRotationEnabled rotation;
  CodexRotation.c_rotationStrategy := st_rotationStrategy rotation; CodexRotation.c_existingCredentialId := None |}.

(** [decide] also reads the session's pin columns and last credential: it is
    given the session's row.  [filter] is the policy's candidate filter, which
    reads the blocked turn's metadata. *)
Definition reconcileCodexCapacityWait (now : Z) (input : ReconcileInput)
  (decide : CodexRotation.SelectionContext -> SessionRow -> option jstr -> AvailabilityDecision)
  (filter : option (list (jstr * json) -> list CodexRotation.Account -> list CodexRotation.Account)) (d : CapacityDb)
  : result CapacityError (ReconcileResult * CapacityDb) :=
  let ws := c_workspaceId input in
  let c := core (codex d) in
  match List.find (settingsFor ws) (settings (codex d)) with
  | None => Ok (ReconcileStale None, d)
  | Some rotation =>
      if negb (bool_decide (st_accountId rotation = c_accountId input)) then Ok (ReconcileStale None, d)
      else
        match List.find (fun r => waiterIs (c_waiterId input) r && waiterOf ws (c_sessionId input) r) (waiters d) with
        | None => Ok (ReconcileStale None, d)
        | Some w =>
            if negb (w_generation w =? c_generation input) then Ok (ReconcileStale (Some w), d)
            else
              match List.find (sessionOf (c_accountId input) ws (c_sessionId input)) (db_sessions c),
                    List.find (goalFor ws (w_goalId w) (c_sessionId input)) (db_goals c),
                    List.find (turnOfSession ws (w_blockedTurnId w) (c_sessionId input)) (db_turns c) with
              | Some session, Some goal, Some blocked =>
                  if negb (isWaiting w) then Ok (ReconcileStale (Some w), d)
                  else
                    match supersedeReason w session goal blocked (db_turns c) with
                    | Some reason => supersede now reason session w d
                    | None =>
                        let all := listCodexLeaseCandidatesInTransaction (c_accountId input) ws (Some (w_blockedTurnId w)) now (codex d) in
                        match filterCodexLeaseCandidatesForPolicy all ((fun f => f (t_metadata blocked)) <$> filter) with
                        | Err e => Err (CapacityFilter e)
                        | Ok accounts =>
                            match decide (contextFor now rotation (c_accountId input) ws accounts) session (w_policyHash w) with
                            | CapacityUnavailable earliestResetAt resetKind => Ok (keepWaiting now earliestResetAt resetKind w d)
                            | Available _ diagnostic => resume now diagnostic w session goal blocked d
                            end
                        end
                    end
              | _, _, _ => Ok (ReconcileStale (Some w), d)
              end
        end
  end.

(** ** The resume turn validates itself *)

Record ValidateInput := { v_workspaceId : string; v_sessionId : string; v_turnId : string; v_waiterId : string; v_generation : Z }.

Definition validResume (input : ValidateInput) (session : SessionRow) (goal : GoalRow) (turn : TurnRow) (w : WaiterRow) (turns : list TurnRow) : bool :=
  bool_decide (t_status turn = T_running) && bool_decide (s_activeTurnId session = Some (v_turnId input))
  && bool_decide (w_status w = resumed) && bool_decide (w_resumedTurnId w = Some (v_turnId input))
  && (w_generation w =? v_generation input)
  && negb (existsb (fun r => turnOf (v_workspaceId input) (v_sessionId input) r && unsettled r && negb (bool_decide (t_id r = v_turnId input))) turns)
  && bool_decide (g_status goal = G_active) && (g_version goal =? w_goalVersion w)
  && (controlGenerationOf (t_metadata turn) =? w_controlGeneration w)
  && bool_decide (policyHashOf (t_metadata turn) = w_policyHash w).

Definition staleEvents (input : ValidateInput) (w : option WaiterRow) (nextStatus : string) : list AppendEventInput :=
  let waiterId := str (match w with Some w => w_id w | None => v_waiterId input end) in
  let generation := match w with Some w => w_generation w | None => v_generation input end in [
  event (Some (v_turnId input)) "codex.capacity.superseded"
    [(js "waiterId", waiterId); (js "generation", JNum generation); (js "reason", str "resume_claim_fence_changed")];
  event (Some (v_turnId input)) "turn.cancelled" [(js "reason", str "codex_capacity_resume_stale"); (js "waiterId", waiterId)];
  statusEvent (v_turnId input) nextStatus "codex_capacity_resume_stale"].

(** The waiter row is the same before and after its lock: one transaction. *)
Definition validateCodexCapacityResumeTurn (now : Z) (input : ValidateInput) (d : CapacityDb)
  : result CapacityError (bool * list SessionEvent * CapacityDb) :=
  let ws := v_workspaceId input in
  let sid := v_sessionId input in
  let c := core (codex d) in
  let waiter := List.find (fun r => waiterIs (v_waiterId input) r && waiterOf ws sid r) (waiters d) in
  let session := List.find (inSession ws sid) (db_sessions c) in
  let goal := match waiter with Some w => List.find (goalFor ws (w_goalId w) sid) (db_goals c) | None => None end in
  let turn := List.find (turnOfSession ws (v_turnId input) sid) (db_turns c) in
  let valid := match session, goal, turn, waiter with
               | Some s, Some g, Some t, Some w => validResume input s g t w (db_turns c)
               | _, _, _, _ => false
               end in
  match turn with
  | None => Ok (valid, [], d)
  | Some t =>
      if valid || negb (bool_decide (t_status t = T_running)) then Ok (valid, [], d)
      else
        let otherPending := existsb (fun r => turnOf ws sid r && unsettled r && negb (bool_decide (t_id r = v_turnId input))) (db_turns c) in
        let d := match waiter with
                 | Some w =>
                     if bool_decide (w_status w = resumed) && bool_decide (w_resumedTurnId w = Some (v_turnId input))
                     then d <| waiters ::= update_where (waiterIs (w_id w))
                            (fun r => r <| w_status := superseded |> <| w_observedWakeRevision := w_wakeRevision w |>
                                        <| w_lastWakeReason := "resume_claim_fence_changed" |> <| w_updatedAt := now |>) |>
                     else d
                 | None => d
                 end in
        let c := c <| db_turns ::= update_where (fun r => bool_decide (t_id r = t_id t))
                        (fun r => r <| t_status := T_cancelled |> <| t_finishedAt := Some now |> <| t_updatedAt := now |>) |> in
        match session with
        | Some s =>
            if bool_decide (s_activeTurnId s = Some (t_id t)) then
              match insertEvents (eventValues s (s_lastSequence s) now (staleEvents input waiter (if otherPending then "queued" else "idle"))) c with
              | Err e => Err (CapacityInsert e)
              | Ok (inserted, c) =>
                  let c := c <| db_sessions ::= update_where (fun r => bool_decide (s_id r = s_id s))
                                  (fun r => r <| s_status := if otherPending then S_queued else S_idle |> <| s_activeTurnId := None |>
                                              <| s_lastSequence := s_lastSequence s + 3 |> <| s_updatedAt := now |>) |> in
                  Ok (false, List.map mapEvent inserted, setCore c d)
              end
            else Ok (valid, [], setCore c d)
        | None => Ok (valid, [], setCore c d)
        end
  end.

(** The payloads the source stores without sanitizing them need nothing. *)
Example bare_payloads_clean :
  List.map (fun kv => PayloadSanitizer.sanitizeEventPayload (JObj [(js "status", str kv.1); (js "reason", str kv.2)]))
    [("idle", "codex_capacity"); ("queued", "codex_capacity"); ("idle", "codex_capacity_resume_stale"); ("queued", "codex_capacity_resume_stale")]%string =
  List.map (fun kv => JObj [(js "status", str kv.1); (js "reason", str kv.2)])
    [("idle", "codex_capacity"); ("queued", "codex_capacity"); ("idle", "codex_capacity_resume_stale"); ("queued", "codex_capacity_resume_stale")]%string.
Proof. vm_compute. reflexivity. Qed.

(** ** The table's invariant *)

(** Primary key, the unique index of workspace and session, and no revision
    observed before it was issued. *)
Record waiters_ok (d : CapacityDb) : Prop := {
  wk_ids : NoDup (List.map w_id (waiters d));
  wk_sessions : NoDup (List.map (fun r => (w_workspaceId r, w_sessionId r)) (waiters d));
  wk_fresh : forall n r, (db_fresh (core (codex d)) <= n)%nat -> r ∈ waiters d -> w_id r <> uuid n;
  wk_observed : forall r, r ∈ waiters d -> w_observedWakeRevision r <= w_wakeRevision r
}.

(** How one row may change without a new generation. *)
Record keeps (r r' : WaiterRow) : Prop := {
  kp_id : w_id r' = w_id r;
  kp_session : w_workspaceId r' = w_workspaceId r /\ w_sessionId r' = w_sessionId r;
  kp_generation : w_generation r' = w_generation r;
  kp_wake : w_wakeRevision r <= w_wakeRevision r';
  kp_observed : w_observedWakeRevision r' <= w_wakeRevision r';
  kp_status : w_status r' = waiting -> w_status r = waiting
}.

Definition waiters_updated (d d' : CapacityDb) : Prop :=
  (db_fresh (core (codex d)) <= db_fresh (core (codex d')))%nat /\
  exists p f, waiters d' = update_where p f (waiters d) /\ forall r, r ∈ waiters d -> p r = true -> keeps r (f r).

Lemma waiters_same d d' : waiters d' = waiters d -> (db_fresh (core (codex d)) <= db_fresh (core (codex d')))%nat -> waiters_updated d d'.
Proof. intros Hw Hf. split; [done|]. exists (fun _ => false), (fun r => r). rewrite Hw, update_where_none by done. by split. Qed.

Lemma waiterIs_true id r : waiterIs id r = true <-> w_id r = id.
Proof. unfold waiterIs. apply bool_decide_eq_true. Qed.
Lemma waiterOf_true ws sid r : waiterOf ws sid r = true <-> w_workspaceId r = ws /\ w_sessionId r = sid.
Proof. unfold waiterOf, waiterIn. by rewrite andb_true_iff, !bool_decide_eq_true. Qed.
Lemma isWaiting_true r : isWaiting r = true <-> w_status r = waiting.
Proof. unfold isWaiting. apply bool_decide_eq_true. Qed.

Lemma waiters_ok_id d r r' : waiters_ok d -> r ∈ waiters d -> r' ∈ waiters d -> w_id r = w_id r' -> r = r'.
Proof. intros Hok Hr Hr' He. by eapply (select_unique w_id (w_id r')); [apply Hok|..]. Qed.

Lemma waiters_ok_session d r r' : waiters_ok d -> r ∈ waiters d -> r' ∈ waiters d ->
  waiterOf (w_workspaceId r) (w_sessionId r) r' = true -> r' = r.
Proof.
  intros Hok Hr Hr' [Hw Hs]%waiterOf_true.
  eapply (select_unique (fun r => (w_workspaceId r, w_sessionId r)) (w_workspaceId r, w_sessionId r)); [apply Hok|done|done|by rewrite Hw, Hs|done].
Qed.

Lemma waiters_ok_updated d d' : waiters_ok d -> waiters_updated d d' -> waiters_ok d'.
Proof.
  intros Hok (Hf & p & f & Hw & Hk).
  assert (Hin : forall r', r' ∈ waiters d' -> exists r, r ∈ waiters d /\ (r' = r \/ keeps r r')).
  { intros r' Hr'. rewrite Hw in Hr'. apply elem_of_update_where in Hr' as (r & Hr & ->). exists r. split; [done|].
    destruct (p r) eqn:E; [right; by apply Hk|by left]. }
  split.
  - rewrite Hw. unfold update_where. rewrite List.map_map, (map_ext_in _ w_id); [apply Hok|].
    intros r Hr%list_elem_of_In. destruct (p r) eqn:E; [apply (Hk r Hr E)|done].
  - rewrite Hw. unfold update_where. rewrite List.map_map, (map_ext_in _ (fun r => (w_workspaceId r, w_sessionId r))); [apply Hok|].
    intros r Hr%list_elem_of_In. destruct (p r) eqn:E; [|done]. by destruct (kp_session _ _ (Hk r Hr E)) as [-> ->].
  - intros n r' Hn Hr'. apply Hin in Hr' as (r & Hr & Hrr). assert (w_id r' = w_id r) as -> by (destruct Hrr as [->|[? _]]; done).
    apply (wk_fresh _ Hok); [lia|done].
  - intros r' Hr'. apply Hin in Hr' as (r & Hr & [->|Hkr]); [by apply (wk_observed _ Hok)|apply Hkr].
Qed.

(** ** Arming, row by row *)

Lemma upsert_fresh now input t ex d : (db_fresh (core (codex d)) <= db_fresh (core (codex (upsertWaiter now input t ex d).2)))%nat /\
  db_events (core (codex (upsertWaiter now input t ex d).2)) = db_events (core (codex d)) /\
  db_sessions (core (codex (upsertWaiter now input t ex d).2)) = db_sessions (core (codex d)) /\
  db_turns (core (codex (upsertWaiter now input t ex d).2)) = db_turns (core (codex d)) /\
  leases (codex (upsertWaiter now input t ex d).2) = leases (codex d) /\ settings (codex (upsertWaiter now input t ex d).2) = settings (codex d).
Proof. destruct ex; cbn; split_and!; done || lia. Qed.

(** The upserted row is the session's only one, waits for the input's turn, and
    carries a new generation of its identity. *)
Lemma upsert_spec now input t d : waiters_ok d ->
  let ex := List.find (waiterOf (a_workspaceId input) (a_sessionId input)) (waiters d) in
  let (w, d') := upsertWaiter now input t ex d in
  waiters_ok d' /\ w = armed now input t ex (w_id w) (w_createdAt w) /\ w ∈ waiters d' /\
  forall r, r ∈ waiters d' -> r = w /\ (forall x, ex = Some x -> w_id w = w_id x) /\ (ex = None -> w_id w = uuid (db_fresh (core (codex d)))) \/
                              r ∈ waiters d /\ w_id r <> w_id w.
Proof.
  intros Hok ex. destruct ex as [x|] eqn:Ex; unfold ex in Ex; cbn [upsertWaiter].
  - apply find_some in Ex as [Hx%list_elem_of_In Hxo]. pose proof Hxo as [Hxw Hxs]%waiterOf_true.
    set (w := armed _ _ _ _ (w_id x) _). match goal with |- waiters_ok ?e /\ _ => set (d' := e) end.
    assert (Hin : forall r, r ∈ waiters d' -> r = w \/ r ∈ waiters d /\ w_id r <> w_id x).
    { intros r Hr. cbn in Hr. apply elem_of_update_where in Hr as (r0 & Hr0 & ->). destruct (waiterIs (w_id x) r0) eqn:E.
      - apply waiterIs_true in E. rewrite (waiters_ok_id d r0 x) by done. by left.
      - right. split; [done|]. intros Hc%waiterIs_true. congruence. }
    split_and!; [split|done| |].
    + cbn. unfold update_where. rewrite List.map_map, (map_ext _ w_id); [apply Hok|]. intros r. by destruct (waiterIs _ r).
    + cbn. unfold update_where. rewrite List.map_map, (map_ext_in _ (fun r => (w_workspaceId r, w_sessionId r))); [apply Hok|].
      intros r Hr%list_elem_of_In. destruct (waiterIs _ r) eqn:E; [|done]. apply waiterIs_true in E. rewrite (waiters_ok_id d r x) by done.
      cbn. by rewrite Hxw, Hxs.
    + intros n r Hn [->|[Hr _]]%Hin; [|by apply (wk_fresh _ Hok)]. by apply (wk_fresh _ Hok n x).
    + intros r [->|[Hr _]]%Hin; [cbn; lia|]. by apply (wk_observed _ Hok).
    + cbn. apply elem_of_update_where. exists x. split; [done|]. by rewrite (proj2 (waiterIs_true _ _)).
    + intros r [->|Hr]%Hin; [left|by right]. split; [done|]. split; [by intros ? [= <-]|done].
  - set (w := armed _ _ _ _ _ _). match goal with |- waiters_ok ?e /\ _ => set (d' := e) end.
    assert (Hno : forall r, r ∈ waiters d -> ~ (w_workspaceId r = a_workspaceId input /\ w_sessionId r = a_sessionId input)).
    { intros r Hr Hc. apply list_elem_of_In in Hr. pose proof (find_none _ _ Ex r Hr) as Hf. apply waiterOf_true in Hc. congruence. }
    assert (Hfr : forall r, r ∈ waiters d -> w_id r <> w_id w) by (intros r Hr; by apply (wk_fresh _ Hok)).
    assert (Hin : forall r, r ∈ waiters d' -> r = w \/ r ∈ waiters d).
    { intros r Hr. change (waiters d') with (waiters d ++ [w]) in Hr. apply elem_of_app in Hr as [Hr|Hr%list_elem_of_singleton]; auto. }
    split_and!; [split|done| |].
    + change (waiters d') with (waiters d ++ [w]). rewrite map_app. apply NoDup_app. split_and!; [apply Hok| |apply NoDup_singleton].
      intros i (r & <- & Hr%list_elem_of_In)%list_elem_of_In%in_map_iff Hi%list_elem_of_singleton. by eapply Hfr.
    + change (waiters d') with (waiters d ++ [w]). rewrite map_app. apply NoDup_app. split_and!; [apply Hok| |apply NoDup_singleton].
      intros i (r & <- & Hr%list_elem_of_In)%list_elem_of_In%in_map_iff Hi%list_elem_of_singleton. injection Hi as H1 H2. by eapply Hno.
    + intros n r Hn Hr. change (db_fresh (core (codex d'))) with (S (db_fresh (core (codex d)))) in Hn.
      apply Hin in Hr as [->|Hr]; [intros Hc%uuid_inj; lia|]. apply (wk_fresh _ Hok); [lia|done].
    + intros r [->|Hr]%Hin; [cbn; lia|]. by apply (wk_observed _ Hok).
    + change (waiters d') with (waiters d ++ [w]). apply elem_of_app. right. by apply list_elem_of_singleton.
    + intros r [->|Hr]%Hin; [left; done|right; auto].
Qed.

Lemma find_key {R K} (key : R -> K) p (t : list R) x : NoDup (List.map key t) -> x ∈ t -> p x = true ->
  (forall y, y ∈ t -> p y = true -> key y = key x) -> List.find p t = Some x.
Proof.
  intros Hnd Hx Hp Hk. induction t as [|y t IH]; [by apply elem_of_nil in Hx|]. cbn in *. apply NoDup_cons in Hnd as [Hy Hnd].
  destruct (p y) eqn:E.
  - apply elem_of_cons in Hx as [->|Hx]; [done|]. exfalso. apply Hy. rewrite (Hk y) by (done || left).
    by apply list_elem_of_In, in_map, list_elem_of_In.
  - apply elem_of_cons in Hx as [->|Hx]; [congruence|]. apply IH; [done|done|]. intros z Hz. apply Hk. by right.
Qed.

Lemma sessionOf_true acct ws id r : sessionOf acct ws id r = true <-> s_accountId r = acct /\ s_workspaceId r = ws /\ s_id r = id.
Proof. unfold sessionOf. by rewrite andb_true_iff, bool_decide_eq_true, inSession_true. Qed.

Lemma find_account_session d acct ws id s : log_ok d -> List.find (sessionOf acct ws id) (db_sessions d) = Some s ->
  List.find (inSession ws id) (db_sessions d) = Some s /\ s ∈ db_sessions d /\ s_accountId s = acct /\ s_workspaceId s = ws /\ s_id s = id.
Proof.
  intros Hok [Hin%list_elem_of_In Hp]%find_some. apply sessionOf_true in Hp as (Ha & Hw & Hi). split_and!; [|done..].
  apply (find_key s_id); [apply Hok|done|by apply inSession_true|]. intros y _ [_ Hy]%inSession_true. congruence.
Qed.

Lemma session_unique d ws id s r : log_ok d -> s ∈ db_sessions d -> r ∈ db_sessions d -> s_id s = id -> inSession ws id r = true -> r = s.
Proof. intros Hok Hs Hr Hi [_ E]%inSession_true. eapply (select_unique s_id); [apply Hok|done|done|exact E|done]. Qed.

(** A batch without client or producer ids, after the session's last event. *)
Definition plain (i : AppendEventInput) : bool :=
  match in_clientEventId i, in_producerId i with None, None => true | _, _ => false end.
Lemma insert_plain d s seq now inputs : (forall e, e ∈ db_events d -> eventOf (s_workspaceId s) (s_id s) e = true -> e_sequence e <= seq) ->
  Forall (fun i => plain i = true) inputs -> exists rows c, insertEvents (eventValues s seq now inputs) d = Ok (rows, c).
Proof.
  intros Hb Hp. apply insertEvents_total; [done|..].
  - eapply Forall_impl; [exact Hp|]. intros i. unfold plain. by destruct (in_clientEventId i), (in_producerId i).
  - intros i c e Hi Hc. apply Forall_forall with (x := i) in Hp; [|done]. unfold plain in Hp. by rewrite Hc in Hp.
  - assert (omap in_clientEventId inputs = []) as ->; [|constructor]. induction Hp as [|i l Hi _ IH]; [done|]. cbn. unfold plain in Hi.
    destruct (in_clientEventId i); [done|]. exact IH.
Qed.

Lemma turnOfSession_true ws id sid r : turnOfSession ws id sid r = true <-> t_workspaceId r = ws /\ t_id r = id /\ t_sessionId r = sid.
Proof. unfold turnOfSession. rewrite andb_true_iff, turnIs_true, bool_decide_eq_true. tauto. Qed.

Lemma find_settings_same ws (d d' : CapacityDb) : settings (codex d') = settings (codex d) ->
  List.find (settingsFor ws) (settings (codex d')) = List.find (settingsFor ws) (settings (codex d)).
Proof. by intros ->. Qed.

Definition failedRow (now : Z) (r : TurnRow) : TurnRow :=
  r <| t_status := T_failed |> <| t_finishedAt := Some now |> <| t_updatedAt := now |>.
Definition idledRow (now sequence : Z) (r : SessionRow) : SessionRow :=
  r <| s_status := S_idle |> <| s_activeTurnId := None |> <| s_lastSequence := sequence |> <| s_updatedAt := now |>.

(** What an arming that passes the fences leaves, with the inserted rows. *)
Record armedTo (now : Z) (input : ArmInput) (s : SessionRow) (t : TurnRow) (w : WaiterRow) (rows : list EventRow) (d d' : CapacityDb) : Prop := {
  ar_upsert : exists d0, upsertWaiter now input t (List.find (waiterOf (a_workspaceId input) (a_sessionId input)) (waiters d)) d = (w, d0) /\
    waiters d' = waiters d0 /\ (db_fresh (core (codex d0)) <= db_fresh (core (codex d')))%nat;
  ar_events : db_events (core (codex d')) = db_events (core (codex d)) ++ rows /\
    ParentWake.ParentWake.batch s (s_lastSequence s) 3 rows;
  ar_turns : db_turns (core (codex d')) =
    update_where (fun r => turnIs (a_workspaceId input) (a_turnId input) r && hasStatus [T_running] r) (failedRow now) (db_turns (core (codex d)));
  ar_sessions : db_sessions (core (codex d')) =
    update_where (inSession (a_workspaceId input) (a_sessionId input)) (idledRow now (s_lastSequence s + 3)) (db_sessions (core (codex d)));
  ar_log : log_ok (core (codex d'));
  ar_leases : leases (codex d') = delete_where (turnLease input) (leases (codex d));
  ar_settings : settings (codex d') = settings (codex d)
}.

Lemma armEvents_plain input w : Forall (fun i => plain i = true) (armEvents input w).
Proof. by repeat constructor. Qed.

Lemma arm_cases now input d : log_ok (core (codex d)) ->
  (exists w, armCodexCapacityWait now input d = Ok (ArmStale w, d)) \/
  (exists w, armCodexCapacityWait now input d = Ok (ArmWaiting w [], d) /\
     List.find (waiterOf (a_workspaceId input) (a_sessionId input)) (waiters d) = Some w /\ w_status w = waiting /\ w_blockedTurnId w = a_turnId input) \/
  exists rotation s g t w rows d',
    List.find (settingsFor (a_workspaceId input)) (settings (codex d)) = Some rotation /\ st_accountId rotation = a_accountId input /\
    List.find (sessionOf (a_accountId input) (a_workspaceId input) (a_sessionId input)) (db_sessions (core (codex d))) = Some s /\
    List.find (turnOfSession (a_workspaceId input) (a_turnId input) (a_sessionId input)) (db_turns (core (codex d))) = Some t /\
    fenced now input s g t d = true /\
    armCodexCapacityWait now input d = Ok (ArmWaiting w (List.map mapEvent rows), d') /\ armedTo now input s t w rows d d'.
Proof.
  intros Hok. unfold armCodexCapacityWait.
  destruct (List.find (settingsFor _) _) as [rot|] eqn:Er; [|left; by eexists].
  case_bool_decide as Ha; cbn [negb]; [|left; by eexists]. cbv zeta.
  set (ex := List.find (waiterOf _ _) _). set (so := List.find (sessionOf _ _ _) _). set (go := List.find (goalFor _ _ _) _).
  set (to := List.find (turnOfSession _ _ _) _).
  destruct (match ex, to with Some w, Some t => _ | _, _ => _ end) as [r|] eqn:Eag.
  { right. left. destruct ex as [w|] eqn:Ew; [|done]. destruct to as [t|]; [|done]. destruct (_ && _) eqn:Ec; [|done]. injection Eag as <-.
    breflect. exists w. split; [done|]. split; [done|]. split; [by apply isWaiting_true|done]. }
  destruct so as [s|] eqn:Es; [|left; by eexists]. destruct go as [g|]; [|left; by eexists]. destruct to as [t|] eqn:Et; [|left; by eexists].
  destruct (fenced now input s g t d) eqn:Ef; cbn [negb]; [|left; by eexists]. right. right.
  pose proof (find_account_session _ _ _ _ _ Hok Es) as (Hs & Hin & _ & Hsw & Hsi).
  pose proof (upsert_fresh now input t ex d) as (Hfr & Hev & Hse & Htu & Hle & Hst).
  destruct (upsertWaiter now input t ex d) as [w d0] eqn:Eu. cbn [snd] in *.
  destruct (insert_plain (core (codex d0)) s (s_lastSequence s) now (armEvents input w)) as (rows & c & Hi); [|apply armEvents_plain|].
  { rewrite Hev. intros e He Ho. by apply (log_ok_bound (core (codex d))). }
  rewrite Hi. eexists rot, s, g, t, w, rows, _. split_and!; [done..|].
  pose proof (ParentWake.ParentWake.insert_batch _ _ _ _ _ _ _ Hi) as (Hb & Hce & Hcs & Hct & _ & Hcf).
  assert (Hact : s_activeTurnId s = Some (a_turnId input)) by (unfold fenced in Ef; by breflect).
  assert (Hss : update_where (fun r => inSession (a_workspaceId input) (a_sessionId input) r && bool_decide (s_activeTurnId r = Some (a_turnId input)))
     (fun r => r <| s_status := S_idle |> <| s_activeTurnId := None |> <| s_lastSequence := s_lastSequence s + 3 |> <| s_updatedAt := now |>) (db_sessions c) =
     update_where (inSession (a_workspaceId input) (a_sessionId input)) (idledRow now (s_lastSequence s + 3)) (db_sessions (core (codex d)))).
  { rewrite Hcs, Hse. apply CodexSettle.CodexSettle.update_where_ext. intros r Hr. destruct (inSession _ _ r) eqn:E; [|done].
    rewrite (session_unique _ _ _ s r Hok Hin Hr Hsi E), Hact. by rewrite bool_decide_eq_true_2. }
  split.
  - exists d0. split; [done|]. split; [done|]. cbn. rewrite Hcf. lia.
  - split; [|exact Hb]. cbn. by rewrite Hce, Hev.
  - cbn. by rewrite Hct, Htu.
  - exact Hss.
  - eapply (ParentWake.ParentWake.log_ok_wake (core (codex d))); [done|exact Hs|exact Hb|cbn; by rewrite Hce, Hev|exact Hss|done].
  - cbn. by rewrite Hle.
  - cbn. by rewrite Hst.
Qed.

(** One transaction settles the turn and arms the wait. Either nothing
    changed (a fence no longer holds, or the wait is already armed), or every
    part of it happened: the session's next three events were appended, the
    turn failed, the session is idle and free, no lease of the turn is left and
    the waiter is the one waiting for the session. Repeating the call answers
    the same waiter and changes nothing. *)
Theorem arm_atomic now input d :
  log_ok (core (codex d)) -> turns_ok (core (codex d)) -> waiters_ok d ->
  exists r d', armCodexCapacityWait now input d = Ok (r, d') /\ log_ok (core (codex d')) /\ waiters_ok d' /\
  match r with
  | ArmStale _ | ArmWaiting _ [] => d' = d
  | ArmWaiting w evs =>
      (exists s, List.find (inSession (a_workspaceId input) (a_sessionId input)) (db_sessions (core (codex d))) = Some s /\
         List.map ev_sequence evs = seqZ (s_lastSequence s + 1) 3) /\
      (forall r, r ∈ db_turns (core (codex d')) -> turnIs (a_workspaceId input) (a_turnId input) r = true -> t_status r = T_failed) /\
      (forall s, s ∈ db_sessions (core (codex d')) -> inSession (a_workspaceId input) (a_sessionId input) s = true ->
         s_status s = S_idle /\ s_activeTurnId s = None) /\
      (forall l, l ∈ leases (codex d') -> turnLease input l = false) /\
      getCodexCapacityWaitForSession (a_workspaceId input) (a_sessionId input) d' = Some w /\ w_blockedTurnId w = a_turnId input /\
      forall later, armCodexCapacityWait later input d' = Ok (ArmWaiting w [], d')
  end.
Proof.
  intros Hlog Hturns Hok.
  destruct (arm_cases now input d Hlog) as [[w ->]|[(w & -> & _)|(rot & s & g & t & w & rows & d' & Hrot & Hacc & Hs & Ht & Hf & -> & Hto)]];
    [eexists _, d; by split_and!..|].
  destruct (ar_upsert _ _ _ _ _ _ _ _ Hto) as (d0 & Hup & Hw & Hfr).
  pose proof (upsert_spec now input t d Hok) as Hspec. cbv zeta in Hspec. rewrite Hup in Hspec. destruct Hspec as (Hok0 & Hwe & Hwin & _).
  destruct (ar_events _ _ _ _ _ _ _ _ Hto) as [Hev (Hlen & Hseq & _)].
  pose proof (find_account_session _ _ _ _ _ Hlog Hs) as (Hfs & _).
  assert (Hok' : waiters_ok d') by (eapply waiters_ok_updated; [exact Hok0|by apply waiters_same]).
  assert (Hall : forall r, waiterOf (a_workspaceId input) (a_sessionId input) r = true -> r ∈ waiters d' -> r = w).
  { intros r Hr Hrin. rewrite Hw in Hrin. eapply waiters_ok_session; [exact Hok0|done|done|]. by rewrite Hwe. }
  assert (Hown : waiterOf (a_workspaceId input) (a_sessionId input) w = true) by (rewrite Hwe; by apply waiterOf_true).
  assert (Hfw : List.find (waiterOf (a_workspaceId input) (a_sessionId input)) (waiters d') = Some w).
  { apply (find_key w_id); [apply Hok'|by rewrite Hw|done|]. intros y Hy Hyo. by rewrite (Hall y). }
  assert (Hws : w_status w = waiting /\ w_blockedTurnId w = a_turnId input) by (by rewrite Hwe).
  eexists _, d'. split; [done|]. split; [apply (ar_log _ _ _ _ _ _ _ _ Hto)|]. split; [done|].
  destruct rows as [|e0 rows]; [done|]. cbn [List.map].
  split_and!.
  - exists s. split; [done|]. change 3 with (Z.of_nat 3). rewrite <- Hseq. cbn. f_equal. by rewrite List.map_map.
  - intros r Hr Hi. rewrite (ar_turns _ _ _ _ _ _ _ _ Hto) in Hr. apply elem_of_update_where in Hr as (x & Hx & ->).
    destruct (turnIs _ _ x && _) eqn:E; [done|]. apply andb_false_iff in E as [E|E]; [congruence|].
    apply find_some in Ht as [Htin%list_elem_of_In Hto']. apply turnOfSession_true in Hto' as (_ & Hti & _).
    apply turnIs_true in Hi as [_ Hxi]. assert (x = t) as -> by (eapply (select_unique t_id); [apply Hturns|done|done|exact Hxi|done]).
    unfold fenced in Hf. breflect. unfold hasStatus in E. apply bool_decide_eq_false in E. destruct E. rewrite list_elem_of_singleton. done.
  - intros x Hx Hi. rewrite (ar_sessions _ _ _ _ _ _ _ _ Hto) in Hx. apply elem_of_update_where in Hx as (y & _ & ->).
    destruct (inSession _ _ y) eqn:E; [done|congruence].
  - intros l Hl. rewrite (ar_leases _ _ _ _ _ _ _ _ Hto) in Hl. by apply CodexLease.elem_of_delete in Hl as [_ Hl].
  - unfold getCodexCapacityWaitForSession. apply (find_key w_id); [apply Hok'|by rewrite Hw| |].
    + apply andb_true_iff; split; [done|]. apply isWaiting_true, Hws.
    + intros y Hy [Hyo _]%andb_true_iff. by rewrite (Hall y).
  - apply Hws.
  - intros later. unfold armCodexCapacityWait. rewrite (find_settings_same _ d d' (ar_settings _ _ _ _ _ _ _ _ Hto)), Hrot.
    rewrite bool_decide_eq_true_2 by done. cbn [negb]. cbv zeta. rewrite Hfw, (ar_turns _ _ _ _ _ _ _ _ Hto), find_update_where, Ht by done.
    cbn [fmap option_fmap option_map]. rewrite (proj2 (isWaiting_true w)), bool_decide_eq_true_2 by apply Hws. cbn [andb].
    apply find_some in Ht as [_ Ht]. unfold turnOfSession, fenced in *. breflect.
    assert (hasStatus [T_running] t = true) as -> by (unfold hasStatus; apply bool_decide_eq_true; by rewrite list_elem_of_singleton).
    by match goal with H : turnIs _ _ t = true |- _ => rewrite H end.
Qed.

(** ** Reconciling, case by case *)

(** The waiter under its lock, with the rows its fences read. *)
Record evaluated (input : ReconcileInput) (w : WaiterRow) (s : SessionRow) (g : GoalRow) (b : TurnRow) (d : CapacityDb) : Prop := {
  ev_waiter : List.find (fun r => waiterIs (c_waiterId input) r && waiterOf (c_workspaceId input) (c_sessionId input) r) (waiters d) = Some w;
  ev_generation : w_generation w = c_generation input;
  ev_waiting : w_status w = waiting;
  ev_session : List.find (sessionOf (c_accountId input) (c_workspaceId input) (c_sessionId input)) (db_sessions (core (codex d))) = Some s;
  ev_goal : List.find (goalFor (c_workspaceId input) (w_goalId w) (c_sessionId input)) (db_goals (core (codex d))) = Some g;
  ev_blocked : List.find (turnOfSession (c_workspaceId input) (w_blockedTurnId w) (c_sessionId input)) (db_turns (core (codex d))) = Some b
}.

Lemma Ok_inj {E A} (a b : A) : @Ok E A a = Ok b -> a = b.
Proof. by intros [= ->]. Qed.

Lemma reconcile_total now input decide filter d :
  (exists w, reconcileCodexCapacityWait now input decide filter d = Ok (ReconcileStale w, d)) \/
  exists w s g b, evaluated input w s g b d /\ forall r d', reconcileCodexCapacityWait now input decide filter d = Ok (r, d') ->
    (exists reason, supersedeReason w s g b (db_turns (core (codex d))) = Some reason /\ supersede now reason s w d = Ok (r, d')) \/
    supersedeReason w s g b (db_turns (core (codex d))) = None /\
    ((exists reset kind, keepWaiting now reset kind w d = (r, d')) \/ exists diagnostic, resume now diagnostic w s g b d = Ok (r, d')).
Proof.
  unfold reconcileCodexCapacityWait. cbv zeta.
  destruct (List.find (settingsFor _) _) as [rot|]; [|left; eauto].
  destruct (negb (bool_decide _)); [left; eauto|].
  destruct (List.find _ (waiters d)) as [w|] eqn:Ew; [|left; eauto].
  destruct (w_generation w =? _) eqn:Eg; cbn [negb]; [|left; eauto].
  destruct (List.find (sessionOf _ _ _) _) as [s|] eqn:Es; [|left; eauto].
  destruct (List.find (goalFor _ _ _) _) as [g|] eqn:Ego; [|left; eauto].
  destruct (List.find (turnOfSession _ _ _) _) as [b|] eqn:Eb; [|left; eauto].
  destruct (isWaiting w) eqn:Ewt; cbn [negb]; [|left; eauto].
  right. exists w, s, g, b. split; [split; try done; [by apply Z.eqb_eq|by apply isWaiting_true]|]. intros r d' H.
  destruct (supersedeReason _ _ _ _ _) as [reason|]; [left; eauto|right]. split; [done|].
  destruct (filterCodexLeaseCandidatesForPolicy _ _) as [accounts|]; [|done].
  destruct (decide _ _ _); [right; eauto|left]. eexists _, _. by apply (Ok_inj (E:=CapacityError)).
Qed.

Lemma reconcile_cases now input decide filter d r d' : reconcileCodexCapacityWait now input decide filter d = Ok (r, d') ->
  (exists w, r = ReconcileStale w) /\ d' = d \/
  exists w s g b, evaluated input w s g b d /\
    ((exists reason, supersedeReason w s g b (db_turns (core (codex d))) = Some reason /\ supersede now reason s w d = Ok (r, d')) \/
     supersedeReason w s g b (db_turns (core (codex d))) = None /\
     ((exists reset kind, keepWaiting now reset kind w d = (r, d')) \/ exists diagnostic, resume now diagnostic w s g b d = Ok (r, d'))).
Proof.
  intros H. destruct (reconcile_total now input decide filter d) as [[w E]|(w & s & g & b & He & Hc)].
  - rewrite E in H. injection H as <- <-. left. eauto.
  - right. exists w, s, g, b. auto.
Qed.

(** The one row an evaluation may write. *)
Lemma evaluated_own input w s g b d r : waiters_ok d -> evaluated input w s g b d -> r ∈ waiters d -> waiterIs (w_id w) r = true -> r = w.
Proof.
  intros Hok He Hr Hi%waiterIs_true. eapply waiters_ok_id; [done..| |done]. apply list_elem_of_In, (find_some _ _ (ev_waiter _ _ _ _ _ _ He)).
Qed.

Lemma evaluated_waiter input w s g b d : evaluated input w s g b d ->
  w ∈ waiters d /\ w_id w = c_waiterId input /\ w_workspaceId w = c_workspaceId input /\ w_sessionId w = c_sessionId input.
Proof.
  intros He. destruct (find_some _ _ (ev_waiter _ _ _ _ _ _ He)) as [Hin%list_elem_of_In [Hi%waiterIs_true [Hw Hs]%waiterOf_true]%andb_true_iff]. done.
Qed.

Lemma insert_fresh s seq now inputs d rows c : insertEvents (eventValues s seq now inputs) d = Ok (rows, c) -> (db_fresh d <= db_fresh c)%nat.
Proof. intros (_ & _ & _ & _ & _ & H)%ParentWake.ParentWake.insert_batch. lia. Qed.

(** What any evaluation does to the waiters. *)
Lemma reconcile_waiters now input decide filter d r d' : waiters_ok d -> reconcileCodexCapacityWait now input decide filter d = Ok (r, d') ->
  (exists w, r = ReconcileStale w) /\ d' = d \/
  exists p f, (db_fresh (core (codex d)) <= db_fresh (core (codex d')))%nat /\ waiters d' = update_where p f (waiters d) /\
    (forall x, x ∈ waiters d -> p x = true -> keeps x (f x) /\ w_id x = c_waiterId input /\ w_generation x = c_generation input /\
       match r with StillWaiting _ => w_status (f x) = waiting | _ => w_status (f x) <> waiting end) /\
    exists w, w ∈ waiters d /\ w_id w = c_waiterId input /\ w_generation w = c_generation input /\ p w = true.
Proof.
  intros Hok H. destruct (reconcile_cases _ _ _ _ _ _ _ H) as [?|(w & s & g & b & He & Hc)]; [by left|right]. clear H.
  pose proof (fun r => evaluated_own _ _ _ _ _ _ r Hok He) as Hown.
  destruct (evaluated_waiter _ _ _ _ _ _ He) as (Hin & Hid & _). pose proof (ev_waiting _ _ _ _ _ _ He) as Hwt.
  pose proof (ev_generation _ _ _ _ _ _ He) as Hg. pose proof (wk_observed _ Hok w Hin) as Hob.
  destruct Hc as [(reason & _ & Hs)|(_ & [(reset & kind & Hs)|(diag & Hs)])].
  - unfold supersede in Hs. destruct (insertEvents _ _) as [[rows c]|] eqn:Ei; [|done]. injection Hs as <- <-.
    eexists _, _. split; [cbn; by eapply insert_fresh|]. split; [reflexivity|]. split.
    + intros x Hx [Hxi Hxw]%andb_true_iff. rewrite (Hown x Hx Hxi). split; [by split; cbn; try done; lia|done].
    + exists w. split_and!; [done..|]. by rewrite (proj2 (waiterIs_true _ _)), (proj2 (isWaiting_true _)).
  - unfold keepWaiting in Hs. injection Hs as <- <-. eexists _, _. split; [cbn; lia|]. split; [reflexivity|]. split.
    + intros x Hx [[Hxi Hxw]%andb_true_iff _]%andb_true_iff. rewrite (Hown x Hx Hxi). split; [by split; cbn; try done; lia|done].
    + exists w. split_and!; [done..|]. by rewrite (proj2 (waiterIs_true _ _)), (proj2 (isWaiting_true _)), Z.eqb_refl.
  - unfold resume in Hs. destruct (insertEvents _ (core (codex d))) as [[first c]|] eqn:Ei; [|done]. cbv zeta in Hs.
    match type of Hs with context [insertEvents ?v ?dd] => destruct (insertEvents v dd) as [[tail c2]|] eqn:Ei2; [|done] end. injection Hs as <- <-.
    eexists _, _. split; [|split; [reflexivity|split]].
    + cbn. apply insert_fresh in Ei, Ei2. cbn in Ei2. lia.
    + intros x Hx [[Hxi Hxw]%andb_true_iff _]%andb_true_iff. rewrite (Hown x Hx Hxi). split; [by split; cbn; try done; lia|done].
    + exists w. split_and!; [done..|]. by rewrite (proj2 (waiterIs_true _ _)), (proj2 (isWaiting_true _)), Z.eqb_refl.
Qed.

Lemma validate_waiters now input d b evs d' : waiters_ok d -> validateCodexCapacityResumeTurn now input d = Ok (b, evs, d') ->
  exists p f, (db_fresh (core (codex d)) <= db_fresh (core (codex d')))%nat /\ waiters d' = update_where p f (waiters d) /\
    forall x, x ∈ waiters d -> p x = true -> keeps x (f x) /\ w_status x = resumed /\ w_status (f x) = superseded.
Proof.
  intros Hok. unfold validateCodexCapacityResumeTurn. cbv zeta.
  assert (Hsame : forall x : CapacityDb, x = d -> exists p f, (db_fresh (core (codex d)) <= db_fresh (core (codex x)))%nat /\ waiters x = update_where p f (waiters d) /\
    forall x, x ∈ waiters d -> p x = true -> keeps x (f x) /\ w_status x = resumed /\ w_status (f x) = superseded).
  { intros x ->. exists (fun _ => false), (fun r => r). by rewrite update_where_none. }
  set (wo := List.find _ (waiters d)). set (valid := match List.find (inSession _ _) _ with Some _ => _ | None => _ end).
  destruct (List.find (turnOfSession _ _ _) _) as [t|]; [|intros [= <- <- <-]; by apply Hsame].
  destruct (valid || _); [intros [= <- <- <-]; by apply Hsame|].
  set (d1 := match wo with Some _ => _ | None => _ end).
  assert (H1 : exists p f, waiters d1 = update_where p f (waiters d) /\ core (codex d1) = core (codex d) /\
    forall x, x ∈ waiters d -> p x = true -> keeps x (f x) /\ w_status x = resumed /\ w_status (f x) = superseded).
  { unfold d1. destruct wo as [w|] eqn:Ew; [|exists (fun _ => false), (fun r => r); by rewrite update_where_none].
    destruct (_ && _) eqn:E; [|exists (fun _ => false), (fun r => r); by rewrite update_where_none].
    eexists _, _. split; [reflexivity|]. split; [done|]. intros x Hx Hi%waiterIs_true. apply find_some in Ew as [Hin%list_elem_of_In _].
    rewrite (waiters_ok_id d x w) by done. apply andb_true_iff in E as [E _]. apply bool_decide_eq_true in E.
    pose proof (wk_observed _ Hok w Hin). split; [split; cbn; try done; lia|done]. }
  destruct H1 as (p & f & Hw & Hc & Hk).
  assert (Hfin : forall c, (db_fresh (core (codex d)) <= db_fresh c)%nat -> exists p f, (db_fresh (core (codex d)) <= db_fresh (core (codex (setCore c d1))))%nat /\
    waiters (setCore c d1) = update_where p f (waiters d) /\
    forall x, x ∈ waiters d -> p x = true -> keeps x (f x) /\ w_status x = resumed /\ w_status (f x) = superseded) by (intros; by exists p, f).
  destruct (List.find (inSession _ _) _) as [s|]; [|intros [= <- <- <-]; by apply Hfin].
  destruct (bool_decide _); [|intros [= <- <- <-]; by apply Hfin].
  destruct (insertEvents _ _) as [[rows c]|] eqn:Ei; [|done]. intros [= <- <- <-]. apply Hfin. cbn. by apply insert_fresh in Ei.
Qed.

(** ** Steps *)

(** The transactions that touch a waiter, in any order and any number; [other]
    is everything else the database does. *)
Inductive capacity_step (d d' : CapacityDb) : Prop :=
| step_arm now input r : armCodexCapacityWait now input d = Ok (r, d') -> capacity_step d d'
| step_reconcile now input decide filter r : reconcileCodexCapacityWait now input decide filter d = Ok (r, d') -> capacity_step d d'
| step_validate now input b evs : validateCodexCapacityResumeTurn now input d = Ok (b, evs, d') -> capacity_step d d'
| step_mutation now ws reason policyHash (mutate : CodexDb -> unit * bool * CodexDb) r targets :
    (forall x, db_fresh (core x) <= db_fresh (core (mutate x).2))%nat ->
    withCodexCapacityMutation now ws reason policyHash mutate d = (r, targets, d') -> capacity_step d d'
| step_other : waiters d' = waiters d -> (db_fresh (core (codex d)) <= db_fresh (core (codex d')))%nat -> capacity_step d d'.

Lemma mutation_waiters {T} now ws reason ph (mutate : CodexDb -> T * bool * CodexDb) d r targets d' : waiters_ok d ->
  (forall x, db_fresh (core x) <= db_fresh (core (mutate x).2))%nat ->
  withCodexCapacityMutation now ws reason ph mutate d = (r, targets, d') ->
  exists p, (db_fresh (core (codex d)) <= db_fresh (core (codex d')))%nat /\ waiters d' = update_where p (woken now reason) (waiters d) /\
    targets = List.map wakeTarget (updated_rows p (woken now reason) (waiters d)) /\ forall x, p x = true -> concerned ws ph x = true.
Proof.
  intros Hok Hm. unfold withCodexCapacityMutation. specialize (Hm (codex d)). destruct (mutate (codex d)) as [[res ch] c]. cbn in Hm.
  destruct ch; cbn [negb]; intros [= <- <- <-].
  - by exists (concerned ws ph).
  - exists (fun _ => false). unfold updated_rows. rewrite update_where_none by done. split; [done|]. split; [done|]. split; [|done].
    by induction (waiters d).
Qed.

Lemma woken_keeps now reason r : w_observedWakeRevision r <= w_wakeRevision r -> keeps r (woken now reason r).
Proof. intros H. split; cbn; try done; lia. Qed.

(** A generation that is over: no row carries it and waits. *)
Definition spent (id : string) (generation : Z) (d : CapacityDb) : Prop :=
  (forall n, (db_fresh (core (codex d)) <= n)%nat -> id <> uuid n) /\
  forall r, r ∈ waiters d -> w_id r = id -> generation < w_generation r \/ w_generation r = generation /\ w_status r <> waiting.

Lemma spent_updated id g d d' : waiters_updated d d' -> spent id g d -> spent id g d'.
Proof.
  intros (Hf & p & f & Hw & Hk) [Hi Hr]. split; [intros n Hn; apply Hi; lia|].
  intros r' Hr' Hid. rewrite Hw in Hr'. apply elem_of_update_where in Hr' as (r & Hin & ->).
  destruct (p r) eqn:E; [|by apply Hr]. specialize (Hk r Hin E).
  rewrite (kp_generation _ _ Hk). rewrite (kp_id _ _ Hk) in Hid. destruct (Hr r Hin Hid) as [?|[? Hs]]; [by left|right].
  split; [done|]. intros Hc. by apply Hs, (kp_status _ _ Hk).
Qed.

Lemma arm_upserts now input d r d' : armCodexCapacityWait now input d = Ok (r, d') ->
  d' = d \/ exists t w d0, upsertWaiter now input t (List.find (waiterOf (a_workspaceId input) (a_sessionId input)) (waiters d)) d = (w, d0) /\
    waiters d' = waiters d0 /\ (db_fresh (core (codex d0)) <= db_fresh (core (codex d')))%nat.
Proof.
  unfold armCodexCapacityWait. destruct (List.find (settingsFor _) _) as [rot|]; [|intros [= <- <-]; by left].
  destruct (negb _); [intros [= <- <-]; by left|]. cbv zeta.
  set (ex := List.find (waiterOf _ _) _). set (so := List.find (sessionOf _ _ _) _). set (go := List.find (goalFor _ _ _) _).
  set (to := List.find (turnOfSession _ _ _) _).
  destruct (match ex, to with Some w, Some t => _ | _, _ => _ end) as [x|]; [intros [= <- <-]; by left|].
  destruct so as [s|], go as [g|], to as [t|]; try (intros [= <- <-]; by left).
  destruct (negb _); [intros [= <- <-]; by left|].
  destruct (upsertWaiter now input t ex d) as [w d0] eqn:Eu. destruct (insertEvents _ _) as [[rows c]|] eqn:Ei; [|done].
  intros [= <- <-]. right. exists t, w, d0. split_and!; [done..|]. cbn. by apply insert_fresh in Ei.
Qed.

Lemma arm_step now input d r d' : waiters_ok d -> armCodexCapacityWait now input d = Ok (r, d') ->
  waiters_ok d' /\ (db_fresh (core (codex d)) <= db_fresh (core (codex d')))%nat /\
  forall x, x ∈ waiters d' -> x ∈ waiters d \/ (exists n, (db_fresh (core (codex d)) <= n)%nat /\ w_id x = uuid n) \/
                              exists y, y ∈ waiters d /\ w_id y = w_id x /\ w_generation y < w_generation x.
Proof.
  intros Hok H. destruct (arm_upserts _ _ _ _ _ H) as [->|(t & w & d0 & Hup & Hw & Hfr)]; [by auto|].
  pose proof (upsert_spec now input t d Hok) as Hs. pose proof (upsert_fresh now input t (List.find (waiterOf (a_workspaceId input) (a_sessionId input)) (waiters d)) d) as [Hf0 _].
  cbv zeta in Hs. set (ex := List.find _ (waiters d)) in *. rewrite Hup in *. cbn [snd] in *. destruct Hs as (Hok0 & Hwe & Hwin & Hall).
  split; [eapply waiters_ok_updated; [exact Hok0|by apply waiters_same]|]. split; [lia|].
  intros x Hx. rewrite Hw in Hx. destruct (Hall x Hx) as [(-> & Hsome & Hnone)|[Hold _]]; [right|by left].
  destruct ex as [y|] eqn:Ey.
  - right. exists y. split; [by apply list_elem_of_In, (find_some _ _ Ey)|]. split; [symmetry; by apply Hsome|]. rewrite Hwe. cbn. lia.
  - left. exists (db_fresh (core (codex d))). split; [done|by apply Hnone].
Qed.

Lemma spent_step id g d d' : waiters_ok d -> spent id g d -> capacity_step d d' -> waiters_ok d' /\ spent id g d'.
Proof.
  intros Hok Hsp H.
  assert (Hu : waiters_updated d d' -> waiters_ok d' /\ spent id g d').
  { intros Hu. split; [by eapply waiters_ok_updated|by eapply spent_updated]. }
  destruct H as [now input r H|now input decide filter r H|now input b evs H|now ws reason ph mutate r targets Hm H|Hw Hf].
  - destruct (arm_step _ _ _ _ _ Hok H) as (Hok' & Hf & Hall). split; [done|]. destruct Hsp as [Hi Hr]. split; [intros n Hn; apply Hi; lia|].
    intros x Hx Hid. destruct (Hall x Hx) as [Hold|[(n & Hn & Hxn)|(y & Hy & Hyx & Hlt)]]; [by apply Hr| |].
    + exfalso. apply (Hi n Hn). congruence.
    + left. destruct (Hr y Hy) as [?|[? _]]; [congruence|lia|lia].
  - destruct (reconcile_waiters _ _ _ _ _ _ _ Hok H) as [[_ ->]|(p & f & Hf & Hw & Hk & _)]; [done|]. apply Hu. split; [done|].
    exists p, f. split; [done|]. intros x Hx Hp. by apply Hk.
  - destruct (validate_waiters _ _ _ _ _ _ Hok H) as (p & f & Hf & Hw & Hk). apply Hu. split; [done|]. exists p, f. split; [done|].
    intros x Hx Hp. by apply Hk.
  - destruct (mutation_waiters _ _ _ _ _ _ _ _ _ Hok Hm H) as (p & Hf & Hw & _). apply Hu. split; [done|]. exists p, (woken now reason).
    split; [done|]. intros x Hx _. apply woken_keeps. by apply (wk_observed _ Hok).
  - apply Hu. by apply waiters_same.
Qed.

Lemma spent_steps id g d d' : rtc capacity_step d d' -> waiters_ok d -> spent id g d -> waiters_ok d' /\ spent id g d'.
Proof.
  induction 1 as [|d d1 d2 H _ IH]; [done|]. intros Hok Hsp. destruct (spent_step _ _ _ _ Hok Hsp H). by apply IH.
Qed.

(** (C21) A wait is resumed or superseded once: after a reconciliation that did
    either, whatever capacity transactions and other work follow, in any order,
    any further reconciliation of that generation, by any timer or signal and
    whatever capacity it would find, is stale and changes nothing. *)
Theorem resume_once now input decide filter d r d1 d2 :
  waiters_ok d -> reconcileCodexCapacityWait now input decide filter d = Ok (r, d1) ->
  match r with Resumed _ _ _ | Superseded _ _ => True | _ => False end -> rtc capacity_step d1 d2 ->
  forall later decide' filter', exists w, reconcileCodexCapacityWait later input decide' filter' d2 = Ok (ReconcileStale w, d2).
Proof.
  intros Hok H Hr Hs later decide' filter'.
  destruct (reconcile_waiters _ _ _ _ _ _ _ Hok H) as [[(w & ->) _]|(p & f & Hf & Hw & Hk & (w & Hin & Hid & Hg & Hp))]; [done|].
  assert (Hsp : spent (c_waiterId input) (c_generation input) d1).
  { split; [intros n Hn; rewrite <- Hid; apply not_eq_sym; intros Hc; eapply (wk_fresh _ Hok n w); [lia|done|done]|].
    intros x' Hx' Hxid. right. rewrite Hw in Hx'. apply elem_of_update_where in Hx' as (x & Hx & ->). destruct (p x) eqn:E.
    - destruct (Hk x Hx E) as (Hkp & _ & Hxg & Hst). split; [by rewrite (kp_generation _ _ Hkp)|]. by destruct r.
    - assert (x = w) as -> by (eapply waiters_ok_id; [done..|congruence]). congruence. }
  assert (Hok1 : waiters_ok d1).
  { eapply waiters_ok_updated; [exact Hok|]. split; [done|]. exists p, f. split; [done|]. intros x Hx Hpx. by apply Hk. }
  destruct (spent_steps _ _ _ _ Hs Hok1 Hsp) as [Hok2 [_ Hsp2]]. clear -Hok2 Hsp2.
  destruct (reconcile_total later input decide' filter' d2) as [?|(w & s & g & b & He & _)]; [done|exfalso].
  destruct (evaluated_waiter _ _ _ _ _ _ He) as (Hin & Hid & _). destruct (Hsp2 w Hin Hid) as [Hlt|[_ Hne]].
  - pose proof (ev_generation _ _ _ _ _ _ He). lia.
  - by apply Hne, He.
Qed.

(** ** The continuation turn *)

Lemma assoc_without k keys fields : assoc k (without keys fields) = if bool_decide (k ∈ keys) then None else assoc k fields.
Proof.
  unfold without. induction fields as [|[k' v] l IH]; [by case_bool_decide|]. cbn [List.filter fst].
  destruct (bool_decide (k' ∈ keys)) eqn:E; cbn [negb assoc]; rewrite IH; destruct (bool_decide_reflect (k = k')) as [->|_]; try done; by rewrite E.
Qed.

(** Keys the continuation neither drops nor writes are the blocked turn's. *)
Lemma continuation_inherits k w g b :
  k ∈ [js "sessionControlGeneration"; js "codexCredentialPolicyHash"] ->
  assoc k (continuationMetadata w g b) = assoc k (t_metadata b).
Proof.
  intros Hk. unfold continuationMetadata, overlay. cbn [fold_left fst snd]. rewrite !assoc_set_field, assoc_without.
  repeat (apply elem_of_cons in Hk as [->|Hk]; [by vm_compute|]). by apply elem_of_nil in Hk.
Qed.

Lemma continuation_fresh k w g b : k ∈ [js "workerDeathRedispatches"; js "codexCredentialFailovers"] -> assoc k (continuationMetadata w g b) = None.
Proof.
  intros Hk. unfold continuationMetadata, overlay. cbn [fold_left fst snd]. rewrite !assoc_set_field, assoc_without.
  repeat (apply elem_of_cons in Hk as [->|Hk]; [by vm_compute|]). by apply elem_of_nil in Hk.
Qed.

Lemma fence_open w s g b turns : supersedeReason w s g b turns = None ->
  g_status g = G_active /\ g_version g = w_goalVersion w /\ controlGenerationOf (t_metadata b) = w_controlGeneration w /\
  policyHashOf (t_metadata b) = w_policyHash w /\ s_status s = S_idle /\ s_activeTurnId s = None /\ t_status b = T_failed /\
  forall r, r ∈ turns -> turnOf (w_workspaceId w) (w_sessionId w) r = true -> unsettled r = false /\ t_position r <= t_position b.
Proof.
  unfold supersedeReason. cbv zeta. intros H.
  repeat match type of H with (if ?c then _ else _) = None => let E := fresh "E" in destruct c eqn:E; [discriminate H|] end. breflect. split_and!; try done.
  intros r Hr Ht. split.
  - apply not_true_iff_false. intros Hu. apply not_true_iff_false in E4. apply E4, existsb_exists. exists r. split; [by apply list_elem_of_In|]. by rewrite Ht, Hu.
  - apply Z.nlt_ge. intros Hu. apply not_true_iff_false in E5. apply E5, existsb_exists. exists r. split; [by apply list_elem_of_In|].
    rewrite Ht. by apply Z.ltb_lt.
Qed.

Definition requeuedRow (now sequence : Z) (r : SessionRow) : SessionRow :=
  r <| s_status := S_queued |> <| s_activeTurnId := None |> <| s_lastSequence := sequence |> <| s_updatedAt := now |>.
Definition resumedRow (now : Z) (turnId : string) (revision : Z) (r : WaiterRow) : WaiterRow :=
  r <| w_status := resumed |> <| w_resumedTurnId := Some turnId |> <| w_observedWakeRevision := revision |>
    <| w_lastWakeReason := "capacity_available" |> <| w_updatedAt := now |>.

Record resumedTo (now : Z) (w : WaiterRow) (s : SessionRow) (g : GoalRow) (b : TurnRow) (w' : WaiterRow) (turn : TurnRow)
  (evs : list SessionEvent) (d d' : CapacityDb) : Prop := {
  rs_turn : exists trigger c, db_turns c = db_turns (core (codex d)) /\ (db_fresh (core (codex d)) <= db_fresh c)%nat /\ turn = resumeTurn now w s g b trigger c /\
    (db_fresh c < db_fresh (core (codex d')))%nat;
  rs_turns : db_turns (core (codex d')) = db_turns (core (codex d)) ++ [turn];
  rs_events : exists rows, evs = List.map mapEvent rows /\ db_events (core (codex d')) = db_events (core (codex d)) ++ rows /\
    ParentWake.ParentWake.batch s (s_lastSequence s) 4 rows;
  rs_sessions : db_sessions (core (codex d')) = update_where (inSession (w_workspaceId w) (w_sessionId w)) (requeuedRow now (s_lastSequence s + 4)) (db_sessions (core (codex d)));
  rs_goals : db_goals (core (codex d')) = update_where (goalIs (g_id g))
    (fun r => r <| g_lastContinuationTurnId := Some (t_id turn) |> <| g_versionAtLastContinuation := Some (g_version g) |> <| g_updatedAt := now |>) (db_goals (core (codex d)));
  rs_log : log_ok (core (codex d'));
  rs_waiter : w' = resumedRow now (t_id turn) (w_wakeRevision w) w /\
    waiters d' = update_where (fun r => waiterIs (w_id w) r && isWaiting r && (w_generation r =? w_generation w)) (resumedRow now (t_id turn) (w_wakeRevision w)) (waiters d)
}.

Lemma resume_spec now input diagnostic w s g b d :
  log_ok (core (codex d)) -> evaluated input w s g b d -> s_activeTurnId s = None ->
  exists w' turn evs d', resume now diagnostic w s g b d = Ok (Resumed w' turn evs, d') /\ resumedTo now w s g b w' turn evs d d'.
Proof.
  intros Hlog He Hact. destruct (evaluated_waiter _ _ _ _ _ _ He) as (Hwin & _ & Hww & Hws).
  destruct (find_account_session _ _ _ _ _ Hlog (ev_session _ _ _ _ _ _ He)) as (Hfs & Hsin & _ & Hsw & Hsi). rewrite <- Hww, <- Hws in *.
  unfold resume. destruct (insert_plain (core (codex d)) s (s_lastSequence s) now [continuationEvent w g]) as (rows1 & c1 & Hi1).
  { intros e Hin Ho. by apply (log_ok_bound (core (codex d))). }
  { by repeat constructor. }
  rewrite Hi1. pose proof (ParentWake.ParentWake.insert_batch _ _ _ _ _ _ _ Hi1) as (Hb1 & He1 & Hs1 & Ht1 & Hg1 & Hf1).
  set (trigger := match rows1 with [] => _ | _ => _ end). set (turn := resumeTurn now w s g b trigger c1). cbv zeta.
  set (c2 := (c1 <| db_turns ::= _ |>) <| db_fresh ::= S |>).
  destruct (insert_plain c2 s (s_lastSequence s + 1) now (resumeEvents w g diagnostic (t_id turn) trigger)) as (rows2 & c3 & Hi2).
  { intros e Hin Ho. change (db_events c2) with (db_events c1) in Hin. rewrite He1 in Hin. apply elem_of_app in Hin as [Hin|Hin].
    - pose proof (log_ok_bound (core (codex d)) s e Hlog Hsin Hin Ho). lia.
    - destruct Hb1 as (_ & Hq & _). assert (Hin' : e_sequence e ∈ List.map e_sequence rows1) by (by apply list_elem_of_In, in_map, list_elem_of_In).
      rewrite Hq in Hin'. apply elem_of_seqZ in Hin'. cbn in Hin'. lia. }
  { by repeat constructor. }
  rewrite Hi2. pose proof (ParentWake.ParentWake.insert_batch _ _ _ _ _ _ _ Hi2) as (Hb2 & He2 & Hs2 & Ht2 & Hg2 & Hf2).
  pose proof (ParentWake.ParentWake.batch_app s (s_lastSequence s) 1 3 rows1 rows2 Hb1 Hb2) as Hb.
  set (f := requeuedRow now (s_lastSequence s + 4)).
  assert (Hss : update_where (fun r => inSession (w_workspaceId w) (w_sessionId w) r && bool_decide (s_activeTurnId r = None)) f (db_sessions c3) =
    update_where (inSession (w_workspaceId w) (w_sessionId w)) f (db_sessions (core (codex d)))).
  { rewrite Hs2. change (db_sessions c2) with (db_sessions c1). rewrite Hs1. apply CodexSettle.CodexSettle.update_where_ext. intros r Hr.
    destruct (inSession _ _ r) eqn:E; [|done]. rewrite (session_unique _ _ _ s r Hlog Hsin Hr Hsi E), Hact. by rewrite bool_decide_eq_true_2. }
  eexists _, turn, _, _. split; [reflexivity|].
  assert (Hev : db_events c3 = db_events (core (codex d)) ++ rows1 ++ rows2).
  { rewrite He2. change (db_events c2) with (db_events c1). by rewrite He1, <- app_assoc. }
  split.
  - exists trigger, c1. split_and!; [by rewrite Ht1|lia|done|]. cbn. rewrite Hf2. cbn. lia.
  - cbn. rewrite Ht2. cbn. by rewrite Ht1.
  - exists (rows1 ++ rows2). by split_and!.
  - exact Hss.
  - cbn. rewrite Hg2. cbn. by rewrite Hg1.
  - eapply (ParentWake.ParentWake.log_ok_wake (core (codex d))); [done|exact Hfs|exact Hb|exact Hev|exact Hss|]. intros r. done.
  - done.
Qed.

Lemma reconcile_resumed now input decide filter d w' turn evs d' : log_ok (core (codex d)) ->
  reconcileCodexCapacityWait now input decide filter d = Ok (Resumed w' turn evs, d') ->
  exists w s g b, evaluated input w s g b d /\ supersedeReason w s g b (db_turns (core (codex d))) = None /\ resumedTo now w s g b w' turn evs d d'.
Proof.
  intros Hlog H. destruct (reconcile_cases _ _ _ _ _ _ _ H) as [[(x & Hx) _]|(w & s & g & b & He & [(reason & _ & Hs)|(Hn & [(reset & kind & Hs)|(diag & Hs)])])].
  - done.
  - unfold supersede in Hs. by destruct (insertEvents _ _) as [[rows c]|].
  - by unfold keepWaiting in Hs.
  - exists w, s, g, b. split; [done|]. split; [done|]. destruct (fence_open _ _ _ _ _ Hn) as (_ & _ & _ & _ & _ & Hact & _).
    destruct (resume_spec now input diag w s g b d Hlog He Hact) as (w1 & t1 & evs1 & d1 & E & Hto). rewrite E in Hs. by injection Hs as <- <- <- <-.
Qed.

Section resumed.
Context (now : Z) (input : ReconcileInput) (w : WaiterRow) (s : SessionRow) (g : GoalRow) (b : TurnRow).
Context (w' : WaiterRow) (turn : TurnRow) (evs : list SessionEvent) (d d1 : CapacityDb).
Context (Hlog : log_ok (core (codex d))) (Hturns : turns_ok (core (codex d))).
Context (He : evaluated input w s g b d) (Hn : supersedeReason w s g b (db_turns (core (codex d))) = None).
Context (Hto : resumedTo now w s g b w' turn evs d d1).
Abbreviation ws := (w_workspaceId w).
Abbreviation sid := (w_sessionId w).

Lemma resumed_turn : t_workspaceId turn = ws /\ t_sessionId turn = sid /\ t_status turn = T_queued /\
  t_metadata turn = continuationMetadata w g b /\ t_position turn = nextTurnPosition ws sid (core (codex d)) /\
  forall r, r ∈ db_turns (core (codex d)) -> t_id r <> t_id turn.
Proof using All.
  destruct (rs_turn _ _ _ _ _ _ _ _ _ _ Hto) as (trigger & c & Ht & Hf & -> & _). split_and!; try done.
  - cbn. unfold nextTurnPosition. by rewrite Ht.
  - intros r Hr. by apply (ids_fresh _ Hturns).
Qed.

Lemma resumed_turns_ok : turns_ok (core (codex d1)).
Proof using All.
  destruct resumed_turn as (_ & _ & _ & _ & _ & Hne). destruct (rs_turn _ _ _ _ _ _ _ _ _ _ Hto) as (trigger & c & _ & Hf & Hte & Hlt).
  split; rewrite (rs_turns _ _ _ _ _ _ _ _ _ _ Hto).
  - rewrite map_app. apply NoDup_app. split_and!; [apply Hturns| |apply NoDup_singleton].
    intros i (r & <- & Hr%list_elem_of_In)%list_elem_of_In%in_map_iff Hi%list_elem_of_singleton. by eapply Hne.
  - intros n r Hle [Hr|Hr%list_elem_of_singleton]%elem_of_app; [apply (ids_fresh _ Hturns); [lia|done]|]. rewrite Hr, Hte. intros Hc%uuid_inj. lia.
Qed.

Lemma resumed_queue : queuedTurns ws sid (core (codex d1)) = [turn].
Proof using All.
  destruct resumed_turn as (Hw & Hs & Hst & _). destruct (fence_open _ _ _ _ _ Hn) as (_ & _ & _ & _ & _ & _ & _ & Hall).
  apply queue_unique; [apply resumed_turns_ok|by repeat constructor|].
  rewrite (rs_turns _ _ _ _ _ _ _ _ _ _ Hto). unfold select_where. rewrite List.filter_app.
  assert (List.filter (isQueued ws sid) (db_turns (core (codex d))) = []) as ->.
  { apply filter_none, Forall_forall. intros r Hr. apply not_true_iff_false. intros Hq. unfold isQueued in Hq. apply andb_true_iff in Hq as [Hq Hs'].
    destruct (Hall r Hr Hq) as [Hu _]. unfold unsettled, hasStatus in *. breflect. apply Hu. set_solver. }
  cbn. by rewrite (proj2 (isQueued_true ws sid turn)).
Qed.

Lemma resumed_session : exists r, List.find (inSession ws sid) (db_sessions (core (codex d1))) = Some r.
Proof using All.
  destruct (evaluated_waiter _ _ _ _ _ _ He) as (_ & _ & Hw & Hs). destruct (find_account_session _ _ _ _ _ Hlog (ev_session _ _ _ _ _ _ He)) as (Hf & _).
  rewrite <- Hw, <- Hs in Hf. rewrite (rs_sessions _ _ _ _ _ _ _ _ _ _ Hto), find_update_where by done. rewrite Hf. by eexists.
Qed.

(** The claimed continuation passes its own validation. *)
Lemma resumed_valid later wf t c : claimNextQueuedTurn later ws sid wf (core (codex d1)) = (Some t, c) -> forall later',
  validateCodexCapacityResumeTurn later' {| v_workspaceId := ws; v_sessionId := sid; v_turnId := t_id turn; v_waiterId := w_id w; v_generation := w_generation w |}
    (setCore c d1) = Ok (true, [], setCore c d1).
Proof using All.
  unfold claimNextQueuedTurn. destruct resumed_session as [s1 Hs1]. rewrite Hs1, resumed_queue. cbv zeta. set (claim := fun r : TurnRow => _).
  intros [= _ <-] later'. unfold validateCodexCapacityResumeTurn. cbv zeta. cbn [v_workspaceId v_sessionId v_turnId v_waiterId v_generation].
  destruct resumed_turn as (Hw & Hs & Hst & Hmeta & _ & Hne). destruct (fence_open _ _ _ _ _ Hn) as (Hga & Hgv & Hcg & Hph & _ & _ & _ & Hall).
  destruct (evaluated_waiter _ _ _ _ _ _ He) as (Hwin & Hwid & Hww & Hws). destruct (rs_waiter _ _ _ _ _ _ _ _ _ _ Hto) as [_ Hwu].
  match goal with |- context [setCore ?cc d1] => set (c := cc) end.
  assert (Hfw : List.find (fun r => waiterIs (w_id w) r && waiterOf ws sid r) (waiters (setCore c d1)) = Some (resumedRow now (t_id turn) (w_wakeRevision w) w)).
  { change (waiters (setCore c d1)) with (waiters d1). rewrite Hwu, find_update_where by done.
    pose proof (ev_waiter _ _ _ _ _ _ He) as Hf. rewrite <- Hww, <- Hws, <- Hwid in Hf. rewrite Hf. cbn [fmap option_fmap option_map].
    by rewrite (proj2 (waiterIs_true _ _)), (proj2 (isWaiting_true _)), Z.eqb_refl by (done || apply He). }
  assert (Hfs : List.find (inSession ws sid) (db_sessions (core (codex (setCore c d1)))) = Some (setActive later S_running (Some (t_id turn)) s1)).
  { cbn. rewrite find_update_where by done. rewrite Hs1. cbn. pose proof (find_some _ _ Hs1) as [_ ->]. done. }
  assert (Hfg : exists g', List.find (goalFor ws (w_goalId w) sid) (db_goals (core (codex (setCore c d1)))) = Some g' /\ g_status g' = G_active /\ g_version g' = w_goalVersion w).
  { cbn. rewrite (rs_goals _ _ _ _ _ _ _ _ _ _ Hto), find_update_where by done. pose proof (ev_goal _ _ _ _ _ _ He) as Hf. rewrite <- Hww, <- Hws in Hf.
    rewrite Hf. eexists. split; [reflexivity|]. cbn. by destruct (goalIs _ g). }
  assert (Hft : List.find (turnOfSession ws (t_id turn) sid) (db_turns (core (codex (setCore c d1)))) = Some (claim turn)).
  { cbn. rewrite find_update_where by done. rewrite (find_key t_id _ _ turn); [|apply resumed_turns_ok| | |].
    - cbn. by rewrite (proj2 (turnIs_true _ _ _)).
    - rewrite (rs_turns _ _ _ _ _ _ _ _ _ _ Hto). apply elem_of_app. right. by apply list_elem_of_singleton.
    - by apply turnOfSession_true.
    - by intros y _ (_ & Hy & _)%turnOfSession_true. }
  rewrite Hfw, Hfs. cbn [w_goalId resumedRow]. destruct Hfg as (g' & Hfg & Hg1 & Hg2).
  match goal with |- context [List.find (goalFor ?a ?x ?y) _] => change x with (w_goalId w) end.
  rewrite Hfg, Hft.
  assert (validResume {| v_workspaceId := ws; v_sessionId := sid; v_turnId := t_id turn; v_waiterId := w_id w; v_generation := w_generation w |}
    (setActive later S_running (Some (t_id turn)) s1) g' (claim turn) (resumedRow now (t_id turn) (w_wakeRevision w) w) (db_turns (core (codex (setCore c d1)))) = true) as ->; [|done].
  unfold validResume. cbn [v_workspaceId v_sessionId v_turnId v_generation]. rewrite !andb_true_iff, !bool_decide_eq_true, !Z.eqb_eq. split_and!; try done.
  - apply negb_true_iff, not_true_iff_false. intros (r & Hr%list_elem_of_In & Hp)%existsb_exists. apply elem_of_update_where in Hr as (x & Hx & ->).
    rewrite (rs_turns _ _ _ _ _ _ _ _ _ _ Hto) in Hx. apply elem_of_app in Hx as [Hx|Hx%list_elem_of_singleton].
    + assert (turnIs ws (t_id turn) x = false) as E. { apply not_true_iff_false. intros [_ Hi]%turnIs_true. by eapply Hne. } rewrite E in Hp. breflect.
      destruct (Hall x Hx) as [Hu _]; [done|congruence].
    + subst x. rewrite (proj2 (turnIs_true _ _ _)) in Hp by done. breflect. done.
  - cbn. unfold controlGenerationOf in *. rewrite Hmeta, continuation_inherits by set_solver. exact Hcg.
  - cbn. unfold policyHashOf in *. rewrite Hmeta, continuation_inherits by set_solver. exact Hph.
Qed.
End resumed.

(** A resume happens only on an idle session with no unsettled turn, with
    the goal and the accepted policy as they were when the wait was armed; it
    queues exactly one turn, behind every turn, with fresh execution budgets,
    and its four events are the session's next. That turn is what the session
    claims next, and once claimed it passes its own validation. *)
Theorem resume_runs now input decide filter d w' turn evs d1 :
  log_ok (core (codex d)) -> turns_ok (core (codex d)) ->
  reconcileCodexCapacityWait now input decide filter d = Ok (Resumed w' turn evs, d1) ->
  log_ok (core (codex d1)) /\ turns_ok (core (codex d1)) /\
  (forall r, r ∈ db_turns (core (codex d)) -> turnOf (c_workspaceId input) (c_sessionId input) r = true ->
     unsettled r = false /\ t_position r < t_position turn) /\
  (exists s, List.find (inSession (c_workspaceId input) (c_sessionId input)) (db_sessions (core (codex d))) = Some s /\
     s_status s = S_idle /\ s_activeTurnId s = None /\ List.map ev_sequence evs = seqZ (s_lastSequence s + 1) 4) /\
  (exists g, List.find (goalFor (c_workspaceId input) (w_goalId w') (c_sessionId input)) (db_goals (core (codex d))) = Some g /\
     g_status g = G_active /\ g_version g = w_goalVersion w') /\
  policyHashOf (t_metadata turn) = w_policyHash w' /\ controlGenerationOf (t_metadata turn) = w_controlGeneration w' /\
  workerDeathRedispatches turn = 0 /\ CodexSettle.CodexSettle.failoversOf (t_metadata turn) = 0 /\
  forall later wf, exists t c, claimNextQueuedTurn later (c_workspaceId input) (c_sessionId input) wf (core (codex d1)) = (Some t, c) /\
    t_id t = t_id turn /\
    forall later', validateCodexCapacityResumeTurn later' {| v_workspaceId := c_workspaceId input; v_sessionId := c_sessionId input;
        v_turnId := t_id turn; v_waiterId := c_waiterId input; v_generation := c_generation input |} (setCore c d1) = Ok (true, [], setCore c d1).
Proof.
  intros Hlog Hturns H. destruct (reconcile_resumed _ _ _ _ _ _ _ _ _ Hlog H) as (w & s & g & b & He & Hn & Hto). clear H.
  destruct (evaluated_waiter _ _ _ _ _ _ He) as (_ & Hid & Hw & Hs). pose proof (ev_generation _ _ _ _ _ _ He) as Hg.
  destruct (find_account_session _ _ _ _ _ Hlog (ev_session _ _ _ _ _ _ He)) as (Hfs & _). pose proof (ev_goal _ _ _ _ _ _ He) as Hgo.
  destruct (resumed_turn now input w s g b w' turn evs d d1 Hlog Hturns He Hn Hto) as (_ & _ & _ & Hm & Hpos & _).
  destruct (fence_open _ _ _ _ _ Hn) as (Hga & Hgv & Hcg & Hph & Hsi & Hsa & _ & Hall). destruct (rs_waiter _ _ _ _ _ _ _ _ _ _ Hto) as [-> _].
  rewrite <- Hw, <- Hs, <- Hid, <- Hg in *.
  split; [apply Hto|]. split; [by eapply resumed_turns_ok|]. split_and!.
  - intros r Hr Ht. split; [by apply Hall|]. rewrite Hpos. by apply nextTurnPosition_gt.
  - exists s. split_and!; [done..|]. destruct (rs_events _ _ _ _ _ _ _ _ _ _ Hto) as (rows & -> & _ & (_ & Hq & _)). by rewrite List.map_map.
  - by exists g.
  - unfold policyHashOf in *. by rewrite Hm, continuation_inherits by set_solver.
  - unfold controlGenerationOf in *. by rewrite Hm, continuation_inherits by set_solver.
  - unfold workerDeathRedispatches. by rewrite Hm, continuation_fresh by set_solver.
  - unfold CodexSettle.CodexSettle.failoversOf. by rewrite Hm, continuation_fresh by set_solver.
  - intros later wf. destruct (claimNextQueuedTurn later (w_workspaceId w) (w_sessionId w) wf (core (codex d1))) as [o c] eqn:Ec.
    assert (Hq : queuedTurns (w_workspaceId w) (w_sessionId w) (core (codex d1)) = [turn]) by by eapply resumed_queue.
    destruct (resumed_session _ _ _ _ _ _ _ _ _ _ _ Hlog Hturns He Hn Hto) as [s1 Hs1].
    pose proof Ec as Ec'. unfold claimNextQueuedTurn in Ec'. rewrite Hs1, Hq in Ec'. injection Ec' as <- _.
    eexists _, c. split; [reflexivity|]. split; [done|]. by eapply resumed_valid.
Qed.

(** ** Wakes are not lost *)

(** Steps that do not evaluate the waiter: anything but a reconciliation of it
    that answers, or a new arming of its session. *)
Inductive unevaluated (id : string) (d d' : CapacityDb) : Prop :=
| un_arm now input r : armCodexCapacityWait now input d = Ok (r, d') ->
    (forall x, x ∈ waiters d -> w_id x = id -> waiterOf (a_workspaceId input) (a_sessionId input) x = false) -> unevaluated id d d'
| un_reconcile now input decide filter r : reconcileCodexCapacityWait now input decide filter d = Ok (r, d') ->
    c_waiterId input <> id \/ (exists w, r = ReconcileStale w) -> unevaluated id d d'
| un_validate now input b evs : validateCodexCapacityResumeTurn now input d = Ok (b, evs, d') -> unevaluated id d d'
| un_mutation now ws reason policyHash (mutate : CodexDb -> unit * bool * CodexDb) r targets :
    (forall x, db_fresh (core x) <= db_fresh (core (mutate x).2))%nat ->
    withCodexCapacityMutation now ws reason policyHash mutate d = (r, targets, d') -> unevaluated id d d'
| un_other : waiters d' = waiters d -> (db_fresh (core (codex d)) <= db_fresh (core (codex d')))%nat -> unevaluated id d d'.

(** The wake [t] is owed: its waiter still waits, with a revision nobody has
    looked at. *)
Definition owed (t : WakeTarget) (d : CapacityDb) : Prop :=
  exists r, r ∈ waiters d /\ w_id r = tg_waiterId t /\ w_workspaceId r = tg_workspaceId t /\ w_generation r = tg_generation t /\
    w_status r = waiting /\ w_observedWakeRevision r < w_wakeRevision r /\ tg_wakeRevision t <= w_wakeRevision r.

Lemma reconcile_stale now input decide filter d w d' : reconcileCodexCapacityWait now input decide filter d = Ok (ReconcileStale w, d') -> d' = d.
Proof.
  intros H. destruct (reconcile_cases _ _ _ _ _ _ _ H) as [[_ ->]|(y & s & g & b & _ & [(reason & _ & Hs)|(_ & [(reset & kind & Hs)|(diag & Hs)])])].
  - done.
  - unfold supersede in Hs. by destruct (insertEvents _ _) as [[rows c]|].
  - by unfold keepWaiting in Hs.
  - unfold resume in Hs. destruct (insertEvents _ (core (codex d))) as [[first c]|]; [|done]. cbv zeta in Hs. by destruct (insertEvents _ _) as [[rows c2]|].
Qed.

Lemma owed_kept t d d' : waiters_ok d -> owed t d -> unevaluated (tg_waiterId t) d d' -> waiters_ok d' /\ owed t d'.
Proof.
  intros Hok (r & Hr & Hid & Hws & Hg & Hst & Hob & Hrev) H.
  assert (Hu : forall p f, (db_fresh (core (codex d)) <= db_fresh (core (codex d')))%nat -> waiters d' = update_where p f (waiters d) ->
    (forall x, x ∈ waiters d -> p x = true -> keeps x (f x)) ->
    (p r = true -> w_status (f r) = waiting /\ w_observedWakeRevision (f r) < w_wakeRevision (f r)) -> waiters_ok d' /\ owed t d').
  { intros p f Hf Hw Hk Hpr. split; [eapply waiters_ok_updated; [exact Hok|]; split; [done|by exists p, f]|].
    exists (if p r then f r else r). split; [rewrite Hw; apply elem_of_update_where; by exists r|].
    destruct (p r) eqn:E; [|by split_and!]. specialize (Hk r Hr E). destruct (Hpr eq_refl) as [? ?], (kp_session _ _ Hk) as [? _].
    pose proof (kp_wake _ _ Hk). rewrite (kp_id _ _ Hk), (kp_generation _ _ Hk). split_and!; try congruence; lia. }
  destruct H as [now input x H Ho|now input decide filter x H Ho|now input b evs H|now ws reason ph mutate x targets Hm H|Hw Hf].
  - destruct (arm_upserts _ _ _ _ _ H) as [->|(u & w & d0 & Hup & Hw & Hfr)]; [split; [done|by exists r; split_and!]|].
    split; [by eapply arm_step|]. exists r. split_and!; try done. rewrite Hw. clear H. pose proof (Ho r Hr Hid) as Hno.
    destruct (List.find _ (waiters d)) as [y|] eqn:Ey; cbn in Hup; injection Hup as _ <-; cbn.
    + apply elem_of_update_where. exists r. split; [done|]. destruct (waiterIs (w_id y) r) eqn:E; [exfalso|done].
      apply waiterIs_true in E. apply find_some in Ey as [Hy%list_elem_of_In Hyo]. rewrite (waiters_ok_id d r y) in Hno by done. congruence.
    + apply elem_of_app. by left.
  - destruct Ho as [Ho|[w0 ->]]; [|rewrite (reconcile_stale _ _ _ _ _ _ _ H); split; [done|by exists r; split_and!]].
    destruct (reconcile_waiters _ _ _ _ _ _ _ Hok H) as [[_ ->]|(p & f & Hf & Hw & Hk & _)]; [split; [done|by exists r; split_and!]|].
    apply (Hu p f); [done|done|intros y Hy Hpy; by apply Hk|]. intros Hpr. exfalso. destruct (Hk r Hr Hpr) as (_ & Hc & _). congruence.
  - destruct (validate_waiters _ _ _ _ _ _ Hok H) as (p & f & Hf & Hw & Hk). apply (Hu p f); [done|done|intros y Hy Hpy; by apply Hk|].
    intros Hpr. destruct (Hk r Hr Hpr) as (_ & Hc & _). congruence.
  - destruct (mutation_waiters _ _ _ _ _ _ _ _ _ Hok Hm H) as (p & Hf & Hw & _ & _). apply (Hu p (woken now reason)); [done|done| |].
    + intros y Hy _. by apply woken_keeps, (wk_observed _ Hok).
    + intros _. split; [done|]. cbn. lia.
  - apply (Hu (fun _ => false) (fun x => x)); try done. by rewrite update_where_none.
Qed.

(** No wake is lost: a waiter a capacity change woke stays listed for
    delivery, under its generation and at least that revision, through any
    other transactions, lost or repeated signals included, until a
    reconciliation evaluates it (or its session arms anew). *)
Theorem wake_kept now ws reason policyHash (mutate : CodexDb -> unit * bool * CodexDb) d r targets d1 d2 t :
  waiters_ok d -> (forall x, db_fresh (core x) <= db_fresh (core (mutate x).2))%nat ->
  withCodexCapacityMutation now ws reason policyHash mutate d = (r, targets, d1) -> t ∈ targets ->
  rtc (unevaluated (tg_waiterId t)) d1 d2 ->
  exists t' : WakeTarget, t' ∈ listPendingCodexCapacityWakeTargets (tg_workspaceId t) d2 /\
    tg_waiterId t' = tg_waiterId t /\ tg_generation t' = tg_generation t /\ tg_wakeRevision t <= tg_wakeRevision t'.
Proof.
  intros Hok Hm H Ht Hs. destruct (mutation_waiters _ _ _ _ _ _ _ _ _ Hok Hm H) as (p & Hf & Hw & -> & Hp).
  apply list_elem_of_In, in_map_iff in Ht as (x' & <- & (x & <- & [Hx%list_elem_of_In Hpx]%filter_In)%in_map_iff).
  assert (Hok1 : waiters_ok d1).
  { eapply waiters_ok_updated; [exact Hok|]. split; [done|]. exists p, (woken now reason). split; [done|].
    intros y Hy _. by apply woken_keeps, (wk_observed _ Hok). }
  assert (Ho : owed (wakeTarget (woken now reason x)) d1).
  { exists (woken now reason x). specialize (Hp x Hpx). unfold concerned in Hp. apply andb_true_iff in Hp as [[_ Hwt%isWaiting_true]%andb_true_iff _].
    pose proof (wk_observed _ Hok x Hx). split_and!; try done; [|cbn; lia].
    rewrite Hw. apply elem_of_update_where. exists x. split; [done|]. by rewrite Hpx. }
  set (t := wakeTarget _) in *. clearbody t. clear -Hok1 Ho Hs.
  induction Hs as [d|d d1 d2 H _ IH].
  - destruct Ho as (y & Hy & Hid & Hwsy & Hg & Hst & Hob & Hrev). exists (wakeTarget y). split_and!; try done.
    unfold listPendingCodexCapacityWakeTargets. apply list_elem_of_In, in_map, list_elem_of_In, elem_of_select_where. split; [|done].
    unfold waiterIn, pendingWake. rewrite bool_decide_eq_true_2, (proj2 (isWaiting_true _)) by done. by apply Z.ltb_lt.
  - destruct (owed_kept _ _ _ Hok1 Ho H). by apply IH.
Qed.

(** Any next check lies ahead, and within the backoff bounds unless the reset
    time is authoritative. *)
Lemma refresh_bounds attempt : CODEX_CAPACITY_REFRESH_MIN_MS <= codexCapacityRefreshBackoffMs attempt <= CODEX_CAPACITY_REFRESH_MAX_MS.
Proof.
  unfold codexCapacityRefreshBackoffMs, CODEX_CAPACITY_REFRESH_MIN_MS, CODEX_CAPACITY_REFRESH_MAX_MS. cbv zeta.
  assert (1 <= 2 ^ (if 0 <? attempt then attempt else 0)); [|lia].
  change 1 with (2 ^ 0) at 1. apply Z.pow_le_mono_r; [lia|]. destruct (0 <? attempt) eqn:E; breflect; lia.
Qed.

Lemma next_check_ahead reset kind attempt now : let t := nextCodexCapacityCheckAt reset kind attempt now in
  now < t /\ (t <= now + CODEX_CAPACITY_REFRESH_MAX_MS \/ kind = authoritative /\ reset = Some t).
Proof.
  unfold nextCodexCapacityCheckAt. pose proof (refresh_bounds attempt). unfold CODEX_CAPACITY_REFRESH_MIN_MS in *.
  destruct kind, reset as [u|]; cbv zeta; try (split; [lia|by left; lia]).
  destruct (now <? u) eqn:E; breflect; (split; [lia|]); [by right|left; lia].
Qed.

(** ** Example *)

(** The session's turn runs for an active goal under a lease; no account can
    serve it, so it waits; an account recovers and the goal resumes. *)
Definition exampleGoal : GoalRow := {|
  g_id := "goal"; g_workspaceId := "w"; g_sessionId := "s1"; g_status := G_active; g_text := js "ship it"; g_successCriteria := None;
  g_evidence := None; g_rationale := None; g_pausedReason := None; g_createdBy := "user"; g_version := 1; g_autoContinuations := 0;
  g_noProgressStreak := 0; g_maxAutoContinuations := None; g_lastContinuationTurnId := None; g_versionAtLastContinuation := None;
  g_metadata := JObj []; g_createdAt := 0; g_updatedAt := 0 |}.
Definition exampleRunning : CapacityDb := {|
  codex := {|
    core := {|
      db_sessions := [(EventLog.exampleSession "s1") <| s_status := S_running |> <| s_activeTurnId := Some (uuid 0) |>];
      db_events := [];
      db_turns := [(CodexLease.exampleTurn (uuid 0)) <| t_accountId := "a"%string |> <| t_workspaceId := "w"%string |> <| t_sessionId := "s1"%string |>
                     <| t_metadata := [(js "workerDeathRedispatches", JNum 2)] |>];
      db_goals := [exampleGoal]; db_fresh := 1 |};
    credentials := [];
    settings := [CodexLease.exampleSettings <| st_accountId := "a"%string |> <| st_workspaceId := "w"%string |>];
    leases := [{| ls_accountId := "a"; ls_workspaceId := "w"; ls_credentialId := "c"; ls_turnId := uuid 0; ls_holderId := "h"; ls_generation := 1;
                  ls_leasedUntil := 5000; ls_updatedAt := 0 |}]; runStates := [] |};
  waiters := []; usageEvents := [] |}.
Definition exampleArm : ArmInput := {|
  a_accountId := "a"; a_workspaceId := "w"; a_sessionId := "s1"; a_turnId := uuid 0; a_workflowId := "wf"; a_goalId := "goal"; a_goalVersion := 1;
  a_controlGeneration := None; a_policyHash := None; a_earliestResetAt := Some 90000; a_resetKind := authoritative; a_failurePayload := [];
  a_runStateSaved := true; a_leaseFence := Some ("h"%string, 1); a_expectedRedispatches := Some 2 |}.
Definition exampleArmed : CapacityDb := match armCodexCapacityWait 1000 exampleArm exampleRunning with Ok (_, d) => d | Err _ => exampleRunning end.
Definition exampleReconcile : ReconcileInput := {|
  c_accountId := "a"; c_workspaceId := "w"; c_sessionId := "s1"; c_waiterId := uuid 1; c_generation := 1 |}.
Definition recovered (ctx : CodexRotation.SelectionContext) (s : SessionRow) (h : option jstr) : AvailabilityDecision := Available "c" JNull.

Lemma waiters_ok_nil d : waiters d = [] -> waiters_ok d.
Proof. intros H. split; rewrite H; try constructor; [intros n r _ Hr|intros r Hr]; by apply elem_of_nil in Hr. Qed.

Lemma exampleRunning_ok : log_ok (core (codex exampleRunning)).
Proof.
  split; [by apply (bool_decide_unpack _); vm_compute|]. intros r Hr. by apply list_elem_of_singleton in Hr as ->.
Qed.

Lemma exampleArmed_ok : log_ok (core (codex exampleArmed)) /\ waiters_ok exampleArmed.
Proof.
  unfold exampleArmed. destruct (arm_cases 1000 exampleArm exampleRunning exampleRunning_ok)
    as [[w E]|[(w & E & _)|(rot & s & g & t & w & rows & d & _ & _ & _ & _ & _ & E & Hto)]]; rewrite E.
  - by vm_compute in E.
  - by vm_compute in E.
  - split; [apply Hto|]. by eapply (arm_step 1000 exampleArm exampleRunning); [apply waiters_ok_nil|exact E].
Qed.

Lemma arm_atomic_witness :
  exists w evs, armCodexCapacityWait 1000 exampleArm exampleRunning = Ok (ArmWaiting w evs, exampleArmed) /\
    w_nextCheckAt w = 90000 /\ leases (codex exampleArmed) = [] /\
    armCodexCapacityWait 1001 exampleArm exampleArmed = Ok (ArmWaiting w [], exampleArmed).
Proof.
  destruct (arm_atomic 1000 exampleArm exampleRunning exampleRunning_ok) as (r & d' & E & _ & _ & H).
  - apply turns_ok_check; vm_compute; reflexivity.
  - apply waiters_ok_nil. reflexivity.
  - assert (d' = exampleArmed) as -> by (unfold exampleArmed; rewrite E; reflexivity).
    destruct r as [w evs|w]; [|vm_compute in E; discriminate]. exists w, evs. split; [exact E|].
    destruct evs as [|e evs]; [vm_compute in E; discriminate|]. destruct H as (_ & _ & _ & _ & _ & _ & H).
    split; [vm_compute in E; injection E as <- _; reflexivity|]. split; [vm_compute; reflexivity|apply H].
Defined.

(** Two timers fire: the second finds the wait over. *)
Lemma resume_once_witness :
  match reconcileCodexCapacityWait 2000 exampleReconcile recovered None exampleArmed with
  | Ok (Resumed _ _ _, d) => exists w, reconcileCodexCapacityWait 2001 exampleReconcile recovered None d = Ok (ReconcileStale w, d)
  | _ => False
  end.
Proof.
  destruct (reconcileCodexCapacityWait 2000 exampleReconcile recovered None exampleArmed) as [[r d]|] eqn:E; [|vm_compute in E; discriminate].
  assert (Hr : match r with Resumed _ _ _ => True | _ => False end) by (vm_compute in E; injection E as <- _; exact I).
  destruct r as [w|w turn evs|w evs|w]; try contradiction.
  apply (resume_once 2000 exampleReconcile recovered None exampleArmed (Resumed w turn evs) d d); [apply exampleArmed_ok|exact E|exact I|apply rtc_refl].
Defined.

Lemma resume_runs_witness :
  match reconcileCodexCapacityWait 2000 exampleReconcile recovered None exampleArmed with
  | Ok (Resumed _ turn evs, d) => List.map ev_sequence evs = [4; 5; 6; 7] /\ workerDeathRedispatches turn = 0 /\
      exists t c, claimNextQueuedTurn 3000 "w" "s1" "wf" (core (codex d)) = (Some t, c) /\ t_id t = t_id turn
  | _ => False
  end.
Proof.
  destruct (reconcileCodexCapacityWait 2000 exampleReconcile recovered None exampleArmed) as [[r d]|] eqn:E; [|vm_compute in E; discriminate].
  assert (Hr : match r with Resumed _ _ evs => List.map ev_sequence evs = [4; 5; 6; 7] | _ => False end) by (vm_compute in E; injection E as <- _; reflexivity).
  destruct r as [w|w turn evs|w evs|w]; try contradiction. split; [exact Hr|].
  destruct (resume_runs 2000 exampleReconcile recovered None exampleArmed w turn evs d) as (_ & _ & _ & _ & _ & _ & _ & Hb & _ & Hc);
    [apply exampleArmed_ok|apply turns_ok_check; vm_compute; reflexivity|exact E|]. split; [exact Hb|].
  destruct (Hc 3000 "wf"%string) as (t & c & H1 & H2 & _). exists t, c. split; [exact H1|exact H2].
Defined.

Definition noMutation (x : CodexDb) : unit * bool * CodexDb := (tt, true, x).
Lemma wake_kept_witness :
  match withCodexCapacityMutation 1500 "w" "credential_enabled" None noMutation exampleArmed with
  | (_, [t], d) => tg_wakeRevision t = 2 /\ exists t' : WakeTarget, t' ∈ listPendingCodexCapacityWakeTargets "w" d /\ tg_waiterId t' = uuid 1
  | _ => False
  end.
Proof.
  destruct (withCodexCapacityMutation 1500 "w" "credential_enabled" None noMutation exampleArmed) as [[r targets] d] eqn:E.
  destruct targets as [|t [|]]; [vm_compute in E; discriminate| |vm_compute in E; discriminate].
  assert (Ht : tg_wakeRevision t = 2 /\ tg_workspaceId t = "w"%string /\ tg_waiterId t = uuid 1) by (vm_compute in E; injection E as _ <- _; vm_compute; auto).
  destruct Ht as (Hr & Hw & Hi). split; [exact Hr|].
  destruct (wake_kept 1500 "w" "credential_enabled" None noMutation exampleArmed r [t] d d t) as (t' & Hin & Hid & _).
  - apply exampleArmed_ok.
  - intros x. reflexivity.
  - exact E.
  - by left.
  - apply rtc_refl.
  - exists t'. rewrite Hw in Hin. rewrite Hi in Hid. split; [exact Hin|exact Hid].
Defined.

(** The last fence looks for a newer turn by position.  A user's turn that ran
    to its end supersedes the wait; had the user reordered the queue before it
    ran, which numbers queued turns from 1, it would not be seen. *)
Definition ranOneTurn (reorder : bool) : CapacityDb :=
  let (t, c) := enqueueSessionTurn 1100 (exampleTurnInput false false) (core (codex exampleArmed)) in
  let c := if reorder then match reorderQueuedSessionTurns 1150 "w" "s1" [t_id t] c with Ok (_, c) => c | Err _ => c end else c in
  let c := (claimNextQueuedTurn 1200 "w" "s1" "wf" c).2 in
  let c := finishTurn 1300 "w" (t_id t) (ATurn T_completed) c in
  setCore (setSessionStatus 1301 "w" "s1" S_idle (Some None) c) exampleArmed.
Example reorder_hides_newer_turn :
  match reconcileCodexCapacityWait 2000 exampleReconcile recovered None (ranOneTurn false),
        reconcileCodexCapacityWait 2000 exampleReconcile recovered None (ranOneTurn true) with
  | Ok (Superseded w _, _), Ok (Resumed _ _ _, _) => w_lastWakeReason w = "newer_turn_exists"%string
  | _, _ => False
  end.
Proof. vm_compute. reflexivity. Qed.
End CapacityWait.
