(* ===== verification/ControlRpc.v ===== *)
(** * The control plane of a connected machine
      ([packages/runtime/src/sandbox/selfhosted/control-rpc.ts, retry-policy.ts, session.ts])

    A sandbox op is a request to the user's enrolled machine.  The transport
    turns every fault into an [AgentError]; [agentErrorToControlError] maps it to
    the runtime's taxonomy; [decideSelfhostedRetry] says whether the op may be
    issued again; [SelfhostedSession.call] is the loop that obeys it.  What the
    machine answers is a script: the reply of every attempt. *)
From Stdlib Require Import QArith Qround Qminmax.
From stdpp Require Import pretty.
From S2P Require Import Prelude Json.
#[local] Open Scope Z_scope.
#[local] Open Scope opengeni_scope.

Module ControlRpc.

(** ** Errors *)

Inductive ErrorCode := E_UNSPECIFIED | E_UNSUPPORTED | E_OS | E_NOT_FOUND | E_CONSENT_REQUIRED | E_TIMEOUT | E_DRAINING
| E_PROTOCOL | E_STREAM | E_AGENT_OFFLINE | E_FENCED | E_PAYLOAD_TOO_LARGE.
#[export] Instance ErrorCode_eq_dec : EqDecision ErrorCode.
Proof. solve_decision. Defined.

Definition codeNumber (c : ErrorCode) : Z :=
  match c with
  | E_UNSPECIFIED => 0 | E_UNSUPPORTED => 1 | E_OS => 2 | E_NOT_FOUND => 3 | E_CONSENT_REQUIRED => 4 | E_TIMEOUT => 5
  | E_DRAINING => 6 | E_PROTOCOL => 7 | E_STREAM => 8 | E_AGENT_OFFLINE => 9 | E_FENCED => 10 | E_PAYLOAD_TOO_LARGE => 11
  end.

Definition Detail := list (jstr * jstr).

Record AgentError := { ae_code : ErrorCode; ae_message : jstr; ae_retryable : bool; ae_detail : Detail }.

Inductive Reason := agent_offline | agent_reconnecting | consent_required | display_unavailable.
#[export] Instance Reason_eq_dec : EqDecision Reason.
Proof. solve_decision. Defined.

Record ControlError := {
  ce_message : jstr;
  ce_code : ErrorCode;
  ce_reason : option Reason;
  ce_retryable : bool;
  ce_fenced : bool;
  ce_draining : bool;
  ce_agentOffline : bool;
  ce_osNotFound : bool;
  ce_payloadTooLarge : bool;
  ce_neverSent : bool;
  ce_detail : Detail
}.
#[export] Instance etaControlError : Settable ControlError := fun e =>
  Build_ControlError (ce_message e) (ce_code e) (ce_reason e) (ce_retryable e) (ce_fenced e) (ce_draining e)
    (ce_agentOffline e) (ce_osNotFound e) (ce_payloadTooLarge e) (ce_neverSent e) (ce_detail e).

(** The constructor's defaults. *)
Definition controlError (message : jstr) (code : ErrorCode) (reason : option Reason) (retryable : bool) (detail : Detail) : ControlError := {|
  ce_message := message; ce_code := code; ce_reason := reason; ce_retryable := retryable; ce_fenced := false; ce_draining := false;
  ce_agentOffline := false; ce_osNotFound := false; ce_payloadTooLarge := false; ce_neverSent := false; ce_detail := detail |}.

Definition showNum (n : Z) : jstr := js (pretty n).
Definition orElse (a b : jstr) : jstr := match a with [] => b | _ => a end.
Definition text (k : string) (detail : Detail) : option jstr := assoc (js k) detail.
(** [detail.k] as a condition: absent and empty are falsy. *)
Definition truthy (v : option jstr) : bool := match v with Some (_ :: _) => true | _ => false end.

Definition NEVER_SENT_DETAIL_KEY : string := "_never_sent".

Definition payloadTooLargeMessage (detail : Detail) : jstr :=
  (if truthy (text "encoded_bytes" detail) && truthy (text "max_payload" detail)
   then js "The result was " ++ default [] (text "encoded_bytes" detail) ++ js " bytes, over the machine link's "
        ++ default [] (text "max_payload" detail) ++ js "-byte per-message limit. "
   else js "The result was larger than the machine link can deliver in a single message. ")
  ++ js "Redirect the command's output to a file (for example " ++ js "`<command> > /tmp/out.log 2>&1`) and then read that file back in ranges or chunks "
  ++ js "instead of returning it all at once.".

Definition drainingMessage (retries : Z) : jstr :=
  js "The machine is at its concurrent-work capacity and could not accept this command."
  ++ (if 0 <? retries
      then js " It was retried " ++ showNum retries ++ js " time" ++ (if retries =? 1 then [] else js "s") ++ js " first."
      else [])
  ++ js " Try again shortly, or reduce the number of commands you run in parallel.".

Definition agentErrorToControlError (err : AgentError) : ControlError :=
  let message := orElse (ae_message err) (js "agent error (" ++ showNum (codeNumber (ae_code err)) ++ js ")") in
  let detail := ae_detail err in
  let base := controlError message (ae_code err) None (ae_retryable err) detail in
  match ae_code err with
  | E_AGENT_OFFLINE =>
      (controlError message E_AGENT_OFFLINE (Some agent_offline) false detail)
        <| ce_agentOffline := true |> <| ce_neverSent := bool_decide (text NEVER_SENT_DETAIL_KEY detail = Some (js "1")) |>
  | E_TIMEOUT => controlError message E_TIMEOUT (Some agent_reconnecting) true detail
  | E_CONSENT_REQUIRED => controlError message E_CONSENT_REQUIRED (Some consent_required) false detail
  | E_DRAINING => (controlError (drainingMessage 0) E_DRAINING None true detail) <| ce_draining := true |>
  | E_PAYLOAD_TOO_LARGE => (controlError (payloadTooLargeMessage detail) E_PAYLOAD_TOO_LARGE None false detail) <| ce_payloadTooLarge := true |>
  | E_FENCED => (controlError message E_FENCED None true detail) <| ce_fenced := true |>
  | E_NOT_FOUND => base <| ce_osNotFound := true |>
  | _ => base
  end.

(** [{ ...detail, k: v }] *)
Fixpoint setText (k v : jstr) (detail : Detail) : Detail :=
  match detail with
  | [] => [(k, v)]
  | (k', v') :: rest => if bool_decide (k = k') then (k, v) :: rest else (k', v') :: setText k v rest
  end.

Definition drainingExhaustedError (base : ControlError) (retries : Z) : ControlError :=
  (controlError (drainingMessage retries) (ce_code base) (ce_reason base) (ce_retryable base)
     (setText (js "retries") (showNum retries) (ce_detail base)))
    <| ce_draining := ce_draining base |>.

(** [fault-rendering.ts]: the class a fault is counted under. *)
Definition selfhostedFaultClass (e : ControlError) : string :=
  if ce_agentOffline e || bool_decide (ce_code e = E_AGENT_OFFLINE) then "offline"
  else if ce_draining e then "draining"
  else if ce_payloadTooLarge e || bool_decide (ce_code e = E_PAYLOAD_TOO_LARGE) then "payload_too_large"
  else if bool_decide (ce_reason e = Some agent_reconnecting) then "reconnecting"
  else if bool_decide (ce_reason e = Some consent_required) then "consent"
  else if ce_osNotFound e || bool_decide (ce_code e = E_NOT_FOUND) then "not_found"
  else if ce_fenced e || bool_decide (ce_code e = E_FENCED) then "fenced"
  else match ce_code e with E_OS => "os" | E_STREAM => "stream" | E_PROTOCOL => "protocol" | _ => "unspecified" end.

(** ** The transport *)

Definition offlineAgentError (message : jstr) (neverSent : bool) : AgentError := {|
  ae_code := E_AGENT_OFFLINE; ae_message := message; ae_retryable := false;
  ae_detail := if neverSent then [(js NEVER_SENT_DETAIL_KEY, js "1")] else [] |}.
Definition timeoutAgentError (message : jstr) : AgentError := {|
  ae_code := E_TIMEOUT; ae_message := message; ae_retryable := true; ae_detail := [] |}.

(** A thrown value: its [code] if that is a string, and its message. *)
Record Thrown := { th_code : option jstr; th_message : jstr }.

Definition lower (c : Z) : Z := if (65 <=? c) && (c <=? 90) then c + 32 else c.
Fixpoint startsWith (needle s : jstr) : bool :=
  match needle, s with
  | [], _ => true
  | c :: needle, d :: s => (c =? lower d) && startsWith needle s
  | _, [] => false
  end.
(** [/needle/i.test(s)] for a lower-case ASCII needle. *)
Fixpoint mentions (needle : string) (s : jstr) : bool :=
  startsWith (js needle) s || match s with _ :: s' => mentions needle s' | [] => false end.

Definition isNoRespondersError (e : Thrown) : bool :=
  bool_decide (th_code e = Some (js "503")) || mentions "no responders" (th_message e) || mentions "503" (th_message e).
Definition isRequestTimeoutError (e : Thrown) : bool :=
  match th_code e with Some c => mentions "timeout" c | None => false end
  || mentions "timeout" (th_message e) || mentions "timed out" (th_message e).

Section transport.
Context {R : Type}.

Record ControlResponse := { cr_requestId : string; cr_error : option AgentError; cr_result : option R }.

Definition offlineControlResponse (requestId : string) (neverSent : bool) : ControlResponse := {|
  cr_requestId := requestId; cr_error := Some (offlineAgentError (js "no agent responded (offline)") neverSent); cr_result := None |}.
Definition timeoutControlResponse (requestId : string) : ControlResponse := {|
  cr_requestId := requestId; cr_error := Some (timeoutAgentError (js "the agent did not respond in time")); cr_result := None |}.

(** What a request meets: whether a dial succeeds, and what the exchange on the
    connection gives (a decoded reply, or whatever [request] or [decode] threw). *)
Inductive Exchange := Replied (reply : ControlResponse) | Threw (e : Thrown).

(** [NatsControlRpc.request], and whether a connection is cached afterwards. *)
Definition natsRequest (cached dial : bool) (requestId : string) (exchange : Exchange) : ControlResponse * bool :=
  if negb (cached || dial) then (offlineControlResponse requestId true, false)
  else
    match exchange with
    | Replied reply => (reply, true)
    | Threw e =>
        if isNoRespondersError e then (offlineControlResponse requestId true, true)
        else if isRequestTimeoutError e then (timeoutControlResponse requestId, true)
        else (offlineControlResponse requestId false, false)
    end.
End transport.
Arguments ControlResponse : clear implicits.
Arguments Exchange : clear implicits.

(** ** The retry policy *)

Definition SELFHOSTED_IDEMPOTENT_READONLY_OPS : list string := ["ping"; "metrics"; "fsStat"; "fsList"; "fsRead"]%string.
Definition readOnly (opKind : string) : bool := bool_decide (opKind ∈ SELFHOSTED_IDEMPOTENT_READONLY_OPS).
Definition SELFHOSTED_DRAINING_MAX_RETRIES : Z := 3.
Definition SELFHOSTED_EXEC_DRAINING_MAX_RETRIES : Z := 10.
Definition SELFHOSTED_TIMEOUT_MAX_RETRIES : Z := 1.
Definition SELFHOSTED_NEVER_SENT_MAX_RETRIES : Z := 3.
Definition SELFHOSTED_RETRY_BACKOFF_BASE_MS : Z := 500.
Definition SELFHOSTED_RETRY_BACKOFF_FACTOR : Z := 2.
Definition SELFHOSTED_RETRY_BACKOFF_CAP_MS : Z := 8000.

(** The jitter is a rational; the product is exact. *)
Definition backoffCeiling (attempt : Z) : Z :=
  Z.min SELFHOSTED_RETRY_BACKOFF_CAP_MS (SELFHOSTED_RETRY_BACKOFF_BASE_MS * SELFHOSTED_RETRY_BACKOFF_FACTOR ^ attempt).
Definition selfhostedRetryBackoffMs (attempt : Z) (jitter : Q) : Z :=
  let clampedJitter := Qmin (999999 # 1000000) (Qmax 0 jitter) in
  Qfloor (clampedJitter * inject_Z (backoffCeiling attempt)).

Record Budgets := { drainingRetries : Z; timeoutRetries : Z; neverSentRetries : Z }.
#[export] Instance etaBudgets : Settable Budgets := fun b =>
  Build_Budgets (drainingRetries b) (timeoutRetries b) (neverSentRetries b).

Definition maxDrainingRetries (opKind : string) : Z :=
  if String.eqb opKind "exec" then SELFHOSTED_EXEC_DRAINING_MAX_RETRIES else SELFHOSTED_DRAINING_MAX_RETRIES.

(** [None] is the decision to fail, [Some delayMs] to retry. *)
Definition decideSelfhostedRetry (opKind : string) (error : ControlError) (b : Budgets) (jitter : Q) : option Z :=
  if ce_neverSent error then
    if SELFHOSTED_NEVER_SENT_MAX_RETRIES <=? neverSentRetries b then None
    else Some (selfhostedRetryBackoffMs (neverSentRetries b) jitter)
  else if ce_draining error then
    if maxDrainingRetries opKind <=? drainingRetries b then None
    else Some (selfhostedRetryBackoffMs (drainingRetries b) jitter)
  else if bool_decide (ce_reason error = Some agent_reconnecting) then
    if negb (readOnly opKind) then None
    else if SELFHOSTED_TIMEOUT_MAX_RETRIES <=? timeoutRetries b then None
    else Some (selfhostedRetryBackoffMs (timeoutRetries b) jitter)
  else None.

(** ** The call loop *)

Definition emptyResponse : AgentError := {|
  ae_code := E_PROTOCOL; ae_message := js "agent returned an empty control response"; ae_retryable := false; ae_detail := [] |}.

(** The counter of the class that was retried. *)
Definition spend (error : ControlError) (b : Budgets) : Budgets :=
  if ce_neverSent error then b <| neverSentRetries ::= Z.succ |>
  else if ce_draining error then b <| drainingRetries ::= Z.succ |>
  else b <| timeoutRetries ::= Z.succ |>.
Definition retriesOf (b : Budgets) : Z := drainingRetries b + timeoutRetries b + neverSentRetries b.

(** The observation, without the clock. *)
Record Observation := {
  ob_op : string;
  ob_ok : bool;
  ob_healed : bool;
  ob_retries : Z;
  ob_code : option ErrorCode;
  ob_reason : option Reason;
  ob_neverSent : option bool;
  ob_faultClass : option string
}.
Definition healedClass (b : Budgets) : string :=
  if 0 <? neverSentRetries b then "offline" else if 0 <? drainingRetries b then "draining" else "reconnecting".
Definition observeOk (opKind : string) (b : Budgets) : Observation := {|
  ob_op := opKind; ob_ok := true; ob_healed := 0 <? retriesOf b; ob_retries := retriesOf b; ob_code := None; ob_reason := None;
  ob_neverSent := None; ob_faultClass := if 0 <? retriesOf b then Some (healedClass b) else None |}.
Definition observeFailed (opKind : string) (error : ControlError) (b : Budgets) : Observation := {|
  ob_op := opKind; ob_ok := false; ob_healed := false; ob_retries := retriesOf b; ob_code := Some (ce_code error);
  ob_reason := ce_reason error; ob_neverSent := Some (ce_neverSent error); ob_faultClass := Some (selfhostedFaultClass error) |}.

Section call.
Context {R : Type} (opKind : string).
(** The reply of attempt [i], and the jitter drawn after it. *)
Context (reply : nat -> ControlResponse R) (jitter : nat -> Q).

(** The answer of a reply: its result, or the mapped error. *)
Definition answer (res : ControlResponse R) : result ControlError R :=
  match cr_error res, cr_result res with
  | None, Some r => Ok r
  | Some e, _ => Err (agentErrorToControlError e)
  | None, None => Err (agentErrorToControlError emptyResponse)
  end.

Record CallResult := {
  cl_answer : result ControlError R;
  cl_attempts : nat;
  cl_slept : list Z;
  cl_observation : Observation
}.

(** Attempt [i], after the retries [b] and the sleeps [slept]. *)
Fixpoint callLoop (fuel : nat) (i : nat) (b : Budgets) (slept : list Z) : option CallResult :=
  match fuel with
  | O => None
  | S fuel =>
      match answer (reply i) with
      | Ok r => Some {| cl_answer := Ok r; cl_attempts := S i; cl_slept := slept; cl_observation := observeOk opKind b |}
      | Err error =>
          match decideSelfhostedRetry opKind error b (jitter i) with
          | None => Some {| cl_answer := Err (if ce_draining error && (0 <? drainingRetries b)
                                              then drainingExhaustedError error (drainingRetries b) else error);
                            cl_attempts := S i; cl_slept := slept; cl_observation := observeFailed opKind error b |}
          | Some delayMs => callLoop fuel (S i) (spend error b) (slept ++ [delayMs])
          end
      end
  end.

(** One attempt and at most one more for each unit of the three budgets. *)
Definition maxAttempts : nat :=
  Z.to_nat (1 + maxDrainingRetries opKind + SELFHOSTED_NEVER_SENT_MAX_RETRIES
            + if readOnly opKind then SELFHOSTED_TIMEOUT_MAX_RETRIES else 0).
Definition call : option CallResult :=
  callLoop maxAttempts 0 {| drainingRetries := 0; timeoutRetries := 0; neverSentRetries := 0 |} [].
End call.

(** ** Backoff *)

Lemma ceiling_pos attempt : 0 <= attempt -> 500 <= backoffCeiling attempt <= 8000.
Proof.
  intros H. unfold backoffCeiling, SELFHOSTED_RETRY_BACKOFF_CAP_MS, SELFHOSTED_RETRY_BACKOFF_BASE_MS, SELFHOSTED_RETRY_BACKOFF_FACTOR.
  pose proof (Z.pow_pos_nonneg 2 attempt ltac:(lia) H). lia.
Qed.

(** A delay is below its ceiling, whatever the jitter. *)
Lemma backoff_bounds attempt jitter : 0 <= attempt ->
  0 <= selfhostedRetryBackoffMs attempt jitter < backoffCeiling attempt.
Proof.
  intros H%ceiling_pos. unfold selfhostedRetryBackoffMs. set (c := backoffCeiling attempt) in *.
  set (q := Qmin (999999 # 1000000) (Qmax 0 jitter)).
  assert (0 <= q)%Q by (unfold q; apply Q.min_glb; [done|apply Q.le_max_l]).
  assert (q <= 999999 # 1000000)%Q by (unfold q; apply Q.le_min_l).
  assert (Hc : (0 < inject_Z c)%Q) by (unfold Qlt; cbn; lia).
  split.
  - change 0 with (Qfloor 0). apply Qfloor_resp_le. rewrite <- (Qmult_0_l (inject_Z c)). apply Qmult_le_compat_r; [done|]. by apply Qlt_le_weak.
  - rewrite Zlt_Qlt. eapply Qle_lt_trans; [apply Qfloor_le|].
    eapply Qle_lt_trans; [apply Qmult_le_compat_r; [eassumption|by apply Qlt_le_weak]|].
    unfold Qlt; cbn. lia.
Qed.

(** The most [n] retries of one class sleep. *)
Fixpoint backoffSum (n : nat) : Z := match n with O => 0 | S n => backoffSum n + backoffCeiling (Z.of_nat n) end.

Lemma backoffSum_succ n : 0 <= n -> backoffSum (Z.to_nat (Z.succ n)) = backoffSum (Z.to_nat n) + backoffCeiling n.
Proof. intros H. rewrite Z2Nat.inj_succ by done. cbn [backoffSum]. by rewrite Z2Nat.id. Qed.

Lemma backoffSum_mono n m : (n <= m)%nat -> backoffSum n <= backoffSum m.
Proof. induction 1 as [|m _ IH]; [done|]. cbn [backoffSum]. pose proof (ceiling_pos (Z.of_nat m)). lia. Qed.

(** ** The budgets *)

Definition timeoutBudget (opKind : string) : Z := if readOnly opKind then SELFHOSTED_TIMEOUT_MAX_RETRIES else 0.

Record within (opKind : string) (b : Budgets) : Prop := {
  wi_draining : 0 <= drainingRetries b <= maxDrainingRetries opKind;
  wi_timeout : 0 <= timeoutRetries b <= timeoutBudget opKind;
  wi_neverSent : 0 <= neverSentRetries b <= SELFHOSTED_NEVER_SENT_MAX_RETRIES
}.

Definition room (opKind : string) (b : Budgets) : Z :=
  maxDrainingRetries opKind + timeoutBudget opKind + SELFHOSTED_NEVER_SENT_MAX_RETRIES - retriesOf b.
Definition sleepBound (b : Budgets) : Z :=
  backoffSum (Z.to_nat (drainingRetries b)) + backoffSum (Z.to_nat (timeoutRetries b)) + backoffSum (Z.to_nat (neverSentRetries b)).

(** An attempt whose error says the op was not executed. *)
Definition rejected (error : ControlError) : bool := ce_neverSent error || ce_draining error.

(** A retry takes one unit of a budget; only a rejected attempt costs no
    execution. *)
Lemma decide_spends opKind error b jitter delayMs : within opKind b -> decideSelfhostedRetry opKind error b jitter = Some delayMs ->
  within opKind (spend error b) /\ room opKind (spend error b) = room opKind b - 1 /\
  sleepBound b + delayMs <= sleepBound (spend error b) /\
  timeoutRetries (spend error b) = timeoutRetries b + (if rejected error then 0 else 1).
Proof.
  intros [H1 H2 H3]. unfold decideSelfhostedRetry, spend, rejected, room, retriesOf, sleepBound.
  destruct (ce_neverSent error); [|destruct (ce_draining error); [|case_bool_decide; [|done]]].
  - destruct (Z.leb_spec SELFHOSTED_NEVER_SENT_MAX_RETRIES (neverSentRetries b)); [done|]. intros [=].
    subst delayMs. generalize (backoff_bounds (neverSentRetries b) jitter ltac:(lia)). generalize (selfhostedRetryBackoffMs (neverSentRetries b) jitter). intros delay Hd. cbn.
    rewrite backoffSum_succ by lia.
    split; [constructor; cbn; lia|]. lia.
  - destruct (Z.leb_spec (maxDrainingRetries opKind) (drainingRetries b)); [done|]. intros [=].
    subst delayMs. generalize (backoff_bounds (drainingRetries b) jitter ltac:(lia)). generalize (selfhostedRetryBackoffMs (drainingRetries b) jitter). intros delay Hd. cbn.
    rewrite backoffSum_succ by lia.
    split; [constructor; cbn; lia|]. lia.
  - unfold timeoutBudget in *. destruct (readOnly opKind) eqn:Er; [|done]. cbn [negb].
    destruct (Z.leb_spec SELFHOSTED_TIMEOUT_MAX_RETRIES (timeoutRetries b)); [done|]. intros [=].
    subst delayMs. generalize (backoff_bounds (timeoutRetries b) jitter ltac:(lia)). generalize (selfhostedRetryBackoffMs (timeoutRetries b) jitter). intros delay Hd. cbn.
    rewrite backoffSum_succ by lia.
    split; [constructor; cbn; unfold timeoutBudget; rewrite ?Er; lia|]. lia.
Qed.

(** ** The loop *)

Definition sum (l : list Z) : Z := foldr Z.add 0 l.
Lemma sum_app l k : sum (l ++ k) = sum l + sum k.
Proof. unfold sum. induction l as [|x l IH]; cbn; [done|]. rewrite IH. lia. Qed.

(** The attempts among [i, .., i + n - 1] that the machine executed. *)
Definition executions (ran : nat -> bool) (i n : nat) : nat := length (List.filter ran (seq i n)).

Definition maxSleep (opKind : string) : Z :=
  backoffSum (Z.to_nat (maxDrainingRetries opKind)) + backoffSum (Z.to_nat (timeoutBudget opKind))
  + backoffSum (Z.to_nat SELFHOSTED_NEVER_SENT_MAX_RETRIES).

Lemma sleepBound_max opKind b : within opKind b -> sleepBound b <= maxSleep opKind.
Proof.
  intros [H1 H2 H3]. unfold sleepBound, maxSleep.
  pose proof (backoffSum_mono (Z.to_nat (drainingRetries b)) (Z.to_nat (maxDrainingRetries opKind)) ltac:(lia)).
  pose proof (backoffSum_mono (Z.to_nat (timeoutRetries b)) (Z.to_nat (timeoutBudget opKind)) ltac:(lia)).
  pose proof (backoffSum_mono (Z.to_nat (neverSentRetries b)) (Z.to_nat SELFHOSTED_NEVER_SENT_MAX_RETRIES) ltac:(lia)). lia.
Qed.

Section world.
Context {R : Type} (opKind : string) (reply : nat -> ControlResponse R) (jitter : nat -> Q) (ran : nat -> bool).
Context (Hrejected : forall i e, answer (reply i) = Err e -> rejected e = true -> ran i = false).

(** What the caller gets is the last reply's answer (a draining error says how
    often it was retried). *)
Definition surfaces (res : CallResult (R := R)) : Prop :=
  match cl_answer res with
  | Ok r => answer (reply (pred (cl_attempts res))) = Ok r
  | Err e => exists e0, answer (reply (pred (cl_attempts res))) = Err e0 /\
               (e = e0 \/ ce_draining e0 = true /\ exists n, e = drainingExhaustedError e0 n)
  end.

Lemma callLoop_spec fuel i b slept : within opKind b -> room opKind b < Z.of_nat fuel ->
  exists res, callLoop opKind reply jitter fuel i b slept = Some res /\
    (i < cl_attempts res <= i + fuel)%nat /\ surfaces res /\
    Z.of_nat (executions ran i (cl_attempts res - i)) + timeoutRetries b <= 1 + timeoutBudget opKind /\
    exists more, cl_slept res = slept ++ more /\ sleepBound b + sum more <= maxSleep opKind.
Proof.
  revert i b slept. induction fuel as [|fuel IH]; intros i b slept Hb Hf; [unfold room, retriesOf in Hf; destruct Hb; lia|].
  assert (Hlast : (executions ran i 1 <= 1)%nat) by (unfold executions; cbn; destruct (ran i); cbn; lia).
  pose proof (sleepBound_max opKind b Hb). pose proof (wi_timeout _ _ Hb).
  cbn [callLoop]. destruct (answer (reply i)) as [r|error] eqn:Ea.
  { eexists; split; [reflexivity|]. cbn [cl_attempts cl_slept]. replace (S i - i)%nat with 1%nat by lia.
    split; [lia|]. split; [done|]. split; [lia|]. exists []. rewrite app_nil_r. split; [done|]. cbn; lia. }
  destruct (decideSelfhostedRetry opKind error b (jitter i)) as [delayMs|] eqn:Ed.
  - destruct (decide_spends _ _ _ _ _ Hb Ed) as (Hb' & Hroom & Hs & Ht).
    destruct (IH (S i) (spend error b) (slept ++ [delayMs]) Hb' ltac:(lia)) as (res & Hr & Hi & Hsurf & He & more & Hm & Hsum).
    exists res. split; [done|]. split; [lia|]. split; [done|]. split.
    + replace (cl_attempts res - i)%nat with (S (cl_attempts res - S i)) by lia.
      unfold executions in *. cbn [seq List.filter]. destruct (rejected error) eqn:Er.
      * rewrite (Hrejected i error Ea Er). lia.
      * destruct (ran i); cbn [length]; lia.
    + exists (delayMs :: more). rewrite Hm, <- app_assoc. split; [done|]. unfold sum in *. cbn. lia.
  - eexists; split; [reflexivity|]. cbn [cl_attempts cl_slept]. replace (S i - i)%nat with 1%nat by lia.
    split; [lia|]. split.
    + exists error. cbn. split; [done|]. destruct (ce_draining error && _) eqn:E; [right|by left]. apply andb_true_iff in E as [-> _]. eauto.
    + split; [lia|]. exists []. rewrite app_nil_r. split; [done|]. cbn; lia.
Qed.
End world.

(** Retrying is safe and ends.  If the machine executes nothing it rejects
    before admission and nothing that was never sent, a mutating op is executed
    at most once over all its attempts, and a pure read at most twice; there are
    at most fourteen attempts of an exec and eight of another op, sleeping
    altogether less than a minute and less than eight seconds; and the caller
    gets the last attempt's answer. *)
Theorem retry_at_most_once {R} opKind (reply : nat -> ControlResponse R) jitter ran :
  (forall i e, answer (reply i) = Err e -> rejected e = true -> ran i = false) ->
  exists res, call opKind reply jitter = Some res /\ surfaces reply res /\
    (executions ran 0 (cl_attempts res) <= if readOnly opKind then 2 else 1)%nat /\
    (cl_attempts res <= if String.eqb opKind "exec" then 14 else 8)%nat /\
    sum (cl_slept res) <= (if String.eqb opKind "exec" then 59000 else 7500).
Proof.
  intros Hrej. set (b := {| drainingRetries := 0; timeoutRetries := 0; neverSentRetries := 0 |}).
  assert (Hmax : Z.of_nat (maxAttempts opKind) = 1 + room opKind b /\ room opKind b <= (if String.eqb opKind "exec" then 13 else 7)
                 /\ maxSleep opKind <= (if String.eqb opKind "exec" then 59000 else 7500)
                 /\ timeoutBudget opKind = (if readOnly opKind then 1 else 0)).
  { unfold maxAttempts, room, retriesOf, maxSleep, timeoutBudget, maxDrainingRetries, b.
    destruct (String.eqb_spec opKind "exec") as [->|]; [vm_compute; repeat split; congruence|].
    destruct (readOnly opKind); vm_compute; repeat split; congruence. }
  destruct Hmax as (Hfuel & Hroom & Hsleep & Ht).
  destruct (callLoop_spec opKind reply jitter ran Hrej (maxAttempts opKind) 0 b []) as (res & Hr & Hi & Hs & He & more & Hm & Hsum).
  { constructor; cbn; unfold maxDrainingRetries, timeoutBudget; [destruct (String.eqb _ _)|destruct (readOnly _)|]; done. }
  { lia. }
  exists res. split; [done|]. split; [done|]. rewrite Hm. rewrite Nat.sub_0_r in He. cbn [timeoutRetries b app] in *.
  change (sleepBound b) with 0 in Hsum. destruct (readOnly opKind), (String.eqb opKind "exec"); lia.
Qed.

(** ** What a fault says *)

(** Only a fault of the transport itself is never sent, and never a missing
    file: an offline machine cannot be taken for one whose box is gone. *)
Lemma never_sent_offline err : ce_neverSent (agentErrorToControlError err) = true ->
  ae_code err = E_AGENT_OFFLINE /\ ce_osNotFound (agentErrorToControlError err) = false /\ ce_retryable (agentErrorToControlError err) = false.
Proof. destruct err as [[] m r d]; cbn; done. Qed.

Lemma transport_never_not_found {R} cached dial id (e : Thrown) :
  exists err, answer (natsRequest (R := R) cached dial id (Threw e)).1 = Err err /\ ce_osNotFound err = false
    /\ (ce_code err = E_AGENT_OFFLINE \/ ce_code err = E_TIMEOUT).
Proof.
  unfold natsRequest. destruct (cached || dial); cbn [negb]; [destruct (isNoRespondersError e); [|destruct (isRequestTimeoutError e)]|];
    eexists; (split; [reflexivity|]); cbn; auto.
Qed.

(** Any message with the digits 503 in it is read as no responder: a request
    that timed out is then never sent, and a mutation that may have run is
    issued again. *)
Example digits_taken_for_unsent :
  let e := {| th_code := Some (js "TIMEOUT"); th_message := js "timed out after 15030 ms" |} in
  let res := (natsRequest (R := unit) true true "r" (Threw e)).1 in
  exists err, answer res = Err err /\ isRequestTimeoutError e = true /\ ce_neverSent err = true /\
    decideSelfhostedRetry "fsWrite" err {| drainingRetries := 0; timeoutRetries := 0; neverSentRetries := 0 |} 0 = Some 0.
Proof. eexists. split; [reflexivity|]. vm_compute. auto. Qed.

(** An exec that drains twice, meets a torn connection, is sent, and times out
    after it ran. *)
Definition exampleReply (i : nat) : ControlResponse unit :=
  match i with
  | 0%nat | 1%nat => {| cr_requestId := "r"; cr_error := Some {| ae_code := E_DRAINING; ae_message := []; ae_retryable := true; ae_detail := [] |}; cr_result := None |}
  | 2%nat => offlineControlResponse "r" true
  | _ => timeoutControlResponse "r"
  end.

Lemma retry_at_most_once_witness :
  exists res, call "exec" exampleReply (fun _ => 1 # 2) = Some res /\ cl_attempts res = 4%nat /\
    (executions (Nat.eqb 3) 0 (cl_attempts res) <= 1)%nat.
Proof.
  destruct (retry_at_most_once "exec" exampleReply (fun _ => 1 # 2) (Nat.eqb 3)) as (res & Hr & _ & He & _).
  - intros i e Ha Hrej. destruct i as [|[|[|[|i]]]]; try reflexivity. injection Ha as <-. discriminate Hrej.
  - exists res. split; [exact Hr|]. split; [|exact He]. vm_compute in Hr. injection Hr as <-. reflexivity.
Defined.

End ControlRpc.
