(* ===== verification/NetworkGuard.v ===== *)
(** * The guard of outgoing requests
      ([isPrivateAddress] of [packages/db/src/connection-token-resolver.ts])

    OAuth endpoints come from the outside; an address a request would reach must
    not be one of the deployment's own networks.  [net.isIP] is defined for IPv4
    and a parameter for IPv6 literals. *)
From S2P Require Import Prelude Json JsonParse Encoding Tokens NatsJwt PayloadSanitizer ControlRpc.
From stdpp Require Import pretty.
#[local] Open Scope Z_scope.
#[local] Open Scope opengeni_scope.

Module NetworkGuard.
Import NatsJwt.

(** ** IPv4 *)

(** A part of a dotted address: a number up to 255 without leading zeros. *)
Definition octet (s : jstr) : option Z :=
  match s with
  | [] => None
  | c :: r =>
      if forallb isDigit s && (length s <=? 3)%nat && (negb (c =? 48) || bool_decide (r = []))
      then let n := decimal 0 s in if n <=? 255 then Some n else None
      else None
  end.
Definition isPrivateIpv4Address (address : jstr) : bool :=
  match mapM octet (splitOn 46 address) with
  | Some [a; b; _; _] =>
      (a =? 0) || (a =? 10) || (a =? 127) || (a =? 169) && (b =? 254) || (a =? 172) && (16 <=? b) && (b <=? 31) || (a =? 192) && (b =? 168)
  | _ => true
  end.

(** ** Other spellings *)

Definition normalizeAddress (address : jstr) : jstr :=
  let trimmed := PayloadSanitizer.toLowerCase (trim address) in
  match trimmed, last trimmed with
  | 91 :: _, Some 93 => removelast (tail trimmed)
  | _, _ => trimmed
  end.
(** [/^[0-9a-f]{1,4}$/], and [parseInt(part, 16)]. *)
Definition hexPart (s : jstr) : option Z :=
  if (1 <=? length s)%nat && (length s <=? 4)%nat && forallb (fun c => isDigit c || (97 <=? c) && (c <=? 102)) s
  then Some (fold_left (fun n c => n * 16 + default 0 (hexValue c)) s 0) else None.
Definition dottedOf (high low : Z) : jstr :=
  let part n := ControlRpc.showNum (Z.land n 255) in
  part (Z.shiftr high 8) ++ [46] ++ part high ++ [46] ++ part (Z.shiftr low 8) ++ [46] ++ part low.
Definition ipv4FromMappedIpv6 (address : jstr) : option jstr :=
  if negb (Tokens.startsWith (js "::ffff:") address) then None
  else
    let embedded := drop 7 address in
    if existsb (Z.eqb 46) embedded then Some embedded
    else match splitOn 58 embedded with
         | [h; l] => match hexPart h, hexPart l with Some high, Some low => Some (dottedOf high low) | _, _ => None end
         | _ => None
         end.
Definition isPrivateAddress (isIPv6 : jstr -> bool) (address : jstr) : bool :=
  let normalized := normalizeAddress address in
  match ipv4FromMappedIpv6 normalized with
  | Some mapped => isPrivateIpv4Address mapped
  | None =>
      if existsb (Z.eqb 58) normalized
      then negb (isIPv6 normalized) || bool_decide (normalized = js "::1") || bool_decide (normalized = js "::")
           || existsb (fun p => Tokens.startsWith (js p) normalized) ["fc"; "fd"; "fe8"; "fe9"; "fea"; "feb"]%string
      else isPrivateIpv4Address normalized
  end.

(** ** Networks as blocks of 32-bit numbers *)

Definition privateBlocks : list (Z * Z) :=
  [(0, 8); (10 * 2^24, 8); (127 * 2^24, 8); (169 * 2^24 + 254 * 2^16, 16); (172 * 2^24 + 16 * 2^16, 12); (192 * 2^24 + 168 * 2^16, 16)].
Definition inBlock (n : Z) (block : Z * Z) : bool := Z.shiftr n (32 - block.2) =? Z.shiftr block.1 (32 - block.2).
Definition private (n : Z) : bool := existsb (inBlock n) privateBlocks.

(** The spellings of an address: dotted, mapped into IPv6 with a dotted end, and
    with a hexadecimal one. *)
Definition octetOf (n i : Z) : Z := Z.land (Z.shiftr n (8 * i)) 255.
Definition dotted (n : Z) : jstr := dottedOf (Z.shiftr n 16) (Z.land n 65535).
Fixpoint hexDigits (k : nat) (n : Z) : jstr := match k with O => [] | S k => hexDigits k (n / 16) ++ [hexDigit (n mod 16)] end.
Definition mappedDotted (n : Z) : jstr := js "::ffff:" ++ dotted n.
Definition mappedHex (n : Z) : jstr := js "::ffff:" ++ hexDigits 4 (Z.shiftr n 16) ++ [58] ++ hexDigits 4 (Z.land n 65535).

(** ** Reading a printed address *)

Definition plain (c : Z) : bool := isDigit c || (c =? 46) || (c =? 58) || (97 <=? c) && (c <=? 102).
Lemma plain_cases c : plain c = true -> 48 <= c <= 57 \/ c = 46 \/ c = 58 \/ 97 <= c <= 102.
Proof. unfold plain, isDigit. intros H. repeat (apply orb_true_iff in H as [H|H]); breflect; lia. Qed.
Lemma plain_black c : plain c = true -> isWhite c = false.
Proof. intros H%plain_cases. unfold isWhite. repeat (apply orb_false_iff; split); try apply andb_false_iff; rewrite ?Z.leb_gt, ?Z.eqb_neq; lia. Qed.
Lemma trimStart_plain s : Forall (fun c => plain c = true) s -> trimStart s = s.
Proof. destruct 1 as [|c s Hc _]; [done|]. cbn. by rewrite plain_black. Qed.
Lemma normalize_plain s : Forall (fun c => plain c = true) s -> normalizeAddress s = s.
Proof.
  intros Hs. unfold normalizeAddress. assert (PayloadSanitizer.toLowerCase (trim s) = s) as ->.
  { unfold trim. rewrite (trimStart_plain s Hs), trimStart_plain, rev_involutive by (rewrite rev_alt; by apply Forall_reverse). clear -Hs.
    unfold PayloadSanitizer.toLowerCase. induction Hs as [|c s Hc _ IH]; [done|]. cbn. rewrite IH. f_equal. apply plain_cases in Hc.
    destruct (_ && _) eqn:E; breflect; [lia|]. destruct (c =? 8490) eqn:E'; breflect; lia. }
  destruct Hs as [|c s Hc _]; [done|]. apply plain_cases in Hc.
  destruct (decide (c = 91)) as [->|Hn]; [lia|]. destruct c as [|q|q]; try done. repeat (destruct q as [q|q|]; try done).
Qed.

Lemma octet_printed k : 0 <= k < 256 -> octet (ControlRpc.showNum k) = Some k /\ Forall (fun c => isDigit c = true) (ControlRpc.showNum k).
Proof.
  intros H. assert (k ∈ seqZ 0 256) as Hk by (apply elem_of_seqZ; lia). clear H. revert k Hk. apply Forall_forall.
  apply (bool_decide_unpack _). vm_compute. done.
Qed.

Lemma land_255 n : Z.land n 255 = n mod 256.
Proof. exact (Z.land_ones n 8 ltac:(lia)). Qed.
Lemma land_65535 n : Z.land n 65535 = n mod 65536.
Proof. exact (Z.land_ones n 16 ltac:(lia)). Qed.
Lemma byte_range n : 0 <= Z.land n 255 < 256.
Proof. rewrite land_255. apply Z.mod_pos_bound. lia. Qed.
Lemma digits_plain s : Forall (fun c => isDigit c = true) s -> Forall (fun c => plain c = true) s /\ 46 ∉ s /\ 58 ∉ s.
Proof.
  intros H. split; [eapply Forall_impl; [exact H|]; intros c Hc; unfold plain; by rewrite Hc|].
  rewrite Forall_forall in H. split; intros Hin; by specialize (H _ Hin).
Qed.
Lemma dotted_octets high low :
  mapM octet (splitOn 46 (dottedOf high low)) = Some [Z.land (Z.shiftr high 8) 255; Z.land high 255; Z.land (Z.shiftr low 8) 255; Z.land low 255].
Proof.
  unfold dottedOf. cbn zeta.
  destruct (octet_printed _ (byte_range (Z.shiftr high 8))) as [E1 (_ & D1 & _)%digits_plain], (octet_printed _ (byte_range high)) as [E2 (_ & D2 & _)%digits_plain],
    (octet_printed _ (byte_range (Z.shiftr low 8))) as [E3 (_ & D3 & _)%digits_plain], (octet_printed _ (byte_range low)) as [E4 (_ & D4 & _)%digits_plain].
  cbn [app]. rewrite splitOn_app, splitOn_app, splitOn_app, splitOn_none by done. cbn [mapM]. rewrite E1. cbn. rewrite E2. cbn. rewrite E3. cbn. by rewrite E4.
Qed.
Lemma dotted_plain high low : Forall (fun c => plain c = true) (dottedOf high low) /\ 58 ∉ dottedOf high low /\ existsb (Z.eqb 46) (dottedOf high low) = true.
Proof.
  unfold dottedOf. cbn zeta.
  destruct (octet_printed _ (byte_range (Z.shiftr high 8))) as [_ (P1 & _ & D1)%digits_plain], (octet_printed _ (byte_range high)) as [_ (P2 & _ & D2)%digits_plain],
    (octet_printed _ (byte_range (Z.shiftr low 8))) as [_ (P3 & _ & D3)%digits_plain], (octet_printed _ (byte_range low)) as [_ (P4 & _ & D4)%digits_plain].
  split_and!; [repeat (apply Forall_app; split); auto|cbn [app]; set_solver|]. rewrite existsb_app. cbn. apply orb_true_r.
Qed.

Lemma private_dotted n : 0 <= n < 2^32 -> isPrivateIpv4Address (dotted n) = private n.
Proof.
  intros Hn. unfold isPrivateIpv4Address, dotted. rewrite dotted_octets. unfold private, inBlock, privateBlocks. cbn [existsb fst snd].
  rewrite !land_255, !Z.shiftr_div_pow2 by lia. change (2 ^ 16) with 65536. change (2 ^ 8) with 256.
  assert (exists a b r, n = a * 2^24 + b * 2^16 + r /\ 0 <= a < 256 /\ 0 <= b < 256 /\ 0 <= r < 65536) as (a & b & r & -> & Ha & Hb & Hr).
  { exists (n / 2^24), (n / 65536 mod 256), (n mod 65536). Z.to_euclidean_division_equations. lia. }
  assert ((a * 2^24 + b * 2^16 + r) / 65536 = 256 * a + b) as -> by (Z.to_euclidean_division_equations; lia).
  assert ((256 * a + b) / 256 mod 256 = a) as -> by (Z.to_euclidean_division_equations; lia).
  assert ((256 * a + b) mod 256 = b) as -> by (Z.to_euclidean_division_equations; lia).
  assert ((a * 2^24 + b * 2^16 + r) / 2^(32 - 8) = a) as -> by (change (2^(32 - 8)) with (2^24); Z.to_euclidean_division_equations; lia).
  assert ((a * 2^24 + b * 2^16 + r) / 2^(32 - 16) = 256 * a + b) as -> by (change (2^(32 - 16)) with (2^16); Z.to_euclidean_division_equations; lia).
  assert ((a * 2^24 + b * 2^16 + r) / 2^(32 - 12) = 16 * a + b / 16) as -> by (change (2^(32 - 12)) with (2^20); Z.to_euclidean_division_equations; lia).
  change (0 / 2^(32 - 8)) with 0. change (10 * 2^24 / 2^(32 - 8)) with 10. change (127 * 2^24 / 2^(32 - 8)) with 127.
  change ((169 * 2^24 + 254 * 65536) / 2^(32 - 16)) with 43518. change ((172 * 2^24 + 16 * 65536) / 2^(32 - 12)) with 2753.
  change ((192 * 2^24 + 168 * 65536) / 2^(32 - 16)) with 49320.
  apply eq_true_iff_eq. rewrite ?orb_true_iff, ?andb_true_iff, ?Z.eqb_eq, ?Z.leb_le. Z.to_euclidean_division_equations. lia.
Qed.

(** The hexadecimal spelling. *)
Lemma hex_printed n : 0 <= n < 65536 -> hexPart (hexDigits 4 n) = Some n /\ Forall (fun c => plain c = true) (hexDigits 4 n) /\ 58 ∉ hexDigits 4 n /\ 46 ∉ hexDigits 4 n.
Proof.
  intros Hn. assert (forall d, 0 <= d < 16 -> (isDigit (hexDigit d) || (97 <=? hexDigit d) && (hexDigit d <=? 102)) = true /\ 58 <> hexDigit d /\ 46 <> hexDigit d) as Hd.
  { intros d H. unfold hexDigit, isDigit. destruct (d <? 10) eqn:E; breflect; (split; [|lia]); apply orb_true_iff; [left|right]; apply andb_true_iff; rewrite !Z.leb_le; lia. }
  assert (forall x, 0 <= x mod 16 < 16) as Hm by (intros x; by apply Z.mod_pos_bound). cbn [hexDigits app].
  destruct (Hd _ (Hm (n / 16 / 16 / 16))) as (P1 & Q1 & R1), (Hd _ (Hm (n / 16 / 16))) as (P2 & Q2 & R2), (Hd _ (Hm (n / 16))) as (P3 & Q3 & R3), (Hd _ (Hm n)) as (P4 & Q4 & R4).
  split_and!.
  - unfold hexPart. cbn [length forallb Nat.leb andb]. rewrite P1, P2, P3, P4. cbn [andb fold_left]. rewrite !hexValue_digit by apply Hm. cbn [default from_option id]. f_equal.
    Z.to_euclidean_division_equations. lia.
  - repeat constructor; unfold plain; rewrite <- !orb_assoc; apply orb_true_iff; [apply orb_true_iff in P1|apply orb_true_iff in P2|apply orb_true_iff in P3|apply orb_true_iff in P4].
    all: rewrite !orb_true_iff; tauto.
  - set_solver.
  - set_solver.
Qed.

Lemma mapped_form t : Forall (fun c => plain c = true) t -> ipv4FromMappedIpv6 (normalizeAddress (js "::ffff:" ++ t)) =
  if existsb (Z.eqb 46) t then Some t
  else match splitOn 58 t with [h; l] => match hexPart h, hexPart l with Some high, Some low => Some (dottedOf high low) | _, _ => None end | _ => None end.
Proof.
  intros Ht. rewrite normalize_plain by (apply Forall_app; split; [apply (bool_decide_unpack _); vm_compute; done|done]).
  unfold ipv4FromMappedIpv6, Tokens.startsWith. rewrite take_app_length, bool_decide_eq_true_2 by done. change 7%nat with (length (js "::ffff:")). by rewrite drop_app_length.
Qed.
Lemma no_byte c t : c ∉ t -> existsb (Z.eqb c) t = false.
Proof. intros H. apply not_true_iff_false. intros (x & Hx%list_elem_of_In & <-%Z.eqb_eq)%existsb_exists. done. Qed.

(** An IPv4 address is refused exactly when it lies in one of the private
    networks, in each of its spellings: dotted, or mapped into IPv6. *)
Theorem guard_exact isIPv6 n : 0 <= n < 2^32 ->
  isPrivateAddress isIPv6 (dotted n) = private n /\ isPrivateAddress isIPv6 (mappedDotted n) = private n /\ isPrivateAddress isIPv6 (mappedHex n) = private n.
Proof.
  intros Hn. destruct (dotted_plain (Z.shiftr n 16) (Z.land n 65535)) as (Hp & Hc & Hd). fold (dotted n) in Hp, Hc, Hd. unfold isPrivateAddress. split_and!.
  - rewrite normalize_plain by done. unfold ipv4FromMappedIpv6. assert (Tokens.startsWith (js "::ffff:") (dotted n) = false) as ->.
    { apply bool_decide_eq_false. intros E. apply Hc. change (length (js "::ffff:")) with 7%nat in E. rewrite <- (take_drop 7 (dotted n)), E. apply elem_of_app. left. by left. }
    cbn [negb]. rewrite (no_byte 58) by done. by apply private_dotted.
  - unfold mappedDotted. rewrite mapped_form, Hd by done. by apply private_dotted.
  - assert (0 <= Z.shiftr n 16 < 65536) as Hh by (rewrite Z.shiftr_div_pow2 by lia; Z.to_euclidean_division_equations; lia).
    assert (0 <= Z.land n 65535 < 65536) as Hl by (rewrite land_65535; by apply Z.mod_pos_bound).
    destruct (hex_printed _ Hh) as (E1 & P1 & C1 & D1), (hex_printed _ Hl) as (E2 & P2 & C2 & D2).
    unfold mappedHex. rewrite mapped_form by (apply Forall_app; split; [done|by apply Forall_cons]).
    rewrite no_byte by (apply not_elem_of_app; split; [done|]; by apply not_elem_of_cons).
    cbn [app]. rewrite splitOn_app, splitOn_none, E1, E2 by done. by apply private_dotted.
Qed.

(** A dotted address is the print of its octets. *)
Definition printed (t : jstr) : bool := match octet t with Some k => bool_decide (0 <= k < 256 /\ t = ControlRpc.showNum k) | None => true end.
Lemma digits_printed : let ds := seqZ 48 10 in
  Forall (fun a => printed [a] = true) ds /\ Forall (fun a => Forall (fun b => printed [a; b] = true) ds) ds /\
  Forall (fun a => Forall (fun b => Forall (fun c => printed [a; b; c] = true) ds) ds) ds.
Proof. split_and!; apply (bool_decide_unpack _); vm_compute; done. Qed.
Lemma octet_inv t k : octet t = Some k -> 0 <= k < 256 /\ t = ControlRpc.showNum k.
Proof.
  intros Ht. enough (printed t = true) as H by (unfold printed in H; rewrite Ht in H; by apply bool_decide_eq_true in H).
  destruct digits_printed as (H1 & H2 & H3). unfold octet in Ht. destruct t as [|a r]; [done|]. destruct (forallb isDigit (a :: r)) eqn:Hd; [|done].
  destruct (length (a :: r) <=? 3)%nat eqn:Hl; [apply Nat.leb_le in Hl|done]. clear Ht.
  assert (forall l, l ∈ a :: r -> l ∈ seqZ 48 10) as Hin.
  { rewrite forallb_forall in Hd. intros l H%list_elem_of_In%Hd. apply elem_of_seqZ. unfold isDigit in H. breflect. lia. }
  rewrite Forall_forall in H1, H2, H3. destruct r as [|b [|c [|]]]; cbn in Hl; [| | |lia].
  - apply H1, Hin. set_solver.
  - assert (Hf : Forall (fun b => printed [a; b] = true) (seqZ 48 10)) by (apply H2, Hin; set_solver). rewrite Forall_forall in Hf. apply Hf, Hin. set_solver.
  - assert (Hf : Forall (fun b => Forall (fun c => printed [a; b; c] = true) (seqZ 48 10)) (seqZ 48 10)) by (apply H3, Hin; set_solver).
    rewrite Forall_forall in Hf. specialize (Hf b ltac:(apply Hin; set_solver)). cbn in Hf. rewrite Forall_forall in Hf. apply Hf, Hin. set_solver.
Qed.
Lemma splitOn_cons c s w ws : splitOn c s = w :: ws -> c ∉ w /\ match ws with [] => s = w | _ => exists s', s = w ++ c :: s' /\ splitOn c s' = ws end.
Proof.
  revert w ws. induction s as [|x s IH]; intros w ws; cbn; [intros [= <- <-]; by split; [apply not_elem_of_nil|]|].
  destruct (x =? c) eqn:E; breflect.
  - subst x. intros [= <- <-]. split; [apply not_elem_of_nil|]. destruct (splitOn c s) as [|w ws] eqn:Es; [|by exists s].
    exfalso. clear -Es. destruct s as [|y s]; cbn in Es; [done|]. destruct (y =? c); [done|]. by destruct (splitOn c s).
  - destruct (splitOn c s) as [|w' ws'] eqn:Es; [exfalso; clear -Es; destruct s as [|y s]; cbn in Es; [done|]; destruct (y =? c); [done|]; by destruct (splitOn c s)|].
    intros [= <- <-]. destruct (IH _ _ eq_refl) as [Hn Hs]. split; [apply not_elem_of_cons; split; [congruence|done]|].
    destruct ws'; [by subst|]. destruct Hs as (s' & -> & Hs'). by exists s'.
Qed.
Lemma public_dotted m : isPrivateIpv4Address m = false -> exists n, 0 <= n < 2^32 /\ private n = false /\ m = dotted n.
Proof.
  intros H. assert (exists a b c d, m = ControlRpc.showNum a ++ 46 :: ControlRpc.showNum b ++ 46 :: ControlRpc.showNum c ++ 46 :: ControlRpc.showNum d /\
    0 <= a < 256 /\ 0 <= b < 256 /\ 0 <= c < 256 /\ 0 <= d < 256) as (a & b & c & d & -> & Ha & Hb & Hc & Hd).
  { unfold isPrivateIpv4Address in H. destruct (mapM octet (splitOn 46 m)) as [l|] eqn:E; [|done]. apply mapM_Some in E.
    destruct l as [|a [|b [|c [|d [|]]]]]; try done. pose proof (Forall2_length _ _ _ E) as Hlen.
    destruct (splitOn 46 m) as [|p1 [|p2 [|p3 [|p4 [|]]]]] eqn:Es; try (exfalso; cbn in Hlen; lia).
    apply Forall2_cons in E as [[R1 ->]%octet_inv E]. apply Forall2_cons in E as [[R2 ->]%octet_inv E]. apply Forall2_cons in E as [[R3 ->]%octet_inv E].
    apply Forall2_cons in E as [[R4 ->]%octet_inv _]. exists a, b, c, d. split; [|done].
    apply splitOn_cons in Es as (_ & s1 & -> & Es). apply splitOn_cons in Es as (_ & s2 & -> & Es). apply splitOn_cons in Es as (_ & s3 & -> & Es).
    by apply splitOn_cons in Es as (_ & ->). }
  set (n := a * 2^24 + b * 2^16 + c * 2^8 + d). assert (0 <= n < 2^32) as Hn by (unfold n; lia). exists n. split; [done|].
  assert (dotted n = ControlRpc.showNum a ++ 46 :: ControlRpc.showNum b ++ 46 :: ControlRpc.showNum c ++ 46 :: ControlRpc.showNum d) as E.
  { unfold dotted, dottedOf. cbn zeta. cbn [app]. rewrite !land_255, land_65535, !Z.shiftr_div_pow2 by lia.
    replace (n / 2^16 / 2^8 mod 256) with a by (unfold n; Z.to_euclidean_division_equations; lia). replace (n / 2^16 mod 256) with b by (unfold n; Z.to_euclidean_division_equations; lia).
    replace (n mod 65536 / 2^8 mod 256) with c by (unfold n; Z.to_euclidean_division_equations; lia). by replace (n mod 65536 mod 256) with d by (unfold n; Z.to_euclidean_division_equations; lia). }
  rewrite <- E in H |- *. split; [by rewrite <- private_dotted|done].
Qed.

(** What the guard lets pass is a public IPv4 address in one of these spellings
    or an IPv6 literal; names and malformed addresses are refused. *)
Theorem guard_fails_closed isIPv6 s : isPrivateAddress isIPv6 s = false ->
  (exists n, 0 <= n < 2^32 /\ private n = false /\ (normalizeAddress s = dotted n \/ ipv4FromMappedIpv6 (normalizeAddress s) = Some (dotted n))) \/
  isIPv6 (normalizeAddress s) = true.
Proof.
  unfold isPrivateAddress. destruct (ipv4FromMappedIpv6 _) as [m|] eqn:E.
  - intros (n & Hn & Hp & ->)%public_dotted. left. exists n. split; [done|split; [done|by right]].
  - destruct (existsb _ _); [intros H; right; repeat (apply orb_false_iff in H as [H _]); by apply negb_false_iff in H|].
    intros (n & Hn & Hp & ->)%public_dotted. left. exists n. split; [done|split; [done|by left]].
Qed.

Example spellings : dotted 2130706433 = js "127.0.0.1" /\ mappedDotted 2130706433 = js "::ffff:127.0.0.1" /\ mappedHex 2130706433 = js "::ffff:7f00:0001".
Proof. vm_compute. auto. Qed.
Example guarded : List.map (isPrivateAddress (fun _ => true)) (List.map js ["127.0.0.1"; "1.1.1.1"; "::FFFF:192.168.1.1"; "::ffff:7f00:0001"; "::ffff:1.1.1.1"; "[::1]"; "2606:4700::1111"; "01.1.1.1"; "not an ip address"]%string)
  = [true; false; true; true; false; true; false; true; true].
Proof. vm_compute. done. Qed.

(** The metadata service of a cloud, 169.254.169.254. *)
Lemma guard_exact_witness : isPrivateAddress (fun _ => true) (mappedHex 2852039166) = true /\ mappedHex 2852039166 = js "::ffff:a9fe:a9fe".
Proof.
  split; [|reflexivity]. destruct (guard_exact (fun _ => true) 2852039166) as (_ & _ & H); [lia|]. rewrite H. vm_compute. reflexivity.
Defined.
End NetworkGuard.
