(* ===== verification/ConnectionBroker.v ===== *)
(** * The connection broker ([packages/db/src/connection-token-resolver.ts])

    A resolver turns a connection into the headers of a request.  An expiring
    token is refreshed first: resolvers of one process that want the same version
    refreshed share one exchange with the token endpoint, processes are kept apart
    by the version alone.  What the token endpoint, the name service and the URL
    parser answer are inputs of the steps. *)
From S2P Require Import Prelude Json JsonParse Encoding Sql Tokens NatsJwt PayloadSanitizer EventStream ControlRpc Activity Access EnvironmentCrypto NetworkGuard Connections.
#[local] Open Scope Z_scope.
#[local] Open Scope opengeni_scope.

Module ConnectionBroker.
Import Activity Tokens Access NatsJwt EnvironmentCrypto NetworkGuard Connections.

(** ** References and answers *)

Record McpServerConnectionRef := {
  ref_connectionId : option jstr; ref_providerDomain : jstr; ref_kind : option ConnectionKind; ref_scopes : option (list jstr); ref_resource : option jstr
}.
#[export] Instance etaMcpServerConnectionRef : Settable McpServerConnectionRef := fun r =>
  Build_McpServerConnectionRef (ref_connectionId r) (ref_providerDomain r) (ref_kind r) (ref_scopes r) (ref_resource r).
Inductive AuthNeededReason := missing_connection | expired | insufficient_scope | refresh_failed.
Inductive ResolveResult :=
| ok (headers : list (jstr * jstr)) (connectionId : jstr) (expiresAt : option Z)
| auth_needed (reason : AuthNeededReason) (providerDomain : jstr) (connectionId : option jstr) (scopes : option (list jstr)) (resource : option jstr).
Record ResolveInput := { in_workspaceId : jstr; in_subjectId : option jstr; in_ref : McpServerConnectionRef; in_forceRefresh : bool }.

(** [ConnectionRefreshHttpError], and every other error by its message. *)
Inductive BrokerError := RefreshHttp (httpStatus : Z) | Failed (message : jstr).
#[export] Instance BrokerError_fallible : Fallible BrokerError := Failed (js "database unavailable").
Definition fails {A} (message : string) : result BrokerError A := Err (Failed (js message)).
Definition message (e : BrokerError) : jstr :=
  match e with RefreshHttp s => js "connection refresh failed with HTTP " ++ ControlRpc.showNum s | Failed m => m end.
Definition isPermanentRefreshError (e : BrokerError) : bool :=
  match e with RefreshHttp s => (400 <=? s) && (s <? 500) && negb (s =? 408) && negb (s =? 429) | Failed _ => false end.

(** ** Reading a credential *)

Definition stringValue (v : option json) : option jstr := match v with Some (JStr (c :: s)) => Some (c :: s) | _ => None end.
Definition orElse {A} (a b : option A) : option A := match a with Some _ => a | None => b end.
(** Assigning [__proto__] a string sets nothing. *)
Definition stringRecord (v : option json) : option (list (jstr * jstr)) :=
  match v with
  | Some (JObj fields) => List.filter (fun kv => negb (same kv.1 (js "__proto__"))) <$> mapM (fun kv => match kv.2 with JStr s => Some (kv.1, s) | _ => None end) fields
  | _ => None
  end.
Definition field (k : string) (fields : list (jstr * json)) : option jstr := stringValue (assoc (js k) fields).
Definition metadataField (k : string) (metadata : json) : option jstr := stringValue (prop (js k) metadata).

Definition normalizeBearerScheme (tokenType : option jstr) : jstr :=
  match nonEmpty tokenType with
  | None => js "Bearer"
  | Some t => if same (PayloadSanitizer.toLowerCase t) (js "bearer") then js "Bearer" else t
  end.
Definition headersForCredential (c : ConnectionCredentialForBroker) : option (list (jstr * jstr)) :=
  match cr_kind c with
  | oauth2 =>
      match field "access_token" (cr_credential c) with
      | None => None
      | Some accessToken => Some [(js "authorization", normalizeBearerScheme (field "token_type" (cr_credential c)) ++ js " " ++ accessToken)]
      end
  | _ => stringRecord (assoc (js "headers") (cr_credential c))
  end.
Definition missingRequestedScopes (requested : option (list jstr)) (granted : list jstr) : list jstr :=
  match requested with None => [] | Some l => List.filter (fun scope => negb (bool_decide (scope ∈ granted))) l end.

Definition REFRESH_WINDOW_MS : Z := 60000.
Definition shouldRefresh (c : ConnectionCredentialForBroker) (force : bool) (now : Z) : bool :=
  match cr_kind c with
  | oauth2 => force || match cr_expiresAt c with Some t => t <=? now + REFRESH_WINDOW_MS | None => false end
  | _ => false
  end.
Definition authNeeded (ref : McpServerConnectionRef) (reason : AuthNeededReason) (connectionId : option jstr) : ResolveResult :=
  auth_needed reason (ref_providerDomain ref) (nonEmpty connectionId) (ref_scopes ref) (nonEmpty (ref_resource ref)).
Definition authNeededForStatus (c : ConnectionCredentialForBroker) (ref : McpServerConnectionRef) (now : Z) : ResolveResult :=
  match cr_status c with
  | revoked => authNeeded ref missing_connection (Some (cr_id c))
  | _ => authNeeded ref (if match cr_expiresAt c with Some t => t <=? now | None => false end then expired else refresh_failed) (Some (cr_id c))
  end.

(** ** The exchange with the token endpoint *)

Record BrokerSettings := { store : ConnectionSettings; integrationsAllowPrivateNetworkTargets : bool; environment : jstr }.
(** [new URL(s)]: protocol and hostname; [isIP(s) === 6]; [new Date(s)]. *)
Class NetPlatform := { parseUrl : jstr -> option (jstr * jstr); isIPv6 : jstr -> bool; dateParse : jstr -> option Z }.

Record TokenRequest := { tq_endpoint : jstr; tq_headers : list (jstr * jstr); tq_body : list (jstr * jstr) }.
(** What [fetch] and [response.json()] give. *)
Inductive Exchange := NetworkFailed | Response (status : Z) (body : option json).
Record Refreshed := { rf_credential : list (jstr * json); rf_expiresAt : option Z; rf_grantedScopes : option (list jstr) }.

(** [text.split(/\s+/).filter(Boolean)] *)
Fixpoint words (s : jstr) : list jstr :=
  match s with
  | [] => []
  | c :: s' =>
      if isWhite c then words s'
      else match s' with
           | [] => [[c]]
           | d :: _ => if isWhite d then [c] :: words s' else match words s' with w :: ws => (c :: w) :: ws | [] => [[c]] end
           end
  end.
Definition joinWith (sep : jstr) (l : list jstr) : jstr :=
  match l with [] => [] | w :: ws => fold_left (fun acc x => acc ++ sep ++ x) ws w end.
Example words_ex : words (js "  a bc  d ") = [js "a"; js "bc"; js "d"] /\ joinWith (js " ") [js "a"; js "bc"; js "d"] = js "a bc d" /\ words [] = [].
Proof. vm_compute. done. Qed.
(** [toISOString], with the signed years outside 0..9999, on the times a [Date] holds. *)
Definition MAX_TIME : Z := 8640000000000000.
Definition isoString (ms : Z) : jstr :=
  let '(y, _, _) := EventStream.civil (ms / 86400000) in
  if (0 <=? y) && (y <=? 9999) then EventStream.toISOString ms
  else js (if y <? 0 then "-" else "+") ++ EventStream.digits 6 (Z.abs y) ++ drop 4 (EventStream.toISOString ms).
Example isoString_ex : isoString 253402300799999 = js "9999-12-31T23:59:59.999Z" /\ isoString 253402300800000 = js "+010000-01-01T00:00:00.000Z"
  /\ isoString MAX_TIME = js "+275760-09-13T00:00:00.000Z".
Proof. vm_compute. done. Qed.

(** Four decimal octets; any other address that counts is an IPv6 literal. *)
Definition isIPv4 (s : jstr) : bool := match mapM octet (splitOn 46 s) with Some [_; _; _; _] => true | _ => false end.
Definition endsWith (suffix s : jstr) : bool := bool_decide (drop (length s - length suffix) s = suffix).

Section platform.
Context `{tokens : TokenPlatform} `{digests : DigestPlatform} `{cipher : CipherPlatform} `{net : NetPlatform} (settings : BrokerSettings).

(** [addresses]: what the name service answers for the host. *)
Definition assertOAuthEndpointAllowed (rawUrl : jstr) (addresses : option (list jstr)) : result BrokerError unit :=
  if integrationsAllowPrivateNetworkTargets settings || bool_decide (environment settings ∈ [js "local"; js "test"]) then Ok tt
  else
    match parseUrl rawUrl with
    | None => fails "Invalid URL"
    | Some (protocol, host) =>
        if negb (same protocol (js "https:")) then fails "OAuth token endpoint must use https outside local/test"
        else
          let hostname := PayloadSanitizer.toLowerCase host in
          if same hostname (js "localhost") || endsWith (js ".localhost") hostname then fails "OAuth token endpoint may not target localhost"
          else
            match (if isIPv4 hostname || isIPv6 hostname then Some [hostname] else addresses) with
            | None => fails "getaddrinfo failed"
            | Some l => if existsb (isPrivateAddress isIPv6) l then fails "OAuth token endpoint may not target a private network address" else Ok tt
            end
    end.

Definition clientId (c : ConnectionCredentialForBroker) : option jstr :=
  orElse (field "client_id" (cr_credential c)) (orElse (metadataField "clientId" (cr_metadata c)) (metadataField "client_id" (cr_metadata c))).
Definition authMethod (c : ConnectionCredentialForBroker) : jstr := default (js "none") (field "token_endpoint_auth_method" (cr_credential c)).
Definition resourceOf (c : ConnectionCredentialForBroker) (ref : McpServerConnectionRef) : option jstr :=
  nonEmpty (match ref_resource ref with Some r => Some r | None => field "resource" (cr_credential c) end).
Definition optionalField (k : string) (v : option jstr) : list (jstr * jstr) := match v with Some v => [(js k, v)] | None => [] end.
Definition refreshRequest (c : ConnectionCredentialForBroker) (ref : McpServerConnectionRef) : result BrokerError TokenRequest :=
  let tokenEndpoint := orElse (field "token_endpoint" (cr_credential c)) (orElse (metadataField "tokenEndpoint" (cr_metadata c)) (metadataField "token_endpoint" (cr_metadata c))) in
  match field "refresh_token" (cr_credential c), tokenEndpoint with
  | Some refreshToken, Some endpoint =>
      let post := match field "client_secret" (cr_credential c) with Some secret => if same (authMethod c) (js "client_secret_post") then Some secret else None | None => None end in
      let basic := match clientId c, field "client_secret" (cr_credential c) with
                   | Some id, Some secret => if same (authMethod c) (js "client_secret_basic") then Some (js "Basic " ++ bytesToBase64 (utf8Encode (id ++ js ":" ++ secret))) else None
                   | _, _ => None
                   end in
      Ok {| tq_endpoint := endpoint;
            tq_headers := (js "content-type", js "application/x-www-form-urlencoded") :: optionalField "authorization" basic;
            tq_body := [(js "grant_type", js "refresh_token"); (js "refresh_token", refreshToken)] ++ optionalField "client_id" (clientId c) ++
              optionalField "client_secret" post ++ optionalField "resource" (resourceOf c ref) ++
              match ref_scopes ref with Some (s :: l) => [(js "scope", joinWith (js " ") (s :: l))] | _ => [] end |}
  | _, _ => fails "connection has no refresh token endpoint"
  end.

Definition expiresAtFromTokenResponse (payload : json) (fallback : option Z) (now : Z) : option Z :=
  match stringValue (prop (js "expires_at") payload) with
  | Some t => match dateParse t with Some t => Some t | None => fallback end
  | None => match prop (js "expires_in") payload with Some (JNum n) => if 0 <? n then Some (now + n * 1000) else fallback | _ => fallback end
  end.
Definition jsonField (k : string) (v : option jstr) : list (jstr * json) := match v with Some v => [(js k, JStr v)] | None => [] end.
(** What the token endpoint answers, as the next credential. *)
Definition refreshed (c : ConnectionCredentialForBroker) (ref : McpServerConnectionRef) (now : Z) (answer : Exchange) : result BrokerError Refreshed :=
  match answer with
  | NetworkFailed => fails "fetch failed"
  | Response status body =>
      if negb ((200 <=? status) && (status <? 300)) then Err (RefreshHttp status)
      else
        match body with
        | None => fails "Unexpected token in JSON"
        | Some JNull => fails "Cannot read properties of null"
        | Some payload =>
            match stringValue (prop (js "access_token") payload) with
            | None => fails "connection refresh response did not include access_token"
            | Some accessToken =>
                let expiresAt := expiresAtFromTokenResponse payload (cr_expiresAt c) now in
                if match expiresAt with Some t => MAX_TIME <? t | None => false end then fails "Invalid time value"
                else
                  let scopeText := stringValue (prop (js "scope") payload) in
                  let secret := field "client_secret" (cr_credential c) in
                  Ok {| rf_credential := overlay
                          ([(js "access_token", JStr accessToken);
                            (js "refresh_token", JStr (default [] (orElse (stringValue (prop (js "refresh_token") payload)) (field "refresh_token" (cr_credential c)))));
                            (js "token_type", JStr (default (js "Bearer") (orElse (stringValue (prop (js "token_type") payload)) (field "token_type" (cr_credential c)))))] ++
                           jsonField "expires_at" (isoString <$> expiresAt) ++ jsonField "resource" (resourceOf c ref) ++ jsonField "scope" scopeText ++
                           match secret with Some s => [(js "client_secret", JStr s); (js "token_endpoint_auth_method", JStr (authMethod c))] | None => [] end)
                          (cr_credential c);
                        rf_expiresAt := expiresAt;
                        rf_grantedScopes := words <$> scopeText |}
            end
        end
  end.

(** ** The database, with a record of what happened

    [stores]: the rows the record of a refresh changed, with the credential the
    refresh had spent; [poisonings]: the rows the report of an error changed, with
    the error; [exchanges]: the status of every exchange with a token endpoint.
    The rows are as they were before the change. *)
Record Stored := { st_row : ConnectionRow; st_spent : ConnectionCredentialForBroker }.
Record Poisoned := { po_row : ConnectionRow; po_error : BrokerError }.
Record BrokerDb := { db : ConnectionDb; stores : list Stored; poisonings : list Poisoned; exchanges : list (ConnectionCredentialForBroker * Z) }.
#[local] Instance etaBrokerDb : Settable BrokerDb := fun x => Build_BrokerDb (db x) (stores x) (poisonings x) (exchanges x).
#[local] Abbreviation Broker := (Program BrokerDb BrokerError Outgoing).

Definition messageOf (e : AccessError) : jstr := match e with HttpError _ m => m | Thrown m => js m | Unavailable => js "database unavailable" end.
Definition load (workspaceId : jstr) (subjectId : option jstr) (ref : McpServerConnectionRef) : Broker (option ConnectionCredentialForBroker) :=
  let request := {| li_workspaceId := workspaceId; li_connectionId := ref_connectionId ref; li_providerDomain := ref_providerDomain ref; li_kind := ref_kind ref;
                    li_subjectId := subjectId; li_allowSubjectOwned := false |} in
  tx (fun _ x => match loadConnectionCredentialForBroker (store settings) request (db x) with Ok c => Ok (c, x) | Err e => Err (Failed (messageOf e)) end).
#[local] Instance row_eq_dec : EqDecision ConnectionRow.
Proof. solve_decision. Defined.
Definition changedRows (d d' : ConnectionDb) : list ConnectionRow := List.filter (fun r => bool_decide (r ∉ connections d')) (connections d).
Definition recordRefresh (c : ConnectionCredentialForBroker) (i : RefreshRecord) : Broker bool :=
  tx (fun now x =>
    let '(persisted, d) := recordConnectionTokenRefresh i now (db x) in
    Ok (persisted, (x <| db := d |>) <| stores ::= fun l => l ++ List.map (fun r => {| st_row := r; st_spent := c |}) (changedRows (db x) d) |>)).
Definition setStatus (workspaceId : jstr) (c : ConnectionCredentialForBroker) (e : BrokerError) : Broker bool :=
  tx (fun now x =>
    let '(changed, d) := setConnectionStatus workspaceId needs_reauth (Some (message e)) (cr_id c) (cr_version c) now (db x) in
    Ok (changed, (x <| db := d |>) <| poisonings ::= fun l => l ++ List.map (fun r => {| po_row := r; po_error := e |}) (changedRows (db x) d) |>)).
Definition recordUsed (c : ConnectionCredentialForBroker) : Broker unit :=
  tx (fun now x => Ok (tt, x <| db := recordConnectionUsed (cr_workspaceId c) (cr_id c) now (db x) |>)).

(** ** The parts of a resolution *)

Definition snapshot (c : ConnectionCredentialForBroker) (ref : McpServerConnectionRef) (now : Z) : Broker ResolveResult :=
  if negb (bool_decide (cr_status c = active)) then Ret (authNeededForStatus c ref now)
  else
    match missingRequestedScopes (ref_scopes ref) (cr_grantedScopes c) with
    | s :: l => Ret (auth_needed insufficient_scope (ref_providerDomain ref) (Some (cr_id c)) (Some (s :: l)) (nonEmpty (ref_resource ref)))
    | [] =>
        match headersForCredential c with
        | None => Ret (auth_needed refresh_failed (ref_providerDomain ref) (Some (cr_id c)) (ref_scopes ref) (nonEmpty (ref_resource ref)))
        | Some headers => recordUsed c ;; Ret (ok headers (cr_id c) (cr_expiresAt c))
        end
    end.

(** The first load, its error caught; then what to do with it. *)
Definition lookup (i : ResolveInput) : Broker (option (option ConnectionCredentialForBroker)) :=
  catch (let* c := load (in_workspaceId i) (in_subjectId i) (in_ref i) in Ret (Some c)) (fun _ => Ret None).
Inductive Decision := Answer (r : ResolveResult) | Snapshot (c : ConnectionCredentialForBroker) | Refresh (c : ConnectionCredentialForBroker).
Definition decision (i : ResolveInput) (loaded : option (option ConnectionCredentialForBroker)) (now : Z) : Decision :=
  match loaded with
  | None => Answer (authNeeded (in_ref i) refresh_failed None)
  | Some None => Answer (authNeeded (in_ref i) missing_connection None)
  | Some (Some c) =>
      if negb (bool_decide (cr_status c = active)) then Answer (authNeededForStatus c (in_ref i) now)
      else if shouldRefresh c (in_forceRefresh i) now then Refresh c
      else Snapshot c
  end.

(** [performRefresh] up to its request, and after the answer. *)
Inductive Flight :=
| Asking (c : ConnectionCredentialForBroker) (ref : McpServerConnectionRef) (key : list Z) (request : TokenRequest)
| Storing (c : ConnectionCredentialForBroker) (p : Broker ConnectionCredentialForBroker).
Definition beginRefresh (c : ConnectionCredentialForBroker) (ref : McpServerConnectionRef) : Flight :=
  match environmentsEncryptionKeyBytes (store settings) with
  | Err e => Storing c (Throw (Failed (messageOf e)))
  | Ok None => Storing c (Throw (Failed (js "OPENGENI_ENVIRONMENTS_ENCRYPTION_KEY is not configured")))
  | Ok (Some key) => match refreshRequest c ref with Ok request => Asking c ref key request | Err e => Storing c (Throw e) end
  end.
Definition reload (c : ConnectionCredentialForBroker) (ref : McpServerConnectionRef) : Broker (option ConnectionCredentialForBroker) :=
  load (cr_workspaceId c) None (ref <| ref_connectionId := Some (cr_id c) |>).
Definition winner (c : ConnectionCredentialForBroker) (ref : McpServerConnectionRef) : Broker ConnectionCredentialForBroker :=
  let* w := reload c ref in
  match w with
  | Some w => if bool_decide (cr_status w = active) then Ret w else Throw (Failed (js "connection credential changed during token refresh"))
  | None => Throw (Failed (js "connection credential changed during token refresh"))
  end.
Definition finishRefresh (c : ConnectionCredentialForBroker) (ref : McpServerConnectionRef) (key iv : list Z) (lastRefreshAt : Z) (r : Refreshed) : Broker ConnectionCredentialForBroker :=
  match encryptEnvironmentValue key iv (JSON_stringify (JObj (rf_credential r))) with
  | Err _ => Throw (Failed (js "environment encryption key must be exactly 32 bytes"))
  | Ok stored =>
      let* persisted := recordRefresh c {| rr_id := cr_id c; rr_version := cr_version c; rr_workspaceId := cr_workspaceId c; rr_credentialEncrypted := stored;
                                           rr_expiresAt := rf_expiresAt r; rr_grantedScopes := rf_grantedScopes r; rr_lastRefreshAt := lastRefreshAt |} in
      if persisted then let* current := reload c ref in match current with Some current => Ret current | None => winner c ref end
      else winner c ref
  end.

(** What a resolver does with the outcome of the flight it waited for. *)
Definition resume (i : ResolveInput) (c : ConnectionCredentialForBroker) (now : Z) (outcome : result BrokerError ConnectionCredentialForBroker) : Broker ResolveResult :=
  match outcome with
  | Ok fresh => snapshot fresh (in_ref i) now
  | Err e =>
      (if isPermanentRefreshError e then catch (let* _ := setStatus (in_workspaceId i) c e in Ret tt) (fun _ => Ret tt) else Ret tt) ;;
      Ret (authNeeded (in_ref i) refresh_failed (Some (cr_id c)))
  end.

(** ** Processes *)

(** The key [${id}:${version}]. *)
Definition FlightKey : Type := jstr * Z.
Definition flightKey (c : ConnectionCredentialForBroker) : FlightKey := (cr_id c, cr_version c).
Inductive Resolver :=
| Resolving (i : ResolveInput) (p : Broker (option (option ConnectionCredentialForBroker)))
| Waiting (i : ResolveInput) (c : ConnectionCredentialForBroker)
| Ending (i : ResolveInput) (p : Broker ResolveResult).
Record Process := { inflight : gmap FlightKey Flight; resolvers : list Resolver; answers : list (ResolveInput * ResolveResult) }.
Definition idle : Process := {| inflight := ∅; resolvers := []; answers := [] |}.
Definition settled (key : FlightKey) (now : Z) (outcome : result BrokerError ConnectionCredentialForBroker) (r : Resolver) : Resolver :=
  match r with
  | Waiting i c => if bool_decide (flightKey c = key) then Ending i (resume i c now outcome) else r
  | _ => r
  end.
(** The answer ends a flight or lets it store what it got. *)
Definition replied (c : ConnectionCredentialForBroker) (ref : McpServerConnectionRef) (key iv : list Z) (request : TokenRequest) (addresses : option (list jstr)) (answer : Exchange) (now : Z) : Broker ConnectionCredentialForBroker :=
  match assertOAuthEndpointAllowed (tq_endpoint request) addresses with
  | Err e => Throw e
  | Ok _ => match refreshed c ref now answer with Ok r => finishRefresh c ref key iv now r | Err e => Throw e end
  end.
Definition exchanged (c : ConnectionCredentialForBroker) (request : TokenRequest) (addresses : option (list jstr)) (answer : Exchange) : list (ConnectionCredentialForBroker * Z) :=
  match assertOAuthEndpointAllowed (tq_endpoint request) addresses, answer with Ok _, Response status _ => [(c, status)] | _, _ => [] end.

(** One step of a resolver: a transaction, or going on to its next part. *)
Inductive resolver_step (x : BrokerDb) (w : Process) : Resolver -> BrokerDb -> gmap FlightKey Flight -> list Resolver -> list (ResolveInput * ResolveResult) -> Prop :=
| rs_lookup {R} i now (op : Z -> BrokerDb -> result BrokerError (R * BrokerDb)) next r x' : commits op now x r x' ->
    resolver_step x w (Resolving i (Tx op next)) x' (inflight w) [Resolving i (next r)] []
| rs_answer i loaded now r : decision i loaded now = Answer r -> resolver_step x w (Resolving i (Ret loaded)) x (inflight w) [] [(i, r)]
| rs_snapshot i loaded now c : decision i loaded now = Snapshot c ->
    resolver_step x w (Resolving i (Ret loaded)) x (inflight w) [Ending i (snapshot c (in_ref i) now)] []
| rs_join i loaded now c : decision i loaded now = Refresh c -> is_Some (inflight w !! flightKey c) ->
    resolver_step x w (Resolving i (Ret loaded)) x (inflight w) [Waiting i c] []
| rs_start i loaded now c : decision i loaded now = Refresh c -> inflight w !! flightKey c = None ->
    resolver_step x w (Resolving i (Ret loaded)) x (<[flightKey c := beginRefresh c (in_ref i)]> (inflight w)) [Waiting i c] []
| rs_ending {R} i now (op : Z -> BrokerDb -> result BrokerError (R * BrokerDb)) next r x' : commits op now x r x' ->
    resolver_step x w (Ending i (Tx op next)) x' (inflight w) [Ending i (next r)] []
| rs_done i r : resolver_step x w (Ending i (Ret r)) x (inflight w) [] [(i, r)]
| rs_reject i e : resolver_step x w (Ending i (Throw e)) x (inflight w) [] [].

(** The program of a settled promise. *)
Definition ended (outcome : result BrokerError ConnectionCredentialForBroker) : Broker ConnectionCredentialForBroker :=
  match outcome with Ok c => Ret c | Err e => Throw e end.
Inductive process_step (x : BrokerDb) (w : Process) : BrokerDb -> Process -> Prop :=
| ps_call i : process_step x w x {| inflight := inflight w; resolvers := Resolving i (lookup i) :: resolvers w; answers := answers w |}
| ps_resolver before r after x' flights next replies : resolvers w = before ++ r :: after -> resolver_step x w r x' flights next replies ->
    process_step x w x' {| inflight := flights; resolvers := before ++ next ++ after; answers := answers w ++ replies |}
| ps_reply key c ref secret iv request addresses answer now : inflight w !! key = Some (Asking c ref secret request) ->
    process_step x w (x <| exchanges ::= fun l => l ++ exchanged c request addresses answer |>)
      {| inflight := <[key := Storing c (replied c ref secret iv request addresses answer now)]> (inflight w); resolvers := resolvers w; answers := answers w |}
| ps_store {R} key c now (op : Z -> BrokerDb -> result BrokerError (R * BrokerDb)) next r x' : inflight w !! key = Some (Storing c (Tx op next)) -> commits op now x r x' ->
    process_step x w x' {| inflight := <[key := Storing c (next r)]> (inflight w); resolvers := resolvers w; answers := answers w |}
| ps_settle key c p outcome now : inflight w !! key = Some (Storing c p) -> p = ended outcome ->
    process_step x w x {| inflight := delete key (inflight w); resolvers := List.map (settled key now outcome) (resolvers w); answers := answers w |}.

Record World := { shared : BrokerDb; api : list (Connections.Handler unit); processes : list Process }.
(** Processes of the API change connections, the brokers of any number of
    processes resolve them; a process may be lost at any point. *)
Inductive world_step (w : World) : World -> Prop :=
| ws_api d tasks : pool_step (connection_task (store settings)) (db (shared w)) (api w) d tasks ->
    world_step w {| shared := (shared w) <| db := d |>; api := tasks; processes := processes w |}
| ws_process before p after x p' : processes w = before ++ p :: after -> process_step (shared w) p x p' ->
    world_step w {| shared := x; api := api w; processes := before ++ p' :: after |}
| ws_start : world_step w {| shared := shared w; api := api w; processes := processes w ++ [idle] |}
| ws_lost before p after : processes w = before ++ p :: after -> world_step w {| shared := shared w; api := api w; processes := before ++ after |}.

(** ** What a loaded credential says of its row *)

(** [r] holds the credential and the status of [c]. *)
Definition holds (r : ConnectionRow) (c : ConnectionCredentialForBroker) : Prop :=
  n_status r = cr_status c /\
  exists key, environmentsEncryptionKeyBytes (store settings) = Ok (Some key) /\ openCredential key (n_credentialEncrypted r) = Some (cr_credential c).
Record genuine (d : ConnectionDb) (c : ConnectionCredentialForBroker) : Prop := {
  ge_shared : cr_subjectId c = None;
  ge_row : exists r, r ∈ connections d /\ n_id r = cr_id c /\ n_workspaceId r = cr_workspaceId c /\ cr_version c <= n_version r /\ (n_version r = cr_version c -> holds r c)
}.
Lemma genuine_later d d' c : conn_later d d' -> genuine d c -> genuine d' c.
Proof.
  intros Hl [Hs (r & Hr & Hi & Hw & Hv & Hh)]. split; [done|]. destruct (Hl r Hr) as (r' & Hr' & [E1 E2 E3 E4]). exists r'.
  split_and!; [done|congruence|congruence|lia|]. intros E. destruct E4 as [C S]; [lia|]. destruct Hh as (H1 & key & K & O); [lia|].
  split; [congruence|]. exists key. by rewrite C.
Qed.
(** The row of its id, at its version, holds it. *)
Lemma genuine_holds d c r : conn_ok d -> genuine d c -> r ∈ connections d -> flightKey c = (n_id r, n_version r) -> holds r c.
Proof. intros Hok [_ (r' & Hr' & Hi & _ & _ & Hh)] Hr [= E1 E2]. assert (r' = r) as -> by (apply (numbered_unique n_id _ _ _ _ Hok Hr' Hr); congruence). by apply Hh. Qed.
Lemma genuine_workspace d c c' : conn_ok d -> genuine d c -> genuine d c' -> cr_id c = cr_id c' -> cr_workspaceId c = cr_workspaceId c'.
Proof. intros Hok [_ (r & Hr & Hi & Hw & _)] [_ (r' & Hr' & Hi' & Hw' & _)] E. assert (r = r') by (apply (numbered_unique n_id _ _ _ _ Hok Hr Hr'); congruence). congruence. Qed.
Lemma loaded_genuine i d c : li_allowSubjectOwned i = false -> loadConnectionCredentialForBroker (store settings) i d = Ok (Some c) ->
  genuine d c /\ cr_workspaceId c = li_workspaceId i.
Proof.
  intros Ho. unfold loadConnectionCredentialForBroker. destruct (environmentsEncryptionKeyBytes _) as [[key|]|] eqn:Ek; [|done..].
  destruct (head _) as [r|] eqn:Eh; [|done]. destruct (openCredential _ _) as [f|] eqn:Eo; [|done]. intros [= <-].
  apply head_Some_elem_of in Eh. rewrite sort_leb_perm in Eh. apply elem_of_select_where in Eh as [Hl Hr]. unfold loadable in Hl. rewrite Ho in Hl.
  apply andb_true_iff in Hl as [[Hw%same_eq Hs]%andb_true_iff _]. split; [|done]. split; [cbn; by destruct (n_subjectId r)|].
  exists r. split_and!; [done..|cbn; lia|]. intros _. split; [done|]. by exists key.
Qed.

(** One row at most has an id. *)
Lemma select_numbered p d k : conn_ok d -> (forall r, p r = true -> n_id r = k) ->
  select_where p (connections d) = [] \/ exists r, select_where p (connections d) = [r] /\ r ∈ connections d /\ p r = true.
Proof.
  intros [Hnd _] Hp. induction (connections d) as [|r t IH]; [by left|]. cbn in Hnd. apply NoDup_cons in Hnd as [Hn Hnd]. cbn. destruct (p r) eqn:E.
  - right. exists r. split_and!; [|by left|done]. f_equal. destruct (IH Hnd) as [?|(r' & _ & Hin & E')]; [done|]. exfalso. apply Hn.
    rewrite (Hp r E), <- (Hp r' E'). by apply list_elem_of_fmap_2.
  - destruct (IH Hnd) as [?|(r' & Es & Hin & E')]; [by left|]. right. exists r'. split_and!; [done|by right|done].
Qed.

(** ** The history *)

Definition storedKey (s : Stored) : FlightKey := (n_id (st_row s), n_version (st_row s)).
(** A stored refresh replaced the active credential it had spent. *)
Definition replaced (s : Stored) : Prop := n_status (st_row s) = active /\ flightKey (st_spent s) = storedKey s /\ holds (st_row s) (st_spent s).
(** The version of a stored refresh is past. *)
Definition superseded (d : ConnectionDb) (k : FlightKey) : Prop := exists r, r ∈ connections d /\ n_id r = k.1 /\ k.2 < n_version r.
(** A poisoned row held the active credential a token endpoint rejected for good. *)
Definition rejectedFor (exchanged : list (ConnectionCredentialForBroker * Z)) (p : Poisoned) : Prop :=
  exists c s, (c, s) ∈ exchanged /\ po_error p = RefreshHttp s /\ 400 <= s < 500 /\ s <> 408 /\ s <> 429 /\
    n_status (po_row p) = active /\ flightKey c = (n_id (po_row p), n_version (po_row p)) /\ holds (po_row p) c.
Record history_ok (x : BrokerDb) : Prop := {
  ho_conn : conn_ok (db x);
  ho_once : NoDup (List.map storedKey (stores x));
  ho_past s : s ∈ stores x -> superseded (db x) (storedKey s);
  ho_replaced s : s ∈ stores x -> replaced s;
  ho_poisoned p : p ∈ poisonings x -> rejectedFor (exchanges x) p
}.
Definition history_later (x x' : BrokerDb) : Prop := conn_later (db x) (db x') /\ exchanges x ⊆ exchanges x'.
#[local] Instance history_later_preorder : PreOrder history_later.
Proof. split; [by intros x|]. intros a b c [H1 H2] [H3 H4]. split; [by etransitivity|by etransitivity]. Qed.
Lemma superseded_later d d' k : conn_later d d' -> superseded d k -> superseded d' k.
Proof. intros Hl (r & Hr & Hi & Hv). destruct (Hl r Hr) as (r' & Hr' & [E1 _ E3 _]). exists r'. split_and!; [done|congruence|lia]. Qed.
Lemma rejectedFor_later l l' p : l ⊆ l' -> rejectedFor l p -> rejectedFor l' p.
Proof. intros Hl (c & s & Hc & H). exists c, s. split; [by apply Hl|done]. Qed.

(** A change of the connections alone. *)
Lemma history_connections x d : history_ok x -> conn_ok d -> conn_later (db x) d -> history_ok (x <| db := d |>) /\ history_later x (x <| db := d |>).
Proof. intros [H1 H2 H3 H4 H5] Hok Hl. split; [split; cbn; try done|by split]. intros s Hs. by eapply superseded_later, H3. Qed.

(** ** The programs of the broker *)

#[local] Abbreviation wp := (wp (E := BrokerError) (O := Outgoing) history_ok history_later).
(** A credential a process works with: it was active when it was loaded. *)
Definition good (x : BrokerDb) (c : ConnectionCredentialForBroker) : Prop := genuine (db x) c /\ cr_status c = active.
Lemma good_later x x' c : history_later x x' -> good x c -> good x' c.
Proof. intros [Hl _] [Hg Hs]. split; [by eapply genuine_later|done]. Qed.
Definition loadedIn (ws : jstr) (o : option ConnectionCredentialForBroker) (x : BrokerDb) : Prop :=
  match o with Some c => genuine (db x) c /\ cr_workspaceId c = ws | None => True end.
Lemma wp_load ws subject ref x : wp (load ws subject ref) (loadedIn ws) x.
Proof.
  apply (wp_tx history_ok history_later). intros x1 now o x2 _ Hok H. destruct (loadConnectionCredentialForBroker _ _ _) as [o'|] eqn:E; [|done].
  injection H as <- <-. split_and!; [done|reflexivity|]. destruct o' as [c|]; [|done]. by apply loaded_genuine in E.
Qed.
Lemma wp_quiet {R} (op : Z -> ConnectionDb -> R * ConnectionDb) (Q : R -> BrokerDb -> Prop) x :
  (forall now d, conn_ok d -> conn_ok (op now d).2 /\ conn_later d (op now d).2) ->
  (forall r x', history_later x x' -> Q r x') ->
  wp (tx (fun now x => let '(r, d) := op now (db x) in Ok (r, x <| db := d |>))) Q x.
Proof.
  intros Hop HQ. apply (wp_tx history_ok history_later). intros x1 now r x2 Hl Hok H. destruct (op now (db x1)) as [r' d] eqn:E. injection H as <- <-.
  destruct (Hop now (db x1) (ho_conn _ Hok)) as [H1 H2]. rewrite E in H1, H2. destruct (history_connections _ _ Hok H1 H2). split_and!; [done..|].
  apply HQ. by etransitivity.
Qed.

Lemma counted_past p f d k r : conn_ok d -> counted p f -> (forall r, p r = true -> n_version (f r) = n_version r + 1) -> r ∈ connections d -> p r = true ->
  k = (n_id r, n_version r) -> superseded (d <| connections ::= update_where p f |>) k.
Proof.
  intros Hok Hc Hv Hr Hp ->. exists (f r). split_and!; [apply elem_of_update_where; exists r; by rewrite Hp|by apply Hc|]. rewrite Hv by done. cbn. lia.
Qed.
Lemma changed_rows p f d : conn_ok d -> counted p f -> (forall r, p r = true -> n_version (f r) = n_version r + 1) ->
  changedRows d (d <| connections ::= update_where p f |>) = select_where p (connections d).
Proof.
  intros Hok Hc Hv. apply filter_ext_in. intros r Hr%list_elem_of_In. destruct (p r) eqn:Hp.
  - apply bool_decide_eq_true. intros (q & Hq & E)%elem_of_update_where. destruct (p q) eqn:Hpq; [|congruence].
    assert (q = r) as -> by (apply (numbered_unique n_id _ _ _ _ Hok Hq Hr); rewrite E; symmetry; by apply Hc). specialize (Hv r Hp). rewrite <- E in Hv. lia.
  - apply bool_decide_eq_false. intros H. apply H, elem_of_update_where. exists r. by rewrite Hp.
Qed.
Lemma wp_recordRefresh c i x : good x c -> rr_id i = cr_id c -> rr_version i = cr_version c -> wp (recordRefresh c i) (fun _ _ => True) x.
Proof.
  intros Hc Hi Hv. apply (wp_tx history_ok history_later). intros x1 now b x2 Hl Hok H. destruct (good_later _ _ _ Hl Hc) as [Hg Ha].
  unfold recordConnectionTokenRefresh, updateReporting in H. injection H as _ <-. pose proof (ho_conn _ Hok) as Hn.
  set (f := fun r : ConnectionRow => _) in |- *. assert (counted (renewable i) f) as Hf by (by apply counted_bump). pose proof (changed_rows (renewable i) f (db x1) Hn Hf (fun _ _ => eq_refl)) as Ech.
  destruct (update_later (renewable i) f (db x1) Hf Hn) as [Hn' Hl']. destruct (history_connections _ _ Hok Hn' Hl') as [Hok' Hle].
  split_and!; [|split; [exact Hl'|done]|done]. cbn in Hok'. destruct Hok' as [_ O P R Q].
  assert (forall r, renewable i r = true -> n_id r = cr_id c) as Hid by (intros r [[[_ E%same_eq]%andb_true_iff _]%andb_true_iff _]%andb_true_iff; congruence).
  destruct (select_numbered (renewable i) (db x1) _ Hn Hid) as [E|(r & E & Hr & Hp)]; cbn; cbn in Ech; rewrite Ech, E; cbn; [rewrite app_nil_r; by split|].
  pose proof Hp as [[_ Ev%Z.eqb_eq]%andb_true_iff Es%bool_decide_eq_true]%andb_true_iff. pose proof (Hid _ Hp) as Ei.
  assert (flightKey c = (n_id r, n_version r)) as Ek by (unfold flightKey; congruence).
  assert (forall s, s ∈ stores x1 ++ [{| st_row := r; st_spent := c |}] -> s ∈ stores x1 \/ s = {| st_row := r; st_spent := c |}) as Hin
    by (intros s [?|?%list_elem_of_singleton]%elem_of_app; auto).
  split; cbn; [done|..|exact Q].
  - rewrite List.map_app. cbn. apply NoDup_app. split_and!; [done| |apply NoDup_singleton]. intros k (s & -> & Hs)%list_elem_of_fmap Hk%list_elem_of_singleton.
    destruct (ho_past _ Hok s Hs) as (r0 & Hr0 & Hi0 & Hv0). rewrite Hk in Hi0, Hv0. cbn in Hi0, Hv0.
    assert (r0 = r) as -> by (by apply (numbered_unique n_id _ _ _ _ Hn)). lia.
  - intros s [Hs| ->]%Hin; [by apply P|]. by eapply counted_past.
  - intros s [Hs| ->]%Hin; [by apply R|]. split; [done|split; [done|]]. exact (genuine_holds _ _ _ Hn Hg Hr Ek).
Qed.
Definition blamed (x : BrokerDb) (c : ConnectionCredentialForBroker) (e : BrokerError) : Prop :=
  isPermanentRefreshError e = true -> exists c' s, (c', s) ∈ exchanges x /\ e = RefreshHttp s /\ good x c' /\ flightKey c' = flightKey c.
Lemma blamed_later x x' c e : history_later x x' -> blamed x c e -> blamed x' c e.
Proof. intros Hl Hb Hp. destruct (Hb Hp) as (c' & s & Hin & He & Hg & Hk). exists c', s. split_and!; [by apply Hl|done|by eapply good_later|done]. Qed.
Lemma wp_setStatus ws c e x : isPermanentRefreshError e = true -> blamed x c e -> wp (setStatus ws c e) (fun _ _ => True) x.
Proof.
  intros Hp Hb. apply (wp_tx history_ok history_later). intros x1 now b x2 Hl Hok H. destruct (blamed_later _ _ _ _ Hl Hb Hp) as (c' & s & Hin & He & [Hg Ha] & Hk).
  unfold setConnectionStatus, updateReporting in H. injection H as _ <-. pose proof (ho_conn _ Hok) as Hn.
  set (p := atVersion _ _ _) in |- *. set (f := fun r : ConnectionRow => _) in |- *. assert (counted p f) as Hf by (by apply counted_bump). pose proof (changed_rows p f (db x1) Hn Hf (fun _ _ => eq_refl)) as Ech.
  destruct (update_later p f (db x1) Hf Hn) as [Hn' Hl']. destruct (history_connections _ _ Hok Hn' Hl') as [[_ O P R Q] Hle].
  split_and!; [|split; [exact Hl'|done]|done]. split; cbn in *; try done. rewrite Ech.
  intros q [Hq|(r & -> & [Er Hr]%elem_of_select_where)%list_elem_of_fmap]%elem_of_app; [by apply Q|].
  unfold p, atVersion, connectionIs in Er. apply andb_true_iff in Er as [[_ Ei%same_eq]%andb_true_iff Ev%Z.eqb_eq].
  assert (flightKey c' = (n_id r, n_version r)) as Ek by (rewrite Hk; unfold flightKey; congruence).
  pose proof (genuine_holds _ _ _ Hn Hg Hr Ek) as Hh. rewrite He in Hp. cbn in Hp. exists c', s. split_and!; [done|done|lia..| |done|done]. cbn. destruct Hh as [-> _]. done.
Qed.

(** An answer with headers carries those of an active credential of the workspace
    that has every scope asked for. *)
Definition answer_ok (i : ResolveInput) (r : ResolveResult) (x : BrokerDb) : Prop :=
  match r with
  | ok headers id expiresAt =>
      exists c, good x c /\ cr_id c = id /\ cr_workspaceId c = in_workspaceId i /\ cr_expiresAt c = expiresAt /\ headersForCredential c = Some headers /\
        missingRequestedScopes (ref_scopes (in_ref i)) (cr_grantedScopes c) = []
  | auth_needed _ domain _ _ _ => domain = ref_providerDomain (in_ref i)
  end.
Lemma answer_later i r x x' : history_later x x' -> answer_ok i r x -> answer_ok i r x'.
Proof. intros Hl. destruct r; [|done]. intros (c & Hg & H). exists c. split; [by eapply good_later|done]. Qed.
Lemma wp_snapshot i c now x : genuine (db x) c -> cr_workspaceId c = in_workspaceId i -> wp (snapshot c (in_ref i) now) (answer_ok i) x.
Proof.
  intros Hg Hw. unfold snapshot. destruct (bool_decide _) eqn:Es; [apply bool_decide_eq_true in Es|unfold authNeededForStatus; by destruct (cr_status c)]. cbn [negb].
  destruct (missingRequestedScopes _ _) eqn:Em; [|done]. destruct (headersForCredential c) as [h|] eqn:Eh; [|done].
  apply (wp_then _ _ (fun _ x' => good x' c)); [|intros [] x' Hc; by exists c].
  apply (wp_quiet (fun now d => (tt, recordConnectionUsed (cr_workspaceId c) (cr_id c) now d))); [intros now1 d; apply used_later|].
  intros _ x' Hl. by eapply good_later.
Qed.
Lemma wp_lookup i x : wp (lookup i) (fun o x => loadedIn (in_workspaceId i) (default None o) x) x.
Proof.
  unfold lookup. cbn. intros x1 now r x2 Hl Hok Hc. inversion Hc; subst; [|by split_and!..].
  destruct (loadConnectionCredentialForBroker _ _ _) as [o|] eqn:E; [|done]. injection H as <- <-. split_and!; [done|reflexivity|]. cbn.
  destruct o as [c|]; [|done]. by apply loaded_genuine in E.
Qed.
Definition freshFor (c c' : ConnectionCredentialForBroker) (x : BrokerDb) : Prop := genuine (db x) c' /\ cr_workspaceId c' = cr_workspaceId c.
Lemma wp_winner c ref x : wp (winner c ref) (freshFor c) x.
Proof. eapply wp_then; [apply wp_load|]. intros [w|] x' H; [|done]. by destruct (bool_decide _). Qed.
Lemma wp_finish c ref key iv now r x : good x c -> wp (finishRefresh c ref key iv now r) (freshFor c) x.
Proof.
  intros Hc. unfold finishRefresh. destruct (encryptEnvironmentValue _ _ _); [|done]. eapply wp_then; [by apply wp_recordRefresh|].
  intros [] x' _; [|apply wp_winner]. eapply wp_then; [apply wp_load|]. intros [w|] x2 H; [done|apply wp_winner].
Qed.
Lemma wp_resume i c now outcome x : (forall fresh, outcome = Ok fresh -> genuine (db x) fresh /\ cr_workspaceId fresh = in_workspaceId i) ->
  (forall e, outcome = Err e -> blamed x c e) -> wp (resume i c now outcome) (answer_ok i) x.
Proof.
  intros Hf He. destruct outcome as [fresh|e]; [destruct (Hf fresh eq_refl); by apply wp_snapshot|]. cbn [resume].
  apply (wp_then _ _ (fun _ _ => True)); [|done]. destruct (isPermanentRefreshError e) eqn:Ep; [|done].
  apply (safe_catch (I := history_ok) (le := history_later)); [done|]. apply (wp_then _ _ (fun _ _ => True)); [|done]. by apply wp_setStatus; [|apply He].
Qed.

(** What a program may throw, its transactions committing as they may. *)
Fixpoint throws {A} (P : BrokerError -> Prop) (m : Broker A) : Prop :=
  match m with
  | Ret _ => True
  | Throw e => P e
  | Tx op next => forall now x r x', commits op now x r x' -> throws P (next r)
  | Emit _ next => throws P next
  end.
Lemma throws_weaken {A} (P P' : BrokerError -> Prop) (m : Broker A) : (forall e, P e -> P' e) -> throws P m -> throws P' m.
Proof. intros HP. induction m as [a|e|R op next IH|o next IH]; cbn; auto. intros H now x r x' Hc. by eapply IH, H. Qed.
Lemma throws_bind {A B} P (m : Broker A) (k : A -> Broker B) : throws P m -> (forall a, throws P (k a)) -> throws P (bind m k).
Proof. intros Hm Hk. induction m as [a|e|R op next IH|o next IH]; cbn in *; auto. intros now x r x' Hc. by eapply IH, Hm. Qed.
Lemma throws_tx {R} P (op : Z -> BrokerDb -> result BrokerError (R * BrokerDb)) : P unavailable -> (forall now x e, op now x = Err e -> P e) -> throws P (tx op).
Proof. intros Hu Ho now x r x' [r' x2 E|e E|]; cbn; [done|by eapply Ho|done]. Qed.
(** Errors that poison nothing. *)
Definition mild (e : BrokerError) : Prop := isPermanentRefreshError e = false.
Lemma throws_load ws subject ref : throws mild (load ws subject ref).
Proof. apply throws_tx; [done|]. intros now x e. destruct (loadConnectionCredentialForBroker _ _ _); [done|]. by intros [= <-]. Qed.
Lemma throws_winner c ref : throws mild (winner c ref).
Proof. apply throws_bind; [apply throws_load|]. intros [w|]; [|done]. by destruct (bool_decide _). Qed.
Lemma throws_finish c ref key iv now r : throws mild (finishRefresh c ref key iv now r).
Proof.
  unfold finishRefresh. destruct (encryptEnvironmentValue _ _ _); [|done]. apply throws_bind.
  - apply throws_tx; [done|]. intros now1 x e. by destruct (recordConnectionTokenRefresh _ _ _).
  - intros []; [|apply throws_winner]. apply throws_bind; [apply throws_load|]. intros [w|]; [done|apply throws_winner].
Qed.
Lemma mild_blamed x c e : mild e -> blamed x c e.
Proof. intros H Hp. unfold mild in H. congruence. Qed.

(** ** Processes *)

Definition flight_ok (x : BrokerDb) (key : FlightKey) (f : Flight) : Prop :=
  match f with
  | Asking c _ _ _ => good x c /\ flightKey c = key
  | Storing c p => good x c /\ flightKey c = key /\ wp p (freshFor c) x /\ throws (blamed x c) p
  end.
Definition resolver_ok (x : BrokerDb) (flights : gmap FlightKey Flight) (r : Resolver) : Prop :=
  match r with
  | Resolving i p => wp p (fun o x => loadedIn (in_workspaceId i) (default None o) x) x
  | Waiting i c => good x c /\ cr_workspaceId c = in_workspaceId i /\ is_Some (flights !! flightKey c)
  | Ending i p => wp p (answer_ok i) x
  end.
Record process_ok (x : BrokerDb) (w : Process) : Prop := {
  pr_flights : map_Forall (flight_ok x) (inflight w);
  pr_resolvers : Forall (resolver_ok x (inflight w)) (resolvers w);
  pr_answers : Forall (fun a => answer_ok a.1 a.2 x) (answers w)
}.
Lemma freshFor_later c c' x x' : history_later x x' -> freshFor c c' x -> freshFor c c' x'.
Proof. intros [Hl _] [Hg Hw]. split; [by eapply genuine_later|done]. Qed.
Lemma loadedIn_later ws o x x' : history_later x x' -> loadedIn ws o x -> loadedIn ws o x'.
Proof. intros [Hl _]. destruct o as [c|]; [|done]. intros [Hg Hw]. split; [by eapply genuine_later|done]. Qed.
Lemma wp_keeps {A} (m : Broker A) Q x x' : history_later x x' -> (forall a x x', history_later x x' -> Q a x -> Q a x') -> wp m Q x -> wp m Q x'.
Proof. intros Hl HQ. exact (wp_later history_ok history_later m Q HQ x x' Hl). Qed.
Lemma flight_later x x' key f : history_later x x' -> flight_ok x key f -> flight_ok x' key f.
Proof.
  intros Hl. destruct f as [c ref secret rq|c p]; cbn; [intros [Hg Hk]; split; [by eapply good_later|done]|]. intros (Hg & Hk & Hw & Ht).
  split; [by eapply good_later|split; [done|]]. split; [apply (wp_keeps _ _ _ _ Hl); [by intros; eapply freshFor_later|done]|eapply throws_weaken; [|exact Ht]; intros e; by apply blamed_later].
Qed.
Lemma resolver_later x x' flights flights' r : history_later x x' -> (forall k, is_Some (flights !! k) -> is_Some (flights' !! k)) ->
  resolver_ok x flights r -> resolver_ok x' flights' r.
Proof.
  intros Hl Hf. destruct r as [i p|i c|i p]; cbn.
  - apply (wp_keeps _ _ _ _ Hl). intros; by eapply loadedIn_later.
  - intros (Hg & Hw & Hk). split_and!; [by eapply good_later|done|by apply Hf].
  - apply (wp_keeps _ _ _ _ Hl). intros; by eapply answer_later.
Qed.
Lemma process_later x x' w : history_later x x' -> process_ok x w -> process_ok x' w.
Proof.
  intros Hl [Hf Hr Ha]. split; [intros k f Hk; by eapply flight_later, Hf| |]; (eapply Forall_impl; [eassumption|]).
  - intros r. by apply resolver_later.
  - intros a. by apply answer_later.
Qed.

Lemma decided_refresh i loaded now c : decision i loaded now = Refresh c -> loaded = Some (Some c) /\ cr_status c = active.
Proof.
  unfold decision. destruct loaded as [[c'|]|]; [|done..]. destruct (bool_decide _) eqn:Es; [|done]. cbn. destruct (shouldRefresh _ _ _); [|done].
  intros [= ->]. by apply bool_decide_eq_true in Es.
Qed.
(** A step keeps the history and the process. *)
Definition evolves (x x' : BrokerDb) (P : Prop) : Prop := history_ok x' /\ history_later x x' /\ P.
Lemma commit_wp {A R} (op : Z -> BrokerDb -> result BrokerError (R * BrokerDb)) next (Q : A -> BrokerDb -> Prop) now x r x' :
  history_ok x -> wp (Tx op next) Q x -> commits op now x r x' -> evolves x x' (wp (next r) Q x').
Proof. intros Hok Hw Hc. cbn in Hw. destruct (Hw x now r x') as (H1 & H2 & H3); [reflexivity|done..|]. by split_and!. Qed.
Lemma begin_ok x i c : good x c -> flight_ok x (flightKey c) (beginRefresh c (in_ref i)).
Proof.
  intros Hg. unfold beginRefresh. destruct (environmentsEncryptionKeyBytes _) as [[key|]|]; [|by split_and!..].
  destruct (refreshRequest c (in_ref i)) as [rq|e] eqn:E; [by split|]. split_and!; [done..|]. cbn. apply mild_blamed. unfold refreshRequest in E.
  destruct (field "refresh_token" _); [|by injection E as <-]. destruct (orElse (field "token_endpoint" _) _); [done|by injection E as <-].
Qed.
Lemma resolver_step_ok x w r x' flights next replies : resolver_step x w r x' flights next replies -> history_ok x -> map_Forall (flight_ok x) (inflight w) ->
  resolver_ok x (inflight w) r -> evolves x x' (map_Forall (flight_ok x') flights /\ (forall k, is_Some (inflight w !! k) -> is_Some (flights !! k)) /\
    Forall (resolver_ok x' flights) next /\ Forall (fun a => answer_ok a.1 a.2 x') replies).
Proof.
  assert (forall x x', history_later x x' -> map_Forall (flight_ok x) (inflight w) -> map_Forall (flight_ok x') (inflight w)) as Hm
    by (intros y y' Hl Hf k f Hk; by eapply flight_later, Hf).
  destruct 1 as [R i now op next r x' Hc|i loaded now r Hd|i loaded now c Hd|i loaded now c Hd Hk|i loaded now c Hd Hk|R i now op next r x' Hc|i r|i e]; intros Hok Hf Hr.
  - destruct (commit_wp _ _ _ _ _ _ _ Hok Hr Hc) as (H1 & H2 & H3). split_and!; [done|done|by eapply Hm|done|by apply Forall_singleton|done].
  - split_and!; [done|reflexivity|done|done|done|]. apply Forall_singleton. cbn. unfold decision in Hd. destruct loaded as [[c|]|]; [|by injection Hd as <-..].
    destruct (negb _); [injection Hd as <-; unfold authNeededForStatus; by destruct (cr_status c)|]. by destruct (shouldRefresh _ _ _).
  - split_and!; [done|reflexivity|done|done| |done]. apply Forall_singleton. cbn in Hr. unfold decision in Hd. destruct loaded as [[c'|]|]; [|done..].
    destruct (negb _); [done|]. destruct (shouldRefresh _ _ _); [done|]. injection Hd as ->. destruct Hr. by apply wp_snapshot.
  - apply decided_refresh in Hd as [-> Hs]. destruct Hr as [Hg Hw]. split_and!; [done|reflexivity|done|done| |done]. apply Forall_singleton. by split_and!.
  - apply decided_refresh in Hd as [-> Hs]. destruct Hr as [Hg Hw].
    split_and!; [done|reflexivity| | | |done].
    + apply map_Forall_insert_2; [by apply begin_ok; split|done].
    + intros k Hk'. by apply lookup_insert_is_Some', or_intror.
    + apply Forall_singleton. split_and!; [done..|]. rewrite lookup_insert. case_decide; [by eexists|done].
  - destruct (commit_wp _ _ _ _ _ _ _ Hok Hr Hc) as (H1 & H2 & H3). split_and!; [done|done|by eapply Hm|done|by apply Forall_singleton|done].
  - split_and!; [done|reflexivity|done|done|done|]. by apply Forall_singleton.
  - split_and!; [done|reflexivity|done..].
Qed.

Lemma exchange_later x l : history_ok x -> history_ok (x <| exchanges ::= fun e => e ++ l |>) /\ history_later x (x <| exchanges ::= fun e => e ++ l |>).
Proof.
  intros [H1 H2 H3 H4 H5]. assert (exchanges x ⊆ exchanges x ++ l) as Hl by (intros e He; apply elem_of_app; by left).
  split; [split; cbn; try done|by split]. intros p Hp. by eapply rejectedFor_later, H5.
Qed.
Lemma refreshed_blamed x c ref now answer e s : good x c -> refreshed c ref now answer = Err e -> (forall status body, answer = Response status body -> s = [(c, status)]) ->
  blamed (x <| exchanges ::= fun l => l ++ s |>) c e.
Proof.
  intros Hg H Hs. unfold refreshed in H. destruct answer as [|status body]; [by injection H as <-|]. destruct (negb _).
  - injection H as <-. intros _. exists c, status. split_and!; [|done|done|done]. cbn. rewrite (Hs _ _ eq_refl). apply elem_of_app. right. by left.
  - apply mild_blamed. destruct body as [body|]; [|by injection H as <-].
    assert (forall (o : option jstr) (b : bool) r, match o with Some _ => if b then fails "Invalid time value" else Ok r | None => fails (A := Refreshed) "connection refresh response did not include access_token" end = Err e -> mild e) as Hm
      by (intros [t|] [] r; try done; by intros [= <-]).
    destruct body; try (by injection H as <-); (destruct (stringValue (prop (js "access_token") _)) as [t|]; [by apply (Hm (Some t) _ _ H)|by injection H as <-]).
Qed.
Lemma replied_ok x key c ref secret iv request addresses answer now : history_ok x -> flight_ok x key (Asking c ref secret request) ->
  flight_ok (x <| exchanges ::= fun l => l ++ exchanged c request addresses answer |>) key (Storing c (replied c ref secret iv request addresses answer now)).
Proof.
  intros Hok [Hg Hk]. split; [by eapply good_later; [apply exchange_later|]|split; [done|]]. unfold replied, exchanged.
  destruct (assertOAuthEndpointAllowed _ _) as [[]|e] eqn:Ea.
  - destruct (refreshed c ref now answer) as [r|e] eqn:Er; [|split; [done|]; cbn; eapply refreshed_blamed; [done..|]; by intros ? ? ->].
    split; [apply wp_finish; by eapply good_later; [apply exchange_later|]|]. eapply throws_weaken; [apply mild_blamed|apply throws_finish].
  - split; [done|]. cbn. apply mild_blamed. unfold assertOAuthEndpointAllowed, fails in Ea. by repeat (case_match; simplify_eq; try done).
Qed.
Lemma settled_ok x w key c p outcome now r : history_ok x -> flight_ok x key (Storing c p) -> p = ended outcome -> resolver_ok x (inflight w) r ->
  resolver_ok x (delete key (inflight w)) (settled key now outcome r).
Proof.
  intros Hok (Hg & Hk & Hw & Ht) -> Hr. destruct r as [i p|i cw|i p]; [done| |done]. destruct Hr as (Hgw & Hww & Hin). cbn. case_bool_decide as E.
  - assert (cr_workspaceId c = in_workspaceId i) as Hws.
    { rewrite <- Hww. rewrite <- Hk in E. injection E as E _. by eapply genuine_workspace; [apply Hok|apply Hg|apply Hgw|]. }
    apply wp_resume; intros y ->; cbn in Hw, Ht; [destruct Hw as [H1 H2]; split; [done|congruence]|].
    intros Hp. destruct (Ht Hp) as (c' & s & H1 & H2 & H3 & H4). exists c', s. split_and!; [done..|congruence].
  - split_and!; [done..|]. by rewrite lookup_delete_ne.
Qed.
Lemma process_step_ok x w x' w' : process_step x w x' w' -> history_ok x -> process_ok x w -> evolves x x' (process_ok x' w').
Proof.
  destruct 1 as [i|before r after x' flights next replies Er Hs|key c ref secret iv request addresses answer now Hk|R key c now op next r x' Hk Hc|key c p outcome now Hk Hp];
    intros Hok [Hf Hr Ha].
  - split_and!; [done|reflexivity|]. split; [done| |done]. cbn. apply Forall_cons. split; [|done]. apply wp_lookup.
  - rewrite Er in Hr. apply Forall_app in Hr as [Hb [Hr Haf]%Forall_cons]. destruct (resolver_step_ok _ _ _ _ _ _ _ Hs Hok Hf Hr) as (H1 & H2 & H3 & H4 & H5 & H6).
    split_and!; [done|done|]. split; cbn; [done| |apply Forall_app; split; [|done]; eapply Forall_impl; [exact Ha|]; intros a; by apply answer_later].
    rewrite !Forall_app. split_and!; [|done|]; (eapply Forall_impl; [eassumption|]); intros r0; by apply resolver_later.
  - destruct (exchange_later x (exchanged c request addresses answer) Hok) as [H1 H2]. split_and!; [done|done|].
    destruct (process_later _ _ _ H2 (Build_process_ok _ _ Hf Hr Ha)) as [Hf' Hr' Ha']. split; cbn; [|eapply Forall_impl; [exact Hr'|]|done].
    + apply map_Forall_insert_2; [|done]. apply replied_ok; [done|exact (Hf _ _ Hk)].
    + intros r. apply resolver_later; [reflexivity|]. intros k ?. by apply lookup_insert_is_Some', or_intror.
  - destruct (Hf _ _ Hk) as (Hg & Hkey & Hw & Ht). destruct (commit_wp _ _ _ _ _ _ _ Hok Hw Hc) as (H1 & H2 & H3). split_and!; [done|done|].
    destruct (process_later _ _ _ H2 (Build_process_ok _ _ Hf Hr Ha)) as [Hf' Hr' Ha']. split; cbn; [|eapply Forall_impl; [exact Hr'|]|done].
    + apply map_Forall_insert_2; [|done]. split; [by eapply good_later|split; [done|split; [done|]]]. cbn in Ht. specialize (Ht _ _ _ _ Hc).
      eapply throws_weaken; [|exact Ht]. intros e. by apply blamed_later.
    + intros r0. apply resolver_later; [reflexivity|]. intros k ?. by apply lookup_insert_is_Some', or_intror.
  - split_and!; [done|reflexivity|]. split; cbn; [intros k f [_ Hkf]%lookup_delete_Some; by apply (Hf k f)| |done].
    apply Forall_map. eapply Forall_impl; [exact Hr|]. intros r. by apply (settled_ok _ _ _ _ _ _ _ _ Hok (Hf _ _ Hk)).
Qed.

(** ** Worlds *)

#[local] Abbreviation safeTask d := (fun m => safe (E := AccessError) (O := Access.Outgoing) conn_ok conn_later m d).
Record world_ok (w : World) : Prop := {
  wo_history : history_ok (shared w);
  wo_api : Forall (safeTask (db (shared w))) (api w);
  wo_processes : Forall (process_ok (shared w)) (processes w)
}.
Lemma world_step_ok w w' : world_step w w' -> world_ok w -> world_ok w'.
Proof.
  destruct 1 as [d tasks Hs|before p after x p' Ep Hs| |before p after Ep]; intros [Hh Ha Hp].
  - destruct (pool_step_safe conn_ok conn_later _ _ _ _ _ (fun m d => safe_connection_task (store settings) m d) Hs (ho_conn _ Hh) Ha) as (H1 & H2 & H3).
    destruct (history_connections _ _ Hh H1 H2) as [H4 H5]. split; cbn; [done|done|]. eapply Forall_impl; [exact Hp|]. intros p. by apply process_later.
  - rewrite Ep in Hp. apply Forall_app in Hp as [Hb [Hp Haf]%Forall_cons]. destruct (process_step_ok _ _ _ _ Hs Hh Hp) as (H1 & H2 & H3). split; cbn; [done| |].
    + eapply Forall_impl; [exact Ha|]. intros m. by apply (wp_later conn_ok conn_later m (fun _ _ => True)), H2.
    + apply Forall_app. split; [|apply Forall_cons; split; [done|]]; (eapply Forall_impl; [eassumption|]); intros q; by apply process_later.
  - split; cbn; [done..|]. apply Forall_app. split; [done|]. apply Forall_singleton. split; cbn; [apply map_Forall_empty|done|done].
  - rewrite Ep in Hp. apply Forall_app in Hp as [Hb [_ Haf]%Forall_cons]. split; cbn; [done..|]. apply Forall_app. by split.
Qed.
Definition start (d : ConnectionDb) : World := {| shared := {| db := d; stores := []; poisonings := []; exchanges := [] |}; api := []; processes := [] |}.
Lemma reachable_ok d w : conn_ok d -> rtc world_step (start d) w -> world_ok w.
Proof.
  intros Hd H. assert (world_ok (start d)) as H0 by (split; cbn; [split; cbn; [done|apply NoDup_nil_2|..]; by intros ? ?%elem_of_nil|done|done]).
  clear Hd. induction H as [w|w1 w2 w3 H _ IH]; [done|]. by eapply IH, world_step_ok.
Qed.


(** Who waits, waits for a flight of its process; who is answered with headers
    gets those of an active credential of its workspace with the scopes it needs. *)
Theorem resolutions_are_honest d w : conn_ok d -> rtc world_step (start d) w -> forall p, p ∈ processes w ->
  (forall i c, Waiting i c ∈ resolvers p -> is_Some (inflight p !! flightKey c)) /\
  forall i r, (i, r) ∈ answers p -> answer_ok i r (shared w).
Proof.
  intros Hd H p Hp. destruct (reachable_ok _ _ Hd H) as [_ _ Hps]. rewrite Forall_forall in Hps. destruct (Hps p Hp) as [_ Hr Ha]. rewrite Forall_forall in Hr. rewrite Forall_forall in Ha. split.
  - intros i c Hin. by apply (Hr (Waiting i c)).
  - intros i r Hin. by apply (Ha (i, r)).
Qed.

(** A request goes, outside local and test settings, over https to a host all of
    whose addresses are public. *)
Lemma endpoint_allowed url addresses : assertOAuthEndpointAllowed url addresses = Ok tt ->
  integrationsAllowPrivateNetworkTargets settings = true \/ environment settings ∈ [js "local"; js "test"] \/
  exists host l, parseUrl url = Some (js "https:", host) /\ forallb (fun a => negb (isPrivateAddress isIPv6 a)) l = true /\
    (l = [PayloadSanitizer.toLowerCase host] \/ addresses = Some l).
Proof.
  unfold assertOAuthEndpointAllowed, fails. destruct (integrationsAllowPrivateNetworkTargets settings); [by left|]. case_bool_decide as E; [by right; left|]. cbn [orb].
  destruct (parseUrl url) as [[protocol host]|]; [|done]. destruct (same protocol _) eqn:Ep; [apply same_eq in Ep as ->|done]. cbn [negb].
  destruct (same _ _ || _); [done|]. destruct (isIPv4 _ || isIPv6 _); [|destruct addresses as [l|]; [|done]]; (destruct (existsb _ _) eqn:Ee; [done|]); intros _; right; right.
  - exists host, [PayloadSanitizer.toLowerCase host]. split_and!; [done| |by left]. cbn in *. by destruct (isPrivateAddress _ _).
  - exists host, l. split_and!; [done| |by right]. apply forallb_forall. intros a Ha. apply negb_true_iff, not_true_iff_false. intros Hx.
    apply not_true_iff_false in Ee. apply Ee, existsb_exists. by exists a.
Qed.

(** ** Running processes

    The steps of a given process, chosen one by one. *)
Inductive Choice :=
| Call (i : ResolveInput)
| Advance (index : nat) (now : Z)
| Reply (key : FlightKey) (iv : list Z) (addresses : option (list jstr)) (answer : Exchange) (now : Z)
| Land (key : FlightKey) (now : Z)
| Settle (key : FlightKey) (now : Z).
Definition commit {R} (op : Z -> BrokerDb -> result BrokerError (R * BrokerDb)) (now : Z) (x : BrokerDb) : result BrokerError R * BrokerDb :=
  match op now x with Ok (r, x') => (Ok r, x') | Err e => (Err e, x) end.
Lemma commit_commits {R} (op : Z -> BrokerDb -> result BrokerError (R * BrokerDb)) now x : commits op now x (commit op now x).1 (commit op now x).2.
Proof. unfold commit. destruct (op now x) as [[r x']|e] eqn:E; [by apply commits_ok|by apply commits_err]. Qed.

Definition advance (x : BrokerDb) (w : Process) (now : Z) (r : Resolver) : option (BrokerDb * gmap FlightKey Flight * list Resolver * list (ResolveInput * ResolveResult)) :=
  match r with
  | Resolving i (Tx op next) => let '(r, x') := commit op now x in Some (x', inflight w, [Resolving i (next r)], [])
  | Resolving i (Ret loaded) =>
      match decision i loaded now with
      | Answer r => Some (x, inflight w, [], [(i, r)])
      | Snapshot c => Some (x, inflight w, [Ending i (snapshot c (in_ref i) now)], [])
      | Refresh c =>
          match inflight w !! flightKey c with
          | Some _ => Some (x, inflight w, [Waiting i c], [])
          | None => Some (x, <[flightKey c := beginRefresh c (in_ref i)]> (inflight w), [Waiting i c], [])
          end
      end
  | Ending i (Tx op next) => let '(r, x') := commit op now x in Some (x', inflight w, [Ending i (next r)], [])
  | Ending i (Ret r) => Some (x, inflight w, [], [(i, r)])
  | Ending i (Throw e) => Some (x, inflight w, [], [])
  | _ => None
  end.
Lemma advance_sound x w now r x' flights next replies : advance x w now r = Some (x', flights, next, replies) -> resolver_step x w r x' flights next replies.
Proof.
  destruct r as [i [loaded|e|R op k|o k]|i c|i [a|e|R op k|o k]]; cbn; try done.
  - destruct (decision i loaded now) as [a|c|c] eqn:E; [intros [= <- <- <- <-]; by econstructor..|].
    destruct (inflight w !! flightKey c) eqn:Ef; intros [= <- <- <- <-]; [by eapply rs_join|by eapply rs_start].
  - pose proof (commit_commits op now x) as Hc. destruct (commit op now x). intros [= <- <- <- <-]. by econstructor.
  - intros [= <- <- <- <-]. constructor.
  - intros [= <- <- <- <-]. constructor.
  - pose proof (commit_commits op now x) as Hc. destruct (commit op now x). intros [= <- <- <- <-]. by econstructor.
Qed.

Definition choose (c : Choice) (x : BrokerDb) (w : Process) : option (BrokerDb * Process) :=
  match c with
  | Call i => Some (x, {| inflight := inflight w; resolvers := Resolving i (lookup i) :: resolvers w; answers := answers w |})
  | Advance index now =>
      match resolvers w !! index with
      | None => None
      | Some r =>
          match advance x w now r with
          | None => None
          | Some (x', flights, next, replies) =>
              Some (x', {| inflight := flights; resolvers := take index (resolvers w) ++ next ++ drop (S index) (resolvers w); answers := answers w ++ replies |})
          end
      end
  | Reply key iv addresses answer now =>
      match inflight w !! key with
      | Some (Asking c ref secret request) =>
          Some (x <| exchanges ::= fun l => l ++ exchanged c request addresses answer |>,
            {| inflight := <[key := Storing c (replied c ref secret iv request addresses answer now)]> (inflight w); resolvers := resolvers w; answers := answers w |})
      | _ => None
      end
  | Land key now =>
      match inflight w !! key with
      | Some (Storing c (Tx op next)) =>
          let '(r, x') := commit op now x in
          Some (x', {| inflight := <[key := Storing c (next r)]> (inflight w); resolvers := resolvers w; answers := answers w |})
      | _ => None
      end
  | Settle key now =>
      match inflight w !! key with
      | Some (Storing c (Ret fresh)) => Some (x, {| inflight := delete key (inflight w); resolvers := List.map (settled key now (Ok fresh)) (resolvers w); answers := answers w |})
      | Some (Storing c (Throw e)) => Some (x, {| inflight := delete key (inflight w); resolvers := List.map (settled key now (Err e)) (resolvers w); answers := answers w |})
      | _ => None
      end
  end.
Lemma choose_sound c x w x' w' : choose c x w = Some (x', w') -> process_step x w x' w'.
Proof.
  destruct c as [i|index now|key iv addresses answer now|key now|key now]; cbn.
  - intros [= <- <-]. constructor.
  - destruct (resolvers w !! index) as [r|] eqn:Er; [|done]. destruct (advance x w now r) as [[[[x1 flights] next] replies]|] eqn:Ea; [|done]. intros [= <- <-].
    apply (ps_resolver _ _ _ r); [by rewrite take_drop_middle|by eapply advance_sound].
  - destruct (inflight w !! key) as [[c ref secret rq|]|] eqn:E; [|done..]. intros [= <- <-]. by econstructor.
  - destruct (inflight w !! key) as [[|c [a|e|R op next|o next]]|] eqn:E; try done. pose proof (commit_commits op now x) as Hc.
    destruct (commit op now x). intros [= <- <-]. by econstructor.
  - destruct (inflight w !! key) as [[|c [a|e|R op next|o next]]|] eqn:E; [done| | |done..]; intros [= <- <-]; by econstructor.
Qed.

(** Choices of the processes of a world, by index. *)
Fixpoint drive (choices : list (nat * Choice)) (w : World) : option World :=
  match choices with
  | [] => Some w
  | (n, c) :: choices =>
      match processes w !! n with
      | None => None
      | Some p =>
          match choose c (shared w) p with
          | None => None
          | Some (x, p') => drive choices {| shared := x; api := api w; processes := take n (processes w) ++ p' :: drop (S n) (processes w) |}
          end
      end
  end.
Definition twoProcesses (d : ConnectionDb) : World := {| shared := {| db := d; stores := []; poisonings := []; exchanges := [] |}; api := []; processes := [idle; idle] |}.
Lemma drive_sound choices w w' : drive choices w = Some w' -> rtc world_step w w'.
Proof.
  revert w. induction choices as [|[n c] choices IH]; intros w; cbn; [by intros [= <-]|]. destruct (processes w !! n) as [p|] eqn:Ep; [|done].
  destruct (choose c (shared w) p) as [[x p']|] eqn:Ec; [|done]. intros H. eapply rtc_l; [|by apply IH].
  eapply ws_process; [by rewrite take_drop_middle|by apply choose_sound in Ec].
Qed.
Lemma drive_reachable d choices w : drive choices (twoProcesses d) = Some w -> rtc world_step (start d) w.
Proof. intros H. do 2 (eapply rtc_l; [apply ws_start|]). by eapply drive_sound. Qed.
End platform.

(** ** Examples *)

#[local] Instance exampleTokens : TokenPlatform := {| hmacSha256 := @hmacSha256 toyPlatform; hmac_bytes := @hmac_bytes toyPlatform; isUuid := fun _ => true |}.
#[local] Instance exampleDigests : DigestPlatform := {| sha256Hex := fun s => js "#" ++ s |}.
#[local] Existing Instance exampleCipher.
#[local] Instance exampleNet : NetPlatform := {| parseUrl := fun s => Some (js "https:", drop 8 s); isIPv6 := fun _ => false; dateParse := fun _ => None |}.
Definition exampleBroker : BrokerSettings := {|
  store := {| Connections.api := {| productAccessMode := local; delegationSecret := None; managedAuth := false |};
              environmentsEncryptionKey := Some (bytesToBase64 exampleKey) |};
  integrationsAllowPrivateNetworkTargets := false; environment := js "production" |}.
Definition exampleCredential : json := JObj [(js "access_token", JStr (js "old")); (js "refresh_token", JStr (js "once")); (js "token_endpoint", JStr (js "https://auth.example"))].
Definition exampleRow : ConnectionRow := {|
  n_id := generated 0; n_accountId := js "a"; n_workspaceId := js "w"; n_subjectId := None; n_providerDomain := js "mcp.example"; n_kind := oauth2;
  n_status := active; n_credentialEncrypted := match encryptEnvironmentValue exampleKey exampleIv (JSON_stringify exampleCredential) with Ok s => s | Err _ => [] end;
  n_grantedScopes := [js "read"]; n_expiresAt := Some 1000; n_lastRefreshAt := None; n_lastUsedAt := None; n_lastError := None; n_version := 1;
  n_metadata := JObj []; n_createdBySubjectId := None; n_updatedBySubjectId := None; n_createdAt := 0; n_updatedAt := 0 |}.
Definition exampleConnections : ConnectionDb := {|
  Connections.access := {| accounts := []; workspaces := []; memberships := []; apiKeys := []; sessionPins := []; sessionListSnapshots := []; fresh := 0 |};
  connections := [exampleRow]; nonces := []; nextId := 1 |}.
Lemma example_ok : conn_ok exampleConnections.
Proof. split; [apply NoDup_singleton|]. intros r ->%list_elem_of_singleton. exists O. split; [done|]. cbn. lia. Qed.
Definition exampleInput : ResolveInput := {|
  in_workspaceId := js "w"; in_subjectId := None; in_forceRefresh := false;
  in_ref := {| ref_connectionId := None; ref_providerDomain := js "mcp.example"; ref_kind := None; ref_scopes := Some [js "read"]; ref_resource := None |} |}.
Definition exampleKeyOf : FlightKey := (generated 0, 1).
Definition public : option (list jstr) := Some [js "1.1.1.1"].
Definition granted : Exchange := Response 200 (Some (JObj [(js "access_token", JStr (js "new")); (js "expires_in", JNum 3600); (js "token_type", JStr (js "bearer"))])).
(** Both processes ask for the same version. *)
Definition ask (n : nat) : list (nat * Choice) := [(n, Call exampleInput); (n, Advance 0 10); (n, Advance 0 10)].
Definition reply (n : nat) (a : Exchange) : nat * Choice := (n, Reply exampleKeyOf exampleIv public a 20).
Definition land (n : nat) : nat * Choice := (n, Land exampleKeyOf 20).
Definition finish (n : nat) : list (nat * Choice) := [(n, Settle exampleKeyOf 30); (n, Advance 0 40); (n, Advance 0 40)].
Definition secondLoses : list (nat * Choice) := ask 0 ++ ask 1 ++ [reply 0 granted; land 0; land 0] ++ finish 0 ++ [reply 1 (Response 400 None)] ++ finish 1.
Definition rejectedFirst : list (nat * Choice) := ask 0 ++ ask 1 ++ [reply 1 (Response 400 None)] ++ finish 1 ++ [reply 0 granted; land 0; land 0; (0%nat, Settle exampleKeyOf 30); (0%nat, Advance 0 40)].
Definition outcome (choices : list (nat * Choice)) : option (list FlightKey * list BrokerError * list (ConnectionStatus * Z) * list (list ResolveResult)) :=
  (fun w => (List.map storedKey (stores (shared w)), List.map po_error (poisonings (shared w)),
             List.map (fun r => (n_status r, n_version r)) (connections (db (shared w))), List.map (fun p => List.map snd (answers p)) (processes w)))
  <$> drive exampleBroker choices (twoProcesses exampleConnections).
Definition loginNeeded : ResolveResult := authNeeded (in_ref exampleInput) refresh_failed (Some (generated 0)).
Definition authorized : ResolveResult := ok [(js "authorization", js "Bearer new")] (generated 0) (Some 3600020).
(** The second refresh of a version is fenced, and its rejection poisons nothing. *)
Example second_refresh_fenced : outcome secondLoses = Some ([exampleKeyOf], [], [(active, 2)], [[authorized]; [loginNeeded]]).
Proof. vm_compute. done. Qed.
(** In the other order the rejection of a token the first process has just spent
    poisons the connection, and the tokens the first process obtained are lost. *)
Example rejection_overtakes_refresh : outcome rejectedFirst = Some ([], [RefreshHttp 400], [(needs_reauth, 2)], [[loginNeeded]; [loginNeeded]]).
Proof. vm_compute. done. Qed.

(** The runs as worlds. *)
Lemma driven choices : match drive exampleBroker choices (twoProcesses exampleConnections) with
                       | Some w => rtc (world_step exampleBroker) (start exampleConnections) w | None => True end.
Proof. destruct (drive _ _ _) as [w|] eqn:E; [|done]. by eapply drive_reachable. Qed.
Definition reached (choices : list (nat * Choice)) : World :=
  default (start exampleConnections) (drive exampleBroker choices (twoProcesses exampleConnections)).
Lemma reached_run choices : rtc (world_step exampleBroker) (start exampleConnections) (reached choices).
Proof. unfold reached. pose proof (driven choices) as H. destruct (drive _ _ _); [exact H|constructor]. Qed.

Lemma resolutions_are_honest_witness :
  List.map (fun p => List.map snd (answers p)) (processes (reached secondLoses)) = [[authorized]; [loginNeeded]] /\
  forall p i r, p ∈ processes (reached secondLoses) -> (i, r) ∈ answers p -> answer_ok exampleBroker i r (shared (reached secondLoses)).
Proof.
  split; [vm_compute; reflexivity|]. intros p i r Hp. exact (proj2 (resolutions_are_honest exampleBroker _ _ example_ok (reached_run secondLoses) p Hp) i r).
Defined.
End ConnectionBroker.
