(* ===== verification/OAuthClient.v ===== *)
(** * OAuth connections ([apps/api/src/integrations/oauth-client.ts], the signed
      state of [packages/github/src/index.ts])

    A connection is made by sending the user to an authorization server with a
    signed state, and finished by the callback that brings the state back.  The
    server is discovered from the resource, a client of it comes from the operator,
    the caller, or from a registration kept per issuer.  The network is a function
    of the address, the URL parser and hashes are parameters. *)
From S2P Require Import Prelude Json JsonParse Encoding Sql Tokens NatsJwt PayloadSanitizer EventStream ControlRpc Activity Access EnvironmentCrypto NetworkGuard Connections ConnectionBroker.
#[local] Open Scope Z_scope.
#[local] Open Scope opengeni_scope.

Module OAuthClient.
Import Activity Tokens Access NatsJwt EnvironmentCrypto NetworkGuard Connections ConnectionBroker.

Definition oauthStateTtlMs : Z := 600000.
Definition stateMaxAgeSeconds : Z := 3600.
Definition refused {A} (status : Z) (message : string) : result AccessError A := Err (HttpError status (js message)).
Definition thrown {A} (message : string) : result AccessError A := Err (Thrown message).

(** ** Texts *)

Definition uniqueStrings (values : list jstr) : list jstr :=
  fold_left (fun acc v => if bool_decide (v ∈ acc) then acc else acc ++ [v])
    (List.filter (fun v => match v with [] => false | _ => true end) (List.map trim values)) [].
Definition stringArray (v : option json) : list jstr :=
  match v with Some (JArr l) => uniqueStrings (omap (fun j => asString (Some j)) l) | _ => [] end.
Definition numberValue (v : option json) : option Z := asNumber v.
(** [value.replace(/\/+$/, "")] *)
Fixpoint dropSlashes (s : jstr) : jstr := match s with c :: s' => if c =? 47 then dropSlashes s' else s | [] => [] end.
Definition trimSlashes (s : jstr) : jstr := rev (dropSlashes (rev s)).
Definition chooseAuthorizeScopes (requested : list jstr) (challenged : option (list jstr)) (supported : list jstr) : list jstr :=
  match requested with
  | _ :: _ => uniqueStrings requested
  | [] => match challenged with Some (s :: l) => uniqueStrings (s :: l) | _ => uniqueStrings supported end
  end.
Definition grantedScopes (scopeText : option jstr) (fallback : list jstr) : list jstr :=
  match scopeText with Some t => uniqueStrings (words t) | None => fallback end.

Inductive AuthMethod := none_ | client_secret_post | client_secret_basic.
#[export] Instance AuthMethod_eq_dec : EqDecision AuthMethod.
Proof. solve_decision. Defined.
Definition authMethodText (m : AuthMethod) : jstr :=
  match m with none_ => js "none" | client_secret_post => js "client_secret_post" | client_secret_basic => js "client_secret_basic" end.
Definition tokenAuthMethod (raw : option jstr) (hasSecret : bool) : AuthMethod :=
  if bool_decide (raw = Some (js "client_secret_post")) then client_secret_post
  else if bool_decide (raw = Some (js "client_secret_basic")) then client_secret_basic
  else if hasSecret then client_secret_post else none_.
Inductive RegistrationMethod := operator | manual | cimd | dcr.
#[export] Instance RegistrationMethod_eq_dec : EqDecision RegistrationMethod.
Proof. solve_decision. Defined.
Definition registrationText (m : RegistrationMethod) : jstr := js match m with operator => "operator" | manual => "manual" | cimd => "cimd" | dcr => "dcr" end.
Definition registrationMethod (v : option json) : result AccessError RegistrationMethod :=
  match List.find (fun m => bool_decide (v = Some (JStr (registrationText m)))) [operator; manual; cimd; dcr] with
  | Some m => Ok m
  | None => refused 400 "invalid OAuth state"
  end.

(** ** Signed states *)

Section state.
Context `{TokenPlatform}.

Definition signedFields (payload : list (jstr * json)) (nonce : jstr) (iat : Z) : list (jstr * json) := overlay [(js "nonce", JStr nonce); (js "iat", JNum iat)] payload.
Definition createSignedState (secret : jstr) (payload : list (jstr * json)) (nonce : jstr) (now : Z) : jstr :=
  let encoded := base64UrlEncode (JSON_stringify (JObj (signedFields payload nonce now))) in
  encoded ++ js "." ++ hmacSha256Base64Url secret encoded.
Definition safeEqual (left right : jstr) : bool := bool_decide (utf8Encode left = utf8Encode right).
Definition readSignedState (state secret : jstr) (now : Z) : option json :=
  match splitOn 46 state with
  | (_ :: _) as encoded :: ((_ :: _) as signature) :: _ =>
      if negb (safeEqual signature (hmacSha256Base64Url secret encoded)) then None
      else
        match JSON_parse (base64UrlDecode encoded) with
        | Some ((JObj _ | JArr _) as payload) =>
            match prop (js "iat") payload, prop (js "nonce") payload with
            | Some (JNum iat), Some (JStr _) => let age := now - iat in if (0 <=? age) && (age <=? stateMaxAgeSeconds) then Some payload else None
            | _, _ => None
            end
        | _ => None
        end
  | _ => None
  end.
End state.

(** ** The network *)

(** [new URL(value, base)], with what is read of it; [u_withoutHash]: [href] once
    the hash is cleared; [withParams]: [toString] once parameters are set. *)
Record Url := { u_href : jstr; u_protocol : jstr; u_origin : jstr; u_hostname : jstr; u_pathname : jstr; u_search : jstr; u_hash : jstr; u_withoutHash : jstr }.
Record Answer := { an_status : Z; an_wwwAuthenticate : option jstr; an_isJson : bool; an_body : option json }.
Inductive Fetched := FetchFailed | Redirected (location : option jstr) | Final (a : Answer).
Class WebPlatform := {
  newURL : option jstr -> jstr -> option Url;
  withParams : Url -> list (jstr * jstr) -> jstr;
  sha256Base64Url : jstr -> jstr;
  toNumber : json -> option Z
}.
(** What the name service and the servers answer. *)
Record Web := {
  dns : jstr -> option (list jstr);
  get : jstr -> Fetched;
  postForm : list (jstr * jstr) -> list (jstr * jstr) -> jstr -> Fetched;
  postJson : json -> jstr -> Fetched
}.

Record OAuthSettings := {
  broker : BrokerSettings; integrationsEnabled : bool; publicBaseUrl : option jstr; integrationsStateSecret : option jstr; integrationsOauthClientsJson : option jstr
}.

Section network.
Context `{net : NetPlatform} `{wp_ : WebPlatform} (settings : OAuthSettings) (web : Web).

Definition assertOAuthFetchAllowed (rawUrl : jstr) : result AccessError unit :=
  match newURL None rawUrl with
  | None => thrown "Invalid URL"
  | Some url =>
      let protocol := u_protocol url in
      if negb (same protocol (js "https:") || same protocol (js "http:")) then refused 422 "OAuth discovery only supports http and https URLs"
      else if integrationsAllowPrivateNetworkTargets (broker settings) || bool_decide (environment (broker settings) ∈ [js "local"; js "test"]) then Ok tt
      else if negb (same protocol (js "https:")) then refused 422 "OAuth discovery targets must use https outside local/test"
      else
        let hostname := PayloadSanitizer.toLowerCase (u_hostname url) in
        if same hostname (js "localhost") || endsWith (js ".localhost") hostname then refused 422 "OAuth discovery may not target localhost"
        else
          match (if isIPv4 hostname || isIPv6 hostname then Some [hostname] else dns web hostname) with
          | None => thrown "getaddrinfo failed"
          | Some l => if existsb (isPrivateAddress isIPv6) l then refused 422 "OAuth discovery may not target private network addresses" else Ok tt
          end
  end.
(** The answer to a request, sent again along its redirects, and the addresses requested. *)
Fixpoint fetchOAuth (send : jstr -> Fetched) (hops : nat) (rawUrl : jstr) : result AccessError Answer * list jstr :=
  match assertOAuthFetchAllowed rawUrl with
  | Err e => (Err e, [])
  | Ok _ =>
      match send rawUrl with
      | FetchFailed => (thrown "fetch failed", [rawUrl])
      | Final a => (Ok a, [rawUrl])
      | Redirected location =>
          match hops with
          | O => (refused 422 "OAuth fetch exceeded maximum redirect hops", [rawUrl])
          | S hops =>
              match nonEmpty location with
              | None => (refused 422 "OAuth fetch redirect was missing Location", [rawUrl])
              | Some l =>
                  match newURL (Some rawUrl) l with
                  | None => (refused 422 "OAuth fetch redirect Location was invalid", [rawUrl])
                  | Some next => let '(r, visited) := fetchOAuth send hops (u_href next) in (r, rawUrl :: visited)
                  end
              end
          end
      end
  end.
Definition MAX_HOPS : nat := 3.
Definition fetched (send : jstr -> Fetched) (rawUrl : jstr) : result AccessError Answer := (fetchOAuth send MAX_HOPS rawUrl).1.
Definition okStatus (a : Answer) : bool := (200 <=? an_status a) && (an_status a <? 300).
Definition fetchJsonObject (url : jstr) : result AccessError (list (jstr * json)) :=
  match fetched (get web) url with
  | Err e => Err e
  | Ok a => if negb (okStatus a) then thrown "HTTP " else match an_body a with Some (JObj fields) => Ok fields | _ => thrown "metadata response was not a JSON object" end
  end.
(** The first candidate with usable metadata; a refusal ends the search. *)
Fixpoint firstUsable {A} (use : list (jstr * json) -> option A) (candidates : list jstr) : result AccessError (option A) :=
  match candidates with
  | [] => Ok None
  | url :: candidates =>
      match fetchJsonObject url with
      | Err (HttpError s m) => Err (HttpError s m)
      | Err _ => firstUsable use candidates
      | Ok payload => match use payload with Some a => Ok (Some a) | None => firstUsable use candidates end
      end
  end.

(** ** Challenges

    The matches of the expression of [parseWwwAuthenticate]: a name, an equals sign
    with white space around it, a quoted value or a run without commas and spaces. *)
Definition nameStart (c : Z) : bool := (65 <=? c) && (c <=? 90) || (97 <=? c) && (c <=? 122) || (c =? 95).
Definition nameChar (c : Z) : bool := nameStart c || isDigit c || (c =? 45).
Fixpoint span (p : Z -> bool) (s : jstr) : jstr * jstr :=
  match s with c :: s' => if p c then let '(a, b) := span p s' in (c :: a, b) else ([], s) | [] => ([], []) end.
(** The rest of a quoted value, to its closing quote. *)
Fixpoint quotedRest (s : jstr) : option (jstr * jstr) :=
  match s with
  | [] => None
  | c :: s' =>
      if c =? 34 then Some ([c], s')
      else if c =? 92 then match s' with d :: s'' => (fun r => (c :: d :: r.1, r.2)) <$> quotedRest s'' | [] => None end
      else (fun r => (c :: r.1, r.2)) <$> quotedRest s'
  end.
Definition paramValue (s : jstr) : option (jstr * jstr) :=
  let bare := match span (fun c => negb ((c =? 44) || isWhite c)) s with ([], _) => None | r => Some r end in
  match s with
  | c :: s' => if c =? 34 then match quotedRest s' with Some (r, rest) => Some (c :: r, rest) | None => bare end else bare
  | [] => None
  end.
Definition paramAt (s : jstr) : option (jstr * jstr * jstr) :=
  match s with
  | c :: _ =>
      if nameStart c then
        let '(name, s) := span nameChar s in
        match trimStart s with
        | e :: s => if e =? 61 then (fun r => (name, r.1, r.2)) <$> paramValue (trimStart s) else None
        | [] => None
        end
      else None
  | [] => None
  end.
(** Without its quotes, escaped quotes replaced. *)
Fixpoint unescapeQuotes (s : jstr) : jstr :=
  match s with
  | c :: ((d :: s'') as s') => if (c =? 92) && (d =? 34) then 34 :: unescapeQuotes s'' else c :: unescapeQuotes s'
  | _ => s
  end.
Definition unquote (raw : jstr) : jstr := match raw with c :: s => if c =? 34 then unescapeQuotes (removelast s) else raw | [] => [] end.
Fixpoint scanParams (fuel : nat) (s : jstr) : list (jstr * jstr) :=
  match fuel, s with
  | S fuel, _ :: s' =>
      match paramAt s with
      | Some (name, raw, rest) => (PayloadSanitizer.toLowerCase name, unquote raw) :: scanParams fuel rest
      | None => scanParams fuel s'
      end
  | _, _ => []
  end.
Fixpoint afterBearer (s : jstr) : option jstr :=
  match s with
  | [] => None
  | _ :: s' => if same (PayloadSanitizer.toLowerCase (take 6 s)) (js "bearer") then Some (drop 6 s) else afterBearer s'
  end.
Record WwwAuthenticateChallenge := { ch_resourceMetadata : option jstr; ch_scope : option (list jstr); ch_error : option jstr }.
Definition noChallenge : WwwAuthenticateChallenge := {| ch_resourceMetadata := None; ch_scope := None; ch_error := None |}.
(** A later parameter replaces an earlier one. *)
Definition lastParam (k : string) (params : list (jstr * jstr)) : option jstr := nonEmpty (assoc (js k) (rev params)).
Definition parseWwwAuthenticate (header : option jstr) : WwwAuthenticateChallenge :=
  match nonEmpty header with
  | None => noChallenge
  | Some h =>
      match afterBearer h with
      | None => noChallenge
      | Some text =>
          let params := scanParams (length text) text in
          {| ch_resourceMetadata := lastParam "resource_metadata" params; ch_scope := words <$> lastParam "scope" params; ch_error := lastParam "error" params |}
      end
  end.

(** ** Discovery *)

Definition wellKnownCandidates (rawUrl : jstr) (name : string) : result AccessError (list jstr) :=
  match newURL None rawUrl with
  | None => thrown "Invalid URL"
  | Some url =>
      let path := trimSlashes (dropSlashes (u_pathname url)) in
      let suffix := match path with [] => [] | _ => 47 :: path end in
      let known := js "/.well-known/" ++ js name in
      Ok (uniqueStrings [u_origin url ++ known ++ suffix; u_origin url ++ suffix ++ known; u_origin url ++ known])
  end.
Record ProtectedResourceMetadata := { pr_resource : option jstr; pr_authorizationServers : list jstr; pr_scopesSupported : list jstr }.
Definition protectedResource (payload : list (jstr * json)) : option ProtectedResourceMetadata :=
  match stringArray (assoc (js "authorization_servers") payload) with
  | [] => None
  | servers => Some {| pr_resource := field "resource" payload; pr_authorizationServers := servers; pr_scopesSupported := stringArray (assoc (js "scopes_supported") payload) |}
  end.
Definition discoverProtectedResourceMetadata (resource : jstr) (advertisedUrl : option jstr) : result AccessError ProtectedResourceMetadata :=
  match wellKnownCandidates resource "oauth-protected-resource" with
  | Err e => Err e
  | Ok known =>
      match firstUsable protectedResource (uniqueStrings (option_list advertisedUrl ++ known)) with
      | Err e => Err e
      | Ok (Some prm) => Ok prm
      | Ok None => refused 422 "could not discover MCP protected resource metadata"
      end
  end.
Record AuthorizationServerMetadata := {
  as_issuer : jstr; as_authorizationServer : jstr; as_authorizationEndpoint : jstr; as_tokenEndpoint : jstr; as_registrationEndpoint : option jstr;
  as_clientIdMetadataDocumentSupported : bool; as_codeChallengeMethodsSupported : list jstr
}.
Definition authorizationServerMetadata (server : jstr) (payload : list (jstr * json)) : option AuthorizationServerMetadata :=
  match field "authorization_endpoint" payload, field "token_endpoint" payload with
  | Some authorize, Some token => Some {|
      as_issuer := default (trimSlashes server) (field "issuer" payload); as_authorizationServer := trimSlashes server;
      as_authorizationEndpoint := authorize; as_tokenEndpoint := token; as_registrationEndpoint := field "registration_endpoint" payload;
      as_clientIdMetadataDocumentSupported := bool_decide (assoc (js "client_id_metadata_document_supported") payload = Some (JBool true));
      as_codeChallengeMethodsSupported := stringArray (assoc (js "code_challenge_methods_supported") payload) |}
  | _, _ => None
  end.
Definition discoverAuthorizationServerMetadata (server : jstr) : result AccessError AuthorizationServerMetadata :=
  match wellKnownCandidates server "oauth-authorization-server", wellKnownCandidates server "openid-configuration" with
  | Ok oauth, Ok openid =>
      match firstUsable (authorizationServerMetadata server) (uniqueStrings (server :: oauth ++ openid)) with
      | Err e => Err e
      | Ok (Some m) => Ok m
      | Ok None => refused 422 "could not discover OAuth authorization server metadata"
      end
  | _, _ => thrown "Invalid URL"
  end.
Record Discovery := { di_challenge : WwwAuthenticateChallenge; di_prm : ProtectedResourceMetadata; di_as : AuthorizationServerMetadata }.
Definition probeMcpChallenge (resource : jstr) : result AccessError WwwAuthenticateChallenge :=
  match fetched (get web) resource with
  | Err e => Err e
  | Ok a => Ok (if an_status a =? 401 then parseWwwAuthenticate (an_wwwAuthenticate a) else noChallenge)
  end.
Definition discoverMcpOAuth (resource : jstr) : result AccessError Discovery :=
  match probeMcpChallenge resource with
  | Err e => Err e
  | Ok challenge =>
      match discoverProtectedResourceMetadata resource (ch_resourceMetadata challenge) with
      | Err e => Err e
      | Ok prm =>
          match pr_authorizationServers prm with
          | [] => refused 422 "MCP protected resource metadata did not advertise an authorization server"
          | server :: _ =>
              match discoverAuthorizationServerMetadata server with
              | Err e => Err e
              | Ok m =>
                  if bool_decide (js "S256" ∈ as_codeChallengeMethodsSupported m) then Ok {| di_challenge := challenge; di_prm := prm; di_as := m |}
                  else refused 422 "authorization server does not support required PKCE S256"
              end
          end
      end
  end.
End network.

(** ** Clients ([integration_oauth_clients], unique by issuer) *)

Record OAuthClientRow := {
  oc_issuer : jstr; oc_authorizationServer : jstr; oc_clientId : jstr; oc_clientSecretEncrypted : option jstr; oc_tokenEndpointAuthMethod : jstr; oc_metadata : json
}.
Record OAuthDb := { conn : ConnectionDb; clients : list OAuthClientRow }.
Definition putConn (d : ConnectionDb) (x : OAuthDb) : OAuthDb := {| conn := d; clients := clients x |}.
Abbreviation Task := (Program OAuthDb AccessError Access.Outgoing).
Definition onConnections {A} (m : Connections.Handler A) : Task A := embed conn putConn m.
Definition lift {A} (r : result AccessError A) : Task A := match r with Ok a => Ret a | Err e => Throw e end.

Record OAuthClientRegistration := {
  rg_method : RegistrationMethod; rg_issuer : jstr; rg_authorizationServer : jstr; rg_clientId : jstr; rg_clientSecret : option jstr; rg_tokenEndpointAuthMethod : AuthMethod
}.
Record StoredClient := { sc_issuer : jstr; sc_authorizationServer : jstr; sc_clientId : jstr; sc_clientSecret : option jstr; sc_tokenEndpointAuthMethod : jstr; sc_metadata : json }.
Definition dcrRegistrationFromStored (s : StoredClient) : OAuthClientRegistration := {|
  rg_method := dcr; rg_issuer := sc_issuer s; rg_authorizationServer := sc_authorizationServer s; rg_clientId := sc_clientId s;
  rg_clientSecret := nonEmpty (sc_clientSecret s);
  rg_tokenEndpointAuthMethod := tokenAuthMethod (Some (sc_tokenEndpointAuthMethod s)) (match nonEmpty (sc_clientSecret s) with Some _ => true | None => false end) |}.
Definition issuerIs (issuer : jstr) (r : OAuthClientRow) : bool := same (oc_issuer r) issuer.
(** [on conflict (issuer) do nothing], then the row that is there. *)
Definition storeIntegrationOAuthClient (row : OAuthClientRow) (d : OAuthDb) : OAuthClientRow * OAuthDb :=
  match List.find (issuerIs (oc_issuer row)) (clients d) with
  | Some winner => (winner, d)
  | None => (row, {| conn := conn d; clients := clients d ++ [row] |})
  end.

(** [OPENGENI_INTEGRATIONS_OAUTH_CLIENTS_JSON]: clients by issuer or URL. *)
Record ClientConfig := { cc_clientId : jstr; cc_clientSecret : option jstr; cc_tokenEndpointAuthMethod : jstr }.
Definition clientConfig (j : json) : option ClientConfig :=
  match zString1 (prop (js "clientId") j), zOptional zString1 (prop (js "clientSecret") j),
        zOptional (zOneOf (List.map authMethodText [none_; client_secret_post; client_secret_basic])) (prop (js "tokenEndpointAuthMethod") j) with
  | Some id, Some secret, Some method => Some {| cc_clientId := id; cc_clientSecret := secret; cc_tokenEndpointAuthMethod := default (js "none") method |}
  | _, _, _ => None
  end.
Definition parseIntegrationsOauthClientsJson (raw : option jstr) : result AccessError (list (jstr * ClientConfig)) :=
  let text := default [] raw in
  if bool_decide (trim text = []) || bool_decide (trim text = js "{}") then Ok []
  else
    match JSON_parse text with
    | None => thrown "OPENGENI_INTEGRATIONS_OAUTH_CLIENTS_JSON must be valid JSON"
    | Some (JObj fields) =>
        match mapM (fun kv => match trim kv.1 with [] => None | _ => pair kv.1 <$> clientConfig kv.2 end) fields with
        | Some l => Ok l
        | None => thrown "OPENGENI_INTEGRATIONS_OAUTH_CLIENTS_JSON"
        end
    | Some _ => thrown "OPENGENI_INTEGRATIONS_OAUTH_CLIENTS_JSON must be a JSON object keyed by authorization-server issuer or URL"
    end.
Definition operatorClientEntryFor (configured : list (jstr * ClientConfig)) (candidates : list jstr) : option ClientConfig :=
  match omap (fun key => assoc key configured) (uniqueStrings (flat_map (fun c => [c; trimSlashes c]) candidates)) with
  | entry :: _ => Some entry
  | [] => snd <$> List.find (fun kv => bool_decide (trimSlashes kv.1 ∈ List.map trimSlashes candidates)) configured
  end.

Definition stableScopeKey (scopes : list jstr) : jstr := joinWith (js " ") (sort_leb PayloadSanitizer.jstr_leb (uniqueStrings scopes)).
Definition registeredScopesMatch (metadata : json) (scopes : list jstr) : bool :=
  same (stableScopeKey (stringArray (prop (js "registeredScopes") metadata))) (stableScopeKey scopes).

(** Consumed nonces; the name of a nonce is unique. *)
Record ConsumeInput := { cn_accountId : jstr; cn_workspaceId : jstr; cn_subjectId : jstr; cn_nonce : jstr; cn_expiresAt : Z; cn_now : Z }.
Definition consumeIntegrationOAuthStateNonce (i : ConsumeInput) (d : ConnectionDb) : result AccessError (bool * ConnectionDb) :=
  match getWorkspace (cn_workspaceId i) (Connections.access d) with
  | None => Err (Thrown "insert or update violates foreign key constraint")
  | Some _ =>
      let kept := delete_where (fun r => same (o_workspaceId r) (cn_workspaceId i) && (o_expiresAt r <? cn_now i)) (nonces d) in
      if existsb (fun r => same (o_nonce r) (cn_nonce i)) kept then Ok (false, d <| nonces := kept |>)
      else Ok (true, d <| nonces := kept ++ [{| o_nonce := cn_nonce i; o_accountId := cn_accountId i; o_workspaceId := cn_workspaceId i; o_subjectId := cn_subjectId i;
                                               o_expiresAt := cn_expiresAt i; o_usedAt := cn_now i |}] |>)
  end.

(** ** States *)

Record OAuthStatePayload := {
  s_accountId : jstr; s_workspaceId : jstr; s_subjectId : jstr; s_providerDomain : jstr; s_mcpUrl : jstr; s_resource : jstr;
  s_requestedScopes : list jstr; s_authorizeScopes : list jstr; s_encryptedPkceVerifier : jstr; s_clientId : jstr; s_tokenEndpoint : jstr;
  s_authorizationServer : jstr; s_issuer : jstr; s_clientRegistrationMethod : RegistrationMethod; s_tokenEndpointAuthMethod : AuthMethod;
  s_encryptedClientSecret : option jstr; s_returnPath : jstr; s_connectionId : option jstr; s_connectionVersion : option Z
}.
Definition textList (l : list jstr) : option json := Some (JArr (List.map JStr l)).
Definition stateFields (p : OAuthStatePayload) : list (string * option json) := [
  ("accountId", textOf (s_accountId p)); ("workspaceId", textOf (s_workspaceId p)); ("subjectId", textOf (s_subjectId p));
  ("providerDomain", textOf (s_providerDomain p)); ("mcpUrl", textOf (s_mcpUrl p)); ("resource", textOf (s_resource p));
  ("requestedScopes", textList (s_requestedScopes p)); ("authorizeScopes", textList (s_authorizeScopes p));
  ("encryptedPkceVerifier", textOf (s_encryptedPkceVerifier p)); ("clientId", textOf (s_clientId p)); ("tokenEndpoint", textOf (s_tokenEndpoint p));
  ("authorizationServer", textOf (s_authorizationServer p)); ("issuer", textOf (s_issuer p));
  ("clientRegistrationMethod", textOf (registrationText (s_clientRegistrationMethod p))); ("tokenEndpointAuthMethod", textOf (authMethodText (s_tokenEndpointAuthMethod p)));
  ("encryptedClientSecret", maybe (s_encryptedClientSecret p)); ("returnPath", textOf (s_returnPath p));
  ("connectionId", maybe (s_connectionId p)); ("connectionVersion", JNum <$> s_connectionVersion p)]%string.
Definition stateObject (p : OAuthStatePayload) : list (jstr * json) := omap (fun kv => pair (js kv.1) <$> kv.2) (stateFields p).

Section flow.
Context `{tokens : TokenPlatform} `{digests : DigestPlatform} `{cipher : CipherPlatform} `{net : NetPlatform} `{wp_ : WebPlatform} (settings : OAuthSettings) (web : Web).

Definition requiredString (k : string) (payload : json) : result AccessError jstr :=
  match stringValue (prop (js k) payload) with Some s => Ok s | None => refused 400 ("invalid OAuth state: missing state." ++ k) end.
Definition safeReturnPath (value : jstr) : result AccessError jstr :=
  let bad := refused 400 "OAuth returnPath must be a relative path" in
  if negb (Tokens.startsWith (js "/") value) || Tokens.startsWith (js "//") value then bad
  else
    match newURL (Some (js "https://opengeni.local")) value with
    | None => thrown "Invalid URL"
    | Some u => if same (u_origin u) (js "https://opengeni.local") then Ok (u_pathname u ++ u_search u ++ u_hash u) else bad
    end.
Definition requireIntegrationsStateSecret : result AccessError jstr :=
  match trim (default [] (integrationsStateSecret settings)) with
  | [] => refused 503 "integrations OAuth requires OPENGENI_INTEGRATIONS_STATE_SECRET"
  | secret => Ok secret
  end.
Definition requireKey : result AccessError (list Z) :=
  match environmentsEncryptionKeyBytes (store (broker settings)) with
  | Err e => Err e
  | Ok None => refused 503 "variable sets require OPENGENI_ENVIRONMENTS_ENCRYPTION_KEY"
  | Ok (Some key) => Ok key
  end.
Definition stateSeconds (now : Z) : Z := now / 1000.

Notation "'try' x ':=' m 'in' k" := (match m with Ok x => k | Err e => Err e end) (at level 200, x pattern, m at level 100, k at level 200).
(** The payload, its nonce and its time. *)
Definition readOAuthState (state : jstr) (now : Z) : result AccessError (OAuthStatePayload * jstr * Z) :=
  try secret := requireIntegrationsStateSecret in
  match readSignedState state secret (stateSeconds now) with
  | None => refused 400 "invalid or expired OAuth state"
  | Some payload =>
      match numberValue (prop (js "iat") payload) with
      | None => refused 400 "invalid or expired OAuth state"
      | Some iat =>
          if (oauthStateTtlMs / 1000 <? stateSeconds now - iat) || (stateSeconds now <? iat) then refused 400 "invalid or expired OAuth state"
          else
            try resource := requiredString "resource" payload in
            try accountId := requiredString "accountId" payload in
            try workspaceId := requiredString "workspaceId" payload in
            try subjectId := requiredString "subjectId" payload in
            try providerDomain := requiredString "providerDomain" payload in
            try verifier := requiredString "encryptedPkceVerifier" payload in
            try clientId := requiredString "clientId" payload in
            try tokenEndpoint := requiredString "tokenEndpoint" payload in
            try authorizationServer := requiredString "authorizationServer" payload in
            try issuer := requiredString "issuer" payload in
            try method := registrationMethod (prop (js "clientRegistrationMethod") payload) in
            try returnPath := safeReturnPath (default (js "/integrations") (stringValue (prop (js "returnPath") payload))) in
            try nonce := requiredString "nonce" payload in
            Ok ({| s_accountId := accountId; s_workspaceId := workspaceId; s_subjectId := subjectId; s_providerDomain := providerDomain;
                   s_mcpUrl := default resource (stringValue (prop (js "mcpUrl") payload)); s_resource := resource;
                   s_requestedScopes := stringArray (prop (js "requestedScopes") payload); s_authorizeScopes := stringArray (prop (js "authorizeScopes") payload);
                   s_encryptedPkceVerifier := verifier; s_clientId := clientId; s_tokenEndpoint := tokenEndpoint; s_authorizationServer := authorizationServer;
                   s_issuer := issuer; s_clientRegistrationMethod := method;
                   s_tokenEndpointAuthMethod := tokenAuthMethod (stringValue (prop (js "tokenEndpointAuthMethod") payload)) false;
                   s_encryptedClientSecret := stringValue (prop (js "encryptedClientSecret") payload); s_returnPath := returnPath;
                   s_connectionId := stringValue (prop (js "connectionId") payload); s_connectionVersion := numberValue (prop (js "connectionVersion") payload) |}, nonce, iat)
      end
  end.

(** ** Registration *)

Definition secretOf (encrypted : option jstr) : result AccessError (option jstr) :=
  match nonEmpty encrypted with
  | None => Ok None
  | Some stored =>
      match environmentsEncryptionKeyBytes (store (broker settings)) with
      | Err e => Err e
      | Ok None => thrown "OAuth client secret present but OPENGENI_ENVIRONMENTS_ENCRYPTION_KEY is not configured"
      | Ok (Some key) => match decryptEnvironmentValue key stored with Ok s => Ok (Some s) | Err _ => thrown "decryption failed" end
      end
  end.
Definition loadIntegrationOAuthClient (issuer : jstr) (d : OAuthDb) : result AccessError (option StoredClient) :=
  match List.find (issuerIs issuer) (clients d) with
  | None => Ok None
  | Some r =>
      try secret := secretOf (oc_clientSecretEncrypted r) in
      Ok (Some {| sc_issuer := oc_issuer r; sc_authorizationServer := oc_authorizationServer r; sc_clientId := oc_clientId r; sc_clientSecret := secret;
                  sc_tokenEndpointAuthMethod := oc_tokenEndpointAuthMethod r; sc_metadata := oc_metadata r |})
  end.
Definition loadClient (issuer : jstr) : Task (option StoredClient) :=
  tx (fun _ d => try s := loadIntegrationOAuthClient issuer d in Ok (s, d)).
Definition isSome {A} (o : option A) : bool := match o with Some _ => true | None => false end.

Definition registrationBody (redirectUri : jstr) (scopes : list jstr) : json :=
  object [("client_name", textOf (js "OpenGeni")); ("redirect_uris", textList [redirectUri]); ("token_endpoint_auth_method", textOf (js "none"));
          ("grant_types", textList [js "authorization_code"; js "refresh_token"]); ("response_types", textList [js "code"]);
          ("scope", match scopes with [] => None | _ => textOf (joinWith (js " ") scopes) end)]%string.
Definition dynamicClientRegistration (m : AuthorizationServerMetadata) (redirectUri : jstr) (scopes : list jstr) : result AccessError OAuthClientRegistration :=
  match as_registrationEndpoint m with
  | None => refused 422 "authorization server does not support dynamic client registration"
  | Some endpoint =>
      try a := fetched settings web (postJson web (registrationBody redirectUri scopes)) endpoint in
      if negb (okStatus a) then refused 422 "dynamic client registration failed with HTTP "
      else
        match an_body a with
        | None => thrown "Unexpected token in JSON"
        | Some JNull => thrown "Cannot read properties of null"
        | Some payload =>
            match stringValue (prop (js "client_id") payload) with
            | None => refused 422 "dynamic client registration response did not include client_id"
            | Some clientId =>
                let secret := stringValue (prop (js "client_secret") payload) in
                Ok {| rg_method := dcr; rg_issuer := as_issuer m; rg_authorizationServer := as_authorizationServer m; rg_clientId := clientId; rg_clientSecret := secret;
                      rg_tokenEndpointAuthMethod := tokenAuthMethod (stringValue (prop (js "token_endpoint_auth_method") payload)) (isSome secret) |}
            end
        end
  end.
Definition sealSecret (iv : list Z) (secret : option jstr) : result AccessError (option jstr) :=
  match secret with
  | None => Ok None
  | Some s =>
      try key := requireKey in
      match encryptEnvironmentValue key iv s with Ok stored => Ok (Some stored) | Err _ => thrown "environment encryption key must be exactly 32 bytes" end
  end.
Definition registrationMetadata (m : AuthorizationServerMetadata) (scopes : list jstr) (now : Z) : json :=
  object [("registrationEndpoint", maybe (as_registrationEndpoint m)); ("registeredAt", textOf (isoString now)); ("registeredScopes", textList (uniqueStrings scopes))]%string.
Definition getOrCreateDynamicClientRegistration (iv : list Z) (m : AuthorizationServerMetadata) (redirectUri : jstr) (scopes : list jstr) : Task OAuthClientRegistration :=
  let* stored := loadClient (as_issuer m) in
  let register :=
    match as_registrationEndpoint m with
    | None => Throw (HttpError 422 (js "manual OAuth client credentials are required for this authorization server"))
    | Some _ =>
        let* registered := lift (dynamicClientRegistration m redirectUri scopes) in
        let* secret := lift (sealSecret iv (rg_clientSecret registered)) in
        let* winner := tx (fun now d => Ok (storeIntegrationOAuthClient {|
          oc_issuer := as_issuer m; oc_authorizationServer := as_authorizationServer m; oc_clientId := rg_clientId registered; oc_clientSecretEncrypted := secret;
          oc_tokenEndpointAuthMethod := authMethodText (rg_tokenEndpointAuthMethod registered); oc_metadata := registrationMetadata m scopes now |} d)) in
        if same (oc_clientId winner) (rg_clientId registered) then Ret registered
        else
          let* winner := loadClient (as_issuer m) in
          match winner with
          | Some s => Ret (dcrRegistrationFromStored s)
          | None => Throw (HttpError 422 (js "OAuth client registration could not be loaded after a registration race"))
          end
    end in
  match stored with
  | Some s => if registeredScopesMatch (sc_metadata s) scopes then Ret (dcrRegistrationFromStored s) else register
  | None => register
  end.
Record ManualClient := { mc_clientId : jstr; mc_clientSecret : option jstr; mc_tokenEndpointAuthMethod : option jstr }.
Definition registrationOf (method : RegistrationMethod) (m : AuthorizationServerMetadata) (clientId : jstr) (secret raw : option jstr) : OAuthClientRegistration := {|
  rg_method := method; rg_issuer := as_issuer m; rg_authorizationServer := as_authorizationServer m; rg_clientId := clientId; rg_clientSecret := nonEmpty secret;
  rg_tokenEndpointAuthMethod := tokenAuthMethod raw (isSome (nonEmpty secret)) |}.
Definition operatorEntry (issuer authorizationServer : jstr) : result AccessError (option ClientConfig) :=
  try entries := parseIntegrationsOauthClientsJson (integrationsOauthClientsJson settings) in
  Ok (operatorClientEntryFor entries [issuer; authorizationServer]).
Definition registerOAuthClient (iv : list Z) (m : AuthorizationServerMetadata) (metadataUrl redirectUri : jstr) (scopes : list jstr) (manualClient : option ManualClient) : Task OAuthClientRegistration :=
  let* entry := lift (operatorEntry (as_issuer m) (as_authorizationServer m)) in
  match entry with
  | Some e => Ret (registrationOf operator m (cc_clientId e) (cc_clientSecret e) (Some (cc_tokenEndpointAuthMethod e)))
  | None =>
      if as_clientIdMetadataDocumentSupported m then Ret {| rg_method := cimd; rg_issuer := as_issuer m; rg_authorizationServer := as_authorizationServer m;
                                                           rg_clientId := metadataUrl; rg_clientSecret := None; rg_tokenEndpointAuthMethod := none_ |}
      else
        match manualClient with
        | Some c => Ret (registrationOf manual m (mc_clientId c) (mc_clientSecret c) (mc_tokenEndpointAuthMethod c))
        | None => getOrCreateDynamicClientRegistration iv m redirectUri scopes
        end
  end.

(** ** The start *)

Definition canonicalMcpResource (value : option jstr) : result AccessError jstr :=
  match nonEmpty value with
  | None => refused 400 "mcpUrl is required"
  | Some v => match newURL None v with Some u => Ok (u_withoutHash u) | None => refused 422 "MCP resource URL is invalid" end
  end.
Definition canonicalOAuthResource (value : jstr) : result AccessError jstr :=
  let invalid := refused 422 "MCP protected resource metadata advertised an invalid resource" in
  match trim value with
  | [] => invalid
  | trimmed =>
      match newURL None trimmed with
      | None => invalid
      | Some u => Ok (if same (u_protocol u) (js "http:") || same (u_protocol u) (js "https:") then u_withoutHash u else trimmed)
      end
  end.
Definition integrationBaseUrl (requestUrl : jstr) : result AccessError jstr :=
  match publicBaseUrl settings with
  | Some base => Ok (trimSlashes base)
  | None => match newURL None requestUrl with Some u => Ok (trimSlashes (u_origin u)) | None => thrown "Invalid URL" end
  end.
Record StartRequest := {
  sr_providerDomain : option jstr; sr_mcpUrl : option jstr; sr_resource : option jstr; sr_requestedScopes : list jstr; sr_returnPath : option jstr;
  sr_connectionId : option jstr; sr_oauthClient : option ManualClient
}.
Record StartContext := { sx_accountId : jstr; sx_workspaceId : jstr; sx_subjectId : jstr; sx_requestUrl : jstr; sx_payload : StartRequest }.
Record StartResponse := { rs_state : jstr; rs_authorizationUrl : jstr; rs_expiresAt : jstr }.
Definition reconnectable (providerDomain : jstr) (c : ConnectionMetadata) : bool :=
  isNull (m_subjectId c) && bool_decide (m_kind c = oauth2) && bool_decide (m_status c = active) && same (m_providerDomain c) providerDomain.
Definition existingOAuthConnectionForStart (workspaceId subjectId providerDomain : jstr) (connectionId : option jstr) (d : ConnectionDb) : option ConnectionMetadata :=
  match nonEmpty connectionId with
  | Some id => getConnectionMetadata workspaceId id (Some subjectId) d
  | None => List.find (reconnectable providerDomain) (listConnectionsMetadata workspaceId (Some subjectId) d)
  end.
Definition buildAuthorizationUrl (endpoint clientId redirectUri state resource verifier : jstr) (scopes : list jstr) : result AccessError jstr :=
  match newURL None endpoint with
  | None => thrown "Invalid URL"
  | Some u => Ok (withParams u ([(js "response_type", js "code"); (js "client_id", clientId); (js "redirect_uri", redirectUri); (js "state", state); (js "resource", resource);
                                 (js "code_challenge_method", js "S256"); (js "code_challenge", sha256Base64Url verifier)] ++
                                match scopes with [] => [] | _ => [(js "scope", joinWith (js " ") scopes)] end))
  end.
(** What a start draws: two initialization vectors, the verifier, the nonce. *)
Record Random := { rd_iv : list Z; rd_secretIv : list Z; rd_clientIv : list Z; rd_verifier : jstr; rd_nonce : jstr }.
Definition sealText (key iv : list Z) (text : jstr) : Task jstr :=
  match encryptEnvironmentValue key iv text with Ok s => Ret s | Err _ => Throw (Thrown "environment encryption key must be exactly 32 bytes") end.
Definition startMcpOAuth (c : StartContext) (rnd : Random) (now : Z) : Task StartResponse :=
  let payload := sx_payload c in
  let* mcpUrl := lift (canonicalMcpResource (match sr_mcpUrl payload with Some u => Some u | None => sr_resource payload end)) in
  let* host := lift (match sr_providerDomain payload with
                     | Some domain => Ok domain
                     | None => match newURL None mcpUrl with Some u => Ok (u_hostname u) | None => thrown "Invalid URL" end
                     end) in
  let* providerDomain := onConnections (canonicalProviderDomain host) in
  let* returnPath := lift (safeReturnPath (default (js "/integrations") (sr_returnPath payload))) in
  let* baseUrl := lift (integrationBaseUrl (sx_requestUrl c)) in
  let redirectUri := baseUrl ++ js "/v1/integrations/oauth/callback" in
  let metadataUrl := baseUrl ++ js "/v1/integrations/oauth/client-metadata.json" in
  let* existing := onConnections (read (existingOAuthConnectionForStart (sx_workspaceId c) (sx_subjectId c) providerDomain (sr_connectionId payload))) in
  (if isSome (nonEmpty (sr_connectionId payload)) && negb (isSome existing) then Throw (HttpError 404 (js "connection not found")) else Ret tt) ;;
  let* discovery := lift (discoverMcpOAuth settings web mcpUrl) in
  let m := di_as discovery in
  let* resource := lift (match nonEmpty (pr_resource (di_prm discovery)) with Some r => canonicalOAuthResource r | None => Ok mcpUrl end) in
  let authorizeScopes := chooseAuthorizeScopes (sr_requestedScopes payload) (ch_scope (di_challenge discovery)) (pr_scopesSupported (di_prm discovery)) in
  let* client := registerOAuthClient (rd_clientIv rnd) m metadataUrl redirectUri authorizeScopes (sr_oauthClient payload) in
  let* key := lift requireKey in
  let* secret := lift requireIntegrationsStateSecret in
  let* verifier := sealText key (rd_iv rnd) (rd_verifier rnd) in
  let* clientSecret := match rg_method client, rg_clientSecret client with
                       | manual, Some s => let* sealed := sealText key (rd_secretIv rnd) s in Ret (Some sealed)
                       | _, _ => Ret None
                       end in
  let state := createSignedState secret (stateObject {|
    s_accountId := sx_accountId c; s_workspaceId := sx_workspaceId c; s_subjectId := sx_subjectId c; s_providerDomain := providerDomain; s_mcpUrl := mcpUrl;
    s_resource := resource; s_requestedScopes := uniqueStrings (sr_requestedScopes payload); s_authorizeScopes := authorizeScopes;
    s_encryptedPkceVerifier := verifier; s_clientId := rg_clientId client; s_tokenEndpoint := as_tokenEndpoint m; s_authorizationServer := rg_authorizationServer client;
    s_issuer := rg_issuer client; s_clientRegistrationMethod := rg_method client; s_tokenEndpointAuthMethod := rg_tokenEndpointAuthMethod client;
    s_encryptedClientSecret := clientSecret; s_returnPath := returnPath; s_connectionId := m_id <$> existing; s_connectionVersion := m_version <$> existing |})
    (rd_nonce rnd) (stateSeconds now) in
  let* url := lift (buildAuthorizationUrl (as_authorizationEndpoint m) (rg_clientId client) redirectUri state resource (rd_verifier rnd) authorizeScopes) in
  Ret {| rs_state := state; rs_authorizationUrl := url; rs_expiresAt := isoString (now + oauthStateTtlMs) |}.

(** ** The callback *)

Record Redirect := { rd_path : jstr; rd_success : bool; rd_params : list (jstr * jstr) }.
Definition failure (path : jstr) (reason : jstr) : Redirect := {| rd_path := path; rd_success := false; rd_params := [(js "reason", reason)] |}.
Definition callbackReturnPath (r : Redirect) : result AccessError jstr :=
  match newURL (Some (js "https://opengeni.local")) (rd_path r) with
  | None => thrown "Invalid URL"
  | Some u => match newURL None (withParams u ((js "integration_oauth", js (if rd_success r then "success" else "error")) :: rd_params r)) with
              | None => thrown "Invalid URL"
              | Some u => Ok (u_pathname u ++ u_search u ++ u_hash u)
              end
  end.

Definition clientForState (s : OAuthStatePayload) : Task OAuthClientRegistration :=
  let registration method clientId secret auth := {|
    rg_method := method; rg_issuer := s_issuer s; rg_authorizationServer := s_authorizationServer s; rg_clientId := clientId;
    rg_clientSecret := secret; rg_tokenEndpointAuthMethod := auth |} in
  match s_clientRegistrationMethod s with
  | cimd => Ret (registration cimd (s_clientId s) None none_)
  | manual =>
      let* key := lift requireKey in
      let* secret := match nonEmpty (s_encryptedClientSecret s) with
                     | None => Ret None
                     | Some stored => match decryptEnvironmentValue key stored with Ok t => Ret (Some t) | Err _ => Throw (Thrown "decryption failed") end
                     end in
      Ret (registration manual (s_clientId s) secret (s_tokenEndpointAuthMethod s))
  | dcr =>
      let* stored := loadClient (s_issuer s) in
      match stored with
      | Some c => if same (sc_clientId c) (s_clientId s) then Ret (dcrRegistrationFromStored c)
                  else Throw (HttpError 400 (js "OAuth client registration is no longer available"))
      | None => Throw (HttpError 400 (js "OAuth client registration is no longer available"))
      end
  | operator =>
      let* entry := lift (operatorEntry (s_issuer s) (s_authorizationServer s)) in
      match entry with
      | Some e => if same (cc_clientId e) (s_clientId s)
                  then Ret (registration operator (cc_clientId e) (nonEmpty (cc_clientSecret e)) (tokenAuthMethod (Some (cc_tokenEndpointAuthMethod e)) (isSome (nonEmpty (cc_clientSecret e)))))
                  else Throw (HttpError 400 (js "operator OAuth client credentials are no longer available"))
      | None => Throw (HttpError 400 (js "operator OAuth client credentials are no longer available"))
      end
  end.

Record TokenResponse := { tk_accessToken : jstr; tk_refreshToken : option jstr; tk_tokenType : jstr; tk_expiresAt : option Z; tk_scopeText : option jstr }.
Definition tokenExpiry (payload : json) (now : Z) : option Z :=
  match stringValue (prop (js "expires_at") payload) with
  | Some t => dateParse t
  | None =>
      match (match prop (js "expires_in") payload with Some (JNum n) => Some n | Some j => toNumber j | None => None end) with
      | Some n => if 0 <? n then Some (now + n * 1000) else None
      | None => None
      end
  end.
Definition errorCode (c : Z) : bool := nameChar c || (c =? 46).
Definition oauthErrorFromResponse (a : Answer) : option jstr :=
  if negb (an_isJson a) then None
  else
    match an_body a with
    | Some payload =>
        match stringValue (prop (js "error") payload) with
        | Some e => if (length e <=? 80)%nat && forallb errorCode e then Some e else None
        | None => None
        end
    | None => None
    end.
Definition exchangeHeaders (client : OAuthClientRegistration) : list (jstr * jstr) :=
  [(js "content-type", js "application/x-www-form-urlencoded"); (js "accept", js "application/json")] ++
  match rg_clientSecret client, rg_tokenEndpointAuthMethod client with
  | Some secret, client_secret_basic => [(js "authorization", js "Basic " ++ bytesToBase64 (utf8Encode (rg_clientId client ++ js ":" ++ secret)))]
  | _, _ => []
  end.
Definition exchangeBody (code verifier redirectUri resource : jstr) (client : OAuthClientRegistration) : list (jstr * jstr) :=
  [(js "grant_type", js "authorization_code"); (js "code", code); (js "redirect_uri", redirectUri); (js "code_verifier", verifier); (js "resource", resource)] ++
  match rg_clientSecret client, rg_tokenEndpointAuthMethod client with
  | Some secret, client_secret_post => [(js "client_id", rg_clientId client); (js "client_secret", secret)]
  | Some _, client_secret_basic => []
  | _, _ => [(js "client_id", rg_clientId client)]
  end.
(** The token, or the reason the redirect gives. *)
Definition exchangeAuthorizationCode (code verifier redirectUri resource tokenEndpoint : jstr) (client : OAuthClientRegistration) (now : Z) : result jstr TokenResponse :=
  match fetched settings web (postForm web (exchangeHeaders client) (exchangeBody code verifier redirectUri resource client)) tokenEndpoint with
  | Err _ => Err (js "token_exchange_failed")
  | Ok a =>
      if negb (okStatus a) then Err (default (js "token_exchange_failed") (oauthErrorFromResponse a))
      else
        match an_body a with
        | None | Some JNull => Err (js "token_exchange_failed")
        | Some payload =>
            match stringValue (prop (js "access_token") payload) with
            | None => Err (js "token_exchange_failed")
            | Some accessToken => Ok {| tk_accessToken := accessToken; tk_refreshToken := stringValue (prop (js "refresh_token") payload);
                tk_tokenType := default (js "Bearer") (stringValue (prop (js "token_type") payload)); tk_expiresAt := tokenExpiry payload now;
                tk_scopeText := stringValue (prop (js "scope") payload) |}
            end
        end
  end.
Definition credentialBundle (t : TokenResponse) (s : OAuthStatePayload) (client : OAuthClientRegistration) : list (jstr * json) :=
  [(js "access_token", JStr (tk_accessToken t))] ++ jsonField "refresh_token" (tk_refreshToken t) ++ [(js "token_type", JStr (tk_tokenType t))] ++
  jsonField "expires_at" (isoString <$> tk_expiresAt t) ++ [(js "resource", JStr (s_resource s)); (js "mcp_url", JStr (s_mcpUrl s))] ++
  jsonField "scope" (match tk_scopeText t with Some t => Some t | None => match s_authorizeScopes s with [] => None | l => Some (joinWith (js " ") l) end end) ++
  [(js "token_endpoint", JStr (s_tokenEndpoint s)); (js "client_id", JStr (rg_clientId client))] ++
  match rg_clientSecret client with
  | Some secret => [(js "client_secret", JStr secret); (js "token_endpoint_auth_method", JStr (authMethodText (rg_tokenEndpointAuthMethod client)))]
  | None => []
  end.

(** The tools the resource listed, or the reason it did not. *)
Definition Tools : Type := result jstr (list (jstr * option jstr)).
Definition toolJson (t : jstr * option jstr) : json := object [("name", textOf t.1); ("description", maybe (nonEmpty t.2))]%string.
Definition verificationJson (tools : Tools) (checkedAt : Z) : json :=
  match tools with
  | Ok l => object [("status", textOf (js "ok")); ("checkedAt", textOf (isoString checkedAt)); ("toolCount", intOf (Z.of_nat (length l)))]%string
  | Err reason => object [("status", textOf (js "failed")); ("checkedAt", textOf (isoString checkedAt)); ("reason", textOf reason)]%string
  end.
Definition connectionMetadata (s : OAuthStatePayload) (client : OAuthClientRegistration) (tools : Tools) (checkedAt : Z) : json :=
  object [("resource", textOf (s_resource s)); ("mcpUrl", textOf (s_mcpUrl s)); ("authorizationServer", textOf (s_authorizationServer s));
          ("authorizationServerIssuer", textOf (s_issuer s)); ("tokenEndpoint", textOf (s_tokenEndpoint s)); ("clientId", textOf (rg_clientId client));
          ("clientRegistrationMethod", textOf (registrationText (s_clientRegistrationMethod s))); ("mcpToolsVerification", Some (verificationJson tools checkedAt));
          ("mcpTools", match tools with Ok l => Some (JArr (List.map toolJson l)) | Err _ => None end)]%string.
Definition persist (s : OAuthStatePayload) (credentialEncrypted : jstr) (scopes : list jstr) (expiresAt : option Z) (metadata : json) : Task (option ConnectionMetadata) :=
  match nonEmpty (s_connectionId s) with
  | Some id =>
      onConnections (tx (fun now d => Ok (updateConnection {|
        ui_workspaceId := s_workspaceId s; ui_connectionId := id; ui_visibleToSubjectId := Some (s_subjectId s); ui_expectedVersion := s_connectionVersion s;
        ui_subjectId := None; ui_providerDomain := Some (s_providerDomain s); ui_kind := Some oauth2; ui_status := Some active; ui_credentialEncrypted := Some credentialEncrypted;
        ui_grantedScopes := Some scopes; ui_expiresAt := Some expiresAt; ui_metadata := Some metadata; ui_updatedBySubjectId := Some (Some (s_subjectId s)) |} now d)))
  | None =>
      let* c := onConnections (tx (createConnection {|
        ci_accountId := s_accountId s; ci_workspaceId := s_workspaceId s; ci_subjectId := None; ci_providerDomain := s_providerDomain s; ci_kind := oauth2;
        ci_credentialEncrypted := credentialEncrypted; ci_grantedScopes := scopes; ci_expiresAt := expiresAt; ci_metadata := metadata;
        ci_createdBySubjectId := Some (s_subjectId s) |})) in
      Ret (Some c)
  end.
(** The second half: its failures become a redirect. *)
Definition finishCallback (s : OAuthStatePayload) (code redirectUri : jstr) (iv : list Z) (tools : Tools) (now : Z) : Task Redirect :=
  let* key := lift requireKey in
  let* verifier := match decryptEnvironmentValue key (s_encryptedPkceVerifier s) with Ok t => Ret t | Err _ => Throw (Thrown "decryption failed") end in
  let* client := clientForState s in
  match exchangeAuthorizationCode code verifier redirectUri (s_resource s) (s_tokenEndpoint s) client now with
  | Err reason => Ret (failure (s_returnPath s) reason)
  | Ok token =>
      (if match tk_expiresAt token with Some t => MAX_TIME <? t | None => false end then Throw (Thrown "Invalid time value") else Ret tt) ;;
      let* stored := sealText key iv (JSON_stringify (JObj (credentialBundle token s client))) in
      let* connection := persist s stored (grantedScopes (tk_scopeText token) (s_authorizeScopes s)) (tk_expiresAt token) (connectionMetadata s client tools now) in
      match connection with
      | None => Throw (HttpError 409 (js "connection changed during OAuth reconnect; start again"))
      | Some c => Ret {| rd_path := s_returnPath s; rd_success := true;
                         rd_params := [(js "connectionId", m_id c); (js "providerDomain", m_providerDomain c)] ++
                                      match tools with Err _ => [(js "verification", js "failed")] | Ok _ => [] end |}
      end
  end.
Definition completeMcpOAuthCallback (code state : option jstr) (requestUrl : jstr) (iv : list Z) (tools : Tools) (now : Z) : Task Redirect :=
  let invalid path := failure path (js "state_invalid") in
  match nonEmpty state with
  | None => Ret (invalid (js "/integrations"))
  | Some text =>
      match readOAuthState text now with
      | Err _ => Ret (invalid (js "/integrations"))
      | Ok (s, nonce, iat) =>
          match nonEmpty code with
          | None => Ret (failure (s_returnPath s) (js "missing_code"))
          | Some code =>
              let* consumed := catch (onConnections (tx (fun now d => consumeIntegrationOAuthStateNonce {|
                cn_accountId := s_accountId s; cn_workspaceId := s_workspaceId s; cn_subjectId := s_subjectId s; cn_nonce := nonce;
                cn_expiresAt := iat * 1000 + oauthStateTtlMs; cn_now := now |} d))) (fun _ => Ret false) in
              if consumed
              then catch (let* baseUrl := lift (integrationBaseUrl requestUrl) in finishCallback s code (baseUrl ++ js "/v1/integrations/oauth/callback") iv tools now)
                     (fun _ => Ret (failure (s_returnPath s) (js "persist_failed")))
              else Ret (invalid (s_returnPath s))
          end
      end
  end.

(** ** The routes *)

Definition assertIntegrationsEnabled : Task unit :=
  if integrationsEnabled settings then Ret tt else Throw (HttpError 404 (js "integrations are not enabled for this deployment")).
Definition startRoute (rq : Request) (workspaceId requestUrl : jstr) (body : StartRequest) (rnd : Random) (now : Z) : Task StartResponse :=
  assertIntegrationsEnabled ;;
  let* grant := onConnections (grantFor (store (broker settings)) rq workspaceId "connections:write") in
  startMcpOAuth {| sx_accountId := gr_accountId grant; sx_workspaceId := workspaceId; sx_subjectId := gr_subjectId grant; sx_requestUrl := requestUrl; sx_payload := body |} rnd now.
Definition callbackRoute (code state : option jstr) (requestUrl : jstr) (iv : list Z) (tools : Tools) (now : Z) : Task Redirect :=
  assertIntegrationsEnabled ;; completeMcpOAuthCallback code state requestUrl iv tools now.

(** ** Requests stay among allowed addresses *)

Lemma fetch_guarded send hops url : let '(_, visited) := fetchOAuth settings web send hops url in
  (length visited <= S hops)%nat /\ Forall (fun u => assertOAuthFetchAllowed settings web u = Ok tt) visited.
Proof.
  revert url. induction hops as [|hops IH]; intros url; cbn [fetchOAuth]; (destruct (assertOAuthFetchAllowed settings web url) as [[]|e] eqn:Ea; [|by split; [cbn; lia|]]).
  all: assert (Forall (fun u => assertOAuthFetchAllowed settings web u = Ok tt) [url]) as Hu by (by apply Forall_singleton).
  - destruct (send url); by split; [cbn; lia|].
  - destruct (send url) as [|location|a]; [by split; [cbn; lia|]| |by split; [cbn; lia|]]. destruct (nonEmpty location) as [l|]; [|by split; [cbn; lia|]].
    destruct (newURL _ _) as [next|]; [|by split; [cbn; lia|]]. specialize (IH (u_href next)). destruct (fetchOAuth _ _ _ _ _) as [r visited].
    destruct IH as [Hl Hf]. split; [cbn; lia|by apply Forall_cons].
Qed.

(** Every request of a fetch, redirects included, goes to an allowed address, and
    there are four of them at most. *)
Theorem fetch_stays_allowed send url u : u ∈ (fetchOAuth settings web send MAX_HOPS url).2 ->
  (length (fetchOAuth settings web send MAX_HOPS url).2 <= 4)%nat /\
  exists parsed, newURL None u = Some parsed /\
    (integrationsAllowPrivateNetworkTargets (broker settings) = true \/ environment (broker settings) ∈ [js "local"; js "test"] \/
     u_protocol parsed = js "https:" /\
     exists l, forallb (fun a => negb (isPrivateAddress isIPv6 a)) l = true /\
       (l = [PayloadSanitizer.toLowerCase (u_hostname parsed)] \/ dns web (PayloadSanitizer.toLowerCase (u_hostname parsed)) = Some l)).
Proof.
  pose proof (fetch_guarded send MAX_HOPS url) as H. destruct (fetchOAuth _ _ _ _ _) as [r visited]. destruct H as [Hl Hf]. intros Hu. split; [exact Hl|].
  rewrite Forall_forall in Hf. specialize (Hf u Hu). unfold assertOAuthFetchAllowed, refused, thrown in Hf. destruct (newURL None u) as [parsed|]; [|done].
  exists parsed. split; [done|]. destruct (negb (same _ _ || _)); [done|]. destruct (integrationsAllowPrivateNetworkTargets _); [by left|].
  case_bool_decide as Ee; [by right; left|]. cbn [orb] in Hf. destruct (same _ _) eqn:Ep; [apply same_eq in Ep|done]. cbn [negb] in Hf.
  destruct (same _ _ || _) eqn:El; [done|]. right; right. split; [done|].
  assert (forall l : list jstr, existsb (isPrivateAddress isIPv6) l = false -> forallb (fun a => negb (isPrivateAddress isIPv6 a)) l = true) as Hn.
  { intros l. induction l as [|a l IH]; [done|]. cbn. destruct (isPrivateAddress _ a); [done|]. exact IH. }
  destruct (isIPv4 _ || isIPv6 _).
  - eexists. split; [|by left]. apply Hn. by destruct (existsb _ _).
  - destruct (dns web _) as [l|]; [|done]. exists l. split; [|by right]. apply Hn. by destruct (existsb _ _).
Qed.

(** ** States read back *)

Record sound (p : OAuthStatePayload) : Prop := {
  so_required : Forall (fun s => s <> []) [s_accountId p; s_workspaceId p; s_subjectId p; s_providerDomain p; s_mcpUrl p; s_resource p; s_encryptedPkceVerifier p;
                                           s_clientId p; s_tokenEndpoint p; s_authorizationServer p; s_issuer p; s_returnPath p];
  so_optional : s_encryptedClientSecret p <> Some [] /\ s_connectionId p <> Some [];
  so_scopes : uniqueStrings (s_requestedScopes p) = s_requestedScopes p /\ uniqueStrings (s_authorizeScopes p) = s_authorizeScopes p;
  so_path : safeReturnPath (s_returnPath p) = Ok (s_returnPath p);
  so_printable : wellFormed (JObj (stateObject p))
}.
Lemma stringValue_text s : s <> [] -> stringValue (Some (JStr s)) = Some s.
Proof. by destruct s. Qed.
Lemma stringValue_maybe o : o <> Some [] -> stringValue (maybe o) = o.
Proof. by destruct o as [[|]|]. Qed.
Lemma stringArray_texts l : stringArray (textList l) = uniqueStrings l.
Proof. unfold stringArray, textList. f_equal. induction l as [|x l IH]; [done|]. cbn in *. by rewrite IH. Qed.
Lemma numberValue_maybe o : numberValue (JNum <$> o) = o.
Proof. by destruct o. Qed.
Lemma prop_signed p nonce iat k : prop (js k) (JObj (signedFields (stateObject p) nonce iat)) =
  if String.eqb k "nonce" then Some (JStr nonce) else if String.eqb k "iat" then Some (JNum iat) else fieldOf k (stateFields p).
Proof.
  cbn [prop]. unfold signedFields. rewrite assoc_overlay by (apply (bool_decide_unpack _); vm_compute; done). cbn [assoc].
  destruct (String.eqb_spec k "nonce") as [->|En]; [done|]. rewrite bool_decide_eq_false_2 by (by intros ?%js_inj).
  destruct (String.eqb_spec k "iat") as [->|Ei]; [done|]. rewrite bool_decide_eq_false_2 by (by intros ?%js_inj). exact (prop_object k (stateFields p)).
Qed.
Lemma wellFormed_signed p nonce iat : units nonce -> wellFormed (JObj (stateObject p)) -> wellFormed (JObj (signedFields (stateObject p) nonce iat)).
Proof. intros Hn Hp. unfold signedFields, overlay. cbn [fold_left fst snd]. apply wellFormed_set_field; [apply units_js|done|]. by apply wellFormed_set_field; [apply units_js| |]. Qed.
(** A code has 32 bytes. *)
Definition codesAreLong : Prop := forall secret value, hmacSha256 secret value <> [].
Lemma hmac_nonempty secret value : codesAreLong -> hmacSha256Base64Url secret value <> [].
Proof. intros H. specialize (H secret value). unfold hmacSha256Base64Url, bytesToBase64Url. intros E%map_eq_nil. by destruct (hmacSha256 secret value) as [|a [|b [|c l]]]. Qed.
Lemma read_created secret fields nonce iat now : codesAreLong -> wellFormed (JObj (signedFields fields nonce iat)) ->
  readSignedState (createSignedState secret fields nonce iat) secret now =
  if (0 <=? now - iat) && (now - iat <=? stateMaxAgeSeconds) then Some (JObj (signedFields fields nonce iat)) else None.
Proof.
  intros Hmac Hw. unfold readSignedState, createSignedState. set (j := JObj _) in |- *. change (js ".") with [46]. cbn [app].
  set (e := base64UrlEncode (JSON_stringify j)). assert (46 ∉ e) as He.
  { apply dot_not_base64, bytes_utf8Encode. by apply paired_stringify. }
  rewrite splitOn_app, splitOn_none by (try done; apply dot_not_base64, hmac_bytes).
  assert (e <> []) as Hne by apply base64_nonempty. destruct e as [|c0 e0] eqn:Ee; [done|]. fold e in Ee.
  assert (hmacSha256Base64Url secret (c0 :: e0) <> []) as Hs by by apply hmac_nonempty. destruct (hmacSha256Base64Url secret (c0 :: e0)) as [|c1 s1] eqn:Es; [done|].
  unfold safeEqual. rewrite bool_decide_eq_true_2 by done. cbn [negb]. rewrite <- Ee. unfold e. rewrite base64Url_roundtrip by by apply paired_stringify.
  rewrite parse_stringify by done. unfold j, signedFields. cbn [prop]. rewrite !assoc_overlay by (apply (bool_decide_unpack _); vm_compute; done). done.
Qed.


(** A state reads back as what was signed, with its nonce and time, for ten
    minutes; before and after it is refused. *)
Theorem state_reads_back secret p nonce signedAt now : codesAreLong -> requireIntegrationsStateSecret = Ok secret -> sound p -> units nonce -> nonce <> [] ->
  readOAuthState (createSignedState secret (stateObject p) nonce (stateSeconds signedAt)) now =
  if (0 <=? stateSeconds now - stateSeconds signedAt) && (stateSeconds now - stateSeconds signedAt <=? 600)
  then Ok (p, nonce, stateSeconds signedAt) else refused 400 "invalid or expired OAuth state".
Proof.
  intros Hmac Hsecret Hp Hn Hne. destruct (Hp) as [Hr [Ho1 Ho2] [Hs1 Hs2] Hpath Hw]. unfold readOAuthState. rewrite Hsecret.
  rewrite read_created by (done || by apply wellFormed_signed). set (iat := stateSeconds signedAt). set (t := stateSeconds now). unfold stateMaxAgeSeconds, oauthStateTtlMs.
  change (600000 / 1000) with 600. destruct (0 <=? t - iat) eqn:E1; [|done]. destruct (t - iat <=? 3600) eqn:E2; cbn [andb];
    [|replace (t - iat <=? 600) with false by lia; done].
  assert (forall k v, (if String.eqb k "nonce" then Some (JStr nonce) else if String.eqb k "iat" then Some (JNum iat) else fieldOf k (stateFields p)) = v ->
    prop (js k) (JObj (signedFields (stateObject p) nonce iat)) = v) as HF by (intros k v <-; apply prop_signed).
  generalize dependent (JObj (signedFields (stateObject p) nonce iat)). intros j HF.
  rewrite (HF "iat" (Some (JNum iat)) eq_refl). cbn [numberValue asNumber].
  replace (600 <? t - iat) with (negb (t - iat <=? 600)) by lia. replace (t <? iat) with false by lia. rewrite orb_false_r. destruct (t - iat <=? 600); [|done]. cbn [negb].
  repeat (apply Forall_cons in Hr as [? Hr]). unfold requiredString.
  rewrite (HF "resource" (textOf (s_resource p)) eq_refl), (HF "accountId" (textOf (s_accountId p)) eq_refl), (HF "workspaceId" (textOf (s_workspaceId p)) eq_refl),
    (HF "subjectId" (textOf (s_subjectId p)) eq_refl), (HF "providerDomain" (textOf (s_providerDomain p)) eq_refl), (HF "encryptedPkceVerifier" (textOf (s_encryptedPkceVerifier p)) eq_refl),
    (HF "clientId" (textOf (s_clientId p)) eq_refl), (HF "tokenEndpoint" (textOf (s_tokenEndpoint p)) eq_refl), (HF "authorizationServer" (textOf (s_authorizationServer p)) eq_refl),
    (HF "issuer" (textOf (s_issuer p)) eq_refl), (HF "nonce" (Some (JStr nonce)) eq_refl), (HF "returnPath" (textOf (s_returnPath p)) eq_refl),
    (HF "mcpUrl" (textOf (s_mcpUrl p)) eq_refl), (HF "requestedScopes" (textList (s_requestedScopes p)) eq_refl), (HF "authorizeScopes" (textList (s_authorizeScopes p)) eq_refl),
    (HF "clientRegistrationMethod" (textOf (registrationText (s_clientRegistrationMethod p))) eq_refl), (HF "tokenEndpointAuthMethod" (textOf (authMethodText (s_tokenEndpointAuthMethod p))) eq_refl),
    (HF "encryptedClientSecret" (maybe (s_encryptedClientSecret p)) (last_field _)),
    (HF "connectionId" (maybe (s_connectionId p)) (last_field _)), (HF "connectionVersion" (JNum <$> s_connectionVersion p) (last_field _)).
  unfold textOf. rewrite !stringValue_text, !stringArray_texts, !stringValue_maybe, numberValue_maybe, Hs1, Hs2 by first [done|by destruct (s_tokenEndpointAuthMethod p)].
  unfold default, from_option, id in *. rewrite Hpath. destruct p as [? ? ? ? ? ? ? ? ? ? ? ? ? m a ? ? ? ?]; destruct m, a; reflexivity.
Qed.

(** ** Nonces are used once *)

Fixpoint consumeAll (attempts : list ConsumeInput) (d : ConnectionDb) : list ConsumeInput :=
  match attempts with
  | [] => []
  | i :: attempts =>
      match consumeIntegrationOAuthStateNonce i d with
      | Ok (true, d) => i :: consumeAll attempts d
      | Ok (false, d) => consumeAll attempts d
      | Err _ => consumeAll attempts d
      end
  end.
Definition inTime (i : ConsumeInput) : bool := cn_now i <=? cn_expiresAt i.
(** Attempts in the order of their time; a nonce belongs to one state. *)
Definition inOrder : list ConsumeInput -> Prop := StronglySorted (fun i j => cn_now i <= cn_now j).
Definition ofStates (attempts : list ConsumeInput) : Prop :=
  forall i j, i ∈ attempts -> j ∈ attempts -> cn_nonce i = cn_nonce j -> cn_expiresAt i = cn_expiresAt j.
Definition holdsNonce (n : jstr) (e : Z) (d : ConnectionDb) : Prop := exists r, r ∈ nonces d /\ o_nonce r = n /\ o_expiresAt r = e.

Lemma consumed_elem attempts : forall d i, i ∈ consumeAll attempts d -> i ∈ attempts.
Proof.
  induction attempts as [|j attempts IH]; intros d i; cbn; [done|]. destruct (consumeIntegrationOAuthStateNonce j d) as [[[] d']|].
  - intros [->|H]%elem_of_cons; [by left|right; by eapply IH].
  - intros H. right. by eapply IH.
  - intros H. right. by eapply IH.
Qed.
Lemma consume_holds i d ok d' n e : consumeIntegrationOAuthStateNonce i d = Ok (ok, d') -> cn_now i <= e -> holdsNonce n e d ->
  holdsNonce n e d' /\ (cn_nonce i = n -> ok = false).
Proof.
  unfold consumeIntegrationOAuthStateNonce. destruct (getWorkspace _ _); [|done]. set (kept := delete_where _ _). intros H Hnow (r & Hr & Hn & He).
  assert (r ∈ kept) as Hk. { apply list_elem_of_In, filter_In. split; [by apply list_elem_of_In|]. apply negb_true_iff, andb_false_iff. right. lia. }
  destruct (existsb _ _) eqn:Ee; injection H as <- <-.
  - split; [by exists r|done].
  - split; [exists r; split_and!; [apply elem_of_app; by left|done|done]|]. intros Ei. exfalso. apply not_true_iff_false in Ee. apply Ee, existsb_exists. exists r.
    split; [by apply list_elem_of_In|]. apply same_eq. congruence.
Qed.
Lemma consume_stores i d d' : consumeIntegrationOAuthStateNonce i d = Ok (true, d') -> holdsNonce (cn_nonce i) (cn_expiresAt i) d'.
Proof.
  unfold consumeIntegrationOAuthStateNonce. destruct (getWorkspace _ _); [|done]. destruct (existsb _ _); [done|]. intros [= <-]. eexists.
  split_and!; [apply elem_of_app; right; by left|done|done].
Qed.
Lemma held_not_consumed attempts n e : forall d, inOrder attempts -> (forall j, j ∈ attempts -> cn_nonce j = n -> cn_expiresAt j = e) -> holdsNonce n e d ->
  forall j, j ∈ consumeAll attempts d -> inTime j = true -> cn_nonce j <> n.
Proof.
  induction attempts as [|i attempts IH]; intros d Hs Hn Hh j Hj Ht En; [by apply elem_of_nil in Hj|]. apply StronglySorted_inv in Hs as [Hs Hi].
  assert (cn_expiresAt j = e) as Ej by (apply Hn; [by eapply consumed_elem|done]). unfold inTime in Ht. rewrite Ej in Ht. apply Z.leb_le in Ht.
  assert (cn_now i <= cn_now j) as Hle. { apply consumed_elem in Hj. apply elem_of_cons in Hj as [->|Hj]; [done|]. rewrite Forall_forall in Hi. by apply Hi. }
  assert (forall j, j ∈ attempts -> cn_nonce j = n -> cn_expiresAt j = e) as Hn' by (intros k Hk; apply Hn; by right).
  assert (inTime j = true) as Ht' by (apply Z.leb_le; lia). cbn in Hj. destruct (consumeIntegrationOAuthStateNonce i d) as [[ok d']|err] eqn:Ec.
  - destruct (consume_holds _ _ _ _ n e Ec) as [Hh' Hno]; [lia|done|]. destruct ok; [|by eapply (IH d' Hs Hn' Hh' j Hj Ht')].
    apply elem_of_cons in Hj as [->|Hj]; [by specialize (Hno En)|by eapply (IH d' Hs Hn' Hh' j Hj Ht')].
  - by eapply (IH d Hs Hn' Hh j Hj Ht').
Qed.
(** Among the callbacks of a workspace, one at most gets past a nonce before the
    state expires. *)
Theorem states_are_single_use attempts d : inOrder attempts -> ofStates attempts ->
  NoDup (List.map cn_nonce (List.filter inTime (consumeAll attempts d))).
Proof.
  revert d. induction attempts as [|i attempts IH]; intros d Hs Ho; [constructor|]. pose proof Hs as [Hs' _]%StronglySorted_inv.
  assert (ofStates attempts) as Ho' by (intros a b Ha Hb; apply Ho; by right). cbn. destruct (consumeIntegrationOAuthStateNonce i d) as [[[] d']|err] eqn:Ec; [|by apply IH..].
  cbn. destruct (inTime i) eqn:Et; [|by apply IH]. cbn. apply NoDup_cons. split; [|by apply IH].
  intros (j & Ej & Hj)%list_elem_of_fmap. apply list_elem_of_In, filter_In in Hj as [Hj%list_elem_of_In Htj].
  eapply (held_not_consumed attempts (cn_nonce i) (cn_expiresAt i) d' Hs'); [|by eapply consume_stores|exact Hj|exact Htj|done].
  intros k Hk Ek. symmetry. apply Ho; [by left|by right|done].
Qed.

(** ** Reconnecting *)

Definition reconnected (s : OAuthStatePayload) (stored : jstr) (scopes : list jstr) (expiresAt : option Z) (metadata : json) (now : Z) (r : ConnectionRow) : ConnectionRow := {|
  n_id := n_id r; n_accountId := n_accountId r; n_workspaceId := n_workspaceId r; n_subjectId := n_subjectId r; n_providerDomain := s_providerDomain s; n_kind := oauth2;
  n_status := active; n_credentialEncrypted := stored; n_grantedScopes := scopes; n_expiresAt := expiresAt; n_lastRefreshAt := n_lastRefreshAt r;
  n_lastUsedAt := n_lastUsedAt r; n_lastError := None; n_version := n_version r + 1; n_metadata := metadata; n_createdBySubjectId := n_createdBySubjectId r;
  n_updatedBySubjectId := Some (s_subjectId s); n_createdAt := n_createdAt r; n_updatedAt := now |}.
(** The callback of a reconnect replaces the credential of its connection when
    nothing changed credential or status since the start, and nothing otherwise. *)
Theorem reconnect_is_guarded s id v stored scopes expiresAt metadata now x r : conn_ok (conn x) -> s_connectionId s = Some id -> id <> [] -> s_connectionVersion s = Some v ->
  r ∈ connections (conn x) -> visibleConnection (s_workspaceId s) id (Some (s_subjectId s)) r = true ->
  exec now (persist s stored scopes expiresAt metadata) x =
  if n_version r =? v
  then let r' := reconnected s stored scopes expiresAt metadata now r in
       (Ok (Some (mapConnectionMetadata r')), [],
        putConn ((conn x) <| connections ::= update_where (fun q => same (n_id q) id) (fun _ => r') |>) x)
  else (Ok None, [], putConn (conn x) x).
Proof.
  intros Hok Hid Hne Hv Hr Hvis. unfold persist. rewrite Hid. destruct id as [|c0 id0]; [done|]. cbn [nonEmpty]. set (id := c0 :: id0) in *. unfold onConnections. cbn [embed tx exec].
  rewrite Hv. unfold updateConnection, updateReturning. cbn [ui_workspaceId ui_connectionId ui_visibleToSubjectId ui_expectedVersion].
  set (p := fun q => visibleConnection (s_workspaceId s) id (Some (s_subjectId s)) q && (n_version q =? v)). set (f := applyUpdate _ now).
  pose proof Hvis as [[_ Hi%same_eq]%andb_true_iff _]%andb_true_iff.
  assert (forall q, p q = true -> n_id q = id) as Hp by (intros q [[[_ E%same_eq]%andb_true_iff _]%andb_true_iff _]%andb_true_iff; done).
  assert (forall q, q ∈ connections (conn x) -> n_id q = id -> q = r) as Hu by (intros q Hq E; apply (numbered_unique n_id _ _ _ _ Hok Hq Hr); congruence).
  assert (forall t, updated_rows p f t = List.map f (select_where p t)) as updated_rows_select by done.
  destruct (n_version r =? v) eqn:Ev.
  - assert (p r = true) as Hpr by (unfold p; by rewrite Hvis, Ev). destruct (select_numbered p (conn x) id Hok Hp) as [Es|(q & Es & Hq & Epq)].
    { exfalso. assert (r ∈ select_where p (connections (conn x))) as H by (by apply elem_of_select_where). rewrite Es in H. by apply elem_of_nil in H. }
    assert (q = r) as -> by (by apply Hu, Hp). assert (f r = reconnected s stored scopes expiresAt metadata now r) as Hf by done. rewrite updated_rows_select, Es.
    cbn [List.map head fmap option_fmap option_map]. rewrite Hf. cbv zeta. do 2 f_equal. destruct (conn x) as [a t n k]. cbn in *. f_equal.
    unfold update_where. apply List.map_ext_in. intros q Hq'%list_elem_of_In. destruct (same (n_id q) id) eqn:Eq.
    + apply same_eq in Eq. assert (q = r) as -> by (by apply Hu). by rewrite Hpr.
    + destruct (p q) eqn:Epq'; [|done]. apply Hp, same_eq in Epq'. congruence.
  - assert (forall q, q ∈ connections (conn x) -> p q = false) as Hn.
    { intros q Hq. apply not_true_iff_false. intros Epq. assert (q = r) as -> by (by apply Hu, Hp). apply andb_true_iff in Epq as [_ E]. congruence. }
    destruct (select_numbered p (conn x) id Hok Hp) as [Es|(q & _ & Hq & Epq)]; [|by rewrite Hn in Epq]. rewrite updated_rows_select, Es.
    cbn [List.map head fmap option_fmap option_map]. do 2 f_equal. destruct (conn x) as [a t n k]. cbn in *. f_equal. by apply update_where_none.
Qed.
End flow.
End OAuthClient.
