(* ===== verification/OpStream.v ===== *)
(** * Streamed execs on a connected machine
      ([packages/runtime/src/sandbox/selfhosted/op-stream.ts], [op-correlation.ts], [session.ts])

    An exec runs as an op with a durable id: [OpStart] is idempotent by that id,
    output arrives as sequenced frames that may be lost, repeated or reordered,
    [OpAttach] replays from the consumer's frontier, acks only grant credit, and
    the op is finally acked when its result is durable.  The consumer is a
    machine stepped by what happens to it: a frame, the answer of an attach, the
    ack timer, the liveness tick, the answer of a probe. *)
From Stdlib Require Import QArith Strings.Byte.
From stdpp Require Import pretty.
From S2P Require Import Prelude Json ControlRpc.
#[local] Open Scope Z_scope.
#[local] Open Scope opengeni_scope.

(** ** Durable op ids ([op-correlation.ts]) *)

Module OpCorrelation.

Definition hexDigit (k : Z) : Z := if k <? 10 then 48 + k else 87 + k.
(** [charCode.toString(16)]: a UTF-16 code unit has at most four digits. *)
Definition hex (n : Z) : jstr :=
  if n <? 16 then [hexDigit n]
  else if n <? 256 then [hexDigit (n / 16); hexDigit (n mod 16)]
  else if n <? 4096 then [hexDigit (n / 256); hexDigit (n / 16 mod 16); hexDigit (n mod 16)]
  else [hexDigit (n / 4096); hexDigit (n / 256 mod 16); hexDigit (n / 16 mod 16); hexDigit (n mod 16)].

Definition isAlnum (c : Z) : bool := (65 <=? c) && (c <=? 90) || (97 <=? c) && (c <=? 122) || (48 <=? c) && (c <=? 57).
Definition allowed (c : Z) : bool := isAlnum c || (c =? 95) || (c =? 45).
Definition sanitizeChar (c : Z) : jstr := if allowed c then [c] else [95] ++ hex c ++ [95].
Definition sanitizeOpIdToken (raw : jstr) : jstr := concat (List.map sanitizeChar raw).

(** The context bound around a tool invocation: its sanitized id and the next ordinal. *)
Record ToolCallCorrelation := { callId : jstr; ordinal : Z }.
Definition runWithToolCallCorrelation (id : jstr) : ToolCallCorrelation := {| callId := sanitizeOpIdToken id; ordinal := 0 |}.
Definition opIdOf (id : jstr) (n : Z) : jstr := id ++ js ":" ++ ControlRpc.showNum n.
Definition nextDurableOpId (context : option ToolCallCorrelation) : option jstr * option ToolCallCorrelation :=
  match context with
  | None => (None, None)
  | Some c => (Some (opIdOf (callId c) (ordinal c)), Some {| callId := callId c; ordinal := ordinal c + 1 |})
  end.

(** ** Legal and distinct ids *)

Definition digitValue (c : Z) : Z := if c <? 58 then c - 48 else c - 87.
(** Undo [sanitizeOpIdToken]: [open] is the value of an escape read so far. *)
Fixpoint unsanitize (open : option Z) (s : jstr) : jstr :=
  match s with
  | [] => []
  | c :: s =>
      match open with
      | None => if c =? 95 then unsanitize (Some 0) s else c :: unsanitize None s
      | Some n => if c =? 95 then n :: unsanitize None s else unsanitize (Some (16 * n + digitValue c)) s
      end
  end.

Definition codeUnit (c : Z) : Prop := 0 <= c < 65536.

Lemma hexDigit_value k : 0 <= k < 16 -> digitValue (hexDigit k) = k /\ (hexDigit k =? 95) = false /\ allowed (hexDigit k) = true.
Proof.
  intros H. unfold digitValue, hexDigit, allowed, isAlnum. destruct (Z.ltb_spec k 10).
  - rewrite (proj2 (Z.ltb_lt _ _)) by lia. split; [lia|]. split; [lia|].
    rewrite (proj2 (Z.leb_le 48 _)), (proj2 (Z.leb_le _ 57)) by lia. by rewrite !orb_true_r.
  - rewrite (proj2 (Z.ltb_ge _ _)) by lia. split; [lia|]. split; [lia|].
    rewrite (proj2 (Z.leb_le 97 _)), (proj2 (Z.leb_le _ 122)) by lia. by rewrite !orb_true_r.
Qed.

Lemma hex_spec n rest : codeUnit n -> unsanitize (Some 0) (hex n ++ [95] ++ rest) = n :: unsanitize None rest /\ Forall (fun c => allowed c = true) (hex n).
Proof.
  intros Hn. unfold codeUnit in Hn.
  pose proof (hexDigit_value (n mod 16) (Z.mod_pos_bound n 16 ltac:(lia))) as (V0 & E0 & A0).
  pose proof (hexDigit_value (n / 16 mod 16) (Z.mod_pos_bound _ 16 ltac:(lia))) as (V1 & E1 & A1).
  pose proof (hexDigit_value (n / 256 mod 16) (Z.mod_pos_bound _ 16 ltac:(lia))) as (V2 & E2 & A2).
  unfold hex. repeat match goal with |- context [if ?x <? ?y then _ else _] => destruct (Z.ltb_spec x y) end.
  - destruct (hexDigit_value n ltac:(lia)) as (V & E & A). cbn -[Z.mul]. rewrite E. cbn -[Z.mul]. rewrite V. split; [f_equal; lia|by repeat constructor].
  - destruct (hexDigit_value (n / 16)) as (V & E & A); [Z.to_euclidean_division_equations; lia|].
    cbn -[Z.mul Z.div Z.modulo]. rewrite E, E0. cbn -[Z.mul Z.div Z.modulo]. rewrite V, V0. split; [f_equal; Z.to_euclidean_division_equations; lia|by repeat constructor].
  - destruct (hexDigit_value (n / 256)) as (V & E & A); [Z.to_euclidean_division_equations; lia|].
    cbn -[Z.mul Z.div Z.modulo]. rewrite E, E1, E0. cbn -[Z.mul Z.div Z.modulo]. rewrite V, V1, V0. split; [f_equal; Z.to_euclidean_division_equations; lia|by repeat constructor].
  - destruct (hexDigit_value (n / 4096)) as (V & E & A); [Z.to_euclidean_division_equations; lia|].
    cbn -[Z.mul Z.div Z.modulo]. rewrite E, E2, E1, E0. cbn -[Z.mul Z.div Z.modulo]. rewrite V, V2, V1, V0. split; [f_equal; Z.to_euclidean_division_equations; lia|by repeat constructor].
Qed.

Lemma unsanitize_sanitize raw : Forall (fun c => codeUnit c /\ c <> 95) raw -> unsanitize None (sanitizeOpIdToken raw) = raw.
Proof.
  induction 1 as [|c raw [Hc Hne] _ IH]; [done|]. unfold sanitizeOpIdToken in *. cbn [List.map concat].
  unfold sanitizeChar at 1. destruct (allowed c) eqn:Ea.
  - cbn [app unsanitize]. rewrite (proj2 (Z.eqb_neq c 95)) by done. by rewrite IH.
  - rewrite <- !app_assoc. change (unsanitize None ([95] ++ ?s)) with (unsanitize (Some 0) s).
    rewrite (proj1 (hex_spec c _ Hc)). by rewrite IH.
Qed.

Lemma sanitized_legal raw : Forall codeUnit raw -> Forall (fun c => allowed c = true) (sanitizeOpIdToken raw).
Proof.
  induction 1 as [|c raw Hc _ IH]; [constructor|]. unfold sanitizeOpIdToken in *. cbn [List.map concat]. apply Forall_app_2; [|done].
  unfold sanitizeChar. destruct (allowed c) eqn:Ea; [by repeat constructor|]. apply Forall_cons. split; [done|].
  apply Forall_app_2; [apply (hex_spec c [] Hc)|by repeat constructor].
Qed.

(** Op ids are legal subject tokens and tell sub-ops apart: for call ids
    without an underscore, two sub-ops have the same id only if both the call
    and the ordinal are the same, so an idempotent start never merges two
    different commands; and a re-executed call mints the same ids again. *)
Theorem op_ids_distinct id1 id2 n1 n2 :
  Forall (fun c => codeUnit c /\ c <> 95) id1 -> Forall (fun c => codeUnit c /\ c <> 95) id2 ->
  opIdOf (callId (runWithToolCallCorrelation id1)) n1 = opIdOf (callId (runWithToolCallCorrelation id2)) n2 ->
  id1 = id2 /\ n1 = n2.
Proof.
  intros H1 H2 He. cbn [callId runWithToolCallCorrelation] in He. unfold opIdOf in He.
  assert (Hl : forall id, Forall (fun c => codeUnit c /\ c <> 95) id -> 58 ∉ sanitizeOpIdToken id).
  { intros id Hid Hin. assert (Hs : Forall codeUnit id) by (eapply Forall_impl; [exact Hid|naive_solver]).
    apply sanitized_legal in Hs. rewrite Forall_forall in Hs. by specialize (Hs _ Hin). }
  destruct (split_unique 58 (sanitizeOpIdToken id1) (ControlRpc.showNum n1) (sanitizeOpIdToken id2) (ControlRpc.showNum n2)) as [Ha Hb]; [by apply Hl..|exact He|].
  split.
  - by rewrite <- (unsanitize_sanitize id1 H1), Ha, unsanitize_sanitize.
  - apply js_inj in Hb. by apply (inj pretty) in Hb.
Qed.

Lemma op_ids_distinct_witness : js "call.1" = js "call.1" /\ 0 = 0.
Proof. apply (op_ids_distinct (js "call.1") (js "call.1") 0 0); [unfold codeUnit; apply (bool_decide_unpack _); by vm_compute..|reflexivity]. Defined.

(** The escape character is itself allowed and not escaped: with underscores two
    call ids can collide, and the second call collects the first one's result. *)
Example op_ids_collide :
  opIdOf (sanitizeOpIdToken (js "a.b")) 0 = opIdOf (sanitizeOpIdToken (js "a_2e_b")) 0 /\ js "a.b" <> js "a_2e_b".
Proof. by vm_compute. Qed.

End OpCorrelation.

Module OpStream.
Import ControlRpc.

Abbreviation bytes := (list byte) (only parsing).

(** ** The wire *)

Inductive Channel := CH_UNSPECIFIED | CH_STDOUT | CH_STDERR | CH_CONTENT.
Inductive OpState := OS_UNSPECIFIED | OS_ACCEPTED | OS_RUNNING | OS_COMPLETE | OS_LOST.
#[export] Instance OpState_eq_dec : EqDecision OpState.
Proof. solve_decision. Defined.
Inductive OpLostReason := LR_UNSPECIFIED | LR_EVICTED | LR_AGENT_RESTARTED.

Record OpExit := {
  x_exitCode : Z;
  x_timedOut : bool;
  x_durationMs : Z;
  x_digests : list (jstr * jstr);
  x_totals : list (jstr * Z);
  x_failureCode : jstr;
  x_failureDetail : Detail
}.
Inductive Body := Data (channel : Channel) (content : bytes) | Progress | Exit (exit : OpExit).
Record Frame := { f_opId : jstr; f_seq : Z; f_body : option Body }.
Record OpStatus := { os_state : OpState; os_nextSeq : Z; os_exit : option OpExit; os_lostReason : OpLostReason }.

(** The answer of a control op: the mapped error, the result it asked for, or a
    result of another kind. *)
Inductive Answer (A : Type) := Answered (a : A) | OtherResult | Failed (e : ControlError).
Arguments Answered {A} a.
Arguments OtherResult {A}.
Arguments Failed {A} e.

(** ** Typed failures *)

Definition protocolError (message : jstr) : ControlError := controlError message E_PROTOCOL None false [].
Definition lostReasonNumber (r : OpLostReason) : Z := match r with LR_UNSPECIFIED => 0 | LR_EVICTED => 1 | LR_AGENT_RESTARTED => 2 end.
Definition lostToControlError (status : OpStatus) : ControlError :=
  let reason := match os_lostReason status with
                | LR_EVICTED => "its retained result was evicted before collection"
                | LR_AGENT_RESTARTED => "the machine agent restarted and the op did not survive"
                | LR_UNSPECIFIED => "the runner reported it lost"
                end in
  controlError (js "The command's result is no longer available on the machine (" ++ js reason ++ js "). "
                ++ js "Check whether its effects already took place before re-running it.")
    E_STREAM None false [(js "lost_reason", showNum (lostReasonNumber (os_lostReason status)))].
Definition runnerFailureToControlError (exit : OpExit) : ControlError :=
  let detail := setText (js "failure_code") (x_failureCode exit) (x_failureDetail exit) in
  if bool_decide (x_failureCode exit = js "OP_OVERFLOW") then
    (controlError (js "The command produced more output than the machine link can retain for delivery. "
       ++ js "Redirect the command's output to a file (for example `<command> > /tmp/out.log 2>&1`) "
       ++ js "and then read that file back in ranges or chunks instead of returning it all at once.")
       E_PAYLOAD_TOO_LARGE None false detail) <| ce_payloadTooLarge := true |>
  else
    controlError (js "The command failed on the machine's streaming transport (" ++ x_failureCode exit ++ js "). "
      ++ js "The machine kept running it, but its output could not be captured intact.")
      E_STREAM None false detail.

(** ** The consumer *)

Definition OP_STREAM_DEFAULT_WINDOW_BYTES : Z := 4 * 1024 * 1024.
Definition OP_STREAM_ACK_INTERVAL_MS : Z := 5000.
Definition OP_STREAM_SILENCE_TIMEOUT_MS : Z := 30000.
Definition OP_STREAM_RECONNECT_HOLD_MS : Z := 120000.
Definition OP_STREAM_MAX_STASHED_FRAMES : nat := 4096.
Definition OP_START_DRAINING_MAX_RETRIES : Z := 10.
Definition OP_START_BLIP_MAX_RETRIES : Z := 3.

(** What the client puts on the wire while the op runs. *)
Inductive Sent := AckSent (ackedSeq creditBytes : Z) (final : bool) | AttachSent (fromSeq windowBytes : Z).

(** [outcome] is the first of the two promises that settles: [settled], or the
    liveness watcher's [wall]. *)
Record Consumer := {
  lastApplied : Z;
  stash : gmap Z Frame;
  stdout : list bytes;
  stderr : list bytes;
  receivedPayloadBytes : Z;
  creditAtLastAck : Z;
  exit : option OpExit;
  exitSeq : option Z;
  heals : Z;
  lastFrameAt : Z;
  silenceSince : option Z;
  attachInFlight : bool;
  probing : bool;
  torn : bool;
  sent : list Sent;
  outcome : option (result ControlError unit)
}.
#[export] Instance etaConsumer : Settable Consumer := fun c =>
  Build_Consumer (lastApplied c) (stash c) (stdout c) (stderr c) (receivedPayloadBytes c) (creditAtLastAck c) (exit c) (exitSeq c)
    (heals c) (lastFrameAt c) (silenceSince c) (attachInFlight c) (probing c) (torn c) (sent c) (outcome c).

Definition newConsumer (now : Z) : Consumer := {|
  lastApplied := 0; stash := ∅; stdout := []; stderr := []; receivedPayloadBytes := 0; creditAtLastAck := 0; exit := None;
  exitSeq := None; heals := 0; lastFrameAt := now; silenceSince := None; attachInFlight := false; probing := false; torn := false;
  sent := []; outcome := None |}.

Definition resolve (r : result ControlError unit) (c : Consumer) : Consumer :=
  match outcome c with None => c <| outcome := Some r |> | Some _ => c end.

(** The operation's deadlines and window. *)
Record OpConfig := { opId : jstr; windowBytes : Z; silenceTimeoutMs : Z; reconnectHoldMs : Z; startedAt : Z; wallMs : Z }.

Section consumer.
Context (config : OpConfig).

Definition sendAck (c : Consumer) : Consumer :=
  if torn c then c
  else c <| creditAtLastAck := receivedPayloadBytes c |>
         <| sent ::= fun l => l ++ [AckSent 0 (receivedPayloadBytes c + windowBytes config) false] |>.

(** At most one re-attach in flight; the answer is [onAttach]. *)
Definition requestAttachHeal (c : Consumer) : Consumer :=
  if attachInFlight c || torn c then c
  else c <| attachInFlight := true |> <| sent ::= fun l => l ++ [AttachSent (lastApplied c) 0] |>.

(** [attach]'s verdict on an answer. *)
Definition attachError (answer : Answer OpStatus) : option ControlError :=
  match answer with
  | Failed e => Some e
  | OtherResult => Some (protocolError (js "op-stream attach: unexpected result"))
  | Answered status => if bool_decide (os_state status = OS_LOST) then Some (lostToControlError status) else None
  end.
Definition onAttach (answer : Answer OpStatus) (c : Consumer) : Consumer :=
  let c := match attachError answer with
           | None => c <| heals ::= Z.succ |>
           | Some e => if negb (ce_retryable e) && negb (ce_agentOffline e) then resolve (Err e) c else c
           end in
  c <| attachInFlight := false |>.

Definition applyFrame (frame : Frame) (c : Consumer) : Consumer :=
  let c := c <| lastApplied := f_seq frame |> in
  match f_body frame with
  | None => c
  | Some (Data channel content) =>
      let c := match channel with
               | CH_STDOUT => c <| stdout ::= fun l => l ++ [content] |>
               | CH_STDERR => c <| stderr ::= fun l => l ++ [content] |>
               | _ => c
               end in
      c <| receivedPayloadBytes ::= Z.add (Z.of_nat (length content)) |>
  | Some Progress => sendAck c
  | Some (Exit x) => c <| exit := Some x |> <| exitSeq := Some (f_seq frame) |>
  end.

(** Every round removes a frame from the stash. *)
Fixpoint drainStash (fuel : nat) (c : Consumer) : Consumer :=
  match fuel with
  | O => c
  | S fuel =>
      match stash c !! (lastApplied c + 1) with
      | None => c
      | Some next => drainStash fuel (applyFrame next (c <| stash ::= delete (lastApplied c + 1) |>))
      end
  end.

Definition maybeSettle (c : Consumer) : Consumer :=
  match exitSeq c with Some n => if n <=? lastApplied c then resolve (Ok tt) c else c | None => c end.
Definition maybeGrantCredit (c : Consumer) : Consumer :=
  if windowBytes config / 2 <=? receivedPayloadBytes c - creditAtLastAck c then sendAck c else c.

(** [None] is a payload that does not decode. *)
Definition onFramePayload (now : Z) (payload : option Frame) (c : Consumer) : Consumer :=
  match payload with
  | None => c
  | Some frame =>
      if negb (bool_decide (f_opId frame = opId config)) then c
      else
        let c := c <| lastFrameAt := now |> <| silenceSince := None |> in
        if f_seq frame <=? lastApplied c then c
        else if negb (f_seq frame =? lastApplied c + 1) then
          requestAttachHeal
            (if Nat.ltb (size (stash c)) OP_STREAM_MAX_STASHED_FRAMES then c <| stash ::= insert (f_seq frame) frame |> else c)
        else
          let c := applyFrame frame c in
          maybeGrantCredit (maybeSettle (drainStash (size (stash c)) c))
  end.

(** ** Liveness *)

Definition timeoutError : ControlError := agentErrorToControlError (timeoutAgentError (js "the agent did not respond in time")).

(** A tick; a probe suspends the ticks until its answer. *)
Definition tick (now : Z) (c : Consumer) : Consumer :=
  if probing c then c
  else if wallMs config <=? now - startedAt config then resolve (Err timeoutError) c
  else if silenceTimeoutMs config <=? now - lastFrameAt c
  then c <| silenceSince := Some (default now (silenceSince c)) |> <| probing := true |>
  else c.

Definition transient (e : ControlError) : bool :=
  ce_agentOffline e || bool_decide (ce_reason e = Some agent_reconnecting) || ce_draining e.
Definition probed (now : Z) (answer : Answer OpStatus) (c : Consumer) : Consumer :=
  let c' := match answer with
            | Answered status =>
                if bool_decide (os_state status = OS_LOST) then resolve (Err (lostToControlError status)) c
                else if lastApplied c + 1 <? os_nextSeq status then requestAttachHeal c else c
            | OtherResult => resolve (Err (protocolError (js "op-stream query: unexpected result"))) c
            | Failed e =>
                if negb (transient e) || (reconnectHoldMs config <=? now - default now (silenceSince c)) then resolve (Err e) c else c
            end in
  c' <| probing := false |>.

(** ** The machine *)

Inductive Event :=
| EFrame (now : Z) (payload : option Frame)
| EAttach (answer : Answer OpStatus)
| EAckTick
| ETick (now : Z)
| EProbe (now : Z) (answer : Answer OpStatus).

(** Nothing happens to a settled op: it is torn down. *)
Definition step (c : Consumer) (ev : Event) : Consumer :=
  match outcome c with
  | Some _ => c
  | None =>
      match ev with
      | EFrame now payload => onFramePayload now payload c
      | EAttach answer => if attachInFlight c then onAttach answer c else c
      | EAckTick => sendAck c
      | ETick now => tick now c
      | EProbe now answer => if probing c then probed now answer c else c
      end
  end.
Definition live (evs : list Event) (c : Consumer) : Consumer := foldl step c evs.
End consumer.

(** ** Starting the op *)

Record OpStarted := { st_accepted : bool; st_status : option OpStatus }.

Definition lost (status : option OpStatus) : option OpStatus :=
  match status with Some s => if bool_decide (os_state s = OS_LOST) then Some s else None | None => None end.

(** The error an attempt ends with, or [None] when the op is accepted. *)
Definition startError (answer : Answer OpStarted) : option ControlError :=
  match answer with
  | Failed e => Some e
  | OtherResult => Some (protocolError (js "op-stream start: unexpected result"))
  | Answered s =>
      match lost (st_status s) with
      | Some status => Some (lostToControlError status)
      | None => if st_accepted s then None
                else Some (protocolError (js "op-stream start: the runner refused the op without a typed reason"))
      end
  end.

Inductive StartOutcome := Started (retries : Z) | StartUnavailable | StartFailed (e : ControlError).

Definition refusesStart (e : ControlError) : bool := bool_decide (ce_code e = E_PROTOCOL) || bool_decide (ce_code e = E_UNSUPPORTED).
Definition isBlip (e : ControlError) : bool := bool_decide (ce_reason e = Some agent_reconnecting) || ce_neverSent e.

(** Attempt [i]; with the outcome, the number of attempts. *)
Fixpoint startLoop (answers : nat -> Answer OpStarted) (fuel i : nat) (drainingRetries blipRetries : Z) : option (StartOutcome * nat) :=
  match fuel with
  | O => None
  | S fuel =>
      match startError (answers i) with
      | None => Some (Started (drainingRetries + blipRetries), S i)
      | Some e =>
          if refusesStart e then Some (StartUnavailable, S i)
          else if ce_draining e && (drainingRetries <? OP_START_DRAINING_MAX_RETRIES)
          then startLoop answers fuel (S i) (drainingRetries + 1) blipRetries
          else if isBlip e && (blipRetries <? OP_START_BLIP_MAX_RETRIES)
          then startLoop answers fuel (S i) drainingRetries (blipRetries + 1)
          else Some (StartFailed e, S i)
      end
  end.
Definition maxStarts : nat := Z.to_nat (1 + OP_START_DRAINING_MAX_RETRIES + OP_START_BLIP_MAX_RETRIES).
Definition startOp (answers : nat -> Answer OpStarted) : option (StartOutcome * nat) := startLoop answers maxStarts 0 0 0.

(** ** The settled op *)

Record ExecResponse := { er_exitCode : Z; er_stdout : bytes; er_stderr : bytes; er_timedOut : bool; er_durationMs : Z }.
Record OpStreamExecOutcome := { oc_response : ExecResponse; oc_heals : Z; oc_startRetries : Z; oc_replyBytes : Z }.

Section verify.
(** The digest of the wire, in hexadecimal. *)
Context (blake3 : bytes -> jstr).

(** One channel: the totals, then the digest when there is one. *)
Definition verifyChannel (name : string) (content : bytes) (exit : OpExit) : option ControlError :=
  let size := Z.of_nat (length content) in
  let declaredDigest := default [] (assoc (js name) (x_digests exit)) in
  match assoc (js name) (x_totals exit) with
  | Some total =>
      if negb (total =? size)
      then Some (protocolError (js "op-stream reassembly: " ++ js name ++ js " total mismatch (got " ++ showNum size
                                ++ js ", runner declared " ++ showNum total ++ js ")"))
      else if match declaredDigest with [] => false | _ => negb (bool_decide (blake3 content = declaredDigest)) end
      then Some (protocolError (js "op-stream reassembly: " ++ js name ++ js " digest mismatch (got " ++ blake3 content
                                ++ js ", runner declared " ++ declaredDigest ++ js ")"))
      else None
  | None =>
      if match declaredDigest with [] => false | _ => negb (bool_decide (blake3 content = declaredDigest)) end
      then Some (protocolError (js "op-stream reassembly: " ++ js name ++ js " digest mismatch (got " ++ blake3 content
                                ++ js ", runner declared " ++ declaredDigest ++ js ")"))
      else None
  end.
Definition verifyByteExact (x : OpExit) (c : Consumer) : option ControlError :=
  match verifyChannel "stdout" (concat (stdout c)) x with
  | Some e => Some e
  | None => verifyChannel "stderr" (concat (stderr c)) x
  end.

Definition finish (startRetries : Z) (x : OpExit) (c : Consumer) : result ControlError OpStreamExecOutcome :=
  match verifyByteExact x c with
  | Some e => Err e
  | None =>
      match x_failureCode x with
      | _ :: _ => Err (runnerFailureToControlError x)
      | [] => Ok {| oc_response := {| er_exitCode := x_exitCode x; er_stdout := concat (stdout c); er_stderr := concat (stderr c);
                                      er_timedOut := x_timedOut x; er_durationMs := x_durationMs x |};
                    oc_heals := heals c; oc_startRetries := startRetries;
                    oc_replyBytes := Z.of_nat (length (concat (stdout c))) + Z.of_nat (length (concat (stderr c))) |}
      end
  end.

(** ** A run *)

(** What the op meets: the subscription, the answers of the starts, what arrives
    before the first attach, its answer, and what happens afterwards. *)
Record OpWorld := {
  w_subscribed : bool;
  w_starts : nat -> Answer OpStarted;
  w_early : list Event;
  w_attach : Answer OpStatus;
  w_events : list Event
}.
Inductive RunResult := Unavailable | RunFailed (e : ControlError) | Running (c : Consumer) | Completed (outcome : OpStreamExecOutcome) (exitSeq : Z).

(** The timers start after the first attach. *)
Definition beforeTimers (ev : Event) : bool := match ev with EFrame _ _ | EAttach _ => true | _ => false end.

Definition run (config : OpConfig) (w : OpWorld) : option RunResult :=
  if negb (w_subscribed w) then Some Unavailable
  else
    match startOp (w_starts w) with
    | None => None
    | Some (StartUnavailable, _) => Some Unavailable
    | Some (StartFailed e, _) => Some (RunFailed e)
    | Some (Started startRetries, _) =>
        let c := live config (List.filter beforeTimers (w_early w)) (newConsumer (startedAt config)) in
        let c := c <| sent ::= fun l => l ++ [AttachSent (lastApplied c) (windowBytes config)] |> in
        match attachError (w_attach w) with
        | Some e => Some (RunFailed e)
        | None =>
            let c := live config (w_events w) c in
            match outcome c with
            | None => Some (Running c)
            | Some (Err e) => Some (RunFailed e)
            | Some (Ok tt) =>
                match exit c, exitSeq c with
                | Some x, Some n => match finish startRetries x c with
                                    | Ok o => Some (Completed o n)
                                    | Err e => Some (RunFailed e)
                                    end
                | _, _ => None
                end
            end
        end
    end.
End verify.

(** ** The client *)

Record SettledOp := { so_opId : jstr; so_exitSeq : Z; so_generation : jstr }.
Record Client := { inFlight : list jstr; settledOps : list SettledOp }.

(** [exec] before and after the run of its consumer. *)
Definition beginExec (id : jstr) (client : Client) : result ControlError Client :=
  if bool_decide (id ∈ inFlight client)
  then Err (protocolError (js "op-stream exec: duplicate concurrent op id " ++ id))
  else Ok {| inFlight := id :: inFlight client; settledOps := settledOps client |}.
Definition endExec (id generation : jstr) (r : RunResult) (client : Client) : Client := {|
  inFlight := List.filter (fun i => negb (bool_decide (i = id))) (inFlight client);
  settledOps := match r with
                | Completed _ n => settledOps client ++ [{| so_opId := id; so_exitSeq := n; so_generation := generation |}]
                | _ => settledOps client
                end |}.

(** [finalizeSettledOps]: what it does, in order, until the list is empty or
    [persistSettled] throws.  A failed publish changes nothing. *)
Inductive FinalStep := Persisted (op : SettledOp) | FinalAck (op : SettledOp).
Fixpoint finalizeSettledOps (persists : SettledOp -> bool) (ops : list SettledOp) : list FinalStep * list SettledOp :=
  match ops with
  | [] => ([], [])
  | op :: ops =>
      if persists op
      then let (steps, rest) := finalizeSettledOps persists ops in (Persisted op :: FinalAck op :: steps, rest)
      else ([], ops)
  end.

(** ** [SelfhostedSession.exec] *)

Definition SELFHOSTED_EXEC_REPLY_GRACE_MS : Z := 5000.
Definition SELFHOSTED_MAX_EXEC_TIMEOUT_MS : Z := 2147483647 - SELFHOSTED_EXEC_REPLY_GRACE_MS.
Definition execDeadlineMs (execTimeoutMs : option Z) (timeoutMs : Z) : Z :=
  Z.max 1 (Z.min (default timeoutMs execTimeoutMs) SELFHOSTED_MAX_EXEC_TIMEOUT_MS).
Definition execDeadlineHint (seconds : Z) : jstr :=
  js "The command was terminated at the " ++ showNum seconds ++ js "-second execution limit. "
  ++ js "Run long jobs in the background (for example `nohup <command> > /tmp/job.log 2>&1 &`, or start them in a terminal session) "
  ++ js "and poll the output file instead of blocking on a single command.".

Record SelfhostedExecResult := { se_output : jstr; se_stdout : jstr; se_stderr : jstr; se_exitCode : Z; se_timedOut : bool }.
Inductive LegacyResult := LegacyExec (response : ExecResponse) | LegacyOther.
Inductive SessionError := Control (e : ControlError) | UnexpectedResult.

Section exec.
Context (decode : bytes -> jstr).

Definition execResultToChannelA (res : ExecResponse) (deadlineMs : Z) : SelfhostedExecResult :=
  let out := decode (er_stdout res) in
  let err := decode (er_stderr res) in
  let hint := execDeadlineHint ((deadlineMs + 500) / 1000) in
  {| se_output := out; se_stdout := out;
     se_stderr := if er_timedOut res then match err with [] => hint | _ => err ++ [10] ++ hint end else err;
     se_exitCode := er_exitCode res; se_timedOut := er_timedOut res |}.

Definition execLegacy (deadlineMs : Z) (answered : CallResult (R := LegacyResult)) : result SessionError SelfhostedExecResult :=
  match cl_answer answered with
  | Ok (LegacyExec response) => Ok (execResultToChannelA response deadlineMs)
  | Ok LegacyOther => Err UnexpectedResult
  | Err e => Err (Control e)
  end.

(** [None] while the op runs.  The legacy exec is issued exactly when the
    streamed one is unavailable. *)
Definition exec (deadlineMs : Z) (streamed : option RunResult) (reply : nat -> ControlResponse LegacyResult) (jitter : nat -> Q)
  : option (result SessionError SelfhostedExecResult) :=
  match streamed with
  | None | Some Unavailable =>
      match call "exec" reply jitter with
      | Some answered => Some (execLegacy deadlineMs answered)
      | None => None
      end
  | Some (Running _) => None
  | Some (RunFailed e) => Some (Err (Control e))
  | Some (Completed o _) => Some (Ok (execResultToChannelA (oc_response o) deadlineMs))
  end.
End exec.

(** ** An honest runner

    The runner's frames are numbered from 1; the last one is the exit.  Frames
    reach the consumer in any order, any number of times or never. *)

Definition outChunk (b : Body) : option bytes := match b with Data CH_STDOUT content => Some content | _ => None end.
Definition errChunk (b : Body) : option bytes := match b with Data CH_STDERR content => Some content | _ => None end.
Definition payloadOf (b : Body) : Z := match b with Data _ content => Z.of_nat (length content) | _ => 0 end.
Definition payloads (l : list Body) : Z := sum (List.map payloadOf l).

Section honest.
Context (config : OpConfig) (pre : list Body) (x : OpExit).
Context (Hpre : Forall (fun b => forall y, b <> Exit y) pre).

Definition bodies : list Body := pre ++ [Exit x].
Definition last_seq : Z := Z.of_nat (length bodies).
Definition body_at (seq : Z) : option Body := bodies !! Z.to_nat (seq - 1).
Definition applied (c : Consumer) : list Body := take (Z.to_nat (lastApplied c)) bodies.

Definition honestFrame (f : Frame) : Prop := 1 <= f_seq f /\ exists b, body_at (f_seq f) = Some b /\ f_body f = Some b.
Definition honestEvent (ev : Event) : Prop :=
  match ev with EFrame _ (Some f) => f_opId f = opId config -> honestFrame f | _ => True end.

Definition sentOk (frontier : Z) (s : Sent) : Prop :=
  match s with AckSent ackedSeq _ final => ackedSeq = 0 /\ final = false | AttachSent fromSeq _ => 0 <= fromSeq <= frontier end.

(** The credit the runner was last granted: the start's window, or an ack's. *)
Definition grantedCredit (l : list Sent) : Z :=
  foldl (fun credit s => match s with AckSent _ granted _ => granted | AttachSent _ _ => credit end) (windowBytes config) l.

Record inv (c : Consumer) : Prop := {
  i_range : 0 <= lastApplied c <= last_seq;
  i_stdout : stdout c = omap outChunk (applied c);
  i_stderr : stderr c = omap errChunk (applied c);
  i_received : receivedPayloadBytes c = payloads (applied c);
  i_exit : exit c = (if lastApplied c =? last_seq then Some x else None) /\
           exitSeq c = (if lastApplied c =? last_seq then Some last_seq else None);
  i_stash : forall k f, stash c !! k = Some f -> f_seq f = k /\ honestFrame f /\ lastApplied c < k;
  i_sent : Forall (sentOk (lastApplied c)) (sent c);
  i_credit : grantedCredit (sent c) = creditAtLastAck c + windowBytes config;
  i_settled : outcome c = Some (Ok tt) -> lastApplied c = last_seq
}.

Lemma last_seq_pos : 1 <= last_seq.
Proof. unfold last_seq, bodies. rewrite length_app. cbn [length]. lia. Qed.

Lemma body_at_bound seq b : 1 <= seq -> body_at seq = Some b -> seq <= last_seq.
Proof. intros H Hb%lookup_lt_Some. unfold last_seq. lia. Qed.

Lemma exit_last seq b : 1 <= seq -> body_at seq = Some b ->
  match b with Exit y => seq = last_seq /\ y = x | _ => seq < last_seq end.
Proof.
  intros H Hb. unfold body_at, bodies in Hb. unfold last_seq, bodies. rewrite length_app; cbn [length].
  apply lookup_app_Some in Hb as [Hb|[Hlen Hb]].
  - pose proof (lookup_lt_Some _ _ _ Hb). rewrite Forall_lookup in Hpre. specialize (Hpre _ _ Hb).
    destruct b as [| |y]; [lia|lia|]. exfalso. by apply (Hpre y).
  - destruct (Z.to_nat (seq - 1) - length pre)%nat as [|k] eqn:E; [|done]. injection Hb as <-. split; [lia|done].
Qed.

Lemma applied_next c b : 0 <= lastApplied c -> body_at (lastApplied c + 1) = Some b ->
  take (Z.to_nat (lastApplied c + 1)) bodies = applied c ++ [b].
Proof.
  intros H Hb. unfold body_at in Hb. replace (lastApplied c + 1 - 1) with (lastApplied c) in Hb by lia.
  unfold applied. replace (Z.to_nat (lastApplied c + 1)) with (S (Z.to_nat (lastApplied c))) by lia. by apply take_S_r.
Qed.

Lemma payloads_snoc l b : payloads (l ++ [b]) = payloads l + payloadOf b.
Proof. unfold payloads. rewrite map_app, sum_app. unfold sum. cbn. lia. Qed.

Lemma sentOk_mono n m s : n <= m -> sentOk n s -> sentOk m s.
Proof. destruct s; cbn; [done|lia]. Qed.

(** ** The invariant is kept *)

Lemma granted_snoc l s : grantedCredit (l ++ [s]) = match s with AckSent _ granted _ => granted | AttachSent _ _ => grantedCredit l end.
Proof. unfold grantedCredit. by rewrite foldl_app. Qed.

Lemma inv_new now : inv (newConsumer now).
Proof.
  pose proof last_seq_pos. constructor; cbn -[Z.eqb]; try done; [lia|].
  destruct (Z.eqb_spec 0 last_seq); [lia|done].
Qed.

Lemma inv_resolve r c : inv c -> (r = Ok tt -> lastApplied c = last_seq) -> inv (resolve r c).
Proof. intros H Hr. unfold resolve. destruct (outcome c) eqn:E; [done|]. destruct H. constructor; cbn; try done. intros [= ->]. by apply Hr. Qed.

Lemma inv_sendAck c : inv c -> inv (sendAck config c).
Proof.
  intros H. unfold sendAck. destruct (torn c); [done|]. destruct H. constructor; cbn; try done.
  - apply Forall_app_2; [done|]. by repeat constructor.
  - by rewrite granted_snoc.
Qed.

Lemma inv_requestAttachHeal c : inv c -> inv (requestAttachHeal c).
Proof.
  intros H. unfold requestAttachHeal. destruct (attachInFlight c || torn c); [done|]. destruct H. constructor; cbn; try done.
  - apply Forall_app_2; [done|]. repeat constructor; cbn; lia.
  - by rewrite granted_snoc.
Qed.

(** The fields the bookkeeping changes are outside the invariant. *)
Lemma inv_onAttach answer c : inv c -> inv (onAttach answer c).
Proof.
  intros H. unfold onAttach. destruct (attachError answer) as [e|]; [|destruct H; by constructor].
  destruct (negb (ce_retryable e) && negb (ce_agentOffline e)); [|destruct H; by constructor].
  assert (H' : inv (resolve (Err e) c)) by (by apply inv_resolve). destruct H'; by constructor.
Qed.

Lemma inv_tick now c : inv c -> inv (tick config now c).
Proof.
  intros H. unfold tick. destruct (probing c); [done|]. destruct (_ <=? _); [by apply inv_resolve|].
  destruct (_ <=? _); [|done]. destruct H; by constructor.
Qed.

Lemma inv_probed now answer c : inv c -> inv (probed config now answer c).
Proof.
  intros H. unfold probed.
  match goal with |- inv (?c' <| probing := false |>) => assert (H' : inv c') end.
  { destruct answer as [status| |e]; repeat case_match; try done; by first [apply inv_resolve|apply inv_requestAttachHeal]. }
  destruct H'; by constructor.
Qed.

Lemma inv_applyFrame f c : inv c -> honestFrame f -> f_seq f = lastApplied c + 1 -> stash c !! f_seq f = None ->
  inv (applyFrame config f c) /\ lastApplied (applyFrame config f c) = f_seq f /\ stash (applyFrame config f c) = stash c
  /\ outcome (applyFrame config f c) = outcome c.
Proof.
  intros [Hr Ho He Hp Hx Hs Hsent Hcred Hset] [Hf (b & Hb & Hbody)] Hseq Hnone.
  pose proof (body_at_bound _ _ Hf Hb). pose proof (exit_last _ _ Hf Hb) as Hlast.
  assert (Htake := applied_next c b ltac:(lia) ltac:(by rewrite <- Hseq)). rewrite <- Hseq in Htake.
  assert (Hset' : outcome c <> Some (Ok tt)) by (intros Hc%Hset; lia).
  assert (Hstash : forall k g, stash c !! k = Some g -> f_seq g = k /\ honestFrame g /\ f_seq f < k).
  { intros k g Hk. destruct (Hs k g Hk) as (Hk1 & Hk2 & Hk3). split; [done|]. split; [done|].
    destruct (Z.eq_dec k (f_seq f)) as [->|]; [by rewrite Hnone in Hk|lia]. }
  assert (Hsent' : Forall (sentOk (f_seq f)) (sent c)) by (eapply Forall_impl; [exact Hsent|intros s; apply sentOk_mono; lia]).
  unfold applyFrame. rewrite Hbody.
  destruct b as [channel content| |y]; cbn in Hlast.
  - split; [|by destruct channel].
    assert (Hne : (f_seq f =? last_seq) = false) by (apply Z.eqb_neq; lia).
    assert (Hne' : (lastApplied c =? last_seq) = false) by (apply Z.eqb_neq; lia).
    rewrite Hne' in Hx.
    constructor; unfold applied; try (destruct channel; done); try (destruct channel; cbn; rewrite Htake).
    all: try (destruct channel; cbn; lia).
    all: try (rewrite omap_app, ?Ho, ?He; cbn; by rewrite ?app_nil_r).
    all: try (rewrite payloads_snoc, Hp; cbn; lia).
    + destruct channel; cbn; by rewrite Hne.
  - unfold sendAck. cbn [torn setWith].
    assert (Hne : (f_seq f =? last_seq) = false) by (apply Z.eqb_neq; lia).
    assert (Hne' : (lastApplied c =? last_seq) = false) by (apply Z.eqb_neq; lia). rewrite Hne' in Hx.
    destruct (torn c) eqn:Et; (split; [|done]);
      constructor; unfold applied; cbn; rewrite ?Htake, ?Hne, ?omap_app, ?payloads_snoc, ?Ho, ?He, ?Hp; cbn; rewrite ?app_nil_r; try done; try lia.
    + apply Forall_app_2; [done|]. by repeat constructor.
    + by rewrite granted_snoc.
  - destruct Hlast as [Hl ->]. cbn. split; [|done].
    constructor; unfold applied; cbn; rewrite ?Htake, ?omap_app, ?payloads_snoc, ?Ho, ?He, ?Hp; cbn; rewrite ?app_nil_r; try done; try lia.
    rewrite Hl, Z.eqb_refl. done.
Qed.

Lemma applyFrame_kept f c :
  torn (applyFrame config f c) = torn c /\ attachInFlight (applyFrame config f c) = attachInFlight c.
Proof.
  unfold applyFrame. destruct (f_body f) as [[[] | |]|]; try done. unfold sendAck. cbn [torn setWith].
  by match goal with |- context [if ?b then _ else _] => destruct b end.
Qed.

Lemma stash_drained fuel c : inv c -> (size (stash c) <= fuel)%nat ->
  let c' := drainStash config fuel c in
  inv c' /\ stash c' !! (lastApplied c' + 1) = None /\ lastApplied c <= lastApplied c' /\ outcome c' = outcome c /\
  torn c' = torn c /\ attachInFlight c' = attachInFlight c.
Proof.
  revert c. induction fuel as [|fuel IH]; intros c Hc Hsize; cbn [drainStash].
  - assert (stash c = ∅) as He by (apply map_size_empty_iff; lia). rewrite He, lookup_empty. split_and!; done || lia.
  - destruct (stash c !! (lastApplied c + 1)) as [next|] eqn:E; [|split_and!; done || lia].
    destruct (i_stash _ Hc _ _ E) as (Hseq & Hhon & _).
    set (d := c <| stash ::= delete (lastApplied c + 1) |>).
    assert (Hd : inv d).
    { destruct Hc as [? ? ? ? ? Hs ? ? ?]. constructor; try done. cbn. intros k f Hk. apply lookup_delete_Some in Hk as [_ Hk]. by apply Hs. }
    destruct (inv_applyFrame next d Hd Hhon Hseq) as (Hi & Hl & Hst & Ho). { rewrite Hseq. apply lookup_delete_eq. }
    destruct (applyFrame_kept next d) as [Ht Ha].
    destruct (IH (applyFrame config next d) Hi) as (H1 & H2 & H3 & H4 & H5 & H6).
    { rewrite Hst. cbn. rewrite map_size_delete, E. lia. }
    split; [done|]. split; [done|]. split; [lia|]. rewrite H4, H5, H6, Ho, Ht, Ha. done.
Qed.

(** What holds between two events. *)
Record stable (c : Consumer) : Prop := {
  s_inv : inv c;
  s_next : stash c !! (lastApplied c + 1) = None;
  s_torn : torn c = false;
  s_open : outcome c = None -> lastApplied c < last_seq;
  s_credit : 2 <= windowBytes config -> receivedPayloadBytes c - creditAtLastAck c < windowBytes config / 2
}.

Lemma stable_new now : stable (newConsumer now).
Proof. pose proof last_seq_pos. constructor; [apply inv_new|done|done|cbn; lia|]. intros H2. cbn. apply Z.div_str_pos. lia. Qed.

Lemma sendAck_torn c : torn c = false -> torn (sendAck config c) = false.
Proof. intros H. unfold sendAck. by rewrite H. Qed.

Lemma credit_acked c : torn c = false -> 2 <= windowBytes config ->
  receivedPayloadBytes (sendAck config c) - creditAtLastAck (sendAck config c) < windowBytes config / 2.
Proof. intros H H2. unfold sendAck. rewrite H. cbn. rewrite Z.sub_diag. apply Z.div_str_pos. lia. Qed.

(** The end of [onFramePayload], after the stash is drained. *)
Lemma finish_frame c : inv c -> stash c !! (lastApplied c + 1) = None -> torn c = false ->
  let c' := maybeGrantCredit config (maybeSettle c) in
  stable c' /\ lastApplied c' = lastApplied c /\
  (outcome c = None -> outcome c' = if lastApplied c =? last_seq then Some (Ok tt) else None).
Proof.
  intros Hc Hn Ht. unfold maybeSettle. destruct (i_exit _ Hc) as [_ Hx]. pose proof (i_range _ Hc).
  set (d := match exitSeq c with Some n => if n <=? lastApplied c then resolve (Ok tt) c else c | None => c end).
  assert (Hd : inv d /\ stash d = stash c /\ lastApplied d = lastApplied c /\ torn d = false /\
    (outcome d = None -> lastApplied c < last_seq) /\
    (outcome c = None -> outcome d = if lastApplied c =? last_seq then Some (Ok tt) else None)).
  { subst d. rewrite Hx. destruct (Z.eqb_spec (lastApplied c) last_seq) as [He|]; [|split_and!; try done; lia].
    rewrite (proj2 (Z.leb_le _ _)) by lia. split; [by apply inv_resolve|].
    unfold resolve. destruct (outcome c) eqn:E; split_and!; cbn; try done; by rewrite E. }
  clearbody d. destruct Hd as (Hd & Hs & Hl & Htd & Ho & Ho'). unfold maybeGrantCredit.
  destruct (Z.leb_spec (windowBytes config / 2) (receivedPayloadBytes d - creditAtLastAck d)) as [_|Hw].
  - pose proof (credit_acked d Htd) as Hcredit. pose proof (inv_sendAck d Hd) as Hi. revert Hi Hcredit.
    unfold sendAck. rewrite Htd. intros Hi Hcredit. split; [|by split].
    constructor; cbn; [done|by rewrite Hs, Hl|done|rewrite Hl; exact Ho|exact Hcredit].
  - split; [|by split]. constructor; [done|by rewrite Hs, Hl|done|rewrite Hl; exact Ho|done].
Qed.

(** A frame: the frontier does not move back, passes the frame when it was the
    next one, and the op settles exactly when the frontier reaches the exit. *)
Lemma frame_step now f c : stable c -> outcome c = None -> f_opId f = opId config -> honestFrame f ->
  let c' := onFramePayload config now (Some f) c in
  stable c' /\ lastApplied c <= lastApplied c' /\ (f_seq f <= lastApplied c + 1 -> f_seq f <= lastApplied c') /\
  (outcome c' = None \/ outcome c' = Some (Ok tt)) /\ (lastApplied c + 1 < f_seq f -> attachInFlight c' = true).
Proof.
  intros [Hc Hn Ht Ho Hw] Hopen Hid Hf. unfold onFramePayload. rewrite bool_decide_eq_true_2 by done. cbn [negb].
  set (d := c <| lastFrameAt := now |> <| silenceSince := None |>).
  assert (Hd : inv d) by (destruct Hc; by constructor).
  assert (Hsd : stable d) by (by constructor).
  change (lastApplied d) with (lastApplied c). change (stash d) with (stash c).
  destruct (Z.leb_spec (f_seq f) (lastApplied c)) as [Hdup|Hnew].
  { split; [done|]. split; [done|]. split; [done|]. split; [by left|lia]. }
  destruct (Z.eqb_spec (f_seq f) (lastApplied c + 1)) as [Hnext|Hgap]; cbn [negb].
  - destruct (inv_applyFrame f d Hd Hf Hnext) as (Hi & Hl & Hst & Hoa). { rewrite Hnext. exact Hn. }
    destruct (applyFrame_kept f d) as [Hta _]. set (a := applyFrame config f d) in *.
    destruct (stash_drained (size (stash a)) a Hi ltac:(done)) as (H1 & H2 & H3 & H4 & H5 & _).
    set (e := drainStash config (size (stash a)) a) in *.
    destruct (finish_frame e H1 H2) as (H6 & H7 & H8); [rewrite H5, Hta; exact Ht|]. rewrite H7.
    split; [done|]. split; [lia|]. split; [lia|]. split; [|lia]. rewrite H8 by (rewrite H4, Hoa; exact Hopen).
    destruct (_ =? _); auto.
  - set (g := if Nat.ltb (size (stash c)) OP_STREAM_MAX_STASHED_FRAMES then d <| stash ::= insert (f_seq f) f |> else d).
    assert (Hg : stable g /\ lastApplied g = lastApplied c /\ outcome g = outcome c).
    { subst g. destruct (Nat.ltb _ _); [|by split_and!]. split; [|done]. constructor; try done.
      - destruct Hd as [? ? ? ? ? Hs ? ? ?]. constructor; try done. cbn. intros k h Hk.
        apply lookup_insert_Some in Hk as [[<- <-]|[_ Hk]]; [split_and!; done || (cbn; lia)|by apply Hs].
      - cbn. rewrite lookup_insert_ne by done. exact Hn. }
    clearbody g. destruct Hg as ([Hgi Hgn Hgt Hgo Hgw] & Hgl & Hgoc). unfold requestAttachHeal.
    pose proof (inv_requestAttachHeal g Hgi) as Hr. unfold requestAttachHeal in Hr. rewrite Hgt, orb_false_r in *.
    destruct (attachInFlight g) eqn:Ea.
    + split; [by constructor|]. split; [lia|]. split; [lia|]. split; [|done]. left. congruence.
    + split; [by constructor|]. cbn. split; [lia|]. split; [lia|]. split; [|done]. left. congruence.
Qed.

Lemma stable_resolve r c : stable c -> r <> Ok tt -> stable (resolve r c).
Proof.
  intros [Hc Hn Ht Ho Hw] Hr. pose proof (inv_resolve r c Hc ltac:(done)) as Hi. revert Hi. unfold resolve.
  destruct (outcome c) eqn:E; intros Hi; constructor; try done. by rewrite E.
Qed.

Lemma stable_step ev c : stable c -> honestEvent ev -> stable (step config c ev).
Proof.
  intros Hs Hev. unfold step. destruct (outcome c) eqn:Eo; [done|].
  destruct ev as [now payload|answer| |now|now answer].
  - destruct payload as [f|]; [|done]. destruct (decide (f_opId f = opId config)) as [Hid|Hid].
    + by apply frame_step, Hev.
    + unfold onFramePayload. by rewrite bool_decide_eq_false_2.
  - destruct (attachInFlight c); [|done]. unfold onAttach. destruct (attachError answer) as [e|].
    + assert (H : stable (if negb (ce_retryable e) && negb (ce_agentOffline e) then resolve (Err e) c else c))
        by (destruct (_ && _); [by apply stable_resolve|done]).
      destruct H as [H1 H2 H3 H4 H5]. constructor; try done. destruct H1; by constructor.
    + destruct Hs as [H1 H2 H3 H4 H5]. constructor; try done. destruct H1; by constructor.
  - destruct Hs as [H1 H2 H3 H4 H5]. pose proof (inv_sendAck c H1) as Hi. pose proof (credit_acked c H3) as Hcr.
    revert Hi Hcr. unfold sendAck. rewrite H3. intros Hi Hcr. by constructor.
  - pose proof (inv_tick now c (s_inv _ Hs)) as Hi. revert Hi. unfold tick. destruct (probing c); [done|].
    destruct (_ <=? _); [intros _; by apply stable_resolve|]. destruct (_ <=? _); [|done].
    intros Hi. destruct Hs. by constructor.
  - destruct (probing c); [|done]. unfold probed.
    match goal with |- stable (?c' <| probing := false |>) => assert (H : stable c') end.
    { assert (Hh : stable (requestAttachHeal c)).
      { pose proof (inv_requestAttachHeal c (s_inv _ Hs)) as Hi. revert Hi. unfold requestAttachHeal.
        destruct (_ || _); [done|]. intros Hi. destruct Hs. by constructor. }
      destruct answer; repeat case_match; try done; by apply stable_resolve. }
    destruct H as [H1 H2 H3 H4 H5]. constructor; try done. destruct H1; by constructor.
Qed.

Lemma stable_live evs c : stable c -> Forall honestEvent evs -> stable (live config evs c).
Proof. intros Hc H. revert c Hc. unfold live. induction H as [|ev evs Hev _ IH]; intros c Hc; [done|]. by apply IH, stable_step. Qed.

(** The consumer never goes back. *)
Lemma live_settled evs c : outcome c <> None -> live config evs c = c.
Proof.
  intros H. unfold live. induction evs as [|ev evs IH]; [done|]. cbn [foldl].
  replace (step config c ev) with c; [done|]. unfold step. by destruct (outcome c).
Qed.

(** ** Replay *)

(** After a settled event nothing is replayed; a replay from [n] brings, in
    order, the frames after [n], among any other frames and acks. *)
Inductive replays : Z -> list Event -> Prop :=
| replays_done : replays last_seq []
| replays_next n now f evs : f_opId f = opId config -> f_seq f = n + 1 -> replays (n + 1) evs -> replays n (EFrame now (Some f) :: evs)
| replays_other n ev evs : (match ev with EFrame _ _ | EAckTick => True | _ => False end) -> replays n evs -> replays n (ev :: evs).

Lemma replay_step n evs c : replays n evs -> Forall honestEvent evs -> stable c -> (outcome c = None \/ outcome c = Some (Ok tt)) ->
  n <= lastApplied c -> outcome (live config evs c) = Some (Ok tt).
Proof.
  intros Hr. revert c. induction Hr as [|n now f evs Hid Hseq Hr IH|n ev evs Hq Hr IH]; intros c Hev Hs Ho Hn.
  - destruct Ho as [Ho|Ho]; [|done]. pose proof (s_open _ Hs Ho). lia.
  - apply Forall_cons in Hev as [Hf Hev]. destruct Ho as [Ho|Ho]; [|rewrite live_settled; congruence].
    cbn [live foldl]. change (foldl (step config) (step config c (EFrame now (Some f))) evs) with (live config evs (step config c (EFrame now (Some f)))).
    assert (Hst : step config c (EFrame now (Some f)) = onFramePayload config now (Some f) c) by (unfold step; by rewrite Ho).
    destruct (frame_step now f c Hs Ho Hid (Hf Hid)) as (H1 & H2 & H3 & H4 & _). rewrite Hst. apply IH; try done. lia.
  - apply Forall_cons in Hev as [Hf Hev]. destruct Ho as [Ho|Ho]; [|rewrite live_settled; congruence].
    change (live config (ev :: evs) c) with (live config evs (step config c ev)).
    assert (Hst : stable (step config c ev)) by (by apply stable_step).
    destruct ev as [now [f|]| | | |]; try done; apply IH; try done; revert Hst; unfold step; rewrite Ho; try (intros; by auto).
    + destruct (decide (f_opId f = opId config)) as [Hid|Hid].
      * intros _. by destruct (frame_step now f c Hs Ho Hid (Hf Hid)) as (_ & _ & _ & H4 & _).
      * intros _. unfold onFramePayload. rewrite bool_decide_eq_false_2 by done. auto.
    + destruct (decide (f_opId f = opId config)) as [Hid|Hid].
      * intros _. destruct (frame_step now f c Hs Ho Hid (Hf Hid)) as (_ & H2 & _). lia.
      * intros _. unfold onFramePayload. rewrite bool_decide_eq_false_2 by done. done.
    + intros _. left. unfold sendAck. by destruct (torn c).
    + intros _. unfold sendAck. by destruct (torn c).
Qed.

(** A silent op is probed, and a probe that finds the runner ahead asks for
    everything after the frontier. *)
Lemma silence_heals now later status c : stable c -> outcome c = None -> probing c = false ->
  now - startedAt config < wallMs config -> silenceTimeoutMs config <= now - lastFrameAt c ->
  os_state status <> OS_LOST -> lastApplied c + 1 < os_nextSeq status ->
  let c' := live config [ETick now; EProbe later (Answered status)] c in
  outcome c' = None /\ lastApplied c' = lastApplied c /\ attachInFlight c' = true.
Proof.
  intros [Hc Hn Ht Ho Hw] Hopen Hp Hwall Hsil Hst Hahead.
  set (d := c <| silenceSince := Some (default now (silenceSince c)) |> <| probing := true |>).
  assert (Htick : step config c (ETick now) = d).
  { unfold step. rewrite Hopen. unfold tick. by rewrite Hp, (proj2 (Z.leb_gt _ _)), (proj2 (Z.leb_le _ _)). }
  unfold live. cbn [foldl]. rewrite Htick. unfold step. change (outcome d) with (outcome c). rewrite Hopen. cbn [probing d setWith].
  unfold probed. rewrite bool_decide_eq_false_2 by done. change (lastApplied d) with (lastApplied c).
  rewrite (proj2 (Z.ltb_lt _ _)) by done. unfold requestAttachHeal. change (attachInFlight d) with (attachInFlight c).
  change (torn d) with (torn c). rewrite Ht, orb_false_r. by destruct (attachInFlight c) eqn:Ea.
Qed.

(** ** The settled op's result *)

Section digest.
Context (blake3 : bytes -> jstr).

(** The exit record tells the truth about a channel. *)
Definition declares (name : string) (content : bytes) : Prop :=
  (forall total, assoc (js name) (x_totals x) = Some total -> total = Z.of_nat (length content)) /\
  (forall digest, assoc (js name) (x_digests x) = Some digest -> digest = [] \/ digest = blake3 content).
Definition output : bytes := concat (omap outChunk pre).
Definition errors : bytes := concat (omap errChunk pre).

Lemma verifyChannel_ok name content : declares name content -> verifyChannel blake3 name content x = None.
Proof.
  intros [Ht Hd]. unfold verifyChannel.
  assert (E : (match default [] (assoc (js name) (x_digests x)) with
               | [] => false | _ => negb (bool_decide (blake3 content = default [] (assoc (js name) (x_digests x)))) end) = false).
  { destruct (assoc (js name) (x_digests x)) as [d|]; [|done]. cbn. destruct (Hd d eq_refl) as [-> | ->]; [done|].
    rewrite bool_decide_eq_true_2 by done. by destruct (blake3 content). }
  rewrite E. destruct (assoc (js name) (x_totals x)) as [total|]; [|done].
  by rewrite (Ht total eq_refl), Z.eqb_refl.
Qed.

Lemma finish_honest startRetries c : inv c -> lastApplied c = last_seq -> declares "stdout" output -> declares "stderr" errors ->
  exit c = Some x /\ exitSeq c = Some last_seq /\
  match x_failureCode x with
  | [] => exists o, finish blake3 startRetries x c = Ok o /\ oc_response o = {| er_exitCode := x_exitCode x; er_stdout := output;
             er_stderr := errors; er_timedOut := x_timedOut x; er_durationMs := x_durationMs x |} /\ oc_startRetries o = startRetries
  | _ => finish blake3 startRetries x c = Err (runnerFailureToControlError x)
  end.
Proof.
  intros [_ Ho He _ [Hx Hs] _ _ _ _] Hl Hout Herr. rewrite Hl, Z.eqb_refl in Hx, Hs. split; [done|]. split; [done|].
  assert (Hall : applied c = bodies) by (unfold applied; rewrite Hl; unfold last_seq; rewrite Nat2Z.id; by apply take_ge).
  assert (Hso : concat (stdout c) = output) by (unfold output; rewrite Ho, Hall; unfold bodies; rewrite omap_app; cbn; by rewrite app_nil_r).
  assert (Hse : concat (stderr c) = errors) by (unfold errors; rewrite He, Hall; unfold bodies; rewrite omap_app; cbn; by rewrite app_nil_r).
  unfold finish, verifyByteExact. rewrite Hso, Hse, !verifyChannel_ok by done.
  destruct (x_failureCode x); [|done]. eexists. split; [reflexivity|]. done.
Qed.
End digest.

End honest.

(** ** Starting *)

Lemma startLoop_spec answers fuel i d b : 0 <= d <= OP_START_DRAINING_MAX_RETRIES -> 0 <= b <= OP_START_BLIP_MAX_RETRIES ->
  OP_START_DRAINING_MAX_RETRIES - d + (OP_START_BLIP_MAX_RETRIES - b) < Z.of_nat fuel ->
  exists o n, startLoop answers fuel i d b = Some (o, n) /\ (i < n <= i + fuel)%nat /\
    match o with
    | Started retries => startError (answers (pred n)) = None /\ retries = d + b + Z.of_nat (pred n - i)
    | StartUnavailable => exists e, startError (answers (pred n)) = Some e /\ refusesStart e = true
    | StartFailed e => startError (answers (pred n)) = Some e /\ refusesStart e = false
    end.
Proof.
  revert i d b. induction fuel as [|fuel IH]; intros i d b Hd Hb Hf; [lia|]. cbn [startLoop].
  destruct (startError (answers i)) as [e|] eqn:E.
  2: { eexists _, _. split; [reflexivity|]. split; [lia|]. split; [done|]. cbn. lia. }
  destruct (refusesStart e) eqn:Er. { eexists _, _. split; [reflexivity|]. split; [lia|]. eauto. }
  destruct (ce_draining e && (d <? OP_START_DRAINING_MAX_RETRIES)) eqn:Ed.
  { apply andb_true_iff in Ed as [_ Ed%Z.ltb_lt]. destruct (IH (S i) (d + 1) b) as (o & n & H1 & H2 & H3); [lia..|].
    exists o, n. split; [done|]. split; [lia|]. destruct o; [|done|done]. destruct H3 as [H3 ->]. split; [done|lia]. }
  destruct (isBlip e && (b <? OP_START_BLIP_MAX_RETRIES)) eqn:Eb.
  { apply andb_true_iff in Eb as [_ Eb%Z.ltb_lt]. destruct (IH (S i) d (b + 1)) as (o & n & H1 & H2 & H3); [lia..|].
    exists o, n. split; [done|]. split; [lia|]. destruct o; [|done|done]. destruct H3 as [H3 ->]. split; [done|lia]. }
  eexists _, _. split; [reflexivity|]. split; [lia|]. done.
Qed.

Lemma startOp_spec answers : exists o n, startOp answers = Some (o, n) /\ (0 < n <= 14)%nat /\
  match o with
  | Started retries => startError (answers (pred n)) = None /\ retries = Z.of_nat (pred n)
  | StartUnavailable => exists e, startError (answers (pred n)) = Some e /\ refusesStart e = true
  | StartFailed e => startError (answers (pred n)) = Some e /\ refusesStart e = false
  end.
Proof.
  destruct (startLoop_spec answers maxStarts 0 0 0) as (o & n & H1 & H2 & H3); [done|done|done|].
  exists o, n. split; [done|]. split; [exact H2|]. destruct o; [|done|done]. destruct H3 as [H3 ->]. split; [done|lia].
Qed.

(** The consumer when the timers start. *)
Definition attached (config : OpConfig) (w : OpWorld) : Consumer :=
  let c := live config (List.filter beforeTimers (w_early w)) (newConsumer (startedAt config)) in
  c <| sent ::= fun l => l ++ [AttachSent (lastApplied c) (windowBytes config)] |>.

Lemma stable_attached config pre x w : Forall (fun b => forall y, b <> Exit y) pre -> Forall (honestEvent config pre x) (w_early w) ->
  stable config pre x (attached config w).
Proof.
  intros Hpre Hev. unfold attached.
  assert (H : stable config pre x (live config (List.filter beforeTimers (w_early w)) (newConsumer (startedAt config)))).
  { apply stable_live; [done|by apply stable_new|]. apply Forall_forall. intros ev [Hin _]%list_elem_of_In%filter_In%(conj I)%proj2.
    rewrite Forall_forall in Hev. by apply Hev, list_elem_of_In. }
  destruct H as [Hi H2 H3 H4 H5]. constructor; try done. destruct Hi. constructor; cbn; try done.
  - apply Forall_app_2; [done|]. repeat constructor; cbn; lia.
  - unfold grantedCredit in *. by rewrite foldl_app.
Qed.

(** (C22) A streamed exec returns exactly what the command wrote.  However the
    frames of an honest runner are lost, repeated, reordered or mixed with
    garbage and with frames of other ops, a completed exec has the command's
    exit code and its standard output and error byte for byte; and a failed one
    failed to start or to attach, was given up on (a lost op, the wall, a dead
    link), or failed on the runner with that failure's code: reassembly is never
    the cause.  The run itself is always defined. *)
Theorem op_output_exact blake3 config pre x w :
  Forall (fun b => forall y, b <> Exit y) pre ->
  declares x blake3 "stdout" (output pre) -> declares x blake3 "stderr" (errors pre) ->
  Forall (honestEvent config pre x) (w_early w) -> Forall (honestEvent config pre x) (w_events w) ->
  match run blake3 config w with
  | None => False
  | Some (Completed o n) => n = Z.of_nat (length pre) + 1 /\ x_failureCode x = [] /\
      oc_response o = {| er_exitCode := x_exitCode x; er_stdout := output pre; er_stderr := errors pre;
                         er_timedOut := x_timedOut x; er_durationMs := x_durationMs x |}
  | Some (RunFailed e) =>
      (exists i, startError (w_starts w i) = Some e) \/ attachError (w_attach w) = Some e \/
      outcome (live config (w_events w) (attached config w)) = Some (Err e) \/
      x_failureCode x <> [] /\ e = runnerFailureToControlError x
  | Some _ => True
  end.
Proof.
  intros Hpre Hout Herr Hearly Hev. unfold run. destruct (w_subscribed w); cbn [negb]; [|done].
  destruct (startOp_spec (w_starts w)) as (o & n & -> & _ & Hstart). destruct o as [retries| |e]; [|done|left; naive_solver].
  fold (attached config w). pose proof (stable_attached config pre x w Hpre Hearly) as Hs.
  destruct (attachError (w_attach w)); [by auto|]. cbv zeta.
  pose proof (stable_live config pre x Hpre _ _ Hs Hev) as [Hi _ _ _ _].
  destruct (outcome (live config (w_events w) (attached config w))) as [[[]|e]|] eqn:Eo; [|by auto|done].
  destruct (finish_honest config pre x blake3 retries _ Hi (i_settled _ _ _ _ Hi Eo) Hout Herr) as (-> & -> & Hf).
  assert (Hl : last_seq pre x = Z.of_nat (length pre) + 1) by (unfold last_seq, bodies; rewrite length_app; cbn; lia).
  destruct (x_failureCode x) as [|k code] eqn:Ec.
  - destruct Hf as (o & -> & Ho & _). by split.
  - rewrite Hf. right. right. right. split; [done|done].
Qed.

(** Whatever was lost comes back.  At any moment of an unsettled op, a replay
    from a frontier the consumer asked for, in whatever else arrives, settles it;
    every attach asks for a frontier the consumer has reached; and a frame that
    arrives early, or a probe of a silent op that finds the runner ahead, puts
    an attach in flight. *)
Theorem op_replay_completes config pre x evs evs' from :
  Forall (fun b => forall y, b <> Exit y) pre -> Forall (honestEvent config pre x) (evs ++ evs') ->
  let c := live config evs (newConsumer (startedAt config)) in
  outcome c = None ->
  (forall fromSeq window, AttachSent fromSeq window ∈ sent c -> 0 <= fromSeq <= lastApplied c) /\
  (from <= lastApplied c -> replays config pre x from evs' ->
   outcome (live config (evs ++ evs') (newConsumer (startedAt config))) = Some (Ok tt)) /\
  (forall now f, f_opId f = opId config -> honestFrame pre x f -> lastApplied c + 1 < f_seq f ->
   attachInFlight (step config c (EFrame now (Some f))) = true) /\
  (forall now later status, probing c = false -> now - startedAt config < wallMs config ->
   silenceTimeoutMs config <= now - lastFrameAt c -> os_state status <> OS_LOST -> lastApplied c + 1 < os_nextSeq status ->
   attachInFlight (live config [ETick now; EProbe later (Answered status)] c) = true).
Proof.
  intros Hpre [Hev Hev']%Forall_app c Hopen.
  assert (Hs : stable config pre x c) by (apply stable_live; [done|by apply stable_new|done]).
  split; [|split; [|split]].
  - intros fromSeq window Hin. destruct (s_inv _ _ _ _ Hs) as [_ _ _ _ _ _ Hsent _ _]. rewrite Forall_forall in Hsent. exact (Hsent _ Hin).
  - intros Hfrom Hr. unfold live. rewrite foldl_app. apply (replay_step config pre x Hpre from); auto.
  - intros now f Hid Hf Hgap. unfold step. rewrite Hopen. by apply (frame_step config pre x Hpre now f c).
  - intros now later status Hp Hw Hsil Hst Hahead. by apply (silence_heals config pre x now later status c).
Qed.

(** The child is never starved of credit and nothing it wrote is released
    early: while the op runs, the credit last granted is more than half a window
    above what has been received, and every ack leaves the acked frontier at 0,
    so a successor can replay from the start. *)
Theorem credit_headroom config pre x evs :
  Forall (fun b => forall y, b <> Exit y) pre -> Forall (honestEvent config pre x) evs -> 2 <= windowBytes config ->
  let c := live config evs (newConsumer (startedAt config)) in
  windowBytes config / 2 < grantedCredit config (sent c) - receivedPayloadBytes c /\
  receivedPayloadBytes c = payloads (applied pre x c) /\
  Forall (fun s => match s with AckSent ackedSeq _ final => ackedSeq = 0 /\ final = false | AttachSent _ _ => True end) (sent c).
Proof.
  intros Hpre Hev Hw c.
  assert (Hs : stable config pre x c) by (apply stable_live; [done|by apply stable_new|done]).
  destruct Hs as [Hi _ _ _ Hcr]. specialize (Hcr Hw). split.
  - rewrite (i_credit _ _ _ _ Hi). pose proof (Z.div_mod (windowBytes config) 2 ltac:(lia)). pose proof (Z.mod_pos_bound (windowBytes config) 2 ltac:(lia)). lia.
  - split; [apply Hi|]. eapply Forall_impl; [apply Hi|]. intros []; cbn; [done|done].
Qed.

(** ** Running a command once *)

Section once.
(** Which start made the runner spawn the command, and which attempt of the
    request/reply exec did. *)
Context (started ran : nat -> bool).

Definition streamedRuns (w : OpWorld) : nat :=
  match startOp (w_starts w) with
  | Some (_, n) => if w_subscribed w then executions started 0 n else 0
  | None => 0
  end.
Lemma once_counted n : (forall i j, started i = true -> started j = true -> i = j) -> (executions started 0 n <= 1)%nat.
Proof.
  intros Hone. unfold executions. destruct (List.filter started (seq 0 n)) as [|a [|b l]] eqn:E; cbn; [lia|lia|].
  assert (NoDup (a :: b :: l)) as Hnd by (rewrite <- E; apply NoDup_ListNoDup, List.NoDup_filter, seq_NoDup).
  assert (forall x, x ∈ a :: b :: l -> started x = true) as Hs by (intros x; rewrite <- E; intros [_ Hx]%list_elem_of_In%List.filter_In; done).
  exfalso. apply NoDup_cons in Hnd as [Hnd _]. apply Hnd. rewrite (Hone a b); [left|apply Hs; left|apply Hs; right; left].
Qed.
Definition legacyRuns (streamed : option RunResult) (reply : nat -> ControlResponse LegacyResult) (jitter : nat -> Q) : nat :=
  match streamed with
  | None | Some Unavailable => match call "exec" reply jitter with Some res => executions ran 0 (cl_attempts res) | None => 0 end
  | _ => 0
  end.

(** (C23) A command runs at most once.  The client starts the op up to fourteen
    times, all under one op id, and may then fall back to the request/reply exec,
    itself retried.  Of the runner three things are supposed: it spawns one
    command per op id however often that is started; when a start is answered
    with a refusal, no start so far has spawned the command; and an exec answered
    with an error the client takes for never sent or never run was not run (the
    last two can fail: [fallback_reruns], [ControlRpc.digits_taken_for_unsent]).  Then all starts
    and all attempts of the fallback together run the command at most once, and
    the fallback is taken only after a refusal or without a transport, with
    nothing run before it. *)
Theorem exec_at_most_once blake3 config w reply jitter r :
  (forall i j, started i = true -> started j = true -> i = j) ->
  (forall i e, startError (w_starts w i) = Some e -> ce_code e = E_PROTOCOL \/ ce_code e = E_UNSUPPORTED ->
     forall j, (j <= i)%nat -> started j = false) ->
  (forall i e, answer (reply i) = Err e -> rejected e = true -> ran i = false) ->
  run blake3 config w = Some r ->
  (streamedRuns w + legacyRuns (Some r) reply jitter <= 1)%nat /\
  (r = Unavailable -> streamedRuns w = 0%nat /\
     (w_subscribed w = false \/ exists i e, (i < 14)%nat /\ startError (w_starts w i) = Some e /\ (ce_code e = E_PROTOCOL \/ ce_code e = E_UNSUPPORTED))).
Proof.
  intros Hone' Hrefuse Hrej Hrun.
  destruct (startOp_spec (w_starts w)) as (o & n & Hstart & Hn & Ho).
  assert (Hun : r = Unavailable -> streamedRuns w = 0%nat /\
     (w_subscribed w = false \/ exists i e, (i < 14)%nat /\ startError (w_starts w i) = Some e /\ (ce_code e = E_PROTOCOL \/ ce_code e = E_UNSUPPORTED))).
  { intros ->. unfold streamedRuns. rewrite Hstart. unfold run in Hrun. rewrite Hstart in Hrun.
    destruct (w_subscribed w); [|split; [done|by left]]. cbn [negb] in *.
    destruct o as [retries| |e]; [exfalso; repeat (case_match; try congruence)| |done].
    destruct Ho as (e & He & Hr). apply orb_true_iff in Hr. rewrite !bool_decide_eq_true in Hr.
    split; [|right; exists (pred n), e; split; [lia|done]].
    unfold executions. destruct (List.filter started (seq 0 n)) as [|j l] eqn:Ex; [done|].
    assert (j ∈ List.filter started (seq 0 n)) as [Hj%in_seq Hs]%list_elem_of_In%List.filter_In by (rewrite Ex; left).
    rewrite (Hrefuse _ _ He Hr j) in Hs by lia. done. }
  split; [|exact Hun].
  assert (Hone : (streamedRuns w <= 1)%nat) by (unfold streamedRuns; rewrite Hstart; destruct (w_subscribed w); [by apply once_counted|lia]).
  destruct r; unfold legacyRuns; try lia. destruct (Hun eq_refl) as [-> _]. cbn [plus].
  destruct (callLoop_spec "exec" reply jitter ran Hrej (maxAttempts "exec") 0 {| drainingRetries := 0; timeoutRetries := 0; neverSentRetries := 0 |} [])
    as (res & Hr & _ & _ & He & _); [by constructor|done|].
  unfold call. rewrite Hr. rewrite Nat.sub_0_r in He. change (timeoutBudget "exec") with 0 in He. cbn [timeoutRetries] in He. lia.
Qed.
End once.

(** ** The final ack *)

(** Each op's result is recorded before its final ack, one op after the other;
    when recording fails, that op and the rest are not acked. *)
Lemma finalize_durable persists ops steps rest : finalizeSettledOps persists ops = (steps, rest) ->
  exists done, Forall (fun op => persists op = true) done /\
    steps = concat (List.map (fun op => [Persisted op; FinalAck op]) done) /\
    (ops = done /\ rest = [] \/ exists op, ops = done ++ op :: rest /\ persists op = false).
Proof.
  revert steps rest. induction ops as [|op ops IH]; intros steps rest; cbn.
  - intros [= <- <-]. exists []. split; [done|]. split; [done|]. by left.
  - destruct (persists op) eqn:E.
    + destruct (finalizeSettledOps persists ops) as [s r] eqn:F. intros [= <- <-].
      destruct (IH s r eq_refl) as (d & H1 & -> & H3). exists (op :: d). split; [by constructor|]. split; [done|].
      destruct H3 as [[-> ->]|(op' & -> & Hp)]; [by left|]. right. by exists op'.
    + intros [= <- <-]. exists []. split; [done|]. split; [done|]. right. by exists op.
Qed.

(** ** Examples *)

Definition b (n : nat) : byte := default x00 (of_nat n).
Definition examplePre : list Body := [Data CH_STDOUT [b 104; b 105]; Data CH_STDERR [b 101]; Progress; Data CH_STDOUT [b 33]].
Definition exampleBlake (content : bytes) : jstr := [Z.of_nat (length content)].
Definition exampleExit : OpExit := {|
  x_exitCode := 0; x_timedOut := false; x_durationMs := 7; x_digests := [(js "stdout", [3]); (js "stderr", [1])];
  x_totals := [(js "stdout", 3); (js "stderr", 1)]; x_failureCode := []; x_failureDetail := [] |}.
Definition exampleConfig : OpConfig := {|
  opId := js "call:0"; windowBytes := 4; silenceTimeoutMs := 30000; reconnectHoldMs := 120000; startedAt := 0; wallMs := 125000 |}.
Definition exampleFrame (n : nat) : Event :=
  EFrame 5 (Some {| f_opId := js "call:0"; f_seq := Z.of_nat n; f_body := nth_error (examplePre ++ [Exit exampleExit]) (n - 1) |}).
Definition exampleStatus (state : OpState) (nextSeq : Z) : OpStatus := {|
  os_state := state; os_nextSeq := nextSeq; os_exit := None; os_lostReason := LR_UNSPECIFIED |}.
(** The first frame overtakes nothing, the second is lost, the rest comes twice
    and out of order; the gap is replayed. *)
Definition exampleArrivals : list Event :=
  [exampleFrame 1; exampleFrame 3; EFrame 6 None; exampleFrame 5; exampleFrame 1; EAckTick; exampleFrame 3].
Definition exampleReplay : list Event := [exampleFrame 2; exampleFrame 3; exampleFrame 4; exampleFrame 5].
Definition exampleWorld : OpWorld := {|
  w_subscribed := true;
  w_starts := fun i => match i with
                       | 0%nat => Failed timeoutError
                       | _ => Answered {| st_accepted := true; st_status := Some (exampleStatus OS_RUNNING 1) |}
                       end;
  w_early := [exampleFrame 1]; w_attach := Answered (exampleStatus OS_RUNNING 1); w_events := exampleArrivals ++ exampleReplay |}.

Lemma example_honest l : Forall (fun ev => exists n, (1 <= n <= 5)%nat /\ ev = exampleFrame n \/ ev = EFrame 6 None \/ ev = EAckTick) l ->
  Forall (honestEvent exampleConfig examplePre exampleExit) l.
Proof.
  intros H. eapply Forall_impl; [exact H|]. intros ev (n & [[Hn ->]|[->| ->]]); [|done|done].
  intros _. unfold honestFrame. cbn. split; [lia|].
  do 6 (destruct n as [|n]; [try lia; eexists; split; reflexivity|]). lia.
Qed.

Lemma example_pre : Forall (fun c => forall y, c <> Exit y) examplePre.
Proof. repeat constructor; congruence. Qed.

Lemma example_world : Forall (honestEvent exampleConfig examplePre exampleExit) (w_early exampleWorld ++ w_events exampleWorld).
Proof.
  apply example_honest. unfold exampleWorld, exampleArrivals, exampleReplay. cbn [w_early w_events app].
  repeat (apply Forall_cons; split; [first [ by exists 1%nat; left; split; [lia|] | by exists 2%nat; left; split; [lia|] | by exists 3%nat; left; split; [lia|]
    | by exists 4%nat; left; split; [lia|] | by exists 5%nat; left; split; [lia|] | exists 1%nat; by right; left | exists 1%nat; by right; right ]|]). constructor.
Qed.

Lemma op_output_exact_witness :
  exists o, run exampleBlake exampleConfig exampleWorld = Some (Completed o 5) /\ er_stdout (oc_response o) = [b 104; b 105; b 33].
Proof.
  pose proof (op_output_exact exampleBlake exampleConfig examplePre exampleExit exampleWorld example_pre) as H.
  assert (He := example_world). apply Forall_app in He as [H1 H2].
  assert (Hr : exists o, run exampleBlake exampleConfig exampleWorld = Some (Completed o 5)) by (eexists; vm_compute; reflexivity).
  destruct Hr as [o Hr]. exists o. split; [exact Hr|]. rewrite Hr in H.
  destruct H as (_ & _ & ->); [ | |exact H1|exact H2|reflexivity]; (split; intros ? [= <-]; [reflexivity|by right]).
Defined.

Lemma op_replay_completes_witness :
  outcome (live exampleConfig (exampleArrivals ++ exampleReplay) (newConsumer 0)) = Some (Ok tt).
Proof.
  destruct (op_replay_completes exampleConfig examplePre exampleExit exampleArrivals exampleReplay 1 example_pre) as (_ & H & _).
  - assert (He := example_world). apply Forall_app in He as [_ H2]. exact H2.
  - vm_compute. reflexivity.
  - apply H; [vm_compute; congruence|].
    do 4 (apply replays_next; [reflexivity|reflexivity|]). apply replays_done.
Defined.

Lemma credit_headroom_witness :
  2 < grantedCredit exampleConfig (sent (live exampleConfig exampleArrivals (newConsumer 0)))
      - receivedPayloadBytes (live exampleConfig exampleArrivals (newConsumer 0)).
Proof.
  destruct (credit_headroom exampleConfig examplePre exampleExit exampleArrivals example_pre) as (H & _).
  - assert (He := example_world). apply Forall_app in He as [_ H2]. apply Forall_app in H2 as [H2 _]. exact H2.
  - vm_compute. congruence.
  - exact H.
Defined.

(** Refused at once: the fallback runs the command, once. *)
Definition refusedWorld : OpWorld := {|
  w_subscribed := true; w_starts := fun _ => Failed (protocolError []); w_early := []; w_attach := OtherResult; w_events := [] |}.
Definition legacyReply (_ : nat) : ControlResponse LegacyResult := {|
  cr_requestId := "r"; cr_error := None; cr_result := Some LegacyOther |}.

(** A start whose answer was lost on the way, and the one that found the op
    running. *)
Definition lostAnswerWorld : OpWorld := {|
  w_subscribed := true; w_starts := fun i => match i with 0%nat => Failed timeoutError | _ => Answered {| st_accepted := true; st_status := None |} end;
  w_early := []; w_attach := OtherResult; w_events := [] |}.

Lemma exec_at_most_once_witness :
  (streamedRuns (fun _ => false) refusedWorld + legacyRuns (fun _ => true) (Some Unavailable) legacyReply (fun _ => 0%Q) <= 1)%nat /\
  streamedRuns (fun i => Nat.eqb i 0) lostAnswerWorld = 1%nat /\ option_map snd (startOp (w_starts lostAnswerWorld)) = Some 2%nat.
Proof.
  split; [|split; vm_compute; reflexivity].
  apply (exec_at_most_once (fun _ => false) (fun _ => true) exampleBlake exampleConfig refusedWorld legacyReply (fun _ => 0%Q) Unavailable).
  - discriminate.
  - reflexivity.
  - discriminate.
  - reflexivity.
Defined.

(** The client cannot know that a start was refused: an empty or unexpected
    answer counts as a refusal too, also after a start that timed out.  If that
    start reached the runner, the fallback runs the command a second time. *)
Example fallback_reruns :
  let w := {| w_subscribed := true; w_starts := fun i => match i with 0%nat => Failed timeoutError | _ => Failed (agentErrorToControlError emptyResponse) end;
              w_early := []; w_attach := OtherResult; w_events := [] |} in
  run exampleBlake exampleConfig w = Some Unavailable /\
  startOp (w_starts w) = Some (StartUnavailable, 2%nat) /\
  legacyRuns (fun _ => true) (Some Unavailable) legacyReply (fun _ => 0%Q) = 1%nat.
Proof. by vm_compute. Qed.

(** The runner counts a chunk before it is retained, so the totals of an
    overflow exceed the frames: the check of the totals comes first and the
    overflow is reported as a protocol error. *)
Example overflow_masked :
  let x := {| x_exitCode := -1; x_timedOut := false; x_durationMs := 7; x_digests := []; x_totals := [(js "stdout", 9)];
              x_failureCode := js "OP_OVERFLOW"; x_failureDetail := [] |} in
  let w := {| w_subscribed := true; w_starts := fun _ => Answered {| st_accepted := true; st_status := None |}; w_early := [];
              w_attach := Answered (exampleStatus OS_RUNNING 1);
              w_events := [exampleFrame 1; EFrame 6 (Some {| f_opId := js "call:0"; f_seq := 2; f_body := Some (Exit x) |})] |} in
  exists e, run exampleBlake exampleConfig w = Some (RunFailed e) /\ ce_code e = E_PROTOCOL /\ ce_payloadTooLarge e = false.
Proof. eexists. split; [vm_compute; reflexivity|done]. Qed.

(** A completed op whose frames can no longer be replayed says so in the status
    it answers; the consumer does not look and waits for its wall. *)
Example collection_failure_ignored :
  let x := {| x_exitCode := 0; x_timedOut := false; x_durationMs := 7; x_digests := []; x_totals := [];
              x_failureCode := js "OP_SPOOL_IO"; x_failureDetail := [] |} in
  let status := {| os_state := OS_COMPLETE; os_nextSeq := 3; os_exit := Some x; os_lostReason := LR_UNSPECIFIED |} in
  attachError (Answered status) = None /\
  outcome (live exampleConfig [ETick 30000; EProbe 30001 (Answered status); EAttach (Answered status)] (newConsumer 0)) = None.
Proof. by vm_compute. Qed.

End OpStream.
