(* ===== verification/Fleet.v ===== *)
(** * The fleet ([packages/core/src/sandbox/fleet.ts], the sandbox and pointer
      operations of [packages/db/src/index.ts] and
      [packages/runtime/src/sandbox/selfhosted/capabilities.ts])

    A session runs its sandbox operations on its own box or, through an
    epoch-fenced pointer, on an enrolled machine of its workspace.  The answer of
    a ping, and of an operation on a machine, is a parameter. *)
From S2P Require Import Prelude Json Sql Tokens NatsJwt Activity Access AccessRoutes Enrollments EnrollmentSafety.
#[local] Open Scope Z_scope.
#[local] Open Scope opengeni_scope.

Module Fleet.
Import Activity Access Enrollments EnrollmentSafety.

(** ** Sandboxes and pointers *)

Definition createSandbox (accountId workspaceId : jstr) (kind : SandboxKind) (name : jstr) (enrollmentId : option jstr) (now : Z) (d : MachineDb)
  : result AccessError (SandboxRow * MachineDb) :=
  match kind, nonEmpty enrollmentId with
  | selfhosted, None => Err (Thrown "A selfhosted sandbox requires an enrollmentId.")
  | modal, Some _ => Err (Thrown "A modal sandbox must not carry an enrollmentId.")
  | _, _ =>
      match getWorkspace workspaceId (access d) with
      | None => Err (Thrown "insert or update violates foreign key constraint")
      | Some _ =>
          if match enrollmentId with Some i => negb (existsb (fun e => same (e_id e) i) (enrollments d)) | None => false end
          then Err (Thrown "insert or update violates foreign key constraint")
          else
            let b := {| b_id := generated (nextId d); b_accountId := accountId; b_workspaceId := workspaceId; b_kind := kind; b_name := name;
                        b_enrollmentId := enrollmentId; b_createdAt := now |} in
            Ok (b, (d <| sandboxes ::= fun t => t ++ [b] |>) <| nextId ::= S |>)
      end
  end.
Definition sandboxIs (workspaceId sandboxId : jstr) (b : SandboxRow) : bool := same (b_workspaceId b) workspaceId && same (b_id b) sandboxId.
Definition getSandbox (workspaceId sandboxId : jstr) (d : MachineDb) : option SandboxRow := List.find (sandboxIs workspaceId sandboxId) (sandboxes d).
Definition listSandboxes (workspaceId : jstr) (d : MachineDb) : list SandboxRow :=
  sort_by (fun b => - b_createdAt b) (select_where (fun b => same (b_workspaceId b) workspaceId) (sandboxes d)).

Record ActiveSandboxPointer := { activeSandboxId : option jstr; activeEpoch : Z; workingDir : option jstr }.
Definition pointerOf (s : PointerRow) : ActiveSandboxPointer := {| activeSandboxId := s_activeSandboxId s; activeEpoch := s_activeEpoch s; workingDir := s_workingDir s |}.
Definition sessionIs (workspaceId sessionId : jstr) (s : PointerRow) : bool := same (s_workspaceId s) workspaceId && same (s_id s) sessionId.
Definition sessionRow (workspaceId sessionId : jstr) (d : MachineDb) : option PointerRow := List.find (sessionIs workspaceId sessionId) (pointers d).
Definition readActiveSandbox (workspaceId sessionId : jstr) (d : MachineDb) : option ActiveSandboxPointer := pointerOf <$> sessionRow workspaceId sessionId d.

(** [order by created_at, id] *)
Fixpoint idLeb (a b : jstr) : bool :=
  match a, b with
  | [], _ => true
  | _, [] => false
  | x :: a, y :: b => (x <? y) || (x =? y) && idLeb a b
  end.
Definition olderSession (a b : PointerRow) : bool := (s_createdAt a <? s_createdAt b) || (s_createdAt a =? s_createdAt b) && idLeb (s_id a) (s_id b).
(** The sessions with a running turn on a machine. *)
Definition sessionsWithActiveOpOnEnrollment (workspaceId enrollmentId : jstr) (d : MachineDb) : list (jstr * jstr) :=
  let joined := b ← select_where (fun b => same (b_workspaceId b) workspaceId && bool_decide (b_kind b = selfhosted) && isValue (b_enrollmentId b) enrollmentId) (sandboxes d);
                select_where (fun s => isValue (s_activeSandboxId s) (b_id b)) (pointers d) in
  omap (fun s => match s_activeTurnId s with Some turn => Some (s_id s, turn) | None => None end) (sort_leb olderSession joined).

Record SwapInput := { sw_workspaceId : jstr; sw_sessionId : jstr; sw_target : option jstr; sw_expectedEpoch : Z; sw_workingDir : option (option jstr) }.
Definition repoint (i : SwapInput) (s : PointerRow) : PointerRow :=
  ((s <| s_activeSandboxId := sw_target i |>) <| s_activeEpoch := s_activeEpoch s + 1 |>) <| s_workingDir := default (s_workingDir s) (sw_workingDir i) |>.
(** The swap, fenced by the epoch; [sessions.active_sandbox_id] is a foreign key. *)
Definition setActiveSandbox (i : SwapInput) (d : MachineDb) : result AccessError (option ActiveSandboxPointer * MachineDb) :=
  let mine s := sessionIs (sw_workspaceId i) (sw_sessionId i) s && (s_activeEpoch s =? sw_expectedEpoch i) in
  match List.find mine (pointers d) with
  | None => Ok (None, d)
  | Some s =>
      if match sw_target i with Some t => negb (existsb (fun b => same (b_id b) t) (sandboxes d)) | None => false end
      then Err (Thrown "insert or update violates foreign key constraint")
      else Ok (Some (pointerOf (repoint i s)), d <| pointers ::= update_where mine (repoint i) |>)
  end.
(** A sandbox row goes: [on delete set null]. *)
Definition sandboxDeleted (sandboxId : jstr) (d : MachineDb) : MachineDb :=
  (d <| sandboxes ::= delete_where (fun b => same (b_id b) sandboxId) |>)
    <| pointers ::= update_where (fun s => isValue (s_activeSandboxId s) sandboxId) (fun s => s <| s_activeSandboxId := None |>) |>.
(** A session row is new: its pointer is null at epoch zero. *)
Definition sessionCreated (id workspaceId backend groupId : jstr) (now : Z) (d : MachineDb) : MachineDb :=
  if existsb (fun s => same (s_id s) id) (pointers d) then d
  else d <| pointers ::= fun t => t ++ [{| s_id := id; s_workspaceId := workspaceId; s_backend := backend; s_groupId := groupId; s_activeTurnId := None;
                                          s_activeSandboxId := None; s_activeEpoch := 0; s_workingDir := None; s_createdAt := now |}] |>.

(** ** Liveness ([selfhostedLiveness]) *)

Inductive FleetLiveness := online | reconnecting | offline.
#[export] Instance FleetLiveness_eq_dec : EqDecision FleetLiveness.
Proof. solve_decision. Defined.
Definition SELFHOSTED_RECONNECT_WINDOW_MS : Z := 30000.
Record Liveness := { state : FleetLiveness; consented : bool; hasDisplay : bool }.
Definition selfhostedLiveness (enrollment : option EnrollmentRow) (probeResponded : bool) (at_ : Z) : Liveness :=
  let off := {| state := offline; consented := false; hasDisplay := false |} in
  match enrollment with
  | None => off
  | Some e =>
      if negb (isActive e) then off
      else
        let rest st := {| state := st; consented := e_allowScreenControl e; hasDisplay := e_hasDisplay e |} in
        match e_wentOfflineAt e with
        | Some _ => rest offline
        | None =>
            if probeResponded then rest online
            else match e_lastSeenAt e with
                 | Some seen => rest (if at_ - seen <=? SELFHOSTED_RECONNECT_WINDOW_MS then reconnecting else offline)
                 | None => rest offline
                 end
        end
  end.
(** [pong] is whether the machine would answer a ping now. *)
Definition probeEnrollment (e : EnrollmentRow) (pong : bool) (at_ : Z) : Liveness := selfhostedLiveness (Some e) (isActive e && pong) at_.

(** ** The fleet of a session *)

Record FleetContext := { fc_accountId : jstr; fc_workspaceId : jstr; fc_sessionId : jstr; fc_sessionBackend : jstr; fc_sessionGroupId : jstr }.
Definition buildFleetContextForSession (accountId workspaceId sessionId : jstr) : Handler FleetContext :=
  let* session := read (sessionRow workspaceId sessionId) in
  match session with
  | None => Throw (Thrown "Session not found")
  | Some s =>
      if same (s_backend s) (js "none") then Throw (HttpError 422 (js "this session has no sandbox (backend: none); the fleet is unavailable"))
      else Ret {| fc_accountId := accountId; fc_workspaceId := workspaceId; fc_sessionId := sessionId; fc_sessionBackend := s_backend s; fc_sessionGroupId := s_groupId s |}
  end.

Record FleetSandboxEntry := {
  fe_id : jstr; fe_kind : SandboxKind; fe_name : jstr; fe_liveness : FleetLiveness; fe_active : bool; fe_isSessionGroup : bool;
  fe_enrollmentId : option jstr; fe_attachable : bool; fe_consented : option bool; fe_hasDisplay : option bool; fe_lastSeenAt : option Z
}.
Definition noPointer : ActiveSandboxPointer := {| activeSandboxId := None; activeEpoch := 0; workingDir := None |}.
Definition currentPointer (ctx : FleetContext) : Handler ActiveSandboxPointer :=
  let* pointer := read (readActiveSandbox (fc_workspaceId ctx) (fc_sessionId ctx)) in Ret (default noPointer pointer).
Definition groupEntry (ctx : FleetContext) (pointer : ActiveSandboxPointer) : FleetSandboxEntry := {|
  fe_id := fc_sessionGroupId ctx; fe_kind := if same (fc_sessionBackend ctx) (js "selfhosted") then selfhosted else modal; fe_name := js "session sandbox";
  fe_liveness := online; fe_active := match activeSandboxId pointer with None => true | Some _ => false end; fe_isSessionGroup := true;
  fe_enrollmentId := None; fe_attachable := true; fe_consented := None; fe_hasDisplay := None; fe_lastSeenAt := None |}.
Definition machineEntry (pointer : ActiveSandboxPointer) (b : SandboxRow) (enrollmentId : jstr) (enrollment : option EnrollmentRow) (pong : bool) (at_ : Z) : FleetSandboxEntry :=
  let probe := match enrollment with
    | Some e => probeEnrollment e pong at_
    | None => {| state := offline; consented := false; hasDisplay := false |}
    end in
  {| fe_id := b_id b; fe_kind := selfhosted; fe_name := b_name b; fe_liveness := state probe; fe_active := isValue (activeSandboxId pointer) (b_id b);
     fe_isSessionGroup := false; fe_enrollmentId := Some enrollmentId; fe_attachable := bool_decide (state probe = online);
     fe_consented := Some (consented probe); fe_hasDisplay := Some (hasDisplay probe); fe_lastSeenAt := enrollment ≫= e_lastSeenAt |}.
(** [pongs] are the answers to the pings, by sandbox. *)
Fixpoint fleetEntries (ctx : FleetContext) (pointer : ActiveSandboxPointer) (pongs : jstr -> bool) (at_ : Z) (rows : list SandboxRow) : Handler (list FleetSandboxEntry) :=
  match rows with
  | [] => Ret []
  | b :: rows =>
      match b_kind b, nonEmpty (b_enrollmentId b) with
      | selfhosted, Some enrollmentId =>
          let* enrollment := read (getEnrollment (fc_workspaceId ctx) enrollmentId) in
          let* entries := fleetEntries ctx pointer pongs at_ rows in
          Ret (machineEntry pointer b enrollmentId enrollment (pongs (b_id b)) at_ :: entries)
      | _, _ => fleetEntries ctx pointer pongs at_ rows
      end
  end.
Definition listFleet (ctx : FleetContext) (pongs : jstr -> bool) (at_ : Z) : Handler (ActiveSandboxPointer * list FleetSandboxEntry) :=
  let* pointer := currentPointer ctx in
  let* rows := read (listSandboxes (fc_workspaceId ctx)) in
  let* entries := fleetEntries ctx pointer pongs at_ rows in
  Ret (pointer, groupEntry ctx pointer :: entries).

(** ** Swaps *)

Inductive BackendUnresolvableCode := stale_pointer | offline_enrollment | unsupported_backend_context | transient_establishment | home_unavailable_this_turn.
#[export] Instance BackendUnresolvableCode_eq_dec : EqDecision BackendUnresolvableCode.
Proof. solve_decision. Defined.
(** [swapTargetEstablishability] *)
Definition swapTargetEstablishability (kind : SandboxKind) (isSessionGroup : bool) : option BackendUnresolvableCode :=
  if isSessionGroup then None else match kind with selfhosted => None | modal => Some unsupported_backend_context end.

(** The pointer a target stands for; a refusal carries its code. *)
Definition resolveTarget (ctx : FleetContext) (target : jstr) (pong : bool) (at_ : Z) : Handler (result BackendUnresolvableCode (option jstr)) :=
  if same target (fc_sessionGroupId ctx) || same target (js "session") || same target (js "default") then Ret (Ok None)
  else
    let* sandbox := read (getSandbox (fc_workspaceId ctx) target) in
    match sandbox with
    | None => Ret (Err stale_pointer)
    | Some b =>
        match swapTargetEstablishability (b_kind b) false with
        | Some code => Ret (Err code)
        | None =>
            match b_kind b with
            | modal => Ret (Ok (Some (b_id b)))
            | selfhosted =>
                match nonEmpty (b_enrollmentId b) with
                | None => Ret (Err offline_enrollment)
                | Some enrollmentId =>
                    let* enrollment := read (getEnrollment (fc_workspaceId ctx) enrollmentId) in
                    match enrollment with
                    | None => Ret (Err offline_enrollment)
                    | Some e => Ret (if bool_decide (state (probeEnrollment e pong at_) = online) then Ok (Some (b_id b)) else Err offline_enrollment)
                    end
                end
            end
        end
    end.

Inductive SwapCode := Unresolvable (code : BackendUnresolvableCode) | concurrent_swap.
Record FleetSwapResult := { fs_swapped : bool; fs_activeSandboxId : option jstr; fs_activeEpoch : Z; fs_code : option SwapCode }.
Definition swapAnswer (swapped : bool) (code : option SwapCode) (p : ActiveSandboxPointer) : FleetSwapResult :=
  {| fs_swapped := swapped; fs_activeSandboxId := activeSandboxId p; fs_activeEpoch := activeEpoch p; fs_code := code |}.
Fixpoint swapAttempts (attempts : nat) (ctx : FleetContext) (target : option jstr) (dir : option (option jstr)) : Handler FleetSwapResult :=
  match attempts with
  | O => let* pointer := currentPointer ctx in Ret (swapAnswer false (Some concurrent_swap) pointer)
  | S n =>
      let* pointer := currentPointer ctx in
      if bool_decide (activeSandboxId pointer = target) then Ret (swapAnswer true None pointer)
      else
        let* swapped := tx (fun _ => setActiveSandbox {| sw_workspaceId := fc_workspaceId ctx; sw_sessionId := fc_sessionId ctx; sw_target := target;
          sw_expectedEpoch := activeEpoch pointer; sw_workingDir := dir |}) in
        match swapped with Some p => Ret (swapAnswer true None p) | None => swapAttempts n ctx target dir end
  end.
Definition swapActiveSandbox (ctx : FleetContext) (target : jstr) (dir : option (option jstr)) (pong : bool) (at_ : Z) : Handler FleetSwapResult :=
  let* resolved := resolveTarget ctx target pong at_ in
  match resolved with
  | Err code => let* pointer := currentPointer ctx in Ret (swapAnswer false (Some (Unresolvable code)) pointer)
  | Ok targetSandboxId => swapAttempts 2 ctx targetSandboxId dir
  end.

(** ** One-off operations and provisioning *)

Inductive RunOnOp := Exec (cmd : jstr) (workdir : option jstr) | ReadFile (path : jstr) | WriteFile (path content : jstr).
Inductive RunOnAnswer := Executed (stdout stderr : jstr) (exitCode : option Z) | Content (content : jstr) | Written (bytesWritten : Z) | Refused (reason : jstr).
(** [perform] runs an operation on the machine of an enrollment. *)
Definition runOnSandbox (perform : jstr -> RunOnOp -> result jstr RunOnAnswer) (ctx : FleetContext) (target : jstr) (op : RunOnOp) : Handler RunOnAnswer :=
  let* sandbox := read (getSandbox (fc_workspaceId ctx) target) in
  match sandbox with
  | None => Ret (Refused (js "sandbox " ++ target ++ js " not found in this workspace"))
  | Some b =>
      match b_kind b, nonEmpty (b_enrollmentId b) with
      | selfhosted, Some enrollmentId =>
          let* enrollment := read (getEnrollment (fc_workspaceId ctx) enrollmentId) in
          let refused := Refused (js "sandbox " ++ target ++ js " is not enrolled/active") in
          match enrollment with
          | None => Ret refused
          | Some e => if negb (isActive e) then Ret refused
                      else Ret (match perform enrollmentId op with Ok answer => answer | Err reason => Refused reason end)
          end
      | kind, _ => Ret (Refused (js "run_on routes one-off ops to enrolled selfhosted machines; " ++
                                 (match kind with modal => js "modal" | selfhosted => js "selfhosted" end) ++
                                 js " targets are reached via the active sandbox (swap to it first)"))
      end
  end.

Fixpoint dropSlashes (s : jstr) : jstr := match s with 47 :: s => dropSlashes s | _ => s end.
Inductive ProvisionResult := Instructions (installCommandUnix installCommandWindows verificationUri : jstr) | Provisioned (sandbox : SandboxRow).
Definition provisionSandbox (publicBaseUrl : option jstr) (ctx : FleetContext) (kind : SandboxKind) (name : option jstr) : Handler ProvisionResult :=
  match kind with
  | selfhosted =>
      let base := rev (dropSlashes (rev (default (js "https://get.opengeni.ai") publicBaseUrl))) in
      Ret (Instructions (js "curl -fsSL " ++ base ++ js "/install.sh | sh") (js "irm " ++ base ++ js "/install.ps1 | iex") (base ++ js "/device"))
  | modal =>
      let* sandbox := tx (createSandbox (fc_accountId ctx) (fc_workspaceId ctx) modal (default (js "modal-box") (nonEmpty (trim <$> name))) None) in
      Ret (Provisioned sandbox)
  end.

(** ** What the fleet keeps *)

Lemma pretty_go_nonempty x : forall s, s <> EmptyString -> pretty.pretty_N_go x s <> EmptyString.
Proof.
  induction (N.lt_wf_0 x) as [x _ IH]. intros s Hs. destruct (decide (x = 0%N)) as [->|Hx]; [by rewrite pretty.pretty_N_go_0|].
  rewrite pretty.pretty_N_go_step by lia. apply IH; [apply N.div_lt; lia|done].
Qed.
Lemma generated_nonempty n : nonEmpty (Some (generated n)) = Some (generated n).
Proof.
  assert (pretty.pretty n <> EmptyString) as Hn.
  { change (pretty.pretty n) with (pretty.pretty_N (N.of_nat n)). unfold pretty.pretty_N. case_decide as Hx; [done|]. rewrite pretty.pretty_N_go_step by lia. by apply pretty_go_nonempty. }
  unfold generated, nonEmpty. destruct (pretty.pretty n) as [|a t]; [done|]. reflexivity.
Qed.

(** An enrollment of a workspace. *)
Definition enrolled (workspaceId enrollmentId : jstr) (d : MachineDb) : Prop :=
  exists e, e ∈ enrollments d /\ e_id e = enrollmentId /\ e_workspaceId e = workspaceId.
Lemma enrolled_get ws i d : enrolled ws i d -> exists e, getEnrollment ws i d = Some e.
Proof.
  intros (e & Hin & <- & <-). unfold getEnrollment. destruct (List.find _ _) as [e'|] eqn:E; [by exists e'|].
  assert (enrollmentOf (e_workspaceId e) (e_id e) e = false) as Hf by (apply (find_none _ _ E); by apply list_elem_of_In).
  unfold enrollmentOf in Hf. by rewrite !(proj2 (same_eq _ _)) in Hf.
Qed.
Lemma enrolled_kept ws i d d' : enrollments_kept d d' -> enrolled ws i d -> enrolled ws i d'.
Proof. intros Hk (e & Hin & <- & <-). destruct (Hk e Hin) as (e' & Hin' & Hi & Hw & _). by exists e'. Qed.

(** A machine's sandbox, with its enrollment. *)
Definition machine_sandbox (d : MachineDb) (b : SandboxRow) : Prop :=
  b_kind b = selfhosted -> exists n, b_enrollmentId b = Some (generated n) /\ enrolled (b_workspaceId b) (generated n) d.
(** Null, or a machine of the session's workspace. *)
Definition pointer_ok (d : MachineDb) (s : PointerRow) : Prop := forall id, s_activeSandboxId s = Some id ->
  exists b, b ∈ sandboxes d /\ b_id b = id /\ b_workspaceId b = s_workspaceId s /\ b_kind b = selfhosted.
Record fleet_ok (d : MachineDb) : Prop := {
  fo_sandboxes : numbered b_id (nextId d) (sandboxes d);
  fo_machines : forall b, b ∈ sandboxes d -> machine_sandbox d b;
  fo_pointers : forall s, s ∈ pointers d -> pointer_ok d s;
  fo_sessions : NoDup (List.map s_id (pointers d))
}.

(** A pointer moves on with its epoch, or falls back to null with its sandbox. *)
Definition follows (p p' : ActiveSandboxPointer) : Prop :=
  activeEpoch p < activeEpoch p' \/
  activeEpoch p = activeEpoch p' /\ workingDir p = workingDir p' /\ (activeSandboxId p' = activeSandboxId p \/ activeSandboxId p' = None).
Record fleet_later (d d' : MachineDb) : Prop := {
  fl_next : (nextId d <= nextId d')%nat;
  fl_sandboxes : forall b, b ∈ sandboxes d' -> b ∈ sandboxes d \/ exists n, b_id b = generated n /\ (nextId d <= n)%nat;
  fl_pointers : forall ws id p, readActiveSandbox ws id d = Some p -> exists p', readActiveSandbox ws id d' = Some p' /\ follows p p'
}.
#[export] Instance follows_preorder : PreOrder follows.
Proof.
  split; [intros p; right; split_and!; [done|done|by left]|]. intros p1 p2 p3 [H1|(E1 & W1 & T1)] [H2|(E2 & W2 & T2)]; [left; lia..|].
  right. split_and!; [congruence|congruence|]. destruct T2 as [T2|T2]; [|by right]. rewrite T2. done.
Qed.
#[export] Instance fleet_later_preorder : PreOrder fleet_later.
Proof.
  split; [intros d; split; [done|by left|intros ws id p Hp; by exists p]|]. intros d1 d2 d3 [N1 B1 P1] [N2 B2 P2]. split.
  - lia.
  - intros b [Hb|(n & Hn & Hl)]%B2; [by apply B1|]. right. exists n. split; [done|lia].
  - intros ws id p Hp. destruct (P1 ws id p Hp) as (p2 & Hp2 & F2). destruct (P2 ws id p2 Hp2) as (p3 & Hp3 & F3). exists p3. split; [done|by etransitivity].
Qed.
Lemma follows_epoch p p' : follows p p' -> activeEpoch p <= activeEpoch p'.
Proof. intros [H|(H & _)]; lia. Qed.

(** Steps that leave sandboxes and pointers alone, or add a machine. *)
Lemma fleet_same d d' : sandboxes d' = sandboxes d -> pointers d' = pointers d -> enrollments_kept d d' -> (nextId d <= nextId d')%nat -> fleet_ok d ->
  fleet_ok d' /\ fleet_later d d'.
Proof.
  intros Hb Hp Hk Hn [F1 F2 F3 F4]. split; split.
  - rewrite Hb. by apply (numbered_later b_id (nextId d)).
  - rewrite Hb. intros b Hin Hs. destruct (F2 b Hin Hs) as (n & Hi & He). exists n. split; [done|by apply (enrolled_kept _ _ d)].
  - rewrite Hp. intros s Hin id Hid. destruct (F3 s Hin id Hid) as (b & Hinb & Hrest). exists b. by rewrite Hb.
  - by rewrite Hp.
  - done.
  - rewrite Hb. by left.
  - intros ws id p Hr. exists p. split; [|reflexivity]. unfold readActiveSandbox, sessionRow in *. by rewrite Hp.
Qed.
Lemma fleet_append d d' b : sandboxes d' = sandboxes d ++ [b] -> pointers d' = pointers d -> enrollments d' = enrollments d -> nextId d' = S (nextId d) ->
  b_id b = generated (nextId d) -> machine_sandbox d b -> fleet_ok d -> fleet_ok d' /\ fleet_later d d'.
Proof.
  intros Hb Hp He Hn Hi Hm [F1 F2 F3 F4]. split; split.
  - rewrite Hb, Hn. by apply numbered_append.
  - rewrite Hb. unfold machine_sandbox, enrolled. rewrite He. intros b' [Hin|Hin%list_elem_of_singleton]%elem_of_app; [by apply F2|]. by subst b'.
  - rewrite Hp. intros s Hin id Hid. destruct (F3 s Hin id Hid) as (b' & Hinb & Hrest). exists b'. rewrite Hb. split; [apply elem_of_app; by left|done].
  - by rewrite Hp.
  - lia.
  - rewrite Hb. intros b' [Hin|Hin%list_elem_of_singleton]%elem_of_app; [by left|]. subst b'. right. exists (nextId d). split; [done|lia].
  - intros ws id p Hr. exists p. split; [|reflexivity]. unfold readActiveSandbox, sessionRow in *. by rewrite Hp.
Qed.

(** The enrollment plane. *)
Lemma createEnrollment_fleet i now d e d' : createEnrollment i now d = Ok (e, d') -> sandboxes d' = sandboxes d /\ pointers d' = pointers d.
Proof. unfold createEnrollment. destruct (List.find _ _); [by intros [= <- <-]|]. destruct (getWorkspace _ _); [|done]. by intros [= <- <-]. Qed.

Definition fleet_inv (d : MachineDb) : Prop := machines_ok d /\ fleet_ok d.

Lemma finalize_fleet i name now d e b d' : finalizeEnrollmentInScope i name now d = Ok ((e, b), d') -> fleet_inv d -> fleet_ok d' /\ fleet_later d d'.
Proof.
  intros Hf [Hm Hok]. unfold finalizeEnrollmentInScope in Hf. destruct (createEnrollment i now d) as [[e1 d1]|] eqn:Hc; [|done].
  destruct (createEnrollment_fleet _ _ _ _ _ Hc) as [Hb Hp]. destruct (ok_create _ _ _ _ _ Hc Hm) as (Hm1 & Hk & Hw & _ & e' & Hin & Hi & Hw' & _).
  assert (nextId d <= nextId d1)%nat as Hn by (destruct (createEnrollment_is _ _ _ _ _ Hc) as (_ & _ & _ & _ & [(_ & _ & E)|(_ & _ & E)]); lia).
  destruct (fleet_same d d1 Hb Hp Hk Hn Hok) as [Hok1 Hl]. destruct (List.find _ _) as [b0|].
  - injection Hf as <- <- <-. done.
  - injection Hf as <- <- <-. match goal with |- fleet_ok ?d2 /\ _ => destruct (fleet_append d1 d2 {| b_id := generated (nextId d1); b_accountId := mi_accountId i;
      b_workspaceId := mi_workspaceId i; b_kind := selfhosted; b_name := name; b_enrollmentId := Some (e_id e1); b_createdAt := now |}) as [Hok2 Hl2]; try done end.
    + intros _. cbn. destruct (proj2 (ok_enrollments _ Hm1) e' Hin) as (n & Hn' & _). rewrite <- Hi, Hn'. exists n. split; [done|]. exists e'. split_and!; [done|done|congruence].
    + split; [done|by etransitivity].
Qed.


#[export] Instance fleet_kept : Keeps fleet_inv fleet_later (fun _ => True).
Proof.
  split.
  - intros a d [Hm Hf]. destruct (keep_access (Keeps := requests_kept) a d Hm) as [Hm' _].
    destruct (fleet_same d (putAccess a d)) as [Hf' Hl]; try done. by apply kept_same.
  - intros i dc uc ex d q d' _ [Hm Hf] Hc. destruct (keep_start (Keeps := requests_kept) i dc uc ex d q d' I Hm Hc) as [Hm' [_ Hk]].
    assert (sandboxes d' = sandboxes d /\ pointers d' = pointers d /\ nextId d' = S (nextId d)) as (Hb & Hp & Hn).
    { unfold createDeviceEnrollmentRequest in Hc. destruct (existsb _ _); [done|]. destruct (getWorkspace _ _); [|done]. by injection Hc as <- <-. }
    destruct (fleet_same d d' Hb Hp Hk) as [Hf' Hl]; [lia|done|]. by split.
  - intros i name now d [e b] d' _ Hi Hf. destruct (keep_finalize (Keeps := requests_kept) i name now d (e, b) d' I (proj1 Hi) Hf) as [Hm' _].
    destruct (finalize_fleet _ _ _ _ _ _ _ Hf Hi). by split.
  - intros i now d r d' Hi Ha. destruct (keep_approve (Keeps := requests_kept) i now d r d' (proj1 Hi) Ha) as [Hm' _].
    destruct (approve_is _ _ _ _ _ Ha) as [[-> _]|(q & e & b & d1 & _ & _ & _ & _ & _ & Hf & _ & He & Hn & Hb & Hp)]; [split; [done|reflexivity]|].
    destruct (finalize_fleet _ _ _ _ _ _ _ Hf Hi) as [Hf1 Hl1]. destruct (fleet_same d1 d' Hb Hp) as [Hf2 Hl2]; [by apply kept_same|lia|done|]. split; [done|by etransitivity].
  - intros ws id d [Hm Hf]. destruct (keep_deny (Keeps := requests_kept) ws id d Hm) as [Hm' [_ Hk]]. destruct (fleet_same d (denyDeviceEnrollmentRequest ws id d).2) as [Hf' Hl]; done.
  - intros ws id d [Hm Hf]. destruct (keep_consume (Keeps := requests_kept) ws id d Hm) as [Hm' [_ Hk]]. destruct (fleet_same d (consumeDeviceEnrollmentRequest ws id d).2) as [Hf' Hl]; done.
  - intros p f ws id d Hmild [Hm Hf]. destruct (keep_update (Keeps := requests_kept) p f ws id d Hmild Hm) as [Hm' [_ Hk]]. destruct (fleet_same d (updateEnrollment p f ws id d).2) as [Hf' Hl]; done.
Qed.

(** ** Swaps among others *)

(** A machine of the workspace that was seen before. *)
Definition seen (ws t : jstr) (d : MachineDb) : Prop :=
  exists d0 b, fleet_inv d0 /\ fleet_later d0 d /\ b ∈ sandboxes d0 /\ b_id b = t /\ b_workspaceId b = ws /\ b_kind b = selfhosted.
Lemma seen_later ws t d d' : fleet_later d d' -> seen ws t d -> seen ws t d'.
Proof. intros Hl (d0 & b & Hi & Hl0 & Hrest). exists d0, b. split; [done|split; [by etransitivity|done]]. Qed.
(** The row a seen machine still has. *)
Lemma seen_row ws t d b : seen ws t d -> b ∈ sandboxes d -> b_id b = t -> b_workspaceId b = ws /\ b_kind b = selfhosted.
Proof.
  intros (d0 & b0 & [_ F0] & Hl & Hin0 & Hi0 & Hw0 & Hk0) Hin Hi. destruct (fl_sandboxes _ _ Hl b Hin) as [Hin'|(n & Hn & Hle)].
  - assert (b = b0) as ->; [|done]. apply (numbered_unique b_id (nextId d0) (sandboxes d0)); [apply F0|done|done|congruence].
  - exfalso. destruct (proj2 (fo_sandboxes _ F0) b0 Hin0) as (m & Hm & Hlt). rewrite Hi0, <- Hi, Hn in Hm. apply generated_inj in Hm. lia.
Qed.

Definition allowed (ws : jstr) (target : option jstr) (d : MachineDb) : Prop := match target with Some t => seen ws t d | None => True end.

Lemma session_after mine f ws id d d' : pointers d' = update_where mine f (pointers d) -> (forall s, s_workspaceId (f s) = s_workspaceId s /\ s_id (f s) = s_id s) ->
  forall p, readActiveSandbox ws id d = Some p ->
  exists s, sessionRow ws id d = Some s /\ p = pointerOf s /\ readActiveSandbox ws id d' = Some (pointerOf (if mine s then f s else s)).
Proof.
  unfold readActiveSandbox, sessionRow. intros Hp Hf p. destruct (List.find _ (pointers d)) as [s|] eqn:E; [|done]. intros [= <-]. exists s. split_and!; [done|done|].
  rewrite Hp, find_update_where; [by rewrite E|]. intros s' _. unfold sessionIs. by destruct (Hf s') as [-> ->].
Qed.

Lemma sessions_updated p f d t : t = update_where p f (pointers d) -> (forall s, s_id (f s) = s_id s) -> NoDup (List.map s_id (pointers d)) -> NoDup (List.map s_id t).
Proof. intros -> Hf H. by rewrite map_update_where. Qed.
Lemma swap_keeps i d p d' : allowed (sw_workspaceId i) (sw_target i) d -> fleet_inv d -> setActiveSandbox i d = Ok (p, d') -> fleet_inv d' /\ fleet_later d d'.
Proof.
  intros Ha [Hm Hf]. unfold setActiveSandbox. set (mine := fun s => sessionIs _ _ s && _). destruct (List.find mine (pointers d)) as [s0|]; [|intros [= _ <-]; split; [done|reflexivity]].
  destruct (match sw_target i with Some t => _ | None => _ end) eqn:Et; [done|]. intros [= _ <-]. split; [split; [by apply (ok_tables d)|]|]; split.
  - apply Hf.
  - apply Hf.
  - intros s (s1 & Hin & ->)%elem_of_update_where. destruct (mine s1) eqn:E; [|exact (fo_pointers _ Hf s1 Hin)].
    unfold mine in E. apply andb_true_iff in E as [[Hws%same_eq _]%andb_true_iff _]. intros id Hid. cbn in Hid. rewrite Hid in Et, Ha.
    apply negb_false_iff, existsb_exists in Et as (b & Hb%list_elem_of_In & Hi%same_eq). exists b. destruct (seen_row _ _ _ _ Ha Hb Hi) as [Hbw Hbk]. split_and!; [done|done| |done].
    cbn. congruence.
  - eapply (sessions_updated _ _ d); [reflexivity|done|by apply fo_sessions].
  - done.
  - by left.
  - intros ws id q Hq. match goal with |- exists p', readActiveSandbox _ _ ?d2 = _ /\ _ =>
      destruct (session_after mine (repoint i) ws id d d2 eq_refl (fun s => conj eq_refl eq_refl) q Hq) as (s & _ & -> & Hs) end. eexists. split; [exact Hs|].
    destruct (mine s); [|reflexivity]. left. cbn. lia.
Qed.

Lemma deleted_keeps id d : fleet_inv d -> fleet_inv (sandboxDeleted id d) /\ fleet_later d (sandboxDeleted id d).
Proof.
  intros [Hm Hf]. assert (forall b, b ∈ delete_where (fun b => same (b_id b) id) (sandboxes d) <-> b ∈ sandboxes d /\ b_id b <> id) as Hd.
  { intros b. unfold delete_where. rewrite list_elem_of_In, filter_In, <- list_elem_of_In, negb_true_iff, <- not_true_iff_false, same_eq. done. }
  split; [split; [by apply (ok_tables d)|]|]; split.
  - cbn. by apply numbered_delete, fo_sandboxes.
  - intros b [Hb _]%Hd. by apply (fo_machines _ Hf).
  - intros s (s1 & Hin & ->)%elem_of_update_where id' Hid. destruct (isValue (s_activeSandboxId s1) id) eqn:E; [done|].
    destruct (fo_pointers _ Hf s1 Hin id' Hid) as (b & Hb & Hbi & Hrest). exists b. split; [apply Hd; split; [done|]|done]. rewrite Hbi. intros ->. rewrite Hid in E. cbn in E. by rewrite (proj2 (same_eq _ _)) in E.
  - eapply (sessions_updated _ _ d); [reflexivity|done|by apply fo_sessions].
  - done.
  - intros b [Hb _]%Hd. by left.
  - intros ws sid q Hq. match goal with |- exists p', readActiveSandbox _ _ ?d2 = _ /\ _ =>
      destruct (session_after (fun s => isValue (s_activeSandboxId s) id) (fun s => s <| s_activeSandboxId := None |>) ws sid d d2 eq_refl (fun s => conj eq_refl eq_refl) q Hq)
        as (s & _ & -> & Hs) end. eexists. split; [exact Hs|]. destruct (isValue _ _); [|reflexivity]. right. split_and!; [done|done|by right].
Qed.

Lemma created_keeps id ws backend group now d : fleet_inv d -> fleet_inv (sessionCreated id ws backend group now d) /\ fleet_later d (sessionCreated id ws backend group now d).
Proof.
  intros Hi. unfold sessionCreated. destruct (existsb _ _) eqn:Ex; [split; [done|reflexivity]|]. destruct Hi as [Hm Hf]. split; [split; [by apply (ok_tables d)|]|]; split.
  - apply Hf.
  - apply Hf.
  - intros s [Hin|Hin%list_elem_of_singleton]%elem_of_app; [by apply (fo_pointers _ Hf)|]. by subst s.
  - match goal with |- NoDup ?t => assert (t = List.map s_id (pointers d) ++ [id]) as -> by apply List.map_app end.
    apply NoDup_app. split_and!; [apply Hf| |apply NoDup_singleton]. intros k (s & Hk & Hs)%list_elem_of_fmap ->%list_elem_of_singleton.
    assert (existsb (fun s' => same (s_id s') id) (pointers d) = true) as Hc; [|congruence].
    apply existsb_exists. exists s. split; [by apply list_elem_of_In|by apply same_eq].
  - done.
  - by left.
  - intros ws' id' p. unfold readActiveSandbox, sessionRow. cbn. rewrite find_appended. destruct (List.find _ (pointers d)); [|done]. intros [= <-]. by eexists.
Qed.

Lemma sandbox_keeps a ws name now d b d' : createSandbox a ws modal name None now d = Ok (b, d') -> fleet_inv d -> fleet_inv d' /\ fleet_later d d'.
Proof.
  unfold createSandbox. cbn [nonEmpty]. destruct (getWorkspace _ _); [|done]. intros [= <- <-] [Hm Hf].
  match goal with |- fleet_inv ?d2 /\ _ => assert (machines_ok d2) as Hm2 by (apply (ok_tables d); try done; cbn; lia);
    match goal with |- context [[?b]] => destruct (fleet_append d d2 b) as [Hf2 Hl]; try done end end.
Qed.

(** The machine of a pointer. *)
Lemma pointer_machine d row id : fleet_inv d -> row ∈ pointers d -> s_activeSandboxId row = Some id ->
  exists b i e, getSandbox (s_workspaceId row) id d = Some b /\ b_id b = id /\ swapTargetEstablishability (b_kind b) false = None /\
    nonEmpty (b_enrollmentId b) = Some i /\ getEnrollment (s_workspaceId row) i d = Some e.
Proof.
  intros [Hm Hf] Hin Hid. destruct (fo_pointers _ Hf row Hin id Hid) as (b & Hb & Hbi & Hbw & Hbk).
  destruct (fo_machines _ Hf b Hb Hbk) as (n & Hn & He). rewrite Hbw in He. destruct (enrolled_get _ _ _ He) as [e He'].
  exists b, (generated n), e. rewrite Hbk, Hn, generated_nonempty. split_and!; try done.
  unfold getSandbox. destruct (List.find _ (sandboxes d)) as [b'|] eqn:E.
  - apply List.find_some in E as [Hb'%list_elem_of_In [_ Hi%same_eq]%andb_true_iff]. f_equal. apply (numbered_unique b_id (nextId d) (sandboxes d)); [apply Hf|done|done|congruence].
  - exfalso. assert (sandboxIs (s_workspaceId row) id b = false) as Hf' by (apply (find_none _ _ E); by apply list_elem_of_In).
    unfold sandboxIs in Hf'. by rewrite !(proj2 (same_eq _ _)) in Hf'.
Qed.

(** The fleet's work, next to the enrollment plane's. *)
Section fleet.
Context `{tokens : TokenPlatform} `{digests : DigestPlatform} `{nkeys : NkeyPlatform} (settings : MachineSettings).

Inductive fleet_task : Handler unit -> Prop :=
| ft_machine m : machine_task settings (fun _ => True) m -> fleet_task m
| ft_swap accountId ws sid target dir pong at_ : fleet_task (ended (let* ctx := buildFleetContextForSession accountId ws sid in swapActiveSandbox ctx target dir pong at_))
| ft_list accountId ws sid pongs at_ : fleet_task (ended (let* ctx := buildFleetContextForSession accountId ws sid in listFleet ctx pongs at_))
| ft_runOn perform accountId ws sid target op : fleet_task (ended (let* ctx := buildFleetContextForSession accountId ws sid in runOnSandbox perform ctx target op))
| ft_provision url accountId ws sid kind name : fleet_task (ended (let* ctx := buildFleetContextForSession accountId ws sid in provisionSandbox url ctx kind name))
| ft_session id ws backend group : fleet_task (write (sessionCreated id ws backend group))
| ft_delete id : fleet_task (write (fun _ => sandboxDeleted id)).

Abbreviation safe := (safe (E := AccessError) (O := Outgoing) fleet_inv fleet_later).
Abbreviation wp := (wp (E := AccessError) (O := Outgoing) fleet_inv fleet_later).

Lemma safe_current ctx d : safe (currentPointer ctx) d.
Proof. apply safe_bind; [apply safe_read|done]. Qed.

Lemma safe_attempts attempts ctx target dir : forall d, allowed (fc_workspaceId ctx) target d -> safe (swapAttempts attempts ctx target dir) d.
Proof.
  induction attempts as [|n IH]; intros d Ha; cbn [swapAttempts]; [apply safe_bind; [apply safe_current|done]|].
  assert (wp (currentPointer ctx) (fun _ d1 => allowed (fc_workspaceId ctx) target d1) d) as Hcur.
  { unfold currentPointer. apply (wp_then _ _ (fun _ d1 => allowed (fc_workspaceId ctx) target d1)); [|done]. apply (wp_read fleet_inv fleet_later).
    intros d1 Hl _. destruct target; [by apply (seen_later _ _ d)|done]. }
  eapply wp_then; [exact Hcur|]. intros pointer d1 Ha1. cbn beta. destruct (bool_decide _); [done|].
  apply (wp_then _ _ (fun _ d2 => allowed (fc_workspaceId ctx) target d2)).
  - apply (wp_tx fleet_inv fleet_later). intros d2 now p d3 Hl Hi Hop. assert (allowed (fc_workspaceId ctx) target d2) as Ha2 by (destruct target; [by apply (seen_later _ _ d1)|done]).
    eapply swap_keeps in Hop as [Hi3 Hl3]; [|exact Ha2|exact Hi]. split_and!; [done|done|]. destruct target; [by apply (seen_later _ _ d2)|done].
  - intros [p|] d2 Ha2; [done|by apply IH].
Qed.

(** A target that resolves names a machine of the workspace. *)
Lemma wp_target ctx target pong at_ d : wp (resolveTarget ctx target pong at_) (fun r d1 => match r with Ok t => allowed (fc_workspaceId ctx) t d1 | Err _ => True end) d.
Proof.
  unfold resolveTarget. destruct (_ || _); [done|].
  apply (wp_then _ _ (fun b d1 => match b with Some b => seen (fc_workspaceId ctx) (b_id b) d1 \/ b_kind b = modal | None => True end)).
  - apply (wp_read fleet_inv fleet_later). intros d1 _ Hi. destruct (getSandbox _ _ d1) as [b|] eqn:E; [|done]. unfold getSandbox in E.
    apply List.find_some in E as [Hin%list_elem_of_In [Hw%same_eq Hb%same_eq]%andb_true_iff]. destruct (b_kind b) eqn:Ek; [by right|left]. exists d1, b. by split_and!.
  - intros [b|] d1 Hb; [|done]. destruct (b_kind b) eqn:Ek; cbn [swapTargetEstablishability]; [done|]. destruct Hb as [Hb|]; [|congruence].
    destruct (nonEmpty _); [|done].
    apply (wp_then _ _ (fun _ d2 => seen (fc_workspaceId ctx) (b_id b) d2)); [apply (wp_read fleet_inv fleet_later); intros d2 Hl _; by apply (seen_later _ _ d1)|].
    intros [e|] d2 Hb2; [|done]. cbn. by destruct (bool_decide _).
Qed.

Lemma safe_swap ctx target dir pong at_ d : safe (swapActiveSandbox ctx target dir pong at_) d.
Proof.
  unfold swapActiveSandbox. eapply wp_then; [apply wp_target|]. intros [t|code] d1 Ht; [by apply safe_attempts|]. apply safe_bind; [apply safe_current|done].
Qed.

Lemma safe_context accountId ws sid d : safe (buildFleetContextForSession accountId ws sid) d.
Proof. apply safe_bind; [apply safe_read|]. intros [s|] d1; [|done]. by destruct (same _ _). Qed.

Lemma safe_entries ctx pointer pongs at_ rows : forall d, safe (fleetEntries ctx pointer pongs at_ rows) d.
Proof.
  induction rows as [|b rows IH]; intros d; cbn [fleetEntries]; [done|]. destruct (b_kind b); [apply IH|]. destruct (nonEmpty (b_enrollmentId b)); [|apply IH].
  apply safe_bind; [apply safe_read|]. intros e d1. apply safe_bind; [apply IH|done].
Qed.

Lemma safe_runOn perform ctx target op d : safe (runOnSandbox perform ctx target op) d.
Proof.
  apply safe_bind; [apply safe_read|]. intros [b|] d1; [|done]. destruct (b_kind b); [done|]. destruct (nonEmpty (b_enrollmentId b)); [|done].
  apply safe_bind; [apply safe_read|]. intros [e|] d2; [|done]. by destruct (negb _).
Qed.

Lemma safe_provision url ctx kind name d : safe (provisionSandbox url ctx kind name) d.
Proof.
  destruct kind; [|done]. apply safe_bind; [|done]. apply (wp_tx fleet_inv fleet_later). intros d1 now b d2 _ Hi Hop.
  destruct (sandbox_keeps _ _ _ _ _ _ _ Hop Hi). done.
Qed.

Lemma safe_fleet_task m d : fleet_task m -> safe m d.
Proof.
  destruct 1 as [m Hm|accountId ws sid target dir pong at_|accountId ws sid pongs at_|perform accountId ws sid target op|url accountId ws sid kind name|id ws backend group|id].
  - by apply (safe_machine_task settings fleet_inv fleet_later (fun _ => True)).
  - apply safe_bind; [|done]. apply safe_bind; [apply safe_context|]. intros ctx d1. apply safe_swap.
  - apply safe_bind; [|done]. apply safe_bind; [apply safe_context|]. intros ctx d1. apply safe_bind; [apply safe_current|]. intros pointer d2.
    apply safe_bind; [apply safe_read|]. intros rows d3. apply safe_bind; [apply safe_entries|done].
  - apply safe_bind; [|done]. apply safe_bind; [apply safe_context|]. intros ctx d1. apply safe_runOn.
  - apply safe_bind; [|done]. apply safe_bind; [apply safe_context|]. intros ctx d1. apply safe_provision.
  - apply (wp_tx fleet_inv fleet_later). intros d1 now r d2 _ Hi [= _ <-]. destruct (created_keeps id ws backend group now d1 Hi). done.
  - apply (wp_tx fleet_inv fleet_later). intros d1 now r d2 _ Hi [= _ <-]. destruct (deleted_keeps id d1 Hi). done.
Qed.

Lemma empty_fleet_inv : fleet_inv emptyMachines.
Proof. split; [exact empty_machines_ok|]. split; cbn; [split; [constructor|by intros ? ?%elem_of_nil]|by intros ? ?%elem_of_nil..|constructor]. Qed.

Lemma fleet_evolves s s' : rtc (pool fleet_task) (emptyMachines, []) s -> rtc (pool fleet_task) s s' -> fleet_inv s.1 /\ fleet_inv s'.1 /\ fleet_later s.1 s'.1.
Proof.
  intros H1 H2. destruct (pool_evolves fleet_inv fleet_later fleet_task _ _ safe_fleet_task H1 empty_fleet_inv (List.Forall_nil _)) as (Hi & _ & Hts).
  destruct (pool_evolves fleet_inv fleet_later fleet_task _ _ safe_fleet_task H2 Hi Hts) as (Hi' & Hl & _). done.
Qed.

(** Whatever runs, the pointer of a session is null or names a machine of the
    session's workspace that a turn can address: it has a sandbox, of a kind that
    can be established, and the sandbox has an enrollment. *)
Theorem pointer_establishable s row id : rtc (pool fleet_task) (emptyMachines, []) s -> row ∈ pointers s.1 -> s_activeSandboxId row = Some id ->
  exists b i e, getSandbox (s_workspaceId row) id s.1 = Some b /\ b_id b = id /\ swapTargetEstablishability (b_kind b) false = None /\
    nonEmpty (b_enrollmentId b) = Some i /\ getEnrollment (s_workspaceId row) i s.1 = Some e.
Proof. intros H. apply pointer_machine. by destruct (fleet_evolves _ _ H (rtc_refl _ _)) as (Hi & _). Qed.

Lemma pointer_unique ws id d r : fleet_ok d -> r ∈ pointers d -> sessionIs ws id r = true -> sessionRow ws id d = Some r.
Proof.
  intros Hf Hin Hr. unfold sessionRow. destruct (List.find _ _) as [r'|] eqn:E.
  - apply List.find_some in E as [Hin'%list_elem_of_In Hr']. f_equal. unfold sessionIs in *. apply andb_true_iff in Hr as [_ Hr%same_eq], Hr' as [_ Hr'%same_eq].
    apply (select_unique s_id id (pointers d)); [apply Hf|done..].
  - exfalso. pose proof (find_none _ _ E r (proj1 (list_elem_of_In _ _) Hin)) as Hn. cbn in Hn. congruence.
Qed.

(** (C18) Of the swaps that read the same epoch one commits: once it has, no other swap
    that expects this epoch, or an earlier one, ever does. *)
Theorem one_swap_per_epoch s i p d' ts s' j :
  rtc (pool fleet_task) (emptyMachines, []) s -> setActiveSandbox i s.1 = Ok (Some p, d') -> rtc (pool fleet_task) (emptyMachines, []) (d', ts) -> rtc (pool fleet_task) (d', ts) s' ->
  sw_workspaceId j = sw_workspaceId i -> sw_sessionId j = sw_sessionId i -> sw_expectedEpoch j <= sw_expectedEpoch i ->
  activeEpoch p = sw_expectedEpoch i + 1 /\ activeSandboxId p = sw_target i /\ setActiveSandbox j s'.1 = Ok (None, s'.1).
Proof.
  intros H0 Hset H1 H2 Hws Hid Hle. destruct (fleet_evolves _ _ H1 H2) as (_ & _ & Hl). unfold setActiveSandbox in Hset. set (mine := fun r => sessionIs _ _ r && _) in Hset.
  destruct (List.find mine (pointers s.1)) as [r|] eqn:E; [|done]. destruct (match sw_target i with Some t => _ | None => _ end); [done|]. injection Hset as <- <-.
  apply List.find_some in E as [Hin [Hr He%Z.eqb_eq]%andb_true_iff]. split; [cbn; lia|split; [done|]].
  destruct (fleet_evolves _ _ H0 (rtc_refl _ _)) as ([_ Hf0] & _).
  assert (readActiveSandbox (sw_workspaceId i) (sw_sessionId i) s.1 = Some (pointerOf r)) as Hp by (unfold readActiveSandbox; by rewrite (pointer_unique _ _ _ _ Hf0 (proj2 (list_elem_of_In _ _) Hin) Hr)).
  match type of Hl with fleet_later ?d2 _ => destruct (session_after mine (repoint i) _ _ s.1 d2 eq_refl (fun s => conj eq_refl eq_refl) _ Hp) as (r' & Hr' & Heq & Hp') end.
  rewrite (pointer_unique _ _ _ _ Hf0 (proj2 (list_elem_of_In _ _) Hin) Hr) in Hr'. injection Hr' as <-.
  unfold mine in Hp'. rewrite Hr, He, Z.eqb_refl in Hp'. cbn [andb] in Hp'. destruct (fl_pointers _ _ Hl _ _ _ Hp') as (p2 & Hp2 & Hfol%follows_epoch). cbn in Hfol.
  destruct (fleet_evolves _ _ H1 H2) as (_ & [_ Hf2] & _). unfold setActiveSandbox. rewrite find_all_false; [done|].
  intros x Hx. rewrite Hws, Hid. apply not_true_iff_false. intros [Hxs Hxe%Z.eqb_eq]%andb_true_iff.
  unfold readActiveSandbox in Hp2. rewrite (pointer_unique _ _ _ _ Hf2 Hx Hxs) in Hp2. injection Hp2 as <-. cbn in Hfol. lia.
Qed.

(** The verdict on a target. *)
Definition admits (ctx : FleetContext) (target : jstr) (pong : bool) (at_ : Z) (d : MachineDb) : result BackendUnresolvableCode (option jstr) :=
  if same target (fc_sessionGroupId ctx) || same target (js "session") || same target (js "default") then Ok None
  else match getSandbox (fc_workspaceId ctx) target d with
       | None => Err stale_pointer
       | Some b =>
           match b_kind b, nonEmpty (b_enrollmentId b) ≫= fun i => getEnrollment (fc_workspaceId ctx) i d with
           | modal, _ => Err unsupported_backend_context
           | selfhosted, None => Err offline_enrollment
           | selfhosted, Some e => if bool_decide (state (probeEnrollment e pong at_) = online) then Ok (Some target) else Err offline_enrollment
           end
       end.
(** The pointer after a swap. *)
Definition moved (target : option jstr) (dir : option (option jstr)) (p : ActiveSandboxPointer) : ActiveSandboxPointer :=
  if bool_decide (activeSandboxId p = target) then p
  else {| activeSandboxId := target; activeEpoch := activeEpoch p + 1; workingDir := default (workingDir p) dir |}.

Lemma exec_resolve now ctx target pong at_ d : exec now (resolveTarget ctx target pong at_) d = (Ok (admits ctx target pong at_ d), [], d).
Proof.
  unfold resolveTarget, admits. destruct (_ || _); [done|]. rewrite exec_read. destruct (getSandbox _ _ d) as [b|] eqn:E; [|done].
  unfold getSandbox in E. apply List.find_some in E as [_ [_ Hb%same_eq]%andb_true_iff]. destruct (b_kind b); [done|]. cbn [swapTargetEstablishability].
  destruct (nonEmpty (b_enrollmentId b)) as [i|]; [|done]. cbn [mbind option_bind]. rewrite exec_read. destruct (getEnrollment _ i d) as [e|]; [|done]. rewrite Hb.
  by destruct (bool_decide _).
Qed.

Lemma exec_current {B} now ctx (k : ActiveSandboxPointer -> Handler B) d :
  exec now (bind (currentPointer ctx) k) d = exec now (k (default noPointer (readActiveSandbox (fc_workspaceId ctx) (fc_sessionId ctx) d))) d.
Proof. done. Qed.

Lemma find_and {A} (p q : A -> bool) l x : List.find p l = Some x -> q x = true -> List.find (fun y => p y && q y) l = Some x.
Proof. intros H Hq. induction l as [|y l IH]; [done|]. cbn in *. destruct (p y) eqn:E; [injection H as ->; by rewrite Hq|by apply IH]. Qed.
Lemma sessionRow_update mine f ws id d t : t = update_where mine f (pointers d) -> (forall s, s_workspaceId (f s) = s_workspaceId s /\ s_id (f s) = s_id s) ->
  List.find (sessionIs ws id) t = (fun s => if mine s then f s else s) <$> sessionRow ws id d.
Proof. intros -> Hf. apply find_update_where. intros s _. unfold sessionIs. by destruct (Hf s) as [-> ->]. Qed.
Lemma admitted_exists ctx target pong at_ d t : admits ctx target pong at_ d = Ok (Some t) -> existsb (fun b => same (b_id b) t) (sandboxes d) = true.
Proof.
  unfold admits. destruct (_ || _); [done|]. destruct (getSandbox _ _ d) as [b|] eqn:E; [|done]. intros H.
  assert (t = target) as -> by (destruct (b_kind b); [done|]; destruct (_ ≫= _); [|done]; destruct (bool_decide _); congruence).
  unfold getSandbox in E. apply List.find_some in E as [Hin [_ Hb]%andb_true_iff]. apply existsb_exists. by exists b.
Qed.

(** A swap that runs alone: a refused target leaves the pointer as it was, an
    admitted one becomes the pointer of the session, one epoch later unless it was
    already, and no other session is touched. *)
Theorem swap_alone now ctx target dir pong at_ d row :
  fleet_inv d -> sessionRow (fc_workspaceId ctx) (fc_sessionId ctx) d = Some row ->
  exists d', exec now (swapActiveSandbox ctx target dir pong at_) d =
      (Ok (match admits ctx target pong at_ d with
           | Ok t => swapAnswer true None (moved t dir (pointerOf row))
           | Err code => swapAnswer false (Some (Unresolvable code)) (pointerOf row)
           end), [], d') /\
    readActiveSandbox (fc_workspaceId ctx) (fc_sessionId ctx) d' = Some (match admits ctx target pong at_ d with Ok t => moved t dir (pointerOf row) | Err _ => pointerOf row end) /\
    forall ws sid, (ws, sid) <> (fc_workspaceId ctx, fc_sessionId ctx) -> readActiveSandbox ws sid d' = readActiveSandbox ws sid d.
Proof.
  intros [_ Hf] Hrow. assert (readActiveSandbox (fc_workspaceId ctx) (fc_sessionId ctx) d = Some (pointerOf row)) as Hp by (unfold readActiveSandbox; by rewrite Hrow).
  assert (exec now (swapActiveSandbox ctx target dir pong at_) d =
    exec now (match admits ctx target pong at_ d with
              | Err code => let* pointer := currentPointer ctx in Ret (swapAnswer false (Some (Unresolvable code)) pointer)
              | Ok t => swapAttempts 2 ctx t dir end) d) as ->.
  { unfold swapActiveSandbox. rewrite exec_bind, exec_resolve. by destruct (exec now _ d) as [[r out] d2]. }
  destruct (admits ctx target pong at_ d) as [t|code] eqn:Ea; [|exists d; rewrite exec_current, Hp; by split_and!].
  cbn [swapAttempts]. rewrite exec_current, Hp. change (default noPointer (Some (pointerOf row))) with (pointerOf row). unfold moved. destruct (bool_decide (activeSandboxId (pointerOf row) = t)) eqn:Et; [exists d; by split_and!|].
  pose proof Hrow as Hr. unfold sessionRow in Hr. apply List.find_some in Hr as [Hin Hr]. set (i := {| sw_workspaceId := _ |}).
  assert (setActiveSandbox i d = Ok (Some (pointerOf (repoint i row)), d <| pointers ::= update_where (fun s => sessionIs (sw_workspaceId i) (sw_sessionId i) s && (s_activeEpoch s =? sw_expectedEpoch i)) (repoint i) |>)) as Hset.
  { unfold setActiveSandbox. rewrite (find_and _ _ _ row Hrow) by apply Z.eqb_refl. cbn [sw_target i]. destruct t as [t|]; [|done]. by rewrite (admitted_exists _ _ _ _ _ _ Ea). }
  rewrite (exec_tx _ _ _ _ _ _ Hset). eexists. split; [reflexivity|]. unfold readActiveSandbox, sessionRow in Hrow |- *. split.
  - erewrite (sessionRow_update _ _ _ _ d) by done. unfold sessionRow. rewrite Hrow. cbn [fmap option_fmap option_map]. cbn [sw_workspaceId sw_sessionId sw_expectedEpoch i].
    rewrite Hr. cbn [pointerOf activeEpoch andb]. by rewrite Z.eqb_refl.
  - intros ws sid Hne. erewrite (sessionRow_update _ _ _ _ d) by done. unfold sessionRow. destruct (List.find (sessionIs ws sid) (pointers d)) as [x|] eqn:Ex; [|done].
    apply List.find_some in Ex as [_ Hx]. cbn [fmap option_fmap option_map]. destruct (sessionIs _ _ x && _) eqn:Em; [|done]. exfalso.
    apply andb_true_iff in Em as [Em _]. unfold sessionIs in Hx, Em. apply andb_true_iff in Hx as [?%same_eq ?%same_eq], Em as [Hw%same_eq Hs%same_eq]. cbn in Hw, Hs. apply Hne. congruence.
Qed.
End fleet.


(** ** Examples *)

#[local] Existing Instance examplePlatform.
#[local] Existing Instance exampleDigest.
#[local] Existing Instance exampleNkeys.

(** A session of Alice's workspace, and her machine. *)
Definition chat : jstr := js "chat".
Definition box : jstr := generated 2.
Definition newChat : Handler unit := write (sessionCreated chat home (js "modal") chat).
Definition chatting : MachineDb := after newChat polled.
Definition chatContext : FleetContext := {| fc_accountId := generated 0; fc_workspaceId := home; fc_sessionId := chat; fc_sessionBackend := js "modal"; fc_sessionGroupId := chat |}.
Definition swapTo (target : jstr) (dir : option (option jstr)) (pong : bool) : Handler FleetSwapResult :=
  let* ctx := buildFleetContextForSession (generated 0) home chat in swapActiveSandbox ctx target dir pong 9000.
Definition onMachine : MachineDb := after (swapTo box (Some (Some (js "/repo"))) true) chatting.

Example swaps :
  answer (swapTo box None true) chatting = Ok {| fs_swapped := true; fs_activeSandboxId := Some box; fs_activeEpoch := 1; fs_code := None |} /\
  answer (swapTo box None false) chatting = Ok {| fs_swapped := false; fs_activeSandboxId := None; fs_activeEpoch := 0; fs_code := Some (Unresolvable offline_enrollment) |} /\
  answer (swapTo (js "nowhere") None true) onMachine = Ok {| fs_swapped := false; fs_activeSandboxId := Some box; fs_activeEpoch := 1; fs_code := Some (Unresolvable stale_pointer) |} /\
  readActiveSandbox home chat (after (swapTo (js "session") None true) onMachine) = Some {| activeSandboxId := None; activeEpoch := 2; workingDir := Some (js "/repo") |}.
Proof. split_and!; vm_compute; reflexivity. Qed.

(** A working directory given with a target the session already has is lost. *)
Example working_dir_dropped :
  (swapped ← match answer (swapTo (js "default") (Some (Some (js "/repo"))) true) chatting with Ok r => Some (fs_swapped r) | Err _ => None end;
   p ← readActiveSandbox home chat (after (swapTo (js "default") (Some (Some (js "/repo"))) true) chatting); Some (swapped, workingDir p)) = Some (true, None).
Proof. vm_compute. reflexivity. Qed.

Example fleet_listed :
  match answer (let* ctx := buildFleetContextForSession (generated 0) home chat in listFleet ctx (fun _ => true) 9000) onMachine with
  | Ok (pointer, entries) => List.map (fun e => (fe_id e, fe_active e, fe_attachable e)) entries = [(chat, false, true); (box, true, true)]
  | Err _ => False
  end.
Proof. vm_compute. reflexivity. Qed.

Definition fleet_reached (d : MachineDb) : Prop := rtc (pool (fleet_task exampleMachines)) (emptyMachines, []) (d, []).
Lemma fleet_step {A} (m : Handler A) d : fleet_task exampleMachines (ended m) -> fleet_reached d -> fleet_reached (after m d).
Proof.
  intros Hm Hd. unfold fleet_reached. transitivity (d, @nil (Handler unit)); [exact Hd|]. assert (after m d = (exec 1 (ended m) d).2) as ->; [|by apply pool_alone].
  unfold after, ended. rewrite exec_bind. by destruct (exec 1 m d) as [[[a|e] out] d1].
Qed.
Lemma reached_chatting : fleet_reached chatting.
Proof.
  unfold fleet_reached, chatting, after. transitivity (polled, @nil (Handler unit)); [|by apply pool_alone, ft_session].
  apply (fleet_step (pollRoute exampleMachines true 1000 (js "device")) agreed); [apply ft_machine, task_poll|].
  apply (fleet_step (approveRoute exampleMachines alice home (js "BCDF-GHJK") false) asked); [apply ft_machine, task_approve|].
  apply (fleet_step (startRoute exampleMachines true 0 exampleCodes exampleStart) signedUp); [by apply ft_machine, task_start|].
  apply (fleet_step (grantFor exampleMachines alice home "enrollments:read") emptyMachines); [apply ft_machine, task_access|].
  left.
Qed.
Lemma reached_onMachine : fleet_reached onMachine.
Proof. apply (fleet_step (swapTo box (Some (Some (js "/repo"))) true) chatting); [apply ft_swap|exact reached_chatting]. Qed.

Definition chatRow (target : option jstr) (epoch : Z) (dir : option jstr) : PointerRow := {|
  s_id := chat; s_workspaceId := home; s_backend := js "modal"; s_groupId := chat; s_activeTurnId := None; s_activeSandboxId := target; s_activeEpoch := epoch;
  s_workingDir := dir; s_createdAt := 1 |}.
Lemma pointer_establishable_witness : exists b, getSandbox home box onMachine = Some b /\ b_kind b = selfhosted.
Proof.
  destruct (pointer_establishable exampleMachines (onMachine, []) (chatRow (Some box) 1 (Some (js "/repo"))) box) as (b & i & e & Hb & _ & Hk & _).
  - exact reached_onMachine.
  - apply (list_elem_of_lookup_2 _ 0). vm_compute. reflexivity.
  - reflexivity.
  - exists b. split; [exact Hb|]. destruct (b_kind b); [discriminate Hk|reflexivity].
Defined.

Definition racing : SwapInput := {| sw_workspaceId := home; sw_sessionId := chat; sw_target := Some box; sw_expectedEpoch := 0; sw_workingDir := Some (Some (js "/repo")) |}.
Lemma one_swap_per_epoch_witness : setActiveSandbox racing onMachine = Ok (None, onMachine).
Proof.
  destruct (one_swap_per_epoch exampleMachines (chatting, []) racing {| activeSandboxId := Some box; activeEpoch := 1; workingDir := Some (js "/repo") |} onMachine []
    (onMachine, []) racing) as (_ & _ & H).
  - exact reached_chatting.
  - vm_compute. reflexivity.
  - exact reached_onMachine.
  - left.
  - reflexivity.
  - reflexivity.
  - reflexivity.
  - exact H.
Defined.

Lemma swap_alone_witness : exists d', exec 1 (swapActiveSandbox chatContext box None true 9000) chatting =
    (Ok {| fs_swapped := true; fs_activeSandboxId := Some box; fs_activeEpoch := 1; fs_code := None |}, [], d').
Proof.
  destruct (swap_alone 1 chatContext box None true 9000 chatting (chatRow None 0 None)) as (d' & H & _).
  - exact (proj1 (fleet_evolves exampleMachines (chatting, []) (chatting, []) reached_chatting (rtc_refl _ _))).
  - vm_compute. reflexivity.
  - exists d'. rewrite H. assert (admits chatContext box true 9000 chatting = Ok (Some box)) as -> by (vm_compute; reflexivity). reflexivity.
Defined.

End Fleet.
