(* ===== verification/FaultRendering.v ===== *)
(** * The faults of a connected machine, as the model reads them
      ([packages/runtime/src/sandbox/selfhosted/fault-rendering.ts])

    Every fault is told in four fields: what happened, in which layer, what was
    preserved and what to try. *)
From S2P Require Import Prelude Json ControlRpc.
#[local] Open Scope Z_scope.
#[local] Open Scope opengeni_scope.

Module FaultRendering.
Import ControlRpc.

Definition errorCodeToJSON (c : ErrorCode) : jstr :=
  js "ERROR_CODE_" ++ js match c with
    | E_UNSPECIFIED => "UNSPECIFIED" | E_UNSUPPORTED => "UNSUPPORTED" | E_OS => "OS" | E_NOT_FOUND => "NOT_FOUND"
    | E_CONSENT_REQUIRED => "CONSENT_REQUIRED" | E_TIMEOUT => "TIMEOUT" | E_DRAINING => "DRAINING" | E_PROTOCOL => "PROTOCOL" | E_STREAM => "STREAM"
    | E_AGENT_OFFLINE => "AGENT_OFFLINE" | E_FENCED => "FENCED" | E_PAYLOAD_TOO_LARGE => "PAYLOAD_TOO_LARGE"
    end.

Record FaultFields := { headline : jstr; happened : jstr; layer : jstr; preserved : jstr; tryNext : jstr }.
Definition newline : jstr := [10].
Definition assemble (e : ControlError) (f : FaultFields) : jstr :=
  js "[connected machine] " ++ headline f ++ newline ++
  js "What happened: " ++ happened f ++ js " (control code " ++ errorCodeToJSON (ce_code e) ++ js ")." ++ newline ++
  js "Which layer: " ++ layer f ++ newline ++
  js "What was preserved: " ++ preserved f ++ newline ++
  js "What to try: " ++ tryNext f.

Definition boundOutput : jstr :=
  js "re-run with the output bounded: redirect to a file (`> /tmp/out.log 2>&1`) then read it " ++
  js "back in ranges/chunks, or slice it with `head -c` / `tail -c` / `head` / `tail`.".
Definition overflowFields (detail : Detail) : FaultFields := {|
  headline := js "the command produced more output than the machine link can deliver";
  happened := js "the machine stopped the command " ++
    (if truthy (text "retained_bytes" detail) then js "after retaining " ++ default [] (text "retained_bytes" detail) ++ js " bytes of output"
     else js "when its output exceeded what the machine can retain for delivery") ++ js " " ++ [8212] ++ js " its output-retention ceiling was reached";
  layer := js "the machine link's output-retention ceiling " ++ [8212] ++ js " the command was terminated at the ceiling, not by its own logic";
  preserved := js "no output was returned, and the command did NOT run to completion " ++ [8212] ++ js " any side effects up to the stop point may have applied.";
  tryNext := boundOutput |}.
Definition tooLargeFields (detail : Detail) : FaultFields := {|
  headline := js "the command's output was too large to return";
  happened := js "the command ran on the machine, but " ++
    (if truthy (text "encoded_bytes" detail) && truthy (text "max_payload" detail)
     then js "its " ++ default [] (text "encoded_bytes" detail) ++ js "-byte reply exceeded the machine link's " ++ default [] (text "max_payload" detail) ++ js "-byte per-message limit"
     else js "its reply was larger than the machine link can deliver in one message");
  layer := js "the machine link's per-message size limit " ++ [8212] ++ js " the command itself executed";
  preserved := js "nothing was returned; the oversized reply was dropped whole.";
  tryNext := boundOutput |}.
Definition drainingFields (detail : Detail) : FaultFields := {|
  headline := js "the machine is at its concurrent-work capacity";
  happened := js "the machine rejected this command at its admission gate" ++
    (if truthy (text "retries" detail) then js " after " ++ default [] (text "retries" detail) ++ js " retries" else []) ++ js " because its work pool is full";
  layer := js "the machine's host-work admission " ++ [8212] ++ js " the machine is online, just saturated";
  preserved := js "nothing ran; the command was rejected before it started.";
  tryNext := js "try again shortly, or reduce the number of commands you run in parallel." |}.
Definition consentFields : FaultFields := {|
  headline := js "the operation needs consent that has not been granted";
  happened := js "the machine rejected the operation because the required consent is not granted";
  layer := js "the machine's consent gate " ++ [8212] ++ js " not your command";
  preserved := js "nothing ran; the operation was rejected.";
  tryNext := js "the consent must be granted on the machine itself; retrying will keep failing until it is." |}.
Definition offlineFields (neverSent : bool) : FaultFields := {|
  headline := js "the machine is unreachable";
  happened := js "the enrolled machine did not respond; it appears offline";
  layer := js "the machine link " ++ [8212] ++ js " the machine itself, not your command";
  preserved := if neverSent then js "nothing ran; the command never reached the machine."
               else js "unknown " ++ [8212] ++ js " the link dropped and the command may or may not have run.";
  tryNext := if neverSent
             then js "the machine appears offline; check that it is powered on and connected. Retrying will not help until it reconnects."
             else js "check the machine, and check whether the command already took effect before re-running it." |}.
Definition reconnectingFields : FaultFields := {|
  headline := js "the machine link blipped";
  happened := js "the machine did not respond in time; the link may be reconnecting";
  layer := js "the machine link (transport) " ++ [8212] ++ js " not your command";
  preserved := js "unknown " ++ [8212] ++ js " the command may or may not have run (its reply was lost).";
  tryNext := js "wait a moment and try again; if this was a state-changing command, check whether it " ++ js "already took effect before re-running it." |}.
Definition notFoundFields (message : jstr) : FaultFields := {|
  headline := js "the path or reference was not found on the machine";
  happened := js "the machine reported: " ++ message;
  layer := js "the command / filesystem on the machine " ++ [8212] ++ js " not the machine link";
  preserved := js "not applicable; the operation did not apply.";
  tryNext := js "check the path or reference exists on the machine, then re-run." |}.
Definition fencedFields : FaultFields := {|
  headline := js "the active machine session changed";
  happened := js "the machine session was swapped underneath the command";
  layer := js "the session-routing layer " ++ [8212] ++ js " not your command";
  preserved := js "nothing ran on this session.";
  tryNext := js "re-run the command; it will target the machine's current session." |}.
Definition failedFields (message : jstr) : FaultFields := {|
  headline := js "the command failed on the machine";
  happened := js "the machine reported: " ++ message;
  layer := js "the command / operating system on the machine";
  preserved := js "not applicable; the command did not complete successfully.";
  tryNext := js "read the message above and adjust the command; a blind retry is unlikely to help." |}.

Definition faultFields (e : ControlError) : FaultFields :=
  if ce_payloadTooLarge e || bool_decide (ce_code e = E_PAYLOAD_TOO_LARGE)
  then if bool_decide (text "failure_code" (ce_detail e) = Some (js "OP_OVERFLOW")) then overflowFields (ce_detail e) else tooLargeFields (ce_detail e)
  else if ce_draining e then drainingFields (ce_detail e)
  else if bool_decide (ce_reason e = Some consent_required) then consentFields
  else if ce_agentOffline e || bool_decide (ce_code e = E_AGENT_OFFLINE) then offlineFields (ce_neverSent e)
  else if bool_decide (ce_reason e = Some agent_reconnecting) then reconnectingFields
  else if ce_osNotFound e || bool_decide (ce_code e = E_NOT_FOUND) then notFoundFields (ce_message e)
  else if ce_fenced e || bool_decide (ce_code e = E_FENCED) then fencedFields
  else failedFields (ce_message e).
Definition renderSelfhostedFault (e : ControlError) : jstr := assemble e (faultFields e).

(** ** What the model is told *)

(** The fields that go with a class of the telemetry. *)
Definition fieldsOfClass (e : ControlError) (class : string) : FaultFields :=
  if String.eqb class "offline" then offlineFields (ce_neverSent e)
  else if String.eqb class "draining" then drainingFields (ce_detail e)
  else if String.eqb class "payload_too_large"
       then if bool_decide (text "failure_code" (ce_detail e) = Some (js "OP_OVERFLOW")) then overflowFields (ce_detail e) else tooLargeFields (ce_detail e)
  else if String.eqb class "reconnecting" then reconnectingFields
  else if String.eqb class "consent" then consentFields
  else if String.eqb class "not_found" then notFoundFields (ce_message e)
  else if String.eqb class "fenced" then fencedFields
  else failedFields (ce_message e).

(** Decide the tests on constants, and split on the others. *)
Ltac tests :=
  repeat match goal with |- context [@bool_decide ?P ?d] =>
    let r := eval vm_compute in (@bool_decide P d) in
    match r with
    | true => change (@bool_decide P d) with true
    | false => change (@bool_decide P d) with false
    | _ => destruct (@bool_decide P d)
    end end.

(** A fault a machine or the transport reports is told to the model as what it is
    counted as, though the two decisions ask their questions in different orders;
    only a rendering as never sent, drained, not consented or fenced says that
    nothing ran. *)
Theorem rendered_as_counted err :
  let e := agentErrorToControlError err in
  faultFields e = fieldsOfClass e (selfhostedFaultClass e) /\
  (take 11 (preserved (faultFields e)) = js "nothing ran" <->
   ce_code e = E_CONSENT_REQUIRED \/ ce_code e = E_DRAINING \/ ce_code e = E_FENCED \/ ce_code e = E_AGENT_OFFLINE /\ ce_neverSent e = true).
Proof.
  cbn zeta. destruct err as [code message retryable detail]. unfold agentErrorToControlError. cbn [ae_code ae_message ae_detail ae_retryable].
  generalize (orElse message (js "agent error (" ++ showNum (codeNumber code) ++ js ")")). clear message. intros message.
  unfold faultFields, fieldsOfClass, selfhostedFaultClass. destruct code; cbn -[js]; tests; cbn -[js].
  all: split; [reflexivity|split; [intros H; vm_compute in H; try discriminate H; auto|intros H; repeat destruct H as [H|H]; try discriminate H; try (destruct H; discriminate); vm_compute; reflexivity]].
Qed.
End FaultRendering.
