(* ===== verification/Routing.v ===== *)
(** * The routing of sandbox operations
      ([packages/runtime/src/sandbox/routing/backend-resolver.ts], [routing-session.ts] and
      [apps/worker/src/sandbox-routing.ts])

    The agent holds one session object.  Each of its operations reads the pointer
    of the session, resolves it to a backend, from a cache keyed by the pointer,
    and runs there; an operation a backend fences is resolved and run again.
    Operations run side by side and share the cache.  A backend is described by
    what its construction is given; what it answers is a parameter. *)
From S2P Require Import Prelude Json Sql Tokens NatsJwt Activity Access Enrollments EnrollmentSafety PayloadSanitizer RequestRewrites ControlRpc FaultRendering Fleet.
#[local] Open Scope Z_scope.
#[local] Open Scope opengeni_scope.

Module Routing.
Import Activity Access Enrollments EnrollmentSafety Fleet.

(** ** Backends *)

Inductive BackendSession :=
| DefaultSession
| PinnedSession
| SelfhostedSession (agentId : jstr) (epoch : Z) (workingDir : option jstr)
| ModalSession (sandboxId : jstr).
#[export] Instance BackendSession_eq_dec : EqDecision BackendSession.
Proof. solve_decision. Defined.
Record ResolvedActiveBackend := { ra_session : BackendSession; ra_sandboxId : option jstr; ra_kind : jstr }.

(** [ControlFault] is a [SelfhostedControlError]; [Failed] any other error, by name
    and message. *)
Inductive OpError := ControlFault (e : ControlRpc.ControlError) | Failed (name message : jstr).
Inductive RouteError := Unresolvable (code : BackendUnresolvableCode) | OpFailed (e : OpError) | DatabaseDown.
#[export] Instance RouteError_fallible : Fallible RouteError := DatabaseDown.

Definition toText (e : OpError) : jstr :=
  match e with ControlFault e => js "SelfhostedControlError " ++ ControlRpc.ce_message e | Failed name message => name ++ js " " ++ message end.
Definition isFenceError (e : OpError) : bool :=
  match e with ControlFault f => ControlRpc.ce_fenced f | Failed _ _ => false end ||
  (let haystack := PayloadSanitizer.toLowerCase (toText e) in
   RequestRewrites.includes (js "fenced") haystack || RequestRewrites.includes (js "epoch") haystack && RequestRewrites.includes (js "super") haystack).

(** ** The proxy *)

Record Proxy := { cachedKey : option (Z * option jstr); cached : option ResolvedActiveBackend; lastResolved : option ResolvedActiveBackend }.
(** The database, the proxy, and, for the statements alone, the databases there
    were before: no operation reads [past]. *)
Record RouteDb := { machines : MachineDb; proxy : Proxy; past : list MachineDb }.
Definition putMachines (d : MachineDb) (r : RouteDb) : RouteDb := {| machines := d; proxy := proxy r; past := past r ++ [machines r] |}.
Definition putProxy (p : Proxy) (r : RouteDb) : RouteDb := {| machines := machines r; proxy := p; past := past r |}.
Definition history (r : RouteDb) : list MachineDb := past r ++ [machines r].

Inductive TransitionType := resolved | fenced_retry | epoch_changed.
Inductive Method :=
| exec_ | execCommand | writeStdin | readFile | writeFile | listDir | pathExists | viewImage | materializeEntry | resolveExposedPort
| serializeSessionState | desktopInput | screenshot | createFile | updateFile | deleteFile.
#[export] Instance Method_eq_dec : EqDecision Method.
Proof. solve_decision. Defined.
Inductive RouteEvent :=
| Transition (type : TransitionType) (fromEpoch toEpoch : Z) (sandboxId : option jstr) (kind : jstr)
| Invoked (attempt : nat) (session : BackendSession) (method : Method).
Abbreviation Route := (Program RouteDb RouteError RouteEvent).

(** ** The resolver ([makeActiveBackendResolver]) *)

Record ResolverDeps := {
  rd_workspaceId : jstr; rd_sessionId : jstr; rd_defaultKind : jstr; rd_defaultIsHome : option bool; rd_pinned : option (jstr * Z);
  rd_establishesModal : bool
}.
Definition makeActiveBackendResolver (deps : ResolverDeps) (pointer : ActiveSandboxPointer) : Route ResolvedActiveBackend :=
  match activeSandboxId pointer with
  | None =>
      if bool_decide (rd_defaultIsHome deps = Some false) then Throw (Unresolvable home_unavailable_this_turn)
      else Ret {| ra_session := DefaultSession; ra_sandboxId := None; ra_kind := rd_defaultKind deps |}
  | Some id =>
      if bool_decide (rd_pinned deps = Some (id, activeEpoch pointer))
      then Ret {| ra_session := PinnedSession; ra_sandboxId := Some id; ra_kind := js "selfhosted" |}
      else
        let* sandbox := read (fun d => getSandbox (rd_workspaceId deps) id (machines d)) in
        match sandbox with
        | None => Throw (Unresolvable stale_pointer)
        | Some b =>
            match b_kind b with
            | selfhosted =>
                match nonEmpty (b_enrollmentId b) with
                | None => Throw (Unresolvable offline_enrollment)
                | Some agentId =>
                    Ret {| ra_session := SelfhostedSession agentId (activeEpoch pointer) (nonEmpty (workingDir pointer));
                           ra_sandboxId := Some (b_id b); ra_kind := js "selfhosted" |}
                end
            | modal =>
                if rd_establishesModal deps then Ret {| ra_session := ModalSession (b_id b); ra_sandboxId := Some (b_id b); ra_kind := js "modal" |}
                else Throw (Unresolvable unsupported_backend_context)
            end
        end
  end.

Section proxy.
Context (deps : ResolverDeps).

Definition readPointer : Route ActiveSandboxPointer :=
  let* pointer := read (fun d => readActiveSandbox (rd_workspaceId deps) (rd_sessionId deps) (machines d)) in Ret (default noPointer pointer).
Definition keyOf (pointer : ActiveSandboxPointer) : Z * option jstr := (activeEpoch pointer, activeSandboxId pointer).
(** The cached backend of a pointer, and the epoch of the cache. *)
Definition cacheHit (pointer : ActiveSandboxPointer) (d : RouteDb) : option ResolvedActiveBackend :=
  if bool_decide (cachedKey (proxy d) = Some (keyOf pointer)) then cached (proxy d) else None.
Definition cachedEpoch (d : RouteDb) : option Z := fst <$> cachedKey (proxy d).
Definition remember (pointer : ActiveSandboxPointer) (b : ResolvedActiveBackend) (d : RouteDb) : RouteDb :=
  putProxy {| cachedKey := Some (keyOf pointer); cached := Some b; lastResolved := Some b |} d.
Definition forget (d : RouteDb) : RouteDb := putProxy {| cachedKey := None; cached := None; lastResolved := lastResolved (proxy d) |} d.
Definition resolveAt (pointer : ActiveSandboxPointer) : Route ResolvedActiveBackend :=
  let* lookup := read (fun d => (cacheHit pointer d, default (activeEpoch pointer) (cachedEpoch d))) in
  let '(hit, fromEpoch) := lookup in
  match hit with
  | Some b => Ret b
  | None =>
      let* b := makeActiveBackendResolver deps pointer in
      write (fun _ => remember pointer b) ;;
      emit (Transition (if fromEpoch =? activeEpoch pointer then resolved else epoch_changed) fromEpoch (activeEpoch pointer) (ra_sandboxId b) (ra_kind b)) ;;
      Ret b
  end.
Definition resolve : Route ResolvedActiveBackend := let* pointer := readPointer in resolveAt pointer.

(** ** Dispatch *)

Context {R : Type} (implements : BackendSession -> Method -> bool) (call : nat -> BackendSession -> Method -> result OpError R)
  (textOf : R -> R) (nothing : R) (render : ControlRpc.ControlError -> R) (maxFenceRetries : nat).

Definition methodName (m : Method) : jstr :=
  js match m with
  | exec_ => "exec" | execCommand => "execCommand" | writeStdin => "writeStdin" | readFile => "readFile" | writeFile => "writeFile" | listDir => "listDir"
  | pathExists => "pathExists" | viewImage => "viewImage" | materializeEntry => "materializeEntry" | resolveExposedPort => "resolveExposedPort"
  | serializeSessionState => "serializeSessionState" | desktopInput => "desktopInput" | screenshot => "screenshot"
  | createFile => "editor.createFile" | updateFile => "editor.updateFile" | deleteFile => "editor.deleteFile"
  end.
(** What a backend runs for an operation of the proxy. *)
Definition forwardedAs (m : Method) (s : BackendSession) : option Method :=
  match m with
  | exec_ => if implements s exec_ then Some exec_ else if implements s execCommand then Some execCommand else None
  | execCommand => if implements s execCommand then Some execCommand else if implements s exec_ then Some exec_ else None
  | m => if implements s m then Some m else None
  end.
Definition unsupported (m : Method) (kind : option jstr) : OpError :=
  Failed (js "RoutingUnsupportedError") (js "the active sandbox (" ++ default (js "unknown") kind ++ js ") does not support " ++ [34] ++ methodName m ++ [34]).
(** A backend without [execCommand] gives the output of its [exec]. *)
Definition adapt (m m' : Method) (answer : result OpError R) : result OpError R :=
  match m, m', answer with execCommand, exec_, Ok r => Ok (textOf r) | _, _, answer => answer end.
(** The operation on a backend, at attempt [n]. *)
Definition forward (n : nat) (m : Method) (s : BackendSession) : Route (result OpError R) :=
  match forwardedAs m s with
  | Some m' =>
      emit (Invoked n s m') ;; Ret (adapt m m' (call n s m'))
  | None =>
      if bool_decide (m = serializeSessionState) then Ret (Ok nothing)
      else let* kind := read (fun d => option_map ra_kind (cached (proxy d))) in Ret (Err (unsupported m kind))
  end.
Fixpoint dispatchFrom (retries n : nat) (m : Method) : Route R :=
  let* backend := resolve in
  let* answer := forward n m (ra_session backend) in
  match answer with
  | Ok r => Ret r
  | Err e =>
      if negb (isFenceError e) then Throw (OpFailed e)
      else
        write (fun _ => forget) ;;
        emit (Transition fenced_retry 0 0 (ra_sandboxId backend) (ra_kind backend)) ;;
        match retries with O => Throw (OpFailed e) | S retries => dispatchFrom retries (S n) m end
  end.
Definition dispatch : Method -> Route R := dispatchFrom maxFenceRetries 0.
(** [execCommand] renders a fault of a machine as its result. *)
Definition renderSelfhostedFaultOrThrow (e : RouteError) : Route R :=
  match e with OpFailed (ControlFault f) => if ControlRpc.ce_fenced f then Throw e else Ret (render f) | _ => Throw e end.
Definition operation (m : Method) : Route R :=
  match m with execCommand => catch (dispatch execCommand) renderSelfhostedFaultOrThrow | m => dispatch m end.
End proxy.

(** The session [state] and [supportsPty] read from. *)
Definition currentSession (defaultResolved : option ResolvedActiveBackend) (d : RouteDb) : option BackendSession :=
  ra_session <$> match lastResolved (proxy d) with Some b => Some b | None => defaultResolved end.
(** The editor the agent binds at the start of a turn: of that session for good,
    or of the session each operation resolves. *)
Definition createEditor (implements : BackendSession -> Method -> bool) (defaultResolved : option ResolvedActiveBackend) (d : RouteDb) : option BackendSession :=
  match currentSession defaultResolved d with Some s => if implements s createFile then Some s else None | None => None end.
Definition newProxy : Proxy := {| cachedKey := None; cached := None; lastResolved := None |}.

(** ** What a pointer stands for *)

Section theory.
Context (deps : ResolverDeps).

(** The resolver's answer, without a cache. *)
Definition resolvesTo (p : ActiveSandboxPointer) (d : MachineDb) : result BackendUnresolvableCode ResolvedActiveBackend :=
  match activeSandboxId p with
  | None => if bool_decide (rd_defaultIsHome deps = Some false) then Err home_unavailable_this_turn
            else Ok {| ra_session := DefaultSession; ra_sandboxId := None; ra_kind := rd_defaultKind deps |}
  | Some id =>
      if bool_decide (rd_pinned deps = Some (id, activeEpoch p)) then Ok {| ra_session := PinnedSession; ra_sandboxId := Some id; ra_kind := js "selfhosted" |}
      else match getSandbox (rd_workspaceId deps) id d with
           | None => Err stale_pointer
           | Some b =>
               match b_kind b, nonEmpty (b_enrollmentId b) with
               | selfhosted, None => Err offline_enrollment
               | selfhosted, Some agentId => Ok {| ra_session := SelfhostedSession agentId (activeEpoch p) (nonEmpty (workingDir p)); ra_sandboxId := Some (b_id b); ra_kind := js "selfhosted" |}
               | modal, _ => if rd_establishesModal deps then Ok {| ra_session := ModalSession (b_id b); ra_sandboxId := Some (b_id b); ra_kind := js "modal" |}
                             else Err unsupported_backend_context
               end
           end
  end.
Definition pointerAt (d : MachineDb) : ActiveSandboxPointer := default noPointer (readActiveSandbox (rd_workspaceId deps) (rd_sessionId deps) d).

(** The cached backend was resolved for a pointer the session had, in a state
    there was. *)
Definition coherent (d : RouteDb) : Prop := forall key b, cachedKey (proxy d) = Some key -> cached (proxy d) = Some b ->
  exists d0, d0 ∈ history d /\ keyOf (pointerAt d0) = key /\ resolvesTo (pointerAt d0) d0 = Ok b.
Record route_inv (d : RouteDb) : Prop := {
  ri_states : forall m, m ∈ history d -> fleet_inv m; ri_sorted : StronglySorted fleet_later (history d); ri_coherent : coherent d
}.
Definition route_later (d d' : RouteDb) : Prop := exists l, history d' = history d ++ l.
#[export] Instance route_later_preorder : PreOrder route_later.
Proof. split; [intros d; exists []; by rewrite app_nil_r|intros a b c [l1 H1] [l2 H2]; exists (l1 ++ l2); by rewrite H2, H1, app_assoc]. Qed.

Lemma history_kept m d d' : route_later d d' -> m ∈ history d -> m ∈ history d'.
Proof. intros [l ->] H. apply elem_of_app. by left. Qed.
Lemma now_in d : machines d ∈ history d.
Proof. apply elem_of_app. right. by left. Qed.
Lemma history_before m d : route_inv d -> m ∈ history d -> fleet_later m (machines d).
Proof.
  intros Hi [Hm|Hm%list_elem_of_singleton]%elem_of_app; [|by subst]. apply (StronglySorted_app_1_elem_of _ (past d) [machines d]); [apply Hi|done|by left].
Qed.
Lemma sorted_total (l : list MachineDb) m m' : StronglySorted fleet_later l -> m ∈ l -> m' ∈ l -> fleet_later m m' \/ fleet_later m' m.
Proof.
  induction 1 as [|x l _ IH Hx]; [by intros ?%elem_of_nil|]. rewrite Forall_forall in Hx. intros [->|H1]%elem_of_cons [->|H2]%elem_of_cons; [by left|left; by apply Hx|right; by apply Hx|by apply IH].
Qed.
Lemma later_inv d d' : past d' = past d -> machines d' = machines d -> coherent d' -> route_inv d -> route_inv d' /\ route_later d d'.
Proof. intros Hp Hm Hc [H1 H2 _]. assert (history d' = history d) as E by (unfold history; by rewrite Hp, Hm). split; [split; by rewrite ?E|exists []; by rewrite app_nil_r]. Qed.
Lemma machines_inv md d : fleet_inv md -> fleet_later (machines d) md -> route_inv d -> route_inv (putMachines md d) /\ route_later d (putMachines md d).
Proof.
  intros Hi Hl Hr. assert (history (putMachines md d) = history d ++ [md]) as E by reflexivity. split; [split|by exists [md]].
  - rewrite E. intros m [Hm|Hm%list_elem_of_singleton]%elem_of_app; [by apply Hr|by subst].
  - rewrite E. apply StronglySorted_app. split_and!; [|apply Hr|repeat constructor]. intros x y Hx Hy%list_elem_of_singleton. subst y. transitivity (machines d); [by apply history_before|done].
  - intros key b Hk Hb. destruct (ri_coherent _ Hr key b Hk Hb) as (d0 & Hin & Hrest). exists d0. split; [|done]. rewrite E. apply elem_of_app. by left.
Qed.

(** The sandbox of a pointer stays the one it was. *)
Lemma pointer_row d d' id b : fleet_inv d -> fleet_later d d' -> activeSandboxId (pointerAt d) = Some id -> getSandbox (rd_workspaceId deps) id d' = Some b ->
  getSandbox (rd_workspaceId deps) id d = Some b.
Proof.
  intros Hi Hl Hp Hb. unfold pointerAt in Hp. destruct (readActiveSandbox _ _ d) as [p|] eqn:Er; [|done]. cbn in Hp.
  unfold readActiveSandbox in Er. destruct (sessionRow _ _ d) as [row|] eqn:Es; [|done]. injection Er as <-. cbn in Hp.
  unfold sessionRow in Es. apply List.find_some in Es as [Hin%list_elem_of_In [Hw%same_eq _]%andb_true_iff].
  destruct (pointer_machine d row id Hi Hin Hp) as (b0 & i & e & Hg & Hbi & Hrest). rewrite Hw in Hg. rewrite Hg. f_equal.
  unfold getSandbox in Hg, Hb. apply List.find_some in Hg as [Hg%list_elem_of_In Hg'%andb_true_iff], Hb as [Hb%list_elem_of_In Hb'%andb_true_iff].
  destruct Hg' as [Hgw%same_eq _], Hb' as [_ Hbid%same_eq].
  destruct (fl_sandboxes _ _ Hl b Hb) as [Hin'|(n & Hn & Hle)].
  - apply (numbered_unique b_id (nextId d) (sandboxes d)); [apply Hi|done|done|congruence].
  - exfalso. destruct (proj2 (fo_sandboxes _ (proj2 Hi)) b0 Hg) as (m & Hm & Hlt). rewrite Hbi, <- Hbid, Hn in Hm. apply generated_inj in Hm. lia.
Qed.

(** ** Operations among others *)

Abbreviation wp := (wp (E := RouteError) (O := RouteEvent) route_inv route_later).
Abbreviation safe := (safe (E := RouteError) (O := RouteEvent) route_inv route_later).

Lemma wp_readPointer d : wp (readPointer deps) (fun p d' => exists m, m ∈ history d' /\ fleet_inv m /\ p = pointerAt m) d.
Proof.
  unfold readPointer. apply (wp_then _ _ (fun p d' => exists m, m ∈ history d' /\ fleet_inv m /\ default noPointer p = pointerAt m)); [|done].
  apply (wp_read route_inv route_later). intros d1 Hl Hi. exists (machines d1). split_and!; [apply now_in|apply Hi, now_in|done].
Qed.

Lemma wp_resolver m d : m ∈ history d -> fleet_inv m ->
  wp (makeActiveBackendResolver deps (pointerAt m)) (fun b d' => route_later d d' /\ resolvesTo (pointerAt m) m = Ok b) d.
Proof.
  intros Hm Hi. unfold makeActiveBackendResolver, resolvesTo. destruct (activeSandboxId (pointerAt m)) as [id|] eqn:Eid; [|destruct (bool_decide _); [done|split; [reflexivity|done]]].
  destruct (bool_decide _); [split; [reflexivity|done]|].
  apply (wp_then _ _ (fun b d' => route_later d d' /\ match b with Some b => getSandbox (rd_workspaceId deps) id m = Some b | None => True end)).
  - apply (wp_read route_inv route_later). intros d1 Hl1 Hi1. split; [done|]. destruct (getSandbox _ _ (machines d1)) as [b|] eqn:E; [|done].
    apply (pointer_row m (machines d1)); [done|apply history_before; [done|by eapply history_kept]|done|done].
  - intros [b|] d1 [Hl1 Hb]; [|done]. rewrite Hb. destruct (b_kind b); [by destruct (rd_establishesModal deps)|]. by destruct (nonEmpty (b_enrollmentId b)).
Qed.

(** What the pointer of the session stands for: the box of the session, the machine
    the turn was pinned to, or the enrolled machine of the sandbox it names, under
    the epoch and in the directory of the pointer. *)
Inductive standsFor (d : MachineDb) : BackendSession -> Prop :=
| sf_home : activeSandboxId (pointerAt d) = None -> rd_defaultIsHome deps <> Some false -> standsFor d DefaultSession
| sf_pinned id : activeSandboxId (pointerAt d) = Some id -> rd_pinned deps = Some (id, activeEpoch (pointerAt d)) -> standsFor d PinnedSession
| sf_machine id b agentId : activeSandboxId (pointerAt d) = Some id -> rd_pinned deps <> Some (id, activeEpoch (pointerAt d)) ->
    b ∈ sandboxes d -> b_id b = id -> b_workspaceId b = rd_workspaceId deps -> b_kind b = selfhosted -> b_enrollmentId b = Some agentId -> agentId <> [] ->
    standsFor d (SelfhostedSession agentId (activeEpoch (pointerAt d)) (match workingDir (pointerAt d) with Some [] => None | _ => workingDir (pointerAt d) end)).

(** The sandbox of the pointer of the session exists, and is an enrolled machine. *)
Lemma pointed d id : fleet_inv d -> activeSandboxId (pointerAt d) = Some id ->
  (exists p, readActiveSandbox (rd_workspaceId deps) (rd_sessionId deps) d = Some p) /\
  exists b i, getSandbox (rd_workspaceId deps) id d = Some b /\ b_kind b = selfhosted /\ b_enrollmentId b = Some i /\ i <> [].
Proof.
  intros Hi Hp. unfold pointerAt in Hp. destruct (readActiveSandbox _ _ d) as [p|] eqn:Er; [|done]. cbn in Hp. split; [eauto|].
  unfold readActiveSandbox in Er. destruct (sessionRow _ _ d) as [row|] eqn:Es; [|done]. injection Er as <-. cbn in Hp.
  unfold sessionRow in Es. apply List.find_some in Es as [Hin%list_elem_of_In [Hw%same_eq _]%andb_true_iff].
  destruct (pointer_machine d row id Hi Hin Hp) as (b & i & e & Hg & _ & Hk & Hn & _). rewrite Hw in Hg. exists b, i. split_and!; [done|by destruct (b_kind b)| |];
    destruct (b_enrollmentId b) as [[|c t]|]; try discriminate Hn; by injection Hn as <-.
Qed.
(** A pointer with the same epoch and target resolves alike. *)
Lemma same_resolution d0 d1 : fleet_inv d0 -> fleet_inv d1 -> fleet_later d0 d1 -> keyOf (pointerAt d0) = keyOf (pointerAt d1) ->
  resolvesTo (pointerAt d0) d0 = resolvesTo (pointerAt d1) d1.
Proof.
  intros Hi0 Hi1 Hl [= He Ht]. unfold resolvesTo. rewrite <- Ht, <- He. destruct (activeSandboxId (pointerAt d0)) as [id|] eqn:Eid; [|done].
  destruct (bool_decide _); [done|]. symmetry in Ht. destruct (pointed d0 id Hi0 Eid) as [[p0 Hp0] _]. destruct (pointed d1 id Hi1 Ht) as [_ (b1 & i & Hg & _)].
  rewrite Hg, (pointer_row d0 d1 id b1 Hi0 Hl Eid Hg). destruct (fl_pointers _ _ Hl _ _ _ Hp0) as (p1 & Hp1 & Hf).
  assert (workingDir (pointerAt d1) = workingDir (pointerAt d0)) as ->; [|done].
  unfold pointerAt in *. rewrite Hp0, Hp1 in *. cbn in *. destruct Hf as [Hf|(_ & Hw & _)]; [lia|done].
Qed.
Lemma resolution_stands d b : fleet_inv d -> resolvesTo (pointerAt d) d = Ok b -> standsFor d (ra_session b).
Proof.
  intros Hi. unfold resolvesTo. destruct (activeSandboxId (pointerAt d)) as [id|] eqn:Eid.
  - destruct (bool_decide _) eqn:Ep; [apply bool_decide_eq_true in Ep; intros [= <-]; by eapply sf_pinned|]. apply bool_decide_eq_false in Ep.
    destruct (pointed d id Hi Eid) as [_ (b1 & i & Hg & Hk & Hn & Hne)]. rewrite Hg, Hk, Hn. destruct i as [|c i]; [done|]. cbn [nonEmpty]. intros [= <-].
    unfold getSandbox in Hg. apply List.find_some in Hg as [Hin%list_elem_of_In [Hw%same_eq Hid%same_eq]%andb_true_iff]. cbn [ra_session]. by apply (sf_machine d id b1 (c :: i)).
  - destruct (bool_decide _) eqn:Ed; [done|]. apply bool_decide_eq_false in Ed. intros [= <-]. by apply sf_home.
Qed.

(** From a pointer read at [m], the cache or the resolver answers what that
    pointer stands for. *)
Lemma wp_resolveAt m d : m ∈ history d -> fleet_inv m -> wp (resolveAt deps (pointerAt m)) (fun b _ => resolvesTo (pointerAt m) m = Ok b) d.
Proof.
  intros Hm Hi. unfold resolveAt.
  apply (wp_then _ _ (fun look d2 => route_later d d2 /\ match look.1 with Some b => resolvesTo (pointerAt m) m = Ok b | None => True end)).
  - apply (wp_read route_inv route_later). intros d2 Hl2 Hi2. cbn [fst]. split; [done|]. unfold cacheHit.
    destruct (bool_decide (cachedKey (proxy d2) = Some _)) eqn:Ek; [|done]. apply bool_decide_eq_true in Ek.
    destruct (cached (proxy d2)) as [b|] eqn:Eb; [|done]. destruct (ri_coherent _ Hi2 _ _ Ek Eb) as (d0 & Hin & Hk0 & <-).
    pose proof (history_kept m d d2 Hl2 Hm) as Hm2. pose proof (ri_states _ Hi2 _ Hin) as Hi0.
    destruct (sorted_total _ _ _ (ri_sorted _ Hi2) Hin Hm2); [symmetry|]; by apply same_resolution.
  - intros [[b|] fromEpoch] d2 [Hl2 Hf]; [exact Hf|]. eapply wp_then; [apply (wp_resolver m d2); [by eapply history_kept|done]|]. intros b d3 [Hl3 Hb]. cbn beta.
    apply (wp_then _ _ (fun _ d4 => True)); [|done].
    apply (wp_tx route_inv route_later). intros d4 now r d5 Hl4 Hi4 [= _ <-].
    destruct (later_inv d4 (remember (pointerAt m) b d4)) as [H1 H2]; [done|done| |done|by split_and!].
    intros key b' [= <-] [= <-]. exists m. split; [|done]. apply (history_kept m d4); [by exists []; rewrite app_nil_r|]. apply (history_kept m d3); [done|]. apply (history_kept m d2); [done|by eapply history_kept].
Qed.

Section operations.
Context {R : Type} (implements : BackendSession -> Method -> bool) (call : nat -> BackendSession -> Method -> result OpError R)
  (textOf : R -> R) (nothing : R) (render : ControlRpc.ControlError -> R) (maxFenceRetries : nat).
#[local] Abbreviation dispatchFrom := (dispatchFrom deps implements call textOf nothing).
#[local] Abbreviation operation := (operation deps implements call textOf nothing render maxFenceRetries).
#[local] Abbreviation forward := (forward implements call textOf nothing).

Lemma safe_resolve d : safe (resolve deps) d.
Proof.
  eapply wp_then; [apply wp_readPointer|]. intros p d1 (m & Hm & Hi & ->). cbn beta. by eapply wp_weaken; [|by apply wp_resolveAt].
Qed.
Lemma safe_forward n m s d : safe (forward n m s) d.
Proof.
  unfold Routing.forward. destruct (forwardedAs _ m s); [done|]. destruct (bool_decide _); [done|]. apply safe_bind; [apply safe_read|done].
Qed.
Lemma safe_forget d : safe (write (fun _ => forget) : Route unit) d.
Proof. apply (wp_tx route_inv route_later). intros d1 now r d2 _ Hi [= _ <-]. destruct (later_inv d1 (forget d1)) as [H1 H2]; [done|done|by intros key b|done|by split_and!]. Qed.
Lemma safe_dispatch retries : forall n m d, safe (dispatchFrom retries n m) d.
Proof.
  induction retries as [|retries IH]; intros n m d; cbn [Routing.dispatchFrom]; (apply safe_bind; [apply safe_resolve|intros b d1]; apply safe_bind; [apply safe_forward|intros [x|e] d2; [done|]]);
    destruct (negb _); [done| |done|]; (apply safe_bind; [apply safe_forget|intros [] d3]); [done|apply IH].
Qed.
Lemma safe_operation m d : safe (operation m) d.
Proof.
  unfold Routing.operation. destruct m; try apply safe_dispatch. apply safe_catch; [|apply safe_dispatch].
  intros [code|[f|name message]|] d1; cbn; try done. by destruct (ControlRpc.ce_fenced f).
Qed.

(** ** Retries *)

Definition invocation : Type := nat * BackendSession * Method.
Definition invocations (out : list RouteEvent) : list invocation := omap (fun e => match e with Invoked n s m => Some (n, s, m) | _ => None end) out.
Lemma invocations_app a b : invocations (a ++ b) = invocations a ++ invocations b.
Proof. apply omap_app. Qed.
Definition quiet (e : RouteEvent) : Prop := match e with Invoked _ _ _ => False | Transition _ _ _ _ _ => True end.
Lemma invocations_quiet out : Forall quiet out -> invocations out = [].
Proof. induction 1 as [|[] out H _ IH]; [done|exact IH|done]. Qed.
Lemma resolve_quiet : emits_in quiet (resolve deps).
Proof.
  unfold resolve, readPointer. apply emits_in_bind; [by apply emits_in_bind; [intros []|]|]. intros p. apply emits_in_bind; [by intros []|]. intros [[b|] n]; [done|].
  apply emits_in_bind; [|intros b; by apply emits_in_bind; [intros []|]]. unfold makeActiveBackendResolver.
  destruct (activeSandboxId p); [|by destruct (bool_decide _)]. destruct (bool_decide _); [done|]. apply emits_in_bind; [by intros []|]. intros [b|]; [|done].
  destruct (b_kind b); [by destruct (rd_establishesModal deps)|]. by destruct (nonEmpty _).
Qed.

Lemma forward_runs env n m s d answer out d' : runs env (forward n m s) d (Ok answer) out d' ->
  (exists m', forwardedAs implements m s = Some m' /\ invocations out = [(n, s, m')] /\ answer = adapt textOf m m' (call n s m')) \/
  (invocations out = [] /\ (m = serializeSessionState /\ answer = Ok nothing \/ exists kind, answer = Err (unsupported m kind))).
Proof.
  unfold Routing.forward. destruct (forwardedAs implements m s) as [m'|].
  - intros (out' & -> & [= ->] & -> & _). left. by exists m'.
  - destruct (bool_decide (m = serializeSessionState)) eqn:E; [apply bool_decide_eq_true in E; intros ([= ->] & -> & _); right; auto|].
    intros (now & d1 & r & d2 & _ & Hc & H). right. destruct Hc; cbn in H; destruct H as ([= ->] & -> & _) || destruct H as ([=] & _); split; [done|right; eauto].
Qed.
Lemma forward_error env n m s d e out d' : runs env (forward n m s) d (Err e) out d' -> invocations out = [] /\ e = DatabaseDown.
Proof.
  unfold Routing.forward. destruct (forwardedAs implements m s) as [m'|]; [by intros (out' & -> & [=] & _)|].
  destruct (bool_decide _); [by intros ([=] & _)|]. intros (now & d1 & r & d2 & _ & Hc & H). destruct Hc as [r d2 Hx|e' He|]; cbn in H; [by destruct H|done|]. by destruct H as ([= ->] & -> & _).
Qed.
Lemma adapt_error m m' answer e : adapt textOf m m' answer = Err e -> answer = Err e.
Proof. unfold adapt. destruct m, m', answer; congruence. Qed.

(** What counts as a fence: a fault that says so, or any error whose name and
    message speak of one. *)
Definition mentions (word text : jstr) : Prop := exists before after, text = before ++ word ++ after.
Definition fence (e : OpError) : Prop :=
  (exists f, e = ControlFault f /\ ControlRpc.ce_fenced f = true) \/
  let text := PayloadSanitizer.toLowerCase match e with ControlFault f => js "SelfhostedControlError " ++ ControlRpc.ce_message f | Failed name message => name ++ js " " ++ message end in
  mentions (js "fenced") text \/ mentions (js "epoch") text /\ mentions (js "super") text.
Lemma prefixOf_spec w t : RequestRewrites.prefixOf w t = true <-> exists after, t = w ++ after.
Proof.
  revert t. induction w as [|x w IH]; intros t; cbn; [split; [by exists t|done]|]. destruct t as [|y t]; [split; [done|by intros [? ?]]|].
  rewrite andb_true_iff, Z.eqb_eq, IH. split; [intros [-> [after ->]]; by exists after|intros [after [= -> ->]]; split; [done|by exists after]].
Qed.
Lemma includes_spec w t : RequestRewrites.includes w t = true <-> mentions w t.
Proof.
  induction t as [|y t IH]; cbn [RequestRewrites.includes]; rewrite orb_true_iff, prefixOf_spec; [|rewrite IH]; split.
  - intros [[after E]|E]; [by exists [], after|done].
  - intros (before & after & E). left. exists after. by destruct before.
  - intros [[after E]|(before & after & ->)]; [by exists [], after|by exists (y :: before), after].
  - intros ([|b before] & after & E); [left; by exists after|right]. injection E as -> ->. by exists before, after.
Qed.
Lemma isFenceError_spec e : isFenceError e = true <-> fence e.
Proof.
  unfold isFenceError, fence. rewrite !orb_true_iff, andb_true_iff, !includes_spec. assert (match e with ControlFault f => ControlRpc.ce_fenced f | Failed _ _ => false end = true <->
    exists f, e = ControlFault f /\ ControlRpc.ce_fenced f = true) as ->; [|by destruct e].
  destruct e; split; [by intros; exists e|by intros (f & [= ->] & ?)|done|by intros (f & ? & _)].
Qed.

Definition fenced_call (i : invocation) : Prop := let '(n, s, m) := i in exists e, call n s m = Err e /\ fence e.
(** The answer of an operation whose last call was fenced or that made none. *)
Definition unanswered (m : Method) (fenced : list invocation) (r : result RouteError R) : Prop :=
  (m = serializeSessionState /\ r = Ok nothing) \/ (exists kind, r = Err (OpFailed (unsupported m kind))) \/
  (exists n s m' e, last fenced = Some (n, s, m') /\ call n s m' = Err e /\ r = Err (OpFailed e)) \/
  (exists code, r = Err (Unresolvable code)) \/ r = Err DatabaseDown.
(** How a run of [dispatch] ends, after its fenced calls. *)
Definition ends (m : Method) (fenced final : list invocation) (r : result RouteError R) : Prop :=
  match final with
  | [] => unanswered m fenced r
  | [(n, s, m')] => forwardedAs implements m s = Some m' /\
      match adapt textOf m m' (call n s m') with Ok x => r = Ok x | Err e => r = Err (OpFailed e) /\ ~ fence e end
  | _ => False
  end.
Definition settled (m : Method) (retries : nat) (out : list RouteEvent) (r : result RouteError R) : Prop :=
  exists fenced final, invocations out = fenced ++ final /\ (length (fenced ++ final) <= S retries)%nat /\ Forall fenced_call fenced /\ ends m fenced final r.
Lemma settled_none m retries out fenced r : invocations out = fenced -> (length fenced <= S retries)%nat -> Forall fenced_call fenced -> unanswered m fenced r -> settled m retries out r.
Proof. intros Hi Hl Hf Hu. exists fenced, []. by rewrite app_nil_r. Qed.

(** The errors of the resolution. *)
Definition plainError (e : RouteError) : Prop := (exists code, e = Unresolvable code) \/ e = DatabaseDown.
Lemma plain_unanswered m fenced e : plainError e -> unanswered m fenced (Err e).
Proof. unfold unanswered. intros [[code ->]| ->]; eauto 6. Qed.
Lemma runs_read {A} env (q : RouteDb -> A) d a out d' : runs env (read q : Route A) d a out d' -> out = [] /\ ((exists x, a = Ok x) \/ a = Err DatabaseDown).
Proof. intros (now & d1 & x & d2 & _ & Hc & H). destruct Hc as [x d2 Hx|e He|]; cbn in H; [|done|]; destruct H as (-> & -> & _); eauto. Qed.
Lemma runs_write env op d a out d' : runs env (write op : Route unit) d a out d' -> out = [] /\ (a = Ok tt \/ a = Err DatabaseDown).
Proof. intros (now & d1 & x & d2 & _ & Hc & H). destruct Hc as [x d2 Hx|e He|]; cbn in H; [|done|]; destruct H as (-> & -> & _); [|by auto]. by destruct x; auto. Qed.
Lemma resolve_throws env d e out d' : runs env (resolve deps) d (Err e) out d' -> plainError e.
Proof.
  unfold resolve, readPointer. intros H. apply runs_bind in H as [(e' & [= <-] & H)|(p & o1 & d1 & o2 & _ & H & ->)].
  { apply runs_bind in H as [(e' & [= <-] & H)|(x & o1 & d1 & o2 & _ & [H _] & _)]; [|done]. apply runs_read in H as [_ [[x ?]|[= ->]]]; [done|by right]. }
  unfold resolveAt in H. apply runs_bind in H as [(e' & [= <-] & H)|([[b|] n] & o3 & d2 & o4 & _ & H & ->)].
  { apply runs_read in H as [_ [[x ?]|[= ->]]]; [done|by right]. } { by destruct H. }
  apply runs_bind in H as [(e' & [= <-] & H)|(b & o5 & d3 & o6 & _ & H & ->)].
  - unfold makeActiveBackendResolver in H. destruct (activeSandboxId p); [|destruct (bool_decide _); [destruct H as ([= ->] & _); left; eauto|by destruct H]].
    destruct (bool_decide _); [by destruct H|]. apply runs_bind in H as [(e' & [= <-] & H)|([b|] & o5 & d3 & o6 & _ & H & ->)].
    + apply runs_read in H as [_ [[x ?]|[= ->]]]; [done|by right].
    + destruct (b_kind b); [destruct (rd_establishesModal deps)|destruct (nonEmpty _)]; destruct H as ([= ->] & _); left; eauto.
    + destruct H as ([= ->] & _). left. eauto.
  - apply runs_bind in H as [(e' & [= <-] & H)|([] & o7 & d4 & o8 & _ & H & ->)].
    + apply runs_write in H as [_ [?|[= ->]]]; [done|by right].
    + by destruct H as (out' & _ & ? & _).
Qed.

(** One attempt: the operation ends, or was fenced and goes on. *)
Lemma attempt_runs env n m (rest : OpError -> Route R) d r out d' :
  runs env (let* backend := resolve deps in
            let* answer := forward n m (ra_session backend) in
            match answer with
            | Ok x => Ret x
            | Err e => if negb (isFenceError e) then Throw (OpFailed e)
                       else write (fun _ => forget) ;; emit (Transition fenced_retry 0 0 (ra_sandboxId backend) (ra_kind backend)) ;; rest e
            end) d r out d' ->
  settled m 0 out r \/
  exists e fenced d1 out1, ((exists s m', fenced = [(n, s, m')] /\ call n s m' = Err e) \/ fenced = [] /\ exists kind, e = unsupported m kind) /\
    Forall fenced_call fenced /\ invocations out = fenced ++ invocations out1 /\ runs env (rest e) d1 r out1 d'.
Proof.
  intros H. apply runs_bind in H as [(e & -> & H)|(b & o1 & d1 & o2 & H1 & H & ->)].
  { apply resolve_throws in H as He. apply runs_emits with (P := quiet) in H; [|apply resolve_quiet]. left.
    apply (settled_none _ _ _ []); [by rewrite invocations_quiet|cbn; lia|constructor|by apply plain_unanswered]. }
  apply runs_emits with (P := quiet) in H1; [|apply resolve_quiet].
  assert (invocations (o1 ++ o2) = invocations o2) as Ho by (by rewrite invocations_app, (invocations_quiet o1)). clear H1. revert Ho. generalize (o1 ++ o2). intros out Ho. cbn beta in H.
  apply runs_bind in H as [(e & -> & H)|(answer & o3 & d2 & o4 & H1 & H & ->)].
  { left. apply forward_error in H as [H ->]. apply (settled_none _ _ _ []); [congruence|cbn; lia|constructor|apply plain_unanswered; by right]. }
  apply forward_runs in H1. rewrite invocations_app in Ho. destruct answer as [x|e].
  - destruct H as (-> & -> & _). left. rewrite app_nil_r in Ho. destruct H1 as [(m' & Hm & Hi & Hx)|[Hi [[Hm [= ->]]|[kind ?]]]]; [| |done].
    + exists [], [(n, ra_session b, m')]. rewrite Ho, Hi. split_and!; [done|cbn; lia|constructor|split; [done|by rewrite <- Hx]].
    + apply (settled_none _ _ _ []); [congruence|cbn; lia|constructor|by left].
  - destruct (isFenceError e) eqn:Ef; cbn [negb] in H.
    + apply isFenceError_spec in Ef.
      assert (exists fenced, invocations o3 = fenced /\ ((exists s m', fenced = [(n, s, m')] /\ call n s m' = Err e) \/ fenced = [] /\ exists kind, e = unsupported m kind) /\ Forall fenced_call fenced)
        as (fenced & Ho3 & Hl & Hf).
      { destruct H1 as [(m' & Hm & -> & Hx)|[-> [[_ ?]|[kind [= ->]]]]]; [|done|exists []; split_and!; [done|right; eauto|constructor]]. symmetry in Hx. apply adapt_error in Hx.
        exists [(n, ra_session b, m')]. split_and!; [done|left; eauto|]. constructor; [|constructor]. by exists e. }
      rewrite Ho3 in Ho. apply runs_bind in H as [(e' & -> & H)|([] & o5 & d3 & o6 & H1' & H & ->)].
      * apply runs_write in H as [-> [?|[= ->]]]; [done|]. left. rewrite app_nil_r in Ho.
        apply (settled_none _ _ _ fenced); [done|destruct Hl as [(s & m' & -> & _)|[-> _]]; cbn; lia|done|apply plain_unanswered; by right].
      * apply runs_write in H1' as [-> _]. destruct H as (out' & -> & H). right. exists e, fenced, d3, out'. split_and!; [done|done|exact Ho|exact H].
    + destruct H as (-> & -> & _). left. rewrite app_nil_r in Ho. assert (~ fence e) as Hne by (rewrite <- isFenceError_spec; by rewrite Ef).
      destruct H1 as [(m' & Hm & Hi & Hx)|[Hi [[_ ?]|[kind [= ->]]]]]; [|done|].
      * exists [], [(n, ra_session b, m')]. rewrite Ho, Hi. split_and!; [done|cbn; lia|constructor|split; [done|by rewrite <- Hx]].
      * apply (settled_none _ _ _ []); [congruence|cbn; lia|constructor|right; left; eauto].
Qed.

Lemma dispatch_runs env m retries : forall n d r out d', runs env (dispatchFrom retries n m) d r out d' -> settled m retries out r.
Proof.
  induction retries as [|retries IH]; intros n d r out d' H; cbn [Routing.dispatchFrom] in H.
  - apply attempt_runs with (rest := fun e => Throw (OpFailed e)) in H as [H|(e & fenced & d1 & out1 & Hl & Hf & Ho & -> & -> & _)]; [exact H|]. rewrite app_nil_r in Ho.
    apply (settled_none _ _ _ fenced); [done| |done|]; destruct Hl as [(s & m' & -> & He)|[-> [kind ->]]]; [cbn; lia..|right; right; left; by exists n, s, m', e|right; left; eauto].
  - apply attempt_runs with (rest := fun _ => dispatchFrom retries (S n) m) in H as [(fenced & final & H1 & H2 & H3)|(e & fenced & d1 & out1 & Hl & Hf & Ho & H)].
    + exists fenced, final. split_and!; [done|lia|apply H3..].
    + apply IH in H as (fenced' & final & H1 & H2 & H3 & H4). exists (fenced ++ fenced'), final. rewrite Ho, H1, <- app_assoc.
      assert (length fenced <= 1)%nat by (destruct Hl as [(s & m' & -> & _)|[-> _]]; cbn; lia). rewrite !length_app in *.
      split_and!; [done|unfold invocation in *; lia|by apply Forall_app|]. destruct final as [|[[k s] m'] [|]]; [|done|done].
      destruct H4 as [H4|[H4|[(k & s & m' & e' & Hlast & H4)|H4]]]; [by left|right; by left|right; right; left|by right; right; right].
      exists k, s, m', e'. by rewrite last_app, Hlast.
Qed.

(** *** Where an operation runs *)

Lemma resolve_sees env d b out d' found : (forall d d', env d d' -> route_inv d -> route_inv d' /\ route_later d d') -> route_inv d ->
  sees env (resolve deps) d (Ok b) out d' found -> route_inv d' /\ exists d1, d1 ∈ found /\ standsFor (machines d1) (ra_session b).
Proof.
  intros Henv Hd H. unfold resolve in H. apply sees_bind in H as [(e & ? & _)|(q & o1 & d2 & o2 & f1 & f2 & H1 & H & -> & ->)]; [done|].
  unfold readPointer in H1. cbn in H1. destruct H1 as (now & d1 & x & d3 & found' & He & Hc & -> & H1).
  assert (route_inv d1) as Hd1. { clear -Henv Hd He. induction He as [|x y z Hxy _ IH]; [done|]. apply IH. by destruct (Henv _ _ Hxy Hd). }
  assert (q = pointerAt (machines d1) /\ d2 = d1) as [-> ->].
  { destruct Hc as [x d3 Hx|e He'|]; cbn in H1; [|by destruct H1..]. injection Hx as <- <-. by destruct H1 as ([= ->] & _ & -> & _). }
  apply sees_runs in H.
  apply (wp_runs route_inv route_later env _ (fun b _ => resolvesTo (pointerAt (machines d1)) (machines d1) = Ok b)) in H as (H2 & _ & H3); [|done|done|].
  - split; [done|]. exists d1. split; [by left|]. apply resolution_stands; [apply Hd1, now_in|done].
  - apply wp_resolveAt; [apply now_in|apply Hd1, now_in].
Qed.
Lemma dispatch_sees env m retries : (forall d d', env d d' -> route_inv d -> route_inv d' /\ route_later d d') ->
  forall n d r out d' found, route_inv d -> sees env (dispatchFrom retries n m) d r out d' found ->
  forall k s m', (k, s, m') ∈ invocations out -> exists d1, d1 ∈ found /\ standsFor (machines d1) s.
Proof.
  intros Henv. assert (forall (rest : OpError -> Route R) n d r out d' found,
    (forall e d r out d' found, route_inv d -> sees env (rest e) d r out d' found -> forall k s m', (k, s, m') ∈ invocations out -> exists d1, d1 ∈ found /\ standsFor (machines d1) s) ->
    route_inv d -> sees env (let* backend := resolve deps in
            let* answer := forward n m (ra_session backend) in
            match answer with
            | Ok x => Ret x
            | Err e => if negb (isFenceError e) then Throw (OpFailed e)
                       else write (fun _ => forget) ;; emit (Transition fenced_retry 0 0 (ra_sandboxId backend) (ra_kind backend)) ;; rest e
            end) d r out d' found -> forall k s m', (k, s, m') ∈ invocations out -> exists d1, d1 ∈ found /\ standsFor (machines d1) s) as Hstep.
  { intros rest n d r out d' found Hrest Hd H k s m' Hin.
    apply sees_bind in H as [(e & -> & H)|(b & o1 & d1 & o2 & f1 & f2 & H1 & H & -> & ->)].
    { apply sees_runs, runs_emits with (P := quiet) in H; [|apply resolve_quiet]. rewrite invocations_quiet in Hin by done. by apply elem_of_nil in Hin. }
    pose proof (runs_emits env quiet _ _ _ _ _ resolve_quiet (sees_runs _ _ _ _ _ _ _ H1)) as Hq. rewrite invocations_app, (invocations_quiet o1) in Hin by done. cbn [app] in Hin. clear Hq.
    destruct (resolve_sees _ _ _ _ _ _ Henv Hd H1) as (Hd1 & dp & Hdp & Hstands). clear H1.
    apply sees_bind in H as [(e & -> & H)|(answer & o3 & d2 & o4 & f3 & f4 & H1 & H & -> & ->)].
    { apply sees_runs, forward_error in H as [H _]. rewrite H in Hin. by apply elem_of_nil in Hin. }
    apply sees_runs in H1. pose proof (wp_runs route_inv route_later env _ _ _ Henv _ _ _ Hd1 (safe_forward n m (ra_session b) d1) H1) as (Hd2 & _ & _).
    rewrite invocations_app in Hin. apply elem_of_app in Hin as [Hin|Hin].
    { exists dp. split; [apply elem_of_app; by left|]. apply forward_runs in H1 as [(m0 & _ & Ho & _)|[Ho _]]; rewrite Ho in Hin; [|by apply elem_of_nil in Hin].
      by apply list_elem_of_singleton in Hin as [= -> -> ->]. }
    assert (exists d1, d1 ∈ f4 /\ standsFor (machines d1) s) as (dr & Hr & Hs); [|exists dr; split; [by rewrite !elem_of_app; auto|done]].
    destruct answer as [x|e]; [destruct H as (_ & -> & _); by apply elem_of_nil in Hin|]. destruct (negb (isFenceError e)); [destruct H as (_ & -> & _); by apply elem_of_nil in Hin|].
    apply sees_bind in H as [(e' & -> & H)|([] & o5 & d3 & o6 & f5 & f6 & H2 & H & -> & ->)].
    { destruct H as (now & dx & x & dy & fz & _ & Hc & _ & H). destruct Hc; cbn in H; destruct H as (_ & -> & _); by apply elem_of_nil in Hin. }
    apply sees_runs in H2. pose proof (wp_runs route_inv route_later env _ _ _ Henv _ _ _ Hd2 (safe_forget d2) H2) as (Hd3 & _ & _).
    assert (invocations o5 = []) as Ho5. { destruct H2 as (now & dx & x & dy & _ & Hc & H2). destruct Hc; cbn in H2; by destruct H2 as (_ & -> & _). }
    rewrite invocations_app, Ho5 in Hin. destruct H as (o7 & -> & H). destruct (Hrest e d3 r o7 d' f6 Hd3 H k s m' Hin) as (dr & Hr & Hs). exists dr. split; [apply elem_of_app; by right|done]. }
  induction retries as [|retries IH]; intros n d r out d' found Hd H; cbn [Routing.dispatchFrom] in H.
  - apply (Hstep (fun e => Throw (OpFailed e)) n d r out d' found); [|done|exact H]. intros e d0 r0 out0 d0' f0 _ (_ & -> & _) k s m' Hin. by apply elem_of_nil in Hin.
  - apply (Hstep (fun _ => dispatchFrom retries (S n) m) n d r out d' found); [|done|exact H]. intros e d0 r0 out0 d0' f0 Hd0 H0. by apply (IH (S n) d0 r0 out0 d0' f0).
Qed.

(** (C20) An operation of the proxy calls its backends at most once more than it may be
    retried.  Every call but the last answered a fence, where any error whose name
    and message speak of one counts ([fence]; so an ordinary failure with such a
    text is retried too); another failure ends the operation with that very
    error, and a success with that very answer.  When no call gave the answer, it
    is the error of the last fence once the retries are spent, the refusal of a
    method the backend lacks (an empty answer for [serializeSessionState]), the
    reason the pointer did not resolve, or the loss of the database. *)
Theorem dispatch_retries env m d r out d' : runs env (dispatch deps implements call textOf nothing maxFenceRetries m) d r out d' ->
  exists fenced final, invocations out = fenced ++ final /\ (length (invocations out) <= S maxFenceRetries)%nat /\
    (forall n s m', (n, s, m') ∈ fenced -> exists e, call n s m' = Err e /\ fence e) /\
    match final with
    | [] => (m = serializeSessionState /\ r = Ok nothing) \/ (exists kind, r = Err (OpFailed (unsupported m kind))) \/
        (exists n s m' e, last fenced = Some (n, s, m') /\ call n s m' = Err e /\ r = Err (OpFailed e)) \/
        (exists code, r = Err (Unresolvable code)) \/ r = Err DatabaseDown
    | [(n, s, m')] => forwardedAs implements m s = Some m' /\
        match adapt textOf m m' (call n s m') with Ok x => r = Ok x | Err e => r = Err (OpFailed e) /\ ~ fence e end
    | _ => False
    end.
Proof.
  intros H. apply dispatch_runs in H as (fenced & final & Hi & Hl & Hf & He). exists fenced, final. rewrite Hi. split_and!; [done|done| |exact He].
  intros n s m' Hin. rewrite Forall_forall in Hf. exact (Hf _ Hin).
Qed.
End operations.
End theory.

(** ** The whole: machines, swaps and operations *)

Section system.
Context `{tokens : TokenPlatform} `{digests : DigestPlatform} `{nkeys : NkeyPlatform} (settings : MachineSettings) (deps : ResolverDeps) {R : Type}.

Inductive op_task : Route R -> Prop :=
| op_any implements call textOf nothing render retries m : op_task (operation deps implements call textOf nothing render retries m).
Definition System : Type := RouteDb * list (Handler unit) * list (Route R).
Inductive system_step : System -> System -> Prop :=
| machines_step d ts os md ts' : pool (fleet_task settings) (machines d, ts) (md, ts') -> system_step (d, ts, os) (putMachines md d, ts', os)
| operations_step d ts os d' os' : pool op_task (d, os) (d', os') -> system_step (d, ts, os) (d', ts, os').
Definition start : System := ({| machines := emptyMachines; proxy := newProxy; past := [] |}, [], []).

Definition system_ok (s : System) : Prop :=
  route_inv deps s.1.1 /\ Forall (fun m => safe fleet_inv fleet_later m (machines s.1.1)) s.1.2 /\ Forall (fun m => safe (route_inv deps) route_later m s.1.1) s.2.

Lemma system_step_ok s s' : system_step s s' -> system_ok s -> system_ok s' /\ route_later s.1.1 s'.1.1.
Proof.
  intros [d ts os md ts' Hs|d ts os d' os' Hs] (Hi & Hts & Hos); cbn in *.
  - destruct (pool_step_safe fleet_inv fleet_later _ _ _ _ _ (safe_fleet_task settings) Hs (ri_states _ _ Hi _ (now_in d)) Hts) as (Hi' & Hl & Hts').
    destruct (machines_inv deps md d Hi' Hl Hi) as [Hr Hrl]. split; [|exact Hrl]. split_and!; cbn; [done|done|].
    eapply Forall_impl; [exact Hos|]. intros m. by apply (wp_later (route_inv deps) route_later).
  - destruct (pool_step_safe (route_inv deps) route_later op_task d os d' os') as (Hi' & Hl & Hos'); [|exact Hs|done|done|].
    { intros m d1 []. apply safe_operation. }
    split; [|exact Hl]. split_and!; cbn; [done| |done]. eapply Forall_impl; [exact Hts|]. intros m. apply (wp_later fleet_inv fleet_later); [done|].
    apply (history_before deps); [done|]. eapply history_kept; [exact Hl|apply now_in].
Qed.

Lemma system_reached s : rtc system_step start s -> system_ok s.
Proof.
  intros H. assert (forall s0, rtc system_step s0 s -> system_ok s0 -> system_ok s) as Hok.
  { clear H. induction 1 as [x|x y z Hxy _ IH]; [done|]. intros Hx. apply IH. by destruct (system_step_ok _ _ Hxy Hx). }
  apply (Hok _ H). split_and!; [|constructor|constructor]. split; [|repeat constructor|by intros key b].
  intros m Hm%list_elem_of_singleton. subst m. exact empty_fleet_inv.
Qed.

(** A step of the system, from any of its states with this database. *)
Definition meanwhile (d d' : RouteDb) : Prop := exists ts os ts' os', rtc system_step start (d, ts, os) /\ system_step (d, ts, os) (d', ts', os').
Lemma meanwhile_keeps d d' : meanwhile d d' -> route_inv deps d -> route_inv deps d' /\ route_later d d'.
Proof. intros (ts & os & ts' & os' & Hr & Hs) _. destruct (system_step_ok _ _ Hs (system_reached _ Hr)) as [(H1 & _) H2]. by split. Qed.

(** (C19) Whatever swaps, other operations on the same proxy, enrollments and deletions
    happen between its steps, every call an operation makes to a backend goes to
    what the pointer of the session stood for in a state the operation read after
    it began: the session's own box, the pinned machine, or the enrolled machine
    of the sandbox the pointer named, under that pointer's epoch and directory.
    The cache, whoever filled it, changes nothing of that. *)
Theorem routed_to_current implements call textOf nothing retries m d ts os (r : result RouteError R) out d' found :
  rtc system_step start (d, ts, os) -> sees meanwhile (dispatch deps implements call textOf nothing retries m) d r out d' found ->
  forall n s m', (n, s, m') ∈ invocations out -> exists d1, d1 ∈ found /\ standsFor deps (machines d1) s.
Proof.
  intros H Hr. apply (dispatch_sees deps implements call textOf nothing meanwhile m retries meanwhile_keeps 0 d r out d' found); [|exact Hr].
  by destruct (system_reached _ H).
Qed.

(** What the fleet admits a turn can establish: in every state the pointer of the
    session resolves, to the session's own box or to the machine it names, under
    the epoch of the pointer. *)
Theorem admitted_resolves s : rtc (pool (fleet_task settings)) (emptyMachines, []) s -> rd_defaultIsHome deps <> Some false -> rd_pinned deps = None ->
  match activeSandboxId (pointerAt deps s.1) with
  | None => resolvesTo deps (pointerAt deps s.1) s.1 = Ok {| ra_session := DefaultSession; ra_sandboxId := None; ra_kind := rd_defaultKind deps |}
  | Some id => exists agentId e, getEnrollment (rd_workspaceId deps) agentId s.1 = Some e /\
      resolvesTo deps (pointerAt deps s.1) s.1 = Ok {| ra_session := SelfhostedSession agentId (activeEpoch (pointerAt deps s.1)) (nonEmpty (workingDir (pointerAt deps s.1)));
        ra_sandboxId := Some id; ra_kind := js "selfhosted" |}
  end.
Proof.
  intros H Hhome Hpin. destruct (fleet_evolves settings _ _ H (rtc_refl _ _)) as (Hi & _). unfold resolvesTo, pointerAt.
  destruct (readActiveSandbox _ _ s.1) as [p|] eqn:Er; cbn -[bool_decide]; [|by rewrite bool_decide_eq_false_2].
  destruct (activeSandboxId p) as [id|] eqn:Ep; [|by rewrite bool_decide_eq_false_2].
  rewrite bool_decide_eq_false_2 by congruence. unfold readActiveSandbox in Er. destruct (sessionRow _ _ s.1) as [row|] eqn:Es; [|done]. injection Er as <-.
  unfold sessionRow in Es. apply List.find_some in Es as [Hin%list_elem_of_In [Hw%same_eq _]%andb_true_iff].
  destruct (pointer_machine _ _ _ Hi Hin Ep) as (b & i & e & Hg & Hb & Hk & Hn & He). rewrite Hw in *. rewrite Hg, Hn. exists i, e. split; [done|].
  destruct (b_kind b); [done|]. by rewrite Hb.
Qed.
End system.

(** ** Examples *)

#[local] Existing Instance examplePlatform.
#[local] Existing Instance exampleDigest.
#[local] Existing Instance exampleNkeys.

Definition chatDeps : ResolverDeps := {| rd_workspaceId := home; rd_sessionId := chat; rd_defaultKind := js "modal"; rd_defaultIsHome := None; rd_pinned := None; rd_establishesModal := false |}.
Definition everything (s : BackendSession) (m : Method) : bool := true.
Definition withMachines (d : MachineDb) : RouteDb := {| machines := d; proxy := newProxy; past := [] |}.
Definition boxBackend : ResolvedActiveBackend := {| ra_session := SelfhostedSession (generated 1) 1 (Some (js "/repo")); ra_sandboxId := Some box; ra_kind := js "selfhosted" |}.

(** An operation runs where the pointer points, and elsewhere after a swap. *)
Definition sayHello (n : nat) (s : BackendSession) (m : Method) : result OpError jstr :=
  match s with SelfhostedSession agentId epoch _ => Ok agentId | _ => Ok (js "box") end.
Definition say : Route jstr := dispatch chatDeps everything sayHello id [] 3 exec_.
Example follows_the_pointer :
  (exec 1 say (withMachines chatting)).1.1 = Ok (js "box") /\
  (exec 1 say (putMachines onMachine (exec 1 say (withMachines chatting)).2)).1.1 = Ok (generated 1).
Proof. split; vm_compute; reflexivity. Qed.

(** An error that merely mentions the word is taken for a fence, and the
    operation is run four times. *)
Definition missing (n : nat) (s : BackendSession) (m : Method) : result OpError jstr := Err (Failed (js "Error") (js "ENOENT: no such file or directory, open '/src/fenced.ts'")).
Example ordinary_error_retried :
  length (invocations (exec 1 (dispatch chatDeps everything missing id [] 3 writeFile) (withMachines onMachine)).1.2) = 4%nat.
Proof. vm_compute. reflexivity. Qed.

(** The editor bound at the start of a turn stays with the box after a swap. *)
Definition homeBackend : ResolvedActiveBackend := {| ra_session := DefaultSession; ra_sandboxId := None; ra_kind := js "modal" |}.
Example editor_not_swapped :
  let primed := (exec 1 (resolve chatDeps) (withMachines chatting)).2 in
  createEditor everything (Some homeBackend) primed = Some DefaultSession /\
  (exec 1 (resolve chatDeps) (putMachines onMachine primed)).1.1 = Ok boxBackend.
Proof. split; vm_compute; reflexivity. Qed.

Lemma machines_alone s s' p (os : list (Route jstr)) : rtc (pool (fleet_task exampleMachines)) s s' -> forall before, exists before',
  rtc (system_step exampleMachines chatDeps) ({| machines := s.1; proxy := p; past := before |}, s.2, os) ({| machines := s'.1; proxy := p; past := before' |}, s'.2, os).
Proof.
  induction 1 as [s|s1 s2 s3 H _ IH]; intros before; [exists before; left|]. destruct (IH (before ++ [s1.1])) as [before' Hs]. exists before'.
  eapply rtc_l; [|exact Hs]. destruct s1 as [d1 t1], s2 as [d2 t2].
  exact (machines_step exampleMachines chatDeps {| machines := d1; proxy := p; past := before |} t1 os d2 t2 H).
Qed.
(** A first operation of a session that was swapped to a machine. *)
Definition swapped (before : list MachineDb) : RouteDb := {| machines := onMachine; proxy := newProxy; past := before |}.
Lemma routed_to_current_witness : exists before d1, (exec 1 say (swapped before)).1.1 = Ok (generated 1) /\
  standsFor chatDeps (machines d1) (SelfhostedSession (generated 1) 1 (Some (js "/repo"))).
Proof.
  destruct (machines_alone (emptyMachines, []) (onMachine, []) newProxy [] reached_onMachine []) as [before Hs].
  destruct (runs_sees (meanwhile exampleMachines chatDeps (R := jstr)) say (swapped before) _ _ _ (exec_runs _ 1 say (swapped before))) as [found Hf].
  destruct (routed_to_current (R := jstr) exampleMachines chatDeps everything sayHello id [] 3 exec_ (swapped before) [] []
    (exec 1 say (swapped before)).1.1 (exec 1 say (swapped before)).1.2 (exec 1 say (swapped before)).2 found Hs Hf
    0%nat (SelfhostedSession (generated 1) 1 (Some (js "/repo"))) exec_) as (d1 & _ & Hd).
  - assert (invocations (exec 1 say (swapped before)).1.2 = [(0%nat, SelfhostedSession (generated 1) 1 (Some (js "/repo")), exec_)]) as -> by (vm_compute; reflexivity). by left.
  - exists before, d1. split; [vm_compute; reflexivity|exact Hd].
Defined.
Lemma admitted_resolves_witness : resolvesTo chatDeps (pointerAt chatDeps onMachine) onMachine = Ok boxBackend.
Proof.
  pose proof (admitted_resolves exampleMachines chatDeps (onMachine, []) reached_onMachine) as H.
  assert (activeSandboxId (pointerAt chatDeps onMachine) = Some box) as E by (vm_compute; reflexivity). cbn [fst] in H. rewrite E in H.
  destruct H as (agentId & e & _ & H); [discriminate|reflexivity|]. rewrite H. vm_compute in H |- *. injection H as <-. reflexivity.
Defined.
Lemma dispatch_retries_witness : exists fenced final,
  invocations (exec 1 (dispatch chatDeps everything missing id [] 3 writeFile) (withMachines onMachine)).1.2 = fenced ++ final /\ (length (fenced ++ final) <= 4)%nat.
Proof.
  destruct (dispatch_retries chatDeps everything missing id [] 3 (fun _ _ => False) writeFile (withMachines onMachine)
    (exec 1 (dispatch chatDeps everything missing id [] 3 writeFile) (withMachines onMachine)).1.1
    (exec 1 (dispatch chatDeps everything missing id [] 3 writeFile) (withMachines onMachine)).1.2
    (exec 1 (dispatch chatDeps everything missing id [] 3 writeFile) (withMachines onMachine)).2) as (fenced & final & H1 & H2 & _).
  - apply exec_runs.
  - exists fenced, final. split; [exact H1|]. rewrite <- H1. exact H2.
Defined.
End Routing.
